(* ===== verification/_CoqProject ===== *)
-Q . S2P
Prelude.v
Array.v
Bitmap.v
Queue.v
Copyinout.v
Uio.v
Lhd.v
Cstring.v
Sfsdisk.v
Sfs.v
Sfsfile.v
Sfsdir.v
Sfstrunc.v
Sfsvol.v
Sfsref.v
Sfsdemo.v
Filetable.v
Scheduler.v
Thread.v
Threadsafe.v
Threadswitch.v
Threadsys.v
Ram.v
Kheap.v
Kheapsafe.v
Kheapspec.v
Vfs.v
Vfssafe.v
Fileio.v
Vfspaths.v
Vfsops.v
Vfsmount.v
Vfsspec.v
Device.v
Devicespec.v
Dumbvm.v
Dumbvmspec.v
Printf.v
Printfspec.v
Mksfs.v
Mksfsspec.v
Loadelf.v
Loadelfspec.v
Loadelfvm.v
Mips.v
Mipsinsn.v
Mipssafe.v
Mipsuser.v
Mipsspec.v
Syscall.v
Syscallsafe.v
Syscallspec.v
Syscalldemo.v
Clock.v
Clockspec.v
Lamebus.v
Lamebussafe.v
Lamebusspec.v
Lamebusrun.v
Lamebusthm.v
Isolation.v
Drivers.v
Driversspec.v
Driversthm.v
Catmouse.v
Catmousespec.v
Pseudorand.v
