(* ===== verification/Prelude.v ===== *)
(** * OS/161: a verification of its kernel

    OS/161 is a small teaching kernel for a simulated MIPS machine (System/161).  Its own kernel
    code is under src/os161-1.11/kern, the C library it links under src/os161-1.11/lib/libc, the
    simulator under src/sys161-1.14.  This library translates the kernel's core from C into
    executable Rocq functions, function by function and under the same names, and proves what
    makes each part correct.  File names below are relative to those directories.

    ** How C is modelled

    This file has the result type of C code, [outcome]: normal completion, a failed [assert] or
    [panic] ([Panic]), behaviour C leaves undefined ([Undef]: a bad pointer, an index out of range, an
    uninitialised read) and a loop that has used up its fuel ([Spin]).  Stateful code is in
    the monad [M S] of state passing over [outcome], with [let*] for sequencing and [let?] for the idiom
    [result = f(); if (result) return result;].  [wp m Q s] says that [m] run in [s] ends normally
    in a state and result that satisfy [Q].  Integers are [Z] with their wrap-around written out ([u32], [i32],
    [u16], [u8]); buffers are lists of bytes; a pointer to a heap object is a key of a finite map, so that
    aliasing and use after free are visible.  Where an allocation may fail, a script of booleans in the
    state ([mem]) decides.  A theorem that needs memory to last has an empty script among its hypotheses or in its invariant: those
    about the thread system ([Threadsafe.kr_mem]) and the system calls on top of it, file tables, loading a vnode and mounting a volume again (Sfsref.v) and the device
    vnodes of Devicespec.v.  The others hold for every script, and what running out of memory does to a thread switch is a theorem of its own.

    Loops over data are structural or bounded by the data; the fuels are the bounds of the code
    itself (the 143 blocks of an inode, the 100 threads, the 64 TLB entries, ten retries of a disk
    operation) or, for the idle loop, the script of interrupts; every theorem that says an operation
    returns is about its [Ok] result, so no property holds by running out of fuel.

    ** The parts and the files that model them

    - Kernel library: Array.v (lib/array.c), Bitmap.v (lib/bitmap.c), Queue.v (lib/queue.c), Cstring.v
      (the string and memory functions of libc).  Each operation refines one on a list or a set.
    - Heap: Ram.v (arch/mips/mips/ram.c and the page allocator of dumbvm.c), Kheap.v (lib/kheap.c: page
      references, free lists, subpage blocks), Kheapsafe.v (its invariant), Kheapspec.v ([kmalloc] and
      [kfree] refine insertion into and deletion from a map of blocks, blocks never overlap).
    - User memory: Copyinout.v (lib/copyinout.c), Uio.v (userprog/uio.c): exactly the region named is
      read or written, EFAULT otherwise.
    - Virtual memory: Dumbvm.v (arch/mips/mips/dumbvm.c), Dumbvmspec.v (the TLB holds translations of the
      current address space only, address spaces never share memory, [as_copy] copies).
    - Disk: Lhd.v (dev/lamebus/lhd.c together with the disk of sys161 bus/dev_disk.c).
    - SFS: Sfsdisk.v (fs/sfs/sfs_io.c and the on-disk layouts of include/kern/sfs.h), Sfs.v (every operation
      of fs/sfs/sfs_vnode.c and sfs_fs.c, with vnode.c), Sfsfile.v (block map, read, write), Sfsdir.v
      (directories refine finite maps), Sfstrunc.v (truncation), Sfsvol.v (sync and mount), Sfsref.v (the
      life of a vnode), Sfsdemo.v (a concrete volume at which the theorems are instantiated).
    - VFS: Vfs.v (fs/vfs/vfslist.c, vfslookup.c, vfspath.c, vfscwd.c) over the interface [Vnodes], whose
      promises are the class [VnodeLaws] of Vfssafe.v; Vfspaths.v, Vfsops.v, Vfsmount.v and Vfsspec.v prove the
      layer against the interface; Device.v and Devicespec.v (fs/vfs/device.c, devnull.c) discharge it.
    - File tables: Filetable.v (userprog/filetable.c).
    - Threads: Scheduler.v (thread/scheduler.c), Thread.v (thread/thread.c, synch.c, hardclock.c,
      arch/mips/mips/pcb.c), Threadsafe.v, Threadswitch.v and Threadsys.v (an invariant, and the machine that
      interleaves the threads' operations).
    - Formatted output: Printf.v (libc __printf.c, and the snprintf.c that collects its pieces), Printfspec.v (an
      independent definition of decimal, octal and hexadecimal numerals and of padding).
    - Making a volume: Mksfs.v (sbin/mksfs/mksfs.c, the program that writes an empty file system), Mksfsspec.v
      (what it writes is a consistent volume, which the kernel mounts).
    - Loading programs: Loadelf.v (userprog/loadelf.c) over the interface [Exec] of an executable file and an
      address space, Loadelfspec.v (its promises [ExecLaws] and what the loader does under them), Loadelfvm.v (the address spaces of
      Dumbvm.v keep the promises, for programs of two segments).
    - The processor: Mips.v (sys161 mipseb/mips.c, inlinemem.h and bootrom.c: registers, TLB, translation,
      exceptions), Mipsinsn.v (every instruction, the cycle, initialisation), over the interface [Bus] of main memory
      and devices, of which nothing is assumed; Mipssafe.v (widths and termination), Mipsuser.v (user mode),
      Mipsspec.v (reference definitions of the arithmetic and of unaligned accesses).
    - System calls: Fileio.v (buffers in user and kernel space, and the interface [Files] of the vnodes that calls work
      on, with its laws [FileLaws]), Syscall.v (userprog/file.c, arch/mips/mips/syscall.c with the dispatcher, fork and the
      entry into user mode, main/main.c sys_reboot), Syscallsafe.v and Syscallspec.v (what each call returns and
      changes, in any order of calls), Syscalldemo.v (a process at which they are instantiated).
    - The clock and the bus: Clock.v (sys161 main/clock.c: the queue of timed actions as linked lists, ticks, waiting) over
      the interface [Devices] of what it calls, Clockspec.v (the queue is a sorted list; the promise [EventInv] of the
      devices; no event is late), Lamebus.v (sys161 bus/lamebus.c, dev_timer.c, dev_serial.c, dev_disk.c, dev_random.c,
      dev_trace.c), Lamebussafe.v (what each device does), Lamebusspec.v (the devices keep the promise), Lamebusrun.v
      (any sequence of ticks and register accesses), Lamebusthm.v (the theorems, and a machine at which they hold).
    - Drivers: Drivers.v (dev/lamebus/lamebus.c, lser.c, ltimer.c, lrandom.c and their attachments, dev/generic/console.c, rtclock.c,
      arch/mips/mips/lamebus_mips.c, interrupt.c) on the bus of Lamebus.v, Driversspec.v (time that passes between accesses, the
      registers, output by polling), Driversthm.v (printing with interrupts off, the probe, the time of day, the timer).
    - The classroom problem: Catmouse.v (asst1/bowls.c, catmouse.c, with its threads as a step relation), Catmousespec.v (the rules,
      and that every run ends).
    - The pseudo-random device: Pseudorand.v (dev/generic/pseudorand.c, random.c).
    - The composition: Isolation.v (arch/mips/mips/tlb_mips1.S [TLB_Write] on the simulated processor, and a user
      program running on the translations that the kernel's [vm_fault] installs).

    ** What the theorems show

    Refinement: file reads and writes are slicing and splicing of a list of bytes, directories are
    finite maps, the heap is a map of blocks, wakeups are a filter on the list of sleepers, TLB faults
    follow the page table.  Safety: thread operations, VFS calls and VM operations keep their invariants
    and do not panic in any reachable state as long as their callers keep to the conditions that [enabled] and [vm_allowed] list (what
    [refused] and [vm_refused] list does panic, as the theorems say); user copies stay in the region; address spaces and heap blocks are
    disjoint.  Round trips: write then read, sync then mount, format then mount, a word stored and
    loaded through unaligned accesses.  Equivalence: formatted numbers and the processor's arithmetic agree with
    reference definitions on integers.  The processor: registers keep their widths
    in every cycle, exceptions nest at most once so that a cycle ends unless a device fails, the debugger or a busy multiplier stops it, or -2^31 is divided by -1; user mode cannot read or change
    privileged state or leave the pages of the TLB, and so, with the kernel's paging, a user
    program touches only the frames of its own address space.  System calls: every file call within its
    bounds is answered, fork makes a child that starts where the parent is.  The clock and the bus: for any sequence of ticks and accesses that asks for nothing
    impossible every event runs at its clock, and a disk operation ends, within a bounded number of ticks, as the
    disk without time does (liveness), so that waiting for it ends.  Drivers: what the kernel prints with interrupts off reaches the line, once and
    in order, the timer drives [hardclock] for ever, the time of day is read as it was at one moment, the probe is a search.
    Loading: the segments of an executable are in user memory as the file has
    them.  Concurrency: in every interleaving of cats and mice the rules are kept or the simulation stops, and it ends.  The random generator has full period.  Errors and bounds: what each operation
    returns on its error branches, and where 32-bit arithmetic or a missing check makes the code do what it does not
    mean to (a lost write after a media error, a block past the end that survives truncation, wrap-around in
    the page allocator, interrupts left off after a fault, and others).

    ** What is assumed and what is not modelled

    Hypotheses name the state an operation starts from (an invariant that is proved preserved), that the disk
    does not fail where a theorem is about a healthy disk, bounds on sizes, and the laws of an interface, for which an instance is given: [VnodeLaws] and
    [FileLaws] (device vnodes, Devicespec.v; a rename is promised between directories only, and a read at splhigh only of the vnodes for which
    [reads_at_splhigh] says so, not of the console), [ExecLaws] (dumbvm.c, Loadelfvm.v) and [EventInv] (the devices of Lamebus.v).  Every
    such theorem is instantiated at a concrete state.  The kernel's disk driver is proved against the disk without time of
    Lhd.v, which the timed disk of Lamebus.v implements.  The amount that schedule_event adds to a delay is computed in
    floating point and comes from a script; so do the host's time, its random numbers and what is typed.  The fuel of
    [check_queue] is [enough], the number of actions times the ranks an event may have; a driver that polls the serial line needs
    [SERIAL_DELAY] reads.  Not modelled: the drivers of the emulator file system (emu.c), the screen and the network, the console as a
    file; the simulator's file system, network and screen devices, its console, configuration and debugger; the trap handler and the start of the first program
    ([mips_trap], [runprogram]); the command menu and the kernel's own
    tests; user programs other than mksfs; the older copy of the kernel under src/asst1; assembly code other than
    [TLB_Write]. *)
From stdpp Require Import base list list_numbers gmap numbers.

#[export] Set Default Goal Selector "!".
Local Open Scope Z_scope.

(** ** Results of C code

    [Ok] is normal completion; [Panic] is a failed [assert] or an explicit
    [panic()], which stops the machine; [Undef] is behaviour the C language
    leaves undefined (a read outside a buffer, a NULL dereference); [Spin] is
    a loop that has used up the iteration bound its model carries. *)
Inductive outcome (A : Type) : Type :=
| Ok (a : A)
| Panic
| Undef
| Spin.
Arguments Ok {A} a.
Arguments Panic {A}.
Arguments Undef {A}.
Arguments Spin {A}.

#[global] Instance outcome_ret : MRet outcome := fun A a => Ok a.
#[global] Instance outcome_bind : MBind outcome := fun A B f m =>
  match m with
  | Ok a => f a
  | Panic => Panic
  | Undef => Undef
  | Spin => Spin
  end.

(** Stateful kernel code: explicit state passing over [outcome]. *)
Definition M (S A : Type) : Type := S → outcome (A * S).

#[global] Instance M_ret S : MRet (M S) := fun A a s => Ok (a, s).
#[global] Instance M_bind S : MBind (M S) := fun A B f m s =>
  match m s with
  | Ok (a, s') => f a s'
  | Panic => Panic
  | Undef => Undef
  | Spin => Spin
  end.

Declare Scope kern_scope.
Delimit Scope kern_scope with kern.
Open Scope kern_scope.

Notation "'let*' x := m 'in' k" := (mbind (fun x => k) m)
  (at level 10, x name, m at level 100, k at level 200) : kern_scope.
Notation "'let*' ' p := m 'in' k" := (mbind (fun p => k) m)
  (at level 10, p strict pattern, m at level 100, k at level 200) : kern_scope.

(** The idiom [result = f(..); if (result) return result;]: [inl] carries a
    non-zero errno, [inr] the value handed back through the out parameter. *)
Notation "'let?' x := m 'in' k" :=
  (mbind (fun r => match r with inl e => mret (inl e) | inr x => k end) m)
  (at level 10, x name, m at level 100, k at level 200) : kern_scope.

Section monad.
Context {S : Type}.

Definition get : M S S := fun s => Ok (s, s).

Definition gets {A} (f : S → A) : M S A := fun s => Ok (f s, s).

Definition modify (f : S → S) : M S unit := fun s => Ok (tt, f s).

Definition panic {A} : M S A := fun _ => Panic.

Definition massert (b : bool) : M S unit := fun s => if b then Ok (tt, s) else Panic.

(** A pure computation that may panic, run inside the state monad. *)
Definition lift {A} (o : outcome A) : M S A := fun s =>
  match o with
  | Ok a => Ok (a, s)
  | Panic => Panic
  | Undef => Undef
  | Spin => Spin
  end.

(** Weakest precondition of total correctness: [m] completes from [s], without
    panic, undefined behaviour or exhausted loop bound, and ends in [Q]. *)
Definition wp {A} (m : M S A) (Q : A → S → Prop) (s : S) : Prop :=
  match m s with
  | Ok (a, s') => Q a s'
  | _ => False
  end.
End monad.

(** Run code of a component on the part of the state that belongs to it. *)
Definition zoom {S T A} (g : S → T) (p : T → S → S) (m : M T A) : M S A := fun s =>
  match m (g s) with
  | Ok (a, t) => Ok (a, p t s)
  | Panic => Panic
  | Undef => Undef
  | Spin => Spin
  end.

(** [assert] inside pure code. *)
Definition oassert (b : bool) : outcome unit := if b then Ok tt else Panic.

Definition of_option {A} (o : option A) : outcome A :=
  match o with
  | Some a => Ok a
  | None => Undef
  end.

Definition is_ok {A} (o : outcome A) : bool :=
  match o with
  | Ok _ => true
  | _ => false
  end.

(** ** Machine integers (arch/mips/include/types.h) *)
Definition u8 (z : Z) : Z := z `mod` 2 ^ 8.
Definition u16 (z : Z) : Z := z `mod` 2 ^ 16.
Definition u32 (z : Z) : Z := z `mod` 2 ^ 32.
Definition i32 (z : Z) : Z := (z + 2 ^ 31) `mod` 2 ^ 32 - 2 ^ 31.

(** [DIVROUNDUP] of kern/include/lib.h, on unsigned operands. *)
Definition DIVROUNDUP (a b : Z) : Z := u32 (u32 (u32 (a + b) - 1) `div` b).

(** ** Error codes (kern/include/kern/errno.h) *)
Definition EINVAL : Z := 1.
Definition EFAULT : Z := 2.
Definition ENAMETOOLONG : Z := 3.
Definition ENOMEM : Z := 4.
Definition EIO : Z := 5.
Definition ENOENT : Z := 6.
Definition ENOTDIR : Z := 7.
Definition EISDIR : Z := 8.
Definition EEXIST : Z := 9.
Definition EXDEV : Z := 10.
Definition EAGAIN : Z := 11.
Definition ESPIPE : Z := 12.
Definition EUNIMP : Z := 13.
Definition ENXIO : Z := 14.
Definition ENODEV : Z := 15.
Definition EBUSY : Z := 16.
Definition EIOCTL : Z := 17.
Definition ENOTEMPTY : Z := 18.
Definition ERANGE : Z := 19.
Definition ENOSPC : Z := 20.
Definition EMFILE : Z := 21.
Definition ENFILE : Z := 22.
Definition ENOSYS : Z := 23.
Definition ENOEXEC : Z := 24.
Definition E2BIG : Z := 25.
Definition EBADF : Z := 26.

(** ** Byte buffers *)

(** [memcpy(l + n, l', length l')]: overwrite [l] with [l'] from index [n]. *)
Definition splice {A} (n : nat) (l' l : list A) : list A :=
  take n l ++ l' ++ drop (n + length l') l.

(** Big-endian encodings (the kernel runs on mipseb). *)
Definition be32 (z : Z) : list Z :=
  [u8 (z `div` 2 ^ 24); u8 (z `div` 2 ^ 16); u8 (z `div` 2 ^ 8); u8 z].

Definition be16 (z : Z) : list Z := [u8 (z `div` 2 ^ 8); u8 z].

Definition un_be (l : list Z) : Z := foldl (fun acc b => acc * 256 + b) 0 l.

Definition is_byte (b : Z) : Prop := (0 ≤ b < 256).

(** ** Automation *)
Create HintDb kern discriminated.

Create Rewrite HintDb len.

#[export] Hint Rewrite @length_app @length_take @length_drop @length_replicate
  @length_insert @length_cons @length_nil @length_fmap @length_reverse @length_seqZ : len.

Ltac len := autorewrite with len in *; try lia.

(** Case split on the scrutinee of a [match] or [if] in the goal or in [H]. *)
Ltac case_if :=
  match goal with
  | |- context [if ?b then _ else _] => destruct b eqn:?
  | |- context [match ?x with _ => _ end] => destruct x eqn:?
  end.
Ltac case_if_in H :=
  match type of H with
  | context [if ?b then _ else _] => destruct b eqn:?
  | context [match ?x with _ => _ end] => destruct x eqn:?
  end.

(** Turn boolean comparisons in the context into arithmetic. *)
Ltac bdestr :=
  repeat match goal with
  | H : (_ && _)%bool = true |- _ => apply andb_prop in H; destruct H
  | H : (_ || _)%bool = false |- _ => apply orb_false_elim in H; destruct H
  | H : negb _ = true |- _ => apply negb_true_iff in H
  | H : negb _ = false |- _ => apply negb_false_iff in H
  | H : bool_decide _ = true |- _ => apply bool_decide_eq_true_1 in H
  | H : bool_decide _ = false |- _ => apply bool_decide_eq_false_1 in H
  end.

(** ** Monad laws used by every component *)
Section wp_rules.
Context {S : Type}.

Lemma wp_ret {A} (a : A) (Q : A → S → Prop) s : wp (mret a) Q s ↔ Q a s.
Proof. done. Qed.

Lemma wp_bind {A B} (m : M S A) (f : A → M S B) (Q : B → S → Prop) s :
  wp (mbind f m) Q s ↔ wp m (fun a s' => wp (f a) Q s') s.
Proof. unfold wp, mbind, M_bind. by destruct (m s) as [[]| | |]. Qed.

Lemma wp_mono {A} (m : M S A) (P Q : A → S → Prop) s :
  wp m P s → (∀ a s', P a s' → Q a s') → wp m Q s.
Proof. unfold wp. destruct (m s) as [[]| | |]; naive_solver. Qed.

Lemma wp_conj {A} (m : M S A) (P Q : A → S → Prop) s :
  wp m P s → wp m Q s → wp m (fun a s' => P a s' ∧ Q a s') s.
Proof. unfold wp. destruct (m s) as [[]| | |]; naive_solver. Qed.

Lemma wp_run {A} (m : M S A) (Q : A → S → Prop) s :
  wp m Q s ↔ ∃ a s', m s = Ok (a, s') ∧ Q a s'.
Proof. unfold wp. destruct (m s) as [[]| | |]; naive_solver. Qed.

Lemma bind_ok {A B} (m : M S A) (f : A → M S B) s a s' :
  m s = Ok (a, s') → (mbind f m) s = f a s'.
Proof. intros E. unfold mbind, M_bind. by rewrite E. Qed.

Lemma wp_gets {A} (f : S → A) (Q : A → S → Prop) s : wp (gets f) Q s ↔ Q (f s) s.
Proof. done. Qed.

Lemma wp_modify f (Q : unit → S → Prop) s : wp (modify f) Q s ↔ Q tt (f s).
Proof. done. Qed.

Lemma wp_massert b (Q : unit → S → Prop) s : wp (massert b) Q s ↔ b = true ∧ Q tt s.
Proof. unfold wp, massert. destruct b; naive_solver. Qed.

Lemma wp_lift {A} (o : outcome A) (Q : A → S → Prop) s :
  wp (lift o) Q s ↔ ∃ a, o = Ok a ∧ Q a s.
Proof. unfold wp, lift. destruct o; naive_solver. Qed.
End wp_rules.

(** ** Machine-integer lemmas *)
Lemma u32_small z : (0 ≤ z < 2 ^ 32) → u32 z = z.
Proof. intros. by apply Z.mod_small. Qed.

Lemma u32_range z : (0 ≤ u32 z < 2 ^ 32).
Proof. by apply Z.mod_pos_bound. Qed.

Lemma u8_range z : (0 ≤ u8 z < 256).
Proof. by apply Z.mod_pos_bound. Qed.

Lemma u8_small z : (0 ≤ z < 256) → u8 z = z.
Proof. intros. by apply Z.mod_small. Qed.

Lemma u16_small z : (0 ≤ z < 2 ^ 16) → u16 z = z.
Proof. intros. by apply Z.mod_small. Qed.

Lemma i32_small z : (- 2 ^ 31 ≤ z < 2 ^ 31) → i32 z = z.
Proof. intros. unfold i32. rewrite Z.mod_small; lia. Qed.

Lemma i32_range z : (- 2 ^ 31 ≤ i32 z < 2 ^ 31).
Proof.
  unfold i32. pose proof (Z.mod_pos_bound (z + 2 ^ 31) (2 ^ 32) ltac:(done)). lia.
Qed.

Lemma DIVROUNDUP_eq a b :
  (0 ≤ a) → (0 < b) → (a + b < 2 ^ 32) → DIVROUNDUP a b = ((a + b - 1) `div` b).
Proof.
  intros. unfold DIVROUNDUP. rewrite (u32_small (a + b)) by lia.
  rewrite (u32_small (a + b - 1)) by lia.
  apply u32_small. split.
  - apply Z.div_pos; lia.
  - apply Z.div_lt_upper_bound; nia.
Qed.

(** ** Buffer lemmas *)
Section splice_lemmas.
Context {A : Type}.
Implicit Types l : list A.

Lemma length_splice n l' l :
  (n + length l' ≤ length l)%nat → length (splice n l' l) = length l.
Proof. intros. unfold splice. len. Qed.

Lemma splice_nil n l : splice n [] l = l.
Proof. unfold splice. simpl. rewrite Nat.add_0_r. apply take_drop. Qed.

Lemma splice_all l' l : length l' = length l → splice 0 l' l = l'.
Proof.
  intros E. unfold splice. rewrite take_0, Nat.add_0_l, E, drop_all. simpl. apply app_nil_r.
Qed.

Lemma lookup_splice_in n l' l i :
  (n ≤ length l)%nat → (n ≤ i < n + length l')%nat → splice n l' l !! i = l' !! (i - n)%nat.
Proof.
  intros. unfold splice.
  rewrite lookup_app_r by len.
  rewrite lookup_app_l by len. f_equal. len.
Qed.

Lemma lookup_splice_out n l' l i :
  (n ≤ length l)%nat → (i < n ∨ n + length l' ≤ i)%nat → splice n l' l !! i = l !! i.
Proof.
  intros Hn [Hi|Hi]; unfold splice.
  - rewrite lookup_app_l by len. by rewrite lookup_take_lt by lia.
  - rewrite lookup_app_r by len. rewrite lookup_app_r by len.
    rewrite lookup_drop. f_equal. len.
Qed.

Lemma splice_cons i x l' l :
  (i < length l)%nat → splice i (x :: l') l = splice (S i) l' (<[i := x]> l).
Proof.
  intros Hi. unfold splice. simpl length. rewrite drop_insert_lt by lia.
  rewrite (take_S_r (<[i := x]> l) i x) by (by apply list_lookup_insert_eq).
  rewrite take_insert_ge by lia. rewrite <- app_assoc. simpl. repeat f_equal; lia.
Qed.

Lemma drop_S_lookup i l x : l !! i = Some x → drop i l = x :: drop (S i) l.
Proof. intros. by apply drop_S. Qed.
End splice_lemmas.

(** ** Encoding round trips *)
Lemma length_be32 z : length (be32 z) = 4%nat.
Proof. done. Qed.

Lemma length_be16 z : length (be16 z) = 2%nat.
Proof. done. Qed.

#[export] Hint Rewrite length_be32 length_be16 : len.

Lemma un_be_be32 z : (0 ≤ z < 2 ^ 32) → un_be (be32 z) = z.
Proof.
  intros. unfold un_be, be32, u8. simpl foldl.
  change (2 ^ 24) with 16777216. change (2 ^ 16) with 65536. change (2 ^ 8) with 256.
  Z.to_euclidean_division_equations. lia.
Qed.

Lemma un_be_be16 z : (0 ≤ z < 2 ^ 16) → un_be (be16 z) = z.
Proof.
  intros. unfold un_be, be16, u8. simpl foldl.
  change (2 ^ 8) with 256. Z.to_euclidean_division_equations. lia.
Qed.

Lemma be32_bytes z : Forall is_byte (be32 z).
Proof. unfold be32, is_byte. repeat constructor; apply u8_range. Qed.

Lemma be16_bytes z : Forall is_byte (be16 z).
Proof. unfold be16, is_byte. repeat constructor; apply u8_range. Qed.

#[export] Hint Resolve be32_bytes be16_bytes u8_range u32_range : kern.
