(* ===== verification/Array.v ===== *)
(** * Resizeable arrays of pointers (kern/lib/array.c)

    [array] is [struct array]; every function of array.c is a definition of
    the same name.  A buffer from [kmalloc] starts uninitialised, so a slot is
    an [option]: [None] is an indeterminate pointer.  The argument [mem_ok]
    of an operation that allocates says whether its [kmalloc] returned non-NULL.
    The theorems show that the operations implement a list ([array_rep]),
    and what [array_preallocate] and [array_setsize] promise about later
    allocations. *)
From stdpp Require Import base list numbers.
From S2P Require Import Prelude.
Local Open Scope Z_scope.

Module Array.
Section array.
Context {A : Type}.

Record array := mkarray {
  num : Z;
  max : Z;
  v : option (list (option A))
}.

Definition sizeof_ptr : Z := 4.

(** The slots of a fresh block of [n] bytes. *)
Definition fresh_slots (n : Z) : list (option A) := replicate (Z.to_nat (n `div` sizeof_ptr)) None.

Definition array_create (mem_ok : bool) : option array :=
  if mem_ok then Some (mkarray 0 0 None) else None.

Definition array_getnum (a : array) : Z := num a.

(** [a->v[index]] as an rvalue. *)
Definition load_slot (vv : option (list (option A))) (index : Z) : outcome A :=
  match vv with
  | Some l => if (0 <=? index) then of_option (mjoin (l !! Z.to_nat index)) else Undef
  | None => Undef
  end.

(** [a->v[index] = x]. *)
Definition store_slot (vv : option (list (option A))) (index : Z) (x : A) :
    outcome (option (list (option A))) :=
  match vv with
  | Some l =>
      if (0 <=? index) && (index <? Z.of_nat (length l))
      then Ok (Some (<[Z.to_nat index := Some x]> l)) else Undef
  | None => Undef
  end.

Definition array_getguy (a : array) (index : Z) : outcome A :=
  let* _ := oassert (num a <=? max a) in
  let* _ := oassert ((0 <=? index) && (index <? num a)) in
  load_slot (v a) index.

(** [while (nguys > newmax) newmax = (newmax+1)*2;] with [int] wrap-around. *)
Fixpoint grow_max (fuel : nat) (nguys newmax : Z) : outcome Z :=
  if nguys >? newmax then
    match fuel with
    | O => Spin
    | S fuel' => grow_max fuel' nguys (i32 ((newmax + 1) * 2))
    end
  else Ok newmax.

(** [for (i=0; i<a->num; i++) newv[i] = a->v[i];]: the slots are copied as they
    are, initialised or not. *)
Definition copy_slots (n : Z) (src : option (list (option A))) (dst : list (option A)) :
    outcome (list (option A)) :=
  if n <=? 0 then Ok dst
  else match src with
       | Some l =>
           if (n <=? Z.of_nat (length l)) && (n <=? Z.of_nat (length dst))
           then Ok (splice 0 (take (Z.to_nat n) l) dst) else Undef
       | None => Undef
       end.

Definition array_preallocate (mem_ok : bool) (a : array) (nguys : Z) : outcome (Z * array) :=
  let* _ := oassert ((0 <=? num a) && (num a <=? max a)) in
  let* newmax := grow_max 64 nguys (max a) in
  if mem_ok then
    let* newv := copy_slots (num a) (v a) (fresh_slots (u32 (newmax * sizeof_ptr))) in
    Ok (0, mkarray (num a) newmax (Some newv))
  else Ok (ENOMEM, a).

Definition array_setsize (mem_ok : bool) (a : array) (nguys : Z) : outcome (Z * array) :=
  let* _ := oassert ((0 <=? num a) && (num a <=? max a)) in
  if nguys >? max a then
    let* '(result, a') := array_preallocate mem_ok a nguys in
    if negb (result =? 0) then Ok (result, a')
    else Ok (0, mkarray nguys (max a') (v a'))
  else if (nguys =? 0) && (max a >? 16) then
    let* _ := oassert (match v a with Some _ => true | None => false end) in
    Ok (0, mkarray nguys 0 None)
  else Ok (0, mkarray nguys (max a) (v a)).

Definition array_setguy (a : array) (index : Z) (ptr : A) : outcome array :=
  let* _ := oassert (num a <=? max a) in
  let* _ := oassert ((0 <=? index) && (index <? num a)) in
  let* v' := store_slot (v a) index ptr in
  Ok (mkarray (num a) (max a) v').

Definition array_add (mem_ok : bool) (a : array) (guy : A) : outcome (Z * array) :=
  let ix := num a in
  let* '(result, a') := array_setsize mem_ok a (ix + 1) in
  if negb (result =? 0) then Ok (result, a')
  else
    let* v' := store_slot (v a') ix guy in
    Ok (0, mkarray (num a') (max a') v').

(** [memmove(a->v+index, a->v+index+1, nmove*sizeof(void ptr))]. *)
Definition array_remove (a : array) (index : Z) : outcome array :=
  let* _ := oassert (num a <=? max a) in
  let* _ := oassert ((0 <=? index) && (index <? num a)) in
  let nmove := num a - (index + 1) in
  match v a with
  | Some l =>
      if index + 1 + nmove <=? Z.of_nat (length l) then
        let moved := take (Z.to_nat nmove) (drop (Z.to_nat (index + 1)) l) in
        Ok (mkarray (num a - 1) (max a) (Some (splice (Z.to_nat index) moved l)))
      else Undef
  | None => Undef
  end.

(** The blocks handed to [kfree], in order: the buffer if there is one, then
    the structure itself. *)
Inductive heap_block := HBuffer (l : list (option A)) | HStruct (a : array).

Definition array_destroy (a : array) : list heap_block :=
  (match v a with Some l => [HBuffer l] | None => [] end) ++ [HStruct a].

(** ** Specification

    The structural invariant, and the list an array represents. *)
Definition array_wf (a : array) : Prop :=
  0 ≤ num a ≤ max a ∧ max a < 2 ^ 30 ∧
  match v a with
  | Some l => Z.of_nat (length l) = max a
  | None => max a = 0
  end.

Definition slots (a : array) : list (option A) := default [] (v a).

Definition array_rep (a : array) (l : list A) : Prop :=
  array_wf a ∧ take (Z.to_nat (num a)) (slots a) = Some <$> l.

(** ** Lemmas *)
Lemma array_rep_len a l : array_rep a l → num a = Z.of_nat (length l).
Proof.
  intros [(Hn & Hm & Hv) Ht]. apply (f_equal length) in Ht. unfold slots in Ht.
  destruct (v a) as [s|]; simpl in *; len.
Qed.

Lemma array_rep_lookup a l i x :
  array_rep a l → l !! i = Some x → slots a !! i = Some (Some x).
Proof.
  intros H Hx. pose proof (lookup_lt_Some _ _ _ Hx). pose proof (array_rep_len _ _ H).
  destruct H as [_ Ht]. rewrite <- (lookup_take_lt _ (Z.to_nat (num a))) by lia.
  rewrite Ht, list_lookup_fmap, Hx. done.
Qed.

Lemma load_slot_rep a l i x :
  array_rep a l → 0 ≤ i → l !! Z.to_nat i = Some x → load_slot (v a) i = Ok x.
Proof.
  intros H Hi Hx. apply (array_rep_lookup _ _ _ _ H) in Hx.
  unfold load_slot, slots in *. destruct (v a) as [s|]; simpl in *.
  - rewrite (proj2 (Z.leb_le _ _)) by done. by rewrite Hx.
  - done.
Qed.

(** Doubling from a non-negative capacity reaches any request up to 2^30
    without overflow, in at most 64 rounds. *)
Lemma grow_max_ok fuel nguys m :
  0 ≤ m < 2 ^ 30 → nguys < 2 ^ 30 → nguys ≤ (m + 2) * 2 ^ Z.of_nat fuel - 2 →
  ∃ m', grow_max fuel nguys m = Ok m' ∧ m ≤ m' ∧ nguys ≤ m' ∧ (m' = m ∨ m' < 2 * nguys + 2) ∧
        m' < 2 ^ 31.
Proof.
  revert m. induction fuel as [|fuel IH]; intros m Hm Hn Hb; cbn [grow_max].
  - destruct (Z.gtb_spec nguys m); [lia|]. exists m. repeat split; try lia.
  - destruct (Z.gtb_spec nguys m) as [Hgt|]; [|exists m; repeat split; lia].
    rewrite i32_small by lia. destruct (decide ((m + 1) * 2 < 2 ^ 30)) as [Hs|Hs].
    + destruct (IH ((m + 1) * 2)) as (m' & -> & ? & ? & ? & ?); [lia|lia| |].
      { rewrite Nat2Z.inj_succ, Z.pow_succ_r in Hb by lia. lia. }
      exists m'. repeat split; lia.
    + assert (grow_max fuel nguys ((m + 1) * 2) = Ok ((m + 1) * 2)) as ->.
      { destruct fuel; cbn [grow_max]; destruct (Z.gtb_spec nguys ((m + 1) * 2)); (lia || done). }
      exists ((m + 1) * 2). repeat split; lia.
Qed.

Lemma grow_max_64 nguys m :
  0 ≤ m < 2 ^ 30 → nguys < 2 ^ 29 - 1 →
  ∃ m', grow_max 64 nguys m = Ok m' ∧ m ≤ m' < 2 ^ 30 ∧ nguys ≤ m' ∧ 0 ≤ m'.
Proof.
  intros Hm Hn. destruct (grow_max_ok 64 nguys m) as (m' & ? & ? & ? & ? & ?); [done|lia|lia|].
  exists m'. repeat split; try done; lia.
Qed.

#[global] Arguments grow_max : simpl never.

Lemma fresh_slots_len n : 0 ≤ n < 2 ^ 30 → length (fresh_slots (u32 (n * sizeof_ptr))) = Z.to_nat n.
Proof.
  intros. unfold fresh_slots, sizeof_ptr. rewrite u32_small by lia. rewrite Z.div_mul by done. len.
Qed.

(** Copying the live slots of an array into a buffer at least as large. *)
Lemma copy_slots_rep a l m :
  array_rep a l → num a ≤ m < 2 ^ 30 →
  ∃ buf, copy_slots (num a) (v a) (fresh_slots (u32 (m * sizeof_ptr))) = Ok buf ∧
         array_rep (mkarray (num a) m (Some buf)) l.
Proof.
  intros H Hm. pose proof H as [(Hn & Hmax & Hv) Ht]. unfold copy_slots, array_rep, array_wf, slots.
  destruct (Z.leb_spec (num a) 0).
  - eexists. split; [done|]. simpl. rewrite fresh_slots_len by lia. repeat split; try lia.
    replace (Z.to_nat (num a)) with 0%nat in * by lia. rewrite take_0 in *. done.
  - unfold slots in Ht. destruct (v a) as [s|]; simpl in *; [|lia].
    rewrite fresh_slots_len by lia.
    rewrite (proj2 (Z.leb_le _ _)), (proj2 (Z.leb_le _ _)) by lia.
    eexists. split; [done|].
    rewrite length_splice by (rewrite fresh_slots_len by lia; len).
    rewrite fresh_slots_len by lia. repeat split; try lia.
    unfold splice. rewrite take_0. simpl. rewrite take_app_le by len. rewrite take_take.
    by rewrite Nat.min_id.
Qed.

Lemma array_preallocate_ok a l n :
  array_rep a l → n < 2 ^ 29 - 1 →
  ∃ a', array_preallocate true a n = Ok (0, a') ∧ array_rep a' l ∧
        num a' = num a ∧ max a ≤ max a' ∧ n ≤ max a'.
Proof.
  intros H Hn. pose proof H as [(Hnum & Hmax & _) _]. unfold array_preallocate.
  rewrite (proj2 (Z.leb_le 0 _)), (proj2 (Z.leb_le (num a) _)) by lia.
  destruct (grow_max_64 n (max a)) as (m & -> & ? & ? & ?); [lia|lia|]. simpl.
  destruct (copy_slots_rep a l m) as (buf & -> & ?); [done|lia|]. simpl.
  eexists. split; [done|]. simpl. split_and!; (done || lia).
Qed.

Lemma array_setsize_grow a l :
  array_rep a l → Z.of_nat (length l) < 2 ^ 29 - 2 → num a = max a →
  ∃ a', array_setsize true a (num a + 1) = Ok (0, a') ∧
        array_wf a' ∧ num a' = num a + 1 ∧ take (length l) (slots a') = Some <$> l.
Proof.
  intros H Hl Hfull. pose proof (array_rep_len _ _ H) as Hlen.
  pose proof H as [(Hnum & Hmax & _) _]. unfold array_setsize.
  rewrite (proj2 (Z.leb_le 0 _)), (proj2 (Z.leb_le (num a) _)) by lia. simpl.
  destruct (Z.gtb_spec (num a + 1) (max a)); [|lia].
  destruct (array_preallocate_ok a l (num a + 1)) as (a' & -> & H' & E & ? & ?); [done|lia|].
  simpl. eexists. split; [done|]. simpl. pose proof H' as [(? & ? & ?) Ht].
  unfold array_wf, slots in *. simpl. split_and!; try (done || lia).
  by replace (length l) with (Z.to_nat (num a')) by lia.
Qed.

Lemma array_setsize_room a l ok :
  array_rep a l → num a < max a →
  array_setsize ok a (num a + 1) = Ok (0, mkarray (num a + 1) (max a) (v a)).
Proof.
  intros H Hroom. pose proof H as [(Hnum & Hmax & _) _]. unfold array_setsize.
  rewrite (proj2 (Z.leb_le 0 _)), (proj2 (Z.leb_le (num a) _)) by lia. simpl.
  destruct (Z.gtb_spec (num a + 1) (max a)); [lia|].
  by destruct (Z.eqb_spec (num a + 1) 0); [lia|].
Qed.

(** Storing one past a represented prefix appends. *)
Lemma store_slot_append a l x :
  array_wf a → num a = Z.of_nat (length l) + 1 → take (length l) (slots a) = Some <$> l →
  ∃ v', store_slot (v a) (Z.of_nat (length l)) x = Ok v' ∧
        array_rep (mkarray (num a) (max a) v') (l ++ [x]).
Proof.
  intros (Hnum & Hmax & Hv) Hn Ht. unfold store_slot, slots in *.
  destruct (v a) as [s|]; simpl in *; [|lia].
  rewrite (proj2 (Z.leb_le _ _)), (proj2 (Z.ltb_lt _ _)) by lia. simpl.
  eexists. split; [done|]. rewrite Nat2Z.id. unfold array_rep, array_wf, slots. simpl.
  split_and!; try (len; lia). rewrite fmap_app, <- Ht. simpl. replace (Z.to_nat (num a)) with (S (length l)) by lia.
  rewrite take_S_r with (x := Some x) by (rewrite list_lookup_insert_eq; [done|lia]).
  f_equal. by rewrite take_insert_ge by lia.
Qed.

(** ** Theorems *)

(** [array_add] appends: when memory is available, or when the buffer
    already has room, the new list is the old one with the pointer at its end. *)
Theorem array_add_appends a l x ok :
  array_rep a l → Z.of_nat (length l) < 2 ^ 29 - 2 → ok = true ∨ num a < max a →
  ∃ a', array_add ok a x = Ok (0, a') ∧ array_rep a' (l ++ [x]).
Proof.
  intros H Hl Hok. pose proof (array_rep_len _ _ H) as Hlen.
  pose proof H as [Hwf Ht]. pose proof Hwf as (Hnum & Hmax & _). unfold array_add.
  assert (∃ a', array_setsize ok a (num a + 1) = Ok (0, a') ∧ array_wf a' ∧
    num a' = num a + 1 ∧ take (length l) (slots a') = Some <$> l) as (a' & -> & Hw' & Hn' & Ht').
  { destruct (decide (num a < max a)) as [Hroom|Hfull].
    - rewrite (array_setsize_room _ _ _ H Hroom). eexists. split; [done|]. simpl.
      unfold array_wf, slots in *. simpl. destruct Hwf as (? & ? & ?).
      split_and!; try (done || lia).
      by replace (length l) with (Z.to_nat (num a)) by lia.
    - destruct Hok as [->|?]; [|lia]. apply array_setsize_grow; [done|done|lia]. }
  simpl. destruct (store_slot_append a' l x) as (v' & E & H'); [done|lia|done|].
  rewrite Hlen, E. simpl. eauto.
Qed.

(** [array_add] fails only for want of memory, and then leaves the array as it was. *)
Theorem array_add_nomem a l x :
  array_rep a l → Z.of_nat (length l) < 2 ^ 29 - 2 → num a = max a →
  array_add false a x = Ok (ENOMEM, a).
Proof.
  intros H Hl Hfull. pose proof H as [(Hnum & Hmax & _) _].
  unfold array_add, array_setsize, array_preallocate.
  rewrite (proj2 (Z.leb_le 0 _)), (proj2 (Z.leb_le (num a) _)) by lia. simpl.
  destruct (Z.gtb_spec (num a + 1) (max a)); [|lia].
  pose proof (array_rep_len _ _ H).
  by destruct (grow_max_64 (num a + 1) (max a)) as (m & -> & _); [lia|lia|].
Qed.

Theorem array_getguy_rep a l i :
  array_rep a l → array_getguy a (Z.of_nat i) =
    match l !! i with Some x => Ok x | None => Panic end.
Proof.
  intros H. pose proof (array_rep_len _ _ H) as Hlen. pose proof H as [(Hnum & Hmax & _) _].
  unfold array_getguy. rewrite (proj2 (Z.leb_le (num a) _)) by lia. simpl.
  destruct (l !! i) as [x|] eqn:Hx.
  - apply lookup_lt_Some in Hx as Hi. rewrite (proj2 (Z.leb_le 0 _)), (proj2 (Z.ltb_lt _ _)) by lia.
    simpl. apply (load_slot_rep a l); [done|lia|by rewrite Nat2Z.id].
  - apply lookup_ge_None in Hx. rewrite (proj2 (Z.ltb_ge _ _)) by lia. by rewrite andb_false_r.
Qed.

Theorem array_setguy_rep a l i x :
  array_rep a l → (i < length l)%nat →
  ∃ a', array_setguy a (Z.of_nat i) x = Ok a' ∧ array_rep a' (<[i := x]> l).
Proof.
  intros H Hi. pose proof (array_rep_len _ _ H) as Hlen. pose proof H as [(Hnum & Hmax & Hv) Ht].
  unfold array_setguy. rewrite (proj2 (Z.leb_le (num a) _)) by lia.
  rewrite (proj2 (Z.leb_le 0 _)), (proj2 (Z.ltb_lt _ _)) by lia. simpl.
  unfold store_slot, array_rep, array_wf, slots in *. destruct (v a) as [s|]; simpl in *; [|lia].
  rewrite (proj2 (Z.leb_le 0 _)), (proj2 (Z.ltb_lt _ (Z.of_nat (length s)))) by lia. simpl.
  eexists. split; [done|]. simpl. rewrite Nat2Z.id. split_and!; try (len; lia).
  rewrite list_fmap_insert, <- Ht. by rewrite take_insert_lt by lia.
Qed.

(** [array_remove] deletes one element and closes the gap. *)
Theorem array_remove_deletes a l i :
  array_rep a l → (i < length l)%nat →
  ∃ a', array_remove a (Z.of_nat i) = Ok a' ∧ array_rep a' (take i l ++ drop (S i) l) ∧
        max a' = max a.
Proof.
  intros H Hi. pose proof (array_rep_len _ _ H) as Hlen. pose proof H as [(Hnum & Hmax & Hv) Ht].
  unfold array_remove. rewrite (proj2 (Z.leb_le (num a) _)) by lia.
  rewrite (proj2 (Z.leb_le 0 _)), (proj2 (Z.ltb_lt _ (num a))) by lia. simpl.
  unfold array_rep, array_wf, slots in *. destruct (v a) as [s|]; simpl in *; [|lia].
  rewrite (proj2 (Z.leb_le _ (Z.of_nat (length s)))) by lia. eexists. split; [done|]. simpl.
  rewrite Nat2Z.id. replace (Z.to_nat (Z.of_nat i + 1)) with (S i) by lia.
  set (n := length l) in *. replace (Z.to_nat (num a - (Z.of_nat i + 1))) with (n - S i)%nat by lia.
  replace (Z.to_nat (num a - 1)) with (n - 1)%nat by lia.
  replace (Z.to_nat (num a)) with n in Ht by lia.
  split; [|done]. rewrite length_splice by len. split_and!; try lia.
  unfold splice. rewrite app_assoc, take_app_le by (len; lia).
  rewrite take_ge by (len; lia).
  rewrite fmap_app, fmap_take, fmap_drop, <- Ht, take_take, skipn_firstn_comm.
  f_equal. f_equal. lia.
Qed.

(** [array_setsize] to a smaller size keeps the leading elements. *)
Theorem array_setsize_shrinks a l n ok :
  array_rep a l → (n ≤ length l)%nat →
  ∃ a', array_setsize ok a (Z.of_nat n) = Ok (0, a') ∧ array_rep a' (take n l).
Proof.
  intros H Hn. pose proof (array_rep_len _ _ H) as Hlen. pose proof H as [(Hnum & Hmax & Hv) Ht].
  unfold array_setsize. rewrite (proj2 (Z.leb_le 0 _)), (proj2 (Z.leb_le (num a) _)) by lia. simpl.
  destruct (Z.gtb_spec (Z.of_nat n) (max a)); [lia|].
  unfold array_rep, array_wf, slots in *.
  destruct ((Z.of_nat n =? 0) && (max a >? 16)) eqn:E.
  - bdestr. destruct (v a) as [s|]; simpl in *; [|lia].
    replace n with 0%nat by lia. eexists. split; [done|]. simpl. repeat split; lia.
  - eexists. split; [done|]. simpl. split_and!; try lia; [done|].
    rewrite fmap_take, <- Ht, take_take, Nat2Z.id. f_equal. lia.
Qed.

(** What [array_preallocate] promises: once it has succeeded for [n]
    elements, adding elements up to [n] in total never needs memory. *)
Fixpoint add_all (a : array) (xs : list A) : outcome (Z * array) :=
  match xs with
  | [] => Ok (0, a)
  | x :: xs' =>
      let* '(result, a') := array_add false a x in
      if negb (result =? 0) then Ok (result, a') else add_all a' xs'
  end.

Lemma add_all_room a l xs :
  array_rep a l → Z.of_nat (length l + length xs) < 2 ^ 29 - 2 →
  Z.of_nat (length l + length xs) ≤ max a →
  ∃ a', add_all a xs = Ok (0, a') ∧ array_rep a' (l ++ xs).
Proof.
  revert a l. induction xs as [|x xs IH]; intros a l H Hb Hm; simpl.
  - eexists. by rewrite app_nil_r.
  - pose proof (array_rep_len _ _ H) as Hlen. simpl in *.
    destruct (array_add_appends a l x false) as (a' & E & H'); [done|lia|right; lia|].
    assert (max a' = max a) as Hma.
    { unfold array_add in E. rewrite (array_setsize_room a l) in E by (done || lia). simpl in E.
      destruct (store_slot (v a) (num a) x); simpl in E; by simplify_eq. }
    rewrite E. simpl. destruct (IH a' (l ++ [x])) as (a'' & E' & H''); [done|len|len|].
    exists a''. split; [done|]. by rewrite <- app_assoc in H''.
Qed.

(** What [array_preallocate] is for: once [n] slots have been asked for, an array
    can be filled up to [n] elements even when no memory is left. *)
Theorem array_preallocate_promise a l n xs :
  array_rep a l → n < 2 ^ 29 - 2 → Z.of_nat (length l + length xs) ≤ n →
  ∃ a', array_preallocate true a n = Ok (0, a') ∧
        ∃ a'', add_all a' xs = Ok (0, a'') ∧ array_rep a'' (l ++ xs).
Proof.
  intros H Hn Hl. destruct (array_preallocate_ok a l n) as (a' & E & H' & _ & _ & Hm); [done|lia|].
  exists a'. split; [done|]. apply add_all_room; [done|lia|lia].
Qed.

(** ... and how it is lost: emptying an array of more than 16 slots gives the
    buffer back, so that the next [array_add] does need memory. *)
Theorem array_setsize_zero_drops_buffer a l ok x :
  array_rep a l → max a > 16 →
  ∃ a', array_setsize ok a 0 = Ok (0, a') ∧ max a' = 0 ∧ array_add false a' x = Ok (ENOMEM, a').
Proof.
  intros H Hm. pose proof H as [(Hnum & Hmax & Hv) Ht].
  unfold array_setsize. rewrite (proj2 (Z.leb_le 0 _)), (proj2 (Z.leb_le (num a) _)) by lia. simpl.
  destruct (Z.gtb_spec 0 (max a)); [lia|]. rewrite (proj2 (Z.gtb_lt _ _)) by lia. simpl.
  unfold array_rep, array_wf, slots in *. destruct (v a) as [s|]; simpl in *; [|lia].
  eexists. split; [done|]. split; [done|]. done.
Qed.
End array.
Arguments array : clear implicits.

Lemma array_preallocate_promise_witness :
  ∃ a', array_preallocate true (mkarray 0 0 None) 3 = Ok (0, a') ∧
        ∃ a'', add_all a' [7; 8; 9]%nat = Ok (0, a'') ∧ array_rep a'' [7; 8; 9]%nat.
Proof.
  apply (array_preallocate_promise (mkarray 0 0 None) [] 3 [7; 8; 9]%nat); [|lia|done].
  split; [split_and!; vm_compute; done|done].
Defined.

Lemma array_setsize_zero_drops_buffer_witness :
  ∃ a', array_setsize true (mkarray 1 20 (Some (Some 5%nat :: replicate 19 None))) 0 = Ok (0, a') ∧ max a' = 0 ∧
        array_add false a' 6%nat = Ok (ENOMEM, a').
Proof.
  apply (array_setsize_zero_drops_buffer _ [5%nat]); [|done].
  split; [split_and!; vm_compute; done|done].
Defined.
End Array.
