(* ===== verification/Bitmap.v ===== *)
(** * Fixed-size bit arrays (kern/lib/bitmap.c)

    [bitmap] is [struct bitmap], its bits packed in bytes as in the code.
    The theorems refine every operation to the set of marked bit numbers
    ([marked]): allocation returns the least clear bit and fails only when
    every bit is set. *)
From stdpp Require Import base list list_numbers numbers.
From S2P Require Import Prelude.
Local Open Scope Z_scope.

Module Bitmap.

Definition BITS_PER_WORD : Z := 8.
Definition WORD_ALLBITS : Z := 255.

Record bitmap := mkbitmap {
  nbits : Z;
  v : list Z
}.

(** [b->v[ix]] and [b->v[ix] = w]. *)
Definition load (b : bitmap) (ix : Z) : outcome Z := of_option (v b !! Z.to_nat ix).

Definition store (b : bitmap) (ix w : Z) : bitmap :=
  mkbitmap (nbits b) (<[Z.to_nat ix := u8 w]> (v b)).

(** [for (j=overbits; j<BITS_PER_WORD; j++) b->v[ix] |= ((WORD_TYPE)1 << j);] *)
Fixpoint mark_over (k : nat) (b : bitmap) (ix j : Z) : outcome bitmap :=
  match k with
  | O => Ok b
  | S k' =>
      let* w := load b ix in
      mark_over k' (store b ix (Z.lor w (Z.shiftl 1 j))) ix (j + 1)
  end.

(** [ok1], [ok2]: whether the two [kmalloc] calls succeed. *)
Definition bitmap_create (ok1 ok2 : bool) (nb : Z) : outcome (option bitmap) :=
  let words := DIVROUNDUP nb BITS_PER_WORD in
  if negb ok1 then Ok None
  else if negb ok2 then Ok None
  else
    let b := mkbitmap nb (replicate (Z.to_nat words) 0) in
    if nb `div` BITS_PER_WORD <? words then
      let ix := words - 1 in
      let overbits := u32 (nb - ix * BITS_PER_WORD) in
      let* _ := oassert (nb `div` BITS_PER_WORD =? words - 1) in
      let* _ := oassert ((overbits >? 0) && (overbits <? BITS_PER_WORD)) in
      let* b' := mark_over (Z.to_nat (BITS_PER_WORD - overbits)) b ix overbits in
      Ok (Some b')
    else Ok (Some b).

Definition bitmap_getdata (b : bitmap) : list Z := v b.

(** The inner loop of [bitmap_alloc] from [offset] on, [k] rounds left;
    running out of offsets is [assert(0)]. *)
Fixpoint alloc_word (k : nat) (b : bitmap) (ix offset : Z) : outcome (Z * bitmap) :=
  match k with
  | O => Panic
  | S k' =>
      let* w := load b ix in
      let mask := u8 (Z.shiftl 1 offset) in
      if Z.land w mask =? 0 then
        let b' := store b ix (Z.lor w mask) in
        let index := u32 (ix * BITS_PER_WORD + offset) in
        let* _ := oassert (index <? nbits b) in
        Ok (index, b')
      else alloc_word k' b ix (offset + 1)
  end.

Fixpoint alloc_scan (n : nat) (b : bitmap) (ix : Z) : outcome (Z + Z * bitmap) :=
  match n with
  | O => Ok (inl ENOSPC)
  | S n' =>
      let* w := load b ix in
      if negb (w =? WORD_ALLBITS) then
        let* r := alloc_word (Z.to_nat BITS_PER_WORD) b ix 0 in
        Ok (inr r)
      else alloc_scan n' b (ix + 1)
  end.

Definition bitmap_alloc (b : bitmap) : outcome (Z + Z * bitmap) :=
  let maxix := DIVROUNDUP (nbits b) BITS_PER_WORD in
  alloc_scan (Z.to_nat maxix) b 0.

Definition bitmap_translate (bitno : Z) : Z * Z :=
  let ix := bitno `div` BITS_PER_WORD in
  let offset := bitno `mod` BITS_PER_WORD in
  (ix, u8 (Z.shiftl 1 offset)).

Definition bitmap_mark (b : bitmap) (index : Z) : outcome bitmap :=
  let* _ := oassert (index <? nbits b) in
  let '(ix, mask) := bitmap_translate index in
  let* w := load b ix in
  let* _ := oassert (Z.land w mask =? 0) in
  Ok (store b ix (Z.lor w mask)).

Definition bitmap_unmark (b : bitmap) (index : Z) : outcome bitmap :=
  let* _ := oassert (index <? nbits b) in
  let '(ix, mask) := bitmap_translate index in
  let* w := load b ix in
  let* _ := oassert (negb (Z.land w mask =? 0)) in
  Ok (store b ix (Z.land w (Z.lnot mask))).

(** The [int] handed back: non-zero iff the bit is set. *)
Definition bitmap_isset (b : bitmap) (index : Z) : outcome Z :=
  let '(ix, mask) := bitmap_translate index in
  let* w := load b ix in
  Ok (Z.land w mask).

(** ** Specification *)

(** Bit [i] is marked. *)
Definition marked (b : bitmap) (i : Z) : bool :=
  Z.testbit (default 0 (v b !! Z.to_nat (i `div` 8))) (i `mod` 8).

(** The bytes are bytes, there are just enough of them, and the leftover bits
    of the last one are marked in use. *)
Record bitmap_wf (b : bitmap) : Prop := {
  wf_nbits : 0 ≤ nbits b < 2 ^ 32 - 8;
  wf_len : Z.of_nat (length (v b)) = (nbits b + 7) `div` 8;
  wf_bytes : Forall is_byte (v b);
  wf_over : ∀ i, nbits b ≤ i < 8 * Z.of_nat (length (v b)) → marked b i = true
}.

(** ** Lemmas on one word *)
Lemma testbit_mask k i : 0 ≤ k < 8 → 0 ≤ i → Z.testbit (u8 (Z.shiftl 1 k)) i = bool_decide (i = k).
Proof.
  intros Hk Hi. rewrite u8_small.
  - rewrite Z.shiftl_1_l, Z.pow2_bits_eqb by lia. rewrite Z.eqb_sym.
    by destruct (Z.eqb_spec i k); [rewrite bool_decide_true|rewrite bool_decide_false].
  - rewrite Z.shiftl_1_l. split; [apply Z.pow_nonneg; lia|].
    change 256 with (2 ^ 8). apply Z.pow_lt_mono_r; lia.
Qed.

Lemma land_mask_zero w k : 0 ≤ k < 8 → Z.land w (u8 (Z.shiftl 1 k)) = 0 ↔ Z.testbit w k = false.
Proof.
  intros Hk. split.
  - intros E. apply (f_equal (fun z => Z.testbit z k)) in E.
    rewrite Z.land_spec, testbit_mask, Z.bits_0, bool_decide_true, andb_true_r in E by lia. done.
  - intros E. apply Z.bits_inj'. intros i Hi. rewrite Z.land_spec, testbit_mask, Z.bits_0 by lia.
    destruct (decide (i = k)) as [->|?]; [by rewrite E|]. rewrite bool_decide_false by done.
    apply andb_false_r.
Qed.

Lemma byte_testbit_high w i : is_byte w → 8 ≤ i → Z.testbit w i = false.
Proof.
  intros [? ?] Hi. destruct (Z.eq_dec w 0) as [->|]; [apply Z.bits_0|].
  apply Z.bits_above_log2; [lia|]. apply Z.log2_lt_pow2; [lia|].
  assert (2 ^ 8 ≤ 2 ^ i) by (apply Z.pow_le_mono_r; lia). lia.
Qed.

Lemma byte_of_bits w : (∀ i, 8 ≤ i → Z.testbit w i = false) → 0 ≤ w → is_byte w.
Proof.
  intros H ?. split; [done|]. apply Z.nle_gt. intros Hw.
  assert (0 < w) by lia. pose proof (Z.bit_log2 w ltac:(lia)) as Hb.
  rewrite H in Hb; [done|]. apply Z.log2_le_pow2; lia.
Qed.

(** A byte other than 255 has a clear bit; 255 has none. *)
Lemma byte_full w : is_byte w → w = 255 ↔ ∀ k, 0 ≤ k < 8 → Z.testbit w k = true.
Proof.
  intros Hw. split.
  - intros -> k Hk. change 255 with (Z.ones 8). apply Z.ones_spec_low. lia.
  - intros H. change 255 with (Z.ones 8). apply Z.bits_inj'. intros i Hi.
    destruct (decide (i < 8)).
    + rewrite H, Z.ones_spec_low by lia. done.
    + rewrite (byte_testbit_high w), Z.ones_spec_high by (done || lia). done.
Qed.

Lemma byte_not_full w : is_byte w → w ≠ 255 → ∃ k, 0 ≤ k < 8 ∧ Z.testbit w k = false.
Proof.
  intros Hw E. destruct (decide (Exists (fun k => Z.testbit w k = false) (seqZ 0 8))) as [Hex|Hno].
  - apply list.Exists_exists in Hex as (k & Hk & ?). apply elem_of_seqZ in Hk. exists k. split; [lia|done].
  - exfalso. apply E, byte_full; [done|]. intros k Hk. apply not_false_iff_true. intros Hkf.
    apply Hno, list.Exists_exists. exists k. split; [apply elem_of_seqZ; lia|done].
Qed.

Lemma testbit_lor_mask w k i :
  0 ≤ k < 8 → 0 ≤ i → Z.testbit (Z.lor w (u8 (Z.shiftl 1 k))) i = (Z.testbit w i || bool_decide (i = k)).
Proof. intros. by rewrite Z.lor_spec, testbit_mask. Qed.

Lemma lor_mask_byte w k : is_byte w → 0 ≤ k < 8 → is_byte (Z.lor w (u8 (Z.shiftl 1 k))).
Proof.
  intros Hw Hk. apply byte_of_bits.
  - intros i Hi. rewrite testbit_lor_mask, byte_testbit_high, bool_decide_false by (done || lia). done.
  - apply Z.lor_nonneg. pose proof (u8_range (Z.shiftl 1 k)). destruct Hw. lia.
Qed.

Lemma ldiff_mask_byte w m : is_byte w → is_byte (Z.land w (Z.lnot m)).
Proof.
  intros Hw. apply byte_of_bits.
  - intros i Hi. by rewrite Z.land_spec, byte_testbit_high.
  - apply Z.land_nonneg. destruct Hw. lia.
Qed.

(** ** Lemmas on the whole map *)
Lemma div8_split ix k : 0 ≤ k < 8 → (ix * 8 + k) `div` 8 = ix ∧ (ix * 8 + k) `mod` 8 = k.
Proof. intros. Z.to_euclidean_division_equations. lia. Qed.

Lemma marked_store b ix w i :
  0 ≤ ix < Z.of_nat (length (v b)) → 0 ≤ i → is_byte w →
  marked (store b ix w) i = if decide (i `div` 8 = ix) then Z.testbit w (i `mod` 8) else marked b i.
Proof.
  intros Hix Hi Hw. unfold marked, store. simpl. case_decide as E.
  - rewrite E, list_lookup_insert_eq by lia. simpl. by rewrite u8_small.
  - rewrite list_lookup_insert_ne; [done|]. assert (0 ≤ i `div` 8) by (apply Z.div_pos; lia). lia.
Qed.

Lemma load_wf b ix :
  bitmap_wf b → 0 ≤ ix < Z.of_nat (length (v b)) →
  ∃ w, load b ix = Ok w ∧ is_byte w ∧ ∀ k, 0 ≤ k < 8 → Z.testbit w k = marked b (ix * 8 + k).
Proof.
  intros Hb Hix. destruct (lookup_lt_is_Some_2 (v b) (Z.to_nat ix)) as [w Hw]; [lia|].
  exists w. unfold load, marked. split_and!.
  - by rewrite Hw.
  - eapply Forall_lookup_1; [apply (wf_bytes _ Hb)|done].
  - intros k Hk. destruct (div8_split ix k Hk) as [-> ->]. by rewrite Hw.
Qed.

(** The words a wf map has are those [DIVROUNDUP] counts. *)
Lemma words_eq b : bitmap_wf b → DIVROUNDUP (nbits b) BITS_PER_WORD = Z.of_nat (length (v b)).
Proof.
  intros Hb. pose proof (wf_nbits _ Hb). unfold BITS_PER_WORD. rewrite DIVROUNDUP_eq by lia.
  rewrite (wf_len _ Hb). f_equal. lia.
Qed.

Lemma nbits_le_words b : bitmap_wf b → nbits b ≤ 8 * Z.of_nat (length (v b)) < nbits b + 8.
Proof. intros Hb. rewrite (wf_len _ Hb). Z.to_euclidean_division_equations. lia. Qed.

(** Marking or clearing bit [i] of a wf map through its word. *)
Lemma set_bit_spec b i w (val : bool) w' :
  bitmap_wf b → 0 ≤ i < nbits b → load b (i `div` 8) = Ok w → is_byte w' →
  (∀ k, 0 ≤ k < 8 → Z.testbit w' k = if decide (k = i `mod` 8) then val else Z.testbit w k) →
  bitmap_wf (store b (i `div` 8) w') ∧
  (∀ j, 0 ≤ j → marked (store b (i `div` 8) w') j = if decide (j = i) then val else marked b j) ∧
  nbits (store b (i `div` 8) w') = nbits b.
Proof.
  intros Hb Hi Hw Hw' Hbits. pose proof (nbits_le_words _ Hb) as Hlen.
  assert (0 ≤ i `div` 8 < Z.of_nat (length (v b))) as Hix
    by (Z.to_euclidean_division_equations; lia).
  assert (∀ j, 0 ≤ j → marked (store b (i `div` 8) w') j =
            if decide (j = i) then val else marked b j) as Hm.
  { intros j Hj. rewrite marked_store by done. pose proof (Z.mod_pos_bound j 8 ltac:(done)).
    case_decide as E.
    - rewrite Hbits by done. case_decide as E2; case_decide as E3; try done.
      + exfalso. apply E3. rewrite (Z.div_mod j 8), (Z.div_mod i 8), E, E2 by done. done.
      + by subst.
      + unfold load in Hw. unfold marked. rewrite E.
        destruct (v b !! Z.to_nat (i `div` 8)); simpl in *; by simplify_eq.
    - case_decide as E2; [by subst|done]. }
  split_and!; [|done|done]. constructor; simpl.
  - apply (wf_nbits _ Hb).
  - rewrite length_insert. apply (wf_len _ Hb).
  - apply Forall_insert; [apply (wf_bytes _ Hb)|]. rewrite u8_small; done.
  - intros j Hj. rewrite length_insert in Hj. rewrite Hm by lia.
    case_decide; [lia|]. by apply (wf_over _ Hb).
Qed.

Lemma mark_word b i w :
  bitmap_wf b → 0 ≤ i < nbits b → load b (i `div` 8) = Ok w → is_byte w →
  let b' := store b (i `div` 8) (Z.lor w (u8 (Z.shiftl 1 (i `mod` 8)))) in
  bitmap_wf b' ∧ (∀ j, 0 ≤ j → marked b' j = if decide (j = i) then true else marked b j) ∧
  nbits b' = nbits b.
Proof.
  intros Hb Hi Hw Hbw. pose proof (Z.mod_pos_bound i 8 ltac:(done)).
  apply (set_bit_spec b i w true); [done|done|done|by apply lor_mask_byte|].
  intros k Hk. rewrite testbit_lor_mask by lia. case_decide as E.
  - rewrite bool_decide_true by done. apply orb_true_r.
  - rewrite bool_decide_false by done. apply orb_false_r.
Qed.

Lemma unmark_word b i w :
  bitmap_wf b → 0 ≤ i < nbits b → load b (i `div` 8) = Ok w → is_byte w →
  let b' := store b (i `div` 8) (Z.land w (Z.lnot (u8 (Z.shiftl 1 (i `mod` 8))))) in
  bitmap_wf b' ∧ (∀ j, 0 ≤ j → marked b' j = if decide (j = i) then false else marked b j) ∧
  nbits b' = nbits b.
Proof.
  intros Hb Hi Hw Hbw. pose proof (Z.mod_pos_bound i 8 ltac:(done)).
  apply (set_bit_spec b i w false); [done|done|done|by apply ldiff_mask_byte|].
  intros k Hk. rewrite Z.land_spec, Z.lnot_spec, testbit_mask by lia. case_decide as E.
  - rewrite bool_decide_true by done. apply andb_false_r.
  - rewrite bool_decide_false by done. apply andb_true_r.
Qed.

(** One bit of a wf map, read through its word. *)
Lemma bit_of_word b i :
  bitmap_wf b → 0 ≤ i < nbits b →
  ∃ w, load b (i `div` 8) = Ok w ∧ is_byte w ∧ Z.testbit w (i `mod` 8) = marked b i.
Proof.
  intros Hb Hi. pose proof (nbits_le_words _ Hb). pose proof (Z.mod_pos_bound i 8 ltac:(done)).
  destruct (load_wf b (i `div` 8) Hb) as (w & ? & ? & Hk).
  { Z.to_euclidean_division_equations; lia. }
  exists w. split_and!; [done|done|]. rewrite Hk by done. f_equal.
  rewrite (Z.div_mod i 8) at 3 by done. lia.
Qed.

(** The inner loop finds the least clear bit of its word. *)
Lemma alloc_word_spec b ix k off :
  bitmap_wf b → 0 ≤ ix < Z.of_nat (length (v b)) → 0 ≤ off → Z.of_nat k + off = 8 →
  (∀ j, ix * 8 ≤ j < ix * 8 + off → marked b j = true) →
  (∃ j, ix * 8 + off ≤ j < ix * 8 + 8 ∧ marked b j = false) →
  ∃ i b', alloc_word k b ix off = Ok (i, b') ∧ ix * 8 ≤ i < ix * 8 + 8 ∧ i < nbits b ∧
    marked b i = false ∧ (∀ j, ix * 8 ≤ j < i → marked b j = true) ∧
    bitmap_wf b' ∧ nbits b' = nbits b ∧
    (∀ j, 0 ≤ j → marked b' j = if decide (j = i) then true else marked b j).
Proof.
  intros Hb Hix. revert off. induction k as [|k IH]; intros off Hoff Hk Hset (j & Hj & Hjf); [lia|].
  destruct (load_wf b ix Hb Hix) as (w & Hw & Hbw & Hbits). simpl. rewrite Hw. simpl.
  destruct (div8_split ix off ltac:(lia)) as [Hd Hm].
  destruct (Z.eqb_spec (Z.land w (u8 (Z.shiftl 1 off))) 0) as [E|E].
  - apply land_mask_zero in E; [|lia]. rewrite Hbits in E by lia.
    assert (ix * 8 + off < nbits b) as Hlt.
    { destruct (Z.lt_ge_cases (ix * 8 + off) (nbits b)); [done|]. exfalso.
      rewrite (wf_over _ Hb) in E; [done|lia]. }
    unfold BITS_PER_WORD. pose proof (wf_nbits _ Hb).
    rewrite u32_small by lia. rewrite (proj2 (Z.ltb_lt _ _)) by done. simpl.
    destruct (mark_word b (ix * 8 + off) w) as (? & ? & ?); rewrite ?Hd, ?Hm in *; [done|lia|done|done|].
    eexists _, _. split; [done|]. split_and!; try (done || lia).
  - destruct (decide (off = 7)) as [->|Hne].
    { exfalso. apply E. apply land_mask_zero; [lia|]. rewrite Hbits by lia.
      rewrite <- Hjf. f_equal. lia. }
    rewrite land_mask_zero, not_false_iff_true, Hbits in E by lia.
    apply IH; [lia|lia| |].
    + intros j' Hj'. destruct (decide (j' = ix * 8 + off)) as [->|]; [done|]. apply Hset. lia.
    + exists j. split; [|done]. destruct (decide (j = ix * 8 + off)) as [->|]; [congruence|lia].
Qed.

#[global] Arguments alloc_word : simpl never.

Lemma alloc_scan_spec b n ix :
  bitmap_wf b → 0 ≤ ix → Z.of_nat n + ix = Z.of_nat (length (v b)) →
  (∀ j, 0 ≤ j < ix * 8 → marked b j = true) →
  match alloc_scan n b ix with
  | Ok (inl e) => e = ENOSPC ∧ ∀ j, 0 ≤ j < nbits b → marked b j = true
  | Ok (inr (i, b')) =>
      0 ≤ i < nbits b ∧ marked b i = false ∧ (∀ j, 0 ≤ j < i → marked b j = true) ∧
      bitmap_wf b' ∧ nbits b' = nbits b ∧
      (∀ j, 0 ≤ j → marked b' j = if decide (j = i) then true else marked b j)
  | _ => False
  end.
Proof.
  intros Hb. revert ix. induction n as [|n IH]; intros ix Hix Hn Hset; simpl.
  { split; [done|]. intros. apply Hset. pose proof (nbits_le_words _ Hb). lia. }
  destruct (load_wf b ix Hb) as (w & -> & Hbw & Hbits); [lia|]. simpl.
  destruct (Z.eqb_spec w WORD_ALLBITS) as [E|E]; simpl.
  - apply IH; [lia|lia|]. intros j Hj. destruct (decide (j < ix * 8)); [apply Hset; lia|].
    replace j with (ix * 8 + (j - ix * 8)) by lia. rewrite <- Hbits by lia.
    apply byte_full; [done|done|lia].
  - assert (∃ j, ix * 8 + 0 ≤ j < ix * 8 + 8 ∧ marked b j = false) as Hex.
    { destruct (byte_not_full w Hbw E) as (k & Hk & Hkf).
      exists (ix * 8 + k). rewrite <- Hbits by lia. split; [lia|done]. }
    destruct (alloc_word_spec b ix 8 0) as (i & b' & Ha & Hi & Hin & Hf & Hlow & ? & ? & ?);
      [done|lia|lia|lia|intros; lia|done|].
    change (Z.to_nat BITS_PER_WORD) with 8%nat. rewrite Ha. simpl.
    split_and!; try (done || lia). intros j Hj. destruct (decide (j < ix * 8)); [apply Hset|apply Hlow]; lia.
Qed.

(** Marking the leftover bits of a zeroed map. *)
Lemma mark_over_spec k b ix j :
  0 ≤ ix < Z.of_nat (length (v b)) → Forall is_byte (v b) → 0 ≤ j → Z.of_nat k + j = 8 →
  ∃ b', mark_over k b ix j = Ok b' ∧ nbits b' = nbits b ∧ length (v b') = length (v b) ∧
    Forall is_byte (v b') ∧
    ∀ i, 0 ≤ i → marked b' i = marked b i || bool_decide (ix * 8 + j ≤ i < ix * 8 + 8).
Proof.
  revert b j. induction k as [|k IH]; intros b j Hix Hby Hj Hk; simpl.
  - exists b. split_and!; try done. intros i Hi. rewrite bool_decide_false by lia.
    by rewrite orb_false_r.
  - destruct (lookup_lt_is_Some_2 (v b) (Z.to_nat ix)) as [w Hw]; [lia|].
    unfold load. rewrite Hw. simpl.
    assert (is_byte w) as Hbw by (eapply Forall_lookup_1; done).
    assert (Z.lor w (Z.shiftl 1 j) = Z.lor w (u8 (Z.shiftl 1 j))) as ->.
    { f_equal. rewrite u8_small; [done|]. rewrite Z.shiftl_1_l. split; [apply Z.pow_nonneg; lia|].
      change 256 with (2 ^ 8). apply Z.pow_lt_mono_r; lia. }
    pose proof (lor_mask_byte w j Hbw ltac:(lia)) as Hnew.
    destruct (IH (store b ix (Z.lor w (u8 (Z.shiftl 1 j)))) (j + 1)) as (b' & E & E1 & E2 & E3 & E4);
      try lia; unfold store in *; simpl in *.
    { by rewrite length_insert. }
    { apply Forall_insert; [done|]. by rewrite u8_small. }
    exists b'. rewrite length_insert in E2. split_and!; try done.
    intros i Hi. rewrite E4 by done.
    pose proof (marked_store b ix (Z.lor w (u8 (Z.shiftl 1 j))) i Hix Hi Hnew) as Hms.
    unfold store in Hms. rewrite Hms. clear E4 Hms.
    pose proof (Z.mod_pos_bound i 8 ltac:(done)). pose proof (Z.div_mod i 8 ltac:(done)).
    case_decide as Ed.
    + rewrite testbit_lor_mask by lia. unfold marked. rewrite Ed, Hw. simpl.
      rewrite <- orb_assoc. f_equal.
      apply eq_true_iff_eq. rewrite orb_true_iff, !bool_decide_eq_true. lia.
    + f_equal. apply eq_true_iff_eq. rewrite !bool_decide_eq_true. lia.
Qed.

Lemma marked_zero n w i : marked (mkbitmap n (replicate w 0)) i = false.
Proof.
  unfold marked. simpl. destruct (replicate w 0 !! _) eqn:E; simpl; [|apply Z.bits_0].
  apply lookup_replicate in E as [-> _]. apply Z.bits_0.
Qed.

(** ** Theorems *)

(** A fresh map of [nb] bits has every bit clear; it is only refused for want
    of memory. *)
Theorem bitmap_create_clear nb ok1 ok2 :
  0 ≤ nb < 2 ^ 32 - 8 →
  match bitmap_create ok1 ok2 nb with
  | Ok None => ok1 && ok2 = false
  | Ok (Some b) => bitmap_wf b ∧ nbits b = nb ∧ ∀ i, 0 ≤ i < nb → marked b i = false
  | _ => False
  end.
Proof.
  intros Hnb. unfold bitmap_create, BITS_PER_WORD. destruct ok1, ok2; try done. simpl negb. cbv iota.
  rewrite DIVROUNDUP_eq by lia. replace (nb + 8 - 1) with (nb + 7) by lia.
  set (words := (nb + 7) `div` 8).
  assert (nb ≤ 8 * words < nb + 8 ∧ 0 ≤ words) as [Hw Hw0]
    by (unfold words; Z.to_euclidean_division_equations; lia).
  destruct (Z.ltb_spec (nb `div` 8) words) as [Hlt|Hge].
  - assert (nb `div` 8 = words - 1 ∧ 0 < nb - (words - 1) * 8 < 8) as [Hd Ho]
      by (Z.to_euclidean_division_equations; lia).
    rewrite Hd, Z.eqb_refl. simpl. rewrite u32_small by lia.
    rewrite (proj2 (Z.gtb_lt _ _)), (proj2 (Z.ltb_lt _ 8)) by lia. simpl.
    destruct (mark_over_spec (Z.to_nat (8 - (nb - (words - 1) * 8)))
      (mkbitmap nb (replicate (Z.to_nat words) 0)) (words - 1) (nb - (words - 1) * 8))
      as (b' & -> & E1 & E2 & E3 & E4); simpl in *; rewrite ?length_replicate in *; try lia.
    { by apply Forall_replicate. }
    simpl. split_and!; [constructor| |]; try done; rewrite ?E1, ?E2; try (fold words; lia).
    + intros i Hi. rewrite E4 by lia. rewrite (bool_decide_true (_ ≤ _ < _)) by lia. apply orb_true_r.
    + intros i Hi. rewrite E4, marked_zero, bool_decide_false by lia. done.
  - assert (8 * words = nb) by (Z.to_euclidean_division_equations; lia).
    split_and!; [constructor| |]; simpl; try done; rewrite ?length_replicate; try (fold words; lia).
    + by apply Forall_replicate.
    + intros. apply marked_zero.
Qed.

(** [bitmap_alloc] returns the least clear bit and marks it and nothing else;
    it reports ENOSPC exactly when every bit is marked.  It never panics. *)
Theorem bitmap_alloc_first_fit b :
  bitmap_wf b →
  match bitmap_alloc b with
  | Ok (inl e) => e = ENOSPC ∧ ∀ j, 0 ≤ j < nbits b → marked b j = true
  | Ok (inr (i, b')) =>
      0 ≤ i < nbits b ∧ marked b i = false ∧ (∀ j, 0 ≤ j < i → marked b j = true) ∧
      bitmap_wf b' ∧ nbits b' = nbits b ∧
      (∀ j, 0 ≤ j → marked b' j = if decide (j = i) then true else marked b j)
  | _ => False
  end.
Proof.
  intros Hb. unfold bitmap_alloc. rewrite words_eq, Nat2Z.id by done.
  apply alloc_scan_spec; [done|lia|lia|intros; lia].
Qed.

Theorem bitmap_mark_sets b i :
  bitmap_wf b → 0 ≤ i < nbits b →
  if marked b i then bitmap_mark b i = Panic
  else ∃ b', bitmap_mark b i = Ok b' ∧ bitmap_wf b' ∧ nbits b' = nbits b ∧
         ∀ j, 0 ≤ j → marked b' j = if decide (j = i) then true else marked b j.
Proof.
  intros Hb Hi. destruct (bit_of_word b i Hb Hi) as (w & Hw & Hbw & Hbit).
  pose proof (Z.mod_pos_bound i 8 ltac:(done)) as Hm.
  unfold bitmap_mark, bitmap_translate, BITS_PER_WORD. rewrite (proj2 (Z.ltb_lt _ _)), Hw by lia. simpl.
  destruct (marked b i); destruct (Z.eqb_spec (Z.land w (u8 (Z.shiftl 1 (i `mod` 8)))) 0) as [E|E];
    rewrite (land_mask_zero w _ Hm) in E; try congruence; simpl; try done.
  destruct (mark_word b i w) as (? & ? & ?); eauto.
Qed.

Theorem bitmap_unmark_clears b i :
  bitmap_wf b → 0 ≤ i < nbits b →
  if marked b i
  then ∃ b', bitmap_unmark b i = Ok b' ∧ bitmap_wf b' ∧ nbits b' = nbits b ∧
         ∀ j, 0 ≤ j → marked b' j = if decide (j = i) then false else marked b j
  else bitmap_unmark b i = Panic.
Proof.
  intros Hb Hi. destruct (bit_of_word b i Hb Hi) as (w & Hw & Hbw & Hbit).
  pose proof (Z.mod_pos_bound i 8 ltac:(done)) as Hm.
  unfold bitmap_unmark, bitmap_translate, BITS_PER_WORD. rewrite (proj2 (Z.ltb_lt _ _)), Hw by lia. simpl.
  destruct (marked b i); destruct (Z.eqb_spec (Z.land w (u8 (Z.shiftl 1 (i `mod` 8)))) 0) as [E|E];
    rewrite (land_mask_zero w _ Hm) in E; try congruence; simpl; try done.
  destruct (unmark_word b i w) as (? & ? & ?); eauto.
Qed.

Lemma bitmap_isset_marked b i :
  bitmap_wf b → 0 ≤ i < nbits b →
  ∃ r, bitmap_isset b i = Ok r ∧ negb (r =? 0) = marked b i.
Proof.
  intros Hb Hi. destruct (bit_of_word b i Hb Hi) as (w & Hw & Hbw & Hbit).
  pose proof (Z.mod_pos_bound i 8 ltac:(done)) as Hm.
  unfold bitmap_isset, bitmap_translate, BITS_PER_WORD. rewrite Hw. simpl. eexists. split; [done|].
  destruct (Z.eqb_spec (Z.land w (u8 (Z.shiftl 1 (i `mod` 8)))) 0) as [E|E];
    rewrite (land_mask_zero w _ Hm) in E; destruct (marked b i); simpl; congruence.
Qed.
End Bitmap.
