(* ===== verification/Queue.v ===== *)
(** * Ring-buffer queues of pointers (kern/lib/queue.c)

    [queue] is [struct queue].  [q_grow] and [q_addtail] call each other in the
    code; the model ties the knot with a bound on the depth of that mutual
    recursion ([depth]), and [q_addtail_appends] shows that one level is enough.
    The theorems refine the ring buffer to a FIFO list ([q_rep]). *)
From stdpp Require Import base list numbers.
From S2P Require Import Prelude.
Local Open Scope Z_scope.

Module Queue.
Section queue.
Context {A : Type}.

Record queue := mkqueue {
  size : Z;
  nextwrite : Z;
  nextread : Z;
  data : list (option A)
}.

Definition fresh_data (bytes : Z) : list (option A) := replicate (Z.to_nat (bytes `div` 4)) None.

(** [q->data[i]] as an rvalue; an uninitialised slot is an indeterminate value. *)
Definition load_data (d : list (option A)) (i : Z) : outcome A :=
  if 0 <=? i then of_option (mjoin (d !! Z.to_nat i)) else Undef.

(** [q->data[q->nextwrite] = ptr; q->nextwrite = nextnext;] *)
Definition put (q : queue) (ptr : A) (nextnext : Z) : outcome queue :=
  if (0 <=? nextwrite q) && (nextwrite q <? Z.of_nat (length (data q)))
  then Ok (mkqueue (size q) nextnext (nextread q) (<[Z.to_nat (nextwrite q) := Some ptr]> (data q)))
  else Undef.

(** [while (nsize < targetsize) { nsize *= 2; assert(nsize > 0); }] *)
Fixpoint grow_size (fuel : nat) (targetsize nsize : Z) : outcome Z :=
  if nsize <? targetsize then
    match fuel with
    | O => Spin
    | S fuel' =>
        let nsize' := i32 (nsize * 2) in
        let* _ := oassert (nsize' >? 0) in
        grow_size fuel' targetsize nsize'
    end
  else Ok nsize.

(** [for (i=onr; i!=onw; i = (i+1)%osize) { result = q_addtail(q, olddata[i]);
    assert(result==0); }] *)
Fixpoint copy_loop (addtail : queue → A → outcome (Z * queue)) (fuel : nat)
    (olddata : list (option A)) (osize onw i : Z) (q : queue) : outcome queue :=
  if i =? onw then Ok q
  else match fuel with
       | O => Spin
       | S fuel' =>
           let* p := load_data olddata i in
           let* '(result, q') := addtail q p in
           let* _ := oassert (result =? 0) in
           copy_loop addtail fuel' olddata osize onw (Z.rem (i + 1) osize) q'
       end.

Definition q_grow_with (addtail : queue → A → outcome (Z * queue)) (mem_ok : bool)
    (q : queue) (targetsize : Z) : outcome (Z * queue) :=
  let olddata := data q in
  let onr := nextread q in
  let onw := nextwrite q in
  let osize := size q in
  let* nsize := grow_size 40 targetsize (size q) in
  if negb mem_ok then Ok (ENOMEM, q)
  else
    let q0 := mkqueue nsize 0 0 (fresh_data (u32 (nsize * 4))) in
    let* q' := copy_loop addtail (Z.to_nat osize) olddata osize onw onr q0 in
    Ok (0, q').

Fixpoint q_addtail_at (depth : nat) (mem_ok : bool) (q : queue) (ptr : A) : outcome (Z * queue) :=
  let* _ := oassert (size q >? 0) in
  let nextnext := Z.rem (nextwrite q + 1) (size q) in
  if nextnext =? nextread q then
    match depth with
    | O => Spin
    | S depth' =>
        let* '(result, q') := q_grow_with (q_addtail_at depth' mem_ok) mem_ok q (i32 (size q + 1)) in
        if negb (result =? 0) then Ok (result, q')
        else
          let* q'' := put q' ptr (Z.rem (nextwrite q' + 1) (size q')) in
          Ok (0, q'')
    end
  else
    let* q' := put q ptr nextnext in
    Ok (0, q').

Definition q_addtail (mem_ok : bool) (q : queue) (ptr : A) : outcome (Z * queue) :=
  q_addtail_at 1 mem_ok q ptr.

Definition q_grow (mem_ok : bool) (q : queue) (targetsize : Z) : outcome (Z * queue) :=
  q_grow_with (q_addtail_at 0 mem_ok) mem_ok q targetsize.

Definition q_create (ok1 ok2 : bool) (sz : Z) : option queue :=
  if negb ok1 then None
  else if negb ok2 then None
  else Some (mkqueue sz 0 0 (fresh_data (u32 (sz * 4)))).

Definition q_preallocate (mem_ok : bool) (q : queue) (sz : Z) : outcome (Z * queue) :=
  let* _ := oassert (size q >? 0) in
  if sz >? size q then q_grow mem_ok q sz else Ok (0, q).

Definition q_empty (q : queue) : bool := nextwrite q =? nextread q.

Definition q_remhead (q : queue) : outcome (A * queue) :=
  let* _ := oassert (size q >? 0) in
  let* _ := oassert (negb (q_empty q)) in
  let* ret := load_data (data q) (nextread q) in
  Ok (ret, mkqueue (size q) (nextwrite q) (Z.rem (nextread q + 1) (size q)) (data q)).

(** Allowed only on an empty queue; both blocks are freed. *)
Definition q_destroy (q : queue) : outcome unit := oassert (q_empty q).

Definition q_getstart (q : queue) : Z := nextread q.
Definition q_getend (q : queue) : Z := nextwrite q.
Definition q_getsize (q : queue) : Z := size q.
Definition q_getguy (q : queue) (index : Z) : outcome A :=
  let* _ := oassert ((0 <=? index) && (index <? size q)) in
  load_data (data q) index.

(** ** Specification: the list a queue holds, head first *)
Definition slot (q : queue) (k : nat) : nat := Z.to_nat ((nextread q + Z.of_nat k) `mod` size q).

Record q_rep (q : queue) (l : list A) : Prop := {
  rep_size : 0 < size q < 2 ^ 28;
  rep_data : Z.of_nat (length (data q)) = size q;
  rep_read : 0 ≤ nextread q < size q;
  rep_room : Z.of_nat (length l) < size q;
  rep_write : nextwrite q = (nextread q + Z.of_nat (length l)) `mod` size q;
  rep_items : ∀ k x, l !! k = Some x → data q !! slot q k = Some (Some x)
}.

(** ** Lemmas *)
Lemma mod_inj s a b : 0 < s → a `mod` s = b `mod` s → a ≤ b < a + s → a = b.
Proof.
  intros Hs E Hb. pose proof (Z.div_mod a s ltac:(lia)) as Ha. pose proof (Z.div_mod b s ltac:(lia)) as Hb'.
  rewrite E in Ha. assert (b `div` s = a `div` s) by nia. nia.
Qed.

Lemma rem_succ_mod s a : 0 < s → Z.rem (a `mod` s + 1) s = (a + 1) `mod` s.
Proof.
  intros Hs. pose proof (Z.mod_pos_bound a s Hs). rewrite Z.rem_mod_nonneg by lia.
  by rewrite Zplus_mod_idemp_l.
Qed.

Lemma slot_lt q l k : q_rep q l → (slot q k < length (data q))%nat.
Proof.
  intros H. unfold slot. pose proof (rep_size _ _ H). pose proof (rep_data _ _ H).
  pose proof (Z.mod_pos_bound (nextread q + Z.of_nat k) (size q) ltac:(lia)). lia.
Qed.

Lemma slot_inj q l j k :
  q_rep q l → Z.of_nat j < size q → Z.of_nat k < size q → slot q j = slot q k → j = k.
Proof.
  intros H Hj Hk E. unfold slot in E. pose proof (rep_size _ _ H).
  pose proof (Z.mod_pos_bound (nextread q + Z.of_nat j) (size q) ltac:(lia)).
  pose proof (Z.mod_pos_bound (nextread q + Z.of_nat k) (size q) ltac:(lia)).
  destruct (Z.le_ge_cases (Z.of_nat j) (Z.of_nat k)).
  - apply Nat2Z.inj. enough (nextread q + Z.of_nat j = nextread q + Z.of_nat k) by lia.
    apply (mod_inj (size q)); lia.
  - apply Nat2Z.inj. enough (nextread q + Z.of_nat k = nextread q + Z.of_nat j) by lia.
    apply (mod_inj (size q)); lia.
Qed.

Lemma q_write_slot q l : q_rep q l → Z.to_nat (nextwrite q) = slot q (length l).
Proof. intros H. unfold slot. by rewrite (rep_write _ _ H). Qed.

Lemma q_write_range q l : q_rep q l → 0 ≤ nextwrite q < size q.
Proof.
  intros H. rewrite (rep_write _ _ H). apply Z.mod_pos_bound. apply (rep_size _ _ H).
Qed.

(** The write index after one more element. *)
Lemma q_nextnext q l :
  q_rep q l →
  Z.rem (nextwrite q + 1) (size q) = (nextread q + Z.of_nat (length l) + 1) `mod` size q.
Proof. intros H. rewrite (rep_write _ _ H). apply rem_succ_mod. apply (rep_size _ _ H). Qed.

(** The full test of [q_addtail] is exact: one slot always stays unused. *)
Lemma q_full_iff q l :
  q_rep q l → Z.rem (nextwrite q + 1) (size q) = nextread q ↔ Z.of_nat (length l) + 1 = size q.
Proof.
  intros H. rewrite (q_nextnext _ _ H). pose proof (rep_size _ _ H) as Hs.
  pose proof (rep_read _ _ H) as Hr. pose proof (rep_room _ _ H). split; intros E.
  - destruct (decide (Z.of_nat (length l) + 1 = size q)) as [|Hne]; [done|]. exfalso.
    rewrite <- (Z.mod_small (nextread q) (size q)) in E at 2 by lia.
    symmetry in E. apply mod_inj in E; lia.
  - rewrite <- Z.add_assoc, E. rewrite <- (Z.mul_1_l (size q)) at 1.
    rewrite Z.mod_add by lia. by apply Z.mod_small.
Qed.

(** Writing into the free slot appends. *)
Lemma put_rep q l x :
  q_rep q l → Z.of_nat (length l) + 1 < size q →
  ∃ q', put q x (Z.rem (nextwrite q + 1) (size q)) = Ok q' ∧ q_rep q' (l ++ [x]) ∧ size q' = size q.
Proof.
  intros H Hroom. pose proof (q_write_range _ _ H). pose proof (rep_data _ _ H) as Hd.
  unfold put. rewrite (proj2 (Z.leb_le _ _)), (proj2 (Z.ltb_lt _ _)) by lia. simpl.
  eexists. split; [done|]. split; [|done]. rewrite (q_nextnext _ _ H), (q_write_slot _ _ H).
  constructor; simpl; rewrite ?length_insert, ?length_app; simpl;
    try apply H; try (replace (Z.of_nat (length l + 1)) with (Z.of_nat (length l) + 1) by lia).
  - done.
  - f_equal. lia.
  - intros k y Hk. unfold slot. simpl. fold (slot q k).
    apply lookup_app_Some in Hk as [Hk|[Hk Hy]].
    + rewrite list_lookup_insert_ne; [by apply (rep_items _ _ H)|].
      apply lookup_lt_Some in Hk. intros E. apply (slot_inj _ _ _ _ H) in E; lia.
    + apply list_lookup_singleton_Some in Hy as [Hz ->].
      replace k with (length l) by lia. apply list_lookup_insert_eq. by apply (slot_lt q l).
Qed.

Lemma q_addtail_room depth ok q l x :
  q_rep q l → Z.of_nat (length l) + 1 < size q →
  ∃ q', q_addtail_at depth ok q x = Ok (0, q') ∧ q_rep q' (l ++ [x]) ∧ size q' = size q.
Proof.
  intros H Hroom. destruct (put_rep q l x H Hroom) as (q' & E & ? & ?).
  assert (q_addtail_at depth ok q x = let* q1 := put q x (Z.rem (nextwrite q + 1) (size q)) in Ok (0, q1)) as ->.
  { destruct depth; cbn [q_addtail_at]; pose proof (rep_size _ _ H);
      rewrite (proj2 (Z.gtb_lt _ _)) by lia; cbn -[Z.rem];
      destruct (Z.eqb_spec (Z.rem (nextwrite q + 1) (size q)) (nextread q)) as [E'|]; try done;
      apply (q_full_iff _ _ H) in E'; lia. }
  rewrite E. simpl. eauto.
Qed.

Lemma load_data_head q x l : q_rep q (x :: l) → load_data (data q) (nextread q) = Ok x.
Proof.
  intros H. unfold load_data. pose proof (rep_read _ _ H).
  rewrite (proj2 (Z.leb_le _ _)) by lia.
  pose proof (rep_items _ _ H 0%nat x eq_refl) as E. unfold slot in E.
  rewrite Z.add_0_r, Z.mod_small in E by lia. by rewrite E.
Qed.

Lemma remhead_rep q x l :
  q_rep q (x :: l) →
  q_rep (mkqueue (size q) (nextwrite q) (Z.rem (nextread q + 1) (size q)) (data q)) l.
Proof.
  intros H. pose proof (rep_size _ _ H) as Hs. pose proof (rep_read _ _ H) as Hr.
  pose proof (rep_room _ _ H) as Hroom. simpl in Hroom.
  assert (Z.rem (nextread q + 1) (size q) = (nextread q + 1) `mod` size q) as ->
    by (rewrite Z.rem_mod_nonneg by lia; done).
  constructor; simpl; try apply H; try lia.
  - apply Z.mod_pos_bound. lia.
  - rewrite (rep_write _ _ H), Zplus_mod_idemp_l. f_equal. simpl. lia.
  - intros k y Hk. rewrite <- (rep_items _ _ H (S k) y Hk). unfold slot. simpl.
    rewrite Zplus_mod_idemp_l. f_equal. f_equal. f_equal. lia.
Qed.

Lemma grow_size_ok fuel target n :
  0 < n → target < 2 ^ 28 → target ≤ n * 2 ^ Z.of_nat fuel →
  ∃ n', grow_size fuel target n = Ok n' ∧ n ≤ n' ∧ target ≤ n' ∧ (n' = n ∨ n' < 2 * target).
Proof.
  revert n. induction fuel as [|fuel IH]; intros n Hn Ht Hb; cbn [grow_size].
  - rewrite (proj2 (Z.ltb_ge _ _)) by lia. exists n. split; [done|lia].
  - destruct (Z.ltb_spec n target) as [Hlt|]; [|exists n; split; [done|lia]].
    rewrite i32_small by lia. rewrite (proj2 (Z.gtb_lt _ _)) by lia. simpl.
    destruct (IH (n * 2)) as (n' & E & ? & ? & ?); [lia|lia| |].
    { rewrite Nat2Z.inj_succ, Z.pow_succ_r in Hb by lia. lia. }
    exists n'. split; [done|]. lia.
Qed.

Lemma fresh_rep n : 0 < n < 2 ^ 28 → q_rep (mkqueue n 0 0 (fresh_data (u32 (n * 4)))) [].
Proof.
  intros Hn. constructor; simpl; try lia.
  - unfold fresh_data. rewrite u32_small, Z.div_mul by lia. len.
  - by rewrite Z.mod_0_l by lia.
  - done.
Qed.

(** Re-adding the elements of the old buffer one by one. *)
Lemma copy_loop_spec depth ok o l pre suf q fuel :
  q_rep o l → l = pre ++ suf → q_rep q pre → Z.of_nat (length l) < size q →
  (length suf ≤ fuel)%nat →
  ∃ q', copy_loop (q_addtail_at depth ok) fuel (data o) (size o) (nextwrite o)
          ((nextread o + Z.of_nat (length pre)) `mod` size o) q = Ok q' ∧
        q_rep q' l ∧ size q' = size q.
Proof.
  intros Ho. revert pre q fuel. induction suf as [|x suf IH]; intros pre q fuel -> Hq Hroom Hfuel.
  - rewrite app_nil_r in *. exists q. split; [|done].
    destruct fuel; cbn [copy_loop]; by rewrite (rep_write _ _ Ho), Z.eqb_refl.
  - pose proof (rep_size _ _ Ho) as Hs. pose proof (rep_room _ _ Ho) as Hr.
    rewrite length_app in *. simpl in *. destruct fuel as [|fuel]; [lia|]. cbn [copy_loop].
    destruct (Z.eqb_spec ((nextread o + Z.of_nat (length pre)) `mod` size o) (nextwrite o)) as [E|_].
    { exfalso. rewrite (rep_write _ _ Ho), length_app in E. simpl in E. apply mod_inj in E; lia. }
    assert (load_data (data o) ((nextread o + Z.of_nat (length pre)) `mod` size o) = Ok x) as ->.
    { unfold load_data. pose proof (Z.mod_pos_bound (nextread o + Z.of_nat (length pre)) (size o) ltac:(lia)).
      rewrite (proj2 (Z.leb_le _ _)) by lia. fold (slot o (length pre)).
      by rewrite (rep_items _ _ Ho (length pre) x) by (rewrite lookup_app_r, Nat.sub_diag by done; done). }
    cbn [mbind outcome_bind].
    destruct (q_addtail_room depth ok q pre x Hq) as (q1 & -> & Hq1 & Hsz); [lia|].
    cbn [mbind outcome_bind oassert Z.eqb]. rewrite rem_succ_mod by lia.
    destruct (IH (pre ++ [x]) q1 fuel) as (q' & E & ? & ?);
      [by rewrite <- app_assoc|done|rewrite ?length_app; simpl; lia|lia|].
    exists q'. rewrite length_app in E. simpl in E. split_and!; [|done|lia].
    rewrite <- E. f_equal. f_equal. lia.
Qed.

(** [q_grow] keeps the contents and reaches the target. *)
Lemma q_grow_with_rep depth q l target :
  q_rep q l → size q ≤ target < 2 ^ 27 → 
  ∃ q', q_grow_with (q_addtail_at depth true) true q target = Ok (0, q') ∧ q_rep q' l ∧
        target ≤ size q' ∧ (size q' = size q ∨ size q' < 2 * target).
Proof.
  intros H Ht. pose proof (rep_size _ _ H) as Hs. pose proof (rep_room _ _ H) as Hroom.
  pose proof (rep_read _ _ H) as Hr. unfold q_grow_with.
  destruct (grow_size_ok 40 target (size q)) as (n & -> & ? & ? & ?); [lia|lia|lia|].
  cbn [mbind outcome_bind negb].
  destruct (copy_loop_spec depth true q l [] l (mkqueue n 0 0 (fresh_data (u32 (n * 4))))
     (Z.to_nat (size q))) as (q' & E & ? & Hsz); [done|done|apply fresh_rep; lia|simpl; lia|lia|].
  simpl length in E. rewrite Z.add_0_r, Z.mod_small in E by lia. rewrite E.
  cbn [mbind outcome_bind]. exists q'. simpl in Hsz. split_and!; [done|done|lia|lia].
Qed.

(** The body of [q_addtail], with the growing branch going through [q_grow]. *)
Lemma q_addtail_eq ok q ptr :
  q_addtail ok q ptr =
    let* _ := oassert (size q >? 0) in
    if Z.rem (nextwrite q + 1) (size q) =? nextread q then
      let* '(result, q') := q_grow ok q (i32 (size q + 1)) in
      if negb (result =? 0) then Ok (result, q')
      else let* q'' := put q' ptr (Z.rem (nextwrite q' + 1) (size q')) in Ok (0, q'')
    else let* q' := put q ptr (Z.rem (nextwrite q + 1) (size q)) in Ok (0, q').
Proof. done. Qed.

(** Appending, and how far the buffer grows. *)
Lemma addtail_run ok q l x :
  q_rep q l → size q < 2 ^ 26 → ok = true ∨ Z.of_nat (length l) + 1 < size q →
  ∃ q', q_addtail ok q x = Ok (0, q') ∧ q_rep q' (l ++ [x]) ∧ (size q' = size q ∨ size q' < 2 * Z.of_nat (length l) + 4).
Proof.
  intros H Hb Hok. destruct (decide (Z.of_nat (length l) + 1 < size q)) as [Hroom|Hfull].
  { destruct (q_addtail_room 1 ok q l x H Hroom) as (q' & ? & ? & ?). eauto. }
  destruct Hok as [->|?]; [|lia]. pose proof (rep_size _ _ H) as Hs. pose proof (rep_room _ _ H).
  rewrite q_addtail_eq, (proj2 (Z.gtb_lt _ _)) by lia. cbn [mbind outcome_bind oassert].
  rewrite (proj2 (q_full_iff _ _ H)) by lia. rewrite Z.eqb_refl.
  rewrite i32_small by lia. unfold q_grow.
  destruct (q_grow_with_rep 0 q l (size q + 1) H) as (q1 & -> & H1 & Hsz & Hgr); [lia|].
  cbn [mbind outcome_bind Z.eqb negb].
  destruct (put_rep q1 l x H1) as (q' & -> & ? & ?); [lia|]. simpl. exists q'. split_and!; [done|done|lia].
Qed.

Lemma addtail_nomem q l x :
  q_rep q l → size q < 2 ^ 26 → Z.of_nat (length l) + 1 = size q →
  q_addtail false q x = Ok (ENOMEM, q).
Proof.
  intros H Hb Hfull. pose proof (rep_size _ _ H) as Hs. rewrite q_addtail_eq.
  rewrite (proj2 (Z.gtb_lt _ _)) by lia. cbn [mbind outcome_bind oassert].
  rewrite (proj2 (q_full_iff _ _ H)) by lia. rewrite Z.eqb_refl, i32_small by lia.
  unfold q_grow, q_grow_with.
  by destruct (grow_size_ok 40 (size q + 1) (size q)) as (n & -> & _); [lia|lia|lia|].
Qed.

Lemma preallocate_run q l n :
  q_rep q l → n < 2 ^ 27 →
  ∃ q', q_preallocate true q n = Ok (0, q') ∧ q_rep q' l ∧ n ≤ size q' ∧ (size q' = size q ∨ size q' < 2 * n).
Proof.
  intros H Hn. pose proof (rep_size _ _ H). unfold q_preallocate.
  rewrite (proj2 (Z.gtb_lt (size q) 0)) by lia. cbn [mbind outcome_bind oassert].
  destruct (Z.gtb_spec n (size q)); [|exists q; split_and!; (done || lia)].
  apply (q_grow_with_rep 0 q l n H). lia.
Qed.

Lemma remhead_run q l :
  q_rep q l →
  match l with
  | [] => q_remhead q = Panic
  | x :: l' => ∃ q', q_remhead q = Ok (x, q') ∧ q_rep q' l' ∧ size q' = size q
  end.
Proof.
  intros H. pose proof (rep_size _ _ H). unfold q_remhead, q_empty.
  rewrite (proj2 (Z.gtb_lt _ _)) by lia. cbn [mbind outcome_bind oassert].
  destruct l as [|x l].
  - rewrite (rep_write _ _ H). simpl. rewrite Z.add_0_r, Z.mod_small by apply (rep_read _ _ H).
    by rewrite Z.eqb_refl.
  - destruct (Z.eqb_spec (nextwrite q) (nextread q)) as [E|_].
    { exfalso. pose proof (rep_room _ _ H). pose proof (rep_read _ _ H). rewrite (rep_write _ _ H) in E.
      rewrite <- (Z.mod_small (nextread q) (size q)) in E at 2 by lia. symmetry in E.
      apply mod_inj in E; simpl in *; lia. }
    cbn [mbind outcome_bind oassert negb]. rewrite (load_data_head _ _ _ H).
    cbn [mbind outcome_bind]. eexists. split; [done|]. split; [by apply (remhead_rep _ x)|done].
Qed.

Lemma q_empty_nil q l : q_rep q l → q_empty q = bool_decide (l = []).
Proof.
  intros H. pose proof (remhead_run q l H) as Hr. pose proof (rep_size _ _ H).
  unfold q_remhead in Hr. rewrite (proj2 (Z.gtb_lt _ _)) in Hr by lia. destruct l as [|x l].
  - destruct (q_empty q) eqn:E; [done|]. unfold q_empty in E. exfalso.
    rewrite (rep_write _ _ H) in E. simpl in E. pose proof (rep_read _ _ H).
    rewrite Z.add_0_r, Z.mod_small, Z.eqb_refl in E by lia. done.
  - destruct Hr as (q' & Hr & _). by destruct (q_empty q).
Qed.

(** ** Theorems *)

(** [q_addtail] appends whenever a slot is free or memory is available; the
    recursion of [q_grow] into [q_addtail] never grows again. *)
Theorem q_addtail_appends ok q l x :
  q_rep q l → size q < 2 ^ 26 → ok = true ∨ Z.of_nat (length l) + 1 < size q →
  ∃ q', q_addtail ok q x = Ok (0, q') ∧ q_rep q' (l ++ [x]).
Proof. intros H Hb Hok. destruct (addtail_run ok q l x H Hb Hok) as (q' & ? & ? & _). eauto. Qed.

(** [q_remhead] takes the oldest element, and panics on an empty queue. *)
Theorem q_remhead_fifo q l :
  q_rep q l →
  match l with
  | [] => q_remhead q = Panic
  | x :: l' => ∃ q', q_remhead q = Ok (x, q') ∧ q_rep q' l' ∧ size q' = size q
  end.
Proof. apply remhead_run. Qed.

(** Without memory a full queue is left alone and the caller gets ENOMEM. *)
Theorem q_addtail_nomem q l x :
  q_rep q l → size q < 2 ^ 26 → Z.of_nat (length l) + 1 = size q →
  q_addtail false q x = Ok (ENOMEM, q).
Proof. apply addtail_nomem. Qed.

(** [q_preallocate n] makes the buffer at least [n] slots, without losing
    anything. *)
Theorem q_preallocate_size q l n :
  q_rep q l → n < 2 ^ 27 →
  ∃ q', q_preallocate true q n = Ok (0, q') ∧ q_rep q' l ∧ n ≤ size q'.
Proof. intros H Hn. destruct (preallocate_run q l n H Hn) as (q' & ? & ? & ? & _). eauto. Qed.

(** The ring holds one element fewer than its size, so preallocating [n] slots
    is room for [n - 1] elements only: with [n] elements to hold and no memory
    left, the last [q_addtail] fails. *)
Theorem q_preallocate_one_short q l x :
  q_rep q l → size q < 2 ^ 26 → Z.of_nat (length l) + 1 = size q →
  q_preallocate false q (Z.of_nat (length l) + 1) = Ok (0, q) ∧
  q_addtail false q x = Ok (ENOMEM, q).
Proof.
  intros H Hb Hfull. split; [|by apply (addtail_nomem q l x)].
  pose proof (rep_size _ _ H). unfold q_preallocate.
  rewrite (proj2 (Z.gtb_lt (size q) 0)) by lia. cbn [mbind outcome_bind oassert].
  by destruct (Z.gtb_spec (Z.of_nat (length l) + 1) (size q)); [lia|].
Qed.

Theorem q_create_empty sz ok1 ok2 :
  0 < sz < 2 ^ 28 →
  match q_create ok1 ok2 sz with
  | Some q => q_rep q []
  | None => ok1 && ok2 = false
  end.
Proof. intros Hs. unfold q_create. destruct ok1, ok2; simpl; try done. by apply fresh_rep. Qed.
End queue.
Arguments queue : clear implicits.

(** A ring of two slots that holds one element is full. *)
Definition full_ring : queue nat := mkqueue 2 1 0 [Some 5%nat; None].

Lemma full_ring_rep : q_rep full_ring [5%nat].
Proof. constructor; try done. intros [|k] x Hk; [|done]. cbn in Hk. by simplify_eq. Qed.

Lemma q_preallocate_one_short_witness :
  q_preallocate false full_ring 2 = Ok (0, full_ring) ∧ q_addtail false full_ring 6%nat = Ok (ENOMEM, full_ring).
Proof. apply (q_preallocate_one_short full_ring [5%nat] 6%nat); [apply full_ring_rep|done|done]. Defined.

Lemma q_addtail_appends_witness : ∃ q', q_addtail true full_ring 6%nat = Ok (0, q') ∧ q_rep q' [5; 6]%nat.
Proof. apply (q_addtail_appends true full_ring [5%nat] 6%nat); [apply full_ring_rep|done|by left]. Defined.

Lemma q_remhead_fifo_witness : ∃ q', q_remhead full_ring = Ok (5%nat, q') ∧ q_rep q' [] ∧ size q' = 2.
Proof. apply (q_remhead_fifo full_ring [5%nat]). apply full_ring_rep. Defined.
End Queue.
