(* ===== verification/Copyinout.v ===== *)
(** * User/kernel memory copying (kern/lib/copyinout.c)

    User memory is the map [umem] of the mapped user bytes; a kernel buffer is
    the list of its bytes, passed in and handed back.  Touching an unmapped user
    address faults: with [pcb_badfaultfunc] set, control returns through
    [copyfail] and the [longjmp] to the [setjmp] of the copying function, which
    reports EFAULT.  Pages are mapped whole, so copying by words or by bytes is
    the same thing; the model copies bytes, in the (ascending) order of the code.
    The theorems show that the functions stay inside the caller's buffers and
    inside user space, classify the result on every branch, and leave
    [pcb_badfaultfunc] cleared. *)
From stdpp Require Import base list gmap numbers.
From S2P Require Import Prelude.
Local Open Scope Z_scope.

Module Copyinout.

Definition USERTOP : Z := 2 ^ 31.

(** The part of the machine the copying functions touch. *)
Record cstate := mkcstate {
  umem : gmap Z Z;                (* mapped user memory *)
  pcb_badfaultfunc : bool         (* curthread->t_pcb.pcb_badfaultfunc != NULL *)
}.

Definition set_badfault (b : bool) : M cstate unit := modify (fun s => mkcstate (umem s) b).

Definition copycheck (userptr len : Z) : Z + Z :=
  let bot := userptr in
  let top := u32 (bot + len - 1) in
  if top <? bot then inl EFAULT
  else if USERTOP <=? bot then inl EFAULT
  else if USERTOP <=? top then inr (u32 (USERTOP - bot))
  else inr len.

(** ** The two copy loops

    They run on the kernel buffer and user memory; an access yields [None] when
    it faults, and a kernel access outside the buffer is undefined. *)
Definition cmem : Type := list Z * gmap Z Z.

Definition rd_user (base i : Z) : M cmem (option Z) := gets (fun s => s.2 !! (base + i)).

Definition wr_user (base i b : Z) : M cmem (option unit) := fun s =>
  match s.2 !! (base + i) with
  | Some _ => Ok (Some tt, (s.1, <[base + i := b]> s.2))
  | None => Ok (None, s)
  end.

Definition rd_buf (i : Z) : M cmem (option Z) := fun s =>
  match s.1 !! Z.to_nat i with
  | Some b => Ok (Some b, s)
  | None => Undef
  end.

Definition wr_buf (i b : Z) : M cmem (option unit) := fun s =>
  if i <? Z.of_nat (length s.1) then Ok (Some tt, (<[Z.to_nat i := b]> s.1, s.2)) else Undef.

Section loops.
Context (rd : Z → M cmem (option Z)) (wr : Z → Z → M cmem (option unit)).

(** [memcpy]: [true] when all [n] bytes from index [i] on were copied, [false] on a fault. *)
Fixpoint memcpy_loop (n : nat) (i : Z) : M cmem bool :=
  match n with
  | O => mret true
  | S n' =>
      let* ob := rd i in
      match ob with
      | None => mret false
      | Some b =>
          let* ow := wr i b in
          match ow with
          | None => mret false
          | Some _ => memcpy_loop n' (i + 1)
          end
      end
  end.

(** [copystr] from index [i] on, at most [n] more bytes: [None] on a fault,
    otherwise its return value and, on success, the length found. *)
Fixpoint copystr_loop (n : nat) (maxlen stoplen i : Z) : M cmem (option (Z + Z)) :=
  match n with
  | O => mret (Some (inl (if stoplen <? maxlen then EFAULT else ENAMETOOLONG)))
  | S n' =>
      let* ob := rd i in
      match ob with
      | None => mret None
      | Some b =>
          let* ow := wr i b in
          match ow with
          | None => mret None
          | Some _ => if b =? 0 then mret (Some (inr (i + 1))) else copystr_loop n' maxlen stoplen (i + 1)
          end
      end
  end.

Definition copystr (maxlen stoplen : Z) : M cmem (option (Z + Z)) :=
  copystr_loop (Z.to_nat (Z.min maxlen stoplen)) maxlen stoplen 0.
End loops.

(** Run a copy under [pcb_badfaultfunc]: it is set before and cleared on both
    ways out. *)
Definition with_badfault {A} (buf : list Z) (m : M cmem A) : M cstate (A * list Z) :=
  let* _ := set_badfault true in
  let* r := (fun s =>
    match m (buf, umem s) with
    | Ok (a, (buf', um')) => Ok ((a, buf'), mkcstate um' (pcb_badfaultfunc s))
    | Panic => Panic
    | Undef => Undef
    | Spin => Spin
    end) : M cstate (A * list Z) in
  let* _ := set_badfault false in
  mret r.

Definition copyin (usersrc : Z) (dest : list Z) (len : Z) : M cstate (Z * list Z) :=
  match copycheck usersrc len with
  | inl e => mret (e, dest)
  | inr stoplen =>
      if negb (stoplen =? len) then mret (EFAULT, dest)
      else
        let* '(ok, dest') := with_badfault dest (memcpy_loop (rd_user usersrc) wr_buf (Z.to_nat len) 0) in
        mret (if (ok : bool) then 0 else EFAULT, dest')
  end.

Definition copyout (src : list Z) (userdest len : Z) : M cstate Z :=
  match copycheck userdest len with
  | inl e => mret e
  | inr stoplen =>
      if negb (stoplen =? len) then mret EFAULT
      else
        let* '(ok, src') := with_badfault src (memcpy_loop rd_buf (wr_user userdest) (Z.to_nat len) 0) in
        mret (if (ok : bool) then 0 else EFAULT)
  end.

(** [inr n] is a return of 0 with [*actual = n]. *)
Definition copyinstr (usersrc : Z) (dest : list Z) (len : Z) : M cstate ((Z + Z) * list Z) :=
  match copycheck usersrc len with
  | inl e => mret (inl e, dest)
  | inr stoplen =>
      let* '(r, dest') := with_badfault dest (copystr (rd_user usersrc) wr_buf len stoplen) in
      mret (default (inl EFAULT) r, dest')
  end.

Definition copyoutstr (src : list Z) (userdest len : Z) : M cstate (Z + Z) :=
  match copycheck userdest len with
  | inl e => mret (inl e)
  | inr stoplen =>
      let* '(r, src') := with_badfault src (copystr rd_buf (wr_user userdest) len stoplen) in
      mret (default (inl EFAULT) r)
  end.

(** ** Specification *)

(** The [n] user bytes from [a] on, if they are all mapped. *)
Fixpoint user_bytes (m : gmap Z Z) (a : Z) (n : nat) : option (list Z) :=
  match n with
  | O => Some []
  | S n' =>
      match m !! a, user_bytes m (a + 1) n' with
      | Some b, Some bs => Some (b :: bs)
      | _, _ => None
      end
  end.

Fixpoint user_write (m : gmap Z Z) (a : Z) (bs : list Z) : gmap Z Z :=
  match bs with
  | [] => m
  | b :: bs' => user_write (<[a := b]> m) (a + 1) bs'
  end.

(** Scanning at most [n] user bytes from [a] on for a string: [None] when an
    unmapped byte comes first, otherwise the bytes seen and whether they end in
    a terminator. *)
Fixpoint user_scan (m : gmap Z Z) (a : Z) (n : nat) : option (list Z * bool) :=
  match n with
  | O => Some ([], false)
  | S n' =>
      match m !! a with
      | None => None
      | Some b =>
          if b =? 0 then Some ([b], true)
          else match user_scan m (a + 1) n' with
               | None => None
               | Some (bs, t) => Some (b :: bs, t)
               end
      end
  end.

(** [m'] differs from [m] at most in the contents of the [n] bytes from [a] on. *)
Definition same_outside (m m' : gmap Z Z) (a : Z) (n : nat) : Prop :=
  dom m' = dom m ∧ ∀ x, ¬ (a ≤ x < a + Z.of_nat n) → m' !! x = m !! x.

(** ** Lemmas *)
Lemma copycheck_spec bot len :
  0 ≤ bot < 2 ^ 32 → 0 ≤ len < 2 ^ 32 →
  copycheck bot len =
    if bool_decide (bot < USERTOP ∧ (1 ≤ len ∧ bot + len ≤ 2 ^ 32 ∨ len = 0 ∧ bot = 0))
    then inr (if decide (1 ≤ len ∧ bot + len ≤ USERTOP) then len else USERTOP - bot)
    else inl EFAULT.
Proof.
  intros Hb Hl. unfold copycheck, USERTOP.
  destruct (decide (bot + len - 1 < 0)) as [Hneg|Hneg]; [|destruct (decide (bot + len - 1 < 2 ^ 32)) as [Hs|Hs]].
  - assert (bot = 0 ∧ len = 0) as [-> ->] by lia. reflexivity.
  - rewrite (u32_small (bot + len - 1)) by lia.
    destruct (Z.ltb_spec (bot + len - 1) bot).
    { rewrite bool_decide_false by lia. done. }
    destruct (Z.leb_spec (2 ^ 31) bot).
    { rewrite bool_decide_false by lia. done. }
    rewrite bool_decide_true by lia.
    destruct (Z.leb_spec (2 ^ 31) (bot + len - 1)).
    + rewrite u32_small by lia. rewrite decide_False by lia. done.
    + rewrite decide_True by lia. done.
  - assert (u32 (bot + len - 1) = bot + len - 1 - 2 ^ 32) as ->.
    { unfold u32. symmetry. apply (Z.mod_unique _ _ 1); lia. }
    rewrite (proj2 (Z.ltb_lt _ _)) by lia. rewrite bool_decide_false by lia. done.
Qed.

Lemma same_outside_refl m a n : same_outside m m a n.
Proof. done. Qed.

Lemma same_outside_step m m' a b n :
  is_Some (m !! a) → same_outside (<[a := b]> m) m' (a + 1) n → same_outside m m' a (S n).
Proof.
  intros [w Hw] [Hd Ho]. split.
  - rewrite Hd, dom_insert_L. apply elem_of_dom_2 in Hw. set_solver.
  - intros x Hx. rewrite Ho by lia. by rewrite lookup_insert_ne by lia.
Qed.

Lemma user_bytes_length m a n bs : user_bytes m a n = Some bs → length bs = n.
Proof.
  revert a bs. induction n as [|n IH]; intros a bs; simpl; [by intros [= <-]|].
  destruct (m !! a); [|done]. destruct (user_bytes m (a + 1) n) eqn:E; [|done].
  intros [= <-]. simpl. f_equal. eauto.
Qed.

(** Changing a byte before the range, or adding none, keeps the range mapped. *)
Lemma user_bytes_mapped m a n :
  is_Some (user_bytes m a n) ↔ ∀ x, a ≤ x < a + Z.of_nat n → is_Some (m !! x).
Proof.
  revert a. induction n as [|n IH]; intros a; cbn [user_bytes].
  - split; [intros; lia|done].
  - rewrite Nat2Z.inj_succ. split.
    + intros Hs x Hx. destruct (m !! a) eqn:Ea; [|by destruct Hs].
      destruct (user_bytes m (a + 1) n) eqn:E; [|by destruct Hs].
      destruct (decide (x = a)) as [->|]; [by rewrite Ea|].
      apply (proj1 (IH (a + 1))); [by rewrite E|lia].
    + intros Hs. destruct (Hs a) as [b ->]; [lia|].
      destruct (proj2 (IH (a + 1))) as [bs ->]; [|done]. intros x Hx. apply Hs. lia.
Qed.

Lemma user_bytes_insert_before m a b x n :
  x < a → user_bytes (<[x := b]> m) a n = user_bytes m a n.
Proof.
  revert a. induction n as [|n IH]; intros a Hx; cbn [user_bytes]; [done|].
  rewrite lookup_insert_ne by lia. by rewrite IH by lia.
Qed.

Lemma memcpy_in a m n i buf :
  0 ≤ i → i + Z.of_nat n ≤ Z.of_nat (length buf) →
  ∃ ok buf', memcpy_loop (rd_user a) wr_buf n i (buf, m) = Ok (ok, (buf', m)) ∧
    length buf' = length buf ∧
    match user_bytes m (a + i) n with
    | Some bs => ok = true ∧ buf' = splice (Z.to_nat i) bs buf
    | None => ok = false
    end.
Proof.
  revert i buf. induction n as [|n IH]; intros i buf Hi Hlen; cbn [memcpy_loop user_bytes].
  - eexists _, _. split; [done|]. by rewrite splice_nil.
  - unfold mbind, M_bind, rd_user at 1, gets. simpl.
    destruct (m !! (a + i)) as [b|] eqn:Eb; [|eexists _, _; done].
    unfold wr_buf at 1. simpl. rewrite (proj2 (Z.ltb_lt _ _)) by lia.
    destruct (IH (i + 1) (<[Z.to_nat i := b]> buf)) as (ok & buf' & E & Hl & Hm);
      [lia|rewrite length_insert; lia|].
    unfold mbind, M_bind in E. rewrite E. exists ok, buf'. rewrite length_insert in Hl.
    split; [done|]. split; [done|]. rewrite Z.add_assoc in Hm.
    destruct (user_bytes m (a + i + 1) n); [|done]. destruct Hm as [-> ->]. split; [done|].
    rewrite splice_cons by lia. f_equal. lia.
Qed.

Lemma memcpy_out a m n i buf :
  0 ≤ i → i + Z.of_nat n ≤ Z.of_nat (length buf) →
  ∃ ok m', memcpy_loop rd_buf (wr_user a) n i (buf, m) = Ok (ok, (buf, m')) ∧
    same_outside m m' (a + i) n ∧
    (ok = true ↔ is_Some (user_bytes m (a + i) n)) ∧
    (ok = true → m' = user_write m (a + i) (take n (drop (Z.to_nat i) buf))).
Proof.
  revert i m. induction n as [|n IH]; intros i m Hi Hlen; cbn [memcpy_loop user_bytes].
  - eexists _, _. split; [done|]. split_and!; [done|done|]. by rewrite take_0.
  - unfold mbind, M_bind, rd_buf at 1. simpl.
    destruct (lookup_lt_is_Some_2 buf (Z.to_nat i)) as [b Hb]; [lia|]. rewrite Hb.
    unfold wr_user at 1. simpl. destruct (m !! (a + i)) as [w|] eqn:Ew.
    + destruct (IH (i + 1) (<[a + i := b]> m)) as (ok & m' & E & Hs & Hok & Hm'); [lia|lia|].
      unfold mbind, M_bind in E. rewrite E. exists ok, m'. split; [done|].
      rewrite Z.add_assoc in *. split_and!.
      * by eapply same_outside_step.
      * rewrite Hok, user_bytes_insert_before by lia. by destruct (user_bytes m (a + i + 1) n).
      * intros Ht. rewrite (Hm' Ht), (drop_S_lookup _ _ _ Hb). simpl.
        by replace (S (Z.to_nat i)) with (Z.to_nat (i + 1)) by lia.
    + eexists _, _. split; [done|]. split_and!; [done| |done].
      split; [done|]. by intros [].
Qed.

Lemma copystr_in a m n maxlen stoplen i buf :
  0 ≤ i → i + Z.of_nat n ≤ Z.of_nat (length buf) →
  ∃ r buf', copystr_loop (rd_user a) wr_buf n maxlen stoplen i (buf, m) = Ok (r, (buf', m)) ∧
    length buf' = length buf ∧
    match user_scan m (a + i) n with
    | Some (bs, true) => r = Some (inr (i + Z.of_nat (length bs))) ∧ buf' = splice (Z.to_nat i) bs buf
    | Some (bs, false) =>
        r = Some (inl (if stoplen <? maxlen then EFAULT else ENAMETOOLONG)) ∧
        buf' = splice (Z.to_nat i) bs buf
    | None => r = None
    end.
Proof.
  revert i buf. induction n as [|n IH]; intros i buf Hi Hlen; cbn [copystr_loop user_scan].
  - eexists _, _. split; [done|]. by rewrite splice_nil.
  - unfold mbind, M_bind, rd_user at 1, gets. simpl.
    destruct (m !! (a + i)) as [b|] eqn:Eb; [|eexists _, _; done].
    unfold wr_buf at 1. simpl. rewrite (proj2 (Z.ltb_lt _ _)) by lia.
    destruct (b =? 0).
    + eexists _, _. split; [done|]. rewrite length_insert. split; [done|]. split; [done|].
      by rewrite splice_cons, splice_nil by lia.
    + destruct (IH (i + 1) (<[Z.to_nat i := b]> buf)) as (r & buf' & E & Hl & Hm);
        [lia|rewrite length_insert; lia|].
      unfold mbind, M_bind in E. rewrite E. exists r, buf'. rewrite length_insert in Hl.
      split; [done|]. split; [done|]. rewrite Z.add_assoc in Hm.
      destruct (user_scan m (a + i + 1) n) as [[bs []]|]; [| |done]; destruct Hm as [-> ->];
        (split; [first [done|do 2 f_equal; cbn [length]; lia]|]);
        rewrite splice_cons by lia; by replace (S (Z.to_nat i)) with (Z.to_nat (i + 1)) by lia.
Qed.

Lemma copystr_out a m n maxlen stoplen i buf bs rest :
  0 ≤ i → drop (Z.to_nat i) buf = bs ++ 0 :: rest → Forall (fun b => b ≠ 0) bs →
  (length bs < n)%nat → (∀ x, a + i ≤ x ≤ a + i + Z.of_nat (length bs) → is_Some (m !! x)) →
  copystr_loop rd_buf (wr_user a) n maxlen stoplen i (buf, m) =
    Ok (Some (inr (i + Z.of_nat (length bs) + 1)), (buf, user_write m (a + i) (bs ++ [0]))).
Proof.
  revert n i m. induction bs as [|b bs IH]; intros n i m Hi Hd Hnz Hn Hmap;
    destruct n as [|n]; simpl in Hn; try lia; cbn [copystr_loop];
    unfold mbind, M_bind, rd_buf at 1; simpl; destruct (Hmap (a + i)) as [w Hw]; try lia.
  - assert (buf !! Z.to_nat i = Some 0) as ->
      by (rewrite <- (Nat.add_0_r (Z.to_nat i)), <- lookup_drop, Hd; done).
    unfold wr_user at 1. simpl. rewrite Hw. simpl. by rewrite Z.add_0_r.
  - assert (buf !! Z.to_nat i = Some b) as Hb
      by (rewrite <- (Nat.add_0_r (Z.to_nat i)), <- lookup_drop, Hd; done).
    rewrite Hb. apply Forall_cons_1 in Hnz as [Hb0 Hnz]. rewrite (drop_S_lookup _ _ _ Hb) in Hd.
    injection Hd as Hd. unfold wr_user at 1. simpl. rewrite Hw.
    rewrite (proj2 (Z.eqb_neq _ _)) by done.
    specialize (IH n (i + 1) (<[a + i := b]> m)). unfold mbind, M_bind in IH.
    rewrite IH.
    + rewrite Z.add_assoc. do 3 f_equal. f_equal. lia.
    + lia.
    + by replace (Z.to_nat (i + 1)) with (S (Z.to_nat i)) by lia.
    + done.
    + lia.
    + intros x Hx. rewrite lookup_insert_ne by lia. apply Hmap. cbn [length]. lia.
Qed.

Lemma user_write_lookup m a bs x :
  user_write m a bs !! x =
    if decide (a ≤ x < a + Z.of_nat (length bs)) then bs !! Z.to_nat (x - a) else m !! x.
Proof.
  revert m a. induction bs as [|b bs IH]; intros m a; simpl.
  - by rewrite decide_False by lia.
  - rewrite IH. repeat case_decide; try lia.
    + rewrite lookup_cons_ne_0 by lia. f_equal. lia.
    + assert (x = a) as -> by lia. by rewrite Z.sub_diag, lookup_insert_eq.
    + by rewrite lookup_insert_ne by lia.
Qed.

Lemma user_scan_str m a bs n :
  (∀ k b, bs !! k = Some b → m !! (a + Z.of_nat k) = Some b ∧ b ≠ 0) →
  m !! (a + Z.of_nat (length bs)) = Some 0 → (length bs < n)%nat →
  user_scan m a n = Some (bs ++ [0], true).
Proof.
  revert a n. induction bs as [|b bs IH]; intros a n Hbs H0 Hn; destruct n as [|n]; simpl in Hn; try lia;
    cbn [user_scan].
  - simpl in H0. rewrite Z.add_0_r in H0. by rewrite H0.
  - destruct (Hbs 0%nat b eq_refl) as [Hm Hb]. rewrite Z.add_0_r in Hm. rewrite Hm.
    rewrite (proj2 (Z.eqb_neq _ _)) by done. rewrite (IH (a + 1) n); [done| | |lia].
    + intros k b' Hk. replace (a + 1 + Z.of_nat k) with (a + Z.of_nat (S k)) by lia. by apply Hbs.
    + rewrite <- H0. f_equal. simpl. lia.
Qed.

(** ** Theorems *)

Definition idle (s : cstate) : Prop := pcb_badfaultfunc s = false.

(** [copyin] succeeds exactly when the whole source range is non-empty, in
    user space and mapped; it then fills the first [len] bytes of the buffer.
    Otherwise it reports EFAULT.  It never touches user memory and always leaves
    [pcb_badfaultfunc] cleared. *)
Theorem copyin_correct src dest len s :
  idle s → 0 ≤ src < 2 ^ 32 → 0 ≤ len ≤ Z.of_nat (length dest) → len < 2 ^ 32 →
  match (if decide (1 ≤ len ∧ src + len ≤ USERTOP)
         then user_bytes (umem s) src (Z.to_nat len) else None) with
  | Some bs => copyin src dest len s = Ok ((0, splice 0 bs dest), s)
  | None => ∃ dest', copyin src dest len s = Ok ((EFAULT, dest'), s) ∧ length dest' = length dest
  end.
Proof.
  intros Hidle Hs Hl Hl2. unfold copyin. rewrite copycheck_spec by lia.
  destruct (bool_decide _) eqn:Hc; bdestr.
  - case_decide as Hd.
    + rewrite Z.eqb_refl. simpl negb. cbv iota.
      destruct (memcpy_in src (umem s) (Z.to_nat len) 0 dest) as (ok & dest' & E & Hlen & Hm); [lia|lia|].
      rewrite Z.add_0_r in Hm.
      assert (s = mkcstate (umem s) false) as Hse by (destruct s; unfold idle in *; simpl in *; by subst).
      unfold with_badfault, set_badfault, mbind, M_bind, modify. simpl. rewrite E. simpl.
      destruct (user_bytes (umem s) src (Z.to_nat len)).
      * destruct Hm as [-> ->]. unfold mret, M_ret. by rewrite <- Hse.
      * subst ok. exists dest'. unfold mret, M_ret. by rewrite <- Hse.
    + destruct (Z.eqb_spec (USERTOP - src) len) as [E|_].
      { exfalso. unfold USERTOP in *. lia. }
      exists dest. done.
  - rewrite decide_False by (unfold USERTOP in *; lia). exists dest. done.
Qed.

(** [copyout] writes nothing outside [userdest, userdest+len), and nothing at
    all unless that range is in user space; on success the range holds the
    buffer's bytes. *)
Theorem copyout_correct src dst len s :
  idle s → 0 ≤ dst < 2 ^ 32 → 0 ≤ len ≤ Z.of_nat (length src) → len < 2 ^ 32 →
  ∃ r m', copyout src dst len s = Ok (r, mkcstate m' false) ∧
    (r = 0 ∨ r = EFAULT) ∧ same_outside (umem s) m' dst (Z.to_nat len) ∧
    (m' = umem s ∨ dst + len ≤ USERTOP) ∧
    (r = 0 ↔ 1 ≤ len ∧ dst + len ≤ USERTOP ∧ is_Some (user_bytes (umem s) dst (Z.to_nat len))) ∧
    (r = 0 → m' = user_write (umem s) dst (take (Z.to_nat len) src)).
Proof.
  intros Hidle Hs Hl Hl2. unfold copyout. rewrite copycheck_spec by lia.
  assert (s = mkcstate (umem s) false) as Hse by (destruct s; unfold idle in *; simpl in *; by subst).
  destruct (bool_decide _) eqn:Hc; bdestr.
  - case_decide as Hd.
    + rewrite Z.eqb_refl. simpl negb. cbv iota.
      destruct (memcpy_out dst (umem s) (Z.to_nat len) 0 src) as (ok & m' & E & Hso & Hok & Hm); [lia|lia|].
      rewrite Z.add_0_r in *.
      unfold with_badfault, set_badfault, mbind, M_bind, modify. simpl. rewrite E. simpl.
      exists (if ok then 0 else EFAULT), m'. split; [done|].
      destruct ok; split_and!; try (by auto); try (right; lia); try tauto; try lia.
      split; [done|]. intros (_ & _ & Hb). by apply Hok in Hb.
    + destruct (Z.eqb_spec (USERTOP - dst) len) as [E|_].
      { exfalso. unfold USERTOP in *. lia. }
      exists EFAULT, (umem s). rewrite Hse at 1. split_and!; try (by auto).
      unfold EFAULT. split; [lia|]. intros (? & ? & _). lia.
  - exists EFAULT, (umem s). rewrite Hse at 1. split_and!; try (by auto).
    unfold EFAULT, USERTOP in *. split; [lia|]. intros (? & ? & _). lia.
Qed.

(** [copyinstr] on every branch: the string with its terminator and its length
    when one is found in time; ENAMETOOLONG when [len] bytes hold none; EFAULT when
    the scan leaves user space or hits an unmapped byte. *)
Theorem copyinstr_correct src dest len s :
  idle s → 0 ≤ src < USERTOP → 1 ≤ len ≤ Z.of_nat (length dest) → src + len < 2 ^ 32 →
  let stop := Z.min len (USERTOP - src) in
  match user_scan (umem s) src (Z.to_nat stop) with
  | Some (bs, true) =>
      copyinstr src dest len s = Ok ((inr (Z.of_nat (length bs)), splice 0 bs dest), s)
  | Some (bs, false) =>
      copyinstr src dest len s =
        Ok ((inl (if decide (len ≤ USERTOP - src) then ENAMETOOLONG else EFAULT), splice 0 bs dest), s)
  | None => ∃ dest', copyinstr src dest len s = Ok ((inl EFAULT, dest'), s) ∧ length dest' = length dest
  end.
Proof.
  intros Hidle Hs Hl Hl2 stop. unfold copyinstr. rewrite copycheck_spec by (unfold USERTOP in *; lia).
  rewrite bool_decide_true by lia.
  assert (s = mkcstate (umem s) false) as Hse by (destruct s; unfold idle in *; simpl in *; by subst).
  set (stoplen := if decide (1 ≤ len ∧ src + len ≤ USERTOP) then len else USERTOP - src).
  assert (stop = Z.min len stoplen ∧ (stoplen <? len) = negb (bool_decide (len ≤ USERTOP - src))) as [-> Hb].
  { unfold stop, stoplen. case_decide; (split; [lia|]).
    - rewrite bool_decide_true by lia. simpl. lia.
    - rewrite bool_decide_false by lia. simpl. lia. }
  destruct (copystr_in src (umem s) (Z.to_nat (Z.min len stoplen)) len stoplen 0 dest)
    as (r & dest' & E & Hlen & Hm); [lia|lia|]. rewrite Z.add_0_r in Hm.
  unfold with_badfault, set_badfault, mbind, M_bind, modify, copystr. simpl. rewrite E. simpl.
  unfold mret, M_ret. rewrite <- Hse.
  destruct (user_scan (umem s) src _) as [[bs []]|].
  - destruct Hm as [-> ->]. simpl. done.
  - destruct Hm as [-> ->]. rewrite Hb. simpl. case_decide.
    + by rewrite bool_decide_true.
    + by rewrite bool_decide_false.
  - subst r. exists dest'. done.
Qed.

(** Round trip: a terminated string put into user memory by [copyoutstr] comes
    back from the same address through [copyinstr], byte for byte. *)
Theorem copystr_roundtrip bs rest dst len dest s :
  idle s → Forall (fun b => b ≠ 0) bs → 0 ≤ dst → 1 ≤ len ≤ Z.of_nat (length dest) →
  Z.of_nat (length bs) < len → dst + len ≤ USERTOP →
  (∀ x, dst ≤ x < dst + Z.of_nat (length bs) + 1 → is_Some (umem s !! x)) →
  ∃ s', copyoutstr (bs ++ 0 :: rest) dst len s = Ok (inr (Z.of_nat (length bs) + 1), s') ∧
        copyinstr dst dest len s' = Ok ((inr (Z.of_nat (length bs) + 1), splice 0 (bs ++ [0]) dest), s').
Proof.
  intros Hidle Hnz Hd Hl Hfit Htop Hmap.
  exists (mkcstate (user_write (umem s) dst (bs ++ [0])) false). split.
  - unfold copyoutstr. rewrite copycheck_spec by (unfold USERTOP in *; lia).
    rewrite bool_decide_true by (unfold USERTOP in *; lia). rewrite decide_True by lia.
    unfold with_badfault, set_badfault, mbind, M_bind, modify, copystr. simpl.
    rewrite (copystr_out dst (umem s) _ len len 0 _ bs rest); [|lia|done|done|lia|].
    + simpl. by rewrite Z.add_0_r.
    + intros x Hx. apply Hmap. lia.
  - pose proof (copyinstr_correct dst dest len (mkcstate (user_write (umem s) dst (bs ++ [0])) false)
      eq_refl ltac:(lia) Hl ltac:(unfold USERTOP in *; lia)) as Hc. cbv zeta in Hc.
    rewrite (user_scan_str _ _ bs) in Hc.
    + rewrite length_app in Hc. simpl in Hc. by rewrite Nat2Z.inj_add in Hc.
    + intros k b Hk. simpl. rewrite user_write_lookup. apply lookup_lt_Some in Hk as Hlt.
      rewrite length_app. simpl. rewrite decide_True by lia.
      replace (Z.to_nat (dst + Z.of_nat k - dst)) with k by lia.
      rewrite lookup_app_l by done. split; [done|]. by eapply Forall_lookup_1 in Hnz.
    + simpl. rewrite user_write_lookup. rewrite length_app. simpl. rewrite decide_True by lia.
      replace (Z.to_nat (dst + Z.of_nat (length bs) - dst)) with (length bs) by lia.
      by rewrite lookup_app_r, Nat.sub_diag by done.
    + lia.
Qed.
(** Two bytes of user memory. *)
Definition two_bytes : cstate := mkcstate {[1000 := 0; 1001 := 0]} false.

Lemma copystr_roundtrip_witness :
  ∃ s', copyoutstr [65; 0] 1000 2 two_bytes = Ok (inr 2, s') ∧
        copyinstr 1000 [0; 0] 2 s' = Ok ((inr 2, [65; 0]), s').
Proof.
  apply (copystr_roundtrip [65] [] 1000 2 [0; 0] two_bytes); try done.
  - by repeat constructor.
  - intros x Hx. change (Z.of_nat (length [65])) with 1 in Hx. destruct (decide (x = 1000)) as [->|]; [by eexists|].
    replace x with 1001 by lia. by eexists.
Defined.

End Copyinout.
