(* ===== verification/Uio.v ===== *)
(** * I/O regions (kern/userprog/uio.c, kern/include/uio.h)

    A [uio] describes the memory side of a transfer.  Its buffer pointer is a
    union in the code and a sum here: a kernel buffer, split at the pointer into
    the part already transferred and the part still ahead, or a user address.
    [uiomove] moves bytes between a kernel block (passed in and handed back as
    the list of its bytes) and the region.  The theorems give the data moved and
    show the accounting of [uio_offset], [uio_resid] and [iov_len]. *)
From stdpp Require Import base list gmap numbers.
From S2P Require Import Prelude Copyinout.
Local Open Scope Z_scope.

Module Uio.
Import Copyinout.

Inductive uio_rw_t := UIO_READ | UIO_WRITE.
Inductive uio_seg_t := UIO_USERSPACE | UIO_SYSSPACE | UIO_USERISPACE.

#[global] Instance uio_rw_eq_dec : EqDecision uio_rw_t.
Proof. solve_decision. Defined.
#[global] Instance uio_seg_eq_dec : EqDecision uio_seg_t.
Proof. solve_decision. Defined.

Inductive iov_un_t :=
| un_kbase (done rest : list Z)
| un_ubase (a : Z).

Record uio := mkuio {
  iov_un : iov_un_t;
  iov_len : Z;
  uio_offset : Z;
  uio_resid : Z;
  uio_segflg : uio_seg_t;
  uio_rw : uio_rw_t;
  uio_space : option nat
}.

(** The running thread's address space and user memory. *)
Record ustate := mkustate {
  u_mem : cstate;
  t_vmspace : option nat
}.

Definition on_mem {A} (m : M cstate A) : M ustate A :=
  zoom u_mem (fun c s => mkustate c (t_vmspace s)) m.

(** [memmove] between [ptr] and the region when the code treats the region as
    kernel memory.  A user address handled this way is accessed without
    [pcb_badfaultfunc]: an unmapped one is a fatal kernel fault. *)
Definition move_sys (rw : uio_rw_t) (ptr : list Z) (un : iov_un_t) (size : Z) :
    M ustate (list Z * iov_un_t) :=
  let n := Z.to_nat size in
  match un with
  | un_kbase done rest =>
      if (length rest <? n)%nat || (length ptr <? n)%nat then lift Undef
      else match rw with
           | UIO_READ => mret (ptr, un_kbase (done ++ take n ptr) (drop n rest))
           | UIO_WRITE => mret (splice 0 (take n rest) ptr, un_kbase (done ++ take n rest) (drop n rest))
           end
  | un_ubase a =>
      if (length ptr <? n)%nat || negb (a + size <=? USERTOP) then lift Undef
      else
        let* m := gets (fun s => umem (u_mem s)) in
        match user_bytes m a n with
        | None => panic
        | Some bs =>
            match rw with
            | UIO_READ =>
                let* _ := modify (fun s => mkustate
                  (mkcstate (user_write m a (take n ptr)) (pcb_badfaultfunc (u_mem s))) (t_vmspace s)) in
                mret (ptr, un_ubase (a + size))
            | UIO_WRITE => mret (splice 0 bs ptr, un_ubase (a + size))
            end
        end
  end.

(** The user-space case: [copyout] or [copyin].  A kernel address is above
    [USERTOP], so [copycheck] rejects it. *)
Definition move_user (rw : uio_rw_t) (ptr : list Z) (un : iov_un_t) (size : Z) :
    M ustate (Z * list Z * iov_un_t) :=
  match un with
  | un_kbase _ _ => mret (EFAULT, ptr, un)
  | un_ubase a =>
      match rw with
      | UIO_READ =>
          let* result := on_mem (copyout ptr a size) in
          mret (result, ptr, if result =? 0 then un_ubase (a + size) else un)
      | UIO_WRITE =>
          let* '(result, ptr') := on_mem (copyin a ptr size) in
          mret (result, ptr', if result =? 0 then un_ubase (a + size) else un)
      end
  end.

(** The bookkeeping at the end of the loop body. *)
Definition uio_advance (u : uio) (un : iov_un_t) (size : Z) : uio :=
  mkuio un (u32 (iov_len u - size)) (i32 (uio_offset u + size)) (u32 (uio_resid u - size))
    (uio_segflg u) (uio_rw u) (uio_space u).

Fixpoint uiomove_loop (fuel : nat) (ptr : list Z) (n : Z) (u : uio) : M ustate (Z * list Z * uio) :=
  if (n >? 0) && (uio_resid u >? 0) then
    match fuel with
    | O => lift Spin
    | S fuel' =>
        let size := Z.min (iov_len u) n in
        if size =? 0 then panic
        else
          match uio_segflg u with
          | UIO_SYSSPACE =>
              let* '(ptr', un') := move_sys (uio_rw u) ptr (iov_un u) size in
              let* '(r, rest, u') := uiomove_loop fuel' (drop (Z.to_nat size) ptr') (n - size)
                                       (uio_advance u un' size) in
              mret (r, take (Z.to_nat size) ptr' ++ rest, u')
          | _ =>
              let* '(result, ptr', un') := move_user (uio_rw u) ptr (iov_un u) size in
              if negb (result =? 0) then mret (result, ptr', u)
              else
                let* '(r, rest, u') := uiomove_loop fuel' (drop (Z.to_nat size) ptr') (n - size)
                                         (uio_advance u un' size) in
                mret (r, take (Z.to_nat size) ptr' ++ rest, u')
          end
    end
  else mret (0, ptr, u).

(** Each round exhausts [n] or [iov_len], so two rounds always suffice. *)
Definition uiomove (ptr : list Z) (n : Z) (u : uio) : M ustate (Z * list Z * uio) :=
  let* sp := gets t_vmspace in
  let* _ := massert (match uio_segflg u with
                     | UIO_SYSSPACE => bool_decide (uio_space u = None)
                     | _ => bool_decide (uio_space u = sp)
                     end) in
  uiomove_loop 2 ptr n u.

Definition zeros16 : list Z := replicate 16 0.

Fixpoint uiomovezeros_loop (fuel : nat) (n : Z) (u : uio) : M ustate (Z * uio) :=
  if n >? 0 then
    match fuel with
    | O => lift Spin
    | S fuel' =>
        let amt := Z.min 16 n in
        let* '(result, z, u') := uiomove zeros16 amt u in
        if negb (result =? 0) then mret (result, u')
        else uiomovezeros_loop fuel' (n - amt) u'
    end
  else mret (0, u).

Definition uiomovezeros (n : Z) (u : uio) : M ustate (Z * uio) :=
  let* _ := massert (bool_decide (uio_rw u = UIO_READ)) in
  uiomovezeros_loop (Z.to_nat n) n u.

(** The kernel buffer [kbuf] is the whole region. *)
Definition mk_kuio (kbuf : list Z) (len pos : Z) (rw : uio_rw_t) : uio :=
  mkuio (un_kbase [] kbuf) len pos len UIO_SYSSPACE rw None.

(** The buffer of a kernel uio once the transfer is over. *)
Definition kuio_data (u : uio) : list Z :=
  match iov_un u with
  | un_kbase done rest => done ++ rest
  | un_ubase _ => []
  end.

(** ** Specification: a well-formed kernel uio *)
Record kuio (u : uio) (done rest : list Z) : Prop := {
  ku_un : iov_un u = un_kbase done rest;
  ku_seg : uio_segflg u = UIO_SYSSPACE;
  ku_space : uio_space u = None;
  ku_len : iov_len u = Z.of_nat (length rest);
  ku_resid : 0 ≤ uio_resid u ≤ iov_len u;
  ku_off : 0 ≤ uio_offset u;
  ku_max : uio_offset u + uio_resid u < 2 ^ 31;
  ku_len32 : iov_len u < 2 ^ 31
}.

Lemma mk_kuio_kuio kbuf len pos rw :
  len = Z.of_nat (length kbuf) → 0 ≤ pos → pos + len < 2 ^ 31 → kuio (mk_kuio kbuf len pos rw) [] kbuf.
Proof. intros -> ? ?. constructor; simpl; (done || lia). Qed.

(** Moving [n] bytes advances a kernel uio by [n]. *)
Lemma uio_advance_kuio u done rest moved n :
  kuio u done rest → 0 ≤ n ≤ uio_resid u → length moved = Z.to_nat n →
  let u' := uio_advance u (un_kbase (done ++ moved) (drop (Z.to_nat n) rest)) n in
  kuio u' (done ++ moved) (drop (Z.to_nat n) rest) ∧
  uio_offset u' = uio_offset u + n ∧ uio_resid u' = uio_resid u - n ∧ uio_rw u' = uio_rw u.
Proof.
  intros H Hn Hm. destruct H as [H1 H2 H3 H4 H5 H6 H7 H8]. simpl.
  rewrite !u32_small, i32_small by lia.
  split_and!; try done. constructor; simpl; try done; try lia.
  - rewrite u32_small by lia. len.
  - rewrite !u32_small by lia. lia.
  - rewrite i32_small; lia.
  - rewrite i32_small, u32_small; lia.
  - rewrite u32_small; lia.
Qed.

Lemma uiomove_space u done rest s ptr n :
  kuio u done rest → uiomove ptr n u s = uiomove_loop 2 ptr n u s.
Proof.
  intros H. unfold uiomove, mbind, M_bind, gets. rewrite (ku_seg _ _ _ H), (ku_space _ _ _ H).
  unfold massert. by rewrite bool_decide_true.
Qed.

Lemma uiomove_loop_done fuel ptr n u s :
  n ≤ 0 ∨ uio_resid u ≤ 0 → uiomove_loop fuel ptr n u s = Ok ((0, ptr, u), s).
Proof.
  intros H. destruct fuel; cbn [uiomove_loop];
    destruct (Z.gtb_spec n 0), (Z.gtb_spec (uio_resid u) 0); simpl; (lia || done).
Qed.

(** One round of the loop that takes all of [n], on a kernel region. *)
Lemma uiomove_loop_round fuel ptr n u s ptr' un' :
  0 < n → n ≤ iov_len u → 0 < uio_resid u → uio_segflg u = UIO_SYSSPACE →
  move_sys (uio_rw u) ptr (iov_un u) n s = Ok ((ptr', un'), s) →
  uiomove_loop (S fuel) ptr n u s = Ok ((0, ptr', uio_advance u un' n), s).
Proof.
  intros Hn Hl Hr Hseg Hm. unfold uiomove_loop. fold uiomove_loop.
  rewrite (proj2 (Z.gtb_lt _ _)), (proj2 (Z.gtb_lt _ _)) by lia. cbv [andb]. cbv zeta.
  rewrite Z.min_r by lia. rewrite (proj2 (Z.eqb_neq _ _)), Hseg by lia.
  rewrite (bind_ok _ _ _ _ _ Hm). erewrite bind_ok; [|apply uiomove_loop_done; lia].
  unfold mret, M_ret. by rewrite take_drop.
Qed.

(** The bytes an operation of [n] bytes moves. *)
Definition moved (rw : uio_rw_t) (ptr rest : list Z) (n : Z) : list Z :=
  match rw with
  | UIO_READ => take (Z.to_nat n) ptr
  | UIO_WRITE => take (Z.to_nat n) rest
  end.

Lemma length_moved rw ptr rest n :
  0 ≤ n ≤ Z.of_nat (length rest) → n ≤ Z.of_nat (length ptr) → length (moved rw ptr rest n) = Z.to_nat n.
Proof. intros. destruct rw; simpl; len. Qed.

Lemma move_sys_kbase rw ptr done rest n s :
  0 ≤ n ≤ Z.of_nat (length rest) → n ≤ Z.of_nat (length ptr) →
  move_sys rw ptr (un_kbase done rest) n s =
    Ok ((splice 0 (moved rw ptr rest n) ptr,
         un_kbase (done ++ moved rw ptr rest n) (drop (Z.to_nat n) rest)), s).
Proof.
  intros. unfold move_sys.
  rewrite (proj2 (Nat.ltb_ge (length rest) _)), (proj2 (Nat.ltb_ge (length ptr) _)) by lia.
  destruct rw; [|done]. simpl. unfold splice, mret, M_ret. rewrite take_0. simpl.
  rewrite length_take, Nat.min_l by lia. by rewrite take_drop.
Qed.

(** A transfer that fits moves exactly [n] bytes, in one round: out of [ptr] on a
    read, into it on a write. *)
Lemma uiomove_kernel u done rest s ptr n :
  kuio u done rest → 0 ≤ n ≤ uio_resid u → n ≤ Z.of_nat (length ptr) →
  let data := moved (uio_rw u) ptr rest n in
  ∃ u', uiomove ptr n u s = Ok ((0, splice 0 data ptr, u'), s) ∧
    kuio u' (done ++ data) (drop (Z.to_nat n) rest) ∧
    uio_offset u' = uio_offset u + n ∧ uio_resid u' = uio_resid u - n ∧ uio_rw u' = uio_rw u.
Proof.
  intros H Hn Hp data. rewrite (uiomove_space _ _ _ _ _ _ H).
  pose proof H as [H1 H2 H3 H4 H5 H6 H7 H8].
  assert (length data = Z.to_nat n) as Hd by (apply length_moved; lia).
  destruct (decide (n = 0)) as [->|Hpos].
  - exists u. rewrite uiomove_loop_done by lia. apply nil_length_inv in Hd as ->.
    rewrite splice_nil, app_nil_r, drop_0. split_and!; (done || lia).
  - eexists. erewrite uiomove_loop_round; [|lia|lia|lia|done|rewrite H1; apply move_sys_kbase; lia].
    split; [done|]. by apply uio_advance_kuio.
Qed.

(** The last piece, which the region ends in. *)
Lemma uiomove_last u done rest us ptr n :
  kuio u done rest → uio_rw u = UIO_READ → uio_resid u = Z.of_nat (length rest) → 0 < uio_resid u ≤ n → n ≤ Z.of_nat (length ptr) →
  ∃ u' p', uiomove ptr n u us = Ok ((0, p', u'), us) ∧ kuio u' (done ++ take (length rest) ptr) [] ∧ uio_resid u' = 0 ∧ uio_rw u' = UIO_READ.
Proof.
  intros H Hrw Hr Hn Hp. pose proof H as [H1 H2 H3 H4 H5 H6 H7 H8]. rewrite (uiomove_space _ _ _ _ _ _ H). cbn [uiomove_loop].
  rewrite (proj2 (Z.gtb_lt n 0)), (proj2 (Z.gtb_lt (uio_resid u) 0)) by lia. cbn [andb]. cbv zeta. rewrite Z.min_l by lia. rewrite (proj2 (Z.eqb_neq _ 0)), H2 by lia.
  erewrite bind_ok; [|rewrite H1; apply move_sys_kbase; lia]. cbv beta iota. destruct (uio_advance_kuio u done rest (moved (uio_rw u) ptr rest (iov_len u)) (iov_len u) H) as (K & _ & Kr & Krw).
  - lia.
  - apply length_moved; lia.
  - erewrite bind_ok; [|apply (uiomove_loop_done 1); right; lia]. eexists _, _. split; [reflexivity|]. rewrite Hrw in *. cbn [moved] in *.
    rewrite H4, Nat2Z.id, drop_ge in * by lia. split_and!; [exact K|lia|done].
Qed.

(** A read from a region that is filled as far as the transfer goes: as much as fits is moved. *)
Lemma uiomove_fits u done rest us ptr n :
  kuio u done rest → uio_rw u = UIO_READ → uio_resid u = Z.of_nat (length rest) → 0 ≤ n ≤ Z.of_nat (length ptr) →
  ∃ u' p' done' rest', uiomove ptr n u us = Ok ((0, p', u'), us) ∧ kuio u' done' rest' ∧ uio_resid u' = Z.of_nat (length rest') ∧ uio_rw u' = UIO_READ.
Proof.
  intros H Hrw Hr Hn. pose proof (ku_resid _ _ _ H). destruct (decide (n ≤ uio_resid u)) as [Hle|Hgt].
  - destruct (uiomove_kernel u done rest us ptr n H ltac:(lia) ltac:(lia)) as (u' & E & K & _ & R & Wr). eexists _, _, _, _.
    split; [exact E|]. split; [exact K|]. split; [rewrite length_drop; lia|congruence].
  - destruct (decide (0 < uio_resid u)) as [Hp|Hz].
    + destruct (uiomove_last u done rest us ptr n H Hrw Hr) as (u' & p' & E & K & R & Wr); [lia|lia|]. by eexists _, _, _, _.
    + rewrite (uiomove_space _ _ _ _ _ _ H). rewrite uiomove_loop_done by lia. by eexists _, _, _, _.
Qed.

(** *** Regions in user memory *)
Record uuio (u : uio) (sp : option nat) (a : Z) : Prop := {
  uu_un : iov_un u = un_ubase a;
  uu_seg : uio_segflg u ≠ UIO_SYSSPACE;
  uu_space : uio_space u = sp;
  uu_addr : 0 ≤ a < 2 ^ 31;
  uu_resid : 0 ≤ uio_resid u ≤ iov_len u;
  uu_off : 0 ≤ uio_offset u;
  uu_max : uio_offset u + uio_resid u < 2 ^ 31;
  uu_len32 : iov_len u < 2 ^ 31
}.

Lemma uiomove_space_user u a s ptr n :
  uuio u (t_vmspace s) a → uiomove ptr n u s = uiomove_loop 2 ptr n u s.
Proof.
  intros H. unfold uiomove, mbind, M_bind, gets. rewrite (uu_space _ _ _ H).
  unfold massert. destruct (uio_segflg u) eqn:E; [by rewrite bool_decide_true| |by rewrite bool_decide_true].
  by destruct (uu_seg _ _ _ H).
Qed.

(** One round on a user region that takes all of [n]: the copy decides. *)
Lemma uiomove_loop_user u sp a fuel ptr n s r ptr' un' s' :
  uuio u sp a → 0 < n ≤ uio_resid u →
  move_user (uio_rw u) ptr (iov_un u) n s = Ok ((r, ptr', un'), s') →
  uiomove_loop (S fuel) ptr n u s =
    Ok (if r =? 0 then (0, ptr', uio_advance u un' n) else (r, ptr', u), s').
Proof.
  intros H Hn Hm. destruct H as [H1 H2 H3 H4 H5 H6 H7 H8].
  unfold uiomove_loop. fold uiomove_loop.
  rewrite (proj2 (Z.gtb_lt n 0)), (proj2 (Z.gtb_lt (uio_resid u) 0)) by lia. cbv [andb]. cbv zeta.
  rewrite Z.min_r by lia. rewrite (proj2 (Z.eqb_neq n 0)) by lia.
  destruct (uio_segflg u); try done; rewrite (bind_ok _ _ _ _ _ Hm);
    (destruct (r =? 0); [|done]); cbn [negb];
    (erewrite bind_ok; [|apply uiomove_loop_done; lia]); unfold mret, M_ret; by rewrite take_drop.
Qed.

(** A user region advanced by [n]. *)
Definition uuio_next (u u' : uio) (a n : Z) : Prop :=
  iov_un u' = un_ubase (a + n) ∧ iov_len u' = iov_len u - n ∧ uio_offset u' = uio_offset u + n ∧
  uio_resid u' = uio_resid u - n ∧ uio_rw u' = uio_rw u ∧ uio_segflg u' = uio_segflg u ∧
  uio_space u' = uio_space u.

Lemma uio_advance_uuio u sp a n :
  uuio u sp a → 0 ≤ n ≤ uio_resid u → uuio_next u (uio_advance u (un_ubase (a + n)) n) a n.
Proof.
  intros [H1 H2 H3 H4 H5 H6 H7 H8] Hn. unfold uuio_next. simpl.
  rewrite !u32_small, i32_small by lia. done.
Qed.

(** *** Zeros *)
Lemma uiomovezeros_loop_done fuel n u s : n ≤ 0 → uiomovezeros_loop fuel n u s = Ok ((0, u), s).
Proof. intros. destruct fuel; cbn [uiomovezeros_loop]; destruct (Z.gtb_spec n 0); (lia || done). Qed.

Lemma uiomovezeros_kernel fuel n u done rest s :
  kuio u done rest → uio_rw u = UIO_READ → 0 ≤ n ≤ uio_resid u → (Z.to_nat n ≤ fuel)%nat →
  ∃ u', uiomovezeros_loop fuel n u s = Ok ((0, u'), s) ∧
    kuio u' (done ++ replicate (Z.to_nat n) 0) (drop (Z.to_nat n) rest) ∧
    uio_offset u' = uio_offset u + n ∧ uio_resid u' = uio_resid u - n ∧ uio_rw u' = UIO_READ.
Proof.
  revert n u done rest. induction fuel as [|fuel IH]; intros n u done rest H Hrw Hn Hf.
  - assert (n = 0) as -> by lia. exists u. rewrite uiomovezeros_loop_done by lia.
    simpl. rewrite app_nil_r, drop_0, Z.add_0_r, Z.sub_0_r. done.
  - destruct (decide (n = 0)) as [->|Hpos].
    { exists u. rewrite uiomovezeros_loop_done by lia.
      simpl. rewrite app_nil_r, drop_0, Z.add_0_r, Z.sub_0_r. done. }
    cbn [uiomovezeros_loop]. rewrite (proj2 (Z.gtb_lt n 0)) by lia.
    destruct (uiomove_kernel u done rest s zeros16 (Z.min 16 n)) as (u1 & E & K & Ho & Hr & Hrw1);
      [done|lia|unfold zeros16; len|].
    rewrite Hrw in *. rewrite (bind_ok _ _ _ _ _ E). cbn [negb Z.eqb].
    destruct (IH (n - Z.min 16 n) u1 _ _ K) as (u' & E' & K' & Ho' & Hr' & Hrw'); [done|lia|lia|].
    exists u'. rewrite E'. split; [done|].
    unfold moved, zeros16 in K'. rewrite take_replicate, Nat.min_l in K' by lia.
    rewrite <- app_assoc, <- replicate_add, drop_drop in K'.
    replace (Z.to_nat (Z.min 16 n) + Z.to_nat (n - Z.min 16 n))%nat with (Z.to_nat n) in K' by lia.
    split_and!; (done || lia).
Qed.

(** ** Theorems *)

(** A transfer on a kernel region that has room moves exactly [n] bytes: on a
    read they are appended to the filled part of the region, on a write they
    replace the front of [ptr]; offset, residue and length move by [n]. *)
Theorem uiomove_kernel_moves u done rest s ptr n :
  kuio u done rest → 0 ≤ n ≤ uio_resid u → n ≤ Z.of_nat (length ptr) →
  ∃ u', uiomove ptr n u s =
      Ok ((0, match uio_rw u with
              | UIO_READ => ptr
              | UIO_WRITE => take (Z.to_nat n) rest ++ drop (Z.to_nat n) ptr
              end, u'), s) ∧
    kuio u' (done ++ match uio_rw u with
                     | UIO_READ => take (Z.to_nat n) ptr
                     | UIO_WRITE => take (Z.to_nat n) rest
                     end) (drop (Z.to_nat n) rest) ∧
    uio_offset u' = uio_offset u + n ∧ uio_resid u' = uio_resid u - n ∧ uio_rw u' = uio_rw u.
Proof.
  intros H Hn Hp. destruct (uiomove_kernel u done rest s ptr n H Hn Hp) as (u' & E & R).
  exists u'. rewrite E. pose proof (ku_len _ _ _ H). pose proof (ku_resid _ _ _ H).
  unfold moved, splice in *. rewrite take_0, Nat.add_0_l. destruct (uio_rw u); simpl; split; try done.
  - rewrite length_take, Nat.min_l by lia. by rewrite take_drop.
  - by rewrite length_take, Nat.min_l by lia.
Qed.

Lemma user_read_run u a s ptr n :
  uuio u (t_vmspace s) a → uio_rw u = UIO_READ → idle (u_mem s) →
  0 < n ≤ uio_resid u → n ≤ Z.of_nat (length ptr) →
  ∃ r u' m', uiomove ptr n u s = Ok ((r, ptr, u'), mkustate (mkcstate m' false) (t_vmspace s)) ∧
    same_outside (umem (u_mem s)) m' a (Z.to_nat n) ∧
    (r = 0 ↔ a + n ≤ USERTOP ∧ is_Some (user_bytes (umem (u_mem s)) a (Z.to_nat n))) ∧
    (r = 0 ∧ uuio_next u u' a n ∧ m' = user_write (umem (u_mem s)) a (take (Z.to_nat n) ptr)
     ∨ r = EFAULT ∧ u' = u).
Proof.
  intros H Hrw Hidle Hn Hp. rewrite (uiomove_space_user _ _ _ _ _ H).
  pose proof (uu_addr _ _ _ H). pose proof (uu_max _ _ _ H). pose proof (uu_off _ _ _ H).
  destruct (copyout_correct ptr a n (u_mem s)) as (r & m' & E & Hr & Hso & _ & Hok & Hm); [done|lia|lia|lia|].
  assert (move_user (uio_rw u) ptr (iov_un u) n s =
    Ok ((r, ptr, if r =? 0 then un_ubase (a + n) else un_ubase a), mkustate (mkcstate m' false) (t_vmspace s))) as Em.
  { rewrite Hrw, (uu_un _ _ _ H). unfold move_user, on_mem, zoom, mbind, M_bind. by rewrite E. }
  rewrite (uiomove_loop_user _ _ _ _ _ _ _ _ _ _ _ H Hn Em).
  destruct (Z.eqb_spec r 0) as [->|Hr0].
  - eexists _, _, _. split; [done|]. split; [done|]. split; [tauto|]. left.
    split_and!; [done|by eapply uio_advance_uuio; [|lia]|by apply Hm].
  - eexists _, _, _. split; [done|]. split; [done|].
    split; [rewrite Hok; split; [tauto|split; [lia|tauto]]|]. right. split; [|done]. naive_solver.
Qed.

(** Reading into user space: either the whole destination is mapped user memory,
    and then it receives the [n] bytes and the region advances by [n], or the call
    reports EFAULT and the region is as before; memory outside the destination
    never changes. *)
Theorem uiomove_to_user u a s ptr n :
  uuio u (t_vmspace s) a → uio_rw u = UIO_READ → idle (u_mem s) →
  0 < n ≤ uio_resid u → n ≤ Z.of_nat (length ptr) →
  ∃ r u' m', uiomove ptr n u s = Ok ((r, ptr, u'), mkustate (mkcstate m' false) (t_vmspace s)) ∧
    same_outside (umem (u_mem s)) m' a (Z.to_nat n) ∧
    (r = 0 ↔ a + n ≤ USERTOP ∧ is_Some (user_bytes (umem (u_mem s)) a (Z.to_nat n))) ∧
    (r = 0 ∧ uuio_next u u' a n ∧ m' = user_write (umem (u_mem s)) a (take (Z.to_nat n) ptr)
     ∨ r = EFAULT ∧ u' = u).
Proof. apply user_read_run. Qed.

(** Writing from user space: the block receives the [n] user bytes and the region
    advances by [n] exactly when the whole source is mapped user memory; otherwise
    EFAULT and an unchanged region.  User memory is only read. *)
Theorem uiomove_from_user u a s ptr n :
  uuio u (t_vmspace s) a → uio_rw u = UIO_WRITE → idle (u_mem s) →
  0 < n ≤ uio_resid u → n ≤ Z.of_nat (length ptr) →
  match (if decide (a + n ≤ USERTOP) then user_bytes (umem (u_mem s)) a (Z.to_nat n) else None) with
  | Some bs => ∃ u', uiomove ptr n u s = Ok ((0, splice 0 bs ptr, u'), s) ∧ uuio_next u u' a n
  | None => ∃ ptr', uiomove ptr n u s = Ok ((EFAULT, ptr', u), s) ∧ length ptr' = length ptr
  end.
Proof.
  intros H Hrw Hidle Hn Hp. rewrite (uiomove_space_user _ _ _ _ _ H).
  pose proof (uu_addr _ _ _ H). pose proof (uu_max _ _ _ H). pose proof (uu_off _ _ _ H).
  pose proof (copyin_correct a ptr n (u_mem s) Hidle ltac:(lia) ltac:(lia) ltac:(lia)) as Hc.
  assert (∀ r q, copyin a ptr n (u_mem s) = Ok ((r, q), u_mem s) →
    move_user (uio_rw u) ptr (iov_un u) n s =
      Ok ((r, q, if r =? 0 then un_ubase (a + n) else un_ubase a), s)) as Em.
  { intros r q E. rewrite Hrw, (uu_un _ _ _ H). unfold move_user, on_mem, zoom, mbind, M_bind.
    rewrite E. by destruct s. }
  rewrite (decide_ext _ (a + n ≤ USERTOP)) in Hc by lia.
  destruct (if decide (a + n ≤ USERTOP) then _ else _).
  - rewrite (uiomove_loop_user _ _ _ _ _ _ _ _ _ _ _ H Hn (Em _ _ Hc)).
    eexists. split; [done|]. by eapply uio_advance_uuio; [|lia].
  - destruct Hc as (q & E & Hl).
    rewrite (uiomove_loop_user _ _ _ _ _ _ _ _ _ _ _ H Hn (Em _ _ E)). by exists q.
Qed.

(** [uiomovezeros] appends [n] zero bytes to a kernel region. *)
Theorem uiomovezeros_appends n u done rest s :
  kuio u done rest → uio_rw u = UIO_READ → 0 ≤ n ≤ uio_resid u →
  ∃ u', uiomovezeros n u s = Ok ((0, u'), s) ∧
    kuio u' (done ++ replicate (Z.to_nat n) 0) (drop (Z.to_nat n) rest) ∧
    uio_offset u' = uio_offset u + n ∧ uio_resid u' = uio_resid u - n ∧ uio_rw u' = UIO_READ.
Proof.
  intros H Hrw Hn. unfold uiomovezeros, mbind, M_bind, massert. rewrite Hrw, bool_decide_true by done.
  by apply uiomovezeros_kernel.
Qed.

(** A user address in a region marked UIO_SYSSPACE (what [sys_write] builds) is
    dereferenced without the fault hook: an unmapped byte stops the kernel. *)
Theorem uiomove_sysspace_user_pointer_panics u a s ptr n :
  iov_un u = un_ubase a → uio_segflg u = UIO_SYSSPACE → uio_space u = None →
  0 < n ≤ iov_len u → 0 < uio_resid u → n ≤ Z.of_nat (length ptr) → a + n ≤ USERTOP →
  user_bytes (umem (u_mem s)) a (Z.to_nat n) = None →
  uiomove ptr n u s = Panic.
Proof.
  intros H1 H2 H3 Hn Hr Hp Ha Hb. unfold uiomove, mbind, M_bind, gets. rewrite H2, H3.
  unfold massert. rewrite bool_decide_true by done. unfold uiomove_loop.
  rewrite (proj2 (Z.gtb_lt n 0)), (proj2 (Z.gtb_lt (uio_resid u) 0)) by lia. cbv [andb]. cbv zeta.
  rewrite Z.min_r by lia. rewrite (proj2 (Z.eqb_neq n 0)), H2, H1 by lia. unfold move_sys.
  rewrite (proj2 (Nat.ltb_ge (length ptr) _)), (proj2 (Z.leb_le _ _)) by lia. simpl orb. cbv iota.
  unfold mbind, M_bind, gets. by rewrite Hb.
Qed.
(** A two-byte user region at address 1000. *)
Definition demo_user (rw : uio_rw_t) : uio := mkuio (un_ubase 1000) 2 0 2 UIO_USERSPACE rw (Some 7%nat).
Definition demo_mem : ustate := mkustate two_bytes (Some 7%nat).

Lemma demo_user_uuio rw : uuio (demo_user rw) (t_vmspace demo_mem) 1000.
Proof. by constructor. Qed.

Lemma uiomove_to_user_witness :
  ∃ r u' m', uiomove [65; 66] 2 (demo_user UIO_READ) demo_mem = Ok ((r, [65; 66], u'), mkustate (mkcstate m' false) (Some 7%nat)) ∧
    r = 0.
Proof.
  destruct (uiomove_to_user (demo_user UIO_READ) 1000 demo_mem [65; 66] 2) as (r & u' & m' & E & _ & Hr & _);
    [apply demo_user_uuio|done|done|done|done|].
  exists r, u', m'. split; [exact E|]. apply Hr. split; [done|]. vm_compute. by eexists.
Defined.

Lemma uiomove_from_user_witness :
  ∃ u', uiomove [65; 66] 2 (demo_user UIO_WRITE) demo_mem = Ok ((0, [0; 0], u'), demo_mem).
Proof.
  pose proof (uiomove_from_user (demo_user UIO_WRITE) 1000 demo_mem [65; 66] 2 (demo_user_uuio _) eq_refl eq_refl
    ltac:(done) ltac:(done)) as H.
  destruct H as (u' & E & _). by exists u'.
Defined.

Lemma uiomove_sysspace_user_pointer_panics_witness :
  uiomove [65] 1 (mkuio (un_ubase 4096) 1 0 1 UIO_SYSSPACE UIO_WRITE None) demo_mem = Panic.
Proof. apply (uiomove_sysspace_user_pointer_panics _ 4096); done. Defined.

End Uio.
