(* ===== verification/Lhd.v ===== *)
(** * The LAMEbus hard disk and its driver
    (kern/dev/lamebus/lhd.c; the device of sys161-1.14/bus/dev_disk.c)

    [disk_data] is the device: its image, its registers, its transfer buffer.
    The device model keeps everything of dev_disk.c but the timing: seeks,
    rotation and cache latencies only decide when an operation finishes, and here
    it finishes when the driver waits for it.  [dd_faults] scripts the host I/O of
    the coming operations: [None] succeeds, [Some k] fails after [k] bytes; when the
    script has run out every operation succeeds.

    [dstate] is the driver's state: the device, the two semaphores and the
    result left by the interrupt handler.  [lhd_io] is the whole function, the
    interrupt handler [lhd_irq] running when the driver sleeps on [lh_done]. *)
From stdpp Require Import base list gmap numbers.
From S2P Require Import Prelude Copyinout Uio.
Local Open Scope Z_scope.

Module Lhd.
Import Copyinout Uio.

Definition SECTSIZE : Z := 512.
Definition LHD_SECTSIZE : Z := 512.

(** ** The device *)
Record disk_data := mkdisk {
  dd_image : list (list Z);
  dd_stat : Z;
  dd_sect : Z;
  dd_buf : list Z;
  dd_faults : list (option nat)
}.

Definition dd_totsectors (dd : disk_data) : Z := Z.of_nat (length (dd_image dd)).

Definition DISKBIT_INPROGRESS : Z := 1.
Definition DISKBIT_ISWRITE : Z := 2.
Definition DISKBIT_COMPLETE : Z := 4.
Definition DISKBIT_INVSECT : Z := 8.
Definition DISKBIT_MEDIAERR : Z := 16.
Definition DISKSTAT_IDLE : Z := 0.
Definition DISKSTAT_READING : Z := DISKBIT_INPROGRESS.
Definition DISKSTAT_WRITING : Z := Z.lor DISKBIT_INPROGRESS DISKBIT_ISWRITE.

(** The macros FINISH, COMPLETE, INVSECT and MEDIAERR. *)
Definition FINISH (r bits : Z) : Z := Z.lor (Z.land r (Z.lnot DISKBIT_INPROGRESS)) bits.
Definition COMPLETE (r : Z) : Z := FINISH r DISKBIT_COMPLETE.
Definition INVSECT (r : Z) : Z := FINISH r (Z.lor DISKBIT_COMPLETE DISKBIT_INVSECT).
Definition MEDIAERR (r : Z) : Z := FINISH r (Z.lor DISKBIT_COMPLETE DISKBIT_MEDIAERR).

(** The outcome the host gives the next operation. *)
Definition next_fault (dd : disk_data) : option nat := default None (head (dd_faults dd)).

(** [doread] of one sector into the buffer: [true] on a host error, after which
    the front of the buffer may already have been overwritten. *)
Definition disk_readsector (dd : disk_data) : bool * disk_data :=
  let sec := default [] (dd_image dd !! Z.to_nat (dd_sect dd)) in
  match next_fault dd with
  | None => (false, mkdisk (dd_image dd) (dd_stat dd) (dd_sect dd) sec (tail (dd_faults dd)))
  | Some k => (true, mkdisk (dd_image dd) (dd_stat dd) (dd_sect dd)
                       (splice 0 (take k sec) (dd_buf dd)) (tail (dd_faults dd)))
  end.

(** [dowrite] of the buffer to one sector: on a host error the front of the
    sector may already have been written. *)
Definition disk_writesector (dd : disk_data) : bool * disk_data :=
  let n := Z.to_nat (dd_sect dd) in
  let sec := default [] (dd_image dd !! n) in
  match next_fault dd with
  | None => (false, mkdisk (<[n := dd_buf dd]> (dd_image dd)) (dd_stat dd) (dd_sect dd)
                      (dd_buf dd) (tail (dd_faults dd)))
  | Some k => (true, mkdisk (<[n := splice 0 (take k (dd_buf dd)) sec]> (dd_image dd))
                       (dd_stat dd) (dd_sect dd) (dd_buf dd) (tail (dd_faults dd)))
  end.

Definition set_stat (dd : disk_data) (v : Z) : disk_data :=
  mkdisk (dd_image dd) v (dd_sect dd) (dd_buf dd) (dd_faults dd).

(** The end of [disk_work], from the label [forceio] on: the transfer itself. *)
Definition forceio (dd : disk_data) : disk_data :=
  let '(err, dd') := if negb (Z.land (dd_stat dd) DISKBIT_ISWRITE =? 0)
                     then disk_writesector dd else disk_readsector dd in
  if (err : bool) then set_stat dd' (MEDIAERR (dd_stat dd')) else set_stat dd' (COMPLETE (dd_stat dd')).

(** [disk_work] with the waiting for the head and the platter behind it: whatever
    time the seek and the rotation take, the device ends up at [forceio]. *)
Definition disk_work (dd : disk_data) : disk_data :=
  if Z.land (dd_stat dd) DISKBIT_INPROGRESS =? 0 then dd
  else if dd_totsectors dd <=? dd_sect dd then set_stat dd (INVSECT (dd_stat dd))
  else forceio dd.

(** The interrupt line after [disk_update]. *)
Definition disk_irq (dd : disk_data) : bool := negb (Z.land (dd_stat dd) DISKBIT_COMPLETE =? 0).

(** A write to the status register; an illegal value hangs the machine. *)
Definition disk_setstatus (dd : disk_data) (val : Z) : outcome disk_data :=
  if (val =? DISKSTAT_IDLE) || (val =? DISKSTAT_READING) || (val =? DISKSTAT_WRITING)
  then Ok (set_stat dd val) else Panic.

(** ** The driver *)
Record dstate := mkdstate {
  dd : disk_data;
  lh_result : Z;
  lh_clear : Z;                  (* semaphore counts *)
  lh_done : Z;
  us : ustate
}.

Definition LHD_OK : Z := 4.
Definition LHD_INVSECT : Z := 12.
Definition LHD_MEDIA : Z := 20.
Definition LHD_IDLE : Z := 0.
Definition LHD_WORKING : Z := 1.
Definition LHD_ISWRITE : Z := 2.
Definition LHD_STATEMASK : Z := 29.

Definition set_dd (x : disk_data) (s : dstate) : dstate :=
  mkdstate x (lh_result s) (lh_clear s) (lh_done s) (us s).

Inductive lhd_reg := LHD_REG_NSECT | LHD_REG_STAT | LHD_REG_SECT.

(** [lhd_rdreg] and [lhd_wreg] on the registers the driver uses; the size
    register is read-only. *)
Definition lhd_rdreg (reg : lhd_reg) : M dstate Z :=
  gets (fun s => match reg with
                 | LHD_REG_NSECT => dd_totsectors (dd s)
                 | LHD_REG_STAT => dd_stat (dd s)
                 | LHD_REG_SECT => dd_sect (dd s)
                 end).

Definition lhd_wreg (reg : lhd_reg) (val : Z) : M dstate unit :=
  match reg with
  | LHD_REG_NSECT => panic
  | LHD_REG_STAT =>
      let* d := gets dd in
      let* d' := lift (disk_setstatus d val) in
      modify (set_dd d')
  | LHD_REG_SECT =>
      modify (fun s => set_dd (mkdisk (dd_image (dd s)) (dd_stat (dd s)) val (dd_buf (dd s)) (dd_faults (dd s))) s)
  end.

Definition lhd_code_to_errno (code : Z) : Z :=
  let c := Z.land code LHD_STATEMASK in
  if c =? LHD_OK then 0
  else if c =? LHD_INVSECT then EINVAL
  else if c =? LHD_MEDIA then EIO
  else EAGAIN.

Definition lhd_iodone (err : Z) : M dstate unit :=
  modify (fun s => mkdstate (dd s) err (lh_clear s) (lh_done s + 1) (us s)).

Definition lhd_irq : M dstate unit :=
  let* val := lhd_rdreg LHD_REG_STAT in
  let c := Z.land val LHD_STATEMASK in
  if (c =? LHD_IDLE) || (c =? LHD_WORKING) then mret tt
  else if (c =? LHD_OK) || (c =? LHD_INVSECT) || (c =? LHD_MEDIA) then
    let* _ := lhd_wreg LHD_REG_STAT 0 in
    lhd_iodone (lhd_code_to_errno val)
  else mret tt.

(** [P] and [V] on the two semaphores.  A thread that waits on [lh_done] sleeps
    until the device has finished and its interrupt has been taken; one that
    finds a count of zero with nothing left to wake it sleeps for ever. *)
Definition P_clear : M dstate unit := fun s =>
  if lh_clear s =? 0 then Spin
  else Ok (tt, mkdstate (dd s) (lh_result s) (lh_clear s - 1) (lh_done s) (us s)).

Definition V_clear : M dstate unit :=
  modify (fun s => mkdstate (dd s) (lh_result s) (lh_clear s + 1) (lh_done s) (us s)).

Definition take_done : M dstate unit := fun s =>
  if lh_done s =? 0 then Spin
  else Ok (tt, mkdstate (dd s) (lh_result s) (lh_clear s) (lh_done s - 1) (us s)).

Definition P_done : M dstate unit :=
  let* _ := modify (fun s => set_dd (disk_work (dd s)) s) in
  let* raised := gets (fun s => disk_irq (dd s)) in
  let* _ := if (raised : bool) then lhd_irq else mret tt in
  take_done.

(** [uiomove(lh->lh_buf, LHD_SECTSIZE, uio)]: [lh_buf] is the device's buffer. *)
Definition buf_move (u : uio) : M dstate (Z * uio) :=
  let* buf := gets (fun s => dd_buf (dd s)) in
  let* '(result, buf', u') :=
    zoom us (fun x s => mkdstate (dd s) (lh_result s) (lh_clear s) (lh_done s) x)
      (uiomove buf LHD_SECTSIZE u) in
  let* _ := modify (fun s => set_dd (mkdisk (dd_image (dd s)) (dd_stat (dd s)) (dd_sect (dd s)) buf' (dd_faults (dd s))) s) in
  mret (result, u').

(** The second half of the loop body: wait for the device, fetch the result
    and, after a successful read, the data; let the next thread in. *)
Definition lhd_finish (u : uio) : M dstate (Z * uio) :=
  let* _ := P_done in
  let* result := gets lh_result in
  let* '(result, u) := (if (result =? 0) && bool_decide (uio_rw u = UIO_READ) then buf_move u
                        else mret (result, u)) in
  let* _ := V_clear in
  mret (result, u).

(** The body of the sector loop: the errno (0 to go on) and the region. *)
Definition lhd_sector (sect statval : Z) (u : uio) : M dstate (Z * uio) :=
  let* _ := P_clear in
  let* '(result, u) := (if decide (uio_rw u = UIO_WRITE) then buf_move u else mret (0, u)) in
  if negb (result =? 0) then
    let* _ := V_clear in mret (result, u)
  else
    let* _ := lhd_wreg LHD_REG_SECT sect in
    let* _ := lhd_wreg LHD_REG_STAT statval in
    lhd_finish u.

Fixpoint lhd_loop (n : nat) (sect statval : Z) (u : uio) : M dstate (Z * uio) :=
  match n with
  | O => mret (0, u)
  | S n' =>
      let* '(result, u) := lhd_sector sect statval u in
      if negb (result =? 0) then mret (result, u) else lhd_loop n' (u32 (sect + 1)) statval u
  end.

Definition lhd_io (u : uio) : M dstate (Z * uio) :=
  let sector := u32 (Z.quot (uio_offset u) LHD_SECTSIZE) in
  let sectoff := u32 (Z.rem (uio_offset u) LHD_SECTSIZE) in
  let len := uio_resid u `div` LHD_SECTSIZE in
  let lenoff := uio_resid u `mod` LHD_SECTSIZE in
  if negb (sectoff =? 0) || negb (lenoff =? 0) then mret (EINVAL, u)
  else
    let* d_blocks := gets (fun s => dd_totsectors (dd s)) in
    if u32 (sector + len) >? d_blocks then mret (EINVAL, u)
    else
      let statval := if decide (uio_rw u = UIO_WRITE) then Z.lor LHD_WORKING LHD_ISWRITE else LHD_WORKING in
      lhd_loop (Z.to_nat len) sector statval u.

(** [lhd_open], [lhd_close], [lhd_ioctl]. *)
Definition lhd_open (openflags : Z) : M dstate Z := mret 0.
Definition lhd_close : M dstate Z := mret 0.
Definition lhd_ioctl (op : Z) : M dstate Z := mret EIOCTL.

(** ** Specification

    The driver between two requests: device idle, nobody in the middle of an
    operation, sectors of the right size, offsets that fit in an [off_t]. *)
Record dev_wf (s : dstate) : Prop := {
  dw_clear : lh_clear s = 1;
  dw_done : lh_done s = 0;
  dw_buf : length (dd_buf (dd s)) = 512%nat;
  dw_image : Forall (fun sec => length sec = 512%nat) (dd_image (dd s));
  dw_size : dd_totsectors (dd s) * 512 < 2 ^ 31
}.

Definition image (s : dstate) : list (list Z) := dd_image (dd s).
Definition faults (s : dstate) : list (option nat) := dd_faults (dd s).

(** One kernel-space request for the single sector [b]. *)
Record sector_req (u : uio) (rw : uio_rw_t) (b : Z) (done rest : list Z) : Prop := {
  sr_k : kuio u done rest;
  sr_rw : uio_rw u = rw;
  sr_off : uio_offset u = b * 512;
  sr_resid : uio_resid u = 512
}.

(** The region after the sector has been transferred. *)
Definition sector_moved (u' : uio) (rw : uio_rw_t) (b : Z) (done rest : list Z) : Prop :=
  kuio u' done rest ∧ uio_rw u' = rw ∧ uio_offset u' = b * 512 + 512 ∧ uio_resid u' = 0.

Lemma sector_length s b sec : dev_wf s → image s !! b = Some sec → length sec = 512%nat.
Proof. intros [_ _ _ H _] Hb. by eapply Forall_lookup_1 in H. Qed.

Lemma lookup_image s b : 0 ≤ b < dd_totsectors (dd s) → ∃ sec, image s !! Z.to_nat b = Some sec.
Proof. intros H. apply lookup_lt_is_Some_2. unfold image, dd_totsectors in *. lia. Qed.

(** [lhd_io] reduces to the sector body on a well-formed single-sector request. *)
Lemma lhd_io_sector u rw b done rest s :
  dev_wf s → sector_req u rw b done rest → 0 ≤ b < dd_totsectors (dd s) →
  lhd_io u s =
    lhd_loop 1 b (if decide (rw = UIO_WRITE) then 3 else 1) u s.
Proof.
  intros Hw [Hk Hrw Ho Hr] Hb. unfold lhd_io, LHD_SECTSIZE. rewrite Ho, Hr, Hrw.
  pose proof (dw_size _ Hw). rewrite Z.quot_mul, Z.rem_mul by lia.
  rewrite (u32_small b) by lia. change (512 `div` 512) with 1. change (512 `mod` 512) with 0.
  rewrite (u32_small 0) by lia. cbn [negb orb Z.eqb].
  erewrite bind_ok; [|done]. rewrite u32_small by lia. cbn beta.
  destruct (Z.gtb_spec (b + 1) (dd_totsectors (dd s))); [lia|]. done.
Qed.

Lemma lhd_loop_one sect statval u s r u' s' :
  lhd_sector sect statval u s = Ok ((r, u'), s') → lhd_loop 1 sect statval u s = Ok ((r, u'), s').
Proof.
  intros E. cbn [lhd_loop]. rewrite (bind_ok _ _ _ _ _ E). destruct (Z.eqb_spec r 0) as [->|]; done.
Qed.

(** The buffer transfer on a request in kernel space. *)
Lemma buf_move_sector u rw b done rest s :
  dev_wf s ∨ length (dd_buf (dd s)) = 512%nat → sector_req u rw b done rest →
  let data := moved rw (dd_buf (dd s)) rest 512 in
  ∃ u', buf_move u s =
      Ok ((0, u'), set_dd (mkdisk (image s) (dd_stat (dd s)) (dd_sect (dd s))
                             (splice 0 data (dd_buf (dd s))) (faults s)) s) ∧
    sector_moved u' rw b (done ++ data) (drop 512 rest).
Proof.
  intros Hbuf [Hk Hrw Ho Hr] data.
  assert (length (dd_buf (dd s)) = 512%nat) as Hl by (by destruct Hbuf as [[]|]).
  destruct (uiomove_kernel u done rest (us s) (dd_buf (dd s)) 512) as (u' & E & K & Ho' & Hr' & Hrw');
    [done|lia|lia|]. exists u'. rewrite Hrw in *. split; [|split_and!; (done || lia)].
  unfold buf_move, mbind, M_bind, gets, zoom, LHD_SECTSIZE. rewrite E. by destruct s.
Qed.

(** Waiting for the operation just started: the interrupt handler turns the
    final status into an errno and leaves the device idle. *)
Lemma P_done_run s :
  lh_done s = 0 → dd_stat (dd s) = 1 ∨ dd_stat (dd s) = 3 → 0 ≤ dd_sect (dd s) < dd_totsectors (dd s) →
  let '(err, d') := if decide (dd_stat (dd s) = 3) then disk_writesector (dd s)
                    else disk_readsector (dd s) in
  P_done s = Ok (tt, mkdstate (set_stat d' 0) (if err then EIO else 0) (lh_clear s) 0 (us s)).
Proof.
  intros Hd Hst Hsec. unfold P_done, disk_work, forceio, disk_readsector, disk_writesector, mbind, M_bind, modify, gets.
  cbv zeta. destruct s as [[img st sect buf fl] res clr dn us0]. cbn [dd dd_stat dd_sect dd_image dd_buf dd_faults] in *.
  rewrite (proj2 (Z.leb_gt (dd_totsectors _) sect)) by lia. simpl in Hd. subst dn.
  destruct Hst as [->| ->]; cbn -[Z.to_nat splice dd_totsectors next_fault];
    destruct (next_fault _); reflexivity.
Qed.

(** What one request does to the device: one scripted fault is consumed. *)
Record after (s s' : dstate) (img : list (list Z)) : Prop := {
  af_wf : dev_wf s';
  af_image : image s' = img;
  af_faults : faults s' = tail (faults s);
  af_us : us s' = us s
}.

Lemma dev_wf_insert s s' b sec :
  dev_wf s → lh_clear s' = 1 → lh_done s' = 0 → length (dd_buf (dd s')) = 512%nat →
  image s' = <[b := sec]> (image s) → length sec = 512%nat → dev_wf s'.
Proof.
  intros Hw H1 H2 H3 H4 H5. unfold image in *. constructor; try done.
  - rewrite H4. apply Forall_insert; [apply Hw|done].
  - unfold dd_totsectors. rewrite H4, length_insert. apply Hw.
Qed.

(** The state in which the device has been started on sector [b]. *)
Definition started (s : dstate) (st b : Z) (buf : list Z) : dstate :=
  mkdstate (mkdisk (image s) st b buf (faults s)) (lh_result s) 0 0 (us s).

Lemma lhd_sector_read s b u :
  dev_wf s → uio_rw u = UIO_READ → lhd_sector b 1 u s = lhd_finish u (started s 1 b (dd_buf (dd s))).
Proof.
  intros [W1 W2 _ _ _] Hrw. unfold lhd_sector. rewrite decide_False by (by rewrite Hrw).
  destruct s as [[img st sect buf fl] res clr dn us0]. cbn in W1, W2. subst. reflexivity.
Qed.

Lemma lhd_sector_write s b u done rest :
  dev_wf s → sector_req u UIO_WRITE b done rest →
  ∃ u', lhd_sector b 3 u s = lhd_finish u' (started s 3 b (take 512 rest)) ∧
    sector_moved u' UIO_WRITE b (done ++ take 512 rest) (drop 512 rest).
Proof.
  intros Hw Hu. pose proof Hw as [W1 W2 W3 _ _].
  pose proof (ku_len _ _ _ (sr_k _ _ _ _ _ Hu)). pose proof (ku_resid _ _ _ (sr_k _ _ _ _ _ Hu)).
  pose proof (sr_resid _ _ _ _ _ Hu).
  destruct (buf_move_sector u UIO_WRITE b done rest
    (mkdstate (dd s) (lh_result s) 0 0 (us s)) (or_intror W3) Hu) as (u' & E & Hm).
  exists u'. split; [|exact Hm]. unfold lhd_sector. rewrite decide_True by apply Hu.
  destruct s as [[img st sect buf fl] res clr dn us0]. cbn in W1, W2, W3. subst.
  cbn [dd dd_buf moved] in E. rewrite splice_all in E by (rewrite W3, length_take; lia).
  erewrite bind_ok; [|reflexivity]. cbn [lh_done lh_clear lh_result dd us Z.sub Z.add Z.opp Z.pos_sub].
  rewrite (bind_ok _ _ _ _ _ E). reflexivity.
Qed.

Lemma lhd_finish_run u s1 s2 :
  P_done s1 = Ok (tt, s2) → (lh_result s2 =? 0) && bool_decide (uio_rw u = UIO_READ) = false →
  lhd_finish u s1 = Ok ((lh_result s2, u), mkdstate (dd s2) (lh_result s2) (lh_clear s2 + 1) (lh_done s2) (us s2)).
Proof.
  intros E Hb. unfold lhd_finish. rewrite (bind_ok _ _ _ _ _ E). erewrite bind_ok; [|reflexivity].
  by rewrite Hb.
Qed.

Lemma started_wf s b buf s' fl :
  dev_wf s → length buf = 512%nat →
  s' = mkdstate (mkdisk (image s) 0 b buf fl) (lh_result s') 1 0 (us s) → dev_wf s'.
Proof. intros [W1 W2 W3 W4 W5] Hl ->. by constructor. Qed.

Lemma lhd_read u b done rest s sec :
  dev_wf s → sector_req u UIO_READ b done rest → 0 ≤ b → image s !! Z.to_nat b = Some sec →
  ∃ u' s', lhd_io u s = Ok ((match next_fault (dd s) with None => 0 | Some _ => EIO end, u'), s') ∧
    after s s' (image s) ∧
    match next_fault (dd s) with
    | None => sector_moved u' UIO_READ b (done ++ sec) (drop 512 rest)
    | Some _ => u' = u
    end.
Proof.
  intros Hw Hu Hb0 Hsec. pose proof (sector_length _ _ _ Hw Hsec) as Hlen.
  assert (0 ≤ b < dd_totsectors (dd s)) as Hb.
  { apply lookup_lt_Some in Hsec. unfold dd_totsectors, image in *. lia. }
  rewrite (lhd_io_sector _ _ _ _ _ _ Hw Hu Hb). rewrite decide_False by done.
  pose proof (P_done_run (started s 1 b (dd_buf (dd s))) eq_refl (or_introl eq_refl) Hb) as E.
  rewrite decide_False in E by done. unfold disk_readsector in E.
  change (next_fault (dd (started s 1 b (dd_buf (dd s))))) with (next_fault (dd s)) in E.
  change (dd_image (dd (started s 1 b (dd_buf (dd s))))) with (image s) in E.
  change (dd_sect (dd (started s 1 b (dd_buf (dd s))))) with b in E. rewrite Hsec in E.
  change (default [] (Some sec)) with sec in E.
  destruct (next_fault (dd s)) as [k|].
  - eexists u, _. split; [|split; [|done]].
    + apply lhd_loop_one. rewrite lhd_sector_read by (done || apply Hu). rewrite (lhd_finish_run u _ _ E) by done. reflexivity.
    + constructor; try done. apply (started_wf s b (splice 0 (take k sec) (dd_buf (dd s))) _ (tail (faults s)));
        [done| |done]. rewrite length_splice; pose proof (dw_buf _ Hw); len.
  - destruct (buf_move_sector u UIO_READ b done rest
      (mkdstate (mkdisk (image s) 0 b sec (tail (faults s))) 0 0 0 (us s)) (or_intror Hlen) Hu)
      as (u' & Em & Hm). cbn [moved dd dd_buf] in Em, Hm.
    rewrite take_ge in Em, Hm by (rewrite Hlen; done). rewrite splice_all in Em by done.
    eexists u', _. split; [|split; [|exact Hm]].
    + apply lhd_loop_one. rewrite lhd_sector_read by (done || apply Hu). unfold lhd_finish.
      rewrite (bind_ok _ _ _ _ _ E). erewrite bind_ok; [|reflexivity]. cbn [lh_result].
      rewrite bool_decide_true by apply Hu. cbn [Z.eqb andb].
      erewrite bind_ok; [|exact Em]. reflexivity.
    + constructor; try done. by apply (started_wf s b sec _ (tail (faults s))).
Qed.

Lemma lhd_write u b done rest s sec :
  dev_wf s → sector_req u UIO_WRITE b done rest → 0 ≤ b → image s !! Z.to_nat b = Some sec →
  ∃ u' s', lhd_io u s = Ok ((match next_fault (dd s) with None => 0 | Some _ => EIO end, u'), s') ∧
    after s s' (<[Z.to_nat b := match next_fault (dd s) with
                                | None => take 512 rest
                                | Some k => splice 0 (take k (take 512 rest)) sec
                                end]> (image s)) ∧
    sector_moved u' UIO_WRITE b (done ++ take 512 rest) (drop 512 rest).
Proof.
  intros Hw Hu Hb0 Hsec. pose proof (sector_length _ _ _ Hw Hsec) as Hlen.
  assert (0 ≤ b < dd_totsectors (dd s)) as Hb.
  { apply lookup_lt_Some in Hsec. unfold dd_totsectors, image in *. lia. }
  assert (length (take 512 rest) = 512%nat) as Hdata.
  { pose proof (ku_len _ _ _ (sr_k _ _ _ _ _ Hu)). pose proof (ku_resid _ _ _ (sr_k _ _ _ _ _ Hu)).
    pose proof (sr_resid _ _ _ _ _ Hu). len. }
  rewrite (lhd_io_sector _ _ _ _ _ _ Hw Hu Hb). rewrite decide_True by done.
  destruct (lhd_sector_write s b u done rest Hw Hu) as (u' & Es & Hm).
  pose proof (P_done_run (started s 3 b (take 512 rest)) eq_refl (or_intror eq_refl) Hb) as E.
  rewrite decide_True in E by done. unfold disk_writesector in E.
  change (next_fault (dd (started s 3 b (take 512 rest)))) with (next_fault (dd s)) in E.
  change (dd_image (dd (started s 3 b (take 512 rest)))) with (image s) in E.
  change (dd_sect (dd (started s 3 b (take 512 rest)))) with b in E.
  change (dd_buf (dd (started s 3 b (take 512 rest)))) with (take 512 rest) in E. rewrite Hsec in E.
  change (default [] (Some sec)) with sec in E.
  assert (bool_decide (uio_rw u' = UIO_READ) = false) as Hrd
    by (rewrite (proj1 (proj2 Hm)); by apply bool_decide_false).
  destruct (next_fault (dd s)) as [k|]; (eexists u', _; split; [|split; [|exact Hm]]);
    try (apply lhd_loop_one; rewrite Es, (lhd_finish_run u' _ _ E) by (by rewrite Hrd, andb_false_r); reflexivity).
  - constructor; try done. eapply (dev_wf_insert s _ (Z.to_nat b)); try done.
    rewrite length_splice; [done|]. rewrite length_take, Hdata, Hlen. lia.
  - constructor; try done. by eapply (dev_wf_insert s _ (Z.to_nat b)).
Qed.

(** A request that starts or ends inside a sector, or reaches past the end of
    the disk, is refused before anything is transferred. *)
Theorem lhd_io_rejects u s :
  0 ≤ uio_offset u → 0 ≤ uio_resid u → uio_offset u + uio_resid u < 2 ^ 31 →
  ¬ (512 | uio_offset u) ∨ ¬ (512 | uio_resid u) ∨ 512 * dd_totsectors (dd s) < uio_offset u + uio_resid u →
  lhd_io u s = Ok ((EINVAL, u), s).
Proof.
  intros Ho Hr Hm Hbad. unfold lhd_io, LHD_SECTSIZE.
  rewrite Z.quot_div_nonneg, Z.rem_mod_nonneg by lia.
  assert (0 ≤ uio_offset u `mod` 512 < 512) by (apply Z.mod_pos_bound; lia).
  assert (0 ≤ uio_resid u `mod` 512 < 512) by (apply Z.mod_pos_bound; lia).
  rewrite (u32_small (_ `mod` _)) by lia.
  destruct (Z.eqb_spec (uio_offset u `mod` 512) 0) as [E1|]; [|done].
  destruct (Z.eqb_spec (uio_resid u `mod` 512) 0) as [E2|]; [|done]. cbn [negb orb].
  erewrite bind_ok; [|reflexivity]. rewrite <- !Z.mod_divide in Hbad by lia.
  destruct Hbad as [?|[?|?]]; [done|done|].
  rewrite (u32_small (_ `div` _)), u32_small by (Z.to_euclidean_division_equations; lia).
  destruct (Z.gtb_spec (uio_offset u `div` 512 + uio_resid u `div` 512) (dd_totsectors (dd s))) as [|Hle]; [done|].
  exfalso. Z.to_euclidean_division_equations; lia.
Qed.

(** A disk of two sectors. *)
Definition small_disk (fl : list (option nat)) : dstate :=
  mkdstate (mkdisk (replicate 2 (replicate 512 0)) 0 0 (replicate 512 0) fl) 0 1 0 (mkustate (mkcstate ∅ false) None).

Lemma small_disk_wf fl : dev_wf (small_disk fl).
Proof. constructor; try done. by repeat constructor. Qed.

Lemma lhd_io_rejects_witness :
  lhd_io (mk_kuio [1] 1 0 UIO_READ) (small_disk []) = Ok ((EINVAL, mk_kuio [1] 1 0 UIO_READ), small_disk []).
Proof.
  apply lhd_io_rejects; [done|done|done|]. right. left. cbn. intros [k Hk]. lia.
Defined.

End Lhd.
