(* ===== verification/Cstring.v ===== *)
(** * C strings and memory blocks (lib/libc, shared by libc and the kernel)

    A [char] array is the list of its bytes; touching it outside its bounds is
    [Undef].  [memcpy] and [memmove] work on one memory [mem] with [dst] and [src]
    as indices into it, so that overlapping blocks overlap in the model too; both
    copying by words and copying by bytes are there, as the alignment tests choose.
    The theorems relate each function to the string [cstr s] (the bytes before the
    terminator), and show that [memmove] copies overlapping blocks correctly. *)
From stdpp Require Import base list numbers.
From S2P Require Import Prelude.
Local Open Scope Z_scope.

Module Cstring.

(** ** Strings *)
Fixpoint strlen (s : list Z) : outcome Z :=
  match s with
  | [] => Undef
  | c :: s' => if c =? 0 then Ok 0 else let* n := strlen s' in Ok (n + 1)
  end.

Fixpoint strcmp (a b : list Z) : outcome Z :=
  match a, b with
  | x :: a', y :: b' =>
      if negb (x =? 0) && (x =? y) then strcmp a' b'
      else if x >? y then Ok 1 else if x =? y then Ok 0 else Ok (-1)
  | _, _ => Undef
  end.

(** [strcpy(dest+i, src)]. *)
Fixpoint strcpy_from (i : nat) (dest src : list Z) : outcome (list Z) :=
  if (length dest <=? i)%nat then Undef
  else match src with
       | [] => Undef
       | c :: src' => if c =? 0 then Ok (<[i := 0]> dest) else strcpy_from (S i) (<[i := c]> dest) src'
       end.

Definition strcpy (dest src : list Z) : outcome (list Z) := strcpy_from 0 dest src.

Definition strcat (dest src : list Z) : outcome (list Z) :=
  let* offset := strlen dest in
  strcpy_from (Z.to_nat offset) dest src.

(** The pointers returned by [strchr] and [strrchr] are indices into [s]. *)
Fixpoint strchr_from (i : Z) (s : list Z) (ch : Z) : outcome (option Z) :=
  match s with
  | [] => Undef
  | c :: s' =>
      if negb (c =? 0) then if c =? ch then Ok (Some i) else strchr_from (i + 1) s' ch
      else if c =? ch then Ok (Some i) else Ok None
  end.

Definition strchr (s : list Z) (ch : Z) : outcome (option Z) := strchr_from 0 s ch.

Fixpoint strrchr_loop (i : nat) (s : list Z) (ch : Z) : outcome (option Z) :=
  match i with
  | O => Ok None
  | S i' =>
      match s !! i' with
      | None => Undef
      | Some c => if c =? ch then Ok (Some (Z.of_nat i')) else strrchr_loop i' s ch
      end
  end.

Definition strrchr (s : list Z) (ch : Z) : outcome (option Z) :=
  let* n := strlen s in
  strrchr_loop (Z.to_nat (n + 1)) s ch.

(** [atoi]: [val] is unsigned and wraps. *)
Definition digits : list Z := [48; 49; 50; 51; 52; 53; 54; 55; 56; 57; 0].

Fixpoint atoi_space (s : list Z) : outcome (list Z) :=
  match s with
  | [] => Undef
  | c :: s' => if (c =? 32) || (c =? 9) then atoi_space s' else Ok s
  end.

Fixpoint atoi_digits (val : Z) (s : list Z) : outcome Z :=
  match s with
  | [] => Undef
  | c :: s' =>
      if c =? 0 then Ok val
      else
        let* found := strchr digits c in
        match found with
        | None => Ok val
        | Some digit => atoi_digits (u32 (val * 10 + digit)) s'
        end
  end.

Definition atoi (s : list Z) : outcome Z :=
  let* s := atoi_space s in
  match s with
  | [] => Undef
  | c :: s' =>
      let '(neg, s) := if c =? 45 then (true, s') else if c =? 43 then (false, s') else (false, s) in
      let* val := atoi_digits 0 s in
      Ok (i32 (if (neg : bool) then u32 (- val) else val))
  end.

(** ** Memory blocks *)

(** Copy the [w] bytes at [s] to [d], read first and written then (one
    assignment of a [char], [w = 1], or of a [long], [w = 4]). *)
Definition move_unit (w d s : nat) (mem : list Z) : outcome (list Z) :=
  if (length mem <? d + w)%nat || (length mem <? s + w)%nat then Undef
  else Ok (splice d (take w (drop s mem)) mem).

(** [for (i=0; i<n; i++) d[i] = s[i];] with [i] units done, [k] to go. *)
Fixpoint copy_up (w k i dst src : nat) (mem : list Z) : outcome (list Z) :=
  match k with
  | O => Ok mem
  | S k' => let* mem := move_unit w (dst + i * w) (src + i * w) mem in copy_up w k' (S i) dst src mem
  end.

(** [for (i=n; i>0; i--) d[i-1] = s[i-1];]. *)
Fixpoint copy_down (w k dst src : nat) (mem : list Z) : outcome (list Z) :=
  match k with
  | O => Ok mem
  | S k' => let* mem := move_unit w (dst + k' * w) (src + k' * w) mem in copy_down w k' dst src mem
  end.

Definition aligned (dst src len : nat) : bool :=
  (dst `mod` 4 =? 0)%nat && (src `mod` 4 =? 0)%nat && (len `mod` 4 =? 0)%nat.

Definition memcpy (dst src len : nat) (mem : list Z) : outcome (list Z) :=
  if aligned dst src len then copy_up 4 (len / 4) 0 dst src mem
  else copy_up 1 len 0 dst src mem.

Definition memmove (dst src len : nat) (mem : list Z) : outcome (list Z) :=
  if (dst <? src)%nat then memcpy dst src len mem
  else if aligned dst src len then copy_down 4 (len / 4) dst src mem
  else copy_down 1 len dst src mem.

(** [bzero] of [len] bytes at [block]. *)
Fixpoint zero_up (w k i block : nat) (mem : list Z) : outcome (list Z) :=
  match k with
  | O => Ok mem
  | S k' =>
      if (length mem <? block + i * w + w)%nat then Undef
      else zero_up w k' (S i) block (splice (block + i * w) (replicate w 0) mem)
  end.

Definition bzero (block len : nat) (mem : list Z) : outcome (list Z) :=
  if (block `mod` 4 =? 0)%nat && (len `mod` 4 =? 0)%nat then zero_up 4 (len / 4) 0 block mem
  else zero_up 1 len 0 block mem.

(** ** Specification *)

(** The string held by a buffer, if it is terminated. *)
Fixpoint cstr (s : list Z) : option (list Z) :=
  match s with
  | [] => None
  | c :: s' => if c =? 0 then Some [] else (c ::.) <$> cstr s'
  end.

Lemma cstr_spec s l : cstr s = Some l ↔ ∃ rest, s = l ++ 0 :: rest ∧ Forall (fun c => c ≠ 0) l.
Proof.
  revert l. induction s as [|c s IH]; intros l; simpl.
  - split; [done|]. intros (rest & E & _). by destruct l.
  - destruct (Z.eqb_spec c 0) as [->|Hc].
    + split.
      * intros [= <-]. by exists s.
      * intros (rest & E & Hl). destruct l as [|x l]; [done|]. injection E as <- E.
        by apply Forall_cons_1 in Hl as [? _].
    + split.
      * intros (l' & E & ->)%fmap_Some. apply IH in E as (rest & -> & Hl). exists rest. split; [done|].
        by constructor.
      * intros (rest & E & Hl). destruct l as [|x l]; simpl in E; [congruence|]. injection E as <- E.
        apply Forall_cons_1 in Hl as [_ Hl]. apply fmap_Some. exists l. split; [|done]. apply IH. eauto.
Qed.

Lemma cstr_app l rest : Forall (fun c => c ≠ 0) l → cstr (l ++ 0 :: rest) = Some l.
Proof. intros. apply cstr_spec. eauto. Qed.

Lemma strlen_cstr s l : cstr s = Some l → strlen s = Ok (Z.of_nat (length l)).
Proof.
  revert l. induction s as [|c s IH]; intros l; simpl; [done|]. destruct (c =? 0).
  - by intros [= <-].
  - intros (l' & E & ->)%fmap_Some. rewrite (IH _ E). cbn. f_equal. lia.
Qed.

(** [strcmp] orders strings as lists of their (signed or unsigned) characters. *)
Fixpoint str_cmp (a b : list Z) : Z :=
  match a, b with
  | [], [] => 0
  | [], y :: _ => if 0 >? y then 1 else -1
  | x :: _, [] => if x >? 0 then 1 else -1
  | x :: a', y :: b' => if x =? y then str_cmp a' b' else if x >? y then 1 else -1
  end.

Lemma strcmp_cstr a b la lb : cstr a = Some la → cstr b = Some lb → strcmp a b = Ok (str_cmp la lb).
Proof.
  revert b la lb. induction a as [|x a IH]; intros b la lb; simpl; [done|].
  destruct b as [|y b]; [done|]. simpl. destruct (Z.eqb_spec x 0) as [->|Hx]; simpl.
  - intros [= <-]. destruct (Z.eqb_spec y 0) as [->|Hy]; [by intros [= <-]|].
    intros (lb' & Eb & ->)%fmap_Some. by destruct y.
  - intros (la' & Ea & ->)%fmap_Some. destruct (Z.eqb_spec y 0) as [->|Hy].
    + intros [= <-]. by destruct x.
    + intros (lb' & Eb & ->)%fmap_Some. simpl. destruct (x =? y); [by apply IH|]. by destruct (x >? y).
Qed.

Lemma str_cmp_eq a b : Forall (fun c => c ≠ 0) a → Forall (fun c => c ≠ 0) b → str_cmp a b = 0 ↔ a = b.
Proof.
  revert b. induction a as [|x a IH]; intros [|y b] Ha Hb; simpl; try done.
  - destruct (0 >? y); done.
  - destruct (x >? 0); done.
  - apply Forall_cons_1 in Ha as [_ Ha]. apply Forall_cons_1 in Hb as [_ Hb].
    destruct (Z.eqb_spec x y) as [->|Hne].
    + rewrite IH by done. split; congruence.
    + destruct (x >? y); split; intros; congruence.
Qed.

Lemma cstr_nz s l : cstr s = Some l → Forall (fun c => c ≠ 0) l.
Proof. rewrite cstr_spec. naive_solver. Qed.

(** [strchr] finds a character that is in the string. *)
Lemma strchr_from_run i b l c :
  cstr b = Some l → c ≠ 0 →
  if decide (c ∈ l) then ∃ j, strchr_from i b c = Ok (Some (i + Z.of_nat j)) ∧ l !! j = Some c
  else strchr_from i b c = Ok None.
Proof.
  intros Hb Hc. revert i l Hb. induction b as [|d b IH]; intros i l; cbn [cstr strchr_from]; [done|].
  destruct (Z.eqb_spec d 0) as [->|Hd]; cbn [negb].
  - intros [= <-]. rewrite decide_False by apply not_elem_of_nil. by rewrite (proj2 (Z.eqb_neq 0 c)) by done.
  - intros (l' & E & ->)%fmap_Some. destruct (Z.eqb_spec d c) as [->|Hdc].
    + rewrite decide_True by left. exists 0%nat. split; [do 2 f_equal; lia|done].
    + specialize (IH (i + 1) l' E). destruct (decide (c ∈ l')) as [Hin|Hin].
      * rewrite decide_True by (by right). destruct IH as (j & -> & Hj). exists (S j). split; [do 2 f_equal; lia|done].
      * rewrite decide_False; [done|]. intros [->|?]%elem_of_cons; done.
Qed.

Lemma strcpy_from_cstr i dest src l :
  cstr src = Some l → (i + length l < length dest)%nat →
  strcpy_from i dest src = Ok (splice i (l ++ [0]) dest).
Proof.
  revert i dest l. induction src as [|c src IH]; intros i dest l; simpl; [done|].
  destruct (Nat.leb_spec (length dest) i) as [|Hi]; [intros; lia|]. destruct (Z.eqb_spec c 0) as [->|Hc].
  - intros [= <-] _. simpl. by rewrite splice_cons, splice_nil by lia.
  - intros (l' & E & ->)%fmap_Some Hl. simpl in Hl. rewrite (IH (S i) _ l') by (done || len).
    simpl. by rewrite (splice_cons i c) by lia.
Qed.

(** *** Copies: the part [dst+a, dst+b) of the destination has been filled *)
Definition moved_range (m0 : list Z) (dst src a b : nat) (m : list Z) : Prop :=
  length m = length m0 ∧
  ∀ j, m !! j = if decide (dst + a ≤ j < dst + b)%nat then m0 !! (src + (j - dst))%nat else m0 !! j.

Lemma moved_range_empty m dst src a : moved_range m dst src a a m.
Proof. split; [done|]. intros j. by rewrite decide_False by lia. Qed.

Lemma moved_range_full m0 dst src n m :
  (dst + n ≤ length m0)%nat → (src + n ≤ length m0)%nat →
  moved_range m0 dst src 0 n m → m = splice dst (take n (drop src m0)) m0.
Proof.
  intros Hd Hs [Hl Hm]. apply list_eq. intros j. rewrite Hm.
  assert (length (take n (drop src m0)) = n) as Ht by len.
  case_decide.
  - rewrite lookup_splice_in by lia. rewrite lookup_take_lt, lookup_drop by lia. f_equal.
  - rewrite lookup_splice_out by lia. done.
Qed.

(** One assignment extends the filled part by one unit at either end, provided
    the unit it reads has not been overwritten yet. *)
Lemma move_unit_range m0 w dst src a b x m :
  moved_range m0 dst src a b m → (dst + x + w ≤ length m0)%nat → (src + x + w ≤ length m0)%nat →
  (a ≤ b)%nat → x = b ∨ (x + w = a)%nat →
  (∀ t, (t < w)%nat → ¬ (dst + a ≤ src + x + t < dst + b)%nat) →
  ∃ m', move_unit w (dst + x) (src + x) m = Ok m' ∧ moved_range m0 dst src (a `min` x) (b `max` (x + w)) m'.
Proof.
  intros [Hl Hm] Hd Hs Hab Hx Hread. unfold move_unit.
  rewrite (proj2 (Nat.ltb_ge _ _)), (proj2 (Nat.ltb_ge _ _)) by lia. eexists. split; [done|].
  assert (length (take w (drop (src + x) m)) = w) as Ht by len.
  split; [rewrite length_splice; lia|]. intros j. destruct (decide (dst + x ≤ j < dst + x + w)%nat) as [Hj|Hj].
  - rewrite lookup_splice_in by lia. rewrite lookup_take_lt, lookup_drop, Hm by lia.
    rewrite (decide_False (P := (_ ≤ src + x + (j - (dst + x)) < _)%nat)) by (apply Hread; lia).
    rewrite decide_True by lia. f_equal. lia.
  - rewrite lookup_splice_out by lia. rewrite Hm. apply decide_ext. lia.
Qed.

Lemma copy_up_range m0 w k i dst src m :
  moved_range m0 dst src 0 (i * w) m → (dst ≤ src ∨ src + (i + k) * w ≤ dst)%nat →
  (dst + (i + k) * w ≤ length m0)%nat → (src + (i + k) * w ≤ length m0)%nat →
  ∃ m', copy_up w k i dst src m = Ok m' ∧ moved_range m0 dst src 0 ((i + k) * w) m'.
Proof.
  revert i m. induction k as [|k IH]; intros i m Hm Hor Hd Hs; cbn [copy_up].
  - exists m. by rewrite Nat.add_0_r.
  - destruct (move_unit_range m0 w dst src 0 (i * w) (i * w) m) as (m1 & E & Hm1); try done; try nia.
    rewrite E. cbn [mbind outcome_bind]. rewrite Nat.max_r in Hm1 by lia. cbn in Hm1.
    replace (i + S k)%nat with (S i + k)%nat in * by lia. apply IH; try done.
    replace (S i * w)%nat with (i * w + w)%nat by lia. done.
Qed.

Lemma copy_down_range m0 w k n dst src m :
  moved_range m0 dst src (k * w) n m → (src ≤ dst)%nat → (k * w ≤ n)%nat →
  (dst + n ≤ length m0)%nat → (src + n ≤ length m0)%nat →
  ∃ m', copy_down w k dst src m = Ok m' ∧ moved_range m0 dst src 0 n m'.
Proof.
  revert m. induction k as [|k IH]; intros m Hm Hle Hk Hd Hs; cbn [copy_down].
  - exists m. done.
  - destruct (move_unit_range m0 w dst src (S k * w) n (k * w) m) as (m1 & E & Hm1); try done; try nia.
    rewrite E. cbn [mbind outcome_bind]. rewrite Nat.min_r, Nat.max_l in Hm1 by lia. apply IH; try done. lia.
Qed.

Lemma aligned_len dst src len : aligned dst src len = true → (len / 4 * 4 = len)%nat.
Proof.
  unfold aligned. intros H. bdestr. repeat match goal with H : (_ =? _)%nat = true |- _ => apply Nat.eqb_eq in H end.
  rewrite (Nat.div_mod_eq len 4) at 2. lia.
Qed.

Lemma memcpy_range dst src len m :
  (dst + len ≤ length m)%nat → (src + len ≤ length m)%nat → (dst ≤ src ∨ src + len ≤ dst)%nat →
  memcpy dst src len m = Ok (splice dst (take len (drop src m)) m).
Proof.
  intros Hd Hs Hor. unfold memcpy. destruct (aligned dst src len) eqn:Ea.
  - apply aligned_len in Ea.
    destruct (copy_up_range m 4 (len / 4) 0 dst src m (moved_range_empty _ _ _ _)) as (m' & -> & H);
      rewrite ?Nat.add_0_l, ?Ea in *; try done.
    f_equal. by apply moved_range_full.
  - destruct (copy_up_range m 1 len 0 dst src m (moved_range_empty _ _ _ _)) as (m' & -> & H);
      rewrite ?Nat.add_0_l, ?Nat.mul_1_r in *; try done.
    f_equal. by apply moved_range_full.
Qed.

(** *** Zeroing *)
Lemma zero_up_range w k i block m0 m :
  m = splice block (replicate (i * w) 0) m0 → (block + (i + k) * w ≤ length m0)%nat →
  zero_up w k i block m = Ok (splice block (replicate ((i + k) * w) 0) m0).
Proof.
  revert i m. induction k as [|k IH]; intros i m -> Hlen; cbn [zero_up].
  - by rewrite Nat.add_0_r.
  - rewrite (proj2 (Nat.ltb_ge _ _)) by (rewrite length_splice; len; nia).
    replace (i + S k)%nat with (S i + k)%nat in * by lia. apply IH; [|done].
    apply list_eq. intros j.
    assert (length (splice block (replicate (i * w) 0) m0) = length m0) as Hl by (rewrite length_splice; len; nia).
    destruct (decide (block ≤ j < block + S i * w)%nat).
    + rewrite (lookup_splice_in block (replicate (S i * w) 0)) by (len; nia).
      rewrite lookup_replicate_2 by lia. destruct (decide (block + i * w ≤ j)%nat).
      * rewrite lookup_splice_in by (len; nia). apply lookup_replicate_2. lia.
      * rewrite lookup_splice_out by (len; nia). rewrite lookup_splice_in by (len; nia).
        apply lookup_replicate_2. lia.
    + rewrite !lookup_splice_out; (done || len; nia).
Qed.

(** ** Theorems *)

(** [strcmp] of two terminated strings is 0 exactly when they are equal, and
    never reads past either terminator. *)
Theorem strcmp_decides_equality a b la lb :
  cstr a = Some la → cstr b = Some lb →
  ∃ r, strcmp a b = Ok r ∧ (r = 0 ↔ la = lb).
Proof.
  intros Ha Hb. exists (str_cmp la lb). split; [by apply strcmp_cstr|].
  apply str_cmp_eq; eauto using cstr_nz.
Qed.

(** [strcat] appends: with room for both strings and the terminator the buffer
    then holds their concatenation, and bytes beyond it are untouched. *)
Theorem strcat_appends dest src ld ls :
  cstr dest = Some ld → cstr src = Some ls → (length ld + length ls < length dest)%nat →
  ∃ dest', strcat dest src = Ok dest' ∧ cstr dest' = Some (ld ++ ls) ∧ length dest' = length dest ∧
    drop (length ld + length ls + 1) dest' = drop (length ld + length ls + 1) dest.
Proof.
  intros Hd Hs Hlen. unfold strcat. rewrite (strlen_cstr _ _ Hd). cbn [mbind outcome_bind]. rewrite Nat2Z.id.
  rewrite (strcpy_from_cstr _ _ _ ls) by done. eexists. split; [done|].
  pose proof (cstr_nz _ _ Hd). pose proof (cstr_nz _ _ Hs). apply cstr_spec in Hd as (rest & -> & _).
  split_and!.
  - unfold splice. rewrite take_app_length, <- !app_assoc. cbn [app]. rewrite app_assoc. apply cstr_app. by apply Forall_app.
  - apply length_splice. len.
  - unfold splice. rewrite take_app_length. rewrite length_app. simpl length.
    replace (length ld + length ls + 1)%nat with (length (ld ++ ls ++ [0])) by len.
    rewrite (app_assoc ld (ls ++ [0])), drop_app_length. f_equal. len.
Qed.

(** [memmove] copies the source block as it was before the call, whether or
    not the two blocks overlap, and changes nothing else. *)
Theorem memmove_overlap dst src len m :
  (dst + len ≤ length m)%nat → (src + len ≤ length m)%nat →
  memmove dst src len m = Ok (splice dst (take len (drop src m)) m).
Proof.
  intros Hd Hs. unfold memmove. destruct (Nat.ltb_spec dst src) as [Hlt|Hge].
  - apply memcpy_range; lia.
  - destruct (aligned dst src len) eqn:Ea.
    + apply aligned_len in Ea.
      destruct (copy_down_range m 4 (len / 4) len dst src m) as (m' & -> & H); rewrite ?Ea; try done.
      { apply moved_range_empty. }
      f_equal. by apply moved_range_full.
    + destruct (copy_down_range m 1 len len dst src m) as (m' & -> & H); try lia.
      { rewrite Nat.mul_1_r. apply moved_range_empty. }
      f_equal. by apply moved_range_full.
Qed.

(** [bzero] clears exactly its block. *)
Theorem bzero_clears block len m :
  (block + len ≤ length m)%nat → bzero block len m = Ok (splice block (replicate len 0) m).
Proof.
  intros H. unfold bzero. case_if.
  - bdestr. match goal with H : (len `mod` 4 =? 0)%nat = true |- _ => apply Nat.eqb_eq in H end.
    assert (len / 4 * 4 = len)%nat as E by (rewrite (Nat.div_mod_eq len 4) at 2; lia).
    rewrite (zero_up_range 4 (len / 4) 0 block m); [by rewrite Nat.add_0_l, E|by cbn; rewrite splice_nil|].
    rewrite Nat.add_0_l. lia.
  - rewrite (zero_up_range 1 len 0 block m); [by rewrite Nat.add_0_l, Nat.mul_1_r|by cbn; rewrite splice_nil|lia].
Qed.

Lemma memmove_overlap_witness : memmove 1 0 3 [1; 2; 3; 4] = Ok [1; 1; 2; 3].
Proof. apply (memmove_overlap 1 0 3 [1; 2; 3; 4]); vm_compute; lia. Defined.

Lemma strcat_appends_witness : ∃ d, strcat [97; 0; 0; 0] [98; 0] = Ok d ∧ cstr d = Some [97; 98].
Proof.
  destruct (strcat_appends [97; 0; 0; 0] [98; 0] [97] [98]) as (d & E & C & _); [done|done|cbn; lia|]. by exists d.
Defined.

Lemma strcmp_decides_equality_witness : ∃ r, strcmp [97; 0; 5] [97; 0] = Ok r ∧ (r = 0 ↔ [97] = [97]).
Proof. apply (strcmp_decides_equality [97; 0; 5] [97; 0]); done. Defined.

End Cstring.
