(* ===== verification/Sfsdisk.v ===== *)
(** * SFS on-disk structures and block I/O
    (kern/include/kern/sfs.h, kern/fs/sfs/sfs_io.c)

    The structures [sfs_super], [sfs_inode] and [sfs_dir] as records, their
    byte layout on a big-endian machine, and the block-level routines on top of
    the disk driver.  The theorems show that the layouts are lossless, that reads
    survive up to ten media errors, and what becomes of a write that fails. *)
From stdpp Require Import base list gmap numbers.
From S2P Require Import Prelude Copyinout Uio Lhd.
Local Open Scope Z_scope.

Module Sfsdisk.
Import Copyinout Uio Lhd.

Definition SFS_MAGIC : Z := 2880303105.
Definition SFS_BLOCKSIZE : Z := 512.
Definition SFS_VOLNAME_SIZE : Z := 32.
Definition SFS_NDIRECT : Z := 15.
Definition SFS_DBPERIDB : Z := 128.
Definition SFS_NAMELEN : Z := 60.
Definition SFS_SB_LOCATION : Z := 0.
Definition SFS_ROOT_LOCATION : Z := 1.
Definition SFS_MAP_LOCATION : Z := 2.
Definition SFS_NOINO : Z := 0.
Definition SFS_BLOCKBITS : Z := 4096.
Definition SFS_TYPE_INVAL : Z := 0.
Definition SFS_TYPE_FILE : Z := 1.
Definition SFS_TYPE_DIR : Z := 2.

(** [SFS_ROUNDUP], [SFS_BITMAPSIZE] and [SFS_BITBLOCKS], in unsigned arithmetic. *)
Definition SFS_ROUNDUP (a b : Z) : Z := u32 (u32 (u32 (a + b) - 1) `div` b * b).
Definition SFS_BITMAPSIZE (nblocks : Z) : Z := SFS_ROUNDUP nblocks SFS_BLOCKBITS.
Definition SFS_BITBLOCKS (nblocks : Z) : Z := SFS_BITMAPSIZE nblocks `div` SFS_BLOCKBITS.

Record sfs_super := mksuper {
  sp_magic : Z;
  sp_nblocks : Z;
  sp_volname : list Z;
  sp_reserved : list Z
}.

Record sfs_inode := mkinode {
  sfi_size : Z;
  sfi_type : Z;
  sfi_linkcount : Z;
  sfi_direct : list Z;
  sfi_indirect : Z;
  sfi_waste : list Z
}.

Record sfs_dir := mkdir {
  sfd_ino : Z;
  sfd_name : list Z
}.

#[global] Instance sfs_dir_eq_dec : EqDecision sfs_dir.
Proof. solve_decision. Defined.
#[global] Instance sfs_inode_eq_dec : EqDecision sfs_inode.
Proof. solve_decision. Defined.

(** ** Layout *)

(** An array of [u_int32_t] in memory. *)
Fixpoint enc_words (ws : list Z) : list Z :=
  match ws with
  | [] => []
  | w :: ws' => be32 w ++ enc_words ws'
  end.

Fixpoint dec_words (n : nat) (bs : list Z) : list Z :=
  match n with
  | O => []
  | S n' => un_be (take 4 bs) :: dec_words n' (drop 4 bs)
  end.

Definition enc_super (sp : sfs_super) : list Z :=
  be32 (sp_magic sp) ++ be32 (sp_nblocks sp) ++ sp_volname sp ++ enc_words (sp_reserved sp).

Definition dec_super (bs : list Z) : sfs_super :=
  mksuper (un_be (take 4 bs)) (un_be (take 4 (drop 4 bs))) (take 32 (drop 8 bs))
    (dec_words 118 (drop 40 bs)).

Definition enc_inode (i : sfs_inode) : list Z :=
  be32 (sfi_size i) ++ be16 (sfi_type i) ++ be16 (sfi_linkcount i) ++
  enc_words (sfi_direct i) ++ be32 (sfi_indirect i) ++ enc_words (sfi_waste i).

Definition dec_inode (bs : list Z) : sfs_inode :=
  mkinode (un_be (take 4 bs)) (un_be (take 2 (drop 4 bs))) (un_be (take 2 (drop 6 bs)))
    (dec_words 15 (drop 8 bs)) (un_be (take 4 (drop 68 bs))) (dec_words 110 (drop 72 bs)).

Definition enc_dir (d : sfs_dir) : list Z := be32 (sfd_ino d) ++ sfd_name d.

Definition dec_dir (bs : list Z) : sfs_dir := mkdir (un_be (take 4 bs)) (drop 4 bs).

(** Values that fit their fields. *)
Definition u32_val (z : Z) : Prop := 0 ≤ z < 2 ^ 32.

Record super_wf (sp : sfs_super) : Prop := {
  spw_magic : u32_val (sp_magic sp);
  spw_nblocks : u32_val (sp_nblocks sp);
  spw_volname : length (sp_volname sp) = 32%nat;
  spw_reserved : length (sp_reserved sp) = 118%nat;
  spw_reserved32 : Forall u32_val (sp_reserved sp)
}.

Record inode_wf (i : sfs_inode) : Prop := {
  iw_size : u32_val (sfi_size i);
  iw_type : 0 ≤ sfi_type i < 2 ^ 16;
  iw_links : 0 ≤ sfi_linkcount i < 2 ^ 16;
  iw_direct : length (sfi_direct i) = 15%nat;
  iw_direct32 : Forall u32_val (sfi_direct i);
  iw_indirect : u32_val (sfi_indirect i);
  iw_waste : length (sfi_waste i) = 110%nat;
  iw_waste32 : Forall u32_val (sfi_waste i)
}.

(** ** Block I/O (sfs_io.c) *)

(** The [retry:] loop; [fuel] is the number of retries left. *)
Fixpoint rwblock_retry (fuel : nat) (u : uio) : M dstate (Z * uio) :=
  let* '(result, u') := lhd_io u in
  if result =? EINVAL then panic
  else if result =? EIO then
    match fuel with
    | O => mret (result, u')
    | S fuel' => rwblock_retry fuel' u'
    end
  else mret (result, u').

Definition sfs_rwblock (u : uio) : M dstate (Z * uio) := rwblock_retry 10 u.

(** [SFSUIO]. *)
Definition SFSUIO (data : list Z) (block : Z) (rw : uio_rw_t) : uio :=
  mk_kuio data SFS_BLOCKSIZE (i32 (i32 block * SFS_BLOCKSIZE)) rw.

Definition sfs_rblock (data : list Z) (block : Z) : M dstate (Z * list Z) :=
  let* '(result, u) := sfs_rwblock (SFSUIO data block UIO_READ) in
  mret (result, kuio_data u).

Definition sfs_wblock (data : list Z) (block : Z) : M dstate Z :=
  let* '(result, u) := sfs_rwblock (SFSUIO data block UIO_WRITE) in
  mret result.

(** ** Layout lemmas *)
Lemma length_enc_words ws : length (enc_words ws) = (4 * length ws)%nat.
Proof. induction ws as [|w ws IH]; [done|]. cbn [enc_words]. rewrite length_app, IH. simpl. lia. Qed.

Lemma length_dec_words n bs : length (dec_words n bs) = n.
Proof. revert bs. induction n as [|n IH]; intros; simpl; [done|]. by rewrite IH. Qed.

#[export] Hint Rewrite length_enc_words length_dec_words : len.

Lemma dec_enc_words n ws rest :
  Forall u32_val ws → length ws = n → dec_words n (enc_words ws ++ rest) = ws.
Proof.
  intros H <-. induction H as [|w ws Hw _ IH]; [done|]. cbn [enc_words].
  rewrite <- app_assoc. cbn [length dec_words].
  rewrite (take_app_length' (be32 w)), (drop_app_length' (be32 w)) by done. by rewrite un_be_be32, IH.
Qed.

Lemma dec_enc_words_all n ws : Forall u32_val ws → length ws = n → dec_words n (enc_words ws) = ws.
Proof. intros H Hn. rewrite <- (app_nil_r (enc_words ws)). by apply dec_enc_words. Qed.

Lemma dec_words_zeros n m : (4 * n ≤ m)%nat → dec_words n (replicate m 0) = replicate n 0.
Proof.
  revert m. induction n as [|n IH]; intros m Hm; [done|]. cbn [dec_words].
  rewrite take_replicate, drop_replicate, Nat.min_l by lia. rewrite IH by lia. done.
Qed.

Lemma dec_words_u32 n bs : Forall is_byte bs → Forall u32_val (dec_words n bs).
Proof.
  assert (∀ l acc k, Forall is_byte l → (length l ≤ k)%nat → 0 ≤ acc →
    0 ≤ foldl (fun a b => a * 256 + b) acc l < (acc + 1) * 256 ^ Z.of_nat k) as Hf.
  { induction l as [|b l IHl]; intros acc k Hl Hk Hacc; simpl.
    - assert (1 ≤ 256 ^ Z.of_nat k) by (assert (0 < 256 ^ Z.of_nat k) by (apply Z.pow_pos_nonneg; lia); lia). nia.
    - apply Forall_cons_1 in Hl as [Hb Hl]. destruct k as [|k]; simpl in Hk; [lia|]. unfold is_byte in Hb.
      specialize (IHl (acc * 256 + b) k Hl ltac:(lia) ltac:(lia)). rewrite Nat2Z.inj_succ, Z.pow_succ_r by lia.
      assert (0 < 256 ^ Z.of_nat k) by (apply Z.pow_pos_nonneg; lia). nia. }
  revert bs. induction n as [|n IH]; intros bs Hb; simpl; [done|]. constructor.
  - unfold u32_val, un_be. pose proof (Hf (take 4 bs) 0 4%nat (Forall_take _ _ _ Hb) ltac:(len) ltac:(lia)).
    change ((0 + 1) * 256 ^ Z.of_nat 4) with (2 ^ 32) in *. lia.
  - apply IH. by apply Forall_drop.
Qed.

(** Peel the first field off an encoded structure. *)
Lemma field_take {A} (l k : list A) n : length l = n → take n (l ++ k) = l.
Proof. intros <-. apply take_app_length. Qed.

Lemma field_skip {A} (l k : list A) n m : length l = n → drop (n + m) (l ++ k) = drop m k.
Proof. intros <-. apply drop_app_add. Qed.

Lemma inode_roundtrip i : inode_wf i → dec_inode (enc_inode i) = i ∧ length (enc_inode i) = 512%nat.
Proof.
  intros [H1 H2 H3 H4 H5 H6 H7 H8]. split; [|unfold enc_inode; len].
  destruct i as [sz ty lc dir ind wst].
  cbn [sfi_size sfi_type sfi_linkcount sfi_direct sfi_indirect sfi_waste] in *.
  unfold dec_inode, enc_inode. cbn [sfi_size sfi_type sfi_linkcount sfi_direct sfi_indirect sfi_waste].
  change 72%nat with (4 + (2 + (2 + (60 + (4 + 0)))))%nat. change 68%nat with (4 + (2 + (2 + (60 + 0))))%nat.
  change 8%nat with (4 + (2 + (2 + 0)))%nat. change 6%nat with (4 + (2 + 0))%nat.
  change (drop 4) with (drop (A := Z) (4 + 0)).
  rewrite !field_skip by len. rewrite !drop_0, !field_take by len.
  rewrite !un_be_be32, !un_be_be16 by done. f_equal.
  - by apply dec_enc_words.
  - by apply dec_enc_words_all.
Qed.

Lemma super_roundtrip sp : super_wf sp → dec_super (enc_super sp) = sp ∧ length (enc_super sp) = 512%nat.
Proof.
  intros [H1 H2 H3 H4 H5]. split; [|unfold enc_super; len].
  destruct sp as [mg nb vn rs]. cbn [sp_magic sp_nblocks sp_volname sp_reserved] in *.
  unfold dec_super, enc_super. cbn [sp_magic sp_nblocks sp_volname sp_reserved].
  change 40%nat with (4 + (4 + (32 + 0)))%nat. change 8%nat with (4 + (4 + 0))%nat.
  change (drop 4) with (drop (A := Z) (4 + 0)).
  rewrite !field_skip by len. rewrite !drop_0, !field_take by len.
  rewrite !un_be_be32 by done. f_equal. by apply dec_enc_words_all.
Qed.

Lemma dir_roundtrip d :
  u32_val (sfd_ino d) → dec_dir (enc_dir d) = d ∧ length (enc_dir d) = (4 + length (sfd_name d))%nat.
Proof.
  intros H. split; [|unfold enc_dir; len]. destruct d as [ino nm]. unfold dec_dir, enc_dir. simpl.
  f_equal. by apply un_be_be32.
Qed.

(** ** Block I/O lemmas *)
Lemma sfsuio_req s data b rw :
  dev_wf s → length data = 512%nat → 0 ≤ b < dd_totsectors (dd s) →
  sector_req (SFSUIO data b rw) rw b [] data.
Proof.
  intros Hw Hl Hb. pose proof (dw_size _ Hw). unfold SFSUIO, SFS_BLOCKSIZE.
  rewrite (i32_small b), i32_small by lia.
  constructor; try done. apply mk_kuio_kuio; lia.
Qed.

(** The result of a driver call, passed through the retry loop. *)
Lemma rwblock_ok fuel u s u' s' :
  lhd_io u s = Ok ((0, u'), s') → rwblock_retry fuel u s = Ok ((0, u'), s').
Proof. intros E. destruct fuel; cbn [rwblock_retry]; by rewrite (bind_ok _ _ _ _ _ E). Qed.

Lemma rwblock_eio fuel u s u' s' :
  lhd_io u s = Ok ((EIO, u'), s') → rwblock_retry (S fuel) u s = rwblock_retry fuel u' s'.
Proof. intros E. cbn [rwblock_retry]. by rewrite (bind_ok _ _ _ _ _ E). Qed.

Lemma rwblock_read fuel ks fs u b done rest s sec :
  dev_wf s → sector_req u UIO_READ b done rest → 0 ≤ b → image s !! Z.to_nat b = Some sec →
  faults s = (Some <$> ks) ++ fs → default None (head fs) = None → (length ks ≤ fuel)%nat →
  ∃ u' s', rwblock_retry fuel u s = Ok ((0, u'), s') ∧ dev_wf s' ∧ image s' = image s ∧
    faults s' = tail fs ∧ us s' = us s ∧ sector_moved u' UIO_READ b (done ++ sec) (drop 512 rest).
Proof.
  revert fuel s. induction ks as [|k ks IH]; intros fuel s Hw Hu Hb Hsec Hf Hfs Hk;
    destruct (lhd_read u b done rest s sec Hw Hu Hb Hsec) as (u' & s' & E & [A1 A2 A3 A4] & Hm);
    unfold next_fault in *; change (dd_faults (dd s)) with (faults s) in *; rewrite Hf in *; cbn in A3.
  - rewrite fmap_nil in *. simpl in *. rewrite Hfs in *. exists u', s'. by rewrite (rwblock_ok _ _ _ _ _ E).
  - simpl in Hk. destruct fuel as [|fuel]; [lia|]. cbn in E, Hm. subst u'.
    rewrite (rwblock_eio _ _ _ _ _ E).
    destruct (IH fuel s') as (u2 & s2 & E2 & B1 & B2 & B3 & B4 & B5); try done; [by rewrite A2|lia|].
    exists u2, s2. split_and!; try done; congruence.
Qed.

Lemma rwblock_read_fail fuel ks fs u b done rest s sec :
  dev_wf s → sector_req u UIO_READ b done rest → 0 ≤ b → image s !! Z.to_nat b = Some sec →
  faults s = (Some <$> ks) ++ fs → length ks = S fuel →
  ∃ s', rwblock_retry fuel u s = Ok ((EIO, u), s') ∧ dev_wf s' ∧ image s' = image s ∧ faults s' = fs ∧ us s' = us s.
Proof.
  revert ks s. induction fuel as [|fuel IH]; intros [|k ks] s Hw Hu Hb Hsec Hf Hk; try done; simpl in Hk;
    destruct (lhd_read u b done rest s sec Hw Hu Hb Hsec) as (u' & s' & E & [A1 A2 A3 A4] & Hm);
    unfold next_fault in *; change (dd_faults (dd s)) with (faults s) in *; rewrite Hf in *; cbn in A3, E, Hm;
    subst u'.
  - destruct ks; [|done]. exists s'. cbn [rwblock_retry]. rewrite (bind_ok _ _ _ _ _ E). done.
  - rewrite (rwblock_eio _ _ _ _ _ E). destruct (IH ks s') as (s2 & E2 & B1 & B2 & B3 & B4); try done.
    + by rewrite A2.
    + lia.
    + exists s2. split_and!; try done; congruence.
Qed.

Lemma rwblock_write fuel u b done rest s sec :
  dev_wf s → sector_req u UIO_WRITE b done rest → 0 ≤ b → image s !! Z.to_nat b = Some sec →
  default None (head (faults s)) = None →
  ∃ u' s', rwblock_retry fuel u s = Ok ((0, u'), s') ∧
    after s s' (<[Z.to_nat b := take 512 rest]> (image s)) ∧
    sector_moved u' UIO_WRITE b (done ++ take 512 rest) (drop 512 rest).
Proof.
  intros Hw Hu Hb Hsec Hf.
  destruct (lhd_write u b done rest s sec Hw Hu Hb Hsec) as (u' & s' & E & A & Hm).
  unfold next_fault in *. change (dd_faults (dd s)) with (faults s) in *. rewrite Hf in *.
  exists u', s'. by rewrite (rwblock_ok _ _ _ _ _ E).
Qed.

(** The driver has nothing to do for an empty region inside the disk. *)
Lemma lhd_io_empty u s b :
  uio_offset u = b * 512 → uio_resid u = 0 → 0 ≤ b ≤ dd_totsectors (dd s) → dev_wf s →
  lhd_io u s = Ok ((0, u), s).
Proof.
  intros Ho Hr Hb Hw. pose proof (dw_size _ Hw). unfold lhd_io, LHD_SECTSIZE. rewrite Ho, Hr.
  rewrite Z.quot_mul, Z.rem_mul, (u32_small b), (u32_small 0) by lia. cbn [negb orb Z.eqb].
  change (0 `div` 512) with 0. change (0 `mod` 512) with 0. cbn [negb orb Z.eqb].
  erewrite bind_ok; [|reflexivity]. rewrite u32_small by lia.
  destruct (Z.gtb_spec (b + 0) (dd_totsectors (dd s))); [lia|]. done.
Qed.

Lemma rwblock_write_fault fuel u b done rest s sec k fs :
  dev_wf s → sector_req u UIO_WRITE b done rest → 0 ≤ b → image s !! Z.to_nat b = Some sec →
  faults s = Some k :: fs →
  ∃ u' s', rwblock_retry (S fuel) u s = Ok ((0, u'), s') ∧
    after s s' (<[Z.to_nat b := splice 0 (take k (take 512 rest)) sec]> (image s)).
Proof.
  intros Hw Hu Hb Hsec Hf.
  destruct (lhd_write u b done rest s sec Hw Hu Hb Hsec) as (u' & s' & E & A & (_ & _ & Ho & Hr)).
  unfold next_fault in *. change (dd_faults (dd s)) with (faults s) in *. rewrite Hf in *. cbn in E, A.
  exists u', s'. rewrite (rwblock_eio _ _ _ _ _ E). split; [|done]. apply rwblock_ok.
  apply (lhd_io_empty _ _ (b + 1)); [lia|done| |apply A].
  unfold dd_totsectors. change (dd_image (dd s')) with (image s'). rewrite (af_image _ _ _ A), length_insert.
  apply lookup_lt_Some in Hsec. lia.
Qed.

(** A read block of a kernel buffer, and a write of one, on a good device. *)
Lemma rblock_ok s data b sec ks fs :
  dev_wf s → length data = 512%nat → 0 ≤ b → image s !! Z.to_nat b = Some sec →
  faults s = (Some <$> ks) ++ fs → default None (head fs) = None → (length ks ≤ 10)%nat →
  ∃ s', sfs_rblock data b s = Ok ((0, sec), s') ∧ dev_wf s' ∧ image s' = image s ∧
    faults s' = tail fs ∧ us s' = us s.
Proof.
  intros Hw Hl Hb Hsec Hf Hfs Hk.
  assert (0 ≤ b < dd_totsectors (dd s)) as Hb'.
  { apply lookup_lt_Some in Hsec. unfold dd_totsectors, image in *. lia. }
  destruct (rwblock_read 10 ks fs _ b [] data s sec Hw (sfsuio_req s data b UIO_READ Hw Hl Hb') Hb Hsec Hf Hfs Hk)
    as (u' & s' & E & A1 & A2 & A3 & A4 & (K & _)).
  exists s'. split_and!; try done. unfold sfs_rblock, sfs_rwblock. rewrite (bind_ok _ _ _ _ _ E).
  unfold kuio_data. rewrite (ku_un _ _ _ K), drop_ge, app_nil_r by lia. done.
Qed.

Lemma wblock_ok s data b :
  dev_wf s → length data = 512%nat → 0 ≤ b < dd_totsectors (dd s) → default None (head (faults s)) = None →
  ∃ s', sfs_wblock data b s = Ok (0, s') ∧ after s s' (<[Z.to_nat b := data]> (image s)).
Proof.
  intros Hw Hl Hb Hf. destruct (lookup_image s b Hb) as [sec Hsec].
  destruct (rwblock_write 10 _ b [] data s sec Hw (sfsuio_req s data b UIO_WRITE Hw Hl Hb)) as (u' & s' & E & A & _);
    [lia|done|done|].
  exists s'. unfold sfs_wblock, sfs_rwblock. rewrite (bind_ok _ _ _ _ _ E).
  by rewrite take_ge in A by lia.
Qed.

(** ** Theorems *)

(** The on-disk layouts are lossless and exactly one block (or one directory
    entry) long. *)
Theorem sfs_layout_roundtrip i sp d :
  inode_wf i → super_wf sp → u32_val (sfd_ino d) → length (sfd_name d) = 60%nat →
  (dec_inode (enc_inode i) = i ∧ length (enc_inode i) = 512%nat) ∧
  (dec_super (enc_super sp) = sp ∧ length (enc_super sp) = 512%nat) ∧
  (dec_dir (enc_dir d) = d ∧ length (enc_dir d) = 64%nat).
Proof.
  intros Hi Hsp Hd Hn. destruct (dir_roundtrip d Hd) as [E El]. rewrite Hn in El.
  split; [by apply inode_roundtrip|]. split; [by apply super_roundtrip|done].
Qed.

(** A block read survives up to ten media errors and hands back the sector. *)
Theorem sfs_rblock_retries s data b sec ks fs :
  dev_wf s → length data = 512%nat → 0 ≤ b → image s !! Z.to_nat b = Some sec →
  faults s = (Some <$> ks) ++ fs → default None (head fs) = None → (length ks ≤ 10)%nat →
  ∃ s', sfs_rblock data b s = Ok ((0, sec), s') ∧ dev_wf s' ∧ image s' = image s.
Proof.
  intros Hw Hl Hb Hsec Hf Hfs Hk.
  destruct (rblock_ok s data b sec ks fs Hw Hl Hb Hsec Hf Hfs Hk) as (s' & E & A1 & A2 & _). eauto.
Qed.

(** After eleven media errors in a row a block read gives up with EIO; the
    buffer and the disk are as before. *)
Theorem sfs_rblock_gives_up s data b sec ks fs :
  dev_wf s → length data = 512%nat → 0 ≤ b → image s !! Z.to_nat b = Some sec →
  faults s = (Some <$> ks) ++ fs → length ks = 11%nat →
  ∃ s', sfs_rblock data b s = Ok ((EIO, data), s') ∧ dev_wf s' ∧ image s' = image s.
Proof.
  intros Hw Hl Hb Hsec Hf Hk.
  assert (0 ≤ b < dd_totsectors (dd s)) as Hb'.
  { apply lookup_lt_Some in Hsec. unfold dd_totsectors, image in *. lia. }
  destruct (rwblock_read_fail 10 ks fs _ b [] data s sec Hw (sfsuio_req s data b UIO_READ Hw Hl Hb') Hb Hsec Hf Hk)
    as (s' & E & A1 & A2 & _).
  exists s'. unfold sfs_rblock, sfs_rwblock. by rewrite (bind_ok _ _ _ _ _ E).
Qed.

(** A block write that meets a media error is reported as a success: the first
    attempt has consumed the region, so the retry transfers nothing.  The sector is
    left with at most the [k] bytes that got through. *)
Theorem sfs_wblock_loses_data s data b sec k fs :
  dev_wf s → length data = 512%nat → 0 ≤ b → image s !! Z.to_nat b = Some sec →
  faults s = Some k :: fs →
  ∃ s', sfs_wblock data b s = Ok (0, s') ∧ dev_wf s' ∧
    image s' = <[Z.to_nat b := splice 0 (take k data) sec]> (image s).
Proof.
  intros Hw Hl Hb Hsec Hf.
  assert (0 ≤ b < dd_totsectors (dd s)) as Hb'.
  { apply lookup_lt_Some in Hsec. unfold dd_totsectors, image in *. lia. }
  destruct (rwblock_write_fault 9 _ b [] data s sec k fs Hw (sfsuio_req s data b UIO_WRITE Hw Hl Hb') Hb Hsec Hf)
    as (u' & s' & E & A).
  exists s'. unfold sfs_wblock, sfs_rwblock. rewrite (bind_ok _ _ _ _ _ E). rewrite (take_ge data 512) in A by lia.
  split_and!; [done|apply A|apply A].
Qed.

Lemma sfs_layout_roundtrip_witness :
  dec_dir (enc_dir (mkdir 3 (replicate 60 97))) = mkdir 3 (replicate 60 97).
Proof.
  destruct (sfs_layout_roundtrip (mkinode 0 1 1 (replicate 15 0) 0 (replicate 110 0))
    (mksuper SFS_MAGIC 16 (replicate 32 0) (replicate 118 0)) (mkdir 3 (replicate 60 97))) as (_ & _ & E & _);
    [| |done|done|exact E]; constructor; try done; by apply Forall_replicate.
Defined.

Lemma sfs_rblock_retries_witness :
  ∃ s', sfs_rblock (replicate 512 9) 1 (small_disk [Some 3%nat]) = Ok ((0, replicate 512 0), s').
Proof.
  destruct (sfs_rblock_retries (small_disk [Some 3%nat]) (replicate 512 9) 1 (replicate 512 0) [3%nat] [])
    as (s' & E & _); [apply small_disk_wf|done|done|done|done|done|cbn; lia|].
  by exists s'.
Defined.

Lemma sfs_rblock_gives_up_witness :
  ∃ s', sfs_rblock (replicate 512 9) 1 (small_disk (replicate 11 (Some 3%nat))) = Ok ((EIO, replicate 512 9), s').
Proof.
  destruct (sfs_rblock_gives_up (small_disk (replicate 11 (Some 3%nat))) (replicate 512 9) 1 (replicate 512 0)
    (replicate 11 3%nat) []) as (s' & E & _); [apply small_disk_wf|done|done|done|done|done|].
  by exists s'.
Defined.

(** A write that fails at once and is retried reports success and writes nothing. *)
Lemma sfs_wblock_loses_data_witness :
  ∃ s', sfs_wblock (replicate 512 9) 1 (small_disk [Some 0%nat]) = Ok (0, s') ∧
    image s' !! 1%nat = Some (replicate 512 0).
Proof.
  destruct (sfs_wblock_loses_data (small_disk [Some 0%nat]) (replicate 512 9) 1 (replicate 512 0) 0 [])
    as (s' & E & _ & I); [apply small_disk_wf|done|done|done|done|].
  exists s'. split; [exact E|]. by rewrite I.
Defined.

End Sfsdisk.
