(* ===== verification/Sfs.v ===== *)
(** * The SFS file system: operations
    (kern/fs/sfs/sfs_vnode.c, kern/fs/sfs/sfs_fs.c, kern/fs/vfs/vnode.c)

    [sfs_fs] is the mounted file system: [struct sfs_fs], the device below it and
    the kernel heap its vnodes live in.  A [struct sfs_vnode *] is a key of
    [heap]; using a freed one is [Undef].  [mem] scripts the coming [kmalloc]s
    ([false] returns NULL; an exhausted script always succeeds).  The locks around
    the vnode counts are stubs in this kernel (synch.c) and have no effect.  The
    static I/O buffers are always filled before they are read, so they are
    local values here.  A C function that returns an errno and fills an out
    parameter returns [Z + A]: [inl] an errno, [inr] the value.  This file holds the
    definitions; Sfsfile, Sfsdir and Sfsvol prove their properties. *)
From stdpp Require Import base list gmap numbers.
From S2P Require Import Prelude Array Bitmap Copyinout Uio Lhd Cstring Sfsdisk.
Local Open Scope Z_scope.

Module Sfs.
Import Copyinout Uio Lhd Sfsdisk.

(** ** State *)
Inductive vnode_ops := sfs_fileops | sfs_dirops.

#[global] Instance vnode_ops_eq_dec : EqDecision vnode_ops.
Proof. solve_decision. Defined.

Record sfs_vnode := mkvnode {
  vn_ops : vnode_ops;
  vn_refcount : Z;
  vn_opencount : Z;
  sv_i : sfs_inode;
  sv_ino : Z;
  sv_dirty : bool
}.

Record sfs_fs := mksfs {
  sfs_super : Sfsdisk.sfs_super;
  sfs_superdirty : bool;
  sfs_device : dstate;
  sfs_vnodes : Array.array nat;
  sfs_freemap : Bitmap.bitmap;
  sfs_freemapdirty : bool;
  heap : gmap nat sfs_vnode;
  heap_next : nat;
  mem : list bool
}.

Abbreviation K := (M sfs_fs).

(** Field updates. *)
Definition set_device (d : dstate) (s : sfs_fs) : sfs_fs :=
  mksfs (sfs_super s) (sfs_superdirty s) d (sfs_vnodes s) (sfs_freemap s) (sfs_freemapdirty s)
    (heap s) (heap_next s) (mem s).
Definition set_vnodes (a : Array.array nat) (s : sfs_fs) : sfs_fs :=
  mksfs (sfs_super s) (sfs_superdirty s) (sfs_device s) a (sfs_freemap s) (sfs_freemapdirty s)
    (heap s) (heap_next s) (mem s).
Definition set_freemap (b : Bitmap.bitmap) (dirty : bool) (s : sfs_fs) : sfs_fs :=
  mksfs (sfs_super s) (sfs_superdirty s) (sfs_device s) (sfs_vnodes s) b dirty
    (heap s) (heap_next s) (mem s).
Definition set_heap (h : gmap nat sfs_vnode) (n : nat) (s : sfs_fs) : sfs_fs :=
  mksfs (sfs_super s) (sfs_superdirty s) (sfs_device s) (sfs_vnodes s) (sfs_freemap s) (sfs_freemapdirty s)
    h n (mem s).
Definition set_mem (m : list bool) (s : sfs_fs) : sfs_fs :=
  mksfs (sfs_super s) (sfs_superdirty s) (sfs_device s) (sfs_vnodes s) (sfs_freemap s) (sfs_freemapdirty s)
    (heap s) (heap_next s) m.
Definition set_superdirty (b : bool) (s : sfs_fs) : sfs_fs :=
  mksfs (sfs_super s) b (sfs_device s) (sfs_vnodes s) (sfs_freemap s) (sfs_freemapdirty s)
    (heap s) (heap_next s) (mem s).

Definition dev {A} (m : M dstate A) : K A := zoom sfs_device set_device m.

(** Does the next [kmalloc] succeed? *)
Definition kmalloc_ok : K bool := fun s => Ok (default true (head (mem s)), set_mem (tail (mem s)) s).

(** [sv->...] as an rvalue, and an assignment to fields of [*sv]. *)
Definition getv (sv : nat) : K sfs_vnode := fun s =>
  match heap s !! sv with
  | Some v => Ok (v, s)
  | None => Undef
  end.

Definition putv (sv : nat) (v : sfs_vnode) : K unit :=
  modify (fun s => set_heap (<[sv := v]> (heap s)) (heap_next s) s).

Definition updv (sv : nat) (f : sfs_vnode → sfs_vnode) : K unit :=
  let* v := getv sv in putv sv (f v).

Definition set_inode (i : sfs_inode) (dirty : bool) (v : sfs_vnode) : sfs_vnode :=
  mkvnode (vn_ops v) (vn_refcount v) (vn_opencount v) i (sv_ino v) dirty.
Definition set_counts (ref opn : Z) (v : sfs_vnode) : sfs_vnode :=
  mkvnode (vn_ops v) ref opn (sv_i v) (sv_ino v) (sv_dirty v).

Definition with_size (n : Z) (i : sfs_inode) : sfs_inode :=
  mkinode n (sfi_type i) (sfi_linkcount i) (sfi_direct i) (sfi_indirect i) (sfi_waste i).
Definition with_type (n : Z) (i : sfs_inode) : sfs_inode :=
  mkinode (sfi_size i) n (sfi_linkcount i) (sfi_direct i) (sfi_indirect i) (sfi_waste i).
Definition with_links (n : Z) (i : sfs_inode) : sfs_inode :=
  mkinode (sfi_size i) (sfi_type i) n (sfi_direct i) (sfi_indirect i) (sfi_waste i).
Definition with_direct (l : list Z) (i : sfs_inode) : sfs_inode :=
  mkinode (sfi_size i) (sfi_type i) (sfi_linkcount i) l (sfi_indirect i) (sfi_waste i).
Definition with_indirect (n : Z) (i : sfs_inode) : sfs_inode :=
  mkinode (sfi_size i) (sfi_type i) (sfi_linkcount i) (sfi_direct i) n (sfi_waste i).

(** ** Vnodes (vnode.c) *)

(** [vnode_check], as far as a live vnode can fail it. *)
Definition vnode_check (sv : nat) (reclaim : bool) : K unit :=
  let* v := getv sv in
  if vn_refcount v <? 0 then panic
  else if (vn_refcount v =? 0) && negb reclaim then panic
  else if vn_opencount v <? 0 then panic
  else mret tt.

Definition vnode_incref (sv : nat) : K unit :=
  updv sv (fun v => set_counts (i32 (vn_refcount v + 1)) (vn_opencount v) v).

Definition vnode_incopen (sv : nat) : K unit :=
  updv sv (fun v => set_counts (vn_refcount v) (i32 (vn_opencount v + 1)) v).

(** [lock_create]: the structure and its name are allocated. *)
Definition lock_create_ok : K bool :=
  let* ok := kmalloc_ok in
  if (ok : bool) then kmalloc_ok else mret false.

(** [vnode_init]: the counts of a new vnode, or ENOMEM. *)
Definition vnode_init : K (Z + Z * Z) :=
  let* ok := lock_create_ok in
  mret (if (ok : bool) then inr (1, 0) else inl ENOMEM).

Definition vnode_kill (sv : nat) : K unit :=
  let* v := getv sv in
  let* _ := massert (vn_refcount v =? 1) in
  massert (vn_opencount v =? 0).

(** [kfree(sv)]. *)
Definition kfree_vnode (sv : nat) : K unit :=
  modify (fun s => set_heap (delete sv (heap s)) (heap_next s) s).

(** ** Simple block and inode operations *)
Definition zero_block : list Z := replicate 512 0.

Definition sfs_clearblock (block : Z) : K Z := dev (sfs_wblock zero_block block).

Definition sfs_sync_inode (sv : nat) : K Z :=
  let* v := getv sv in
  if sv_dirty v then
    let* result := dev (sfs_wblock (enc_inode (sv_i v)) (sv_ino v)) in
    if negb (result =? 0) then mret result
    else
      let* _ := updv sv (fun v => set_inode (sv_i v) false v) in
      mret 0
  else mret 0.

Definition sfs_balloc : K (Z + Z) :=
  let* fm := gets sfs_freemap in
  let* r := lift (Bitmap.bitmap_alloc fm) in
  match r with
  | inl e => mret (inl e)
  | inr (diskblock, fm') =>
      let* _ := modify (set_freemap fm' true) in
      let* nblocks := gets (fun s => sp_nblocks (sfs_super s)) in
      if nblocks <=? diskblock then panic
      else
        let* result := sfs_clearblock diskblock in
        mret (if result =? 0 then inr diskblock else inl result)
  end.

Definition sfs_bfree (diskblock : Z) : K unit :=
  let* fm := gets sfs_freemap in
  let* fm' := lift (Bitmap.bitmap_unmark fm diskblock) in
  modify (set_freemap fm' true).

Definition sfs_bused (diskblock : Z) : K bool :=
  let* nblocks := gets (fun s => sp_nblocks (sfs_super s)) in
  if nblocks <=? diskblock then panic
  else
    let* fm := gets sfs_freemap in
    let* r := lift (Bitmap.bitmap_isset fm diskblock) in
    mret (negb (r =? 0)).

(** The check shared by both ends of [sfs_bmap]: a block that is handed back
    must be marked in use. *)
Definition bmap_return (block : Z) : K (Z + Z) :=
  if block =? 0 then mret (inr block)
  else
    let* used := sfs_bused block in
    if negb (used : bool) then panic else mret (inr block).

(** [sfs_bmap] on a direct block. *)
Definition bmap_direct (sv : nat) (fileblock : Z) (doalloc : bool) : K (Z + Z) :=
  let* v := getv sv in
  let* block := lift (of_option (sfi_direct (sv_i v) !! Z.to_nat fileblock)) in
  if (block =? 0) && doalloc then
    let? block := sfs_balloc in
    let* _ := updv sv (fun v =>
      set_inode (with_direct (<[Z.to_nat fileblock := block]> (sfi_direct (sv_i v))) (sv_i v)) true v) in
    bmap_return block
  else bmap_return block.

(** The rest of the indirect case, with the indirect block [idblock] loaded
    into [idbuf]. *)
Definition bmap_entry (idblock idoff : Z) (doalloc : bool) (idbuf : list Z) : K (Z + Z) :=
  let* block := lift (of_option (idbuf !! Z.to_nat idoff)) in
  if (block =? 0) && doalloc then
    let? block := sfs_balloc in
    let* result := dev (sfs_wblock (enc_words (<[Z.to_nat idoff := block]> idbuf)) idblock) in
    if negb (result =? 0) then mret (inl result) else bmap_return block
  else bmap_return block.

Definition sfs_bmap (sv : nat) (fileblock : Z) (doalloc : bool) : K (Z + Z) :=
  if fileblock <? SFS_NDIRECT then bmap_direct sv fileblock doalloc
  else
    let fileblock := fileblock - SFS_NDIRECT in
    let idnum := fileblock `div` SFS_DBPERIDB in
    let idoff := fileblock `mod` SFS_DBPERIDB in
    if idnum >? 0 then mret (inl EINVAL)
    else
      let* v := getv sv in
      let idblock := sfi_indirect (sv_i v) in
      if (idblock =? 0) && negb doalloc then mret (inr 0)
      else if idblock =? 0 then
        let? idblock := sfs_balloc in
        let* _ := updv sv (fun v => set_inode (with_indirect idblock (sv_i v)) true v) in
        bmap_entry idblock idoff doalloc (replicate 128 0)
      else
        let* '(result, buf) := dev (sfs_rblock zero_block idblock) in
        if negb (result =? 0) then mret (inl result)
        else bmap_entry idblock idoff doalloc (dec_words 128 buf).

(** ** File-level I/O *)
Definition kmove (ptr : list Z) (n : Z) (u : uio) : K (Z * list Z * uio) :=
  dev (zoom us (fun x s => mkdstate (Lhd.dd s) (lh_result s) (lh_clear s) (lh_done s) x) (uiomove ptr n u)).

Definition kmovezeros (n : Z) (u : uio) : K (Z * uio) :=
  dev (zoom us (fun x s => mkdstate (Lhd.dd s) (lh_result s) (lh_clear s) (lh_done s) x) (uiomovezeros n u)).

Definition is_write (u : uio) : bool := bool_decide (uio_rw u = UIO_WRITE).

(** [uio->uio_offset / SFS_BLOCKSIZE], converted to [u_int32_t]. *)
Definition offset_block (u : uio) : Z := u32 (Z.quot (uio_offset u) SFS_BLOCKSIZE).

(** The end of [sfs_partialio]: the block is in [iobuf]. *)
Definition partial_move (diskblock skipstart len : Z) (iobuf : list Z) (u : uio) : K (Z * uio) :=
  let n := Z.to_nat skipstart in
  let* '(result, part, u) := kmove (drop n iobuf) len u in
  let iobuf := take n iobuf ++ part in
  if negb (result =? 0) then mret (result, u)
  else if is_write u then
    let* result := dev (sfs_wblock iobuf diskblock) in
    mret (result, u)
  else mret (0, u).

Definition sfs_partialio (sv : nat) (u : uio) (skipstart len : Z) : K (Z * uio) :=
  let doalloc := is_write u in
  let* _ := massert (u32 (skipstart + len) <=? SFS_BLOCKSIZE) in
  let* r := sfs_bmap sv (offset_block u) doalloc in
  match r with
  | inl e => mret (e, u)
  | inr diskblock =>
      if diskblock =? 0 then
        let* _ := massert (bool_decide (uio_rw u = UIO_READ)) in
        partial_move diskblock skipstart len zero_block u
      else
        let* '(result, iobuf) := dev (sfs_rblock zero_block diskblock) in
        if negb (result =? 0) then mret (result, u)
        else partial_move diskblock skipstart len iobuf u
  end.

Definition set_pos (u : uio) (off resid : Z) : uio :=
  mkuio (iov_un u) (iov_len u) off resid (uio_segflg u) (uio_rw u) (uio_space u).

Definition sfs_blockio (sv : nat) (u : uio) : K (Z * uio) :=
  let doalloc := is_write u in
  let* r := sfs_bmap sv (offset_block u) doalloc in
  match r with
  | inl e => mret (e, u)
  | inr diskblock =>
      if diskblock =? 0 then
        let* _ := massert (bool_decide (uio_rw u = UIO_READ)) in
        kmovezeros SFS_BLOCKSIZE u
      else
        let saveoff := uio_offset u in
        let diskoff := i32 (u32 (diskblock * SFS_BLOCKSIZE)) in
        let* _ := massert (SFS_BLOCKSIZE <=? uio_resid u) in
        let saveres := i32 (uio_resid u) in
        let diskres := SFS_BLOCKSIZE in
        let* '(result, u) := dev (sfs_rwblock (set_pos u diskoff diskres)) in
        mret (result, set_pos u (i32 (uio_offset u - diskoff + saveoff))
                                (u32 (uio_resid u - diskres + saveres)))
  end.

(** The loop over whole blocks. *)
Fixpoint io_blocks (n : nat) (sv : nat) (u : uio) : K (Z * uio) :=
  match n with
  | O => mret (0, u)
  | S n' =>
      let* '(result, u) := sfs_blockio sv u in
      if negb (result =? 0) then mret (result, u) else io_blocks n' sv u
  end.

(** From the end of the leading partial block to [out:]. *)
Definition io_rest (sv : nat) (u : uio) : K (Z * uio) :=
  if uio_resid u =? 0 then mret (0, u)
  else
    let* _ := massert (Z.rem (uio_offset u) SFS_BLOCKSIZE =? 0) in
    let nblocks := uio_resid u `div` SFS_BLOCKSIZE in
    let* '(result, u) := io_blocks (Z.to_nat nblocks) sv u in
    if negb (result =? 0) then mret (result, u)
    else
      let* _ := massert (uio_resid u <? SFS_BLOCKSIZE) in
      if uio_resid u >? 0 then sfs_partialio sv u 0 (uio_resid u) else mret (0, u).

(** The transfer itself, up to [out:]. *)
Definition io_transfer (sv : nat) (u : uio) : K (Z * uio) :=
  let blkoff := u32 (Z.rem (uio_offset u) SFS_BLOCKSIZE) in
  if negb (blkoff =? 0) then
    let len := Z.min (u32 (SFS_BLOCKSIZE - blkoff)) (uio_resid u) in
    let* '(result, u) := sfs_partialio sv u blkoff len in
    if negb (result =? 0) then mret (result, u) else io_rest sv u
  else io_rest sv u.

(** The code after [out:]. *)
Definition io_out (sv : nat) (extraresid : Z) (result : Z) (u : uio) : K (Z * uio) :=
  let* v := getv sv in
  let* _ := (if is_write u && (i32 (sfi_size (sv_i v)) <? uio_offset u)
             then putv sv (set_inode (with_size (u32 (uio_offset u)) (sv_i v)) true v)
             else mret tt) in
  mret (result, set_pos u (uio_offset u) (u32 (uio_resid u + extraresid))).

Definition sfs_io (sv : nat) (u : uio) : K (Z * uio) :=
  if bool_decide (uio_rw u = UIO_READ) then
    let* v := getv sv in
    let size := i32 (sfi_size (sv_i v)) in
    let endpos := i32 (u32 (u32 (uio_offset u) + uio_resid u)) in
    if size <=? uio_offset u then mret (0, u)
    else if endpos >? size then
      let extraresid := u32 (endpos - size) in
      let* _ := massert (extraresid <? uio_resid u) in
      let* '(result, u) := io_transfer sv (set_pos u (uio_offset u) (u32 (uio_resid u - extraresid))) in
      io_out sv extraresid result u
    else
      let* '(result, u) := io_transfer sv u in
      io_out sv 0 result u
  else
    let* '(result, u) := io_transfer sv u in
    io_out sv 0 result u.

(** ** Directory I/O *)
Definition sizeof_sfs_dir : Z := 64.

Definition sfs_readdir (sv : nat) (slot : Z) : K (Z + sfs_dir) :=
  let actualpos := i32 (u32 (slot * sizeof_sfs_dir)) in
  let* '(result, ku) := sfs_io sv (mk_kuio (replicate 64 0) sizeof_sfs_dir actualpos UIO_READ) in
  if negb (result =? 0) then mret (inl result)
  else if uio_resid ku >? 0 then panic
  else mret (inr (dec_dir (kuio_data ku))).

Definition sfs_writedir (sv : nat) (sd : sfs_dir) (slot : Z) : K Z :=
  let* _ := massert (0 <=? slot) in
  let actualpos := i32 (u32 (slot * sizeof_sfs_dir)) in
  let* '(result, ku) := sfs_io sv (mk_kuio (enc_dir sd) sizeof_sfs_dir actualpos UIO_WRITE) in
  if negb (result =? 0) then mret result
  else if uio_resid ku >? 0 then panic
  else mret 0.

Definition sfs_dir_nentries (sv : nat) : K Z :=
  let* v := getv sv in
  let* _ := massert (sfi_type (sv_i v) =? SFS_TYPE_DIR) in
  let size := i32 (sfi_size (sv_i v)) in
  if negb (u32 size `mod` sizeof_sfs_dir =? 0) then panic
  else mret (i32 (u32 size `div` sizeof_sfs_dir)).

(** What [sfs_dir_findname] has stored through its out pointers. *)
Record findres := mkfind {
  f_found : bool;
  f_ino : option Z;
  f_slot : option Z;
  f_empty : option Z
}.

(** The loop: [n] slots from slot [i] on. *)
Fixpoint findname_loop (n : nat) (i : Z) (sv : nat) (name : list Z) (f : findres) : K (Z + findres) :=
  match n with
  | O => mret (inr f)
  | S n' =>
      let? tsd := sfs_readdir sv i in
      if sfd_ino tsd =? SFS_NOINO then
        findname_loop n' (i + 1) sv name (mkfind (f_found f) (f_ino f) (f_slot f) (Some i))
      else
        let* c := lift (Cstring.strcmp (<[59%nat := 0]> (sfd_name tsd)) name) in
        if c =? 0 then
          let* _ := massert (negb (f_found f)) in
          findname_loop n' (i + 1) sv name (mkfind true (Some (sfd_ino tsd)) (Some i) (f_empty f))
        else findname_loop n' (i + 1) sv name f
  end.

(** [inl] an I/O error; otherwise [f_found] says whether the result is 0 or ENOENT. *)
Definition sfs_dir_findname (sv : nat) (name : list Z) : K (Z + findres) :=
  let* nentries := sfs_dir_nentries sv in
  findname_loop (Z.to_nat nentries) 0 sv name (mkfind false None None None).

(** The slot is handed back on success. *)
Definition sfs_dir_link (sv : nat) (name : list Z) (ino : Z) : K (Z + Z) :=
  let? f := sfs_dir_findname sv name in
  if f_found f then mret (inl EEXIST)
  else
    let* len := lift (Cstring.strlen name) in
    if u32 (len + 1) >? SFS_NAMELEN then mret (inl ENAMETOOLONG)
    else
      let* emptyslot := match f_empty f with
                        | Some i => mret i
                        | None => sfs_dir_nentries sv
                        end in
      let* nm := lift (Cstring.strcpy (replicate 60 0) name) in
      let* result := sfs_writedir sv (mkdir ino nm) emptyslot in
      mret (if result =? 0 then inr emptyslot else inl result).

Definition sfs_dir_unlink (sv : nat) (slot : Z) : K Z :=
  sfs_writedir sv (mkdir SFS_NOINO (replicate 60 0)) slot.

(** ** Loading vnodes *)

(** The linear search of the vnode table, from index [i] on. *)
Fixpoint search_vnodes (n : nat) (i ino forcetype : Z) : K (option nat) :=
  match n with
  | O => mret None
  | S n' =>
      let* tbl := gets sfs_vnodes in
      let* sv := lift (Array.array_getguy tbl i) in
      let* v := getv sv in
      let* used := sfs_bused (sv_ino v) in
      if negb (used : bool) then panic
      else if sv_ino v =? ino then
        let* _ := massert (forcetype =? SFS_TYPE_INVAL) in
        let* _ := vnode_incref sv in
        mret (Some sv)
      else search_vnodes n' (i + 1) ino forcetype
  end.

(** The vnode structure of a fresh allocation. *)
Definition alloc_vnode (v : sfs_vnode) : K nat := fun s =>
  Ok (heap_next s, set_heap (<[heap_next s := v]> (heap s)) (S (heap_next s)) s).

(** Give the loaded inode its type, its function table and a place in the
    table of vnodes. *)
Definition install_vnode (ino forcetype : Z) (i : sfs_inode) : K (Z + nat) :=
  let* '(i, dirty) :=
    (if negb (forcetype =? SFS_TYPE_INVAL) then
       let* _ := massert (sfi_type i =? SFS_TYPE_INVAL) in
       mret (with_type (u16 forcetype) i, true)
     else mret (i, false)) in
  let* ops := (if sfi_type i =? SFS_TYPE_FILE then mret sfs_fileops
               else if sfi_type i =? SFS_TYPE_DIR then mret sfs_dirops
               else panic) in
  let? counts := vnode_init in
  let* sv := alloc_vnode (mkvnode ops counts.1 counts.2 i ino dirty) in
  let* tbl := gets sfs_vnodes in
  let* ok := kmalloc_ok in
  let* '(result, tbl') := lift (Array.array_add ok tbl sv) in
  let* _ := modify (set_vnodes tbl') in
  if negb (result =? 0) then
    let* _ := vnode_kill sv in
    let* _ := kfree_vnode sv in
    mret (inl result)
  else mret (inr sv).

Definition sfs_loadvnode (ino forcetype : Z) : K (Z + nat) :=
  let* num := gets (fun s => Array.array_getnum (sfs_vnodes s)) in
  let* found := search_vnodes (Z.to_nat num) 0 ino forcetype in
  match found with
  | Some sv => mret (inr sv)
  | None =>
      let* ok := kmalloc_ok in
      if negb (ok : bool) then mret (inl ENOMEM)
      else
        let* used := sfs_bused ino in
        if negb (used : bool) then panic
        else
          let* '(result, buf) := dev (sfs_rblock zero_block ino) in
          if negb (result =? 0) then mret (inl result)
          else install_vnode ino forcetype (dec_inode buf)
  end.

Definition sfs_getroot : K nat :=
  let* r := sfs_loadvnode SFS_ROOT_LOCATION SFS_TYPE_INVAL in
  match r with
  | inl _ => panic
  | inr sv => mret sv
  end.

Definition sfs_lookonce (sv : nat) (name : list Z) : K (Z + nat * Z) :=
  let? f := sfs_dir_findname sv name in
  match f_found f, f_ino f, f_slot f with
  | true, Some ino, Some slot =>
      let? ret := sfs_loadvnode ino SFS_TYPE_INVAL in
      let* v := getv ret in
      if sfi_linkcount (sv_i v) =? 0 then panic else mret (inr (ret, slot))
  | _, _, _ => mret (inl ENOENT)
  end.

Definition sfs_makeobj (type : Z) : K (Z + nat) :=
  let? ino := sfs_balloc in
  sfs_loadvnode ino type.

(** ** Vnode operations *)
Definition O_WRONLY : Z := 1.
Definition O_RDWR : Z := 2.
Definition O_APPEND : Z := 32.
Definition O_ACCMODE : Z := 3.
Definition S_IFREG : Z := 4096.
Definition S_IFDIR : Z := 8192.

Definition sfs_open (openflags : Z) : Z :=
  if negb (Z.land openflags O_APPEND =? 0) then EUNIMP else 0.

Definition sfs_opendir (openflags : Z) : Z :=
  if negb (Z.land openflags O_ACCMODE =? 0) then EISDIR
  else if negb (Z.land openflags O_APPEND =? 0) then EISDIR
  else 0.

Definition sfs_fsync (sv : nat) : K Z := sfs_sync_inode sv.

(** Both function tables have [sfs_fsync] and [sfs_reclaim]. *)
Definition VOP_FSYNC (sv : nat) : K Z :=
  let* _ := vnode_check sv false in sfs_fsync sv.

Definition sfs_close (sv : nat) : K Z := VOP_FSYNC sv.

Definition sfs_read (sv : nat) (u : uio) : K (Z * uio) :=
  let* _ := massert (bool_decide (uio_rw u = UIO_READ)) in sfs_io sv u.

Definition sfs_write (sv : nat) (u : uio) : K (Z * uio) :=
  let* _ := massert (bool_decide (uio_rw u = UIO_WRITE)) in sfs_io sv u.

Definition sfs_ioctl (op : Z) : Z := EINVAL.

Definition sfs_gettype (sv : nat) : K Z :=
  let* v := getv sv in
  if sfi_type (sv_i v) =? SFS_TYPE_FILE then mret S_IFREG
  else if sfi_type (sv_i v) =? SFS_TYPE_DIR then mret S_IFDIR
  else panic.

Record stat := mkstat { st_mode : Z; st_nlink : Z; st_size : Z; st_blocks : Z }.

Definition sfs_stat (sv : nat) : K stat :=
  let* _ := vnode_check sv false in
  let* mode := sfs_gettype sv in
  let* v := getv sv in
  mret (mkstat mode 0 (i32 (sfi_size (sv_i v))) 0).

Definition sfs_tryseek (pos : Z) : Z := if pos <? 0 then EINVAL else 0.

Definition sfs_mmap : Z := EUNIMP.

(** [sfs_truncate]: the loop over the direct blocks ... *)
Fixpoint truncate_direct (n : nat) (i blocklen : Z) (sv : nat) : K unit :=
  match n with
  | O => mret tt
  | S n' =>
      let* v := getv sv in
      let* block := lift (of_option (sfi_direct (sv_i v) !! Z.to_nat i)) in
      let* _ := (if (blocklen <=? i) && negb (block =? 0) then
                   let* _ := sfs_bfree block in
                   updv sv (fun v =>
                     set_inode (with_direct (<[Z.to_nat i := 0]> (sfi_direct (sv_i v))) (sv_i v)) true v)
                 else mret tt) in
      truncate_direct n' (i + 1) blocklen sv
  end.

(** ... and the loop over the indirect block: [hasnonzero], [iddirty], [idbuf]. *)
Fixpoint truncate_indirect (n : nat) (j blocklen baseblock : Z) (hasnonzero iddirty : bool) (idbuf : list Z) :
    K (bool * bool * list Z) :=
  match n with
  | O => mret (hasnonzero, iddirty, idbuf)
  | S n' =>
      let* b := lift (of_option (idbuf !! Z.to_nat j)) in
      if (blocklen <? baseblock + j) && negb (b =? 0) then
        let* _ := sfs_bfree b in
        truncate_indirect n' (j + 1) blocklen baseblock hasnonzero true (<[Z.to_nat j := 0]> idbuf)
      else
        truncate_indirect n' (j + 1) blocklen baseblock (hasnonzero || negb (b =? 0)) iddirty idbuf
  end.

(** The block of the function that deals with the indirect block. *)
Definition truncate_idblock (sv : nat) (idblock blocklen baseblock : Z) : K Z :=
  let* '(result, buf) := dev (sfs_rblock zero_block idblock) in
  if negb (result =? 0) then mret result
  else
    let* '(hasnonzero, iddirty, idbuf) :=
      truncate_indirect 128 0 blocklen baseblock false false (dec_words 128 buf) in
    if negb (hasnonzero : bool) then
      let* _ := sfs_bfree idblock in
      let* _ := updv sv (fun v => set_inode (with_indirect 0 (sv_i v)) true v) in
      mret 0
    else if (iddirty : bool) then dev (sfs_wblock (enc_words idbuf) idblock)
    else mret 0.

Definition sfs_truncate (sv : nat) (len : Z) : K Z :=
  let blocklen := u32 (Z.quot (i32 (len + SFS_BLOCKSIZE - 1)) SFS_BLOCKSIZE) in
  let* _ := truncate_direct 15 0 blocklen sv in
  let* v := getv sv in
  let idblock := sfi_indirect (sv_i v) in
  let baseblock := SFS_NDIRECT in
  let highblock := baseblock + SFS_DBPERIDB - 1 in
  let* result := (if (blocklen <? highblock) && negb (idblock =? 0)
                  then truncate_idblock sv idblock blocklen baseblock else mret 0) in
  if negb (result =? 0) then mret result
  else
    let* _ := updv sv (fun v => set_inode (with_size (u32 len) (sv_i v)) true v) in
    mret 0.

(** [VOP_TRUNCATE] through the function tables. *)
Definition VOP_TRUNCATE (sv : nat) (len : Z) : K Z :=
  let* _ := vnode_check sv false in
  let* v := getv sv in
  match vn_ops v with
  | sfs_fileops => sfs_truncate sv len
  | sfs_dirops => mret EISDIR
  end.

(** The index of [sv] in the table, -1 if it is not there. *)
Fixpoint table_index (n : nat) (i : Z) (sv : nat) : K Z :=
  match n with
  | O => mret (-1)
  | S n' =>
      let* tbl := gets sfs_vnodes in
      let* sv2 := lift (Array.array_getguy tbl i) in
      if decide (sv2 = sv) then mret i else table_index n' (i + 1) sv
  end.

(** The end of [sfs_reclaim]: drop the vnode from the table and free it. *)
Definition drop_vnode (sv : nat) : K Z :=
  let* num := gets (fun s => Array.array_getnum (sfs_vnodes s)) in
  let* ix := table_index (Z.to_nat num) 0 sv in
  if ix <? 0 then panic
  else
    let* tbl := gets sfs_vnodes in
    let* tbl' := lift (Array.array_remove tbl ix) in
    let* _ := modify (set_vnodes tbl') in
    let* _ := vnode_kill sv in
    let* _ := kfree_vnode sv in
    mret 0.

Definition sfs_reclaim (sv : nat) : K Z :=
  let* v := getv sv in
  if negb (vn_refcount v =? 1) then
    let* _ := massert (vn_refcount v >? 1) in
    let* _ := updv sv (fun v => set_counts (vn_refcount v - 1) (vn_opencount v) v) in
    mret EBUSY
  else
    let* result := (if sfi_linkcount (sv_i v) =? 0 then VOP_TRUNCATE sv 0 else mret 0) in
    if negb (result =? 0) then mret result
    else
      let* result := sfs_sync_inode sv in
      if negb (result =? 0) then mret result
      else
        let* v := getv sv in
        let* _ := (if sfi_linkcount (sv_i v) =? 0 then sfs_bfree (sv_ino v) else mret tt) in
        drop_vnode sv.

(** [vnode_decref] and [vnode_decopen] of vnode.c; both function tables share
    [sfs_reclaim] and [sfs_close].  The errors are only printed. *)
Definition vnode_decref (sv : nat) : K unit :=
  let* v := getv sv in
  let* _ := massert (vn_refcount v >? 0) in
  if vn_refcount v >? 1 then updv sv (fun v => set_counts (vn_refcount v - 1) (vn_opencount v) v)
  else
    let* _ := vnode_check sv true in
    let* _ := sfs_reclaim sv in
    mret tt.

Definition vnode_decopen (sv : nat) : K unit :=
  let* v := getv sv in
  let* _ := massert (vn_opencount v >? 0) in
  let* _ := updv sv (fun v => set_counts (vn_refcount v) (vn_opencount v - 1) v) in
  if vn_opencount v - 1 >? 0 then mret tt
  else
    let* _ := vnode_check sv false in
    let* _ := sfs_close sv in
    mret tt.

Definition sfs_namefile (sv : nat) : K Z :=
  let* v := getv sv in
  let* _ := massert (sv_ino v =? SFS_ROOT_LOCATION) in
  mret 0.

(** [f->sv_i.sfi_linkcount += d; f->sv_dirty = 1;] *)
Definition add_links (f : nat) (d : Z) : K unit :=
  updv f (fun v => set_inode (with_links (u16 (sfi_linkcount (sv_i v) + d)) (sv_i v)) true v).

Definition sfs_creat (sv : nat) (name : list Z) (excl : bool) : K (Z + nat) :=
  let? f := sfs_dir_findname sv name in
  if f_found f && excl then mret (inl EEXIST)
  else
    match f_found f, f_ino f with
    | true, Some ino => sfs_loadvnode ino SFS_TYPE_INVAL
    | _, _ =>
        let? newguy := sfs_makeobj SFS_TYPE_FILE in
        let* nv := getv newguy in
        let* r := sfs_dir_link sv name (sv_ino nv) in
        match r with
        | inl e =>
            let* _ := vnode_decref newguy in
            mret (inl e)
        | inr _ =>
            let* _ := add_links newguy 1 in
            mret (inr newguy)
        end
    end.

Definition sfs_link (dir : nat) (name : list Z) (file : nat) : K Z :=
  let* f := getv file in
  let* r := sfs_dir_link dir name (sv_ino f) in
  match r with
  | inl e => mret e
  | inr _ =>
      let* _ := add_links file 1 in
      mret 0
  end.

Definition sfs_remove (dir : nat) (name : list Z) : K Z :=
  let* r := sfs_lookonce dir name in
  match r with
  | inl e => mret e
  | inr (victim, slot) =>
      let* result := sfs_dir_unlink dir slot in
      let* _ := (if result =? 0 then
                   let* v := getv victim in
                   let* _ := massert (sfi_linkcount (sv_i v) >? 0) in
                   add_links victim (-1)
                 else mret tt) in
      let* _ := vnode_decref victim in
      mret result
  end.

(** The tail of [sfs_rename], once the new name [slot2] has been linked. *)
Definition rename_unlink (sv g1 : nat) (slot1 slot2 : Z) : K Z :=
  let* _ := add_links g1 1 in
  let* result := sfs_dir_unlink sv slot1 in
  if result =? 0 then
    let* v := getv g1 in
    let* _ := massert (sfi_linkcount (sv_i v) >? 0) in
    let* _ := add_links g1 (-1) in
    let* _ := vnode_decref g1 in
    mret 0
  else
    let* result2 := sfs_dir_unlink sv slot2 in
    if negb (result2 =? 0) then panic
    else
      let* _ := updv g1 (fun v => set_inode (with_links (u16 (sfi_linkcount (sv_i v) - 1)) (sv_i v)) (sv_dirty v) v) in
      let* _ := vnode_decref g1 in
      mret result.

Definition sfs_rename (d1 : nat) (n1 : list Z) (d2 : nat) (n2 : list Z) : K Z :=
  let* _ := massert (bool_decide (d1 = d2)) in
  let* v := getv d1 in
  let* _ := massert (sv_ino v =? SFS_ROOT_LOCATION) in
  let* r := sfs_lookonce d1 n1 in
  match r with
  | inl e => mret e
  | inr (g1, slot1) =>
      let* g := getv g1 in
      let* _ := massert (sfi_type (sv_i g) =? SFS_TYPE_FILE) in
      let* r := sfs_dir_link d1 n2 (sv_ino g) in
      match r with
      | inl e =>
          let* _ := vnode_decref g1 in
          mret e
      | inr slot2 => rename_unlink d1 g1 slot1 slot2
      end
  end.

Definition sfs_lookparent (sv : nat) (path buf : list Z) (buflen : Z) : K (Z + nat * list Z) :=
  let* v := getv sv in
  if negb (sfi_type (sv_i v) =? SFS_TYPE_DIR) then mret (inl ENOTDIR)
  else
    let* len := lift (Cstring.strlen path) in
    if u32 (len + 1) >? buflen then mret (inl ENAMETOOLONG)
    else
      let* buf := lift (Cstring.strcpy buf path) in
      let* _ := vnode_incref sv in
      mret (inr (sv, buf)).

Definition sfs_lookup (sv : nat) (path : list Z) : K (Z + nat) :=
  let* v := getv sv in
  if negb (sfi_type (sv_i v) =? SFS_TYPE_DIR) then mret (inl ENOTDIR)
  else
    let? final := sfs_lookonce sv path in
    mret (inr final.1).

(** The stubs of the function tables. *)
Definition sfs_notdir : Z := ENOTDIR.
Definition sfs_isdir : Z := EISDIR.
Definition sfs_unimp : Z := EUNIMP.

(** [VOP_OPEN], [VOP_READ] and [VOP_WRITE] dispatch on the table of the vnode. *)
Definition VOP_OPEN (sv : nat) (flags : Z) : K Z :=
  let* _ := vnode_check sv false in
  let* v := getv sv in
  mret (match vn_ops v with sfs_fileops => sfs_open flags | sfs_dirops => sfs_opendir flags end).

Definition VOP_READ (sv : nat) (u : uio) : K (Z * uio) :=
  let* _ := vnode_check sv false in
  let* v := getv sv in
  match vn_ops v with sfs_fileops => sfs_read sv u | sfs_dirops => mret (sfs_isdir, u) end.

Definition VOP_WRITE (sv : nat) (u : uio) : K (Z * uio) :=
  let* _ := vnode_check sv false in
  let* v := getv sv in
  match vn_ops v with sfs_fileops => sfs_write sv u | sfs_dirops => mret (sfs_isdir, u) end.

(** ** The file system (sfs_fs.c) *)

(** [sfs_mapio]: block [j] of the map is transferred to or from its place in
    the bitmap's data. *)
Fixpoint mapio_loop (n : nat) (j : Z) (rw : uio_rw_t) : K Z :=
  match n with
  | O => mret 0
  | S n' =>
      let* fm := gets sfs_freemap in
      let off := Z.to_nat (j * SFS_BLOCKSIZE) in
      let ptr := take 512 (drop off (Bitmap.bitmap_getdata fm)) in
      let* result :=
        match rw with
        | UIO_READ =>
            let* '(result, data) := dev (sfs_rblock ptr (u32 (SFS_MAP_LOCATION + j))) in
            let* _ := modify (fun s => set_freemap
              (Bitmap.mkbitmap (Bitmap.nbits fm) (splice off data (Bitmap.v fm))) (sfs_freemapdirty s) s) in
            mret result
        | UIO_WRITE => dev (sfs_wblock ptr (u32 (SFS_MAP_LOCATION + j)))
        end in
      if negb (result =? 0) then mret result else mapio_loop n' (j + 1) rw
  end.

Definition sfs_mapio (rw : uio_rw_t) : K Z :=
  let* mapsize := gets (fun s => SFS_BITBLOCKS (sp_nblocks (sfs_super s))) in
  mapio_loop (Z.to_nat mapsize) 0 rw.

Fixpoint sync_vnodes (n : nat) (i : Z) : K unit :=
  match n with
  | O => mret tt
  | S n' =>
      let* tbl := gets sfs_vnodes in
      let* sv := lift (Array.array_getguy tbl i) in
      let* _ := VOP_FSYNC sv in
      sync_vnodes n' (i + 1)
  end.

(** The superblock part of [sfs_sync]. *)
Definition sync_super : K Z :=
  let* dirty := gets sfs_superdirty in
  if (dirty : bool) then
    let* sp := gets sfs_super in
    let* result := dev (sfs_wblock (enc_super sp) SFS_SB_LOCATION) in
    if negb (result =? 0) then mret result
    else
      let* _ := modify (set_superdirty false) in
      mret 0
  else mret 0.

Definition sfs_sync : K Z :=
  let* num := gets (fun s => Array.array_getnum (sfs_vnodes s)) in
  let* _ := sync_vnodes (Z.to_nat num) 0 in
  let* dirty := gets sfs_freemapdirty in
  if (dirty : bool) then
    let* result := sfs_mapio UIO_WRITE in
    if negb (result =? 0) then mret result
    else
      let* _ := modify (fun s => set_freemap (sfs_freemap s) false s) in
      sync_super
  else sync_super.

Definition sfs_getvolname (s : sfs_fs) : list Z := sp_volname (sfs_super s).

(** [sfs_unmount]: what is left is the file system on failure, the device alone
    on success. *)
Definition sfs_unmount (s : sfs_fs) : outcome (Z * (sfs_fs + dstate)) :=
  if Array.array_getnum (sfs_vnodes s) >? 0 then Ok (EBUSY, inl s)
  else
    let* _ := oassert (negb (sfs_superdirty s)) in
    let* _ := oassert (negb (sfs_freemapdirty s)) in
    Ok (0, inr (sfs_device s)).

(** [sfs_domount], the free map already created: load it. *)
Definition mount_map (sp : Sfsdisk.sfs_super) (tbl : Array.array nat) (fm : Bitmap.bitmap)
    (m : list bool) : M dstate (Z + sfs_fs) := fun d =>
  match sfs_mapio UIO_READ (mksfs sp false d tbl fm false ∅ 0 m) with
  | Ok (result, s) => if result =? 0 then Ok (inr s, sfs_device s) else Ok (inl result, sfs_device s)
  | Panic => Panic
  | Undef => Undef
  | Spin => Spin
  end.

(** The four allocations are the structure, the (empty) vnode array and the two
    of [bitmap_create]; [m] scripts them and all later ones. *)
Definition sfs_domount (d_blocksize : Z) (m : list bool) : M dstate (Z + sfs_fs) :=
  if negb (d_blocksize =? SFS_BLOCKSIZE) then mret (inl ENXIO)
  else if negb (default true (m !! 0%nat)) then mret (inl ENOMEM)
  else
    match Array.array_create (default true (m !! 1%nat)) with
    | None => mret (inl ENOMEM)
    | Some tbl =>
        let* '(result, buf) := sfs_rblock zero_block SFS_SB_LOCATION in
        if negb (result =? 0) then mret (inl result)
        else
          let sp := dec_super buf in
          if negb (sp_magic sp =? SFS_MAGIC) then mret (inl EINVAL)
          else
            let sp := mksuper (sp_magic sp) (sp_nblocks sp) (<[31%nat := 0]> (sp_volname sp)) (sp_reserved sp) in
            let* ofm := lift (Bitmap.bitmap_create (default true (m !! 2%nat)) (default true (m !! 3%nat))
                                (SFS_BITMAPSIZE (sp_nblocks sp))) in
            match ofm with
            | None => mret (inl ENOMEM)
            | Some fm => mount_map sp tbl fm (drop 4 m)
            end
    end.

End Sfs.
