(* ===== verification/Sfsfile.v ===== *)
(** * SFS: block mapping and file I/O, properties of sfs_vnode.c

    A file's contents are the concatenation of the 143 blocks its inode can
    reach, an unallocated block reading as zeros ([contents]).  [inode_ok] is the
    invariant of an inode: every block it points to is allocated, inside the
    volume and pointed to once.  On a healthy device the theorems show that
    [sfs_bmap] allocates without changing the contents, that reading and writing
    act on the contents as slicing and splicing a list do, and that an operation on
    one file leaves every other allocated block alone ([fstep]). *)
From stdpp Require Import base list gmap numbers.
From S2P Require Import Prelude Array Bitmap Copyinout Uio Lhd Cstring Sfsdisk Sfs.
Local Open Scope Z_scope.

Module Sfsfile.
Import Copyinout Uio Lhd Sfsdisk Sfs.

(** ** The abstract file *)
Definition sec (img : list (list Z)) (b : Z) : list Z := default zero_block (img !! Z.to_nat b).

Definition blk (img : list (list Z)) (b : Z) : list Z := if b =? 0 then zero_block else sec img b.

(** The entries of the indirect block. *)
Definition idx (img : list (list Z)) (ind : Z) : list Z :=
  if ind =? 0 then replicate 128 0 else dec_words 128 (sec img ind).

(** The block pointers of a file, direct and indirect. *)
Definition ptrs (img : list (list Z)) (i : sfs_inode) : list Z := sfi_direct i ++ idx img (sfi_indirect i).

Definition contents (img : list (list Z)) (i : sfs_inode) : list Z := mjoin (blk img <$> ptrs img i).

Definition MAXBLOCKS : Z := 143.
Definition MAXSIZE : Z := 73216.

(** A block that an inode may point to. *)
Definition valid_block (n : Z) (used : Z → Prop) (b : Z) : Prop := 0 < b < n ∧ used b.

Record inode_ok (n : Z) (used : Z → Prop) (img : list (list Z)) (i : sfs_inode) : Prop := {
  io_direct : length (sfi_direct i) = 15%nat;
  io_img : Forall (fun s => length s = 512%nat) img;
  io_n : n ≤ Z.of_nat (length img) ∧ n < 2 ^ 22;
  io_ptrs : ∀ k b, ptrs img i !! k = Some b → b = 0 ∨ valid_block n used b;
  io_ind : sfi_indirect i = 0 ∨ valid_block n used (sfi_indirect i);
  io_inj : ∀ k1 k2 b, ptrs img i !! k1 = Some b → ptrs img i !! k2 = Some b → b ≠ 0 → k1 = k2;
  io_ind_fresh : ∀ k, sfi_indirect i ≠ 0 → ptrs img i !! k ≠ Some (sfi_indirect i)
}.

(** The blocks a file occupies, its inode block aside. *)
Definition owns (img : list (list Z)) (i : sfs_inode) (b : Z) : Prop :=
  b ≠ 0 ∧ (b ∈ ptrs img i ∨ b = sfi_indirect i).

(** ** Lists of blocks *)
Lemma length_zero_block : length zero_block = 512%nat.
Proof. done. Qed.
#[local] Hint Rewrite length_zero_block : len.

Lemma length_sec img b : Forall (fun s => length s = 512%nat) img → length (sec img b) = 512%nat.
Proof.
  intros H. unfold sec. destruct (img !! Z.to_nat b) eqn:E; [|done]. by eapply Forall_lookup_1 in H.
Qed.

Lemma length_blk img b : Forall (fun s => length s = 512%nat) img → length (blk img b) = 512%nat.
Proof. intros. unfold blk. destruct (b =? 0); [done|]. by apply length_sec. Qed.

Lemma length_idx img ind : length (idx img ind) = 128%nat.
Proof. unfold idx. destruct (ind =? 0); len. Qed.

Lemma length_ptrs img i : length (sfi_direct i) = 15%nat → length (ptrs img i) = 143%nat.
Proof. intros. unfold ptrs. rewrite length_app, length_idx. lia. Qed.

Lemma length_join_blocks {A} (bs : list (list A)) n :
  Forall (fun s => length s = n) bs → length (mjoin bs) = (length bs * n)%nat.
Proof.
  induction 1 as [|b bs Hb _ IH]; [done|]. change (mjoin (b :: bs)) with (b ++ mjoin bs).
  rewrite length_app, IH. simpl. lia.
Qed.

Lemma blocks_512 img l : Forall (fun s => length s = 512%nat) img →
  Forall (fun s => length s = 512%nat) (blk img <$> l).
Proof. intros H. apply Forall_fmap, Forall_forall. intros b _. by apply length_blk. Qed.

Lemma length_contents img i :
  Forall (fun s => length s = 512%nat) img → length (sfi_direct i) = 15%nat →
  Z.of_nat (length (contents img i)) = MAXSIZE.
Proof.
  intros H Hd. unfold contents. rewrite (length_join_blocks _ 512) by (by apply blocks_512).
  rewrite length_fmap, length_ptrs by done. done.
Qed.

(** Overwriting part of block [k] overwrites that part of the concatenation. *)
Lemma mjoin_split {A} (bs : list (list A)) k b :
  bs !! k = Some b → mjoin bs = mjoin (take k bs) ++ b ++ mjoin (drop (S k) bs).
Proof.
  intros H. rewrite <- (take_drop_middle bs k b H) at 1. rewrite join_app. done.
Qed.

Lemma splice_app_in {A} (n : nat) (l' l1 l2 : list A) :
  (length l1 ≤ n)%nat → splice n l' (l1 ++ l2) = l1 ++ splice (n - length l1) l' l2.
Proof.
  intros H. unfold splice. rewrite take_app_ge, drop_app_ge by lia. rewrite <- app_assoc. repeat f_equal. lia.
Qed.

Lemma splice_app_left {A} (n : nat) (l' l1 l2 : list A) :
  (n + length l' ≤ length l1)%nat → splice n l' (l1 ++ l2) = splice n l' l1 ++ l2.
Proof.
  intros H. unfold splice. rewrite take_app_le, drop_app_le by lia. by rewrite <- !app_assoc.
Qed.

Lemma mjoin_insert_splice {A} (bs : list (list A)) n k off d b :
  Forall (fun s => length s = n) bs → bs !! k = Some b → (off + length d ≤ n)%nat →
  mjoin (<[k := splice off d b]> bs) = splice (k * n + off) d (mjoin bs).
Proof.
  intros Hn Hk Hd. assert (length b = n) as Hb by (by eapply Forall_lookup_1 in Hn).
  assert (k < length bs)%nat as Hlt by (by eapply lookup_lt_Some).
  rewrite (mjoin_split bs k b Hk).
  rewrite (mjoin_split (<[k := _]> bs) k (splice off d b)) by (by apply list_lookup_insert_eq).
  rewrite take_insert_ge, drop_insert_lt by lia.
  assert (length (mjoin (take k bs)) = (k * n)%nat) as Hl.
  { rewrite (length_join_blocks _ n) by (by apply Forall_take). rewrite length_take. nia. }
  rewrite splice_app_in by lia. rewrite Hl. replace (k * n + off - k * n)%nat with off by lia.
  rewrite splice_app_left by lia. done.
Qed.

Lemma mjoin_slice {A} (bs : list (list A)) n k off len b :
  Forall (fun s => length s = n) bs → bs !! k = Some b → (off + len ≤ n)%nat →
  take len (drop (k * n + off) (mjoin bs)) = take len (drop off b).
Proof.
  intros Hn Hk Hd. assert (length b = n) as Hb by (by eapply Forall_lookup_1 in Hn).
  assert (k < length bs)%nat as Hlt by (by eapply lookup_lt_Some).
  rewrite (mjoin_split bs k b Hk).
  assert (length (mjoin (take k bs)) = (k * n)%nat) as Hl.
  { rewrite (length_join_blocks _ n) by (by apply Forall_take). rewrite length_take. nia. }
  rewrite drop_app_ge by lia. rewrite Hl. replace (k * n + off - k * n)%nat with off by lia.
  rewrite drop_app_le by lia. rewrite take_app_le by len. done.
Qed.

(** ** Writing and allocating blocks, on the image *)
Lemma sec_insert_eq img b d : 0 ≤ b < Z.of_nat (length img) → sec (<[Z.to_nat b := d]> img) b = d.
Proof. intros. unfold sec. by rewrite list_lookup_insert_eq by lia. Qed.

Lemma sec_insert_ne img b c d : 0 ≤ b → 0 ≤ c → b ≠ c → sec (<[Z.to_nat b := d]> img) c = sec img c.
Proof. intros. unfold sec. by rewrite list_lookup_insert_ne by lia. Qed.

Lemma idx_insert_ne img b ind d :
  0 < b → 0 ≤ ind → b ≠ ind → idx (<[Z.to_nat b := d]> img) ind = idx img ind.
Proof. intros. unfold idx. destruct (ind =? 0); [done|]. by rewrite sec_insert_ne by lia. Qed.

Lemma blk_insert_ne img b c d : 0 < b → 0 ≤ c → b ≠ c → blk (<[Z.to_nat b := d]> img) c = blk img c.
Proof. intros. unfold blk. destruct (c =? 0); [done|]. by rewrite sec_insert_ne by lia. Qed.

Lemma valid_mono n (used used' : Z → Prop) b :
  (∀ c, used c → used' c) → valid_block n used b → valid_block n used' b.
Proof. intros H [? ?]. split; auto. Qed.

Section image.
Context (n : Z) (used : Z → Prop) (img : list (list Z)) (i : sfs_inode).
Hypothesis Hok : inode_ok n used img i.

Lemma ptr_nonneg k b : ptrs img i !! k = Some b → 0 ≤ b.
Proof. intros H. destruct (io_ptrs _ _ _ _ Hok k b H) as [->|[? _]]; lia. Qed.

Lemma ind_nonneg : 0 ≤ sfi_indirect i.
Proof. destruct (io_ind _ _ _ _ Hok) as [->|[? _]]; lia. Qed.

Lemma image_len : n ≤ Z.of_nat (length img).
Proof. apply (io_n _ _ _ _ Hok). Qed.

(** Writing block [b] of the file, which is block [k] of its contents. *)
Lemma write_block_ptrs k b d :
  ptrs img i !! k = Some b → b ≠ 0 → ptrs (<[Z.to_nat b := d]> img) i = ptrs img i.
Proof.
  intros Hk Hb. unfold ptrs. f_equal. pose proof (ptr_nonneg _ _ Hk). pose proof ind_nonneg.
  destruct (decide (sfi_indirect i = 0)) as [->|Hne]; [done|].
  apply idx_insert_ne; [lia|lia|]. intros ->. by apply (io_ind_fresh _ _ _ _ Hok k Hne).
Qed.

Lemma write_block_ok k b d :
  ptrs img i !! k = Some b → b ≠ 0 → length d = 512%nat → inode_ok n used (<[Z.to_nat b := d]> img) i.
Proof.
  intros Hk Hb Hd. pose proof (write_block_ptrs k b d Hk Hb) as E. destruct Hok as [H1 H2 H3 H4 H5 H6 H7].
  constructor; rewrite ?E, ?length_insert; try done. by apply Forall_insert.
Qed.

Lemma write_block_contents k b d off :
  ptrs img i !! k = Some b → b ≠ 0 → (off + length d ≤ 512)%nat →
  contents (<[Z.to_nat b := splice off d (sec img b)]> img) i = splice (k * 512 + off) d (contents img i).
Proof.
  intros Hk Hb Hd. unfold contents. rewrite (write_block_ptrs k b _ Hk Hb).
  assert (0 < b < n) as Hb2 by (destruct (io_ptrs _ _ _ _ Hok k b Hk) as [|[? _]]; [done|lia]).
  pose proof image_len.
  rewrite <- (mjoin_insert_splice _ 512 k off d (blk img b)).
  - f_equal. apply list_eq. intros j. destruct (decide (j = k)) as [->|Hj].
    + rewrite list_lookup_insert_eq by (rewrite length_fmap; by eapply lookup_lt_Some).
      rewrite list_lookup_fmap, Hk. simpl. f_equal. unfold blk. rewrite (proj2 (Z.eqb_neq b 0)) by done.
      by rewrite sec_insert_eq by lia.
    + rewrite list_lookup_insert_ne by done. rewrite !list_lookup_fmap.
      destruct (ptrs img i !! j) as [c|] eqn:Hc; [|done]. simpl. f_equal.
      destruct (decide (c = 0)) as [->|]; [done|]. pose proof (ptr_nonneg _ _ Hc).
      apply blk_insert_ne; [lia|lia|]. intros <-. destruct Hj. by eapply (io_inj _ _ _ _ Hok).
  - apply blocks_512, Hok.
  - by rewrite list_lookup_fmap, Hk.
  - done.
Qed.

(** A fresh block, cleared. *)
Context (b : Z) (Hfresh : ¬ used b) (Hb : 0 < b < n).
Let img1 := <[Z.to_nat b := zero_block]> img.
Let used1 (c : Z) : Prop := c = b ∨ used c.

Lemma fresh_ptr k c : ptrs img i !! k = Some c → c ≠ b.
Proof. intros H ->. destruct (io_ptrs _ _ _ _ Hok k b H) as [|[_ ?]]; [lia|done]. Qed.

Lemma fresh_ind : sfi_indirect i ≠ b.
Proof. intros E. destruct (io_ind _ _ _ _ Hok) as [|[_ H]]; [lia|]. by rewrite E in H. Qed.

Lemma fresh_idx : idx img1 (sfi_indirect i) = idx img (sfi_indirect i).
Proof. apply idx_insert_ne; [lia|apply ind_nonneg|]. apply not_eq_sym, fresh_ind. Qed.

Lemma fresh_ptrs : ptrs img1 i = ptrs img i.
Proof. unfold ptrs. by rewrite fresh_idx. Qed.

Lemma fresh_blocks (l : list Z) : (∀ k c, l !! k = Some c → 0 ≤ c ∧ c ≠ b) → blk img1 <$> l = blk img <$> l.
Proof.
  intros H. apply list_eq. intros k. rewrite !list_lookup_fmap. destruct (l !! k) as [c|] eqn:E; [|done].
  simpl. f_equal. destruct (H _ _ E). apply blk_insert_ne; lia.
Qed.

Lemma fresh_blk : blk img1 b = zero_block.
Proof. unfold blk. rewrite (proj2 (Z.eqb_neq b 0)) by lia. pose proof image_len. unfold img1. by rewrite sec_insert_eq by lia. Qed.

Lemma img1_512 : Forall (fun s => length s = 512%nat) img1.
Proof. apply Forall_insert; [apply Hok|done]. Qed.

(** Storing the fresh block in an empty slot [k] keeps the contents: the slot read as
    zeros and still does. *)
Lemma alloc_slot_contents k i' img' :
  ptrs img i !! k = Some 0 → ptrs img' i' = <[k := b]> (ptrs img i) →
  (∀ c, blk img' c = blk img1 c ∨ c = sfi_indirect i ∧ c ≠ 0) →
  contents img' i' = contents img i.
Proof.
  intros Hk Hp Hi. unfold contents. f_equal. rewrite Hp. apply list_eq. intros j. rewrite !list_lookup_fmap.
  destruct (decide (j = k)) as [->|Hj].
  - rewrite list_lookup_insert_eq by (by eapply lookup_lt_Some). rewrite Hk. simpl. f_equal.
    destruct (Hi b) as [-> |[E _]]; [apply fresh_blk|]. by destruct fresh_ind.
  - rewrite list_lookup_insert_ne by done. destruct (ptrs img i !! j) as [c|] eqn:Hc; [|done]. simpl. f_equal.
    destruct (Hi c) as [-> |[-> Hne]].
    + apply blk_insert_ne; [lia|by eapply ptr_nonneg|]. apply not_eq_sym. by eapply fresh_ptr.
    + by destruct (io_ind_fresh _ _ _ _ Hok j Hne).
Qed.

Lemma alloc_slot_ok k i' img' :
  ptrs img i !! k = Some 0 → ptrs img' i' = <[k := b]> (ptrs img i) →
  length (sfi_direct i') = 15%nat → sfi_indirect i' = sfi_indirect i →
  Forall (fun s => length s = 512%nat) img' → length img' = length img →
  inode_ok n used1 img' i'.
Proof.
  intros Hk Hp Hd Hind Himg Hlen. constructor; rewrite ?Hp, ?Hind, ?Hlen; try done.
  - apply Hok.
  - intros j c Hj. apply list_lookup_insert_Some in Hj as [(-> & <- & _)|(Hne & Hj)].
    + right. split; [lia|by left].
    + destruct (io_ptrs _ _ _ _ Hok _ _ Hj) as [|Hv]; [by left|right]. eapply valid_mono; [|done]. by right.
  - destruct (io_ind _ _ _ _ Hok) as [|Hv]; [by left|right]. eapply valid_mono; [|done]. by right.
  - intros j1 j2 c H1 H2 Hc.
    apply list_lookup_insert_Some in H1 as [(-> & <- & _)|(Hne1 & H1)];
    apply list_lookup_insert_Some in H2 as [(-> & E & _)|(Hne2 & H2)]; try done.
    + by destruct (fresh_ptr _ _ H2).
    + subst c. by destruct (fresh_ptr _ _ H1).
    + by eapply (io_inj _ _ _ _ Hok).
  - intros j Hne Hj. apply list_lookup_insert_Some in Hj as [(_ & E & _)|(_ & Hj)].
    + by destruct fresh_ind.
    + by apply (io_ind_fresh _ _ _ _ Hok j).
Qed.

(** A direct slot. *)
Lemma alloc_direct k :
  (k < 15)%nat → ptrs img i !! k = Some 0 →
  let i' := with_direct (<[k := b]> (sfi_direct i)) i in
  ptrs img1 i' = <[k := b]> (ptrs img i) ∧ inode_ok n used1 img1 i' ∧ contents img1 i' = contents img i.
Proof.
  intros Hk H0 i'. assert (ptrs img1 i' = <[k := b]> (ptrs img i)) as Hp.
  { unfold ptrs. cbn. rewrite fresh_idx. rewrite insert_app_l by (rewrite (io_direct _ _ _ _ Hok); lia). done. }
  split_and!; [done| |].
  - eapply alloc_slot_ok; try done; [cbn; rewrite length_insert; apply Hok|apply img1_512|apply length_insert].
  - eapply alloc_slot_contents; try done. by left.
Qed.

(** A fresh indirect block: all its entries are 0. *)
Lemma alloc_indirect :
  sfi_indirect i = 0 →
  let i' := with_indirect b i in
  ptrs img1 i' = ptrs img i ∧ inode_ok n used1 img1 i' ∧ contents img1 i' = contents img i ∧
  idx img1 b = replicate 128 0.
Proof.
  intros H0 i'. assert (idx img1 b = replicate 128 0) as Hi.
  { unfold idx. rewrite (proj2 (Z.eqb_neq b 0)) by lia. pose proof image_len. unfold img1. rewrite sec_insert_eq by lia.
    by apply dec_words_zeros. }
  assert (ptrs img1 i' = ptrs img i) as Hp.
  { unfold ptrs. cbn [i' with_indirect sfi_direct sfi_indirect]. rewrite Hi, H0. done. }
  split_and!; try done.
  - destruct Hok as [H1 H2 H3 H4 H5 H6 H7]. constructor; rewrite ?Hp; try done.
    + apply img1_512.
    + unfold img1. by rewrite length_insert.
    + intros k c Hc. destruct (H4 _ _ Hc) as [|Hv]; [by left|right]. eapply valid_mono; [|done]. by right.
    + right. split; [done|by left].
    + intros k _ Hc. by destruct (fresh_ptr _ _ Hc).
  - unfold contents. rewrite Hp, fresh_blocks; [done|]. intros k c Hc.
    split; [by eapply ptr_nonneg|by eapply fresh_ptr].
Qed.

(** An entry of the indirect block, which is written back. *)
Lemma alloc_entry k :
  sfi_indirect i ≠ 0 → (k < 128)%nat → ptrs img i !! (15 + k)%nat = Some 0 →
  let img' := <[Z.to_nat (sfi_indirect i) := enc_words (<[k := b]> (idx img (sfi_indirect i)))]> img1 in
  ptrs img' i = <[(15 + k)%nat := b]> (ptrs img i) ∧ inode_ok n used1 img' i ∧ contents img' i = contents img i.
Proof.
  intros Hind Hk H0 img'. pose proof ind_nonneg. pose proof image_len. pose proof (io_n _ _ _ _ Hok) as [_ Hn].
  assert (sfi_indirect i < n) by (destruct (io_ind _ _ _ _ Hok) as [|[? _]]; [done|lia]).
  assert (Forall u32_val (<[k := b]> (idx img (sfi_indirect i)))) as Hu.
  { apply Forall_insert; [|unfold u32_val; lia]. apply Forall_lookup. intros j c Hj.
    destruct (io_ptrs _ _ _ _ Hok (15 + j)%nat c) as [->|[? _]]; [|done|unfold u32_val; lia].
    unfold ptrs. rewrite lookup_app_r by (rewrite (io_direct _ _ _ _ Hok); lia).
    rewrite (io_direct _ _ _ _ Hok). by replace (15 + j - 15)%nat with j by lia. }
  assert (idx img' (sfi_indirect i) = <[k := b]> (idx img (sfi_indirect i))) as Hi.
  { unfold idx at 1. rewrite (proj2 (Z.eqb_neq _ 0)) by done. unfold img'.
    rewrite sec_insert_eq by (unfold img1; rewrite length_insert; lia).
    apply dec_enc_words_all; [done|]. by rewrite length_insert, length_idx. }
  assert (ptrs img' i = <[(15 + k)%nat := b]> (ptrs img i)) as Hp.
  { unfold ptrs. rewrite Hi. rewrite insert_app_r_alt by (rewrite (io_direct _ _ _ _ Hok); lia).
    rewrite (io_direct _ _ _ _ Hok). by replace (15 + k - 15)%nat with k by lia. }
  split_and!; [done| |].
  - eapply alloc_slot_ok; try done; [apply Hok| |].
    + apply Forall_insert; [apply img1_512|]. rewrite length_enc_words, length_insert, length_idx. done.
    + unfold img', img1. by rewrite !length_insert.
  - eapply alloc_slot_contents; try done. intros c.
    destruct (decide (c = sfi_indirect i)) as [->|Hne]; [by right|left].
    unfold blk. destruct (c =? 0) eqn:Ec; [done|]. unfold sec, img'.
    destruct (decide (Z.to_nat c = Z.to_nat (sfi_indirect i))) as [E|]; [|by rewrite list_lookup_insert_ne].
    exfalso. lia.
Qed.
End image.

Lemma inode_ok_mono n (used used' : Z → Prop) img i :
  (∀ c, 0 < c < n → used c → used' c) → inode_ok n used img i → inode_ok n used' img i.
Proof.
  intros H [H1 H2 H3 H4 H5 H6 H7]. constructor; try done.
  - intros k b Hk. destruct (H4 _ _ Hk) as [|[? ?]]; [by left|right]. split; [done|]. by apply H.
  - destruct H5 as [|[? ?]]; [by left|right]. split; [done|]. by apply H.
Qed.

(** ** File-system invariant and frame *)
Definition img (s : sfs_fs) : list (list Z) := image (sfs_device s).
Definition used (s : sfs_fs) (b : Z) : Prop := Bitmap.marked (sfs_freemap s) b = true.
Definition nblocks (s : sfs_fs) : Z := sp_nblocks (sfs_super s).

(** A mounted volume on a healthy device: the map covers the volume, everything
    beyond it and the superblock are marked in use (as mksfs leaves them). *)
Record fs_wf (s : sfs_fs) : Prop := {
  fw_dev : dev_wf (sfs_device s);
  fw_healthy : faults (sfs_device s) = [];
  fw_map : Bitmap.bitmap_wf (sfs_freemap s);
  fw_nblocks : 0 < nblocks s ≤ Z.of_nat (length (img s));
  fw_nbits : nblocks s ≤ Bitmap.nbits (sfs_freemap s);
  fw_over : ∀ b, nblocks s ≤ b < Bitmap.nbits (sfs_freemap s) → used s b;
  fw_zero : used s 0
}.

(** No block of the volume is free. *)
Definition full (s : sfs_fs) : Prop := ∀ b, 0 ≤ b < nblocks s → used s b.

(** The parts of the state that block operations leave alone. *)
Record same_rest (s s' : sfs_fs) : Prop := {
  sr_super : sfs_super s' = sfs_super s;
  sr_superdirty : sfs_superdirty s' = sfs_superdirty s;
  sr_vnodes : sfs_vnodes s' = sfs_vnodes s;
  sr_next : heap_next s' = heap_next s;
  sr_mem : mem s' = mem s;
  sr_us : us (sfs_device s') = us (sfs_device s)
}.

#[global] Instance same_rest_refl : Reflexive same_rest.
Proof. by intros s. Qed.
#[global] Instance same_rest_trans : Transitive same_rest.
Proof. intros s1 s2 s3 [] []. constructor; congruence. Qed.

(** A file in memory. *)
Record fileinv (s : sfs_fs) (sv : nat) (v : sfs_vnode) : Prop := {
  fi_fs : fs_wf s;
  fi_v : heap s !! sv = Some v;
  fi_ok : inode_ok (nblocks s) (used s) (img s) (sv_i v)
}.

(** What survives an operation on file [sv]: everything about the other
    vnodes, every allocated block the file does not own, all of the vnode but its
    block pointers, size and dirty flag; new blocks of the file were free before. *)
Record fstep (sv : nat) (s s' : sfs_fs) (v v' : sfs_vnode) : Prop := {
  fs_rest : same_rest s s';
  fs_heap : heap s' = <[sv := v']> (heap s);
  fs_vnode : vn_ops v' = vn_ops v ∧ vn_refcount v' = vn_refcount v ∧ vn_opencount v' = vn_opencount v ∧
    sv_ino v' = sv_ino v ∧ sfi_type (sv_i v') = sfi_type (sv_i v) ∧
    sfi_linkcount (sv_i v') = sfi_linkcount (sv_i v) ∧ sfi_waste (sv_i v') = sfi_waste (sv_i v);
  fs_used : ∀ b, 0 ≤ b → used s b → used s' b;
  fs_frame : ∀ b, 0 ≤ b → used s b → ¬ owns (img s) (sv_i v) b → img s' !! Z.to_nat b = img s !! Z.to_nat b;
  fs_owns : ∀ b, owns (img s') (sv_i v') b → owns (img s) (sv_i v) b ∨ ¬ used s b
}.

Lemma fstep_refl sv s v : heap s !! sv = Some v → fstep sv s s v v.
Proof. intros H. constructor; try done; [by rewrite insert_id|]. by left. Qed.

Lemma fstep_trans sv s1 s2 s3 v1 v2 v3 :
  (∀ b, owns (img s2) (sv_i v2) b → 0 ≤ b) →
  fstep sv s1 s2 v1 v2 → fstep sv s2 s3 v2 v3 → (∀ b, owns (img s3) (sv_i v3) b → 0 ≤ b) →
  fstep sv s1 s3 v1 v3.
Proof.
  intros Hpos [A1 A2 A3 A4 A5 A6] [B1 B2 B3 B4 B5 B6] Hpos3. constructor.
  - by etrans.
  - by rewrite B2, A2, insert_insert_eq.
  - naive_solver congruence.
  - auto.
  - intros b Hb Hu Ho. rewrite B5, A5; auto. intros Ho2. destruct (A6 _ Ho2); auto.
  - intros b Ho3. destruct (B6 _ Ho3) as [Ho2|Hnu]; [by apply A6|]. right. intros Hu. apply Hnu, A4; auto.
Qed.

Lemma owns_nonneg n us' im i b : inode_ok n us' im i → owns im i b → 0 ≤ b.
Proof.
  intros Hok [_ [H| ->]].
  - apply list_elem_of_lookup in H as [k H]. by eapply ptr_nonneg.
  - by eapply ind_nonneg.
Qed.

Lemma fstep_trans' sv s1 s2 s3 v1 v2 v3 :
  fileinv s2 sv v2 → fileinv s3 sv v3 → fstep sv s1 s2 v1 v2 → fstep sv s2 s3 v2 v3 → fstep sv s1 s3 v1 v3.
Proof.
  intros H2 H3 ? ?. eapply fstep_trans; try done; intros b; eapply owns_nonneg; [apply H2|apply H3].
Qed.

(** ** Running the primitive operations *)
Lemma dev_run {A} (m : M dstate A) s a d :
  m (sfs_device s) = Ok (a, d) → dev m s = Ok (a, set_device d s).
Proof. intros E. unfold dev, zoom. by rewrite E. Qed.

Lemma getv_run sv v s : heap s !! sv = Some v → getv sv s = Ok (v, s).
Proof. intros E. unfold getv. by rewrite E. Qed.

Lemma updv_run sv f v s :
  heap s !! sv = Some v → updv sv f s = Ok (tt, set_heap (<[sv := f v]> (heap s)) (heap_next s) s).
Proof. intros E. unfold updv. by rewrite (bind_ok _ _ _ _ _ (getv_run _ _ _ E)). Qed.

Lemma lift_run {A} (o : outcome A) a (s : sfs_fs) : o = Ok a → lift o s = Ok (a, s).
Proof. by intros ->. Qed.

(** Replacing the device by one that has served requests. *)
Lemma fs_wf_device s d im :
  fs_wf s → dev_wf d → image d = im → faults d = [] → length im = length (img s) → fs_wf (set_device d s).
Proof.
  intros [H1 H2 H3 H4 H5 H6 H7] Hd Him Hf Hl. constructor; try done. unfold img, set_device, nblocks in *. cbn in *.
  rewrite Him, Hl. done.
Qed.

Lemma fileinv_nblocks s sv v : fileinv s sv v → nblocks s ≤ Z.of_nat (length (img s)) ∧ nblocks s < 2 ^ 22.
Proof. intros [_ _ H]. apply (io_n _ _ _ _ H). Qed.

Lemma rblock_run s b :
  fs_wf s → 0 ≤ b < nblocks s →
  ∃ d, dev (sfs_rblock zero_block b) s = Ok ((0, sec (img s) b), set_device d s) ∧
    fs_wf (set_device d s) ∧ image d = img s ∧ us d = us (sfs_device s).
Proof.
  intros Hw Hb. pose proof Hw as [H1 H2 H3 H4 H5 H6 H7].
  destruct (lookup_lt_is_Some_2 (img s) (Z.to_nat b)) as [se Hs]; [lia|].
  destruct (rblock_ok (sfs_device s) zero_block b se [] []) as (d & E & D1 & D2 & D3 & D4); try done; [lia|cbn; lia|].
  exists d. rewrite (dev_run _ _ _ _ E). unfold sec. rewrite Hs. cbn. split_and!; try done.
  by eapply fs_wf_device; try done.
Qed.

Lemma wblock_run s b data :
  fs_wf s → 0 ≤ b < nblocks s → length data = 512%nat →
  ∃ d, dev (sfs_wblock data b) s = Ok (0, set_device d s) ∧
    fs_wf (set_device d s) ∧ image d = <[Z.to_nat b := data]> (img s) ∧ us d = us (sfs_device s).
Proof.
  intros Hw Hb Hl. pose proof Hw as [H1 H2 H3 H4 H5 H6 H7].
  destruct (wblock_ok (sfs_device s) data b) as (d & E & [D1 D2 D3 D4]); try done.
  { unfold dd_totsectors. unfold img, image in H4. lia. }
  { by rewrite H2. }
  exists d. rewrite (dev_run _ _ _ _ E). split_and!; try done.
  eapply fs_wf_device; try done; [by rewrite D3, H2|by rewrite length_insert].
Qed.

Lemma bused_run s b : fs_wf s → 0 ≤ b < nblocks s → used s b → sfs_bused b s = Ok (true, s).
Proof.
  intros Hw Hb Hu. unfold sfs_bused. erewrite bind_ok; [|reflexivity].
  change (sp_nblocks (sfs_super s)) with (nblocks s). rewrite (proj2 (Z.leb_gt _ _)) by lia.
  pose proof (fw_nbits _ Hw).
  destruct (Bitmap.bitmap_isset_marked (sfs_freemap s) b (fw_map _ Hw)) as (r & E & Hr); [lia|].
  erewrite bind_ok; [|reflexivity]. erewrite bind_ok; [|by apply lift_run]. rewrite Hr, Hu. done.
Qed.

(** The state after a fresh block [b] has been allocated and cleared. *)
Record allocated (s s' : sfs_fs) (b : Z) : Prop := {
  al_fs : fs_wf s';
  al_rest : same_rest s s';
  al_heap : heap s' = heap s;
  al_b : 0 < b < nblocks s;
  al_fresh : ¬ used s b;
  al_used : ∀ c, 0 ≤ c → used s' c ↔ c = b ∨ used s c;
  al_img : img s' = <[Z.to_nat b := zero_block]> (img s);
  al_dirty : sfs_freemapdirty s' = true
}.

Lemma balloc_run s :
  fs_wf s →
  (sfs_balloc s = Ok (inl ENOSPC, s) ∧ full s) ∨
  ∃ b s', sfs_balloc s = Ok (inr b, s') ∧ allocated s s' b.
Proof.
  intros Hw. pose proof Hw as [H1 H2 H3 H4 H5 H6 H7]. unfold sfs_balloc.
  erewrite bind_ok; [|reflexivity]. pose proof (Bitmap.bitmap_alloc_first_fit (sfs_freemap s) H3) as Ha.
  destruct (Bitmap.bitmap_alloc (sfs_freemap s)) as [[e|[b fm']]| | |] eqn:E; try done.
  - destruct Ha as [-> Hall]. left. split; [done|]. intros b Hb. apply Hall. lia.
  - destruct Ha as (Hb & Hfree & _ & Hwf' & Hn' & Hm'). right. exists b.
    assert (¬ used s b) as Hnu by (unfold used; by rewrite Hfree).
    assert (b < nblocks s) as Hbn by (destruct (decide (b < nblocks s)); [done|]; destruct Hnu; apply H6; lia).
    assert (b ≠ 0) as Hb0 by (intros ->; done).
    set (s1 := set_freemap fm' true s).
    assert (∀ c, 0 ≤ c → used s1 c ↔ c = b ∨ used s c) as Hus.
    { intros c Hc. unfold used, s1. cbn. rewrite Hm' by done. case_decide; naive_solver. }
    assert (fs_wf s1) as Hw1.
    { constructor; try done; cbn; rewrite ?Hn'; try done.
      - intros c Hc. apply Hus; [change (nblocks s1) with (nblocks s) in Hc; lia|]. right. by apply H6.
      - apply Hus; [lia|]. by right. }
    erewrite bind_ok; [|reflexivity]. cbv beta iota. erewrite bind_ok; [|reflexivity].
    erewrite bind_ok; [|reflexivity]. fold s1.
    change (sp_nblocks (sfs_super s1)) with (nblocks s). rewrite (proj2 (Z.leb_gt _ _)) by lia.
    destruct (wblock_run s1 b zero_block Hw1) as (d & Ed & Hwd & Him & Hu); [change (nblocks s1) with (nblocks s); lia|done|].
    exists (set_device d s1). unfold sfs_clearblock. rewrite (bind_ok _ _ _ _ _ Ed). split; [done|].
    constructor; try done.
    + lia.
Qed.

(** ** Block mapping *)
Definition same_meta (v v' : sfs_vnode) : Prop :=
  vn_ops v' = vn_ops v ∧ vn_refcount v' = vn_refcount v ∧ vn_opencount v' = vn_opencount v ∧
  sv_ino v' = sv_ino v ∧ sfi_type (sv_i v') = sfi_type (sv_i v) ∧
  sfi_linkcount (sv_i v') = sfi_linkcount (sv_i v) ∧ sfi_waste (sv_i v') = sfi_waste (sv_i v).

(** A step that allocated [b] and changed nothing but [b], the vnode [sv] and
    blocks the file owned. *)
Lemma alloc_fstep s s1 s2 b sv v v' :
  allocated s s1 b → fs_wf s2 → same_rest s1 s2 → sfs_freemap s2 = sfs_freemap s1 →
  heap s !! sv = Some v → heap s2 = <[sv := v']> (heap s) → same_meta v v' →
  (∀ c, 0 ≤ c → c ≠ b → ¬ owns (img s) (sv_i v) c → img s2 !! Z.to_nat c = img s !! Z.to_nat c) →
  (∀ c, owns (img s2) (sv_i v') c → c = b ∨ owns (img s) (sv_i v) c) →
  inode_ok (nblocks s) (fun c => c = b ∨ used s c) (img s2) (sv_i v') →
  fileinv s2 sv v' ∧ fstep sv s s2 v v'.
Proof.
  intros Ha Hw Hr Hf Hv Hh Hm Hfr Ho Hok. pose proof Ha as [A1 A2 A3 A4 A5 A6 A7].
  assert (∀ c, used s2 c ↔ used s1 c) as Hu by (intros c; unfold used; by rewrite Hf).
  assert (nblocks s2 = nblocks s) as Hn.
  { unfold nblocks. by rewrite (sr_super _ _ Hr), (sr_super _ _ A2). }
  split.
  - constructor; [done|by rewrite Hh, lookup_insert_eq|]. rewrite Hn. eapply inode_ok_mono; [|done].
    intros c Hc Hc2. apply Hu, A6; [lia|done].
  - constructor; [by etrans|done|done| | |].
    + intros c Hc Hc2. apply Hu, A6; [done|]. by right.
    + intros c Hc Hc2 Hno. apply Hfr; try done. congruence.
    + intros c Hc. destruct (Ho _ Hc) as [->|]; [by right|by left].
Qed.

Lemma bmap_return_run s sv v k b :
  fileinv s sv v → ptrs (img s) (sv_i v) !! k = Some b → bmap_return b s = Ok (inr b, s).
Proof.
  intros [Hw Hv Hok] Hk. unfold bmap_return. destruct (Z.eqb_spec b 0) as [->|Hb]; [done|].
  destruct (io_ptrs _ _ _ _ Hok k b Hk) as [|[Hb2 Hu]]; [done|].
  rewrite (bind_ok _ _ _ _ _ (bused_run s b Hw ltac:(lia) Hu)). done.
Qed.

(** The specification of [sfs_bmap]. *)
Definition bmap_post (s : sfs_fs) (sv : nat) (v : sfs_vnode) (fb : Z) (doalloc : bool)
    (r : Z + Z) (s' : sfs_fs) : Prop :=
  ∃ v', fileinv s' sv v' ∧ fstep sv s s' v v' ∧ sfi_size (sv_i v') = sfi_size (sv_i v) ∧
    contents (img s') (sv_i v') = contents (img s) (sv_i v) ∧
    (doalloc = false → v' = v ∧ img s' = img s) ∧
    match r with
    | inl e => MAXBLOCKS ≤ fb ∧ e = EINVAL ∨ fb < MAXBLOCKS ∧ e = ENOSPC ∧ doalloc = true ∧ full s'
    | inr b => fb < MAXBLOCKS ∧ ptrs (img s') (sv_i v') !! Z.to_nat fb = Some b ∧ (doalloc = true → b ≠ 0)
    end.

Lemma bmap_post_refl s sv v fb doalloc r :
  fileinv s sv v →
  match r with
  | inl e => MAXBLOCKS ≤ fb ∧ e = EINVAL ∨ fb < MAXBLOCKS ∧ e = ENOSPC ∧ doalloc = true ∧ full s
  | inr b => fb < MAXBLOCKS ∧ ptrs (img s) (sv_i v) !! Z.to_nat fb = Some b ∧ (doalloc = true → b ≠ 0)
  end → bmap_post s sv v fb doalloc r s.
Proof. intros H Hr. exists v. split_and!; try done. by apply fstep_refl, H. Qed.

Lemma owns_ptrs im i i' im' b k :
  ptrs im' i' = <[k := b]> (ptrs im i) → sfi_indirect i' = sfi_indirect i →
  ∀ c, owns im' i' c → c = b ∨ owns im i c.
Proof.
  intros Hp Hi c [Hc [Hin| ->]].
  - rewrite Hp in Hin. apply list_elem_of_lookup in Hin as [j Hj].
    apply list_lookup_insert_Some in Hj as [(_ & E & _)|(_ & Hj)]; [by left|].
    right. split; [done|]. left. by eapply list_elem_of_lookup_2.
  - right. rewrite Hi in *. split; [done|]. by right.
Qed.

Lemma bmap_direct_spec s sv v fb doalloc :
  fileinv s sv v → 0 ≤ fb < SFS_NDIRECT →
  ∃ r s', bmap_direct sv fb doalloc s = Ok (r, s') ∧ bmap_post s sv v fb doalloc r s'.
Proof.
  unfold SFS_NDIRECT. intros Hf Hfb. pose proof Hf as [Hw Hv Hok]. unfold bmap_direct.
  destruct (lookup_lt_is_Some_2 (sfi_direct (sv_i v)) (Z.to_nat fb)) as [b Hb];
    [rewrite (io_direct _ _ _ _ Hok); lia|].
  assert (ptrs (img s) (sv_i v) !! Z.to_nat fb = Some b) as Hp by (by apply lookup_app_l_Some).
  rewrite (bind_ok _ _ _ _ _ (getv_run _ _ _ Hv)). erewrite bind_ok; [|by apply lift_run; rewrite Hb].
  destruct ((b =? 0) && doalloc) eqn:Ec.
  - apply andb_prop in Ec as [Eb ->]. apply Z.eqb_eq in Eb as ->.
    destruct (balloc_run s Hw) as [[E Hfull]|(b & s1 & E & Ha)]; rewrite (bind_ok _ _ _ _ _ E).
    { eexists _, _. split; [reflexivity|]. apply bmap_post_refl; [done|]. right. unfold MAXBLOCKS. split_and!; (lia || done). }
    destruct (alloc_direct _ _ _ _ Hok b (al_fresh _ _ _ Ha) (al_b _ _ _ Ha) (Z.to_nat fb)) as (Hp' & Hok' & Hc'); [lia|done|].
    set (v' := set_inode (with_direct (<[Z.to_nat fb := b]> (sfi_direct (sv_i v))) (sv_i v)) true v).
    assert (heap s1 !! sv = Some v) as Hv1 by (by rewrite (al_heap _ _ _ Ha)).
    rewrite (bind_ok _ _ _ _ _ (updv_run _ _ _ _ Hv1)). fold v'.
    set (s2 := set_heap (<[sv := v']> (heap s1)) (heap_next s1) s1).
    rewrite <- (al_img _ _ _ Ha) in Hp', Hok', Hc'. change (img s1) with (img s2) in Hp', Hok', Hc'.
    destruct (alloc_fstep s s1 s2 b sv v v') as [Hf2 Hst]; try done.
    { destruct (al_fs _ _ _ Ha) as [H1 H2 H3 H4 H5 H6 H7]. by constructor. }
    { cbn. by rewrite (al_heap _ _ _ Ha). }
    { intros c Hc Hne _. change (img s2) with (img s1). rewrite (al_img _ _ _ Ha).
      pose proof (al_b _ _ _ Ha). by rewrite list_lookup_insert_ne by lia. }
    { by eapply owns_ptrs. }
    assert (ptrs (img s2) (sv_i v') !! Z.to_nat fb = Some b) as Hpb.
    { etrans; [exact (f_equal (.!! Z.to_nat fb) Hp')|]. apply list_lookup_insert_eq. by eapply lookup_lt_Some. }
    exists (inr b), s2. split; [by eapply bmap_return_run|]. exists v'. split_and!; try done; [unfold MAXBLOCKS; lia|].
    pose proof (al_b _ _ _ Ha). lia.
  - exists (inr b), s. split; [by eapply bmap_return_run|]. apply bmap_post_refl; [done|].
    unfold MAXBLOCKS. split_and!; [lia|done|]. intros ->. rewrite andb_true_r in Ec. by apply Z.eqb_neq in Ec.
Qed.

Lemma ptrs_indirect im i k : length (sfi_direct i) = 15%nat → ptrs im i !! (15 + k)%nat = idx im (sfi_indirect i) !! k.
Proof. intros H. unfold ptrs. rewrite lookup_app_r by lia. rewrite H. f_equal. lia. Qed.

Lemma bmap_entry_spec s sv v k doalloc :
  fileinv s sv v → sfi_indirect (sv_i v) ≠ 0 → 0 ≤ k < 128 →
  ∃ r s', bmap_entry (sfi_indirect (sv_i v)) k doalloc (idx (img s) (sfi_indirect (sv_i v))) s = Ok (r, s') ∧
    bmap_post s sv v (15 + k) doalloc r s'.
Proof.
  intros Hf Hind Hk. pose proof Hf as [Hw Hv Hok]. unfold bmap_entry.
  set (ind := sfi_indirect (sv_i v)) in *.
  destruct (lookup_lt_is_Some_2 (idx (img s) ind) (Z.to_nat k)) as [b Hb]; [rewrite length_idx; lia|].
  assert (ptrs (img s) (sv_i v) !! (15 + Z.to_nat k)%nat = Some b) as Hp
    by (by rewrite ptrs_indirect by apply Hok).
  assert (Z.to_nat (15 + k) = (15 + Z.to_nat k)%nat) as Hn by lia.
  erewrite bind_ok; [|by apply lift_run; rewrite Hb].
  destruct ((b =? 0) && doalloc) eqn:Ec.
  - apply andb_prop in Ec as [Eb ->]. apply Z.eqb_eq in Eb as ->.
    destruct (balloc_run s Hw) as [[E Hfull]|(b & s1 & E & Ha)]; rewrite (bind_ok _ _ _ _ _ E).
    { eexists _, _. split; [reflexivity|]. apply bmap_post_refl; [done|]. right. unfold MAXBLOCKS. split_and!; (lia || done). }
    destruct (alloc_entry _ _ _ _ Hok b (al_fresh _ _ _ Ha) (al_b _ _ _ Ha) (Z.to_nat k)) as (Hp' & Hok' & Hc'); [done|lia|done|].
    fold ind in Hp', Hok', Hc'. rewrite <- (al_img _ _ _ Ha) in Hp', Hok', Hc'.
    assert (nblocks s1 = nblocks s) as Hnb by (unfold nblocks; by rewrite (sr_super _ _ (al_rest _ _ _ Ha))).
    assert (0 < ind < nblocks s) as Hindr by (destruct (io_ind _ _ _ _ Hok) as [|[? _]]; done).
    destruct (wblock_run s1 ind (enc_words (<[Z.to_nat k := b]> (idx (img s) ind)))) as (d & Ed & Hwd & Him & Hu);
      [apply Ha|lia|rewrite length_enc_words, length_insert, length_idx; done|].
    rewrite (bind_ok _ _ _ _ _ Ed). cbn [negb Z.eqb].
    set (s2 := set_device d s1) in *. change (image d) with (img s2) in Him. rewrite <- Him in Hp', Hok', Hc'.
    destruct (alloc_fstep s s1 s2 b sv v v) as [Hf2 Hst]; try done.
    { cbn. rewrite (al_heap _ _ _ Ha). by rewrite insert_id. }
    { intros c Hc Hne Hno. rewrite Him, (al_img _ _ _ Ha). pose proof (al_b _ _ _ Ha).
      rewrite list_lookup_insert_ne.
      - by rewrite list_lookup_insert_ne by lia.
      - intros Ez. destruct Hno. assert (c = ind) as -> by lia. split; [done|]. by right. }
    { by eapply owns_ptrs. }
    assert (ptrs (img s2) (sv_i v) !! (15 + Z.to_nat k)%nat = Some b) as Hpb.
    { rewrite Hp'. apply list_lookup_insert_eq. by eapply lookup_lt_Some. }
    exists (inr b), s2. split; [by eapply bmap_return_run|]. exists v. rewrite Hn.
    split_and!; try done; [unfold MAXBLOCKS; lia|]. pose proof (al_b _ _ _ Ha). lia.
  - exists (inr b), s. split; [by eapply bmap_return_run|]. apply bmap_post_refl; [done|].
    unfold MAXBLOCKS. rewrite Hn. split_and!; [lia|done|]. intros ->. rewrite andb_true_r in Ec.
    by apply Z.eqb_neq in Ec.
Qed.

(** Reading blocks changes nothing that a file operation looks at. *)
Lemma reread_fstep s d sv v :
  fileinv s sv v → fs_wf (set_device d s) → image d = img s → us d = us (sfs_device s) →
  fileinv (set_device d s) sv v ∧ fstep sv s (set_device d s) v v.
Proof.
  intros [Hw Hv Hok] Hw' Him Hu. assert (img (set_device d s) = img s) as E by done. split.
  - constructor; try done. rewrite E. done.
  - constructor; rewrite ?E; try done; [by rewrite insert_id|by left].
Qed.

Lemma bmap_post_trans s s1 s2 sv v v1 fb doalloc r :
  fileinv s1 sv v1 → fstep sv s s1 v v1 → sfi_size (sv_i v1) = sfi_size (sv_i v) →
  contents (img s1) (sv_i v1) = contents (img s) (sv_i v) → (doalloc = false → v1 = v ∧ img s1 = img s) →
  bmap_post s1 sv v1 fb doalloc r s2 → bmap_post s sv v fb doalloc r s2.
Proof.
  intros Hf Hst Hsz Hc Hd (v2 & A1 & A2 & A3 & A4 & A5 & A6). exists v2.
  split_and!; try done; [by eapply (fstep_trans' sv s s1 s2 v v1 v2)|congruence|congruence|].
  intros Hda. destruct (Hd Hda) as [-> E]. rewrite <- E. by apply A5.
Qed.

Lemma bmap_spec s sv v fb doalloc :
  fileinv s sv v → 0 ≤ fb →
  ∃ r s', sfs_bmap sv fb doalloc s = Ok (r, s') ∧ bmap_post s sv v fb doalloc r s'.
Proof.
  intros Hf Hfb. pose proof Hf as [Hw Hv Hok]. unfold sfs_bmap. unfold SFS_NDIRECT.
  destruct (Z.ltb_spec fb 15) as [Hlt|Hge]; [by apply bmap_direct_spec|].
  destruct (Z.gtb_spec ((fb - 15) `div` SFS_DBPERIDB) 0) as [Hbig|Hsmall]; unfold SFS_DBPERIDB in *.
  { eexists _, _. split; [reflexivity|]. apply bmap_post_refl; [done|]. left. split; [|done].
    unfold MAXBLOCKS. Z.to_euclidean_division_equations; lia. }
  assert (0 ≤ fb - 15 < 128) as Hk by (Z.to_euclidean_division_equations; lia).
  rewrite (Z.mod_small (fb - 15)) by lia. set (k := fb - 15) in *. replace fb with (15 + k) by lia.
  rewrite (bind_ok _ _ _ _ _ (getv_run _ _ _ Hv)).
  destruct (Z.eqb_spec (sfi_indirect (sv_i v)) 0) as [H0|Hind].
  - destruct doalloc; cbn [negb andb].
    + destruct (balloc_run s Hw) as [[E Hfull]|(b & s1 & E & Ha)]; rewrite (bind_ok _ _ _ _ _ E).
      { eexists _, _. split; [reflexivity|]. apply bmap_post_refl; [done|]. right. unfold MAXBLOCKS.
        split_and!; (lia || done). }
      destruct (alloc_indirect _ _ _ _ Hok b (al_fresh _ _ _ Ha) (al_b _ _ _ Ha) H0) as (Hp' & Hok' & Hc' & Hi').
      set (v' := set_inode (with_indirect b (sv_i v)) true v).
      assert (heap s1 !! sv = Some v) as Hv1 by (by rewrite (al_heap _ _ _ Ha)).
      rewrite (bind_ok _ _ _ _ _ (updv_run _ _ _ _ Hv1)). fold v'.
      set (s2 := set_heap (<[sv := v']> (heap s1)) (heap_next s1) s1).
      rewrite <- (al_img _ _ _ Ha) in Hp', Hok', Hc', Hi'. change (img s1) with (img s2) in Hp', Hok', Hc', Hi'.
      destruct (alloc_fstep s s1 s2 b sv v v') as [Hf2 Hst]; try done.
      { destruct (al_fs _ _ _ Ha) as [? ? ? ? ? ? ?]. by constructor. }
      { cbn. by rewrite (al_heap _ _ _ Ha). }
      { intros c Hc Hne _. change (img s2) with (img s1). rewrite (al_img _ _ _ Ha).
        pose proof (al_b _ _ _ Ha). by rewrite list_lookup_insert_ne by lia. }
      { intros c [Hc [Hin|Hin]]; [|by left]. right. split; [done|]. left. by rewrite <- Hp'. }
      destruct (bmap_entry_spec s2 sv v' k true Hf2) as (r & s3 & E3 & Hpost).
      { pose proof (al_b _ _ _ Ha). cbn. lia. }
      { done. }
      exists r, s3. split; [|by eapply bmap_post_trans].
      rewrite <- E3. by rewrite <- Hi'.
    + eexists _, _. split; [reflexivity|]. apply bmap_post_refl; [done|]. unfold MAXBLOCKS. split_and!; [lia| |done].
      replace (Z.to_nat (15 + k)) with (15 + Z.to_nat k)%nat by lia.
      rewrite ptrs_indirect by apply Hok. unfold idx. rewrite H0. apply lookup_replicate_2. lia.
  - cbn [andb]. destruct (rblock_run s (sfi_indirect (sv_i v)) Hw) as (d & E & Hwd & Him & Hu).
    { destruct (io_ind _ _ _ _ Hok) as [|[? _]]; [done|lia]. }
    rewrite (bind_ok _ _ _ _ _ E). cbn [negb Z.eqb].
    destruct (reread_fstep s d sv v Hf Hwd Him Hu) as [Hf1 Hst1].
    destruct (bmap_entry_spec _ sv v k doalloc Hf1 Hind Hk) as (r & s2 & E2 & Hpost).
    change (img (set_device d s)) with (image d) in E2. rewrite Him in E2. unfold idx in E2.
    rewrite (proj2 (Z.eqb_neq _ 0)) in E2 by done.
    exists r, s2. split; [done|]. eapply bmap_post_trans; try done.
    + change (img (set_device d s)) with (image d). by rewrite Him.
Qed.

(** ** Transfers

    The bytes that [k] bytes of transfer move, and the contents they leave. *)
Definition xdata (rw : uio_rw_t) (rest cont : list Z) (off k : Z) : list Z :=
  match rw with
  | UIO_READ => take (Z.to_nat k) (drop (Z.to_nat off) cont)
  | UIO_WRITE => take (Z.to_nat k) rest
  end.

Definition xcont (rw : uio_rw_t) (rest cont : list Z) (off k : Z) : list Z :=
  match rw with
  | UIO_READ => cont
  | UIO_WRITE => splice (Z.to_nat off) (take (Z.to_nat k) rest) cont
  end.

(** A transfer of (at most) [n] bytes between file [sv] and the kernel region
    [u] that ended with errno [r] after [k] bytes. *)
Record xfer (sv : nat) (s : sfs_fs) (v : sfs_vnode) (u : uio) (dn rest : list Z) (n : Z)
    (r : Z) (u' : uio) (s' : sfs_fs) (v' : sfs_vnode) (k : Z) : Prop := {
  x_inv : fileinv s' sv v';
  x_step : fstep sv s s' v v';
  x_size : sfi_size (sv_i v') = sfi_size (sv_i v);
  x_k : 0 ≤ k ≤ n;
  x_u : kuio u' (dn ++ xdata (uio_rw u) rest (contents (img s) (sv_i v)) (uio_offset u) k)
          (drop (Z.to_nat k) rest);
  x_off : uio_offset u' = uio_offset u + k;
  x_resid : uio_resid u' = uio_resid u - k;
  x_rw : uio_rw u' = uio_rw u;
  x_cont : contents (img s') (sv_i v') = xcont (uio_rw u) rest (contents (img s) (sv_i v)) (uio_offset u) k;
  x_read : uio_rw u = UIO_READ → v' = v ∧ img s' = img s;
  x_ok : r = 0 → k = n;
  x_fit : k = 0 ∨ uio_offset u + k ≤ MAXSIZE;
  x_err : r ≠ 0 → r = EINVAL ∧ MAXSIZE < uio_offset u + n ∨ r = ENOSPC ∧ uio_rw u = UIO_WRITE ∧ full s';
  x_part : r ≠ 0 → k < n ∧ (k = 0 ∨ (uio_offset u + k) `mod` 512 = 0)
}.

Lemma splice_splice {A} n (a b l : list A) :
  (n ≤ length l)%nat → splice (n + length a) b (splice n a l) = splice n (a ++ b) l.
Proof.
  intros H. unfold splice. rewrite !app_assoc.
  rewrite (take_app_length' (take n l ++ a)) by len.
  rewrite drop_app_ge by len. rewrite drop_drop. rewrite !length_app, length_take.
  rewrite <- !app_assoc. do 4 f_equal. lia.
Qed.

Lemma xcont_0 rw rest cont off : xcont rw rest cont off 0 = cont.
Proof. destruct rw; [done|]. unfold xcont. rewrite take_0. apply splice_nil. Qed.

Lemma xdata_0 rw rest cont off : xdata rw rest cont off 0 = [].
Proof. destruct rw; done. Qed.

Lemma xfer_nil sv s v u dn rest n r :
  fileinv s sv v → kuio u dn rest → 0 ≤ n → (r = 0 ↔ n = 0) →
  (r ≠ 0 → r = EINVAL ∧ MAXSIZE < uio_offset u + n ∨ r = ENOSPC ∧ uio_rw u = UIO_WRITE ∧ full s) →
  xfer sv s v u dn rest n r u s v 0.
Proof.
  intros Hf Hk Hn H0 Hr. constructor; try done; try lia.
  - by apply fstep_refl, Hf.
  - by rewrite xdata_0, app_nil_r, drop_0.
  - by rewrite xcont_0.
Qed.

(** A step that leaves the contents alone, before a transfer. *)
Lemma xfer_after sv s v s1 v1 u dn rest n r u' s' v' k :
  fileinv s1 sv v1 → fstep sv s s1 v v1 → sfi_size (sv_i v1) = sfi_size (sv_i v) →
  contents (img s1) (sv_i v1) = contents (img s) (sv_i v) →
  (uio_rw u = UIO_READ → v1 = v ∧ img s1 = img s) →
  xfer sv s1 v1 u dn rest n r u' s' v' k → xfer sv s v u dn rest n r u' s' v' k.
Proof.
  intros Hf Hst Hsz Hc Hrd [X1 X2 X3 X4 X5 X6 X7 X8 X9 X10 X11 X12 X13 X14].
  constructor; try done; rewrite <- ?Hc; try done.
  - by eapply (fstep_trans' sv s s1 s' v v1 v').
  - congruence.
  - intros E. destruct (Hrd E) as [-> Ei]. rewrite <- Ei. by apply X10.
Qed.

Lemma xfer_trans sv s v u dn rest n1 u1 s1 v1 n2 r u2 s2 v2 k2 :
  fileinv s sv v → Forall (fun b => length b = 512%nat) (img s) →
  0 ≤ uio_offset u → 0 ≤ n1 ≤ Z.of_nat (length rest) → n2 = 0 ∨ (uio_offset u + n1) `mod` 512 = 0 →
  xfer sv s v u dn rest n1 0 u1 s1 v1 n1 →
  xfer sv s1 v1 u1 (dn ++ xdata (uio_rw u) rest (contents (img s) (sv_i v)) (uio_offset u) n1)
    (drop (Z.to_nat n1) rest) n2 r u2 s2 v2 k2 →
  xfer sv s v u dn rest (n1 + n2) r u2 s2 v2 (n1 + k2).
Proof.
  intros Hf Himg Hoff Hn1 Hal X Y. destruct X as [X1 X2 X3 X4 X5 X6 X7 X8 X9 X10 X11 X12 X13 X14].
  destruct Y as [Y1 Y2 Y3 Y4 Y5 Y6 Y7 Y8 Y9 Y10 Y11 Y12 Y13 Y14].
  pose proof (length_contents (img s) (sv_i v) Himg (io_direct _ _ _ _ (fi_ok _ _ _ Hf))) as Hlen.
  rewrite X8, X6 in *. constructor; try done; try lia.
  - by eapply (fstep_trans' sv s s1 s2 v v1 v2).
  - rewrite drop_drop in Y5. replace (Z.to_nat n1 + Z.to_nat k2)%nat with (Z.to_nat (n1 + k2)) in Y5 by lia.
    rewrite <- app_assoc in Y5. replace (xdata (uio_rw u) rest _ (uio_offset u) (n1 + k2)) with
      (xdata (uio_rw u) rest (contents (img s) (sv_i v)) (uio_offset u) n1 ++
       xdata (uio_rw u) (drop (Z.to_nat n1) rest) (contents (img s1) (sv_i v1)) (uio_offset u + n1) k2); [done|].
    replace (Z.to_nat (n1 + k2)) with (Z.to_nat n1 + Z.to_nat k2)%nat by lia.
    destruct (uio_rw u); simpl in *.
    + rewrite X9. rewrite !Z2Nat.inj_add by lia. rewrite <- drop_drop, take_take_drop. done.
    + rewrite Z2Nat.inj_add by lia. apply take_take_drop.
  - rewrite Y9, X9. destruct (uio_rw u); simpl; [done|].
    destruct X12 as [->|Hfit].
    { rewrite drop_0, take_0, splice_nil, Z.add_0_r, Z.add_0_l. done. }
    rewrite (Z2Nat.inj_add n1), (Z2Nat.inj_add (uio_offset u)) by lia.
    replace (Z.to_nat n1) with (length (take (Z.to_nat n1) rest)) at 1 by len.
    rewrite splice_splice by lia. by rewrite take_take_drop.
  - intros E. destruct (X10 E) as [-> E1]. rewrite <- E1. by apply Y10.
  - intros Hr. destruct (Y13 Hr) as [[? ?]|[? ?]]; [left; split; [done|lia]|by right].
  - intros Hr. destruct (Y14 Hr) as [Hlt Hk]. split; [lia|].
    destruct Hal as [|Hal]; [lia|]. right. destruct Hk as [->|Hk]; [by rewrite Z.add_0_r|by rewrite Z.add_assoc].
Qed.

Lemma set_device_id s : set_device (sfs_device s) s = s.
Proof. by destruct s. Qed.

Lemma kmove_run s u dn rest ptr n :
  kuio u dn rest → 0 ≤ n ≤ uio_resid u → n ≤ Z.of_nat (length ptr) →
  let data := moved (uio_rw u) ptr rest n in
  ∃ u', kmove ptr n u s = Ok ((0, splice 0 data ptr, u'), s) ∧
    kuio u' (dn ++ data) (drop (Z.to_nat n) rest) ∧
    uio_offset u' = uio_offset u + n ∧ uio_resid u' = uio_resid u - n ∧ uio_rw u' = uio_rw u.
Proof.
  intros H Hn Hp data. destruct (uiomove_kernel u dn rest (us (sfs_device s)) ptr n H Hn Hp) as (u' & E & R).
  exists u'. split; [|done]. unfold kmove. erewrite dev_run.
  - f_equal. f_equal. rewrite <- (set_device_id s) at 2. reflexivity.
  - unfold zoom. rewrite E. by destruct (sfs_device s).
Qed.

Lemma kmovezeros_run s u dn rest n :
  kuio u dn rest → uio_rw u = UIO_READ → 0 ≤ n ≤ uio_resid u →
  ∃ u', kmovezeros n u s = Ok ((0, u'), s) ∧
    kuio u' (dn ++ replicate (Z.to_nat n) 0) (drop (Z.to_nat n) rest) ∧
    uio_offset u' = uio_offset u + n ∧ uio_resid u' = uio_resid u - n ∧ uio_rw u' = UIO_READ.
Proof.
  intros H Hrw Hn.
  destruct (uiomovezeros_kernel (Z.to_nat n) n u dn rest (us (sfs_device s)) H Hrw Hn) as (u' & E & R); [lia|].
  exists u'. split; [|done]. unfold kmovezeros. erewrite dev_run.
  - f_equal. f_equal. rewrite <- (set_device_id s) at 2. reflexivity.
  - unfold zoom, uiomovezeros, mbind, M_bind, massert. rewrite Hrw, bool_decide_true by done.
    rewrite E. by destruct (sfs_device s).
Qed.

Lemma is_write_rw u : is_write u = match uio_rw u with UIO_READ => false | UIO_WRITE => true end.
Proof. unfold is_write. by destruct (uio_rw u). Qed.

Lemma offset_block_eq u dn rest : kuio u dn rest → offset_block u = uio_offset u `div` 512.
Proof.
  intros H. unfold offset_block, SFS_BLOCKSIZE. pose proof (ku_off _ _ _ H). pose proof (ku_max _ _ _ H).
  pose proof (ku_resid _ _ _ H). rewrite Z.quot_div_nonneg by lia. apply u32_small.
  Z.to_euclidean_division_equations; lia.
Qed.

(** The slice of the contents in one block. *)
Lemma contents_slice s sv v fb b skip n :
  fileinv s sv v → ptrs (img s) (sv_i v) !! fb = Some b → (skip + n ≤ 512)%nat →
  take n (drop (fb * 512 + skip) (contents (img s) (sv_i v))) = take n (drop skip (blk (img s) b)).
Proof.
  intros Hf Hb Hn. apply mjoin_slice; [apply blocks_512, Hf| |done]. by rewrite list_lookup_fmap, Hb.
Qed.

Lemma img_512 s : fs_wf s → Forall (fun b => length b = 512%nat) (img s).
Proof. intros H. apply (dw_image _ (fw_dev _ H)). Qed.

(** Writing back one block of a file. *)
Lemma write_block_fstep s sv v fb b skip data d :
  fileinv s sv v → ptrs (img s) (sv_i v) !! fb = Some b → b ≠ 0 → (skip + length data ≤ 512)%nat →
  fs_wf (set_device d s) → image d = <[Z.to_nat b := splice skip data (sec (img s) b)]> (img s) →
  us d = us (sfs_device s) →
  let s' := set_device d s in
  fileinv s' sv v ∧ fstep sv s s' v v ∧
  contents (img s') (sv_i v) = splice (fb * 512 + skip) data (contents (img s) (sv_i v)).
Proof.
  intros Hf Hb Hb0 Hlen Hw Him Hu s'. pose proof Hf as [Hwf Hv Hok].
  change (image d) with (img s') in Him. rewrite Him.
  assert (length (splice skip data (sec (img s) b)) = 512%nat) as Hl.
  { pose proof (length_sec (img s) b (img_512 s Hwf)). rewrite length_splice; lia. }
  split_and!.
  - constructor; try done. rewrite Him. by eapply write_block_ok.
  - constructor; try done.
    + cbn. by rewrite insert_id.
    + intros c Hc Hcu Hno. rewrite Him. apply list_lookup_insert_ne. intros E. destruct Hno.
      assert (0 ≤ b) by (by eapply ptr_nonneg). assert (c = b) as -> by lia. split; [done|]. left.
      by eapply list_elem_of_lookup_2.
    + rewrite Him. intros c [Hc Hin]. left. split; [done|]. by erewrite write_block_ptrs in Hin.
  - by eapply write_block_contents.
Qed.

Lemma partial_move_spec s sv v u dn rest b skip len :
  fileinv s sv v → kuio u dn rest → 0 < len ≤ uio_resid u → skip = uio_offset u `mod` 512 → skip + len ≤ 512 →
  uio_offset u `div` 512 < MAXBLOCKS → ptrs (img s) (sv_i v) !! Z.to_nat (uio_offset u `div` 512) = Some b →
  (uio_rw u = UIO_WRITE → b ≠ 0) →
  ∃ u' s', partial_move b skip len (blk (img s) b) u s = Ok ((0, u'), s') ∧
    xfer sv s v u dn rest len 0 u' s' v len.
Proof.
  intros Hf Hk Hlen -> Hfit Hfb Hb Hbw. pose proof Hf as [Hwf Hv Hok].
  pose proof (ku_off _ _ _ Hk) as Hoff. pose proof (length_blk (img s) b (img_512 s Hwf)) as Hbl.
  pose proof (ku_len _ _ _ Hk) as Hkl. pose proof (ku_resid _ _ _ Hk) as Hkr.
  set (skip := uio_offset u `mod` 512) in *. set (fb := uio_offset u `div` 512) in *.
  assert (uio_offset u = fb * 512 + skip ∧ 0 ≤ skip < 512 ∧ 0 ≤ fb) as (Heq & Hskip & Hfb0)
    by (unfold skip, fb; Z.to_euclidean_division_equations; lia).
  assert (Z.to_nat (uio_offset u) = (Z.to_nat fb * 512 + Z.to_nat skip)%nat) as Hnat by lia.
  unfold partial_move.
  destruct (kmove_run s u dn rest (drop (Z.to_nat skip) (blk (img s) b)) len) as (u' & E & K & Ho & Hr & Hrw);
    [done|lia|rewrite length_drop; lia|].
  rewrite (bind_ok _ _ _ _ _ E). cbn [negb Z.eqb]. rewrite is_write_rw, Hrw.
  assert (uio_offset u + len ≤ MAXSIZE) as Hmax by (unfold MAXSIZE, MAXBLOCKS in *; lia).
  destruct (uio_rw u) eqn:Erw.
  - exists u', s. split; [done|]. constructor; rewrite ?Erw; try done; try lia; [by apply fstep_refl|].
    simpl in K |- *. rewrite Hnat, (contents_slice s sv v _ b) by (done || lia). done.
  - simpl moved in K. specialize (Hbw eq_refl).
    assert (blk (img s) b = sec (img s) b) as Eblk by (unfold blk; by rewrite (proj2 (Z.eqb_neq b 0))).
    assert (length (take (Z.to_nat len) rest) = Z.to_nat len) as Hdl by len.
    assert (take (Z.to_nat skip) (blk (img s) b) ++
      splice 0 (moved UIO_WRITE (drop (Z.to_nat skip) (blk (img s) b)) rest len) (drop (Z.to_nat skip) (blk (img s) b)) =
      splice (Z.to_nat skip) (take (Z.to_nat len) rest) (sec (img s) b)) as ->.
    { rewrite Eblk. unfold splice. simpl. rewrite drop_drop. done. }
    destruct (wblock_run s b (splice (Z.to_nat skip) (take (Z.to_nat len) rest) (sec (img s) b))) as (d & Ed & Hwd & Him & Hu);
      [done| |rewrite length_splice; rewrite <- Eblk, ?Hdl; lia|].
    { destruct (io_ptrs _ _ _ _ Hok _ _ Hb) as [|[? _]]; [done|lia]. }
    rewrite (bind_ok _ _ _ _ _ Ed).
    destruct (write_block_fstep s sv v (Z.to_nat fb) b (Z.to_nat skip) (take (Z.to_nat len) rest) d) as (F1 & F2 & F3);
      try done; [lia|].
    exists u', (set_device d s). split; [done|]. constructor; rewrite ?Erw; try done; try lia.
    simpl. rewrite F3, Hnat. done.
Qed.

Lemma partialio_spec s sv v u dn rest skip len :
  fileinv s sv v → kuio u dn rest → 0 < len ≤ uio_resid u → skip = uio_offset u `mod` 512 → skip + len ≤ 512 →
  ∃ r u' s' v' k, sfs_partialio sv u skip len s = Ok ((r, u'), s') ∧ xfer sv s v u dn rest len r u' s' v' k.
Proof.
  intros Hf Hk Hlen Hskip Hfit. pose proof (ku_off _ _ _ Hk) as Hoff.
  assert (0 ≤ skip < 512) by (subst; by apply Z.mod_pos_bound).
  unfold sfs_partialio. rewrite is_write_rw, (offset_block_eq u dn rest Hk).
  erewrite bind_ok; [|unfold massert, SFS_BLOCKSIZE; rewrite u32_small by lia;
    rewrite (proj2 (Z.leb_le _ _)) by lia; reflexivity].
  set (da := match uio_rw u with UIO_READ => false | UIO_WRITE => true end).
  destruct (bmap_spec s sv v (uio_offset u `div` 512) da Hf) as (r & s1 & E & (v1 & Hf1 & Hst & Hsz & Hc & Hrd & Hr));
    [apply Z.div_pos; lia|].
  rewrite (bind_ok _ _ _ _ _ E).
  assert (uio_rw u = UIO_READ → v1 = v ∧ img s1 = img s) as Hrd'
    by (intros Er; apply Hrd; unfold da; by rewrite Er).
  destruct r as [e|b].
  - exists e, u, s1, v1, 0. split; [done|]. eapply xfer_after; try done. apply xfer_nil; try done; [lia| |].
    + destruct Hr as [[_ ->]|(_ & -> & _)]; split; (done || lia).
    + intros _. destruct Hr as [[Hbig ->]|(_ & -> & Hda & Hfu)]; [left|right].
      * split; [done|]. unfold MAXBLOCKS, MAXSIZE in *. Z.to_euclidean_division_equations; lia.
      * split; [done|]. unfold da in Hda. by destruct (uio_rw u).
  - destruct Hr as (Hfb & Hb & Hbw).
    assert (uio_rw u = UIO_WRITE → b ≠ 0) as Hbw' by (intros Er; apply Hbw; unfold da; by rewrite Er).
    destruct (Z.eqb_spec b 0) as [->|Hb0].
    + assert (uio_rw u = UIO_READ) as Er by (destruct (uio_rw u); [done|by destruct Hbw']).
      rewrite Er, bool_decide_true by done. erewrite bind_ok; [|reflexivity].
      destruct (partial_move_spec s1 sv v1 u dn rest 0 skip len Hf1 Hk Hlen Hskip Hfit Hfb Hb Hbw') as (u' & s2 & E2 & X).
      exists 0, u', s2, v1, len. split; [exact E2|]. by eapply xfer_after.
    + destruct (rblock_run s1 b) as (d & Ed & Hwd & Him & Hu); [apply Hf1| |].
      { destruct (io_ptrs _ _ _ _ (fi_ok _ _ _ Hf1) _ _ Hb) as [|[? _]]; [done|lia]. }
      rewrite (bind_ok _ _ _ _ _ Ed). cbn [negb Z.eqb].
      destruct (reread_fstep s1 d sv v1 Hf1 Hwd Him Hu) as [Hf2 Hst2].
      assert (img (set_device d s1) = img s1) as Ei by done.
      destruct (partial_move_spec (set_device d s1) sv v1 u dn rest b skip len) as (u' & s2 & E2 & X); try done.
      { by rewrite Ei. }
      rewrite Ei in E2. unfold blk in E2. rewrite (proj2 (Z.eqb_neq b 0)) in E2 by done.
      exists 0, u', s2, v1, len. split; [exact E2|].
      eapply (xfer_after sv s v s1 v1); try done. eapply (xfer_after sv s1 v1 (set_device d s1) v1); try done.
      by rewrite Ei.
Qed.

Lemma kuio_set_pos u dn rest off resid :
  kuio u dn rest → 0 ≤ off → 0 ≤ resid ≤ iov_len u → off + resid < 2 ^ 31 → kuio (set_pos u off resid) dn rest.
Proof. intros [H1 H2 H3 H4 H5 H6 H7 H8] ? ? ?. by constructor. Qed.

(** One whole block through the driver, on a healthy device. *)
Lemma rwblock_run s b u dn rest :
  fs_wf s → 0 < b < nblocks s → kuio u dn rest → 512 ≤ iov_len u →
  let u0 := set_pos u (b * 512) 512 in
  ∃ u1 d, dev (sfs_rwblock u0) s = Ok ((0, u1), set_device d s) ∧ fs_wf (set_device d s) ∧
    us d = us (sfs_device s) ∧
    image d = match uio_rw u with
              | UIO_READ => img s
              | UIO_WRITE => <[Z.to_nat b := take 512 rest]> (img s)
              end ∧
    sector_moved u1 (uio_rw u) b
      (dn ++ match uio_rw u with UIO_READ => sec (img s) b | UIO_WRITE => take 512 rest end) (drop 512 rest).
Proof.
  intros Hw Hb Hk Hl u0. pose proof Hw as [H1 H2 H3 H4 H5 H6 H7]. pose proof (dw_size _ H1) as Hsz.
  assert (nblocks s ≤ dd_totsectors (Lhd.dd (sfs_device s))) as Hnb by (unfold dd_totsectors; unfold img, image in H4; lia).
  destruct (lookup_lt_is_Some_2 (img s) (Z.to_nat b)) as [se Hs]; [lia|].
  assert (sector_req u0 (uio_rw u) b dn rest) as Hreq.
  { constructor; try done. apply kuio_set_pos; [done|lia|lia|lia]. }
  unfold sec, sfs_rwblock. rewrite Hs. cbn [default]. destruct (uio_rw u).
  - destruct (rwblock_read 10 [] [] u0 b dn rest (sfs_device s) se) as (u1 & d & E & D1 & D2 & D3 & D4 & D5);
      try done; [lia|cbn; lia|].
    exists u1, d. rewrite (dev_run _ _ _ _ E). split_and!; try done. by eapply fs_wf_device.
  - destruct (rwblock_write 10 u0 b dn rest (sfs_device s) se) as (u1 & d & E & [D1 D2 D3 D4] & D5); try done.
    { lia. }
    { by rewrite H2. }
    exists u1, d. rewrite (dev_run _ _ _ _ E). split_and!; try done.
    eapply fs_wf_device; try done; [by rewrite D3, H2|by rewrite length_insert].
Qed.

Lemma blockio_spec s sv v u dn rest :
  fileinv s sv v → kuio u dn rest → 512 ≤ uio_resid u → uio_offset u `mod` 512 = 0 →
  ∃ r u' s' v' k, sfs_blockio sv u s = Ok ((r, u'), s') ∧ xfer sv s v u dn rest 512 r u' s' v' k.
Proof.
  intros Hf Hk Hlen Hskip. pose proof (ku_off _ _ _ Hk) as Hoff. pose proof (ku_resid _ _ _ Hk) as Hres.
  pose proof (ku_max _ _ _ Hk) as Hmx. pose proof (ku_len _ _ _ Hk) as Hkl. pose proof (ku_len32 _ _ _ Hk) as Hkl2.
  unfold sfs_blockio. rewrite is_write_rw, (offset_block_eq u dn rest Hk).
  set (da := match uio_rw u with UIO_READ => false | UIO_WRITE => true end).
  set (fb := uio_offset u `div` 512).
  assert (uio_offset u = fb * 512 ∧ 0 ≤ fb) as [Heq Hfb0] by (unfold fb; Z.to_euclidean_division_equations; lia).
  destruct (bmap_spec s sv v fb da Hf Hfb0) as (r & s1 & E & (v1 & Hf1 & Hst & Hsz & Hc & Hrd & Hr)).
  rewrite (bind_ok _ _ _ _ _ E).
  assert (uio_rw u = UIO_READ → v1 = v ∧ img s1 = img s) as Hrd' by (intros Er; apply Hrd; unfold da; by rewrite Er).
  destruct r as [e|b].
  { exists e, u, s1, v1, 0. split; [done|]. eapply xfer_after; try done. apply xfer_nil; try done.
    - destruct Hr as [[_ ->]|(_ & -> & _)]; split; (done || lia).
    - intros _. destruct Hr as [[Hbig ->]|(_ & -> & Hda & Hfu)]; [left|right].
      + split; [done|]. unfold MAXBLOCKS, MAXSIZE in *. lia.
      + split; [done|]. unfold da in Hda. by destruct (uio_rw u). }
  destruct Hr as (Hfb & Hb & Hbw).
  assert (uio_rw u = UIO_WRITE → b ≠ 0) as Hbw' by (intros Er; apply Hbw; unfold da; by rewrite Er).
  assert (uio_offset u + 512 ≤ MAXSIZE) as Hmax by (unfold MAXSIZE, MAXBLOCKS in *; lia).
  assert (Z.to_nat (uio_offset u) = (Z.to_nat fb * 512 + 0)%nat) as Hnat by lia.
  assert (take 512 (drop (Z.to_nat (uio_offset u)) (contents (img s1) (sv_i v1))) = blk (img s1) b) as Hslice.
  { rewrite Hnat, (contents_slice s1 sv v1 _ b) by (done || lia). rewrite drop_0. apply take_ge.
    rewrite length_blk; [done|]. apply img_512, Hf1. }
  destruct (Z.eqb_spec b 0) as [->|Hb0].
  - assert (uio_rw u = UIO_READ) as Er by (destruct (uio_rw u); [done|by destruct Hbw']).
    rewrite Er, bool_decide_true by done. erewrite bind_ok; [|reflexivity].
    destruct (kmovezeros_run s1 u dn rest SFS_BLOCKSIZE) as (u' & E' & K & Ho & Hr & Hrw); [done|done|unfold SFS_BLOCKSIZE; lia|].
    exists 0, u', s1, v1, 512. split; [exact E'|]. eapply (xfer_after sv s v s1 v1); try done.
    constructor; rewrite ?Er; try done; try lia; [by apply fstep_refl, Hf1|].
    unfold xdata. change (Z.to_nat 512) with 512%nat. rewrite Hslice. exact K.
  - assert (0 < b < nblocks s1 ∧ nblocks s1 < 2 ^ 22) as [Hbr Hn22].
    { split; [|apply (io_n _ _ _ _ (fi_ok _ _ _ Hf1))].
      destruct (io_ptrs _ _ _ _ (fi_ok _ _ _ Hf1) _ _ Hb) as [|[? _]]; [done|lia]. }
    destruct (rwblock_run s1 b u dn rest) as (u1 & d & Ed & Hwd & Hu & Him & (K & Krw & Ko & Kr)); [apply Hf1|done|done|lia|].
    unfold SFS_BLOCKSIZE. rewrite (u32_small (b * 512)), (i32_small (b * 512)) by lia.
    erewrite bind_ok; [|unfold massert; rewrite (proj2 (Z.leb_le _ _)) by lia; reflexivity].
    rewrite (bind_ok _ _ _ _ _ Ed). rewrite Ko, Kr, (i32_small (uio_resid u)) by lia.
    replace (b * 512 + 512 - b * 512 + uio_offset u) with (uio_offset u + 512) by lia.
    replace (0 - 512 + uio_resid u) with (uio_resid u - 512) by lia.
    rewrite i32_small, u32_small by lia.
    assert (blk (img s1) b = sec (img s1) b) as Eblk by (unfold blk; by rewrite (proj2 (Z.eqb_neq b 0))).
    assert (kuio (set_pos u1 (uio_offset u + 512) (uio_resid u - 512)) (dn ++ match uio_rw u with
      UIO_READ => sec (img s1) b | UIO_WRITE => take 512 rest end) (drop 512 rest)) as K'.
    { apply kuio_set_pos; [done|lia| |lia]. rewrite (ku_len _ _ _ K). rewrite length_drop. lia. }
    eexists 0, _, _, v1, 512. split; [reflexivity|]. eapply (xfer_after sv s v s1 v1); try done.
    destruct (uio_rw u) eqn:Erw.
    + destruct (reread_fstep s1 d sv v1 Hf1 Hwd Him Hu) as [Hf2 Hst2].
      assert (img (set_device d s1) = img s1) as Ei by done.
      constructor; rewrite ?Erw, ?Ei; try done; try lia. unfold xdata.
      change (Z.to_nat 512) with 512%nat. rewrite Hslice, Eblk. exact K'.
    + assert (length (take 512 rest) = 512%nat) as Hdl by len.
      destruct (write_block_fstep s1 sv v1 (Z.to_nat fb) b 0 (take 512 rest) d) as (F1 & F2 & F3); try done.
      { lia. }
      { rewrite splice_all; [done|]. rewrite length_sec; [done|]. apply img_512, Hf1. }
      constructor; rewrite ?Erw; try done; try lia. simpl. rewrite F3, Hnat. done.
Qed.

(** A transfer that failed early, seen as part of a longer one. *)
Lemma xfer_weaken sv s v u dn rest n m r u' s' v' k :
  r ≠ 0 → n ≤ m → xfer sv s v u dn rest n r u' s' v' k → xfer sv s v u dn rest m r u' s' v' k.
Proof.
  intros Hr Hnm [X1 X2 X3 X4 X5 X6 X7 X8 X9 X10 X11 X12 X13 X14]. constructor; try done; [lia| |].
  - intros _. destruct (X13 Hr) as [[? ?]|[? ?]]; [left; split; [done|lia]|by right].
  - intros _. destruct (X14 Hr). split; [lia|done].
Qed.

(** Continue a transfer: either the first part failed, or the second follows. *)
Lemma xfer_seq sv s v u dn rest n1 r1 u1 s1 v1 k1 n2 (f : uio → M sfs_fs (Z * uio)) (o : M sfs_fs (Z * uio)) :
  fileinv s sv v → kuio u dn rest → 0 ≤ n1 ≤ uio_resid u → 0 ≤ n2 →
  n2 = 0 ∨ (uio_offset u + n1) `mod` 512 = 0 →
  xfer sv s v u dn rest n1 r1 u1 s1 v1 k1 → o s = Ok ((r1, u1), s1) →
  (∀ dn1 rest1, r1 = 0 → kuio u1 dn1 rest1 → uio_rw u1 = uio_rw u → uio_offset u1 = uio_offset u + n1 →
     uio_resid u1 = uio_resid u - n1 → fileinv s1 sv v1 →
     ∃ r u' s' v' k, f u1 s1 = Ok ((r, u'), s') ∧ xfer sv s1 v1 u1 dn1 rest1 n2 r u' s' v' k) →
  ∃ r u' s' v' k,
    (let* '(result, u) := o in if negb (result =? 0) then mret (result, u) else f u) s = Ok ((r, u'), s') ∧
    xfer sv s v u dn rest (n1 + n2) r u' s' v' k.
Proof.
  intros Hf Hk Hn1 Hn2 Hal X E Hnext. rewrite (bind_ok _ _ _ _ _ E).
  pose proof (ku_off _ _ _ Hk). pose proof (ku_len _ _ _ Hk). pose proof (ku_resid _ _ _ Hk).
  destruct (Z.eqb_spec r1 0) as [->|Hr]; cbn [negb].
  - assert (k1 = n1) as -> by (by apply (x_ok _ _ _ _ _ _ _ _ _ _ _ _ X)).
    destruct (Hnext _ _ eq_refl (x_u _ _ _ _ _ _ _ _ _ _ _ _ X)) as (r & u' & s' & v' & k & E2 & X2); try apply X.
    exists r, u', s', v', (n1 + k). split; [done|].
    eapply xfer_trans; try done; [apply img_512, Hf|lia].
  - exists r1, u1, s1, v1, k1. split; [done|]. apply (xfer_weaken _ _ _ _ _ _ n1); [done|lia|done].
Qed.

Lemma io_blocks_spec n s sv v u dn rest :
  fileinv s sv v → kuio u dn rest → 512 * Z.of_nat n ≤ uio_resid u → uio_offset u `mod` 512 = 0 →
  ∃ r u' s' v' k, io_blocks n sv u s = Ok ((r, u'), s') ∧ xfer sv s v u dn rest (512 * Z.of_nat n) r u' s' v' k.
Proof.
  revert s v u dn rest. induction n as [|n IH]; intros s v u dn rest Hf Hk Hlen Hal; cbn [io_blocks].
  - exists 0, u, s, v, 0. split; [done|]. by apply xfer_nil.
  - destruct (blockio_spec s sv v u dn rest Hf Hk) as (r1 & u1 & s1 & v1 & k1 & E & X); [lia|done|].
    replace (512 * Z.of_nat (S n)) with (512 + 512 * Z.of_nat n) by lia.
    apply (xfer_seq sv s v u dn rest 512 r1 u1 s1 v1 k1 (512 * Z.of_nat n) _ _ Hf Hk ltac:(lia) ltac:(lia)
      ltac:(right; Z.to_euclidean_division_equations; lia) X E).
    intros dn1 rest1 _ Hk1 _ Ho1 Hr1 Hf1. apply IH; try done; [lia|].
    rewrite Ho1. Z.to_euclidean_division_equations; lia.
Qed.

Lemma io_rest_spec s sv v u dn rest :
  fileinv s sv v → kuio u dn rest → uio_resid u = 0 ∨ uio_offset u `mod` 512 = 0 →
  ∃ r u' s' v' k, io_rest sv u s = Ok ((r, u'), s') ∧ xfer sv s v u dn rest (uio_resid u) r u' s' v' k.
Proof.
  intros Hf Hk Hal. pose proof (ku_off _ _ _ Hk). pose proof (ku_resid _ _ _ Hk). unfold io_rest, SFS_BLOCKSIZE.
  destruct (Z.eqb_spec (uio_resid u) 0) as [Hz|Hne].
  { exists 0, u, s, v, 0. split; [done|]. rewrite Hz. by apply xfer_nil. }
  destruct Hal as [|Hal]; [done|]. rewrite Z.rem_mod_nonneg, Hal by lia.
  erewrite bind_ok; [|reflexivity].
  set (q := uio_resid u `div` 512). assert (0 ≤ q ∧ 512 * q ≤ uio_resid u < 512 * q + 512) as [Hq Hqr]
    by (unfold q; Z.to_euclidean_division_equations; lia).
  destruct (io_blocks_spec (Z.to_nat q) s sv v u dn rest Hf Hk) as (r1 & u1 & s1 & v1 & k1 & E & X); [lia|done|].
  rewrite Z2Nat.id in X by done.
  destruct (xfer_seq sv s v u dn rest (512 * q) r1 u1 s1 v1 k1 (uio_resid u - 512 * q)
    (fun u => let* _ := massert (uio_resid u <? 512) in
       if uio_resid u >? 0 then sfs_partialio sv u 0 (uio_resid u) else mret (0, u)) _
    Hf Hk ltac:(lia) ltac:(lia) ltac:(right; Z.to_euclidean_division_equations; lia) X E)
    as (r & u' & s' & v' & k & E2 & X2).
  - intros dn1 rest1 _ Hk1 _ Ho1 Hr1 Hf1. rewrite Hr1.
    erewrite bind_ok; [|unfold massert; rewrite (proj2 (Z.ltb_lt _ _)) by lia; reflexivity].
    destruct (Z.gtb_spec (uio_resid u - 512 * q) 0) as [Hgt|Hle].
    + apply partialio_spec; try done; [lia| |lia]. rewrite Ho1. Z.to_euclidean_division_equations; lia.
    + exists 0, u1, s1, v1, 0. split; [done|]. replace (uio_resid u - 512 * q) with 0 by lia. by apply xfer_nil.
  - exists r, u', s', v', k. split; [exact E2|].
    by replace (512 * q + (uio_resid u - 512 * q)) with (uio_resid u) in X2 by lia.
Qed.

Lemma io_transfer_spec s sv v u dn rest :
  fileinv s sv v → kuio u dn rest → 0 < uio_resid u ∨ uio_offset u `mod` 512 = 0 →
  ∃ r u' s' v' k, io_transfer sv u s = Ok ((r, u'), s') ∧ xfer sv s v u dn rest (uio_resid u) r u' s' v' k.
Proof.
  intros Hf Hk Hpos. pose proof (ku_off _ _ _ Hk). pose proof (ku_resid _ _ _ Hk). unfold io_transfer, SFS_BLOCKSIZE.
  rewrite Z.rem_mod_nonneg by lia. pose proof (Z.mod_pos_bound (uio_offset u) 512 ltac:(done)) as Hm.
  rewrite (u32_small (_ `mod` _)) by lia.
  destruct (Z.eqb_spec (uio_offset u `mod` 512) 0) as [Hz|Hne]; cbn [negb].
  { apply io_rest_spec; auto. }
  destruct Hpos as [Hpos|]; [|done]. rewrite u32_small by lia.
  set (len := Z.min (512 - uio_offset u `mod` 512) (uio_resid u)).
  destruct (partialio_spec s sv v u dn rest (uio_offset u `mod` 512) len Hf Hk) as (r1 & u1 & s1 & v1 & k1 & E & X);
    [lia|done|lia|].
  replace (uio_resid u) with (len + (uio_resid u - len)) by lia.
  apply (xfer_seq sv s v u dn rest len r1 u1 s1 v1 k1 (uio_resid u - len) _ _ Hf Hk ltac:(lia) ltac:(lia)
    ltac:(destruct (decide (len = uio_resid u)); [left; lia|right; Z.to_euclidean_division_equations; lia]) X E).
  intros dn1 rest1 _ Hk1 _ Ho1 Hr1 Hf1. rewrite <- Hr1. apply io_rest_spec; try done.
  destruct (decide (len = uio_resid u)) as [Hl|Hl]; [left; lia|right]. rewrite Ho1.
  assert (len = 512 - uio_offset u `mod` 512) as -> by lia. Z.to_euclidean_division_equations; lia.
Qed.

(** ** Whole reads and writes *)
Lemma set_pos_id u : set_pos u (uio_offset u) (uio_resid u) = u.
Proof. by destruct u. Qed.

(** Changing the size field touches neither pointers nor blocks. *)
Lemma resize_fstep s sv v n :
  fileinv s sv v →
  let v' := set_inode (with_size n (sv_i v)) true v in
  let s' := set_heap (<[sv := v']> (heap s)) (heap_next s) s in
  fileinv s' sv v' ∧ fstep sv s s' v v' ∧ contents (img s') (sv_i v') = contents (img s) (sv_i v).
Proof.
  intros [Hw Hv Hok] v' s'. split_and!.
  - constructor.
    + by destruct Hw.
    + apply lookup_insert_eq.
    + by destruct Hok.
  - constructor; try done. intros b Hb. by left.
  - done.
Qed.

Lemma sfs_io_write s sv v u dn rest :
  fileinv s sv v → kuio u dn rest → uio_rw u = UIO_WRITE → 0 < uio_resid u → 0 ≤ sfi_size (sv_i v) < 2 ^ 31 →
  ∃ r u' s' v' k, sfs_io sv u s = Ok ((r, u'), s') ∧ fileinv s' sv v' ∧ fstep sv s s' v v' ∧
    0 ≤ k ≤ uio_resid u ∧ kuio u' (dn ++ take (Z.to_nat k) rest) (drop (Z.to_nat k) rest) ∧
    uio_offset u' = uio_offset u + k ∧ uio_resid u' = uio_resid u - k ∧
    contents (img s') (sv_i v') =
      splice (Z.to_nat (uio_offset u)) (take (Z.to_nat k) rest) (contents (img s) (sv_i v)) ∧
    sfi_size (sv_i v') = Z.max (sfi_size (sv_i v)) (uio_offset u + k) ∧
    (r = 0 → k = uio_resid u) ∧ (k = 0 ∨ uio_offset u + k ≤ MAXSIZE) ∧
    (r ≠ 0 → r = EINVAL ∧ MAXSIZE < uio_offset u + uio_resid u ∨ r = ENOSPC ∧ full s') ∧
    (r ≠ 0 → k < uio_resid u ∧ (k = 0 ∨ (uio_offset u + k) `mod` 512 = 0)).
Proof.
  intros Hf Hk Hrw Hpos Hsize. unfold sfs_io. rewrite bool_decide_false by (by rewrite Hrw).
  destruct (io_transfer_spec s sv v u dn rest Hf Hk (or_introl Hpos)) as (r & u1 & s1 & v1 & k & E & X).
  rewrite (bind_ok _ _ _ _ _ E). destruct X as [X1 X2 X3 X4 X5 X6 X7 X8 X9 X10 X11 X12 X13 X14].
  pose proof (ku_off _ _ _ Hk) as Ho. pose proof (ku_max _ _ _ Hk) as Hm. pose proof (ku_resid _ _ _ Hk) as Hrs.
  rewrite Hrw in *. simpl in X5, X9. unfold io_out. rewrite (bind_ok _ _ _ _ _ (getv_run _ _ _ (fi_v _ _ _ X1))).
  rewrite is_write_rw, X8, X3, (i32_small (sfi_size _)), X6 by lia. cbn [andb].
  rewrite Z.add_0_r, X7, (u32_small (_ - _)) by lia. rewrite <- X6, <- X7, set_pos_id, X6.
  assert (r ≠ 0 → r = EINVAL ∧ MAXSIZE < uio_offset u + uio_resid u ∨ r = ENOSPC ∧ full s1) as Herr
    by (intros Hr; destruct (X13 Hr) as [|(? & _ & ?)]; auto).
  destruct (Z.ltb_spec (sfi_size (sv_i v)) (uio_offset u + k)) as [Hlt|Hge].
  - rewrite (u32_small (_ + _)) by lia. destruct (resize_fstep s1 sv v1 (uio_offset u + k) X1) as (R1 & R2 & R3).
    erewrite bind_ok; [|reflexivity]. eexists r, u1, _, _, k. split; [reflexivity|].
    split; [exact R1|]. split; [by eapply (fstep_trans' sv s s1)|]. split_and!; try done; simpl; lia.
  - erewrite bind_ok; [|reflexivity]. exists r, u1, s1, v1, k. split; [reflexivity|].
    split_and!; try done; lia.
Qed.

Lemma sfs_io_read s sv v u dn rest :
  fileinv s sv v → kuio u dn rest → uio_rw u = UIO_READ → 0 < uio_resid u → 0 ≤ sfi_size (sv_i v) ≤ MAXSIZE →
  let n := Z.max 0 (Z.min (uio_resid u) (sfi_size (sv_i v) - uio_offset u)) in
  ∃ u' s', sfs_io sv u s = Ok ((0, u'), s') ∧ fileinv s' sv v ∧ fstep sv s s' v v ∧ img s' = img s ∧
    kuio u' (dn ++ take (Z.to_nat n) (drop (Z.to_nat (uio_offset u)) (contents (img s) (sv_i v))))
      (drop (Z.to_nat n) rest) ∧
    uio_offset u' = uio_offset u + n ∧ uio_resid u' = uio_resid u - n.
Proof.
  intros Hf Hk Hrw Hpos Hsize n. pose proof Hf as [Hw Hv Hok]. unfold MAXSIZE in Hsize.
  pose proof (ku_off _ _ _ Hk) as Ho. pose proof (ku_max _ _ _ Hk) as Hm. pose proof (ku_resid _ _ _ Hk) as Hrs.
  unfold sfs_io. rewrite bool_decide_true by done. rewrite (bind_ok _ _ _ _ _ (getv_run _ _ _ Hv)).
  rewrite (i32_small (sfi_size _)), (u32_small (uio_offset u)), u32_small, (i32_small (_ + _)) by lia.
  destruct (Z.leb_spec (sfi_size (sv_i v)) (uio_offset u)) as [Heof|Hlt].
  { exists u, s. assert (n = 0) as -> by lia. rewrite Z.add_0_r, Z.sub_0_r. simpl. rewrite take_0, app_nil_r, drop_0.
    split_and!; try done. by apply fstep_refl. }
  assert (∀ w extra, w = set_pos u (uio_offset u) n → extra = uio_resid u - n →
    ∃ u' s', (let* '(result, u) := io_transfer sv w in io_out sv extra result u) s = Ok ((0, u'), s') ∧
      fileinv s' sv v ∧ fstep sv s s' v v ∧ img s' = img s ∧
      kuio u' (dn ++ take (Z.to_nat n) (drop (Z.to_nat (uio_offset u)) (contents (img s) (sv_i v))))
        (drop (Z.to_nat n) rest) ∧
      uio_offset u' = uio_offset u + n ∧ uio_resid u' = uio_resid u - n) as Hmain.
  { intros w extra -> ->.
    destruct (io_transfer_spec s sv v (set_pos u (uio_offset u) n) dn rest Hf) as (r & u1 & s1 & v1 & k & E & X);
      [apply kuio_set_pos; (done || lia)|left; cbn; lia|].
    rewrite (bind_ok _ _ _ _ _ E). destruct X as [X1 X2 X3 X4 X5 X6 X7 X8 X9 X10 X11 X12 X13 X14].
    cbn [set_pos uio_rw uio_offset uio_resid] in *. rewrite Hrw in *.
    destruct (X10 eq_refl) as [-> Ei].
    assert (r = 0) as ->.
    { destruct (decide (r = 0)); [done|]. destruct (X13 ltac:(done)) as [[_ Hx]|(_ & ? & _)]; [unfold MAXSIZE in Hx; lia|done]. }
    rewrite (X11 eq_refl) in *. unfold io_out. rewrite (bind_ok _ _ _ _ _ (getv_run _ _ _ (fi_v _ _ _ X1))).
    rewrite is_write_rw, X8. cbn [andb]. erewrite bind_ok; [|reflexivity].
    rewrite X7. replace (n - n + (uio_resid u - n)) with (uio_resid u - n) by lia. rewrite u32_small by lia.
    eexists _, s1. split; [reflexivity|]. split_and!; try done.
    apply kuio_set_pos; [done|lia| |lia]. rewrite (ku_len _ _ _ X5), length_drop. pose proof (ku_len _ _ _ Hk). lia. }
  destruct (Z.gtb_spec (uio_offset u + uio_resid u) (sfi_size (sv_i v))) as [Hgt|Hle].
  - rewrite (u32_small (_ - _)) by lia.
    erewrite bind_ok; [|unfold massert; rewrite (proj2 (Z.ltb_lt _ _)) by lia; reflexivity].
    rewrite (u32_small (uio_resid u - _)) by lia. apply Hmain; [f_equal; lia|lia].
  - apply Hmain; [|lia]. replace n with (uio_resid u) by lia. by rewrite set_pos_id.
Qed.

Lemma kuio_data_kuio u dn rest : kuio u dn rest → kuio_data u = dn ++ rest.
Proof. intros H. unfold kuio_data. by rewrite (ku_un _ _ _ H). Qed.

Lemma sfs_write_run sv u s : uio_rw u = UIO_WRITE → sfs_write sv u s = sfs_io sv u s.
Proof. intros H. unfold sfs_write, mbind, M_bind, massert. by rewrite bool_decide_true. Qed.

Lemma sfs_read_run sv u s : uio_rw u = UIO_READ → sfs_read sv u s = sfs_io sv u s.
Proof. intros H. unfold sfs_read, mbind, M_bind, massert. by rewrite bool_decide_true. Qed.

(** Another file: its blocks are disjoint from those of [sv]. *)
Lemma fstep_other sv s s' v v' sv2 v2 :
  fstep sv s s' v v' → fs_wf s' → fileinv s sv2 v2 → sv2 ≠ sv →
  (∀ b, owns (img s) (sv_i v2) b → ¬ owns (img s) (sv_i v) b) →
  fileinv s' sv2 v2 ∧ ptrs (img s') (sv_i v2) = ptrs (img s) (sv_i v2) ∧
  contents (img s') (sv_i v2) = contents (img s) (sv_i v2).
Proof.
  intros [F1 F2 F3 F4 F5 F6] Hw' [Hw Hv Hok] Hne Hdis. set (i := sv_i v2) in *.
  assert (∀ b, owns (img s) i b → sec (img s') b = sec (img s) b) as Hsec.
  { intros b Hb. unfold sec. rewrite F5; [done|by eapply owns_nonneg| |by apply Hdis].
    destruct Hb as [Hb0 [Hin| ->]].
    - apply list_elem_of_lookup in Hin as [k Hk]. destruct (io_ptrs _ _ _ _ Hok _ _ Hk) as [|[_ ?]]; done.
    - destruct (io_ind _ _ _ _ Hok) as [|[_ ?]]; done. }
  assert (ptrs (img s') i = ptrs (img s) i) as Hp.
  { unfold ptrs, idx. f_equal. destruct (Z.eqb_spec (sfi_indirect i) 0) as [|Hi]; [done|].
    rewrite Hsec; [done|]. split; [done|]. by right. }
  assert (nblocks s' = nblocks s) as Hn by (unfold nblocks; by rewrite (sr_super _ _ F1)).
  split_and!; [|done|].
  - constructor; [done|by rewrite F2, lookup_insert_ne|]. rewrite Hn. destruct Hok as [H1 H2 H3 H4 H5 H6 H7].
    eapply (inode_ok_mono _ (used s)); [intros c Hc; apply F4; lia|].
    constructor; fold i; rewrite ?Hp; try done; [by apply img_512|].
    split; [|apply H3]. pose proof (fw_nblocks _ Hw'). rewrite Hn in *. lia.
  - unfold contents. rewrite Hp. f_equal. apply list_fmap_ext. intros k b Hk. unfold blk.
    destruct (Z.eqb_spec b 0); [done|]. apply Hsec. split; [done|]. left. by eapply list_elem_of_lookup_2.
Qed.

(** ** Theorems *)

(** Block mapping: past the last indirect entry it is EINVAL; otherwise the
    file's pointer is handed back, and when allocation was asked for the pointer
    is never 0, ENOSPC being the only failure.  The contents never change. *)
Theorem sfs_bmap_correct s sv v fb doalloc :
  fileinv s sv v → 0 ≤ fb →
  ∃ r s' v', sfs_bmap sv fb doalloc s = Ok (r, s') ∧ fileinv s' sv v' ∧ fstep sv s s' v v' ∧
    contents (img s') (sv_i v') = contents (img s) (sv_i v) ∧
    match r with
    | inl e => MAXBLOCKS ≤ fb ∧ e = EINVAL ∨ fb < MAXBLOCKS ∧ e = ENOSPC ∧ doalloc = true ∧ full s'
    | inr b => fb < MAXBLOCKS ∧ ptrs (img s') (sv_i v') !! Z.to_nat fb = Some b ∧ (doalloc = true → b ≠ 0)
    end.
Proof.
  intros Hf Hfb. destruct (bmap_spec s sv v fb doalloc Hf Hfb) as (r & s' & E & v' & A1 & A2 & _ & A4 & _ & A6).
  eauto 10.
Qed.

(** C2: Writing [data] at [pos]: the file's contents become the old ones with
    the first [k] bytes of [data] spliced in, all of them unless the volume is full
    or the file would exceed its maximum size; the size grows to cover them, and
    nothing outside the file changes. *)
Theorem sfs_write_splices s sv v data pos :
  fileinv s sv v → 0 ≤ sfi_size (sv_i v) < 2 ^ 31 → 0 < Z.of_nat (length data) → 0 ≤ pos →
  pos + Z.of_nat (length data) < 2 ^ 31 →
  ∃ r u' s' v' k,
    sfs_write sv (mk_kuio data (Z.of_nat (length data)) pos UIO_WRITE) s = Ok ((r, u'), s') ∧
    fileinv s' sv v' ∧ fstep sv s s' v v' ∧ 0 ≤ k ≤ Z.of_nat (length data) ∧
    uio_offset u' = pos + k ∧ uio_resid u' = Z.of_nat (length data) - k ∧
    contents (img s') (sv_i v') = splice (Z.to_nat pos) (take (Z.to_nat k) data) (contents (img s) (sv_i v)) ∧
    sfi_size (sv_i v') = Z.max (sfi_size (sv_i v)) (pos + k) ∧
    (r = 0 → k = Z.of_nat (length data)) ∧
    (r ≠ 0 → r = EINVAL ∧ MAXSIZE < pos + Z.of_nat (length data) ∨ r = ENOSPC ∧ full s').
Proof.
  intros Hf Hsz Hd Hpos Hmax. rewrite sfs_write_run by done.
  destruct (sfs_io_write s sv v _ [] data Hf (mk_kuio_kuio data _ pos UIO_WRITE eq_refl Hpos Hmax) eq_refl Hd Hsz)
    as (r & u' & s' & v' & k & E & A1 & A2 & A3 & A4 & A5 & A6 & A7 & A8 & A9 & A10 & A11 & A12).
  exists r, u', s', v', k. split_and!; try done; apply A3.
Qed.

(** C3: Reading [len] bytes at [pos] fills the front of the buffer with the file's
    bytes up to end of file, leaves the rest of it alone, and changes neither the
    file nor the volume. *)
Theorem sfs_read_slices s sv v buf pos :
  fileinv s sv v → 0 ≤ sfi_size (sv_i v) ≤ MAXSIZE → 0 < Z.of_nat (length buf) → 0 ≤ pos →
  pos + Z.of_nat (length buf) < 2 ^ 31 →
  let n := Z.to_nat (Z.min (Z.of_nat (length buf)) (sfi_size (sv_i v) - pos)) in
  ∃ u' s', sfs_read sv (mk_kuio buf (Z.of_nat (length buf)) pos UIO_READ) s = Ok ((0, u'), s') ∧
    fileinv s' sv v ∧ fstep sv s s' v v ∧ img s' = img s ∧
    kuio_data u' = take n (drop (Z.to_nat pos) (contents (img s) (sv_i v))) ++ drop n buf ∧
    uio_resid u' = Z.of_nat (length buf) - Z.of_nat n.
Proof.
  intros Hf Hsz Hd Hpos Hmax n. rewrite sfs_read_run by done.
  destruct (sfs_io_read s sv v _ [] buf Hf (mk_kuio_kuio buf _ pos UIO_READ eq_refl Hpos Hmax) eq_refl Hd Hsz)
    as (u' & s' & E & A1 & A2 & A3 & A4 & A5 & A6).
  cbn [mk_kuio uio_offset uio_resid] in *.
  replace (Z.to_nat (Z.max 0 (Z.min (Z.of_nat (length buf)) (sfi_size (sv_i v) - pos)))) with n in A4 by lia.
  exists u', s'. split_and!; try done; [|lia]. by rewrite (kuio_data_kuio _ _ _ A4).
Qed.

(** C32: Write then read: what a complete write stored at [pos] is what a read of
    the same range returns. *)
Theorem sfs_write_read_roundtrip s sv v data buf pos u' s' :
  fileinv s sv v → 0 ≤ sfi_size (sv_i v) ≤ MAXSIZE → length buf = length data →
  0 < Z.of_nat (length data) → 0 ≤ pos → pos + Z.of_nat (length data) ≤ MAXSIZE →
  sfs_write sv (mk_kuio data (Z.of_nat (length data)) pos UIO_WRITE) s = Ok ((0, u'), s') →
  ∃ u2 s2, sfs_read sv (mk_kuio buf (Z.of_nat (length data)) pos UIO_READ) s' = Ok ((0, u2), s2) ∧
    kuio_data u2 = data ∧ uio_resid u2 = 0.
Proof.
  intros Hf Hsz Hlen Hd Hpos Hmax Hwr. unfold MAXSIZE in *. rewrite sfs_write_run in Hwr by done.
  destruct (sfs_io_write s sv v _ [] data Hf (mk_kuio_kuio data _ pos UIO_WRITE eq_refl Hpos ltac:(lia)) eq_refl Hd ltac:(lia))
    as (r & u1 & s1 & v1 & k & E & A1 & A2 & A3 & A4 & A5 & A6 & A7 & A8 & A9 & A10 & A11 & A12).
  rewrite E in Hwr. injection Hwr as -> -> ->. cbn [mk_kuio uio_offset uio_resid] in *.
  rewrite (A9 eq_refl) in *. rewrite take_ge in A7 by lia.
  rewrite sfs_read_run by done.
  destruct (sfs_io_read s' sv v1 (mk_kuio buf (Z.of_nat (length data)) pos UIO_READ) [] buf A1) as (u2 & s2 & E2 & _ & _ & _ & B4 & B5 & B6);
    [apply mk_kuio_kuio; lia|done|done|unfold MAXSIZE; lia|].
  cbn [mk_kuio uio_offset uio_resid] in *.
  assert (Z.max 0 (Z.min (Z.of_nat (length data)) (sfi_size (sv_i v1) - pos)) = Z.of_nat (length data)) as En by lia.
  rewrite En, Nat2Z.id in *. exists u2, s2. split_and!; [done| |lia].
  rewrite (kuio_data_kuio _ _ _ B4), (drop_ge buf), app_nil_r, A7 by lia. cbn [app].
  pose proof (length_contents (img s) (sv_i v) (img_512 s (fi_fs _ _ _ Hf)) (io_direct _ _ _ _ (fi_ok _ _ _ Hf))).
  unfold MAXSIZE in *. unfold splice. rewrite drop_app_length' by len. by rewrite take_app_length.
Qed.

(** C34: Files do not interfere: after a write to one file every other file whose
    blocks are its own still satisfies its invariant and has the same contents. *)
Theorem sfs_write_preserves_others s sv v sv2 v2 data pos r u' s' :
  fileinv s sv v → 0 ≤ sfi_size (sv_i v) < 2 ^ 31 → 0 < Z.of_nat (length data) → 0 ≤ pos →
  pos + Z.of_nat (length data) < 2 ^ 31 → fileinv s sv2 v2 → sv2 ≠ sv →
  (∀ b, owns (img s) (sv_i v2) b → ¬ owns (img s) (sv_i v) b) →
  sfs_write sv (mk_kuio data (Z.of_nat (length data)) pos UIO_WRITE) s = Ok ((r, u'), s') →
  fileinv s' sv2 v2 ∧ contents (img s') (sv_i v2) = contents (img s) (sv_i v2).
Proof.
  intros Hf Hsz Hd Hpos Hmax Hf2 Hne Hdis Hwr. rewrite sfs_write_run in Hwr by done.
  destruct (sfs_io_write s sv v _ [] data Hf (mk_kuio_kuio data _ pos UIO_WRITE eq_refl Hpos Hmax) eq_refl Hd Hsz)
    as (r1 & u1 & s1 & v1 & k & E & A1 & A2 & _). rewrite E in Hwr. injection Hwr as -> -> ->.
  destruct (fstep_other sv s s' v v1 sv2 v2 A2 (fi_fs _ _ _ A1) Hf2 Hne Hdis) as (B1 & _ & B3). done.
Qed.

(** A write that starts at or past the maximum file size fails and moves
    nothing, yet leaves the file's size at the position it was asked for. *)
Theorem sfs_write_past_limit_grows_size s sv v data pos :
  fileinv s sv v → 0 ≤ sfi_size (sv_i v) ≤ MAXSIZE → 0 < Z.of_nat (length data) →
  MAXSIZE < pos → pos + Z.of_nat (length data) < 2 ^ 31 →
  ∃ r u' s' v', sfs_write sv (mk_kuio data (Z.of_nat (length data)) pos UIO_WRITE) s = Ok ((r, u'), s') ∧
    r ≠ 0 ∧ heap s' !! sv = Some v' ∧ contents (img s') (sv_i v') = contents (img s) (sv_i v) ∧
    sfi_size (sv_i v') = pos.
Proof.
  intros Hf Hsz Hd Hpos Hmax. unfold MAXSIZE in *. rewrite sfs_write_run by done.
  destruct (sfs_io_write s sv v _ [] data Hf (mk_kuio_kuio data _ pos UIO_WRITE eq_refl ltac:(lia) Hmax) eq_refl Hd ltac:(lia))
    as (r & u' & s' & v' & k & E & A1 & A2 & A3 & A4 & A5 & A6 & A7 & A8 & A9 & A10 & A11 & A12).
  cbn [mk_kuio uio_offset uio_resid] in *. unfold MAXSIZE in *. assert (k = 0) as -> by lia.
  exists r, u', s', v'. split_and!; [done|intros ->; specialize (A9 eq_refl); lia|apply A1| |lia].
  by rewrite A7, take_0, splice_nil.
Qed.

End Sfsfile.
