(* ===== verification/Sfsdir.v ===== *)
(** * SFS directories, properties of sfs_vnode.c

    A directory is a file whose contents are 64-byte entries ([dents]).  It
    implements a finite map from names to inode numbers: [dir_rep es m] relates
    the entries to the map, [dirinv] ties both to the file on disk.  The theorems
    show that [sfs_dir_findname] is lookup, [sfs_dir_link] is insertion of a new
    name and [sfs_dir_unlink] is deletion, on every branch. *)
From stdpp Require Import base list gmap numbers.
From S2P Require Import Prelude Array Bitmap Copyinout Uio Lhd Cstring Sfsdisk Sfs Sfsfile.
Local Open Scope Z_scope.

Module Sfsdir.
Import Copyinout Uio Lhd Sfsdisk Sfs Sfsfile.

(** ** Entries *)
Definition dent (cont : list Z) (k : nat) : sfs_dir := dec_dir (take 64 (drop (k * 64) cont)).

Definition dents (cont : list Z) (n : nat) : list sfs_dir := dent cont <$> seq 0 n.

Definition live (e : sfs_dir) : Prop := sfd_ino e ≠ SFS_NOINO.

(** The name in an entry, termination forced as the code does. *)
Definition ename (e : sfs_dir) : option (list Z) := Cstring.cstr (<[59%nat := 0]> (sfd_name e)).

(** The entries [es] implement the map [m]: every live entry is in it, and no name is
    live in two slots. *)
Record dir_rep (es : list sfs_dir) (m : gmap (list Z) Z) : Prop := {
  dr_map : ∀ nm ino, m !! nm = Some ino ↔
    ∃ k e, es !! k = Some e ∧ live e ∧ ename e = Some nm ∧ sfd_ino e = ino;
  dr_uniq : ∀ j k ej ek, es !! j = Some ej → es !! k = Some ek → live ej → live ek →
    ename ej = ename ek → j = k
}.

Record dirinv (s : sfs_fs) (sv : nat) (v : sfs_vnode) (es : list sfs_dir) (m : gmap (list Z) Z) : Prop := {
  di_file : fileinv s sv v;
  di_type : sfi_type (sv_i v) = SFS_TYPE_DIR;
  di_size : sfi_size (sv_i v) = 64 * Z.of_nat (length es);
  di_max : 64 * Z.of_nat (length es) ≤ MAXSIZE;
  di_es : es = dents (contents (img s) (sv_i v)) (length es);
  di_rep : dir_rep es m
}.

Lemma length_dents cont n : length (dents cont n) = n.
Proof. unfold dents. by rewrite length_fmap, length_seq. Qed.

Lemma lookup_dents cont n k : (k < n)%nat → dents cont n !! k = Some (dent cont k).
Proof. intros H. unfold dents. rewrite list_lookup_fmap, lookup_seq_lt by done. done. Qed.

Lemma dents_S cont n : dents cont (S n) = dents cont n ++ [dent cont n].
Proof. unfold dents. rewrite seq_S, fmap_app. done. Qed.

(** Overwriting slot [k]. *)
Lemma dent_splice cont k j e :
  u32_val (sfd_ino e) → length (sfd_name e) = 60%nat → (k * 64 + 64 ≤ length cont)%nat → (j * 64 + 64 ≤ length cont)%nat →
  dent (splice (k * 64) (enc_dir e) cont) j = if decide (j = k) then e else dent cont j.
Proof.
  intros Hi Hn Hk Hj. destruct (dir_roundtrip e Hi) as [Hrt Hl]. rewrite Hn in Hl.
  unfold dent. case_decide as Ejk.
  - subst j. unfold splice. rewrite drop_app_length' by len. rewrite take_app_length' by done. done.
  - f_equal. apply list_eq. intros i. destruct (decide (i < 64)%nat) as [Hi64|Hi64].
    + rewrite !lookup_take_lt by done. rewrite !lookup_drop. apply lookup_splice_out; lia.
    + rewrite !lookup_take_ge by lia. done.
Qed.

Lemma dents_splice_in cont n k e :
  u32_val (sfd_ino e) → length (sfd_name e) = 60%nat → (n * 64 ≤ length cont)%nat → (k < n)%nat →
  dents (splice (k * 64) (enc_dir e) cont) n = <[k := e]> (dents cont n).
Proof.
  intros Hi Hn Hl Hk. apply list_eq. intros j. destruct (decide (j < n)%nat) as [Hj|Hj].
  - rewrite lookup_dents by done. rewrite dent_splice by (done || lia). case_decide as E.
    + subst j. rewrite list_lookup_insert_eq; [done|]. by rewrite length_dents.
    + rewrite list_lookup_insert_ne by done. by rewrite lookup_dents.
  - rewrite !lookup_ge_None_2; [done| |]; rewrite ?length_insert, length_dents; lia.
Qed.

Lemma dents_splice_end cont n e :
  u32_val (sfd_ino e) → length (sfd_name e) = 60%nat → (n * 64 + 64 ≤ length cont)%nat →
  dents (splice (n * 64) (enc_dir e) cont) (S n) = dents cont n ++ [e].
Proof.
  intros Hi Hn Hl. rewrite dents_S. f_equal.
  - apply list_eq. intros j. destruct (decide (j < n)%nat) as [Hj|Hj].
    + rewrite !lookup_dents by done. rewrite dent_splice by (done || lia). by rewrite decide_False by lia.
    + rewrite !lookup_ge_None_2; [done| |]; rewrite length_dents; lia.
  - rewrite dent_splice by (done || lia). by rewrite decide_True.
Qed.

Lemma dent_name_length cont k : (k * 64 + 64 ≤ length cont)%nat → length (sfd_name (dent cont k)) = 60%nat.
Proof. intros H. unfold dent, dec_dir. cbn [sfd_name]. rewrite length_drop, length_take, length_drop. lia. Qed.

(** A name field of the right length always holds a terminated name. *)
Lemma ename_some e : length (sfd_name e) = 60%nat → is_Some (ename e).
Proof.
  unfold ename. intros H.
  assert (∀ (l : list Z) k, l !! k = Some 0 → is_Some (Cstring.cstr l)) as Hz.
  { induction l as [|c l IH]; intros k Hk; [done|]. simpl. destruct (c =? 0) eqn:Ec; [done|].
    destruct k as [|k]; [simpl in Hk; injection Hk as ->; done|]. destruct (IH k Hk) as [x ->]. done. }
  apply (Hz _ 59%nat). apply list_lookup_insert_eq. lia.
Qed.

(** ** Scanning a directory *)

(** The effect of the loop of [sfs_dir_findname] on a list of entries; [None]
    is the assertion that a name appears only once. *)
Fixpoint find_fold (nm : list Z) (i : Z) (es : list sfs_dir) (f : findres) : option findres :=
  match es with
  | [] => Some f
  | e :: es' =>
      if sfd_ino e =? SFS_NOINO then
        find_fold nm (i + 1) es' (mkfind (f_found f) (f_ino f) (f_slot f) (Some i))
      else if decide (ename e = Some nm) then
        if f_found f then None
        else find_fold nm (i + 1) es' (mkfind true (Some (sfd_ino e)) (Some i) (f_empty f))
      else find_fold nm (i + 1) es' f
  end.

(** What the entries scanned so far say. *)
Record find_inv (nm : list Z) (pre : list sfs_dir) (f : findres) : Prop := {
  fd_found : f_found f = true → ∃ k e, pre !! k = Some e ∧ live e ∧ ename e = Some nm ∧
    f_ino f = Some (sfd_ino e) ∧ f_slot f = Some (Z.of_nat k);
  fd_none : f_found f = false → ∀ k e, pre !! k = Some e → live e → ename e ≠ Some nm;
  fd_empty : match f_empty f with
             | Some j => ∃ k e, j = Z.of_nat k ∧ pre !! k = Some e ∧ ¬ live e
             | None => True
             end
}.

Lemma find_inv_nil nm : find_inv nm [] (mkfind false None None None).
Proof. constructor; done. Qed.

Lemma lookup_snoc_Some {A} (l : list A) x k y :
  (l ++ [x]) !! k = Some y ↔ l !! k = Some y ∨ k = length l ∧ y = x.
Proof.
  rewrite lookup_app_Some. split.
  - intros [H|[H1 H2]]; [by left|right]. apply list_lookup_singleton_Some in H2 as [H2 ->]. split; [lia|done].
  - intros [H|[-> ->]]; [by left|right]. split; [done|]. by rewrite Nat.sub_diag.
Qed.

Lemma find_inv_fd_empty_snoc nm pre f e :
  find_inv nm pre f → match f_empty f with
    | Some j => ∃ k e', j = Z.of_nat k ∧ (pre ++ [e]) !! k = Some e' ∧ ¬ live e'
    | None => True end.
Proof.
  intros [_ _ H]. destruct (f_empty f); [|done]. destruct H as (k & e' & ? & Hk & ?).
  exists k, e'. split_and!; try done. apply lookup_snoc_Some. by left.
Qed.

Lemma find_fold_spec nm suf pre f m :
  dir_rep (pre ++ suf) m → find_inv nm pre f →
  ∃ f', find_fold nm (Z.of_nat (length pre)) suf f = Some f' ∧ find_inv nm (pre ++ suf) f'.
Proof.
  revert pre f. induction suf as [|e suf IH]; intros pre f Hrep Hinv; cbn [find_fold].
  { exists f. by rewrite app_nil_r. }
  pose proof (find_inv_fd_empty_snoc nm pre f e Hinv) as Hemp. destruct Hinv as [I1 I2 I3].
  replace (Z.of_nat (length pre) + 1) with (Z.of_nat (length (pre ++ [e]))) by len.
  rewrite (cons_middle e pre suf), app_assoc in *.
  destruct (Z.eqb_spec (sfd_ino e) SFS_NOINO) as [Ed|El].
  - apply IH; [done|]. constructor; cbn.
    + intros Hf. destruct (I1 Hf) as (k & e' & Hk & R). exists k, e'. split; [apply lookup_snoc_Some; by left|done].
    + intros Hf k e' Hk Hl. apply lookup_snoc_Some in Hk as [Hk|[_ ->]]; [by eapply I2|by destruct Hl].
    + exists (length pre), e. split_and!; [done|apply lookup_snoc_Some; by right|]. intros Hl. by apply Hl.
  - case_decide as En.
    + destruct (f_found f) eqn:Ef.
      { exfalso. destruct (I1 eq_refl) as (k & e' & Hk & Hl & Hn & _).
        assert (k = length pre) as ->.
        { apply (dr_uniq _ _ Hrep k (length pre) e' e); try done; [| |congruence].
          - rewrite <- app_assoc. by apply lookup_app_l_Some.
          - rewrite <- app_assoc. by apply list_lookup_middle. }
        apply lookup_lt_Some in Hk. lia. }
      apply IH; [done|]. constructor; cbn; try done.
      * intros _. exists (length pre), e. split_and!; try done. apply lookup_snoc_Some. by right.
    + apply IH; [done|]. constructor; cbn; try done.
      * intros Hf. destruct (I1 Hf) as (k & e' & Hk & R). exists k, e'. split; [apply lookup_snoc_Some; by left|done].
      * intros Hf k e' Hk Hl. apply lookup_snoc_Some in Hk as [Hk|[_ ->]]; [by eapply I2|done].
Qed.

(** ** Directory I/O *)
Lemma contents_len s sv v : fileinv s sv v → Z.of_nat (length (contents (img s) (sv_i v))) = MAXSIZE.
Proof. intros H. apply length_contents; [apply img_512, H|apply (io_direct _ _ _ _ (fi_ok _ _ _ H))]. Qed.

Lemma slot_pos k : 0 ≤ k → 64 * k < 2 ^ 31 → i32 (u32 (k * sizeof_sfs_dir)) = 64 * k.
Proof. intros. unfold sizeof_sfs_dir. rewrite u32_small, i32_small by lia. lia. Qed.

Lemma readdir_run s sv v n k :
  fileinv s sv v → sfi_size (sv_i v) = 64 * n → 64 * n ≤ MAXSIZE → 0 ≤ k < n →
  ∃ s', sfs_readdir sv k s = Ok (inr (dent (contents (img s) (sv_i v)) (Z.to_nat k)), s') ∧
    fileinv s' sv v ∧ fstep sv s s' v v ∧ img s' = img s.
Proof.
  intros Hf Hsz Hmax Hk. unfold MAXSIZE in Hmax. pose proof (contents_len s sv v Hf) as Hcl. unfold MAXSIZE in Hcl.
  unfold sfs_readdir. rewrite slot_pos by lia. unfold sizeof_sfs_dir.
  assert (kuio (mk_kuio (replicate 64 0) 64 (64 * k) UIO_READ) [] (replicate 64 0)) as K
    by (apply mk_kuio_kuio; len).
  destruct (sfs_io_read s sv v _ [] _ Hf K eq_refl eq_refl) as (u' & s' & E & A1 & A2 & A3 & A4 & A5 & A6);
    [unfold MAXSIZE; lia|].
  cbn [mk_kuio uio_offset uio_resid] in *. rewrite Hsz in *.
  replace (Z.max 0 (Z.min 64 (64 * n - 64 * k))) with 64 in * by lia.
  rewrite (bind_ok _ _ _ _ _ E). cbn [negb Z.eqb]. rewrite A6. cbn [Z.sub Z.add Z.opp Z.pos_sub Z.gtb Z.compare].
  exists s'. split_and!; try done.
  rewrite (kuio_data_kuio _ _ _ A4). unfold dent. change (Z.to_nat 64) with 64%nat.
  rewrite (drop_ge (replicate 64 0)), app_nil_r by done. cbn [app].
  replace (Z.to_nat (64 * k)) with (Z.to_nat k * 64)%nat by lia. done.
Qed.

Lemma nentries_run s sv v n :
  heap s !! sv = Some v → sfi_type (sv_i v) = SFS_TYPE_DIR → sfi_size (sv_i v) = 64 * n → 0 ≤ n → 64 * n ≤ MAXSIZE →
  sfs_dir_nentries sv s = Ok (n, s).
Proof.
  intros Hv Ht Hsz Hn Hmax. unfold MAXSIZE in Hmax. unfold sfs_dir_nentries, sizeof_sfs_dir.
  rewrite (bind_ok _ _ _ _ _ (getv_run _ _ _ Hv)). rewrite Ht. erewrite bind_ok; [|reflexivity].
  rewrite Hsz, i32_small, u32_small by lia. rewrite Z.mul_comm, Z.mod_mul, Z.div_mul by lia.
  cbn [negb Z.eqb]. by rewrite i32_small by lia.
Qed.

Lemma findname_loop_run n i s sv v es name nm f :
  fileinv s sv v → sfi_size (sv_i v) = 64 * Z.of_nat (length es) → 64 * Z.of_nat (length es) ≤ MAXSIZE →
  es = dents (contents (img s) (sv_i v)) (length es) → Cstring.cstr name = Some nm → (i + n = length es)%nat →
  match find_fold nm (Z.of_nat i) (drop i es) f with
  | Some f' => ∃ s', findname_loop n (Z.of_nat i) sv name f s = Ok (inr f', s') ∧
                 fileinv s' sv v ∧ fstep sv s s' v v ∧ img s' = img s
  | None => findname_loop n (Z.of_nat i) sv name f s = Panic
  end.
Proof.
  revert i s f. induction n as [|n IH]; intros i s f Hf Hsz Hmax Hes Hnm Hin; cbn [findname_loop].
  { rewrite drop_ge by lia. exists s. split_and!; try done. by apply fstep_refl, Hf. }
  pose proof (contents_len s sv v Hf) as Hcl.
  destruct (readdir_run s sv v (Z.of_nat (length es)) (Z.of_nat i) Hf Hsz Hmax) as (s1 & E & A1 & A2 & A3); [lia|].
  rewrite Nat2Z.id in E. set (e := dent (contents (img s) (sv_i v)) i) in *.
  assert (es !! i = Some e) as Hi by (rewrite Hes; apply lookup_dents; lia).
  rewrite (drop_S _ _ _ Hi). cbn [find_fold]. rewrite (bind_ok _ _ _ _ _ E).
  assert (∀ f', match find_fold nm (Z.of_nat i + 1) (drop (S i) es) f' with
    | Some f2 => ∃ s', findname_loop n (Z.of_nat i + 1) sv name f' s1 = Ok (inr f2, s') ∧
                   fileinv s' sv v ∧ fstep sv s s' v v ∧ img s' = img s
    | None => findname_loop n (Z.of_nat i + 1) sv name f' s1 = Panic
    end) as Hnext.
  { intros f'. specialize (IH (S i) s1 f' A1 Hsz Hmax). rewrite A3 in IH. specialize (IH Hes Hnm ltac:(lia)).
    replace (Z.of_nat (S i)) with (Z.of_nat i + 1) in IH by lia.
    destruct (find_fold nm (Z.of_nat i + 1) (drop (S i) es) f'); [|done].
    destruct IH as (s2 & E2 & B1 & B2 & B3). exists s2. split; [done|]. split; [done|].
    split; [by eapply (fstep_trans' sv s s1 s2 v v v)|congruence]. }
  destruct (sfd_ino e =? SFS_NOINO); [apply Hnext|].
  destruct (ename_some e) as [en Hen]; [apply dent_name_length; unfold MAXSIZE in *; lia|].
  erewrite bind_ok; [|apply lift_run, (Cstring.strcmp_cstr _ _ en nm); done].
  pose proof (Cstring.str_cmp_eq en nm (Cstring.cstr_nz _ _ Hen) (Cstring.cstr_nz _ _ Hnm)) as Hcmp.
  rewrite Hen. destruct (Z.eqb_spec (Cstring.str_cmp en nm) 0) as [Hc|Hc].
  - rewrite decide_True by (f_equal; tauto). destruct (f_found f); cbn [negb]; [done|].
    erewrite bind_ok; [|reflexivity]. apply Hnext.
  - rewrite decide_False by (intros [= ->]; tauto). apply Hnext.
Qed.

(** [sfs_dir_findname] on a directory that implements [m]. *)
Lemma findname_run s sv v es m name nm :
  dirinv s sv v es m → Cstring.cstr name = Some nm →
  ∃ f s', sfs_dir_findname sv name s = Ok (inr f, s') ∧ dirinv s' sv v es m ∧ fstep sv s s' v v ∧
    img s' = img s ∧ find_inv nm es f.
Proof.
  intros [D1 D2 D3 D4 D5 D6] Hnm. unfold sfs_dir_findname.
  rewrite (bind_ok _ _ _ _ _ (nentries_run s sv v _ (fi_v _ _ _ D1) D2 D3 ltac:(lia) D4)). rewrite Nat2Z.id.
  pose proof (findname_loop_run (length es) 0 s sv v es name nm (mkfind false None None None) D1 D3 D4 D5 Hnm ltac:(lia)) as H.
  destruct (find_fold_spec nm es [] (mkfind false None None None) m D6 (find_inv_nil nm)) as (f & Ef & Hinv).
  change (Z.of_nat (length [])) with 0 in Ef. change (Z.of_nat 0) with 0 in H. rewrite drop_0, Ef in H.
  destruct H as (s' & E & A1 & A2 & A3). exists f, s'. split_and!; try done.
  constructor; try done. by rewrite A3.
Qed.

Lemma find_inv_lookup nm es m f :
  dir_rep es m → find_inv nm es f →
  if f_found f then ∃ k e, es !! k = Some e ∧ live e ∧ ename e = Some nm ∧ m !! nm = Some (sfd_ino e) ∧
                      f_ino f = Some (sfd_ino e) ∧ f_slot f = Some (Z.of_nat k)
  else m !! nm = None.
Proof.
  intros [R1 R2] [I1 I2 I3]. destruct (f_found f).
  - destruct (I1 eq_refl) as (k & e & Hk & Hl & Hn & Hi & Hs). exists k, e.
    assert (m !! nm = Some (sfd_ino e)) by (apply R1; exists k, e; done). done.
  - destruct (m !! nm) as [ino|] eqn:E; [|done]. apply R1 in E as (k & e & Hk & Hl & Hn & _).
    by destruct (I2 eq_refl k e Hk Hl).
Qed.

(** Writing an entry either stores it or changes nothing. *)
Lemma writedir_run s sv v n e k :
  fileinv s sv v → sfi_size (sv_i v) = 64 * n → 64 * n ≤ MAXSIZE → 0 ≤ k ≤ n →
  length (sfd_name e) = 60%nat →
  ∃ r s' v', sfs_writedir sv e k s = Ok (r, s') ∧ fileinv s' sv v' ∧ fstep sv s s' v v' ∧
    (r = 0 ∧ 64 * k + 64 ≤ MAXSIZE ∧ sfi_size (sv_i v') = Z.max (64 * n) (64 * k + 64) ∧
       contents (img s') (sv_i v') = splice (Z.to_nat k * 64) (enc_dir e) (contents (img s) (sv_i v))
     ∨ r ≠ 0 ∧ (r = ENOSPC ∧ full s' ∨ r = EINVAL ∧ MAXSIZE < 64 * k + 64) ∧ sfi_size (sv_i v') = 64 * n ∧
       contents (img s') (sv_i v') = contents (img s) (sv_i v)).
Proof.
  intros Hf Hsz Hmax Hk Hn. unfold sfs_writedir. unfold MAXSIZE in Hmax.
  erewrite bind_ok; [|unfold massert; rewrite (proj2 (Z.leb_le 0 k)) by lia; reflexivity].
  rewrite slot_pos by lia. unfold sizeof_sfs_dir.
  assert (length (enc_dir e) = 64%nat) as Hl by (unfold enc_dir; rewrite length_app, Hn; done).
  assert (kuio (mk_kuio (enc_dir e) 64 (64 * k) UIO_WRITE) [] (enc_dir e)) as K by (apply mk_kuio_kuio; lia).
  destruct (sfs_io_write s sv v _ [] _ Hf K eq_refl eq_refl)
    as (r & u' & s' & v' & j & E & A1 & A2 & A3 & A4 & A5 & A6 & A7 & A8 & A9 & A10 & A11 & A12); [lia|].
  cbn [mk_kuio uio_offset uio_resid] in *. rewrite (bind_ok _ _ _ _ _ E). rewrite Hsz in A8.
  destruct (Z.eqb_spec r 0) as [->|Hr]; cbn [negb].
  - rewrite (A9 eq_refl) in *. rewrite A6. exists 0, s', v'. split_and!; try done. left.
    split_and!; [done|lia|lia|]. rewrite A7. rewrite take_ge by (rewrite Hl; done).
    f_equal. lia.
  - exists r, s', v'. split_and!; try done. right. destruct (A12 Hr) as [Hj Hal].
    assert (j = 0) as -> by (destruct Hal as [|Hal]; [done|]; Z.to_euclidean_division_equations; lia).
    split_and!; [done| |lia|by rewrite A7, take_0, splice_nil].
    destruct (A11 Hr) as [[? ?]| ?]; [right|left]; done.
Qed.

(** ** The map under updates of one slot *)
Lemma dir_rep_insert es m k e0 e nm :
  dir_rep es m → es !! k = Some e0 → ¬ live e0 → m !! nm = None → live e → ename e = Some nm →
  dir_rep (<[k := e]> es) (<[nm := sfd_ino e]> m).
Proof.
  intros [R1 R2] Hk Hd Hm Hl Hn. assert (k < length es)%nat as Hlt by (by eapply lookup_lt_Some).
  assert (∀ j ej, es !! j = Some ej → live ej → ename ej ≠ Some nm) as Hno.
  { intros j ej Hj Hlj Enj. assert (m !! nm = Some (sfd_ino ej)) as Hx by (apply R1; exists j, ej; done). congruence. }
  constructor.
  - intros nm' ino. rewrite lookup_insert_Some. split.
    + intros [[<- <-]|[Hne Hnm']].
      * exists k, e. by rewrite list_lookup_insert_eq.
      * apply R1 in Hnm' as (j & ej & Hj & Hlj & Enj & <-). exists j, ej. split_and!; try done.
        rewrite list_lookup_insert_ne; [done|]. intros ->. rewrite Hk in Hj. by injection Hj as <-.
    + intros (j & ej & Hj & Hlj & Enj & <-). apply list_lookup_insert_Some in Hj as [(<- & <- & _)|(Hne & Hj)].
      * left. split; [congruence|done].
      * right. split; [intros <-; by destruct (Hno _ _ Hj Hlj)|]. apply R1. exists j, ej. done.
  - intros j1 j2 e1 e2 H1 H2 L1 L2 E12.
    apply list_lookup_insert_Some in H1 as [(<- & <- & _)|(Hne1 & H1)];
    apply list_lookup_insert_Some in H2 as [(<- & <- & _)|(Hne2 & H2)]; try done.
    + destruct (Hno _ _ H2 L2). congruence.
    + destruct (Hno _ _ H1 L1). congruence.
    + by eapply R2.
Qed.

Lemma dir_rep_grow es m e : dir_rep es m → ¬ live e → dir_rep (es ++ [e]) m.
Proof.
  intros [R1 R2] Hd. constructor.
  - intros nm ino. rewrite R1. split; intros (k & e' & Hk & Hl & R); exists k, e'.
    + split; [by apply lookup_snoc_Some; left|done].
    + apply lookup_snoc_Some in Hk as [Hk|[_ ->]]; done.
  - intros j1 j2 e1 e2 H1 H2 L1 L2. apply lookup_snoc_Some in H1 as [H1|[_ ->]]; [|done].
    apply lookup_snoc_Some in H2 as [H2|[_ ->]]; [|done]. by apply R2.
Qed.

Lemma dir_rep_delete es m k e nm e' :
  dir_rep es m → es !! k = Some e → live e → ename e = Some nm → ¬ live e' →
  dir_rep (<[k := e']> es) (delete nm m).
Proof.
  intros [R1 R2] Hk Hl Hn Hd. constructor.
  - intros nm' ino. rewrite lookup_delete_Some, R1. split.
    + intros (Hne & j & ej & Hj & Hlj & Enj & <-). exists j, ej. split_and!; try done.
      rewrite list_lookup_insert_ne; [done|]. intros ->. rewrite Hk in Hj. injection Hj as <-. congruence.
    + intros (j & ej & Hj & Hlj & Enj & <-). apply list_lookup_insert_Some in Hj as [(_ & <- & _)|(Hne & Hj)]; [done|].
      split; [|by exists j, ej]. intros <-. destruct Hne. apply (R2 k j e ej); congruence.
  - intros j1 j2 e1 e2 H1 H2 L1 L2 E12.
    apply list_lookup_insert_Some in H1 as [(_ & <- & _)|(Hne1 & H1)]; [done|].
    apply list_lookup_insert_Some in H2 as [(_ & <- & _)|(Hne2 & H2)]; [done|]. by eapply R2.
Qed.

(** The entry [sfs_dir_link] builds holds the name it was given. *)
Lemma link_entry name nm ino :
  Cstring.cstr name = Some nm → (length nm < 60)%nat →
  ∃ fld, Cstring.strcpy (replicate 60 0) name = Ok fld ∧ length fld = 60%nat ∧ ename (mkdir ino fld) = Some nm.
Proof.
  intros Hn Hl. unfold Cstring.strcpy. rewrite (Cstring.strcpy_from_cstr 0 _ name nm) by (done || len).
  eexists. split; [done|]. split; [by rewrite length_splice; len|].
  unfold ename. cbn [sfd_name]. unfold splice. rewrite take_0. cbn [app]. rewrite <- app_assoc. cbn [app].
  rewrite length_app. cbn [length]. rewrite drop_replicate.
  destruct (decide (length nm = 59%nat)) as [E|E].
  - rewrite insert_app_r_alt by lia. rewrite E. cbn. apply Cstring.cstr_app. by eapply Cstring.cstr_nz.
  - rewrite insert_app_r_alt by lia. destruct (59 - length nm)%nat as [|j] eqn:Ej; [lia|]. cbn [insert list_insert].
    apply Cstring.cstr_app. by eapply Cstring.cstr_nz.
Qed.

(** Storing entry [e] in slot [k], an existing one or the first past the end. *)
Lemma store_entry s s' sv v v' es m m' k e es' :
  dirinv s sv v es m → fileinv s' sv v' → fstep sv s s' v v' → 0 ≤ k ≤ Z.of_nat (length es) →
  u32_val (sfd_ino e) → length (sfd_name e) = 60%nat → 64 * k + 64 ≤ MAXSIZE →
  sfi_size (sv_i v') = Z.max (64 * Z.of_nat (length es)) (64 * k + 64) →
  contents (img s') (sv_i v') = splice (Z.to_nat k * 64) (enc_dir e) (contents (img s) (sv_i v)) →
  es' = (if decide (k = Z.of_nat (length es)) then es ++ [e] else <[Z.to_nat k := e]> es) →
  dir_rep es' m' → dirinv s' sv v' es' m'.
Proof.
  intros [D1 D2 D3 D4 D5 D6] Hf Hst Hk Hi Hn Hmax Hsz Hc -> Hrep.
  pose proof (contents_len s sv v D1) as Hcl. unfold MAXSIZE in *.
  assert (sfi_type (sv_i v') = SFS_TYPE_DIR) as Ht.
  { destruct (fs_vnode _ _ _ _ _ Hst) as (_ & _ & _ & _ & -> & _). done. }
  case_decide as E.
  - constructor; try done; rewrite length_app; cbn [length]; unfold MAXSIZE; try lia.
    rewrite Hc. replace (Z.to_nat k) with (length es) by lia. rewrite Nat.add_1_r, dents_splice_end by (done || lia).
    by rewrite <- D5.
  - constructor; try done; rewrite length_insert; unfold MAXSIZE; try lia.
    rewrite Hc, dents_splice_in by (done || lia). by rewrite <- D5.
Qed.

(** A failed write of an entry leaves the directory as it was. *)
Lemma keep_entries s s' sv v v' es m :
  dirinv s sv v es m → fileinv s' sv v' → fstep sv s s' v v' →
  sfi_size (sv_i v') = 64 * Z.of_nat (length es) →
  contents (img s') (sv_i v') = contents (img s) (sv_i v) → dirinv s' sv v' es m.
Proof.
  intros [D1 D2 D3 D4 D5 D6] Hf Hst Hsz Hc. constructor; try done; [|by rewrite Hc].
  destruct (fs_vnode _ _ _ _ _ Hst) as (_ & _ & _ & _ & -> & _). done.
Qed.

(** ** Theorems *)

(** [sfs_dir_findname] is lookup: it finds a name exactly when the map has it,
    with the inode number the map gives and the slot it is in. *)
Theorem sfs_dir_findname_lookup s sv v es m name nm :
  dirinv s sv v es m → Cstring.cstr name = Some nm →
  ∃ f s', sfs_dir_findname sv name s = Ok (inr f, s') ∧ dirinv s' sv v es m ∧ img s' = img s ∧
    match m !! nm with
    | Some ino => f_found f = true ∧ f_ino f = Some ino ∧
        ∃ k e, f_slot f = Some (Z.of_nat k) ∧ es !! k = Some e ∧ sfd_ino e = ino ∧ ename e = Some nm
    | None => f_found f = false
    end.
Proof.
  intros D Hn. destruct (findname_run s sv v es m name nm D Hn) as (f & s' & E & A1 & A2 & A3 & A4).
  exists f, s'. split_and!; try done. pose proof (find_inv_lookup nm es m f (di_rep _ _ _ _ _ D) A4) as H.
  destruct (f_found f).
  - destruct H as (k & e & Hk & Hl & En & -> & Hi & Hs). split_and!; try done. by exists k, e.
  - by rewrite H.
Qed.

(** C4: [sfs_dir_link] is insertion: EEXIST if the name is there, ENAMETOOLONG if
    it does not fit, otherwise the map gains exactly that entry, or the volume or
    the directory is full and nothing changes. *)
Theorem sfs_dir_link_inserts s sv v es m name nm ino :
  dirinv s sv v es m → Cstring.cstr name = Some nm → Z.of_nat (length nm) < 2 ^ 31 → 0 < ino < 2 ^ 32 →
  match m !! nm with
  | Some _ => ∃ s', sfs_dir_link sv name ino s = Ok (inl EEXIST, s') ∧ dirinv s' sv v es m
  | None =>
      if decide (60 ≤ length nm)%nat
      then ∃ s', sfs_dir_link sv name ino s = Ok (inl ENAMETOOLONG, s') ∧ dirinv s' sv v es m
      else ∃ r s' v', sfs_dir_link sv name ino s = Ok (r, s') ∧ fstep sv s s' v v' ∧
             match r with
             | inr slot => ∃ es', dirinv s' sv v' es' (<[nm := ino]> m) ∧
                 ∃ e, es' !! Z.to_nat slot = Some e ∧ ename e = Some nm ∧ sfd_ino e = ino
             | inl e => (e = ENOSPC ∧ full s' ∨ e = EINVAL ∧ MAXSIZE < 64 * Z.of_nat (length es) + 64) ∧ dirinv s' sv v' es m
             end
  end.
Proof.
  intros D Hn Hlen Hino. destruct (findname_run s sv v es m name nm D Hn) as (f & s1 & E & D1 & St1 & Im1 & Hinv).
  unfold sfs_dir_link. pose proof (find_inv_lookup nm es m f (di_rep _ _ _ _ _ D) Hinv) as H.
  rewrite (bind_ok _ _ _ _ _ E). destruct (f_found f).
  { destruct H as (k & e & _ & _ & _ & -> & _). exists s1. done. }
  rewrite H. erewrite bind_ok; [|by apply lift_run, Cstring.strlen_cstr]. rewrite u32_small by lia.
  unfold SFS_NAMELEN. destruct (decide (60 ≤ length nm)%nat) as [Hbig|Hsmall].
  { rewrite (proj2 (Z.gtb_lt _ 60)) by lia. exists s1. done. }
  destruct (Z.gtb_spec (Z.of_nat (length nm) + 1) 60) as [|_]; [lia|].
  pose proof D1 as [F1 F2 F3 F4 F5 F6].
  destruct (link_entry name nm ino Hn) as (fld & Ecpy & Hfl & Hen); [lia|].
  assert (∃ k, (match f_empty f with Some i => mret i | None => sfs_dir_nentries sv end) s1 = Ok (k, s1) ∧
    0 ≤ k ≤ Z.of_nat (length es) ∧ (k < Z.of_nat (length es) → ∃ e0, es !! Z.to_nat k = Some e0 ∧ ¬ live e0))
    as (k & Ek & Hk & Hdead).
  { pose proof (fd_empty _ _ _ Hinv) as He. destruct (f_empty f) as [k|].
    - destruct He as (j & e0 & -> & Hj & Hd). exists (Z.of_nat j). apply lookup_lt_Some in Hj as Hjl.
      split_and!; [done|lia|lia|]. intros _. rewrite Nat2Z.id. eauto.
    - exists (Z.of_nat (length es)). split_and!; [|lia|lia|lia].
      by apply (nentries_run s1 sv v); [apply F1|done|done|lia|done]. }
  rewrite (bind_ok _ _ _ _ _ Ek). erewrite bind_ok; [|by apply lift_run].
  destruct (writedir_run s1 sv v (Z.of_nat (length es)) (mkdir ino fld) k F1 F3 F4 Hk Hfl)
    as (r & s2 & v2 & E2 & G1 & G2 & G3).
  assert (fstep sv s s2 v v2) as St2 by (by eapply (fstep_trans' sv s s1 s2 v v v2)).
  rewrite (bind_ok _ _ _ _ _ E2). destruct G3 as [(-> & Hm & Hs & Hc)|(Hr & He & Hs & Hc)].
  - exists (inr k), s2, v2. split_and!; try done.
    set (es' := if decide (k = Z.of_nat (length es)) then es ++ [mkdir ino fld] else <[Z.to_nat k := mkdir ino fld]> es).
    exists es'. assert (live (mkdir ino fld)) as Hlive by (unfold live, SFS_NOINO; cbn; lia).
    assert (u32_val ino) as Hu by (unfold u32_val; lia).
    split.
    + apply (store_entry s1 s2 sv v v2 es m _ k (mkdir ino fld)); try done.
      unfold es'. case_decide as Ed.
      * replace (es ++ [mkdir ino fld]) with (<[length es := mkdir ino fld]> (es ++ [mkdir 0 fld]))
          by (by rewrite insert_app_r_alt, Nat.sub_diag by lia).
        apply (dir_rep_insert _ _ _ (mkdir 0 fld)); try done; [|by rewrite list_lookup_middle|intros Hx; by apply Hx].
        apply dir_rep_grow; [done|]. intros Hx. by apply Hx.
      * destruct Hdead as (e0 & He0 & Hd0); [lia|]. by apply (dir_rep_insert _ _ _ e0).
    + exists (mkdir ino fld). split; [|done]. unfold es'. case_decide as Ed.
      * subst k. rewrite Nat2Z.id. by rewrite list_lookup_middle.
      * apply list_lookup_insert_eq. lia.
  - exists (inl r), s2, v2. rewrite (proj2 (Z.eqb_neq r 0)) by done. split_and!; [done|done| |by eapply keep_entries].
    destruct He as [|[? ?]]; [by left|right]. split; [done|lia].
Qed.

(** [sfs_dir_unlink] of the slot a name is in is deletion. *)
Theorem sfs_dir_unlink_deletes s sv v es m nm k e :
  dirinv s sv v es m → es !! k = Some e → live e → ename e = Some nm →
  ∃ r s' v', sfs_dir_unlink sv (Z.of_nat k) s = Ok (r, s') ∧ fstep sv s s' v v' ∧
    (if decide (r = 0) then ∃ es', dirinv s' sv v' es' (delete nm m) ∧ length es' = length es
     else r = ENOSPC ∧ full s' ∧ dirinv s' sv v' es m).
Proof.
  intros D Hk Hl Hn. pose proof D as [F1 F2 F3 F4 F5 F6]. apply lookup_lt_Some in Hk as Hlt. unfold sfs_dir_unlink.
  destruct (writedir_run s sv v (Z.of_nat (length es)) (mkdir SFS_NOINO (replicate 60 0)) (Z.of_nat k) F1 F3 F4)
    as (r & s2 & v2 & E2 & G1 & G2 & G3); [lia|done|].
  exists r, s2, v2. split_and!; try done. destruct G3 as [(-> & Hm & Hs & Hc)|(Hr & He & Hs & Hc)].
  - rewrite decide_True by done. exists (<[k := mkdir SFS_NOINO (replicate 60 0)]> es).
    split; [|by rewrite length_insert].
    eapply (store_entry s s2 sv v v2 es m _ (Z.of_nat k)); try done; try lia.
    + by unfold u32_val, SFS_NOINO; cbn; lia.
    + done.
    + rewrite decide_False by lia. by rewrite Nat2Z.id.
    + eapply dir_rep_delete; try done. intros Hx. by apply Hx.
  - rewrite decide_False by done. destruct He as [[? ?]|[_ ?]]; [|lia].
    split_and!; [done|done|by eapply keep_entries].
Qed.

End Sfsdir.
