(* ===== verification/Sfstrunc.v ===== *)
(** * SFS truncation, properties of [sfs_truncate] in sfs_vnode.c

    Truncating keeps the file invariant, keeps the contents up to the new length,
    and gives back exactly the blocks the file stops pointing to.  Which pointers
    it keeps is [keepblk]: the code's test for the indirect range is off by one, so
    one block past the new end can survive there. *)
From stdpp Require Import base list gmap numbers.
From S2P Require Import Prelude Array Bitmap Copyinout Uio Lhd Cstring Sfsdisk Sfs Sfsfile.
Local Open Scope Z_scope.

Module Sfstrunc.
Import Copyinout Uio Lhd Sfsdisk Sfs Sfsfile.

(** Is pointer [k] kept when the file is cut to [blocklen] blocks? *)
Definition keepblk (blocklen : Z) (k : nat) : bool :=
  if (k <? 15)%nat then Z.of_nat k <? blocklen else Z.of_nat k <=? blocklen.

(** ** Freeing one block *)
Lemma bfree_run s b :
  fs_wf s → 0 < b < nblocks s → used s b →
  ∃ s', sfs_bfree b s = Ok (tt, s') ∧ fs_wf s' ∧ same_rest s s' ∧ heap s' = heap s ∧ img s' = img s ∧
    sfs_device s' = sfs_device s ∧ ∀ c, 0 ≤ c → used s' c ↔ c ≠ b ∧ used s c.
Proof.
  intros Hw Hb Hu. pose proof Hw as [H1 H2 H3 H4 H5 H6 H7]. unfold sfs_bfree.
  pose proof (Bitmap.bitmap_unmark_clears (sfs_freemap s) b H3 ltac:(lia)) as H.
  rewrite Hu in H. destruct H as (fm' & E & W & N & Hm).
  erewrite bind_ok; [|reflexivity]. erewrite bind_ok; [|by apply lift_run].
  set (s' := set_freemap fm' true s).
  assert (∀ c, 0 ≤ c → used s' c ↔ c ≠ b ∧ used s c) as Hus.
  { intros c Hc. unfold used. cbn. rewrite Hm by done. case_decide; naive_solver. }
  exists s'. split_and!; try done. constructor; try done; cbn; rewrite ?N; try done.
  - intros c Hc. change (nblocks s') with (nblocks s) in Hc. apply Hus; [lia|]. split; [lia|by apply H6].
  - apply Hus; [lia|]. split; [lia|done].
Qed.

(** ** Effect on the whole file *)

(** Cutting the pointers of [v] in [s] down to those satisfying [keep]: the
    blocks that are dropped, and only those, become free. *)
Record cut (sv : nat) (s s' : sfs_fs) (v v' : sfs_vnode) (keep : nat → bool) : Prop := {
  ct_inv : fileinv s' sv v';
  ct_rest : same_rest s s';
  ct_heap : heap s' = <[sv := v']> (heap s);
  ct_meta : same_meta v v';
  ct_ptrs : ∀ k, ptrs (img s') (sv_i v') !! k =
    (fun b => if keep k then b else 0) <$> ptrs (img s) (sv_i v) !! k;
  ct_ind : sfi_indirect (sv_i v') = sfi_indirect (sv_i v) ∨ sfi_indirect (sv_i v') = 0;
  ct_used : ∀ c, 0 ≤ c → used s' c ↔ used s c ∧ ¬ (owns (img s) (sv_i v) c ∧ ¬ owns (img s') (sv_i v') c);
  ct_img : ∀ b, b = 0 ∨ b ≠ sfi_indirect (sv_i v) → 0 ≤ b → img s' !! Z.to_nat b = img s !! Z.to_nat b
}.

Section free.
Context (n : Z) (usd : Z → Prop) (im : list (list Z)) (i : sfs_inode).
Hypothesis Hok : inode_ok n usd im i.

(** Dropping a direct pointer. *)
Lemma drop_direct_ptrs k :
  (k < 15)%nat → ptrs im (with_direct (<[k := 0]> (sfi_direct i)) i) = <[k := 0]> (ptrs im i).
Proof. intros. unfold ptrs. cbn. by rewrite insert_app_l by (rewrite (io_direct _ _ _ _ Hok); lia). Qed.

Lemma drop_direct_ok k b :
  (k < 15)%nat → ptrs im i !! k = Some b → b ≠ 0 →
  inode_ok n (fun c => c ≠ b ∧ usd c) im (with_direct (<[k := 0]> (sfi_direct i)) i).
Proof.
  intros Hk Hb Hb0. pose proof (drop_direct_ptrs k Hk) as Hp. destruct Hok as [H1 H2 H3 H4 H5 H6 H7].
  constructor; rewrite ?Hp; cbn; try done.
  - by rewrite length_insert.
  - intros j c Hj. apply list_lookup_insert_Some in Hj as [(_ & <- & _)|(Hne & Hj)]; [by left|].
    destruct (decide (c = 0)) as [->|Hc]; [by left|]. destruct (H4 _ _ Hj) as [|[? ?]]; [done|right].
    split; [done|]. split; [|done]. intros ->. destruct Hne. by eapply H6.
  - destruct H5 as [|[? ?]]; [by left|]. destruct (decide (sfi_indirect i = 0)); [by left|right].
    split; [done|]. split; [|done]. intros <-. by apply (H7 k).
  - intros j1 j2 c J1 J2 Hc. apply list_lookup_insert_Some in J1 as [(_ & <- & _)|(_ & J1)]; [done|].
    apply list_lookup_insert_Some in J2 as [(_ & <- & _)|(_ & J2)]; [done|]. by eapply H6.
  - intros j Hind Hj. apply list_lookup_insert_Some in Hj as [(_ & E & _)|(_ & Hj)]; [by rewrite <- E in Hind|].
    by apply (H7 j).
Qed.

Lemma owns_lookup c : owns im i c ↔ c ≠ 0 ∧ ((∃ k, ptrs im i !! k = Some c) ∨ c = sfi_indirect i).
Proof. unfold owns. by rewrite list_elem_of_lookup. Qed.
End free.

Lemma cut_refl sv s v : fileinv s sv v → cut sv s s v v (fun _ => true).
Proof.
  intros H. constructor; try done; try (by left).
  - rewrite insert_id; [done|apply H].
  - intros k. by destruct (ptrs _ _ !! k).
  - intros c _. tauto.
Qed.

(** A further cut. *)
Lemma cut_trans sv s1 s2 s3 v1 v2 v3 k1 k2 :
  cut sv s1 s2 v1 v2 k1 → cut sv s2 s3 v2 v3 k2 → sfi_indirect (sv_i v2) = sfi_indirect (sv_i v1) →
  cut sv s1 s3 v1 v3 (fun k => k1 k && k2 k).
Proof.
  intros [A1 A2 A3 A4 A5 A6 A7 A8] [B1 B2 B3 B4 B5 B6 B7 B8] Hind.
  assert (∀ k, ptrs (img s3) (sv_i v3) !! k =
    (fun b => if k1 k && k2 k then b else 0) <$> ptrs (img s1) (sv_i v1) !! k) as Hp.
  { intros k. rewrite B5, A5. destruct (ptrs (img s1) (sv_i v1) !! k); [|done]. cbn. by destruct (k1 k), (k2 k). }
  assert (∀ c, owns (img s3) (sv_i v3) c → owns (img s2) (sv_i v2) c) as O32.
  { intros c. rewrite !owns_lookup. intros [Hc [[k Hk]|Hk]]; (split; [done|]).
    - left. exists k. rewrite B5 in Hk. destruct (ptrs (img s2) (sv_i v2) !! k) as [b|]; [|done].
      cbn in Hk. destruct (k2 k); [done|]. congruence.
    - right. destruct B6; congruence. }
  assert (∀ c, owns (img s2) (sv_i v2) c → owns (img s1) (sv_i v1) c) as O21.
  { intros c. rewrite !owns_lookup. intros [Hc [[k Hk]|Hk]]; (split; [done|]).
    - left. exists k. rewrite A5 in Hk. destruct (ptrs (img s1) (sv_i v1) !! k) as [b|]; [|done].
      cbn in Hk. destruct (k1 k); [done|]. congruence.
    - right. congruence. }
  constructor; try done.
  - by etrans.
  - by rewrite B3, A3, insert_insert_eq.
  - unfold same_meta in *. naive_solver congruence.
  - rewrite <- Hind. done.
  - intros c Hc. rewrite B7, A7 by done. split; [|naive_solver].
    intros [[Hu Hn1] Hn2]. split; [done|]. intros [Ho1 Ho3].
    destruct (decide (owns (img s2) (sv_i v2) c)); tauto.
  - intros b Hb Hb0. rewrite B8, A8; [done|done|done|by rewrite Hind|done].
Qed.

Lemma fmap_Some_eq {A B} (f : A → B) x : f <$> Some x = Some (f x).
Proof. done. Qed.

Lemma cut_ext sv s s' v v' k1 k2 :
  (∀ k, (k < 143)%nat → k1 k = k2 k) → length (ptrs (img s) (sv_i v)) = 143%nat →
  cut sv s s' v v' k1 → cut sv s s' v v' k2.
Proof.
  intros Hk Hl [A1 A2 A3 A4 A5 A6 A7 A8]. constructor; try done. intros k. rewrite A5.
  destruct (ptrs (img s) (sv_i v) !! k) eqn:E; [|done]. cbn. rewrite Hk; [done|].
  rewrite <- Hl. by eapply lookup_lt_Some.
Qed.

(** ** The direct blocks *)
Lemma drop_direct_cut s sv v k b :
  fileinv s sv v → (k < 15)%nat → ptrs (img s) (sv_i v) !! k = Some b → b ≠ 0 →
  ∃ s' v', (let* _ := sfs_bfree b in
            updv sv (fun v => set_inode (with_direct (<[k := 0]> (sfi_direct (sv_i v))) (sv_i v)) true v)) s
             = Ok (tt, s') ∧
    cut sv s s' v v' (fun j => negb (j =? k)%nat) ∧ sfi_indirect (sv_i v') = sfi_indirect (sv_i v) ∧
    sfi_size (sv_i v') = sfi_size (sv_i v) ∧ img s' = img s.
Proof.
  intros [Hw Hv Hok] Hk Hb Hb0. destruct (io_ptrs _ _ _ _ Hok k b Hb) as [|[Hbr Hu]]; [done|].
  destruct (bfree_run s b Hw Hbr Hu) as (s1 & E & W1 & R1 & H1 & I1 & _ & U1).
  rewrite (bind_ok _ _ _ _ _ E). assert (heap s1 !! sv = Some v) as Hv1 by (by rewrite H1).
  rewrite (updv_run _ _ _ _ Hv1).
  set (v' := set_inode (with_direct (<[k := 0]> (sfi_direct (sv_i v))) (sv_i v)) true v).
  set (s2 := set_heap (<[sv := v']> (heap s1)) (heap_next s1) s1).
  assert (img s2 = img s) as I2 by done. assert (∀ c, used s2 c ↔ used s1 c) as U2 by done.
  assert (nblocks s2 = nblocks s) as Hn by (unfold nblocks; cbn; by rewrite (sr_super _ _ R1)).
  pose proof (drop_direct_ptrs _ _ _ _ Hok k Hk) as Hp. pose proof (drop_direct_ok _ _ _ _ Hok k b Hk Hb Hb0) as Hok'.
  assert (∀ c, owns (img s2) (sv_i v') c ↔ owns (img s) (sv_i v) c ∧ c ≠ b) as Ho.
  { intros c. rewrite !owns_lookup, I2. cbn [v' set_inode sv_i]. rewrite Hp. cbn [with_direct sfi_indirect]. split.
    - intros [Hc [[j Hj]|Hj]].
      + apply list_lookup_insert_Some in Hj as [(_ & <- & _)|(Hne & Hj)]; [done|].
        split; [split; [done|by left; exists j]|]. intros ->. destruct Hne. by eapply (io_inj _ _ _ _ Hok).
      + split; [split; [done|by right]|]. intros ->. by apply (io_ind_fresh _ _ _ _ Hok k); congruence.
    - intros [[Hc [[j Hj]|Hj]] Hcb]; (split; [done|]); [left|by right].
      exists j. rewrite list_lookup_insert_ne; [done|]. intros <-. congruence. }
  exists s2, v'. split; [done|]. split_and!; try done. constructor; try done.
  - constructor; [by destruct W1|apply lookup_insert_eq|]. rewrite Hn, I2.
    eapply inode_ok_mono; [|exact Hok']. intros c Hc [Hcb Hc2]. apply U2, U1; [lia|done].
  - by destruct R1.
  - unfold s2. cbn. by rewrite H1.
  - intros j. rewrite I2. cbn [v' set_inode sv_i]. rewrite Hp. destruct (decide (j = k)) as [->|Hj].
    + rewrite list_lookup_insert_eq by (by eapply lookup_lt_Some). rewrite Hb, Nat.eqb_refl. done.
    + rewrite list_lookup_insert_ne by done. rewrite (proj2 (Nat.eqb_neq j k)) by done.
      by destruct (ptrs (img s) (sv_i v) !! j).
  - by left.
  - intros c Hc. rewrite U2, U1, Ho by done. split; [|intros [Hc1 Hc2]; split; [|done]].
    + intros [Hcb Hcu]. split; [done|]. tauto.
    + intros ->. apply Hc2. split; [|tauto]. apply owns_lookup. split; [done|]. left. by exists k.
  - intros c _ _. by rewrite I2.
Qed.

Lemma truncate_direct_run n i s sv v bl :
  fileinv s sv v → (i + n = 15)%nat →
  ∃ s' v', truncate_direct n (Z.of_nat i) bl sv s = Ok (tt, s') ∧
    cut sv s s' v v' (fun k => negb ((i <=? k)%nat && (k <? 15)%nat && (bl <=? Z.of_nat k))) ∧
    sfi_indirect (sv_i v') = sfi_indirect (sv_i v) ∧ img s' = img s.
Proof.
  revert i s v. induction n as [|n IH]; intros i s v Hf Hi; cbn [truncate_direct].
  { exists s, v. split; [done|]. split_and!; try done. eapply cut_ext; [| |by apply cut_refl].
    - intros k Hk. destruct (Nat.leb_spec i k), (Nat.ltb_spec k 15); (lia || done).
    - apply length_ptrs, Hf. }
  pose proof Hf as [Hw Hv Hok]. rewrite (bind_ok _ _ _ _ _ (getv_run _ _ _ Hv)). rewrite Nat2Z.id.
  destruct (lookup_lt_is_Some_2 (sfi_direct (sv_i v)) i) as [b Hb]; [rewrite (io_direct _ _ _ _ Hok); lia|].
  assert (ptrs (img s) (sv_i v) !! i = Some b) as Hp by (by apply lookup_app_l_Some).
  erewrite bind_ok; [|apply lift_run; by rewrite Hb].
  replace (Z.of_nat i + 1) with (Z.of_nat (S i)) by lia.
  assert (length (ptrs (img s) (sv_i v)) = 143%nat) as Hpl by (apply length_ptrs, Hok).
  destruct ((bl <=? Z.of_nat i) && negb (b =? 0)) eqn:Ec.
  - apply andb_prop in Ec as [Ebl Eb]. apply negb_true_iff, Z.eqb_neq in Eb.
    destruct (drop_direct_cut s sv v i b Hf) as (s1 & v1 & E & C1 & Hi1 & _ & Im1); [lia|done|done|].
    rewrite (bind_ok _ _ _ _ _ E).
    destruct (IH (S i) s1 v1 (ct_inv _ _ _ _ _ _ C1)) as (s2 & v2 & E2 & C2 & Hi2 & Im2); [lia|].
    exists s2, v2. split; [done|]. split_and!; [|congruence|congruence].
    eapply cut_ext; [|exact Hpl|exact (cut_trans _ _ _ _ _ _ _ _ _ C1 C2 Hi1)].
    intros k _. cbn beta. destruct (Nat.eqb_spec k i) as [->|Hne]; cbn [negb andb].
    + rewrite (proj2 (Nat.leb_le i i)), (proj2 (Nat.ltb_lt i 15)), Ebl by lia. done.
    + destruct (Nat.leb_spec (S i) k), (Nat.leb_spec i k); (lia || done).
  - erewrite bind_ok; [|reflexivity].
    destruct (IH (S i) s v Hf) as (s2 & v2 & E2 & C2 & Hi2 & Im2); [lia|].
    exists s2, v2. split; [done|]. split_and!; try done.
    destruct C2 as [A1 A2 A3 A4 A5 A6 A7 A8]. constructor; try done. intros k. rewrite A5.
    destruct (decide (k = i)) as [->|Hne].
    + rewrite Hp, !fmap_Some_eq. f_equal.
      rewrite (proj2 (Nat.leb_gt (S i) i)), (proj2 (Nat.leb_le i i)), (proj2 (Nat.ltb_lt i 15)) by lia.
      cbn [andb negb]. apply andb_false_iff in Ec as [-> |Eb]; [done|]. apply negb_false_iff, Z.eqb_eq in Eb as ->.
      by destruct (negb _).
    + destruct (Nat.leb_spec (S i) k), (Nat.leb_spec i k); (lia || done).
Qed.

(** ** The indirect block *)
Definition zapfrom (j : nat) (bl : Z) (buf : list Z) : list Z :=
  imap (fun k b => if (j <=? k)%nat && (bl <? 15 + Z.of_nat k) then 0 else b) buf.

Lemma lookup_zapfrom j bl buf k :
  zapfrom j bl buf !! k = (fun b => if (j <=? k)%nat && (bl <? 15 + Z.of_nat k) then 0 else b) <$> buf !! k.
Proof. apply list_lookup_imap. Qed.

Lemma length_zapfrom j bl buf : length (zapfrom j bl buf) = length buf.
Proof. apply length_imap. Qed.

Lemma zapfrom_ge j bl buf : (length buf ≤ j)%nat → zapfrom j bl buf = buf.
Proof.
  intros H. apply list_eq. intros k. rewrite lookup_zapfrom. destruct (buf !! k) eqn:E; [|done].
  apply lookup_lt_Some in E. rewrite fmap_Some_eq, (proj2 (Nat.leb_gt j k)) by lia. done.
Qed.

Lemma zapfrom_keep j bl buf b :
  buf !! j = Some b → (bl <? 15 + Z.of_nat j) && negb (b =? 0) = false → zapfrom (S j) bl buf = zapfrom j bl buf.
Proof.
  intros Hb Hc. apply list_eq. intros k. rewrite !lookup_zapfrom. destruct (decide (k = j)) as [->|Hne].
  - rewrite Hb, !fmap_Some_eq, (proj2 (Nat.leb_gt (S j) j)), (proj2 (Nat.leb_le j j)) by lia. cbn [andb]. f_equal.
    apply andb_false_iff in Hc as [-> |Hc]; [done|]. apply negb_false_iff, Z.eqb_eq in Hc as ->. by case_if.
  - destruct (Nat.leb_spec (S j) k), (Nat.leb_spec j k); (lia || done).
Qed.

Lemma zapfrom_drop j bl buf b :
  buf !! j = Some b → (bl <? 15 + Z.of_nat j) = true → zapfrom (S j) bl (<[j := 0]> buf) = zapfrom j bl buf.
Proof.
  intros Hb Hc. apply list_eq. intros k. rewrite !lookup_zapfrom. destruct (decide (k = j)) as [->|Hne].
  - rewrite list_lookup_insert_eq by (by eapply lookup_lt_Some). rewrite Hb, !fmap_Some_eq.
    rewrite (proj2 (Nat.leb_gt (S j) j)), (proj2 (Nat.leb_le j j)), Hc by lia. done.
  - rewrite list_lookup_insert_ne by done. destruct (Nat.leb_spec (S j) k), (Nat.leb_spec j k); (lia || done).
Qed.

(** The blocks the loop frees from index [j] on. *)
Definition freed (j : nat) (bl : Z) (buf : list Z) (c : Z) : Prop :=
  c ≠ 0 ∧ ∃ k, (j ≤ k)%nat ∧ bl < 15 + Z.of_nat k ∧ buf !! k = Some c.

Record zap_ok (s : sfs_fs) (j : nat) (bl : Z) (buf : list Z) : Prop := {
  zk_len : length buf = 128%nat;
  zk_valid : ∀ k b, (j ≤ k)%nat → buf !! k = Some b → b ≠ 0 → bl < 15 + Z.of_nat k → 0 < b < nblocks s ∧ used s b;
  zk_inj : ∀ k1 k2 b, buf !! k1 = Some b → buf !! k2 = Some b → b ≠ 0 → k1 = k2
}.

(** What the loop has done to the state. *)
Record zapped (s s' : sfs_fs) (fr : Z → Prop) : Prop := {
  zp_fs : fs_wf s';
  zp_rest : same_rest s s';
  zp_heap : heap s' = heap s;
  zp_dev : sfs_device s' = sfs_device s;
  zp_used : ∀ c, 0 ≤ c → used s' c ↔ used s c ∧ ¬ fr c
}.

(** [iddirty] is never reset. *)
Lemma truncate_indirect_dirty n z bl base h bf st hn' idd' r s2 :
  truncate_indirect n z bl base h true bf st = Ok ((hn', idd', r), s2) → idd' = true.
Proof.
  revert z h bf st. induction n as [|n IHn]; intros z h bf st; cbn [truncate_indirect]; [by intros [= _ ? _]|].
  unfold mbind, M_bind, lift. destruct (of_option (bf !! Z.to_nat z)); try done.
  destruct ((bl <? base + z) && negb (a =? 0)); [|apply IHn].
  destruct (sfs_bfree a st) as [[]| | |]; try done. apply IHn.
Qed.

Lemma truncate_indirect_run n j s bl hn idd buf :
  fs_wf s → zap_ok s j bl buf → (j + n = 128)%nat →
  ∃ s' hn' idd', truncate_indirect n (Z.of_nat j) bl 15 hn idd buf s = Ok ((hn', idd', zapfrom j bl buf), s') ∧
    zapped s s' (freed j bl buf) ∧
    (hn' = false ↔ hn = false ∧ ∀ k b, (j ≤ k)%nat → zapfrom j bl buf !! k = Some b → b = 0) ∧
    (idd' = false → zapfrom j bl buf = buf).
Proof.
  revert j s hn idd buf. induction n as [|n IH]; intros j s hn idd buf Hw Hz Hj; cbn [truncate_indirect];
    pose proof Hz as [Z1 Z2 Z3].
  { rewrite zapfrom_ge by lia. exists s, hn, idd. split; [done|]. split_and!; try done.
    - constructor; try done. intros c _. split; [|tauto]. intros Hu. split; [done|]. intros (_ & k & Hk & _ & Hb).
      apply lookup_lt_Some in Hb. lia.
    - split; [|tauto]. intros ->. split; [done|]. intros k b Hk Hb. apply lookup_lt_Some in Hb. lia. }
  rewrite Nat2Z.id. destruct (lookup_lt_is_Some_2 buf j) as [b Hb]; [lia|].
  erewrite bind_ok; [|apply lift_run; by rewrite Hb].
  replace (Z.of_nat j + 1) with (Z.of_nat (S j)) by lia.
  destruct ((bl <? 15 + Z.of_nat j) && negb (b =? 0)) eqn:Ec.
  - apply andb_prop in Ec as [Ebl Eb]. apply negb_true_iff, Z.eqb_neq in Eb. apply Z.ltb_lt in Ebl as Hbl.
    destruct (Z2 j b ltac:(lia) Hb Eb Hbl) as [Hbr Hu].
    destruct (bfree_run s b Hw Hbr Hu) as (s1 & E & W1 & R1 & H1 & _ & D1 & U1). rewrite (bind_ok _ _ _ _ _ E).
    assert (nblocks s1 = nblocks s) as Hn1 by (unfold nblocks; by rewrite (sr_super _ _ R1)).
    assert (zap_ok s1 (S j) bl (<[j := 0]> buf)) as Hz1.
    { constructor; [by rewrite length_insert| |].
      - intros k c Hk Hc Hc0 Hblk. rewrite list_lookup_insert_ne in Hc by lia.
        destruct (Z2 k c ltac:(lia) Hc Hc0 Hblk) as [Hcr Hcu]. rewrite Hn1. split; [done|]. apply U1; [lia|].
        split; [|done]. intros ->. assert (k = j) by (by eapply Z3). lia.
      - intros k1 k2 c C1 C2 Hc0. apply list_lookup_insert_Some in C1 as [(_ & <- & _)|(_ & C1)]; [done|].
        apply list_lookup_insert_Some in C2 as [(_ & <- & _)|(_ & C2)]; [done|]. by eapply Z3. }
    destruct (IH (S j) s1 hn true (<[j := 0]> buf) W1 Hz1) as (s2 & hn' & idd' & E2 & P2 & Hhn & _); [lia|].
    apply truncate_indirect_dirty in E2 as Hdirty. subst idd'.
    rewrite (zapfrom_drop j bl buf b Hb Ebl) in *. exists s2, hn', true. split; [done|].
    destruct P2 as [P1 P2 P3 P4 P5]. split_and!; try done.
    + constructor; try congruence; [by etrans|]. intros c Hc. rewrite P5, U1 by done. split.
      * intros [[Hcb Hcu] Hnf]. split; [done|]. intros (Hc0 & k & Hk & Hkbl & Hkc). apply Hnf. split; [done|].
        exists k. assert (k ≠ j) by (intros ->; congruence). split_and!; [lia|done|]. by rewrite list_lookup_insert_ne by lia.
      * intros [Hcu Hnf]. split; [split; [|done]|].
        -- intros ->. apply Hnf. split; [done|]. exists j. split_and!; (lia || done).
        -- intros (Hc0 & k & Hk & Hkbl & Hkc). apply Hnf. split; [done|]. exists k.
           rewrite list_lookup_insert_ne in Hkc by lia. split_and!; (lia || done).
    + rewrite Hhn. apply and_iff_compat_l. split; intros Hall k c Hk Hkc; [|by apply (Hall k c); [lia|]].
      destruct (decide (k = j)) as [->|]; [|by apply (Hall k c); [lia|]].
      rewrite lookup_zapfrom, Hb, fmap_Some_eq, (proj2 (Nat.leb_le j j)), Ebl in Hkc by lia. by injection Hkc.
  - assert (zap_ok s (S j) bl buf) as Hz1 by (constructor; try done; intros; apply (Z2 k b0); (lia || done)).
    destruct (IH (S j) s (hn || negb (b =? 0)) idd buf Hw Hz1) as (s2 & hn' & idd' & E2 & P2 & Hhn & Hid); [lia|].
    rewrite (zapfrom_keep j bl buf b Hb Ec) in *. exists s2, hn', idd'. split; [done|].
    destruct P2 as [P1 P2 P3 P4 P5]. split_and!; try done.
    + constructor; try done. intros c Hc. rewrite P5 by done. apply and_iff_compat_l. apply not_iff_compat.
      split; intros (Hc0 & k & Hk & Hkbl & Hkc); (split; [done|]); exists k; split_and!; try done; [lia|].
      destruct (decide (k = j)) as [->|]; [|lia]. exfalso. rewrite Hb in Hkc. injection Hkc as ->.
      apply andb_false_iff in Ec as [Ec|Ec]; [apply Z.ltb_ge in Ec; lia|]. by apply negb_false_iff, Z.eqb_eq in Ec.
    + rewrite Hhn, orb_false_iff. split.
      * intros [[-> Hb0] Hall]. split; [done|]. intros k c Hk Hkc. destruct (decide (k = j)) as [->|]; [|by apply (Hall k c); [lia|]].
        apply negb_false_iff, Z.eqb_eq in Hb0 as ->. rewrite lookup_zapfrom, Hb, fmap_Some_eq in Hkc. by case_if_in Hkc; injection Hkc.
      * intros [-> Hall]. split; [split; [done|]|by intros k c Hk; apply Hall; lia].
        apply negb_false_iff, Z.eqb_eq. apply (Hall j b); [lia|]. rewrite lookup_zapfrom, Hb, fmap_Some_eq. f_equal.
        rewrite (proj2 (Nat.leb_le j j)) by lia. cbn [andb]. destruct (bl <? 15 + Z.of_nat j); [|done].
        cbn [andb] in Ec. by apply negb_false_iff, Z.eqb_eq in Ec.
Qed.

(** *** Putting the pieces together *)
Definition keepind (bl : Z) (k : nat) : bool := (k <? 15)%nat || (Z.of_nat k <=? bl).

Section assemble.
Context (s s' : sfs_fs) (sv : nat) (v v' : sfs_vnode) (bl : Z).
Let ind := sfi_indirect (sv_i v).
Let buf := idx (img s) ind.
Hypothesis Hf : fileinv s sv v.
Hypothesis Hind : ind ≠ 0.
Hypothesis Hw : fs_wf s'.
Hypothesis Hrest : same_rest s s'.
Hypothesis Hheap : heap s' = <[sv := v']> (heap s).
Hypothesis Hmeta : same_meta v v'.
Hypothesis Hdir : sfi_direct (sv_i v') = sfi_direct (sv_i v).
Hypothesis Hidx : idx (img s') (sfi_indirect (sv_i v')) = zapfrom 0 bl buf.
Hypothesis Hind' : sfi_indirect (sv_i v') = ind ∨ sfi_indirect (sv_i v') = 0.
Hypothesis Hused : ∀ c, 0 ≤ c →
  used s' c ↔ used s c ∧ ¬ freed 0 bl buf c ∧ ¬ (c = ind ∧ sfi_indirect (sv_i v') = 0).
Hypothesis Himg : ∀ b, b ≠ ind → 0 ≤ b → img s' !! Z.to_nat b = img s !! Z.to_nat b.

Lemma asm_ptrs k :
  ptrs (img s') (sv_i v') !! k = (fun b => if keepind bl k then b else 0) <$> ptrs (img s) (sv_i v) !! k.
Proof.
  pose proof (io_direct _ _ _ _ (fi_ok _ _ _ Hf)) as Hl. unfold keepind. destruct (Nat.ltb_spec k 15) as [Hk|Hk]; cbn [orb].
  - unfold ptrs. rewrite Hdir, !lookup_app_l by lia. by destruct (sfi_direct (sv_i v) !! k).
  - replace k with (15 + (k - 15))%nat by lia. rewrite !ptrs_indirect by (rewrite ?Hdir; done).
    rewrite Hidx, lookup_zapfrom. fold ind buf. destruct (buf !! (k - 15)%nat); [|done]. rewrite !fmap_Some_eq. f_equal.
    cbn [Nat.leb andb]. destruct (Z.ltb_spec bl (15 + Z.of_nat (k - 15))), (Z.leb_spec (Z.of_nat (15 + (k - 15))) bl); (lia || done).
Qed.

Lemma asm_ptr_before k b :
  ptrs (img s') (sv_i v') !! k = Some b → b ≠ 0 → ptrs (img s) (sv_i v) !! k = Some b ∧ keepind bl k = true.
Proof.
  rewrite asm_ptrs. intros H Hb. destruct (ptrs (img s) (sv_i v) !! k) as [c|]; [|done].
  rewrite fmap_Some_eq in H. destruct (keepind bl k); [|congruence]. by injection H as ->.
Qed.

Lemma freed_ptr c : freed 0 bl buf c ↔ c ≠ 0 ∧ ∃ k, ptrs (img s) (sv_i v) !! k = Some c ∧ keepind bl k = false.
Proof.
  pose proof (io_direct _ _ _ _ (fi_ok _ _ _ Hf)) as Hl. unfold freed, keepind. split; intros [Hc (k & Hk)]; (split; [done|]).
  - destruct Hk as (_ & Hkb & Hk). exists (15 + k)%nat. rewrite ptrs_indirect by done. split; [done|].
    apply orb_false_iff. split; [apply Nat.ltb_ge; lia|apply Z.leb_gt; lia].
  - destruct Hk as [Hk Hkp]. apply orb_false_iff in Hkp as [K1%Nat.ltb_ge K2%Z.leb_gt]. exists (k - 15)%nat.
    split_and!; [lia|lia|]. replace k with (15 + (k - 15))%nat in Hk by lia. by rewrite ptrs_indirect in Hk by done.
Qed.

Lemma freed_nonneg c : freed 0 bl buf c → 0 ≤ c.
Proof. rewrite freed_ptr. intros [_ (k & Hk & _)]. eapply ptr_nonneg; [apply Hf|done]. Qed.

(** A kept pointer is neither freed nor the indirect block. *)
Lemma kept_not_freed k c : ptrs (img s) (sv_i v) !! k = Some c → c ≠ 0 → keepind bl k = true → ¬ freed 0 bl buf c.
Proof.
  intros Hk Hc Hkp. rewrite freed_ptr. intros [_ (j & Hj & Hjn)].
  assert (j = k) as -> by (by eapply (io_inj _ _ _ _ (fi_ok _ _ _ Hf))). congruence.
Qed.

Lemma asm_nblocks : nblocks s' = nblocks s.
Proof. unfold nblocks. by rewrite (sr_super _ _ Hrest). Qed.

Lemma asm_ok : inode_ok (nblocks s') (used s') (img s') (sv_i v').
Proof.
  pose proof (fi_ok _ _ _ Hf) as Hok. pose proof Hok as [H1 H2 H3 H4 H5 H6 H7]. rewrite asm_nblocks.
  assert (∀ k b, ptrs (img s') (sv_i v') !! k = Some b → b ≠ 0 → ptrs (img s) (sv_i v) !! k = Some b ∧
    ¬ freed 0 bl buf b ∧ b ≠ ind) as Hk.
  { intros k b Hb Hb0. destruct (asm_ptr_before k b Hb Hb0) as [Hb1 Hkp]. split_and!; [done|by eapply kept_not_freed|].
    intros ->. by apply (H7 k). }
  constructor; try done.
  - by rewrite Hdir.
  - by apply img_512.
  - split; [|apply H3]. rewrite <- asm_nblocks. apply (fw_nblocks _ Hw).
  - intros k b Hb. destruct (decide (b = 0)) as [->|Hb0]; [by left|right]. destruct (Hk k b Hb Hb0) as (K1 & K2 & K3).
    destruct (H4 _ _ K1) as [|[Hr Hu]]; [done|]. split; [done|]. apply Hused; [lia|]. split_and!; [done|done|tauto].
  - destruct Hind' as [E|E]; [|by left]. right. rewrite E. destruct H5 as [|[Hr Hu]]; [done|]. split; [done|].
    apply Hused; [unfold ind; lia|]. split_and!; [done| |by rewrite E; tauto]. rewrite freed_ptr. intros [_ (k & Hk' & _)].
    by apply (H7 k).
  - intros k1 k2 b B1 B2 Hb. destruct (Hk _ _ B1 Hb) as [C1 _]. destruct (Hk _ _ B2 Hb) as [C2 _]. by eapply H6.
  - intros k Hne Hb. destruct Hind' as [E|E]; [|done]. rewrite E in *. by destruct (Hk _ _ Hb Hne) as (_ & _ & ?).
Qed.

Lemma asm_cut : cut sv s s' v v' (keepind bl).
Proof.
  pose proof (fi_ok _ _ _ Hf) as Hok.
  constructor; try done; [| | |intros b [->|Hb] Hb0; apply Himg; (done || by apply not_eq_sym)].
  - constructor; [done|by rewrite Hheap, lookup_insert_eq|apply asm_ok].
  - apply asm_ptrs.
  - intros c Hc. rewrite Hused by done.
    enough (freed 0 bl buf c ∨ (c = ind ∧ sfi_indirect (sv_i v') = 0) ↔
      owns (img s) (sv_i v) c ∧ ¬ owns (img s') (sv_i v') c) by tauto.
    rewrite !owns_lookup. fold ind. split.
    + intros [Hfr|[-> E]].
      * pose proof Hfr as Hfr'. apply freed_ptr in Hfr as [Hc0 (k & Hk & Hkn)]. split; [split; [done|]; left; by exists k|].
        intros [_ [[j Hj]|Hj]].
        -- destruct (asm_ptr_before j c Hj Hc0) as [J1 J2]. by destruct (kept_not_freed j c J1 Hc0 J2).
        -- destruct Hind' as [E|E]; [|congruence]. rewrite E in Hj. subst c. by apply (io_ind_fresh _ _ _ _ Hok k).
      * split; [split; [done|by right]|]. intros [_ [[j Hj]|Hj]]; [|congruence].
        destruct (asm_ptr_before j ind Hj Hind) as [J1 _]. by apply (io_ind_fresh _ _ _ _ Hok j).
    + intros [[Hc0 [[k Hk]|Hk]] Hno].
      * left. apply freed_ptr. split; [done|]. exists k. split; [done|]. destruct (keepind bl k) eqn:Ek; [|done].
        destruct Hno. split; [done|]. left. exists k. rewrite asm_ptrs, Hk, fmap_Some_eq, Ek. done.
      * right. split; [done|]. destruct Hind' as [E|E]; [|done]. destruct Hno. split; [done|]. right. congruence.
Qed.
End assemble.

Lemma zap_ok_idx s sv v bl :
  fileinv s sv v → sfi_indirect (sv_i v) ≠ 0 → zap_ok s 0 bl (idx (img s) (sfi_indirect (sv_i v))).
Proof.
  intros [Hw Hv Hok] Hind. pose proof (io_direct _ _ _ _ Hok) as Hl. constructor.
  - apply length_idx.
  - intros k b _ Hb Hb0 _. rewrite <- (ptrs_indirect _ _ _ Hl) in Hb.
    by destruct (io_ptrs _ _ _ _ Hok _ _ Hb) as [|[? ?]].
  - intros k1 k2 b H1 H2 Hb. rewrite <- (ptrs_indirect _ _ k1 Hl) in H1. rewrite <- (ptrs_indirect _ _ k2 Hl) in H2.
    assert (15 + k1 = 15 + k2)%nat by (by eapply (io_inj _ _ _ _ Hok)). lia.
Qed.

Lemma idx_u32 s sv v bl :
  fileinv s sv v → Forall u32_val (zapfrom 0 bl (idx (img s) (sfi_indirect (sv_i v)))).
Proof.
  intros [Hw Hv Hok]. apply Forall_lookup. intros k b. rewrite lookup_zapfrom.
  rewrite <- ptrs_indirect by apply Hok. destruct (ptrs (img s) (sv_i v) !! (15 + k)%nat) as [c|] eqn:E; [|done].
  rewrite fmap_Some_eq. intros [= <-]. unfold u32_val. pose proof (io_n _ _ _ _ Hok) as [_ Hn].
  case_if; [lia|]. destruct (io_ptrs _ _ _ _ Hok _ _ E) as [->|[? _]]; lia.
Qed.

(** No pointer of the indirect block is kept. *)
Definition emptied (bl : Z) (im : list (list Z)) (i : sfs_inode) : Prop :=
  ∀ k b, (15 ≤ k)%nat → Z.of_nat k ≤ bl → ptrs im i !! k = Some b → b = 0.

Lemma truncate_idblock_run s sv v bl :
  fileinv s sv v → sfi_indirect (sv_i v) ≠ 0 →
  ∃ s' v', truncate_idblock sv (sfi_indirect (sv_i v)) bl 15 s = Ok (0, s') ∧
    cut sv s s' v v' (keepind bl) ∧ (emptied bl (img s) (sv_i v) → sfi_indirect (sv_i v') = 0).
Proof.
  intros Hf Hind. pose proof Hf as [Hw Hv Hok]. set (ind := sfi_indirect (sv_i v)) in *.
  assert (0 < ind < nblocks s ∧ used s ind) as [Hir Hiu] by (by destruct (io_ind _ _ _ _ Hok) as [|[? ?]]).
  unfold truncate_idblock. destruct (rblock_run s ind Hw) as (d & Ed & Hwd & Him & Hu); [lia|].
  rewrite (bind_ok _ _ _ _ _ Ed). cbn [negb Z.eqb]. set (s1 := set_device d s) in *.
  assert (img s1 = img s) as I1 by done.
  assert (dec_words 128 (sec (img s) ind) = idx (img s) ind) as ->
    by (unfold idx; by rewrite (proj2 (Z.eqb_neq ind 0))).
  pose proof (zap_ok_idx s sv v bl Hf Hind) as Hz. fold ind in Hz. set (buf := idx (img s) ind) in *.
  assert (zap_ok s1 0 bl buf) as Hz1 by (by destruct Hz).
  destruct (truncate_indirect_run 128 0 s1 bl false false buf Hwd Hz1 eq_refl) as (s2 & hn & idd & E2 & [P1 P2 P3 P4 P5] & Hhn & Hid).
  change (Z.of_nat 0) with 0 in E2. rewrite (bind_ok _ _ _ _ _ E2).
  assert (img s2 = img s) as I2 by (unfold img; rewrite P4; exact I1).
  assert (same_rest s s2) as R2 by (etrans; [|exact P2]; done).
  assert (heap s2 !! sv = Some v) as Hv2 by (by rewrite P3).
  assert (nblocks s2 = nblocks s) as N2 by (unfold nblocks; by rewrite (sr_super _ _ R2)).
  assert (∀ c, 0 ≤ c → used s2 c ↔ used s c ∧ ¬ freed 0 bl buf c) as U2 by (intros c Hc; by rewrite P5).
  assert (¬ freed 0 bl buf ind) as Hinf.
  { unfold buf, ind. rewrite (freed_ptr s sv v bl Hf). intros [_ (k & Hk & _)]. by apply (io_ind_fresh _ _ _ _ Hok k). }
  assert (emptied bl (img s) (sv_i v) → hn = false) as Hlow.
  { intros He. apply Hhn. split; [done|]. intros k b _ Hb. rewrite lookup_zapfrom in Hb.
    destruct (buf !! k) as [c|] eqn:Ec; [|done]. rewrite fmap_Some_eq in Hb. cbn [Nat.leb andb] in Hb.
    destruct (Z.ltb_spec bl (15 + Z.of_nat k)); injection Hb as <-; [done|]. apply (He (15 + k)%nat); [lia|lia|].
    rewrite ptrs_indirect by apply Hok. exact Ec. }
  destruct hn; cbn [negb]; [destruct idd|].
  - destruct (wblock_run s2 ind (enc_words (zapfrom 0 bl buf)) P1) as (d3 & E3 & W3 & Im3 & Us3);
      [lia|unfold buf; by rewrite length_enc_words, length_zapfrom, length_idx|].
    rewrite E3. exists (set_device d3 s2), v. split; [done|]. split; [|by intros Hbl; specialize (Hlow Hbl)].
    apply asm_cut; fold ind; fold buf; try done.
    + by etrans; [exact R2|].
    + cbn. by rewrite P3, insert_id.
    + unfold idx. rewrite (proj2 (Z.eqb_neq ind 0)) by done. change (img (set_device d3 s2)) with (image d3). rewrite Im3, I2.
      pose proof (image_len _ _ _ _ Hok). rewrite sec_insert_eq by lia.
      apply dec_enc_words_all; [by eapply idx_u32|unfold buf; by rewrite length_zapfrom, length_idx].
    + by left.
    + intros c Hc. change (used (set_device d3 s2) c) with (used s2 c). rewrite U2 by done. fold ind. tauto.
    + intros b Hb Hb0. change (img (set_device d3 s2)) with (image d3). rewrite Im3, I2.
      by rewrite list_lookup_insert_ne by lia.
  - exists s2, v. split; [done|]. split; [|by intros Hbl; specialize (Hlow Hbl)]. apply asm_cut; fold ind; fold buf; try done.
    + by rewrite P3, insert_id.
    + rewrite I2. fold buf. by rewrite Hid.
    + by left.
    + intros c Hc. rewrite U2 by done. fold ind. tauto.
    + intros. by rewrite I2.
  - destruct (bfree_run s2 ind P1) as (s3 & E3 & W3 & R3 & H3 & I3 & _ & U3); [lia|apply U2; [lia|done]|].
    rewrite (bind_ok _ _ _ _ _ E3). assert (heap s3 !! sv = Some v) as Hv3 by (by rewrite H3).
    rewrite (bind_ok _ _ _ _ _ (updv_run _ _ _ _ Hv3)).
    set (v' := set_inode (with_indirect 0 (sv_i v)) true v).
    exists (set_heap (<[sv := v']> (heap s3)) (heap_next s3) s3), v'. split; [done|]. split; [|done].
    assert (same_rest s s3) as R4 by (by etrans).
    apply asm_cut; fold ind; fold buf; try done.
    + by destruct W3.
    + by destruct R4.
    + cbn. by rewrite H3, P3.
    + cbn [v' set_inode sv_i with_indirect sfi_indirect]. unfold idx at 1. cbn [Z.eqb].
      apply list_eq. intros k. destruct (decide (k < 128)%nat) as [Hk|Hk].
      * rewrite lookup_replicate_2 by done. destruct (lookup_lt_is_Some_2 (zapfrom 0 bl buf) k) as [b Hb];
          [unfold buf; by rewrite length_zapfrom, length_idx|].
        rewrite Hb. f_equal. symmetry. apply (proj2 (proj1 Hhn eq_refl) k b); [lia|done].
      * rewrite !lookup_ge_None_2; [done| |]; rewrite ?length_replicate; [unfold buf; rewrite length_zapfrom, length_idx; lia|lia].
    + by right.
    + intros c Hc. change (used _ c) with (used s3 c) at 1. rewrite U3, U2 by done.
      cbn [v' set_inode sv_i with_indirect sfi_indirect]. tauto.
    + intros b Hb Hb0. change (img (set_heap _ _ s3)) with (img s3). by rewrite I3, I2.
Qed.

Lemma cut_ptrs_ext sv s s' v v' (k1 k2 : nat → bool) :
  (∀ k b, ptrs (img s) (sv_i v) !! k = Some b → (if k1 k then b else 0) = (if k2 k then b else 0)) →
  cut sv s s' v v' k1 → cut sv s s' v v' k2.
Proof.
  intros Hk [A1 A2 A3 A4 A5 A6 A7 A8]. constructor; try done. intros k. rewrite A5.
  destruct (ptrs (img s) (sv_i v) !! k) eqn:E; [|done]. rewrite !fmap_Some_eq. f_equal. by apply Hk.
Qed.

Lemma cut_resize sv s s1 v v1 keep n :
  cut sv s s1 v v1 keep →
  let v' := set_inode (with_size n (sv_i v1)) true v1 in
  let s' := set_heap (<[sv := v']> (heap s1)) (heap_next s1) s1 in
  cut sv s s' v v' keep.
Proof.
  intros [A1 A2 A3 A4 A5 A6 A7 A8] v' s'. destruct (resize_fstep s1 sv v1 n A1) as (R1 & _ & _).
  constructor; try done.
  - by destruct A2.
  - unfold s'. cbn. by rewrite A3, insert_insert_eq.
Qed.

Definition blocklen (len : Z) : Z := (len + 511) `div` 512.

Lemma sfs_truncate_run s sv v len :
  fileinv s sv v → 0 ≤ len < 2 ^ 31 - 511 →
  ∃ s' v', sfs_truncate sv len s = Ok (0, s') ∧ cut sv s s' v v' (keepblk (blocklen len)) ∧
    sfi_size (sv_i v') = len ∧ (blocklen len < 142 → emptied (blocklen len) (img s) (sv_i v) → sfi_indirect (sv_i v') = 0) ∧
    (142 ≤ blocklen len → sfi_indirect (sv_i v') = sfi_indirect (sv_i v)) ∧ sv_dirty v' = true.
Proof.
  intros Hf Hlen. unfold sfs_truncate, SFS_BLOCKSIZE. cbv zeta. replace (len + 512 - 1) with (len + 511) by lia.
  rewrite i32_small, Z.quot_div_nonneg, (u32_small (_ `div` _)) by (Z.to_euclidean_division_equations; lia).
  fold (blocklen len). set (bl := blocklen len).
  destruct (truncate_direct_run 15 0 s sv v bl Hf eq_refl) as (s1 & v1 & E1 & C1 & Hi1 & Im1).
  change (Z.of_nat 0) with 0 in E1. rewrite (bind_ok _ _ _ _ _ E1).
  pose proof (ct_inv _ _ _ _ _ _ C1) as Hf1. rewrite (bind_ok _ _ _ _ _ (getv_run _ _ _ (fi_v _ _ _ Hf1))).
  unfold SFS_NDIRECT, SFS_DBPERIDB. change (15 + 128 - 1) with 142.
  assert (∀ k, negb ((0 <=? k)%nat && (k <? 15)%nat && (bl <=? Z.of_nat k)) && keepind bl k = keepblk bl k) as Hk.
  { intros k. unfold keepind, keepblk. cbn [Nat.leb andb]. destruct (Nat.ltb_spec k 15); cbn [andb orb negb]; [|done].
    rewrite andb_true_r. destruct (Z.leb_spec bl (Z.of_nat k)), (Z.ltb_spec (Z.of_nat k) bl); (lia || done). }
  assert (∃ s2 v2, (if (bl <? 142) && negb (sfi_indirect (sv_i v1) =? 0)
      then truncate_idblock sv (sfi_indirect (sv_i v1)) bl 15 else (mret 0 : M sfs_fs Z)) s1 = Ok (0, s2) ∧
      cut sv s s2 v v2 (keepblk bl) ∧ (bl < 142 → emptied bl (img s) (sv_i v) → sfi_indirect (sv_i v2) = 0) ∧
      (142 ≤ bl → sfi_indirect (sv_i v2) = sfi_indirect (sv_i v))) as (s2 & v2 & E2 & C2 & Hz2).
  { destruct (decide (sfi_indirect (sv_i v1) = 0)) as [H0|H0].
    - rewrite (proj2 (Z.eqb_eq _ 0) H0), andb_false_r. exists s1, v1. split; [done|]. split; [|by split].
      eapply cut_ptrs_ext; [|exact C1]. intros k b Hb. rewrite <- Hk. destruct (Nat.ltb_spec k 15) as [Hk15|Hk15].
      + unfold keepind. cbn beta. rewrite (proj2 (Nat.ltb_lt k 15)) by done. by destruct (bl <=? Z.of_nat k).
      + replace k with (15 + (k - 15))%nat in Hb by lia. rewrite ptrs_indirect in Hb by apply Hf. rewrite <- Hi1, H0 in Hb.
        unfold idx in Hb. rewrite Z.eqb_refl in Hb. apply lookup_replicate in Hb as [-> _]. by repeat case_if.
    - rewrite (proj2 (Z.eqb_neq _ 0) H0), andb_true_r. destruct (Z.ltb_spec bl 142) as [Hlt|Hge].
      + destruct (truncate_idblock_run s1 sv v1 bl Hf1 H0) as (s2 & v2 & E2 & C2 & Hz2).
        exists s2, v2. split; [done|]. split; [|split; [|lia]].
        2: { intros _ He. apply Hz2. intros k b Hk15 Hkb Hb. rewrite (ct_ptrs _ _ _ _ _ _ C1) in Hb.
             destruct (ptrs (img s) (sv_i v) !! k) as [c|] eqn:Ec; [|done]. rewrite fmap_Some_eq in Hb. injection Hb as <-. case_if; [by eapply He|done]. }
        eapply cut_ptrs_ext; [|exact (cut_trans _ _ _ _ _ _ _ _ _ C1 C2 Hi1)]. intros k b _. cbn beta. by rewrite Hk.
      + exists s1, v1. split; [done|]. split; [|split; [lia|done]]. eapply cut_ptrs_ext; [|exact C1]. intros k b Hb. rewrite <- Hk.
        apply lookup_lt_Some in Hb. rewrite length_ptrs in Hb by apply Hf. unfold keepind.
        rewrite (proj2 (Z.leb_le (Z.of_nat k) bl)), orb_true_r, andb_true_r by lia. done. }
  rewrite (bind_ok _ _ _ _ _ E2). cbn [negb Z.eqb].
  rewrite (bind_ok _ _ _ _ _ (updv_run _ _ _ _ (fi_v _ _ _ (ct_inv _ _ _ _ _ _ C2)))).
  rewrite u32_small by lia. eexists _, _. split; [reflexivity|]. split; [by apply cut_resize|]. destruct Hz2. by split_and!.
Qed.

(** The contents up to the new length only depend on blocks that are kept. *)
Lemma take_mjoin {A} (l : list (list A)) n k :
  Forall (fun s => length s = n) l → (k ≤ length l)%nat → take (k * n) (mjoin l) = mjoin (take k l).
Proof.
  intros Hl Hk. rewrite <- (take_drop k l) at 1. rewrite join_app. apply take_app_length'.
  rewrite (length_join_blocks _ n) by (by apply Forall_take). rewrite length_take. nia.
Qed.

Lemma cut_contents sv s s' v v' bl :
  fileinv s sv v → cut sv s s' v v' (keepblk bl) → 0 ≤ bl →
  take (Z.to_nat bl * 512) (contents (img s') (sv_i v')) = take (Z.to_nat bl * 512) (contents (img s) (sv_i v)).
Proof.
  intros Hf C Hbl. pose proof (ct_inv _ _ _ _ _ _ C) as Hf'. set (m := Z.to_nat (Z.min bl 143)).
  assert (∀ s0 v0, fileinv s0 sv v0 → take (Z.to_nat bl * 512) (contents (img s0) (sv_i v0)) =
    mjoin (blk (img s0) <$> take m (ptrs (img s0) (sv_i v0)))) as Hc.
  { intros s0 v0 Hf0. pose proof (length_ptrs (img s0) (sv_i v0) (io_direct _ _ _ _ (fi_ok _ _ _ Hf0))) as Hl.
    rewrite fmap_take. unfold contents. rewrite <- (take_mjoin _ 512) by (try apply blocks_512, img_512, Hf0; rewrite length_fmap; lia).
    destruct (decide (bl ≤ 143)); [f_equal; lia|].
    assert (length (mjoin (blk (img s0) <$> ptrs (img s0) (sv_i v0))) = (143 * 512)%nat) as Hjl.
    { rewrite (length_join_blocks _ 512), length_fmap, Hl by (apply blocks_512, img_512, Hf0). done. }
    rewrite !take_ge; [done| |]; rewrite Hjl; lia. }
  rewrite (Hc _ _ Hf'), (Hc _ _ Hf). f_equal. apply list_eq. intros k. rewrite !list_lookup_fmap.
  destruct (decide (k < m)%nat) as [Hk|Hk]; [|rewrite !lookup_take_ge by lia; done].
  rewrite !lookup_take_lt by done. rewrite (ct_ptrs _ _ _ _ _ _ C).
  destruct (ptrs (img s) (sv_i v) !! k) as [b|] eqn:E; [|done]. rewrite !fmap_Some_eq. f_equal.
  assert (keepblk bl k = true) as ->.
  { unfold keepblk. case_if; [apply Z.ltb_lt; lia|apply Z.leb_le; lia]. }
  unfold blk. destruct (Z.eqb_spec b 0) as [|Hb]; [done|]. unfold sec.
  rewrite (ct_img _ _ _ _ _ _ C); [done| |by eapply ptr_nonneg; [apply Hf|]].
  right. intros ->. by apply (io_ind_fresh _ _ _ _ (fi_ok _ _ _ Hf) k).
Qed.

(** Cutting to nothing. *)
Lemma truncate_zero_run s sv v :
  fileinv s sv v →
  ∃ s' v', sfs_truncate sv 0 s = Ok (0, s') ∧ cut sv s s' v v' (keepblk 0) ∧ sfi_size (sv_i v') = 0 ∧ sv_dirty v' = true ∧
    (∀ b, ¬ owns (img s') (sv_i v') b) ∧ (∀ c, 0 ≤ c → used s' c ↔ used s c ∧ ¬ owns (img s) (sv_i v) c).
Proof.
  intros Hf. destruct (sfs_truncate_run s sv v 0 Hf) as (s' & v' & E & C & Hs & Hi & _ & Hd); [lia|].
  pose proof C as [A1 A2 A3 A4 A5 A6 A7 A8]. change (blocklen 0) with 0 in *.
  assert (∀ b, ¬ owns (img s') (sv_i v') b) as Hno.
  { intros b. rewrite owns_lookup, (Hi ltac:(lia)) by (intros k c ? ?; lia). intros [Hb [[k Hk]|]]; [|done]. rewrite A5 in Hk.
    destruct (ptrs (img s) (sv_i v) !! k) eqn:Ek; [|done]. rewrite fmap_Some_eq in Hk.
    assert (keepblk 0 k = false) as Hkb.
    { unfold keepblk. destruct (Nat.ltb_spec k 15); [apply Z.ltb_ge; lia|apply Z.leb_gt; lia]. }
    rewrite Hkb in Hk. congruence. }
  exists s', v'. split_and!; try done. intros c Hc. rewrite A7 by done. specialize (Hno c). tauto.
Qed.

(** Which blocks a cut frees. *)
Lemma cut_emptied sv s s' v v' n :
  fileinv s sv v → cut sv s s' v v' (keepblk n) → sfi_indirect (sv_i v') = 0 → emptied n (img s) (sv_i v).
Proof.
  intros Hf C H0 k b Hk Hkn Hb. pose proof (ct_ptrs _ _ _ _ _ _ C k) as Hp. rewrite Hb, fmap_Some_eq in Hp.
  assert (keepblk n k = true) as Hkeep by (unfold keepblk; rewrite (proj2 (Nat.ltb_ge k 15)) by done; by apply Z.leb_le).
  rewrite Hkeep in Hp. replace k with (15 + (k - 15))%nat in Hp by lia.
  rewrite ptrs_indirect in Hp by apply (ct_inv _ _ _ _ _ _ C). unfold idx in Hp. rewrite H0 in Hp. by apply lookup_replicate in Hp as [-> _].
Qed.

Lemma cut_frees s s' sv v v' n c :
  fileinv s sv v → cut sv s s' v v' (keepblk n) → (n < 142 → emptied n (img s) (sv_i v) → sfi_indirect (sv_i v') = 0) →
  (142 ≤ n → sfi_indirect (sv_i v') = sfi_indirect (sv_i v)) → 0 < c →
  ¬ (owns (img s) (sv_i v) c ∧ ¬ owns (img s') (sv_i v') c) ↔
  ¬ (∃ k, ptrs (img s) (sv_i v) !! k = Some c ∧ keepblk n k = false) ∧
  ¬ (c = sfi_indirect (sv_i v) ∧ n < 142 ∧ emptied n (img s) (sv_i v)).
Proof.
  intros Hf C Hi Hi' Hc. pose proof (fi_ok _ _ _ Hf) as Hok. rewrite !owns_lookup.
  assert (∀ k b, ptrs (img s') (sv_i v') !! k = Some b → b ≠ 0 → ptrs (img s) (sv_i v) !! k = Some b ∧ keepblk n k = true) as Hkept.
  { intros k b Hb Hb0. rewrite (ct_ptrs _ _ _ _ _ _ C) in Hb. destruct (ptrs (img s) (sv_i v) !! k) as [d|]; [|done].
    rewrite fmap_Some_eq in Hb. injection Hb as Hb. destruct (keepblk n k); [by subst|done]. }
  assert (∀ k, ptrs (img s) (sv_i v) !! k = Some c → keepblk n k = true → ptrs (img s') (sv_i v') !! k = Some c) as Hstay.
  { intros k Hk Hkp. by rewrite (ct_ptrs _ _ _ _ _ _ C), Hk, fmap_Some_eq, Hkp. }
  split.
  - intros Hno. split.
    + intros (k & Hk & Hkp). apply Hno. split; [split; [lia|left; by exists k]|]. intros [_ [(j & Hj)|Hj]].
      * apply Hkept in Hj as [Hj Hkj]; [|lia]. assert (k = j) as -> by (eapply (io_inj _ _ _ _ Hok); (done || lia)). congruence.
      * destruct (ct_ind _ _ _ _ _ _ C) as [Hx|Hx]; [|lia]. apply (io_ind_fresh _ _ _ _ Hok k); [lia|]. by rewrite <- Hx, <- Hj.
    + intros (-> & Hn & He). apply Hno. split; [split; [lia|by right]|]. rewrite (Hi Hn He). intros [_ [(j & Hj)|?]]; [|lia].
      apply Hkept in Hj as [Hj _]; [|lia]. by apply (io_ind_fresh _ _ _ _ Hok j); [lia|].
  - intros [Hno Hni] [[_ [(k & Hk)|Hk]] Hgone].
    + destruct (keepblk n k) eqn:Ek; [|apply Hno; by exists k]. apply Hgone. split; [lia|]. left. exists k. by apply Hstay.
    + destruct (ct_ind _ _ _ _ _ _ C) as [Hx|Hx]; [apply Hgone; split; [lia|right; congruence]|]. apply Hni. split; [done|].
      destruct (decide (n < 142)); [split; [done|by eapply cut_emptied]|]. rewrite (Hi' ltac:(lia)) in Hx. lia.
Qed.

(** ** Theorems *)

(** C33: Truncation to a length of [n] blocks succeeds and sets the size.  Of the file's block pointers the direct ones below [n] and the indirect ones up
    to [n] itself are kept (one more than the new length needs), all others are cleared; the bytes before the new end are as they were.  The
    blocks that become free are exactly those of the cleared pointers, and the indirect block when [n] is less than 142 and none of its pointers is kept.  No
    block of the volume other than the file's is written. *)
Theorem sfs_truncate_correct s sv v len :
  fileinv s sv v → 0 ≤ len < 2 ^ 31 - 511 →
  let n := blocklen len in
  ∃ s' v', sfs_truncate sv len s = Ok (0, s') ∧ fileinv s' sv v' ∧ heap s' = <[sv := v']> (heap s) ∧
    sfi_size (sv_i v') = len ∧
    (∀ k b, ptrs (img s) (sv_i v) !! k = Some b → ptrs (img s') (sv_i v') !! k = Some (if keepblk n k then b else 0)) ∧
    take (Z.to_nat len) (contents (img s') (sv_i v')) = take (Z.to_nat len) (contents (img s) (sv_i v)) ∧
    (∀ c, 0 < c → used s' c ↔ used s c ∧ ¬ (∃ k, ptrs (img s) (sv_i v) !! k = Some c ∧ keepblk n k = false) ∧
                              ¬ (c = sfi_indirect (sv_i v) ∧ n < 142 ∧ emptied n (img s) (sv_i v))) ∧
    (∀ b, 0 ≤ b → ¬ owns (img s) (sv_i v) b → img s' !! Z.to_nat b = img s !! Z.to_nat b).
Proof.
  intros Hf Hlen n. destruct (sfs_truncate_run s sv v len Hf Hlen) as (s' & v' & E & C & Hs & Hi & Hi' & _).
  exists s', v'. pose proof C as [A1 A2 A3 A4 A5 A6 A7 A8]. split_and!; try done.
  - intros k b Hb. by rewrite A5, Hb.
  - assert (0 ≤ blocklen len ∧ len ≤ blocklen len * 512) as [H0 Hle]
      by (unfold blocklen; Z.to_euclidean_division_equations; lia).
    pose proof (cut_contents sv s s' v v' _ Hf C H0) as Hc.
    apply (f_equal (take (Z.to_nat len))) in Hc. rewrite !take_take in Hc.
    rewrite !Nat.min_l in Hc by lia. done.
  - intros c Hc. rewrite A7 by lia. by rewrite (cut_frees s s' sv v v' n c Hf C Hi Hi' Hc).
  - intros b Hb Hno. apply A8; [|done]. destruct (decide (b = 0)) as [->|Hb0]; [by left|right].
    intros ->. destruct Hno. split; [done|by right].
Qed.

(** Truncating to length 0 (what [sfs_reclaim] does to a file with no links left)
    leaves the file without any block, and every block it had is free. *)
Theorem sfs_truncate_zero_frees_all s sv v :
  fileinv s sv v →
  ∃ s' v', sfs_truncate sv 0 s = Ok (0, s') ∧ fileinv s' sv v' ∧ (∀ b, ¬ owns (img s') (sv_i v') b) ∧
    (∀ c, 0 ≤ c → used s' c ↔ used s c ∧ ¬ owns (img s) (sv_i v) c).
Proof.
  intros Hf. destruct (truncate_zero_run s sv v Hf) as (s' & v' & E & C & _ & _ & H1 & H2).
  exists s', v'. split_and!; try done. apply C.
Qed.

(** Off by one: cutting a file to [bl] blocks with [bl] in the indirect range
    leaves block [bl], which lies wholly past the new end, allocated. *)
Theorem sfs_truncate_keeps_block_past_eof s sv v len b :
  fileinv s sv v → 0 ≤ len < 2 ^ 31 - 511 → 15 ≤ blocklen len ≤ 142 →
  ptrs (img s) (sv_i v) !! Z.to_nat (blocklen len) = Some b → b ≠ 0 →
  len ≤ blocklen len * 512 ∧
  ∃ s' v', sfs_truncate sv len s = Ok (0, s') ∧ sfi_size (sv_i v') = len ∧
    ptrs (img s') (sv_i v') !! Z.to_nat (blocklen len) = Some b ∧ used s' b.
Proof.
  intros Hf Hlen Hbl Hb Hb0. split; [unfold blocklen; Z.to_euclidean_division_equations; lia|].
  destruct (sfs_truncate_run s sv v len Hf Hlen) as (s' & v' & E & C & Hs & _).
  pose proof C as [A1 A2 A3 A4 A5 A6 A7 A8]. exists s', v'.
  assert (ptrs (img s') (sv_i v') !! Z.to_nat (blocklen len) = Some b) as Hp.
  { rewrite A5, Hb, fmap_Some_eq. unfold keepblk. rewrite (proj2 (Nat.ltb_ge _ 15)), (proj2 (Z.leb_le _ _)) by lia. done. }
  split_and!; try done. destruct (io_ptrs _ _ _ _ (fi_ok _ _ _ A1) _ _ Hp) as [|[_ ?]]; done.
Qed.

End Sfstrunc.
