(* ===== verification/Sfsvol.v ===== *)
(** * SFS volumes and vnode reference counts, properties of sfs_fs.c and vnode.c

    [sfs_sync] makes the disk agree with memory: every loaded inode, the free
    map and the superblock ([synced]); mounting the device afterwards gives back the
    same superblock and the same free map.  The reference-count theorems show that a
    vnode is loaded once, shared by its users, and destroyed by the last of them. *)
From stdpp Require Import base list gmap numbers.
From S2P Require Import Prelude Array Bitmap Copyinout Uio Lhd Cstring Sfsdisk Sfs Sfsfile.
Local Open Scope Z_scope.

Module Sfsvol.
Import Copyinout Uio Lhd Sfsdisk Sfs Sfsfile.

(** ** The free map on disk *)
Lemma bitmapsize_eq n : 0 ≤ n < 2 ^ 22 → SFS_BITMAPSIZE n = 4096 * SFS_BITBLOCKS n ∧ SFS_BITBLOCKS n = (n + 4095) `div` 4096.
Proof.
  intros H. unfold SFS_BITBLOCKS, SFS_BITMAPSIZE, SFS_ROUNDUP, SFS_BLOCKBITS.
  rewrite (u32_small (n + 4096)), (u32_small (n + 4096 - 1)) by lia. replace (n + 4096 - 1) with (n + 4095) by lia.
  rewrite u32_small by (Z.to_euclidean_division_equations; lia).
  rewrite Z.div_mul by lia. lia.
Qed.

Definition chunk (data : list Z) (j : nat) : list Z := take 512 (drop (j * 512) data).

(** The image with blocks [2+j], ..., [2+n-1] holding the chunks of [data]. *)
Definition holds_map (im : list (list Z)) (data : list Z) (j n : nat) : Prop :=
  ∀ k, (j ≤ k < n)%nat → im !! (2 + k)%nat = Some (chunk data k).

Lemma mapio_write_run n j s data :
  fs_wf s → Bitmap.v (sfs_freemap s) = data → length data = ((j + n) * 512)%nat →
  Z.of_nat (2 + (j + n)) ≤ nblocks s →
  ∃ d, mapio_loop n (Z.of_nat j) UIO_WRITE s = Ok (0, set_device d s) ∧ fs_wf (set_device d s) ∧
    holds_map (image d) data j (j + n) ∧ us d = us (sfs_device s) ∧ length (image d) = length (img s) ∧
    (∀ b, (b < 2 + j ∨ 2 + (j + n) ≤ b)%nat → image d !! b = img s !! b).
Proof.
  revert j s. induction n as [|n IH]; intros j s Hw Hdata Hlen Hnb; cbn [mapio_loop].
  { exists (sfs_device s). rewrite set_device_id. split_and!; try done. intros k Hk. lia. }
  erewrite bind_ok; [|reflexivity]. unfold Bitmap.bitmap_getdata. rewrite Hdata. unfold SFS_BLOCKSIZE, SFS_MAP_LOCATION.
  replace (Z.to_nat (Z.of_nat j * 512)) with (j * 512)%nat by lia.
  pose proof (dw_size _ (fw_dev _ Hw)) as Hsz. pose proof (fw_nblocks _ Hw) as Hnbl.
  assert (nblocks s * 512 < 2 ^ 31) as H22 by (unfold dd_totsectors in Hsz; unfold img, image in Hnbl; lia).
  rewrite u32_small by lia. fold (chunk data j).
  assert (length (chunk data j) = 512%nat) as Hcl by (unfold chunk; rewrite length_take, length_drop; lia).
  destruct (wblock_run s (2 + Z.of_nat j) (chunk data j) Hw) as (d & E & Hwd & Him & Hu); [lia|done|].
  rewrite (bind_ok _ _ _ _ _ E). cbn [negb Z.eqb].
  replace (Z.of_nat j + 1) with (Z.of_nat (S j)) by lia.
  destruct (IH (S j) (set_device d s)) as (d2 & E2 & W2 & M2 & U2 & L2 & F2); try done; [lia|change (nblocks (set_device d s)) with (nblocks s); lia|].
  change (set_device d2 (set_device d s)) with (set_device d2 s) in *.
  change (img (set_device d s)) with (image d) in *.
  exists d2. replace (j + S n)%nat with (S j + n)%nat by lia. split_and!; try done.
  - intros k Hk. destruct (decide (k = j)) as [->|]; [|apply M2; lia].
    rewrite F2 by lia. rewrite Him. replace (Z.to_nat (2 + Z.of_nat j)) with (2 + j)%nat by lia.
    apply list_lookup_insert_eq. lia.
  - by rewrite U2, <- Hu.
  - rewrite L2, Him. apply length_insert.
  - intros b Hb. rewrite F2 by lia. rewrite Him. apply list_lookup_insert_ne. lia.
Qed.

(** Reading the map back, from block [j] on. *)
Lemma mapio_read_run n j s data :
  dev_wf (sfs_device s) → faults (sfs_device s) = [] → length data = ((j + n) * 512)%nat →
  length (Bitmap.v (sfs_freemap s)) = length data → take (j * 512) (Bitmap.v (sfs_freemap s)) = take (j * 512) data →
  Z.of_nat (2 + (j + n)) < 2 ^ 22 → holds_map (img s) data j (j + n) →
  ∃ d, mapio_loop n (Z.of_nat j) UIO_READ s =
         Ok (0, set_freemap (Bitmap.mkbitmap (Bitmap.nbits (sfs_freemap s)) data) (sfs_freemapdirty s) (set_device d s)) ∧
    dev_wf d ∧ image d = img s ∧ faults d = [].
Proof.
  revert j s. induction n as [|n IH]; intros j s Hw Hfl Hlen Hv Hpre Hnb Hmap; cbn [mapio_loop].
  { exists (sfs_device s). split_and!; try done. unfold mret, M_ret. do 2 f_equal.
    rewrite !take_ge in Hpre by lia. rewrite <- Hpre. by destruct s as [? ? ? ? [] ? ? ? ?]. }
  set (fm := sfs_freemap s) in *. erewrite bind_ok; [|reflexivity]. unfold Bitmap.bitmap_getdata, SFS_BLOCKSIZE, SFS_MAP_LOCATION.
  fold fm. replace (Z.to_nat (Z.of_nat j * 512)) with (j * 512)%nat by lia. rewrite u32_small by lia.
  assert (length (chunk (Bitmap.v fm) j) = 512%nat) as Hcl by (unfold chunk; rewrite length_take, length_drop; lia).
  assert (length (chunk data j) = 512%nat) as Hdl by (unfold chunk; rewrite length_take, length_drop; lia).
  fold (chunk (Bitmap.v fm) j).
  destruct (rblock_ok (sfs_device s) (chunk (Bitmap.v fm) j) (2 + Z.of_nat j) (chunk data j) [] []) as (d & E & D1 & D2 & D3 & D4);
    try done; [lia| |simpl; lia|].
  { replace (Z.to_nat (2 + Z.of_nat j)) with (2 + j)%nat by lia. apply Hmap. lia. }
  erewrite bind_ok; [|rewrite (bind_ok _ _ _ _ _ (dev_run _ _ _ _ E)); erewrite bind_ok; reflexivity].
  cbn [negb Z.eqb]. replace (Z.of_nat j + 1) with (Z.of_nat (S j)) by lia.
  set (fm' := Bitmap.mkbitmap (Bitmap.nbits fm) (splice (j * 512) (chunk data j) (Bitmap.v fm))).
  destruct (IH (S j) (set_freemap fm' (sfs_freemapdirty s) (set_device d s))) as (d2 & E2 & W2 & I2 & L2); try done.
  - lia.
  - cbn. rewrite length_splice; lia.
  - cbn [sfs_freemap set_freemap fm' Bitmap.v]. unfold splice. rewrite app_assoc, take_app_length'.
    + rewrite Hpre. unfold chunk. rewrite take_take_drop. f_equal. lia.
    + rewrite length_app, length_take. lia.
  - lia.
  - intros k Hk. change (img _) with (image d). rewrite D2. apply Hmap. lia.
  - exists d2. split_and!; try done. rewrite I2. done.
Qed.

(** ** Loaded vnodes *)

(** The vnode table lists live vnodes, at most one per inode; the on-disk copy of
    a clean one is current. *)
Record vtable (s : sfs_fs) (l : list nat) : Prop := {
  vt_rep : Array.array_rep (sfs_vnodes s) l;
  vt_live : ∀ k p, l !! k = Some p → ∃ v, heap s !! p = Some v ∧ 0 < vn_refcount v ∧ 0 ≤ vn_opencount v ∧
    inode_wf (sv_i v) ∧ 0 < sv_ino v < nblocks s ∧
    (sv_dirty v = false → img s !! Z.to_nat (sv_ino v) = Some (enc_inode (sv_i v)));
  vt_inj : ∀ j k p q vp vq, l !! j = Some p → l !! k = Some q → heap s !! p = Some vp → heap s !! q = Some vq →
    sv_ino vp = sv_ino vq → j = k
}.

(** The inode in memory is on disk. *)
Definition synced (s : sfs_fs) (p : nat) : Prop :=
  ∃ v, heap s !! p = Some v ∧ sv_dirty v = false ∧ img s !! Z.to_nat (sv_ino v) = Some (enc_inode (sv_i v)).

(** Syncing touches inode blocks and dirty flags only. *)
Record sync_frame (l : list nat) (s s' : sfs_fs) : Prop := {
  sf_rest : same_rest s s';
  sf_map : sfs_freemap s' = sfs_freemap s;
  sf_mapdirty : sfs_freemapdirty s' = sfs_freemapdirty s;
  sf_heap : ∀ p, heap s' !! p = heap s !! p ∨
    ∃ v, heap s !! p = Some v ∧ heap s' !! p = Some (set_inode (sv_i v) false v);
  sf_len : length (img s') = length (img s);
  sf_img : ∀ b, (∀ k p v, l !! k = Some p → heap s !! p = Some v → b ≠ Z.to_nat (sv_ino v)) → img s' !! b = img s !! b
}.

Lemma sync_frame_refl l s : sync_frame l s s.
Proof. constructor; try done. by left. Qed.

Lemma sync_frame_trans l s1 s2 s3 : sync_frame l s1 s2 → sync_frame l s2 s3 → sync_frame l s1 s3.
Proof.
  intros [A1 A2 A3 A4 A5 A6] [B1 B2 B3 B4 B5 B6]. constructor; try congruence.
  - by etrans.
  - intros p. destruct (B4 p) as [-> |(v2 & E2 & ->)]; [apply A4|].
    destruct (A4 p) as [E|(v1 & E1 & E)]; rewrite E in E2; right.
    + by exists v2.
    + injection E2 as <-. by exists v1.
  - intros b Hb. rewrite B6; [by apply A6|]. intros k p v Hk Hv.
    destruct (A4 p) as [E|(v1 & E1 & E)]; rewrite E in Hv; [by eapply Hb|].
    injection Hv as <-. by apply (Hb k p v1).
Qed.

Lemma vnode_check_run s p v r : heap s !! p = Some v → 0 < vn_refcount v → 0 ≤ vn_opencount v → vnode_check p r s = Ok (tt, s).
Proof.
  intros Hv H1 H2. unfold vnode_check. rewrite (bind_ok _ _ _ _ _ (getv_run _ _ _ Hv)).
  rewrite (proj2 (Z.ltb_ge (vn_refcount v) 0)), (proj2 (Z.eqb_neq (vn_refcount v) 0)),
    (proj2 (Z.ltb_ge (vn_opencount v) 0)) by lia. done.
Qed.

Lemma fsync_run s l k p :
  fs_wf s → vtable s l → l !! k = Some p →
  ∃ s', VOP_FSYNC p s = Ok (0, s') ∧ fs_wf s' ∧ vtable s' l ∧ sync_frame l s s' ∧ synced s' p.
Proof.
  intros Hw Ht Hk. pose proof Ht as [T1 T2 T3]. destruct (T2 k p Hk) as (v & Hv & Hr & Ho & Hi & Hino & Hcl).
  unfold VOP_FSYNC. rewrite (bind_ok _ _ _ _ _ (vnode_check_run s p v false Hv Hr Ho)).
  unfold sfs_fsync, sfs_sync_inode. rewrite (bind_ok _ _ _ _ _ (getv_run _ _ _ Hv)).
  destruct (sv_dirty v) eqn:Ed.
  2:{ exists s. split_and!; try done; [apply sync_frame_refl|]. exists v. auto. }
  destruct (wblock_run s (sv_ino v) (enc_inode (sv_i v)) Hw) as (d & E & Hwd & Him & Hu);
    [lia|by apply inode_roundtrip|].
  rewrite (bind_ok _ _ _ _ _ E). cbn [negb Z.eqb].
  rewrite (bind_ok _ _ _ _ _ (updv_run p _ v (set_device d s) Hv)).
  set (v' := set_inode (sv_i v) false v).
  set (s' := set_heap (<[p := v']> (heap s)) (heap_next s) (set_device d s)).
  change (image d) with (img s') in Him. pose proof (fw_nblocks _ Hw) as Hnb.
  assert (∀ q w, heap s' !! q = Some w → ∃ w0, heap s !! q = Some w0 ∧ sv_ino w = sv_ino w0 ∧ sv_i w = sv_i w0 ∧
    vn_refcount w = vn_refcount w0 ∧ vn_opencount w = vn_opencount w0 ∧ (q ≠ p → w = w0)) as Hh.
  { intros q w Hq. cbn in Hq. apply lookup_insert_Some in Hq as [[<- <-]|[Hne Hq]]; [by exists v|by exists w]. }
  exists s'. split; [done|]. split_and!.
  - by destruct Hwd.
  - constructor; [done| |].
    + intros j q Hj. destruct (T2 j q Hj) as (w & Hq & W1 & W2 & W3 & W4 & W5).
      destruct (decide (q = p)) as [->|Hne].
      * exists v'. assert (w = v) as -> by congruence. split; [apply lookup_insert_eq|].
        change (nblocks s') with (nblocks s). split; [done|]. split; [done|]. split; [done|]. split; [done|].
        intros _. rewrite Him. apply list_lookup_insert_eq. lia.
      * exists w. split; [by apply lookup_insert_Some; right|].
        change (nblocks s') with (nblocks s). split; [done|]. split; [done|]. split; [done|]. split; [done|].
        intros Hd. rewrite Him. rewrite list_lookup_insert_ne; [by apply W5|].
        intros Ez. assert (sv_ino v = sv_ino w) by lia. destruct Hne. assert (k = j) as <- by (by eapply T3). congruence.
    + intros j1 j2 q1 q2 w1 w2 J1 J2 Q1 Q2 Ew.
      destruct (Hh _ _ Q1) as (x1 & X1 & E1 & _). destruct (Hh _ _ Q2) as (x2 & X2 & E2 & _).
      eapply T3; try done. congruence.
  - constructor; try done.
    + intros q. cbn. destruct (decide (q = p)) as [->|Hne]; [|left; by apply lookup_insert_ne].
      right. exists v. by rewrite lookup_insert_eq.
    + rewrite Him. apply length_insert.
    + intros b Hb. rewrite Him. apply list_lookup_insert_ne. apply not_eq_sym. by eapply Hb.
  - exists v'. cbn. rewrite lookup_insert_eq. split_and!; try done. change (img _) with (img s'). rewrite Him.
    apply list_lookup_insert_eq. lia.
Qed.

(** Once on disk, an inode stays there while the others are synced. *)
Lemma synced_mono l s s' k p :
  vtable s l → vtable s' l → sync_frame l s s' → l !! k = Some p → synced s p → synced s' p.
Proof.
  intros Ht Ht' [A1 A2 A3 A4 A5 A6] Hk (v & Hv & Hd & Hs).
  destruct (vt_live _ _ Ht' k p Hk) as (w & Hw & _ & _ & _ & _ & Hcl). exists w. split; [done|].
  assert (sv_dirty w = false) as Hwd.
  { destruct (A4 p) as [E|(v1 & E1 & E)]; rewrite E in Hw; [congruence|]. by injection Hw as <-. }
  split; [done|]. by apply Hcl.
Qed.

Lemma sync_vnodes_run n i s l :
  fs_wf s → vtable s l → (i + n = length l)%nat → (∀ k p, (k < i)%nat → l !! k = Some p → synced s p) →
  ∃ s', sync_vnodes n (Z.of_nat i) s = Ok (tt, s') ∧ fs_wf s' ∧ vtable s' l ∧ sync_frame l s s' ∧
    ∀ k p, l !! k = Some p → synced s' p.
Proof.
  revert i s. induction n as [|n IH]; intros i s Hw Ht Hi Hpre; cbn [sync_vnodes].
  { exists s. split_and!; try done; [apply sync_frame_refl|]. intros k p Hk. apply lookup_lt_Some in Hk as Hl.
    apply (Hpre k p); [lia|done]. }
  destruct (lookup_lt_is_Some_2 l i) as [p Hp]; [lia|].
  erewrite bind_ok; [|reflexivity].
  erewrite bind_ok; [|apply lift_run; rewrite (Array.array_getguy_rep _ l i (vt_rep _ _ Ht)), Hp; reflexivity].
  destruct (fsync_run s l i p Hw Ht Hp) as (s1 & E & W1 & T1 & F1 & S1). rewrite (bind_ok _ _ _ _ _ E).
  replace (Z.of_nat i + 1) with (Z.of_nat (S i)) by lia.
  destruct (IH (S i) s1 W1 T1) as (s2 & E2 & W2 & T2 & F2 & S2); [lia| |].
  - intros k q Hk Hq. destruct (decide (k = i)) as [->|Hne]; [congruence|].
    eapply (synced_mono l s s1); try done. apply (Hpre k q); [lia|done].
  - exists s2. split_and!; try done. by eapply sync_frame_trans.
Qed.

(** ** Whole volumes *)
Definition mapblocks (s : sfs_fs) : nat := Z.to_nat (SFS_BITBLOCKS (nblocks s)).

Record volume (s : sfs_fs) (l : list nat) : Prop := {
  vo_fs : fs_wf s;
  vo_table : vtable s l;
  vo_super : super_wf (sfs_super s);
  vo_magic : sp_magic (sfs_super s) = SFS_MAGIC;
  vo_volname : sp_volname (sfs_super s) !! 31%nat = Some 0;
  vo_nbits : Bitmap.nbits (sfs_freemap s) = SFS_BITMAPSIZE (nblocks s);
  vo_mapfits : Z.of_nat (2 + mapblocks s) ≤ nblocks s;
  vo_inos : ∀ k p v, l !! k = Some p → heap s !! p = Some v →
    sv_ino v ≠ 0 ∧ (sv_ino v < 2 ∨ Z.of_nat (2 + mapblocks s) ≤ sv_ino v);
  vo_map : sfs_freemapdirty s = false → holds_map (img s) (Bitmap.v (sfs_freemap s)) 0 (mapblocks s);
  vo_sb : sfs_superdirty s = false → img s !! 0%nat = Some (enc_super (sfs_super s))
}.

(** The state of a volume that has been synced. *)
Record on_disk (s : sfs_fs) (l : list nat) : Prop := {
  od_vnodes : ∀ k p, l !! k = Some p → synced s p;
  od_map : holds_map (img s) (Bitmap.v (sfs_freemap s)) 0 (mapblocks s);
  od_sb : img s !! 0%nat = Some (enc_super (sfs_super s));
  od_clean : sfs_freemapdirty s = false ∧ sfs_superdirty s = false
}.

Lemma nblocks_22 s : fs_wf s → nblocks s < 2 ^ 22.
Proof.
  intros Hw. pose proof (dw_size _ (fw_dev _ Hw)). pose proof (fw_nblocks _ Hw).
  unfold dd_totsectors, img, image in *. lia.
Qed.

Lemma map_length s l : volume s l → length (Bitmap.v (sfs_freemap s)) = (mapblocks s * 512)%nat.
Proof.
  intros V. pose proof (Bitmap.nbits_le_words _ (fw_map _ (vo_fs _ _ V))) as H. rewrite (vo_nbits _ _ V) in H.
  pose proof (nblocks_22 _ (vo_fs _ _ V)). pose proof (fw_nblocks _ (vo_fs _ _ V)).
  destruct (bitmapsize_eq (nblocks s)) as [E1 E2]; [lia|]. unfold mapblocks. rewrite E1 in H.
  assert (0 ≤ SFS_BITBLOCKS (nblocks s)) by (rewrite E2; apply Z.div_pos; lia). lia.
Qed.

(** The end of [sfs_sync]: the superblock. *)
Lemma sync_super_run s l :
  fs_wf s → super_wf (sfs_super s) → (∀ k p, l !! k = Some p → synced s p) →
  (∀ k p v, l !! k = Some p → heap s !! p = Some v → sv_ino v ≠ 0 ∧ 0 ≤ sv_ino v) →
  (sfs_superdirty s = false → img s !! 0%nat = Some (enc_super (sfs_super s))) →
  holds_map (img s) (Bitmap.v (sfs_freemap s)) 0 (mapblocks s) → sfs_freemapdirty s = false →
  ∃ s', sync_super s = Ok (0, s') ∧ on_disk s' l ∧ fs_wf s' ∧ sfs_super s' = sfs_super s ∧
    sfs_freemap s' = sfs_freemap s ∧ sfs_vnodes s' = sfs_vnodes s ∧ heap s' = heap s.
Proof.
  intros Hw Hsp Hsy Hino Hsb Hmap Hd. unfold sync_super. erewrite bind_ok; [|reflexivity].
  destruct (sfs_superdirty s) eqn:Es.
  2:{ exists s. split_and!; try done. constructor; auto. }
  erewrite bind_ok; [|reflexivity]. pose proof (fw_nblocks _ Hw) as Hnb.
  destruct (wblock_run s 0 (enc_super (sfs_super s)) Hw) as (d & E & Hwd & Him & Hu); [lia|by apply super_roundtrip|].
  unfold SFS_SB_LOCATION. rewrite (bind_ok _ _ _ _ _ E). cbn [negb Z.eqb]. erewrite bind_ok; [|reflexivity].
  eexists. split; [reflexivity|]. change (image d) with (img (set_device d s)) in Him.
  split_and!; try done; [|by destruct Hwd].
  constructor; try done; change (img (set_superdirty false (set_device d s))) with (img (set_device d s)).
  - intros k p Hk. destruct (Hsy k p Hk) as (v & Hv & Hc & Hs). exists v. split_and!; try done.
    destruct (Hino k p v Hk Hv). change (img _) with (img (set_device d s)). rewrite Him.
    rewrite list_lookup_insert_ne by lia. done.
  - intros k Hk. rewrite Him. rewrite list_lookup_insert_ne by lia. by apply Hmap.
  - rewrite Him. apply list_lookup_insert_eq. lia.
Qed.

Lemma sfs_sync_run s l :
  volume s l →
  ∃ s', sfs_sync s = Ok (0, s') ∧ on_disk s' l ∧ fs_wf s' ∧ sfs_super s' = sfs_super s ∧
    sfs_freemap s' = sfs_freemap s ∧ sfs_vnodes s' = sfs_vnodes s ∧
    ∀ p v, heap s !! p = Some v → ∃ b, heap s' !! p = Some (set_inode (sv_i v) b v).
Proof.
  intros V. pose proof V as [V1 V2 V3 V4 V5 V6 V7 V8 V9 V10]. unfold sfs_sync.
  erewrite bind_ok; [|reflexivity]. unfold Array.array_getnum.
  rewrite (Array.array_rep_len _ _ (vt_rep _ _ V2)), Nat2Z.id.
  destruct (sync_vnodes_run (length l) 0 s l V1 V2 eq_refl) as (s1 & E1 & W1 & T1 & [F1 F2 F3 F4 F5 F6] & S1); [intros; lia|].
  change (Z.of_nat 0) with 0 in E1. rewrite (bind_ok _ _ _ _ _ E1). erewrite bind_ok; [|reflexivity].
  assert (nblocks s1 = nblocks s) as N1 by (unfold nblocks; by rewrite (sr_super _ _ F1)).
  assert (mapblocks s1 = mapblocks s) as M1 by (unfold mapblocks; by rewrite N1).
  assert (∀ k p v, l !! k = Some p → heap s1 !! p = Some v →
    sv_ino v ≠ 0 ∧ (sv_ino v < 2 ∨ Z.of_nat (2 + mapblocks s) ≤ sv_ino v) ∧ 0 ≤ sv_ino v) as Hino.
  { intros k p v Hk Hv. destruct (vt_live _ _ T1 k p Hk) as (w & Hw & _ & _ & _ & Hr & _).
    assert (w = v) as -> by congruence.
    destruct (F4 p) as [E|(v0 & E0 & E)]; rewrite E in Hv.
    - destruct (V8 k p v Hk Hv). split_and!; (done || lia).
    - injection Hv as <-. destruct (V8 k p v0 Hk E0). cbn in *. split_and!; (done || lia). }
  assert (sfs_superdirty s1 = false → img s1 !! 0%nat = Some (enc_super (sfs_super s1))) as Hsb.
  { rewrite (sr_superdirty _ _ F1), (sr_super _ _ F1). intros Hs. rewrite F6; [by apply V10|].
    intros k p v Hk Hv. destruct (V8 k p v Hk Hv). destruct (vt_live _ _ V2 k p Hk) as (w & Hw & _ & _ & _ & Hr & _).
    assert (w = v) as -> by congruence. lia. }
  assert (∀ b k p v, (2 ≤ b < 2 + mapblocks s)%nat → l !! k = Some p → heap s1 !! p = Some v → b ≠ Z.to_nat (sv_ino v)) as Hout.
  { intros b k p v Hb Hk Hv. destruct (Hino k p v Hk Hv) as (? & ? & ?). lia. }
  assert (∀ p v, heap s !! p = Some v → ∃ b, heap s1 !! p = Some (set_inode (sv_i v) b v)) as Hhp.
  { intros p v Hv. destruct (F4 p) as [E|(v0 & E0 & E)]; [|exists false; congruence].
    exists (sv_dirty v). rewrite E, Hv. by destruct v. }
  destruct (sfs_freemapdirty s1) eqn:Ed.
  - unfold sfs_mapio. assert (length (Bitmap.v (sfs_freemap s1)) = ((0 + mapblocks s) * 512)%nat) as Hml
      by (rewrite F2; by eapply map_length).
    destruct (mapio_write_run (mapblocks s) 0 s1 _ W1 eq_refl Hml) as (d & E & Wd & Hm & Hu & Hl & Ho); [rewrite N1; lia|].
    erewrite bind_ok; [|erewrite bind_ok; [|reflexivity]; change (SFS_BITBLOCKS (sp_nblocks (sfs_super s1))) with (SFS_BITBLOCKS (nblocks s1));
      fold (mapblocks s1); rewrite M1; exact E].
    cbn [negb Z.eqb]. erewrite bind_ok; [|reflexivity].
    set (s2 := set_freemap (sfs_freemap (set_device d s1)) false (set_device d s1)).
    destruct (sync_super_run s2 l) as (s3 & E3 & O3 & W3 & R1 & R2 & R3 & R4); try done.
    + by destruct Wd.
    + cbn. by rewrite (sr_super _ _ F1).
    + intros k p Hk. destruct (S1 k p Hk) as (v & Hv & Hc & Hs). exists v. split_and!; try done.
      change (img s2) with (image d). rewrite Ho; [done|]. destruct (Hino k p v Hk Hv) as (? & ? & ?). lia.
    + intros k p v Hk Hv. destruct (Hino k p v Hk Hv) as (? & ? & ?). done.
    + intros Hs. change (img s2) with (image d). rewrite Ho by lia. by apply Hsb.
    + change (mapblocks s2) with (mapblocks s1). rewrite M1. done.
    + exists s3. split_and!; try done; [by rewrite R1; apply F1|by rewrite R2; apply F2|by rewrite R3; apply F1|by rewrite R4].
  - destruct (sync_super_run s1 l) as (s3 & E3 & O3 & W3 & R1 & R2 & R3 & R4); try done.
    + by rewrite (sr_super _ _ F1).
    + intros k p v Hk Hv. destruct (Hino k p v Hk Hv) as (? & ? & ?). done.
    + rewrite F2, M1. intros k Hk. rewrite F6; [apply V9; [congruence|done]|].
      intros j p v Hj Hv. destruct (F4 p) as [E|(v0 & E0 & E)].
      * rewrite Hv in E. apply (Hout (2 + k)%nat j p v); [lia|done|done].
      * assert (v0 = v) as -> by congruence. apply (Hout (2 + k)%nat j p (set_inode (sv_i v) false v)); [lia|done|done].
    + exists s3. split_and!; try done; [by rewrite R1; apply F1|by rewrite R2; apply F2|by rewrite R3; apply F1|by rewrite R4].
Qed.

(** ** Mounting *)
Lemma mount_run s l :
  fs_wf s → super_wf (sfs_super s) → sp_magic (sfs_super s) = SFS_MAGIC → sp_volname (sfs_super s) !! 31%nat = Some 0 →
  Bitmap.nbits (sfs_freemap s) = SFS_BITMAPSIZE (nblocks s) → Z.of_nat (2 + mapblocks s) ≤ nblocks s →
  length (Bitmap.v (sfs_freemap s)) = (mapblocks s * 512)%nat → on_disk s l →
  ∃ d, sfs_domount 512 [] (sfs_device s) =
    Ok (inr (mksfs (sfs_super s) false d (Array.mkarray 0 0 None) (sfs_freemap s) false ∅ 0 []), d) ∧
    dev_wf d ∧ faults d = [] ∧ image d = img s.
Proof.
  intros Hw Hsp Hm Hvn Hnb Hfit Hlen [O1 O2 O3 O4].
  pose proof (nblocks_22 s Hw) as H22. pose proof (fw_nblocks _ Hw) as Hn0.
  destruct (bitmapsize_eq (nblocks s)) as [Eb Eq]; [lia|].
  assert (0 ≤ SFS_BITBLOCKS (nblocks s)) as Hb0 by (rewrite Eq; apply Z.div_pos; lia).
  unfold sfs_domount. change (512 =? SFS_BLOCKSIZE) with true. cbn [negb head default lookup list_lookup id Array.array_create].
  destruct (rblock_ok (sfs_device s) zero_block 0 (enc_super (sfs_super s)) [] []) as (d & E & D1 & D2 & D3 & D4);
    try done; [apply Hw|apply Hw|simpl; lia|].
  unfold SFS_SB_LOCATION. rewrite (bind_ok _ _ _ _ _ E). cbn [negb Z.eqb].
  rewrite (proj1 (super_roundtrip _ Hsp)), Hm, Z.eqb_refl. cbn [negb].
  replace (mksuper _ _ _ _) with (sfs_super s)
    by (rewrite (list_insert_id _ _ _ Hvn); destruct (sfs_super s); cbn in *; congruence).
  pose proof (Bitmap.bitmap_create_clear (SFS_BITMAPSIZE (nblocks s)) true true) as Hc.
  change (sp_nblocks (sfs_super s)) with (nblocks s) in *.
  assert (0 ≤ SFS_BITMAPSIZE (nblocks s) < 2 ^ 32 - 8) as Hr by (rewrite Eb, Eq; clear - H22 Hn0; Z.to_euclidean_division_equations; lia).
  specialize (Hc Hr). destruct (Bitmap.bitmap_create _ _ _) as [[fm|]| | |] eqn:Ec; try done.
  destruct Hc as (F1 & F2 & F3). erewrite bind_ok; [|reflexivity]. cbv beta iota. unfold mount_map, sfs_mapio.
  set (s0 := mksfs _ _ _ _ fm _ _ _ _).
  destruct (mapio_read_run (mapblocks s) 0 s0 (Bitmap.v (sfs_freemap s))) as (d2 & E2 & W2 & I2 & L2); try done.
  - cbn. pose proof (Bitmap.nbits_le_words _ F1). rewrite F2 in *. rewrite Hlen. unfold mapblocks in *. lia.
  - lia.
  - intros k Hk. change (img s0) with (image d). rewrite D2. by apply O2.
  - erewrite bind_ok; [|reflexivity]. cbn [Z.to_nat]. change (SFS_BITBLOCKS (sp_nblocks (sfs_super s0))) with (SFS_BITBLOCKS (nblocks s)).
    fold (mapblocks s). change (Z.of_nat 0) with 0 in E2. rewrite E2.
    cbn. exists d2. rewrite F2. split_and!; try done.
    + unfold set_freemap, set_device, s0. cbn. rewrite <- Hnb. by destruct (sfs_freemap s).
    + rewrite I2. exact D2.
Qed.

(** ** Theorems *)

(** Syncing a volume succeeds and brings the disk up to date: every loaded inode,
    the free map and the superblock are on disk as they are in memory, nothing
    is left dirty, and the in-memory volume is the one it was. *)
Theorem sfs_sync_correct s l :
  volume s l →
  ∃ s', sfs_sync s = Ok (0, s') ∧ on_disk s' l ∧ fs_wf s' ∧ sfs_super s' = sfs_super s ∧
    sfs_freemap s' = sfs_freemap s ∧ sfs_vnodes s' = sfs_vnodes s ∧
    ∀ p v, heap s !! p = Some v → ∃ b, heap s' !! p = Some (set_inode (sv_i v) b v).
Proof. apply sfs_sync_run. Qed.

(** Sync, then mount: the file system mounted from the synced device has the
    superblock and the free map of the one that was synced, no vnode loaded and
    nothing dirty. *)
Theorem sfs_sync_mount_roundtrip s l :
  volume s l →
  ∃ s1 s2 d, sfs_sync s = Ok (0, s1) ∧ sfs_domount 512 [] (sfs_device s1) = Ok (inr s2, d) ∧
    sfs_super s2 = sfs_super s ∧ sfs_freemap s2 = sfs_freemap s ∧ Array.array_getnum (sfs_vnodes s2) = 0 ∧
    sfs_superdirty s2 = false ∧ sfs_freemapdirty s2 = false ∧ img s2 = img s1.
Proof.
  intros V. destruct (sfs_sync_run s l V) as (s1 & E & O & W & R1 & R2 & R3 & _).
  assert (nblocks s1 = nblocks s) as N1 by (unfold nblocks; by rewrite R1).
  assert (mapblocks s1 = mapblocks s) as M1 by (unfold mapblocks; by rewrite N1).
  destruct (mount_run s1 l) as (d & Em & _ & _ & I); try done; rewrite ?R1, ?R2, ?N1, ?M1; try apply V; [by eapply map_length|].
  rewrite ?R1, ?R2 in Em. eexists s1, _, d. split_and!; try done.
Qed.

(** A file system with loaded vnodes cannot be unmounted; one without, clean
    after a sync, hands its device back. *)
Theorem sfs_unmount_busy_or_clean s l :
  volume s l →
  ∃ s1, sfs_sync s = Ok (0, s1) ∧
    sfs_unmount s1 = Ok (if decide (l = []) then (0, inr (sfs_device s1)) else (EBUSY, inl s1)).
Proof.
  intros V. destruct (sfs_sync_run s l V) as (s1 & E & [_ _ _ [O1 O2]] & W & R1 & R2 & R3 & _). exists s1. split; [done|].
  unfold sfs_unmount, Array.array_getnum. rewrite R3, (Array.array_rep_len _ _ (vt_rep _ _ (vo_table _ _ V))), O1, O2.
  destruct l as [|p l]; case_decide; try done.
Qed.

End Sfsvol.
