(* ===== verification/Sfsref.v ===== *)
(** * Vnode life cycle, properties of sfs_vnode.c and vnode.c

    A vnode is loaded once and shared: [sfs_loadvnode] of an inode that is in the
    table hands back the same pointer with one more reference, otherwise it reads
    the inode from disk into a fresh vnode.  The last [vnode_decref] writes the
    inode back and drops the vnode, and when no directory entry is left frees
    the inode and every block of the file. *)
From stdpp Require Import base list gmap numbers.
From S2P Require Import Prelude Array Bitmap Copyinout Uio Lhd Cstring Sfsdisk Sfs Sfsfile Sfstrunc Sfsvol.
Local Open Scope Z_scope.

Module Sfsref.
Import Copyinout Uio Lhd Sfsdisk Sfs Sfsfile Sfstrunc Sfsvol.

(** ** Loading vnodes *)

(** The blocks of the loaded inodes are marked in the free map. *)
Definition inos_used (s : sfs_fs) (l : list nat) : Prop :=
  ∀ k p v, l !! k = Some p → heap s !! p = Some v → used s (sv_ino v).

(** The table search up to index [k]: no vnode before it has inode [ino]. *)
Lemma search_step n i s l ino ft p v :
  fs_wf s → vtable s l → inos_used s l → l !! i = Some p → heap s !! p = Some v → sv_ino v ≠ ino →
  search_vnodes (S n) (Z.of_nat i) ino ft s = search_vnodes n (Z.of_nat (S i)) ino ft s.
Proof.
  intros Hw Ht Hu Hi Hv Hne. cbn [search_vnodes]. erewrite bind_ok; [|reflexivity].
  erewrite bind_ok; [|apply lift_run; rewrite (Array.array_getguy_rep _ l i (vt_rep _ _ Ht)), Hi; reflexivity].
  rewrite (bind_ok _ _ _ _ _ (getv_run _ _ _ Hv)). destruct (vt_live _ _ Ht i p Hi) as (w & Hw' & _ & _ & _ & Hr & _).
  assert (w = v) as -> by congruence.
  rewrite (bind_ok _ _ _ _ _ (bused_run s (sv_ino v) Hw ltac:(lia) (Hu i p v Hi Hv))). cbn [negb].
  rewrite (proj2 (Z.eqb_neq _ _) Hne). by replace (Z.of_nat i + 1) with (Z.of_nat (S i)) by lia.
Qed.

Lemma search_hit n i s l k p v :
  fs_wf s → vtable s l → inos_used s l → l !! k = Some p → heap s !! p = Some v → (i ≤ k < i + n)%nat →
  (i + n = length l)%nat →
  search_vnodes n (Z.of_nat i) (sv_ino v) SFS_TYPE_INVAL s =
    Ok (Some p, set_heap (<[p := set_counts (i32 (vn_refcount v + 1)) (vn_opencount v) v]> (heap s)) (heap_next s) s).
Proof.
  intros Hw Ht Hu Hk Hv. revert i. induction n as [|n IH]; intros i Hik Hl; [lia|].
  destruct (lookup_lt_is_Some_2 l i) as [q Hq]; [lia|]. destruct (vt_live _ _ Ht i q Hq) as (w & Hw' & _ & _ & _ & Hr & _).
  destruct (decide (sv_ino w = sv_ino v)) as [He|Hne].
  2:{ rewrite (search_step n i s l _ _ q w) by done. apply IH; [|lia].
      destruct (decide (i = k)) as [->|]; [|lia]. exfalso. apply Hne. congruence. }
  assert (i = k) as -> by (by eapply (vt_inj _ _ Ht i k q p w v)).
  assert (q = p) as -> by congruence. assert (w = v) as -> by congruence.
  cbn [search_vnodes]. erewrite bind_ok; [|reflexivity].
  erewrite bind_ok; [|apply lift_run; rewrite (Array.array_getguy_rep _ l k (vt_rep _ _ Ht)), Hk; reflexivity].
  rewrite (bind_ok _ _ _ _ _ (getv_run _ _ _ Hv)).
  rewrite (bind_ok _ _ _ _ _ (bused_run s (sv_ino v) Hw ltac:(lia) (Hu k p v Hk Hv))). cbn [negb].
  rewrite Z.eqb_refl. erewrite bind_ok; [|reflexivity]. unfold vnode_incref.
  by rewrite (bind_ok _ _ _ _ _ (updv_run p _ v s Hv)).
Qed.

Lemma search_miss n i s l ino ft :
  fs_wf s → vtable s l → inos_used s l → (∀ k p v, l !! k = Some p → heap s !! p = Some v → sv_ino v ≠ ino) →
  (i + n = length l)%nat → search_vnodes n (Z.of_nat i) ino ft s = Ok (None, s).
Proof.
  intros Hw Ht Hu Hno. revert i. induction n as [|n IH]; intros i Hl; [done|].
  destruct (lookup_lt_is_Some_2 l i) as [q Hq]; [lia|]. destruct (vt_live _ _ Ht i q Hq) as (w & Hw' & _).
  rewrite (search_step n i s l _ _ q w) by eauto. apply IH. lia.
Qed.

(** The function table an inode of this type gets. *)
Definition ops_of (i : sfs_inode) : vnode_ops := if sfi_type i =? SFS_TYPE_FILE then sfs_fileops else sfs_dirops.

Lemma load_miss s l ino i :
  fs_wf s → vtable s l → inos_used s l → (∀ k p v, l !! k = Some p → heap s !! p = Some v → sv_ino v ≠ ino) →
  heap s !! heap_next s = None → mem s = [] → Z.of_nat (length l) < 2 ^ 29 - 2 →
  0 < ino < nblocks s → used s ino → img s !! Z.to_nat ino = Some (enc_inode i) → inode_wf i →
  sfi_type i = SFS_TYPE_FILE ∨ sfi_type i = SFS_TYPE_DIR →
  ∃ s', sfs_loadvnode ino SFS_TYPE_INVAL s = Ok (inr (heap_next s), s') ∧
    heap s' = <[heap_next s := mkvnode (ops_of i) 1 0 i ino false]> (heap s) ∧ fs_wf s' ∧
    vtable s' (l ++ [heap_next s]) ∧ img s' = img s ∧ sfs_freemap s' = sfs_freemap s ∧ sfs_super s' = sfs_super s.
Proof.
  intros Hw Ht Hu Hno Hfresh Hmem Hlen Hino Hused Hsec Hiw Hty. unfold sfs_loadvnode.
  erewrite bind_ok; [|reflexivity]. unfold Array.array_getnum.
  rewrite (Array.array_rep_len _ _ (vt_rep _ _ Ht)), Nat2Z.id.
  rewrite (bind_ok _ _ _ _ _ (search_miss (length l) 0 s l ino _ Hw Ht Hu Hno eq_refl)).
  erewrite bind_ok; [|reflexivity]. rewrite Hmem. cbn [head default id negb tail].
  set (s0 := set_mem [] s). assert (fs_wf s0) as Hw0 by (by destruct Hw).
  rewrite (bind_ok _ _ _ _ _ (bused_run s0 ino Hw0 ltac:(change (nblocks s0) with (nblocks s); lia) Hused)). cbn [negb].
  destruct (rblock_run s0 ino Hw0) as (d & E & Hwd & Him & Hus); [change (nblocks s0) with (nblocks s); lia|].
  rewrite (bind_ok _ _ _ _ _ E). cbn [negb Z.eqb]. change (img s0) with (img s) in *.
  unfold sec. rewrite Hsec. cbn [default id]. rewrite (proj1 (inode_roundtrip _ Hiw)).
  unfold install_vnode. change (SFS_TYPE_INVAL =? SFS_TYPE_INVAL) with true. cbn [negb].
  erewrite bind_ok; [|reflexivity].
  cbv beta iota. erewrite (bind_ok _ _ _ (ops_of i)).
  2:{ unfold ops_of. destruct Hty as [-> | ->]; reflexivity. }
  rewrite (bind_ok vnode_init _ (set_device d s0) (inr (1, 0)) (set_device d s0) eq_refl). cbn [fst snd].
  do 3 (erewrite bind_ok; [|reflexivity]).
  destruct (Array.array_add_appends (sfs_vnodes s) l (heap_next s) true (vt_rep _ _ Ht) Hlen (or_introl eq_refl)) as (tbl & Ea & Ra).
  erewrite bind_ok; [|apply lift_run; exact Ea]. cbv beta iota. erewrite bind_ok; [|reflexivity].
  cbn [negb Z.eqb]. eexists. split; [reflexivity|]. split; [reflexivity|].
  match goal with |- fs_wf ?x ∧ _ => set (s' := x) end. change (img s') with (image d). rewrite Him.
  split; [by destruct Hwd|]. split_and!; try done. destruct Ht as [T1 T2 T3].
  assert (∀ k p v, l !! k = Some p → heap s' !! p = Some v → heap s !! p = Some v) as Hold.
  { intros k p v Hk Hv. destruct (T2 k p Hk) as (w & Hw' & _). cbn in Hv. rewrite lookup_insert_ne in Hv; congruence. }
  constructor; [exact Ra| |].
  - intros k p Hk. change (img s') with (image d). rewrite Him. apply lookup_snoc_Some in Hk as [[Hk1 Hk]|[Hk1 <-]].
    + destruct (T2 k p Hk) as (w & Hw' & Hr). exists w. split; [|exact Hr]. cbn. rewrite lookup_insert_ne; congruence.
    + eexists. split; [apply lookup_insert_eq|]. cbn.
      split; [lia|]. split; [lia|]. split; [done|]. split; [exact Hino|]. intros _. exact Hsec.
  - intros j k p q vp vq Hj Hk Hp Hq He.
    apply lookup_snoc_Some in Hj as [[Hj1 Hj]|[Hj1 <-]]; apply lookup_snoc_Some in Hk as [[Hk1 Hk]|[Hk1 <-]].
    + eapply (T3 j k p q vp vq); eauto.
    + exfalso. cbn in Hq. rewrite lookup_insert_eq in Hq. injection Hq as <-. eapply (Hno j p vp); eauto.
    + exfalso. cbn in Hp. rewrite lookup_insert_eq in Hp. injection Hp as <-. eapply (Hno k q vq); eauto.
    + lia.
Qed.

(** ** Reclaiming vnodes *)
Lemma table_index_run n i s l k p :
  Array.array_rep (sfs_vnodes s) l → l !! k = Some p → (∀ j, l !! j = Some p → j = k) →
  (i ≤ k < i + n)%nat → (i + n = length l)%nat → table_index n (Z.of_nat i) p s = Ok (Z.of_nat k, s).
Proof.
  intros Hr Hk Hinj. revert i. induction n as [|n IH]; intros i Hik Hl; [lia|]. cbn [table_index].
  destruct (lookup_lt_is_Some_2 l i) as [q Hq]; [lia|]. erewrite bind_ok; [|reflexivity].
  erewrite bind_ok; [|apply lift_run; rewrite (Array.array_getguy_rep _ l i Hr), Hq; reflexivity].
  case_decide as Hqp.
  - subst q. by rewrite (Hinj i Hq).
  - replace (Z.of_nat i + 1) with (Z.of_nat (S i)) by lia. apply IH; [|lia].
    destruct (decide (i = k)) as [->|]; [congruence|lia].
Qed.

Lemma drop_vnode_run s l k p v :
  Array.array_rep (sfs_vnodes s) l → l !! k = Some p → (∀ j, l !! j = Some p → j = k) → heap s !! p = Some v →
  vn_refcount v = 1 → vn_opencount v = 0 →
  ∃ tbl, drop_vnode p s = Ok (0, set_heap (delete p (heap s)) (heap_next s) (set_vnodes tbl s)) ∧
    Array.array_rep tbl (delete k l).
Proof.
  intros Hr Hk Hinj Hv H1 H0. unfold drop_vnode. erewrite bind_ok; [|reflexivity]. apply lookup_lt_Some in Hk as Hlt.
  unfold Array.array_getnum. rewrite (Array.array_rep_len _ _ Hr), Nat2Z.id.
  rewrite (bind_ok _ _ _ _ _ (table_index_run (length l) 0 s l k p Hr Hk Hinj ltac:(lia) eq_refl)).
  rewrite (proj2 (Z.ltb_ge (Z.of_nat k) 0)) by lia. erewrite bind_ok; [|reflexivity].
  destruct (Array.array_remove_deletes (sfs_vnodes s) l k Hr Hlt) as (tbl & E & Rt & _).
  erewrite bind_ok; [|by apply lift_run]. erewrite bind_ok; [|reflexivity].
  exists tbl. rewrite <- delete_take_drop in Rt. split; [|done].
  erewrite bind_ok.
  2:{ unfold vnode_kill. rewrite (bind_ok _ _ _ _ _ (getv_run p v (set_vnodes tbl s) Hv)), H1, H0. reflexivity. }
  erewrite bind_ok; [|reflexivity]. reflexivity.
Qed.

(** A loaded vnode occupies one slot of the table. *)
Lemma vtable_slot s l k p : vtable s l → l !! k = Some p → ∀ j, l !! j = Some p → j = k.
Proof. intros Ht Hk j Hj. destruct (vt_live _ _ Ht k p Hk) as (v & Hv & _). by apply (vt_inj _ _ Ht j k p p v v). Qed.

Lemma sync_inode_run s p v :
  fs_wf s → heap s !! p = Some v → inode_wf (sv_i v) → 0 < sv_ino v < nblocks s →
  (sv_dirty v = false → img s !! Z.to_nat (sv_ino v) = Some (enc_inode (sv_i v))) →
  ∃ d, sfs_sync_inode p s = Ok (0, set_heap (<[p := set_inode (sv_i v) false v]> (heap s)) (heap_next s) (set_device d s)) ∧
    fs_wf (set_device d s) ∧ image d = <[Z.to_nat (sv_ino v) := enc_inode (sv_i v)]> (img s).
Proof.
  intros Hw Hv Hi Hino Hcl. unfold sfs_sync_inode. rewrite (bind_ok _ _ _ _ _ (getv_run _ _ _ Hv)).
  destruct (sv_dirty v) eqn:Ed.
  - destruct (wblock_run s (sv_ino v) (enc_inode (sv_i v)) Hw) as (d & E & Hwd & Him & _); [lia|by apply inode_roundtrip|].
    exists d. rewrite (bind_ok _ _ _ _ _ E). cbn [negb Z.eqb].
    by rewrite (bind_ok _ _ _ _ _ (updv_run p _ v (set_device d s) Hv)).
  - exists (sfs_device s). rewrite set_device_id. split_and!; try done; [|by rewrite list_insert_id; auto].
    assert (set_inode (sv_i v) false v = v) as -> by (rewrite <- Ed; by destruct v).
    rewrite insert_id by done. by destruct s.
Qed.

Lemma inode_ok_wf n us im i j :
  inode_wf j → inode_ok n us im i → sfi_type i = sfi_type j → sfi_linkcount i = sfi_linkcount j → sfi_waste i = sfi_waste j →
  u32_val (sfi_size i) → inode_wf i.
Proof.
  intros [J1 J2 J3 J4 J5 J6 J7 J8] Hok Et El Ew Hs. pose proof (io_n _ _ _ _ Hok) as [_ Hn].
  assert (∀ b, b = 0 ∨ valid_block n us b → u32_val b) as Hb.
  { intros b [->|[Hv _]]; unfold u32_val; lia. }
  constructor; rewrite ?Et, ?El, ?Ew; try done.
  - apply Hok.
  - apply Forall_lookup_2. intros k b Hk. apply Hb, (io_ptrs _ _ _ _ Hok k). unfold ptrs. rewrite lookup_app_l; [done|].
    by apply lookup_lt_Some in Hk.
  - apply Hb, Hok.
Qed.

(** What [vnode_decref] does with the last reference. *)
Lemma decref_last_run s p v :
  heap s !! p = Some v → vn_refcount v = 1 → vn_opencount v = 0 →
  vnode_decref p s = match sfs_reclaim p s with Ok (_, s') => Ok (tt, s') | Panic => Panic | Undef => Undef | Spin => Spin end.
Proof.
  intros Hv H1 H0. unfold vnode_decref. rewrite (bind_ok _ _ _ _ _ (getv_run _ _ _ Hv)), H1.
  erewrite bind_ok; [|reflexivity]. change (1 >? 1) with false. cbv iota.
  by rewrite (bind_ok _ _ _ _ _ (vnode_check_run s p v true Hv ltac:(lia) ltac:(lia))).
Qed.

(** ** Theorems *)

(** An inode that is in the vnode table is not loaded a second time: its users
    share one vnode, whose reference count goes up. *)
Theorem sfs_loadvnode_shares s l k p v :
  fs_wf s → vtable s l → inos_used s l → l !! k = Some p → heap s !! p = Some v →
  sfs_loadvnode (sv_ino v) SFS_TYPE_INVAL s =
    Ok (inr p, set_heap (<[p := set_counts (i32 (vn_refcount v + 1)) (vn_opencount v) v]> (heap s)) (heap_next s) s).
Proof.
  intros Hw Ht Hu Hk Hv. unfold sfs_loadvnode. erewrite bind_ok; [|reflexivity]. unfold Array.array_getnum.
  rewrite (Array.array_rep_len _ _ (vt_rep _ _ Ht)), Nat2Z.id. apply lookup_lt_Some in Hk as Hlt.
  by rewrite (bind_ok _ _ _ _ _ (search_hit (length l) 0 s l k p v Hw Ht Hu Hk Hv ltac:(lia) eq_refl)).
Qed.

(** An inode that is not in the table is read from its block into a fresh vnode with
    one reference, and the table stays a table of distinct inodes. *)
Theorem sfs_loadvnode_reads_disk s l ino i :
  fs_wf s → vtable s l → inos_used s l → (∀ k p v, l !! k = Some p → heap s !! p = Some v → sv_ino v ≠ ino) →
  heap s !! heap_next s = None → mem s = [] → Z.of_nat (length l) < 2 ^ 29 - 2 →
  0 < ino < nblocks s → used s ino → img s !! Z.to_nat ino = Some (enc_inode i) → inode_wf i →
  sfi_type i = SFS_TYPE_FILE ∨ sfi_type i = SFS_TYPE_DIR →
  ∃ s', sfs_loadvnode ino SFS_TYPE_INVAL s = Ok (inr (heap_next s), s') ∧
    heap s' = <[heap_next s := mkvnode (ops_of i) 1 0 i ino false]> (heap s) ∧ fs_wf s' ∧
    vtable s' (l ++ [heap_next s]) ∧ img s' = img s ∧ sfs_freemap s' = sfs_freemap s ∧ sfs_super s' = sfs_super s.
Proof. apply load_miss. Qed.

(** Dropping a reference that is not the last one changes the count and nothing
    else. *)
Theorem vnode_decref_shared s p v :
  heap s !! p = Some v → 1 < vn_refcount v →
  vnode_decref p s =
    Ok (tt, set_heap (<[p := set_counts (vn_refcount v - 1) (vn_opencount v) v]> (heap s)) (heap_next s) s).
Proof.
  intros Hv Hr. unfold vnode_decref. rewrite (bind_ok _ _ _ _ _ (getv_run _ _ _ Hv)).
  rewrite (proj2 (Z.gtb_lt (vn_refcount v) 0)), (proj2 (Z.gtb_lt (vn_refcount v) 1)) by lia.
  erewrite bind_ok; [|reflexivity]. by rewrite (updv_run p _ v s Hv).
Qed.

(** The last reference to a file that still has a name: the inode is written
    back, the vnode leaves the table and is freed, no block is freed. *)
Theorem vnode_decref_last_linked s l k p v :
  fs_wf s → vtable s l → l !! k = Some p → heap s !! p = Some v →
  vn_refcount v = 1 → vn_opencount v = 0 → sfi_linkcount (sv_i v) ≠ 0 →
  ∃ s', vnode_decref p s = Ok (tt, s') ∧ heap s' = delete p (heap s) ∧
    Array.array_rep (sfs_vnodes s') (delete k l) ∧ sfs_freemap s' = sfs_freemap s ∧
    img s' = <[Z.to_nat (sv_ino v) := enc_inode (sv_i v)]> (img s).
Proof.
  intros Hw Ht Hk Hv H1 H0 Hl. destruct (vt_live _ _ Ht k p Hk) as (w & Hv' & _ & _ & Hi & Hino & Hcl).
  assert (w = v) as -> by congruence. rewrite (decref_last_run s p v Hv H1 H0). unfold sfs_reclaim.
  rewrite (bind_ok _ _ _ _ _ (getv_run _ _ _ Hv)), H1. change (1 =? 1) with true. cbn [negb].
  rewrite (proj2 (Z.eqb_neq _ 0) Hl). erewrite bind_ok; [|reflexivity]. cbn [negb Z.eqb].
  destruct (sync_inode_run s p v Hw Hv Hi Hino Hcl) as (d & E & Hwd & Him). rewrite (bind_ok _ _ _ _ _ E). cbn [negb Z.eqb].
  set (s1 := set_heap _ _ _) in *. set (v1 := set_inode (sv_i v) false v) in *.
  assert (heap s1 !! p = Some v1) as Hv1 by apply lookup_insert_eq.
  rewrite (bind_ok _ _ _ _ _ (getv_run _ _ _ Hv1)). change (sv_i v1) with (sv_i v).
  rewrite (proj2 (Z.eqb_neq _ 0) Hl). erewrite bind_ok; [|reflexivity].
  destruct (drop_vnode_run s1 l k p v1 (vt_rep _ _ Ht) Hk (vtable_slot _ _ _ _ Ht Hk) Hv1 H1 H0) as (tbl & -> & Rt).
  eexists. split; [reflexivity|]. split_and!; try done. cbn. by rewrite delete_insert_eq.
Qed.

(** C5: The last reference to a file without a name left: the vnode is gone and the
    inode block and every block of the file, and only those, are free. *)
Theorem vnode_decref_last_unlinked s l k p v :
  fileinv s p v → vtable s l → l !! k = Some p → vn_ops v = sfs_fileops →
  vn_refcount v = 1 → vn_opencount v = 0 → sfi_linkcount (sv_i v) = 0 →
  used s (sv_ino v) → ¬ owns (img s) (sv_i v) (sv_ino v) →
  ∃ s', vnode_decref p s = Ok (tt, s') ∧ heap s' = delete p (heap s) ∧
    Array.array_rep (sfs_vnodes s') (delete k l) ∧
    (∀ c, 0 ≤ c → used s' c ↔ used s c ∧ c ≠ sv_ino v ∧ ¬ owns (img s) (sv_i v) c) ∧
    (∀ b, 0 ≤ b → b ≠ sv_ino v → ¬ owns (img s) (sv_i v) b → img s' !! Z.to_nat b = img s !! Z.to_nat b).
Proof.
  intros Hf Ht Hk Hops H1 H0 Hl Hu Hown. pose proof (fi_v _ _ _ Hf) as Hv.
  destruct (vt_live _ _ Ht k p Hk) as (w & Hv' & _ & _ & Hi & Hino & _). assert (w = v) as -> by congruence.
  rewrite (decref_last_run s p v Hv H1 H0). unfold sfs_reclaim.
  rewrite (bind_ok _ _ _ _ _ (getv_run _ _ _ Hv)), H1. change (1 =? 1) with true. cbn [negb]. rewrite Hl. cbn [Z.eqb].
  destruct (truncate_zero_run s p v Hf) as (s1 & v1 & E1 & C & Hs & Hd & _ & Hus). pose proof C as [A1 A2 A3 A4 _ _ _ A8].
  erewrite (bind_ok (VOP_TRUNCATE p 0) _ s 0 s1).
  2:{ unfold VOP_TRUNCATE. rewrite (bind_ok _ _ _ _ _ (vnode_check_run s p v false Hv ltac:(lia) ltac:(lia))).
      by rewrite (bind_ok _ _ _ _ _ (getv_run _ _ _ Hv)), Hops. }
  cbn [negb Z.eqb]. destruct A4 as (M1 & M2 & M3 & M4 & M5 & M6 & M7). pose proof (fi_v _ _ _ A1) as Hv1.
  assert (nblocks s1 = nblocks s) as N1 by (unfold nblocks; by rewrite (sr_super _ _ A2)).
  destruct (sync_inode_run s1 p v1 (fi_fs _ _ _ A1) Hv1) as (d & E2 & Hwd & Him).
  { eapply inode_ok_wf; [exact Hi|apply A1|done..|]. rewrite Hs. by vm_compute. }
  { rewrite M4, N1. lia. }
  { congruence. }
  rewrite (bind_ok _ _ _ _ _ E2). cbn [negb Z.eqb]. set (s2 := set_heap _ _ _) in *. set (v2 := set_inode (sv_i v1) false v1) in *.
  assert (heap s2 !! p = Some v2) as Hv2 by apply lookup_insert_eq.
  rewrite (bind_ok _ _ _ _ _ (getv_run _ _ _ Hv2)). change (sv_i v2) with (sv_i v1). rewrite M6, Hl. cbn [Z.eqb].
  destruct (bfree_run s2 (sv_ino v2)) as (s3 & E3 & W3 & [R1 R2 R3 R4 R5 R6] & Hh3 & I3 & _ & U3).
  { by destruct Hwd. }
  { change (nblocks s2) with (nblocks s1). change (sv_ino v2) with (sv_ino v1). rewrite M4, N1. lia. }
  { change (used s1 (sv_ino v1)). rewrite M4. apply Hus; [lia|done]. }
  rewrite (bind_ok _ _ _ _ _ E3). change (sv_ino v2) with (sv_ino v1) in *. rewrite M4 in *.
  assert (sfs_vnodes s3 = sfs_vnodes s) as Ev by (rewrite R3; apply (sr_vnodes _ _ A2)).
  destruct (drop_vnode_run s3 l k p v2) as (tbl & -> & Rt); try (rewrite ?Ev, ?Hh3; done || apply Ht).
  { by eapply vtable_slot. } { cbn. by rewrite M2. } { cbn. by rewrite M3. }
  eexists. split; [reflexivity|]. split; [cbn; rewrite Hh3; cbn; by rewrite A3, insert_insert_eq, delete_insert_eq by done|].
  split; [done|]. split.
  - intros c Hc. change (used s3 c ↔ used s c ∧ c ≠ sv_ino v ∧ ¬ owns (img s) (sv_i v) c). rewrite U3 by done.
    change (used s2 c) with (used s1 c). rewrite Hus by done. tauto.
  - intros b Hb Hne Hno. change (img s3 !! Z.to_nat b = img s !! Z.to_nat b). rewrite I3. change (img s2) with (image d). rewrite Him.
    rewrite list_lookup_insert_ne by lia. apply A8; [|done]. destruct (decide (b = 0)) as [->|Hb0]; [by left|right].
    intros ->. destruct Hno. split; [done|by right].
Qed.

(** C35: What was in memory before a sync is what a fresh mount loads: the inode of
    every vnode that was loaded comes back from the synced device unchanged. *)
Theorem sfs_remount_reloads s l k p v :
  volume s l → l !! k = Some p → heap s !! p = Some v → used s (sv_ino v) →
  sfi_type (sv_i v) = SFS_TYPE_FILE ∨ sfi_type (sv_i v) = SFS_TYPE_DIR →
  ∃ s1 s2 d sv s3, sfs_sync s = Ok (0, s1) ∧ sfs_domount 512 [] (sfs_device s1) = Ok (inr s2, d) ∧
    sfs_loadvnode (sv_ino v) SFS_TYPE_INVAL s2 = Ok (inr sv, s3) ∧
    heap s3 !! sv = Some (mkvnode (ops_of (sv_i v)) 1 0 (sv_i v) (sv_ino v) false).
Proof.
  intros V Hk Hv Hu Hty. destruct (sfs_sync_run s l V) as (s1 & E & O & W & R1 & R2 & R3 & R4).
  assert (nblocks s1 = nblocks s) as N1 by (unfold nblocks; by rewrite R1).
  assert (mapblocks s1 = mapblocks s) as M1 by (unfold mapblocks; by rewrite N1).
  destruct (mount_run s1 l) as (d & Em & Dw & Df & I); try done; rewrite ?R1, ?R2, ?N1, ?M1; try apply V; [by eapply map_length|].
  set (s2 := mksfs _ _ _ _ _ _ _ _ _) in Em. assert (fs_wf s2) as Hw2.
  { destruct W as [W1 W2 W3 W4 W5 W6 W7]. constructor; try done. unfold img. cbn. rewrite I. done. }
  destruct (vt_live _ _ (vo_table _ _ V) k p Hk) as (w & Hv' & _ & _ & Hi & Hino & _). assert (w = v) as -> by congruence.
  destruct (R4 p v Hv) as (b & Hb). destruct (od_vnodes _ _ O k p Hk) as (v1 & Hv1 & _ & Hs1).
  assert (v1 = set_inode (sv_i v) b v) as -> by congruence. change (img s1 !! Z.to_nat (sv_ino v) = Some (enc_inode (sv_i v))) in Hs1.
  destruct (load_miss s2 [] (sv_ino v) (sv_i v)) as (s3 & E3 & Hh3 & _); try done.
  - change (nblocks s2) with (nblocks s1). lia.
  - unfold used. cbn. by rewrite R2.
  - change (img s2) with (image d). by rewrite I.
  - exists s1, s2, d, 0%nat, s3. split_and!; try done. rewrite Hh3. apply lookup_insert_eq.
Qed.

End Sfsref.
