(* ===== verification/Sfsdemo.v ===== *)
(** * A concrete SFS volume

    A volume of 16 blocks with a root directory (vnode 0), a file with a direct
    and an indirect block (vnode 1), an open file that has lost its last name
    (vnode 2) and an inode that is only on disk (block 10).  The hypotheses of the SFS
    theorems hold of it, so each theorem is instantiated here at a concrete input. *)
From stdpp Require Import base list list_numbers gmap numbers.
From S2P Require Import Prelude Array Bitmap Copyinout Uio Lhd Cstring Sfsdisk Sfs Sfsfile Sfsdir Sfstrunc Sfsvol Sfsref.
Local Open Scope Z_scope.

Module Sfsdemo.
Import Copyinout Uio Lhd Sfsdisk Sfs Sfsfile Sfsdir Sfstrunc Sfsvol Sfsref.

(** ** Checking an inode by computation *)
Lemma nonzero_inj (l : list Z) :
  NoDup (filter (fun b => b ≠ 0) l) → ∀ k1 k2 b, l !! k1 = Some b → l !! k2 = Some b → b ≠ 0 → k1 = k2.
Proof.
  induction l as [|a l IH]; intros Hnd k1 k2 b E1 E2 Hb; [done|]. rewrite filter_cons in Hnd.
  assert (∀ k, l !! k = Some b → b ∈ filter (fun b => b ≠ 0) l) as Hin
    by (intros k Hk; apply list_elem_of_filter; split; [done|by eapply list_elem_of_lookup_2]).
  case_decide as Ha; [apply list.NoDup_cons in Hnd as [Hni Hnd]|]; destruct k1, k2; cbn in *; simplify_eq; try done.
  - destruct Hni. by eapply Hin.
  - destruct Hni. by eapply Hin.
  - f_equal. by eapply IH.
  - f_equal. by eapply IH.
Qed.

Definition ptrs_check (n : Z) (fm : Bitmap.bitmap) (ind : Z) (l : list Z) : Prop :=
  Forall (fun b => b = 0 ∨ ((0 < b ∧ b < n) ∧ Bitmap.marked fm b = true)) (ind :: l) ∧
  NoDup (filter (fun b => b ≠ 0) l) ∧ (ind = 0 ∨ ind ∉ l).

#[global] Instance ptrs_check_dec n fm ind l : Decision (ptrs_check n fm ind l).
Proof. unfold ptrs_check. apply _. Defined.

Lemma ptrs_check_ok n fm im i :
  length (sfi_direct i) = 15%nat → Forall (fun s => length s = 512%nat) im → n ≤ Z.of_nat (length im) ∧ n < 2 ^ 22 →
  ptrs_check n fm (sfi_indirect i) (ptrs im i) → inode_ok n (fun b => Bitmap.marked fm b = true) im i.
Proof.
  intros H1 H2 H3 (H45 & H6 & H7). apply Forall_cons_1 in H45 as [H4 H5]. rewrite Forall_lookup in H5. constructor; try done.
  - by apply nonzero_inj.
  - intros k Hi Hk. destruct H7 as [|H7]; [done|]. apply H7. by eapply list_elem_of_lookup_2.
Qed.

(** ** The volume *)
Definition name_field (nm : list Z) : list Z := nm ++ replicate (60 - length nm) 0.

Definition root_i : sfs_inode := mkinode 128 SFS_TYPE_DIR 1 (4 :: replicate 14 0) 0 (replicate 110 0).
Definition file_i : sfs_inode := mkinode 8000 SFS_TYPE_FILE 1 (5 :: replicate 14 0) 6 (replicate 110 0).
Definition gone_i : sfs_inode := mkinode 100 SFS_TYPE_FILE 0 (9 :: replicate 14 0) 0 (replicate 110 0).
Definition cold_i : sfs_inode := mkinode 0 SFS_TYPE_FILE 1 (replicate 15 0) 0 (replicate 110 0).

Definition entries : list sfs_dir := [mkdir 3 (name_field [97]); mkdir 0 (replicate 60 0)].

Definition demo_img : list (list Z) :=
  <[4%nat := enc_dir (mkdir 3 (name_field [97])) ++ replicate 448 0]>
  (<[6%nat := enc_words (7 :: replicate 127 0)]>
  (<[10%nat := enc_inode cold_i]> (replicate 16 zero_block))).

Definition demo_map : Bitmap.bitmap := Bitmap.mkbitmap 4096 (255 :: 7 :: replicate 510 255).

Definition root_v : sfs_vnode := mkvnode sfs_dirops 2 0 root_i 1 true.
Definition file_v : sfs_vnode := mkvnode sfs_fileops 1 0 file_i 3 true.
Definition gone_v : sfs_vnode := mkvnode sfs_fileops 1 0 gone_i 8 true.

Definition demo_dev : dstate :=
  mkdstate (mkdisk demo_img 0 0 zero_block []) 0 1 0 (mkustate (mkcstate ∅ false) None).

Definition demo : sfs_fs :=
  mksfs (mksuper SFS_MAGIC 16 (replicate 32 0) (replicate 118 0)) true demo_dev
    (Array.mkarray 3 3 (Some [Some 0%nat; Some 1%nat; Some 2%nat])) demo_map true
    {[0%nat := root_v; 1%nat := file_v; 2%nat := gone_v]} 3 [].

(** ** Its invariants *)
Lemma demo_dev_wf : dev_wf demo_dev.
Proof. constructor; try done. apply (bool_decide_unpack _). by vm_compute. Qed.

Lemma demo_map_wf : Bitmap.bitmap_wf demo_map.
Proof.
  constructor; try done.
  - do 2 (apply list.Forall_cons; split; [done|]). by apply Forall_replicate.
  - intros i Hi. assert (Z.of_nat (length (Bitmap.v demo_map)) = 512) as E by done. rewrite E in Hi. cbn in Hi. lia.
Qed.

Lemma demo_over b : 16 ≤ b < 4096 → Bitmap.marked demo_map b = true.
Proof.
  intros Hb. unfold Bitmap.marked. assert (∃ n, Z.to_nat (b `div` 8) = S (S n) ∧ (n < 510)%nat) as (n & -> & Hn).
  { exists (Z.to_nat (b `div` 8 - 2)). Z.to_euclidean_division_equations; lia. }
  change (Bitmap.v demo_map !! S (S n)) with (replicate 510 255 !! n).
  rewrite (lookup_replicate_2 510 255 n) by done. cbn [default id]. change 255 with (Z.ones 8). apply Z.ones_spec_low.
  pose proof (Z.mod_pos_bound b 8). lia.
Qed.

Lemma demo_fs_wf : fs_wf demo.
Proof.
  constructor; try done; [apply demo_dev_wf|apply demo_map_wf|].
  intros b Hb. apply demo_over. change (16 ≤ b < 4096) in Hb. lia.
Qed.

Lemma demo_inode i :
  length (sfi_direct i) = 15%nat → ptrs_check 16 demo_map (sfi_indirect i) (ptrs demo_img i) →
  inode_ok (nblocks demo) (used demo) (img demo) i.
Proof. intros H1 H2. apply ptrs_check_ok; try done. apply demo_dev_wf. Qed.

Lemma demo_root : fileinv demo 0 root_v.
Proof. constructor; [apply demo_fs_wf|done|]. apply demo_inode; [done|]. apply (bool_decide_unpack _). by vm_compute. Qed.

Lemma demo_file : fileinv demo 1 file_v.
Proof. constructor; [apply demo_fs_wf|done|]. apply demo_inode; [done|]. apply (bool_decide_unpack _). by vm_compute. Qed.

Lemma demo_gone : fileinv demo 2 gone_v.
Proof. constructor; [apply demo_fs_wf|done|]. apply demo_inode; [done|]. apply (bool_decide_unpack _). by vm_compute. Qed.

Definition names : gmap (list Z) Z := {[ [97] := 3 ]}.

Lemma demo_dir_rep : dir_rep entries names.
Proof.
  constructor.
  - intros nm ino. unfold names. rewrite lookup_singleton_Some. split.
    + intros [<- <-]. by exists 0%nat, (mkdir 3 (name_field [97])).
    + intros ([|[|k]] & e & Hk & Hl & Hn & <-); cbn in Hk; simplify_eq; [|by destruct Hl].
      vm_compute in Hn. by simplify_eq.
  - intros [|[|j]] [|[|k]] ej ek Hj Hk Lj Lk; cbn in Hj, Hk; simplify_eq; try done; (by destruct Lj) || by destruct Lk.
Qed.

Lemma demo_dir : dirinv demo 0 root_v entries names.
Proof.
  constructor; [apply demo_root|done|done|done| |apply demo_dir_rep]. by vm_compute.
Qed.

Lemma demo_inode_wf : Forall inode_wf [root_i; file_i; gone_i; cold_i].
Proof.
  repeat constructor; try done; cbn [sfi_direct sfi_waste root_i file_i gone_i cold_i];
    try (apply list.Forall_cons; split; [by vm_compute|]); by apply Forall_replicate.
Qed.

Lemma demo_vtable : vtable demo [0%nat; 1%nat; 2%nat].
Proof.
  pose proof demo_inode_wf as H. rewrite list.Forall_forall in H.
  constructor; [by repeat split| |].
  - intros [|[|[|k]]] p Hk; cbn in Hk; simplify_eq; eexists;
      (split; [reflexivity|]); cbn; split_and!; try done; apply H; set_solver.
  - intros [|[|[|j]]] [|[|[|k]]] p q vp vq Hj Hk Hp Hq Hi; try done; cbn in Hj, Hk; simplify_eq;
      vm_compute in Hp, Hq; simplify_eq; done.
Qed.

Lemma demo_inos : inos_used demo [0%nat; 1%nat; 2%nat].
Proof. intros [|[|[|k]]] p v Hk Hv; cbn in Hk; simplify_eq; vm_compute in Hv; simplify_eq; by vm_compute. Qed.

Lemma demo_volume : volume demo [0%nat; 1%nat; 2%nat].
Proof.
  constructor; try done; [apply demo_fs_wf|apply demo_vtable| |].
  - constructor; try done. by apply Forall_replicate.
  - intros [|[|[|k]]] p v Hk Hv; cbn in Hk; simplify_eq; vm_compute in Hv; simplify_eq;
      (split; [done|]); [left|right|right]; by vm_compute.
Qed.

(** A write of three bytes across a block boundary of the file succeeds. *)
Definition demo_data : list Z := [1; 2; 3].
Definition demo_write : outcome ((Z * uio) * sfs_fs) :=
  sfs_write 1 (mk_kuio demo_data (Z.of_nat (length demo_data)) 510 UIO_WRITE) demo.

Lemma demo_write_ok : ∃ u' s', demo_write = Ok ((0, u'), s').
Proof.
  assert (match demo_write with Ok ((r, _), _) => r = 0 | _ => False end) as H by by vm_compute.
  destruct demo_write as [[[r u'] s']| | |]; [|done..]. exists u', s'. by rewrite H.
Qed.

(** ** The theorems at work *)
Lemma sfs_write_splices_witness :
  ∃ r u' s' v' k, sfs_write 1 (mk_kuio [1; 2; 3] 3 510 UIO_WRITE) demo = Ok ((r, u'), s') ∧ fileinv s' 1 v' ∧
    contents (img s') (sv_i v') = splice 510 (take (Z.to_nat k) [1; 2; 3]) (contents demo_img file_i).
Proof.
  destruct (sfs_write_splices demo 1 file_v [1; 2; 3] 510) as (r & u' & s' & v' & k & E & F & _ & _ & _ & _ & C & _);
    [apply demo_file|done|done|done|done|].
  exists r, u', s', v', k. auto.
Defined.

Lemma sfs_read_slices_witness :
  ∃ u' s', sfs_read 1 (mk_kuio [0; 0; 0] 3 510 UIO_READ) demo = Ok ((0, u'), s') ∧ img s' = demo_img.
Proof.
  destruct (sfs_read_slices demo 1 file_v [0; 0; 0] 510) as (u' & s' & E & _ & _ & I & _);
    [apply demo_file|done|done|done|done|].
  exists u', s'. auto.
Defined.

Lemma sfs_write_read_roundtrip_witness :
  ∃ u' s' u2 s2, demo_write = Ok ((0, u'), s') ∧
    sfs_read 1 (mk_kuio [0; 0; 0] 3 510 UIO_READ) s' = Ok ((0, u2), s2) ∧ kuio_data u2 = demo_data.
Proof.
  assert (∀ u' s', demo_write = Ok ((0, u'), s') → ∃ u2 s2,
    sfs_read 1 (mk_kuio [0; 0; 0] 3 510 UIO_READ) s' = Ok ((0, u2), s2) ∧ kuio_data u2 = demo_data ∧ uio_resid u2 = 0) as H.
  { intros u' s'. apply (sfs_write_read_roundtrip demo 1 file_v demo_data [0; 0; 0] 510 u' s'); [apply demo_file|done..]. }
  destruct demo_write_ok as (u' & s' & E). destruct (H u' s' E) as (u2 & s2 & E2 & D & _).
  exists u', s', u2, s2. auto.
Defined.

Lemma demo_disjoint b : owns (img demo) (sv_i gone_v) b → ¬ owns (img demo) (sv_i file_v) b.
Proof.
  intros [Hb Ho] [_ Hf].
  assert (Forall (fun b => b = 0 ∨ b = 9) (ptrs demo_img gone_i)) as H9 by (apply (bool_decide_unpack _); by vm_compute).
  assert (9 ∉ 6 :: ptrs demo_img file_i) as Hn by (apply (bool_decide_unpack _); by vm_compute).
  rewrite list.Forall_forall in H9. assert (b = 9) as -> by (destruct Ho as [Ho|Ho]; [by destruct (H9 b Ho)|done]).
  apply Hn. destruct Hf as [Hf|Hf]; [by right|by rewrite Hf; left].
Qed.

Lemma sfs_write_preserves_others_witness :
  ∃ u' s', demo_write = Ok ((0, u'), s') ∧ fileinv s' 2 gone_v ∧ contents (img s') gone_i = contents demo_img gone_i.
Proof.
  assert (∀ u' s', demo_write = Ok ((0, u'), s') →
    fileinv s' 2 gone_v ∧ contents (img s') gone_i = contents demo_img gone_i) as H.
  { intros u' s'. apply (sfs_write_preserves_others demo 1 file_v 2 gone_v demo_data 510 0 u' s');
      [apply demo_file|done|done|done|done|apply demo_gone|done|apply demo_disjoint]. }
  destruct demo_write_ok as (u' & s' & E). exists u', s'. split; [exact E|]. by apply (H u').
Defined.

Lemma sfs_write_past_limit_grows_size_witness :
  ∃ r u' s' v', sfs_write 1 (mk_kuio [1] 1 80000 UIO_WRITE) demo = Ok ((r, u'), s') ∧ r ≠ 0 ∧
    heap s' !! 1%nat = Some v' ∧ sfi_size (sv_i v') = 80000.
Proof.
  destruct (sfs_write_past_limit_grows_size demo 1 file_v [1] 80000) as (r & u' & s' & v' & E & R & H & _ & S);
    [apply demo_file|done|done|done|done|].
  exists r, u', s', v'. auto.
Defined.

Lemma sfs_bmap_correct_witness : ∃ r s' v', sfs_bmap 1 20 true demo = Ok (r, s') ∧ fileinv s' 1 v'.
Proof.
  destruct (sfs_bmap_correct demo 1 file_v 20 true) as (r & s' & v' & E & F & _); [apply demo_file|done|].
  exists r, s', v'. auto.
Defined.

Lemma sfs_dir_findname_lookup_witness :
  ∃ f s', sfs_dir_findname 0 [97; 0] demo = Ok (inr f, s') ∧ f_found f = true ∧ f_ino f = Some 3.
Proof.
  destruct (sfs_dir_findname_lookup demo 0 root_v entries names [97; 0] [97]) as (f & s' & E & _ & _ & H);
    [apply demo_dir|done|].
  destruct H as (H1 & H2 & _). exists f, s'. auto.
Defined.

Lemma sfs_dir_link_inserts_witness :
  ∃ r s' v', sfs_dir_link 0 [98; 0] 10 demo = Ok (r, s') ∧
    match r with inr _ => ∃ es', dirinv s' 0 v' es' {[ [98] := 10; [97] := 3 ]} | inl _ => dirinv s' 0 v' entries names end.
Proof.
  pose proof (sfs_dir_link_inserts demo 0 root_v entries names [98; 0] [98] 10 demo_dir eq_refl eq_refl ltac:(done)) as H.
  destruct H as (r & s' & v' & E & _ & H). exists r, s', v'. split; [exact E|]. destruct r as [e|slot].
  - by destruct H as [_ H].
  - destruct H as (es' & H & _). by exists es'.
Defined.

Lemma sfs_dir_unlink_deletes_witness :
  ∃ r s' v', sfs_dir_unlink 0 0 demo = Ok (r, s') ∧
    if decide (r = 0) then ∃ es', dirinv s' 0 v' es' (delete [97] names) else dirinv s' 0 v' entries names.
Proof.
  destruct (sfs_dir_unlink_deletes demo 0 root_v entries names [97] 0 (mkdir 3 (name_field [97])))
    as (r & s' & v' & E & _ & H); [apply demo_dir|done|done|by vm_compute|].
  exists r, s', v'. split; [exact E|]. case_decide.
  - destruct H as (es' & H & _). by exists es'.
  - by destruct H as (_ & _ & H).
Defined.

(** Cut to 100 bytes, the file loses its indirect block (disk block 6) and the block that it points to. *)
Lemma sfs_truncate_correct_witness :
  ∃ s' v', sfs_truncate 1 100 demo = Ok (0, s') ∧ fileinv s' 1 v' ∧ sfi_size (sv_i v') = 100 ∧ ¬ used s' 6 ∧ ¬ used s' 7.
Proof.
  destruct (sfs_truncate_correct demo 1 file_v 100) as (s' & v' & E & F & _ & S & _ & _ & U & _); [apply demo_file|done|].
  exists s', v'. split_and!; [exact E|exact F|exact S| |].
  - rewrite U by lia. intros (_ & _ & Hn). apply Hn. split_and!; [by vm_compute|by vm_compute|]. intros k b Hk Hkn. change (blocklen 100) with 1 in Hkn. lia.
  - rewrite U by lia. intros (_ & Hn & _). apply Hn. exists 15%nat. split; by vm_compute.
Defined.

Lemma sfs_truncate_zero_frees_all_witness :
  ∃ s' v', sfs_truncate 1 0 demo = Ok (0, s') ∧ fileinv s' 1 v' ∧ ∀ b, ¬ owns (img s') (sv_i v') b.
Proof.
  destruct (sfs_truncate_zero_frees_all demo 1 file_v) as (s' & v' & E & F & O & _); [apply demo_file|].
  exists s', v'. auto.
Defined.

(** Cut to 15 blocks, the file keeps its sixteenth (disk block 7). *)
Lemma sfs_truncate_keeps_block_past_eof_witness :
  ∃ s' v', sfs_truncate 1 7680 demo = Ok (0, s') ∧ sfi_size (sv_i v') = 7680 ∧
    ptrs (img s') (sv_i v') !! 15%nat = Some 7 ∧ used s' 7.
Proof.
  destruct (sfs_truncate_keeps_block_past_eof demo 1 file_v 7680 7) as (_ & s' & v' & E & S & P & U);
    [apply demo_file|done|done|by vm_compute|done|].
  exists s', v'. auto.
Defined.

Lemma sfs_sync_correct_witness : ∃ s', sfs_sync demo = Ok (0, s') ∧ on_disk s' [0%nat; 1%nat; 2%nat].
Proof.
  destruct (sfs_sync_correct demo [0%nat; 1%nat; 2%nat] demo_volume) as (s' & E & O & _). exists s'. auto.
Defined.

Lemma sfs_sync_mount_roundtrip_witness :
  ∃ s1 s2 d, sfs_sync demo = Ok (0, s1) ∧ sfs_domount 512 [] (sfs_device s1) = Ok (inr s2, d) ∧
    sfs_freemap s2 = demo_map.
Proof.
  destruct (sfs_sync_mount_roundtrip demo [0%nat; 1%nat; 2%nat] demo_volume) as (s1 & s2 & d & E & Em & _ & F & _).
  exists s1, s2, d. auto.
Defined.

Lemma sfs_unmount_busy_or_clean_witness : ∃ s1, sfs_sync demo = Ok (0, s1) ∧ sfs_unmount s1 = Ok (EBUSY, inl s1).
Proof.
  destruct (sfs_unmount_busy_or_clean demo [0%nat; 1%nat; 2%nat] demo_volume) as (s1 & E & U). exists s1. auto.
Defined.

Lemma sfs_loadvnode_shares_witness : ∃ s', sfs_loadvnode 3 SFS_TYPE_INVAL demo = Ok (inr 1%nat, s').
Proof.
  eexists. apply (sfs_loadvnode_shares demo [0%nat; 1%nat; 2%nat] 1 1 file_v);
    [apply demo_fs_wf|apply demo_vtable|apply demo_inos|done|done].
Defined.

Lemma demo_cold k p v : [0%nat; 1%nat; 2%nat] !! k = Some p → heap demo !! p = Some v → sv_ino v ≠ 10.
Proof. destruct k as [|[|[|k]]]; intros Hk Hv; cbn in Hk; simplify_eq; vm_compute in Hv; by simplify_eq. Qed.

Lemma sfs_loadvnode_reads_disk_witness :
  ∃ s', sfs_loadvnode 10 SFS_TYPE_INVAL demo = Ok (inr 3%nat, s') ∧
    heap s' = <[3%nat := mkvnode sfs_fileops 1 0 cold_i 10 false]> (heap demo).
Proof.
  pose proof demo_inode_wf as H. rewrite list.Forall_forall in H.
  destruct (sfs_loadvnode_reads_disk demo [0%nat; 1%nat; 2%nat] 10 cold_i) as (s' & E & Hh & _);
    [apply demo_fs_wf|apply demo_vtable|apply demo_inos|apply demo_cold|done|done|done|done|by vm_compute|done|apply H; set_solver|by left|].
  exists s'. auto.
Defined.

Lemma vnode_decref_shared_witness : ∃ s', vnode_decref 0 demo = Ok (tt, s').
Proof. eexists. apply (vnode_decref_shared demo 0 root_v); done. Defined.

Lemma vnode_decref_last_linked_witness :
  ∃ s', vnode_decref 1 demo = Ok (tt, s') ∧ heap s' = delete 1%nat (heap demo) ∧ sfs_freemap s' = demo_map.
Proof.
  destruct (vnode_decref_last_linked demo [0%nat; 1%nat; 2%nat] 1 1 file_v) as (s' & E & Hh & _ & F & _);
    [apply demo_fs_wf|apply demo_vtable|done..|].
  exists s'. auto.
Defined.

Lemma vnode_decref_last_unlinked_witness :
  ∃ s', vnode_decref 2 demo = Ok (tt, s') ∧ heap s' = delete 2%nat (heap demo) ∧ ¬ used s' 8 ∧ ¬ used s' 9.
Proof.
  assert (8 ∉ ptrs demo_img gone_i) as H8 by (apply (bool_decide_unpack _); by vm_compute).
  destruct (vnode_decref_last_unlinked demo [0%nat; 1%nat; 2%nat] 2 2 gone_v) as (s' & E & Hh & _ & U & _);
    [apply demo_gone|apply demo_vtable|done|done|done|done|done|by vm_compute|by intros [_ [?|?]]|].
  exists s'. split; [exact E|]. split; [exact Hh|]. split.
  - intros H. apply (U 8) in H as (_ & Hne & _); [|lia]. by apply Hne.
  - intros H. apply (U 9) in H as (_ & _ & Hno); [|lia]. apply Hno. split; [done|]. left. by left.
Defined.

Lemma sfs_remount_reloads_witness :
  ∃ s1 s2 d sv s3, sfs_sync demo = Ok (0, s1) ∧ sfs_domount 512 [] (sfs_device s1) = Ok (inr s2, d) ∧
    sfs_loadvnode 3 SFS_TYPE_INVAL s2 = Ok (inr sv, s3) ∧ heap s3 !! sv = Some (mkvnode sfs_fileops 1 0 file_i 3 false).
Proof.
  apply (sfs_remount_reloads demo [0%nat; 1%nat; 2%nat] 1 1 file_v demo_volume); [done|done|by vm_compute|by left].
Defined.

End Sfsdemo.
