(* ===== verification/Filetable.v ===== *)
(** * Per-thread file tables (kern/userprog/filetable.c)

    A [filetable] holds pointers to descriptors; [None] is a NULL handle.  The
    descriptors live in [descs], [closes] is the sequence of vnodes handed to
    [vfs_close], and [fmem] scripts the coming [kmalloc]s.  [filetable_init], which
    nothing calls, is left out.  The theorems refine the table to a list of
    descriptors and show what happens when one is removed. *)
From stdpp Require Import base list gmap numbers.
From S2P Require Import Prelude Array.
Local Open Scope Z_scope.

Module Filetable.

Record filedesc := mkdesc {
  vn : nat;
  offset : Z;
  mode : Z
}.

Record filetable := mkft {
  handles : Array.array (option nat);
  next : Z
}.

Record fstate := mkfstate {
  descs : gmap nat filedesc;
  closes : list nat;
  fmem : list bool
}.

(** Does the next [kmalloc] succeed? *)
Definition fmalloc_ok : M fstate bool := fun s =>
  Ok (default true (head (fmem s)), mkfstate (descs s) (closes s) (tail (fmem s))).

(** [vfs_close(fd->vn); kfree(fd);] *)
Definition close_desc (fd : nat) : M fstate unit := fun s =>
  match descs s !! fd with
  | Some d => Ok (tt, mkfstate (delete fd (descs s)) (closes s ++ [vn d]) (fmem s))
  | None => Undef
  end.

Definition filetable_create : M fstate (option filetable) :=
  let* ok := fmalloc_ok in
  if negb (ok : bool) then mret None
  else
    let* ok := fmalloc_ok in
    mret (match Array.array_create ok with
          | Some a => Some (mkft a 0)
          | None => None
          end).

Definition filetable_size (ft : filetable) : Z := Array.array_getnum (handles ft).

Definition filetable_get (ft : filetable) (i : Z) : outcome (option nat) :=
  if filetable_size ft <=? i then Ok None else Array.array_getguy (handles ft) i.

(** [val] is [None] for NULL. *)
Definition filetable_set (ft : filetable) (i : Z) (val : option nat) : outcome filetable :=
  let* _ := oassert (bool_decide (is_Some val)) in
  let* _ := oassert ((0 <=? i) && (i <? filetable_size ft)) in
  let nxt := if bool_decide (val = None) && (next ft >? i) then i else next ft in
  let* h := Array.array_setguy (handles ft) i val in
  Ok (mkft h nxt).

(** [for(i = ft->next; i < size && filetable_get(ft, i); i++);] *)
Fixpoint next_free (fuel : nat) (ft : filetable) (size i : Z) : outcome Z :=
  if i <? size then
    let* g := filetable_get ft i in
    match g with
    | None => Ok i
    | Some _ =>
        match fuel with
        | O => Spin
        | S fuel' => next_free fuel' ft size (i + 1)
        end
    end
  else Ok i.

Definition filetable_add (ft : filetable) (val : option nat) : M fstate (Z * filetable) :=
  let* _ := massert (bool_decide (is_Some val)) in
  if next ft <? filetable_size ft then
    let* ft1 := lift (filetable_set ft (next ft) val) in
    let size := filetable_size ft1 in
    let* i := lift (next_free (Z.to_nat size) ft1 size (next ft1)) in
    mret (next ft1, mkft (handles ft1) i)
  else
    let* ok := fmalloc_ok in
    let* '(result, h) := lift (Array.array_add ok (handles ft) val) in
    if negb (result =? 0) then mret (-1, mkft h (next ft))
    else mret (next ft, mkft h (Array.array_getnum h)).

Definition filetable_remove (ft : filetable) (i : Z) : M fstate (Z * filetable) :=
  let* _ := massert ((0 <=? i) && (i <? filetable_size ft)) in
  let* fd := lift (filetable_get ft i) in
  match fd with
  | Some fd =>
      let* _ := close_desc fd in
      let* ft := lift (filetable_set ft i None) in
      if i =? filetable_size ft - 1 then
        let* h := lift (Array.array_remove (handles ft) i) in
        mret (1, mkft h (next ft))
      else mret (0, ft)
  | None => mret (-1, ft)
  end.

(** The loop of [filetable_destroy]. *)
Fixpoint remove_all (n : nat) (i : Z) (ft : filetable) : M fstate filetable :=
  match n with
  | O => mret ft
  | S n' =>
      let* '(_, ft) := filetable_remove ft i in
      remove_all n' (i + 1) ft
  end.

(** [ft] is [None] for NULL. *)
Definition filetable_destroy (ft : option filetable) : M fstate unit :=
  match ft with
  | None => panic
  | Some ft =>
      let* _ := remove_all (Z.to_nat (filetable_size ft)) 0 ft in
      mret tt
  end.

(** The loop of [filetable_copy]. *)
Fixpoint copy_all (n : nat) (i : Z) (ft copy : filetable) : M fstate filetable :=
  match n with
  | O => mret copy
  | S n' =>
      let* g := lift (filetable_get ft i) in
      let* '(_, copy) := filetable_add copy g in
      copy_all n' (i + 1) ft copy
  end.

Definition filetable_copy (ft : filetable) : M fstate (option filetable) :=
  let* c := filetable_create in
  match c with
  | None => mret None
  | Some copy =>
      let* copy := copy_all (Z.to_nat (filetable_size ft)) 0 ft (mkft (handles copy) (next ft)) in
      mret (Some copy)
  end.

(** ** Specification

    The table as the list of its descriptors: no NULL handle, and the next free
    index is the length. *)
Record ft_rep (ft : filetable) (l : list nat) : Prop := {
  fr_handles : Array.array_rep (handles ft) (Some <$> l);
  fr_next : next ft = Z.of_nat (length l)
}.

Lemma ft_size ft l : ft_rep ft l → filetable_size ft = Z.of_nat (length l).
Proof.
  intros [H _]. unfold filetable_size, Array.array_getnum. by rewrite (Array.array_rep_len _ _ H), length_fmap.
Qed.

Lemma ft_get ft l i : ft_rep ft l → filetable_get ft (Z.of_nat i) = Ok (l !! i).
Proof.
  intros H. unfold filetable_get. rewrite (ft_size _ _ H). destruct (Z.leb_spec (Z.of_nat (length l)) (Z.of_nat i)).
  - by rewrite lookup_ge_None_2 by lia.
  - rewrite (Array.array_getguy_rep _ _ i (fr_handles _ _ H)), list_lookup_fmap.
    destruct (lookup_lt_is_Some_2 l i) as [x ->]; [lia|done].
Qed.

Lemma ft_set_null ft i : filetable_set ft i None = Panic.
Proof. done. Qed.

(** Adding to such a table is appending, as long as memory lasts. *)
Lemma ft_add ft l x s :
  ft_rep ft l → fmem s = [] → Z.of_nat (length l) < 2 ^ 29 - 2 →
  ∃ ft', filetable_add ft (Some x) s = Ok ((Z.of_nat (length l), ft'), s) ∧ ft_rep ft' (l ++ [x]).
Proof.
  intros H Hm Hl. unfold filetable_add. erewrite bind_ok; [|reflexivity]. rewrite (ft_size _ _ H), (fr_next _ _ H), Z.ltb_irrefl.
  erewrite bind_ok; [|reflexivity]. rewrite Hm. cbn [head default tail id].
  destruct (Array.array_add_appends (handles ft) (Some <$> l) (Some x) true (fr_handles _ _ H)) as (h & E & Hr);
    [rewrite length_fmap; lia|by left|].
  erewrite bind_ok; [|unfold lift; rewrite E; reflexivity]. cbn [negb Z.eqb].
  exists (mkft h (Array.array_getnum h)). split; [by destruct s; cbn in *; subst|].
  replace ((Some <$> l) ++ [Some x]) with (Some <$> (l ++ [x])) in Hr by (by rewrite fmap_app).
  constructor; [done|]. unfold Array.array_getnum. cbn. by rewrite (Array.array_rep_len _ _ Hr), length_fmap.
Qed.

Lemma remove_open ft l i fd d s :
  ft_rep ft l → l !! i = Some fd → descs s !! fd = Some d → filetable_remove ft (Z.of_nat i) s = Panic.
Proof.
  intros H Hi Hd. unfold filetable_remove. apply lookup_lt_Some in Hi as Hlt.
  erewrite bind_ok; [|unfold massert; rewrite (ft_size _ _ H), (proj2 (Z.leb_le 0 _)), (proj2 (Z.ltb_lt _ _)) by lia; reflexivity].
  erewrite bind_ok; [|unfold lift; rewrite (ft_get _ _ _ H), Hi; reflexivity].
  cbv beta iota. erewrite bind_ok; [|unfold close_desc; rewrite Hd; reflexivity]. done.
Qed.

Lemma destroy_run ft l s :
  ft_rep ft l → Forall (fun fd => is_Some (descs s !! fd)) l →
  filetable_destroy (Some ft) s = if decide (l = []) then Ok (tt, s) else Panic.
Proof.
  intros H Hd. unfold filetable_destroy. rewrite (ft_size _ _ H), Nat2Z.id. destruct l as [|fd l]; [done|].
  rewrite decide_False by done. cbn [length remove_all]. apply Forall_cons_1 in Hd as [[d Hd] _].
  unfold mbind, M_bind. by rewrite (remove_open ft _ 0 fd d s H eq_refl Hd : filetable_remove ft 0 s = Panic).
Qed.

(** ** Theorems *)

(** A descriptor that is added gets the next index, the other indices keep theirs
    ([open] hands that index to the program), and looking indices up afterwards is
    looking up the list. *)
Theorem filetable_add_get ft l x s :
  ft_rep ft l → fmem s = [] → Z.of_nat (length l) < 2 ^ 29 - 2 →
  ∃ ft', filetable_add ft (Some x) s = Ok ((Z.of_nat (length l), ft'), s) ∧ ft_rep ft' (l ++ [x]) ∧
    ∀ i, filetable_get ft' (Z.of_nat i) = Ok ((l ++ [x]) !! i).
Proof.
  intros H Hm Hl. destruct (ft_add ft l x s H Hm Hl) as (ft' & E & H'). exists ft'. split_and!; try done.
  intros i. by apply ft_get.
Qed.

(** Out of memory, [filetable_add] reports -1 and leaves the table alone. *)
Theorem filetable_add_nomem ft l x s m :
  ft_rep ft l → fmem s = false :: m → Z.of_nat (length l) < 2 ^ 29 - 2 →
  Array.num (handles ft) = Array.max (handles ft) →
  ∃ s', filetable_add ft (Some x) s = Ok ((-1, ft), s').
Proof.
  intros H Hm Hl Hfull. unfold filetable_add. erewrite bind_ok; [|reflexivity].
  rewrite (ft_size _ _ H), (fr_next _ _ H), Z.ltb_irrefl. erewrite bind_ok; [|reflexivity]. rewrite Hm. cbn [head default tail id].
  erewrite bind_ok; [|unfold lift; rewrite (Array.array_add_nomem _ _ (Some x) (fr_handles _ _ H)) by (rewrite ?length_fmap; done); reflexivity].
  cbn [negb Z.eqb]. eexists. rewrite <- (fr_next _ _ H). by destruct ft.
Qed.

Lemma copy_all_run n i ft l copy s :
  ft_rep ft l → fmem s = [] → (i + n = length l)%nat → Z.of_nat (length l) < 2 ^ 29 - 2 →
  Array.array_rep (handles copy) (Some <$> take i l) → Z.of_nat i ≤ next copy → (0 < i → next copy = Z.of_nat i)%nat →
  ∃ copy', copy_all n (Z.of_nat i) ft copy s = Ok (copy', s) ∧
    Array.array_rep (handles copy') (Some <$> l) ∧ (0 < length l → next copy' = Z.of_nat (length l))%nat.
Proof.
  intros H Hm. revert i copy. induction n as [|n IH]; intros i copy Hi Hl Hr Hn Hn0; cbn [copy_all].
  { exists copy. assert (i = length l) as -> by lia. rewrite take_ge in Hr by lia. auto. }
  erewrite bind_ok; [|unfold lift; rewrite (ft_get _ _ _ H); reflexivity].
  destruct (lookup_lt_is_Some_2 l i) as [x Hx]; [lia|]. rewrite Hx.
  assert (length (take i l) = i) as Hti by (rewrite length_take; lia).
  destruct (Array.array_add_appends (handles copy) _ (Some x) true Hr) as (h & E & Hr');
    [rewrite length_fmap, Hti; lia|by left|].
  assert (filetable_size copy = Z.of_nat i) as Hsz
    by (unfold filetable_size, Array.array_getnum; by rewrite (Array.array_rep_len _ _ Hr), length_fmap, Hti).
  replace ((Some <$> take i l) ++ [Some x]) with (Some <$> take (S i) l) in Hr'
    by (by rewrite (take_S_r l i x Hx), fmap_app).
  erewrite bind_ok.
  2:{ unfold filetable_add. erewrite bind_ok; [|reflexivity]. rewrite Hsz, (proj2 (Z.ltb_ge (next copy) (Z.of_nat i))) by done.
      erewrite bind_ok; [|reflexivity]. rewrite Hm. cbn [head default tail id].
      erewrite bind_ok; [|unfold lift; rewrite E; reflexivity]. reflexivity. }
  replace (mkfstate (descs s) (closes s) []) with s by (destruct s; cbn in *; by subst).
  replace (Z.of_nat i + 1) with (Z.of_nat (S i)) by lia.
  assert (Array.array_getnum h = Z.of_nat (S i)) as Hg.
  { unfold Array.array_getnum. rewrite (Array.array_rep_len _ _ Hr'), length_fmap, length_take. lia. }
  apply IH; cbn [handles next]; try done; [lia|rewrite Hg; lia].
Qed.

(** [filetable_copy] gives a table of its own that shares the descriptors. *)
Theorem filetable_copy_shares ft l s :
  ft_rep ft l → fmem s = [] → Z.of_nat (length l) < 2 ^ 29 - 2 →
  ∃ copy, filetable_copy ft s = Ok (Some copy, s) ∧ ft_rep copy l.
Proof.
  intros H Hm Hl. unfold filetable_copy.
  erewrite (bind_ok _ _ _ (Some (mkft (Array.mkarray 0 0 None) 0)) s).
  2:{ destruct s; cbn in Hm; subst. reflexivity. }
  rewrite (ft_size _ _ H), Nat2Z.id.
  destruct (copy_all_run (length l) 0 ft l (mkft (Array.mkarray 0 0 None) (next ft)) s) as (copy & E & R & N); try done.
  - cbn. rewrite (fr_next _ _ H). lia.
  - lia.
  - change (Z.of_nat 0) with 0 in E. rewrite (bind_ok _ _ _ _ _ E). exists copy. split; [done|]. constructor; [done|].
    destruct l as [|y l]; [|apply N; simpl; lia]. simpl in E. unfold mret, M_ret in E. simplify_eq. cbn. by rewrite (fr_next _ _ H).
Qed.

(** Removing an open descriptor stops the machine: the handle is set to NULL through
    [filetable_set], which asserts that it never is. *)
Theorem filetable_remove_panics ft l i fd d s :
  ft_rep ft l → l !! i = Some fd → descs s !! fd = Some d → filetable_remove ft (Z.of_nat i) s = Panic.
Proof. apply remove_open. Qed.

(** So a thread that has a file open cannot be destroyed; one without can. *)
Theorem filetable_destroy_needs_empty ft l s :
  ft_rep ft l → Forall (fun fd => is_Some (descs s !! fd)) l →
  filetable_destroy (Some ft) s = if decide (l = []) then Ok (tt, s) else Panic.
Proof. apply destroy_run. Qed.

(** A table with one descriptor, at 4. *)
Definition one_file : filetable := mkft (Array.mkarray 1 1 (Some [Some (Some 4%nat)])) 1.
Definition one_desc : fstate := mkfstate {[4%nat := mkdesc 9 0 0]} [] [].

Lemma one_file_rep : ft_rep one_file [4%nat].
Proof. constructor; [|done]. split; [split_and!; vm_compute; done|done]. Qed.

Lemma filetable_add_get_witness :
  ∃ ft', filetable_add one_file (Some 5%nat) one_desc = Ok ((1, ft'), one_desc) ∧ filetable_get ft' 1 = Ok (Some 5%nat).
Proof.
  destruct (filetable_add_get one_file [4%nat] 5 one_desc) as (ft' & E & _ & G); [apply one_file_rep|done|done|].
  exists ft'. split; [exact E|]. exact (G 1%nat).
Defined.

Lemma filetable_copy_shares_witness : ∃ copy, filetable_copy one_file one_desc = Ok (Some copy, one_desc) ∧ ft_rep copy [4%nat].
Proof. apply filetable_copy_shares; [apply one_file_rep|done|done]. Defined.

Lemma filetable_destroy_needs_empty_witness : filetable_destroy (Some one_file) one_desc = Panic.
Proof.
  apply (filetable_destroy_needs_empty one_file [4%nat]); [apply one_file_rep|]. by repeat constructor.
Defined.

End Filetable.
