(* ===== verification/Scheduler.v ===== *)
(** * The priority scheduler
    (kern/thread/scheduler.c and scheduler.h, kern/include/thread.h,
    kern/arch/mips/mips/spl.c)

    [kstate] is the state of the thread system: the thread structures, the run
    queues, the lists of sleeping and dead threads, the free process ids, the
    interrupt level.  A [struct thread *] is a key of [threads].  The calls
    that leave the thread system (address spaces, vnodes) are recorded in [calls].  The
    idle loop takes its interrupts from the script [irqs]; when the script has run
    out the processor idles for ever ([Spin]).  The scheduler is the one compiled in
    by [PRIORITY_SCHEDULER].  Thread.v has the rest of the thread system. *)
From stdpp Require Import base list gmap numbers.
From S2P Require Import Prelude Array Queue Filetable.
Local Open Scope Z_scope.

Module Scheduler.
Import Filetable.

(** ** State *)

(** A sleep address. *)
Inductive addr := lbolt | sem_addr (n : nat) | other_addr (n : nat).

#[global] Instance addr_eq_dec : EqDecision addr.
Proof. solve_decision. Defined.

(** What a thread that sleeps goes on with when it wakes up: it returns from
    [thread_sleep], or the caller is the loop of [P] or of [clocksleep]. *)
Inductive sleeper := SReturn | SP (sem : nat) (spl : Z) | SClock (num_secs s : Z).

(** Where the switch frame of a thread leads: a new thread, or the end of
    [mi_switch] called from [thread_yield], from the [thread_yield] of a timer interrupt (with what [mips_trap] and
    [mips_interrupt] have saved), from [thread_sleep] or [thread_exit]. *)
Inductive kont := KStart | KYield (spl : Z) | KTick (spl savespl old_in : Z) | KSleep (k : sleeper) | KExit.

Record thread := mkthread {
  t_pcb : kont;
  pcb_ininterrupt : Z;
  t_name : list Z;
  t_sleepaddr : option addr;
  t_stack : option (list Z);       (* the bytes at the bottom end *)
  t_vmspace : option nat;
  t_cwd : option nat;
  ft : option filetable;
  priority : Z;
  id : option Z
}.

(** Calls into the address space and vnode code. *)
Inductive kcall :=
| as_activate (as_ : nat)
| as_destroy (as_ : nat)
| as_copy (old new : nat)
| VOP_INCREF (v : nat)
| VOP_DECREF (v : nat).

(** Interrupts: the timer, or a device whose handler does [V]. *)
Inductive irq := IrqClock | IrqV (sem : nat).

Record kstate := mkkstate {
  threads : gmap nat thread;
  tnext : nat;
  curthread : option nat;
  runqueue : list (option (@Queue.queue nat));
  sleepers : option (@Array.array nat);
  zombies : option (@Array.array nat);
  process_ids : option (@Queue.queue Z);
  numthreads : Z;
  curspl : Z;
  interrupts : bool;
  in_interrupt : Z;
  lbolt_counter : Z;
  sems : gmap nat Z;
  irqs : list irq;
  calls : list kcall;
  files : fstate
}.

Abbreviation K := (M kstate).

Definition with_threads (x : gmap nat thread) (n : nat) (s : kstate) : kstate :=
  mkkstate x n (curthread s) (runqueue s) (sleepers s) (zombies s) (process_ids s) (numthreads s) (curspl s)
    (interrupts s) (in_interrupt s) (lbolt_counter s) (sems s) (irqs s) (calls s) (files s).
Definition with_cur (x : option nat) (s : kstate) : kstate :=
  mkkstate (threads s) (tnext s) x (runqueue s) (sleepers s) (zombies s) (process_ids s) (numthreads s) (curspl s)
    (interrupts s) (in_interrupt s) (lbolt_counter s) (sems s) (irqs s) (calls s) (files s).
Definition with_rq (x : list (option (@Queue.queue nat))) (s : kstate) : kstate :=
  mkkstate (threads s) (tnext s) (curthread s) x (sleepers s) (zombies s) (process_ids s) (numthreads s) (curspl s)
    (interrupts s) (in_interrupt s) (lbolt_counter s) (sems s) (irqs s) (calls s) (files s).
Definition with_lists (x y : option (@Array.array nat)) (s : kstate) : kstate :=
  mkkstate (threads s) (tnext s) (curthread s) (runqueue s) x y (process_ids s) (numthreads s) (curspl s)
    (interrupts s) (in_interrupt s) (lbolt_counter s) (sems s) (irqs s) (calls s) (files s).
Definition with_ids (x : option (@Queue.queue Z)) (n : Z) (s : kstate) : kstate :=
  mkkstate (threads s) (tnext s) (curthread s) (runqueue s) (sleepers s) (zombies s) x n (curspl s)
    (interrupts s) (in_interrupt s) (lbolt_counter s) (sems s) (irqs s) (calls s) (files s).
Definition with_spl (x : Z) (i : bool) (n : Z) (s : kstate) : kstate :=
  mkkstate (threads s) (tnext s) (curthread s) (runqueue s) (sleepers s) (zombies s) (process_ids s) (numthreads s) x
    i n (lbolt_counter s) (sems s) (irqs s) (calls s) (files s).
Definition with_clock (c : Z) (x : gmap nat Z) (q : list irq) (s : kstate) : kstate :=
  mkkstate (threads s) (tnext s) (curthread s) (runqueue s) (sleepers s) (zombies s) (process_ids s) (numthreads s) (curspl s)
    (interrupts s) (in_interrupt s) c x q (calls s) (files s).
Definition with_files (c : list kcall) (f : fstate) (s : kstate) : kstate :=
  mkkstate (threads s) (tnext s) (curthread s) (runqueue s) (sleepers s) (zombies s) (process_ids s) (numthreads s) (curspl s)
    (interrupts s) (in_interrupt s) (lbolt_counter s) (sems s) (irqs s) c f.

Definition kfiles {A} (m : M fstate A) : K A := zoom files (fun f s => with_files (calls s) f s) m.

Definition kmalloc_ok : K bool := kfiles fmalloc_ok.

Definition call (c : kcall) : K unit := modify (fun s => with_files (calls s ++ [c]) (files s) s).

(** [t->...], and assignments to fields of [*t]. *)
Definition gett (t : nat) : K thread := fun s =>
  match threads s !! t with
  | Some x => Ok (x, s)
  | None => Undef
  end.

Definition updt (t : nat) (f : thread → thread) : K unit :=
  let* x := gett t in
  modify (fun s => with_threads (<[t := f x]> (threads s)) (tnext s) s).

(** [curthread] where it is dereferenced. *)
Definition cur : K nat := fun s =>
  match curthread s with
  | Some t => Ok (t, s)
  | None => Undef
  end.

Definition set_priority (p : Z) (t : thread) : thread :=
  mkthread (t_pcb t) (pcb_ininterrupt t) (t_name t) (t_sleepaddr t) (t_stack t) (t_vmspace t) (t_cwd t) (ft t) p (id t).

(** ** Interrupt level (spl.c) *)
Definition SPL_HIGH : Z := 15.

Definition splx (newspl : Z) : K Z := fun s =>
  let i := if newspl >? 0 then false else if newspl =? 0 then true else interrupts s in
  Ok (curspl s, with_spl newspl i (in_interrupt s) s).

Definition splhigh : K Z := splx SPL_HIGH.

Definition spl0 : K Z := splx 0.

Definition spin {A} : K A := fun _ => Spin.

Definition assert_spl : K unit := fun s => if curspl s >? 0 then Ok (tt, s) else Panic.

(** ** The scheduler *)
Definition NUM_PRIORITIES : Z := 4.
Definition PRIORITY_LOW : Z := 0.
Definition PRIORITY_NORMAL : Z := 1.

(** [runqueue[i]]; a NULL queue is dereferenced by whoever uses it. *)
Definition getq (i : Z) : K (@Queue.queue nat) := fun s =>
  if 0 <=? i then
    match runqueue s !! Z.to_nat i with
    | Some (Some q) => Ok (q, s)
    | _ => Undef
    end
  else Undef.

Definition setq (i : Z) (q : option (@Queue.queue nat)) : K unit :=
  modify (fun s => with_rq (<[Z.to_nat i := q]> (runqueue s)) s).

(** [for(i = 0; i < NUM_PRIORITIES; i++) ...] of the functions below. *)
Fixpoint bootstrap_loop (n : nat) (i : Z) : K unit :=
  match n with
  | O => mret tt
  | S n' =>
      let* ok1 := kmalloc_ok in
      let* ok2 := (if (ok1 : bool) then kmalloc_ok else mret false) in
      match Queue.q_create ok1 ok2 32 with
      | None => panic
      | Some q =>
          let* _ := setq i (Some q) in
          bootstrap_loop n' (i + 1)
      end
  end.

Definition scheduler_bootstrap : K unit :=
  let* _ := massert (NUM_PRIORITIES >? 0) in
  bootstrap_loop 4 0.

Fixpoint preallocate_loop (n : nat) (i nthreads : Z) : K Z :=
  match n with
  | O => mret 0
  | S n' =>
      let* q := getq i in
      let* ok := kmalloc_ok in
      let* '(ret, q) := lift (Queue.q_preallocate ok q nthreads) in
      let* _ := setq i (Some q) in
      if negb (ret =? 0) then mret ret else preallocate_loop n' (i + 1) nthreads
  end.

Definition scheduler_preallocate (nthreads : Z) : K Z :=
  let* _ := assert_spl in
  preallocate_loop 4 0 nthreads.

(** [while (!q_empty(q)) ... q_remhead(q);]: at most [size] threads are dropped. *)
Fixpoint drain (fuel : nat) (q : @Queue.queue nat) : outcome (@Queue.queue nat) :=
  if Queue.q_empty q then Ok q
  else
    match fuel with
    | O => Spin
    | S fuel' =>
        let* '(_, q) := Queue.q_remhead q in
        drain fuel' q
    end.

Fixpoint killall_loop (n : nat) (i : Z) : K unit :=
  match n with
  | O => mret tt
  | S n' =>
      let* q := getq i in
      let* q := lift (drain (Z.to_nat (Queue.size q)) q) in
      let* _ := setq i (Some q) in
      killall_loop n' (i + 1)
  end.

Definition scheduler_killall : K unit :=
  let* _ := assert_spl in
  killall_loop 4 0.

Fixpoint shutdown_loop (n : nat) (i : Z) : K unit :=
  match n with
  | O => mret tt
  | S n' =>
      let* q := getq i in
      let* _ := lift (Queue.q_destroy q) in
      let* _ := setq i None in
      shutdown_loop n' (i + 1)
  end.

Definition scheduler_shutdown : K unit :=
  let* _ := scheduler_killall in
  let* _ := assert_spl in
  shutdown_loop 4 0.

Definition make_runnable (t : nat) : K Z :=
  let* _ := assert_spl in
  let* x := gett t in
  let* q := getq (priority x) in
  let* ok := kmalloc_ok in
  let* '(result, q) := lift (Queue.q_addtail ok q t) in
  let* _ := setq (priority x) (Some q) in
  mret result.

(** ** Wakeups (thread.c), which the idle loop needs *)
Definition getlist (l : kstate → option (@Array.array nat)) : K (@Array.array nat) := fun s =>
  match l s with
  | Some a => Ok (a, s)
  | None => Undef
  end.

(** [thread_wakeup]: the loop over the sleepers, from index [i] on. *)
Fixpoint wakeup_loop (fuel : nat) (i : Z) (a : addr) : K unit :=
  let* sl := getlist sleepers in
  if i <? Array.array_getnum sl then
    match fuel with
    | O => spin
    | S fuel' =>
        let* t := lift (Array.array_getguy sl i) in
        let* x := gett t in
        if bool_decide (t_sleepaddr x = Some a) then
          let* sl := lift (Array.array_remove sl i) in
          let* _ := modify (fun s => with_lists (Some sl) (zombies s) s) in
          let* result := make_runnable t in
          let* _ := massert (result =? 0) in
          wakeup_loop fuel' i a
        else wakeup_loop fuel' (i + 1) a
    end
  else mret tt.

Definition thread_wakeup (a : addr) : K unit :=
  let* _ := assert_spl in
  let* sl := getlist sleepers in
  wakeup_loop (Z.to_nat (Array.array_getnum sl)) 0 a.

(** [sem->count]. *)
Definition sem_count (sem : nat) : K Z := fun s =>
  match sems s !! sem with
  | Some c => Ok (c, s)
  | None => Undef
  end.

Definition set_count (sem : nat) (c : Z) : K unit :=
  modify (fun s => with_clock (lbolt_counter s) (<[sem := c]> (sems s)) (irqs s) s).

(** [V] of synch.c. *)
Definition V (sem : nat) : K unit :=
  let* spl := splhigh in
  let* c := sem_count sem in
  let c := i32 (c + 1) in
  let* _ := set_count sem c in
  let* _ := massert (c >? 0) in
  let* _ := thread_wakeup (sem_addr sem) in
  let* _ := splx spl in
  mret tt.

Definition HZ : Z := 100.

(** The part of [hardclock] before [thread_yield]. *)
Definition clock_tick : K unit :=
  let* c := gets lbolt_counter in
  let c := c + 1 in
  if HZ <=? c then
    let* _ := modify (fun s => with_clock 0 (sems s) (irqs s) s) in
    thread_wakeup lbolt
  else modify (fun s => with_clock c (sems s) (irqs s) s).

(** [assert(sleepers != NULL)]. *)
Definition assert_sleepers : K unit := fun s => if bool_decide (is_Some (sleepers s)) then Ok (tt, s) else Panic.

(** An interrupt handler run from the idle loop: [curthread] is NULL, so the
    [thread_yield] at the end of [hardclock] gives up in [mi_switch] at once. *)
Definition idle_handler (i : irq) : K unit :=
  match i with
  | IrqClock =>
      let* _ := clock_tick in
      let* spl := splhigh in
      let* _ := assert_sleepers in
      let* _ := assert_spl in
      let* _ := splx spl in
      mret tt
  | IrqV sem => V sem
  end.

(** [mips_interrupt] (interrupt.c) around a device handler. *)
Definition mips_interrupt (h : K unit) : K unit :=
  let* old_in := gets in_interrupt in
  let* _ := modify (fun s => with_spl (curspl s) (interrupts s) 1 s) in
  let* _ := assert_spl in
  let* _ := h in
  modify (fun s => with_spl (curspl s) (interrupts s) old_in s).

Definition next_irq : K irq := fun s =>
  match irqs s with
  | [] => Spin
  | i :: q => Ok (i, with_clock (lbolt_counter s) (sems s) q s)
  end.

(** [cpu_idle]: the next interrupt is taken and its handler runs. *)
Definition cpu_idle : K unit :=
  let* _ := assert_spl in
  let* i := next_irq in
  mips_interrupt (idle_handler i).

Fixpoint all_empty (n : nat) (i : Z) : K bool :=
  match n with
  | O => mret true
  | S n' =>
      let* q := getq i in
      let* r := all_empty n' (i + 1) in
      mret (Queue.q_empty q && r)
  end.

(** [do { ... if(do_idle) cpu_idle(); } while(do_idle);] *)
Fixpoint idle_loop (fuel : nat) : K unit :=
  let* do_idle := all_empty 4 0 in
  if (do_idle : bool) then
    match fuel with
    | O => spin
    | S fuel' =>
        let* _ := cpu_idle in
        idle_loop fuel'
    end
  else mret tt.

(** [for(i = NUM_PRIORITIES - 1; i > 0; i--) if(!q_empty(runqueue[i])) break;] *)
Fixpoint pick (n : nat) : K Z :=
  match n with
  | O => mret 0
  | S n' =>
      let* q := getq (Z.of_nat (S n')) in
      if negb (Queue.q_empty q) then mret (Z.of_nat (S n')) else pick n'
  end.

(** One interrupt is consumed per round of the idle loop. *)
Definition scheduler : K nat :=
  let* _ := assert_spl in
  let* q := gets irqs in
  let* _ := idle_loop (S (length q)) in
  let* i := pick 3 in
  let* q := getq i in
  let* '(t, q) := lift (Queue.q_remhead q) in
  let* _ := setq i (Some q) in
  let* x := gett t in
  let* _ := (if priority x >? 0 then updt t (set_priority (priority x - 1)) else mret tt) in
  mret t.

End Scheduler.
