(* ===== verification/Thread.v ===== *)
(** * Threads and semaphores: operations
    (kern/thread/thread.c, hardclock.c, synch.c, kern/arch/mips/mips/pcb.c)

    A context switch leaves a function in the middle: [mi_switch] saves in
    [t_pcb] where the thread is to go on and ends with [curthread] replaced; [resume] is
    what the new current thread does from there, up to the point where it is back in
    its own code.  An operation of the thread system is thus one atomic step, as it
    is in the kernel, where interrupts are off.  The operations that may give the processor
    away return whether they did.  Threadsafe.v proves the properties. *)
From stdpp Require Import base list gmap numbers.
From S2P Require Import Prelude Array Queue Filetable Scheduler.
Local Open Scope Z_scope.

Module Thread.
Import Filetable Scheduler.

Definition MAX_THREADS : Z := 100.

Definition MAGIC : list Z := [174; 17; 218; 51].

Inductive threadstate_t := S_RUN | S_READY | S_SLEEP | S_ZOMB.

#[global] Instance threadstate_eq_dec : EqDecision threadstate_t.
Proof. solve_decision. Defined.

(** ** Field assignments *)
Definition set_pcb (k : kont) (i : Z) (t : thread) : thread :=
  mkthread k i (t_name t) (t_sleepaddr t) (t_stack t) (t_vmspace t) (t_cwd t) (ft t) (priority t) (id t).
Definition set_sleepaddr (a : option addr) (t : thread) : thread :=
  mkthread (t_pcb t) (pcb_ininterrupt t) (t_name t) a (t_stack t) (t_vmspace t) (t_cwd t) (ft t) (priority t) (id t).
Definition set_stack (b : option (list Z)) (t : thread) : thread :=
  mkthread (t_pcb t) (pcb_ininterrupt t) (t_name t) (t_sleepaddr t) b (t_vmspace t) (t_cwd t) (ft t) (priority t) (id t).
Definition set_space (v c : option nat) (t : thread) : thread :=
  mkthread (t_pcb t) (pcb_ininterrupt t) (t_name t) (t_sleepaddr t) (t_stack t) v c (ft t) (priority t) (id t).

Definition getids : K (@Queue.queue Z) := fun s =>
  match process_ids s with
  | Some q => Ok (q, s)
  | None => Undef
  end.

Definition setids (q : @Queue.queue Z) : K unit := modify (fun s => with_ids (Some q) (numthreads s) s).

Definition kfree_thread (t : nat) : K unit :=
  modify (fun s => with_threads (delete t (threads s)) (tnext s) s).

(** The structure of a fresh [kmalloc]. *)
Definition new_thread (x : thread) : K nat := fun s =>
  Ok (tnext s, with_threads (<[tnext s := x]> (threads s)) (S (tnext s)) s).

(** ** Creation and destruction *)
Definition thread_create (name : list Z) : K (option nat) :=
  let* ok := kmalloc_ok in
  if negb (ok : bool) then mret None
  else
    let* ok := kmalloc_ok in
    if negb (ok : bool) then mret None
    else
      let* q := getids in
      let* '(pid, q) := lift (Queue.q_remhead q) in
      let* _ := setids q in
      let* f := kfiles filetable_create in
      let* t := new_thread (mkthread KStart 0 name None None None None f PRIORITY_NORMAL (Some pid)) in
      mret (Some t).

Definition thread_destroy (t : nat) : K unit :=
  let* c := gets curthread in
  let* _ := massert (bool_decide (c ≠ Some t)) in
  let* x := gett t in
  let* q := getids in
  let* pid := lift (of_option (id x)) in
  let* ok := kmalloc_ok in
  let* '(_, q) := lift (Queue.q_addtail ok q pid) in
  let* _ := setids q in
  let* _ := kfiles (filetable_destroy (ft x)) in
  let* _ := massert (bool_decide (t_vmspace x = None)) in
  let* _ := massert (bool_decide (t_cwd x = None)) in
  kfree_thread t.

(** [for (i=0; i<array_getnum(zombies); i++)] of [exorcise]; destroying a thread
    leaves the list alone. *)
Fixpoint exorcise_loop (n : nat) (i : Z) (zs : @Array.array nat) : K unit :=
  match n with
  | O => mret tt
  | S n' =>
      let* z := lift (Array.array_getguy zs i) in
      let* c := gets curthread in
      let* _ := massert (bool_decide (c ≠ Some z)) in
      let* _ := thread_destroy z in
      exorcise_loop n' (i + 1) zs
  end.

Definition exorcise : K unit :=
  let* _ := assert_spl in
  let* zs := getlist zombies in
  let* _ := exorcise_loop (Z.to_nat (Array.array_getnum zs)) 0 zs in
  let* '(result, zs) := lift (Array.array_setsize true zs 0) in
  let* _ := modify (fun s => with_lists (sleepers s) (Some zs) s) in
  massert (result =? 0).

(** The sleepers are only printed before they are dropped. *)
Definition thread_killall : K unit :=
  let* _ := assert_spl in
  let* sl := getlist sleepers in
  let* '(result, sl) := lift (Array.array_setsize true sl 0) in
  let* _ := modify (fun s => with_lists (Some sl) (zombies s) s) in
  massert (result =? 0).

Definition thread_panic : K unit :=
  let* _ := assert_spl in
  let* _ := thread_killall in
  scheduler_killall.

(** The process ids from [i] on. *)
Fixpoint make_ids (n : nat) (i : Z) : K unit :=
  match n with
  | O => mret tt
  | S n' =>
      let* ok := kmalloc_ok in
      let* _ := massert ok in
      let* q := getids in
      let* ok := kmalloc_ok in
      let* '(err, q) := lift (Queue.q_addtail ok q i) in
      let* _ := setids q in
      let* _ := massert (err =? 0) in
      make_ids n' (i + 1)
  end.

(** "<boot/menu>" *)
Definition boot_name : list Z := [60; 98; 111; 111; 116; 47; 109; 101; 110; 117; 62; 0].

Definition thread_bootstrap : K nat :=
  let* ok := kmalloc_ok in
  let* _ := massert ok in
  let* _ := modify (fun s => with_lists (Array.array_create ok) (zombies s) s) in
  let* ok := kmalloc_ok in
  let* _ := massert ok in
  let* _ := modify (fun s => with_lists (sleepers s) (Array.array_create ok) s) in
  let* ok1 := kmalloc_ok in
  let* ok2 := (if (ok1 : bool) then kmalloc_ok else mret false) in
  match Queue.q_create ok1 ok2 MAX_THREADS with
  | None => panic
  | Some q =>
      let* _ := setids q in
      let* _ := make_ids 100 0 in
      let* me := thread_create boot_name in
      match me with
      | None => panic
      | Some me =>
          let* _ := modify (with_cur (Some me)) in
          let* _ := modify (fun s => with_ids (process_ids s) 1 s) in
          mret me
      end
  end.

(** Both arrays are freed; the queue must be empty. *)
Definition thread_shutdown : K unit :=
  let* _ := getlist sleepers in
  let* _ := modify (fun s => with_lists None (zombies s) s) in
  let* _ := getlist zombies in
  let* _ := modify (fun s => with_lists (sleepers s) None s) in
  let* q := getids in
  let* _ := lift (Queue.q_destroy q) in
  modify (fun s => with_ids None (numthreads s) s).

(** ** Context switches *)

(** The check of the magic number at the bottom of the stack. *)
Definition check_stack (x : thread) : K unit :=
  match t_stack x with
  | Some b => massert (bool_decide (take 4 b = MAGIC))
  | None => mret tt
  end.

(** Put [cur] on the list of its next state. *)
Definition stash (nextstate : threadstate_t) (c : nat) : K Z :=
  match nextstate with
  | S_READY => make_runnable c
  | S_SLEEP =>
      let* a := getlist sleepers in
      let* ok := kmalloc_ok in
      let* '(result, a) := lift (Array.array_add ok a c) in
      let* _ := modify (fun s => with_lists (Some a) (zombies s) s) in
      mret result
  | _ =>
      let* _ := massert (bool_decide (nextstate = S_ZOMB)) in
      let* a := getlist zombies in
      let* ok := kmalloc_ok in
      let* '(result, a) := lift (Array.array_add ok a c) in
      let* _ := modify (fun s => with_lists (sleepers s) (Some a) s) in
      mret result
  end.

(** [md_switch]: [in_interrupt] belongs to the thread; [k] is where [old] goes on. *)
Definition md_switch (old nu : nat) (k : kont) : K unit :=
  let* i := gets in_interrupt in
  let* _ := updt old (set_pcb k i) in
  let* x := gett nu in
  modify (fun s => with_spl (curspl s) (interrupts s) (pcb_ininterrupt x) s).

(** Up to the switch; [false] when there is no current thread. *)
Definition mi_switch (nextstate : threadstate_t) (k : kont) : K bool :=
  let* _ := assert_spl in
  let* oc := gets curthread in
  match oc with
  | None => mret false
  | Some c =>
      let* x := gett c in
      let* _ := check_stack x in
      let* _ := modify (with_cur None) in
      let* result := stash nextstate c in
      let* _ := massert (result =? 0) in
      let* next := scheduler in
      let* _ := modify (with_cur (Some next)) in
      let* _ := md_switch c next k in
      mret true
  end.

(** [if (curthread->t_vmspace) as_activate(curthread->t_vmspace);] *)
Definition activate : K unit :=
  let* c := cur in
  let* x := gett c in
  match t_vmspace x with
  | Some v => call (as_activate v)
  | None => mret tt
  end.

(** The end of [mi_switch], in the new thread. *)
Definition after_switch : K unit :=
  let* _ := exorcise in
  activate.

(** [thread_yield]; [k] is where the thread goes on when it has the processor again. *)
Definition yield_to (k : Z → kont) : K bool :=
  let* spl := splhigh in
  let* _ := assert_sleepers in
  let* switched := mi_switch S_READY (k spl) in
  if (switched : bool) then mret true
  else
    let* _ := splx spl in
    mret false.

Definition thread_yield : K bool := yield_to KYield.

(** [k] is what the caller does after [thread_sleep]. *)
Definition thread_sleep (a : addr) (k : sleeper) : K bool :=
  let* i := gets in_interrupt in
  let* _ := massert (i =? 0) in
  let* c := cur in
  let* _ := updt c (set_sleepaddr (Some a)) in
  mi_switch S_SLEEP (KSleep k).

(** The loop of [P], interrupts off. *)
Definition P_loop (sem : nat) (spl : Z) : K bool :=
  let* c := sem_count sem in
  if c =? 0 then thread_sleep (sem_addr sem) (SP sem spl)
  else
    let* _ := massert (c >? 0) in
    let* _ := set_count sem (c - 1) in
    let* _ := splx spl in
    mret false.

Definition P (sem : nat) : K bool :=
  let* i := gets in_interrupt in
  let* _ := massert (i =? 0) in
  let* spl := splhigh in
  P_loop sem spl.

(** The loop of [clocksleep]. *)
Definition clocksleep_loop (num_secs s : Z) : K bool :=
  if num_secs >? 0 then thread_sleep lbolt (SClock num_secs s)
  else
    let* _ := splx s in
    mret false.

Definition clocksleep (num_secs : Z) : K bool :=
  let* s := splhigh in
  clocksleep_loop num_secs s.

Definition hardclock (k : Z → kont) : K bool :=
  let* _ := clock_tick in
  yield_to k.

(** The end of [mips_interrupt] and of [mips_trap]; the return from the exception turns interrupts on again. *)
Definition interrupt_done (savespl old_in : Z) : K bool :=
  let* _ := modify (fun s => with_spl (curspl s) (interrupts s) old_in s) in
  let* _ := splhigh in
  let* _ := modify (fun s => with_spl savespl true (in_interrupt s) s) in
  mret false.

(** [mips_trap] on a timer interrupt: the processor has turned interrupts off, [mips_interrupt] calls the
    handler of the timer, which calls [hardclock]. *)
Definition timer_interrupt : K bool :=
  let* savespl := gets curspl in
  let* old_in := gets in_interrupt in
  let* _ := modify (with_spl SPL_HIGH false 1) in
  let* _ := assert_spl in
  let* switched := hardclock (fun spl => KTick spl savespl old_in) in
  if (switched : bool) then mret true else interrupt_done savespl old_in.

Definition thread_exit : K bool :=
  let* c := cur in
  let* x := gett c in
  let* _ := check_stack x in
  let* _ := splhigh in
  let* _ := (match t_vmspace x with
             | Some v =>
                 let* _ := updt c (fun x => set_space None (t_cwd x) x) in
                 call (as_destroy v)
             | None => mret tt
             end) in
  let* _ := (match t_cwd x with
             | Some v =>
                 let* _ := call (VOP_DECREF v) in
                 updt c (fun x => set_space (t_vmspace x) None x)
             | None => mret tt
             end) in
  let* n := gets numthreads in
  let* _ := massert (n >? 0) in
  let* _ := modify (fun s => with_ids (process_ids s) (n - 1) s) in
  let* switched := mi_switch S_ZOMB KExit in
  if (switched : bool) then mret true else panic.

(** The current thread goes on where its switch frame says: a new thread with
    [mi_threadstart], up to the call of its function; the others with the end of
    [mi_switch] and of the function that called it. *)
Definition resume : K bool :=
  let* c := cur in
  let* x := gett c in
  match t_pcb x with
  | KStart =>
      let* _ := activate in
      let* _ := spl0 in
      mret false
  | KYield spl =>
      let* _ := after_switch in
      let* _ := splx spl in
      mret false
  | KTick spl savespl old_in =>
      let* _ := after_switch in
      let* _ := splx spl in
      interrupt_done savespl old_in
  | KSleep k =>
      let* _ := after_switch in
      let* _ := updt c (set_sleepaddr None) in
      match k with
      | SReturn => mret false
      | SP sem spl => P_loop sem spl
      | SClock num_secs s => clocksleep_loop (num_secs - 1) s
      end
  | KExit =>
      let* _ := after_switch in
      panic
  end.

(** ** Forking *)

(** [fail:] *)
Definition fork_fail (newguy : nat) (s result : Z) : K (Z + nat) :=
  let* _ := splx s in
  let* x := gett newguy in
  let* _ := (match t_cwd x with
             | Some v => call (VOP_DECREF v)
             | None => mret tt
             end) in
  let* _ := kfree_thread newguy in
  mret (inl result).

(** [as_copy(curthread->t_vmspace, &(newguy->t_vmspace))]; its error is not looked
    at, the new address space is named by the next unused number. *)
Definition fork_space (v newguy : nat) : K unit :=
  let* ok := kmalloc_ok in
  if (ok : bool) then
    let* new := gets tnext in
    let* _ := modify (fun s => with_threads (threads s) (S new) s) in
    let* _ := call (as_copy v new) in
    updt newguy (fun x => set_space (Some new) (t_cwd x) x)
  else mret tt.

(** The part with interrupts off. *)
Definition fork_link (newguy : nat) (s : Z) : K (Z + nat) :=
  let* n := gets numthreads in
  let* a := getlist sleepers in
  let* ok := kmalloc_ok in
  let* '(result, a) := lift (Array.array_preallocate ok a (n + 1)) in
  let* _ := modify (fun s => with_lists (Some a) (zombies s) s) in
  if negb (result =? 0) then fork_fail newguy s result
  else
    let* z := getlist zombies in
    let* ok := kmalloc_ok in
    let* '(result, z) := lift (Array.array_preallocate ok z (n + 1)) in
    let* _ := modify (fun s => with_lists (sleepers s) (Some z) s) in
    if negb (result =? 0) then fork_fail newguy s result
    else
      let* result := scheduler_preallocate (n + 1) in
      if negb (result =? 0) then fork_fail newguy s result
      else
        let* result := make_runnable newguy in
        if negb (result =? 0) then fork_fail newguy s result
        else
          let* _ := modify (fun s => with_ids (process_ids s) (n + 1) s) in
          let* _ := splx s in
          mret (inr newguy).

Definition thread_fork (name : list Z) : K (Z + nat) :=
  let* r := thread_create name in
  match r with
  | None => mret (inl ENOMEM)
  | Some newguy =>
      let* ok := kmalloc_ok in
      if negb (ok : bool) then
        let* _ := kfree_thread newguy in
        mret (inl ENOMEM)
      else
        let* c := cur in
        let* x := gett c in
        let* _ := (match t_vmspace x with
                   | Some v => fork_space v newguy
                   | None => mret tt
                   end) in
        let* _ := updt newguy (set_stack (Some MAGIC)) in
        let* _ := (match t_cwd x with
                   | Some v =>
                       let* _ := call (VOP_INCREF v) in
                       updt newguy (fun y => set_space (t_vmspace y) (Some v) y)
                   | None => mret tt
                   end) in
        let* _ := updt newguy (set_pcb KStart 0) in
        let* s := splhigh in
        fork_link newguy s
  end.

(** ** The rest of the semaphore interface, and the lock and cv stubs *)
Fixpoint hassleepers_loop (n : nat) (i : Z) (sl : @Array.array nat) (a : addr) : K bool :=
  match n with
  | O => mret false
  | S n' =>
      let* t := lift (Array.array_getguy sl i) in
      let* x := gett t in
      if bool_decide (t_sleepaddr x = Some a) then mret true else hassleepers_loop n' (i + 1) sl a
  end.

Definition thread_hassleepers (a : addr) : K bool :=
  let* _ := assert_spl in
  let* sl := getlist sleepers in
  hassleepers_loop (Z.to_nat (Array.array_getnum sl)) 0 sl a.

(** [sem] is the address the first [kmalloc] returned. *)
Definition sem_create (sem : nat) (initial_count : Z) : K (option nat) :=
  let* _ := massert (0 <=? initial_count) in
  let* ok := kmalloc_ok in
  if negb (ok : bool) then mret None
  else
    let* ok := kmalloc_ok in
    if negb (ok : bool) then mret None
    else
      let* _ := set_count sem initial_count in
      mret (Some sem).

Definition sem_destroy (sem : nat) : K unit :=
  let* spl := splhigh in
  let* b := thread_hassleepers (sem_addr sem) in
  let* _ := massert (negb b) in
  let* _ := splx spl in
  modify (fun s => with_clock (lbolt_counter s) (delete sem (sems s)) (irqs s) s).

Definition lock_acquire (lock : nat) : K unit := mret tt.
Definition lock_release (lock : nat) : K unit := mret tt.
Definition lock_do_i_hold (lock : nat) : K Z := mret 1.
Definition cv_wait (cv lock : nat) : K unit := mret tt.
Definition cv_signal (cv lock : nat) : K unit := mret tt.
Definition cv_broadcast (cv lock : nat) : K unit := mret tt.

End Thread.
