(* ===== verification/Threadsafe.v ===== *)
(** * The thread system: safety

    An abstract view of the thread system, [astate]: the contents of the four run
    queues, of the sleepers and the zombies, and the free process ids.  [krep] says
    that the arrays and ring buffers of a kernel state hold just that; [tinv] is the
    invariant of the thread structures: every thread is in exactly one place, sits in the
    run queue of its priority, and has a process id no other thread has; a dead thread
    has no file open, for destroying one that has would panic (see Filetable.v). *)
From stdpp Require Import base list list_numbers gmap numbers.
From S2P Require Import Prelude Array Queue Filetable Scheduler Thread.
Local Open Scope Z_scope.

Module Threadsafe.
Import Filetable Scheduler Thread.

(** ** Abstract state *)
Record astate := mkA {
  a_rq : list (list nat);
  a_sl : list nat;
  a_zb : list nat;
  a_ids : list Z
}.

Definition set_rq (r : list (list nat)) (a : astate) : astate := mkA r (a_sl a) (a_zb a) (a_ids a).

(** The ring buffer holds [l]; it has not grown beyond what 100 threads need. *)
Definition holds {A} (oq : option (@Queue.queue A)) (l : list A) : Prop :=
  ∃ q, oq = Some q ∧ Queue.q_rep q l ∧ Queue.size q ≤ 1000.

Definition lists {A} (oa : option (@Array.array A)) (l : list A) : Prop :=
  ∃ arr, oa = Some arr ∧ Array.array_rep arr l.

Record krep (s : kstate) (a : astate) : Prop := {
  kr_rq : Forall2 holds (runqueue s) (a_rq a);
  kr_four : length (a_rq a) = 4%nat;
  kr_sl : lists (sleepers s) (a_sl a);
  kr_zb : lists (zombies s) (a_zb a);
  kr_ids : holds (process_ids s) (a_ids a);
  kr_mem : fmem (files s) = []
}.

(** Every thread of the system; [o] is the current one, if any. *)
Definition members (a : astate) (o : option nat) : list nat :=
  option_list o ++ concat (a_rq a) ++ a_sl a ++ a_zb a.

(** No file is open. *)
Definition no_files (x : thread) : Prop := ∃ f, ft x = Some f ∧ ft_rep f [].

(** A thread structure in good order. *)
Record thread_ok (x : thread) : Prop := {
  to_prio : 0 ≤ priority x < NUM_PRIORITIES;
  to_stack : match t_stack x with Some b => take 4 b = MAGIC | None => True end;
  to_ft : is_Some (ft x);
  to_id : is_Some (id x)
}.

Definition pids (th : gmap nat thread) (l : list nat) : list Z := omap (fun t => th !! t ≫= id) l.

Record tinv (th : gmap nat thread) (nx : nat) (a : astate) (o : option nat) : Prop := {
  ti_nodup : NoDup (members a o);
  ti_dom : ∀ t, is_Some (th !! t) ↔ t ∈ members a o;
  ti_ok : ∀ t x, th !! t = Some x → thread_ok x;
  ti_prio : ∀ i l t x, a_rq a !! i = Some l → t ∈ l → th !! t = Some x → priority x = Z.of_nat i;
  ti_zomb : ∀ t x, t ∈ a_zb a → th !! t = Some x → t_vmspace x = None ∧ t_cwd x = None ∧ no_files x;
  ti_pids : a_ids a ++ pids th (members a o) ≡ₚ seqZ 0 100;
  ti_next : ∀ t, (nx ≤ t)%nat → th !! t = None
}.

(** ** Primitive steps *)
Lemma kmalloc_run s : fmem (files s) = [] → kmalloc_ok s = Ok (true, s).
Proof. intros H. unfold kmalloc_ok, kfiles, zoom, fmalloc_ok. rewrite H. destruct s as [? ? ? ? ? ? ? ? ? ? ? ? ? ? ? []]; cbn in *. by subst. Qed.

Lemma assert_spl_run s : 0 < curspl s → assert_spl s = Ok (tt, s).
Proof. intros H. unfold assert_spl. by rewrite (proj2 (Z.gtb_lt _ _)). Qed.

Lemma gett_run s t x : threads s !! t = Some x → gett t s = Ok (x, s).
Proof. intros H. unfold gett. by rewrite H. Qed.

Lemma updt_run s t f x :
  threads s !! t = Some x → updt t f s = Ok (tt, with_threads (<[t := f x]> (threads s)) (tnext s) s).
Proof. intros H. unfold updt. by rewrite (bind_ok _ _ _ _ _ (gett_run s t x H)). Qed.

Lemma klift_run {A} (o : outcome A) v (s : kstate) : o = Ok v → lift o s = Ok (v, s).
Proof. by intros ->. Qed.

Lemma getq_run s a i l :
  krep s a → a_rq a !! i = Some l →
  ∃ q, getq (Z.of_nat i) s = Ok (q, s) ∧ Queue.q_rep q l ∧ Queue.size q ≤ 1000.
Proof.
  intros H Hl. destruct (Forall2_lookup_r _ _ _ _ _ (kr_rq _ _ H) Hl) as (oq & Hq & q & -> & R & Hs).
  exists q. unfold getq. rewrite (proj2 (Z.leb_le 0 _)), Nat2Z.id, Hq by lia. done.
Qed.

Lemma setq_rep s a i q l :
  krep s a → Queue.q_rep q l → Queue.size q ≤ 1000 →
  setq (Z.of_nat i) (Some q) s = Ok (tt, with_rq (<[i := Some q]> (runqueue s)) s) ∧
  krep (with_rq (<[i := Some q]> (runqueue s)) s) (set_rq (<[i := l]> (a_rq a)) a).
Proof.
  intros [H1 H2 H3 H4 H5 H6] R Hs. unfold setq. rewrite Nat2Z.id. split; [done|]. constructor; try done.
  - apply Forall2_insert; [done|]. by exists q.
  - cbn. by rewrite length_insert.
Qed.

Lemma concat_insert (r : list (list nat)) i l l' :
  r !! i = Some l → concat (<[i := l']> r) ++ l ≡ₚ concat r ++ l'.
Proof.
  revert i. induction r as [|x r IH]; intros [|i] Hi; simplify_eq/=.
  - by rewrite <- !app_assoc, (Permutation_app_comm (concat r) l), (Permutation_app_comm (concat r) l'), !app_assoc,
      (Permutation_app_comm l l').
  - by rewrite <- !app_assoc, (IH i Hi).
Qed.

(** Every thread holds a process id, so there are at most 100. *)
Lemma pids_length th nx a o : tinv th nx a o → length (pids th (members a o)) = length (members a o).
Proof.
  intros T. assert (∀ t, t ∈ members a o → ∃ p, (th !! t ≫= id) = Some p) as H.
  { intros t Ht. apply (ti_dom _ _ _ _ T) in Ht as [x Hx]. destruct (to_id _ (ti_ok _ _ _ _ T t x Hx)) as [p Hp].
    exists p. by rewrite Hx. }
  unfold pids. clear T. induction (members a o) as [|t l IH]; [done|]. cbn.
  destruct (H t) as [p ->]; [by left|]. cbn. f_equal. apply IH. intros u Hu. apply H. by right.
Qed.

Lemma members_le th nx a o : tinv th nx a o → (length (a_ids a) + length (members a o) = 100)%nat.
Proof.
  intros T. pose proof (Permutation_length (ti_pids _ _ _ _ T)) as H. rewrite length_app, length_seqZ in H.
  rewrite (pids_length _ _ _ _ T) in H. lia.
Qed.

Lemma queue_le th nx a o i l : tinv th nx a o → a_rq a !! i = Some l → (length l ≤ 100)%nat.
Proof.
  intros T Hl. pose proof (members_le _ _ _ _ T) as H. unfold members in H. rewrite !length_app in H.
  pose proof (Permutation_length (concat_insert (a_rq a) i l [] Hl)) as Hp. rewrite !length_app in Hp. simpl in Hp. lia.
Qed.

(** The thread invariant only depends on the members as a whole. *)
Lemma tinv_perm th nx a a' o o' :
  tinv th nx a o → members a' o' ≡ₚ members a o → a_ids a' = a_ids a → a_zb a' = a_zb a →
  (∀ i l t x, a_rq a' !! i = Some l → t ∈ l → th !! t = Some x → priority x = Z.of_nat i) →
  tinv th nx a' o'.
Proof.
  intros [T1 T2 T3 T4 T5 T6 T7] Hp Hi Hz Hpr. constructor; try done.
  - by rewrite Hp.
  - intros t. by rewrite T2, Hp.
  - by rewrite Hz.
  - rewrite Hi. unfold pids in *. by rewrite Hp.
Qed.

(** Two threads never share a process id. *)
Lemma omap_elem {A B} (f : A → option B) (l : list A) t p : t ∈ l → f t = Some p → p ∈ omap f l.
Proof. intros Ht Hf. apply list_elem_of_omap. eauto. Qed.

Lemma tinv_ids th nx a o t u x y :
  tinv th nx a o → th !! t = Some x → th !! u = Some y → id x = id y → t = u ∧ ∃ p, id x = Some p ∧ 0 ≤ p < 100.
Proof.
  intros T Hx Hy Hid. pose proof (ti_pids _ _ _ _ T) as Hp. pose proof (to_id _ (ti_ok _ _ _ _ T t x Hx)) as [p Hpx].
  assert (t ∈ members a o) as Ht by (apply (ti_dom _ _ _ _ T); eauto).
  assert (u ∈ members a o) as Hu by (apply (ti_dom _ _ _ _ T); eauto).
  assert (NoDup (a_ids a ++ pids th (members a o))) as Hnd by (rewrite Hp; apply NoDup_seqZ).
  assert (p ∈ pids th (members a o)) as Hin by (eapply omap_elem; [exact Ht|by rewrite Hx]). split.
  - apply list.NoDup_app in Hnd as (_ & _ & Hnd). pose proof (ti_nodup _ _ _ _ T) as Hm.
    clear -Ht Hu Hnd Hm Hx Hy Hid Hpx. unfold pids in Hnd. induction (members a o) as [|m l IH]; [by apply not_elem_of_nil in Ht|].
    apply list.NoDup_cons in Hm as [Hm1 Hm2]. apply elem_of_cons in Ht as [->|Ht], Hu as [->|Hu]; [done|..].
    + exfalso. cbn in Hnd. rewrite Hx in Hnd. cbn in Hnd. rewrite Hpx in Hnd. cbn in Hnd.
      apply list.NoDup_cons in Hnd as [Hn _]. apply Hn. eapply omap_elem; [exact Hu|]. rewrite Hy. cbn. by rewrite <- Hid.
    + exfalso. cbn in Hnd. rewrite Hy in Hnd. cbn in Hnd. rewrite <- Hid, Hpx in Hnd. cbn in Hnd.
      apply list.NoDup_cons in Hnd as [Hn _]. apply Hn. eapply omap_elem; [exact Ht|]. by rewrite Hx.
    + apply IH; try done. cbn in Hnd. destruct (th !! m ≫= id); [by apply list.NoDup_cons in Hnd as [_ ?]|done].
  - exists p. split; [done|]. assert (p ∈ seqZ 0 100) as H by (rewrite <- Hp; apply elem_of_app; by right).
    apply elem_of_seqZ in H. lia.
Qed.

(** ** [make_runnable] *)
Definition enq (t p : nat) (a : astate) : astate := set_rq (alter (fun l => l ++ [t]) p (a_rq a)) a.

Lemma alter_insert {A} (f : A → A) (r : list A) i x : r !! i = Some x → alter f i r = <[i := f x]> r.
Proof. revert i. induction r as [|y r IH]; intros [|i] Hi; simplify_eq/=; [done|]. f_equal. by apply IH. Qed.

Lemma enq_members t p a o l : a_rq a !! p = Some l → members (enq t p a) o ≡ₚ t :: members a o.
Proof.
  intros Hl. unfold members, enq. cbn. rewrite (alter_insert _ _ _ _ Hl).
  assert (concat (<[p := l ++ [t]]> (a_rq a)) ≡ₚ t :: concat (a_rq a)) as ->.
  { apply (Permutation_app_inv_r l). rewrite (concat_insert _ _ _ _ Hl). cbn.
    rewrite app_assoc, (Permutation_app_comm _ [t]). done. }
  cbn. by rewrite <- Permutation_middle.
Qed.

Lemma enq_lookup t p a i l' :
  a_rq (enq t p a) !! i = Some l' → ∃ l, a_rq a !! i = Some l ∧ (l' = l ∨ i = p ∧ l' = l ++ [t]).
Proof.
  cbn. destruct (decide (i = p)) as [->|Hne].
  - rewrite list_lookup_alter_eq. destruct (a_rq a !! p) as [l|]; [|done]. intros [= <-]. exists l. auto.
  - rewrite list_lookup_alter_ne by done. intros ->. exists l'. auto.
Qed.

Lemma make_runnable_run s a t x l :
  krep s a → 0 < curspl s → threads s !! t = Some x → a_rq a !! Z.to_nat (priority x) = Some l → 0 ≤ priority x →
  (length l ≤ 100)%nat →
  ∃ rq, make_runnable t s = Ok (0, with_rq rq s) ∧ krep (with_rq rq s) (enq t (Z.to_nat (priority x)) a).
Proof.
  intros H Hspl Hx Hl Hp Hlen. unfold make_runnable. rewrite (bind_ok _ _ _ _ _ (assert_spl_run s Hspl)).
  rewrite (bind_ok _ _ _ _ _ (gett_run s t x Hx)).
  destruct (getq_run s a _ l H Hl) as (q & E & R & Hs). rewrite Z2Nat.id in E by done.
  rewrite (bind_ok _ _ _ _ _ E), (bind_ok _ _ _ _ _ (kmalloc_run s (kr_mem _ _ H))).
  destruct (Queue.addtail_run true q l t R) as (q' & E2 & R2 & Hs2); [lia|by left|].
  rewrite (bind_ok _ _ _ _ _ (klift_run _ _ s E2)).
  destruct (setq_rep s a (Z.to_nat (priority x)) q' (l ++ [t]) H R2) as [E3 K3]; [lia|].
  rewrite Z2Nat.id in E3 by done. rewrite (bind_ok _ _ _ _ _ E3). eexists. split; [reflexivity|].
  unfold enq. replace (alter _ _ (a_rq a)) with (<[Z.to_nat (priority x) := l ++ [t]]> (a_rq a)); [done|].
  symmetry. by apply (alter_insert (fun l => l ++ [t])).
Qed.

(** ** Waking up *)
Definition asleep (th : gmap nat thread) (ad : addr) (t : nat) : Prop := (th !! t ≫= t_sleepaddr) = Some ad.

#[global] Instance asleep_dec th ad t : Decision (asleep th ad t).
Proof. unfold asleep. apply _. Defined.

Definition prio_of (th : gmap nat thread) (t : nat) : nat := default 0%nat (Z.to_nat ∘ priority <$> th !! t).

(** Each thread of [l] to the tail of its run queue, in order. *)
Definition run_all (th : gmap nat thread) (l : list nat) (r : list (list nat)) : list (list nat) :=
  foldl (fun r t => alter (fun q => q ++ [t]) (prio_of th t) r) r l.

(** What [thread_wakeup] does: the threads asleep on [ad] become runnable, in the order
    they went to sleep; the others stay where they are. *)
Definition wake (th : gmap nat thread) (ad : addr) (a : astate) : astate :=
  mkA (run_all th (filter (asleep th ad) (a_sl a)) (a_rq a)) (filter (fun t => ¬ asleep th ad t) (a_sl a)) (a_zb a) (a_ids a).

Lemma getlist_run (f : kstate → option (@Array.array nat)) s arr : f s = Some arr → getlist f s = Ok (arr, s).
Proof. intros H. unfold getlist. by rewrite H. Qed.

(** Moving sleeper [t] to its run queue keeps the invariant. *)
Lemma tinv_wake1 th nx a o pre t suf x :
  tinv th nx a o → a_sl a = pre ++ t :: suf → th !! t = Some x → length (a_rq a) = 4%nat →
  tinv th nx (enq t (Z.to_nat (priority x)) (mkA (a_rq a) (pre ++ suf) (a_zb a) (a_ids a))) o.
Proof.
  intros T Hs Hx H4. pose proof (to_prio _ (ti_ok _ _ _ _ T t x Hx)) as Hp. unfold NUM_PRIORITIES in Hp.
  destruct (lookup_lt_is_Some_2 (a_rq a) (Z.to_nat (priority x))) as [l Hl]; [lia|].
  eapply (tinv_perm th nx a); try done.
  - rewrite (enq_members _ _ _ _ l) by done. unfold members. cbn. rewrite Hs.
    rewrite <- !app_assoc. rewrite (Permutation_middle (option_list o)). apply Permutation_app_head.
    rewrite (Permutation_middle (concat (a_rq a))). apply Permutation_app_head. cbn. by rewrite <- Permutation_middle.
  - intros i l' u y Hi Hu Hy. apply enq_lookup in Hi as (l0 & Hl0 & [->|[-> ->]]); cbn in Hl0.
    + by eapply (ti_prio _ _ _ _ T).
    + apply elem_of_app in Hu as [Hu|Hu]; [by eapply (ti_prio _ _ _ _ T)|].
      apply list_elem_of_singleton in Hu as ->. assert (y = x) as -> by congruence. lia.
Qed.

Lemma wakeup_loop_run fuel s a o pre suf ad :
  krep s a → tinv (threads s) (tnext s) a o → 0 < curspl s → a_sl a = pre ++ suf → (length suf ≤ fuel)%nat →
  let a' := mkA (run_all (threads s) (filter (asleep (threads s) ad) suf) (a_rq a))
              (pre ++ filter (fun t => ¬ asleep (threads s) ad t) suf) (a_zb a) (a_ids a) in
  ∃ sl rq, wakeup_loop fuel (Z.of_nat (length pre)) ad s = Ok (tt, with_rq rq (with_lists sl (zombies s) s)) ∧
    krep (with_rq rq (with_lists sl (zombies s) s)) a' ∧ tinv (threads s) (tnext s) a' o.
Proof.
  revert s a pre suf. induction fuel as [|fuel IH]; intros s a pre suf H T Hspl Hsl Hf.
  all: destruct (kr_sl _ _ H) as (arr & Harr & Rarr); cbn [wakeup_loop];
    rewrite (bind_ok _ _ _ _ _ (getlist_run sleepers s arr Harr)); unfold Array.array_getnum;
    rewrite (Array.array_rep_len _ _ Rarr), Hsl, length_app.
  all: destruct suf as [|t suf]; [|cbn [length] in *; try lia].
  1,2: rewrite (proj2 (Z.ltb_ge _ _)) by (cbn [length]; lia); exists (sleepers s), (runqueue s);
       assert (with_rq (runqueue s) (with_lists (sleepers s) (zombies s) s) = s) as -> by (by destruct s);
       cbn; rewrite Hsl, app_nil_r in *; replace (mkA _ _ _ _) with a by (destruct a; cbn in *; by subst); done.
  rewrite (proj2 (Z.ltb_lt _ _)) by lia.
  assert (a_sl a !! length pre = Some t) as Hlk by (rewrite Hsl; by apply list_lookup_middle).
  assert (t ∈ members a o) as Hmem.
  { unfold members. rewrite Hsl. rewrite !elem_of_app. right; right; left. right. by left. }
  apply (ti_dom _ _ _ _ T) in Hmem as [x Hx].
  erewrite bind_ok; [|apply klift_run; rewrite (Array.array_getguy_rep _ _ (length pre) Rarr), Hlk; reflexivity].
  rewrite (bind_ok _ _ _ _ _ (gett_run s t x Hx)). rewrite !filter_cons.
  assert (asleep (threads s) ad t ↔ t_sleepaddr x = Some ad) as Has by (unfold asleep; rewrite Hx; done).
  case_bool_decide as Hd.
  - rewrite decide_True by (by apply Has). rewrite (decide_False (P := ¬ _)) by (intros Hn; by apply Hn, Has).
    destruct (Array.array_remove_deletes arr (a_sl a) (length pre) Rarr) as (arr' & E & R' & _);
      [rewrite Hsl, length_app; simpl; lia|].
    rewrite <- delete_take_drop, Hsl, delete_middle in R'.
    rewrite (bind_ok _ _ _ _ _ (klift_run _ _ s E)). erewrite bind_ok; [|reflexivity].
    set (s1 := with_lists (Some arr') (zombies s) s). set (a1 := mkA (a_rq a) (pre ++ suf) (a_zb a) (a_ids a)).
    assert (krep s1 a1) as H1 by (destruct H; constructor; try done; by exists arr').
    pose proof (to_prio _ (ti_ok _ _ _ _ T t x Hx)) as Hp. unfold NUM_PRIORITIES in Hp.
    pose proof (kr_four _ _ H) as H4. destruct (lookup_lt_is_Some_2 (a_rq a) (Z.to_nat (priority x))) as [l Hl]; [lia|].
    destruct (make_runnable_run s1 a1 t x l H1 Hspl Hx Hl) as (rq & E2 & K2); [lia|by eapply queue_le|].
    rewrite (bind_ok _ _ _ _ _ E2). erewrite bind_ok; [|reflexivity].
    destruct (IH (with_rq rq s1) (enq t (Z.to_nat (priority x)) a1) pre suf K2) as (sl' & rq' & E3 & K3 & T3); try done.
    { by eapply tinv_wake1. } { lia. }
    exists sl', rq'. cbn [run_all foldl]. replace (prio_of (threads s) t) with (Z.to_nat (priority x))
      by (unfold prio_of; by rewrite Hx). done.
  - rewrite decide_False by (by rewrite Has). rewrite (decide_True (P := ¬ _)) by (by rewrite Has).
    replace (Z.of_nat (length pre) + 1) with (Z.of_nat (length (pre ++ [t]))) by (rewrite length_app; simpl; lia).
    destruct (IH s a (pre ++ [t]) suf H T Hspl) as (sl' & rq' & E3 & K3 & T3); [by rewrite <- app_assoc|lia|].
    rewrite <- app_assoc in K3, T3. by exists sl', rq'.
Qed.

Lemma wakeup_run s a o ad :
  krep s a → tinv (threads s) (tnext s) a o → 0 < curspl s →
  ∃ sl rq, thread_wakeup ad s = Ok (tt, with_rq rq (with_lists sl (zombies s) s)) ∧
    krep (with_rq rq (with_lists sl (zombies s) s)) (wake (threads s) ad a) ∧
    tinv (threads s) (tnext s) (wake (threads s) ad a) o.
Proof.
  intros H T Hspl. unfold thread_wakeup. rewrite (bind_ok _ _ _ _ _ (assert_spl_run s Hspl)).
  destruct (kr_sl _ _ H) as (arr & Harr & Rarr). rewrite (bind_ok _ _ _ _ _ (getlist_run sleepers s arr Harr)).
  unfold Array.array_getnum. rewrite (Array.array_rep_len _ _ Rarr), Nat2Z.id.
  apply (wakeup_loop_run (length (a_sl a)) s a o [] (a_sl a) ad H T Hspl eq_refl). lia.
Qed.

(** ** The invariant of the thread system *)

(** Semaphore counts cannot overflow within the pending interrupts, which only
    signal semaphores that exist. *)
Record sem_ok (s : kstate) : Prop := {
  so_count : ∀ sem c, sems s !! sem = Some c → 0 ≤ c ∧ c + Z.of_nat (length (irqs s)) < 2 ^ 31 - 1;
  so_irqs : Forall (fun i => match i with IrqV sem => is_Some (sems s !! sem) | IrqClock => True end) (irqs s)
}.

(** Where a thread that is neither running nor dead may go on. *)
Definition kont_ok (sm : gmap nat Z) (x : thread) : Prop :=
  match t_pcb x with
  | KStart | KYield _ | KTick _ _ _ => True
  | KSleep k => pcb_ininterrupt x = 0 ∧ match k with SP sem _ => is_Some (sm !! sem) | _ => True end
  | KExit => False
  end.

Definition konts (th : gmap nat thread) (sm : gmap nat Z) (zb : list nat) (o : option nat) : Prop :=
  ∀ t x, th !! t = Some x → t ∉ zb → o ≠ Some t → kont_ok sm x.

Record kinv (s : kstate) (a : astate) (o e : option nat) : Prop := {
  k_rep : krep s a;
  k_tinv : tinv (threads s) (tnext s) a o;
  k_sem : sem_ok s;
  k_kont : konts (threads s) (sems s) (a_zb a) e
}.

(** What wakeups leave alone. *)
Record quiet (s s' : kstate) : Prop := {
  qu_threads : threads s' = threads s;
  qu_next : tnext s' = tnext s;
  qu_cur : curthread s' = curthread s;
  qu_zombies : zombies s' = zombies s;
  qu_ids : process_ids s' = process_ids s;
  qu_num : numthreads s' = numthreads s;
  qu_spl : curspl s' = curspl s;
  qu_int : in_interrupt s' = in_interrupt s;
  qu_calls : calls s' = calls s;
  qu_files : files s' = files s;
  qu_sems : ∀ sem, is_Some (sems s !! sem) → is_Some (sems s' !! sem)
}.

#[global] Instance quiet_refl : Reflexive quiet.
Proof. by intros s. Qed.
#[global] Instance quiet_trans : Transitive quiet.
Proof. intros s1 s2 s3 [] []. constructor; [congruence..|auto]. Qed.

Lemma konts_mono th sm sm' zb o :
  konts th sm zb o → (∀ sem, is_Some (sm !! sem) → is_Some (sm' !! sem)) → konts th sm' zb o.
Proof.
  intros H Hs t x Hx Hz Ho. specialize (H t x Hx Hz Ho). unfold kont_ok in *. destruct (t_pcb x) as [| | |k|]; try done.
  destruct H as [H1 H2]. split; [done|]. destruct k; auto.
Qed.

(** A wakeup, in a state whose interrupt level is up. *)
Lemma wakeup_kinv s a o e ad :
  kinv s a o e → 0 < curspl s →
  ∃ s', thread_wakeup ad s = Ok (tt, s') ∧ kinv s' (wake (threads s) ad a) o e ∧ quiet s s' ∧
    sems s' = sems s ∧ irqs s' = irqs s.
Proof.
  intros [K1 K2 K3 K4] Hspl. destruct (wakeup_run s a o ad K1 K2 Hspl) as (sl & rq & E & R & T).
  eexists. split; [exact E|]. split; [|done]. constructor; try done. by destruct K3.
Qed.

(** [V], with room for one more count. *)
Lemma V_run s a o e sem c :
  kinv s a o e → sems s !! sem = Some c → c + 1 + Z.of_nat (length (irqs s)) < 2 ^ 31 - 1 →
  ∃ s', V sem s = Ok (tt, s') ∧ kinv s' (wake (threads s) (sem_addr sem) a) o e ∧ quiet s s' ∧
    sems s' = <[sem := c + 1]> (sems s) ∧ irqs s' = irqs s.
Proof.
  intros [K1 K2 K3 K4] Hc Hlt. destruct (so_count _ K3 sem c Hc) as [Hc0 _]. unfold V, splhigh.
  erewrite bind_ok; [|reflexivity]. set (s1 := with_spl SPL_HIGH _ _ s).
  erewrite bind_ok; [|unfold sem_count; change (sems s1) with (sems s); rewrite Hc; reflexivity].
  rewrite i32_small by lia. erewrite bind_ok; [|reflexivity].
  set (s2 := with_clock _ (<[sem := c + 1]> (sems s1)) _ s1).
  erewrite bind_ok; [|unfold massert; rewrite (proj2 (Z.gtb_lt _ _)) by lia; reflexivity].
  assert (∀ m, is_Some (sems s !! m) → is_Some (<[sem := c + 1]> (sems s) !! m)) as Hmono.
  { intros m Hm. destruct (decide (m = sem)) as [->|]; [by rewrite lookup_insert_eq|by rewrite lookup_insert_ne]. }
  assert (kinv s2 a o e) as Hk.
  { constructor; [by destruct K1|done| |].
    - destruct K3 as [S1 S2]. constructor.
      + intros m d Hm. cbn in Hm. apply lookup_insert_Some in Hm as [[<- <-]|[_ Hm]]; cbn; [lia|by apply S1 in Hm].
      + cbn. eapply list.Forall_impl; [exact S2|]. intros [|m]; [done|apply Hmono].
    - by eapply konts_mono. }
  destruct (wakeup_kinv s2 a o e (sem_addr sem) Hk) as (s3 & E & [L1 L2 L3 L4] & Q & S3 & I3); [done|].
  rewrite (bind_ok _ _ _ _ _ E). erewrite bind_ok; [|reflexivity]. eexists. split; [reflexivity|].
  destruct Q as [Q1 Q2 Q3 Q4 Q5 Q6 Q7 Q8 Q9 Q10 Q11]. split_and!; try done.
  - constructor; [by destruct L1|done|by destruct L3|done].
  - constructor; try done. intros m Hm. apply Q11, Hmono, Hm.
Qed.

(** ** The idle loop *)
Lemma tick_run s a o e :
  kinv s a o e → 0 < curspl s →
  ∃ s1 a1, clock_tick s = Ok (tt, s1) ∧ kinv s1 a1 o e ∧ quiet s s1 ∧ irqs s1 = irqs s ∧
    a_zb a1 = a_zb a ∧ a_ids a1 = a_ids a.
Proof.
  intros [K1 K2 K3 K4] Hspl. unfold clock_tick. erewrite bind_ok; [|reflexivity]. case_if.
  - erewrite bind_ok; [|reflexivity]. set (s0 := with_clock 0 _ _ s).
    assert (kinv s0 a o e) as K0 by (constructor; [by destruct K1|done|by destruct K3|done]).
    destruct (wakeup_kinv s0 a o e lbolt K0 Hspl) as (s1 & E & L & Q & _ & I). eexists s1, _. split; [exact E|].
    split_and!; try done. destruct Q; by constructor.
  - eexists _, a. split; [reflexivity|]. split_and!; try done. constructor; [by destruct K1|done|by destruct K3|done].
Qed.

Lemma handler_run s a o e i :
  kinv s a o e → 0 < curspl s →
  match i with IrqV sem => ∃ c, sems s !! sem = Some c ∧ c + 1 + Z.of_nat (length (irqs s)) < 2 ^ 31 - 1 | IrqClock => True end →
  ∃ s' a', idle_handler i s = Ok (tt, s') ∧ kinv s' a' o e ∧ quiet s s' ∧ irqs s' = irqs s ∧
    a_zb a' = a_zb a ∧ a_ids a' = a_ids a.
Proof.
  intros K Hspl Hi. destruct i as [|sem]; cbn [idle_handler].
  - destruct (tick_run s a o e K Hspl) as (s1 & a1 & E1 & K1 & Q1 & I1 & Z1 & D1).
    rewrite (bind_ok _ _ _ _ _ E1). destruct K1 as [K1 K2 K3 K4]. destruct (kr_sl _ _ K1) as (arr & Harr & _).
    unfold splhigh. erewrite bind_ok; [|reflexivity].
    erewrite bind_ok; [|unfold assert_sleepers; rewrite bool_decide_true by (cbn; by rewrite Harr); reflexivity].
    erewrite bind_ok; [|by apply assert_spl_run]. erewrite bind_ok; [|reflexivity].
    eexists _, a1. split; [reflexivity|]. split_and!; try done.
    + constructor; [by destruct K1|done|by destruct K3|done].
    + by destruct Q1; constructor.
  - destruct Hi as (c & Hc & Hlt). destruct (V_run s a o e sem c K Hc Hlt) as (s' & E & K' & Q & _ & I).
    eexists s', _. split; [exact E|]. done.
Qed.

Lemma cpu_idle_run s a o e :
  kinv s a o e → 0 < curspl s →
  (irqs s = [] ∧ cpu_idle s = Spin) ∨
  ∃ s' a', cpu_idle s = Ok (tt, s') ∧ kinv s' a' o e ∧ quiet s s' ∧ irqs s' = tail (irqs s) ∧
    a_zb a' = a_zb a ∧ a_ids a' = a_ids a.
Proof.
  intros [K1 K2 K3 K4] Hspl. unfold cpu_idle. rewrite (bind_ok _ _ _ _ _ (assert_spl_run s Hspl)).
  destruct (irqs s) as [|i q] eqn:Ei; [left; split; [done|]; unfold mbind, M_bind, next_irq; by rewrite Ei|right].
  erewrite bind_ok; [|unfold next_irq; rewrite Ei; reflexivity].
  unfold mips_interrupt. erewrite bind_ok; [|reflexivity]. erewrite bind_ok; [|reflexivity].
  set (s1 := with_spl _ _ 1 _). destruct K3 as [S1 S2]. rewrite Ei in S1, S2. apply Forall_cons_1 in S2 as [Si S2].
  assert (kinv s1 a o e) as Hk1.
  { constructor; [by destruct K1|done| |done]. constructor; [|done]. intros sem c Hc. cbn in *. apply S1 in Hc. lia. }
  erewrite bind_ok; [|by apply assert_spl_run].
  destruct (handler_run s1 a o e i Hk1 Hspl) as (s2 & a2 & E2 & [L1 L2 L3 L4] & Q & I2 & Z2 & D2).
  { destruct i as [|sem]; [done|]. destruct Si as [c Hc]. exists c. split; [done|]. apply S1 in Hc. cbn in *. lia. }
  rewrite (bind_ok _ _ _ _ _ E2). eexists _, a2. split; [reflexivity|]. split_and!; try done.
  - constructor; [by destruct L1|done|by destruct L3|done].
  - destruct Q as [Q1 Q2 Q3 Q4 Q5 Q6 Q7 Q8 Q9 Q10 Q11]. by constructor.
Qed.

Lemma all_empty_run s a n i :
  krep s a → (i + n = 4)%nat → all_empty n (Z.of_nat i) s = Ok (bool_decide (concat (drop i (a_rq a)) = []), s).
Proof.
  intros H. revert i. induction n as [|n IH]; intros i Hi; cbn [all_empty].
  - by rewrite drop_ge by (rewrite (kr_four _ _ H); lia).
  - destruct (lookup_lt_is_Some_2 (a_rq a) i) as [l Hl]; [rewrite (kr_four _ _ H); lia|].
    destruct (getq_run s a i l H Hl) as (q & E & R & _). rewrite (bind_ok _ _ _ _ _ E).
    replace (Z.of_nat i + 1) with (Z.of_nat (S i)) by lia. rewrite (bind_ok _ _ _ _ _ (IH (S i) ltac:(lia))).
    rewrite (Queue.q_empty_nil _ _ R), (drop_S _ _ _ Hl). cbn [concat]. unfold mret, M_ret. f_equal. f_equal.
    destruct l; [by rewrite bool_decide_true|]. by rewrite !(bool_decide_false (_ :: _ = [])).
Qed.

Lemma idle_loop_run fuel s a o e :
  kinv s a o e → 0 < curspl s → (length (irqs s) < fuel)%nat →
  (idle_loop fuel s = Spin ∧ concat (a_rq a) = []) ∨
  ∃ s' a', idle_loop fuel s = Ok (tt, s') ∧ kinv s' a' o e ∧ quiet s s' ∧ a_zb a' = a_zb a ∧ a_ids a' = a_ids a ∧
    concat (a_rq a') ≠ [] ∧ (concat (a_rq a) ≠ [] → s' = s ∧ a' = a).
Proof.
  revert s a. induction fuel as [|fuel IH]; intros s a K Hspl Hf; [lia|]. cbn [idle_loop].
  rewrite (bind_ok _ _ _ _ _ (all_empty_run s a 4 0 (k_rep _ _ _ _ K) eq_refl)). rewrite drop_0.
  case_bool_decide as Hc; [|right; by exists s, a].
  destruct (cpu_idle_run s a o e K Hspl) as [[E1 E2]|(s1 & a1 & E & K1 & Q1 & I1 & Z1 & D1)].
  - left. unfold mbind, M_bind. by rewrite E2.
  - rewrite (bind_ok _ _ _ _ _ E). destruct (decide (irqs s = [])) as [Hn|Hn].
    { exfalso. unfold cpu_idle in E. rewrite (bind_ok _ _ _ _ _ (assert_spl_run s Hspl)) in E.
      unfold mbind, M_bind, next_irq in E. by rewrite Hn in E. }
    destruct (IH s1 a1 K1) as [[E3 E4]|(s2 & a2 & E3 & K3 & Q3 & Z3 & D3 & N3 & _)].
    + by rewrite (qu_spl _ _ Q1).
    + rewrite I1. destruct (irqs s); [done|cbn in *; lia].
    + by left.
    + right. exists s2, a2. split_and!; try done; [by etrans|congruence|congruence].
Qed.

(** ** Choosing a thread *)

(** [i] is the highest priority with a thread ready, [t] the first of its queue. *)
Definition chosen (r : list (list nat)) (i t : nat) (rest : list nat) : Prop :=
  r !! i = Some (t :: rest) ∧ ∀ j l, (i < j)%nat → r !! j = Some l → l = [].

Lemma pick_run s a n :
  krep s a → (n ≤ 3)%nat → (∀ j l, (n < j)%nat → a_rq a !! j = Some l → l = []) → concat (a_rq a) ≠ [] →
  ∃ i t rest, pick n s = Ok (Z.of_nat i, s) ∧ chosen (a_rq a) i t rest.
Proof.
  intros H. induction n as [|n IH]; intros Hn Hhi Hne; cbn [pick].
  - exists 0%nat. destruct (a_rq a) as [|l r] eqn:Er; [done|]. destruct l as [|t rest].
    + exfalso. apply Hne. cbn. assert (Forall (fun l => l = []) r) as Hall.
      { apply list.Forall_forall. intros l Hl. apply list_elem_of_lookup in Hl as [j Hj]. apply (Hhi (S j) l); [lia|done]. }
      clear -Hall. induction Hall as [|? ? -> _ IH]; [done|exact IH].
    + exists t, rest. done.
  - destruct (lookup_lt_is_Some_2 (a_rq a) (S n)) as [l Hl]; [rewrite (kr_four _ _ H); lia|].
    destruct (getq_run s a _ l H Hl) as (q & E & R & _). rewrite (bind_ok _ _ _ _ _ E), (Queue.q_empty_nil _ _ R).
    case_bool_decide as Hb; cbn [negb].
    + subst l. apply IH; [lia| |done]. intros j l Hj Hl'. destruct (decide (j = S n)) as [->|]; [congruence|].
      apply (Hhi j l); [lia|done].
    + destruct l as [|t rest]; [done|]. exists (S n), t, rest. done.
Qed.

Lemma tinv_upd th nx a o t x y :
  tinv th nx a o → th !! t = Some x → id y = id x → thread_ok y →
  (∀ i l, a_rq a !! i = Some l → t ∈ l → priority y = Z.of_nat i) →
  (t ∈ a_zb a → t_vmspace y = None ∧ t_cwd y = None ∧ no_files y) → tinv (<[t := y]> th) nx a o.
Proof.
  intros [T1 T2 T3 T4 T5 T6 T7] Hx Hid Hok Hpr Hz. constructor; try done.
  - intros u. rewrite <- T2. destruct (decide (u = t)) as [->|]; [by rewrite lookup_insert_eq, Hx|by rewrite lookup_insert_ne].
  - intros u z. rewrite lookup_insert_Some. intros [[<- <-]|[_ Hu]]; eauto.
  - intros i l u z Hi Hu. rewrite lookup_insert_Some. intros [[<- <-]|[_ Hz']]; eauto.
  - intros u z Hu. rewrite lookup_insert_Some. intros [[<- <-]|[_ Hz']]; eauto.
  - unfold pids in *. replace (omap _ (members a o)) with (omap (fun u => th !! u ≫= id) (members a o)); [done|].
    apply list_omap_ext, Forall2_same_length_lookup_2; [done|]. intros i u v Hu Hv. assert (u = v) as -> by congruence.
    destruct (decide (v = t)) as [->|]; [by rewrite lookup_insert_eq, Hx; cbn|by rewrite lookup_insert_ne].
  - intros u Hu. rewrite lookup_insert_None. split; [auto|]. intros ->. apply T7 in Hu. congruence.
Qed.

Lemma konts_upd th sm zb e t x y :
  konts th sm zb e → th !! t = Some x → (kont_ok sm x → kont_ok sm y) → konts (<[t := y]> th) sm zb e.
Proof.
  intros H Hx Hk u z. rewrite lookup_insert_Some. intros [[<- <-]|[_ Hz]] Hu He; [|by apply (H u)].
  apply Hk. by apply (H t).
Qed.

(** Taking the head of queue [i] out of its queue: it is the running thread now. *)
Lemma tinv_pick th nx a i t rest :
  tinv th nx a None → a_rq a !! i = Some (t :: rest) → tinv th nx (set_rq (<[i := rest]> (a_rq a)) a) (Some t).
Proof.
  intros T Hi. eapply (tinv_perm th nx a); try done.
  - assert (concat (a_rq a) ≡ₚ t :: concat (<[i := rest]> (a_rq a))) as Hp.
    { apply (Permutation_app_inv_r rest). rewrite <- (concat_insert (a_rq a) i (t :: rest) rest Hi). cbn.
      by rewrite <- Permutation_middle. }
    unfold members. cbn. by rewrite Hp.
  - intros j l u x Hj Hu Hx. destruct (decide (j = i)) as [->|Hne].
    + cbn in Hj. rewrite list_lookup_insert_eq in Hj by (by eapply lookup_lt_Some). simplify_eq.
      eapply (ti_prio _ _ _ _ T); [exact Hi| |done]. by right.
    + cbn in Hj. rewrite list_lookup_insert_ne in Hj by done. by eapply (ti_prio _ _ _ _ T).
Qed.

(** What a run of the scheduler leaves alone. *)
Record sched_frame (s s' : kstate) : Prop := {
  sf_next : tnext s' = tnext s;
  sf_cur : curthread s' = curthread s;
  sf_num : numthreads s' = numthreads s;
  sf_spl : curspl s' = curspl s;
  sf_int : in_interrupt s' = in_interrupt s;
  sf_sems : ∀ sem, is_Some (sems s !! sem) → is_Some (sems s' !! sem)
}.

(** The scheduler takes the first thread of the highest non-empty queue and lowers its
    priority; it waits for interrupts only when no thread is ready. *)
Lemma scheduler_run s a e :
  kinv s a None e → 0 < curspl s →
  (scheduler s = Spin ∧ concat (a_rq a) = []) ∨
  ∃ s' a1 i t x rest, scheduler s = Ok (t, s') ∧ chosen (a_rq a1) i t rest ∧ (concat (a_rq a) ≠ [] → a1 = a) ∧
    kinv s' (set_rq (<[i := rest]> (a_rq a1)) a1) (Some t) e ∧ a_zb a1 = a_zb a ∧ a_ids a1 = a_ids a ∧
    sched_frame s s' ∧ threads s !! t = Some x ∧ priority x = Z.of_nat i ∧
    threads s' = <[t := set_priority (Z.max 0 (priority x - 1)) x]> (threads s).
Proof.
  intros K Hspl. unfold scheduler. rewrite (bind_ok _ _ _ _ _ (assert_spl_run s Hspl)).
  erewrite bind_ok; [|reflexivity].
  destruct (idle_loop_run (S (length (irqs s))) s a None e K Hspl) as [[E Hn]|(s1 & a1 & E & K1 & Q1 & Z1 & D1 & N1 & Hsame)];
    [lia|left; split; [|done]; unfold mbind, M_bind; by rewrite E|right].
  rewrite (bind_ok _ _ _ _ _ E). destruct K1 as [R1 T1 S1 C1].
  destruct (pick_run s1 a1 3 R1) as (i & t & rest & E2 & Hch); [lia| |done|].
  { intros j l Hj Hl. apply lookup_lt_Some in Hl. rewrite (kr_four _ _ R1) in Hl. lia. }
  rewrite (bind_ok _ _ _ _ _ E2). destruct Hch as [Hi Hhi].
  destruct (getq_run s1 a1 i _ R1 Hi) as (q & E3 & Rq & Hs). rewrite (bind_ok _ _ _ _ _ E3).
  destruct (Queue.remhead_run q _ Rq) as (q' & E4 & Rq' & Hs'). rewrite (bind_ok _ _ _ _ _ (klift_run _ _ s1 E4)).
  destruct (setq_rep s1 a1 i q' rest R1 Rq') as [E5 R5]; [lia|]. rewrite (bind_ok _ _ _ _ _ E5).
  pose proof (tinv_pick _ _ _ _ _ _ T1 Hi) as T5. set (s5 := with_rq _ s1) in *. set (a5 := set_rq _ a1) in *.
  assert (t ∈ members a5 (Some t)) as Ht by (by left). apply (ti_dom _ _ _ _ T5) in Ht as [x Hx].
  pose proof (ti_prio _ _ _ _ T1 i _ t x Hi ltac:(by left) Hx) as Hpr.
  pose proof (ti_ok _ _ _ _ T5 t x Hx) as Hok. pose proof (to_prio _ Hok) as Hp.
  rewrite (bind_ok _ _ _ _ _ (gett_run s5 t x Hx)). set (y := set_priority (Z.max 0 (priority x - 1)) x).
  assert ((if priority x >? 0 then updt t (set_priority (priority x - 1)) else mret tt) s5 =
    Ok (tt, with_threads (<[t := y]> (threads s5)) (tnext s5) s5)) as E6.
  { destruct (Z.gtb_spec (priority x) 0).
    - rewrite (updt_run s5 t _ x Hx). unfold y. by replace (Z.max 0 (priority x - 1)) with (priority x - 1) by lia.
    - unfold y. replace (Z.max 0 (priority x - 1)) with (priority x) by lia.
      replace (set_priority (priority x) x) with x by (by destruct x). rewrite insert_id by done. by destruct s5. }
  rewrite (bind_ok _ _ _ _ _ E6). eexists _, a1, i, t, x, rest. split; [reflexivity|]. split; [done|].
  split; [intros Hne; by apply Hsame|]. assert (threads s5 = threads s) as Eth by apply (qu_threads _ _ Q1).
  assert (t ∉ concat (a_rq a5) ++ a_sl a5 ++ a_zb a5) as Hout.
  { pose proof (ti_nodup _ _ _ _ T5) as Hnd. by apply list.NoDup_cons in Hnd as [? _]. }
  split; [|rewrite <- Eth; destruct Q1; by split_and!].
  constructor; [by destruct R5| |by destruct S1|].
  - eapply tinv_upd; try done.
    + destruct Hok. constructor; try done. cbn. unfold NUM_PRIORITIES in *. lia.
    + intros j l Hj Hl. exfalso. apply Hout, elem_of_app. left. apply list_elem_of_In, in_concat. exists l.
      split; apply list_elem_of_In; [by apply list_elem_of_lookup_2 in Hj|done].
    + intros Hz. exfalso. apply Hout. rewrite !elem_of_app. by right; right.
  - eapply konts_upd; [exact C1|done|]. by destruct x.
Qed.

End Threadsafe.
