(* ===== verification/Threadswitch.v ===== *)
(** * The thread system: context switches, and the machine they make

    [mi_switch] keeps the invariant of Threadsafe.v: the old thread goes on the list of
    its next state and its switch frame says where it goes on; the new one is the choice of
    the scheduler.  [resume] keeps it too, with the zombies buried.  The machine [step]
    interleaves the operations of the threads and the switches between them; [reach_safe]
    is that no interleaving stops the kernel as long as memory lasts. *)
From stdpp Require Import base list list_numbers gmap numbers.
From S2P Require Import Prelude Array Queue Filetable Scheduler Thread Threadsafe.
Local Open Scope Z_scope.

Module Threadswitch.
Import Filetable Scheduler Thread Threadsafe.

(** ** Stashing the old thread *)
Definition put_on (st : threadstate_t) (c p : nat) (a : astate) : astate :=
  match st with
  | S_READY => enq c p a
  | S_SLEEP => mkA (a_rq a) (a_sl a ++ [c]) (a_zb a) (a_ids a)
  | _ => mkA (a_rq a) (a_sl a) (a_zb a ++ [c]) (a_ids a)
  end.

Lemma cur_out th nx a c : tinv th nx a (Some c) → c ∉ concat (a_rq a) ++ a_sl a ++ a_zb a.
Proof. intros T. pose proof (ti_nodup _ _ _ _ T) as Hnd. by apply list.NoDup_cons in Hnd as [? _]. Qed.

Lemma in_queue (r : list (list nat)) i l t : r !! i = Some l → t ∈ l → t ∈ concat r.
Proof.
  intros Hi Ht. apply list_elem_of_In, in_concat. exists l.
  split; apply list_elem_of_In; [by apply list_elem_of_lookup_2 in Hi|done].
Qed.

Lemma put_on_members st c p a l :
  st ≠ S_RUN → a_rq a !! p = Some l → members (put_on st c p a) None ≡ₚ members a (Some c).
Proof.
  intros Hst Hl. destruct st; [done|by rewrite (enq_members _ _ _ _ l)|..]; unfold members; cbn.
  - rewrite <- app_assoc. cbn. rewrite app_assoc, app_assoc. rewrite <- Permutation_middle. by rewrite <- app_assoc.
  - rewrite !app_assoc. by rewrite <- Permutation_cons_append.
Qed.

Lemma tinv_put_on st th nx a c x :
  tinv th nx a (Some c) → th !! c = Some x → length (a_rq a) = 4%nat → st ≠ S_RUN →
  (st = S_ZOMB → t_vmspace x = None ∧ t_cwd x = None ∧ no_files x) →
  tinv th nx (put_on st c (Z.to_nat (priority x)) a) None.
Proof.
  intros T Hx H4 Hst Hz. pose proof (to_prio _ (ti_ok _ _ _ _ T c x Hx)) as Hp. unfold NUM_PRIORITIES in Hp.
  destruct (lookup_lt_is_Some_2 (a_rq a) (Z.to_nat (priority x))) as [l Hl]; [lia|].
  pose proof (put_on_members st c _ a l Hst Hl) as Hm. destruct T as [T1 T2 T3 T4 T5 T6 T7]. constructor; try done.
  - by rewrite Hm.
  - intros t. by rewrite T2, Hm.
  - intros i l' t y Hi Ht Hy. destruct st; try by eapply T4.
    apply enq_lookup in Hi as (l0 & Hl0 & [->|[-> ->]]); [by eapply T4|].
    apply elem_of_app in Ht as [Ht|Ht]; [by eapply T4|]. apply list_elem_of_singleton in Ht as ->.
    assert (y = x) as -> by congruence. lia.
  - intros t y Ht Hy. destruct st; cbn in Ht; try by apply (T5 t).
    apply elem_of_app in Ht as [Ht|Ht]; [by apply (T5 t)|]. apply list_elem_of_singleton in Ht as ->.
    assert (y = x) as -> by congruence. by apply Hz.
  - unfold pids. rewrite Hm. destruct st; done.
Qed.

Lemma list_len th nx a o l :
  tinv th nx a o → (l = a_sl a ∨ l = a_zb a) → Z.of_nat (length l) < 2 ^ 29 - 2.
Proof.
  intros T Hl. pose proof (members_le _ _ _ _ T) as H. unfold members in H. rewrite !length_app in H.
  destruct Hl as [->| ->]; lia.
Qed.

Lemma stash_run st s a c x :
  kinv s a (Some c) (Some c) → 0 < curspl s → threads s !! c = Some x → st ≠ S_RUN →
  (st = S_ZOMB → t_vmspace x = None ∧ t_cwd x = None ∧ no_files x) →
  ∃ s', stash st c s = Ok (0, s') ∧ kinv s' (put_on st c (Z.to_nat (priority x)) a) None (Some c) ∧
    sched_frame s s' ∧ threads s' = threads s.
Proof.
  intros [R T S C] Hspl Hx Hst Hz. pose proof (tinv_put_on st _ _ a c x T Hx (kr_four _ _ R) Hst Hz) as T'.
  destruct st; [done|..].
  - pose proof (to_prio _ (ti_ok _ _ _ _ T c x Hx)) as Hp. unfold NUM_PRIORITIES in Hp.
    destruct (lookup_lt_is_Some_2 (a_rq a) (Z.to_nat (priority x))) as [l Hl]; [rewrite (kr_four _ _ R); lia|].
    destruct (make_runnable_run s a c x l R Hspl Hx Hl) as (rq & E & R'); [lia|exact (queue_le _ _ _ _ _ _ T Hl)|].
    eexists. split; [exact E|]. split; [|done]. constructor; try done. by destruct S.
  - destruct (kr_sl _ _ R) as (arr & Harr & Rarr). cbn [stash].
    rewrite (bind_ok _ _ _ _ _ (getlist_run sleepers s arr Harr)), (bind_ok _ _ _ _ _ (kmalloc_run s (kr_mem _ _ R))).
    destruct (Array.array_add_appends arr _ c true Rarr) as (arr' & E & R'); [by eapply (list_len _ _ _ _ _ T); auto|by left|].
    rewrite (bind_ok _ _ _ _ _ (klift_run _ _ s E)). erewrite bind_ok; [|reflexivity]. eexists. split; [reflexivity|].
    split; [|done]. constructor; try done; [|by destruct S]. destruct R; constructor; try done. by exists arr'.
  - destruct (kr_zb _ _ R) as (arr & Harr & Rarr). cbn [stash]. erewrite bind_ok; [|reflexivity].
    rewrite (bind_ok _ _ _ _ _ (getlist_run zombies s arr Harr)), (bind_ok _ _ _ _ _ (kmalloc_run s (kr_mem _ _ R))).
    destruct (Array.array_add_appends arr _ c true Rarr) as (arr' & E & R'); [by eapply (list_len _ _ _ _ _ T); auto|by left|].
    rewrite (bind_ok _ _ _ _ _ (klift_run _ _ s E)). erewrite bind_ok; [|reflexivity]. eexists. split; [reflexivity|].
    split; [|done]. constructor; try done; [|by destruct S|].
    + destruct R; constructor; try done. by exists arr'.
    + intros t y Hy Ht. apply C; [done|]. intros Hin. apply Ht. cbn. apply elem_of_app. by left.
Qed.

(** ** Switching *)

(** Process ids are held by the live threads and the zombies. *)
Definition counted (s : kstate) (a : astate) : Prop :=
  numthreads s + Z.of_nat (length (a_zb a)) + Z.of_nat (length (a_ids a)) = 100.

(** The processor has just been given to [t]; every thread's frame is in order. *)
Record switching (s : kstate) (a : astate) (t : nat) : Prop := {
  sw_kinv : kinv s a (Some t) None;
  sw_cur : curthread s = Some t;
  sw_spl : 0 < curspl s;
  sw_int : ∀ x, threads s !! t = Some x → in_interrupt s = pcb_ininterrupt x;
  sw_count : counted s a
}.

(** [c] is running its own code. *)
Record running (s : kstate) (a : astate) (c : nat) : Prop := {
  rn_kinv : kinv s a (Some c) (Some c);
  rn_cur : curthread s = Some c;
  rn_count : counted s a
}.

Lemma check_stack_run x (s : kstate) : thread_ok x → check_stack x s = Ok (tt, s).
Proof. intros [_ H _ _]. unfold check_stack. destruct (t_stack x); [|done]. by rewrite H. Qed.

(** Saving the frame of [c] completes the set of frames. *)
Lemma save_frame s a o c y k i :
  kinv s a o (Some c) → threads s !! c = Some y → (c ∉ a_zb a → kont_ok (sems s) (set_pcb k i y)) →
  kinv (with_threads (<[c := set_pcb k i y]> (threads s)) (tnext s) s) a o None.
Proof.
  intros [R T S C] Hy Hk. constructor; [by destruct R| |by destruct S|].
  - eapply tinv_upd; try done.
    + by destruct (ti_ok _ _ _ _ T c y Hy).
    + intros j l Hj Hl. by apply (ti_prio _ _ _ _ T j l c y).
    + intros Hz. by apply (ti_zomb _ _ _ _ T c y).
  - intros u z. cbn. rewrite lookup_insert_Some. intros [[<- <-]|[Hne Hz]] Hu _; [by apply Hk|].
    apply (C u z Hz Hu). congruence.
Qed.

Lemma mi_switch_run st k s a c x :
  kinv s a (Some c) (Some c) → curthread s = Some c → 0 < curspl s → threads s !! c = Some x → st ≠ S_RUN →
  (st = S_ZOMB → t_vmspace x = None ∧ t_cwd x = None ∧ no_files x) →
  (st ≠ S_ZOMB → kont_ok (sems s) (set_pcb k (in_interrupt s) x)) →
  counted s (put_on st c (Z.to_nat (priority x)) a) →
  mi_switch st k s = Spin ∨ ∃ s' a' t, mi_switch st k s = Ok (true, s') ∧ switching s' a' t.
Proof.
  intros K Hcur Hspl Hx Hst Hz Hk Hcnt. unfold mi_switch. rewrite (bind_ok _ _ _ _ _ (assert_spl_run s Hspl)).
  erewrite bind_ok; [|reflexivity]. rewrite Hcur. rewrite (bind_ok _ _ _ _ _ (gett_run s c x Hx)).
  pose proof (ti_ok _ _ _ _ (k_tinv _ _ _ _ K) c x Hx) as Hok. rewrite (bind_ok _ _ _ _ _ (check_stack_run x s Hok)).
  erewrite bind_ok; [|reflexivity]. set (s1 := with_cur None s).
  assert (kinv s1 a (Some c) (Some c)) as K1 by (destruct K as [[] ? [] ?]; constructor; done).
  destruct (stash_run st s1 a c x K1 Hspl Hx Hst Hz) as (s2 & E2 & K2 & F2 & Eth2). rewrite (bind_ok _ _ _ _ _ E2).
  erewrite bind_ok; [|reflexivity].
  destruct (scheduler_run s2 _ (Some c) K2) as
    [[E3 _]|(s3 & a3 & i & t & z & rest & E3 & [Hi _] & _ & K3 & Z3 & D3 & F3 & Hz3 & _ & Eth3)];
    [by rewrite (sf_spl _ _ F2)|left; unfold mbind, M_bind; by rewrite E3|right].
  rewrite (bind_ok _ _ _ _ _ E3). erewrite bind_ok; [|reflexivity]. set (a4 := set_rq _ a3) in *.
  set (s4 := with_cur (Some t) s3). rewrite Eth2 in Eth3, Hz3. change (threads s1) with (threads s) in *.
  assert (∃ y, threads s4 !! c = Some y ∧ (∀ j, kont_ok (sems s) (set_pcb k j x) → kont_ok (sems s4) (set_pcb k j y)))
    as (y & Hy & Hyk).
  { change (threads s4) with (threads s3). rewrite Eth3.
    assert (∀ sem, is_Some (sems s !! sem) → is_Some (sems s4 !! sem)) as Hsem.
    { intros sem Hs. apply (sf_sems _ _ F3), (sf_sems _ _ F2), Hs. }
    assert (∀ w j, kont_ok (sems s) (set_pcb k j x) → kont_ok (sems s4) (set_pcb k j w)) as Hw.
    { intros w j. unfold kont_ok. cbn. destruct k as [| | |kk|]; try done. intros [? Hkk]. split; [done|].
      destruct kk; try done. by apply Hsem. }
    destruct (decide (t = c)) as [->|]; [rewrite lookup_insert_eq|rewrite lookup_insert_ne by done]; eauto. }
  assert (kinv s4 a4 (Some t) (Some c)) as K4 by (destruct K3 as [[] ? [] ?]; constructor; done).
  assert (in_interrupt s4 = in_interrupt s) as Ei by exact (eq_trans (sf_int _ _ F3) (sf_int _ _ F2)).
  pose proof (save_frame s4 a4 (Some t) c y k (in_interrupt s4) K4 Hy) as K5.
  assert (kinv (with_threads (<[c := set_pcb k (in_interrupt s4) y]> (threads s4)) (tnext s4) s4) a4 (Some t) None) as K5'.
  { apply K5. intros Hnz. apply Hyk. rewrite Ei. apply Hk. intros ->. apply Hnz. cbn. rewrite Z3. cbn.
    apply elem_of_app. right. by left. }
  clear K5. set (s5 := with_threads _ _ s4) in *. unfold md_switch.
  assert (is_Some (threads s5 !! t)) as [w Hw] by (apply (ti_dom _ _ _ _ (k_tinv _ _ _ _ K5')); by left).
  erewrite bind_ok; [|erewrite bind_ok; [|reflexivity]; rewrite (bind_ok _ _ _ _ _ (updt_run s4 c _ y Hy));
    fold s5; rewrite (bind_ok _ _ _ _ _ (gett_run s5 t w Hw)); reflexivity].
  eexists _, a4, t. split; [reflexivity|]. destruct K5' as [[] ? [] ?]. constructor; [by constructor|done| | |].
  - cbn. by rewrite (sf_spl _ _ F3), (sf_spl _ _ F2).
  - intros w' Hw'. change (threads s5 !! t = Some w') in Hw'. assert (w' = w) as -> by congruence. done.
  - unfold counted in *. cbn. rewrite (sf_num _ _ F3), (sf_num _ _ F2), Z3, D3. done.
Qed.

(** ** Burying the dead *)
Lemma tinv_bury th nx rq sl z rest ids o x pid :
  tinv th nx (mkA rq sl (z :: rest) ids) o → th !! z = Some x → id x = Some pid →
  tinv (delete z th) nx (mkA rq sl rest (ids ++ [pid])) o.
Proof.
  intros [T1 T2 T3 T4 T5 T6 T7] Hx Hpid.
  assert (members (mkA rq sl (z :: rest) ids) o ≡ₚ z :: members (mkA rq sl rest (ids ++ [pid])) o) as Hm.
  { unfold members. cbn. rewrite !app_assoc. by rewrite <- Permutation_middle. }
  assert (∀ t, t ∈ members (mkA rq sl rest (ids ++ [pid])) o → t ≠ z) as Hne.
  { rewrite Hm in T1. apply list.NoDup_cons in T1 as [T1 _]. intros t Ht ->. done. }
  constructor.
  - rewrite Hm in T1. by apply list.NoDup_cons in T1 as [_ T1].
  - intros t. split.
    + intros [y Hy]. apply lookup_delete_Some in Hy as [Hn Hy]. assert (t ∈ members (mkA rq sl (z :: rest) ids) o) as Ht by (apply T2; eauto).
      rewrite Hm in Ht. by apply elem_of_cons in Ht as [->|].
    + intros Ht. rewrite lookup_delete_ne by (apply not_eq_sym; by apply Hne). apply T2. rewrite Hm. by right.
  - intros t y. rewrite lookup_delete_Some. intros [_ Hy]. eauto.
  - intros i l t y Hi Ht. rewrite lookup_delete_Some. intros [_ Hy]. eauto.
  - intros t y Ht. rewrite lookup_delete_Some. intros [_ Hy]. eapply T5; [|done]. by right.
  - rewrite <- T6. cbn. rewrite <- app_assoc. apply Permutation_app_head.
    transitivity (pids th (z :: members (mkA rq sl rest (ids ++ [pid])) o)).
    + unfold pids at 2. cbn. rewrite Hx. cbn. rewrite Hpid. cbn. apply Permutation_skip. unfold pids.
      erewrite list_omap_ext; [done|]. apply Forall2_same_length_lookup_2; [done|]. intros i u v Hu Hv.
      assert (u = v) as -> by congruence. rewrite lookup_delete_ne; [done|].
      apply not_eq_sym, Hne. by eapply list_elem_of_lookup_2.
    + unfold pids. by rewrite Hm.
  - intros t Ht. rewrite lookup_delete_None. auto.
Qed.

Lemma bury_run s rq sl z rest ids o c :
  tinv (threads s) (tnext s) (mkA rq sl (z :: rest) ids) o → holds (process_ids s) ids → fmem (files s) = [] →
  curthread s = Some c → o = Some c →
  ∃ q pid, thread_destroy z s = Ok (tt, with_threads (delete z (threads s)) (tnext s) (with_ids (Some q) (numthreads s) s)) ∧
    (threads s !! z ≫= id) = Some pid ∧ holds (Some q) (ids ++ [pid]) ∧
    tinv (delete z (threads s)) (tnext s) (mkA rq sl rest (ids ++ [pid])) o.
Proof.
  intros T (q & Hq & Rq & Hsz) Hmem Hcur ->.
  assert (z ∈ members (mkA rq sl (z :: rest) ids) (Some c)) as Hz.
  { unfold members. cbn. rewrite !elem_of_cons, !elem_of_app, elem_of_cons. tauto. }
  apply (ti_dom _ _ _ _ T) in Hz as [x Hx]. destruct (ti_ok _ _ _ _ T z x Hx) as [_ _ _ [pid Hpid]].
  destruct (ti_zomb _ _ _ _ T z x) as (Hv & Hc & f & Hf & Rf); [by left|done|].
  unfold thread_destroy. erewrite bind_ok; [|reflexivity]. rewrite Hcur.
  erewrite bind_ok; [|unfold massert; rewrite bool_decide_true; [reflexivity|]].
  2: { intros [= ->]. apply (cur_out _ _ _ _ T). cbn. rewrite !elem_of_app, elem_of_cons. tauto. }
  rewrite (bind_ok _ _ _ _ _ (gett_run s z x Hx)). erewrite bind_ok; [|unfold getids; rewrite Hq; reflexivity].
  erewrite bind_ok; [|apply klift_run; rewrite Hpid; reflexivity]. rewrite (bind_ok _ _ _ _ _ (kmalloc_run s Hmem)).
  pose proof (members_le _ _ _ _ T) as Hle. cbn [a_ids] in Hle.
  destruct (Queue.addtail_run true q ids pid Rq) as (q' & E & Rq' & Hsz'); [lia|by left|].
  rewrite (bind_ok _ _ _ _ _ (klift_run _ _ s E)). erewrite bind_ok; [|reflexivity].
  erewrite bind_ok; [|unfold kfiles, zoom; rewrite Hf, (destroy_run f [] _ Rf) by constructor; cbn; reflexivity].
  rewrite Hv, Hc. erewrite bind_ok; [|reflexivity]. erewrite bind_ok; [|reflexivity].
  exists q', pid. split; [by destruct s|]. split; [by rewrite Hx|]. split; [exists q'; split_and!; [done|done|lia]|].
  by eapply tinv_bury.
Qed.

Lemma exorcise_loop_run arr pre rest s rq sl ids c :
  Array.array_rep arr (pre ++ rest) → tinv (threads s) (tnext s) (mkA rq sl rest ids) (Some c) →
  holds (process_ids s) ids → fmem (files s) = [] → curthread s = Some c →
  ∃ oq th, let ids' := ids ++ pids (threads s) rest in
    exorcise_loop (length rest) (Z.of_nat (length pre)) arr s =
      Ok (tt, with_threads th (tnext s) (with_ids oq (numthreads s) s)) ∧
    tinv th (tnext s) (mkA rq sl [] ids') (Some c) ∧ holds oq ids' ∧ th ⊆ threads s.
Proof.
  intros Harr. revert pre s ids Harr. induction rest as [|z rest IH]; intros pre s ids Harr T Hq Hmem Hcur.
  - exists (process_ids s), (threads s). cbn. rewrite app_nil_r. by destruct s.
  - destruct (bury_run s rq sl z rest ids _ c T Hq Hmem Hcur eq_refl) as (q & pid & E & Hp & Hq' & T').
    cbn [length exorcise_loop].
    erewrite bind_ok; [|apply klift_run; rewrite (Array.array_getguy_rep _ _ (length pre) Harr), list_lookup_middle; done].
    erewrite bind_ok; [|reflexivity]. erewrite bind_ok; [|unfold massert; rewrite bool_decide_true; [reflexivity|]].
    2: { rewrite Hcur. intros [= ->]. apply (cur_out _ _ _ _ T). cbn. rewrite !elem_of_app, elem_of_cons. tauto. }
    rewrite (bind_ok _ _ _ _ _ E). replace (Z.of_nat (length pre) + 1) with (Z.of_nat (length (pre ++ [z]))) by len.
    set (s1 := with_threads _ _ _) in *.
    destruct (IH (pre ++ [z]) s1 (ids ++ [pid])) as (oq & th & E2 & T2 & Hq2 & Hsub); try done.
    { by rewrite <- app_assoc. }
    assert (pids (delete z (threads s)) rest = pids (threads s) rest) as Epids.
    { unfold pids. apply list_omap_ext, Forall2_same_length_lookup_2; [done|]. intros i u v Hu Hv.
      assert (u = v) as -> by congruence. rewrite lookup_delete_ne; [done|]. intros ->.
      assert (v ∈ members (mkA rq sl rest (ids ++ [pid])) (Some c)) as Hin.
      { unfold members. cbn. apply list_elem_of_lookup_2 in Hu. rewrite elem_of_cons, !elem_of_app. tauto. }
      apply (ti_dom _ _ _ _ T') in Hin. rewrite lookup_delete_eq in Hin. by destruct Hin. }
    exists oq, th. change (threads s1) with (delete z (threads s)) in *. rewrite Epids, <- app_assoc in *.
    cbn. rewrite Hp. cbn. split_and!; try done. etrans; [done|apply delete_subseteq].
Qed.

(** Afterwards nobody is a zombie, and the ids of the dead are free again. *)
Lemma exorcise_run s a c e :
  kinv s a (Some c) e → curthread s = Some c → 0 < curspl s → counted s a →
  ∃ s', exorcise s = Ok (tt, s') ∧ kinv s' (mkA (a_rq a) (a_sl a) [] (a_ids a ++ pids (threads s) (a_zb a))) (Some c) e ∧
    curthread s' = Some c ∧ curspl s' = curspl s ∧ in_interrupt s' = in_interrupt s ∧ sems s' = sems s ∧
    counted s' (mkA (a_rq a) (a_sl a) [] (a_ids a ++ pids (threads s) (a_zb a))) ∧ threads s' !! c = threads s !! c.
Proof.
  intros [R T S C] Hcur Hspl Hcnt. unfold exorcise. rewrite (bind_ok _ _ _ _ _ (assert_spl_run s Hspl)).
  destruct (kr_zb _ _ R) as (arr & Harr & Rarr). rewrite (bind_ok _ _ _ _ _ (getlist_run zombies s arr Harr)).
  unfold Array.array_getnum. rewrite (Array.array_rep_len _ _ Rarr), Nat2Z.id.
  destruct (exorcise_loop_run arr [] (a_zb a) s (a_rq a) (a_sl a) (a_ids a) c Rarr) as (oq & th & E & T' & Hq & Hsub).
  { by destruct a. } { by apply R. } { by apply R. } { done. }
  change (Z.of_nat (length (@nil nat))) with 0 in E. rewrite (bind_ok _ _ _ _ _ E).
  destruct (Array.array_setsize_shrinks arr (a_zb a) 0 true Rarr) as (arr' & E2 & R2); [lia|].
  change (Z.of_nat 0) with 0 in E2. rewrite (bind_ok _ _ _ _ _ (klift_run _ _ _ E2)).
  erewrite bind_ok; [|reflexivity]. eexists. split; [reflexivity|]. split_and!; try done.
  - constructor; [|done|by destruct S|].
    + destruct R. constructor; try done. by exists arr'.
    + intros u x Hx _ He. apply (C u x); [by eapply lookup_weaken| |done]. intros Hz.
      pose proof (ti_nodup _ _ _ _ T) as Hnd. assert (u ∈ members (mkA (a_rq a) (a_sl a) [] (a_ids a ++ pids (threads s) (a_zb a))) (Some c)) as Hu.
      { apply (ti_dom _ _ _ _ T'). by exists x. }
      unfold members in Hnd, Hu. cbn in Hu. rewrite app_nil_r in Hu. cbn in Hnd.
      rewrite app_assoc, app_comm_cons in Hnd. apply list.NoDup_app in Hnd as (_ & Hd & _). by apply (Hd u).
  - unfold counted in *. cbn. rewrite length_app.
    pose proof (members_le _ _ _ _ T) as L1. pose proof (members_le _ _ _ _ T') as L2. unfold members in L1, L2.
    cbn in L1, L2. rewrite ?app_nil_r, !length_app in L1, L2. cbn in L1, L2. rewrite ?length_app in L2. cbn in L2. lia.
  - cbn. assert (c ∈ members (mkA (a_rq a) (a_sl a) [] (a_ids a ++ pids (threads s) (a_zb a))) (Some c)) as Hc by (by left).
    apply (ti_dom _ _ _ _ T') in Hc as [x Hx]. rewrite Hx. symmetry. by eapply lookup_weaken.
Qed.

(** ** The operations of a running thread *)

(** The outcome of an operation: it waits for ever for an interrupt, or the processor
    is in another thread, or the thread goes on. *)
Definition safe (o : outcome (bool * kstate)) : Prop :=
  o = Spin ∨ (∃ s a t, o = Ok (true, s) ∧ switching s a t) ∨ (∃ s a c, o = Ok (false, s) ∧ running s a c).

Lemma switch_safe st k s a c x :
  running s a c → 0 < curspl s → threads s !! c = Some x → st = S_READY ∨ st = S_SLEEP →
  kont_ok (sems s) (set_pcb k (in_interrupt s) x) → safe (mi_switch st k s).
Proof.
  intros [K Hc Hn] Hspl Hx Hst Hk. destruct (mi_switch_run st k s a c x) as [?|(s' & a' & t & ? & ?)]; try done.
  - by destruct Hst as [->| ->].
  - by destruct Hst as [->| ->].
  - by destruct Hst as [->| ->].
  - by left.
  - right; left. by exists s', a', t.
Qed.

(** Changing the interrupt level keeps everything. *)
Lemma kinv_spl s a o e n i j : kinv s a o e → kinv (with_spl n i j s) a o e.
Proof. intros [[] ? [] ?]. by constructor. Qed.

Lemma running_spl s a c n i : running s a c → running (with_spl n i (in_interrupt s) s) a c.
Proof. intros [K ? ?]. constructor; [by apply kinv_spl|done|done]. Qed.

Lemma cur_thread s a c : running s a c → ∃ x, threads s !! c = Some x.
Proof. intros [K _ _]. apply (ti_dom _ _ _ _ (k_tinv _ _ _ _ K)). by left. Qed.

Lemma assert_sleepers_run s a : krep s a → assert_sleepers s = Ok (tt, s).
Proof. intros R. destruct (kr_sl _ _ R) as (arr & H & _). unfold assert_sleepers. by rewrite bool_decide_true by (by rewrite H). Qed.

(** Writing to fields of the current thread. *)
Lemma running_upd s a c x y :
  running s a c → threads s !! c = Some x → id y = id x → thread_ok y →
  running (with_threads (<[c := y]> (threads s)) (tnext s) s) a c.
Proof.
  intros [[R T S C] Hc Hn] Hx Hid Hok. constructor; [|done|done]. constructor; [by destruct R| |by destruct S|].
  - pose proof (cur_out _ _ _ _ T) as Hout. eapply tinv_upd; try done.
    + intros i l Hi Hl. exfalso. apply Hout, elem_of_app. left. by eapply in_queue.
    + intros Hz. exfalso. apply Hout. rewrite !elem_of_app. tauto.
  - intros u z. cbn. rewrite lookup_insert_Some. intros [[<- _]|[_ Hu]] Hz He; [done|by apply (C u)].
Qed.

Lemma cur_ok s a c x : running s a c → threads s !! c = Some x → thread_ok x.
Proof. intros [[R T S C] _ _]. apply (ti_ok _ _ _ _ T). Qed.

Lemma running_sleepaddr s a c x ad :
  running s a c → threads s !! c = Some x →
  running (with_threads (<[c := set_sleepaddr ad x]> (threads s)) (tnext s) s) a c.
Proof. intros Hr Hx. eapply running_upd; try done. by destruct (cur_ok _ _ _ _ Hr Hx). Qed.

Lemma running_int s a c n i j : running s a c → running (with_spl n i j s) a c.
Proof. intros [K ? ?]. constructor; [by apply kinv_spl|done|done]. Qed.

Lemma yield_to_safe s a c k :
  running s a c → (∀ x, kont_ok (sems s) (set_pcb (k (curspl s)) (in_interrupt s) x)) → safe (yield_to k s).
Proof.
  intros Hr Hk. unfold yield_to, splhigh. erewrite bind_ok; [|reflexivity].
  pose proof (running_spl _ _ _ SPL_HIGH false Hr) as Hr1. destruct (cur_thread _ _ _ Hr1) as [x Hx].
  rewrite (bind_ok _ _ _ _ _ (assert_sleepers_run _ a ltac:(apply Hr1))). set (s1 := with_spl _ _ _ s) in *.
  destruct (switch_safe S_READY (k (curspl s)) s1 a c x Hr1) as [E|[(s2 & a2 & t & E & Hs)|(s2 & a2 & t & E & Hs)]];
    try done; [by left| | |].
  - left. unfold mbind, M_bind. by rewrite E.
  - right; left. rewrite (bind_ok _ _ _ _ _ E). by exists s2, a2, t.
  - right; right. rewrite (bind_ok _ _ _ _ _ E). erewrite bind_ok; [|reflexivity]. eexists _, a2, t. split; [reflexivity|].
    by apply running_spl.
Qed.

Lemma yield_safe s a c : running s a c → safe (thread_yield s).
Proof. intros Hr. by apply (yield_to_safe s a c). Qed.

Lemma sleep_safe s a c ad k :
  running s a c → 0 < curspl s → in_interrupt s = 0 →
  match k with SP sem _ => is_Some (sems s !! sem) | _ => True end → safe (thread_sleep ad k s).
Proof.
  intros Hr Hspl Hi Hk. unfold thread_sleep. erewrite bind_ok; [|reflexivity]. rewrite Hi.
  erewrite bind_ok; [|reflexivity]. erewrite bind_ok; [|unfold cur; rewrite (rn_cur _ _ _ Hr); reflexivity].
  destruct (cur_thread _ _ _ Hr) as [x Hx]. rewrite (bind_ok _ _ _ _ _ (updt_run s c _ x Hx)).
  eapply (switch_safe _ _ _ a c); [by apply running_sleepaddr|done|by apply lookup_insert_eq|by right|].
  split; [done|]. by destruct k.
Qed.

Lemma P_loop_safe s a c sem spl :
  running s a c → 0 < curspl s → in_interrupt s = 0 → is_Some (sems s !! sem) → safe (P_loop sem spl s).
Proof.
  intros Hr Hspl Hi [n Hn]. unfold P_loop. erewrite bind_ok; [|unfold sem_count; rewrite Hn; reflexivity].
  destruct (so_count _ (k_sem _ _ _ _ (rn_kinv _ _ _ Hr)) sem n Hn) as [Hn0 Hn1].
  destruct (Z.eqb_spec n 0) as [->|Hne]; [by apply (sleep_safe s a c)|].
  erewrite bind_ok; [|unfold massert; rewrite (proj2 (Z.gtb_lt n 0)) by lia; reflexivity].
  erewrite bind_ok; [|reflexivity]. erewrite bind_ok; [|reflexivity]. right; right. eexists _, a, c. split; [reflexivity|].
  apply running_spl. destruct Hr as [[R T S C] Hc Hcnt]. constructor; [|done|done]. constructor; [by destruct R|done| |].
  - destruct S as [S1 S2]. constructor.
    + intros m d. cbn. rewrite lookup_insert_Some. intros [[<- <-]|[_ Hm]]; [lia|by apply S1 in Hm].
    + cbn. eapply list.Forall_impl; [exact S2|]. intros [|m]; [done|]. intros Hm.
      destruct (decide (m = sem)) as [->|]; [by rewrite lookup_insert_eq|by rewrite lookup_insert_ne].
  - eapply konts_mono; [exact C|]. cbn. intros m Hm.
    destruct (decide (m = sem)) as [->|]; [by rewrite lookup_insert_eq|by rewrite lookup_insert_ne].
Qed.

Lemma clocksleep_loop_safe s a c n spl :
  running s a c → 0 < curspl s → in_interrupt s = 0 → safe (clocksleep_loop n spl s).
Proof.
  intros Hr Hspl Hi. unfold clocksleep_loop. case_if; [by apply (sleep_safe s a c)|].
  erewrite bind_ok; [|reflexivity]. right; right. eexists _, a, c. split; [reflexivity|]. by apply running_spl.
Qed.

Lemma activate_run s a c e :
  kinv s a (Some c) e → curthread s = Some c → ∃ cs, activate s = Ok (tt, with_files cs (files s) s).
Proof.
  intros K Hc. unfold activate. erewrite bind_ok; [|unfold cur; rewrite Hc; reflexivity].
  assert (is_Some (threads s !! c)) as [x Hx] by (apply (ti_dom _ _ _ _ (k_tinv _ _ _ _ K)); by left).
  rewrite (bind_ok _ _ _ _ _ (gett_run s c x Hx)). destruct (t_vmspace x).
  - eexists. reflexivity.
  - exists (calls s). by destruct s.
Qed.

Lemma running_calls s a c cs : running s a c → running (with_files cs (files s) s) a c.
Proof. intros [[[] ? [] ?] ? ?]. constructor; [by constructor|done|done]. Qed.

Lemma switched_in s a t : switching s a t → running s a t.
Proof. intros [[R T S C] ? ? ? ?]. constructor; [|done|done]. constructor; try done. intros u y Hy Hz _. by apply (C u). Qed.

(** The end of [mi_switch] in the new thread. *)
Lemma after_switch_run s a t :
  switching s a t →
  ∃ s' a', after_switch s = Ok (tt, s') ∧ running s' a' t ∧ curspl s' = curspl s ∧ in_interrupt s' = in_interrupt s ∧
    sems s' = sems s ∧ threads s' !! t = threads s !! t ∧ a_zb a' = [].
Proof.
  intros Hs. pose proof (switched_in _ _ _ Hs) as [K Hc Hn]. unfold after_switch.
  destruct (exorcise_run s a t (Some t) K Hc (sw_spl _ _ _ Hs) Hn) as (s1 & E & K1 & Hc1 & Hspl1 & Hi1 & Hs1 & Hn1 & Ht1).
  rewrite (bind_ok _ _ _ _ _ E). destruct (activate_run s1 _ t _ K1 Hc1) as [cs E2].
  eexists _, _. split; [exact E2|]. split; [by apply running_calls|]. done.
Qed.

Lemma resume_safe s a t : switching s a t → safe (resume s).
Proof.
  intros Hs. pose proof (switched_in _ _ _ Hs) as Hr. destruct (cur_thread _ _ _ Hr) as [x Hx].
  assert (kont_ok (sems s) x) as Hk.
  { apply (k_kont _ _ _ _ (sw_kinv _ _ _ Hs) t x Hx); [|done]. intros Hz.
    apply (cur_out _ _ _ _ (k_tinv _ _ _ _ (rn_kinv _ _ _ Hr))). rewrite !elem_of_app. tauto. }
  unfold resume. erewrite bind_ok; [|unfold cur; rewrite (sw_cur _ _ _ Hs); reflexivity].
  rewrite (bind_ok _ _ _ _ _ (gett_run s t x Hx)). unfold kont_ok in Hk. destruct (t_pcb x) as [|spl|spl savespl old_in|k|] eqn:Hpcb; [..|done].
  - destruct (activate_run s a t _ (rn_kinv _ _ _ Hr) (rn_cur _ _ _ Hr)) as [cs E]. rewrite (bind_ok _ _ _ _ _ E).
    erewrite bind_ok; [|reflexivity]. right; right. eexists _, a, t. split; [reflexivity|].
    apply running_spl. by apply running_calls.
  - destruct (after_switch_run s a t Hs) as (s1 & a1 & E & Hr1 & _). rewrite (bind_ok _ _ _ _ _ E).
    erewrite bind_ok; [|reflexivity]. right; right. eexists _, a1, t. split; [reflexivity|]. by apply running_spl.
  - destruct (after_switch_run s a t Hs) as (s1 & a1 & E & Hr1 & _). rewrite (bind_ok _ _ _ _ _ E).
    erewrite bind_ok; [|reflexivity]. right; right. eexists _, a1, t. split; [reflexivity|]. by repeat apply running_int.
  - destruct (after_switch_run s a t Hs) as (s1 & a1 & E & Hr1 & Hspl1 & Hi1 & Hs1 & Ht1 & _).
    rewrite (bind_ok _ _ _ _ _ E). rewrite Hx in Ht1. rewrite (bind_ok _ _ _ _ _ (updt_run s1 t _ x Ht1)).
    pose proof (running_sleepaddr s1 a1 t x None Hr1 Ht1) as Hr2. destruct Hk as [Hi Hk].
    assert (in_interrupt s1 = 0) as Hi2 by (rewrite Hi1, (sw_int _ _ _ Hs x Hx); done).
    assert (0 < curspl s1) as Hspl2 by (rewrite Hspl1; apply Hs).
    destruct k as [|sem spl|n spl].
    + right; right. by eexists _, a1, t.
    + apply (P_loop_safe _ a1 t); try done. cbn. by rewrite Hs1.
    + by apply (clocksleep_loop_safe _ a1 t).
Qed.

(** ** Exit *)
Lemma exit_space s c x :
  threads s !! c = Some x →
  ∃ cs, (match t_vmspace x with
         | Some v => let* _ := updt c (fun x => set_space None (t_cwd x) x) in call (as_destroy v)
         | None => mret tt
         end) s = Ok (tt, with_files cs (files s) (with_threads (<[c := set_space None (t_cwd x) x]> (threads s)) (tnext s) s)).
Proof.
  intros Hx. destruct (t_vmspace x) eqn:Ev.
  - rewrite (bind_ok _ _ _ _ _ (updt_run s c _ x Hx)). eexists. done.
  - exists (calls s). replace (set_space None (t_cwd x) x) with x by (destruct x; cbn in *; by subst).
    rewrite insert_id by done. by destruct s.
Qed.

Lemma exit_cwd s c x o :
  threads s !! c = Some x → t_cwd x = o →
  ∃ cs, (match o with
         | Some v => let* _ := call (VOP_DECREF v) in updt c (fun x => set_space (t_vmspace x) None x)
         | None => mret tt
         end) s = Ok (tt, with_files cs (files s) (with_threads (<[c := set_space (t_vmspace x) None x]> (threads s)) (tnext s) s)).
Proof.
  intros Hx Ho. destruct o as [v|].
  - erewrite bind_ok; [|reflexivity]. erewrite updt_run; [|done]. eexists. done.
  - exists (calls s). replace (set_space (t_vmspace x) None x) with x by (destruct x; cbn in *; by subst).
    rewrite insert_id by done. by destruct s.
Qed.

Lemma numthreads_pos s a c : running s a c → 0 < numthreads s.
Proof.
  intros [[R T S C] _ Hn]. pose proof (members_le _ _ _ _ T) as L. unfold counted in Hn. unfold members in L. cbn in L.
  rewrite !length_app in L. lia.
Qed.

Lemma exit_safe s a c x : running s a c → threads s !! c = Some x → no_files x → safe (thread_exit s).
Proof.
  intros Hr Hx Hf. unfold thread_exit.
  erewrite bind_ok; [|unfold cur; rewrite (rn_cur _ _ _ Hr); reflexivity]. rewrite (bind_ok _ _ _ _ _ (gett_run s c x Hx)).
  pose proof (cur_ok _ _ _ _ Hr Hx) as Hok. rewrite (bind_ok _ _ _ _ _ (check_stack_run x s Hok)).
  unfold splhigh. erewrite bind_ok; [|reflexivity]. pose proof (running_spl _ _ _ SPL_HIGH false Hr) as Hr1.
  set (s1 := with_spl _ _ _ s) in *. destruct (exit_space s1 c x Hx) as [cs E1]. rewrite (bind_ok _ _ _ _ _ E1).
  set (x1 := set_space None (t_cwd x) x) in *.
  assert (running (with_files cs (files s1) (with_threads (<[c := x1]> (threads s1)) (tnext s1) s1)) a c) as Hr2.
  { refine (running_calls _ a c cs (running_upd s1 a c x x1 _ _ _ _)); try done. by destruct Hok. }
  set (s2 := with_files _ _ _) in *. assert (threads s2 !! c = Some x1) as Hx1 by (apply lookup_insert_eq).
  destruct (exit_cwd s2 c x1 (t_cwd x) Hx1 eq_refl) as [cs2 E2]. rewrite (bind_ok _ _ _ _ _ E2).
  set (x2 := set_space (t_vmspace x1) None x1) in *.
  assert (running (with_files cs2 (files s2) (with_threads (<[c := x2]> (threads s2)) (tnext s2) s2)) a c) as Hr3.
  { refine (running_calls _ a c cs2 (running_upd s2 a c x1 x2 _ _ _ _)); try done. by destruct Hok. }
  set (s3 := with_files cs2 _ _) in *. assert (threads s3 !! c = Some x2) as Hx2 by (apply lookup_insert_eq).
  pose proof (numthreads_pos _ _ _ Hr3) as Hpos. erewrite bind_ok; [|reflexivity].
  erewrite bind_ok; [|unfold massert; rewrite (proj2 (Z.gtb_lt _ _)) by done; reflexivity].
  erewrite bind_ok; [|reflexivity]. set (s4 := with_ids _ _ s3). destruct Hr3 as [[R T S C] Hc Hn].
  destruct (mi_switch_run S_ZOMB KExit s4 a c x2) as [E|(s5 & a5 & t & E & Hs)]; try done.
  - constructor; [by destruct R|done|by destruct S|done].
  - unfold counted in *. cbn in *. rewrite length_app. cbn. lia.
  - left. unfold mbind, M_bind. by rewrite E.
  - right; left. rewrite (bind_ok _ _ _ _ _ E). by exists s5, a5, t.
Qed.

(** ** Fork *)
Lemma preallocate_loop_run s a n i m :
  krep s a → (i + n = 4)%nat → m ≤ 200 →
  ∃ rq, preallocate_loop n (Z.of_nat i) m s = Ok (0, with_rq rq s) ∧ krep (with_rq rq s) a.
Proof.
  revert s i. induction n as [|n IH]; intros s i H Hi Hm; cbn [preallocate_loop].
  - exists (runqueue s). by destruct s.
  - destruct (lookup_lt_is_Some_2 (a_rq a) i) as [l Hl]; [rewrite (kr_four _ _ H); lia|].
    destruct (getq_run s a i l H Hl) as (q & E & R & Hs). rewrite (bind_ok _ _ _ _ _ E).
    rewrite (bind_ok _ _ _ _ _ (kmalloc_run s (kr_mem _ _ H))).
    destruct (Queue.preallocate_run q l m R) as (q' & E2 & R2 & _ & Hs2); [lia|].
    rewrite (bind_ok _ _ _ _ _ (klift_run _ _ s E2)).
    destruct (setq_rep s a i q' l H R2) as [E3 K3]; [lia|]. rewrite (bind_ok _ _ _ _ _ E3). cbn [Z.eqb negb].
    unfold set_rq in K3. rewrite (list_insert_id (a_rq a) i l Hl) in K3. replace (mkA (a_rq a) _ _ _) with a in K3 by (by destruct a).
    replace (Z.of_nat i + 1) with (Z.of_nat (Datatypes.S i)) by lia.
    destruct (IH _ (Datatypes.S i) K3) as (rq & E4 & K4); [lia|done|]. exists rq. rewrite E4. done.
Qed.

Lemma tinv_birth th nx nx' a o n y pid ids :
  tinv th nx a o → a_ids a = pid :: ids → th !! n = None → (n < nx')%nat → (nx ≤ nx')%nat → length (a_rq a) = 4%nat →
  thread_ok y → id y = Some pid →
  tinv (<[n := y]> th) nx' (enq n (Z.to_nat (priority y)) (mkA (a_rq a) (a_sl a) (a_zb a) ids)) o.
Proof.
  intros [T1 T2 T3 T4 T5 T6 T7] Hids Hn Hnx Hle H4 Hy Hid. pose proof (to_prio _ Hy) as Hp. unfold NUM_PRIORITIES in Hp.
  destruct (lookup_lt_is_Some_2 (a_rq a) (Z.to_nat (priority y))) as [l Hl]; [lia|].
  set (a' := mkA (a_rq a) (a_sl a) (a_zb a) ids). pose proof (enq_members n (Z.to_nat (priority y)) a' o l Hl) as Hm.
  change (members a' o) with (members a o) in Hm. set (a1 := enq n _ a') in *.
  assert (n ∉ members a o) as Hnm by (rewrite <- T2, Hn; by intros [? ?]).
  constructor.
  - rewrite Hm. by apply list.NoDup_cons.
  - intros t. rewrite Hm, elem_of_cons, <- T2. destruct (decide (t = n)) as [->|].
    + rewrite lookup_insert_eq. naive_solver.
    + rewrite lookup_insert_ne by done. naive_solver.
  - intros t z. rewrite lookup_insert_Some. intros [[<- <-]|[_ Hz]]; eauto.
  - intros i l' t z Hi Ht. rewrite lookup_insert_Some. apply enq_lookup in Hi as (l0 & Hl0 & Hor). cbn in Hl0.
    intros [[<- <-]|[Hne Hz]].
    + destruct Hor as [->|[-> _]]; [|lia]. exfalso. apply Hnm. unfold members. rewrite !elem_of_app. right; left. by eapply in_queue.
    + eapply T4; [exact Hl0| |done]. destruct Hor as [->|[_ ->]]; [done|]. apply elem_of_app in Ht as [|Ht]; [done|].
      apply list_elem_of_singleton in Ht. congruence.
  - intros t z Ht. rewrite lookup_insert_Some. intros [[<- <-]|[_ Hz]]; [|by eapply T5].
    exfalso. apply Hnm. unfold members. rewrite !elem_of_app. by right; right; right.
  - rewrite <- T6, Hids. cbn. transitivity (ids ++ pids (<[n := y]> th) (n :: members a o)); [unfold pids; by rewrite Hm|].
    unfold pids. cbn. rewrite lookup_insert_eq. cbn. rewrite Hid. cbn. rewrite <- Permutation_middle.
    apply Permutation_skip, Permutation_app_head. erewrite list_omap_ext; [done|].
    apply Forall2_same_length_lookup_2; [done|]. intros i u v Hu Hv. assert (u = v) as -> by congruence.
    rewrite lookup_insert_ne; [done|]. intros ->. by apply Hnm, (list_elem_of_lookup_2 _ _ _ Hu).
  - intros t Ht. rewrite lookup_insert_None. split; [apply T7; lia|lia].
Qed.

(** The child between [thread_create] and [make_runnable]: known to nobody but the parent. *)
Record newborn (s s1 : kstate) (a : astate) (ids : list Z) (n : nat) (y : thread) : Prop := {
  nb_rep : krep s1 (mkA (a_rq a) (a_sl a) (a_zb a) ids);
  nb_threads : threads s1 = <[n := y]> (threads s);
  nb_next : (n < tnext s1)%nat;
  nb_le : (tnext s ≤ tnext s1)%nat;
  nb_cur : curthread s1 = curthread s;
  nb_num : numthreads s1 = numthreads s;
  nb_sems : sems s1 = sems s;
  nb_irqs : irqs s1 = irqs s;
  nb_ok : thread_ok y;
  nb_start : t_pcb y = KStart;
  nb_files : files s1 = files s
}.

(** The calls [thread_fork] makes: the parent [x] shares its current directory and has its address space
    copied to [sp]. *)
Definition fork_calls (x : thread) (sp : nat) : list kcall :=
  match t_vmspace x with Some v => [as_copy v sp] | None => [] end ++
  match t_cwd x with Some v => [VOP_INCREF v] | None => [] end.

(** The child [y] that [thread_fork] makes of the parent [x]. *)
Record forked (s s' : kstate) (x y : thread) (n : nat) : Prop := {
  fk_threads : threads s' = <[n := y]> (threads s);
  fk_calls : calls s' = calls s ++ fork_calls x (Datatypes.S n);
  fk_files : files s' = files s;
  fk_spl : curspl s' = curspl s;
  fk_space : t_vmspace y = (fun _ => Datatypes.S n) <$> t_vmspace x;
  fk_cwd : t_cwd y = t_cwd x;
  fk_none : no_files y;
  fk_start : t_pcb y = KStart
}.

Lemma array_create_rep {A} : Array.array_rep (@Array.mkarray A 0 0 None) [].
Proof. split; [split_and!; vm_compute; done|done]. Qed.

Lemma create_run s a pid ids name :
  krep s a → a_ids a = pid :: ids →
  ∃ s1 y, thread_create name s = Ok (Some (tnext s), s1) ∧ newborn s s1 a ids (tnext s) y ∧ id y = Some pid ∧ no_files y ∧
    t_vmspace y = None ∧ t_cwd y = None ∧ calls s1 = calls s ∧ tnext s1 = Datatypes.S (tnext s) ∧
    curspl s1 = curspl s.
Proof.
  intros R Hids. unfold thread_create. destruct (kr_ids _ _ R) as (q & Hq & Rq & Hsz). rewrite Hids in Rq.
  rewrite (bind_ok _ _ _ _ _ (kmalloc_run s (kr_mem _ _ R))). cbn [negb].
  rewrite (bind_ok _ _ _ _ _ (kmalloc_run s (kr_mem _ _ R))). cbn [negb].
  erewrite bind_ok; [|unfold getids; rewrite Hq; reflexivity].
  destruct (Queue.remhead_run q _ Rq) as (q' & E & Rq' & Hsz'). rewrite (bind_ok _ _ _ _ _ (klift_run _ _ s E)).
  erewrite bind_ok; [|reflexivity].
  assert (∀ s2, fmem (files s2) = [] → kfiles filetable_create s2 = Ok (Some (mkft (Array.mkarray 0 0 None) 0), s2)) as Hf.
  { intros s2 H2. unfold kfiles, zoom, filetable_create, fmalloc_ok, mbind, M_bind. rewrite H2. cbn.
    destruct s2 as [? ? ? ? ? ? ? ? ? ? ? ? ? ? ? []]; cbn in *. by subst. }
  erewrite bind_ok; [|apply Hf; exact (kr_mem _ _ R)]. erewrite bind_ok; [|reflexivity].
  eexists _, (mkthread KStart 0 name None None None None (Some (mkft (Array.mkarray 0 0 None) 0)) PRIORITY_NORMAL (Some pid)).
  split; [reflexivity|]. split; [|split; [done|split; [eexists; split; [done|]; split; [apply array_create_rep|done]|done]]]. constructor; try done.
  - destruct R. constructor; try done. exists q'. split_and!; [done|done|lia].
  - cbn. lia.
  - cbn. lia.
Qed.

(** Writing fields of the child other than its process id. *)
Lemma newborn_upd s s1 a ids n y z :
  newborn s s1 a ids n y → id z = id y → thread_ok z → t_pcb z = KStart → threads s !! n = None →
  newborn s (with_threads (<[n := z]> (threads s1)) (tnext s1) s1) a ids n z.
Proof.
  intros [B1 B2 B3 B4 B5 B6 B7 B8 B9 B10 B11] Hid Hok Hk Hn. constructor; try done; [by destruct B1|].
  cbn. by rewrite B2, insert_insert_eq.
Qed.

Lemma newborn_lookup s s1 a ids n y : newborn s s1 a ids n y → threads s1 !! n = Some y.
Proof. intros B. rewrite (nb_threads _ _ _ _ _ _ B). apply lookup_insert_eq. Qed.

(** Room for one more thread is made in the lists and the run queues ... *)
Lemma link_room s a N :
  krep s a → 0 < curspl s → N ≤ 100 →
  ∃ sl zb rq, let s' := with_rq rq (with_lists sl zb s) in krep s' a ∧
    ∀ n spl, numthreads s = N →
      fork_link n spl s = (let* result := make_runnable n in
        if negb (result =? 0) then fork_fail n spl result
        else let* _ := modify (fun s => with_ids (process_ids s) (N + 1) s) in
             let* _ := splx spl in mret (inr n)) s'.
Proof.
  intros R Hspl HN. destruct (kr_sl _ _ R) as (sl & Hsl & Rsl). destruct (kr_zb _ _ R) as (zb & Hzb & Rzb).
  destruct (Array.array_preallocate_ok sl _ (N + 1) Rsl) as (sl' & E1 & R1 & _); [lia|].
  destruct (Array.array_preallocate_ok zb _ (N + 1) Rzb) as (zb' & E2 & R2 & _); [lia|].
  set (s1 := with_lists (Some sl') (zombies s) s). set (s2 := with_lists (sleepers s1) (Some zb') s1).
  assert (krep s2 a) as K2 by (destruct R; constructor; try done; [by exists sl'|by exists zb']).
  destruct (preallocate_loop_run s2 a 4 0 (N + 1) K2) as (rq & E3 & K3); [done|lia|].
  exists (Some sl'), (Some zb'), rq. split; [done|]. intros n spl HNs. unfold fork_link. rewrite <- HNs in *.
  erewrite bind_ok; [|reflexivity]. rewrite (bind_ok _ _ _ _ _ (getlist_run sleepers s sl Hsl)).
  rewrite (bind_ok _ _ _ _ _ (kmalloc_run s (kr_mem _ _ R))), (bind_ok _ _ _ _ _ (klift_run _ _ s E1)).
  erewrite bind_ok; [|reflexivity]. cbn [Z.eqb negb]. fold s1.
  rewrite (bind_ok _ _ _ _ _ (getlist_run zombies s1 zb Hzb)), (bind_ok _ _ _ _ _ (kmalloc_run s1 (kr_mem _ _ R))).
  rewrite (bind_ok _ _ _ _ _ (klift_run _ _ s1 E2)). erewrite bind_ok; [|reflexivity]. cbn [Z.eqb negb]. fold s2.
  erewrite bind_ok; [|unfold scheduler_preallocate; rewrite (bind_ok _ _ _ _ _ (assert_spl_run s2 Hspl)); exact E3].
  done.
Qed.

(** ... and the child is put into one of them. *)
Lemma fork_link_run s s1 a c pid ids n y spl :
  running s a c → a_ids a = pid :: ids → newborn s s1 a ids n y → id y = Some pid → threads s !! n = None →
  0 < curspl s1 →
  ∃ s2, fork_link n spl s1 = Ok (inr n, s2) ∧
    running s2 (enq n (Z.to_nat (priority y)) (mkA (a_rq a) (a_sl a) (a_zb a) ids)) c ∧ threads s2 = <[n := y]> (threads s) ∧
    calls s2 = calls s1 ∧ files s2 = files s1 ∧ curspl s2 = spl.
Proof.
  intros [[R T S C] Hc Hn] Hids B Hid Hnew Hspl. pose proof B as [B1 B2 B3 B4 B5 B6 B7 B8 B9 B10 _].
  pose proof (members_le _ _ _ _ T) as Hle. unfold counted in Hn. rewrite Hids in Hn. cbn in Hn.
  set (a1 := mkA (a_rq a) (a_sl a) (a_zb a) ids) in *.
  destruct (link_room s1 a1 (numthreads s1) B1 Hspl) as (sl & zb & rq & K & E); [lia|]. rewrite (E n spl eq_refl). clear E.
  set (s2 := with_rq rq (with_lists sl zb s1)) in *. pose proof (to_prio _ B9) as Hp. unfold NUM_PRIORITIES in Hp.
  destruct (lookup_lt_is_Some_2 (a_rq a) (Z.to_nat (priority y))) as [l Hl]; [rewrite (kr_four _ _ R); lia|].
  destruct (make_runnable_run s2 a1 n y l K Hspl) as (rq' & E3 & K3).
  { change (threads s2) with (threads s1). by eapply newborn_lookup. } { done. } { lia. } { by eapply queue_le. }
  rewrite (bind_ok _ _ _ _ _ E3). cbn [Z.eqb negb]. erewrite bind_ok; [|reflexivity]. erewrite bind_ok; [|reflexivity].
  eexists. split; [reflexivity|]. split; [|cbn; by rewrite B2]. apply running_spl.
  constructor; [constructor|..]; cbn.
  - by destruct K3.
  - rewrite B2. by eapply (tinv_birth _ (tnext s)); try done; apply R.
  - destruct S as [S1 S2]. constructor; cbn; rewrite B7, B8; done.
  - intros u z. rewrite B2, B7, lookup_insert_Some. intros [[<- <-]|[_ Hz]] Hu He; [unfold kont_ok; by rewrite B10|by apply (C u)].
  - congruence.
  - unfold counted. cbn. lia.
Qed.

Lemma fork_space_run s s1 a ids n y o :
  newborn s s1 a ids n y →
  ∃ s2 y2, (match o with Some v => fork_space v n | None => mret tt end) s1 = Ok (tt, s2) ∧
    newborn s s2 a ids n y2 ∧ id y2 = id y ∧ t_cwd y2 = t_cwd y ∧ ft y2 = ft y ∧
    t_vmspace y2 = match o with Some _ => Some (tnext s1) | None => t_vmspace y end ∧
    calls s2 = calls s1 ++ match o with Some v => [as_copy v (tnext s1)] | None => [] end ∧ curspl s2 = curspl s1.
Proof.
  intros B. destruct o as [v|]; [|exists s1, y; by rewrite app_nil_r]. unfold fork_space.
  rewrite (bind_ok _ _ _ _ _ (kmalloc_run s1 (kr_mem _ _ (nb_rep _ _ _ _ _ _ B)))).
  erewrite bind_ok; [|reflexivity]. erewrite bind_ok; [|reflexivity]. erewrite bind_ok; [|reflexivity].
  erewrite updt_run; [|exact (newborn_lookup _ _ _ _ _ _ B)].
  eexists _, (set_space (Some (tnext s1)) (t_cwd y) y). split; [reflexivity|]. split; [|done].
  destruct B as [B1 B2 B3 B4 B5 B6 B7 B8 [] B10 B11]. constructor; cbn; try done; try lia.
  - by destruct B1.
  - by rewrite B2, insert_insert_eq.
Qed.

Lemma fork_cwd_run s s1 a ids n y o :
  newborn s s1 a ids n y →
  ∃ s2 y2, (match o with
            | Some v => let* _ := call (VOP_INCREF v) in updt n (fun y => set_space (t_vmspace y) (Some v) y)
            | None => mret tt
            end) s1 = Ok (tt, s2) ∧ newborn s s2 a ids n y2 ∧ id y2 = id y ∧ t_vmspace y2 = t_vmspace y ∧ ft y2 = ft y ∧
    t_cwd y2 = match o with Some v => Some v | None => t_cwd y end ∧
    calls s2 = calls s1 ++ match o with Some v => [VOP_INCREF v] | None => [] end ∧ curspl s2 = curspl s1.
Proof.
  intros B. destruct o as [v|]; [|exists s1, y; by rewrite app_nil_r]. erewrite bind_ok; [|reflexivity].
  erewrite updt_run; [|exact (newborn_lookup _ _ _ _ _ _ B)].
  eexists _, (set_space (t_vmspace y) (Some v) y). split; [reflexivity|]. split; [|done].
  destruct B as [C1 C2 C3 C4 C5 C6 C7 C8 [] C10 C11]. constructor; cbn; try done.
  - by destruct C1.
  - by rewrite C2, insert_insert_eq.
Qed.

(** Everything before interrupts go off. *)
Lemma fork_prefix s a c x pid ids name :
  running s a c → threads s !! c = Some x → a_ids a = pid :: ids → threads s !! tnext s = None →
  ∃ s1 y, newborn s s1 a ids (tnext s) y ∧ id y = Some pid ∧ no_files y ∧
    t_vmspace y = (fun _ => Datatypes.S (tnext s)) <$> t_vmspace x ∧ t_cwd y = t_cwd x ∧
    calls s1 = calls s ++ fork_calls x (Datatypes.S (tnext s)) ∧ curspl s1 = curspl s ∧
    thread_fork name s = (let* spl := splhigh in fork_link (tnext s) spl) s1.
Proof.
  intros Hr Hx Hids Hnew.
  destruct (create_run s a pid ids name (k_rep _ _ _ _ (rn_kinv _ _ _ Hr)) Hids) as (s1 & y & E & B & Hid & Hnf & Hv1 & Hc1 & Hcs1 & Hn1 & Hs1). unfold thread_fork.
  rewrite (bind_ok _ _ _ _ _ E). rewrite (bind_ok _ _ _ _ _ (kmalloc_run s1 (kr_mem _ _ (nb_rep _ _ _ _ _ _ B)))).
  cbn [negb]. erewrite bind_ok; [|unfold cur; rewrite (nb_cur _ _ _ _ _ _ B), (rn_cur _ _ _ Hr); reflexivity].
  assert (threads s1 !! c = Some x) as Hx1.
  { rewrite (nb_threads _ _ _ _ _ _ B), lookup_insert_ne; [done|]. intros <-. congruence. }
  rewrite (bind_ok _ _ _ _ _ (gett_run s1 c x Hx1)).
  destruct (fork_space_run s s1 a ids _ y (t_vmspace x) B) as (s2 & y2 & E2 & B2 & Hid2 & Hc2 & Hf2 & Hv2 & Hcs2 & Hs2).
  rewrite (bind_ok _ _ _ _ _ E2). rewrite (bind_ok _ _ _ _ _ (updt_run s2 _ _ y2 (newborn_lookup _ _ _ _ _ _ B2))).
  pose proof (newborn_upd _ _ _ _ _ _ (set_stack (Some MAGIC) y2) B2 eq_refl
    ltac:(by destruct (nb_ok _ _ _ _ _ _ B2)) ltac:(apply B2) Hnew) as B3.
  destruct (fork_cwd_run _ _ _ _ _ _ (t_cwd x) B3) as (s4 & y4 & E4 & B4 & Hid4 & Hv4 & Hf4 & Hc4 & Hcs4 & Hs4).
  rewrite (bind_ok _ _ _ _ _ E4). rewrite (bind_ok _ _ _ _ _ (updt_run s4 _ _ y4 (newborn_lookup _ _ _ _ _ _ B4))).
  pose proof (newborn_upd _ _ _ _ _ _ (set_pcb KStart 0 y4) B4 eq_refl
    ltac:(by destruct (nb_ok _ _ _ _ _ _ B4)) eq_refl Hnew) as B5.
  eexists _, _. split; [exact B5|]. cbn in Hid4, Hv4, Hf4, Hc4, Hcs4, Hs4. split_and!; [| | | | | |done]; cbn.
  - congruence.
  - unfold no_files in *. cbn. by rewrite Hf4, Hf2.
  - rewrite Hv4, Hv2, Hn1. destruct (t_vmspace x); cbn; congruence.
  - rewrite Hc4. destruct (t_cwd x); congruence.
  - rewrite Hcs4, Hcs2, Hcs1, Hn1. unfold fork_calls. by rewrite app_assoc.
  - congruence.
Qed.

Lemma fork_run s a c x name :
  running s a c → threads s !! c = Some x → a_ids a ≠ [] →
  ∃ s' a', thread_fork name s = Ok (inr (tnext s), s') ∧ running s' a' c ∧
    (∃ pid y, a_ids a = pid :: a_ids a' ∧ forked s s' x y (tnext s) ∧ id y = Some pid) ∧
    (∀ t, t ∈ members a' (Some c) ↔ t = tnext s ∨ t ∈ members a (Some c)).
Proof.
  intros Hr Hx Hne. destruct (a_ids a) as [|pid ids] eqn:Hids; [done|]. clear Hne.
  pose proof (ti_next _ _ _ _ (k_tinv _ _ _ _ (rn_kinv _ _ _ Hr)) (tnext s) (le_n _)) as Hnew.
  destruct (fork_prefix s a c x pid ids name Hr Hx Hids Hnew) as (s5 & y5 & B5 & Hid & Hnf & Hv & Hcw & Hcs & Hspl & E). rewrite E.
  unfold splhigh. erewrite bind_ok; [|reflexivity].
  set (s6 := with_spl SPL_HIGH false (in_interrupt s5) s5).
  destruct (fork_link_run s s6 a c pid ids (tnext s) y5 (curspl s5) Hr Hids) as (s7 & E7 & Hr7 & Hy7 & Hc7 & Hf7 & Hs7); try done.
  { destruct B5 as [C1 C2 C3 C4 C5 C6 C7 C8 C9 C10 C11]. constructor; try done. by destruct C1. }
  eexists s7, _. split; [exact E7|]. split; [done|]. split.
  { exists pid, y5. split; [done|]. split; [|done]. constructor; try done; [by rewrite Hc7|..|apply B5].
    - rewrite Hf7. apply B5.
    - by rewrite Hs7. }
  pose proof (to_prio _ (nb_ok _ _ _ _ _ _ B5)) as Hp. unfold NUM_PRIORITIES in Hp.
  destruct (lookup_lt_is_Some_2 (a_rq a) (Z.to_nat (priority y5))) as [l Hl].
  { rewrite (kr_four _ _ (k_rep _ _ _ _ (rn_kinv _ _ _ Hr))). lia. }
  intros t. rewrite (enq_members _ _ _ _ l) by done. by rewrite elem_of_cons.
Qed.

End Threadswitch.
