(* ===== verification/Threadsys.v ===== *)
(** * The thread system as a machine

    [step] interleaves the operations of the running thread and the switches between
    threads.  The theorems: what one wakeup and one run of the scheduler do, that booting
    establishes the invariant of Threadsafe.v, that every step keeps it, and that no
    interleaving of operations that keep to the rules stops the kernel while memory lasts. *)
From stdpp Require Import base list list_numbers gmap numbers relations.
From S2P Require Import Prelude Array Queue Filetable Scheduler Thread Threadsafe Threadswitch.
Local Open Scope Z_scope.

Module Threadsys.
Import Filetable Scheduler Thread Threadsafe Threadswitch.

(** ** Steps *)

(** What the code of a thread may ask of the thread system; [OTick] is the timer
    interrupt taken while the thread runs. *)
Inductive op :=
| OYield
| OP (sem : nat)
| OV (sem : nat)
| OSleep (num_secs : Z)
| OFork (name : list Z)
| OExit
| OTick.

Definition exec (o : op) : K bool :=
  match o with
  | OYield => thread_yield
  | OP sem => P sem
  | OV sem => let* _ := V sem in mret false
  | OSleep n => clocksleep n
  | OFork name => let* _ := thread_fork name in mret false
  | OExit => thread_exit
  | OTick => timer_interrupt
  end.

(** What the callers have to see to: no blocking in an interrupt handler, semaphores that
    exist and do not overflow, a process id left for a fork, no file open in a thread that exits (its
    destruction would panic, see Filetable.v); an interrupt comes only when interrupts are on. *)
Definition enabled (o : op) (s : kstate) : Prop :=
  match o with
  | OYield => True
  | OExit => ∀ c x, curthread s = Some c → threads s !! c = Some x → no_files x
  | OP sem => in_interrupt s = 0 ∧ is_Some (sems s !! sem)
  | OV sem => ∃ c, sems s !! sem = Some c ∧ c + 1 + Z.of_nat (length (irqs s)) < 2 ^ 31 - 1
  | OSleep _ => in_interrupt s = 0
  | OFork _ => ∃ q, process_ids s = Some q ∧ Queue.q_empty q = false
  | OTick => interrupts s = true
  end.

(** What stops the kernel at once: blocking in an interrupt handler, and a fork when all process ids are taken. *)
Definition refused (o : op) (s : kstate) : Prop :=
  match o with
  | OP _ => in_interrupt s ≠ 0
  | OSleep n => in_interrupt s ≠ 0 ∧ 0 < n
  | OFork _ => ∃ q, process_ids s = Some q ∧ Queue.q_empty q = true
  | _ => False
  end.

(** A system call has replaced the current thread's table of open files. *)
Definition set_files (f : filetable) (x : thread) : thread :=
  mkthread (t_pcb x) (pcb_ininterrupt x) (t_name x) (t_sleepaddr x) (t_stack x) (t_vmspace x) (t_cwd x) (Some f)
    (priority x) (id x).

(** [true]: the processor has just been switched to [curthread]. *)
Definition config : Type := bool * kstate.

Inductive step : config → config → Prop :=
| step_op o s b s' : enabled o s → exec o s = Ok (b, s') → step (false, s) (b, s')
| step_files s c x f :
    curthread s = Some c → threads s !! c = Some x →
    step (false, s) (false, with_threads (<[c := set_files f x]> (threads s)) (tnext s) s)
| step_resume s b s' : resume s = Ok (b, s') → step (true, s) (b, s').

Definition good (k : config) : Prop :=
  if k.1 then ∃ a t, switching k.2 a t else ∃ a c, running k.2 a c.

(** ** Every step keeps the invariant *)
Lemma safe_good b s : safe (Ok (b, s)) → good (b, s).
Proof. intros [?|[(s' & a & t & E & H)|(s' & a & c & E & H)]]; simplify_eq; [by exists a, t|by exists a, c]. Qed.

Lemma V_safe s a c sem : running s a c → enabled (OV sem) s → safe (exec (OV sem) s).
Proof.
  intros [K Hc Hn] (n & Hs & Hlt). destruct (V_run s a (Some c) (Some c) sem n K Hs Hlt) as (s' & E & K' & Q & _).
  right; right. cbn [exec]. rewrite (bind_ok _ _ _ _ _ E). eexists _, _, c. split; [reflexivity|].
  constructor; [exact K'|by rewrite (qu_cur _ _ Q)|]. unfold counted in *. by rewrite (qu_num _ _ Q).
Qed.

Lemma tick_safe s a c k :
  running s a c → 0 < curspl s → (∀ sm n i x, kont_ok sm (set_pcb (k n) i x)) → safe (hardclock k s).
Proof.
  intros [K Hc Hn] Hspl Hk. unfold hardclock.
  destruct (tick_run s a (Some c) (Some c) K Hspl) as (s1 & a1 & E1 & K1 & Q1 & _ & Z1 & D1).
  rewrite (bind_ok _ _ _ _ _ E1). apply (yield_to_safe s1 a1 c); [|by intros x; apply Hk]. constructor; [done|by rewrite (qu_cur _ _ Q1)|].
  unfold counted in *. by rewrite (qu_num _ _ Q1), Z1, D1.
Qed.

Lemma timer_interrupt_safe s a c : running s a c → safe (timer_interrupt s).
Proof.
  intros Hr. unfold timer_interrupt. do 3 (erewrite bind_ok; [|reflexivity]). erewrite bind_ok; [|by apply assert_spl_run].
  set (k := fun spl => KTick _ _ _). set (s1 := with_spl SPL_HIGH false 1 s).
  destruct (tick_safe s1 a c k) as [E|[(s2 & a2 & t & E & Hs)|(s2 & a2 & t & E & Hs)]]; [by apply running_int|done|done| | |].
  - left. unfold mbind, M_bind. by rewrite E.
  - right; left. rewrite (bind_ok _ _ _ _ _ E). by exists s2, a2, t.
  - right; right. rewrite (bind_ok _ _ _ _ _ E). eexists _, a2, t. split; [reflexivity|]. by repeat apply running_int.
Qed.

Lemma ids_left s a c q : running s a c → process_ids s = Some q → Queue.q_empty q = false → a_ids a ≠ [].
Proof.
  intros [[R _ _ _] _ _] Hq He. destruct (kr_ids _ _ R) as (q' & Hq' & Rq & _). simplify_eq.
  rewrite (Queue.q_empty_nil _ _ Rq) in He. by bdestr.
Qed.

Lemma exec_safe o s a c : running s a c → enabled o s → safe (exec o s).
Proof.
  intros Hr He. destruct o as [|sem|sem|n|name| |]; cbn [exec enabled] in *.
  - by apply (yield_safe s a c).
  - destruct He as [Hi Hs]. unfold P. erewrite bind_ok; [|reflexivity]. rewrite Hi. erewrite bind_ok; [|reflexivity].
    unfold splhigh. erewrite bind_ok; [|reflexivity]. apply (P_loop_safe _ a c); try done. by apply running_spl.
  - by apply (V_safe s a c).
  - unfold clocksleep, splhigh. erewrite bind_ok; [|reflexivity]. apply (clocksleep_loop_safe _ a c); try done.
    by apply running_spl.
  - destruct He as (q & Hq & Hne). destruct (cur_thread _ _ _ Hr) as [x Hx].
    destruct (fork_run s a c x name Hr Hx) as (s' & a' & E & Hr' & _); [by eapply ids_left|].
    rewrite (bind_ok _ _ _ _ _ E). right; right. by exists s', a', c.
  - destruct (cur_thread _ _ _ Hr) as [x Hx]. apply (exit_safe s a c x); [done..|]. by apply (He c x); [apply Hr|].
  - by apply (timer_interrupt_safe s a c).
Qed.

(** With all 100 process ids taken a fork is not refused: it stops the machine. *)
Theorem thread_fork_no_ids_panics s q name :
  fmem (files s) = [] → process_ids s = Some q → Queue.q_rep q [] → thread_fork name s = Panic.
Proof.
  intros Hm Hq R. unfold thread_fork, mbind at 1, M_bind at 1. assert (thread_create name s = Panic) as ->; [|done].
  unfold thread_create. rewrite (bind_ok _ _ _ _ _ (kmalloc_run s Hm)). cbn [negb].
  rewrite (bind_ok _ _ _ _ _ (kmalloc_run s Hm)). cbn [negb]. erewrite bind_ok; [|unfold getids; rewrite Hq; reflexivity].
  pose proof (Queue.remhead_run q [] R) as E. cbn in E. unfold mbind at 1, M_bind at 1, lift. by rewrite E.
Qed.

Lemma exec_refused o s a c : running s a c → refused o s → exec o s = Panic.
Proof.
  intros Hr Hf. destruct o as [|sem|sem|n|name| |]; cbn [exec refused] in *; try done.
  - unfold P. erewrite bind_ok; [|reflexivity]. unfold mbind, M_bind, massert. by rewrite (proj2 (Z.eqb_neq _ 0) Hf).
  - destruct Hf as [Hi Hn]. unfold clocksleep, splhigh. erewrite bind_ok; [|reflexivity]. unfold clocksleep_loop.
    rewrite (proj2 (Z.gtb_lt n 0)) by done. unfold thread_sleep. erewrite bind_ok; [|reflexivity]. unfold mbind, M_bind, massert.
    cbn [in_interrupt with_spl]. by rewrite (proj2 (Z.eqb_neq _ 0) Hi).
  - destruct Hf as (q & Hq & He). pose proof (k_rep _ _ _ _ (rn_kinv _ _ _ Hr)) as R. destruct (kr_ids _ _ R) as (q' & Hq' & Rq & _). simplify_eq.
    rewrite (Queue.q_empty_nil _ _ Rq) in He. assert (a_ids a = []) as Ea by (by destruct (a_ids a)). rewrite Ea in Rq.
    unfold mbind, M_bind. by rewrite (thread_fork_no_ids_panics s q name (kr_mem _ _ R) Hq Rq).
Qed.

Lemma step_good k k' : good k → step k k' → good k'.
Proof.
  intros Hg Hs. destruct Hs as [o s b s' He E|s c x f Hc Hx|s b s' E]; destruct Hg as (a & c' & H).
  - apply safe_good. rewrite <- E. by apply (exec_safe o s a c').
  - cbn in H. pose proof (rn_cur _ _ _ H) as Hc'. cbn in Hc'. rewrite Hc in Hc'. injection Hc' as <-. exists a, c.
    eapply running_upd; try done. by destruct (cur_ok _ _ _ _ H Hx).
  - apply safe_good. rewrite <- E. by apply (resume_safe s a c').
Qed.

Lemma rtc_good k k' : good k → rtc step k k' → good k'.
Proof. intros Hg. induction 1; eauto using step_good. Qed.

(** ** Booting *)
Lemma bootstrap_loop_run s n i ls :
  fmem (files s) = [] → (i + n = 4)%nat → length (runqueue s) = 4%nat → ls = replicate i [] → Forall2 holds (take i (runqueue s)) ls →
  ∃ rq, bootstrap_loop n (Z.of_nat i) s = Ok (tt, with_rq rq s) ∧ Forall2 holds rq (replicate 4 []).
Proof.
  revert s i ls. induction n as [|n IH]; intros s i ls Hm Hi H4 -> Hh; cbn [bootstrap_loop].
  - exists (runqueue s). replace i with 4%nat in * by lia. rewrite take_ge in Hh by lia. by destruct s.
  - rewrite (bind_ok _ _ _ _ _ (kmalloc_run s Hm)), (bind_ok _ _ _ _ _ (kmalloc_run s Hm)).
    pose proof (Queue.q_create_empty (A := nat) 32 true true ltac:(lia)) as Hq.
    destruct (Queue.q_create true true 32) as [q|] eqn:Eq; [|done]. unfold Queue.q_create in Eq.
    assert (Queue.size q = 32) as Hsz by (cbn in Eq; by simplify_eq).
    erewrite bind_ok; [|reflexivity]. replace (Z.of_nat i + 1) with (Z.of_nat (S i)) by lia. rewrite Nat2Z.id.
    destruct (IH (with_rq (<[i := Some q]> (runqueue s)) s) (S i) (replicate (S i) [])) as (rq & E & Hrq); try done; [lia|cbn; by rewrite length_insert| |].
    + cbn [runqueue with_rq]. rewrite (take_S_r _ _ (Some q)) by (apply list_lookup_insert_eq; lia).
      rewrite take_insert_ge by done. rewrite replicate_S_end. apply Forall2_app; [done|]. constructor; [|done].
      exists q. split_and!; [done|done|lia].
    + exists rq. rewrite E. done.
Qed.

Lemma make_ids_run s n i ids :
  fmem (files s) = [] → holds (process_ids s) ids → (length ids + n ≤ 100)%nat →
  ∃ oq, make_ids n i s = Ok (tt, with_ids oq (numthreads s) s) ∧ holds oq (ids ++ seqZ i (Z.of_nat n)).
Proof.
  revert s i ids. induction n as [|n IH]; intros s i ids Hm Hh Hl; cbn [make_ids].
  - exists (process_ids s). rewrite app_nil_r. by destruct s.
  - destruct Hh as (q & Hq & Rq & Hsz). rewrite (bind_ok _ _ _ _ _ (kmalloc_run s Hm)). erewrite bind_ok; [|reflexivity].
    erewrite bind_ok; [|unfold getids; rewrite Hq; reflexivity]. rewrite (bind_ok _ _ _ _ _ (kmalloc_run s Hm)).
    destruct (Queue.addtail_run true q ids i Rq) as (q' & E & Rq' & Hsz'); [lia|by left|].
    rewrite (bind_ok _ _ _ _ _ (klift_run _ _ s E)). erewrite bind_ok; [|reflexivity]. erewrite bind_ok; [|reflexivity].
    destruct (IH (with_ids (Some q') (numthreads s) s) (i + 1) (ids ++ [i])) as (oq & E2 & Hoq); [done| |by len|].
    { exists q'. split_and!; [done|done|lia]. }
    exists oq. split; [exact E2|]. rewrite seqZ_cons by lia.
    replace (Z.pred (Z.of_nat (S n))) with (Z.of_nat n) by lia. by rewrite <- app_assoc in Hoq.
Qed.

(** Memory, run queues, no threads: the state [thread_bootstrap] starts from. *)
Lemma thread_boot_run s :
  fmem (files s) = [] → threads s = ∅ → Forall2 holds (runqueue s) (replicate 4 []) → sem_ok s →
  ∃ s2, thread_bootstrap s = Ok (tnext s, s2) ∧
    running s2 (mkA (replicate 4 []) [] [] (seqZ 1 99)) (tnext s) ∧
    ∃ x, threads s2 !! tnext s = Some x ∧ id x = Some 0 ∧ no_files x.
Proof.
  intros Hm Ht Hrq Hsem. unfold thread_bootstrap.
  erewrite bind_ok; [|by apply kmalloc_run]. erewrite bind_ok; [|reflexivity]. erewrite bind_ok; [|reflexivity].
  erewrite bind_ok; [|by apply kmalloc_run]. erewrite bind_ok; [|reflexivity]. erewrite bind_ok; [|reflexivity].
  erewrite bind_ok; [|by apply kmalloc_run]. erewrite bind_ok; [|by apply kmalloc_run].
  pose proof (Queue.q_create_empty (A := Z) MAX_THREADS true true ltac:(done)) as Hq.
  destruct (Queue.q_create true true MAX_THREADS) as [q|] eqn:Eq; [|done].
  assert (Queue.size q = 100) as Hsz by (cbn in Eq; by simplify_eq).
  erewrite bind_ok; [|reflexivity]. set (s1 := with_ids (Some q) _ _).
  destruct (make_ids_run s1 100 0 []) as (oq & E2 & Hoq); [done|exists q; split_and!; [done|done|lia]|done|].
  rewrite (bind_ok _ _ _ _ _ E2). set (s2 := with_ids oq _ s1). set (a := mkA (replicate 4 []) [] [] (seqZ 0 100)).
  assert (krep s2 a) as R2.
  { constructor; try done; (eexists; split; [reflexivity|apply array_create_rep]). }
  destruct (create_run s2 a 0 (seqZ 1 99) boot_name R2 eq_refl) as (s3 & y & E3 & B & Hid & Hf & _).
  rewrite (bind_ok _ _ _ _ _ E3). erewrite bind_ok; [|reflexivity]. erewrite bind_ok; [|reflexivity].
  eexists. split; [reflexivity|]. clear E2 E3 Eq Hq Hoq R2. destruct B as [B1 B2 B3 B4 B5 B6 B7 B8 B9 B10 _]. change (threads s2) with (threads s) in B2.
  change (tnext s2) with (tnext s) in *. rewrite Ht in B2.
  split; [|exists y; cbn; by rewrite B2, lookup_insert_eq].
  constructor; [constructor|done|done].
  - by destruct B1.
  - cbn. rewrite B2. constructor; cbn.
    + apply NoDup_singleton.
    + intros t. rewrite list_elem_of_singleton. destruct (decide (t = tnext s)) as [->|].
      * rewrite lookup_insert_eq. split; [done|eauto].
      * rewrite lookup_insert_ne, lookup_empty by done. split; [by intros [? ?]|done].
    + intros t x. rewrite lookup_insert_Some, lookup_empty. intros [[_ <-]|[_ ?]]; done.
    + intros i l t x Hi Hl. change [[]; []; []; []] with (replicate 4 (@nil nat)) in Hi.
      apply lookup_replicate in Hi as [-> _]. by apply not_elem_of_nil in Hl.
    + intros t x Hin. by apply not_elem_of_nil in Hin.
    + rewrite lookup_insert_eq. cbn. rewrite Hid. cbn. rewrite Permutation_app_comm. done.
    + intros t Hlt. rewrite lookup_insert_None, lookup_empty. split; [done|lia].
  - destruct Hsem as [S1 S2]. constructor; cbn; rewrite B7, B8; done.
  - intros t x. cbn. rewrite B2, lookup_insert_Some, lookup_empty. intros [[<- _]|[_ ?]]; done.
Qed.

Lemma boot_run s :
  fmem (files s) = [] → threads s = ∅ → length (runqueue s) = 4%nat → sem_ok s →
  ∃ s1 s2, scheduler_bootstrap s = Ok (tt, s1) ∧ thread_bootstrap s1 = Ok (tnext s, s2) ∧
    running s2 (mkA (replicate 4 []) [] [] (seqZ 1 99)) (tnext s) ∧
    ∃ x, threads s2 !! tnext s = Some x ∧ id x = Some 0 ∧ no_files x.
Proof.
  intros Hm Ht H4 Hsem. destruct (bootstrap_loop_run s 4 0 [] Hm) as (rq & E & Hrq); try done.
  exists (with_rq rq s). destruct (thread_boot_run (with_rq rq s) Hm Ht Hrq) as (s2 & E2 & H); [by destruct Hsem|].
  by exists s2.
Qed.

(** ** Theorems *)

(** A kernel that is about to boot, and the first thread's state after booting. *)
Record cold (s : kstate) : Prop := {
  cold_mem : fmem (files s) = [];
  cold_threads : threads s = ∅;
  cold_rq : length (runqueue s) = 4%nat;
  cold_sem : sem_ok s
}.

Definition booted (s2 : kstate) : Prop :=
  ∃ s s1 me, cold s ∧ scheduler_bootstrap s = Ok (tt, s1) ∧ thread_bootstrap s1 = Ok (me, s2).

Lemma booted_good s2 : booted s2 → good (false, s2).
Proof.
  intros (s & s1 & me & [] & E1 & E2). destruct (boot_run s) as (t1 & t2 & F1 & F2 & Hr & _); try done.
  rewrite F1 in E1. injection E1 as ->. rewrite F2 in E2. injection E2 as _ ->. by eexists _, _.
Qed.

(** The kernel's code never stops by itself. *)
Definition no_stop {A} (o : outcome A) : Prop := o ≠ Panic ∧ o ≠ Undef.

Lemma safe_no_stop o : safe o → no_stop o.
Proof. intros [->|[(? & ? & ? & -> & _)|(? & ? & ? & -> & _)]]; done. Qed.

(** Booting works: the boot thread runs with process id 0, and 99 ids are left. *)
Theorem thread_boot_ready s :
  cold s →
  ∃ s1 s2 x, scheduler_bootstrap s = Ok (tt, s1) ∧ thread_bootstrap s1 = Ok (tnext s, s2) ∧
    curthread s2 = Some (tnext s) ∧ threads s2 !! tnext s = Some x ∧ id x = Some 0 ∧ numthreads s2 = 1 ∧
    holds (process_ids s2) (seqZ 1 99).
Proof.
  intros []. destruct (boot_run s) as (s1 & s2 & E1 & E2 & [[R T S C] Hc Hn] & x & Hx & Hid & _); try done.
  exists s1, s2, x. split_and!; try done; [|by apply R]. unfold counted in Hn. cbn [a_zb a_ids length] in Hn. rewrite length_seqZ in Hn. lia.
Qed.

(** C6: From boot on, while memory lasts, whatever the threads do and however they are interleaved, timer interrupts included: the
    resumption of the thread the processor was given to never fails an assertion, dereferences a stale pointer or runs out of a
    buffer; nor does the next operation of the running thread when its caller keeps to the rules [enabled] (a process
    id is left for a fork, no file is open in a thread that exits, semaphores exist and do not overflow, no blocking in an
    interrupt handler).  A fork without a free process id and blocking in a handler do stop the kernel ([refused]). *)
Theorem thread_system_safe s k :
  booted s → rtc step (false, s) k →
  if k.1 then no_stop (resume k.2)
  else ∀ o, (enabled o k.2 → no_stop (exec o k.2)) ∧ (refused o k.2 → exec o k.2 = Panic).
Proof.
  intros Hb Hr. pose proof (rtc_good _ _ (booted_good s Hb) Hr) as Hg. destruct k as [[] s']; destruct Hg as (a & c & H).
  - by apply safe_no_stop, (resume_safe s' a c).
  - intros o. split; [intros Ho; by apply safe_no_stop, (exec_safe o s' a c)|by apply (exec_refused o s' a c)].
Qed.

(** In every state the machine reaches, no two threads have the same process id,
    and the ids are those of 0 to 99. *)
Theorem thread_ids_unique s b s' t u x y :
  booted s → rtc step (false, s) (b, s') → threads s' !! t = Some x → threads s' !! u = Some y → id x = id y →
  t = u ∧ ∃ p, id x = Some p ∧ 0 ≤ p < 100.
Proof.
  intros Hb Hr Hx Hy Hid. pose proof (rtc_good _ _ (booted_good s Hb) Hr) as Hg.
  assert (∃ a o, tinv (threads s') (tnext s') a o) as (a & o & T).
  { destruct b; destruct Hg as (a & c & H); exists a, (Some c); apply H. }
  by eapply tinv_ids.
Qed.

(** C29: [thread_wakeup] refines [wake]: exactly the threads asleep on the address become
    runnable, each at the tail of the queue of its priority and in the order they went to
    sleep; the others keep sleeping in their order.  In particular no wakeup is lost. *)
Theorem thread_wakeup_refines s a o ad :
  krep s a → tinv (threads s) (tnext s) a o → 0 < curspl s →
  ∃ s', thread_wakeup ad s = Ok (tt, s') ∧ krep s' (wake (threads s) ad a) ∧ threads s' = threads s ∧
    tinv (threads s) (tnext s) (wake (threads s) ad a) o.
Proof.
  intros R T Hspl. destruct (wakeup_run s a o ad R T Hspl) as (sl & rq & E & R' & T'). by eexists.
Qed.

(** The scheduler runs the first thread of the highest priority that has a thread
    ready, moves it one priority down for its next turn, and keeps all the other queues as
    they are; it waits only when no thread at all is ready. *)
Theorem scheduler_picks_highest s a e :
  kinv s a None e → 0 < curspl s → concat (a_rq a) ≠ [] →
  ∃ s' i t x rest, scheduler s = Ok (t, s') ∧ chosen (a_rq a) i t rest ∧
    krep s' (set_rq (<[i := rest]> (a_rq a)) a) ∧ threads s !! t = Some x ∧ priority x = Z.of_nat i ∧
    threads s' = <[t := set_priority (Z.max 0 (priority x - 1)) x]> (threads s).
Proof.
  intros K Hspl Hne.
  destruct (scheduler_run s a e K Hspl) as [[_ ?]|(s' & a1 & i & t & x & rest & E & Hch & Ha & K' & _ & _ & _ & Hx & Hp & Eth)];
    [done|]. rewrite (Ha Hne) in *. exists s', i, t, x, rest. by destruct K'.
Qed.

(** A fork with a process id left succeeds: the child is a new thread, it takes the
    first free id, and it becomes one of the threads of the system. *)
Theorem thread_fork_fresh s a c name :
  running s a c → a_ids a ≠ [] →
  ∃ s' a', thread_fork name s = Ok (inr (tnext s), s') ∧ running s' a' c ∧ threads s !! tnext s = None ∧
    (∃ pid y, a_ids a = pid :: a_ids a' ∧ threads s' !! tnext s = Some y ∧ id y = Some pid) ∧
    (∀ t, t ∈ members a' (Some c) ↔ t = tnext s ∨ t ∈ members a (Some c)).
Proof.
  intros Hr Hne. destruct (cur_thread _ _ _ Hr) as [x Hx].
  destruct (fork_run s a c x name Hr Hx Hne) as (s' & a' & E & Hr' & (pid & y & Hi & F & Hp) & H2). exists s', a'.
  split_and!; try done; [|exists pid, y; by rewrite (fk_threads _ _ _ _ _ F), lookup_insert_eq].
  by apply (ti_next _ _ _ _ (k_tinv _ _ _ _ (rn_kinv _ _ _ Hr))).
Qed.

(** The preallocation of [thread_fork] does not cover a yield: when the run queue of
    the thread is full to its last usable slot and memory has run out, [thread_yield] fails
    the assertion that says it cannot. *)
Theorem thread_yield_full_queue_panics s c x q l m :
  curthread s = Some c → threads s !! c = Some x → thread_ok x → is_Some (sleepers s) →
  runqueue s !! Z.to_nat (priority x) = Some (Some q) → Queue.q_rep q l → Queue.size q < 2 ^ 26 →
  Z.of_nat (length l) + 1 = Queue.size q → fmem (files s) = false :: m →
  thread_yield s = Panic.
Proof.
  intros Hc Hx Hok Hsl Hq R Hsz Hfull Hm. unfold thread_yield, yield_to, splhigh. erewrite bind_ok; [|reflexivity].
  set (s1 := with_spl _ _ _ s). erewrite bind_ok; [|unfold assert_sleepers; rewrite bool_decide_true by done; reflexivity].
  unfold mbind at 1, M_bind at 1. unfold mi_switch. erewrite bind_ok; [|by apply assert_spl_run]. erewrite bind_ok; [|reflexivity].
  change (curthread s1) with (curthread s). rewrite Hc. erewrite bind_ok; [|by apply gett_run].
  erewrite bind_ok; [|by apply check_stack_run]. erewrite bind_ok; [|reflexivity]. cbn [stash].
  assert (∃ s2, make_runnable c (with_cur None s1) = Ok (ENOMEM, s2)) as [s2 E].
  { unfold make_runnable. erewrite bind_ok; [|by apply assert_spl_run]. erewrite bind_ok; [|by apply gett_run].
    destruct (to_prio _ Hok). erewrite bind_ok; [|unfold getq; rewrite (proj2 (Z.leb_le 0 _)) by done; cbn [runqueue with_cur with_spl s1]; rewrite Hq; reflexivity].
    erewrite bind_ok; [|unfold kmalloc_ok, kfiles, zoom, fmalloc_ok; cbn [files with_cur with_spl s1]; rewrite Hm; reflexivity].
    erewrite bind_ok; [|apply klift_run; by apply (Queue.addtail_nomem q l c)]. cbv beta iota. by eexists. }
  rewrite (bind_ok _ _ _ _ _ E). done.
Qed.

(** ** A concrete kernel *)

(** Before boot: a semaphore with no units, a timer interrupt and a [V] to come. *)
Definition cold_kernel : kstate :=
  mkkstate ∅ 3 None [None; None; None; None] None None None 0 15 false 0 0 {[7%nat := 0]} [IrqClock; IrqV 7] [] (mkfstate ∅ [] []).

Lemma cold_kernel_cold : cold cold_kernel.
Proof.
  constructor; try done. constructor.
  - intros sem c Hc. cbn in Hc. apply lookup_singleton_Some in Hc as [<- <-]. cbn. lia.
  - repeat constructor. cbn. eauto.
Qed.

Lemma kernel_booted : ∃ s, booted s ∧ enabled OExit s.
Proof.
  destruct (boot_run cold_kernel) as (s1 & s2 & E1 & E2 & Hr & x & Hx & _ & Hf); [apply cold_kernel_cold..|].
  exists s2. split; [exists cold_kernel, s1, 3%nat; split; [apply cold_kernel_cold|done]|].
  intros c y Hc Hy. rewrite (rn_cur _ _ _ Hr) in Hc. simplify_eq. done.
Qed.

(** The boot thread, interrupts off. *)
Lemma kernel_running : ∃ s, running s (mkA (replicate 4 []) [] [] (seqZ 1 99)) 3%nat ∧ 0 < curspl s.
Proof.
  destruct (boot_run cold_kernel) as (s1 & s2 & _ & _ & Hr & _); [apply cold_kernel_cold..|].
  exists (with_spl SPL_HIGH false (in_interrupt s2) s2). split; [by apply running_spl|done].
Qed.

Lemma thread_boot_ready_witness :
  ∃ s1 s2 x, scheduler_bootstrap cold_kernel = Ok (tt, s1) ∧ thread_bootstrap s1 = Ok (3%nat, s2) ∧
    curthread s2 = Some 3%nat ∧ threads s2 !! 3%nat = Some x ∧ id x = Some 0 ∧ numthreads s2 = 1 ∧
    holds (process_ids s2) (seqZ 1 99).
Proof. apply (thread_boot_ready cold_kernel cold_kernel_cold). Defined.

Lemma thread_system_safe_witness : ∃ s, booted s ∧ no_stop (thread_yield s) ∧ no_stop (thread_exit s).
Proof.
  destruct kernel_booted as (s & Hs & He). exists s. split; [exact Hs|].
  split; [exact (proj1 (thread_system_safe s (false, s) Hs (rtc_refl _ _) OYield) I)|].
  exact (proj1 (thread_system_safe s (false, s) Hs (rtc_refl _ _) OExit) He).
Defined.

Lemma thread_ids_unique_witness :
  ∃ s x, booted s ∧ threads s !! 3%nat = Some x ∧ ∃ p, id x = Some p ∧ 0 ≤ p < 100.
Proof.
  destruct (boot_run cold_kernel) as (s1 & s2 & E1 & E2 & _ & x & Hx & _); [apply cold_kernel_cold..|].
  assert (booted s2) as Hb by (exists cold_kernel, s1, 3%nat; split; [apply cold_kernel_cold|done]).
  exists s2, x. split; [exact Hb|]. split; [exact Hx|].
  apply (thread_ids_unique s2 false s2 3%nat 3%nat x x Hb (rtc_refl _ _) Hx Hx eq_refl).
Defined.

Lemma thread_wakeup_refines_witness : ∃ s s', thread_wakeup lbolt s = Ok (tt, s') ∧ krep s' (mkA (replicate 4 []) [] [] (seqZ 1 99)).
Proof.
  destruct kernel_running as (s & [[R T S C] Hc Hn] & Hspl). destruct (thread_wakeup_refines s _ (Some 3%nat) lbolt R T Hspl)
    as (s' & E & R' & _). exists s, s'. split; [exact E|exact R'].
Defined.

Lemma scheduler_picks_highest_witness : ∃ s s', scheduler s = Ok (3%nat, s').
Proof.
  destruct kernel_running as (s & Hr & Hspl). destruct (cur_thread _ _ _ Hr) as [x Hx]. destruct Hr as [K Hc Hn].
  destruct (stash_run S_READY s _ 3%nat x K Hspl Hx) as (s1 & _ & K1 & F & _); [done|done|].
  pose proof (to_prio _ (ti_ok _ _ _ _ (k_tinv _ _ _ _ K) _ x Hx)) as Hp. unfold NUM_PRIORITIES in Hp.
  assert (∀ i t rest p, (p < 4)%nat → chosen (a_rq (put_on S_READY 3 p (mkA (replicate 4 []) [] [] (seqZ 1 99)))) i t rest →
    t = 3%nat) as Hall.
  { intros i t rest [|[|[|[|p]]]] Hlt [Hi _]; [..|lia]; destruct i as [|[|[|[|i]]]]; cbn in Hi; by simplify_eq. }
  destruct (scheduler_picks_highest s1 _ _ K1) as (s' & i & t & y & rest & E & Hch & _).
  - by rewrite (sf_spl _ _ F).
  - assert (Z.to_nat (priority x) < 4)%nat as Hlt by lia. destruct (Z.to_nat (priority x)) as [|[|[|[|p]]]]; [done..|lia].
  - exists s1, s'. rewrite E. f_equal. f_equal. eapply Hall; [|exact Hch]. lia.
Defined.

Lemma thread_fork_fresh_witness : ∃ s s' n, thread_fork [97; 0] s = Ok (inr n, s').
Proof.
  destruct kernel_running as (s & Hr & _). destruct (thread_fork_fresh s _ 3%nat [97; 0] Hr) as (s' & a' & E & _); [done|].
  exists s, s', (tnext s). exact E.
Defined.

(** No id left. *)
Definition no_ids : kstate :=
  with_ids (Some (Queue.mkqueue 1 0 0 [None])) 100 cold_kernel.

Lemma thread_fork_no_ids_panics_witness : thread_fork [97; 0] no_ids = Panic.
Proof.
  apply (thread_fork_no_ids_panics no_ids (Queue.mkqueue 1 0 0 [None])); [done|done|]. by constructor.
Defined.

(** A thread of priority 0 whose run queue, of two slots, already holds a thread. *)
Definition full_kernel : kstate :=
  mkkstate {[3%nat := mkthread KStart 0 [] None None None None (Some (mkft (Array.mkarray 0 0 None) 0)) 0 (Some 0)]} 4 (Some 3%nat)
    [Some Queue.full_ring; None; None; None] (Some (Array.mkarray 0 0 None)) (Some (Array.mkarray 0 0 None)) None 2 0 true 0 0
    ∅ [] [] (mkfstate ∅ [] [false]).

Lemma thread_yield_full_queue_panics_witness : thread_yield full_kernel = Panic.
Proof.
  eapply (thread_yield_full_queue_panics full_kernel 3%nat _ Queue.full_ring [5%nat] []); try reflexivity.
  - by constructor.
  - by eexists.
  - apply Queue.full_ring_rep.
Defined.

End Threadsys.
