(* ===== verification/Ram.v ===== *)
(** * Physical memory before the VM system, and the kernel page allocator
    (kern/arch/mips/mips/ram.c, the first part of kern/arch/mips/mips/dumbvm.c)

    Pages are taken from the bottom of free memory and never given back.  All
    arithmetic is on 32-bit unsigned integers; [ram_stealmem_wraps] shows what that means
    for requests close to 4 GB. *)
From stdpp Require Import base list numbers.
From S2P Require Import Prelude.
Local Open Scope Z_scope.

Module Ram.

Definition PAGE_SIZE : Z := 4096.
Definition PAGE_FRAME : Z := 4294963200.   (* 0xfffff000 *)
Definition MIPS_KSEG0 : Z := 2147483648.   (* 0x80000000 *)
Definition MAXRAM : Z := 508 * 1024 * 1024.

Definition PADDR_TO_KVADDR (paddr : Z) : Z := u32 (paddr + MIPS_KSEG0).

Record ram := mkram { firstpaddr : Z; lastpaddr : Z }.

(** [ramsize] is what [mips_ramsize()] reads, [firstfree] what start.S saved. *)
Definition ram_bootstrap (ramsize firstfree : Z) : ram :=
  let ramsize := if ramsize >? MAXRAM then MAXRAM else ramsize in
  mkram (u32 (firstfree - MIPS_KSEG0)) ramsize.

Definition ram_stealmem (npages : Z) (r : ram) : Z * ram :=
  let size := u32 (npages * PAGE_SIZE) in
  if u32 (firstpaddr r + size) >? lastpaddr r then (0, r)
  else (firstpaddr r, mkram (u32 (firstpaddr r + size)) (lastpaddr r)).

Definition ram_getsize (r : ram) : (Z * Z) * ram := ((firstpaddr r, lastpaddr r), mkram 0 0).

Definition getppages (npages : Z) (r : ram) : Z * ram := ram_stealmem npages r.

Definition alloc_kpages (npages : Z) (r : ram) : Z * ram :=
  let '(pa, r) := getppages npages r in
  if pa =? 0 then (0, r) else (PADDR_TO_KVADDR pa, r).

Definition free_kpages (addr : Z) (r : ram) : ram := r.

(** ** Page numbers and offsets *)
Lemma land_low x : Z.land x (PAGE_SIZE - 1) = x `mod` 4096.
Proof. change (PAGE_SIZE - 1) with (Z.ones 12). by rewrite Z.land_ones. Qed.

Lemma land_high x : 0 ≤ x < 2 ^ 32 → Z.land x PAGE_FRAME = x - x `mod` 4096.
Proof.
  intros Hx. change PAGE_FRAME with (Z.shiftl (Z.ones 20) 12).
  replace (x - x `mod` 4096) with (Z.shiftl (Z.shiftr x 12) 12).
  2: { rewrite Z.shiftl_mul_pow2, Z.shiftr_div_pow2 by lia. change (2 ^ 12) with 4096. pose proof (Z.div_mod x 4096). lia. }
  apply Z.bits_inj'. intros n Hn. rewrite Z.land_spec, !Z.shiftl_spec by lia. destruct (decide (12 ≤ n)).
  - rewrite Z.shiftr_spec by lia. replace (n - 12 + 12) with n by lia.
    destruct (decide (n < 32)).
    + rewrite Z.ones_spec_low by lia. by rewrite andb_true_r.
    + rewrite (Z.bits_above_log2 x n); [done|lia|]. destruct (decide (x = 0)) as [->|]; [cbn; lia|].
      apply Z.log2_lt_pow2; [lia|]. apply Z.lt_le_trans with (2 ^ 32); [lia|]. apply Z.pow_le_mono_r; lia.
  - rewrite !(Z.testbit_neg_r _ (n - 12)) by lia. by rewrite andb_false_r.
Qed.

(** Bits below the page offset do not interfere with a page address. *)
Lemma lor_page pa ty : (4096 | pa) → 0 ≤ ty < 4096 → Z.lor pa ty = pa + ty.
Proof.
  intros [k ->] Ht. rewrite <- Z.lxor_lor, Z.add_nocarry_lxor; [done|..].
  all: apply Z.bits_inj'; intros n Hn; rewrite Z.land_spec, Z.bits_0; change 4096 with (2 ^ 12);
    rewrite <- Z.shiftl_mul_pow2 by lia; rewrite Z.shiftl_spec by lia.
  all: destruct (decide (n < 12)); [by rewrite Z.testbit_neg_r by lia|].
  all: rewrite (Z.bits_above_log2 ty n), andb_false_r; [done|lia|];
    destruct (decide (ty = 0)) as [->|]; [cbn; lia|]; apply Z.log2_lt_pow2; [lia|];
    apply Z.lt_le_trans with (2 ^ 12); [lia|]; apply Z.pow_le_mono_r; lia.
Qed.

(** ** Specification *)

(** Free memory is a range of whole pages above page 0. *)
Record ram_wf (r : ram) : Prop := {
  rw_align : (PAGE_SIZE | firstpaddr r);
  rw_range : 0 < firstpaddr r ≤ lastpaddr r;
  rw_last : lastpaddr r ≤ MAXRAM
}.

Lemma stealmem_run n r :
  ram_wf r → 0 ≤ n ≤ 2 ^ 19 →
  if decide (firstpaddr r + n * PAGE_SIZE ≤ lastpaddr r)
  then ram_stealmem n r = (firstpaddr r, mkram (firstpaddr r + n * PAGE_SIZE) (lastpaddr r)) ∧
       ram_wf (mkram (firstpaddr r + n * PAGE_SIZE) (lastpaddr r))
  else ram_stealmem n r = (0, r).
Proof.
  intros [Ha Hr Hl] Hn. unfold ram_stealmem, MAXRAM, PAGE_SIZE in *.
  rewrite (u32_small (n * 4096)), (u32_small (firstpaddr r + n * 4096)) by lia.
  destruct (decide (firstpaddr r + n * 4096 ≤ lastpaddr r)) as [H|H].
  - destruct (Z.gtb_spec (firstpaddr r + n * 4096) (lastpaddr r)); [lia|].
    split; [done|]. constructor; cbn; unfold MAXRAM, PAGE_SIZE; try lia. apply Z.divide_add_r; [done|]. by exists n.
  - by rewrite (proj2 (Z.gtb_lt _ _)) by lia.
Qed.

Lemma alloc_kpages_run n r :
  ram_wf r → 0 < n ≤ 2 ^ 19 →
  if decide (firstpaddr r + n * PAGE_SIZE ≤ lastpaddr r)
  then alloc_kpages n r = (firstpaddr r + MIPS_KSEG0, mkram (firstpaddr r + n * PAGE_SIZE) (lastpaddr r)) ∧
       ram_wf (mkram (firstpaddr r + n * PAGE_SIZE) (lastpaddr r))
  else alloc_kpages n r = (0, r).
Proof.
  intros H Hn. pose proof (stealmem_run n r H ltac:(lia)) as E. unfold alloc_kpages, getppages. destruct H as [Ha Hr Hl].
  destruct (decide _); [|by rewrite E]. destruct E as [-> W]. split; [|done].
  rewrite (proj2 (Z.eqb_neq _ _)) by lia. unfold PADDR_TO_KVADDR, MIPS_KSEG0, MAXRAM in *. by rewrite u32_small by lia.
Qed.

(** A request for so many pages that the end of the block wraps around is granted,
    and moves the start of free memory backwards: memory that is in use will be handed out a
    second time. *)
Theorem ram_stealmem_wraps n r :
  ram_wf r → 0 < n < 2 ^ 20 → 2 ^ 32 ≤ firstpaddr r + n * PAGE_SIZE →
  ram_stealmem n r = (firstpaddr r, mkram (firstpaddr r + n * PAGE_SIZE - 2 ^ 32) (lastpaddr r)) ∧
  firstpaddr r + n * PAGE_SIZE - 2 ^ 32 < firstpaddr r.
Proof.
  intros [Ha Hr Hl] Hn Hw. unfold ram_stealmem, MAXRAM, PAGE_SIZE in *. rewrite (u32_small (n * 4096)) by lia.
  assert (u32 (firstpaddr r + n * 4096) = firstpaddr r + n * 4096 - 2 ^ 32) as ->.
  { unfold u32. symmetry. apply Z.mod_unique with 1; lia. }
  split; [|lia]. destruct (Z.gtb_spec (firstpaddr r + n * 4096 - 2 ^ 32) (lastpaddr r)); [lia|done].
Qed.

Lemma ram_stealmem_wraps_witness :
  ram_stealmem 1048575 (mkram 8192 65536) = (8192, mkram 4096 65536) ∧ 4096 < 8192.
Proof.
  apply (ram_stealmem_wraps 1048575 (mkram 8192 65536)); [|lia|cbn; unfold PAGE_SIZE; lia].
  constructor; cbn; unfold MAXRAM, PAGE_SIZE; try lia. by exists 2.
Defined.

End Ram.
