(* ===== verification/Kheap.v ===== *)
(** * The kernel heap (kern/lib/kheap.c)

    The pool-based subpage allocator, with its data structures as they are: the table of
    [pageref]s and the bit map of those in use, the list of all pages and the list per block
    size (both through the [pageref]s), and on every page a free list that runs through the
    first word of the free blocks, in kernel memory.  [words] is that memory, a word per
    address; reading a word nobody has written is [Undef].  A [struct pageref *] is an index
    into [pagerefs].  The code runs with interrupts off, so each call is one step.

    Kheapsafe.v proves that this implements a heap. *)
From stdpp Require Import base list gmap numbers.
From S2P Require Import Prelude Ram.
Local Open Scope Z_scope.

Module Kheap.
Import Ram.

Definition NSIZES : Z := 8.
Definition sizes : list Z := [16; 32; 64; 128; 256; 512; 1024; 2048].
Definition LARGEST_SUBPAGE_SIZE : Z := 2048.

Record pageref := mkpr {
  next_samesize : option nat;
  next_all : option nat;
  pageaddr_and_blocktype : Z;
  freelist_offset : Z;
  nfree : Z
}.

Definition INVALID_OFFSET : Z := 65535.
Definition PR_PAGEADDR (pr : pageref) : Z := Z.land (pageaddr_and_blocktype pr) PAGE_FRAME.
Definition PR_BLOCKTYPE (pr : pageref) : Z := Z.land (pageaddr_and_blocktype pr) (PAGE_SIZE - 1).
Definition MKPAB (pa blk : Z) : Z := Z.lor (Z.land pa PAGE_FRAME) (Z.land blk (PAGE_SIZE - 1)).

Definition NPAGEREFS : Z := 256.
Definition INUSE_WORDS : Z := 8.

Record heap := mkheap {
  pagerefs : list pageref;
  pagerefs_inuse : list Z;
  sizebases : list (option nat);
  allbase : option nat;
  words : gmap Z Z;
  ram_ : ram
}.

Abbreviation H := (M heap).

Definition with_refs (x : list pageref) (h : heap) : heap :=
  mkheap x (pagerefs_inuse h) (sizebases h) (allbase h) (words h) (ram_ h).
Definition with_inuse (x : list Z) (h : heap) : heap :=
  mkheap (pagerefs h) x (sizebases h) (allbase h) (words h) (ram_ h).
Definition with_sizebases (x : list (option nat)) (h : heap) : heap :=
  mkheap (pagerefs h) (pagerefs_inuse h) x (allbase h) (words h) (ram_ h).
Definition with_allbase (x : option nat) (h : heap) : heap :=
  mkheap (pagerefs h) (pagerefs_inuse h) (sizebases h) x (words h) (ram_ h).
Definition with_words (x : gmap Z Z) (h : heap) : heap :=
  mkheap (pagerefs h) (pagerefs_inuse h) (sizebases h) (allbase h) x (ram_ h).
Definition with_ram (x : ram) (h : heap) : heap :=
  mkheap (pagerefs h) (pagerefs_inuse h) (sizebases h) (allbase h) (words h) x.

(** [*pr], and assignments to its fields. *)
Definition getpr (p : nat) : H pageref := fun h =>
  match pagerefs h !! p with
  | Some pr => Ok (pr, h)
  | None => Undef
  end.

Definition updpr (p : nat) (f : pageref → pageref) : H unit :=
  let* pr := getpr p in
  modify (fun h => with_refs (<[p := f pr]> (pagerefs h)) h).

Definition set_samesize (x : option nat) (pr : pageref) : pageref :=
  mkpr x (next_all pr) (pageaddr_and_blocktype pr) (freelist_offset pr) (nfree pr).
Definition set_all (x : option nat) (pr : pageref) : pageref :=
  mkpr (next_samesize pr) x (pageaddr_and_blocktype pr) (freelist_offset pr) (nfree pr).
Definition set_free (off n : Z) (pr : pageref) : pageref :=
  mkpr (next_samesize pr) (next_all pr) (pageaddr_and_blocktype pr) off n.
Definition set_page (pab n : Z) (pr : pageref) : pageref :=
  mkpr (next_samesize pr) (next_all pr) pab (freelist_offset pr) n.

(** Words of kernel memory: [fl->next]. *)
Definition ldw (a : Z) : H Z := fun h =>
  match words h !! a with
  | Some w => Ok (w, h)
  | None => Undef
  end.

Definition stw (a w : Z) : H unit := modify (fun h => with_words (<[a := w]> (words h)) h).

(** [sizes[blktype]]. *)
Definition size_of (blktype : Z) : H Z := lift (of_option (sizes !! Z.to_nat blktype)).

Definition getbase (blktype : Z) : H (option nat) := fun h =>
  match sizebases h !! Z.to_nat blktype with
  | Some b => Ok (b, h)
  | None => Undef
  end.

Definition setbase (blktype : Z) (b : option nat) : H unit :=
  modify (fun h => with_sizebases (<[Z.to_nat blktype := b]> (sizebases h)) h).

(** [ptr[i] = 0xdeadbeef] for the words from [a] on. *)
Fixpoint fill_deadbeef (n : nat) (a : Z) : H unit :=
  match n with
  | O => mret tt
  | S n' =>
      let* _ := stw a 3735928559 in
      fill_deadbeef n' (a + 4)
  end.

(** ** Pagerefs *)

(** [for (k=1,j=0; k!=0; k<<=1,j++) if ((w & k)==0) ...]: the first clear bit of [w]. *)
Fixpoint clear_bit (n : nat) (w k j : Z) : option Z :=
  match n with
  | O => None
  | S n' => if Z.land w k =? 0 then Some j else clear_bit n' w (u32 (Z.shiftl k 1)) (j + 1)
  end.

Fixpoint inuse_loop (n : nat) (i : Z) : H (option nat) :=
  match n with
  | O => mret None
  | S n' =>
      let* inuse := gets pagerefs_inuse in
      let* w := lift (of_option (inuse !! Z.to_nat i)) in
      if w =? 4294967295 then inuse_loop n' (i + 1)
      else
        match clear_bit 32 w 1 0 with
        | Some j =>
            let* _ := modify (with_inuse (<[Z.to_nat i := Z.lor w (Z.shiftl 1 j)]> inuse)) in
            mret (Some (Z.to_nat (i * 32 + j)))
        | None => panic
        end
  end.

Definition allocpageref : H (option nat) := inuse_loop 8 0.

Definition freepageref (p : nat) : H unit :=
  let j := Z.of_nat p in
  let* _ := massert (j <? NPAGEREFS) in
  let i := j `div` 32 in
  let k := Z.shiftl 1 (j `mod` 32) in
  let* inuse := gets pagerefs_inuse in
  let* w := lift (of_option (inuse !! Z.to_nat i)) in
  let* _ := massert (negb (Z.land w k =? 0)) in
  modify (with_inuse (<[Z.to_nat i := Z.ldiff w k]> inuse)).

(** ** The page lists *)

(** The walk along [next_samesize], with a pointer [guy] to the link: [prev] is the
    pageref [guy] points into, if it is not the base. *)
Fixpoint remove_same (fuel : nat) (pr : nat) (blktype : Z) (prev guy : option nat) : H unit :=
  match guy with
  | None => mret tt
  | Some g =>
      match fuel with
      | O => fun _ => Spin
      | S fuel' =>
          let* x := getpr g in
          if bool_decide (g = pr) then
            match prev with
            | None => setbase blktype (next_samesize x)
            | Some q => updpr q (set_samesize (next_samesize x))
            end
          else remove_same fuel' pr blktype (Some g) (next_samesize x)
      end
  end.

Fixpoint remove_all (fuel : nat) (pr : nat) (prev guy : option nat) : H unit :=
  match guy with
  | None => mret tt
  | Some g =>
      match fuel with
      | O => fun _ => Spin
      | S fuel' =>
          let* x := getpr g in
          if bool_decide (g = pr) then
            match prev with
            | None => modify (with_allbase (next_all x))
            | Some q => updpr q (set_all (next_all x))
            end
          else remove_all fuel' pr (Some g) (next_all x)
      end
  end.

(** There are at most [NPAGEREFS] pages on a list. *)
Definition LISTFUEL : nat := 257.

Definition remove_lists (pr : nat) (blktype : Z) : H unit :=
  let* _ := massert ((0 <=? blktype) && (blktype <? NSIZES)) in
  let* b := getbase blktype in
  let* _ := remove_same LISTFUEL pr blktype None b in
  let* b := gets allbase in
  remove_all LISTFUEL pr None b.

(** ** Allocation *)
Fixpoint blocktype_from (i : Z) (l : list Z) (sz : Z) : H Z :=
  match l with
  | [] => panic
  | s :: l' => if sz <=? s then mret i else blocktype_from (i + 1) l' sz
  end.

Definition blocktype (sz : Z) : H Z := blocktype_from 0 sizes sz.

(** The search for a page with a free block. *)
Fixpoint find_page (fuel : nat) (blktype : Z) (pr : option nat) : H (option nat) :=
  match pr with
  | None => mret None
  | Some p =>
      match fuel with
      | O => fun _ => Spin
      | S fuel' =>
          let* x := getpr p in
          let* _ := massert (PR_BLOCKTYPE x =? blktype) in
          if nfree x >? 0 then mret (Some p) else find_page fuel' blktype (next_samesize x)
      end
  end.

(** [doalloc:] *)
Definition doalloc (p : nat) : H Z :=
  let* x := getpr p in
  let* _ := massert (freelist_offset x <? PAGE_SIZE) in
  let prpage := PR_PAGEADDR x in
  let fla := u32 (prpage + freelist_offset x) in
  let* fl := ldw fla in
  let n := u16 (nfree x - 1) in
  let* _ := (if negb (fl =? 0) then
               let* _ := massert (n >? 0) in
               let* _ := massert (u32 (fl - prpage) <? PAGE_SIZE) in
               updpr p (set_free (u16 (u32 (fl - prpage))) n)
             else
               let* _ := massert (n =? 0) in
               updpr p (set_free INVALID_OFFSET n)) in
  mret fla.

(** [for (i=1; i<pr->nfree; i++) ...]: threads the free list from block [i] on; hands back
    the address of the last block. *)
Fixpoint thread_list (n : nat) (fla i size fl : Z) : H Z :=
  match n with
  | O => mret fl
  | S n' =>
      let fl := u32 (fla + i * size) in
      let next := u32 (fla + (i - 1) * size) in
      let* _ := stw fl next in
      let* _ := massert (negb (fl =? next)) in
      thread_list n' fla (i + 1) size fl
  end.

(** A page fresh from [alloc_kpages] is filled with free blocks and put on the lists. *)
Definition new_page (p : nat) (prpage blktype : Z) : H unit :=
  let* size := size_of blktype in
  let n := u16 (PAGE_SIZE `div` size) in
  let* _ := updpr p (set_page (MKPAB prpage blktype) n) in
  let* _ := stw prpage 0 in
  let* fl := thread_list (Z.to_nat (n - 1)) prpage 1 size prpage in
  let off := u16 (u32 (fl - prpage)) in
  let* _ := updpr p (set_free off n) in
  let* _ := massert (off =? (n - 1) * size) in
  let* b := getbase blktype in
  let* _ := updpr p (set_samesize b) in
  let* _ := setbase blktype (Some p) in
  let* b := gets allbase in
  let* _ := updpr p (set_all b) in
  modify (with_allbase (Some p)).

Definition kpages (npages : Z) : H Z := fun h =>
  let '(a, r) := alloc_kpages npages (ram_ h) in Ok (a, with_ram r h).

(** NULL is [None]. *)
Definition subpage_kmalloc (sz : Z) : H (option Z) :=
  let* blktype := blocktype sz in
  let* b := getbase blktype in
  let* o := find_page LISTFUEL blktype b in
  match o with
  | Some p => let* a := doalloc p in mret (Some a)
  | None =>
      let* o := allocpageref in
      match o with
      | None => mret None
      | Some p =>
          let* prpage := kpages 1 in
          if prpage =? 0 then
            let* _ := freepageref p in
            mret None
          else
            let* _ := new_page p prpage blktype in
            let* a := doalloc p in
            mret (Some a)
      end
  end.

Fixpoint find_addr (fuel : nat) (ptraddr : Z) (pr : option nat) : H (option nat) :=
  match pr with
  | None => mret None
  | Some p =>
      match fuel with
      | O => fun _ => Spin
      | S fuel' =>
          let* x := getpr p in
          let blktype := PR_BLOCKTYPE x in
          let* _ := massert ((0 <=? blktype) && (blktype <? NSIZES)) in
          if (PR_PAGEADDR x <=? ptraddr) && (ptraddr <? u32 (PR_PAGEADDR x + PAGE_SIZE)) then mret (Some p)
          else find_addr fuel' ptraddr (next_all x)
      end
  end.

Definition subpage_kfree (ptraddr : Z) : H Z :=
  let* b := gets allbase in
  let* o := find_addr LISTFUEL ptraddr b in
  match o with
  | None => mret (-1)
  | Some p =>
      let* x := getpr p in
      let prpage := PR_PAGEADDR x in
      let blktype := PR_BLOCKTYPE x in
      let* size := size_of blktype in
      let offset := u32 (ptraddr - prpage) in
      if (PAGE_SIZE <=? offset) || negb (offset `mod` size =? 0) then panic
      else
        let* _ := fill_deadbeef (Z.to_nat (size `div` 4)) ptraddr in
        let fla := u32 (prpage + offset) in
        let* _ := stw fla (if freelist_offset x =? INVALID_OFFSET then 0
                           else u32 (prpage + freelist_offset x)) in
        let n := u16 (nfree x + 1) in
        let* _ := updpr p (set_free (u16 offset) n) in
        let* _ := massert (n <=? PAGE_SIZE `div` size) in
        let* _ := (if n =? PAGE_SIZE `div` size then
                     let* _ := remove_lists p blktype in
                     let* _ := modify (fun h => with_ram (free_kpages prpage (ram_ h)) h) in
                     freepageref p
                   else mret tt) in
        mret 0
  end.

Definition kmalloc (sz : Z) : H (option Z) :=
  if LARGEST_SUBPAGE_SIZE <=? sz then
    let npages := u32 (sz + PAGE_SIZE - 1) `div` PAGE_SIZE in
    let* address := kpages npages in
    mret (if address =? 0 then None else Some address)
  else subpage_kmalloc sz.

Definition kfree (ptr : option Z) : H unit :=
  match ptr with
  | None => mret tt
  | Some a =>
      let* r := subpage_kfree a in
      if negb (r =? 0) then
        let* _ := massert (a `mod` PAGE_SIZE =? 0) in
        modify (fun h => with_ram (free_kpages a (ram_ h)) h)
      else mret tt
  end.

(** The heap before the first allocation. *)
Definition heap0 (r : ram) : heap :=
  mkheap (replicate 256 (mkpr None None 0 0 0)) (replicate 8 0) (replicate 8 None) None ∅ r.

End Kheap.
