(* ===== verification/Kheapsafe.v ===== *)
(** * The kernel heap is a heap

    The specification is a finite map from the addresses of the allocated blocks to their
    sizes.  [heap_rep] relates it to the data structures of Kheap.v, through a ghost list of
    the pages in use with the free blocks of each ([gpage]).  [kmalloc] adds a block that is
    disjoint from all the others, [kfree] takes one away, and what a client writes into its
    own blocks is of no concern to either. *)
From stdpp Require Import base list list_numbers gmap numbers.
From S2P Require Import Prelude Ram Kheap.
Local Open Scope Z_scope.

Module Kheapsafe.
Import Ram Kheap.

(** ** Block sizes *)
Definition bsize (ty : Z) : Z := 2 ^ (ty + 4).
Definition bcount (ty : Z) : Z := 2 ^ (8 - ty).

Lemma type_cases ty (P : Z → Prop) :
  0 ≤ ty < 8 → P 0 → P 1 → P 2 → P 3 → P 4 → P 5 → P 6 → P 7 → P ty.
Proof.
  intros Ht. assert (ty = 0 ∨ ty = 1 ∨ ty = 2 ∨ ty = 3 ∨ ty = 4 ∨ ty = 5 ∨ ty = 6 ∨ ty = 7) as Hc by lia.
  intros. by destruct_or! Hc; subst ty.
Qed.

Lemma size_of_run ty h : 0 ≤ ty < 8 → size_of ty h = Ok (bsize ty, h).
Proof. intros H. by apply (type_cases ty (fun ty => size_of ty h = Ok (bsize ty, h))). Qed.

Lemma bsize_facts ty :
  0 ≤ ty < 8 → 16 ≤ bsize ty ≤ 2048 ∧ (4 | bsize ty) ∧ bsize ty * bcount ty = 4096 ∧ 2 ≤ bcount ty ≤ 256 ∧
    4096 `div` bsize ty = bcount ty.
Proof.
  intros H. apply (type_cases ty (fun ty => 16 ≤ bsize ty ≤ 2048 ∧ (4 | bsize ty) ∧ bsize ty * bcount ty = 4096 ∧
    2 ≤ bcount ty ≤ 256 ∧ 4096 `div` bsize ty = bcount ty)); [done|..]; unfold bsize, bcount;
    (split_and!; try (vm_compute; done); [by apply Z.mod_divide|..]).
Qed.

(** ** Page addresses and block types in one word *)
Lemma mkpab_eq pa ty : 0 ≤ pa < 2 ^ 32 → (4096 | pa) → 0 ≤ ty < 8 → MKPAB pa ty = pa + ty.
Proof.
  intros Hp Hd Ht. unfold MKPAB. rewrite land_low, land_high by done. rewrite (Z.mod_small ty) by lia.
  pose proof Hd as [k ->]. rewrite Z.mod_mul, Z.sub_0_r by lia. apply lor_page; [done|lia].
Qed.

Lemma pab_split pr pa ty :
  pageaddr_and_blocktype pr = pa + ty → 0 ≤ pa < 2 ^ 32 - 4096 → (4096 | pa) → 0 ≤ ty < 8 →
  PR_PAGEADDR pr = pa ∧ PR_BLOCKTYPE pr = ty.
Proof.
  intros E Hp [k ->] Ht. unfold PR_PAGEADDR, PR_BLOCKTYPE. rewrite E, land_low, land_high by lia.
  rewrite Z.add_comm, Z.mod_add, Z.mod_small by lia. lia.
Qed.

(** ** The bit map of pagerefs *)

(** The bits that are set are those of [P]. *)
Record bits_ok (ws : list Z) (P : nat → Prop) : Prop := {
  bo_len : length ws = 8%nat;
  bo_word : Forall (fun w => 0 ≤ w < 2 ^ 32) ws;
  bo_bit : ∀ i w b, ws !! i = Some w → (b < 32)%nat → Z.testbit w (Z.of_nat b) = true ↔ P (i * 32 + b)%nat
}.

Lemma land_pow2 w j : 0 ≤ j → Z.land w (2 ^ j) = if Z.testbit w j then 2 ^ j else 0.
Proof.
  intros Hj. apply Z.bits_inj'. intros n Hn. rewrite Z.land_spec, Z.pow2_bits_eqb by done.
  destruct (Z.eqb_spec j n) as [->|Hne].
  - destruct (Z.testbit w n) eqn:E; [by rewrite Z.pow2_bits_true|by rewrite Z.bits_0].
  - rewrite andb_false_r. destruct (Z.testbit w j); [by rewrite Z.pow2_bits_false|by rewrite Z.bits_0].
Qed.

Lemma land_pow2_zero w j : 0 ≤ j → (Z.land w (2 ^ j) =? 0) = negb (Z.testbit w j).
Proof.
  intros Hj. rewrite land_pow2 by done. destruct (Z.testbit w j); [|done]. apply Z.eqb_neq.
  pose proof (Z.pow_pos_nonneg 2 j). lia.
Qed.

Lemma clear_bit_run n w j :
  (n + j = 32)%nat →
  match clear_bit n w (u32 (2 ^ Z.of_nat j)) (Z.of_nat j) with
  | Some b => ∃ b', b = Z.of_nat b' ∧ (j ≤ b' < 32)%nat ∧ Z.testbit w b = false
  | None => ∀ b, (j ≤ b < 32)%nat → Z.testbit w (Z.of_nat b) = true
  end.
Proof.
  revert j. induction n as [|n IH]; intros j Hj; cbn [clear_bit]; [intros b Hb; lia|].
  assert (0 ≤ 2 ^ Z.of_nat j < 2 ^ 32) as Hp.
  { split; [apply Z.pow_nonneg; lia|apply Z.pow_lt_mono_r; lia]. }
  rewrite (u32_small (2 ^ Z.of_nat j)) by done. rewrite land_pow2_zero by lia.
  destruct (Z.testbit w (Z.of_nat j)) eqn:Ej; cbn [negb].
  - replace (u32 (Z.shiftl (2 ^ Z.of_nat j) 1)) with (u32 (2 ^ Z.of_nat (S j))).
    2: { f_equal. rewrite Z.shiftl_mul_pow2, Nat2Z.inj_succ, Z.pow_succ_r by lia. lia. }
    replace (Z.of_nat j + 1) with (Z.of_nat (S j)) by lia. specialize (IH (S j) ltac:(lia)).
    destruct (clear_bit n w _ _) as [b|].
    + destruct IH as (b' & ? & ? & ?). exists b'. split_and!; (done || lia).
    + intros b Hb. destruct (decide (b = j)) as [->|]; [done|]. apply IH. lia.
  - exists j. split_and!; (done || lia).
Qed.

Lemma word_high w n : 0 ≤ w < 2 ^ 32 → 32 ≤ n → Z.testbit w n = false.
Proof. intros Hw Hn. rewrite <- (Z.mod_small w (2 ^ 32)) by done. by apply Z.mod_pow2_bits_high; lia. Qed.

Lemma word_bits w : (∀ n, 32 ≤ n → Z.testbit w n = false) → 0 ≤ w < 2 ^ 32.
Proof.
  intros Hn. replace w with (w `mod` 2 ^ 32); [apply Z.mod_pos_bound; lia|]. apply Z.bits_inj'. intros n H0.
  destruct (decide (n < 32)); [by rewrite Z.mod_pow2_bits_low|]. rewrite Z.mod_pow2_bits_high by lia. symmetry. apply Hn. lia.
Qed.

Lemma word_full w : 0 ≤ w < 2 ^ 32 → (∀ b, (b < 32)%nat → Z.testbit w (Z.of_nat b) = true) → w = 4294967295.
Proof.
  intros Hw Hb. change 4294967295 with (Z.ones 32). apply Z.bits_inj'. intros n Hn. destruct (decide (n < 32)).
  - rewrite Z.ones_spec_low by lia. rewrite <- (Z2Nat.id n) by lia. apply Hb. lia.
  - rewrite Z.ones_spec_high by lia. apply word_high; lia.
Qed.

Lemma lor_word w j : 0 ≤ w < 2 ^ 32 → 0 ≤ j < 32 → 0 ≤ Z.lor w (2 ^ j) < 2 ^ 32.
Proof.
  intros Hw Hj. apply word_bits. intros n Hn. rewrite Z.lor_spec, (word_high w), Z.pow2_bits_false by lia. done.
Qed.

Lemma bits_set ws P i w j :
  bits_ok ws P → ws !! i = Some w → (j < 32)%nat →
  bits_ok (<[i := Z.lor w (Z.shiftl 1 (Z.of_nat j))]> ws) (fun x => P x ∨ x = (i * 32 + j)%nat).
Proof.
  intros [B1 B2 B3] Hi Hj. rewrite Z.shiftl_1_l. constructor; [by rewrite length_insert|..].
  - apply Forall_insert; [done|]. apply lor_word; [by eapply (Forall_lookup_1 _ _ _ _ B2 Hi)|lia].
  - intros k v b Hk Hb. destruct (decide (k = i)) as [->|Hne].
    + rewrite list_lookup_insert_eq in Hk by (by eapply lookup_lt_Some). simplify_eq.
      rewrite Z.lor_spec, Z.pow2_bits_eqb, orb_true_iff, (B3 i w b Hi Hb) by lia. rewrite Z.eqb_eq.
      split; (intros [?|?]; [by left|right; lia]).
    + rewrite list_lookup_insert_ne in Hk by done. rewrite (B3 k v b Hk Hb). split; [by left|]. intros [?|?]; [done|lia].
Qed.

Lemma bits_clear ws P i w j :
  bits_ok ws P → ws !! i = Some w → (j < 32)%nat →
  bits_ok (<[i := Z.ldiff w (Z.shiftl 1 (Z.of_nat j))]> ws) (fun x => P x ∧ x ≠ (i * 32 + j)%nat).
Proof.
  intros [B1 B2 B3] Hi Hj. rewrite Z.shiftl_1_l. constructor; [by rewrite length_insert|..].
  - apply Forall_insert; [done|]. pose proof (Forall_lookup_1 _ _ _ _ B2 Hi) as Hw. cbn in Hw.
    apply word_bits. intros n Hn. rewrite Z.ldiff_spec. by rewrite (word_high w) by lia.
  - intros k v b Hk Hb. destruct (decide (k = i)) as [->|Hne].
    + rewrite list_lookup_insert_eq in Hk by (by eapply lookup_lt_Some). simplify_eq.
      rewrite Z.ldiff_spec, Z.pow2_bits_eqb, andb_true_iff, (B3 i w b Hi Hb), negb_true_iff, Z.eqb_neq by lia.
      split; (intros [? ?]; split; [done|lia]).
    + rewrite list_lookup_insert_ne in Hk by done. rewrite (B3 k v b Hk Hb). split; [|tauto]. intros ?. split; [done|lia].
Qed.

Lemma inuse_loop_run h P n i :
  bits_ok (pagerefs_inuse h) P → (i + n = 8)%nat → (∀ j, (j < i * 32)%nat → P j) →
  (∃ j ws, inuse_loop n (Z.of_nat i) h = Ok (Some j, with_inuse ws h) ∧ ¬ P j ∧ (j < 256)%nat ∧ bits_ok ws (fun x => P x ∨ x = j)) ∨
  (inuse_loop n (Z.of_nat i) h = Ok (None, h) ∧ ∀ j, (j < 256)%nat → P j).
Proof.
  intros B. revert i. induction n as [|n IH]; intros i Hi Hlo; cbn [inuse_loop].
  { right. split; [done|]. intros j Hj. apply Hlo. lia. }
  destruct (lookup_lt_is_Some_2 (pagerefs_inuse h) i) as [w Hw]; [rewrite (bo_len _ _ B); lia|].
  erewrite bind_ok; [|reflexivity]. erewrite bind_ok; [|rewrite Nat2Z.id, Hw; reflexivity].
  destruct (Z.eqb_spec w 4294967295) as [->|Hne].
  - replace (Z.of_nat i + 1) with (Z.of_nat (S i)) by lia. apply IH; [lia|]. intros j Hj.
    destruct (decide (j < i * 32)%nat); [by apply Hlo|]. replace j with (i * 32 + (j - i * 32))%nat by lia.
    apply (bo_bit _ _ B i _ _ Hw); [lia|]. change 4294967295 with (Z.ones 32). apply Z.ones_spec_low. lia.
  - left. pose proof (clear_bit_run 32 w 0 eq_refl) as Hc. change (u32 (2 ^ Z.of_nat 0)) with 1 in Hc. change (Z.of_nat 0) with 0 in Hc.
    destruct (clear_bit 32 w 1 0) as [b|].
    + destruct Hc as (b' & -> & Hb & Hbit). erewrite bind_ok; [|reflexivity]. eexists _, _.
      split; [rewrite Nat2Z.id; reflexivity|]. replace (Z.to_nat (Z.of_nat i * 32 + Z.of_nat b')) with (i * 32 + b')%nat by lia.
      split_and!; [|lia|by apply bits_set; [| |lia]]. rewrite <- (bo_bit _ _ B i w b' Hw) by lia. by rewrite Hbit.
    + exfalso. apply Hne, word_full; [by apply (Forall_lookup_1 _ _ _ _ (bo_word _ _ B) Hw)|]. intros b Hb. apply Hc. lia.
Qed.

Lemma freepageref_run h P p :
  bits_ok (pagerefs_inuse h) P → P p → (p < 256)%nat →
  ∃ ws, freepageref p h = Ok (tt, with_inuse ws h) ∧ bits_ok ws (fun x => P x ∧ x ≠ p).
Proof.
  intros B Hp Hlt. unfold freepageref. erewrite bind_ok; [|unfold massert; rewrite (proj2 (Z.ltb_lt _ _)) by (unfold NPAGEREFS; lia); reflexivity].
  erewrite bind_ok; [|reflexivity].
  replace (Z.to_nat (Z.of_nat p `div` 32)) with (p / 32)%nat by (rewrite <- (Nat2Z.id (p / 32)), Nat2Z.inj_div; done).
  replace (Z.of_nat p `mod` 32) with (Z.of_nat (p mod 32)) by (by rewrite Nat2Z.inj_mod).
  pose proof (Nat.div_mod_eq p 32) as Hdm. pose proof (Nat.mod_upper_bound p 32 ltac:(done)) as Hm.
  destruct (lookup_lt_is_Some_2 (pagerefs_inuse h) (p / 32)) as [w Hw]; [rewrite (bo_len _ _ B); lia|].
  erewrite bind_ok; [|rewrite Hw; reflexivity].
  assert (Z.testbit w (Z.of_nat (p mod 32)) = true) as Hbit.
  { apply (bo_bit _ _ B _ w _ Hw Hm). by replace (p / 32 * 32 + p mod 32)%nat with p by lia. }
  erewrite bind_ok; [|unfold massert; rewrite Z.shiftl_1_l, land_pow2_zero, Hbit by lia; reflexivity].
  eexists. split; [reflexivity|]. pose proof (bits_clear _ P _ w (p mod 32) B Hw Hm) as Hb.
  by replace (p / 32 * 32 + p mod 32)%nat with p in Hb by lia.
Qed.

(** ** Linked lists of pagerefs *)
Fixpoint linked (nx : nat → option (option nat)) (hd : option nat) (l : list nat) : Prop :=
  match l with
  | [] => hd = None
  | x :: l' => hd = Some x ∧ ∃ n, nx x = Some n ∧ linked nx n l'
  end.

Definition nx_same (refs : list pageref) (p : nat) : option (option nat) := next_samesize <$> refs !! p.
Definition nx_all (refs : list pageref) (p : nat) : option (option nat) := next_all <$> refs !! p.

Lemma linked_ext nx nx' hd l : (∀ x, x ∈ l → nx x = nx' x) → linked nx hd l → linked nx' hd l.
Proof.
  revert hd. induction l as [|x l IH]; intros hd He; [done|]. intros (-> & n & Hn & Hl). split; [done|]. exists n.
  split; [rewrite <- He by (by left); done|]. apply IH; [|done]. intros y Hy. apply He. by right.
Qed.

(** A pageref off the list may change at will, one on it as long as the link stays. *)
Lemma linked_upd (get : pageref → option nat) (refs : list pageref) p pr hd l :
  (p ∈ l → get <$> refs !! p = Some (get pr)) → linked (fun x => get <$> refs !! x) hd l →
  linked (fun x => get <$> <[p := pr]> refs !! x) hd l.
Proof.
  intros Hp. apply linked_ext. intros x Hx. destruct (decide (x = p)) as [->|].
  - specialize (Hp Hx). rewrite Hp. destruct (refs !! p) eqn:E; [|done]. cbn in *.
    by rewrite list_lookup_insert_eq by (by eapply lookup_lt_Some).
  - by rewrite list_lookup_insert_ne.
Qed.

(** What is behind the element that is cut out. *)
Lemma linked_tail nx hd pre x suf :
  linked nx hd (pre ++ x :: suf) → ∃ n, nx x = Some n ∧ linked nx n suf.
Proof. revert hd. induction pre as [|y pre IH]; intros hd; cbn; [intros (_ & n & ? & ?); eauto|intros (_ & n & _ & ?); eauto]. Qed.

Lemma linked_lookup (get : pageref → option nat) (refs : list pageref) hd l x :
  linked (fun x => get <$> refs !! x) hd l → x ∈ l → ∃ pr, refs !! x = Some pr.
Proof.
  revert hd. induction l as [|y l IH]; intros hd Hl Hx; [by apply not_elem_of_nil in Hx|]. destruct Hl as (_ & n & Hn & Hl).
  apply elem_of_cons in Hx as [->|Hx]; [|eauto]. destruct (refs !! y); [eauto|done].
Qed.

(** The element before the one that is cut out gets its link. *)
Lemma linked_cut (get : pageref → option nat) (refs : list pageref) hd pre q x suf prq prq' n :
  NoDup (pre ++ q :: x :: suf) → linked (fun x => get <$> refs !! x) hd (pre ++ q :: x :: suf) →
  refs !! q = Some prq → get <$> refs !! x = Some n → get prq' = n →
  linked (fun x => get <$> <[q := prq']> refs !! x) hd (pre ++ q :: suf).
Proof.
  intros Hnd Hl Hq Hx Hg. revert hd Hnd Hl. induction pre as [|y pre IH]; intros hd Hnd Hl; cbn in *.
  - destruct Hl as (-> & m & Hm & (-> & k & Hk & Hl)). split; [done|]. exists n.
    rewrite list_lookup_insert_eq by (by eapply lookup_lt_Some). cbn. split; [by rewrite Hg|].
    rewrite Hx in Hk. simplify_eq. eapply linked_ext; [|exact Hl]. intros z Hz. rewrite list_lookup_insert_ne; [done|].
    intros ->. apply list.NoDup_cons in Hnd as [Hnd _]. apply Hnd. by right.
  - destruct Hl as (-> & m & Hm & Hl). apply list.NoDup_cons in Hnd as [Hy Hnd]. split; [done|]. exists m.
    split; [|by apply IH]. rewrite list_lookup_insert_ne; [done|]. intros ->. apply Hy. apply elem_of_app. right. by left.
Qed.

(** ** Free lists in memory *)

(** From address [a] the words of the blocks at [pa + o], [o] in [l], make a list. *)
Fixpoint chain (ws : gmap Z Z) (pa a : Z) (l : list Z) : Prop :=
  match l with
  | [] => a = 0
  | o :: l' => a = pa + o ∧ ∃ n, ws !! a = Some n ∧ chain ws pa n l'
  end.

Lemma chain_ext ws ws' pa a l : (∀ o, o ∈ l → ws !! (pa + o) = ws' !! (pa + o)) → chain ws pa a l → chain ws' pa a l.
Proof.
  revert a. induction l as [|o l IH]; intros a He; [done|]. intros (-> & n & Hn & Hl). split; [done|]. exists n.
  split; [rewrite <- He by (by left); done|]. apply IH; [|done]. intros y Hy. apply He. by right.
Qed.

(** ** Pages *)
Record gpage := mkg { g_ref : nat; g_addr : Z; g_type : Z; g_free : list Z }.

Definition set_gfree (l : list Z) (g : gpage) : gpage := mkg (g_ref g) (g_addr g) (g_type g) l.

Record page_ok (ws : gmap Z Z) (pr : pageref) (g : gpage) : Prop := {
  po_pab : pageaddr_and_blocktype pr = g_addr g + g_type g;
  po_align : (4096 | g_addr g);
  po_addr : 2 ^ 31 ≤ g_addr g < 2 ^ 32 - 4096;
  po_type : 0 ≤ g_type g < 8;
  po_nfree : nfree pr = Z.of_nat (length (g_free g));
  po_nodup : NoDup (g_free g);
  po_offs : Forall (fun o => 0 ≤ o < 4096 ∧ (bsize (g_type g) | o)) (g_free g);
  po_off : freelist_offset pr = default INVALID_OFFSET (head (g_free g));
  po_chain : chain ws (g_addr g) (from_option (fun o => g_addr g + o) 0 (head (g_free g))) (g_free g)
}.

Lemma page_split ws pr g : page_ok ws pr g → PR_PAGEADDR pr = g_addr g ∧ PR_BLOCKTYPE pr = g_type g.
Proof. intros P. apply pab_split; try apply P. pose proof (po_addr _ _ _ P). lia. Qed.

(** At most one offset per block. *)
Lemma offsets_le (sz : Z) (n : nat) (l : list Z) :
  0 < sz → NoDup l → Forall (fun o => 0 ≤ o < sz * Z.of_nat n ∧ (sz | o)) l → (length l ≤ n)%nat.
Proof.
  intros Hsz Hnd Hl. assert (length (seq 0 n) = n) as E by apply length_seq. rewrite <- E at 1.
  rewrite <- (length_fmap (fun o => Z.to_nat (o `div` sz)) l). clear E. apply submseteq_length, NoDup_submseteq.
  - apply NoDup_fmap_2_strong; [|done]. intros x y Hx Hy E. rewrite list.Forall_forall in Hl.
    destruct (Hl x Hx) as [Hx1 [i ->]], (Hl y Hy) as [Hy1 [j ->]]. rewrite !Z.div_mul in E by lia.
    assert (0 ≤ i) by nia. assert (0 ≤ j) by nia. f_equal. lia.
  - intros k Hk. apply list_elem_of_fmap in Hk as (o & -> & Ho). rewrite list.Forall_forall in Hl.
    destruct (Hl o Ho) as [Ho1 [i ->]]. rewrite Z.div_mul by lia. apply elem_of_seq. assert (0 ≤ i) by nia.
    assert (i < Z.of_nat n) by nia. lia.
Qed.

Lemma page_nfree_le ws pr g : page_ok ws pr g → Z.of_nat (length (g_free g)) ≤ bcount (g_type g).
Proof.
  intros P. destruct (bsize_facts _ (po_type _ _ _ P)) as (H1 & _ & H2 & H3 & _).
  pose proof (offsets_le (bsize (g_type g)) (Z.to_nat (bcount (g_type g))) (g_free g)) as H.
  rewrite Z2Nat.id in H by lia. rewrite H2 in H. specialize (H ltac:(lia) (po_nodup _ _ _ P) (po_offs _ _ _ P)). lia.
Qed.

(** ** The heap *)

(** Pages and large blocks do not overlap and lie below [top], where free memory starts. *)
Record apart (top : Z) (ps : list gpage) (big : gmap Z Z) : Prop := {
  ap_pages : NoDup (g_addr <$> ps);
  ap_below : ∀ g, g ∈ ps → g_addr g + 4096 ≤ top;
  ap_big : ∀ p n, big !! p = Some n → (4096 | p) ∧ 0 < n ∧ 2 ^ 31 ≤ p ∧ p + n ≤ top;
  ap_bb : ∀ p n q m, big !! p = Some n → big !! q = Some m → p ≠ q → p + n ≤ q ∨ q + m ≤ p;
  ap_pb : ∀ g p n, g ∈ ps → big !! p = Some n → g_addr g + 4096 ≤ p ∨ p + n ≤ g_addr g
}.

Definition heap_top (h : heap) : Z := firstpaddr (ram_ h) + MIPS_KSEG0.

Record heap_rep (h : heap) (ps : list gpage) (big : gmap Z Z) : Prop := {
  hr_refs : length (pagerefs h) = 256%nat;
  hr_all : linked (nx_all (pagerefs h)) (allbase h) (g_ref <$> ps);
  hr_bases : length (sizebases h) = 8%nat;
  hr_same : ∀ i b, sizebases h !! i = Some b →
    linked (nx_same (pagerefs h)) b (g_ref <$> filter (fun g => g_type g = Z.of_nat i) ps);
  hr_pages : ∀ g, g ∈ ps → ∃ pr, pagerefs h !! g_ref g = Some pr ∧ page_ok (words h) pr g;
  hr_bits : bits_ok (pagerefs_inuse h) (fun j => j ∈ g_ref <$> ps);
  hr_nodup : NoDup (g_ref <$> ps);
  hr_ram : ram_wf (ram_ h);
  hr_apart : apart (heap_top h) ps big
}.

(** A page with all its blocks free is not kept. *)
Definition used_ok (g : gpage) : Prop := Z.of_nat (length (g_free g)) < bcount (g_type g).

(** The blocks that are allocated. *)
Definition allocated (ps : list gpage) (big : gmap Z Z) (p n : Z) : Prop :=
  big !! p = Some n ∨
  ∃ g, g ∈ ps ∧ n = bsize (g_type g) ∧ g_addr g ≤ p < g_addr g + 4096 ∧ (n | p - g_addr g) ∧ p - g_addr g ∉ g_free g.

Definition heap_inv (h : heap) (A : gmap Z Z) : Prop :=
  ∃ ps big, heap_rep h ps big ∧ Forall used_ok ps ∧ ∀ p n, A !! p = Some n ↔ allocated ps big p n.

Lemma same_page ps g g' :
  NoDup (g_addr <$> ps) → g ∈ ps → g' ∈ ps → g_addr g = g_addr g' → g = g'.
Proof.
  intros Hnd Hg Hg' E. apply list_elem_of_lookup in Hg as [i Hi], Hg' as [j Hj]. assert (i = j) as ->; [|congruence].
  eapply (NoDup_lookup _ i j (g_addr g) Hnd); rewrite list_lookup_fmap; [by rewrite Hi|by rewrite Hj, E].
Qed.

(** Two pages that share an address are one. *)
Lemma page_of ps g g' ws pr pr' p :
  NoDup (g_addr <$> ps) → g ∈ ps → g' ∈ ps → page_ok ws pr g → page_ok ws pr' g' →
  g_addr g ≤ p < g_addr g + 4096 → g_addr g' ≤ p < g_addr g' + 4096 → g = g'.
Proof.
  intros Hnd Hg Hg' P P' H1 H2. eapply same_page; try done. destruct (po_align _ _ _ P) as [k Hk], (po_align _ _ _ P') as [k' Hk'].
  lia.
Qed.

Lemma block_in_page ws pr g p n :
  page_ok ws pr g → n = bsize (g_type g) → g_addr g ≤ p < g_addr g + 4096 → (n | p - g_addr g) → p + n ≤ g_addr g + 4096.
Proof.
  intros P -> Hp [k Hk]. destruct (bsize_facts _ (po_type _ _ _ P)) as (H1 & _ & H2 & _).
  assert (k < bcount (g_type g)) by nia. nia.
Qed.

(** Allocated blocks never overlap. *)
Lemma allocated_disjoint h ps big p n q m :
  heap_rep h ps big → allocated ps big p n → allocated ps big q m → p ≠ q → p + n ≤ q ∨ q + m ≤ p.
Proof.
  intros R [Hp|(g & Hg & Hn & Hr & Hd & _)] [Hq|(g' & Hg' & Hm & Hr' & Hd' & _)] Hne; pose proof (hr_apart _ _ _ R) as A.
  - by apply (ap_bb _ _ _ A).
  - destruct (hr_pages _ _ _ R g' Hg') as (pr & _ & P). pose proof (block_in_page _ _ _ _ _ P Hm Hr' Hd').
    destruct (ap_pb _ _ _ A g' p n Hg' Hp); lia.
  - destruct (hr_pages _ _ _ R g Hg) as (pr & _ & P). pose proof (block_in_page _ _ _ _ _ P Hn Hr Hd).
    destruct (ap_pb _ _ _ A g q m Hg Hq); lia.
  - destruct (hr_pages _ _ _ R g Hg) as (pr & _ & P), (hr_pages _ _ _ R g' Hg') as (pr' & _ & P').
    pose proof (block_in_page _ _ _ _ _ P Hn Hr Hd). pose proof (block_in_page _ _ _ _ _ P' Hm Hr' Hd').
    destruct (decide (g_addr g = g_addr g')) as [E|E].
    + apply (same_page ps) in E as <-; [|apply A|done..]. rewrite <- Hn in Hm. subst m. destruct Hd as [i Hi], Hd' as [j Hj].
      destruct (bsize_facts _ (po_type _ _ _ P)) as (H1 & _). assert (i ≠ j) by (intros ->; lia). assert (i < j ∨ j < i) as [|] by lia; nia.
    + destruct (po_align _ _ _ P) as [k Hk], (po_align _ _ _ P') as [k' Hk']. lia.
Qed.

Lemma pages_le h ps big : heap_rep h ps big → (length ps ≤ 256)%nat.
Proof.
  intros R. rewrite <- (length_fmap g_ref ps). assert (length (seq 0 256) = 256%nat) as <- by done.
  apply submseteq_length, NoDup_submseteq; [apply R|]. intros x Hx. apply list_elem_of_fmap in Hx as (g & -> & Hg).
  destruct (hr_pages _ _ _ R g Hg) as (pr & Hpr & _). apply lookup_lt_Some in Hpr. rewrite (hr_refs _ _ _ R) in Hpr.
  apply elem_of_seq. lia.
Qed.

(** ** Searching *)
Lemma getpr_run h p pr : pagerefs h !! p = Some pr → getpr p h = Ok (pr, h).
Proof. intros E. unfold getpr. by rewrite E. Qed.

Lemma updpr_run h p pr f :
  pagerefs h !! p = Some pr → updpr p f h = Ok (tt, with_refs (<[p := f pr]> (pagerefs h)) h).
Proof. intros E. unfold updpr. by rewrite (bind_ok _ _ _ _ _ (getpr_run h p pr E)). Qed.

Lemma find_page_run h ty gs b fuel :
  linked (nx_same (pagerefs h)) b (g_ref <$> gs) →
  (∀ g, g ∈ gs → g_type g = ty ∧ ∃ pr, pagerefs h !! g_ref g = Some pr ∧ page_ok (words h) pr g) →
  (length gs ≤ fuel)%nat →
  (∃ g, g ∈ gs ∧ g_free g ≠ [] ∧ find_page fuel ty b h = Ok (Some (g_ref g), h)) ∨
  (∀ g, g ∈ gs → g_free g = []) ∧ find_page fuel ty b h = Ok (None, h).
Proof.
  revert b fuel. induction gs as [|g gs IH]; intros b fuel Hl Hgs Hf; cbn in Hl, Hf.
  { right. subst b. split; [intros g Hg; by apply not_elem_of_nil in Hg|]. by destruct fuel. }
  destruct Hl as (-> & n & Hn & Hl). destruct (Hgs g) as (Ht & pr & Hpr & P); [by left|].
  destruct fuel as [|fuel]; [lia|]. cbn [find_page]. rewrite (bind_ok _ _ _ _ _ (getpr_run h _ pr Hpr)).
  destruct (page_split _ _ _ P) as [_ Eb]. erewrite bind_ok; [|unfold massert; rewrite Eb, Ht, Z.eqb_refl; reflexivity].
  unfold nx_same in Hn. rewrite Hpr in Hn. cbn in Hn. injection Hn as Hn.
  rewrite (po_nfree _ _ _ P). destruct (g_free g) as [|o rest] eqn:Efree.
  - cbn [length Z.of_nat]. rewrite Hn. destruct (IH n fuel Hl) as [(g' & Hg' & Hne & E)|[Hall E]]; [|lia| |].
    + intros g' Hg'. apply Hgs. by right.
    + left. exists g'. split; [by right|done].
    + right. split; [|done]. intros g' Hg'. apply elem_of_cons in Hg' as [->|Hg']; [done|by apply Hall].
  - left. exists g. split; [by left|]. split; [by rewrite Efree|]. by rewrite (proj2 (Z.gtb_lt _ _)) by (cbn [length]; lia).
Qed.

Lemma find_addr_run h a ps b fuel :
  linked (nx_all (pagerefs h)) b (g_ref <$> ps) →
  (∀ g, g ∈ ps → ∃ pr, pagerefs h !! g_ref g = Some pr ∧ page_ok (words h) pr g) → (length ps ≤ fuel)%nat →
  (∃ g, g ∈ ps ∧ g_addr g ≤ a < g_addr g + 4096 ∧ find_addr fuel a b h = Ok (Some (g_ref g), h)) ∨
  (∀ g, g ∈ ps → ¬ (g_addr g ≤ a < g_addr g + 4096)) ∧ find_addr fuel a b h = Ok (None, h).
Proof.
  revert b fuel. induction ps as [|g gs IH]; intros b fuel Hl Hgs Hf; cbn in Hl, Hf.
  { right. subst b. split; [intros g Hg; by apply not_elem_of_nil in Hg|]. by destruct fuel. }
  destruct Hl as (-> & n & Hn & Hl). destruct (Hgs g) as (pr & Hpr & P); [by left|].
  destruct fuel as [|fuel]; [lia|]. cbn [find_addr]. rewrite (bind_ok _ _ _ _ _ (getpr_run h _ pr Hpr)).
  destruct (page_split _ _ _ P) as [Ea Eb]. pose proof (po_type _ _ _ P) as Ht. pose proof (po_addr _ _ _ P) as Hb.
  erewrite bind_ok; [|unfold massert; rewrite Eb, (proj2 (Z.leb_le 0 _)), (proj2 (Z.ltb_lt _ _)) by (unfold NSIZES; lia); reflexivity].
  unfold nx_all in Hn. rewrite Hpr in Hn. cbn in Hn. injection Hn as Hn.
  rewrite Ea, u32_small by (unfold PAGE_SIZE; lia). unfold PAGE_SIZE.
  destruct (Z.leb_spec (g_addr g) a), (Z.ltb_spec a (g_addr g + 4096)); cbn [andb].
  1: left; exists g; split; [by left|]; split; [lia|done].
  all: rewrite Hn; destruct (IH n fuel Hl) as [(g' & Hg' & Hne & E)|[Hall E]];
    [intros g' Hg'; apply Hgs; by right|lia| |];
    [left; exists g'; split; [by right|done]
    |right; split; [|done]; intros g' Hg'; apply elem_of_cons in Hg' as [->|Hg']; [lia|by apply Hall]].
Qed.

(** ** Taking a block off a free list *)
Lemma doalloc_run h p pr g o rest :
  pagerefs h !! p = Some pr → page_ok (words h) pr g → g_free g = o :: rest →
  let pr' := set_free (default INVALID_OFFSET (head rest)) (Z.of_nat (length rest)) pr in
  doalloc p h = Ok (g_addr g + o, with_refs (<[p := pr']> (pagerefs h)) h) ∧ page_ok (words h) pr' (set_gfree rest g).
Proof.
  intros Hpr P Ef pr'. destruct (page_split _ _ _ P) as [Ea _]. pose proof (page_nfree_le _ _ _ P) as Hle.
  destruct (bsize_facts _ (po_type _ _ _ P)) as (_ & _ & _ & Hc & _).
  destruct P as [P1 P2 P3 P4 P5 P6 P7 P8 P9]. rewrite Ef in *. cbn in P8, P9. destruct P9 as (_ & n & Hn & Hch).
  apply Forall_cons_1 in P7 as [[Ho Hod] P7]. apply list.NoDup_cons in P6 as [Hnin P6]. cbn [length] in *.
  assert (n = from_option (fun o => g_addr g + o) 0 (head rest)) as En.
  { destruct rest as [|o' rest]; cbn in Hch; [done|]. by destruct Hch as [-> _]. }
  split; [|constructor; cbn; try done; by rewrite <- En].
  unfold doalloc. rewrite (bind_ok _ _ _ _ _ (getpr_run h p pr Hpr)).
  erewrite bind_ok; [|unfold massert; rewrite P8, (proj2 (Z.ltb_lt _ _)) by (unfold PAGE_SIZE; lia); reflexivity].
  rewrite Ea, P8, u32_small by lia. erewrite bind_ok; [|unfold ldw; rewrite Hn; reflexivity].
  rewrite P5. replace (Z.of_nat (S (length rest)) - 1) with (Z.of_nat (length rest)) by lia. rewrite !(u16_small (Z.of_nat (length rest))) by lia.
  erewrite bind_ok; [reflexivity|]. rewrite En. destruct rest as [|o' rest]; cbn [head from_option].
  - cbn [Z.eqb negb length]. erewrite bind_ok; [|reflexivity]. by apply updpr_run.
  - apply Forall_cons_1 in P7 as [[Ho1 _] _]. rewrite (proj2 (Z.eqb_neq _ _)) by lia. cbn [negb].
    erewrite bind_ok; [|unfold massert; rewrite (proj2 (Z.gtb_lt _ _)) by (cbn [length]; lia); reflexivity].
    replace (g_addr g + o' - g_addr g) with o' by lia. rewrite (u32_small o') by lia.
    erewrite bind_ok; [|unfold massert; rewrite (proj2 (Z.ltb_lt _ _)) by (unfold PAGE_SIZE; lia); reflexivity].
    rewrite u16_small by lia. by apply updpr_run.
Qed.

(** A page that changes its free list but not its place. *)
Record same_place (g g' : gpage) : Prop := {
  sp_ref : g_ref g' = g_ref g;
  sp_addr : g_addr g' = g_addr g;
  sp_type : g_type g' = g_type g
}.

Lemma filter_place (i : Z) pre g g' suf :
  same_place g g' →
  g_ref <$> filter (fun g => g_type g = i) (pre ++ g' :: suf) = g_ref <$> filter (fun g => g_type g = i) (pre ++ g :: suf).
Proof.
  intros [E1 _ E3]. rewrite !list.filter_app, !filter_cons, !fmap_app, E3. f_equal. case_decide; [|done]. cbn. by rewrite E1.
Qed.

Lemma heap_replace h pre g g' suf big pr pr' ws' :
  heap_rep h (pre ++ g :: suf) big → same_place g g' → pagerefs h !! g_ref g = Some pr →
  next_samesize pr' = next_samesize pr → next_all pr' = next_all pr → page_ok ws' pr' g' →
  (∀ a, ¬ (g_addr g ≤ a < g_addr g + 4096) → ws' !! a = words h !! a) →
  heap_rep (with_words ws' (with_refs (<[g_ref g := pr']> (pagerefs h)) h)) (pre ++ g' :: suf) big.
Proof.
  intros R Sp Hpr Hs Ha P Hw. pose proof R as [R1 R2 R3 R4 R5 R7 R8 R9 R10]. pose proof Sp as [E1 E2 E3].
  assert (g_ref <$> pre ++ g' :: suf = g_ref <$> pre ++ g :: suf) as Er by (rewrite !fmap_app; cbn; by rewrite E1).
  assert (∀ x, x ∈ pre ++ g' :: suf → x = g' ∨ x ∈ pre ++ g :: suf ∧ g_addr x ≠ g_addr g ∧ g_ref x ≠ g_ref g) as Hmem.
  { intros x Hx. rewrite fmap_app in R8. pose proof (ap_pages _ _ _ R10) as Hnd. rewrite fmap_app in Hnd. cbn in R8, Hnd.
    rewrite elem_of_app, elem_of_cons in Hx. destruct Hx as [Hx|[->|Hx]]; [right|by left|right].
    - apply list.NoDup_app in R8 as (_ & H1 & _), Hnd as (_ & H2 & _). split_and!.
      + apply elem_of_app. by left.
      + intros E. apply (H2 (g_addr x)); [by apply list_elem_of_fmap_2|]. rewrite E. by left.
      + intros E. apply (H1 (g_ref x)); [by apply list_elem_of_fmap_2|]. rewrite E. by left.
    - apply list.NoDup_app in R8 as (_ & _ & H1), Hnd as (_ & _ & H2). apply list.NoDup_cons in H1 as [H1 _], H2 as [H2 _]. split_and!.
      + apply elem_of_app. right. by right.
      + intros E. apply H2. rewrite <- E. by apply list_elem_of_fmap_2.
      + intros E. apply H1. rewrite <- E. by apply list_elem_of_fmap_2. }
  constructor; cbn [pagerefs pagerefs_inuse sizebases allbase words ram_ with_words with_refs]; try done.
  - by rewrite length_insert.
  - rewrite Er. apply linked_upd; [|done]. intros _. rewrite Hpr. cbn. by rewrite Ha.
  - intros i b Hi. rewrite (filter_place (Z.of_nat i) pre g g' suf Sp). apply linked_upd; [|by apply R4].
    intros _. rewrite Hpr. cbn. by rewrite Hs.
  - intros x Hx. destruct (Hmem x Hx) as [->|(Hx' & Hne & Hne')].
    + exists pr'. rewrite E1. split; [|done]. apply list_lookup_insert_eq. by eapply lookup_lt_Some.
    + destruct (R5 x Hx') as (prx & Hprx & Px). exists prx. rewrite list_lookup_insert_ne by done. split; [done|].
      destruct (R5 g) as (prg & _ & Pg); [apply elem_of_app; right; by left|]. destruct Px. constructor; try done.
      eapply chain_ext; [|done]. intros o Ho. rewrite list.Forall_forall in po_offs0. destruct (po_offs0 o Ho) as [Hb _]. symmetry. apply Hw.
      destruct (po_align _ _ _ Pg) as [k Hk], po_align0 as [k' Hk']. lia.
  - by rewrite Er.
  - by rewrite Er.
  - destruct R10 as [A1 A2 A3 A4 A5]. constructor; try done.
    + rewrite fmap_app in *. cbn in *. by rewrite E2.
    + intros x Hx. destruct (Hmem x Hx) as [->|(Hx' & _)]; [|by apply A2]. rewrite E2. apply A2, elem_of_app. right. by left.
    + intros x p n Hx. destruct (Hmem x Hx) as [->|(Hx' & _)]; [|by apply A5]. rewrite E2. apply A5, elem_of_app. right. by left.
Qed.

(** The blocks of page [g] other than [o] do not change their state. *)
Lemma allocated_replace h pre g g' suf big p n :
  heap_rep h (pre ++ g :: suf) big → same_place g g' →
  ¬ (n = bsize (g_type g) ∧ g_addr g ≤ p < g_addr g + 4096 ∧ ¬ (p - g_addr g ∈ g_free g' ↔ p - g_addr g ∈ g_free g)) →
  allocated (pre ++ g' :: suf) big p n ↔ allocated (pre ++ g :: suf) big p n.
Proof.
  intros R [E1 E2 E3] Hp. unfold allocated. apply or_iff_compat_l. split; intros (x & Hx & Hn & Hr & Hd & Hf).
  - rewrite elem_of_app, elem_of_cons in Hx. destruct Hx as [Hx|[->|Hx]].
    1,3: exists x; rewrite elem_of_app, elem_of_cons; tauto.
    rewrite E2, E3 in *. exists g. rewrite elem_of_app, elem_of_cons. split_and!; try tauto.
  - rewrite elem_of_app, elem_of_cons in Hx. destruct Hx as [Hx|[->|Hx]].
    1,3: exists x; rewrite elem_of_app, elem_of_cons; tauto.
    exists g'. rewrite elem_of_app, elem_of_cons, E2, E3. split_and!; try tauto.
Qed.

(** Inside a page the only allocated blocks are those of the page. *)
Lemma allocated_in h ps big g p n :
  heap_rep h ps big → g ∈ ps → g_addr g ≤ p < g_addr g + 4096 →
  allocated ps big p n ↔ n = bsize (g_type g) ∧ (n | p - g_addr g) ∧ p - g_addr g ∉ g_free g.
Proof.
  intros R Hg Hp. pose proof (hr_apart _ _ _ R) as A. split.
  - intros [Hb|(g' & Hg' & Hn & Hr & Hd & Hf)].
    + exfalso. destruct (ap_big _ _ _ A p n Hb) as (_ & ? & _). destruct (ap_pb _ _ _ A g p n Hg Hb); lia.
    + destruct (hr_pages _ _ _ R g Hg) as (pr & _ & P), (hr_pages _ _ _ R g' Hg') as (pr' & _ & P').
      rewrite (page_of ps g g' _ _ _ p (ap_pages _ _ _ A) Hg Hg' P P' Hp Hr). done.
  - intros (Hn & Hd & Hf). right. by exists g.
Qed.

(** Taking block [o] of page [g]. *)
Lemma take_block h pre g suf big pr o rest :
  heap_rep h (pre ++ g :: suf) big → pagerefs h !! g_ref g = Some pr → page_ok (words h) pr g → g_free g = o :: rest →
  ∃ h', doalloc (g_ref g) h = Ok (g_addr g + o, h') ∧ heap_rep h' (pre ++ set_gfree rest g :: suf) big ∧
    ∀ p n, allocated (pre ++ set_gfree rest g :: suf) big p n ↔
           (p = g_addr g + o ∧ n = bsize (g_type g)) ∨ (p ≠ g_addr g + o ∧ allocated (pre ++ g :: suf) big p n).
Proof.
  intros R Hpr P Ef. destruct (doalloc_run h _ pr g o rest Hpr P Ef) as [E P'].
  set (pr' := set_free _ _ pr) in *. pose proof (heap_replace h pre g (set_gfree rest g) suf big pr pr' (words h) R) as R'.
  specialize (R' ltac:(done) Hpr eq_refl eq_refl P' ltac:(done)).
  eexists. split; [exact E|]. split; [by destruct h|]. intros p n.
  assert (g ∈ pre ++ g :: suf) as Hg by (apply elem_of_app; right; by left).
  assert (set_gfree rest g ∈ pre ++ set_gfree rest g :: suf) as Hg' by (apply elem_of_app; right; by left).
  pose proof (po_nodup _ _ _ P) as Hnd. pose proof (po_offs _ _ _ P) as Ho. rewrite Ef in Hnd, Ho.
  apply list.NoDup_cons in Hnd as [Hnin _]. apply Forall_cons_1 in Ho as [[Ho Hd] _].
  destruct (decide (p = g_addr g + o)) as [->|Hne].
  - rewrite (allocated_in _ _ big (set_gfree rest g) _ n R' Hg') by (cbn; lia). cbn.
    replace (g_addr g + o - g_addr g) with o by lia. split; [intros (? & _); by left|]. intros [[_ ->]|[? _]]; done.
  - rewrite (allocated_replace h pre g (set_gfree rest g) suf big p n R); [|done|].
    + split; [by right|]. intros [[? _]|[_ ?]]; done.
    + intros (_ & _ & Hiff). apply Hiff. cbn. rewrite Ef, elem_of_cons. split; [by right|]. intros [?|?]; [lia|done].
Qed.

(** ** A fresh page *)

(** Its free list: the blocks from the last to the first. *)
Fixpoint offs (size : Z) (n : nat) : list Z :=
  match n with
  | O => []
  | S n' => Z.of_nat n' * size :: offs size n'
  end.

Lemma length_offs size n : length (offs size n) = n.
Proof. induction n; cbn; congruence. Qed.

Lemma elem_of_offs size n o : o ∈ offs size n ↔ ∃ k, (k < n)%nat ∧ o = Z.of_nat k * size.
Proof.
  induction n as [|n IH]; cbn.
  - split; [by intros ?%not_elem_of_nil|intros (k & ? & _); lia].
  - rewrite elem_of_cons, IH. split.
    + intros [->|(k & Hk & ->)]; [exists n|exists k]; (split; [lia|done]).
    + intros (k & Hk & ->). destruct (decide (k = n)) as [->|]; [by left|right; exists k; split; [lia|done]].
Qed.

Lemma NoDup_offs size n : 0 < size → NoDup (offs size n).
Proof.
  intros Hs. induction n as [|n IH]; cbn; [constructor|]. apply list.NoDup_cons. split; [|done].
  rewrite elem_of_offs. intros (k & Hk & E). assert (Z.of_nat n = Z.of_nat k) by nia. lia.
Qed.

Lemma thread_list_run n h pa i size :
  (1 ≤ i)%nat → 0 < size → 0 < pa → pa + Z.of_nat (i + n) * size < 2 ^ 32 →
  chain (words h) pa (pa + (Z.of_nat i - 1) * size) (offs size i) →
  ∃ ws, thread_list n pa (Z.of_nat i) size (pa + (Z.of_nat i - 1) * size) h =
          Ok (pa + (Z.of_nat (i + n) - 1) * size, with_words ws h) ∧
    chain ws pa (pa + (Z.of_nat (i + n) - 1) * size) (offs size (i + n)) ∧
    ∀ a, ¬ (pa ≤ a < pa + Z.of_nat (i + n) * size) → ws !! a = words h !! a.
Proof.
  revert h i. induction n as [|n IH]; intros h i Hi Hs Hpa Hb Hc; cbn [thread_list].
  { rewrite Nat.add_0_r in *. exists (words h). split; [by destruct h|done]. }
  rewrite (u32_small (pa + Z.of_nat i * size)) by nia. rewrite (u32_small (pa + (Z.of_nat i - 1) * size)) by nia.
  erewrite bind_ok; [|reflexivity]. erewrite bind_ok; [|unfold massert; rewrite (proj2 (Z.eqb_neq _ _)) by nia; reflexivity].
  set (h1 := with_words _ h). replace (Z.of_nat i + 1) with (Z.of_nat (S i)) by lia.
  replace (i + S n)%nat with (S i + n)%nat in * by lia.
  replace (pa + Z.of_nat i * size) with (pa + (Z.of_nat (S i) - 1) * size) by lia.
  destruct (IH h1 (S i)) as (ws & E & Hch & Hfr); [lia|done|done|done| |].
  - cbn [offs chain]. split; [lia|]. exists (pa + (Z.of_nat i - 1) * size). split.
    + cbn. replace (pa + (Z.of_nat (S i) - 1) * size) with (pa + Z.of_nat i * size) by lia. by rewrite lookup_insert_eq.
    + eapply chain_ext; [|exact Hc]. intros o Ho. apply elem_of_offs in Ho as (k & Hk & ->). cbn. rewrite lookup_insert_ne; [done|]. nia.
  - exists ws. split; [exact E|]. split; [done|]. intros a Ha. rewrite (Hfr a Ha). cbn. rewrite lookup_insert_ne; [done|]. nia.
Qed.

Lemma new_page_run h p pa ty b :
  length (pagerefs h) = 256%nat → (p < 256)%nat → 0 ≤ ty < 8 → (4096 | pa) → 2 ^ 31 ≤ pa < 2 ^ 32 - 4096 →
  sizebases h !! Z.to_nat ty = Some b →
  ∃ pr ws, new_page p pa ty h =
      Ok (tt, mkheap (<[p := pr]> (pagerefs h)) (pagerefs_inuse h) (<[Z.to_nat ty := Some p]> (sizebases h)) (Some p) ws (ram_ h)) ∧
    next_samesize pr = b ∧ next_all pr = allbase h ∧
    page_ok ws pr (mkg p pa ty (offs (bsize ty) (Z.to_nat (bcount ty)))) ∧
    ∀ a, ¬ (pa ≤ a < pa + 4096) → ws !! a = words h !! a.
Proof.
  intros H256 Hp Ht Hal Hpa Hb. destruct (bsize_facts ty Ht) as (F1 & F2 & F3 & F4 & F5).
  destruct (lookup_lt_is_Some_2 (pagerefs h) p) as [pr0 Hpr0]; [lia|]. unfold new_page.
  rewrite (bind_ok _ _ _ _ _ (size_of_run ty h Ht)). unfold PAGE_SIZE. rewrite F5, (u16_small (bcount ty)) by lia.
  rewrite (bind_ok _ _ _ _ _ (updpr_run h p pr0 _ Hpr0)). erewrite bind_ok; [|reflexivity].
  set (pr1 := set_page _ _ pr0). set (h1 := with_words _ _).
  destruct (thread_list_run (Z.to_nat (bcount ty - 1)) h1 pa 1 (bsize ty)) as (ws & E & Hch & Hfr); [lia|lia|lia|nia| |].
  { cbn [offs chain]. split; [lia|]. exists 0. split; [|done]. cbn.
    replace (pa + (Z.of_nat 1 - 1) * bsize ty) with pa by lia. by rewrite lookup_insert_eq. }
  change (Z.of_nat 1) with 1 in E. replace (pa + (1 - 1) * bsize ty) with pa in E by lia.
  replace (1 + Z.to_nat (bcount ty - 1))%nat with (Z.to_nat (bcount ty)) in * by lia. rewrite (Z2Nat.id (bcount ty)) in * by lia.
  rewrite (bind_ok _ _ _ _ _ E). replace (pa + (bcount ty - 1) * bsize ty - pa) with ((bcount ty - 1) * bsize ty) by lia.
  rewrite (u32_small ((bcount ty - 1) * bsize ty)), (u16_small ((bcount ty - 1) * bsize ty)) by nia.
  assert (∀ x, <[p := x]> (pagerefs h) !! p = Some x) as Hlk by (intros x; apply list_lookup_insert_eq; lia).
  erewrite bind_ok; [|apply (updpr_run _ p pr1); cbn; apply Hlk]. cbn [with_refs with_words pagerefs h1]. rewrite list_insert_insert_eq.
  erewrite bind_ok; [|unfold massert; rewrite Z.eqb_refl; reflexivity].
  erewrite bind_ok; [|unfold getbase; cbn; rewrite Hb; reflexivity].
  erewrite bind_ok; [|eapply updpr_run; cbn; apply Hlk]. cbn [with_refs with_words pagerefs]. rewrite list_insert_insert_eq.
  erewrite bind_ok; [|reflexivity]. erewrite bind_ok; [|reflexivity].
  erewrite bind_ok; [|eapply updpr_run; cbn; apply Hlk]. cbn [with_refs with_words with_sizebases pagerefs]. rewrite list_insert_insert_eq.
  eexists _, ws. split; [reflexivity|]. split; [done|]. split; [done|]. split; [|intros a Ha].
  - constructor; cbn; try done.
    + apply mkpab_eq; [lia|done|done].
    + rewrite length_offs. lia.
    + apply NoDup_offs. lia.
    + apply list.Forall_forall. intros o Ho. apply elem_of_offs in Ho as (k & Hk & ->). split; [|by exists (Z.of_nat k)]. nia.
    + destruct (Z.to_nat (bcount ty)) as [|m] eqn:Em; [lia|]. cbn. lia.
    + destruct (Z.to_nat (bcount ty)) as [|m] eqn:Em; [lia|]. cbn [offs list.head from_option].
      replace (pa + Z.of_nat m * bsize ty) with (pa + (bcount ty - 1) * bsize ty) by lia. done.
  - rewrite (Hfr a) by nia. cbn. rewrite lookup_insert_ne; [done|]. lia.
Qed.

(** The fresh page goes to the front of both lists; it lies where free memory started. *)
Lemma heap_add h ps big p ty pr ws bits r b :
  heap_rep h ps big → p ∉ g_ref <$> ps → (p < 256)%nat → bits_ok bits (fun x => x ∈ g_ref <$> ps ∨ x = p) →
  ram_wf r → firstpaddr r = firstpaddr (ram_ h) + 4096 → sizebases h !! Z.to_nat ty = Some b → 0 ≤ ty < 8 →
  next_samesize pr = b → next_all pr = allbase h →
  let pa := heap_top h in let g := mkg p pa ty (offs (bsize ty) (Z.to_nat (bcount ty))) in
  page_ok ws pr g → (∀ a, ¬ (pa ≤ a < pa + 4096) → ws !! a = words h !! a) →
  let h' := mkheap (<[p := pr]> (pagerefs h)) bits (<[Z.to_nat ty := Some p]> (sizebases h)) (Some p) ws r in
  heap_rep h' (g :: ps) big ∧ ∀ q n, allocated (g :: ps) big q n ↔ allocated ps big q n.
Proof.
  intros R Hnin Hp Hbits Hr Hfirst Hb Ht Hs Ha pa g P Hw h'. pose proof R as [R1 R2 R3 R4 R5 R7 R8 R9 R10].
  assert (∀ x, x ∈ g_ref <$> ps → x ≠ p) as Hne by (intros x Hx ->; done).
  assert (∀ (get : pageref → option nat) hd gs, (∀ x, x ∈ gs → x ∈ ps) →
    linked (fun x => get <$> pagerefs h !! x) hd (g_ref <$> gs) →
    linked (fun x => get <$> <[p := pr]> (pagerefs h) !! x) hd (g_ref <$> gs)) as Hl.
  { intros get hd gs Hsub. apply linked_upd. intros Hin. exfalso. apply Hnin. apply list_elem_of_fmap in Hin as (x & -> & Hx).
    apply list_elem_of_fmap_2. by apply Hsub. }
  assert (<[p := pr]> (pagerefs h) !! p = Some pr) as Hlk by (apply list_lookup_insert_eq; lia).
  assert (heap_rep h' (g :: ps) big) as R'.
  { constructor; cbn [pagerefs pagerefs_inuse sizebases allbase words ram_ h']; try done.
    - by rewrite length_insert.
    - cbn. split; [done|]. exists (allbase h). split; [unfold nx_all; by rewrite Hlk; cbn; rewrite Ha|].
      by apply (Hl next_all).
    - by rewrite length_insert.
    - intros i c. rewrite filter_cons. cbn [g_type g]. destruct (decide (i = Z.to_nat ty)) as [->|Hi].
      + rewrite list_lookup_insert_eq by lia. intros [= <-]. rewrite decide_True by lia. cbn. split; [done|].
        exists b. split; [unfold nx_same; by rewrite Hlk; cbn; rewrite Hs|]. apply (Hl next_samesize); [|by apply R4].
        intros x Hx. by apply list_elem_of_filter in Hx as [_ Hx].
      + rewrite list_lookup_insert_ne by done. intros Hc. rewrite decide_False by lia. apply (Hl next_samesize); [|by apply R4].
        intros x Hx. by apply list_elem_of_filter in Hx as [_ Hx].
    - intros x Hx. apply elem_of_cons in Hx as [->|Hx]; [by exists pr|]. destruct (R5 x Hx) as (prx & Hprx & Px).
      exists prx. rewrite list_lookup_insert_ne by (apply not_eq_sym, Hne; by apply list_elem_of_fmap_2). split; [done|].
      pose proof (ap_below _ _ _ R10 x Hx) as Hbel. destruct Px. constructor; try done. eapply chain_ext; [|done].
      intros o Ho. rewrite list.Forall_forall in po_offs0. destruct (po_offs0 o Ho) as [Hob _]. symmetry. apply Hw. unfold pa. lia.
    - destruct Hbits as [B1 B2 B3]. constructor; try done. intros i w c Hi Hc. rewrite (B3 i w c Hi Hc), fmap_cons, elem_of_cons. cbn. tauto.
    - rewrite fmap_cons. by apply list.NoDup_cons.
    - destruct R10 as [A1 A2 A3 A4 A5]. change (heap_top h') with (firstpaddr r + MIPS_KSEG0). unfold heap_top in *. rewrite Hfirst. constructor.
      + rewrite fmap_cons. apply list.NoDup_cons. split; [|done]. intros Hin. apply list_elem_of_fmap in Hin as (x & E & Hx).
        specialize (A2 x Hx). cbn in E. unfold pa, heap_top in E. lia.
      + intros x Hx. apply elem_of_cons in Hx as [->|Hx]; [cbn; unfold pa, heap_top; lia|]. specialize (A2 x Hx). lia.
      + intros q n Hq. destruct (A3 q n Hq) as (? & ? & ? & ?). split_and!; (done || lia).
      + done.
      + intros x q n Hx Hq. apply elem_of_cons in Hx as [->|Hx]; [|by apply A5]. destruct (A3 q n Hq). cbn. unfold pa, heap_top. lia. }
  split; [done|]. intros q n. unfold allocated. apply or_iff_compat_l. split.
  - intros (x & Hx & Hn & Hr' & Hd & Hf). apply elem_of_cons in Hx as [->|Hx]; [|by exists x].
    exfalso. destruct Hd as [k Hk]. apply Hf. cbn in *. apply elem_of_offs. destruct (bsize_facts ty Ht) as (F1 & _ & F3 & F4 & _).
    assert (0 ≤ k < bcount ty) by nia. exists (Z.to_nat k). split; [lia|]. rewrite Z2Nat.id by lia. subst n. lia.
  - intros (x & Hx & H). exists x. split; [by right|done].
Qed.

(** ** [kmalloc] *)
Lemma blocktype_run h sz : 0 ≤ sz ≤ 2048 → ∃ ty, blocktype sz h = Ok (ty, h) ∧ 0 ≤ ty < 8 ∧ sz ≤ bsize ty.
Proof.
  intros Hsz. unfold blocktype, sizes. cbn [blocktype_from].
  repeat (match goal with |- context [?a <=? ?b] => destruct (Z.leb_spec a b) end;
    [eexists; split; [reflexivity|]; split; [lia|unfold bsize; lia]|]). lia.
Qed.

(** Block [p] of [n] bytes is the one that is new. *)
Definition one_more (ps ps' : list gpage) (big big' : gmap Z Z) (p n : Z) : Prop :=
  (∀ m, ¬ allocated ps big p m) ∧
  ∀ q m, allocated ps' big' q m ↔ (q = p ∧ m = n) ∨ (q ≠ p ∧ allocated ps big q m).

(** Memory, or the table of pages, is used up. *)
Definition exhausted (h : heap) (ps : list gpage) (npages : Z) : Prop :=
  length ps = 256%nat ∨ lastpaddr (ram_ h) < firstpaddr (ram_ h) + npages * PAGE_SIZE.

Lemma take_from h pre g suf big sz :
  heap_rep h (pre ++ g :: suf) big → Forall used_ok pre → Forall used_ok suf → g_free g ≠ [] → sz ≤ bsize (g_type g) →
  ∃ p ps' h', doalloc (g_ref g) h = Ok (p, h') ∧ heap_rep h' ps' big ∧ Forall used_ok ps' ∧
    one_more (pre ++ g :: suf) ps' big big p (bsize (g_type g)) ∧ (16 | p) ∧ ram_ h' = ram_ h.
Proof.
  intros R U1 U2 Hne Hsz. destruct (g_free g) as [|o rest] eqn:Ef; [done|]. clear Hne.
  assert (g ∈ pre ++ g :: suf) as Hg by (apply elem_of_app; right; by left).
  destruct (hr_pages _ _ _ R g Hg) as (pr & Hpr & P). pose proof (page_nfree_le _ _ _ P) as Hle. rewrite Ef in Hle. cbn in Hle.
  destruct (take_block h pre g suf big pr o rest R Hpr P Ef) as (h' & E & R' & Hal).
  pose proof (po_offs _ _ _ P) as Ho. rewrite Ef in Ho. apply Forall_cons_1 in Ho as [[Ho Hd] _].
  eexists _, _, h'. split; [exact E|]. split; [exact R'|]. unfold one_more. split_and!.
  - apply Forall_app. split; [done|]. constructor; [|done]. unfold used_ok. cbn. lia.
  - intros m. rewrite (allocated_in _ _ big g _ m R Hg) by lia. replace (g_addr g + o - g_addr g) with o by lia.
    intros (_ & _ & Hf). apply Hf. rewrite Ef. by left.
  - exact Hal.
  - apply Z.divide_add_r; [eapply Z.divide_trans; [|apply P]; by exists 256|]. eapply Z.divide_trans; [|exact Hd].
    unfold bsize. exists (2 ^ g_type g). rewrite Z.pow_add_r by (pose proof (po_type _ _ _ P); lia). lia.
  - by destruct (doalloc_run h _ pr g o rest Hpr P Ef) as [E' _]; rewrite E in E'; simplify_eq.
Qed.

Lemma subpage_kmalloc_run h ps big sz :
  heap_rep h ps big → Forall used_ok ps → 0 ≤ sz < 2048 →
  (∃ h', subpage_kmalloc sz h = Ok (None, h') ∧ heap_rep h' ps big ∧ exhausted h ps 1) ∨
  ∃ p n ps' h', subpage_kmalloc sz h = Ok (Some p, h') ∧ heap_rep h' ps' big ∧ Forall used_ok ps' ∧
    sz ≤ n ∧ one_more ps ps' big big p n ∧ (16 | p).
Proof.
  intros R U Hsz. unfold subpage_kmalloc. destruct (blocktype_run h sz) as (ty & E & Ht & Hty); [lia|].
  rewrite (bind_ok _ _ _ _ _ E). destruct (lookup_lt_is_Some_2 (sizebases h) (Z.to_nat ty)) as [b Hb]; [rewrite (hr_bases _ _ _ R); lia|].
  erewrite bind_ok; [|unfold getbase; rewrite Hb; reflexivity]. pose proof (hr_same _ _ _ R _ b Hb) as Hl.
  rewrite Z2Nat.id in Hl by lia. set (gs := filter _ ps) in Hl. assert (∀ g, g ∈ gs → g_type g = ty ∧ g ∈ ps) as Hgs.
  { intros g Hg. by apply list_elem_of_filter in Hg. }
  destruct (find_page_run h ty gs b LISTFUEL Hl) as [(g & Hg & Hne & E2)|[Hfull E2]].
  { intros g Hg. destruct (Hgs g Hg). split; [done|]. by apply R. }
  { pose proof (pages_le _ _ _ R). pose proof (length_filter (fun g => g_type g = ty) ps). unfold LISTFUEL. fold gs in H0. lia. }
  - right. rewrite (bind_ok _ _ _ _ _ E2). destruct (Hgs g Hg) as [Hgt Hgp]. apply list_elem_of_split in Hgp as (pre & suf & Hps).
    subst ps. apply Forall_app in U as [U1 U2]. apply Forall_cons_1 in U2 as [_ U2]. rewrite <- Hgt in Hty.
    destruct (take_from h pre g suf big sz R U1 U2 Hne Hty) as (p & ps' & h' & E3 & R' & U' & O & D & _).
    exists p, (bsize (g_type g)), ps', h'. split; [by rewrite (bind_ok _ _ _ _ _ E3)|]. done.
  - rewrite (bind_ok _ _ _ _ _ E2). unfold allocpageref.
    destruct (inuse_loop_run h _ 8 0 (hr_bits _ _ _ R) eq_refl) as [(p & ws & E3 & Hp & Hlt & Hbits)|[E3 Hall]]; [intros j Hj; lia| |].
    2: { left. change (Z.of_nat 0) with 0 in E3. rewrite (bind_ok _ _ _ _ _ E3). exists h. split; [done|]. split; [done|]. left.
         pose proof (pages_le _ _ _ R). enough (256 ≤ length ps)%nat by lia. rewrite <- (length_fmap g_ref ps).
         assert (length (seq 0 256) = 256%nat) as <- by done. apply submseteq_length, NoDup_submseteq; [apply NoDup_seq|].
         intros x Hx. apply elem_of_seq in Hx. apply Hall. lia. }
    change (Z.of_nat 0) with 0 in E3. rewrite (bind_ok _ _ _ _ _ E3). pose proof (alloc_kpages_run 1 (ram_ h) (hr_ram _ _ _ R) ltac:(lia)) as Hk.
    case_decide as Hroom.
    2: { left. erewrite bind_ok; [|unfold kpages; cbn [ram_ with_inuse]; rewrite Hk; reflexivity]. cbn [Z.eqb].
         set (h1 := with_ram _ _). destruct (freepageref_run h1 _ p Hbits) as (ws' & E4 & Hb'); [by right|done|].
         rewrite (bind_ok _ _ _ _ _ E4). eexists. split; [reflexivity|]. split; [|right; lia]. destruct R. constructor; try done.
         destruct Hb' as [B1 B2 B3]. constructor; try done. intros i w c Hi Hc. rewrite (B3 i w c Hi Hc). split; [tauto|].
         intros Hin. split; [by left|]. intros Ep. apply Hp. by rewrite <- Ep. }
    right. destruct Hk as [Hk Hram]. erewrite bind_ok; [|unfold kpages; cbn [ram_ with_inuse]; rewrite Hk; reflexivity].
    pose proof (rw_range _ (hr_ram _ _ _ R)) as Hr0. pose proof (rw_last _ (hr_ram _ _ _ R)) as Hr1. unfold MAXRAM, PAGE_SIZE in *.
    rewrite (proj2 (Z.eqb_neq _ _)) by (unfold MIPS_KSEG0; lia). set (h1 := with_ram _ _).
    destruct (new_page_run h1 p (heap_top h) ty b) as (pr & wd & E4 & Hs & Ha & P & Hw); [apply R|done|done| | |done|].
    { unfold heap_top. apply Z.divide_add_r; [apply (hr_ram _ _ _ R)|by exists 524288]. }
    { unfold heap_top, MIPS_KSEG0. lia. }
    rewrite (bind_ok _ _ _ _ _ E4).
    destruct (heap_add h ps big p ty pr wd ws (mkram (firstpaddr (ram_ h) + 1 * 4096) (lastpaddr (ram_ h))) b) as [R4 Hal]; try done.
    set (h4 := mkheap _ _ _ _ _ _) in *. set (g := mkg p _ _ _) in *.
    destruct (take_from h4 [] g ps big sz R4) as (q & ps' & h' & E5 & R' & U' & [O1 O2] & D & _); try done.
    { cbn. destruct (bsize_facts ty Ht) as (_ & _ & _ & F4 & _). destruct (Z.to_nat (bcount ty)) eqn:Em; [lia|done]. }
    exists q, (bsize ty), ps', h'. split; [by rewrite (bind_ok _ _ _ _ _ E5)|]. unfold one_more. split_and!; try done.
    + intros m Hm. apply (O1 m). by apply Hal.
    + intros r m. rewrite (O2 r m). cbn [g_type g]. by rewrite (Hal r m).
Qed.

Lemma heap_grow h ps big n r :
  heap_rep h ps big → 0 < n → ram_wf r → firstpaddr r = firstpaddr (ram_ h) + n →
  heap_rep (with_ram r h) ps (<[heap_top h := n]> big) ∧ one_more ps ps big (<[heap_top h := n]> big) (heap_top h) n.
Proof.
  intros R Hn Hr Hf. pose proof (hr_apart _ _ _ R) as [A1 A2 A3 A4 A5].
  assert (heap_top (with_ram r h) = heap_top h + n) as Et by (unfold heap_top; cbn; rewrite Hf; lia).
  assert (∀ g, g ∈ ps → g_addr g + 4096 ≤ heap_top h) as Hb by done.
  assert (big !! heap_top h = None) as Hnone.
  { destruct (big !! heap_top h) as [m|] eqn:E; [|done]. destruct (A3 _ _ E) as (_ & ? & _ & ?). lia. }
  pose proof (rw_range _ (hr_ram _ _ _ R)) as Hr0. split; [|split].
  - destruct R. constructor; try done. rewrite Et. constructor; [done|intros g Hg; specialize (Hb g Hg); lia|..].
    + intros p m. rewrite lookup_insert_Some. intros [[<- <-]|[_ Hp]].
      * split_and!; [|done|unfold heap_top, MIPS_KSEG0; lia|lia]. unfold heap_top. apply Z.divide_add_r; [apply hr_ram0|by exists 524288].
      * destruct (A3 p m Hp) as (? & ? & ? & ?). split_and!; (done || lia).
    + intros p m q k. rewrite !lookup_insert_Some. intros [[<- <-]|[_ Hp]] [[<- <-]|[_ Hq]] Hne; [done|..].
      * destruct (A3 q k Hq) as (? & ? & ? & ?). lia.
      * destruct (A3 p m Hp) as (? & ? & ? & ?). lia.
      * by apply A4.
    + intros g p m Hg. rewrite lookup_insert_Some. intros [[<- <-]|[_ Hp]]; [|by apply A5]. specialize (Hb g Hg). lia.
  - intros m [Hm|(g & Hg & _ & Hr' & _)]; [congruence|]. specialize (Hb g Hg). lia.
  - intros q m. unfold allocated. rewrite lookup_insert_Some. split.
    + intros [[[<- <-]|[? ?]]|(g & Hg & H2 & H3 & H4)]; [by left|right; split; [done|by left]|].
      right. split; [specialize (Hb g Hg); lia|]. right. by exists g.
    + intros [[-> ->]|[Hne [?|?]]]; [left; by left|left; right; done|by right].
Qed.

Lemma kmalloc_alloc h ps big sz :
  heap_rep h ps big → Forall used_ok ps → 0 ≤ sz < 2 ^ 31 →
  (∃ h', kmalloc sz h = Ok (None, h') ∧ heap_rep h' ps big ∧ exhausted h ps (Z.max 1 ((sz + 4095) `div` 4096))) ∨
  ∃ p n ps' big' h', kmalloc sz h = Ok (Some p, h') ∧ heap_rep h' ps' big' ∧ Forall used_ok ps' ∧
    sz ≤ n ∧ one_more ps ps' big big' p n ∧ (16 | p).
Proof.
  intros R U Hsz. unfold kmalloc, LARGEST_SUBPAGE_SIZE. destruct (Z.leb_spec 2048 sz).
  - unfold PAGE_SIZE. rewrite u32_small by lia. set (np := (sz + 4096 - 1) `div` 4096).
    assert (np = (sz + 4095) `div` 4096) as Enp by (unfold np; f_equal; lia).
    assert (0 < np ≤ 2 ^ 19 ∧ sz ≤ np * 4096) as (Hnp & Hle) by (unfold np; Z.to_euclidean_division_equations; lia).
    pose proof (alloc_kpages_run np (ram_ h) (hr_ram _ _ _ R) ltac:(lia)) as Hk. case_decide as Hroom.
    + right. destruct Hk as [Hk Hram]. erewrite bind_ok; [|unfold kpages; rewrite Hk; reflexivity].
      pose proof (rw_range _ (hr_ram _ _ _ R)). rewrite (proj2 (Z.eqb_neq _ _)) by (unfold MIPS_KSEG0; lia).
      destruct (heap_grow h ps big (np * PAGE_SIZE) _ R ltac:(unfold PAGE_SIZE; lia) Hram eq_refl) as [R' O].
      eexists _, _, ps, _, _. split; [reflexivity|]. split; [exact R'|]. split; [done|]. split; [|split; [exact O|]].
      * unfold PAGE_SIZE. lia.
      * apply Z.divide_add_r; [|by exists 134217728]. eapply Z.divide_trans; [|apply (hr_ram _ _ _ R)]. by exists 256.
    + left. erewrite bind_ok; [|unfold kpages; rewrite Hk; reflexivity]. eexists. split; [reflexivity|].
      split; [by destruct R|]. right. unfold PAGE_SIZE in *. lia.
  - destruct (subpage_kmalloc_run h ps big sz R U) as [(h' & E & R' & [Hx|Hx])|(p & n & ps' & h' & E & R' & U' & Hn & O & D)]; [lia|..].
    + left. exists h'. split_and!; try done. by left.
    + left. exists h'. split_and!; try done. right. unfold PAGE_SIZE in *. lia.
    + right. by exists p, n, ps', big, h'.
Qed.

(** ** Unlinking *)
Lemma remove_same_run h x prx ty pre suf :
  pagerefs h !! x = Some prx → NoDup (pre ++ x :: suf) →
  ∀ fuel prev guy, linked (nx_same (pagerefs h)) guy (pre ++ x :: suf) → (length pre < fuel)%nat →
  remove_same fuel x ty prev guy h =
    match (match list.last pre with Some q => Some q | None => prev end) with
    | None => setbase ty (next_samesize prx)
    | Some q => updpr q (set_samesize (next_samesize prx))
    end h.
Proof.
  intros Hx. induction pre as [|y pre IH]; intros Hnd [|fuel] prev guy Hl Hf; try (cbn in Hf; lia); cbn in Hl;
    destruct Hl as (-> & n & Hn & Hl); cbn [remove_same].
  - rewrite (bind_ok _ _ _ _ _ (getpr_run h x prx Hx)). by rewrite bool_decide_true.
  - cbn in Hnd. apply list.NoDup_cons in Hnd as [Hy Hnd]. unfold nx_same in Hn. destruct (pagerefs h !! y) as [pry|] eqn:Ey; [|done].
    cbn in Hn. rewrite (bind_ok _ _ _ _ _ (getpr_run h y pry Ey)). rewrite bool_decide_false.
    2: { intros ->. apply Hy, elem_of_app. right. by left. }
    assert (next_samesize pry = n) as -> by congruence. rewrite (IH Hnd fuel (Some y) n Hl) by (cbn in Hf; lia).
    rewrite list.last_cons. by destruct (list.last pre).
Qed.

Lemma remove_all_run h x prx pre suf :
  pagerefs h !! x = Some prx → NoDup (pre ++ x :: suf) →
  ∀ fuel prev guy, linked (nx_all (pagerefs h)) guy (pre ++ x :: suf) → (length pre < fuel)%nat →
  remove_all fuel x prev guy h =
    match (match list.last pre with Some q => Some q | None => prev end) with
    | None => modify (with_allbase (next_all prx))
    | Some q => updpr q (set_all (next_all prx))
    end h.
Proof.
  intros Hx. induction pre as [|y pre IH]; intros Hnd [|fuel] prev guy Hl Hf; try (cbn in Hf; lia); cbn in Hl;
    destruct Hl as (-> & n & Hn & Hl); cbn [remove_all].
  - rewrite (bind_ok _ _ _ _ _ (getpr_run h x prx Hx)). by rewrite bool_decide_true.
  - cbn in Hnd. apply list.NoDup_cons in Hnd as [Hy Hnd]. unfold nx_all in Hn. destruct (pagerefs h !! y) as [pry|] eqn:Ey; [|done].
    cbn in Hn. rewrite (bind_ok _ _ _ _ _ (getpr_run h y pry Ey)). rewrite bool_decide_false.
    2: { intros ->. apply Hy, elem_of_app. right. by left. }
    assert (next_all pry = n) as -> by congruence. rewrite (IH Hnd fuel (Some y) n Hl) by (cbn in Hf; lia).
    rewrite list.last_cons. by destruct (list.last pre).
Qed.

(** What unlinking does to the pagerefs: one link of an element of [l], at most. *)
Definition relinked (f : option nat → pageref → pageref) (l : list nat) (refs refs' : list pageref) : Prop :=
  length refs' = length refs ∧ (∀ p, p ∉ l → refs' !! p = refs !! p) ∧
  ∀ p pr, refs !! p = Some pr → refs' !! p = Some pr ∨ ∃ n, refs' !! p = Some (f n pr).

Lemma relinked_refl f l refs : relinked f l refs refs.
Proof. split_and!; auto. Qed.

Lemma relinked_insert f l (refs : list pageref) q prq n :
  refs !! q = Some prq → q ∈ l → relinked f l refs (<[q := f n prq]> refs).
Proof.
  intros Hq Hin. split_and!; [by rewrite length_insert|..].
  - intros p Hp. rewrite list_lookup_insert_ne; [done|]. by intros ->.
  - intros p pr Hpr. destruct (decide (p = q)) as [->|]; [right; exists n|left; by rewrite list_lookup_insert_ne].
    rewrite list_lookup_insert_eq by (by eapply lookup_lt_Some). congruence.
Qed.

Lemma unlink_same h b ty x pre suf fuel :
  linked (nx_same (pagerefs h)) b (pre ++ x :: suf) → NoDup (pre ++ x :: suf) → (length pre < fuel)%nat →
  sizebases h !! Z.to_nat ty = Some b →
  ∃ refs' b', remove_same fuel x ty None b h = Ok (tt, with_refs refs' (with_sizebases (<[Z.to_nat ty := b']> (sizebases h)) h)) ∧
    linked (nx_same refs') b' (pre ++ suf) ∧ relinked set_samesize (pre ++ x :: suf) (pagerefs h) refs'.
Proof.
  intros Hl Hnd Hf Hb. destruct (linked_lookup next_samesize _ _ _ x Hl) as [prx Hx]; [apply elem_of_app; right; by left|].
  rewrite (remove_same_run h x prx ty pre suf Hx Hnd fuel None b Hl Hf).
  destruct (linked_tail _ _ _ _ _ Hl) as (n & Hn & Hsuf). unfold nx_same in Hn. rewrite Hx in Hn. cbn in Hn.
  destruct pre as [|q0 pre0 _] using rev_ind.
  - eexists (pagerefs h), _. split; [by destruct h|]. split; [|apply relinked_refl]. cbn. by simplify_eq.
  - rewrite last_snoc. rewrite <- ?app_assoc in *. cbn in *.
    destruct (linked_lookup next_samesize _ _ _ q0 Hl) as [prq Hq]; [apply elem_of_app; right; by left|].
    rewrite (updpr_run h q0 prq _ Hq). eexists _, b. rewrite (list_insert_id _ _ _ Hb). split; [by destruct h|]. split.
    + unfold nx_same. eapply (linked_cut next_samesize); try done. by rewrite Hx.
    + apply relinked_insert; [done|]. apply elem_of_app. right. by left.
Qed.

Lemma unlink_all h x pre suf fuel :
  linked (nx_all (pagerefs h)) (allbase h) (pre ++ x :: suf) → NoDup (pre ++ x :: suf) → (length pre < fuel)%nat →
  ∃ refs' b', remove_all fuel x None (allbase h) h = Ok (tt, with_refs refs' (with_allbase b' h)) ∧
    linked (nx_all refs') b' (pre ++ suf) ∧ relinked set_all (pre ++ x :: suf) (pagerefs h) refs'.
Proof.
  intros Hl Hnd Hf. destruct (linked_lookup next_all _ _ _ x Hl) as [prx Hx]; [apply elem_of_app; right; by left|].
  rewrite (remove_all_run h x prx pre suf Hx Hnd fuel None _ Hl Hf).
  destruct (linked_tail _ _ _ _ _ Hl) as (n & Hn & Hsuf). unfold nx_all in Hn. rewrite Hx in Hn. cbn in Hn.
  destruct pre as [|q0 pre0 _] using rev_ind.
  - exists (pagerefs h), (next_all prx). split; [by destruct h|]. split; [|apply relinked_refl]. cbn. by simplify_eq.
  - rewrite last_snoc. rewrite <- ?app_assoc in *. cbn in *.
    destruct (linked_lookup next_all _ _ _ q0 Hl) as [prq Hq]; [apply elem_of_app; right; by left|].
    rewrite (updpr_run h q0 prq _ Hq). eexists _, (allbase h). split; [by destruct h|]. split.
    + unfold nx_all. eapply (linked_cut next_all); try done. by rewrite Hx.
    + apply relinked_insert; [done|]. apply elem_of_app. right. by left.
Qed.

Lemma relinked_proj {B} (get : pageref → B) f l refs refs' :
  relinked f l refs refs' → (∀ n pr, get (f n pr) = get pr) → ∀ p, get <$> refs' !! p = get <$> refs !! p.
Proof.
  intros (Hlen & _ & H) Hf p. destruct (refs !! p) as [pr|] eqn:E.
  - destruct (H p pr E) as [->|[n ->]]; cbn; [done|by rewrite Hf].
  - apply lookup_ge_None in E. rewrite (lookup_ge_None_2 refs' p) by lia. done.
Qed.

Lemma linked_proj (get : pageref → option nat) f l refs refs' hd l' :
  relinked f l refs refs' → (∀ n pr, get (f n pr) = get pr) →
  linked (fun x => get <$> refs !! x) hd l' → linked (fun x => get <$> refs' !! x) hd l'.
Proof. intros H Hf. apply linked_ext. intros x _. symmetry. by eapply relinked_proj. Qed.

Lemma page_ok_links ws pr pr' g :
  page_ok ws pr g → pageaddr_and_blocktype pr' = pageaddr_and_blocktype pr → nfree pr' = nfree pr →
  freelist_offset pr' = freelist_offset pr → page_ok ws pr' g.
Proof. intros [] E1 E2 E3. constructor; congruence. Qed.

Lemma relinked_pages f l refs refs' ws g pr :
  relinked f l refs refs' → (∀ n pr, pageaddr_and_blocktype (f n pr) = pageaddr_and_blocktype pr ∧
    nfree (f n pr) = nfree pr ∧ freelist_offset (f n pr) = freelist_offset pr) →
  refs !! g_ref g = Some pr → page_ok ws pr g → ∃ pr', refs' !! g_ref g = Some pr' ∧ page_ok ws pr' g.
Proof.
  intros (_ & _ & H) Hf Hg P. destruct (H _ _ Hg) as [E|[n E]]; [by exists pr|]. exists (f n pr). split; [done|].
  destruct (Hf n pr) as (? & ? & ?). by eapply page_ok_links.
Qed.

(** The lists by size, with one page marked. *)
Lemma filter_mid (i : Z) pre g suf :
  g_ref <$> filter (fun x => g_type x = i) (pre ++ g :: suf) =
    (g_ref <$> filter (fun x => g_type x = i) pre) ++ (if decide (g_type g = i) then [g_ref g] else []) ++
    (g_ref <$> filter (fun x => g_type x = i) suf).
Proof. rewrite list.filter_app, filter_cons, fmap_app. by case_decide. Qed.

Lemma filter_NoDup (i : Z) ps : NoDup (g_ref <$> ps) → NoDup (g_ref <$> filter (fun x => g_type x = i) ps).
Proof. intros H. eapply sublist_NoDup; [exact H|]. apply fmap_sublist, sublist_filter. Qed.

(** A pageref is on the list of one size only. *)
Lemma filter_type (i j : Z) ps x :
  NoDup (g_ref <$> ps) → x ∈ g_ref <$> filter (fun x => g_type x = i) ps → x ∈ g_ref <$> filter (fun x => g_type x = j) ps → i = j.
Proof.
  intros Hnd Hi Hj. apply list_elem_of_fmap in Hi as (y & -> & Hy), Hj as (z & E & Hz).
  apply list_elem_of_filter in Hy as [Hyt Hy], Hz as [Hzt Hz].
  apply list_elem_of_lookup in Hy as [k Hk], Hz as [l Hl]. assert (k = l) as ->; [|congruence].
  eapply (NoDup_lookup _ k l (g_ref y) Hnd); rewrite list_lookup_fmap; [by rewrite Hk|by rewrite Hl, E].
Qed.

Lemma remove_lists_run h pre g suf big :
  heap_rep h (pre ++ g :: suf) big →
  ∃ refs sb b, remove_lists (g_ref g) (g_type g) h = Ok (tt, mkheap refs (pagerefs_inuse h) sb b (words h) (ram_ h)) ∧
    length refs = 256%nat ∧ length sb = 8%nat ∧ linked (nx_all refs) b (g_ref <$> pre ++ suf) ∧
    (∀ i c, sb !! i = Some c → linked (nx_same refs) c (g_ref <$> filter (fun x => g_type x = Z.of_nat i) (pre ++ suf))) ∧
    (∀ x, x ∈ pre ++ suf → ∃ pr, refs !! g_ref x = Some pr ∧ page_ok (words h) pr x).
Proof.
  intros R. pose proof R as [R1 R2 R3 R4 R5 R7 R8 R9 R10].
  destruct (R5 g) as (prg & Hprg & Pg); [apply elem_of_app; right; by left|]. pose proof (po_type _ _ _ Pg) as Ht.
  pose proof (pages_le _ _ _ R) as Hlen. rewrite length_app in Hlen.
  destruct (lookup_lt_is_Some_2 (sizebases h) (Z.to_nat (g_type g))) as [b Hb]; [lia|].
  pose proof (R4 _ _ Hb) as Hl. pose proof (filter_NoDup (g_type g) _ R8) as Hnd. rewrite Z2Nat.id in Hl by lia.
  rewrite filter_mid, decide_True in Hl, Hnd by done. cbn [app] in Hl, Hnd.
  destruct (unlink_same h b (g_type g) _ _ _ LISTFUEL Hl Hnd) as (refs1 & b1 & E1 & L1 & K1); [|done|].
  { rewrite length_fmap. pose proof (length_filter (fun x => g_type x = g_type g) pre). unfold LISTFUEL. lia. }
  set (h1 := with_refs refs1 _) in E1. pose proof R8 as R8'. rewrite fmap_app in R2, R8'. cbn [fmap list_fmap] in R2, R8'.
  destruct (unlink_all h1 (g_ref g) (g_ref <$> pre) (g_ref <$> suf) LISTFUEL) as (refs2 & b2 & E2 & L2 & K2); [|done| |].
  { by apply (linked_proj next_all _ _ _ _ _ _ K1). }
  { rewrite length_fmap. unfold LISTFUEL. lia. }
  eexists refs2, _, b2. split_and!.
  - unfold remove_lists. erewrite bind_ok; [|unfold massert; rewrite (proj2 (Z.leb_le 0 _)), (proj2 (Z.ltb_lt _ _)) by (unfold NSIZES; lia); reflexivity].
    erewrite bind_ok; [|unfold getbase; rewrite Hb; reflexivity]. rewrite (bind_ok _ _ _ _ _ E1). erewrite bind_ok; [exact E2|reflexivity].
  - destruct K1 as (K1 & _), K2 as (K2 & _). cbn in K2. lia.
  - cbn. by rewrite length_insert.
  - rewrite fmap_app. exact L2.
  - intros i c Hc. cbn in Hc. apply (linked_proj next_samesize _ _ _ _ _ _ K2); [done|]. cbn [pagerefs h1 with_refs].
    destruct (decide (i = Z.to_nat (g_type g))) as [->|Hi].
    + rewrite list_lookup_insert_eq in Hc by lia. rewrite Z2Nat.id, list.filter_app, fmap_app by lia. by simplify_eq.
    + rewrite list_lookup_insert_ne in Hc by done. specialize (R4 i c Hc). rewrite filter_mid, decide_False in R4 by lia.
      rewrite list.filter_app, fmap_app. eapply linked_ext; [|exact R4]. intros x Hx. unfold nx_same. destruct K1 as (_ & K1 & _).
      rewrite K1; [done|]. intros Hin. apply Hi. rewrite <- (Nat2Z.id i). f_equal. eapply (filter_type _ _ _ x R8).
      * rewrite filter_mid, decide_False by lia. exact Hx.
      * rewrite filter_mid, decide_True by done. exact Hin.
  - intros x Hx. destruct (R5 x) as (pr & Hpr & P); [rewrite elem_of_app in Hx; rewrite elem_of_app, elem_of_cons; tauto|].
    destruct (relinked_pages _ _ _ _ _ x pr K1 ltac:(done) Hpr P) as (pr1 & Hpr1 & P1).
    by eapply (relinked_pages _ _ _ _ _ x pr1 K2).
Qed.

(** A page that is no longer needed goes off the lists, and its pageref is free. *)
Lemma release_run h pre g suf big :
  heap_rep h (pre ++ g :: suf) big →
  ∃ h', (let* _ := remove_lists (g_ref g) (g_type g) in
         let* _ := modify (fun h => with_ram (free_kpages (g_addr g) (ram_ h)) h) in
         freepageref (g_ref g)) h = Ok (tt, h') ∧ heap_rep h' (pre ++ suf) big.
Proof.
  intros R. destruct (remove_lists_run h pre g suf big R) as (refs & sb & b & E & L1 & L2 & L3 & L4 & L5).
  pose proof R as [R1 R2 R3 R4 R5 R7 R8 R9 R10]. rewrite (bind_ok _ _ _ _ _ E). erewrite bind_ok; [|reflexivity].
  set (h2 := with_ram _ _). assert (g ∈ pre ++ g :: suf) as Hg by (apply elem_of_app; right; by left).
  destruct (R5 g Hg) as (prg & Hprg & _). apply lookup_lt_Some in Hprg.
  destruct (freepageref_run h2 _ (g_ref g) R7) as (ws & E3 & [B1 B2 B3]); [by apply list_elem_of_fmap_2|lia|].
  eexists. split; [exact E3|]. rewrite fmap_app in R8. cbn in R8.
  assert (∀ x, x ∈ g_ref <$> pre ++ suf ↔ x ∈ g_ref <$> pre ++ g :: suf ∧ x ≠ g_ref g) as Hmem.
  { intros x. rewrite !fmap_app, elem_of_app, elem_of_app. cbn. rewrite elem_of_cons.
    apply list.NoDup_app in R8 as (_ & H1 & H2). apply list.NoDup_cons in H2 as [H2 _]. split; [|tauto].
    intros [Hx|Hx]; (split; [tauto|]); intros ->; [|done]. apply (H1 _ Hx). by left. }
  constructor; try done.
  - constructor; try done. intros i w c Hi Hc. rewrite (B3 i w c Hi Hc). symmetry. apply Hmem.
  - rewrite fmap_app. apply list.NoDup_app in R8 as (N1 & N2 & N3). apply list.NoDup_cons in N3 as [_ N3].
    apply list.NoDup_app. split_and!; try done. intros x Hx Hx'. apply (N2 x Hx). by right.
  - destruct R10 as [A1 A2 A3 A4 A5]. assert (∀ x, x ∈ pre ++ suf → x ∈ pre ++ g :: suf) as Hsub.
    { intros x. rewrite !elem_of_app, elem_of_cons. tauto. }
    constructor; auto. rewrite fmap_app in *. cbn in A1. apply list.NoDup_app in A1 as (N1 & N2 & N3).
    apply list.NoDup_cons in N3 as [_ N3]. apply list.NoDup_app. split_and!; try done. intros x Hx Hx'. apply (N2 x Hx). by right.
Qed.

(** ** [kfree] *)
Lemma fill_deadbeef_run n a h :
  ∃ ws, fill_deadbeef n a h = Ok (tt, with_words ws h) ∧ ∀ x, ¬ (a ≤ x < a + 4 * Z.of_nat n) → ws !! x = words h !! x.
Proof.
  revert a h. induction n as [|n IH]; intros a h; cbn [fill_deadbeef]; [exists (words h); by destruct h|].
  erewrite bind_ok; [|reflexivity]. destruct (IH (a + 4) (with_words (<[a := 3735928559]> (words h)) h)) as (ws & E & Hf).
  exists ws. split; [exact E|]. intros x Hx. rewrite (Hf x) by lia. cbn. rewrite lookup_insert_ne; [done|lia].
Qed.

(** A free page has all its blocks on the free list. *)
Lemma all_free ws pr g o :
  page_ok ws pr g → bcount (g_type g) ≤ Z.of_nat (length (g_free g)) → 0 ≤ o < 4096 → (bsize (g_type g) | o) → o ∈ g_free g.
Proof.
  intros P Hc Ho [k Hk]. destruct (bsize_facts _ (po_type _ _ _ P)) as (F1 & _ & F3 & F4 & _).
  assert (g_free g ⊆+ offs (bsize (g_type g)) (Z.to_nat (bcount (g_type g)))) as Hsub.
  { apply NoDup_submseteq; [apply P|]. intros x Hx. pose proof (po_offs _ _ _ P) as Hall. rewrite list.Forall_forall in Hall.
    destruct (Hall x Hx) as [Hx1 [j Hj]]. apply elem_of_offs. exists (Z.to_nat j). assert (0 ≤ j) by nia.
    assert (j < bcount (g_type g)) by nia. split; [lia|]. rewrite Z2Nat.id by lia. done. }
  rewrite (submseteq_length_Permutation _ _ Hsub) by (rewrite length_offs; lia).
  apply elem_of_offs. exists (Z.to_nat k). assert (0 ≤ k) by nia. assert (k < bcount (g_type g)) by nia. split; [lia|].
  rewrite Z2Nat.id by lia. done.
Qed.

(** Pushing block [o] on the free list of its page. *)
Lemma push_block ws pr g o ws1 :
  page_ok ws pr g → 0 ≤ o < 4096 → (bsize (g_type g) | o) → o ∉ g_free g →
  (∀ x, ¬ (g_addr g + o ≤ x < g_addr g + o + bsize (g_type g)) → ws1 !! x = ws !! x) →
  let next := if freelist_offset pr =? INVALID_OFFSET then 0 else u32 (g_addr g + freelist_offset pr) in
  page_ok (<[g_addr g + o := next]> ws1) (set_free o (Z.of_nat (S (length (g_free g)))) pr) (set_gfree (o :: g_free g) g).
Proof.
  intros P Ho Hd Hnin Hws next. pose proof P as [P1 P2 P3 P4 P5 P6 P7 P8 P9].
  assert (next = from_option (fun o => g_addr g + o) 0 (list.head (g_free g))) as En.
  { unfold next. rewrite P8. destruct (g_free g) as [|o' l]; [done|]. cbn. apply Forall_cons_1 in P7 as [[P7 _] _].
    rewrite (proj2 (Z.eqb_neq o' INVALID_OFFSET)) by (unfold INVALID_OFFSET; lia). by rewrite u32_small by lia. }
  constructor; cbn; try done.
  - by apply list.NoDup_cons.
  - constructor; [done|]. done.
  - split; [done|]. exists next. split; [by rewrite lookup_insert_eq|]. rewrite En. eapply chain_ext; [|exact P9].
    intros o' Ho'. rewrite list.Forall_forall in P7. destruct (P7 o' Ho') as [Hb [j Hj]]. destruct Hd as [i Hi].
    assert (i ≠ j) by (intros ->; apply Hnin; by rewrite Hi, <- Hj). destruct (bsize_facts _ P4) as (F1 & _).
    assert (i < j ∨ j < i) as [|] by lia; (rewrite lookup_insert_ne by nia; symmetry; apply Hws; nia).
Qed.

(** Taking block [p] away. *)
Definition one_less (ps ps' : list gpage) (big big' : gmap Z Z) (p : Z) : Prop :=
  ∀ q m, allocated ps' big' q m ↔ q ≠ p ∧ allocated ps big q m.

Lemma allocated_push h h' pre g suf big o :
  heap_rep h (pre ++ g :: suf) big → heap_rep h' (pre ++ set_gfree (o :: g_free g) g :: suf) big → 0 ≤ o < 4096 →
  one_less (pre ++ g :: suf) (pre ++ set_gfree (o :: g_free g) g :: suf) big big (g_addr g + o).
Proof.
  intros R R' Ho q m. set (g' := set_gfree _ g) in *. assert (g' ∈ pre ++ g' :: suf) as Hg' by (apply elem_of_app; right; by left).
  destruct (decide (q = g_addr g + o)) as [->|Hne].
  - rewrite (allocated_in _ _ big g' _ m R' Hg') by (cbn; lia). cbn. replace (g_addr g + o - g_addr g) with o by lia.
    split; [|tauto]. intros (_ & _ & Hf). exfalso. apply Hf. by left.
  - rewrite (allocated_replace h pre g g' suf big q m R); [tauto|done|].
    intros (_ & _ & Hiff). apply Hiff. cbn. rewrite elem_of_cons. split; [|by right]. intros [?|?]; [lia|done].
Qed.

(** Dropping a page that is all free changes no allocated block. *)
Lemma allocated_drop h pre g suf big :
  heap_rep h (pre ++ g :: suf) big → bcount (g_type g) ≤ Z.of_nat (length (g_free g)) →
  ∀ q m, allocated (pre ++ suf) big q m ↔ allocated (pre ++ g :: suf) big q m.
Proof.
  intros R Hc q m. unfold allocated. apply or_iff_compat_l. split; intros (x & Hx & Hn & Hr & Hd & Hf).
  - exists x. split; [|done]. rewrite elem_of_app in Hx. rewrite elem_of_app, elem_of_cons. tauto.
  - exists x. split; [|done]. rewrite elem_of_app, elem_of_cons in Hx. rewrite elem_of_app. destruct Hx as [?|[->|?]]; [tauto| |tauto].
    exfalso. destruct (hr_pages _ _ _ R g) as (pr & _ & P); [apply elem_of_app; right; by left|].
    apply Hf. apply (all_free _ _ _ _ P Hc); [lia|by subst m].
Qed.

End Kheapsafe.
