(* ===== verification/Kheapspec.v ===== *)
(** * The kernel heap: specification

    [heap_inv h A]: the heap [h] implements the finite map [A] from the addresses of the
    allocated blocks to their sizes.  The theorems: a fresh heap implements the empty map,
    [kmalloc] inserts, [kfree] deletes, the blocks of the map never overlap, and a client that
    writes into a block of its own disturbs nothing. *)
From stdpp Require Import base list list_numbers gmap numbers.
From S2P Require Import Prelude Ram Kheap Kheapsafe.
Local Open Scope Z_scope.

Module Kheapspec.
Import Ram Kheap Kheapsafe.

(** ** Freeing a block of a page *)
Lemma find_own h ps big g a :
  heap_rep h ps big → g ∈ ps → g_addr g ≤ a < g_addr g + 4096 → find_addr LISTFUEL a (allbase h) h = Ok (Some (g_ref g), h).
Proof.
  intros R Hg Ha. destruct (find_addr_run h a ps _ LISTFUEL (hr_all _ _ _ R) (hr_pages _ _ _ R)) as [(x & Hx & Hr & E)|[Hno _]].
  - pose proof (pages_le _ _ _ R). unfold LISTFUEL. lia.
  - destruct (hr_pages _ _ _ R x Hx) as (prx & _ & Px), (hr_pages _ _ _ R g Hg) as (pr & _ & P).
    by rewrite <- (page_of _ x g _ _ _ a (ap_pages _ _ _ (hr_apart _ _ _ R)) Hx Hg Px P Hr Ha).
  - exfalso. by apply (Hno g Hg).
Qed.

Lemma subpage_kfree_run h pre g suf big o :
  heap_rep h (pre ++ g :: suf) big → Forall used_ok pre → Forall used_ok suf →
  0 ≤ o < 4096 → (bsize (g_type g) | o) → o ∉ g_free g →
  ∃ h' ps', subpage_kfree (g_addr g + o) h = Ok (0, h') ∧ heap_rep h' ps' big ∧ Forall used_ok ps' ∧
    one_less (pre ++ g :: suf) ps' big big (g_addr g + o).
Proof.
  intros R U1 U2 Ho Hd Hnin. assert (g ∈ pre ++ g :: suf) as Hg by (apply elem_of_app; right; by left).
  destruct (hr_pages _ _ _ R g Hg) as (pr & Hpr & P). destruct (page_split _ _ _ P) as [Ea Eb].
  pose proof (po_type _ _ _ P) as Ht. pose proof (po_addr _ _ _ P) as Hpa. destruct (bsize_facts _ Ht) as (F1 & [f4 F2] & F3 & F4 & F5).
  unfold subpage_kfree. erewrite bind_ok; [|reflexivity].
  pose proof (find_own h _ big g (g_addr g + o) R Hg ltac:(lia)) as E.
  rewrite (bind_ok _ _ _ _ _ E), (bind_ok _ _ _ _ _ (getpr_run h _ pr Hpr)). rewrite Ea, Eb.
  rewrite (bind_ok _ _ _ _ _ (size_of_run _ h Ht)). replace (g_addr g + o - g_addr g) with o by lia. rewrite (u32_small o) by lia.
  rewrite (proj2 (Z.leb_gt _ _)), (proj2 (Z.mod_divide o (bsize (g_type g)) ltac:(lia)) Hd) by (unfold PAGE_SIZE; lia). cbn [orb negb Z.eqb].
  destruct (fill_deadbeef_run (Z.to_nat (bsize (g_type g) `div` 4)) (g_addr g + o) h) as (ws1 & E1 & Hfr).
  rewrite (bind_ok _ _ _ _ _ E1). replace (bsize (g_type g) `div` 4) with f4 in Hfr by (rewrite F2, Z.div_mul; lia).
  rewrite (u32_small (g_addr g + o)) by lia. erewrite bind_ok; [|reflexivity].
  pose proof (push_block (words h) pr g o ws1 P Ho Hd Hnin ltac:(intros y Hy; apply Hfr; lia)) as P'. cbv zeta in P'.
  set (g' := set_gfree (o :: g_free g) g) in *. pose proof (page_nfree_le _ _ _ P') as Hle. cbn [g_free g' set_gfree length g_type] in Hle.
  rewrite (po_nfree _ _ _ P). replace (Z.of_nat (length (g_free g)) + 1) with (Z.of_nat (S (length (g_free g)))) by lia.
  rewrite !(u16_small (Z.of_nat (S (length (g_free g))))), (u16_small o) by lia.
  erewrite bind_ok; [|apply (updpr_run _ _ pr); exact Hpr]. unfold PAGE_SIZE. rewrite F5.
  erewrite bind_ok; [|unfold massert; rewrite (proj2 (Z.leb_le _ _)) by lia; reflexivity].
  pose proof (heap_replace h pre g g' suf big pr (set_free o (Z.of_nat (S (length (g_free g)))) pr) _ R ltac:(done) Hpr
    eq_refl eq_refl P') as R1.
  match type of R1 with ?X → _ => assert X as HX end.
  { intros a Ha. rewrite lookup_insert_ne by lia. apply Hfr. destruct Hd as [i Hi]. assert (i < bcount (g_type g)) by nia. nia. }
  specialize (R1 HX). match type of R1 with heap_rep ?X _ _ => set (h1 := X) in * end.
  match goal with |- context [mbind _ _ ?s] => change s with h1 end.
  pose proof (allocated_push _ _ _ _ _ _ _ R R1 Ho) as Hless.
  destruct (Z.eqb_spec (Z.of_nat (S (length (g_free g)))) (bcount (g_type g))) as [Hfull|Hnf].
  - destruct (release_run h1 pre g' suf big R1) as (h2 & E2 & R2). cbn [g_ref g_type g_addr g' set_gfree] in E2.
    rewrite (bind_ok _ _ _ _ _ E2). exists h2, (pre ++ suf). split; [done|]. split; [done|]. split; [by apply Forall_app|].
    intros q m. rewrite (allocated_drop _ _ _ _ _ R1); [apply Hless|]. cbn [g_free g' set_gfree length g_type]. lia.
  - erewrite bind_ok; [|reflexivity]. exists h1, (pre ++ g' :: suf). split; [done|]. split; [done|]. split; [|exact Hless].
    apply Forall_app. split; [done|]. constructor; [|done]. unfold used_ok. cbn [g_free g' set_gfree length g_type]. lia.
Qed.

Lemma kfree_run h ps big a n :
  heap_rep h ps big → Forall used_ok ps → allocated ps big a n →
  ∃ h' ps' big', kfree (Some a) h = Ok (tt, h') ∧ heap_rep h' ps' big' ∧ Forall used_ok ps' ∧ one_less ps ps' big big' a.
Proof.
  intros R U Hal. unfold kfree. pose proof (hr_apart _ _ _ R) as A. destruct Hal as [Hb|(g & Hg & Hn & Hr & Hd & Hf)].
  - destruct (ap_big _ _ _ A a n Hb) as (Hal & Hpos & _ & Htop). unfold subpage_kfree.
    destruct (find_addr_run h a ps _ LISTFUEL (hr_all _ _ _ R) (hr_pages _ _ _ R)) as [(x & Hx & Hr & E)|[Hno E]].
    { pose proof (pages_le _ _ _ R). unfold LISTFUEL. lia. }
    { exfalso. destruct (ap_pb _ _ _ A x a n Hx Hb); lia. }
    erewrite bind_ok; [|erewrite bind_ok; [|reflexivity]; rewrite (bind_ok _ _ _ _ _ E); reflexivity]. cbn [negb Z.eqb].
    erewrite bind_ok; [|unfold massert, PAGE_SIZE; rewrite (proj2 (Z.mod_divide a 4096 ltac:(lia)) Hal); reflexivity].
    exists h, ps, (delete a big). split; [by destruct h|]. split; [|split; [done|]].
    + destruct R, A as [A1 A2 A3 A4 A5]. constructor; try done. constructor; try done.
      * intros p m Hp. apply lookup_delete_Some in Hp as [_ Hp]. by apply A3.
      * intros p m q k Hp Hq. apply lookup_delete_Some in Hp as [_ Hp], Hq as [_ Hq]. by apply A4.
      * intros x p m Hx Hp. apply lookup_delete_Some in Hp as [_ Hp]. by apply A5.
    + intros q m. unfold allocated. rewrite lookup_delete_Some. split; [|intuition congruence].
      intros [[? ?]|(x & Hx & ? & Hr & ?)]; [by split; [|left]|]. split; [|by right; exists x].
      intros ->. destruct (ap_pb _ _ _ A x a n Hx Hb); lia.
  - apply list_elem_of_split in Hg as (pre & suf & ->). apply Forall_app in U as [U1 U2]. apply Forall_cons_1 in U2 as [_ U2].
    subst n. destruct (subpage_kfree_run h pre g suf big (a - g_addr g) R U1 U2) as (h' & ps' & E & R' & U' & L); [lia|done|done|].
    replace (g_addr g + (a - g_addr g)) with a in * by lia. rewrite (bind_ok _ _ _ _ _ E). by exists h', ps', big.
Qed.

(** All the pagerefs are taken. *)
Lemma table_full h ps big :
  heap_rep h ps big → length ps = 256%nat → Forall (fun w => w = 4294967295) (pagerefs_inuse h).
Proof.
  intros R Hl. destruct (hr_bits _ _ _ R) as [B1 B2 B3].
  assert (∀ j, (j < 256)%nat → j ∈ g_ref <$> ps) as Hall.
  { assert (g_ref <$> ps ⊆+ seq 0 256) as Hsub.
    { apply NoDup_submseteq; [apply R|]. intros x Hx. apply list_elem_of_fmap in Hx as (g & -> & Hg).
      destruct (hr_pages _ _ _ R g Hg) as (pr & Hpr & _). apply lookup_lt_Some in Hpr. rewrite (hr_refs _ _ _ R) in Hpr. apply elem_of_seq. lia. }
    intros j Hj. rewrite (submseteq_length_Permutation _ _ Hsub) by (rewrite length_fmap, length_seq; lia). apply elem_of_seq. lia. }
  apply Forall_lookup. intros i w Hi. apply word_full; [by apply (Forall_lookup_1 _ _ _ _ B2 Hi)|]. intros b Hb.
  apply (B3 i w b Hi Hb), Hall. apply lookup_lt_Some in Hi. lia.
Qed.

(** ** Theorems *)

(** No page to be had for [sz] bytes, or no pageref. *)
Definition out_of_memory (h : heap) (sz : Z) : Prop :=
  Forall (fun w => w = 4294967295) (pagerefs_inuse h) ∨
  lastpaddr (ram_ h) < firstpaddr (ram_ h) + Z.max 1 ((sz + 4095) `div` 4096) * PAGE_SIZE.

Lemma heap0_empty_rep r : ram_wf r → heap_rep (heap0 r) [] ∅.
Proof.
  intros Hr. constructor; try done.
  - intros i b Hi. change (replicate 8 (@None nat) !! i = Some b) in Hi. by apply lookup_replicate in Hi as [-> _].
  - intros g Hg. by apply not_elem_of_nil in Hg.
  - constructor; [done|by apply Forall_replicate|]. intros i w b Hi _. apply lookup_replicate in Hi as [-> _].
    rewrite Z.bits_0. split; [done|]. by intros ?%not_elem_of_nil.
  - constructor.
  - constructor; try done; [constructor|..]; try (intros g Hg; by apply not_elem_of_nil in Hg); intros; by rewrite lookup_empty in *.
Qed.

(** The heap at boot time is empty. *)
Lemma heap0_inv r : ram_wf r → heap_inv (heap0 r) ∅.
Proof.
  intros Hr. exists [], ∅. split; [by apply heap0_empty_rep|]. split; [constructor|].
  intros p n. rewrite lookup_empty. split; [done|]. intros [?|(g & Hg & _)]; [by rewrite lookup_empty in *|by apply not_elem_of_nil in Hg].
Qed.

(** C7: [kmalloc] inserts a block that is large enough and aligned; it returns NULL, and
    leaves the map as it is, only when memory or the page table is used up.  It never
    panics. *)
Theorem kmalloc_inserts h A sz :
  heap_inv h A → 0 ≤ sz < 2 ^ 31 →
  (∃ h', kmalloc sz h = Ok (None, h') ∧ heap_inv h' A ∧ out_of_memory h sz) ∨
  ∃ p n h', kmalloc sz h = Ok (Some p, h') ∧ A !! p = None ∧ sz ≤ n ∧ (16 | p) ∧ heap_inv h' (<[p := n]> A).
Proof.
  intros (ps & big & R & U & HA) Hsz.
  destruct (kmalloc_alloc h ps big sz R U Hsz) as [(h' & E & R' & Hx)|(p & n & ps' & big' & h' & E & R' & U' & Hn & [O1 O2] & D)].
  - left. exists h'. split_and!; [done|by exists ps, big|]. destruct Hx as [Hx|Hx]; [left; by eapply table_full|by right].
  - right. exists p, n, h'. split_and!; try done.
    + destruct (A !! p) as [m|] eqn:Ep; [|done]. exfalso. by apply (O1 m), HA.
    + exists ps', big'. split_and!; try done. intros q m. rewrite O2, lookup_insert_Some, HA. intuition congruence.
Qed.

(** C8: [kfree] of an allocated block deletes it and nothing else.  It never panics. *)
Theorem kfree_deletes h A p :
  heap_inv h A → is_Some (A !! p) → ∃ h', kfree (Some p) h = Ok (tt, h') ∧ heap_inv h' (delete p A).
Proof.
  intros (ps & big & R & U & HA) [n Hp]. apply HA in Hp. destruct (kfree_run h ps big p n R U Hp) as (h' & ps' & big' & E & R' & U' & L).
  exists h'. split; [done|]. exists ps', big'. split_and!; try done. intros q m. rewrite (L q m), lookup_delete_Some, HA. intuition congruence.
Qed.

(** Two allocated blocks never share a byte. *)
Theorem heap_blocks_disjoint h A p n q m :
  heap_inv h A → A !! p = Some n → A !! q = Some m → p ≠ q → p + n ≤ q ∨ q + m ≤ p.
Proof. intros (ps & big & R & U & HA) Hp Hq. apply HA in Hp, Hq. by apply (allocated_disjoint h ps big). Qed.

(** What a client stores in its own block does not touch the heap's structures. *)
Theorem heap_client_write h A p n a w :
  heap_inv h A → A !! p = Some n → p ≤ a < p + n → heap_inv (with_words (<[a := w]> (words h)) h) A.
Proof.
  intros (ps & big & R & U & HA) Hp Ha. exists ps, big. split_and!; try done. apply HA in Hp. pose proof R as [R1 R2 R3 R4 R5 R7 R8 R9 R10].
  constructor; try done. intros g Hg. destruct (R5 g Hg) as (pr & Hpr & P). exists pr. split; [done|].
  pose proof P as [P1 P2 P3 P4 P5 P6 P7 P8 P9]. constructor; try done. eapply chain_ext; [|exact P9]. intros o Ho. cbn.
  rewrite lookup_insert_ne; [done|]. intros ->. rewrite list.Forall_forall in P7. destruct (P7 o Ho) as [Hb Hd].
  destruct Hp as [Hp|(g' & Hg' & Hn & Hr & Hd' & Hf)].
  - destruct (ap_pb _ _ _ R10 g p n Hg Hp); lia.
  - destruct (R5 g' Hg') as (pr' & _ & P'). pose proof (block_in_page _ _ _ _ _ P' Hn Hr Hd').
    assert (g = g') as <- by (apply (page_of ps g g' _ _ _ (g_addr g + o) (ap_pages _ _ _ R10) Hg Hg' P P'); lia).
    apply Hf. subst n. destruct Hd as [i Hi], Hd' as [j Hj]. destruct (bsize_facts _ P4) as (F1 & _).
    assert (i = j) as -> by nia. by replace (p - g_addr g) with o by lia.
Qed.

(** C36: Sizes close to 4 GB wrap around to no page at all: the caller gets a pointer, and
    the memory it points to stays free for the next caller. *)
Theorem kmalloc_huge_wraps h sz :
  ram_wf (ram_ h) → 2 ^ 32 - 4095 ≤ sz < 2 ^ 32 → kmalloc sz h = Ok (Some (heap_top h), h).
Proof.
  intros [Ha Hr Hl] Hsz. unfold kmalloc, LARGEST_SUBPAGE_SIZE, PAGE_SIZE. rewrite (proj2 (Z.leb_le 2048 sz)) by lia.
  assert (u32 (sz + 4096 - 1) `div` 4096 = 0) as ->.
  { apply Z.div_small. unfold u32. replace (sz + 4096 - 1) with (sz + 4095 - 2 ^ 32 + 1 * 2 ^ 32) by lia.
    rewrite Z.mod_add, Z.mod_small by lia. lia. }
  unfold MAXRAM in Hl. erewrite bind_ok; [|unfold kpages, alloc_kpages, getppages, ram_stealmem; change (u32 (0 * PAGE_SIZE)) with 0;
    rewrite Z.add_0_r, u32_small by lia; destruct (Z.gtb_spec (firstpaddr (ram_ h)) (lastpaddr (ram_ h))); [lia|];
    rewrite (proj2 (Z.eqb_neq _ _)) by lia; unfold PADDR_TO_KVADDR; rewrite u32_small by (unfold MIPS_KSEG0; lia); reflexivity].
  rewrite (proj2 (Z.eqb_neq _ _)) by (unfold MIPS_KSEG0; lia). destruct h as [? ? ? ? ? []]. done.
Qed.

(** ** A concrete heap: 14 free pages *)
Definition small_ram : ram := mkram 8192 65536.

Lemma small_ram_wf : ram_wf small_ram.
Proof. constructor; cbn; unfold MAXRAM, PAGE_SIZE; try lia. by exists 2. Qed.

(** The last of the 128-byte blocks of the first page. *)
Lemma kmalloc_inserts_witness :
  ∃ p n h', kmalloc 100 (heap0 small_ram) = Ok (Some p, h') ∧ (100 ≤ n) ∧ heap_inv h' {[p := n]}.
Proof.
  destruct (kmalloc_inserts (heap0 small_ram) ∅ 100) as [(h' & _ & _ & Hx)|(p & n & h' & E & _ & Hn & _ & Hi)].
  - apply (heap0_inv small_ram small_ram_wf).
  - lia.
  - exfalso. destruct Hx as [Hx|Hx]; [by apply Forall_cons_1 in Hx as [? _]|]. by vm_compute in Hx.
  - exists p, n, h'. split; [exact E|]. split; [exact Hn|exact Hi].
Defined.

(** A large block in front of free memory. *)
Definition one_block : heap := with_ram (mkram 16384 65536) (heap0 (mkram 8192 65536)).

Lemma one_block_rep : heap_rep one_block [] {[2147491840 := 8192]} ∧ Forall used_ok [].
Proof.
  destruct (heap_grow (heap0 small_ram) [] ∅ 8192 (mkram 16384 65536)) as [R O].
  - apply heap0_empty_rep, small_ram_wf.
  - lia.
  - constructor; cbn; unfold MAXRAM, PAGE_SIZE; try lia. by exists 4.
  - done.
  - split; [exact R|constructor].
Qed.

Lemma one_block_inv : heap_inv one_block {[2147491840 := 8192]}.
Proof.
  exists [], {[2147491840 := 8192]}. split; [apply one_block_rep|]. split; [constructor|]. intros p n. unfold allocated. split; [by left|].
  intros [?|(g & Hg & _)]; [done|by apply not_elem_of_nil in Hg].
Qed.

Lemma kfree_deletes_witness : ∃ h', kfree (Some 2147491840) one_block = Ok (tt, h') ∧ heap_inv h' (delete 2147491840 {[2147491840 := 8192]}).
Proof. apply (kfree_deletes one_block {[2147491840 := 8192]} 2147491840 one_block_inv). by eexists. Defined.

Lemma heap_client_write_witness : heap_inv (with_words (<[2147491844 := 77]> (words one_block)) one_block) {[2147491840 := 8192]}.
Proof. apply (heap_client_write one_block {[2147491840 := 8192]} 2147491840 8192 2147491844 77 one_block_inv); [done|lia]. Defined.

(** Two large blocks. *)
Definition two_blocks : heap := with_ram (mkram 20480 65536) one_block.

Lemma two_blocks_inv : heap_inv two_blocks {[2147500032 := 4096; 2147491840 := 8192]}.
Proof.
  destruct one_block_rep as [R _]. destruct (heap_grow one_block [] {[2147491840 := 8192]} 4096 (mkram 20480 65536) R) as [R2 _].
  - lia.
  - constructor; cbn; unfold MAXRAM, PAGE_SIZE; try lia. by exists 5.
  - done.
  - exists [], {[2147500032 := 4096; 2147491840 := 8192]}. split; [exact R2|]. split; [constructor|]. intros p n.
    unfold allocated. split; [by left|]. intros [?|(g & Hg & _)]; [done|by apply not_elem_of_nil in Hg].
Qed.

Lemma heap_blocks_disjoint_witness : 2147500032 + 4096 ≤ 2147491840 ∨ 2147491840 + 8192 ≤ 2147500032.
Proof. apply (heap_blocks_disjoint two_blocks _ 2147500032 4096 2147491840 8192 two_blocks_inv); done. Defined.

Lemma kmalloc_huge_wraps_witness : kmalloc 4294967295 (heap0 small_ram) = Ok (Some 2147491840, heap0 small_ram).
Proof. apply (kmalloc_huge_wraps (heap0 small_ram) 4294967295 small_ram_wf). lia. Defined.

End Kheapspec.
