(* ===== verification/Vfs.v ===== *)
(** * The virtual file system layer: operations
    (kern/fs/vfs/vfslist.c, vfslookup.c, vfspath.c, vfscwd.c)

    The layer calls the file systems and devices below it through the function tables of
    vnode.h and fs.h.  [Vnodes W] is that interface: the operations of a vnode or file system
    ([VOP_...], [FSOP_...]) on the state [W] of everything below, including the reference and
    open counts.  A vnode, a file system and a device are numbers.  [VnodeLaws W] states what vnode.h
    and fs.h promise of them; Vfssafe.v proves the layer correct against it, and Device.v gives
    an implementation, the vnodes of devices.

    Path names are C strings (the bytes of the buffer, terminator included).  Translating a path may
    destroy the caller's buffer (vfs.h says so), which is therefore not handed back.  [mem] scripts the
    coming [kmalloc]s as in Sfs.v; the locks of this kernel are stubs without effect. *)
From stdpp Require Import base list gmap numbers.
From S2P Require Import Prelude Array Copyinout Uio Cstring.
Local Open Scope Z_scope.

Module Vfs.
Import Uio.

(** ** The interface to file systems and devices (vnode.h, fs.h) *)
Class Vnodes (W : Type) := {
  VOP_INCREF : nat → M W unit;
  VOP_DECREF : nat → M W unit;
  VOP_INCOPEN : nat → M W unit;
  VOP_DECOPEN : nat → M W unit;
  VOP_OPEN : nat → Z → M W Z;
  VOP_TRUNCATE : nat → Z → M W Z;
  VOP_GETTYPE : nat → M W (Z + Z);
  VOP_CREAT : nat → list Z → bool → M W (Z + nat);
  VOP_SYMLINK : nat → list Z → list Z → M W Z;
  VOP_MKDIR : nat → list Z → M W Z;
  VOP_RMDIR : nat → list Z → M W Z;
  VOP_REMOVE : nat → list Z → M W Z;
  VOP_LINK : nat → list Z → nat → M W Z;
  VOP_RENAME : nat → list Z → nat → list Z → M W Z;
  VOP_LOOKUP : nat → list Z → M W (Z + nat);
  VOP_LOOKPARENT : nat → list Z → list Z → Z → M W (Z + nat * list Z);
  VOP_READLINK : nat → uio → M (W * ustate) (Z * uio);
  VOP_NAMEFILE : nat → uio → M (W * ustate) (Z * uio);
  vn_fs : W → nat → option nat;
  FSOP_SYNC : nat → M W Z;
  FSOP_UNMOUNT : nat → M W Z;
  FSOP_GETROOT : nat → M W nat;
  FSOP_GETVOLNAME : W → nat → option (list Z);
  dev_create_vnode : option nat → M W (option nat)
}.

(** ** State *)
Record knowndev := mkkd {
  kd_name : list Z;
  kd_rawname : option (list Z);
  kd_device : option nat;
  kd_vnode : nat;
  kd_fs : option nat
}.

Definition set_fs (f : option nat) (kd : knowndev) : knowndev :=
  mkkd (kd_name kd) (kd_rawname kd) (kd_device kd) (kd_vnode kd) f.

Section vfs.
Context {W : Type} `{Vnodes W}.

(** [kds] is the heap the [struct knowndev]s live in, [t_cwd] the current directory of the
    running thread, [user] its memory. *)
Record vfs := mkvfs {
  world : W;
  kds : gmap nat knowndev;
  kd_next : nat;
  knowndevs : @Array.array nat;
  bootfs_vnode : option nat;
  t_cwd : option nat;
  user : ustate;
  mem : list bool
}.

Definition set_world (x : W) (s : vfs) : vfs :=
  mkvfs x (kds s) (kd_next s) (knowndevs s) (bootfs_vnode s) (t_cwd s) (user s) (mem s).
Definition set_kds (x : gmap nat knowndev) (n : nat) (s : vfs) : vfs :=
  mkvfs (world s) x n (knowndevs s) (bootfs_vnode s) (t_cwd s) (user s) (mem s).
Definition set_knowndevs (x : @Array.array nat) (s : vfs) : vfs :=
  mkvfs (world s) (kds s) (kd_next s) x (bootfs_vnode s) (t_cwd s) (user s) (mem s).
Definition set_bootfs (x : option nat) (s : vfs) : vfs :=
  mkvfs (world s) (kds s) (kd_next s) (knowndevs s) x (t_cwd s) (user s) (mem s).
Definition set_cwd (x : option nat) (s : vfs) : vfs :=
  mkvfs (world s) (kds s) (kd_next s) (knowndevs s) (bootfs_vnode s) x (user s) (mem s).
Definition set_user (x : ustate) (s : vfs) : vfs :=
  mkvfs (world s) (kds s) (kd_next s) (knowndevs s) (bootfs_vnode s) (t_cwd s) x (mem s).
Definition set_mem (x : list bool) (s : vfs) : vfs :=
  mkvfs (world s) (kds s) (kd_next s) (knowndevs s) (bootfs_vnode s) (t_cwd s) (user s) x.

Abbreviation V := (M vfs).

(** Calls into the layer below. *)
Definition down {A} (m : M W A) : V A := zoom world set_world m.

Definition down_io {A} (m : M (W * ustate) A) : V A :=
  zoom (fun s => (world s, user s)) (fun x s => set_user x.2 (set_world x.1 s)) m.

Definition move_user {A} (m : M ustate A) : V A := zoom user set_user m.

Definition kmalloc_ok : V bool := fun s => Ok (default true (head (mem s)), set_mem (tail (mem s)) s).

(** [array_getguy(knowndevs, i)] and the structure it points to. *)
Definition getkd (p : nat) : V knowndev := fun s =>
  match kds s !! p with
  | Some kd => Ok (kd, s)
  | None => Undef
  end.

Definition knowndev_at (i : Z) : V (nat * knowndev) :=
  let* a := gets knowndevs in
  let* p := lift (Array.array_getguy a i) in
  let* kd := getkd p in
  mret (p, kd).

Definition numdevs : V Z := gets (fun s => Array.array_getnum (knowndevs s)).

Definition setkd (p : nat) (f : knowndev → knowndev) : V unit :=
  modify (fun s => set_kds (alter f p (kds s)) (kd_next s) s).

(** [!strcmp(a, b)]. *)
Definition same (a b : list Z) : V bool :=
  let* r := lift (Cstring.strcmp a b) in
  mret (r =? 0).

(** ** The device table (vfslist.c) *)
Fixpoint sync_loop (n : nat) (i : Z) : V unit :=
  match n with
  | O => mret tt
  | S n' =>
      let* '(_, dev) := knowndev_at i in
      let* _ := match kd_fs dev with
                | Some fs => let* _ := down (FSOP_SYNC fs) in mret tt
                | None => mret tt
                end in
      sync_loop n' (i + 1)
  end.

Definition vfs_sync : V Z :=
  let* num := numdevs in
  let* _ := sync_loop (Z.to_nat num) 0 in
  mret 0.

(** [!strcmp(kd->kd_name, devname) || (volname!=NULL && !strcmp(volname, devname))] *)
Definition names_fs (kd : knowndev) (volname : option (list Z)) (devname : list Z) : V bool :=
  let* b := same (kd_name kd) devname in
  if (b : bool) then mret true
  else match volname with
       | Some v => same v devname
       | None => mret false
       end.

(** One device of the table: [None] if none of its names is [devname].  First the names of
    a file system on it, and of a device that has none mounted, ... *)
Definition getroot_fs (kd : knowndev) (devname : list Z) : V (option (Z + nat)) :=
  match kd_fs kd with
  | Some fs =>
      let* volname := gets (fun s => FSOP_GETVOLNAME (world s) fs) in
      let* b := names_fs kd volname devname in
      if (b : bool) then
        let* root := down (FSOP_GETROOT fs) in
        mret (Some (inr root))
      else mret None
  | None =>
      match kd_rawname kd with
      | Some _ =>
          let* b := same (kd_name kd) devname in
          mret (if (b : bool) then Some (inl ENXIO) else None)
      | None => mret None
      end
  end.

(** ... then the names of the device itself. *)
Definition getroot_self (kd : knowndev) (devname : list Z) : V (option (Z + nat)) :=
  let* b := same (kd_name kd) devname in
  if (b : bool) then
    let* _ := massert (bool_decide (kd_fs kd = None)) in
    let* _ := massert (bool_decide (kd_rawname kd = None)) in
    let* _ := massert (bool_decide (kd_device kd ≠ None)) in
    let* _ := down (VOP_INCREF (kd_vnode kd)) in
    mret (Some (inr (kd_vnode kd)))
  else
    match kd_rawname kd with
    | Some raw =>
        let* b := same raw devname in
        if (b : bool) then
          let* _ := massert (bool_decide (kd_device kd ≠ None)) in
          let* _ := down (VOP_INCREF (kd_vnode kd)) in
          mret (Some (inr (kd_vnode kd)))
        else mret None
    | None => mret None
    end.

Definition getroot_dev (kd : knowndev) (devname : list Z) : V (option (Z + nat)) :=
  let* r := getroot_fs kd devname in
  match r with
  | Some x => mret (Some x)
  | None => getroot_self kd devname
  end.

Fixpoint getroot_loop (n : nat) (i : Z) (devname : list Z) : V (Z + nat) :=
  match n with
  | O => mret (inl ENODEV)
  | S n' =>
      let* '(_, kd) := knowndev_at i in
      let* r := getroot_dev kd devname in
      match r with
      | Some x => mret x
      | None => getroot_loop n' (i + 1) devname
      end
  end.

Definition vfs_getroot (devname : list Z) : V (Z + nat) :=
  let* num := numdevs in
  getroot_loop (Z.to_nat num) 0 devname.

Fixpoint getdevname_loop (n : nat) (i : Z) (fs : nat) : V (option (list Z)) :=
  match n with
  | O => mret None
  | S n' =>
      let* '(_, kd) := knowndev_at i in
      if bool_decide (kd_fs kd = Some fs) then mret (Some (kd_name kd))
      else getdevname_loop n' (i + 1) fs
  end.

Definition vfs_getdevname (fs : nat) : V (option (list Z)) :=
  let* num := numdevs in
  getdevname_loop (Z.to_nat num) 0 fs.

(** A fresh buffer of [n] bytes. *)
Definition newbuf (n : Z) : list Z := replicate (Z.to_nat n) 0.

Definition kstrdup (s : list Z) : V (option (list Z)) :=
  let* n := lift (Cstring.strlen s) in
  let* ok := kmalloc_ok in
  if negb (ok : bool) then mret None
  else
    let* z := lift (Cstring.strcpy (newbuf (n + 1)) s) in
    mret (Some z).

Definition raw_str : list Z := [114; 97; 119; 0].   (* "raw" *)

Definition mkrawname (name : list Z) : V (option (list Z)) :=
  let* n := lift (Cstring.strlen name) in
  let* ok := kmalloc_ok in
  if negb (ok : bool) then mret None
  else
    let* s := lift (Cstring.strcpy (newbuf (n + 3 + 1)) name) in
    let* s := lift (Cstring.strcat s raw_str) in
    mret (Some s).

Definition samestring (a b : option (list Z)) : V bool :=
  match a, b with
  | Some a, Some b => same a b
  | _, _ => mret false
  end.

Definition samestring3 (a b c d : option (list Z)) : V bool :=
  let* r := samestring a b in
  if (r : bool) then mret true
  else
    let* r := samestring a c in
    if (r : bool) then mret true else samestring a d.

Fixpoint badnames_loop (n : nat) (i : Z) (n1 n2 n3 : option (list Z)) : V bool :=
  match n with
  | O => mret false
  | S n' =>
      let* '(_, kd) := knowndev_at i in
      let* r := match kd_fs kd with
                | Some fs =>
                    let* volname := gets (fun s => FSOP_GETVOLNAME (world s) fs) in
                    samestring3 volname n1 n2 n3
                | None => mret false
                end in
      if (r : bool) then mret true
      else
        let* r := samestring3 (kd_rawname kd) n1 n2 n3 in
        if (r : bool) then mret true
        else
          let* r := samestring3 (Some (kd_name kd)) n1 n2 n3 in
          if (r : bool) then mret true
          else badnames_loop n' (i + 1) n1 n2 n3
  end.

Definition badnames (n1 n2 n3 : option (list Z)) : V bool :=
  let* num := numdevs in
  badnames_loop (Z.to_nat num) 0 n1 n2 n3.

(** [kd = kmalloc(...)] with its fields filled in. *)
Definition new_knowndev (kd : knowndev) : V nat := fun s =>
  Ok (kd_next s, set_kds (<[kd_next s := kd]> (kds s)) (S (kd_next s)) s).

(** The frees at [puke:] give heap memory back that nothing refers to. *)
Definition vfs_doadd (dname : list Z) (mountable : bool) (dev fs : option nat) : V Z :=
  let* oname := kstrdup dname in
  match oname with
  | None => mret ENOMEM
  | Some name =>
      let* r := (if mountable then
                   let* raw := mkrawname name in
                   mret (match raw with Some x => inr (Some x) | None => inl tt end)
                 else mret (inr None)) in
      match r with
      | inl _ => mret ENOMEM
      | inr rawname =>
          let* ovn := down (dev_create_vnode dev) in
          match ovn with
          | None => mret ENOMEM
          | Some vnode =>
              let* ok := kmalloc_ok in
              if negb (ok : bool) then mret ENOMEM
              else
                let* kd := new_knowndev (mkkd name rawname dev vnode fs) in
                let* volname := gets (fun s => match fs with Some f => FSOP_GETVOLNAME (world s) f | None => None end) in
                let* bad := badnames (Some name) rawname volname in
                if negb (bad : bool) then
                  let* a := gets knowndevs in
                  let* ok := kmalloc_ok in
                  let* '(err, a) := lift (Array.array_add ok a kd) in
                  let* _ := modify (set_knowndevs a) in
                  mret err
                else mret EEXIST
          end
      end
  end.

Definition vfs_adddev (devname : list Z) (dev : nat) (mountable : bool) : V Z :=
  vfs_doadd devname mountable (Some dev) None.

Definition vfs_addfs (devname : list Z) (fs : nat) : V Z :=
  vfs_doadd devname false None (Some fs).

Fixpoint findmount_loop (n : nat) (i : Z) (devname : list Z) : V (Z + nat) :=
  match n with
  | O => mret (inl ENODEV)
  | S n' =>
      let* '(p, dev) := knowndev_at i in
      match kd_rawname dev with
      | None => findmount_loop n' (i + 1) devname
      | Some _ =>
          let* b := same devname (kd_name dev) in
          if (b : bool) then mret (inr p) else findmount_loop n' (i + 1) devname
      end
  end.

Definition findmount (devname : list Z) : V (Z + nat) :=
  let* num := numdevs in
  findmount_loop (Z.to_nat num) 0 devname.

(** [mountfunc] sets up the file system below and hands it back. *)
Definition vfs_mount (devname : list Z) (mountfunc : nat → M W (Z + nat)) : V Z :=
  let* r := findmount devname in
  match r with
  | inl e => mret e
  | inr p =>
      let* kd := getkd p in
      match kd_fs kd with
      | Some _ => mret EBUSY
      | None =>
          let* _ := massert (bool_decide (kd_rawname kd ≠ None)) in
          match kd_device kd with
          | None => panic
          | Some dev =>
              let* r := down (mountfunc dev) in
              match r with
              | inl e => mret e
              | inr fs =>
                  let* _ := setkd p (set_fs (Some fs)) in
                  mret 0
              end
          end
      end
  end.

Definition vfs_unmount (devname : list Z) : V Z :=
  let* r := findmount devname in
  match r with
  | inl e => mret e
  | inr p =>
      let* kd := getkd p in
      match kd_fs kd with
      | None => mret EINVAL
      | Some fs =>
          let* _ := massert (bool_decide (kd_rawname kd ≠ None)) in
          let* _ := massert (bool_decide (kd_device kd ≠ None)) in
          let* result := down (FSOP_SYNC fs) in
          if negb (result =? 0) then mret result
          else
            let* result := down (FSOP_UNMOUNT fs) in
            if negb (result =? 0) then mret result
            else
              let* _ := setkd p (set_fs None) in
              mret 0
      end
  end.

(** One device in the loop of [vfs_unmountall]; failures are only printed. *)
Definition unmount_dev (p : nat) (dev : knowndev) : V unit :=
  match kd_rawname dev, kd_fs dev with
  | Some _, Some fs =>
      let* result := down (FSOP_SYNC fs) in
      let* result := (if negb (result =? 0) then down (FSOP_SYNC fs) else mret 0) in
      if negb (result =? 0) then mret tt
      else
        let* result := down (FSOP_UNMOUNT fs) in
        if negb (result =? 0) then mret tt else setkd p (set_fs None)
  | _, _ => mret tt
  end.

Fixpoint unmountall_loop (n : nat) (i : Z) : V unit :=
  match n with
  | O => mret tt
  | S n' =>
      let* '(p, dev) := knowndev_at i in
      let* _ := unmount_dev p dev in
      unmountall_loop n' (i + 1)
  end.

Definition vfs_unmountall : V Z :=
  let* num := numdevs in
  let* _ := unmountall_loop (Z.to_nat num) 0 in
  mret 0.

(** ** The current directory (vfscwd.c), first part *)
Definition vfs_getcurdir : V (Z + nat) :=
  let* cwd := gets t_cwd in
  match cwd with
  | Some v =>
      let* _ := down (VOP_INCREF v) in
      mret (inr v)
  | None => mret (inl ENOENT)
  end.

(** ** Path translation (vfslookup.c) *)

(** The first colon or slash: [(slash, colon)], -1 if it is not there. *)
Fixpoint scan_path (i : Z) (path : list Z) : outcome (Z * Z) :=
  match path with
  | [] => Undef
  | c :: path' =>
      if c =? 0 then Ok (-1, -1)
      else if c =? 58 then Ok (-1, i)
      else if c =? 47 then Ok (i, -1)
      else scan_path (i + 1) path'
  end.

(** Skips the slashes at the front: [while (path[..]=='/') ...]. *)
Fixpoint skip_slashes (p : list Z) : outcome (list Z) :=
  match p with
  | [] => Undef
  | c :: p' => if c =? 47 then skip_slashes p' else Ok p
  end.

(** Hands back [subpath] and [startvn]. *)
Definition getdevice (path : list Z) : V (Z + list Z * nat) :=
  let* '(slash, colon) := lift (scan_path 0 path) in
  if (colon <? 0) && negb (slash =? 0) then
    let? startvn := vfs_getcurdir in
    mret (inr (path, startvn))
  else if colon >? 0 then
    let path := <[Z.to_nat colon := 0]> path in
    let* subpath := lift (skip_slashes (drop (Z.to_nat (colon + 1)) path)) in
    let? startvn := vfs_getroot path in
    mret (inr (subpath, startvn))
  else
    let* _ := massert ((colon =? 0) || (slash =? 0)) in
    let* c := lift (of_option (path !! 0%nat)) in
    let? startvn :=
      (if c =? 47 then
         let* b := gets bootfs_vnode in
         match b with
         | None => mret (inl ENOENT)
         | Some v =>
             let* _ := down (VOP_INCREF v) in
             mret (inr v)
         end
       else
         let* _ := massert (c =? 58) in
         let? vn := vfs_getcurdir in
         let* f := gets (fun s => vn_fs (world s) vn) in
         match f with
         | None => panic
         | Some fs =>
             let* root := down (FSOP_GETROOT fs) in
             let* _ := down (VOP_DECREF vn) in
             mret (inr root)
         end) in
    let* subpath := lift (skip_slashes (drop 1 path)) in
    mret (inr (subpath, startvn)).

Definition vfs_lookparent (path buf : list Z) (buflen : Z) : V (Z + nat * list Z) :=
  let? x := getdevice path in
  let* n := lift (Cstring.strlen x.1) in
  let* result := (if n =? 0 then mret (inl EINVAL) else down (VOP_LOOKPARENT x.2 x.1 buf buflen)) in
  let* _ := down (VOP_DECREF x.2) in
  mret result.

Definition vfs_lookup (path : list Z) : V (Z + nat) :=
  let? x := getdevice path in
  let* n := lift (Cstring.strlen x.1) in
  if n =? 0 then mret (inr x.2)
  else
    let* result := down (VOP_LOOKUP x.2 x.1) in
    let* _ := down (VOP_DECREF x.2) in
    mret result.

(** ** The current directory (vfscwd.c), continued *)
Definition S_IFMT : Z := 28672.
Definition S_IFDIR : Z := 8192.
Definition S_ISDIR (mode : Z) : bool := Z.land mode S_IFMT =? S_IFDIR.

Definition vfs_setcurdir (dir : nat) : V Z :=
  let* r := down (VOP_GETTYPE dir) in
  match r with
  | inl e => mret e
  | inr vtype =>
      if negb (S_ISDIR vtype) then mret ENOTDIR
      else
        let* _ := down (VOP_INCREF dir) in
        let* old := gets t_cwd in
        let* _ := modify (set_cwd (Some dir)) in
        let* _ := match old with Some o => down (VOP_DECREF o) | None => mret tt end in
        mret 0
  end.

Definition vfs_clearcurdir : V Z :=
  let* old := gets t_cwd in
  let* _ := modify (set_cwd None) in
  let* _ := match old with Some o => down (VOP_DECREF o) | None => mret tt end in
  mret 0.

Definition vfs_chdir (path : list Z) : V Z :=
  let* r := vfs_lookup path in
  match r with
  | inl e => mret e
  | inr vn =>
      let* result := vfs_setcurdir vn in
      let* _ := down (VOP_DECREF vn) in
      mret result
  end.

(** The name, the colon and the rest of the path go into [u]. *)
Definition getcwd_move (cwd : nat) (name : list Z) (u : uio) : V (Z * uio) :=
  let* n := lift (Cstring.strlen name) in
  let* '(result, _, u) := move_user (uiomove name n u) in
  if negb (result =? 0) then mret (result, u)
  else
    let* '(result, _, u) := move_user (uiomove [58] 1 u) in
    if negb (result =? 0) then mret (result, u) else down_io (VOP_NAMEFILE cwd u).

Definition vfs_getcwd (u : uio) : V (Z * uio) :=
  let* _ := massert (bool_decide (uio_rw u = UIO_READ)) in
  let* r := vfs_getcurdir in
  match r with
  | inl e => mret (e, u)
  | inr cwd =>
      let* f := gets (fun s => vn_fs (world s) cwd) in
      match f with
      | None => panic
      | Some fs =>
          let* volname := gets (fun s => FSOP_GETVOLNAME (world s) fs) in
          let* name := match volname with Some x => mret (Some x) | None => vfs_getdevname fs end in
          match name with
          | None => panic
          | Some name =>
              let* r := getcwd_move cwd name u in
              let* _ := down (VOP_DECREF cwd) in
              mret r
          end
      end
  end.

(** ** The boot file system (vfslookup.c) *)
Definition NAME_MAX : Z := 255.

Definition change_bootfs (newguy : option nat) : V unit :=
  let* oldguy := gets bootfs_vnode in
  let* _ := modify (set_bootfs newguy) in
  match oldguy with
  | Some v => down (VOP_DECREF v)
  | None => mret tt
  end.

(** [snprintf(tmp, sizeof(tmp)-1, "%s", fsname)] into [char tmp[NAME_MAX+1]]. *)
Definition boot_tmp (fsname : list Z) : outcome (list Z) :=
  let* n := Cstring.strlen fsname in
  let n := Z.to_nat (Z.min n (NAME_MAX - 1)) in
  Ok (take n fsname ++ replicate (Z.to_nat (NAME_MAX + 1) - n) 0).

Definition vfs_setbootfs (fsname : list Z) : V Z :=
  let* tmp := lift (boot_tmp fsname) in
  let* s := lift (Cstring.strchr tmp 58) in
  let* r := match s with
            | Some i =>
                let* n := lift (Cstring.strlen (drop (Z.to_nat i) tmp)) in
                if n >? 0 then mret (inl EINVAL) else mret (inr tmp)
            | None =>
                let* tmp := lift (Cstring.strcat tmp [58; 0]) in
                mret (inr tmp)
            end in
  match r with
  | inl e => mret e
  | inr tmp =>
      let* result := vfs_chdir tmp in
      if negb (result =? 0) then mret result
      else
        let* r := vfs_getcurdir in
        match r with
        | inl e => mret e
        | inr newguy =>
            let* _ := change_bootfs (Some newguy) in
            mret 0
        end
  end.

Definition vfs_clearbootfs : V unit := change_bootfs None.

(** ** Operations on path names (vfspath.c) *)
Definition O_ACCMODE : Z := 3.
Definition O_CREAT : Z := 4.
Definition O_EXCL : Z := 8.
Definition O_TRUNC : Z := 16.

Definition flag (openflags f : Z) : bool := negb (Z.land openflags f =? 0).

(** The vnode that is to be opened. *)
Definition open_vnode (path : list Z) (openflags : Z) : V (Z + nat) :=
  if flag openflags O_CREAT then
    let? x := vfs_lookparent path (newbuf (NAME_MAX + 1)) (NAME_MAX + 1) in
    let* result := down (VOP_CREAT x.1 x.2 (flag openflags O_EXCL)) in
    let* _ := down (VOP_DECREF x.1) in
    mret result
  else vfs_lookup path.

(** The part of [vfs_open] after the vnode was found. *)
Definition open_finish (vn : nat) (openflags : Z) (canwrite : bool) : V (Z + nat) :=
  let* result := down (VOP_OPEN vn openflags) in
  if negb (result =? 0) then
    let* _ := down (VOP_DECREF vn) in
    mret (inl result)
  else
    let* _ := down (VOP_INCOPEN vn) in
    let* result := (if flag openflags O_TRUNC then
                      if negb canwrite then mret EINVAL else down (VOP_TRUNCATE vn 0)
                    else mret 0) in
    if negb (result =? 0) then
      let* _ := down (VOP_DECOPEN vn) in
      let* _ := down (VOP_DECREF vn) in
      mret (inl result)
    else mret (inr vn).

Definition vfs_open (path : list Z) (openflags : Z) : V (Z + nat) :=
  let how := Z.land openflags O_ACCMODE in
  if how =? 3 then mret (inl EINVAL)
  else
    let? vn := open_vnode path openflags in
    open_finish vn openflags (negb (how =? 0)).

Definition vfs_close (vn : nat) : V unit :=
  let* _ := down (VOP_DECOPEN vn) in
  down (VOP_DECREF vn).

(** [vfs_remove], [vfs_mkdir], [vfs_rmdir] and [vfs_symlink] have the same shape: find the
    directory and do [m] on it and the last component of the path. *)
Definition in_parent (path : list Z) (m : nat → list Z → M W Z) : V Z :=
  let* r := vfs_lookparent path (newbuf (NAME_MAX + 1)) (NAME_MAX + 1) in
  match r with
  | inl e => mret e
  | inr (dir, name) =>
      let* result := down (m dir name) in
      let* _ := down (VOP_DECREF dir) in
      mret result
  end.

Definition vfs_remove (path : list Z) : V Z := in_parent path VOP_REMOVE.

Definition vfs_symlink (contents path : list Z) : V Z :=
  in_parent path (fun dir name => VOP_SYMLINK dir name contents).

Definition vfs_mkdir (path : list Z) : V Z := in_parent path VOP_MKDIR.

Definition vfs_rmdir (path : list Z) : V Z := in_parent path VOP_RMDIR.

(** [a->vn_fs==NULL || b->vn_fs==NULL || a->vn_fs != b->vn_fs] *)
Definition across (a b : nat) (s : vfs) : bool :=
  match vn_fs (world s) a, vn_fs (world s) b with
  | Some f, Some g => negb (f =? g)%nat
  | _, _ => true
  end.

Definition vfs_rename (oldpath newpath : list Z) : V Z :=
  let* r := vfs_lookparent oldpath (newbuf (NAME_MAX + 1)) (NAME_MAX + 1) in
  match r with
  | inl e => mret e
  | inr (olddir, oldname) =>
      let* r := vfs_lookparent newpath (newbuf (NAME_MAX + 1)) (NAME_MAX + 1) in
      match r with
      | inl e =>
          let* _ := down (VOP_DECREF olddir) in
          mret e
      | inr (newdir, newname) =>
          let* x := gets (across olddir newdir) in
          let* result := (if (x : bool) then mret EXDEV
                          else down (VOP_RENAME olddir oldname newdir newname)) in
          let* _ := down (VOP_DECREF newdir) in
          let* _ := down (VOP_DECREF olddir) in
          mret result
      end
  end.

Definition vfs_link (oldpath newpath : list Z) : V Z :=
  let* r := vfs_lookup oldpath in
  match r with
  | inl e => mret e
  | inr oldfile =>
      let* r := vfs_lookparent newpath (newbuf (NAME_MAX + 1)) (NAME_MAX + 1) in
      match r with
      | inl e =>
          let* _ := down (VOP_DECREF oldfile) in
          mret e
      | inr (newdir, newname) =>
          let* x := gets (across oldfile newdir) in
          let* result := (if (x : bool) then mret EXDEV
                          else down (VOP_LINK newdir newname oldfile)) in
          let* _ := down (VOP_DECREF newdir) in
          let* _ := down (VOP_DECREF oldfile) in
          mret result
      end
  end.

Definition vfs_readlink (path : list Z) (u : uio) : V (Z * uio) :=
  let* r := vfs_lookup path in
  match r with
  | inl e => mret (e, u)
  | inr vn =>
      let* r := down_io (VOP_READLINK vn u) in
      let* _ := down (VOP_DECREF vn) in
      mret r
  end.

End vfs.
Arguments vfs W : clear implicits.

End Vfs.
