(* ===== verification/Vfssafe.v ===== *)
(** * What the layers below the VFS promise, and reference counting in the VFS

    [VnodeView] exposes the part of the lower state the VFS depends on: how many references
    and opens each vnode has, which file systems are mounted, which vnodes exist without a
    reference ([pinned]: those of devices), which are directories, which devices are [attached].  [VnodeLaws] are the promises of vnode.h and fs.h in
    these terms, for example that [VOP_LOOKUP] hands back a vnode with one more reference
    and otherwise leaves the counts alone.

    [ok s x] is the invariant of the VFS: the device table is sound and every vnode has a reference
    for each open of it, for the current directory, for the boot file system, and [x v] more that
    the caller holds.  The lemmas give the effect of every operation on the counts. *)
From stdpp Require Import base list gmap numbers.
From S2P Require Import Prelude Array Copyinout Uio Cstring Vfs.
Local Open Scope Z_scope.

Module Vfssafe.
Import Uio Vfs.

(** ** The promises *)
Class VnodeView (W : Type) := {
  refs : W → nat → Z;
  opens : W → nat → Z;
  pinned : W → nat → Prop;
  mounted : W → nat → Prop;
  attached : W → nat → Prop;
  isdir : W → nat → Prop;
  winv : W → Prop
}.

(** Changes of the counts. *)
Definition one (v u : nat) : Z := if decide (u = v) then 1 else 0.
Definition none (u : nat) : Z := 0.

Lemma one_range v u : 0 ≤ one v u ≤ 1.
Proof. unfold one. case_decide; lia. Qed.

Lemma one_self v : one v v = 1.
Proof. unfold one. by rewrite decide_True. Qed.

Definition string (b : list Z) : Prop := is_Some (Cstring.cstr b).

Section view.
Context {W : Type} `{Vnodes W, VnodeView W}.

Definition live (w : W) (v : nat) : Prop := 0 < refs w v ∨ pinned w v.

(** What stays the same while the counts change by [dr] and [dn]. *)
Record wstep (w w' : W) (dr dn : nat → Z) : Prop := {
  ws_inv : winv w';
  ws_refs : ∀ v, refs w' v = refs w v + dr v;
  ws_opens : ∀ v, opens w' v = opens w v + dn v;
  ws_pinned : ∀ v, pinned w v → pinned w' v;
  ws_mounted : ∀ f, mounted w' f ↔ mounted w f;
  ws_volname : ∀ f, mounted w f → FSOP_GETVOLNAME w' f = FSOP_GETVOLNAME w f;
  ws_vnfs : ∀ v f, vn_fs w v = Some f → vn_fs w' v = Some f;
  ws_dir : ∀ v, isdir w v → isdir w' v
}.

Lemma wstep_refl (w : W) : winv w → wstep w w none none.
Proof. intros Hw. constructor; try done; intros; unfold none; lia. Qed.

(** A count has room for [k] more. *)
Definition spare (k : Z) (w : W) : Prop := ∀ v, refs w v + k < 2 ^ 30 ∧ opens w v + k < 2 ^ 30.

(** An operation that hands back a new reference, or fails and changes no count. *)
Definition gives {A} (p : A → nat) (m : M W (Z + A)) (w : W) : Prop :=
  wp m (fun r w' => match r with
                    | inl e => e ≠ 0 ∧ wstep w w' none none
                    | inr a => wstep w w' (one (p a)) none
                    end) w.

(** An operation that changes no count. *)
Definition quiet {A} (m : M W A) (w : W) : Prop := wp m (fun _ w' => wstep w w' none none) w.
End view.

Class VnodeLaws (W : Type) `{Vnodes W, VnodeView W} := {
  law_opens w v : winv w → 0 ≤ opens w v;
  law_mounted w v f : winv w → live w v → vn_fs w v = Some f → mounted w f;
  law_volname w f n : winv w → mounted w f → FSOP_GETVOLNAME w f = Some n → string n;
  law_incref w v : winv w → live w v → spare 1 w → wp (VOP_INCREF v) (fun _ w' => wstep w w' (one v) none) w;
  law_decref w v : winv w → 0 < refs w v → (refs w v = 1 → opens w v = 0) →
    wp (VOP_DECREF v) (fun _ w' => wstep w w' (fun u => - one v u) none) w;
  law_incopen w v : winv w → 0 < refs w v → spare 1 w → wp (VOP_INCOPEN v) (fun _ w' => wstep w w' none (one v)) w;
  law_decopen w v : winv w → 0 < refs w v → 0 < opens w v →
    wp (VOP_DECOPEN v) (fun _ w' => wstep w w' none (fun u => - one v u)) w;
  law_open w v f : winv w → 0 < refs w v → quiet (VOP_OPEN v f) w;
  law_truncate w v n : winv w → 0 < refs w v → quiet (VOP_TRUNCATE v n) w;
  law_gettype w v : winv w → 0 < refs w v →
    wp (VOP_GETTYPE v) (fun r w' => wstep w w' none none ∧
      match r with
      | inl e => e ≠ 0
      | inr t => S_ISDIR t = true → is_Some (vn_fs w v)
      end) w;
  law_creat w v n x : winv w → 0 < refs w v → spare 1 w → string n → gives id (VOP_CREAT v n x) w;
  law_symlink w v n c : winv w → 0 < refs w v → string n → string c → quiet (VOP_SYMLINK v n c) w;
  law_mkdir w v n : winv w → 0 < refs w v → string n → quiet (VOP_MKDIR v n) w;
  law_rmdir w v n : winv w → 0 < refs w v → string n → quiet (VOP_RMDIR v n) w;
  law_remove w v n : winv w → 0 < refs w v → spare 1 w → string n → quiet (VOP_REMOVE v n) w;
  law_link w v n u : winv w → 0 < refs w v → 0 < refs w u → string n → is_Some (vn_fs w v) → vn_fs w v = vn_fs w u →
    quiet (VOP_LINK v n u) w;
  law_rename w v n u m : winv w → 0 < refs w v → 0 < refs w u → isdir w v → isdir w u → spare 1 w → string n → string m →
    is_Some (vn_fs w v) → vn_fs w v = vn_fs w u → quiet (VOP_RENAME v n u m) w;
  law_lookup w v n : winv w → 0 < refs w v → spare 1 w → string n → gives id (VOP_LOOKUP v n) w;
  law_lookparent w v n buf : winv w → 0 < refs w v → spare 1 w → string n →
    wp (VOP_LOOKPARENT v n buf (Z.of_nat (length buf)))
      (fun r w' => match r with
                   | inl e => e ≠ 0 ∧ wstep w w' none none
                   | inr (u, buf') => wstep w w' (one u) none ∧ string buf' ∧ isdir w' u
                   end) w;
  law_readlink w v u us : winv w → 0 < refs w v → ∀ done rest, kuio u done rest → uio_rw u = UIO_READ →
    wp (VOP_READLINK v u) (fun _ x => wstep w x.1 none none) (w, us);
  law_namefile w v u us : winv w → 0 < refs w v → ∀ done rest, kuio u done rest → uio_rw u = UIO_READ →
    wp (VOP_NAMEFILE v u) (fun _ x => wstep w x.1 none none) (w, us);
  law_create w dev : winv w → (∀ d, dev = Some d → attached w d) →
    wp (dev_create_vnode dev) (fun r w' => wstep w w' none none ∧
      match r with Some v => dev ≠ None → pinned w' v | None => True end) w;
  law_sync w f : winv w → mounted w f → quiet (FSOP_SYNC f) w;
  law_getroot w f : winv w → mounted w f → spare 1 w → wp (FSOP_GETROOT f) (fun r w' => wstep w w' (one r) none) w;
  law_unmount w f : winv w → mounted w f →
    wp (FSOP_UNMOUNT f) (fun r w' =>
      (∀ v, refs w' v = refs w v ∧ opens w' v = opens w v) ∧ winv w' ∧ (∀ v, pinned w v → pinned w' v) ∧
      (∀ g, mounted w' g ↔ mounted w g ∧ (r = 0 → g ≠ f)) ∧
      (∀ g, mounted w' g → FSOP_GETVOLNAME w' g = FSOP_GETVOLNAME w g) ∧
      (∀ v g, vn_fs w v = Some g → vn_fs w' v = Some g) ∧ (∀ v, isdir w v → isdir w' v)) w
}.

Section vfssafe.
Context {W : Type} `{VnodeLaws W}.
Implicit Types (s : vfs W) (x dr dn : nat → Z).

(** ** The invariant *)

(** A reference held through a pointer that may be NULL. *)
Definition oone (o : option nat) (u : nat) : Z := match o with Some v => one v u | None => 0 end.

Lemma oone_range o u : 0 ≤ oone o u ≤ 1.
Proof. destruct o; cbn; [apply one_range|lia]. Qed.

Definition held s (u : nat) : Z := oone (t_cwd s) u + oone (bootfs_vnode s) u.

Record kd_ok (w : W) (kd : knowndev) : Prop := {
  ko_name : string (kd_name kd);
  ko_raw : ∀ r, kd_rawname kd = Some r → string r;
  ko_dev : kd_device kd = None → kd_rawname kd = None ∧ kd_fs kd ≠ None;
  ko_vnode : kd_device kd ≠ None → pinned w (kd_vnode kd);
  ko_fs : ∀ f, kd_fs kd = Some f → mounted w f
}.

Record table s (l : list nat) : Prop := {
  tb_rep : Array.array_rep (knowndevs s) l;
  tb_nodup : NoDup l;
  tb_kd : ∀ p, p ∈ l → ∃ kd, kds s !! p = Some kd ∧ kd_ok (world s) kd;
  tb_fs : ∀ p q kp kq f, p ∈ l → q ∈ l → kds s !! p = Some kp → kds s !! q = Some kq →
    kd_fs kp = Some f → kd_fs kq = Some f → p = q
}.

(** Every mounted file system is in the table. *)
Definition covers s (l : list nat) : Prop :=
  ∀ f, mounted (world s) f → ∃ p kd, p ∈ l ∧ kds s !! p = Some kd ∧ kd_fs kd = Some f.

Record ok s x : Prop := {
  ok_inv : winv (world s);
  ok_table : ∃ l, table s l ∧ covers s l;
  ok_cwd : ∀ v, t_cwd s = Some v → is_Some (vn_fs (world s) v);
  ok_refs : ∀ v, opens (world s) v + held s v + x v ≤ refs (world s) v
}.

(** A call that leaves the VFS's own state alone. *)
Record stp s s' dr dn : Prop := {
  st_world : wstep (world s) (world s') dr dn;
  st_kds : kds s' = kds s;
  st_devs : knowndevs s' = knowndevs s;
  st_boot : bootfs_vnode s' = bootfs_vnode s;
  st_cwd : t_cwd s' = t_cwd s
}.
End vfssafe.

(** Arithmetic on counts. *)
Ltac cnt :=
  intros; cbv beta in *; unfold none, id in *;
  repeat match goal with
  | |- context [one ?v ?u] =>
      lazymatch goal with H : 0 ≤ one v u ≤ 1 |- _ => fail | _ => pose proof (one_range v u) end
  | _ : context [one ?v ?u] |- _ =>
      lazymatch goal with H : 0 ≤ one v u ≤ 1 |- _ => fail | _ => pose proof (one_range v u) end
  end; rewrite ?one_self in *; lia.

(** ** Steps *)
Section base.
Context {W : Type} `{VnodeLaws W}.
Implicit Types (s : vfs W) (x dr dn : nat → Z).

Lemma wstep_trans (w1 w2 w3 : W) d1 n1 d2 n2 :
  wstep w1 w2 d1 n1 → wstep w2 w3 d2 n2 → wstep w1 w3 (fun u => d1 u + d2 u) (fun u => n1 u + n2 u).
Proof.
  intros [A1 A2 A3 A4 A5 A6 A7 A8] [B1 B2 B3 B4 B5 B6 B7 B8]. constructor; try done; intros v.
  - rewrite B2, A2. lia.
  - rewrite B3, A3. lia.
  - eauto.
  - by rewrite B5, A5.
  - intros Hm. rewrite B6 by (by apply A5). by apply A6.
  - eauto.
  - eauto.
Qed.

Lemma wp_down {A} (m : M W A) (Q : A → vfs W → Prop) s :
  wp m (fun a w' => Q a (set_world w' s)) (world s) → wp (down m) Q s.
Proof. unfold wp, down, zoom. by destruct (m (world s)) as [[]| | |]. Qed.

Lemma stp_ext s s' dr dn dr' dn' :
  stp s s' dr dn → (∀ u, dr u = dr' u) → (∀ u, dn u = dn' u) → stp s s' dr' dn'.
Proof.
  intros [[A1 A2 A3 A4 A5 A6 A7 A8] ? ? ? ?] Er En. constructor; try done. constructor; try done; intros v.
  - by rewrite A2, Er.
  - by rewrite A3, En.
Qed.

Lemma stp_refl s x : ok s x → stp s s none none.
Proof. intros []. constructor; try done. by apply wstep_refl. Qed.

Lemma stp_down s s1 w dr dn dr' dn' :
  stp s s1 dr dn → wstep (world s1) w dr' dn' → stp s (set_world w s1) (fun u => dr u + dr' u) (fun u => dn u + dn' u).
Proof. intros [A ? ? ? ?] B. constructor; try done. by eapply wstep_trans. Qed.

Lemma stp_trans s1 s2 s3 d1 n1 d2 n2 :
  stp s1 s2 d1 n1 → stp s2 s3 d2 n2 → stp s1 s3 (fun u => d1 u + d2 u) (fun u => n1 u + n2 u).
Proof. intros [A ? ? ? ?] [B ? ? ? ?]. constructor; [by eapply wstep_trans|congruence..]. Qed.

(** The invariant after a step: the caller holds what the step added. *)
Lemma kd_ok_step w w' kd dr dn : kd_ok w kd → wstep w w' dr dn → kd_ok w' kd.
Proof. intros [A1 A2 A3 A4 A5] [B1 B2 B3 B4 B5 B6 B7 B8]. constructor; auto. intros f Hf. by apply B5, A5. Qed.

Lemma table_step s s' dr dn l : table s l → stp s s' dr dn → table s' l.
Proof.
  intros [A1 A2 A3 A4] [B Hk Hd _ _]. constructor; rewrite ?Hk, ?Hd; try done.
  intros p Hp. destruct (A3 p Hp) as (kd & E & Hok). exists kd. split; [done|by eapply kd_ok_step].
Qed.

Lemma covers_step s s' dr dn l : covers s l → stp s s' dr dn → covers s' l.
Proof. intros A [B Hk _ _ _] f Hf. rewrite Hk. by apply A, (ws_mounted _ _ _ _ B). Qed.

Lemma ok_step s s' x dr dn : ok s x → stp s s' dr dn → ok s' (fun u => x u + dr u - dn u).
Proof.
  intros [A1 (l & A2 & A2') A3 A4] S. pose proof S as [B Hk Hd Hb Hc]. constructor.
  - apply B.
  - exists l. split; [by eapply table_step|by eapply covers_step].
  - intros v Hv. rewrite Hc in Hv. destruct (A3 v Hv) as [f Hf]. exists f. by apply (ws_vnfs _ _ _ _ B).
  - intros v. unfold held. rewrite Hb, Hc, (ws_refs _ _ _ _ B), (ws_opens _ _ _ _ B). pose proof (A4 v). unfold held in *. lia.
Qed.

Lemma ok_ext s x y : ok s x → (∀ u, y u ≤ x u) → ok s y.
Proof. intros [A1 A2 A3 A4] E. constructor; try done. intros v. pose proof (A4 v). specialize (E v). lia. Qed.

End base.

(** ** Primitive steps inside an operation

    [s0] is the state the operation started in; [dr] and [dn] are the changes of the counts so
    far. *)
Section steps.
Context {W : Type} `{VnodeLaws W}.
Context (s0 : vfs W) (x0 : nat → Z) (OK : ok s0 x0) (SP : spare 16 (world s0)).
Implicit Types (s : vfs W) (dr dn : nat → Z).

Lemma held_range s u : 0 ≤ held s u.
Proof. unfold held. pose proof (oone_range (t_cwd s) u). pose proof (oone_range (bootfs_vnode s) u). lia. Qed.

(** A reference that is held is a reference. *)
Lemma refs_pos s dr dn v :
  stp s0 s dr dn → 1 ≤ x0 v + dr v - dn v →
  0 < refs (world s) v ∧ (refs (world s) v = 1 → opens (world s) v = 0).
Proof.
  intros S Hx. pose proof (ok_step _ _ _ _ _ OK S) as [A1 _ _ A4]. specialize (A4 v). cbn in A4.
  pose proof (held_range s v). pose proof (law_opens (world s) v A1). lia.
Qed.

Lemma spare_step s dr dn k : stp s0 s dr dn → (∀ u, dr u + k ≤ 16 ∧ dn u + k ≤ 16) → spare k (world s).
Proof.
  intros [B _ _ _ _] Hk v. rewrite (ws_refs _ _ _ _ B), (ws_opens _ _ _ _ B). destruct (SP v), (Hk v). lia.
Qed.

Lemma incref_at s dr dn v (Q : unit → vfs W → Prop) :
  stp s0 s dr dn → live (world s) v → (∀ u, dr u ≤ 15 ∧ dn u ≤ 15) →
  (∀ s', stp s0 s' (fun u => dr u + one v u) dn → Q tt s') → wp (down (VOP_INCREF v)) Q s.
Proof.
  intros S Hl Hk HQ. apply wp_down. eapply wp_mono; [apply law_incref|].
  - apply S.
  - done.
  - eapply spare_step; [done|]. intros u. specialize (Hk u). lia.
  - intros [] w B. apply HQ. eapply stp_ext; [by eapply stp_down| |]; cnt.
Qed.

Lemma decref_at s dr dn v (Q : unit → vfs W → Prop) :
  stp s0 s dr dn → 1 ≤ x0 v + dr v - dn v →
  (∀ s', stp s0 s' (fun u => dr u - one v u) dn → Q tt s') → wp (down (VOP_DECREF v)) Q s.
Proof.
  intros S Hx HQ. destruct (refs_pos _ _ _ _ S Hx). apply wp_down. eapply wp_mono; [apply law_decref; try done; apply S|].
  intros [] w B. apply HQ. eapply stp_ext; [by eapply stp_down| |]; cnt.
Qed.

Lemma quiet_at {A} (m : M W A) s dr dn (Q : A → vfs W → Prop) :
  stp s0 s dr dn → quiet m (world s) → (∀ a s', stp s0 s' dr dn → Q a s') → wp (down m) Q s.
Proof.
  intros S Hm HQ. apply wp_down. eapply wp_mono; [exact Hm|]. intros a w B. cbv beta in B. apply HQ.
  eapply stp_ext; [by eapply stp_down| |]; cnt.
Qed.

Lemma gives_at {A} (p : A → nat) (m : M W (Z + A)) s dr dn (Q : Z + A → vfs W → Prop) :
  stp s0 s dr dn → gives p m (world s) →
  (∀ e s', e ≠ 0 → stp s0 s' dr dn → Q (inl e) s') →
  (∀ a s', stp s0 s' (fun u => dr u + one (p a) u) dn → Q (inr a) s') → wp (down m) Q s.
Proof.
  intros S Hm Hl Hr. apply wp_down. eapply wp_mono; [exact Hm|]. intros [e|a] w B.
  - destruct B as [He B]. apply Hl; [done|]. eapply stp_ext; [by eapply stp_down| |]; cnt.
  - apply Hr. eapply stp_ext; [by eapply stp_down| |]; cnt.
Qed.

Lemma incopen_at s dr dn v (Q : unit → vfs W → Prop) :
  stp s0 s dr dn → 1 ≤ x0 v + dr v - dn v → (∀ u, dr u ≤ 15 ∧ dn u ≤ 15) →
  (∀ s', stp s0 s' dr (fun u => dn u + one v u) → Q tt s') → wp (down (VOP_INCOPEN v)) Q s.
Proof.
  intros S Hx Hk HQ. destruct (refs_pos _ _ _ _ S Hx). apply wp_down. eapply wp_mono; [apply law_incopen; try done|].
  - apply S.
  - eapply spare_step; [done|]. intros u. specialize (Hk u). lia.
  - intros [] w B. apply HQ. eapply stp_ext; [by eapply stp_down| |]; cnt.
Qed.

(** [opens] is what [VOP_DECOPEN] takes one from; the reference of that open becomes free. *)
Lemma decopen_at s dr dn v (Q : unit → vfs W → Prop) :
  stp s0 s dr dn → 0 ≤ x0 v + dr v - dn v → 0 < opens (world s) v →
  (∀ s', stp s0 s' dr (fun u => dn u - one v u) → Q tt s') → wp (down (VOP_DECOPEN v)) Q s.
Proof.
  intros S Hx Ho HQ. pose proof (ok_step _ _ _ _ _ OK S) as [_ _ _ A4]. specialize (A4 v). cbn in A4. pose proof (held_range s v).
  apply wp_down. eapply wp_mono; [apply law_decopen; [apply S|lia|done]|].
  intros [] w B. apply HQ. eapply stp_ext; [by eapply stp_down| |]; cnt.
Qed.

(** ** Strings *)
Lemma string_strlen b : string b → ∃ l, Cstring.cstr b = Some l ∧ Cstring.strlen b = Ok (Z.of_nat (length l)).
Proof. intros [l Hl]. exists l. split; [done|by apply Cstring.strlen_cstr]. Qed.

End steps.

(** ** The device table *)
Section devices.
Context {W : Type} `{VnodeLaws W}.
Implicit Types (s : vfs W).

(** The string in a buffer. *)
Definition cs (b : list Z) : list Z := default [] (Cstring.cstr b).

Lemma string_cs b : string b → Cstring.cstr b = Some (cs b).
Proof. unfold cs. intros [l ->]. done. Qed.

Lemma same_run a b s : string a → string b → same a b s = Ok (bool_decide (cs a = cs b), s).
Proof.
  intros Ha%string_cs Hb%string_cs. unfold same.
  erewrite bind_ok; [|unfold lift; rewrite (Cstring.strcmp_cstr _ _ _ _ Ha Hb); reflexivity].
  unfold mret, M_ret. do 2 f_equal. apply eq_bool_prop_intro. rewrite bool_decide_spec, Is_true_true, Z.eqb_eq.
  apply Cstring.str_cmp_eq; by eapply Cstring.cstr_nz.
Qed.

Lemma numdevs_run s l : table s l → numdevs s = Ok (Z.of_nat (length l), s).
Proof. intros T. unfold numdevs, gets, Array.array_getnum. by rewrite (Array.array_rep_len _ _ (tb_rep _ _ T)). Qed.

Lemma knowndev_at_run s l i p kd :
  table s l → l !! i = Some p → kds s !! p = Some kd → knowndev_at (Z.of_nat i) s = Ok ((p, kd), s).
Proof.
  intros T Hi Hk. unfold knowndev_at. erewrite bind_ok; [|reflexivity].
  erewrite bind_ok; [|unfold lift; rewrite (Array.array_getguy_rep _ l i (tb_rep _ _ T)), Hi; reflexivity].
  erewrite bind_ok; [|unfold getkd; rewrite Hk; reflexivity]. done.
Qed.

(** What a name refers to (the comment above [struct knowndev] in vfslist.c). *)
Inductive target := NotMounted | RootOf (f : nat) | DeviceVn (v : nat).

Definition names_fs_of (w : W) (kd : knowndev) (n : list Z) : option nat :=
  match kd_fs kd with
  | Some f =>
      if decide (cs (kd_name kd) = n ∨ cs <$> FSOP_GETVOLNAME w f = Some n) then Some f else None
  | None => None
  end.

Definition resolve (w : W) (kd : knowndev) (n : list Z) : option target :=
  match names_fs_of w kd n with
  | Some f => Some (RootOf f)
  | None =>
      if decide (cs (kd_name kd) = n) then
        Some (if decide (kd_rawname kd = None) then DeviceVn (kd_vnode kd) else NotMounted)
      else if decide (cs <$> kd_rawname kd = Some n) then Some (DeviceVn (kd_vnode kd))
      else None
  end.

Definition fetch (x : target) : M (vfs W) (Z + nat) :=
  match x with
  | NotMounted => mret (inl ENXIO)
  | RootOf f => let* r := down (FSOP_GETROOT f) in mret (inr r)
  | DeviceVn v => let* _ := down (VOP_INCREF v) in mret (inr v)
  end.

Lemma names_fs_run s kd f b :
  winv (world s) → kd_ok (world s) kd → kd_fs kd = Some f → string b →
  names_fs kd (FSOP_GETVOLNAME (world s) f) b s = Ok (bool_decide (is_Some (names_fs_of (world s) kd (cs b))), s).
Proof.
  intros Hw K Hf Hb. unfold names_fs, names_fs_of. rewrite Hf.
  erewrite bind_ok; [|apply same_run; [apply K|done]]. case_bool_decide as Hn.
  - rewrite decide_True by auto. by rewrite bool_decide_true by eauto.
  - destruct (FSOP_GETVOLNAME (world s) f) as [vn|] eqn:Ev; cbn.
    + rewrite same_run; [|by eapply law_volname; [..|apply (ko_fs _ _ K)|]|done]. case_bool_decide as Hv.
      * rewrite decide_True by (right; by rewrite Hv). by rewrite bool_decide_true by eauto.
      * rewrite decide_False by (intros [?|[= ?]]; done). by rewrite bool_decide_false by (by intros []).
    + rewrite decide_False by (intros [?|?]; done). by rewrite bool_decide_false by (by intros []).
Qed.

Lemma getroot_fs_run s kd b :
  winv (world s) → kd_ok (world s) kd → string b →
  getroot_fs kd b s =
    match names_fs_of (world s) kd (cs b) with
    | Some f => (let* r := fetch (RootOf f) in mret (Some r)) s
    | None => Ok (if decide (kd_fs kd = None ∧ kd_rawname kd ≠ None ∧ cs (kd_name kd) = cs b)
                  then Some (inl ENXIO) else None, s)
    end.
Proof.
  intros Hw K Hb. unfold getroot_fs. destruct (kd_fs kd) as [f|] eqn:Ef.
  - erewrite bind_ok; [|reflexivity]. erewrite bind_ok; [|by apply names_fs_run]. unfold names_fs_of. rewrite Ef.
    case_decide.
    + rewrite bool_decide_true by eauto. cbn [fetch]. unfold mbind, M_bind. by destruct (down _ s) as [[]| | |].
    + rewrite bool_decide_false by (by intros []). by rewrite decide_False by (by intros [? _]).
  - unfold names_fs_of. rewrite Ef. destruct (kd_rawname kd) as [r|] eqn:Er.
    + erewrite bind_ok; [|apply same_run; [apply K|done]]. case_bool_decide.
      * by rewrite decide_True by done.
      * by rewrite decide_False by naive_solver.
    + by rewrite decide_False by naive_solver.
Qed.

Lemma getroot_dev_run s kd b :
  winv (world s) → kd_ok (world s) kd → string b →
  getroot_dev kd b s =
    match resolve (world s) kd (cs b) with
    | Some x => (let* r := fetch x in mret (Some r)) s
    | None => Ok (None, s)
    end.
Proof.
  intros Hw K Hb. unfold getroot_dev, resolve. unfold mbind at 1, M_bind at 1. rewrite (getroot_fs_run s kd b Hw K Hb).
  destruct (names_fs_of (world s) kd (cs b)) as [f|] eqn:En.
  { cbn [fetch]. unfold mbind, M_bind. by destruct (down _ s) as [[]| | |]. }
  assert (cs (kd_name kd) = cs b → kd_fs kd = None) as Hfs.
  { intros Hn. unfold names_fs_of in En. destruct (kd_fs kd); [|done]. by rewrite decide_True in En by auto. }
  unfold getroot_self. destruct (decide (cs (kd_name kd) = cs b)) as [Hn|Hn].
  - specialize (Hfs Hn). destruct (decide (kd_rawname kd = None)) as [Hr|Hr].
    + rewrite decide_False by naive_solver. erewrite bind_ok; [|apply same_run; [apply K|done]]. rewrite bool_decide_true by done.
      erewrite bind_ok; [|unfold massert; rewrite bool_decide_true by done; reflexivity].
      erewrite bind_ok; [|unfold massert; rewrite bool_decide_true by done; reflexivity].
      erewrite bind_ok.
      2:{ unfold massert. rewrite bool_decide_true; [reflexivity|]. intros Hd. by destruct (ko_dev _ _ K Hd). }
      cbn [fetch]. unfold mbind, M_bind. by destruct (down _ s) as [[]| | |].
    + by rewrite decide_True by done.
  - rewrite decide_False by naive_solver. erewrite bind_ok; [|apply same_run; [apply K|done]]. rewrite bool_decide_false by done.
    destruct (kd_rawname kd) as [r|] eqn:Er; cbn [fmap option_fmap option_map]; [|done].
    erewrite bind_ok; [|apply same_run; [by apply (ko_raw _ _ K)|done]]. case_bool_decide as Hb'.
    + rewrite decide_True by congruence. erewrite bind_ok.
      2:{ unfold massert. rewrite bool_decide_true; [reflexivity|]. intros Hd. destruct (ko_dev _ _ K Hd). congruence. }
      cbn [fetch]. unfold mbind, M_bind. by destruct (down _ s) as [[]| | |].
    + by rewrite decide_False by congruence.
Qed.

(** The first device of the table that answers to the name. *)
Fixpoint find_dev (w : W) (m : gmap nat knowndev) (n : list Z) (l : list nat) : option target :=
  match l with
  | [] => None
  | p :: l' =>
      match m !! p ≫= fun kd => resolve w kd n with
      | Some x => Some x
      | None => find_dev w m n l'
      end
  end.

Lemma getroot_loop_run s l i b :
  winv (world s) → table s l → string b →
  getroot_loop (length l - i) (Z.of_nat i) b s =
    match find_dev (world s) (kds s) (cs b) (drop i l) with
    | Some x => fetch x s
    | None => Ok (inl ENODEV, s)
    end.
Proof.
  intros Hw T Hb. remember (length l - i)%nat as n eqn:En. revert i En. induction n as [|n IH]; intros i En.
  - by rewrite drop_ge by lia.
  - destruct (lookup_lt_is_Some_2 l i) as [p Hp]; [lia|]. rewrite (drop_S_lookup _ _ _ Hp). cbn [find_dev getroot_loop].
    destruct (tb_kd _ _ T p) as (kd & Hk & K); [by eapply list_elem_of_lookup_2|]. rewrite Hk. cbn [mbind option_bind].
    erewrite bind_ok; [|by eapply knowndev_at_run]. cbv beta iota. unfold mbind at 1, M_bind at 1.
    rewrite (getroot_dev_run s kd b Hw K Hb). destruct (resolve (world s) kd (cs b)) as [x|].
    + unfold mbind, M_bind. by destruct (fetch x s) as [[]| | |].
    + replace (Z.of_nat i + 1) with (Z.of_nat (S i)) by lia. apply IH. lia.
Qed.

Lemma getroot_run s l b :
  winv (world s) → table s l → string b →
  vfs_getroot b s =
    match find_dev (world s) (kds s) (cs b) l with
    | Some x => fetch x s
    | None => Ok (inl ENODEV, s)
    end.
Proof.
  intros Hw T Hb. unfold vfs_getroot. rewrite (bind_ok _ _ _ _ _ (numdevs_run s l T)). rewrite Nat2Z.id.
  pose proof (getroot_loop_run s l 0 b Hw T Hb) as E. by rewrite Nat.sub_0_r in E.
Qed.

End devices.

End Vfssafe.
