(* ===== verification/Fileio.v ===== *)
(** * Reading, writing and seeking open files: the interface (kern/include/vnode.h, kern/include/uio.h)

    The system calls reach a file through three more operations of vnode.h.  [Files W] adds them to the interface of
    Vfs.v and [FileLaws W] states what they promise: a transfer set up as [sys_read] and [sys_write] set it up (with interrupts off) ends, with a
    result or an error, changes no reference count and moves no more than was asked for.  Syscallsafe.v relies on
    the promises; Devicespec.v keeps them. *)
From stdpp Require Import base list gmap numbers.
From S2P Require Import Prelude Copyinout Uio Vfs Vfssafe.
Local Open Scope Z_scope.

Module Fileio.
Import Copyinout Uio Vfssafe.

(** [vn_device] is [d_blocks] and [d_blocksize] when [vn_data] points to a [struct device]. *)
Class Files (W : Type) := {
  VOP_READ : nat → uio → M (W * ustate) (Z * uio);
  VOP_WRITE : nat → uio → M (W * ustate) (Z * uio);
  VOP_TRYSEEK : nat → Z → M W Z;
  vn_device : W → nat → option (Z * Z)
}.

(** [sys_read]'s transfer: into user memory, through [copyout]. *)
Definition user_uio (buf nbytes offset : Z) (sp : option nat) : uio :=
  mkuio (un_ubase buf) nbytes (i32 offset) nbytes UIO_USERSPACE UIO_READ sp.

(** [sys_write]'s: marked as a kernel buffer, though the pointer is the program's. *)
Definition sys_uio (buf nbytes offset : Z) : uio :=
  mkuio (un_ubase buf) nbytes (i32 offset) nbytes UIO_SYSSPACE UIO_WRITE None.

(** When a transfer can be asked for: the position is in range, and a buffer that is used without
    [copyin] is mapped. *)
Record io_ready (u : uio) (us : ustate) : Prop := {
  ir_idle : idle (u_mem us);
  ir_len : iov_len u = uio_resid u;
  ir_off : 0 ≤ uio_offset u;
  ir_max : 0 ≤ uio_resid u ∧ uio_offset u + uio_resid u < 2 ^ 31;
  ir_buf : ∃ a, iov_un u = un_ubase a ∧ 0 ≤ a < 2 ^ 32 ∧
    match uio_segflg u with
    | UIO_SYSSPACE => uio_space u = None ∧ a + uio_resid u ≤ USERTOP ∧
                      is_Some (user_bytes (umem (u_mem us)) a (Z.to_nat (uio_resid u)))
    | _ => uio_space u = t_vmspace us
    end
}.

(** How it ends: at most what was asked for has been moved, the same memory is mapped. *)
Record io_done (u : uio) (us : ustate) (u' : uio) (us' : ustate) : Prop := {
  id_idle : idle (u_mem us');
  id_space : t_vmspace us' = t_vmspace us;
  id_mapped : dom (umem (u_mem us')) = dom (umem (u_mem us));
  id_resid : 0 ≤ uio_resid u' ≤ uio_resid u
}.

Lemma io_done_refl u us : idle (u_mem us) → 0 ≤ uio_resid u → io_done u us u us.
Proof. intros. constructor; (done || lia). Qed.

(** [sys_read] raises the interrupt level before it calls [VOP_READ], so a read that needs interrupts cannot work: reading
    the console stops the kernel ([Driversthm.getch_needs_spl0]).  [reads_at_splhigh] says of which vnodes a read is promised;
    the console can be written to, since output with interrupts off is polled. *)
Class FileLaws (W : Type) `{Vfs.Vnodes W, VnodeView W, Files W} := {
  reads_at_splhigh : W → nat → Prop;
  law_read w v u us : winv w → 0 < refs w v → reads_at_splhigh w v → uio_rw u = UIO_READ → io_ready u us →
    wp (VOP_READ v u) (fun r x => wstep w x.1 none none ∧ io_done u us r.2 x.2) (w, us);
  law_write w v u us : winv w → 0 < refs w v → uio_rw u = UIO_WRITE → io_ready u us →
    wp (VOP_WRITE v u) (fun r x => wstep w x.1 none none ∧ io_done u us r.2 x.2) (w, us);
  law_tryseek w v pos : winv w → 0 < refs w v → quiet (VOP_TRYSEEK v pos) w
}.

End Fileio.
