(* ===== verification/Vfspaths.v ===== *)
(** * Path names, properties of vfslookup.c and vfspath.c

    [parse] is the grammar of path names as the comments of [getdevice] describe it;
    [getdevice_parses] shows that the pointer code implements it.  The balance lemmas say
    which references each operation on path names adds and that none leaks on its error
    paths. *)
From stdpp Require Import base list gmap numbers.
From S2P Require Import Prelude Array Copyinout Uio Cstring Vfs Vfssafe.
Local Open Scope Z_scope.

Module Vfspaths.
Import Uio Vfs Vfssafe.

(** ** The grammar *)

(** Where a path starts: the current directory, a named device, the boot file system, or the
    root of the current file system. *)
Inductive origin := FromCwd | FromDevice (n : list Z) | FromBoot | FromRoot.

Fixpoint strip (p : list Z) : list Z :=
  match p with
  | [] => []
  | c :: p' => if c =? 47 then strip p' else p
  end.

(** The part before the first colon or slash, and what is left. *)
Fixpoint cut (p : list Z) : list Z * list Z :=
  match p with
  | [] => ([], [])
  | c :: p' => if (c =? 58) || (c =? 47) then ([], p) else let '(a, b) := cut p' in (c :: a, b)
  end.

Definition parse (p : list Z) : origin * list Z :=
  match cut p with
  | (_, []) => (FromCwd, p)
  | ([], c :: r) => (if c =? 47 then FromBoot else FromRoot, strip r)
  | (a, c :: r) => if c =? 58 then (FromDevice a, strip r) else (FromCwd, p)
  end.

Lemma cut_spec p a b : cut p = (a, b) → p = a ++ b ∧ match b with [] => True | c :: _ => c = 58 ∨ c = 47 end.
Proof.
  revert a b. induction p as [|c p IH]; intros a b; cbn [cut]; [by intros [= <- <-]|].
  destruct ((c =? 58) || (c =? 47)) eqn:E.
  - intros [= <- <-]. split; [done|]. apply orb_true_iff in E as [E|E]; apply Z.eqb_eq in E; auto.
  - destruct (cut p) as [a' b'] eqn:Ec. intros [= <- <-]. destruct (IH a' b' eq_refl) as [-> Hb]. done.
Qed.

Lemma scan_path_run path p i :
  Cstring.cstr path = Some p →
  scan_path i path = Ok (match cut p with
                         | (_, []) => (-1, -1)
                         | (a, c :: _) => let n := i + Z.of_nat (length a) in if c =? 58 then (-1, n) else (n, -1)
                         end).
Proof.
  revert p i. induction path as [|c path IH]; intros p i; cbn [Cstring.cstr scan_path]; [done|].
  destruct (c =? 0) eqn:E0; [by intros [= <-]|]. intros (l & El & ->)%fmap_Some. cbn [cut].
  destruct (Z.eqb_spec c 58) as [->|H1]; cbn [orb length]; [by rewrite Z.add_0_r|].
  destruct (Z.eqb_spec c 47) as [->|H2]; cbn [orb length]; [by rewrite Z.add_0_r|].
  rewrite (IH l (i + 1) El). destruct (cut l) as [a [|d b]]; [done|]. cbn [length].
  by replace (i + 1 + Z.of_nat (length a)) with (i + Z.of_nat (S (length a))) by lia.
Qed.

Lemma skip_slashes_run b l :
  Cstring.cstr b = Some l → ∃ b', skip_slashes b = Ok b' ∧ Cstring.cstr b' = Some (strip l).
Proof.
  revert l. induction b as [|c b IH]; intros l; cbn [Cstring.cstr skip_slashes]; [done|].
  destruct (Z.eqb_spec c 0) as [->|H0].
  - intros [= <-]. by exists (0 :: b).
  - intros (l' & El & ->)%fmap_Some. cbn [strip]. destruct (c =? 47) eqn:E7; [by apply IH|].
    exists (c :: b). split; [done|]. cbn [Cstring.cstr]. by rewrite (proj2 (Z.eqb_neq c 0) H0), El.
Qed.

(** Storing the terminator over the colon splits the buffer. *)
Lemma cut_buffer path a c r :
  Cstring.cstr path = Some (a ++ c :: r) →
  Cstring.cstr (<[length a := 0]> path) = Some a ∧ Cstring.cstr (drop (S (length a)) (<[length a := 0]> path)) = Some r.
Proof.
  rewrite Cstring.cstr_spec. intros (rest & -> & Hf). rewrite <- app_assoc. cbn [app].
  apply list.Forall_app in Hf as [Ha Hr]. apply Forall_cons_1 in Hr as [_ Hr].
  rewrite insert_app_r_alt by done. rewrite Nat.sub_diag. cbn [insert list_insert]. split; [by apply Cstring.cstr_app|].
  rewrite drop_app, (drop_ge a) by lia. replace (S (length a) - length a)%nat with 1%nat by lia. cbn [drop app].
  by apply Cstring.cstr_app.
Qed.

Section paths.
Context {W : Type} `{VnodeLaws W}.

Definition start (o : origin) : M (vfs W) (Z + nat) :=
  match o with
  | FromCwd => vfs_getcurdir
  | FromDevice n => vfs_getroot (n ++ [0])
  | FromBoot =>
      let* b := gets bootfs_vnode in
      match b with
      | None => mret (inl ENOENT)
      | Some v => let* _ := down (VOP_INCREF v) in mret (inr v)
      end
  | FromRoot =>
      let? vn := vfs_getcurdir in
      let* f := gets (fun s => vn_fs (world s) vn) in
      match f with
      | None => panic
      | Some fs =>
          let* root := down (FSOP_GETROOT fs) in
          let* _ := down (VOP_DECREF vn) in
          mret (inr root)
      end
  end.

(** [with_sub sub r] pairs the start vnode with the rest of the path. *)
Definition with_sub (sub : list Z) (m : M (vfs W) (Z + nat)) : M (vfs W) (Z + list Z * nat) :=
  let? v := m in mret (inr (sub, v)).

Lemma getdevice_run s x path p :
  ok s x → Cstring.cstr path = Some p →
  ∃ sub, Cstring.cstr sub = Some (parse p).2 ∧ getdevice path s = with_sub sub (start (parse p).1) s.
Proof.
  intros Hok Hp. unfold getdevice. erewrite bind_ok; [|unfold lift; rewrite (scan_path_run path p 0 Hp); reflexivity].
  unfold parse. destruct (cut p) as [a [|c r]] eqn:Ec.
  { exists path. by destruct a. }
  destruct (cut_spec _ _ _ Ec) as [-> Hc]. destruct (cut_buffer _ _ _ _ Hp) as [C1 C2].
  cbv beta iota. cbn zeta. rewrite Z.add_0_l. destruct a as [|d a].
  - destruct (skip_slashes_run _ _ C2) as (sub & Es & Cs). exists sub.
    assert (path !! 0%nat = Some c ∧ drop 1 (<[0%nat := 0]> path) = drop 1 path) as [Hc0 Hd].
    { apply Cstring.cstr_spec in Hp as (rest & -> & _). done. }
    cbn [length] in *. rewrite Hd in Es. split; [by destruct (c =? 47)|].
    rewrite Es, Hc0. by destruct Hc as [-> | ->].
  - destruct (skip_slashes_run _ _ C2) as (sub & Es & Cs). destruct Hc as [-> | ->]; [|by exists path].
    exists sub. split; [done|]. cbn [Z.eqb Pos.eqb fst snd].
    rewrite (proj2 (Z.ltb_ge (Z.of_nat _) 0)), (proj2 (Z.gtb_lt (Z.of_nat _) 0)) by (cbn [length]; lia). cbn [andb].
    rewrite Nat2Z.id. replace (Z.to_nat _) with (S (length (d :: a))) by lia.
    erewrite bind_ok; [|rewrite Es; reflexivity]. unfold with_sub, mbind at 1 2, M_bind at 1 2.
    assert (vfs_getroot (<[length (d :: a) := 0]> path) s = vfs_getroot ((d :: a) ++ [0]) s) as E; [|by rewrite E].
    destruct (ok_table _ _ Hok) as (l & T & _). apply Cstring.cstr_nz in C1 as Hnz.
    rewrite !(getroot_run s l) by (apply Hok || done || (eexists; first [done|by apply Cstring.cstr_app])).
    unfold cs. by rewrite C1, (Cstring.cstr_app (d :: a) []).
Qed.
End paths.

(** ** References added and dropped

    As in Vfssafe: [s0] is the state at the start of the operation, the caller holds [x0]. *)
Section balance.
Context {W : Type} `{VnodeLaws W}.
Context (s0 : vfs W) (x0 : nat → Z) (OK : ok s0 x0) (SP : spare 16 (world s0)).
Implicit Types (s : vfs W) (dr dn : nat → Z).

(** Nothing is overdrawn, and the counts cannot overflow. *)
Definition fine (k : Z) dr dn : Prop := ∀ u, 0 ≤ x0 u + dr u - dn u ∧ dr u + k ≤ 16 ∧ dn u + k ≤ 16.

Lemma held_live s dr dn v k :
  stp s0 s dr dn → fine k dr dn → t_cwd s0 = Some v ∨ bootfs_vnode s0 = Some v → live (world s) v.
Proof.
  intros S F Hv. left. pose proof (ok_step _ _ _ _ _ OK S) as [A1 _ _ A4]. specialize (A4 v). cbn in A4.
  pose proof (law_opens (world s) v A1). destruct (F v). unfold held in A4. rewrite (st_cwd _ _ _ _ S), (st_boot _ _ _ _ S) in A4.
  pose proof (oone_range (t_cwd s0) v). pose proof (oone_range (bootfs_vnode s0) v).
  destruct Hv as [Hv|Hv]; rewrite Hv in *; cbn [oone] in *; rewrite one_self in *; lia.
Qed.

Lemma getcurdir_at s dr dn (Q : Z + nat → vfs W → Prop) :
  stp s0 s dr dn → fine 1 dr dn → (t_cwd s0 = None → Q (inl ENOENT) s) →
  (∀ v s', t_cwd s0 = Some v → stp s0 s' (fun u => dr u + one v u) dn → Q (inr v) s') → wp vfs_getcurdir Q s.
Proof.
  intros S F Hn Hs. unfold vfs_getcurdir. rewrite wp_bind, wp_gets, (st_cwd _ _ _ _ S). destruct (t_cwd s0) as [v|] eqn:Ev.
  - rewrite wp_bind. eapply incref_at; [done..| | |].
    + by eapply held_live; eauto.
    + intros u. destruct (F u). lia.
    + intros s' S'. rewrite wp_ret. by apply (Hs v).
  - rewrite wp_ret. by apply Hn.
Qed.

Lemma fsroot_at s dr dn f (Q : nat → vfs W → Prop) :
  stp s0 s dr dn → fine 1 dr dn → mounted (world s) f →
  (∀ r s', stp s0 s' (fun u => dr u + one r u) dn → Q r s') → wp (down (FSOP_GETROOT f)) Q s.
Proof.
  intros S F Hm HQ. apply wp_down. eapply wp_mono; [apply law_getroot; [apply S|done|]|].
  - eapply spare_step; [done..|]. intros u. destruct (F u). lia.
  - intros r w B. cbv beta in B. apply HQ. eapply stp_ext; [by eapply stp_down| |]; cnt.
Qed.

(** A vnode with one more reference, or an error and no change. *)
Definition one_more {A} (p : A → nat) dr dn (r : Z + A) s : Prop :=
  match r with
  | inl e => e ≠ 0 ∧ stp s0 s dr dn
  | inr a => stp s0 s (fun u => dr u + one (p a) u) dn
  end.

Lemma getroot_at s dr dn b : stp s0 s dr dn → fine 1 dr dn → string b → wp (vfs_getroot b) (one_more id dr dn) s.
Proof.
  intros S F Hb. destruct (ok_table _ _ (ok_step _ _ _ _ _ OK S)) as (l & T & _). unfold wp at 1.
  rewrite (getroot_run s l b) by (done || apply S). destruct (find_dev _ _ _ _) as [x|] eqn:Ef; [|done].
  assert (∃ p kd, p ∈ l ∧ kds s !! p = Some kd ∧ resolve (world s) kd (cs b) = Some x) as (p & kd & Hp & Hk & Hx).
  { clear -Ef. induction l as [|p l IH]; [done|]. cbn in Ef. destruct (kds s !! p) as [kd|] eqn:Ek; cbn in Ef.
    - destruct (resolve _ kd _) as [y|] eqn:Er; [simplify_eq; exists p, kd; split; [left|done]|].
      destruct (IH Ef) as (q & kq & ? & ?). exists q, kq. split; [by right|done].
    - destruct (IH Ef) as (q & kq & ? & ?). exists q, kq. split; [by right|done]. }
  destruct (tb_kd _ _ T p Hp) as (kd' & Hk' & K). assert (kd' = kd) as -> by congruence.
  change (wp (fetch x) (one_more id dr dn) s). destruct x as [|f|v]; cbn [fetch].
  - by rewrite wp_ret.
  - rewrite wp_bind. eapply fsroot_at; [done|done| |intros r s' S'; by rewrite wp_ret].
    unfold resolve in Hx. destruct (names_fs_of _ kd _) eqn:En; [|by repeat case_decide].
    unfold names_fs_of in En. destruct (kd_fs kd) eqn:Ef'; [|done]. case_decide; [|done]. simplify_eq. by apply (ko_fs _ _ K).
  - rewrite wp_bind. eapply incref_at; [done..| | |].
    + right. assert (v = kd_vnode kd) as -> by (unfold resolve in Hx; repeat case_match; congruence).
      apply K. intros Hd. destruct (ko_dev _ _ K Hd) as [Hr Hf]. unfold resolve, names_fs_of in Hx. rewrite Hr in Hx.
      destruct (kd_fs kd); [|done]. by repeat case_decide; naive_solver.
    + intros u. destruct (F u). lia.
    + intros s' S'. by rewrite wp_ret.
Qed.
Lemma fine_more k dr dn v : fine (k + 1) dr dn → fine k (fun u => dr u + one v u) dn.
Proof. intros F u. destruct (F u). cnt. Qed.

Definition nonzero_origin (o : origin) : Prop :=
  match o with FromDevice n => Forall (fun c => c ≠ 0) n | _ => True end.

Lemma start_at s dr dn o :
  stp s0 s dr dn → fine 2 dr dn → nonzero_origin o → wp (start o) (one_more id dr dn) s.
Proof.
  intros S F Ho. assert (fine 1 dr dn) as F1 by (intros u; destruct (F u); lia). destruct o as [|n| |]; cbn [start].
  - eapply getcurdir_at; [done..|intros v s' _ S'; exact S'].
  - apply getroot_at; [done..|]. eexists. by apply Cstring.cstr_app.
  - rewrite wp_bind, wp_gets, (st_boot _ _ _ _ S). destruct (bootfs_vnode s0) as [v|] eqn:Ev; [|by rewrite wp_ret].
    rewrite wp_bind. eapply incref_at; [done..| | |intros s' S'; exact S'].
    + by eapply held_live; eauto.
    + intros u. destruct (F u). lia.
  - rewrite wp_bind. eapply getcurdir_at; [done..|]. intros v s1 Hv S1. rewrite wp_bind, wp_gets.
    destruct (ok_cwd _ _ OK v Hv) as [f Hf]. apply (ws_vnfs _ _ _ _ (st_world _ _ _ _ S1)) in Hf as Hf1. rewrite Hf1.
    rewrite wp_bind. eapply fsroot_at; [done|by apply fine_more| |].
    { eapply law_mounted; [apply S1| |done]. eapply (held_live _ _ _ _ 1); [done|by apply fine_more|by left]. }
    intros r s2 S2. rewrite wp_bind. eapply decref_at; [done..| |].
    { destruct (F v). cnt. }
    intros s3 S3. rewrite wp_ret. eapply stp_ext; [exact S3| |]; cnt.
Qed.

(** What [getdevice] gives: the rest of the path and one reference to the start vnode. *)
Lemma getdevice_at s dr dn path :
  stp s0 s dr dn → fine 2 dr dn → string path →
  wp (getdevice path) (fun r s' => match r with
                                   | inl e => e ≠ 0 ∧ stp s0 s' dr dn
                                   | inr (sub, v) => string sub ∧ stp s0 s' (fun u => dr u + one v u) dn
                                   end) s.
Proof.
  intros S F [p Hp]. destruct (getdevice_run s _ path p (ok_step _ _ _ _ _ OK S) Hp) as (sub & Hs & E).
  unfold wp. rewrite E. fold (wp (with_sub sub (start (parse p).1))). unfold with_sub.
  change (wp (let? v := start (parse p).1 in mret (inr (sub, v)))
    (fun r s' => match r with
                 | inl e => e ≠ 0 ∧ stp s0 s' dr dn
                 | inr (sub, v) => string sub ∧ stp s0 s' (fun u => dr u + one v u) dn
                 end) s).
  rewrite wp_bind. eapply wp_mono; [apply start_at; [done..|]|].
  - unfold parse. destruct (cut p) as [[|a0 a] [|c r]] eqn:Ec; try done; cbn; [by case_match|].
    destruct (c =? 58); [|done]. apply Cstring.cstr_nz in Hp. apply cut_spec in Ec as [-> _]. by apply list.Forall_app in Hp as [? _].
  - intros [e|v] s' R; rewrite wp_ret; [done|]. by split; [eexists|].
Qed.

Lemma lookup_at s dr dn path :
  stp s0 s dr dn → fine 2 dr dn → string path → wp (vfs_lookup path) (one_more id dr dn) s.
Proof.
  intros S F Hp. unfold vfs_lookup. rewrite wp_bind. eapply wp_mono; [by apply getdevice_at|].
  intros [e|[sub v]] s1 R; [by rewrite wp_ret|]. destruct R as [Hsub S1]. cbn [fst snd].
  destruct (string_strlen sub Hsub) as (l & _ & El). rewrite wp_bind, wp_lift. exists (Z.of_nat (length l)). split; [done|].
  case_if; [by rewrite wp_ret|]. rewrite wp_bind.
  assert (1 ≤ x0 v + (dr v + one v v) - dn v) as Hv by (destruct (F v); cnt).
  eapply (gives_at _ id); [done| | |].
  - apply law_lookup; [apply S1|by apply (refs_pos s0 x0 OK _ _ _ _ S1 Hv)| |done].
    eapply spare_step; [done..|]. intros u. destruct (F u). cnt.
  - intros e s2 He S2. rewrite wp_bind. eapply decref_at; [done..|]. intros s3 S3. rewrite wp_ret. split; [done|].
    eapply stp_ext; [exact S3| |]; cnt.
  - intros a s2 S2. rewrite wp_bind. eapply decref_at; [done..|cnt|]. intros s3 S3. rewrite wp_ret.
    eapply stp_ext; [exact S3| |]; cnt.
Qed.

(** The parent, a directory, with one more reference, and the last component of the path. *)
Definition parent_more dr dn (r : Z + nat * list Z) s : Prop :=
  match r with
  | inl e => e ≠ 0 ∧ stp s0 s dr dn
  | inr (v, name) => string name ∧ isdir (world s) v ∧ stp s0 s (fun u => dr u + one v u) dn
  end.

Lemma lookparent_at s dr dn path buf :
  stp s0 s dr dn → fine 2 dr dn → string path →
  wp (vfs_lookparent path buf (Z.of_nat (length buf))) (parent_more dr dn) s.
Proof.
  intros S F Hp. unfold vfs_lookparent. rewrite wp_bind. eapply wp_mono; [by apply getdevice_at|].
  intros [e|[sub v]] s1 R; [by rewrite wp_ret|]. destruct R as [Hsub S1]. cbn [fst snd].
  destruct (string_strlen sub Hsub) as (l & _ & El). rewrite wp_bind, wp_lift. exists (Z.of_nat (length l)). split; [done|].
  assert (1 ≤ x0 v + (dr v + one v v) - dn v) as Hv by (destruct (F v); cnt). rewrite wp_bind. case_if.
  - rewrite wp_ret, wp_bind. eapply decref_at; [done..|]. intros s3 S3. rewrite wp_ret. split; [done|].
    eapply stp_ext; [exact S3| |]; cnt.
  - apply wp_down. eapply wp_mono; [apply law_lookparent; [apply S1|by apply (refs_pos s0 x0 OK _ _ _ _ S1 Hv)| |done]|].
    { eapply spare_step; [done..|]. intros u. destruct (F u). cnt. }
    intros [e|[r name]] w B; cbn in B; rewrite wp_bind.
    + destruct B as [He B]. eapply decref_at; [done|by eapply stp_down|cnt|]. intros s3 S3. rewrite wp_ret. split; [done|].
      eapply stp_ext; [exact S3| |]; cnt.
    + destruct B as (B & Hn & Hd). pose proof (stp_down _ _ _ _ _ _ _ S1 B) as S2.
      destruct (refs_pos s0 x0 OK _ _ _ v S2) as [Hv1 Hv2]; [cnt|]. apply wp_down. eapply wp_mono; [apply law_decref; [apply S2|done..]|].
      intros [] w3 B3. rewrite wp_ret. split; [done|]. split; [by apply (ws_dir _ _ _ _ B3)|].
      eapply stp_ext; [exact (stp_down _ _ _ _ _ _ _ S2 B3)| |]; cnt.
Qed.
End balance.
End Vfspaths.
