(* ===== verification/Vfsops.v ===== *)
(** * The operations of the VFS, one by one

    For every operation: it completes without panic, keeps the invariant, and changes the counts
    exactly as it says.  Opening a file adds one open and one reference to the vnode
    handed back; every operation that fails, and every one that does not hand a vnode back,
    leaves the counts as they were. *)
From stdpp Require Import base list gmap numbers.
From S2P Require Import Prelude Array Copyinout Uio Cstring Vfs Vfssafe Vfspaths.
Local Open Scope Z_scope.

Module Vfsops.
Import Uio Vfs Vfssafe Vfspaths.

Section ops.
Context {W : Type} `{VnodeLaws W}.
Implicit Types (s : vfs W) (x : nat → Z).

(** The caller holds nothing but what it has open. *)
Definition good s : Prop := ok s none.

(** An operation that leaves the counts as they were. *)
Definition balanced {A} (m : M (vfs W) A) s : Prop := wp m (fun _ s' => stp s s' none none) s.

Lemma fine_none k : k ≤ 16 → fine none k none none.
Proof. intros Hk u. unfold none. lia. Qed.

Lemma fine_one v k dr dn : k ≤ 14 → fine none (k + 1) dr dn → fine none k (fun u => dr u + one v u) dn.
Proof. intros Hk F u. destruct (F u). cnt. Qed.

Lemma balanced_ret {A} s (a : A) : good s → balanced (mret a) s.
Proof. intros G. unfold balanced. rewrite wp_ret. by eapply stp_refl. Qed.

Lemma length_newbuf n : 0 ≤ n → Z.of_nat (length (newbuf n)) = n.
Proof. intros. unfold newbuf. rewrite length_replicate. lia. Qed.

Lemma parent_run s path :
  good s → spare 16 (world s) → string path →
  wp (vfs_lookparent path (newbuf (NAME_MAX + 1)) (NAME_MAX + 1)) (parent_more s none none) s.
Proof.
  intros G SP Hp. rewrite <- (length_newbuf (NAME_MAX + 1)) at 2 by done.
  apply (lookparent_at s none G SP); [by eapply stp_refl|by apply fine_none|done].
Qed.

Lemma lookup_run s path :
  good s → spare 16 (world s) → string path → wp (vfs_lookup path) (one_more s id none none) s.
Proof. intros G SP Hp. apply (lookup_at s none G SP); [by eapply stp_refl|by apply fine_none|done]. Qed.

(** ** Opening and closing *)
Lemma open_vnode_run s path flags :
  good s → spare 16 (world s) → string path → wp (open_vnode path flags) (one_more s id none none) s.
Proof.
  intros G SP Hp. unfold open_vnode. case_if; [|by apply lookup_run].
  rewrite wp_bind. eapply wp_mono; [by apply parent_run|]. intros [e|[dir name]] s1 R; [by rewrite wp_ret|].
  destruct R as (Hn & _ & S1). cbn [fst snd]. rewrite wp_bind.
  eapply (gives_at _ id); [exact S1| | |].
  - apply law_creat; [apply S1|apply (refs_pos s none G _ _ _ _ S1); cnt| |done].
    eapply spare_step; [done..|cnt].
  - intros e s2 He S2. rewrite wp_bind. eapply decref_at; [done..|cnt|]. intros s3 S3. rewrite wp_ret. split; [done|].
    eapply stp_ext; [exact S3| |]; cnt.
  - intros a s2 S2. rewrite wp_bind. eapply decref_at; [done..|cnt|]. intros s3 S3. rewrite wp_ret.
    eapply stp_ext; [exact S3| |]; cnt.
Qed.

(** One reference and one open more, or an error and no change. *)
Definition opened s (r : Z + nat) (s' : vfs W) : Prop :=
  match r with
  | inl e => e ≠ 0 ∧ stp s s' none none
  | inr v => stp s s' (one v) (one v)
  end.

Lemma open_finish_run s s1 vn flags b :
  good s → spare 16 (world s) → stp s s1 (fun u => none u + one vn u) none → wp (open_finish vn flags b) (opened s) s1.
Proof.
  intros G SP S1. unfold open_finish. rewrite wp_bind.
  eapply quiet_at; [exact S1|apply law_open; [apply S1|apply (refs_pos s none G _ _ _ _ S1); cnt]|].
  intros r s2 S2. destruct (Z.eqb_spec r 0) as [->|Hr]; cbn [negb].
  2:{ rewrite wp_bind. eapply decref_at; [done..|cnt|]. intros s3 S3. rewrite wp_ret. split; [done|].
      eapply stp_ext; [exact S3| |]; cnt. }
  rewrite wp_bind. eapply incopen_at; [done..|cnt|cnt|]. intros s3 S3.
  assert (∀ s4 e, stp s s4 (fun u => none u + one vn u) (fun u => none u + one vn u) → e ≠ 0 →
    wp (let* _ := down (VOP_DECOPEN vn) in let* _ := down (VOP_DECREF vn) in mret (inl e)) (opened s) s4) as Hbad.
  { intros s4 e S4 He. rewrite wp_bind. eapply decopen_at; [exact G|exact S4|cnt| |].
    - rewrite (ws_opens _ _ _ _ (st_world _ _ _ _ S4)). pose proof (law_opens (world s) vn (ok_inv _ _ G)). cnt.
    - intros s5 S5. rewrite wp_bind. eapply decref_at; [done..|cnt|]. intros s6 S6. rewrite wp_ret. split; [done|].
      eapply stp_ext; [exact S6| |]; cnt. }
  assert (∀ r s4, stp s s4 (fun u => none u + one vn u) (fun u => none u + one vn u) →
    wp (if negb (r =? 0) then let* _ := down (VOP_DECOPEN vn) in let* _ := down (VOP_DECREF vn) in mret (inl r)
        else mret (inr vn)) (opened s) s4) as Hend.
  { intros r s4 S4. destruct (Z.eqb_spec r 0) as [->|Hr]; cbn [negb]; [|by apply Hbad]. rewrite wp_ret.
    eapply stp_ext; [exact S4| |]; cnt. }
  rewrite wp_bind. case_if; [|rewrite wp_ret; by apply Hend]. destruct b; cbn [negb]; [|rewrite wp_ret; by apply Hend].
  eapply quiet_at; [exact S3| |intros r s4 S4; by apply Hend].
  apply law_truncate; [apply S3|]. rewrite (ws_refs _ _ _ _ (st_world _ _ _ _ S3)).
  pose proof (ok_refs _ _ G vn). pose proof (law_opens (world s) vn (ok_inv _ _ G)). pose proof (held_range s vn). cnt.
Qed.

Lemma open_run s path flags :
  good s → spare 16 (world s) → string path → wp (vfs_open path flags) (opened s) s.
Proof.
  intros G SP Hp. unfold vfs_open. case_if; [rewrite wp_ret; split; [done|by eapply stp_refl]|].
  rewrite wp_bind. eapply wp_mono; [by apply open_vnode_run|]. intros [e|vn] s1 R; [by rewrite wp_ret|].
  by apply open_finish_run.
Qed.

Lemma close_run s vn :
  good s → 0 < opens (world s) vn →
  wp (vfs_close vn) (fun _ s' => stp s s' (fun u => - one vn u) (fun u => - one vn u)) s.
Proof.
  intros G Ho. unfold vfs_close. rewrite wp_bind. eapply decopen_at; [exact G|by eapply stp_refl|cnt|done|].
  intros s1 S1. eapply decref_at; [done..|cnt|]. intros s2 S2. eapply stp_ext; [exact S2| |]; cnt.
Qed.

(** ** Operations on names *)
Lemma in_parent_run s path (m : nat → list Z → M W Z) :
  good s → spare 16 (world s) → string path →
  (∀ w v n, winv w → 0 < refs w v → spare 1 w → string n → quiet (m v n) w) →
  balanced (in_parent path m) s.
Proof.
  intros G SP Hp Hm. unfold balanced, in_parent. rewrite wp_bind. eapply wp_mono; [by apply parent_run|].
  intros [e|[dir name]] s1 R; [rewrite wp_ret; apply R|]. destruct R as (Hn & _ & S1). rewrite wp_bind.
  eapply quiet_at; [exact S1| |].
  - apply Hm; [apply S1|apply (refs_pos s none G _ _ _ _ S1); cnt|eapply spare_step; [done..|cnt]|done].
  - intros r s2 S2. rewrite wp_bind. eapply decref_at; [done..|cnt|]. intros s3 S3. rewrite wp_ret.
    eapply stp_ext; [exact S3| |]; cnt.
Qed.

(** Two names, on the same file system. *)
Lemma across_same s a b : across a b s = false → is_Some (vn_fs (world s) a) ∧ vn_fs (world s) a = vn_fs (world s) b.
Proof.
  unfold across. destruct (vn_fs (world s) a) as [f|], (vn_fs (world s) b) as [g|]; try done.
  intros E%negb_false_iff%Nat.eqb_eq. by subst.
Qed.

Lemma two_refs s s1 a b :
  good s → stp s s1 (fun u => none u + one a u + one b u) none → 0 < refs (world s1) a ∧ 0 < refs (world s1) b.
Proof. intros G S1. split; apply (refs_pos s none G _ _ _ _ S1); cnt. Qed.

(** The end of [vfs_rename] and [vfs_link]: do [m] unless the vnodes are on different file
    systems, and drop both references. *)
Lemma both_run s s1 a b (m : M W Z) (Hm : across a b s1 = false → quiet m (world s1)) :
  good s → stp s s1 (fun u => none u + one a u + one b u) none →
  wp (let* x := gets (across a b) in
      let* result := (if (x : bool) then mret EXDEV else down m) in
      let* _ := down (VOP_DECREF b) in
      let* _ := down (VOP_DECREF a) in
      mret result) (fun _ s' => stp s s' none none) s1.
Proof.
  intros G S1. rewrite wp_bind, wp_gets, wp_bind.
  assert (∀ (r : Z) s2, stp s s2 (fun u => none u + one a u + one b u) none →
    wp (let* _ := down (VOP_DECREF b) in let* _ := down (VOP_DECREF a) in mret r) (fun _ s' => stp s s' none none) s2) as Hend.
  { intros r s2 S2. rewrite wp_bind. eapply decref_at; [done..|cnt|]. intros s3 S3. rewrite wp_bind.
    eapply decref_at; [done..|cnt|]. intros s4 S4. rewrite wp_ret. eapply stp_ext; [exact S4| |]; cnt. }
  destruct (across a b s1) eqn:E; [rewrite wp_ret; by apply Hend|]. eapply quiet_at; [exact S1|by apply Hm|].
  intros r s2 S2. by apply Hend.
Qed.

Lemma spare_le k k' (w : W) : k ≤ k' → spare k' w → spare k w.
Proof. intros Hk SP v. destruct (SP v). lia. Qed.

(** The first directory is still one when the second has been found. *)
Lemma rename_run s path1 path2 :
  good s → spare 17 (world s) → string path1 → string path2 → balanced (vfs_rename path1 path2) s.
Proof.
  intros G SP H1' H2'. assert (spare 16 (world s)) as SP' by (by eapply spare_le; [|exact SP]).
  unfold balanced, vfs_rename. rewrite wp_bind. eapply wp_mono; [by apply parent_run|].
  intros [e|[a n1]] s1 R; [rewrite wp_ret; apply R|]. destruct R as (Hn1 & Da & S1). rewrite wp_bind.
  assert (spare 16 (world s1)) as SP1.
  { intros u. rewrite (ws_refs _ _ _ _ (st_world _ _ _ _ S1)), (ws_opens _ _ _ _ (st_world _ _ _ _ S1)). destruct (SP u). cnt. }
  pose proof (ok_step _ _ _ _ _ G S1) as OK1. rewrite <- (length_newbuf (NAME_MAX + 1)) at 2 by done.
  eapply wp_mono; [apply (lookparent_at s1 _ OK1 SP1 _ _ _ path2 _ (stp_refl _ _ OK1)); [|done]|].
  { intros u. cnt. }
  intros [e|[b n2]] s2 R.
  - destruct R as [_ S2]. pose proof (stp_trans _ _ _ _ _ _ _ S1 S2) as S12. rewrite wp_bind. eapply decref_at; [exact G|exact S12|cnt|].
    intros s3 S3. rewrite wp_ret. eapply stp_ext; [exact S3| |]; cnt.
  - destruct R as (Hn2 & Db & S2).
    assert (stp s s2 (fun u => none u + one a u + one b u) none) as S12.
    { eapply stp_ext; [exact (stp_trans _ _ _ _ _ _ _ S1 S2)| |]; cnt. }
    apply both_run; [|done|done]. intros [? ?]%across_same. destruct (two_refs s s2 a b G S12).
    apply law_rename; try done; [apply S2|by apply (ws_dir _ _ _ _ (st_world _ _ _ _ S2))|]. eapply spare_step; [done..|cnt].
Qed.

Lemma link_run s path1 path2 :
  good s → spare 16 (world s) → string path1 → string path2 → balanced (vfs_link path1 path2) s.
Proof.
  intros G SP H1' H2'. unfold balanced, vfs_link. rewrite wp_bind. eapply wp_mono; [by apply lookup_run|].
  intros [e|a] s1 R; [rewrite wp_ret; apply R|]. rewrite wp_bind.
  rewrite <- (length_newbuf (NAME_MAX + 1)) at 2 by done.
  eapply wp_mono; [apply (lookparent_at s none G SP _ _ _ path2 _ R); [|done]|].
  { apply fine_one; [lia|by apply fine_none]. }
  intros [e|[b n2]] s2 R2.
  - destruct R2 as [_ S2]. rewrite wp_bind. eapply decref_at; [done..|cnt|]. intros s3 S3. rewrite wp_ret.
    eapply stp_ext; [exact S3| |]; cnt.
  - destruct R2 as (Hn2 & _ & S2). apply both_run; [|done|done]. intros [? Eq]%across_same. destruct (two_refs s s2 a b G S2).
    apply law_link; try done; [apply S2|by rewrite <- Eq].
Qed.

Lemma wp_down_io {A} (m : M (W * ustate) A) (Q : A → vfs W → Prop) s :
  wp m (fun a (p : W * ustate) => Q a (set_user p.2 (set_world p.1 s))) (world s, user s) → wp (down_io m) Q s.
Proof. unfold wp, down_io, zoom. by destruct (m _) as [[]| | |]. Qed.

Lemma stp_user s s1 us dr dn : stp s s1 dr dn → stp s (set_user us s1) dr dn.
Proof. by intros []. Qed.

(** Transfers into a kernel region that end in a call of the layer below. *)
Lemma quiet_io_at s s1 (m : M (W * ustate) (Z * uio)) (Q : Z * uio → vfs W → Prop) dr dn :
  stp s s1 dr dn → wp m (fun _ (p : W * ustate) => wstep (world s1) p.1 none none) (world s1, user s1) →
  (∀ r s', stp s s' dr dn → Q r s') → wp (down_io m) Q s1.
Proof.
  intros S1 Hm HQ. apply wp_down_io. eapply wp_mono; [exact Hm|]. intros r [w us] B. cbn in B. apply HQ. apply stp_user.
  eapply stp_ext; [by eapply stp_down| |]; cnt.
Qed.

Lemma readlink_run s path u done rest :
  good s → spare 16 (world s) → string path → kuio u done rest → uio_rw u = UIO_READ → balanced (vfs_readlink path u) s.
Proof.
  intros G SP Hp Hu Hrw. unfold balanced, vfs_readlink. rewrite wp_bind. eapply wp_mono; [by apply lookup_run|].
  intros [e|v] s1 R; [rewrite wp_ret; apply R|]. rewrite wp_bind. eapply quiet_io_at; [exact R| |].
  - eapply law_readlink; try done; [apply R|]. apply (refs_pos s none G _ _ _ _ R). cnt.
  - intros r s2 S2. rewrite wp_bind. eapply decref_at; [done..|cnt|]. intros s3 S3. rewrite wp_ret.
    eapply stp_ext; [exact S3| |]; cnt.
Qed.

(** ** The current directory and the boot file system

    A step that moves the two pointers. *)
Record repoint s s' (c b : option nat) (dr : nat → Z) : Prop := {
  rp_world : wstep (world s) (world s') dr none;
  rp_kds : kds s' = kds s;
  rp_devs : knowndevs s' = knowndevs s;
  rp_cwd : t_cwd s' = c;
  rp_boot : bootfs_vnode s' = b
}.

Lemma stp_repoint s s' dr : stp s s' dr none → repoint s s' (t_cwd s) (bootfs_vnode s) dr.
Proof. by intros []. Qed.

Lemma repoint_ext s s' c b dr dr' : repoint s s' c b dr → (∀ u, dr u = dr' u) → repoint s s' c b dr'.
Proof.
  intros [[A1 A2 A3 A4 A5 A6 A7 A8] B C D E] Er. constructor; try done. constructor; try done. intros v. by rewrite A2, Er.
Qed.

Lemma repoint_stp s s1 s2 c b dr dr' :
  repoint s s1 c b dr → stp s1 s2 dr' none → repoint s s2 c b (fun u => dr u + dr' u).
Proof.
  intros [A1 A2 A3 A4 A5] [B1 B2 B3 B4 B5]. constructor; try congruence.
  pose proof (wstep_trans _ _ _ _ _ _ _ A1 B1) as []. by constructor.
Qed.

Lemma stp_then_repoint s s1 s2 c b dr dr' :
  stp s s1 dr none → repoint s1 s2 c b dr' → repoint s s2 c b (fun u => dr u + dr' u).
Proof.
  intros [B1 B2 B3 B4 B5] [A1 A2 A3 A4 A5]. constructor; try congruence.
  pose proof (wstep_trans _ _ _ _ _ _ _ B1 A1) as []. by constructor.
Qed.

Lemma ok_repoint s s' x c b dr :
  ok s x → repoint s s' c b dr → (∀ v, c = Some v → is_Some (vn_fs (world s') v)) →
  ok s' (fun u => x u + dr u + held s u - oone c u - oone b u).
Proof.
  intros [A1 (l & A2 & A2') A3 A4] [B Hk Hd Hc Hb] Hv. constructor.
  - apply B.
  - exists l. split.
    + destruct A2 as [T1 T2 T3 T4]. constructor; rewrite ?Hk, ?Hd; try done.
      intros p Hp. destruct (T3 p Hp) as (kd & E & Hok). exists kd. split; [done|by eapply kd_ok_step].
    + intros f Hf. rewrite Hk. by apply A2', (ws_mounted _ _ _ _ B).
  - by rewrite Hc.
  - intros v. pose proof (A4 v). rewrite (ws_refs _ _ _ _ B), (ws_opens _ _ _ _ B). unfold held at 1. rewrite Hc, Hb.
    unfold none. cbn. lia.
Qed.

(** Dropping the reference of a pointer that has been overwritten. *)
Lemma drop_old s x o : ok s (fun u => x u + oone o u) → (∀ u, 0 ≤ x u) →
  wp (match o with Some v => down (VOP_DECREF v) | None => mret tt end)
    (fun _ s' => stp s s' (fun u => - oone o u) none) s.
Proof.
  intros Hok Hx. destruct o as [v|].
  - eapply decref_at; [exact Hok|by eapply stp_refl| |].
    + cbn [oone]. specialize (Hx v). cnt.
    + intros s' S'. eapply stp_ext; [exact S'| |]; cbn [oone]; cnt.
  - rewrite wp_ret. eapply stp_ext; [by eapply stp_refl| |]; cbn [oone]; cnt.
Qed.

Lemma setcurdir_run s x dir :
  ok s x → (∀ u, 0 ≤ x u) → 0 < refs (world s) dir → spare 1 (world s) →
  wp (vfs_setcurdir dir) (fun r s' =>
    if decide (r = 0) then repoint s s' (Some dir) (bootfs_vnode s) (fun u => one dir u - oone (t_cwd s) u) ∧
                           is_Some (vn_fs (world s') dir)
    else stp s s' none none) s.
Proof.
  intros Hok Hx Hr SP. unfold vfs_setcurdir. rewrite wp_bind. apply wp_down. pose proof (stp_refl s x Hok) as S0.
  eapply wp_mono; [by apply law_gettype; [apply Hok|]|]. intros [e|ty] w [B Ht]; pose proof (stp_down _ _ _ _ _ _ _ S0 B) as S1.
  { rewrite wp_ret, decide_False by done. eapply stp_ext; [exact S1| |]; cnt. }
  destruct (S_ISDIR ty); cbn [negb].
  2:{ rewrite wp_ret, decide_False by done. eapply stp_ext; [exact S1| |]; cnt. }
  destruct (Ht eq_refl) as [f Hf]. rewrite wp_bind. apply wp_down. eapply wp_mono; [apply law_incref|].
  { apply B. }
  { left. cbn. rewrite (ws_refs _ _ _ _ B). cnt. }
  { intros u. cbn. rewrite (ws_refs _ _ _ _ B), (ws_opens _ _ _ _ B). destruct (SP u). cnt. }
  intros [] w2 B2. pose proof (stp_down _ _ _ _ _ _ _ S1 B2) as S2. set (s2 := set_world w2 _) in *.
  rewrite wp_bind, wp_gets, wp_bind, wp_modify. set (s3 := set_cwd (Some dir) s2).
  rewrite (st_cwd _ _ _ _ S2).
  assert (repoint s s3 (Some dir) (bootfs_vnode s) (one dir)) as R3.
  { destruct S2 as [B3 K2 D2 T2 C2]. by constructor. }
  assert (vn_fs (world s3) dir = Some f) as Hf3 by (by apply (ws_vnfs _ _ _ _ (rp_world _ _ _ _ _ R3))).
  assert (ok s3 (fun u => x u + oone (t_cwd s) u)) as Hok3.
  { eapply ok_ext; [eapply (ok_repoint _ _ _ _ _ _ Hok R3)|].
    - intros v [= <-]. by exists f.
    - intros u. unfold held. cbn [oone]. lia. }
  rewrite wp_bind. eapply wp_mono; [by apply (drop_old s3 x)|]. intros [] s4 S4. rewrite wp_ret, decide_True by done. split.
  - eapply repoint_ext; [by eapply repoint_stp|]. cnt.
  - exists f. by apply (ws_vnfs _ _ _ _ (st_world _ _ _ _ S4)).
Qed.

Lemma clearcurdir_run s :
  good s → wp vfs_clearcurdir (fun r s' => r = 0 ∧ repoint s s' None (bootfs_vnode s) (fun u => - oone (t_cwd s) u)) s.
Proof.
  intros G. unfold vfs_clearcurdir. rewrite wp_bind, wp_gets, wp_bind, wp_modify. set (s1 := set_cwd None s).
  assert (repoint s s1 None (bootfs_vnode s) none) as R1.
  { constructor; try done. by destruct (stp_refl s none G). }
  assert (ok s1 (fun u => none u + oone (t_cwd s) u)) as Hok1.
  { eapply ok_ext; [by eapply (ok_repoint _ _ _ _ _ _ G R1)|]. intros u. unfold held. cbn [oone]. cnt. }
  rewrite wp_bind. eapply wp_mono; [by apply (drop_old s1 none)|]. intros [] s2 S2. rewrite wp_ret. split; [done|].
  eapply repoint_ext; [by eapply repoint_stp|]. cnt.
Qed.

Lemma chdir_run s path :
  good s → spare 16 (world s) → string path →
  wp (vfs_chdir path) (fun r s' =>
    if decide (r = 0) then ∃ v, repoint s s' (Some v) (bootfs_vnode s) (fun u => one v u - oone (t_cwd s) u) ∧
                                is_Some (vn_fs (world s') v)
    else stp s s' none none) s.
Proof.
  intros G SP Hp. unfold vfs_chdir. rewrite wp_bind. eapply wp_mono; [by apply lookup_run|].
  intros [e|v] s1 R. { rewrite wp_ret. destruct R as [He S1]. by rewrite decide_False by done. }
  pose proof (ok_step _ _ _ _ _ G R) as Hok1. cbn in Hok1. rewrite wp_bind.
  eapply wp_mono; [apply (setcurdir_run s1 _ v Hok1); [cnt|apply (refs_pos s none G _ _ _ _ R); cnt|]|].
  { intros u. rewrite (ws_refs _ _ _ _ (st_world _ _ _ _ R)), (ws_opens _ _ _ _ (st_world _ _ _ _ R)). destruct (SP u). cnt. }
  intros r s2 R2. rewrite wp_bind. rewrite (st_cwd _ _ _ _ R), (st_boot _ _ _ _ R) in R2. destruct (decide (r = 0)) as [->|Hr].
  - destruct R2 as [R2 [f Hf]]. assert (ok s2 (one v)) as Hok2.
    { eapply ok_ext; [eapply (ok_repoint _ _ _ _ _ _ Hok1 R2)|].
      - intros w [= <-]. by exists f.
      - intros u. unfold held. rewrite (st_cwd _ _ _ _ R), (st_boot _ _ _ _ R). cbn [oone]. cnt. }
    eapply decref_at; [exact Hok2|by eapply stp_refl|cnt|]. intros s3 S3. rewrite wp_ret, decide_True by done. exists v. split.
    + eapply repoint_ext; [eapply repoint_stp; [by eapply stp_then_repoint|exact S3]|]. cnt.
    + exists f. by apply (ws_vnfs _ _ _ _ (st_world _ _ _ _ S3)).
  - eapply decref_at; [exact (ok_step _ _ _ _ _ Hok1 R2)|by eapply stp_refl, (ok_step _ _ _ _ _ Hok1 R2)|cnt|].
    intros s3 S3. rewrite wp_ret, decide_False by done. eapply stp_ext; [eapply stp_trans; [eapply stp_trans; [exact R|exact R2]|exact S3]| |]; cnt.
Qed.

(** [change_bootfs] takes over the reference to [newguy]. *)
Lemma change_bootfs_run s x o :
  ok s (fun u => x u + oone o u) → (∀ u, 0 ≤ x u) →
  wp (change_bootfs o) (fun _ s' => repoint s s' (t_cwd s) o (fun u => - oone (bootfs_vnode s) u)) s.
Proof.
  intros Hok Hx. unfold change_bootfs. rewrite wp_bind, wp_gets, wp_bind, wp_modify. set (s1 := set_bootfs o s).
  assert (repoint s s1 (t_cwd s) o none) as R1.
  { constructor; try done. by destruct (stp_refl s _ Hok). }
  eapply wp_mono; [apply (drop_old s1 x); [|done]|].
  - eapply ok_ext; [eapply (ok_repoint _ _ _ _ _ _ Hok R1)|].
    + apply Hok.
    + intros u. unfold held. cnt.
  - intros [] s2 S2. eapply repoint_ext; [by eapply repoint_stp|]. cnt.
Qed.

Lemma boot_tmp_run b n :
  Cstring.cstr b = Some n →
  ∃ tmp, boot_tmp b = Ok tmp ∧ Cstring.cstr tmp = Some (take 254 n) ∧ length tmp = 256%nat.
Proof.
  intros Hb. unfold boot_tmp. rewrite (Cstring.strlen_cstr b n Hb). cbn [mbind outcome_bind]. eexists. split; [reflexivity|].
  apply Cstring.cstr_spec in Hb as (rest & -> & Hf). unfold NAME_MAX.
  replace (Z.to_nat (Z.min (Z.of_nat (length n)) (255 - 1))) with (Nat.min (length n) 254) by lia.
  rewrite take_app_le by lia. assert (take (length n `min` 254) n = take 254 n) as ->.
  { destruct (decide (length n ≤ 254)%nat); [by rewrite Nat.min_l, !take_ge by lia|by rewrite Nat.min_r by lia]. }
  split; [|len]. replace (Z.to_nat (255 + 1) - length n `min` 254)%nat with (S (255 - length n `min` 254)) by lia.
  cbn [replicate]. apply Cstring.cstr_app. by apply Forall_take.
Qed.

(** A name with a colon is always refused, even when the colon is at the end. *)
Lemma setbootfs_colon s b n :
  Cstring.cstr b = Some n → 58 ∈ take 254 n → vfs_setbootfs b s = Ok (EINVAL, s).
Proof.
  intros Hb Hin. destruct (boot_tmp_run b n Hb) as (tmp & Et & Ct & _). unfold vfs_setbootfs.
  erewrite bind_ok; [|unfold lift; rewrite Et; reflexivity].
  pose proof (Cstring.strchr_from_run 0 tmp _ 58 Ct ltac:(done)) as Hc. rewrite decide_True in Hc by done. destruct Hc as (j & Ec & Hj).
  erewrite bind_ok; [|unfold lift, Cstring.strchr; rewrite Ec; reflexivity]. cbv iota. rewrite Z.add_0_l, Nat2Z.id.
  apply Cstring.cstr_spec in Ct as (rest & -> & Hf). rewrite drop_app_le by (apply lookup_lt_Some in Hj; lia).
  rewrite (bind_ok _ _ _ (inl EINVAL) s); [reflexivity|]. erewrite bind_ok.
  2:{ unfold lift. erewrite Cstring.strlen_cstr; [reflexivity|]. apply Cstring.cstr_app. by apply Forall_drop. }
  rewrite (drop_S_lookup _ _ _ Hj). cbn [length]. by rewrite (proj2 (Z.gtb_lt _ 0)) by lia.
Qed.

(** Otherwise the current directory moves to the root of the named file system, which
    becomes the boot file system too. *)
Lemma setbootfs_run s b :
  good s → spare 16 (world s) → string b →
  wp (vfs_setbootfs b) (fun r s' =>
    if decide (r = 0) then ∃ v, repoint s s' (Some v) (Some v) (fun u => 2 * one v u - held s u) ∧ is_Some (vn_fs (world s') v)
    else stp s s' none none) s.
Proof.
  intros G SP [n Hb]. destruct (decide (58 ∈ take 254 n)) as [Hin|Hin].
  { unfold wp. rewrite (setbootfs_colon s b n Hb Hin). cbn. by eapply stp_refl. }
  destruct (boot_tmp_run b n Hb) as (tmp & Et & Ct & Hl). unfold vfs_setbootfs.
  rewrite wp_bind, wp_lift. exists tmp. split; [done|].
  pose proof (Cstring.strchr_from_run 0 tmp _ 58 Ct ltac:(done)) as Hc. rewrite decide_False in Hc by done.
  rewrite wp_bind, wp_lift. exists None. split; [done|]. rewrite !wp_bind, wp_lift.
  assert (∃ tmp', Cstring.strcat tmp [58; 0] = Ok tmp' ∧ string tmp') as (tmp' & Ec & Hs).
  { unfold Cstring.strcat. rewrite (Cstring.strlen_cstr _ _ Ct). cbn [mbind outcome_bind]. rewrite Nat2Z.id.
    assert (length (take 254 n) ≤ 254)%nat by (rewrite length_take; lia).
    rewrite (Cstring.strcpy_from_cstr _ _ _ [58]) by (cbn [length]; (done || lia)). eexists. split; [done|].
    apply Cstring.cstr_spec in Ct as (rest & -> & Hf). exists (take 254 n ++ [58]). unfold splice.
    rewrite take_app_le, take_ge by lia. cbn [app]. rewrite cons_middle, app_assoc. apply Cstring.cstr_app.
    apply list.Forall_app. split; [done|]. by constructor. }
  exists tmp'. split; [done|]. rewrite wp_ret, wp_bind. eapply wp_mono; [by apply chdir_run|]. intros r s1 R. cbv beta in R.
  destruct (decide (r = 0)) as [->|Hr].
  2:{ rewrite (proj2 (Z.eqb_neq r 0) Hr). cbn [negb]. rewrite wp_ret. by rewrite !decide_False in * by done. }
  cbn [Z.eqb negb]. try rewrite decide_True in R by done. destruct R as (v & R & Hfs). assert (good s1) as G1.
  { eapply ok_ext; [eapply (ok_repoint _ _ _ _ _ _ G R)|].
    - intros w [= <-]. done.
    - intros u. unfold held. cbn [oone]. cnt. }
  assert (spare 15 (world s1)) as SP1.
  { intros u. rewrite (ws_refs _ _ _ _ (rp_world _ _ _ _ _ R)), (ws_opens _ _ _ _ (rp_world _ _ _ _ _ R)).
    pose proof (oone_range (t_cwd s) u). destruct (SP u). cnt. }
  unfold vfs_getcurdir. rewrite !wp_bind, wp_gets, (rp_cwd _ _ _ _ _ R), wp_bind. apply wp_down.
  eapply wp_mono; [apply law_incref; [apply G1| |]|].
  { left. pose proof (ok_refs _ _ G1 v) as Hr. unfold held in Hr. rewrite (rp_cwd _ _ _ _ _ R) in Hr. cbn [oone] in Hr.
    pose proof (law_opens (world s1) v (ok_inv _ _ G1)). pose proof (oone_range (bootfs_vnode s1) v). cnt. }
  { intros u. destruct (SP1 u). lia. }
  intros [] w B. rewrite wp_ret, wp_bind. pose proof (stp_down _ _ _ _ _ _ _ (stp_refl _ _ G1) B) as S2.
  eapply wp_mono; [apply (change_bootfs_run _ none)|].
  { eapply ok_ext; [exact (ok_step _ _ _ _ _ G1 S2)|]. intros u. cbn [oone]. cnt. }
  { done. }
  intros [] s3 R3. rewrite wp_ret, decide_True by done. exists v.
  rewrite (st_cwd _ _ _ _ S2), (st_boot _ _ _ _ S2), (rp_cwd _ _ _ _ _ R), (rp_boot _ _ _ _ _ R) in R3. split.
  - assert (repoint s1 s3 (Some v) (Some v) (fun u => none u + one v u + - oone (bootfs_vnode s) u)) as R13.
    { eapply stp_then_repoint; [|exact R3]. eapply stp_ext; [exact S2| |]; cnt. }
    destruct R as [W1 K1 D1 C1 B1], R13 as [W2 K2 D2 C2 B2]. constructor; try congruence.
    pose proof (wstep_trans _ _ _ _ _ _ _ W1 W2) as [E1 E2 E3 E4 E5 E6 E7 E8]. constructor; try done. intros u. rewrite E2. unfold held. cnt.
  - destruct Hfs as [f Hf]. exists f. apply (ws_vnfs _ _ _ _ (rp_world _ _ _ _ _ R3)), (ws_vnfs _ _ _ _ (st_world _ _ _ _ S2)), Hf.
Qed.

End ops.

End Vfsops.
