(* ===== verification/Vfsmount.v ===== *)
(** * The device table of the VFS, properties of vfslist.c

    Mounting, unmounting and syncing keep the table sound; devices are added under names
    that no other device answers to. *)
From stdpp Require Import base list gmap numbers.
From S2P Require Import Prelude Array Copyinout Uio Cstring Vfs Vfssafe Vfspaths Vfsops.
Local Open Scope Z_scope.

Module Vfsmount.
Import Uio Vfs Vfssafe Vfspaths Vfsops.

Section mount.
Context {W : Type} `{VnodeLaws W}.
Implicit Types (s : vfs W) (x : nat → Z).

(** A new file system, with no vnode of it in use. *)
Definition newfs (w w' : W) (f : nat) : Prop :=
  (∀ v, refs w' v = refs w v ∧ opens w' v = opens w v) ∧ winv w' ∧ (∀ v, pinned w v → pinned w' v) ∧
  ¬ mounted w f ∧ (∀ g, mounted w' g ↔ mounted w g ∨ g = f) ∧
  (∀ g, mounted w g → FSOP_GETVOLNAME w' g = FSOP_GETVOLNAME w g) ∧
  (∀ v g, vn_fs w v = Some g → vn_fs w' v = Some g).

(** What a mount function promises. *)
Definition mounts (m : nat → M W (Z + nat)) : Prop :=
  ∀ dev w, winv w →
    wp (m dev) (fun r w' =>
      match r with
      | inl e => e ≠ 0 ∧ wstep w w' none none
      | inr f => newfs w w' f
      end) w.

(** What a driver with a file system of its own promises (emufs, which has no device to mount): it makes the file system,
    and takes it apart again while nothing uses it. *)
Definition gonefs (w w' : W) (f : nat) : Prop :=
  (∀ v, refs w' v = refs w v ∧ opens w' v = opens w v) ∧ winv w' ∧ (∀ v, pinned w v → pinned w' v) ∧
  (∀ g, mounted w' g ↔ mounted w g ∧ g ≠ f) ∧
  (∀ v g, vn_fs w v = Some g → vn_fs w' v = Some g).

Definition hardwired (attach : M W nat) (detach : nat → M W unit) : Prop :=
  ∀ w, winv w → wp attach (fun f w1 => newfs w w1 f ∧
    ∀ w2, wstep w1 w2 none none → wp (detach f) (fun _ w3 => gonefs w2 w3 f) w2) w.

(** ** Syncing *)
Lemma table_lookup s l i p :
  table s l → l !! i = Some p → ∃ kd, kds s !! p = Some kd ∧ kd_ok (world s) kd ∧ knowndev_at (Z.of_nat i) s = Ok ((p, kd), s).
Proof.
  intros T Hi. destruct (tb_kd _ _ T p) as (kd & Hk & K); [by eapply list_elem_of_lookup_2|].
  exists kd. split_and!; try done. by eapply knowndev_at_run.
Qed.

Lemma sync_loop_run s0 s l n i :
  stp s0 s none none → table s0 l → (i + n = length l)%nat →
  wp (sync_loop n (Z.of_nat i)) (fun _ s' => stp s0 s' none none) s.
Proof.
  intros S0 T. revert s S0 i. induction n as [|n IH]; intros s S0 i Hl; cbn [sync_loop]; [by rewrite wp_ret|].
  destruct (lookup_lt_is_Some_2 l i) as [p Hp]; [lia|].
  destruct (table_lookup s l i p (table_step _ _ _ _ _ T S0) Hp) as (kd & Hk & K & E).
  rewrite wp_bind. unfold wp at 1. rewrite E. rewrite wp_bind.
  assert (∀ s', stp s0 s' none none → wp (sync_loop n (Z.of_nat i + 1)) (fun _ s' => stp s0 s' none none) s') as Hrest.
  { intros s' S'. replace (Z.of_nat i + 1) with (Z.of_nat (S i)) by lia. apply IH; [done|lia]. }
  destruct (kd_fs kd) as [f|] eqn:Ef; [|rewrite wp_ret; by apply Hrest].
  rewrite wp_bind. eapply quiet_at; [exact S0|apply law_sync; [apply S0|by apply (ko_fs _ _ K)]|].
  intros r s' S'. rewrite wp_ret. by apply Hrest.
Qed.

Lemma sync_run s : good s → balanced vfs_sync s.
Proof.
  intros G. destruct (ok_table _ _ G) as (l & T & _). unfold balanced, vfs_sync. rewrite wp_bind. unfold wp at 1.
  rewrite (numdevs_run s l T), Nat2Z.id, wp_bind.
  eapply wp_mono; [apply (sync_loop_run s s l (length l) 0); [by eapply stp_refl|done|done]|]. intros [] s' S'. by rewrite wp_ret.
Qed.

(** ** Finding a device *)
Lemma findmount_loop_run s l n i b :
  table s l → string b → (i + n = length l)%nat →
  (∃ e, findmount_loop n (Z.of_nat i) b s = Ok (inl e, s) ∧ e ≠ 0) ∨
  (∃ p kd, findmount_loop n (Z.of_nat i) b s = Ok (inr p, s) ∧ p ∈ l ∧ kds s !! p = Some kd ∧
     kd_rawname kd ≠ None ∧ cs (kd_name kd) = cs b).
Proof.
  intros T Hb. revert i. induction n as [|n IH]; intros i Hl; cbn [findmount_loop]; [left; by exists ENODEV|].
  destruct (lookup_lt_is_Some_2 l i) as [p Hp]; [lia|]. destruct (table_lookup s l i p T Hp) as (kd & Hk & K & E).
  rewrite (bind_ok _ _ _ _ _ E). cbv iota. replace (Z.of_nat i + 1) with (Z.of_nat (S i)) by lia.
  destruct (kd_rawname kd) as [r|] eqn:Er; [|apply IH; lia].
  rewrite (bind_ok _ _ _ _ _ (same_run b (kd_name kd) s Hb (ko_name _ _ K))). case_bool_decide as Hn; [|apply IH; lia].
  right. exists p, kd. split_and!; try done; [by eapply list_elem_of_lookup_2|congruence].
Qed.

Lemma findmount_run s l b :
  table s l → string b →
  (∃ e, findmount b s = Ok (inl e, s) ∧ e ≠ 0) ∨
  (∃ p kd, findmount b s = Ok (inr p, s) ∧ p ∈ l ∧ kds s !! p = Some kd ∧ kd_rawname kd ≠ None ∧ cs (kd_name kd) = cs b).
Proof.
  intros T Hb. unfold findmount. rewrite (bind_ok _ _ _ _ _ (numdevs_run s l T)), Nat2Z.id. by apply (findmount_loop_run s l (length l) 0).
Qed.

(** ** Changing the file system of a device *)
Record fschange s s' (p : nat) (kd : knowndev) (o : option nat) : Prop := {
  fc_refs : ∀ v, refs (world s') v = refs (world s) v ∧ opens (world s') v = opens (world s) v;
  fc_inv : winv (world s');
  fc_pinned : ∀ v, pinned (world s) v → pinned (world s') v;
  fc_vnfs : ∀ v g, vn_fs (world s) v = Some g → vn_fs (world s') v = Some g;
  fc_kds : kds s' = <[p := set_fs o kd]> (kds s);
  fc_devs : knowndevs s' = knowndevs s;
  fc_boot : bootfs_vnode s' = bootfs_vnode s;
  fc_cwd : t_cwd s' = t_cwd s
}.

Lemma ok_fschange s s' x l p kd o :
  ok s x → table s l → covers s l → p ∈ l → kds s !! p = Some kd → kd_device kd ≠ None → fschange s s' p kd o →
  (∀ g, mounted (world s') g ↔ o = Some g ∨ mounted (world s) g ∧ kd_fs kd ≠ Some g) →
  (∀ g, o = Some g → ¬ mounted (world s) g) →
  ok s' x.
Proof.
  intros [A1 _ A3 A4] T C Hp Hk Hd [F1 F2 F3 F4 F5 F6 F7 F8] Hm Ho. destruct T as [T1 T2 T3 T4].
  assert (∀ q kq, q ∈ l → kds s' !! q = Some kq → if decide (q = p) then kq = set_fs o kd else kds s !! q = Some kq) as Hq.
  { intros q kq Hq. rewrite F5. destruct (decide (q = p)) as [->|Hne]; [rewrite lookup_insert_eq; congruence|].
    by rewrite lookup_insert_ne by done. }
  constructor.
  - done.
  - exists l. split; [constructor; rewrite ?F6; try done|].
    + intros q Hql. destruct (T3 q Hql) as (kq & Eq & [K1 K2 K3 K4 K5]). destruct (decide (q = p)) as [->|Hne].
      * assert (kq = kd) as -> by congruence. exists (set_fs o kd). rewrite F5, lookup_insert_eq. split; [done|].
        constructor; cbn; auto; [done|]. intros f Hf. apply Hm. by left.
      * exists kq. rewrite F5, lookup_insert_ne by done. split; [done|]. constructor; auto. intros f Hf. apply Hm. right.
        split; [by apply K5|]. intros Hf'. by apply Hne, (T4 q p kq kd f).
    + intros q1 q2 k1 k2 f H1' H2' E1 E2 Hf1 Hf2. apply (Hq q1 k1 H1') in E1. apply (Hq q2 k2 H2') in E2.
      destruct (decide (q1 = p)) as [->|N1], (decide (q2 = p)) as [->|N2]; try done; subst; cbn in *.
      * destruct (T3 q2 H2') as (k & Ek & K). assert (k = k2) as -> by congruence. exfalso. apply (Ho f Hf1), (ko_fs _ _ K f Hf2).
      * destruct (T3 q1 H1') as (k & Ek & K). assert (k = k1) as -> by congruence. exfalso. apply (Ho f Hf2), (ko_fs _ _ K f Hf1).
      * by apply (T4 q1 q2 k1 k2 f).
    + intros f Hf. apply Hm in Hf as [Hf|[Hf Hne]].
      * exists p, (set_fs o kd). by rewrite F5, lookup_insert_eq.
      * destruct (C f Hf) as (q & kq & Hql & Eq & Hfq). exists q, kq. split; [done|]. rewrite F5, lookup_insert_ne; [done|]. congruence.
  - rewrite F8. intros v Hv. destruct (A3 v Hv) as [f Hf]. exists f. by apply F4.
  - intros v. destruct (F1 v) as [-> ->]. unfold held. rewrite F7, F8. apply A4.
Qed.

Lemma setkd_run s p kd f : kds s !! p = Some kd → setkd p f s = Ok (tt, set_kds (<[p := f kd]> (kds s)) (kd_next s) s).
Proof.
  intros Hk. unfold setkd, modify. do 3 f_equal. apply map_eq. intros q. destruct (decide (q = p)) as [->|Hne].
  - by rewrite lookup_alter_eq, lookup_insert_eq, Hk.
  - by rewrite lookup_alter_ne, lookup_insert_ne by done.
Qed.

(** ** Mounting and unmounting *)
Lemma vfs_mount_run s b m :
  good s → string b → mounts m →
  wp (vfs_mount b m) (fun r s' =>
    good s' ∧ if decide (r = 0) then ∃ p kd f, kds s !! p = Some kd ∧ cs (kd_name kd) = cs b ∧ kd_fs kd = None ∧
                                       fschange s s' p kd (Some f) ∧ ¬ mounted (world s) f
              else stp s s' none none) s.
Proof.
  intros G Hb Hm. destruct (ok_table _ _ G) as (l & T & C). pose proof (stp_refl s _ G) as S0.
  unfold vfs_mount. rewrite wp_bind. unfold wp at 1.
  destruct (findmount_run s l b T Hb) as [(e & -> & He)|(p & kd & -> & Hp & Hk & Hr & Hn)].
  { rewrite wp_ret. by rewrite decide_False by done. }
  destruct (tb_kd _ _ T p Hp) as (kd' & Hk' & K). assert (kd' = kd) as -> by congruence. rewrite wp_bind. unfold wp at 1, getkd at 1.
  rewrite Hk. destruct (kd_fs kd) as [f|] eqn:Ef; [rewrite wp_ret; by rewrite decide_False by done|].
  rewrite wp_bind, wp_massert. split; [by rewrite bool_decide_true|].
  destruct (kd_device kd) as [dv|] eqn:Ed; [|by destruct (ko_dev _ _ K Ed)].
  rewrite wp_bind. apply wp_down. eapply wp_mono; [apply Hm, G|]. intros [e|f] w B.
  - destruct B as [He B]. rewrite wp_ret. rewrite decide_False by done.
    assert (stp s (set_world w s) none none) as S1 by (eapply stp_ext; [exact (stp_down _ _ _ _ _ _ _ S0 B)| |]; cnt).
    split; [|done]. eapply ok_ext; [exact (ok_step _ _ _ _ _ G S1)|]. cnt.
  - destruct B as (B1 & B2 & B3 & B4 & B5 & B6 & B7). rewrite wp_bind. unfold wp at 1. rewrite (setkd_run _ _ kd) by done.
    rewrite wp_ret, decide_True by done.
    assert (fschange s (set_kds (<[p:=set_fs (Some f) kd]> (kds (set_world w s))) (kd_next (set_world w s)) (set_world w s)) p kd (Some f)) as Fc
      by (by constructor).
    split; [|by exists p, kd, f]. eapply (ok_fschange s _ none l p kd (Some f)); try done; [by rewrite Ed|..].
    + intros g. cbn. rewrite B5, Ef. naive_solver.
    + intros g [= <-]. done.
Qed.

(** [FSOP_UNMOUNT] of the file system of a device, and the end of [vfs_unmount]. *)
Lemma unmount_fs_run s l p kd f :
  good s → table s l → covers s l → p ∈ l → kds s !! p = Some kd → kd_rawname kd ≠ None → kd_fs kd = Some f →
  wp (let* result := down (FSOP_UNMOUNT f) in
      if negb (result =? 0) then mret result else let* _ := setkd p (set_fs None) in mret 0) (fun r s' =>
    good s' ∧ if decide (r = 0) then fschange s s' p kd None ∧ ¬ mounted (world s') f else stp s s' none none) s.
Proof.
  intros G T C Hp Hk Hr Hf. destruct (tb_kd _ _ T p Hp) as (kd' & Hk' & K). assert (kd' = kd) as -> by congruence.
  rewrite wp_bind. apply wp_down. eapply wp_mono; [apply law_unmount; [apply G|by apply (ko_fs _ _ K)]|].
  intros r w (B1 & B2 & B3 & B4 & B5 & B6 & B7). destruct (Z.eqb_spec r 0) as [->|Hz]; cbn [negb].
  - rewrite wp_bind. unfold wp at 1. rewrite (setkd_run _ _ kd) by done. rewrite wp_ret, decide_True by done.
    match goal with |- good ?x ∧ _ => assert (fschange s x p kd None) as Fc by (by constructor) end.
    split; [|split; [done|]].
    + eapply (ok_fschange s _ none l p kd None); try done.
      * intros Hd. by destruct (ko_dev _ _ K Hd).
      * intros g. cbn. rewrite B4, Hf. naive_solver.
    + cbn. rewrite B4. naive_solver.
  - rewrite wp_ret, decide_False by done.
    assert (stp s (set_world w s) none none) as S1.
    { constructor; try done. constructor; try done; intros v; cbn.
      - destruct (B1 v). cnt.
      - destruct (B1 v). cnt.
      - rewrite B4. naive_solver.
      - intros Hv. apply B5. rewrite B4. naive_solver. }
    split; [|done]. eapply ok_ext; [exact (ok_step _ _ _ _ _ G S1)|]. cnt.
Qed.

Lemma good_step s s' : good s → stp s s' none none → good s'.
Proof. intros G S1. eapply ok_ext; [exact (ok_step _ _ _ _ _ G S1)|]. cnt. Qed.

Lemma fschange_after s s1 s2 p kd o : stp s s1 none none → fschange s1 s2 p kd o → fschange s s2 p kd o.
Proof.
  intros [[A1 A2 A3 A4 A5 A6 A7 A8] K D B C] [F1 F2 F3 F4 F5 F6 F7 F8]. constructor; try congruence; eauto.
  intros v. destruct (F1 v) as [-> ->]. rewrite A2, A3. cnt.
Qed.

Lemma unmount_run s b :
  good s → string b →
  wp (vfs_unmount b) (fun r s' =>
    good s' ∧ if decide (r = 0) then ∃ p kd f, kds s !! p = Some kd ∧ cs (kd_name kd) = cs b ∧ kd_fs kd = Some f ∧
                                       fschange s s' p kd None ∧ ¬ mounted (world s') f
              else stp s s' none none) s.
Proof.
  intros G Hb. destruct (ok_table _ _ G) as (l & T & C). pose proof (stp_refl s _ G) as S0.
  unfold vfs_unmount. rewrite wp_bind. unfold wp at 1.
  destruct (findmount_run s l b T Hb) as [(e & -> & He)|(p & kd & -> & Hp & Hk & Hr & Hn)].
  { rewrite wp_ret. by rewrite decide_False by done. }
  destruct (tb_kd _ _ T p Hp) as (kd' & Hk' & K). assert (kd' = kd) as -> by congruence. rewrite wp_bind. unfold wp at 1, getkd at 1.
  rewrite Hk. destruct (kd_fs kd) as [f|] eqn:Ef; [|rewrite wp_ret; by rewrite decide_False by done].
  rewrite wp_bind, wp_massert. split; [by rewrite bool_decide_true|]. rewrite wp_bind, wp_massert.
  split; [apply bool_decide_eq_true_2; intros Hd; by destruct (ko_dev _ _ K Hd)|].
  rewrite wp_bind. eapply quiet_at; [exact S0|apply law_sync; [apply G|by apply (ko_fs _ _ K)]|]. intros r s1 S1.
  destruct (Z.eqb_spec r 0) as [->|Hz]; cbn [negb]; [|rewrite wp_ret, decide_False by done; split; [by eapply good_step|done]].
  eapply wp_mono; [apply (unmount_fs_run s1 l p kd f); try done|].
  - by eapply good_step.
  - by eapply table_step.
  - by eapply covers_step.
  - by rewrite (st_kds _ _ _ _ S1).
  - intros r s2 [G2 R]. split; [done|]. case_decide.
    + destruct R as [Fc Hm]. exists p, kd, f. split_and!; try done. by eapply fschange_after.
    + eapply stp_ext; [by eapply stp_trans| |]; cnt.
Qed.

(** The counts are as before, and the state is sound. *)
Definition settled s s' : Prop :=
  good s' ∧ (∀ v, refs (world s') v = refs (world s) v ∧ opens (world s') v = opens (world s) v) ∧ knowndevs s' = knowndevs s.

Lemma stp_settled s s' : good s → stp s s' none none → settled s s'.
Proof.
  intros G S1. split; [by eapply good_step|]. split; [|apply S1]. intros v. destruct S1 as [[A1 A2 A3 _ _ _ _ _] _ _ _ _]. rewrite A2, A3. cnt.
Qed.

Lemma settled_trans s1 s2 s3 : settled s1 s2 → settled s2 s3 → settled s1 s3.
Proof. intros (A1 & A2 & A3) (B1 & B2 & B3). split; [done|]. split; [|congruence]. intros v. destruct (A2 v), (B2 v). split; congruence. Qed.

Lemma unmount_dev_run s l i p kd :
  good s → table s l → covers s l → l !! i = Some p → kds s !! p = Some kd → wp (unmount_dev p kd) (fun _ s' => settled s s') s.
Proof.
  intros G T C Hi Hk. assert (p ∈ l) as Hp by (by eapply list_elem_of_lookup_2). pose proof (stp_refl s _ G) as S0.
  destruct (tb_kd _ _ T p Hp) as (kd' & Hk' & K). assert (kd' = kd) as -> by congruence. unfold unmount_dev.
  destruct (kd_rawname kd) as [raw|] eqn:Er; [|rewrite wp_ret; by apply stp_settled].
  destruct (kd_fs kd) as [f|] eqn:Ef; [|rewrite wp_ret; by apply stp_settled].
  assert (∀ s1, stp s s1 none none → quiet (FSOP_SYNC f) (world s1)) as Hsync.
  { intros s1 S1. apply law_sync; [apply S1|]. apply (ws_mounted _ _ _ _ (st_world _ _ _ _ S1)). by apply (ko_fs _ _ K). }
  rewrite wp_bind. eapply quiet_at; [exact S0|by apply Hsync|]. intros r1 s1 S1. rewrite wp_bind.
  assert (∀ r2 s2, stp s s2 none none →
    wp (if negb (r2 =? 0) then mret tt
        else let* result := down (FSOP_UNMOUNT f) in
             if negb (result =? 0) then mret tt else setkd p (set_fs None)) (fun _ s' => settled s s') s2) as Hend.
  { intros r2 s2 S2. destruct (r2 =? 0); cbn [negb]; [|rewrite wp_ret; by apply stp_settled].
    pose proof (unmount_fs_run s2 l p kd f (good_step _ _ G S2) (table_step _ _ _ _ _ T S2) (covers_step _ _ _ _ _ C S2) Hp) as HU.
    rewrite (st_kds _ _ _ _ S2) in HU. specialize (HU Hk ltac:(congruence) Ef). apply wp_bind in HU. apply wp_bind.
    eapply wp_mono; [exact HU|]. intros r s3 R. cbv beta in R. destruct (r =? 0) eqn:Ez; cbn [negb] in *.
    - apply wp_bind in R. eapply wp_mono; [exact R|]. intros [] s4 R4. rewrite wp_ret in R4. destruct R4 as [G4 [Fc _]].
      pose proof (fschange_after _ _ _ _ _ _ S2 Fc) as [F1 _ _ _ _ F6 _ _]. done.
    - rewrite wp_ret in R. cbv beta in R. rewrite wp_ret. apply Z.eqb_neq in Ez. rewrite decide_False in R by done. destruct R as [_ S3].
      apply stp_settled; [done|]. eapply stp_ext; [by eapply stp_trans| |]; cnt. }
  destruct (r1 =? 0); cbn [negb]; [rewrite wp_ret; by apply Hend|].
  eapply quiet_at; [exact S1|by apply Hsync|]. intros r2 s2 S2. by apply Hend.
Qed.

Lemma unmountall_loop_run s s1 n i :
  settled s s1 → (i + n = Z.to_nat (Array.array_getnum (knowndevs s)))%nat →
  wp (unmountall_loop n (Z.of_nat i)) (fun _ s' => settled s s') s1.
Proof.
  revert s1 i. induction n as [|n IH]; intros s1 i Hs Hl; cbn [unmountall_loop]; [by rewrite wp_ret|].
  pose proof Hs as (G1 & _ & Hd). destruct (ok_table _ _ G1) as (l & T & C).
  pose proof (Array.array_rep_len _ _ (tb_rep _ _ T)) as Hlen. unfold Array.array_getnum in Hl. rewrite <- Hd, Hlen, Nat2Z.id in Hl.
  destruct (lookup_lt_is_Some_2 l i) as [p Hp]; [lia|]. destruct (table_lookup s1 l i p T Hp) as (kd & Hk & K & E).
  rewrite wp_bind. unfold wp at 1. rewrite E, wp_bind. eapply wp_mono; [by eapply unmount_dev_run|]. intros [] s2 H2.
  replace (Z.of_nat i + 1) with (Z.of_nat (S i)) by lia. apply IH; [by eapply settled_trans|].
  unfold Array.array_getnum. rewrite <- Hd, Hlen, Nat2Z.id. lia.
Qed.

Lemma unmountall_run s : good s → wp vfs_unmountall (fun r s' => r = 0 ∧ settled s s') s.
Proof.
  intros G. unfold vfs_unmountall, numdevs. rewrite wp_bind, wp_gets, wp_bind.
  eapply wp_mono; [apply (unmountall_loop_run s s _ 0); [|done]|].
  - apply stp_settled; [done|by eapply stp_refl].
  - intros [] s' Hs. by rewrite wp_ret.
Qed.

End mount.
End Vfsmount.
