(* ===== verification/Vfsspec.v ===== *)
(** * The VFS: theorems

    Any sequence of calls keeps the reference counts of the vnodes right and runs into no
    assertion; path names mean what their grammar says; names of devices are unique and
    found. *)
From stdpp Require Import base list gmap numbers relations.
From S2P Require Import Prelude Array Copyinout Uio Cstring Vfs Vfssafe Vfspaths Vfsops Vfsmount.
Local Open Scope Z_scope.

Module Vfsspec.
Import Uio Vfs Vfssafe Vfspaths Vfsops Vfsmount.

(** ** Names of devices *)
Section names.
Context {W : Type} `{VnodeLaws W}.
Implicit Types (s : vfs W).

Definition opt_names (o : option (list Z)) : list (list Z) := match o with Some b => [cs b] | None => [] end.

(** All the names a device answers to. *)
Definition names_of (w : W) (kd : knowndev) : list (list Z) :=
  cs (kd_name kd) :: opt_names (kd_rawname kd) ++
  match kd_fs kd with Some f => opt_names (FSOP_GETVOLNAME w f) | None => [] end.

Definition distinct_names s (l : list nat) : Prop :=
  ∀ p q kp kq n, p ∈ l → q ∈ l → kds s !! p = Some kp → kds s !! q = Some kq →
    n ∈ names_of (world s) kp → n ∈ names_of (world s) kq → p = q.

Lemma opt_names_spec o n : n ∈ opt_names o ↔ cs <$> o = Some n.
Proof.
  destruct o as [b|]; cbn; [rewrite list_elem_of_singleton|].
  - split; [by intros ->|by intros [= ->]].
  - split; [by intros ?%not_elem_of_nil|done].
Qed.

(** A name resolves on a device exactly when the device answers to it. *)
Lemma resolve_names w kd n : is_Some (resolve w kd n) ↔ n ∈ names_of w kd.
Proof.
  unfold resolve, names_fs_of, names_of. rewrite elem_of_cons, elem_of_app, opt_names_spec. destruct (kd_fs kd) as [f|] eqn:Ef.
  - rewrite opt_names_spec. repeat case_decide; split; try naive_solver; try (intros; eexists; reflexivity).
  - repeat case_decide; split; try naive_solver; try (intros; eexists; reflexivity).
    intros [?|[?|?%not_elem_of_nil]]; done.
Qed.

Lemma find_unique s l p kd n :
  distinct_names s l → (∀ q, q ∈ l → is_Some (kds s !! q)) → p ∈ l → kds s !! p = Some kd → n ∈ names_of (world s) kd →
  find_dev (world s) (kds s) n l = resolve (world s) kd n.
Proof.
  intros D L Hp Hk Hn. assert (∀ l', l' ⊆ l → p ∈ l' → find_dev (world s) (kds s) n l' = resolve (world s) kd n) as Hl; [|by apply Hl].
  induction l' as [|q l' IH]; intros Hsub Hin; [by apply not_elem_of_nil in Hin|]. cbn [find_dev].
  assert (q ∈ l) as Hq by (apply Hsub; left). destruct (L q Hq) as [kq Ekq]. rewrite Ekq. cbn [mbind option_bind].
  destruct (resolve (world s) kq n) as [x|] eqn:Er.
  - assert (q = p) as -> by (eapply (D q p kq kd n); try done; apply resolve_names; by eexists). congruence.
  - apply elem_of_cons in Hin as [->|Hin]; [|apply IH; [set_solver|done]].
    assert (kq = kd) as -> by congruence. exfalso. apply resolve_names in Hn as [y Hy]. congruence.
Qed.

(** ** Adding a device *)
Definition meet (l k : list (list Z)) : Prop := Exists (fun n => n ∈ k) l.

#[global] Instance meet_dec l k : Decision (meet l k).
Proof. unfold meet. apply _. Defined.

Lemma meet_spec l k : meet l k ↔ ∃ n, n ∈ l ∧ n ∈ k.
Proof. apply list.Exists_exists. Qed.

Definition ostring (o : option (list Z)) : Prop := ∀ x, o = Some x → string x.

Lemma samestring_run a b s :
  ostring a → ostring b → samestring a b s = Ok (bool_decide (meet (opt_names a) (opt_names b)), s).
Proof.
  intros Ha Hb. destruct a as [a|]; [|by rewrite bool_decide_false by (rewrite meet_spec; by intros (n & ?%not_elem_of_nil & _))].
  destruct b as [b|]; [|by rewrite bool_decide_false by (rewrite meet_spec; by intros (n & _ & ?%not_elem_of_nil))].
  cbn [samestring]. rewrite same_run by auto. do 2 f_equal. apply bool_decide_ext. rewrite meet_spec. cbn.
  setoid_rewrite list_elem_of_singleton. naive_solver.
Qed.

Lemma meet_app l k1 k2 : meet l (k1 ++ k2) ↔ meet l k1 ∨ meet l k2.
Proof. rewrite !meet_spec. setoid_rewrite elem_of_app. naive_solver. Qed.

Lemma meet_app_l l1 l2 k : meet (l1 ++ l2) k ↔ meet l1 k ∨ meet l2 k.
Proof. apply list.Exists_app. Qed.

Lemma samestring3_run a b c d s :
  ostring a → ostring b → ostring c → ostring d →
  samestring3 a b c d s = Ok (bool_decide (meet (opt_names a) (opt_names b ++ opt_names c ++ opt_names d)), s).
Proof.
  intros Ha Hb Hc Hd. unfold samestring3. rewrite (bind_ok _ _ _ _ _ (samestring_run a b s Ha Hb)).
  case_bool_decide as H1'; [by rewrite bool_decide_true by (rewrite !meet_app; auto)|].
  rewrite (bind_ok _ _ _ _ _ (samestring_run a c s Ha Hc)). case_bool_decide as H2'; [by rewrite bool_decide_true by (rewrite !meet_app; auto)|].
  rewrite samestring_run by done. do 2 f_equal. apply bool_decide_ext. rewrite !meet_app. naive_solver.
Qed.

(** The names [badnames] is asked about. *)
Abbreviation three b c d := (opt_names b ++ opt_names c ++ opt_names d).

Lemma badnames_loop_run s l n i b c d :
  winv (world s) → table s l → ostring b → ostring c → ostring d → (i + n = length l)%nat →
  ∃ r, badnames_loop n (Z.of_nat i) b c d s = Ok (r, s) ∧
    (r = true ↔ ∃ p kd, p ∈ drop i l ∧ kds s !! p = Some kd ∧ meet (names_of (world s) kd) (three b c d)).
Proof.
  intros Hw T Hb Hc Hd. revert i. induction n as [|n IH]; intros i Hl; cbn [badnames_loop].
  - exists false. split; [done|]. rewrite drop_ge by lia. split; [done|]. by intros (p & kd & ?%not_elem_of_nil & _).
  - destruct (lookup_lt_is_Some_2 l i) as [p Hp]; [lia|]. destruct (table_lookup s l i p T Hp) as (kd & Hk & K & E).
    rewrite (bind_ok _ _ _ _ _ E). cbv iota. rewrite (drop_S_lookup _ _ _ Hp).
    set (vol := match kd_fs kd with Some f => opt_names (FSOP_GETVOLNAME (world s) f) | None => [] end).
    erewrite (bind_ok _ _ s (bool_decide (meet vol (three b c d))) s).
    2:{ subst vol. destruct (kd_fs kd) as [f|] eqn:Ef; [|by rewrite bool_decide_false by (rewrite meet_spec; by intros (? & ?%not_elem_of_nil & _))].
        erewrite bind_ok; [|reflexivity]. apply samestring3_run; try done. intros x Hx. eapply law_volname; [done| |exact Hx].
        by apply (ko_fs _ _ K). }
    assert (meet (names_of (world s) kd) (three b c d) ↔
      meet (opt_names (Some (kd_name kd))) (three b c d) ∨ meet (opt_names (kd_rawname kd)) (three b c d) ∨ meet vol (three b c d)) as HM.
    { unfold names_of. change (cs (kd_name kd) :: ?x) with ([cs (kd_name kd)] ++ x). by rewrite !meet_app_l. }
    assert (∀ r, (r = true ↔ ∃ q kq, q ∈ drop (S i) l ∧ kds s !! q = Some kq ∧ meet (names_of (world s) kq) (three b c d)) →
      ¬ meet (names_of (world s) kd) (three b c d) →
      (r = true ↔ ∃ q kq, q ∈ p :: drop (S i) l ∧ kds s !! q = Some kq ∧ meet (names_of (world s) kq) (three b c d))) as Hlast.
    { intros r Hr Hno. rewrite Hr. split; [intros (q & kq & ? & ?); exists q, kq; split; [by right|done]|].
      intros (q & kq & [->|Hq]%elem_of_cons & Hkq & Hm); [|by exists q, kq]. assert (kq = kd) as -> by congruence. done. }
    assert (meet (names_of (world s) kd) (three b c d) →
      (true = true ↔ ∃ q kq, q ∈ p :: drop (S i) l ∧ kds s !! q = Some kq ∧ meet (names_of (world s) kq) (three b c d))) as Hyes.
    { intros Hm. split; [|done]. intros _. exists p, kd. split; [left|done]. }
    case_bool_decide as H1'; [exists true; split; [done|]; apply Hyes; tauto|].
    rewrite (bind_ok _ _ _ _ _ (samestring3_run (kd_rawname kd) b c d s (ko_raw _ _ K) Hb Hc Hd)).
    case_bool_decide as H2'; [exists true; split; [done|]; apply Hyes; tauto|].
    erewrite bind_ok; [|apply samestring3_run; [intros x [= <-]; apply K|done..]].
    case_bool_decide as H3'; [exists true; split; [done|]; apply Hyes; tauto|].
    replace (Z.of_nat i + 1) with (Z.of_nat (S i)) by lia. destruct (IH (S i)) as (r & -> & Hr); [lia|].
    exists r. split; [done|]. apply Hlast; tauto.
Qed.

Lemma kmalloc_frame s : ∃ b, kmalloc_ok s = Ok (b, set_mem (tail (mem s)) s).
Proof. by eexists. Qed.

Lemma newbuf_copy b n :
  string b → (length (cs b) < n)%nat → ∃ z, Cstring.strcpy (newbuf (Z.of_nat n)) b = Ok z ∧ Cstring.cstr z = Some (cs b) ∧ length z = n.
Proof.
  intros Hb%string_cs Hn. unfold Cstring.strcpy. assert (length (newbuf (Z.of_nat n)) = n) as Hl by (unfold newbuf; len).
  rewrite (Cstring.strcpy_from_cstr 0 _ b (cs b)) by (done || lia). eexists. split; [done|]. split.
  - unfold splice. cbn [take app]. rewrite <- app_assoc. apply Cstring.cstr_app. by eapply Cstring.cstr_nz.
  - rewrite length_splice; len.
Qed.

Lemma kstrdup_run s b :
  string b → ∃ o m, kstrdup b s = Ok (o, set_mem m s) ∧ (∀ z, o = Some z → Cstring.cstr z = Some (cs b)).
Proof.
  intros Hb. unfold kstrdup. erewrite bind_ok; [|unfold lift; rewrite (Cstring.strlen_cstr _ _ (string_cs _ Hb)); reflexivity].
  destruct (kmalloc_frame s) as [ok E]. rewrite (bind_ok _ _ _ _ _ E). destruct ok; cbn [negb]; [|by eexists None, _].
  destruct (newbuf_copy b (length (cs b) + 1)) as (z & Ez & Cz & _); [done|lia|].
  replace (Z.of_nat (length (cs b)) + 1) with (Z.of_nat (length (cs b) + 1)) by lia.
  erewrite bind_ok; [|unfold lift; rewrite Ez; reflexivity]. exists (Some z), (tail (mem s)). split; [done|]. by intros ? [= <-].
Qed.

Definition raw_name (n : list Z) : list Z := n ++ [114; 97; 119].

Lemma mkrawname_run s b :
  string b → ∃ o m, mkrawname b s = Ok (o, set_mem m s) ∧ (∀ z, o = Some z → Cstring.cstr z = Some (raw_name (cs b))).
Proof.
  intros Hb. unfold mkrawname. erewrite bind_ok; [|unfold lift; rewrite (Cstring.strlen_cstr _ _ (string_cs _ Hb)); reflexivity].
  destruct (kmalloc_frame s) as [ok E]. rewrite (bind_ok _ _ _ _ _ E). destruct ok; cbn [negb]; [|by eexists None, _].
  destruct (newbuf_copy b (length (cs b) + 4)) as (z & Ez & Cz & Lz); [done|lia|].
  replace (Z.of_nat (length (cs b)) + 3 + 1) with (Z.of_nat (length (cs b) + 4)) by lia.
  erewrite bind_ok; [|unfold lift; rewrite Ez; reflexivity].
  destruct (Cstring.strcat_appends z raw_str (cs b) [114; 97; 119]) as (z' & Ez' & Cz' & _); [done|done|rewrite Lz; cbn [length]; lia|].
  erewrite bind_ok; [|unfold lift; rewrite Ez'; reflexivity]. exists (Some z'), (tail (mem s)). split; [done|]. by intros ? [= <-].
Qed.

(** New entries of [kds] do not touch those of the table. *)
Definition fresh_kd s : Prop := ∀ q, is_Some (kds s !! q) → (q < kd_next s)%nat.

(** What the new device is: its names are those asked for. *)
Record newdev (dname : list Z) (mountable : bool) (dev fs : option nat) (kd : knowndev) : Prop := {
  nd_name : Cstring.cstr (kd_name kd) = Some (cs dname);
  nd_raw : if mountable then ∃ z, kd_rawname kd = Some z ∧ Cstring.cstr z = Some (raw_name (cs dname)) else kd_rawname kd = None;
  nd_dev : kd_device kd = dev;
  nd_fs : kd_fs kd = fs
}.

(** The state only differs in what the table does not see. *)
Record aside s s' : Prop := {
  as_world : wstep (world s) (world s') none none;
  as_kds : ∀ q, is_Some (kds s !! q) → kds s' !! q = kds s !! q;
  as_devs : knowndevs s' = knowndevs s
}.

Lemma names_aside w w' kd : kd_ok w kd → wstep w w' none none → names_of w' kd = names_of w kd.
Proof.
  intros K B. unfold names_of. destruct (kd_fs kd) as [f|] eqn:Ef; [|done]. by rewrite (ws_volname _ _ _ _ B) by (by apply (ko_fs _ _ K)).
Qed.

Lemma table_aside s s' l : table s l → aside s s' → table s' l.
Proof.
  intros [T1 T2 T3 T4] [A1 A2 A3]. constructor; rewrite ?A3; try done.
  - intros p Hp. destruct (T3 p Hp) as (kd & E & K). exists kd. rewrite A2 by eauto. split; [done|by eapply kd_ok_step].
  - intros p q kp kq f Hp Hq E1 E2. destruct (T3 p Hp) as (k1 & F1 & _), (T3 q Hq) as (k2 & F2 & _).
    rewrite A2 in E1, E2 by eauto. by apply T4.
Qed.

Lemma distinct_aside s s' l : table s l → aside s s' → distinct_names s l → distinct_names s' l.
Proof.
  intros T [A1 A2 A3] D p q kp kq n Hp Hq E1 E2. destruct (tb_kd _ _ T p Hp) as (k1 & F1 & K1), (tb_kd _ _ T q Hq) as (k2 & F2 & K2).
  rewrite A2 in E1, E2 by eauto. assert (k1 = kp) as -> by congruence. assert (k2 = kq) as -> by congruence.
  rewrite (names_aside (world s) _ kp), (names_aside (world s) _ kq) by done. by apply (D p q kp kq n).
Qed.

(** The rest of the state while a device is added. *)
Record calm s s' : Prop := {
  cm_world : wstep (world s) (world s') none none;
  cm_kds : ∀ q, is_Some (kds s !! q) → kds s' !! q = kds s !! q;
  cm_fresh : fresh_kd s';
  cm_boot : bootfs_vnode s' = bootfs_vnode s;
  cm_cwd : t_cwd s' = t_cwd s
}.

(** What happens to the table when a device is added, also when its names are not distinct to begin with. *)
Definition extended s (dname : list Z) (mountable : bool) (dev fs : option nat) (l : list nat) (r : Z) s' : Prop :=
  if decide (r = 0) then
    ∃ p kd, (p ∉ l) ∧ kds s' !! p = Some kd ∧ newdev dname mountable dev fs kd ∧
      table s' (l ++ [p]) ∧ (distinct_names s l → distinct_names s' (l ++ [p]))
  else table s' l ∧ (distinct_names s l → distinct_names s' l).

(** The outcome of adding a device to the table [l]. *)
Definition added (dname : list Z) (mountable : bool) (dev fs : option nat) (l : list nat) (r : Z) s' : Prop :=
  if decide (r = 0) then
    ∃ p kd, (p ∉ l) ∧ kds s' !! p = Some kd ∧ newdev dname mountable dev fs kd ∧
      table s' (l ++ [p]) ∧ distinct_names s' (l ++ [p])
  else table s' l ∧ distinct_names s' l.

(** The device table with the device appended. *)
Lemma table_snoc s s' l p kd tbl :
  table s l → p ∉ l → kds s !! p = Some kd → kd_ok (world s) kd →
  (∀ f q kq, kd_fs kd = Some f → q ∈ l → kds s !! q = Some kq → kd_fs kq ≠ Some f) →
  ¬ (∃ q kq, q ∈ l ∧ kds s !! q = Some kq ∧ meet (names_of (world s) kq) (names_of (world s) kd)) →
  Array.array_rep tbl (l ++ [p]) → s' = set_knowndevs tbl s →
  table s' (l ++ [p]) ∧ (distinct_names s l → distinct_names s' (l ++ [p])).
Proof.
  intros T Hp Hk K Hf Hno Ha ->. destruct T as [T1 T2 T3 T4]. split.
  - constructor; [done| | |].
    + apply list.NoDup_app. split; [done|]. split; [|apply list.NoDup_singleton]. intros q Hq ->%list_elem_of_singleton. done.
    + intros q [Hq| ->%list_elem_of_singleton]%elem_of_app; [by apply T3|by exists kd].
    + intros q1 q2 k1 k2 f H1' H2' E1 E2 F1 F2. cbn in E1, E2.
      apply elem_of_app in H1' as [H1'|H1'], H2' as [H2'|H2']; rewrite ?list_elem_of_singleton in *; subst.
      * by apply (T4 q1 q2 k1 k2 f).
      * assert (k2 = kd) as -> by congruence. by destruct (Hf f q1 k1 F2 H1' E1).
      * assert (k1 = kd) as -> by congruence. by destruct (Hf f q2 k2 F1 H2' E2).
      * done.
  - intros D q1 q2 k1 k2 n H1' H2' E1 E2 N1 N2. cbn in E1, E2, N1, N2.
    apply elem_of_app in H1' as [H1'|H1'], H2' as [H2'|H2']; rewrite ?list_elem_of_singleton in *; subst.
    + by apply (D q1 q2 k1 k2 n).
    + assert (k2 = kd) as -> by congruence. destruct Hno. exists q1, k1. rewrite meet_spec. eauto.
    + assert (k1 = kd) as -> by congruence. destruct Hno. exists q2, k2. rewrite meet_spec. eauto.
    + done.
Qed.

(** The part of [vfs_doadd] from the allocation of the structure on. *)
Lemma doadd_finish s s1 l dname mountable dev fs name rawname vnode :
  winv (world s) → table s l → fresh_kd s → Z.of_nat (length l) < 2 ^ 29 - 2 →
  aside s s1 → kds s1 = kds s → kd_next s1 = kd_next s → bootfs_vnode s1 = bootfs_vnode s → t_cwd s1 = t_cwd s →
  let kd := mkkd name rawname dev vnode fs in
  newdev dname mountable dev fs kd → kd_ok (world s1) kd →
  (∀ f p kq, fs = Some f → p ∈ l → kds s !! p = Some kq → kd_fs kq ≠ Some f) →
  wp (let* p := new_knowndev kd in
      let* volname := gets (fun s => match fs with Some f => FSOP_GETVOLNAME (world s) f | None => None end) in
      let* bad := badnames (Some name) rawname volname in
      if negb (bad : bool) then
        let* a := gets knowndevs in
        let* ok := kmalloc_ok in
        let* '(err, a) := lift (Array.array_add ok a p) in
        let* _ := modify (set_knowndevs a) in
        mret err
      else mret EEXIST) (fun r s' => extended s dname mountable dev fs l r s' ∧ calm s s') s1.
Proof.
  intros Hw T Fr Hl [A1 A2 A3] Ek En Eb Ec kd N K Hf. set (p := kd_next s).
  assert (p ∉ l) as Hp.
  { intros Hp. destruct (tb_kd _ _ T p Hp) as (k & E & _). assert (p < kd_next s)%nat by (apply Fr; eauto). unfold p in *. lia. }
  rewrite wp_bind. unfold wp at 1, new_knowndev. rewrite En. fold p. set (s2 := set_kds _ _ s1).
  assert (aside s s2) as A.
  { constructor; [done| |done]. intros q Hq. cbn. rewrite lookup_insert_ne, Ek; [done|]. intros <-. apply Fr in Hq. unfold p in *. lia. }
  pose proof (table_aside _ _ _ T A) as T2. pose proof (distinct_aside _ _ _ T A) as D2.
  assert (∀ tbl m, calm s (set_knowndevs tbl (set_mem m s2)) ∧ calm s s2) as Hcalm.
  { assert (fresh_kd s2) as F2.
    { intros q [k Hq]. cbn in Hq |- *. destruct (decide (q = p)) as [->|Hne]; [lia|]. rewrite lookup_insert_ne, Ek in Hq by done.
      assert (q < kd_next s)%nat by (apply Fr; eauto). unfold p. lia. }
    intros tbl m. destruct A as [B1 B2 _]. by split; constructor. }
  rewrite wp_bind, wp_gets, wp_bind. set (vol := match fs with Some f => _ | None => None end).
  assert (names_of (world s2) kd = three (Some name) rawname vol) as Nm.
  { unfold names_of, vol. cbn [kd_name kd_rawname kd_fs kd opt_names app]. by destruct fs. }
  unfold badnames. rewrite wp_bind. unfold wp at 1. rewrite (numdevs_run s2 l T2), Nat2Z.id.
  destruct (badnames_loop_run s2 l (length l) 0 (Some name) rawname vol) as (r & E & Hr); try done.
  { apply A1. }
  { intros x [= <-]. apply K. }
  { intros x Hx. by apply (ko_raw _ _ K). }
  { intros x Hx. unfold vol in Hx. destruct fs as [f|]; [|done]. eapply law_volname; [apply A1| |exact Hx]. by apply (ko_fs _ _ K). }
  change (Z.of_nat 0) with 0 in E. unfold wp at 1. rewrite E. rewrite drop_0, <- Nm in Hr. destruct r; cbn [negb].
  { rewrite wp_ret. unfold extended. rewrite decide_False by done. split; [done|]. by apply (Hcalm (knowndevs s2) []). }
  assert (¬ (∃ q kq, q ∈ l ∧ kds s2 !! q = Some kq ∧ meet (names_of (world s2) kq) (names_of (world s2) kd))) as Hno by (rewrite <- Hr; done).
  rewrite wp_bind, wp_gets, wp_bind. destruct (kmalloc_frame s2) as [ok Eo]. unfold wp at 1. rewrite Eo. set (s3 := set_mem _ s2).
  rewrite wp_bind, wp_lift.
  assert (kds s3 !! p = Some kd) as Hk by apply lookup_insert_eq.
  assert (ok = true ∨ Array.num (knowndevs s2) < Array.max (knowndevs s2) ∨ ok = false ∧ Array.num (knowndevs s2) = Array.max (knowndevs s2)) as Hc.
  { destruct (tb_rep _ _ T2) as [(Hn & _) _]. destruct ok; [by left|]. lia. }
  assert (ok = false ∧ Array.num (knowndevs s2) = Array.max (knowndevs s2) ∨ (ok = true ∨ Array.num (knowndevs s2) < Array.max (knowndevs s2))) as [[-> Hfull]|Hroom] by tauto.
  - exists (ENOMEM, knowndevs s2). split; [by eapply Array.array_add_nomem; [apply T2|..]|]. rewrite wp_bind, wp_modify, wp_ret.
    split; [|by apply Hcalm]. unfold extended. rewrite decide_False by done. split; [by destruct T2|done].
  - destruct (Array.array_add_appends (knowndevs s2) l p ok (tb_rep _ _ T2) Hl Hroom) as (tbl & Ea & Ra).
    exists (0, tbl). split; [done|]. rewrite wp_bind, wp_modify, wp_ret. split; [|by apply Hcalm].
    unfold extended. rewrite decide_True by done. exists p, kd. split; [done|]. split; [done|]. split; [done|].
    assert (table s3 l) as T3 by (by destruct T2). destruct (table_snoc s3 (set_knowndevs tbl s3) l p kd tbl T3 Hp Hk K) as [T4 D4]; try done;
      [|split; [done|by intros D; apply D4, D2]].
    intros f q kq Hff Hq Hkq. destruct (tb_kd _ _ T q Hq) as (k & Ekq & _). cbn in Hff.
    assert (kds s2 !! q = Some kq) as Hkq2 by done. rewrite (as_kds _ _ A) in Hkq2 by eauto. by eapply Hf.
Qed.

Lemma doadd_run s l dname mountable dev fs :
  winv (world s) → table s l → fresh_kd s → string dname → Z.of_nat (length l) < 2 ^ 29 - 2 →
  (dev = None → mountable = false ∧ fs ≠ None) → (∀ d, dev = Some d → attached (world s) d) →
  (∀ f, fs = Some f → mounted (world s) f ∧ ∀ p kq, p ∈ l → kds s !! p = Some kq → kd_fs kq ≠ Some f) →
  wp (vfs_doadd dname mountable dev fs) (fun r s' => extended s dname mountable dev fs l r s' ∧ calm s s') s.
Proof.
  intros Hw T Fr Hn Hl Hdev Hatt Hfs. unfold vfs_doadd.
  assert (∀ w m, wstep (world s) w none none →
    wp (mret ENOMEM) (fun r s' => extended s dname mountable dev fs l r s' ∧ calm s s') (set_world w (set_mem m s))) as Hbad.
  { intros w m B. rewrite wp_ret. assert (aside s (set_world w (set_mem m s))) as A by done. split; [|done].
    unfold extended. rewrite decide_False by done. split; [by eapply table_aside|by eapply distinct_aside]. }
  assert (wstep (world s) (world s) none none) as B0 by (by apply wstep_refl).
  destruct (kstrdup_run s dname Hn) as (o & m & E & Hz). rewrite wp_bind. unfold wp at 1. rewrite E.
  destruct o as [name|]; [|by apply Hbad]. specialize (Hz name eq_refl).
  assert (string name) as Hsn by (by eexists).
  assert (cs name = cs dname) as Hcs by (unfold cs at 1; by rewrite Hz). rewrite wp_bind.
  assert (∃ r m', (if mountable then let* raw := mkrawname name in mret (match raw with Some x => inr (Some x) | None => inl tt end)
      else mret (inr None)) (set_mem m s) = Ok (r, set_mem m' s) ∧
    match r with inl _ => True | inr raw => if mountable then ∃ z, raw = Some z ∧ Cstring.cstr z = Some (raw_name (cs dname)) else raw = None end)
    as (r & m' & Er & Hr).
  { destruct mountable; [|by eexists (inr None), m]. destruct (mkrawname_run (set_mem m s) name Hsn) as (o & m2 & E2 & Hz2).
    rewrite (bind_ok _ _ _ _ _ E2). destruct o as [z|]; [|by eexists (inl tt), m2]. eexists (inr (Some z)), m2. split; [done|].
    exists z. rewrite <- Hcs. auto. }
  unfold wp at 1. rewrite Er. destruct r as [[]|raw]; [by apply Hbad|]. rewrite wp_bind. apply wp_down.
  eapply wp_mono; [by apply law_create|]. intros [vn|] w [B Hpin]; [|by apply Hbad]. rewrite wp_bind.
  destruct (kmalloc_frame (set_world w (set_mem m' s))) as [ok Eo]. unfold wp at 1. rewrite Eo. destruct ok; cbn [negb]; [|exact (Hbad w (tail m') B)].
  eapply (doadd_finish s _ l); try done.
  - constructor; cbn; try done.
    + intros x ->. destruct mountable; [|done]. destruct Hr as (z & [= ->] & Hr). by eexists.
    + intros ->. destruct (Hdev eq_refl) as [-> ?]. done.
    + intros f ->. destruct (Hfs f eq_refl) as [Hm _]. by apply (ws_mounted _ _ _ _ B).
  - intros f p kq ->. by apply Hfs.
Qed.

(** ** Theorems *)

(** Devices and hardwired file systems are only added under names that no other device or
    mounted volume answers to; when the name is refused or memory runs out the table is as it
    was. *)
Theorem vfs_doadd_unique s l dname mountable dev fs :
  winv (world s) → table s l → distinct_names s l → fresh_kd s → string dname → Z.of_nat (length l) < 2 ^ 29 - 2 →
  (dev = None → mountable = false ∧ fs ≠ None) → (∀ d, dev = Some d → attached (world s) d) →
  (∀ f, fs = Some f → mounted (world s) f ∧ ∀ p kq, p ∈ l → kds s !! p = Some kq → kd_fs kq ≠ Some f) →
  ∃ r s', vfs_doadd dname mountable dev fs s = Ok (r, s') ∧
    added dname mountable dev fs l r s'.
Proof.
  intros Hw T D Fr Hn Hl Hdev Hatt Hfs.
  destruct (proj1 (wp_run _ _ _) (doadd_run s l dname mountable dev fs Hw T Fr Hn Hl Hdev Hatt Hfs)) as (r & s' & E & X & _).
  exists r, s'. split; [done|]. unfold extended, added in *. case_decide.
  - destruct X as (p & kd & ? & ? & ? & ? & D'). exists p, kd. split_and!; auto.
  - destruct X as [? D']. auto.
Qed.

(** A name of a device leads to that device: the root of the file system on it for the names
    of a mounted volume, the raw device for its raw name, and ENXIO when nothing is mounted; any
    other name is ENODEV. *)
Theorem vfs_getroot_finds s l b :
  winv (world s) → table s l → distinct_names s l → string b →
  (∀ p kd, p ∈ l → kds s !! p = Some kd → cs b ∈ names_of (world s) kd →
     ∃ x, resolve (world s) kd (cs b) = Some x ∧ vfs_getroot b s = fetch x s) ∧
  ((∀ p kd, p ∈ l → kds s !! p = Some kd → cs b ∉ names_of (world s) kd) → vfs_getroot b s = Ok (inl ENODEV, s)).
Proof.
  intros Hw T D Hb. rewrite (getroot_run s l b Hw T Hb). assert (∀ q, q ∈ l → is_Some (kds s !! q)) as Hl.
  { intros q Hq. destruct (tb_kd _ _ T q Hq) as (kd & E & _). by eexists. }
  split.
  - intros p kd Hp Hk Hn. destruct (proj2 (resolve_names (world s) kd (cs b)) Hn) as [x Hx]. exists x. split; [done|].
    by rewrite (find_unique s l p kd), Hx.
  - intros Hno. assert (find_dev (world s) (kds s) (cs b) l = None) as ->; [|done]. clear T D. induction l as [|p l IH]; [done|].
    cbn. destruct (Hl p) as [kd Hk]; [left|]. rewrite Hk. cbn. destruct (resolve (world s) kd (cs b)) eqn:Er.
    + exfalso. apply (Hno p kd); [left|done|]. apply resolve_names. by eexists.
    + apply IH; intros; [apply Hl; by right|]. eapply Hno; [by right|done].
Qed.

End names.
(** ** Sequences of calls *)
Section calls.
Context {W : Type} `{VnodeLaws W}.
Implicit Types (s : vfs W).

Inductive call :=
| c_open (path : list Z) (flags : Z)
| c_close (v : nat)
| c_lookup (path : list Z)
| c_lookparent (path buf : list Z)
| c_readlink (path : list Z) (u : uio)
| c_remove (path : list Z)
| c_rename (path1 path2 : list Z)
| c_link (path1 path2 : list Z)
| c_symlink (contents path : list Z)
| c_mkdir (path : list Z)
| c_rmdir (path : list Z)
| c_chdir (path : list Z)
| c_setcurdir (v : nat)
| c_getcurdir
| c_getcwd (u : uio)
| c_clearcurdir
| c_setbootfs (fsname : list Z)
| c_clearbootfs
| c_getroot (devname : list Z)
| c_sync
| c_adddev (devname : list Z) (dev : nat) (mountable : bool)
| c_addfs (devname : list Z) (attach : M W nat) (detach : nat → M W unit)
| c_mount (devname : list Z) (m : nat → M W (Z + nat))
| c_unmount (devname : list Z)
| c_unmountall.

(** A vnode that is handed back stays referenced by the caller.  [c_addfs] is [vfs_addfs] as its only caller uses it
    ([emufs_addtovfs] in dev/lamebus/emu.c): the file system is made for it, and taken apart when its name is refused. *)
Definition exec (c : call) : M (vfs W) unit :=
  match c with
  | c_open path flags => let* _ := vfs_open path flags in mret tt
  | c_close v => vfs_close v
  | c_lookup path => let* _ := vfs_lookup path in mret tt
  | c_lookparent path buf => let* _ := vfs_lookparent path buf (Z.of_nat (length buf)) in mret tt
  | c_readlink path u => let* _ := vfs_readlink path u in mret tt
  | c_remove path => let* _ := vfs_remove path in mret tt
  | c_rename p1 p2 => let* _ := vfs_rename p1 p2 in mret tt
  | c_link p1 p2 => let* _ := vfs_link p1 p2 in mret tt
  | c_symlink c path => let* _ := vfs_symlink c path in mret tt
  | c_mkdir path => let* _ := vfs_mkdir path in mret tt
  | c_rmdir path => let* _ := vfs_rmdir path in mret tt
  | c_chdir path => let* _ := vfs_chdir path in mret tt
  | c_setcurdir v => let* _ := vfs_setcurdir v in mret tt
  | c_getcurdir => let* _ := vfs_getcurdir in mret tt
  | c_getcwd u => let* _ := vfs_getcwd u in mret tt
  | c_clearcurdir => let* _ := vfs_clearcurdir in mret tt
  | c_setbootfs n => let* _ := vfs_setbootfs n in mret tt
  | c_clearbootfs => vfs_clearbootfs
  | c_getroot n => let* _ := vfs_getroot n in mret tt
  | c_sync => let* _ := vfs_sync in mret tt
  | c_adddev n dev b => let* _ := vfs_adddev n dev b in mret tt
  | c_addfs n attach detach =>
      let* fs := down attach in
      let* result := vfs_addfs n fs in
      if negb (result =? 0) then down (detach fs) else mret tt
  | c_mount n m => let* _ := vfs_mount n m in mret tt
  | c_unmount n => let* _ := vfs_unmount n in mret tt
  | c_unmountall => let* _ := vfs_unmountall in mret tt
  end.

(** A region of kernel memory to be filled, as [mk_kuio] sets it up. *)
Definition fills (u : uio) : Prop :=
  uio_rw u = UIO_READ ∧ ∃ done rest, kuio u done rest ∧ uio_resid u = Z.of_nat (length rest).

(** What the caller must respect: arguments are strings, only open files are closed, only a vnode that is referenced becomes the
    current directory, transfers are into kernel memory, a device to be added is there and the table has room for it. *)
Definition args_ok (c : call) s : Prop :=
  match c with
  | c_open p _ | c_lookup p | c_lookparent p _ | c_remove p | c_mkdir p | c_rmdir p | c_chdir p | c_setbootfs p | c_getroot p
  | c_unmount p => string p
  | c_rename p q | c_link p q | c_symlink p q => string p ∧ string q
  | c_readlink p u => string p ∧ fills u
  | c_getcwd u => fills u
  | c_adddev n d _ => string n ∧ attached (world s) d ∧ Array.num (knowndevs s) < 2 ^ 29 - 2
  | c_addfs n attach detach => string n ∧ hardwired attach detach ∧ Array.num (knowndevs s) < 2 ^ 29 - 2
  | c_mount p m => string p ∧ mounts m
  | c_close v => 0 < opens (world s) v
  | c_setcurdir v => 0 < refs (world s) v
  | c_getcurdir | c_clearcurdir | c_clearbootfs | c_sync | c_unmountall => True
  end.

(** And no count is about to overflow. *)
Definition enabled (c : call) s : Prop := args_ok c s ∧ spare 17 (world s).

Definition step s s' : Prop := ∃ c, enabled c s ∧ exec c s = Ok (tt, s').

(** The VFS between two calls: the counts and the table are right, and the heap hands out memory that is not in use. *)
Definition sound s : Prop := good s ∧ fresh_kd s.

Lemma good_repoint s s' c b dr :
  good s → repoint s s' c b dr → (∀ v, c = Some v → is_Some (vn_fs (world s') v)) →
  (∀ u, dr u = oone c u + oone b u - held s u) → good s'.
Proof.
  intros G R Hc Hd. eapply ok_ext; [exact (ok_repoint _ _ _ _ _ _ G R Hc)|]. intros u. cbv beta. rewrite Hd. unfold none. lia.
Qed.

Lemma good_opened s r s' : good s → opened s r s' → good s'.
Proof.
  intros G R. destruct r as [e|v]; cbn in R.
  - destruct R as [_ R]. by eapply good_step.
  - eapply ok_ext; [exact (ok_step _ _ _ _ _ G R)|]. cnt.
Qed.

Lemma wp_unit {A} (m : M (vfs W) A) s : wp m (fun _ s' => good s') s → wp (let* _ := m in mret tt) (fun _ s' => good s') s.
Proof. intros Hm. rewrite wp_bind. eapply wp_mono; [exact Hm|]. intros a s' G. by rewrite wp_ret. Qed.

Lemma balanced_good {A} (m : M (vfs W) A) s : good s → balanced m s → wp m (fun _ s' => good s') s.
Proof. intros G B. eapply wp_mono; [exact B|]. intros a s' S'. by eapply good_step. Qed.

(** A directory of the current file system keeps its file system. *)
Lemma cwd_fs s s' dr dn b : good s → repoint s s' (t_cwd s) b dr → wstep (world s) (world s') dr dn →
  ∀ v, t_cwd s = Some v → is_Some (vn_fs (world s') v).
Proof. intros G R B v Hv. destruct (ok_cwd _ _ G v Hv) as [f Hf]. exists f. by apply (ws_vnfs _ _ _ _ B). Qed.

Lemma clearcurdir_good s : good s → wp vfs_clearcurdir (fun _ s' => good s') s.
Proof.
  intros G. eapply wp_mono; [by apply clearcurdir_run|]. intros r s' [_ R]. eapply (good_repoint s s' _ _ _ G R); [done|].
  intros u. unfold held. cbn [oone]. lia.
Qed.

Lemma clearbootfs_good s : good s → wp vfs_clearbootfs (fun _ s' => good s') s.
Proof.
  intros G. eapply wp_mono; [apply (change_bootfs_run s none None); [|done]|].
  - eapply ok_ext; [exact G|]. intros u. cbn. cnt.
  - intros [] s' R. eapply (good_repoint s s' _ _ _ G R); [by eapply cwd_fs; [..|apply R]|]. intros u. unfold held. cbn [oone]. lia.
Qed.

Lemma unmountall_good s : good s → wp vfs_unmountall (fun _ s' => good s') s.
Proof. intros G. eapply wp_mono; [by apply unmountall_run|]. by intros r s' [_ [? _]]. Qed.

(** *** Calls that leave the table's memory alone *)
Definition still {A} (m : M (vfs W) A) : Prop :=
  ∀ s a s', m s = Ok (a, s') → kd_next s' = kd_next s ∧ dom (kds s') = dom (kds s).

Lemma still_bind {A B} (m : M (vfs W) A) (f : A → M (vfs W) B) : still m → (∀ a, still (f a)) → still (let* a := m in f a).
Proof.
  intros Hm Hf s b s' E. unfold mbind, M_bind in E. destruct (m s) as [[a s1]| | |] eqn:E1; try done.
  destruct (Hm _ _ _ E1), (Hf _ _ _ _ E). split; congruence.
Qed.

Lemma still_ret {A} (a : A) : still (mret a).
Proof. by intros s b s' [= _ <-]. Qed.

Lemma still_gets {A} (f : vfs W → A) : still (gets f).
Proof. by intros s b s' [= _ <-]. Qed.

Lemma still_lift {A} (o : outcome A) : still (lift o).
Proof. intros s b s'. unfold lift. destruct o; try done. by intros [= _ <-]. Qed.

Lemma still_massert b : still (massert b).
Proof. intros s a s'. unfold massert. destruct b; [|done]. by intros [= _ <-]. Qed.

Lemma still_panic {A} : still (panic : M (vfs W) A).
Proof. by intros s a s'. Qed.

Lemma still_down {A} (m : M W A) : still (down m).
Proof. intros s a s'. unfold down, zoom. destruct (m _) as [[b w]| | |]; try done. by intros [= _ <-]. Qed.

Lemma still_down_io {A} (m : M (W * ustate) A) : still (down_io m).
Proof. intros s a s'. unfold down_io, zoom. destruct (m _) as [[b w]| | |]; try done. by intros [= _ <-]. Qed.

Lemma still_move {A} (m : M ustate A) : still (move_user m).
Proof. intros s a s'. unfold move_user, zoom. destruct (m _) as [[b w]| | |]; try done. by intros [= _ <-]. Qed.

Lemma still_modify (f : vfs W → vfs W) : (∀ s, kd_next (f s) = kd_next s ∧ dom (kds (f s)) = dom (kds s)) → still (modify f).
Proof. intros Hf s a s' [= _ <-]. apply Hf. Qed.

Lemma still_setkd p f : still (setkd p f).
Proof. apply still_modify. intros s. split; [done|]. apply dom_alter_L. Qed.

Lemma still_getkd p : still (getkd p).
Proof. intros s a s'. unfold getkd. destruct (kds s !! p); [|done]. by intros [= _ <-]. Qed.

Ltac still :=
  repeat first
    [ solve [auto] | simple apply still_bind; [|intros ?] | apply still_ret | apply still_gets | apply still_lift | apply still_massert | apply still_panic
    | apply still_down_io | apply still_down | apply still_move | apply still_setkd | apply still_getkd
    | match goal with
      | |- still (modify _) => apply still_modify; intros ?; done
      | |- still (match ?x with _ => _ end) => destruct x
      end ].

Lemma still_kd_at i : still (knowndev_at i).
Proof. unfold knowndev_at. still. Qed.

Lemma still_same a b : still (same a b).
Proof. unfold same. still. Qed.

Lemma still_getroot n : still (vfs_getroot n).
Proof.
  pose proof still_kd_at. pose proof still_same. unfold vfs_getroot, numdevs. still. generalize 0 as i. induction (Z.to_nat a) as [|k IH]; intros i;
    cbn [getroot_loop]; unfold getroot_dev, getroot_fs, getroot_self, names_fs; still.
Qed.

Lemma still_getcurdir : still vfs_getcurdir.
Proof. unfold vfs_getcurdir. still. Qed.

Lemma still_getdevice p : still (getdevice p).
Proof. pose proof still_getroot. pose proof still_getcurdir. unfold getdevice. still. Qed.

Lemma still_lookparent p b n : still (vfs_lookparent p b n).
Proof. pose proof still_getdevice. unfold vfs_lookparent. still. Qed.

Lemma still_lookup p : still (vfs_lookup p).
Proof. pose proof still_getdevice. unfold vfs_lookup. still. Qed.

Lemma still_setcurdir v : still (vfs_setcurdir v).
Proof. unfold vfs_setcurdir. still. Qed.

Lemma still_chdir p : still (vfs_chdir p).
Proof. pose proof still_lookup. pose proof still_setcurdir. unfold vfs_chdir. still. Qed.

Lemma still_bootfs o : still (change_bootfs o).
Proof. unfold change_bootfs. still. Qed.

Lemma still_findmount n : still (findmount n).
Proof.
  pose proof still_kd_at. pose proof still_same. unfold findmount, numdevs. still. generalize 0 as i.
  induction (Z.to_nat a) as [|k IH]; intros i; cbn [findmount_loop]; still.
Qed.

Lemma still_devname f : still (vfs_getdevname f).
Proof.
  pose proof still_kd_at. unfold vfs_getdevname, numdevs. still. generalize 0 as i.
  induction (Z.to_nat a) as [|k IH]; intros i; cbn [getdevname_loop]; still.
Qed.

Lemma still_in_parent p m : still (in_parent p m).
Proof. pose proof still_lookparent. unfold in_parent. still. Qed.

(** Every call but those that add to the table. *)
Definition adds (c : call) : bool := match c with c_adddev _ _ _ | c_addfs _ _ _ => true | _ => false end.

Lemma exec_still c : adds c = false → still (exec c).
Proof.
  pose proof still_getroot. pose proof still_getcurdir. pose proof still_lookparent. pose proof still_lookup. pose proof still_setcurdir.
  pose proof still_chdir. pose proof still_bootfs. pose proof still_findmount. pose proof still_devname. pose proof still_in_parent. pose proof still_kd_at.
  intros Ha. destruct c; try done; cbn [exec];
    unfold vfs_open, open_vnode, open_finish, vfs_close, vfs_readlink, vfs_remove, vfs_rename, vfs_link, vfs_symlink, vfs_mkdir, vfs_rmdir, vfs_getcwd,
      getcwd_move, vfs_clearcurdir, vfs_setbootfs, vfs_clearbootfs, vfs_sync, vfs_mount, vfs_unmount, vfs_unmountall, numdevs; still.
  - generalize 0 as i. induction (Z.to_nat a) as [|k IH]; intros i; cbn [sync_loop]; still.
  - generalize 0 as i. induction (Z.to_nat a) as [|k IH]; intros i; cbn [unmountall_loop]; unfold unmount_dev; still.
Qed.

Lemma fresh_still {A} (m : M (vfs W) A) s (P : vfs W → Prop) :
  still m → fresh_kd s → wp m (fun _ s' => P s') s → wp m (fun _ s' => P s' ∧ fresh_kd s') s.
Proof.
  intros Hm Fr Hw. unfold wp in *. destruct (m s) as [[a s']| | |] eqn:E; try done. split; [done|].
  destruct (Hm _ _ _ E) as [Hn Hd]. intros q Hq%elem_of_dom. rewrite Hd in Hq. rewrite Hn. apply Fr. by apply elem_of_dom.
Qed.

(** *** The name of the current directory *)
Lemma getdevname_run s l f n i :
  table s l → (i + n = length l)%nat → (∃ p kd, p ∈ drop i l ∧ kds s !! p = Some kd ∧ kd_fs kd = Some f) →
  ∃ b, getdevname_loop n (Z.of_nat i) f s = Ok (Some b, s) ∧ string b.
Proof.
  intros T. revert i. induction n as [|n IH]; intros i Hl (p & kd & Hp & Hk & Hf); cbn [getdevname_loop].
  { rewrite drop_ge in Hp by lia. by apply not_elem_of_nil in Hp. }
  destruct (lookup_lt_is_Some_2 l i) as [q Hq]; [lia|]. destruct (table_lookup s l i q T Hq) as (kq & Hkq & K & E).
  rewrite (bind_ok _ _ _ _ _ E). cbv iota. case_bool_decide as Hb; [exists (kd_name kq); split; [done|apply K]|].
  replace (Z.of_nat i + 1) with (Z.of_nat (S i)) by lia. apply IH; [lia|]. exists p, kd. split; [|done].
  rewrite (drop_S_lookup _ _ _ Hq) in Hp. apply elem_of_cons in Hp as [->|Hp]; [congruence|done].
Qed.

Lemma getcwd_move_run s s1 v name u dr :
  stp s s1 dr none → 0 < refs (world s1) v → string name → fills u → wp (getcwd_move v name u) (fun _ s' => stp s s' dr none) s1.
Proof.
  intros S1 Hr [n Hn] (Hrw & dn & rest & K & Hres). unfold getcwd_move. rewrite wp_bind, wp_lift. eexists. split; [by apply Cstring.strlen_cstr|].
  assert (Z.of_nat (length n) ≤ Z.of_nat (length name)).
  { apply Cstring.cstr_spec in Hn as (r & -> & _). rewrite length_app. lia. }
  destruct (uiomove_fits u dn rest (user s1) name (Z.of_nat (length n)) K Hrw Hres) as (u1 & p1 & d1 & r1 & E1 & K1 & R1 & W1); [lia|].
  rewrite wp_bind. unfold wp at 1, move_user, zoom at 1. rewrite E1. cbn [Z.eqb negb].
  destruct (uiomove_fits u1 d1 r1 (user s1) [58] 1 K1 W1 R1) as (u2 & p2 & d2 & r2 & E2 & K2 & R2 & W2); [done|].
  rewrite wp_bind. unfold wp at 1, move_user, zoom at 1. cbn [user set_user]. rewrite E2. cbn [Z.eqb negb].
  eapply quiet_io_at; [by do 2 apply stp_user| |by intros r s' S'].
  eapply law_namefile; [apply S1|done|done|done].
Qed.

Lemma getcwd_run s u : good s → spare 16 (world s) → fills u → balanced (vfs_getcwd u) s.
Proof.
  intros G SP Hu. unfold balanced, vfs_getcwd. rewrite wp_bind, wp_massert. split; [by apply bool_decide_eq_true_2, Hu|].
  pose proof (stp_refl _ _ G) as S0. rewrite wp_bind. eapply (getcurdir_at s none G SP); [exact S0|by apply fine_none|by rewrite wp_ret|].
  intros v s1 Hv S1. destruct (ok_cwd _ _ G v Hv) as [f Hf]. apply (ws_vnfs _ _ _ _ (st_world _ _ _ _ S1)) in Hf as Hf1.
  destruct (refs_pos s none G _ _ _ v S1) as [Hr _]; [cnt|]. assert (mounted (world s1) f) as Hm by (eapply law_mounted; [apply S1|by left|done]).
  destruct (ok_table _ _ G) as (l & T & C). rewrite wp_bind, wp_gets, Hf1, wp_bind, wp_gets, wp_bind.
  assert (∀ b, string b → wp (let* r := getcwd_move v b u in let* _ := down (VOP_DECREF v) in mret r) (fun _ s' => stp s s' none none) s1) as Hend.
  { intros b Hb. rewrite wp_bind. eapply wp_mono; [by apply (getcwd_move_run s)|]. intros r s2 S2. rewrite wp_bind.
    eapply decref_at; [exact G|exact S2|cnt|]. intros s3 S3. rewrite wp_ret. eapply stp_ext; [exact S3| |]; cnt. }
  destruct (FSOP_GETVOLNAME (world s1) f) as [b|] eqn:Ev; [rewrite wp_ret; by eapply Hend, law_volname; [apply S1|..]|].
  destruct (getdevname_run s1 l f (length l) 0) as (b & E & Hb); [by eapply table_step|done|rewrite drop_0; by eapply covers_step|].
  unfold wp at 1, vfs_getdevname. rewrite (bind_ok _ _ _ _ _ (numdevs_run s1 l (table_step _ _ _ _ _ T S1))), Nat2Z.id.
  change (Z.of_nat 0) with 0 in E. rewrite E. by apply Hend.
Qed.

(** *** Adding to the table

    The VFS is sound but for a file system [o] that is not in the table [l] yet. *)
Record nearly s (l : list nat) (o : option nat) : Prop := {
  ny_inv : winv (world s);
  ny_table : table s l;
  ny_covers : ∀ f, mounted (world s) f → o = Some f ∨ ∃ p kd, p ∈ l ∧ kds s !! p = Some kd ∧ kd_fs kd = Some f;
  ny_new : ∀ f, o = Some f → mounted (world s) f ∧ ∀ p kd, p ∈ l → kds s !! p = Some kd → kd_fs kd ≠ Some f;
  ny_cwd : ∀ v, t_cwd s = Some v → is_Some (vn_fs (world s) v);
  ny_refs : ∀ v, opens (world s) v + held s v ≤ refs (world s) v;
  ny_fresh : fresh_kd s
}.

Lemma nearly_sound s : sound s ↔ ∃ l, nearly s l None.
Proof.
  split.
  - intros [[A1 (l & T & C) A3 A4] Fr]. exists l. constructor; try done; [intros f Hf; right; by apply C|].
    intros v. specialize (A4 v). unfold none in A4. lia.
  - intros [l [A1 T C _ A3 A4 Fr]]. split; [|done]. constructor; try done.
    + exists l. split; [done|]. intros f Hf. by destruct (C f Hf).
    + intros v. specialize (A4 v). unfold none. lia.
Qed.

Lemma kd_ok_world w w' kd :
  kd_ok w kd → (∀ v, pinned w v → pinned w' v) → (∀ f, kd_fs kd = Some f → mounted w f → mounted w' f) → kd_ok w' kd.
Proof. intros [A1 A2 A3 A4 A5] Hp Hm. constructor; auto. Qed.

(** The world changes under the table. *)
Lemma table_world s w l :
  table s l → (∀ v, pinned (world s) v → pinned w v) →
  (∀ f p kd, p ∈ l → kds s !! p = Some kd → kd_fs kd = Some f → mounted (world s) f → mounted w f) → table (set_world w s) l.
Proof.
  intros [T1 T2 T3 T4] Hp Hm. constructor; try done. intros p Hpl. destruct (T3 p Hpl) as (kd & E & K). exists kd. split; [done|].
  eapply kd_ok_world; [done|done|]. intros f. by apply (Hm f p kd).
Qed.

Lemma attach_nearly s l w f : nearly s l None → newfs (world s) w f → nearly (set_world w s) l (Some f).
Proof.
  intros [A1 T C _ A3 A4 Fr] (B1 & B2 & B3 & B4 & B5 & _ & B7). constructor; try done.
  - apply table_world; [done..|]. intros g p kd _ _ _ Hg. apply B5. by left.
  - intros g [Hg| ->]%B5; [|by left]. right. by destruct (C g Hg).
  - intros g [= <-]. split; [apply B5; by right|]. intros p kd Hp Hk Hf. destruct (tb_kd _ _ T p Hp) as (kd' & Hk' & K).
    assert (kd' = kd) as -> by (cbn in Hk; congruence). by apply B4, (ko_fs _ _ K).
  - intros v Hv. destruct (A3 v Hv) as [g Hg]. exists g. by apply B7.
  - intros v. cbn. destruct (B1 v) as [-> ->]. apply A4.
Qed.

Lemma detach_nearly s l w f : nearly s l (Some f) → gonefs (world s) w f → nearly (set_world w s) l None.
Proof.
  intros [A1 T C N A3 A4 Fr] (B1 & B2 & B3 & B4 & B5). constructor; try done.
  - apply table_world; [done..|]. intros g p kd Hp Hk Hf Hg. apply B4. split; [done|]. intros ->. by destruct (N f eq_refl) as [_ []%(fun h => h p kd Hp Hk)].
  - intros g [Hg Hne]%B4. destruct (C g Hg) as [|Hc]; [congruence|]. by right.
  - intros v Hv. destruct (A3 v Hv) as [g Hg]. exists g. by apply B5.
  - intros v. cbn. destruct (B1 v) as [-> ->]. apply A4.
Qed.

Lemma doadd_nearly s l n b dev o :
  nearly s l o → string n → Array.num (knowndevs s) < 2 ^ 29 - 2 → (dev = None → b = false ∧ o ≠ None) →
  (∀ d, dev = Some d → attached (world s) d) →
  wp (vfs_doadd n b dev o) (fun r s' =>
    wstep (world s) (world s') none none ∧ if decide (r = 0) then ∃ l', nearly s' l' None else nearly s' l o) s.
Proof.
  intros [A1 T C N A3 A4 Fr] Hn Hl Hdev Hatt. rewrite (Array.array_rep_len _ _ (tb_rep _ _ T)) in Hl.
  eapply wp_mono; [by apply (doadd_run s l)|]. intros r s' [X [B Hk Fr' Hb Hc]]. split; [done|].
  assert (∀ v, t_cwd s' = Some v → is_Some (vn_fs (world s') v)) as A3'.
  { rewrite Hc. intros v Hv. destruct (A3 v Hv) as [g Hg]. exists g. by apply (ws_vnfs _ _ _ _ B). }
  assert (∀ v, opens (world s') v + held s' v ≤ refs (world s') v) as A4'.
  { intros v. unfold held. rewrite Hb, Hc, (ws_refs _ _ _ _ B), (ws_opens _ _ _ _ B). specialize (A4 v). unfold held, none in *. lia. }
  assert (∀ p kd, p ∈ l → kds s !! p = Some kd → kds s' !! p = Some kd) as Hold by (intros; rewrite Hk; eauto).
  assert (∀ p kd, p ∈ l → kds s' !! p = Some kd → kds s !! p = Some kd) as Hold'.
  { intros p kd Hp. destruct (tb_kd _ _ T p Hp) as (kd' & E & _). rewrite Hk by eauto. done. }
  unfold extended in X. case_decide.
  - destruct X as (p & kd & Hp & Hkd & Hnew & T' & _). exists (l ++ [p]). constructor; try done; [apply B|].
    intros f Hf%(ws_mounted _ _ _ _ B). right. destruct (C f Hf) as [->|(q & kq & Hq & Ekq & Hfq)].
    + exists p, kd. split; [apply elem_of_app; right; by left|]. split; [done|apply Hnew].
    + exists q, kq. split; [apply elem_of_app; by left|]. split; [by apply Hold|done].
  - destruct X as [T' _]. constructor; try done; [apply B|..].
    + intros f Hf%(ws_mounted _ _ _ _ B). destruct (C f Hf) as [->|(q & kq & Hq & Ekq & Hfq)]; [by left|]. right. exists q, kq. auto.
    + intros f Ho. destruct (N f Ho) as [Hm Hno]. split; [by apply (ws_mounted _ _ _ _ B)|]. intros q kq Hq Hkq. by eapply Hno, Hold'.
Qed.

Lemma addfs_sound s n attach detach :
  sound s → args_ok (c_addfs n attach detach) s → wp (exec (c_addfs n attach detach)) (fun _ s' => sound s') s.
Proof.
  intros [l Ny]%nearly_sound (Hn & Hw & Hl). cbn [exec]. rewrite wp_bind. apply wp_down. eapply wp_mono; [apply Hw, Ny|].
  intros f w [New Hd]. rewrite wp_bind. unfold vfs_addfs.
  eapply wp_mono; [apply (doadd_nearly _ l); [by eapply attach_nearly|done|done|done|done]|].
  intros r s' [B X]. destruct (Z.eqb_spec r 0) as [->|Hr]; cbn [negb].
  - rewrite wp_ret. apply nearly_sound. by rewrite decide_True in X.
  - rewrite decide_False in X by done. apply wp_down. eapply wp_mono; [by apply Hd|]. intros [] w3 Hg. apply nearly_sound. exists l.
    by eapply detach_nearly.
Qed.

Lemma adddev_sound s n d b :
  sound s → args_ok (c_adddev n d b) s → wp (exec (c_adddev n d b)) (fun _ s' => sound s') s.
Proof.
  intros [l Ny]%nearly_sound (Hn & Ha & Hl). cbn [exec]. unfold vfs_adddev. rewrite wp_bind.
  eapply wp_mono; [apply (doadd_nearly _ l); [done|done|done|done|by intros ? [= <-]]|].
  intros r s' [_ X]. rewrite wp_ret. apply nearly_sound. case_decide; [done|by exists l].
Qed.

(** *** All calls *)
Lemma one_more_good {A} (p : A → nat) s r s' : good s → one_more s p none none r s' → good s'.
Proof.
  intros G R. destruct r as [e|a]; cbn in R; [destruct R; by eapply good_step|].
  eapply ok_ext; [exact (ok_step _ _ _ _ _ G R)|]. cnt.
Qed.

Lemma setcurdir_good s v : good s → spare 17 (world s) → 0 < refs (world s) v → wp (vfs_setcurdir v) (fun _ s' => good s') s.
Proof.
  intros G SP Hr. eapply wp_mono; [apply (setcurdir_run s none v G); [done|done|by eapply spare_le; [|exact SP]]|].
  intros r s' R. cbv beta in R. destruct (decide (r = 0)); [|by eapply good_step]. destruct R as [R Hf]. eapply (good_repoint s s' _ _ _ G R).
  - by intros w [= <-].
  - intros u. unfold held. cbn [oone]. lia.
Qed.

Lemma exec_good c s : good s → enabled c s → adds c = false → wp (exec c) (fun _ s' => good s') s.
Proof.
  intros G [Ha SP'] Hadd. assert (spare 16 (world s)) as SP by (by eapply spare_le; [|exact SP']).
  destruct c; try done; cbn [exec args_ok] in *; try (apply wp_unit).
  - eapply wp_mono; [by apply open_run|]. intros r s' R. by eapply good_opened.
  - eapply wp_mono; [by apply close_run|]. intros [] s' R. eapply ok_ext; [exact (ok_step _ _ _ _ _ G R)|]. cnt.
  - eapply wp_mono; [by apply lookup_run|]. intros r s' R. by eapply one_more_good.
  - eapply wp_mono; [apply (lookparent_at s none G SP); [by eapply stp_refl|by apply fine_none|done]|].
    intros [e|[v b]] s' R; cbn in R; [destruct R; by eapply good_step|]. destruct R as (_ & _ & R).
    eapply ok_ext; [exact (ok_step _ _ _ _ _ G R)|]. cnt.
  - destruct Ha as [Hp (Hrw & d & r & K & _)]. apply balanced_good; [done|]. by eapply readlink_run.
  - apply balanced_good; [done|]. apply in_parent_run; try done. intros. by apply law_remove.
  - apply balanced_good; [done|]. by apply rename_run; destruct Ha.
  - apply balanced_good; [done|]. by apply link_run; destruct Ha.
  - destruct Ha. apply balanced_good; [done|]. apply in_parent_run; try done. intros. by apply law_symlink.
  - apply balanced_good; [done|]. apply in_parent_run; try done. intros. by apply law_mkdir.
  - apply balanced_good; [done|]. apply in_parent_run; try done. intros. by apply law_rmdir.
  - eapply wp_mono; [by apply chdir_run|]. intros r s' R. cbv beta in R. destruct (decide (r = 0)); [|by eapply good_step].
    destruct R as (v & R & Hf). eapply (good_repoint s s' _ _ _ G R).
    + by intros w [= <-].
    + intros u. unfold held. cbn [oone]. lia.
  - by apply setcurdir_good.
  - eapply (getcurdir_at s none G SP); [by eapply stp_refl|by apply fine_none|done|]. intros v s' _ S'.
    eapply ok_ext; [exact (ok_step _ _ _ _ _ G S')|]. cnt.
  - apply balanced_good; [done|]. by apply getcwd_run.
  - by apply clearcurdir_good.
  - eapply wp_mono; [by apply setbootfs_run|]. intros r s' R. cbv beta in R. destruct (decide (r = 0)); [|by eapply good_step].
    destruct R as (v & R & Hf). eapply (good_repoint s s' _ _ _ G R).
    + by intros w [= <-].
    + intros u. cbn [oone]. lia.
  - by apply clearbootfs_good.
  - eapply wp_mono; [apply (getroot_at s none G SP); [by eapply stp_refl|by apply fine_none|done]|]. intros r s' R. by eapply one_more_good.
  - apply balanced_good; [done|]. by apply sync_run.
  - destruct Ha. eapply wp_mono; [by apply vfs_mount_run|]. by intros r s' [? _].
  - eapply wp_mono; [by apply unmount_run|]. by intros r s' [? _].
  - by apply unmountall_good.
Qed.

Lemma exec_sound c s : sound s → enabled c s → wp (exec c) (fun _ s' => sound s') s.
Proof.
  intros So [Ha SP]. destruct (adds c) eqn:E.
  - destruct c; try done; [by apply adddev_sound|by apply addfs_sound].
  - destruct So as [G Fr]. apply fresh_still; [by apply exec_still|done|]. by apply exec_good.
Qed.

Lemma calls_sound s s' : sound s → rtc step s s' → sound s'.
Proof.
  intros G Hr. induction Hr as [|s1 s2 s3 (c & He & E) _ IH]; [done|]. apply IH.
  pose proof (exec_sound c s1 G He) as Hw. unfold wp in Hw. by rewrite E in Hw.
Qed.

(** The changes of the reference and open counts. *)
Definition counts s s' (dr dn : nat → Z) : Prop :=
  ∀ u, refs (world s') u = refs (world s) u + dr u ∧ opens (world s') u = opens (world s) u + dn u.

Lemma stp_counts s s' dr dn : stp s s' dr dn → counts s s' dr dn.
Proof. intros [[A1 A2 A3 _ _ _ _ _] _ _ _ _] u. split; auto. Qed.

(** C23: The calls of the VFS can be made in any order: one that is [enabled] completes, so that no assertion of the VFS fails,
    no NULL pointer is followed, no vnode loses a reference that is still needed, and the VFS is sound again.  Enabled means that path names are
    strings, only open files are closed, only a referenced vnode becomes the current directory, [vfs_getcwd] and [vfs_readlink]
    write to kernel memory, a device to be added exists, and no count is within 17 of 2^30. *)
Theorem vfs_calls_safe s s' c :
  sound s → rtc step s s' → enabled c s' → ∃ s'', exec c s' = Ok (tt, s'') ∧ sound s''.
Proof. intros G Hr He. pose proof (exec_sound c s' (calls_sound _ _ G Hr) He) as (a & s'' & E & G')%wp_run. destruct a. eauto. Qed.

(** C26: [vfs_open] adds one reference and one open to the vnode it hands back and nothing else;
    when it fails, at whatever point, it leaves no reference and no open behind. *)
Theorem vfs_open_balanced s path flags :
  good s → spare 16 (world s) → string path →
  ∃ r s', vfs_open path flags s = Ok (r, s') ∧ good s' ∧
    match r with
    | inl e => e ≠ 0 ∧ counts s s' none none
    | inr v => counts s s' (one v) (one v)
    end.
Proof.
  intros G SP Hp. destruct (proj1 (wp_run _ _ _) (open_run s path flags G SP Hp)) as (r & s' & E & R). exists r, s'.
  split; [done|]. split; [by eapply good_opened|]. destruct r; cbn in R; [destruct R; split; [done|]|]; by apply stp_counts.
Qed.

(** Opening a file and closing it again leaves every count as it was. *)
Theorem vfs_open_close s path flags v s1 :
  good s → spare 16 (world s) → string path → vfs_open path flags s = Ok (inr v, s1) →
  ∃ s2, vfs_close v s1 = Ok (tt, s2) ∧ good s2 ∧ counts s s2 none none.
Proof.
  intros G SP Hp E. pose proof (open_run s path flags G SP Hp) as Hw. unfold wp in Hw. rewrite E in Hw.
  assert (good s1) as G1 by (by eapply good_opened). cbn in Hw.
  assert (0 < opens (world s1) v) as Ho.
  { rewrite (ws_opens _ _ _ _ (st_world _ _ _ _ Hw)). pose proof (law_opens (world s) v (ok_inv _ _ G)). cnt. }
  destruct (proj1 (wp_run _ _ _) (close_run s1 v G1 Ho)) as ([] & s2 & E2 & R). exists s2. split; [done|].
  pose proof (stp_trans _ _ _ _ _ _ _ Hw R) as S2. assert (stp s s2 none none) as S2' by (eapply stp_ext; [exact S2| |]; cnt).
  split; [exact (good_step _ _ G S2')|by apply stp_counts].
Qed.

(** C27: [getdevice] implements the grammar of path names: it starts at the named device, the boot file
    system, the root of the current file system or the current directory as [parse] says, and
    hands back the rest of the path. *)
Theorem getdevice_parses s path p :
  good s → Cstring.cstr path = Some p →
  ∃ sub, Cstring.cstr sub = Some (parse p).2 ∧ getdevice path s = with_sub sub (start (parse p).1) s.
Proof. apply getdevice_run. Qed.

(** [vfs_setbootfs] refuses every name with a colon, also one that ends in it. *)
Theorem vfs_setbootfs_refuses_colon s b n :
  Cstring.cstr b = Some (n ++ [58]) → (length n < 254)%nat → vfs_setbootfs b s = Ok (EINVAL, s).
Proof.
  intros Hb Hl. eapply setbootfs_colon; [done|]. rewrite take_ge by (rewrite length_app; cbn; lia). apply elem_of_app. right. left.
Qed.
End calls.

End Vfsspec.
