(* ===== verification/Device.v ===== *)
(** * Devices as files (kern/fs/vfs/device.c, kern/fs/vfs/devnull.c, vnode.c for their vnodes)

    [devw] is the state below the VFS of a kernel whose only named objects are devices: the
    [struct device]s with their function pointers, and the vnodes [dev_create_vnode] has
    made for them.  Its function table [dev_vnode_ops] is an instance of the interface of
    Vfs.v, and it keeps the promises of Vfssafe.v, so that the theorems of Vfsspec.v hold for this
    kernel from [vfs_bootstrap] on. *)
From stdpp Require Import base list gmap numbers relations.
From S2P Require Import Prelude Array Copyinout Uio Cstring Vfs Vfssafe Vfspaths Vfsops Vfsmount Vfsspec.
Local Open Scope Z_scope.

Module Device.
Import Uio Vfs Vfssafe.

(** [struct device] (dev.h): the function pointers are functions. *)
Record device := mkdevice {
  d_open : Z → Z;
  d_close : Z;
  d_io : uio → M ustate (Z * uio);
  d_ioctl : Z → Z;
  d_blocks : Z;
  d_blocksize : Z
}.

Record dvnode := mkdvnode {
  vn_refcount : Z;
  vn_opencount : Z;
  vn_data : option nat
}.

Record devw := mkdevw {
  vnodes : gmap nat dvnode;
  vnext : nat;
  devices : gmap nat device;
  dnext : nat;
  dmem : list bool
}.

Abbreviation D := (M devw).

Definition set_vnodes (x : gmap nat dvnode) (n : nat) (w : devw) : devw :=
  mkdevw x n (devices w) (dnext w) (dmem w).
Definition set_dmem (x : list bool) (w : devw) : devw :=
  mkdevw (vnodes w) (vnext w) (devices w) (dnext w) x.

Definition dmalloc_ok : D bool := fun w => Ok (default true (head (dmem w)), set_dmem (tail (dmem w)) w).

Definition getvn (v : nat) : D dvnode := fun w =>
  match vnodes w !! v with
  | Some vn => Ok (vn, w)
  | None => Undef
  end.

Definition setvn (v : nat) (vn : dvnode) : D unit :=
  modify (fun w => set_vnodes (<[v := vn]> (vnodes w)) (vnext w) w).

(** [v->vn_data]; using a device through a NULL pointer is undefined. *)
Definition getdev (v : nat) : D device :=
  let* vn := getvn v in
  let* ds := gets devices in
  lift (of_option (vn_data vn ≫= fun d => ds !! d)).

(** ** Vnodes (vnode.c) *)
Definition vnode_check (v : nat) : D unit :=
  let* vn := getvn v in
  if vn_refcount vn <? 0 then panic
  else if vn_refcount vn =? 0 then panic
  else if vn_opencount vn <? 0 then panic
  else mret tt.

Definition vnode_incref (v : nat) : D unit :=
  let* vn := getvn v in
  setvn v (mkdvnode (i32 (vn_refcount vn + 1)) (vn_opencount vn) (vn_data vn)).

Definition vnode_incopen (v : nat) : D unit :=
  let* vn := getvn v in
  setvn v (mkdvnode (vn_refcount vn) (i32 (vn_opencount vn + 1)) (vn_data vn)).

(** ** The operations of device vnodes (device.c) *)
Definition dev_open (v : nat) (flags : Z) : D Z :=
  let* d := getdev v in
  if flag flags (4 + 16 + 8 + 32) then mret EINVAL else mret (d_open d flags).

Definition dev_close (v : nat) : D Z :=
  let* d := getdev v in mret (d_close d).

Definition dev_reclaim (v : nat) : D Z := mret 0.

Definition dev_io (rw : uio_rw_t) (v : nat) (u : uio) : M (devw * ustate) (Z * uio) :=
  let* d := zoom fst (fun w x => (w, x.2)) (getdev v) in
  let* _ := massert (bool_decide (uio_rw u = rw)) in
  zoom snd (fun us x => (x.1, us)) (d_io d u).

Definition dev_read : nat → uio → M (devw * ustate) (Z * uio) := dev_io UIO_READ.
Definition dev_write : nat → uio → M (devw * ustate) (Z * uio) := dev_io UIO_WRITE.

Definition null_io (v : nat) (u : uio) : M (devw * ustate) (Z * uio) := mret (EINVAL, u).

Definition dev_ioctl (v : nat) (op : Z) : D Z :=
  let* d := getdev v in mret (d_ioctl d op).

Definition S_IFCHR : Z := 16384.
Definition S_IFBLK : Z := 20480.

Definition dev_gettype (v : nat) : D Z :=
  let* d := getdev v in
  mret (if d_blocks d >? 0 then S_IFBLK else S_IFCHR).

Record stat := mkstat { st_mode : Z; st_nlink : Z; st_blocks : Z; st_size : Z }.

Definition dev_stat (v : nat) : D stat :=
  let* d := getdev v in
  let* _ := vnode_check v in
  let* mode := dev_gettype v in
  mret (mkstat mode 1 (d_blocks d)
          (if d_blocks d >? 0 then i32 (u32 (d_blocks d * d_blocksize d)) else 0)).

(** [pos] is a signed [off_t]; against the unsigned block size it is converted. *)
Definition dev_tryseek (v : nat) (pos : Z) : D Z :=
  let* d := getdev v in
  if d_blocks d >? 0 then
    if d_blocksize d =? 0 then lift Undef
    else if negb (u32 pos `mod` d_blocksize d =? 0) then mret EINVAL
    else if pos <? 0 then mret EINVAL
    else if u32 pos `div` d_blocksize d >=? d_blocks d then mret EINVAL
    else mret 0
  else mret ESPIPE.

Definition null_fsync (v : nat) : D Z := mret 0.

Definition dev_mmap (v : nat) : D Z := mret EUNIMP.

Definition dev_truncate (v : nat) (len : Z) : D Z :=
  let* d := getdev v in
  mret (if (d_blocks d >? 0) && (i32 (u32 (d_blocks d * d_blocksize d)) =? len) then 0 else EINVAL).

Definition dev_namefile (v : nat) (u : uio) : M (devw * ustate) (Z * uio) := mret (0, u).

Definition null_creat (v : nat) (name : list Z) (excl : bool) : D (Z + nat) := mret (inl ENOTDIR).
Definition null_symlink (v : nat) (name contents : list Z) : D Z := mret ENOTDIR.
Definition null_nameop (v : nat) (name : list Z) : D Z := mret ENOTDIR.
Definition null_link (v : nat) (name : list Z) (file : nat) : D Z := mret ENOTDIR.
Definition null_rename (v : nat) (n1 : list Z) (v2 : nat) (n2 : list Z) : D Z := mret ENOTDIR.

Definition dev_lookup (dir : nat) (pathname : list Z) : D (Z + nat) :=
  let* n := lift (Cstring.strlen pathname) in
  if n >? 0 then mret (inl ENOENT)
  else
    let* _ := vnode_incref dir in
    mret (inr dir).

Definition dev_lookparent (dir : nat) (pathname namebuf : list Z) (buflen : Z) : D (Z + nat * list Z) :=
  mret (inl ENOTDIR).

(** [kmalloc] of the vnode, and the lock of [vnode_init], whose failure is a panic. *)
Definition dev_create_vnode (dev : option nat) : D (option nat) :=
  let* ok := dmalloc_ok in
  if negb (ok : bool) then mret None
  else
    let* ok1 := dmalloc_ok in
    let* ok2 := (if (ok1 : bool) then dmalloc_ok else mret false) in
    if negb (ok2 : bool) then panic
    else fun w => Ok (Some (vnext w), set_vnodes (<[vnext w := mkdvnode 1 0 dev]> (vnodes w)) (S (vnext w)) w).

(** [vnode_decref] and [vnode_decopen], with the operations of this table. *)
Definition vnode_decref (v : nat) : D unit :=
  let* vn := getvn v in
  let* _ := massert (vn_refcount vn >? 0) in
  if vn_refcount vn >? 1 then setvn v (mkdvnode (vn_refcount vn - 1) (vn_opencount vn) (vn_data vn))
  else
    let* _ := vnode_check v in
    let* _ := dev_reclaim v in
    mret tt.

Definition vnode_decopen (v : nat) : D unit :=
  let* vn := getvn v in
  let* _ := massert (vn_opencount vn >? 0) in
  let* _ := setvn v (mkdvnode (vn_refcount vn) (vn_opencount vn - 1) (vn_data vn)) in
  if vn_opencount vn - 1 >? 0 then mret tt
  else
    let* _ := vnode_check v in
    let* _ := dev_close v in
    mret tt.

(** [__VOP]: check the vnode, then call through the table. *)
Definition VOP {A} (v : nat) (m : D A) : D A := let* _ := vnode_check v in m.

Definition VOP_io {A} (v : nat) (m : M (devw * ustate) A) : M (devw * ustate) A :=
  let* _ := zoom fst (fun w x => (w, x.2)) (vnode_check v) in m.

#[global] Instance dev_vnode_ops : Vnodes devw := {
  VOP_INCREF := vnode_incref;
  VOP_DECREF := vnode_decref;
  VOP_INCOPEN := vnode_incopen;
  VOP_DECOPEN := vnode_decopen;
  VOP_OPEN v flags := VOP v (dev_open v flags);
  VOP_TRUNCATE v len := VOP v (dev_truncate v len);
  VOP_GETTYPE v := VOP v (let* t := dev_gettype v in mret (inr t));
  VOP_CREAT v name excl := VOP v (null_creat v name excl);
  VOP_SYMLINK v name contents := VOP v (null_symlink v name contents);
  VOP_MKDIR v name := VOP v (null_nameop v name);
  VOP_RMDIR v name := VOP v (null_nameop v name);
  VOP_REMOVE v name := VOP v (null_nameop v name);
  VOP_LINK v name file := VOP v (null_link v name file);
  VOP_RENAME v n1 v2 n2 := VOP v (null_rename v n1 v2 n2);
  VOP_LOOKUP v name := VOP v (dev_lookup v name);
  VOP_LOOKPARENT v name buf len := VOP v (dev_lookparent v name buf len);
  VOP_READLINK v u := VOP_io v (null_io v u);
  VOP_NAMEFILE v u := VOP_io v (dev_namefile v u);
  vn_fs _ _ := None;
  FSOP_SYNC _ := lift Undef;
  FSOP_UNMOUNT _ := lift Undef;
  FSOP_GETROOT _ := lift Undef;
  FSOP_GETVOLNAME _ _ := None;
  Vfs.dev_create_vnode := dev_create_vnode
}.

(** ** The null device (devnull.c) *)
Definition nullopen (openflags : Z) : Z := 0.
Definition nullclose : Z := 0.

Definition nullio (u : uio) : M ustate (Z * uio) :=
  mret (0, if bool_decide (uio_rw u = UIO_WRITE)
           then mkuio (iov_un u) (iov_len u) (uio_offset u) 0 (uio_segflg u) (uio_rw u) (uio_space u) else u).

Definition nullioctl (op : Z) : Z := EINVAL.

Definition null_device : device := mkdevice nullopen nullclose nullio nullioctl 0 1.

Definition null_str : list Z := [110; 117; 108; 108; 0].   (* "null" *)

Definition new_device (d : device) : D nat := fun w =>
  Ok (dnext w, mkdevw (vnodes w) (vnext w) (<[dnext w := d]> (devices w)) (S (dnext w)) (dmem w)).

Definition devnull_create : M (vfs devw) unit :=
  let* ok := kmalloc_ok in
  if negb (ok : bool) then panic
  else
    let* dev := down (new_device null_device) in
    let* result := vfs_adddev null_str dev false in
    if negb (result =? 0) then panic else mret tt.

(** [lock_create] allocates the structure and its name. *)
Definition lock_create_ok : M (vfs devw) bool :=
  let* ok := kmalloc_ok in
  if (ok : bool) then kmalloc_ok else mret false.

Definition vfs_initbootfs : M (vfs devw) unit :=
  let* ok := lock_create_ok in
  massert ok.

Definition vfs_bootstrap : M (vfs devw) unit :=
  let* ok := kmalloc_ok in
  match Array.array_create ok with
  | None => panic
  | Some a =>
      let* _ := modify (set_knowndevs a) in
      let* ok := lock_create_ok in
      let* _ := massert ok in
      let* _ := vfs_initbootfs in
      devnull_create
  end.

End Device.
