(* ===== verification/Devicespec.v ===== *)
(** * The vnodes of devices keep the promises of the VFS

    [device_laws] discharges the interface of Vfssafe.v for Device.v.  With it the theorems of
    Vfsspec.v apply to the kernel that [vfs_bootstrap] sets up, as the witnesses at the end
    show. *)
From stdpp Require Import base list gmap numbers relations.
From S2P Require Import Prelude Array Copyinout Uio Cstring Vfs Vfssafe Fileio Vfspaths Vfsops Vfsmount Vfsspec Device.
Local Open Scope Z_scope.

Module Devicespec.
Import Copyinout Uio Vfs Vfssafe Fileio Vfspaths Vfsops Vfsmount Vfsspec Device.

(** A device vnode keeps one reference of its own: devices are permanent. *)
Record vn_ok (w : devw) (vn : dvnode) : Prop := {
  vo_ref : 1 ≤ vn_refcount vn;
  vo_open : 0 ≤ vn_opencount vn;
  vo_dev : match vn_data vn with Some d => is_Some (devices w !! d) | None => vn_refcount vn = 1 end
}.

(** Transfers in one direction end. *)
Definition transfers (rw : uio_rw_t) (d : device) : Prop :=
  ∀ u us, uio_rw u = rw → io_ready u us → wp (d_io d u) (fun r us' => io_done u us r.2 us') us.

(** A driver that can be written to, and whose blocks have a size.  Nothing is asked of its reads: the console's stop when they
    are made with interrupts off. *)
Record driver_ok (d : device) : Prop := {
  do_io : transfers UIO_WRITE d;
  do_size : 0 < d_blocks d → d_blocksize d ≠ 0
}.

#[global] Instance device_view : VnodeView devw := {
  refs w v := match vnodes w !! v with Some vn => vn_refcount vn - 1 | None => 0 end;
  opens w v := match vnodes w !! v with Some vn => vn_opencount vn | None => 0 end;
  pinned w v := ∃ vn, vnodes w !! v = Some vn ∧ vn_data vn ≠ None;
  mounted _ _ := False;
  attached w d := is_Some (devices w !! d);
  isdir _ _ := False;
  winv w := (dmem w = [] ∧ ∀ d dv, devices w !! d = Some dv → driver_ok dv) ∧
            (∀ v vn, vnodes w !! v = Some vn → (v < vnext w)%nat ∧ vn_ok w vn)
}.

(** A live vnode: it is there and its device is. *)
Lemma live_vnode (w : devw) v :
  winv w → live w v →
  ∃ vn d, vnodes w !! v = Some vn ∧ vn_ok w vn ∧ vn_data vn ≠ None ∧ getdev v w = Ok (d, w) ∧ driver_ok d.
Proof.
  intros [[_ Hdr] Hw] Hl. assert (∃ vn, vnodes w !! v = Some vn ∧ vn_data vn ≠ None) as (vn & E & Hd).
  { destruct Hl as [Hr|Hp]; [|done]. cbn in Hr. destruct (vnodes w !! v) as [vn|] eqn:E; [|lia]. exists vn. split; [done|].
    destruct (Hw v vn E) as [_ [_ _ Ho]]. destruct (vn_data vn); [done|lia]. }
  destruct (Hw v vn E) as [_ Ho]. destruct (vn_data vn) as [d|] eqn:Ed; [|done].
  pose proof (vo_dev _ _ Ho) as Hdev. rewrite Ed in Hdev. destruct Hdev as [dv Hdv]. exists vn, dv. split_and!; try done; [by rewrite Ed| |by eapply Hdr].
  unfold getdev. erewrite bind_ok; [|unfold getvn; rewrite E; reflexivity]. erewrite bind_ok; [|reflexivity].
  unfold lift. rewrite Ed. cbn [mbind option_bind]. by rewrite Hdv.
Qed.

Lemma check_run (w : devw) v : winv w → live w v → vnode_check v w = Ok (tt, w).
Proof.
  intros Hw Hl. destruct (live_vnode w v Hw Hl) as (vn & d & E & [H1 H2 _] & _).
  unfold vnode_check. erewrite bind_ok; [|unfold getvn; rewrite E; reflexivity].
  rewrite (proj2 (Z.ltb_ge _ 0)), (proj2 (Z.eqb_neq _ 0)), (proj2 (Z.ltb_ge _ 0)) by lia. done.
Qed.

(** Storing new counts. *)
Lemma wstep_counts (w : devw) v vn r o :
  winv w → vnodes w !! v = Some vn → vn_data vn ≠ None → 1 ≤ r → 0 ≤ o →
  wstep w (set_vnodes (<[v := mkdvnode r o (vn_data vn)]> (vnodes w)) (vnext w) w)
    (fun u => if decide (u = v) then r - vn_refcount vn else 0) (fun u => if decide (u = v) then o - vn_opencount vn else 0).
Proof.
  intros [Hm Hw] E Hd Hr Ho. constructor; cbn; try done.
  - split; [done|]. intros u un. destruct (decide (u = v)) as [->|Hne].
    + rewrite lookup_insert_eq. intros [= <-]. destruct (Hw v vn E) as [? [_ _ Hv]]. split; [done|]. constructor; cbn; try done.
      by destruct (vn_data vn).
    + rewrite lookup_insert_ne by done. intros Eu. destruct (Hw u un Eu) as [? []]. by split.
  - intros u. destruct (decide (u = v)) as [->|Hne]; [rewrite lookup_insert_eq, E; cbn; lia|]. rewrite lookup_insert_ne by done. lia.
  - intros u. destruct (decide (u = v)) as [->|Hne]; [rewrite lookup_insert_eq, E; cbn; lia|]. rewrite lookup_insert_ne by done. lia.
  - intros u (un & Eu & Hu). destruct (decide (u = v)) as [->|Hne].
    + eexists. rewrite lookup_insert_eq. split; [done|]. cbn. congruence.
    + exists un. by rewrite lookup_insert_ne by done.
Qed.

Lemma wstep_ext (w w' : devw) dr dn dr' dn' :
  wstep w w' dr dn → (∀ u, dr u = dr' u) → (∀ u, dn u = dn' u) → wstep w w' dr' dn'.
Proof. intros [A1 A2 A3 A4 A5 A6 A7 A8] Er En. constructor; try done; intros u; [by rewrite A2, Er|by rewrite A3, En]. Qed.

Ltac one_eq := intros u; unfold one, none; repeat case_decide; simplify_eq; lia.

Lemma incref_run (w : devw) v :
  winv w → live w v → spare 1 w → wp (vnode_incref v) (fun _ w' => wstep w w' (one v) none) w.
Proof.
  intros Hw Hl SP. destruct (live_vnode w v Hw Hl) as (vn & d & E & [H1 H2 _] & Hd & _). unfold vnode_incref. rewrite wp_bind.
  unfold wp at 1, getvn. rewrite E. unfold wp, setvn, modify. destruct (SP v) as [S1 S2]. cbn in S1, S2. rewrite E in S1, S2.
  rewrite i32_small by lia. eapply wstep_ext; [by apply (wstep_counts w v vn); [..|lia|lia]|one_eq|one_eq].
Qed.

Lemma quiet_check {A} (w : devw) v (m : D A) : winv w → 0 < refs w v → quiet m w → quiet (VOP v m) w.
Proof. intros Hw Hr Hq. unfold quiet, VOP. rewrite wp_bind. unfold wp at 1. rewrite check_run; [exact Hq|done|by left]. Qed.

Lemma quiet_ret {A} (w : devw) (a : A) : winv w → quiet (mret a) w.
Proof. intros Hw. unfold quiet. rewrite wp_ret. by apply wstep_refl. Qed.

Lemma quiet_dev {A} (w : devw) v (f : device → A) : winv w → 0 < refs w v → quiet (let* d := getdev v in mret (f d)) w.
Proof.
  intros Hw Hr. destruct (live_vnode w v Hw ltac:(by left)) as (vn & d & _ & _ & _ & E & _). unfold quiet. rewrite wp_bind. unfold wp at 1.
  rewrite E, wp_ret. by apply wstep_refl.
Qed.

Lemma decref_run (w : devw) v :
  winv w → 0 < refs w v → wp (vnode_decref v) (fun _ w' => wstep w w' (fun u => - one v u) none) w.
Proof.
  intros Hw Hr. destruct (live_vnode w v Hw ltac:(by left)) as (vn & d & E & [H1 H2 _] & Hd & _). cbn in Hr. rewrite E in Hr.
  unfold vnode_decref. rewrite wp_bind. unfold wp at 1, getvn. rewrite E. rewrite wp_bind, wp_massert.
  rewrite !(proj2 (Z.gtb_lt _ _)) by lia. split; [done|]. unfold wp, setvn, modify.
  eapply wstep_ext; [by apply (wstep_counts w v vn); [..|lia|lia]|one_eq|one_eq].
Qed.

Lemma incopen_run (w : devw) v :
  winv w → 0 < refs w v → spare 1 w → wp (vnode_incopen v) (fun _ w' => wstep w w' none (one v)) w.
Proof.
  intros Hw Hr SP. destruct (live_vnode w v Hw ltac:(by left)) as (vn & d & E & [H1 H2 _] & Hd & _). unfold vnode_incopen. rewrite wp_bind.
  unfold wp at 1, getvn. rewrite E. unfold wp, setvn, modify. destruct (SP v) as [S1 S2]. cbn in S1, S2. rewrite E in S1, S2.
  rewrite i32_small by lia. eapply wstep_ext; [by apply (wstep_counts w v vn); [..|lia|lia]|one_eq|one_eq].
Qed.

Lemma decopen_run (w : devw) v :
  winv w → 0 < refs w v → 0 < opens w v → wp (vnode_decopen v) (fun _ w' => wstep w w' none (fun u => - one v u)) w.
Proof.
  intros Hw Hr Ho. destruct (live_vnode w v Hw ltac:(by left)) as (vn & d & E & [H1 H2 _] & Hd & _). cbn in Ho. rewrite E in Ho.
  unfold vnode_decopen. rewrite wp_bind. unfold wp at 1, getvn. rewrite E. rewrite wp_bind, wp_massert.
  rewrite (proj2 (Z.gtb_lt (vn_opencount vn) 0)) by lia. split; [done|]. rewrite wp_bind. unfold wp at 1, setvn, modify.
  set (w1 := set_vnodes _ _ w). assert (wstep w w1 none (fun u => - one v u)) as B.
  { eapply wstep_ext; [apply (wstep_counts w v vn); [done..|lia|lia]|one_eq|one_eq]. }
  case_if; [by rewrite wp_ret|]. assert (0 < refs w1 v) as Hr1 by (rewrite (ws_refs _ _ _ _ B); unfold none; lia).
  rewrite wp_bind. unfold wp at 1. rewrite check_run by first [apply B|by left]. unfold dev_close. rewrite !wp_bind. unfold wp at 1.
  destruct (live_vnode w1 v (ws_inv _ _ _ _ B) ltac:(by left)) as (vn1 & d1 & _ & _ & _ & -> & _). by rewrite !wp_ret.
Qed.

Lemma dev_create_run (w : devw) dev :
  winv w → (∀ d, dev = Some d → attached w d) →
  wp (Device.dev_create_vnode dev) (fun r w' => wstep w w' none none ∧
    match r with Some v => dev ≠ None → pinned w' v | None => True end) w.
Proof.
  intros [[Hm Hdr] Hw] Hdev. unfold Device.dev_create_vnode. unfold dmalloc_ok. rewrite wp_bind. unfold wp at 1. rewrite Hm. cbn [head default id tail negb].
  rewrite wp_bind. unfold wp at 1. cbn [dmem set_dmem head default id tail]. rewrite wp_bind. unfold wp at 1.
  cbn [dmem set_dmem head default id tail negb]. unfold wp. cbn [vnext set_dmem vnodes set_vnodes].
  assert (vnodes w !! vnext w = None) as Hn.
  { destruct (vnodes w !! vnext w) as [vn|] eqn:E; [|done]. destruct (Hw _ _ E). lia. }
  split.
  - constructor; cbn; try done.
    + split; [done|]. intros u un. destruct (decide (u = vnext w)) as [->|Hne].
      * rewrite lookup_insert_eq. intros [= <-]. split; [lia|]. constructor; cbn; try lia. destruct dev; [by apply Hdev|done].
      * rewrite lookup_insert_ne by done. intros Eu. destruct (Hw u un Eu) as [? []]. split; [lia|done].
    + intros u. unfold none. destruct (decide (u = vnext w)) as [->|Hne]; [rewrite lookup_insert_eq, Hn; cbn; lia|]. rewrite lookup_insert_ne by done. lia.
    + intros u. unfold none. destruct (decide (u = vnext w)) as [->|Hne]; [rewrite lookup_insert_eq, Hn; cbn; lia|]. rewrite lookup_insert_ne by done. lia.
    + intros u (un & Eu & Hu). exists un. rewrite lookup_insert_ne by congruence. done.
  - intros Hd. exists (mkdvnode 1 0 dev). cbn. by rewrite lookup_insert_eq.
Qed.

#[global] Instance device_laws : VnodeLaws devw.
Proof.
  constructor.
  - intros w v [_ Hw]. cbn. destruct (vnodes w !! v) as [vn|] eqn:E; [|lia]. by destruct (Hw v vn E) as [_ []].
  - done.
  - done.
  - apply incref_run.
  - intros w v Hw Hr _. by apply decref_run.
  - apply incopen_run.
  - apply decopen_run.
  - intros w v f Hw Hr. apply quiet_check; [done..|]. unfold dev_open. destruct (live_vnode w v Hw ltac:(by left)) as (vn & d & _ & _ & _ & E & _).
    unfold quiet. rewrite wp_bind. unfold wp at 1. rewrite E. case_if; rewrite wp_ret; by apply wstep_refl.
  - intros w v n Hw Hr. apply quiet_check; [done..|]. by apply quiet_dev.
  - intros w v Hw Hr. unfold VOP_GETTYPE; cbn [dev_vnode_ops]. unfold VOP. rewrite wp_bind. unfold wp at 1. rewrite check_run by (done || by left).
    unfold dev_gettype. destruct (live_vnode w v Hw ltac:(by left)) as (vn & d & _ & _ & _ & E & _). rewrite !wp_bind. unfold wp at 1. rewrite E.
    rewrite !wp_ret. split; [by apply wstep_refl|]. by case_if.
  - intros w v n x Hw Hr SP Hn. unfold gives. cbn. unfold VOP. rewrite wp_bind. unfold wp at 1. rewrite check_run by (done || by left).
    unfold null_creat. rewrite wp_ret. split; [done|by apply wstep_refl].
  - intros. apply quiet_check; [done..|]. by apply quiet_ret.
  - intros. apply quiet_check; [done..|]. by apply quiet_ret.
  - intros. apply quiet_check; [done..|]. by apply quiet_ret.
  - intros. apply quiet_check; [done..|]. by apply quiet_ret.
  - intros w v n u Hw Hr Hr' Hn [f [=]].
  - intros w v n u m Hw Hr Hr' [].
  - intros w v n Hw Hr SP Hn. unfold gives. cbn. unfold VOP. rewrite wp_bind. unfold wp at 1. rewrite check_run by (done || by left).
    unfold dev_lookup. destruct (string_strlen n Hn) as (l & _ & El). rewrite wp_bind, wp_lift. eexists. split; [done|]. case_if.
    + rewrite wp_ret. split; [done|by apply wstep_refl].
    + rewrite wp_bind. eapply wp_mono; [by apply incref_run; [|left|]|]. intros [] w' B. by rewrite wp_ret.
  - intros w v n buf Hw Hr SP Hn. cbn. unfold VOP. rewrite wp_bind. unfold wp at 1. rewrite check_run by (done || by left).
    unfold dev_lookparent. rewrite wp_ret. split; [done|by apply wstep_refl].
  - intros w v u us Hw Hr done rest _ _. cbn. unfold VOP_io. rewrite wp_bind. unfold wp at 1, zoom. cbn [fst]. rewrite check_run by (done || by left).
    unfold null_io. rewrite wp_ret. by apply wstep_refl.
  - intros w v u us Hw Hr done rest _ _. cbn. unfold VOP_io. rewrite wp_bind. unfold wp at 1, zoom. cbn [fst]. rewrite check_run by (done || by left).
    unfold dev_namefile. rewrite wp_ret. by apply wstep_refl.
  - apply dev_create_run.
  - done.
  - done.
  - done.
Qed.

(** ** Reading, writing and seeking *)
#[global] Instance dev_files : Files devw := {
  VOP_READ v u := VOP_io v (dev_read v u);
  VOP_WRITE v u := VOP_io v (dev_write v u);
  VOP_TRYSEEK v pos := VOP v (dev_tryseek v pos);
  vn_device w v :=
    match vnodes w !! v with
    | Some vn => (fun d => (d_blocks d, d_blocksize d)) <$> (vn_data vn ≫= fun d => devices w !! d)
    | None => None
    end
}.

Lemma dev_io_run rw (w : devw) v u us :
  winv w → 0 < refs w v → (∀ d, getdev v w = Ok (d, w) → driver_ok d → transfers rw d) → uio_rw u = rw → io_ready u us →
  wp (VOP_io v (dev_io rw v u)) (fun r x => wstep w x.1 none none ∧ io_done u us r.2 x.2) (w, us).
Proof.
  intros Hw Hr Hio Hrw R. destruct (live_vnode w v Hw ltac:(by left)) as (vn & d & _ & _ & _ & E & Hdr). specialize (Hio d E Hdr).
  unfold VOP_io. rewrite wp_bind. unfold wp at 1, zoom. cbn [fst]. rewrite check_run by (done || by left). cbn [snd].
  unfold dev_io. rewrite wp_bind. unfold wp at 1, zoom. cbn [fst snd]. rewrite E. rewrite wp_bind, wp_massert, bool_decide_true by done.
  split; [done|]. specialize (Hio u us Hrw R). unfold wp, zoom in *. cbn [fst snd].
  destruct (d_io d u us) as [[r us']| | |]; try done. cbn. split; [by apply wstep_refl|done].
Qed.

(** A device whose reads end with interrupts off as well. *)
Definition polled_reads (w : devw) (v : nat) : Prop := ∀ d, getdev v w = Ok (d, w) → transfers UIO_READ d.

Lemma dev_read_run (w : devw) v u us :
  winv w → 0 < refs w v → polled_reads w v → uio_rw u = UIO_READ → io_ready u us →
  wp (VOP_READ v u) (fun r x => wstep w x.1 none none ∧ io_done u us r.2 x.2) (w, us).
Proof. intros Hw Hr Hq. apply dev_io_run; [done..|]. intros d E _. by apply Hq. Qed.

Lemma dev_write_run (w : devw) v u us :
  winv w → 0 < refs w v → uio_rw u = UIO_WRITE → io_ready u us →
  wp (VOP_WRITE v u) (fun r x => wstep w x.1 none none ∧ io_done u us r.2 x.2) (w, us).
Proof. intros Hw Hr. apply dev_io_run; [done..|]. by intros d _ [Hio _]. Qed.

Lemma dev_tryseek_run (w : devw) v pos : winv w → 0 < refs w v → quiet (VOP_TRYSEEK v pos) w.
Proof.
  intros Hw Hr. apply quiet_check; [done..|]. destruct (live_vnode w v Hw ltac:(by left)) as (vn & d & _ & _ & _ & E & [_ Hd]).
  unfold quiet, dev_tryseek. rewrite wp_bind. unfold wp at 1. rewrite E. destruct (Z.gtb_spec (d_blocks d) 0).
  - rewrite (proj2 (Z.eqb_neq _ 0)) by auto with lia. repeat case_if; rewrite wp_ret; by apply wstep_refl.
  - rewrite wp_ret. by apply wstep_refl.
Qed.

#[global] Instance device_file_laws : FileLaws devw := {|
  reads_at_splhigh := polled_reads;
  law_read := dev_read_run;
  law_write := dev_write_run;
  law_tryseek := dev_tryseek_run
|}.

(** ** Booting *)

(** The kernel before [vfs_bootstrap]. *)
Definition cold (us : ustate) : vfs devw :=
  mkvfs (mkdevw ∅ 0 ∅ 0 []) ∅ 0 (Array.mkarray 0 0 None) None None us [].

(** After it: one device, with its vnode. *)
Definition null_kd : knowndev := mkkd null_str None (Some 0%nat) 0 None.

Definition ready (us : ustate) : vfs devw :=
  mkvfs (mkdevw {[0%nat := mkdvnode 1 0 (Some 0%nat)]} 1 {[0%nat := null_device]} 1 [])
    {[0%nat := null_kd]} 1 (Array.mkarray 1 2 (Some [Some 0%nat; None])) None None us [].

Lemma bootstrap_run us : vfs_bootstrap (cold us) = Ok (tt, ready us).
Proof. reflexivity. Qed.

Lemma ready_table us : table (ready us) [0%nat].
Proof.
  constructor.
  - split; [split_and!; cbn; lia|done].
  - apply list.NoDup_singleton.
  - intros p ->%list_elem_of_singleton. exists null_kd. split; [done|]. constructor; try done.
    + by eexists.
    + intros _. by eexists.
  - by intros p q kp kq f ->%list_elem_of_singleton ->%list_elem_of_singleton.
Qed.

Lemma null_transfers rw : transfers rw null_device.
Proof.
  intros u us _ R. change (d_io null_device) with nullio. unfold nullio. rewrite wp_ret. cbn [snd]. pose proof (ir_max _ _ R).
  case_bool_decide; constructor; cbn; try done; try apply R; lia.
Qed.

Lemma null_driver : driver_ok null_device.
Proof. constructor; [apply null_transfers|done]. Qed.

Lemma ready_inv us : winv (world (ready us)).
Proof.
  split; [split; [done|intros d dv Hd; cbn in Hd; apply lookup_singleton_Some in Hd as [<- <-]; apply null_driver]|]. intros v vn Hv. cbn in Hv. apply lookup_singleton_Some in Hv as [<- <-]. split; [cbn; lia|].
  constructor; cbn; try lia. by eexists.
Qed.

Lemma ready_good us : good (ready us).
Proof.
  constructor; try done.
  - apply ready_inv.
  - exists [0%nat]. split; [apply ready_table|by intros f []].
  - intros v. unfold held, none. cbn. destruct (decide (v = 0%nat)) as [->|Hne]; [by rewrite lookup_singleton_eq|].
    by rewrite lookup_singleton_ne by done.
Qed.

Lemma ready_spare us k : k ≤ 17 → spare k (world (ready us)).
Proof.
  intros Hk v. cbn. destruct (decide (v = 0%nat)) as [->|Hne]; [rewrite lookup_singleton_eq; cbn; lia|].
  rewrite lookup_singleton_ne by done. lia.
Qed.

Lemma ready_distinct us : distinct_names (ready us) [0%nat].
Proof. by intros p q kp kq n ->%list_elem_of_singleton ->%list_elem_of_singleton. Qed.

Lemma ready_fresh us : fresh_kd (ready us).
Proof. intros q [kd Hq]. cbn in Hq. apply lookup_singleton_Some in Hq as [<- _]. cbn. lia. Qed.

Definition null_path : list Z := [110; 117; 108; 108; 58; 0].   (* "null:" *)

(** ** Theorems *)

(** [vfs_bootstrap] succeeds and leaves a sound VFS in which the null device can be opened by
    its name. *)
Theorem vfs_bootstrap_ready us :
  ∃ s l, vfs_bootstrap (cold us) = Ok (tt, s) ∧ good s ∧ table s l ∧ distinct_names s l ∧ fresh_kd s ∧
    ∃ v s', vfs_open null_path 2 s = Ok (inr v, s').
Proof.
  exists (ready us), [0%nat]. split_and!; [apply bootstrap_run|apply ready_good|apply ready_table|apply ready_distinct|apply ready_fresh|].
  by eexists _, _.
Qed.

(** A seek on a block device is accepted exactly at the start of one of its blocks. *)
Theorem dev_tryseek_exact w v d pos :
  getdev v w = Ok (d, w) → 0 < d_blocks d → 0 < d_blocksize d → - 2 ^ 31 ≤ pos < 2 ^ 31 →
  ∃ r, dev_tryseek v pos w = Ok (r, w) ∧
    (r = 0 ↔ ∃ i, 0 ≤ i < d_blocks d ∧ pos = i * d_blocksize d).
Proof.
  intros E Hb Hs Hp. unfold dev_tryseek. rewrite (bind_ok _ _ _ _ _ E). rewrite (proj2 (Z.gtb_lt (d_blocks d) 0)) by lia.
  rewrite (proj2 (Z.eqb_neq (d_blocksize d) 0)) by lia.
  assert (∀ r : Z, r ≠ 0 → ¬ (∃ i, 0 ≤ i < d_blocks d ∧ pos = i * d_blocksize d) →
    ∃ r', (mret r : D Z) w = Ok (r', w) ∧ (r' = 0 ↔ ∃ i, 0 ≤ i < d_blocks d ∧ pos = i * d_blocksize d)) as Hno.
  { intros r Hr Hn. exists r. split; [done|]. tauto. }
  destruct (decide (pos < 0)) as [Hneg|Hpos].
  { destruct (negb _); [|rewrite (proj2 (Z.ltb_lt pos 0)) by done]; apply Hno; try done; intros (i & ? & ->); nia. }
  rewrite u32_small by lia. destruct (Z.eqb_spec (pos `mod` d_blocksize d) 0) as [Hm|Hm]; cbn [negb].
  - rewrite (proj2 (Z.ltb_ge pos 0)) by lia. apply Z.mod_divide in Hm as [i ->]; [|lia]. rewrite Z.div_mul by lia.
    destruct (Z.geb_spec i (d_blocks d)) as [Hi|Hi].
    + apply Hno; [done|]. intros (j & ? & Hj). assert (i = j) by nia. lia.
    + exists 0. split; [done|]. split; [|done]. intros _. exists i. nia.
  - apply Hno; [done|]. intros (i & ? & ->). by rewrite Z.mod_mul in Hm by lia.
Qed.

(** ** The theorems of the VFS on the kernel after boot *)
Definition booted : vfs devw := ready demo_mem.

Lemma null_path_string : string null_path.
Proof. by eexists. Qed.

(** "null:" has been opened. *)
Definition null_opened : vfs devw :=
  mkvfs (mkdevw {[0%nat := mkdvnode 2 1 (Some 0%nat)]} 1 {[0%nat := null_device]} 1 [])
    {[0%nat := null_kd]} 1 (Array.mkarray 1 2 (Some [Some 0%nat; None])) None None demo_mem [].

Lemma open_null : vfs_open null_path 2 booted = Ok (inr 0%nat, null_opened).
Proof. reflexivity. Qed.

Lemma opened_spare : spare 17 (world null_opened).
Proof.
  intros v. cbn. destruct (decide (v = 0%nat)) as [->|Hne]; [by rewrite lookup_singleton_eq|].
  by rewrite lookup_singleton_ne by done.
Qed.

(** Open a file, add a second name for the device and close the file: the calls are safe. *)
Lemma vfs_calls_safe_witness :
  rtc step booted null_opened ∧ (∃ s'', exec (c_close 0) null_opened = Ok (tt, s'') ∧ sound s'') ∧
    ∃ s'', exec (c_adddev null_path 0 true) null_opened = Ok (tt, s'') ∧ sound s''.
Proof.
  assert (rtc step booted null_opened) as Hr.
  { apply rtc_once. exists (c_open null_path 2). split; [split; [apply null_path_string|by apply ready_spare]|].
    cbn [exec]. by rewrite (bind_ok _ _ _ _ _ open_null). }
  assert (sound booted) as So by (split; [apply ready_good|apply ready_fresh]).
  split; [exact Hr|]. split.
  - apply (vfs_calls_safe booted null_opened (c_close 0) So Hr). split; [|apply opened_spare]. cbn. by rewrite lookup_singleton_eq.
  - apply (vfs_calls_safe booted null_opened (c_adddev null_path 0 true) So Hr). split; [|apply opened_spare].
    split; [apply null_path_string|]. split; [by eexists|done].
Defined.

Lemma vfs_open_balanced_witness :
  ∃ r s', vfs_open null_path 2 booted = Ok (r, s') ∧ good s'.
Proof.
  destruct (vfs_open_balanced booted null_path 2) as (r & s' & E & G' & _); [apply ready_good|by apply ready_spare|apply null_path_string|].
  by exists r, s'.
Defined.

Lemma vfs_open_close_witness :
  ∃ s2, vfs_close 0 null_opened = Ok (tt, s2) ∧ good s2 ∧ counts booted s2 none none.
Proof.
  apply (vfs_open_close booted null_path 2 0%nat null_opened);
    [apply ready_good|by apply ready_spare|apply null_path_string|apply open_null].
Defined.

(** "null:" names the device and an empty path below it. *)
Lemma getdevice_parses_witness :
  parse [110; 117; 108; 108; 58] = (FromDevice [110; 117; 108; 108], []) ∧
  ∃ sub, Cstring.cstr sub = Some [] ∧ getdevice null_path booted = with_sub sub (start (FromDevice [110; 117; 108; 108])) booted.
Proof.
  split; [done|]. destruct (getdevice_parses booted null_path [110; 117; 108; 108; 58]) as (sub & Cs & E);
    [apply ready_good|done|]. by exists sub.
Defined.

(** A second device cannot be called "null". *)
Lemma vfs_doadd_unique_witness :
  ∃ s', vfs_doadd null_str true (Some 0%nat) None booted = Ok (EEXIST, s') ∧ table s' [0%nat].
Proof.
  destruct (vfs_doadd_unique booted [0%nat] null_str true (Some 0%nat) None) as (r & s' & E & R).
  - apply ready_inv.
  - apply ready_table.
  - apply ready_distinct.
  - apply ready_fresh.
  - by eexists.
  - done.
  - done.
  - intros d [= <-]. by eexists.
  - done.
  - exists s'. assert (r = EEXIST) as ->.
    { assert (∃ s1, vfs_doadd null_str true (Some 0%nat) None booted = Ok (EEXIST, s1)) as [s1 E1] by (by eexists).
      rewrite E1 in E. by injection E as <- _. }
    split; [done|apply R].
Defined.

Lemma vfs_getroot_finds_witness :
  vfs_getroot null_str booted = fetch (DeviceVn 0) booted ∧ vfs_getroot null_path booted = Ok (inl ENODEV, booted).
Proof.
  split.
  - destruct (vfs_getroot_finds booted [0%nat] null_str) as [Hf _]; [apply ready_inv|apply ready_table|apply ready_distinct|by eexists|].
    destruct (Hf 0%nat null_kd) as (x & Hx & E); [left|done|left|].
    assert (resolve (world booted) null_kd (cs null_str) = Some (DeviceVn 0)) as Hx' by reflexivity.
    rewrite Hx' in Hx. injection Hx as <-. exact E.
  - destruct (vfs_getroot_finds booted [0%nat] null_path) as [_ Hf]; [apply ready_inv|apply ready_table|apply ready_distinct|by eexists|].
    apply Hf. intros p kd ->%list_elem_of_singleton [= <-]. by intros ?%list_elem_of_singleton.
Defined.

Lemma vfs_setbootfs_refuses_colon_witness : vfs_setbootfs null_path booted = Ok (EINVAL, booted).
Proof. by apply (vfs_setbootfs_refuses_colon booted null_path [110; 117; 108; 108]); [|cbn; lia]. Defined.

(** The third block of a disk of 100 blocks. *)
Definition disk_device : device := mkdevice nullopen nullclose nullio nullioctl 100 512.
Definition disk_world : devw := mkdevw {[0%nat := mkdvnode 1 0 (Some 0%nat)]} 1 {[0%nat := disk_device]} 1 [].

Lemma dev_tryseek_exact_witness :
  ∃ r, dev_tryseek 0 1024 disk_world = Ok (r, disk_world) ∧ (r = 0 ↔ ∃ i, 0 ≤ i < 100 ∧ 1024 = i * 512).
Proof. apply (dev_tryseek_exact disk_world 0 disk_device 1024); [reflexivity|by vm_compute..|lia]. Defined.

End Devicespec.
