(* ===== verification/Dumbvm.v ===== *)
(** * Address spaces and TLB faults (kern/arch/mips/mips/dumbvm.c)

    [vmstate] has the TLB of the processor (64 entries, as the pairs of words [TLB_Write] stores), physical
    memory, the free physical pages of ram.c, and the address spaces, a [struct addrspace *] being a
    key of [spaces].  [mem] scripts the coming [kmalloc]s.  Addresses are 32-bit unsigned.  The copies of
    [as_copy] are [memmove]s between blocks of physical memory seen through the direct-mapped
    segment; Cstring.v shows that [memmove] copies the source as it was, which [memmove] does
    here on [pmem]. *)
From stdpp Require Import base list gmap numbers.
From S2P Require Import Prelude Ram.
Local Open Scope Z_scope.

Module Dumbvm.
Import Ram.

Definition DUMBVM_STACKPAGES : Z := 12.
Definition USERSTACK : Z := 2147483648.
Definition NUM_TLB : nat := 64.
Definition TLBLO_DIRTY : Z := 1024.
Definition TLBLO_VALID : Z := 512.
Definition TLBHI_INVALID (entryno : Z) : Z := Z.shiftl (524288 + entryno) 12.
Definition TLBLO_INVALID : Z := 0.
Definition VM_FAULT_READ : Z := 0.
Definition VM_FAULT_WRITE : Z := 1.
Definition VM_FAULT_READONLY : Z := 2.
Definition SPL_HIGH : Z := 15.

Record addrspace := mkas {
  as_vbase1 : Z;
  as_pbase1 : Z;
  as_npages1 : Z;
  as_vbase2 : Z;
  as_pbase2 : Z;
  as_npages2 : Z;
  as_stackpbase : Z
}.

Record vmstate := mkvm {
  tlb : list (Z * Z);
  phys : ram;
  pmem : Z → Z;
  spaces : gmap nat addrspace;
  as_next : nat;
  t_vmspace : option nat;
  curspl : Z;
  mem : list bool
}.

Abbreviation K := (M vmstate).

Definition set_tlb (x : list (Z * Z)) (s : vmstate) : vmstate :=
  mkvm x (phys s) (pmem s) (spaces s) (as_next s) (t_vmspace s) (curspl s) (mem s).
Definition set_phys (x : ram) (s : vmstate) : vmstate :=
  mkvm (tlb s) x (pmem s) (spaces s) (as_next s) (t_vmspace s) (curspl s) (mem s).
Definition set_pmem (x : Z → Z) (s : vmstate) : vmstate :=
  mkvm (tlb s) (phys s) x (spaces s) (as_next s) (t_vmspace s) (curspl s) (mem s).
Definition set_spaces (x : gmap nat addrspace) (n : nat) (s : vmstate) : vmstate :=
  mkvm (tlb s) (phys s) (pmem s) x n (t_vmspace s) (curspl s) (mem s).
Definition set_spl (x : Z) (s : vmstate) : vmstate :=
  mkvm (tlb s) (phys s) (pmem s) (spaces s) (as_next s) (t_vmspace s) x (mem s).
Definition set_mem (x : list bool) (s : vmstate) : vmstate :=
  mkvm (tlb s) (phys s) (pmem s) (spaces s) (as_next s) (t_vmspace s) (curspl s) x.

Definition splhigh : K Z := fun s => Ok (curspl s, set_spl SPL_HIGH s).
Definition splx (spl : Z) : K unit := modify (set_spl spl).

Definition kmalloc_ok : K bool := fun s => Ok (default true (head (mem s)), set_mem (tail (mem s)) s).

Definition getas (p : nat) : K addrspace := fun s =>
  match spaces s !! p with
  | Some a => Ok (a, s)
  | None => Undef
  end.

Definition putas (p : nat) (a : addrspace) : K unit :=
  modify (fun s => set_spaces (<[p := a]> (spaces s)) (as_next s) s).

Definition TLB_Read (i : nat) : K (Z * Z) := fun s =>
  match tlb s !! i with
  | Some e => Ok (e, s)
  | None => Undef
  end.

Definition TLB_Write (ehi elo : Z) (i : nat) : K unit :=
  modify (fun s => set_tlb (<[i := (ehi, elo)]> (tlb s)) s).

Definition getppages (npages : Z) : K Z := fun s =>
  let '(pa, r) := Ram.getppages npages (phys s) in Ok (pa, set_phys r s).

(** ** TLB faults *)

(** The asserts on the address space. *)
Definition check_as (a : addrspace) : bool :=
  negb (as_vbase1 a =? 0) && negb (as_pbase1 a =? 0) && negb (as_npages1 a =? 0) &&
  negb (as_vbase2 a =? 0) && negb (as_pbase2 a =? 0) && negb (as_npages2 a =? 0) &&
  negb (as_stackpbase a =? 0) &&
  (Z.land (as_vbase1 a) PAGE_FRAME =? as_vbase1 a) && (Z.land (as_pbase1 a) PAGE_FRAME =? as_pbase1 a) &&
  (Z.land (as_vbase2 a) PAGE_FRAME =? as_vbase2 a) && (Z.land (as_pbase2 a) PAGE_FRAME =? as_pbase2 a) &&
  (Z.land (as_stackpbase a) PAGE_FRAME =? as_stackpbase a).

(** The physical page of a virtual page. *)
Definition find_paddr (a : addrspace) (faultaddress : Z) : option Z :=
  let vbase1 := as_vbase1 a in
  let vtop1 := u32 (vbase1 + u32 (as_npages1 a * PAGE_SIZE)) in
  let vbase2 := as_vbase2 a in
  let vtop2 := u32 (vbase2 + u32 (as_npages2 a * PAGE_SIZE)) in
  let stackbase := USERSTACK - DUMBVM_STACKPAGES * PAGE_SIZE in
  let stacktop := USERSTACK in
  if (faultaddress >=? vbase1) && (faultaddress <? vtop1) then Some (u32 (faultaddress - vbase1 + as_pbase1 a))
  else if (faultaddress >=? vbase2) && (faultaddress <? vtop2) then Some (u32 (faultaddress - vbase2 + as_pbase2 a))
  else if (faultaddress >=? stackbase) && (faultaddress <? stacktop) then Some (u32 (faultaddress - stackbase + as_stackpbase a))
  else None.

(** [for (i=0; i<NUM_TLB; i++)]: an unused entry takes the translation. *)
Fixpoint tlb_loop (n i : nat) (faultaddress paddr : Z) : K bool :=
  match n with
  | O => mret false
  | S n' =>
      let* e := TLB_Read i in
      if negb (Z.land e.2 TLBLO_VALID =? 0) then tlb_loop n' (S i) faultaddress paddr
      else
        let* _ := TLB_Write faultaddress (Z.lor (Z.lor paddr TLBLO_DIRTY) TLBLO_VALID) i in
        mret true
  end.

Definition vm_fault (faulttype faultaddress : Z) : K Z :=
  let* spl := splhigh in
  let faultaddress := Z.land faultaddress PAGE_FRAME in
  if faulttype =? VM_FAULT_READONLY then panic
  else if negb ((faulttype =? VM_FAULT_READ) || (faulttype =? VM_FAULT_WRITE)) then
    let* _ := splx spl in
    mret EINVAL
  else
    let* oas := gets t_vmspace in
    match oas with
    | None => mret EFAULT
    | Some p =>
        let* a := getas p in
        let* _ := massert (check_as a) in
        match find_paddr a faultaddress with
        | None =>
            let* _ := splx spl in
            mret EFAULT
        | Some paddr =>
            let* _ := massert (Z.land paddr PAGE_FRAME =? paddr) in
            let* done := tlb_loop NUM_TLB 0 faultaddress paddr in
            let* _ := splx spl in
            mret (if (done : bool) then 0 else EFAULT)
        end
    end.

(** ** Address spaces *)
Definition as_create : K (option nat) :=
  let* ok := kmalloc_ok in
  if negb (ok : bool) then mret None
  else fun s => Ok (Some (as_next s), set_spaces (<[as_next s := mkas 0 0 0 0 0 0 0]> (spaces s)) (S (as_next s)) s).

Definition as_destroy (p : nat) : K unit :=
  modify (fun s => set_spaces (delete p (spaces s)) (as_next s) s).

Fixpoint activate_loop (n i : nat) : K unit :=
  match n with
  | O => mret tt
  | S n' =>
      let* _ := TLB_Write (TLBHI_INVALID (Z.of_nat i)) TLBLO_INVALID i in
      activate_loop n' (S i)
  end.

Definition as_activate : K unit :=
  let* spl := splhigh in
  let* _ := activate_loop NUM_TLB 0 in
  splx spl.

Definition as_define_region (p : nat) (vaddr sz : Z) : K Z :=
  let sz := u32 (sz + Z.land vaddr (PAGE_SIZE - 1)) in
  let vaddr := Z.land vaddr PAGE_FRAME in
  let sz := Z.land (u32 (sz + PAGE_SIZE - 1)) PAGE_FRAME in
  let npages := sz `div` PAGE_SIZE in
  let* a := getas p in
  if as_vbase1 a =? 0 then
    let* _ := putas p (mkas vaddr (as_pbase1 a) npages (as_vbase2 a) (as_pbase2 a) (as_npages2 a) (as_stackpbase a)) in
    mret 0
  else if as_vbase2 a =? 0 then
    let* _ := putas p (mkas (as_vbase1 a) (as_pbase1 a) (as_npages1 a) vaddr (as_pbase2 a) npages (as_stackpbase a)) in
    mret 0
  else mret EUNIMP.

Definition set_pbases (p1 p2 p3 : Z) (a : addrspace) : addrspace :=
  mkas (as_vbase1 a) p1 (as_npages1 a) (as_vbase2 a) p2 (as_npages2 a) p3.

Definition as_prepare_load (p : nat) : K Z :=
  let* a := getas p in
  let* _ := massert ((as_pbase1 a =? 0) && (as_pbase2 a =? 0) && (as_stackpbase a =? 0)) in
  let* p1 := getppages (as_npages1 a) in
  let* _ := putas p (set_pbases p1 0 0 a) in
  if p1 =? 0 then mret ENOMEM
  else
    let* p2 := getppages (as_npages2 a) in
    let* _ := putas p (set_pbases p1 p2 0 a) in
    if p2 =? 0 then mret ENOMEM
    else
      let* p3 := getppages DUMBVM_STACKPAGES in
      let* _ := putas p (set_pbases p1 p2 p3 a) in
      mret (if p3 =? 0 then ENOMEM else 0).

Definition as_complete_load (p : nat) : K Z := mret 0.

(** Hands back the initial stack pointer. *)
Definition as_define_stack (p : nat) : K (Z + Z) :=
  let* a := getas p in
  let* _ := massert (negb (as_stackpbase a =? 0)) in
  mret (inr USERSTACK).

(** [memmove] of [n] bytes of physical memory. *)
Definition memmove (dst src n : Z) : K unit :=
  modify (fun s => set_pmem (fun x => if (dst <=? x) && (x <? dst + n) then pmem s (src + (x - dst)) else pmem s x) s).

Definition as_copy (old : nat) : K (Z + nat) :=
  let* onew := as_create in
  match onew with
  | None => mret (inl ENOMEM)
  | Some new =>
      let* a := getas old in
      let* b := getas new in
      let* _ := putas new (mkas (as_vbase1 a) (as_pbase1 b) (as_npages1 a) (as_vbase2 a) (as_pbase2 b) (as_npages2 a) (as_stackpbase b)) in
      let* result := as_prepare_load new in
      if negb (result =? 0) then
        let* _ := as_destroy new in
        mret (inl ENOMEM)
      else
        let* b := getas new in
        let* _ := massert (negb (as_pbase1 b =? 0) && negb (as_pbase2 b =? 0) && negb (as_stackpbase b =? 0)) in
        let* _ := memmove (as_pbase1 b) (as_pbase1 a) (u32 (as_npages1 a * PAGE_SIZE)) in
        let* _ := memmove (as_pbase2 b) (as_pbase2 a) (u32 (as_npages2 a * PAGE_SIZE)) in
        let* _ := memmove (as_stackpbase b) (as_stackpbase a) (DUMBVM_STACKPAGES * PAGE_SIZE) in
        mret (inr new)
  end.

End Dumbvm.
