(* ===== verification/Dumbvmspec.v ===== *)
(** * Virtual memory: theorems about dumbvm.c

    [translate] is the page table an address space stands for.  [vm_fault] loads exactly its
    translations into the TLB, address spaces never share physical memory, and a copy of an
    address space has the same contents at the same virtual addresses. *)
From stdpp Require Import base list gmap numbers relations.
From S2P Require Import Prelude Ram Dumbvm.
Local Open Scope Z_scope.

Module Dumbvmspec.
Import Ram Dumbvm.

(** ** The page table *)
Definition STACKBASE : Z := USERSTACK - DUMBVM_STACKPAGES * PAGE_SIZE.

Definition within (va base n : Z) : Prop := base ≤ va < base + n * PAGE_SIZE.

#[global] Instance within_dec va base n : Decision (within va base n).
Proof. unfold within. apply _. Defined.

Definition translate (a : addrspace) (va : Z) : option Z :=
  if decide (within va (as_vbase1 a) (as_npages1 a)) then Some (va - as_vbase1 a + as_pbase1 a)
  else if decide (within va (as_vbase2 a) (as_npages2 a)) then Some (va - as_vbase2 a + as_pbase2 a)
  else if decide (within va STACKBASE DUMBVM_STACKPAGES) then Some (va - STACKBASE + as_stackpbase a)
  else None.

(** A region of the executable: whole pages, below the stack. *)
Record region_ok (v n : Z) : Prop := {
  ro_align : (PAGE_SIZE | v);
  ro_base : 0 < v;
  ro_len : 0 < n;
  ro_top : v + n * PAGE_SIZE ≤ STACKBASE
}.

Record pages_ok (p n : Z) : Prop := {
  po_align : (PAGE_SIZE | p);
  po_base : 0 < p;
  po_top : p + n * PAGE_SIZE ≤ MAXRAM
}.

Record as_ok (a : addrspace) : Prop := {
  ao_1 : region_ok (as_vbase1 a) (as_npages1 a);
  ao_2 : region_ok (as_vbase2 a) (as_npages2 a);
  ao_p1 : pages_ok (as_pbase1 a) (as_npages1 a);
  ao_p2 : pages_ok (as_pbase2 a) (as_npages2 a);
  ao_p3 : pages_ok (as_stackpbase a) DUMBVM_STACKPAGES
}.

Definition page (va : Z) : Z := va - va `mod` 4096.

Lemma page_range va : 0 ≤ va → 0 ≤ page va ≤ va ∧ (4096 | page va) ∧ va = page va + va `mod` 4096 ∧ 0 ≤ va `mod` 4096 < 4096.
Proof.
  intros Hv. unfold page. pose proof (Z.mod_pos_bound va 4096 ltac:(lia)). pose proof (Z.mod_le va 4096 ltac:(lia) ltac:(lia)).
  split_and!; try lia. exists (va `div` 4096). pose proof (Z.div_mod va 4096 ltac:(lia)). lia.
Qed.

Lemma page_self pg : (4096 | pg) → page pg = pg.
Proof. intros [k ->]. unfold page. rewrite Z.mod_mul by lia. lia. Qed.

(** A page is in a region of whole pages exactly when each of its bytes is. *)
Lemma within_page va v n : 0 ≤ va → (4096 | v) → within (page va) v n ↔ within va v n.
Proof.
  intros Hv [k ->]. destruct (page_range va Hv) as (_ & [j Ej] & E & Hb). unfold within, PAGE_SIZE. lia.
Qed.

Lemma stackbase_align : (4096 | STACKBASE).
Proof. by exists 524276. Qed.

Lemma translate_page a va :
  as_ok a → 0 ≤ va → translate a va = (fun pa => pa + va `mod` 4096) <$> translate a (page va).
Proof.
  intros [[A1 _ _ _] [A2 _ _ _] _ _ _] Hv. destruct (page_range va Hv) as (_ & _ & E & _). unfold translate.
  pose proof (within_page va (as_vbase1 a) (as_npages1 a) Hv A1). pose proof (within_page va (as_vbase2 a) (as_npages2 a) Hv A2).
  pose proof (within_page va STACKBASE DUMBVM_STACKPAGES Hv stackbase_align).
  repeat case_decide; try tauto; cbn; f_equal; lia.
Qed.

(** The physical page is a page of RAM. *)
Lemma translate_range a va pa :
  as_ok a → translate a va = Some pa → (4096 | va) → (4096 | pa) ∧ 0 < pa < MAXRAM.
Proof.
  intros [[V1 _ _ _] [V2 _ _ _] [P1 P1' P1''] [P2 P2' P2''] [P3 P3' P3'']] Ht Hd. unfold translate in Ht.
  assert (∀ v p n, within va v n → (4096 | v) → (4096 | p) → 0 < p → p + n * PAGE_SIZE ≤ MAXRAM → Some (va - v + p) = Some pa →
    (4096 | pa) ∧ 0 < pa < MAXRAM) as Hgo.
  { intros v p n [H1 H2] Hv Hp Hp' Htop [= <-]. split; [|lia]. apply Z.divide_add_r; [by apply Z.divide_sub_r|done]. }
  pose proof stackbase_align. repeat case_decide; [..|done].
  - by apply (Hgo (as_vbase1 a) (as_pbase1 a) (as_npages1 a)).
  - by apply (Hgo (as_vbase2 a) (as_pbase2 a) (as_npages2 a)).
  - by apply (Hgo STACKBASE (as_stackpbase a) DUMBVM_STACKPAGES).
Qed.

Lemma find_paddr_translate a pg :
  as_ok a → 0 ≤ pg < 2 ^ 32 → (4096 | pg) → find_paddr a pg = translate a pg.
Proof.
  intros Ha Hpg Hd. pose proof (translate_range a pg) as Hr. pose proof Ha as [[V1 V1' N1 T1] [V2 V2' N2 T2] _ _ _].
  unfold find_paddr, translate, within in *. fold STACKBASE.
  assert (STACKBASE + DUMBVM_STACKPAGES * PAGE_SIZE = USERSTACK) as HS by done. assert (STACKBASE < 2 ^ 31) by done. unfold PAGE_SIZE in *.
  rewrite !(u32_small (_ * 4096)), (u32_small (as_vbase1 a + _)), (u32_small (as_vbase2 a + _)) by lia.
  assert (∀ v t, ((pg >=? v) && (pg <? t)) = bool_decide (v ≤ pg < t)) as Hb.
  { intros v t. apply eq_bool_prop_intro. rewrite andb_True, bool_decide_spec, !Is_true_true, Z.geb_le, Z.ltb_lt. tauto. }
  rewrite !Hb. change (STACKBASE + DUMBVM_STACKPAGES * 4096) with USERSTACK in *.
  repeat case_decide; repeat case_bool_decide; try tauto; f_equal; apply u32_small;
    destruct (Hr _ Ha eq_refl Hd) as [_ ?]; unfold MAXRAM in *; lia.
Qed.

(** ** The TLB as the processor uses it *)
Definition valid (e : Z * Z) : bool := negb (Z.land e.2 TLBLO_VALID =? 0).

Definition hit (e : Z * Z) (va : Z) : bool := valid e && (e.1 =? page va).

(** The physical address an access to [va] reaches without a fault. *)
Fixpoint tlb_lookup (t : list (Z * Z)) (va : Z) : option Z :=
  match t with
  | [] => None
  | e :: t => if hit e va then Some (page e.2 + va `mod` 4096) else tlb_lookup t va
  end.

(** Each valid entry is a translation of the address space, no two entries have the same page
    (a second match is a machine check on MIPS), and unused entries lie outside the user's addresses. *)
Record tlb_ok (a : addrspace) (t : list (Z * Z)) : Prop := {
  to_valid : ∀ e, e ∈ t → valid e = true →
    ∃ pa, translate a e.1 = Some pa ∧ (4096 | e.1) ∧ e.2 = Z.lor (Z.lor pa TLBLO_DIRTY) TLBLO_VALID;
  to_unused : ∀ e, e ∈ t → valid e = false → USERSTACK ≤ e.1;
  to_nodup : NoDup t.*1
}.

Lemma tlb_lookup_Some t va pa :
  tlb_lookup t va = Some pa → ∃ e, e ∈ t ∧ hit e va = true ∧ pa = page e.2 + va `mod` 4096.
Proof.
  induction t as [|e t IH]; cbn; [done|]. destruct (hit e va) eqn:E.
  - intros [= <-]. exists e. split_and!; [left|done..].
  - intros H. destruct (IH H) as (e' & ? & ?). exists e'. split; [by right|done].
Qed.

Lemma tlb_lookup_None t va : tlb_lookup t va = None ↔ ∀ e, e ∈ t → hit e va = false.
Proof.
  induction t as [|e t IH]; cbn; [split; [intros _ e He; by apply elem_of_nil in He|done]|].
  destruct (hit e va) eqn:E.
  - split; [done|]. intros H. specialize (H e ltac:(left)). congruence.
  - rewrite IH. split; [intros H e' [->|]%elem_of_cons; auto|intros H e' ?; apply H; by right].
Qed.

(** The word stored for a page of RAM is valid and holds the page. *)
Lemma entry_lo pa :
  (4096 | pa) → Z.lor (Z.lor pa TLBLO_DIRTY) TLBLO_VALID = pa + 1536 ∧ page (pa + 1536) = pa ∧
  ∀ hi, valid (hi, Z.lor (Z.lor pa TLBLO_DIRTY) TLBLO_VALID) = true.
Proof.
  intros Hd. rewrite <- Z.lor_assoc. change (Z.lor TLBLO_DIRTY TLBLO_VALID) with 1536.
  rewrite lor_page by (done || lia). split_and!; [done|..].
  - destruct Hd as [k ->]. unfold page. rewrite Z.add_comm, Z.mod_add by lia. rewrite (Z.mod_small 1536) by lia. lia.
  - intros hi. unfold valid, TLBLO_VALID. cbn. rewrite <- lor_page by (done || lia). apply negb_true_iff, Z.eqb_neq. intros H.
    apply (f_equal (fun x => Z.testbit x 9)) in H. rewrite Z.land_spec, Z.lor_spec in H. by rewrite orb_true_r in H.
Qed.

(** An access that hits reaches the address the page table says. *)
Lemma tlb_lookup_sound a t va pa :
  as_ok a → tlb_ok a t → 0 ≤ va → tlb_lookup t va = Some pa → translate a va = Some pa.
Proof.
  intros Ha [Hv _ _] Hva H. destruct (tlb_lookup_Some _ _ _ H) as (e & He & Hh & ->).
  unfold hit in Hh. apply andb_prop in Hh as [Hval Hpg%Z.eqb_eq]. destruct (Hv _ He Hval) as (pa & Ht & Hd & E).
  destruct (translate_range _ _ _ Ha Ht Hd) as [Hpd _]. destruct (entry_lo pa Hpd) as (E1 & E2 & _).
  rewrite (translate_page a va Ha Hva), <- Hpg, Ht, E, E1, E2. done.
Qed.

(** ** Filling and flushing the TLB *)
Lemma tlb_loop_run n i fa pa s :
  length (tlb s) = (i + n)%nat →
  (∃ k e, tlb s !! k = Some e ∧ valid e = false ∧
     tlb_loop n i fa pa s = Ok (true, set_tlb (<[k := (fa, Z.lor (Z.lor pa TLBLO_DIRTY) TLBLO_VALID)]> (tlb s)) s)) ∨
  ((∀ k e, (i ≤ k)%nat → tlb s !! k = Some e → valid e = true) ∧ tlb_loop n i fa pa s = Ok (false, s)).
Proof.
  revert i. induction n as [|n IH]; intros i Hlen.
  - right. split; [|done]. intros k e Hk H%lookup_lt_Some. lia.
  - destruct (lookup_lt_is_Some_2 (tlb s) i ltac:(lia)) as [e He].
    cbn [tlb_loop]. erewrite bind_ok by (unfold TLB_Read; by rewrite He). cbv beta iota. fold (valid e).
    destruct (valid e) eqn:Ev; [|left; exists i, e; by split_and!].
    destruct (IH (S i) ltac:(lia)) as [H|[Hall H]]; [by left|right]. split; [|done].
    intros k e' Hk Hk'. destruct (decide (k = i)) as [->|]; [congruence|]. apply (Hall k); [lia|done].
Qed.

(** Putting a missing translation into an unused entry. *)
Lemma tlb_lookup_insert t k e va pa va' :
  t !! k = Some e → valid e = false → (4096 | pa) →
  tlb_lookup t va = None →
  tlb_lookup (<[k := (page va, Z.lor (Z.lor pa TLBLO_DIRTY) TLBLO_VALID)]> t) va' =
    if decide (page va' = page va) then Some (pa + va' `mod` 4096) else tlb_lookup t va'.
Proof.
  intros Hk He Hd Hm. destruct (entry_lo pa Hd) as (E & Ep & Ev). revert k Hk Hm.
  induction t as [|e0 t IH]; intros [|k] Hk Hm; [done..| |]; cbn in Hk, Hm.
  - injection Hk as ->. cbn. unfold hit at 1. rewrite Ev. cbn [fst snd]. rewrite andb_true_l.
    assert (hit e va' = false) as -> by (unfold hit; by rewrite He). rewrite E, Ep.
    destruct (decide _) as [Heq|Hne]; [by rewrite Heq, Z.eqb_refl|]. by rewrite (proj2 (Z.eqb_neq _ _)).
  - destruct (hit e0 va) eqn:Eh; [done|]. change (<[S k := ?x]> (e0 :: t)) with (e0 :: <[k := x]> t). cbn [tlb_lookup]. rewrite (IH k Hk Hm). destruct (decide _) as [Heq|]; [|done].
    assert (hit e0 va' = false) as ->; [|done]. unfold hit in *. by rewrite Heq.
Qed.

Lemma tlb_ok_insert a t k e va pa :
  as_ok a → tlb_ok a t → t !! k = Some e → valid e = false → 0 ≤ va →
  tlb_lookup t va = None → translate a (page va) = Some pa →
  tlb_ok a (<[k := (page va, Z.lor (Z.lor pa TLBLO_DIRTY) TLBLO_VALID)]> t).
Proof.
  intros Ha [Hv Hu Hn] Hk He Hva Hm Ht. destruct (page_range va Hva) as (_ & Hd & _ & _).
  destruct (translate_range _ _ _ Ha Ht Hd) as [Hpd _]. destruct (entry_lo pa Hpd) as (_ & _ & Ev).
  rewrite tlb_lookup_None in Hm.
  assert (page va < USERSTACK) as Hlt.
  { revert Ht. unfold translate. destruct Ha as [[_ _ _ T1] [_ _ _ T2] _ _ _]. assert (STACKBASE + DUMBVM_STACKPAGES * PAGE_SIZE = USERSTACK) by done.
    assert (STACKBASE < USERSTACK) by done. unfold within. repeat case_decide; [lia..|done]. }
  constructor.
  - intros e' Hin Hval. apply list_elem_of_lookup in Hin as [j Hj].
    destruct (decide (j = k)) as [->|Hne].
    + rewrite list_lookup_insert_eq in Hj by (by eapply lookup_lt_Some). injection Hj as <-. by exists pa.
    + rewrite list_lookup_insert_ne in Hj by done. apply (Hv e'); [by eapply list_elem_of_lookup_2|done].
  - intros e' Hin Hval. apply list_elem_of_lookup in Hin as [j Hj].
    destruct (decide (j = k)) as [->|Hne].
    + rewrite list_lookup_insert_eq in Hj by (by eapply lookup_lt_Some). injection Hj as <-. rewrite Ev in Hval. done.
    + rewrite list_lookup_insert_ne in Hj by done. apply (Hu e'); [by eapply list_elem_of_lookup_2|done].
  - rewrite list_fmap_insert. apply NoDup_alt. pose proof (proj1 (NoDup_alt (t.*1)) Hn) as Hn'. cbn [fst].
    assert (∀ j x, t.*1 !! j = Some x → x ≠ page va) as Hfresh.
    { intros j x (e' & -> & Hj)%list_lookup_fmap_Some Heq. apply list_elem_of_lookup_2 in Hj.
      specialize (Hm e' Hj). unfold hit in Hm. rewrite Heq, Z.eqb_refl, andb_true_r in Hm. specialize (Hu e' Hj Hm). lia. }
    intros i j x Hi Hj. destruct (decide (i = k)) as [->|Hik], (decide (j = k)) as [->|Hjk]; [done|..].
    + rewrite list_lookup_insert_eq in Hi by (rewrite length_fmap; by eapply lookup_lt_Some). injection Hi as <-.
      rewrite list_lookup_insert_ne in Hj by done. by destruct (Hfresh j _ Hj).
    + rewrite list_lookup_insert_eq in Hj by (rewrite length_fmap; by eapply lookup_lt_Some). injection Hj as <-.
      rewrite list_lookup_insert_ne in Hi by done. by destruct (Hfresh i _ Hi).
    + rewrite list_lookup_insert_ne in Hi, Hj by done. by apply (Hn' i j x).
Qed.

Definition flushed : list (Z * Z) := (fun i => (TLBHI_INVALID (Z.of_nat i), TLBLO_INVALID)) <$> seq 0 NUM_TLB.

Lemma set_tlb_twice t u s : set_tlb t (set_tlb u s) = set_tlb t s.
Proof. by destruct s. Qed.

Lemma set_tlb_id s : set_tlb (tlb s) s = s.
Proof. by destruct s. Qed.

Lemma activate_loop_run n i s :
  length (tlb s) = (i + n)%nat →
  activate_loop n i s =
    Ok (tt, set_tlb (take i (tlb s) ++ ((fun i => (TLBHI_INVALID (Z.of_nat i), TLBLO_INVALID)) <$> seq i n)) s).
Proof.
  revert i s. induction n as [|n IH]; intros i s Hlen.
  - cbn. rewrite take_ge, app_nil_r by lia. by rewrite set_tlb_id.
  - change (activate_loop (S n) i s) with (activate_loop n (S i) (set_tlb (<[i := (TLBHI_INVALID (Z.of_nat i), TLBLO_INVALID)]> (tlb s)) s)).
    rewrite IH by (cbn; rewrite length_insert; lia). rewrite set_tlb_twice. cbn [tlb set_tlb seq fmap list_fmap].
    erewrite take_S_r by (apply list_lookup_insert_eq; lia). rewrite take_insert_ge, <- app_assoc by lia. done.
Qed.

Lemma as_activate_run s : length (tlb s) = NUM_TLB → as_activate s = Ok (tt, set_tlb flushed s).
Proof.
  intros Hlen. unfold as_activate. erewrite bind_ok by reflexivity. cbv beta.
  erewrite bind_ok by (apply activate_loop_run; done). by destruct s.
Qed.

Lemma flushed_invalid e : e ∈ flushed → valid e = false ∧ USERSTACK ≤ e.1.
Proof.
  unfold flushed. intros (i & -> & Hi)%list_elem_of_fmap. split; [done|]. cbn. unfold TLBHI_INVALID, USERSTACK.
  rewrite Z.shiftl_mul_pow2 by lia. lia.
Qed.

Lemma flushed_ok a : tlb_ok a flushed.
Proof.
  constructor.
  - intros e He Hv. destruct (flushed_invalid e He). congruence.
  - intros e He _. by apply flushed_invalid.
  - unfold flushed. rewrite <- list_fmap_compose. apply NoDup_fmap_2; [|apply NoDup_seq].
    intros i j. cbn. unfold TLBHI_INVALID. rewrite !Z.shiftl_mul_pow2 by lia. lia.
Qed.

(** ** Page faults *)
Lemma aligned_land p : (4096 | p) → 0 ≤ p < 2 ^ 32 → (Z.land p PAGE_FRAME =? p) = true.
Proof. intros [k ->] Hp. rewrite land_high by done. rewrite Z.mod_mul by lia. apply Z.eqb_eq. lia. Qed.

Lemma check_as_ok a : as_ok a → check_as a = true.
Proof.
  intros [[V1 V1' N1 T1] [V2 V2' N2 T2] [P1 P1' P1''] [P2 P2' P2''] [P3 P3' P3'']]. unfold check_as.
  assert (STACKBASE < 2 ^ 31) by done. unfold MAXRAM, DUMBVM_STACKPAGES, PAGE_SIZE in *.
  rewrite !aligned_land by (done || lia). rewrite !(proj2 (Z.eqb_neq _ 0)) by lia. done.
Qed.

Lemma vm_fault_hit_run ft va s p a :
  ft = VM_FAULT_READ ∨ ft = VM_FAULT_WRITE → 0 ≤ va < 2 ^ 32 → t_vmspace s = Some p → spaces s !! p = Some a → as_ok a →
  length (tlb s) = NUM_TLB →
  match translate a (page va) with
  | None => vm_fault ft va s = Ok (EFAULT, s)
  | Some pa =>
      (∃ k e, tlb s !! k = Some e ∧ valid e = false ∧
         vm_fault ft va s = Ok (0, set_tlb (<[k := (page va, Z.lor (Z.lor pa TLBLO_DIRTY) TLBLO_VALID)]> (tlb s)) s)) ∨
      ((∀ e, e ∈ tlb s → valid e = true) ∧ vm_fault ft va s = Ok (EFAULT, s))
  end.
Proof.
  intros Hft Hva Hcur Hp Ha Hlen. destruct (page_range va ltac:(lia)) as (Hr & Hd & _ & _).
  pose proof (find_paddr_translate a (page va) Ha ltac:(lia) Hd) as Hfp.
  assert (vm_fault ft va s = match translate a (page va) with
    | None => Ok (EFAULT, s)
    | Some pa => match (let* _ := massert (Z.land pa PAGE_FRAME =? pa) in tlb_loop NUM_TLB 0 (page va) pa) (set_spl SPL_HIGH s) with
                 | Ok (d, s') => Ok (if (d : bool) then 0 else EFAULT, set_spl (curspl s) s')
                 | Panic => Panic | Undef => Undef | Spin => Spin
                 end
    end) as ->.
  { unfold vm_fault. erewrite bind_ok by reflexivity. cbv beta zeta. rewrite land_high by done. fold (page va).
    assert ((ft =? VM_FAULT_READONLY) = false) as -> by (destruct Hft as [-> | ->]; done).
    assert (negb ((ft =? VM_FAULT_READ) || (ft =? VM_FAULT_WRITE)) = false) as -> by (destruct Hft as [-> | ->]; done).
    erewrite bind_ok by reflexivity. cbn [t_vmspace set_spl]. rewrite Hcur.
    erewrite bind_ok by (unfold getas; cbn [spaces set_spl]; by rewrite Hp). erewrite bind_ok by (unfold massert; by rewrite check_as_ok).
    rewrite Hfp. destruct (translate a (page va)) as [pa|]; [|by destruct s].
    unfold mbind at 1 4, M_bind. destruct (massert _ _) as [[[] s1]| | |]; [|done..]. unfold mbind, M_bind.
    destruct (tlb_loop _ _ _ _ _) as [[[] s2]| | |]; done. }
  destruct (translate a (page va)) as [pa|] eqn:Ht; [|done].
  destruct (translate_range _ _ _ Ha Ht Hd) as [Hpd Hpr]. unfold MAXRAM in Hpr.
  erewrite bind_ok by (unfold massert; by rewrite aligned_land by (done || lia)). cbv beta.
  destruct (tlb_loop_run NUM_TLB 0 (page va) pa (set_spl SPL_HIGH s) Hlen) as [(k & e & Hk & He & ->)|[Hall ->]].
  - left. exists k, e. split_and!; [done..|]. by destruct s.
  - right. split; [|by destruct s]. intros e [k Hk]%list_elem_of_lookup. by apply (Hall k e ltac:(lia)).
Qed.

(** ** Physical memory of address spaces *)

(** A block of [n] pages at [b] that has been allocated. *)
Definition own1 (pa b n : Z) : Prop := b ≠ 0 ∧ within pa b n.

Definition own (a : addrspace) (pa : Z) : Prop :=
  own1 pa (as_pbase1 a) (as_npages1 a) ∨ own1 pa (as_pbase2 a) (as_npages2 a) ∨ own1 pa (as_stackpbase a) DUMBVM_STACKPAGES.

(** Nothing is loaded yet. *)
Definition unloaded (a : addrspace) : Prop := as_pbase1 a = 0 ∧ as_pbase2 a = 0 ∧ as_stackpbase a = 0.

Lemma region_len v n : region_ok v n → 0 < n ≤ 2 ^ 19.
Proof. intros [_ ? ? H]. assert (STACKBASE < 2 ^ 31) by done. unfold PAGE_SIZE in *. lia. Qed.

Lemma getppages_run n s :
  ram_wf (phys s) → 0 ≤ n ≤ 2 ^ 19 → let f := firstpaddr (phys s) in
  (lastpaddr (phys s) < f + n * PAGE_SIZE ∧ getppages n s = Ok (0, s)) ∨
  (f + n * PAGE_SIZE ≤ lastpaddr (phys s) ∧ pages_ok f n ∧ ram_wf (mkram (f + n * PAGE_SIZE) (lastpaddr (phys s))) ∧
   getppages n s = Ok (f, set_phys (mkram (f + n * PAGE_SIZE) (lastpaddr (phys s))) s)).
Proof.
  intros Hw Hn f. pose proof (stealmem_run n _ Hw Hn) as H. fold f in H. unfold getppages, Ram.getppages. destruct (decide _) as [Hfit|].
  - right. destruct H as [-> W]. destruct Hw. split_and!; [done| |done..]. constructor; [done|lia|lia].
  - left. rewrite H. split; [lia|]. by destruct s.
Qed.

(** The three blocks [as_prepare_load] takes, one after the other; [p1], [p2], [p3] are 0 from the
    first that does not fit. *)
Definition blocks_at (f n1 n2 p1 p2 p3 : Z) : Prop :=
  (p1 = 0 ∨ p1 = f ∧ pages_ok f n1) ∧
  (p2 = 0 ∨ p2 = f + n1 * PAGE_SIZE ∧ pages_ok (f + n1 * PAGE_SIZE) n2) ∧
  (p3 = 0 ∨ p3 = f + n1 * PAGE_SIZE + n2 * PAGE_SIZE ∧ pages_ok (f + n1 * PAGE_SIZE + n2 * PAGE_SIZE) DUMBVM_STACKPAGES).

Definition as_total (a : addrspace) : Z := (as_npages1 a + as_npages2 a + DUMBVM_STACKPAGES) * PAGE_SIZE.

Definition prepared (a : addrspace) (s : vmstate) (r p1 p2 p3 f' : Z) : Prop :=
  let f := firstpaddr (phys s) in
  blocks_at f (as_npages1 a) (as_npages2 a) p1 p2 p3 ∧ ram_wf (mkram f' (lastpaddr (phys s))) ∧
  (p1 ≠ 0 → f + as_npages1 a * PAGE_SIZE ≤ f') ∧ (p2 ≠ 0 → f + (as_npages1 a + as_npages2 a) * PAGE_SIZE ≤ f') ∧
  (p3 ≠ 0 → f + as_total a ≤ f') ∧ f ≤ f' ∧
  if decide (f + as_total a ≤ lastpaddr (phys s)) then r = 0 ∧ p1 ≠ 0 ∧ p2 ≠ 0 ∧ p3 ≠ 0 else r = ENOMEM.

Ltac prep_done := split_and!; try done; try lia; try (by left); try (by right).

Lemma prepare_run p a s :
  ram_wf (phys s) → spaces s !! p = Some a → unloaded a → 0 ≤ as_npages1 a ≤ 2 ^ 19 → 0 ≤ as_npages2 a ≤ 2 ^ 19 →
  ∃ r p1 p2 p3 f', prepared a s r p1 p2 p3 f' ∧
    as_prepare_load p s =
      Ok (r, set_spaces (<[p := set_pbases p1 p2 p3 a]> (spaces s)) (as_next s) (set_phys (mkram f' (lastpaddr (phys s))) s)).
Proof.
  intros Hw Hp (U1 & U2 & U3) Hn1 Hn2. pose proof Hw as [_ Hr _]. unfold as_prepare_load, prepared, blocks_at, as_total.
  erewrite bind_ok by (unfold getas; by rewrite Hp). erewrite bind_ok by (unfold massert; by rewrite U1, U2, U3).
  set (f := firstpaddr (phys s)) in *. set (l := lastpaddr (phys s)) in *. assert (phys s = mkram f l) as Es by (by destruct (phys s)).
  unfold DUMBVM_STACKPAGES, PAGE_SIZE in *.
  destruct (getppages_run (as_npages1 a) s Hw Hn1) as [[Hl E]|(Hl & Hp1 & W1 & E)]; unfold PAGE_SIZE in *; fold f l in Hl, E;
    erewrite bind_ok by exact E; erewrite bind_ok by reflexivity.
  { exists ENOMEM, 0, 0, 0, f. rewrite <- Es. rewrite decide_False by lia. cbn. prep_done; by destruct s. }
  fold f l in Hp1, W1. rewrite (proj2 (Z.eqb_neq f 0)) by lia.
  match goal with |- context [mbind _ (getppages _) ?s1] => set (s1' := s1) end.
  assert (phys s1' = mkram (f + as_npages1 a * 4096) l) as E1 by done.
  destruct (getppages_run (as_npages2 a) s1' W1 Hn2) as [[Hl2 E2]|(Hl2 & Hp2 & W2 & E2)]; unfold PAGE_SIZE in *; rewrite E1 in *; cbn [firstpaddr lastpaddr] in *;
    erewrite bind_ok by exact E2; erewrite bind_ok by reflexivity.
  { exists ENOMEM, f, 0, 0, (f + as_npages1 a * 4096). rewrite decide_False by lia. split; [prep_done|].
    cbn. rewrite insert_insert_eq. by destruct s. }
  rewrite (proj2 (Z.eqb_neq (f + as_npages1 a * 4096) 0)) by lia.
  match goal with |- context [mbind _ (getppages _) ?s2] => set (s2' := s2) end.
  assert (phys s2' = mkram (f + as_npages1 a * 4096 + as_npages2 a * 4096) l) as E3 by done.
  destruct (getppages_run 12 s2' ltac:(by rewrite E3) ltac:(lia)) as [[Hl3 E4]|(Hl3 & Hp3 & W3 & E4)]; unfold PAGE_SIZE in *; rewrite E3 in *; cbn [firstpaddr lastpaddr] in *;
    erewrite bind_ok by exact E4; erewrite bind_ok by reflexivity.
  - exists ENOMEM, f, (f + as_npages1 a * 4096), 0, (f + as_npages1 a * 4096 + as_npages2 a * 4096). rewrite decide_False by lia.
    split; [prep_done|]. cbn. rewrite !insert_insert_eq. by destruct s.
  - exists 0, f, (f + as_npages1 a * 4096), (f + as_npages1 a * 4096 + as_npages2 a * 4096), (f + as_npages1 a * 4096 + as_npages2 a * 4096 + 12 * 4096).
    rewrite decide_True by lia. split; [prep_done|].
    rewrite (proj2 (Z.eqb_neq _ 0)) by lia. cbn. rewrite !insert_insert_eq. by destruct s.
Qed.

(** The memory after a block copy. *)
Definition moved (dst src n : Z) (m : Z → Z) : Z → Z := fun x =>
  if (dst <=? x) && (x <? dst + n) then m (src + (x - dst)) else m x.

Definition copied (a b : addrspace) (m : Z → Z) : Z → Z :=
  moved (as_stackpbase b) (as_stackpbase a) (DUMBVM_STACKPAGES * PAGE_SIZE)
    (moved (as_pbase2 b) (as_pbase2 a) (u32 (as_npages2 a * PAGE_SIZE))
       (moved (as_pbase1 b) (as_pbase1 a) (u32 (as_npages1 a * PAGE_SIZE)) m)).

Definition can_copy (a : addrspace) (s : vmstate) : Prop :=
  default true (head (mem s)) = true ∧ firstpaddr (phys s) + as_total a ≤ lastpaddr (phys s).

#[global] Instance can_copy_dec a s : Decision (can_copy a s).
Proof. unfold can_copy. apply _. Defined.

(** The state with a new address space [b] in it, and the memory below [f'] taken. *)
Definition with_space (b : addrspace) (f' : Z) (m : Z → Z) (s : vmstate) : vmstate :=
  set_pmem m (set_spaces (<[as_next s := b]> (spaces s)) (S (as_next s)) (set_phys (mkram f' (lastpaddr (phys s))) (set_mem (tail (mem s)) s))).

Definition without_space (f' : Z) (n : nat) (s : vmstate) : vmstate :=
  set_spaces (spaces s) n (set_phys (mkram f' (lastpaddr (phys s))) (set_mem (tail (mem s)) s)).

Lemma as_create_run s :
  as_create s =
    if default true (head (mem s))
    then Ok (Some (as_next s), set_spaces (<[as_next s := mkas 0 0 0 0 0 0 0]> (spaces s)) (S (as_next s)) (set_mem (tail (mem s)) s))
    else Ok (None, set_mem (tail (mem s)) s).
Proof. unfold as_create, mbind, M_bind, kmalloc_ok. by destruct (default true (head (mem s))). Qed.

Lemma copy_run p a s :
  ram_wf (phys s) → spaces s !! p = Some a → as_ok a → spaces s !! as_next s = None →
  ∃ f', ram_wf (mkram f' (lastpaddr (phys s))) ∧ firstpaddr (phys s) ≤ f' ∧
    if decide (can_copy a s)
    then ∃ p1 p2 p3, let b := set_pbases p1 p2 p3 a in
         prepared a s 0 p1 p2 p3 f' ∧ as_copy p s = Ok (inr (as_next s), with_space b f' (copied a b (pmem s)) s)
    else ∃ n, (as_next s ≤ n)%nat ∧ as_copy p s = Ok (inl ENOMEM, without_space f' n s).
Proof.
  intros Hw Hp Ha Hq. pose proof (region_len _ _ (ao_1 _ Ha)) as L1. pose proof (region_len _ _ (ao_2 _ Ha)) as L2.
  assert (p ≠ as_next s) as Hpq by congruence. assert (mkram (firstpaddr (phys s)) (lastpaddr (phys s)) = phys s) as Eram by (by destruct (phys s)).
  unfold as_copy. pose proof (as_create_run s) as Ec. destruct (default true (head (mem s))) eqn:Em.
  2: { exists (firstpaddr (phys s)). rewrite Eram, decide_False by (intros []; congruence). split_and!; [done|lia|]. exists (as_next s). split; [lia|].
       erewrite bind_ok by exact Ec.
       unfold without_space. rewrite Eram. by destruct s. }
  erewrite bind_ok by exact Ec. cbv beta iota. set (a0 := mkas 0 0 0 0 0 0 0).
  erewrite bind_ok; [|unfold getas; cbn [spaces set_spaces]; rewrite lookup_insert_ne, Hp by done; reflexivity].
  erewrite bind_ok; [|unfold getas; cbn [spaces set_spaces]; rewrite lookup_insert_eq; reflexivity].
  erewrite bind_ok by reflexivity. cbn [spaces as_next set_spaces as_pbase1 as_pbase2 as_stackpbase a0]. rewrite insert_insert_eq.
  set (b0 := mkas (as_vbase1 a) 0 (as_npages1 a) (as_vbase2 a) 0 (as_npages2 a) 0).
  match goal with |- context [mbind _ (as_prepare_load _) ?s1] => set (s1' := s1) end.
  destruct (prepare_run (as_next s) b0 s1' Hw ltac:(apply lookup_insert_eq) ltac:(done) ltac:(cbn; lia) ltac:(cbn; lia)) as (r & p1 & p2 & p3 & f' & Hpre & E).
  erewrite bind_ok by exact E. exists f'. pose proof Hpre as (_ & Hwf & _ & _ & _ & Hf & Hr). split_and!; [done..|].
  change (firstpaddr (phys s1') + as_total b0) with (firstpaddr (phys s) + as_total a) in Hr. change (lastpaddr (phys s1')) with (lastpaddr (phys s)) in *.
  destruct (decide (firstpaddr (phys s) + as_total a ≤ lastpaddr (phys s))) as [Hfit|Hfit].
  - rewrite decide_True by done. destruct Hr as (-> & P1 & P2 & P3). exists p1, p2, p3. split.
    { destruct Hpre as (? & ? & ? & ? & ? & ? & _). split_and!; [done..|]. rewrite decide_True by done. done. }
    rewrite Z.eqb_refl. cbn [negb]. erewrite bind_ok; [|unfold getas; cbn [spaces set_spaces]; rewrite lookup_insert_eq; reflexivity].
    erewrite bind_ok; [|unfold massert; cbn [as_pbase1 as_pbase2 as_stackpbase set_pbases]; rewrite !(proj2 (Z.eqb_neq _ 0)) by done; reflexivity].
    erewrite bind_ok by reflexivity. erewrite bind_ok by reflexivity. erewrite bind_ok by reflexivity.
    unfold with_space, s1'. cbn [spaces set_spaces set_mem]. rewrite insert_insert_eq. by destruct s.
  - rewrite decide_False by (by intros []). subst r. exists (S (as_next s)). split; [lia|]. change (negb (ENOMEM =? 0)) with true. cbn iota.
    erewrite bind_ok by reflexivity. unfold without_space, s1'. cbn [spaces set_spaces set_mem set_phys as_next].
    rewrite insert_insert_eq, delete_insert_id by done. by destruct s.
Qed.

(** ** Regions *)

(** Pages needed to hold the bytes from [v] to [v + sz]. *)
Definition npages_for (v sz : Z) : Z := (v `mod` 4096 + sz + 4095) `div` 4096.

Definition add_region (v n : Z) (a : addrspace) : option addrspace :=
  if as_vbase1 a =? 0 then Some (mkas v (as_pbase1 a) n (as_vbase2 a) (as_pbase2 a) (as_npages2 a) (as_stackpbase a))
  else if as_vbase2 a =? 0 then Some (mkas (as_vbase1 a) (as_pbase1 a) (as_npages1 a) v (as_pbase2 a) n (as_stackpbase a))
  else None.

Lemma define_run p a v sz s :
  spaces s !! p = Some a → 0 ≤ v → 0 ≤ sz → v + sz ≤ STACKBASE →
  as_define_region p v sz s =
    match add_region (page v) (npages_for v sz) a with
    | Some a' => Ok (0, set_spaces (<[p := a']> (spaces s)) (as_next s) s)
    | None => Ok (EUNIMP, s)
    end.
Proof.
  intros Hp Hv Hs Hb. assert (STACKBASE < 2 ^ 31) by done. pose proof (Z.mod_pos_bound v 4096 ltac:(lia)).
  unfold as_define_region. rewrite land_low, (land_high v) by lia. fold (page v). unfold PAGE_SIZE.
  rewrite (u32_small (sz + _)), (u32_small (_ + 4096 - 1)) by lia. rewrite land_high by lia.
  set (x := sz + v `mod` 4096 + 4096 - 1). assert ((x - x `mod` 4096) `div` 4096 = npages_for v sz) as ->.
  { unfold npages_for. replace (v `mod` 4096 + sz + 4095) with x by lia. rewrite (Z.div_mod x 4096) at 1 by lia.
    replace (4096 * (x `div` 4096) + x `mod` 4096 - x `mod` 4096) with (x `div` 4096 * 4096) by lia. by rewrite Z.div_mul by lia. }
  erewrite bind_ok by (unfold getas; by rewrite Hp). unfold add_region.
  destruct (as_vbase1 a =? 0); [done|]. by destruct (as_vbase2 a =? 0).
Qed.

(** The region is the pages that hold a byte of the segment. *)
Lemma region_pages v sz x :
  0 ≤ v → 0 < sz → within x (page v) (npages_for v sz) ↔ ∃ y, v ≤ y < v + sz ∧ page x = page y.
Proof.
  intros Hv Hs. destruct (page_range v Hv) as (Hr & [k Hk] & Ev & Hm). unfold within, npages_for, PAGE_SIZE.
  pose proof (Z.div_mod (v `mod` 4096 + sz + 4095) 4096 ltac:(lia)) as Hd.
  pose proof (Z.mod_pos_bound (v `mod` 4096 + sz + 4095) 4096 ltac:(lia)) as Hd'.
  set (n := (v `mod` 4096 + sz + 4095) `div` 4096) in *. split.
  - intros Hx. destruct (page_range x ltac:(lia)) as (Hxr & [j Hj] & Ex & Hxm).
    exists (Z.max v (page x)). split; [lia|]. destruct (Z.max_spec v (page x)) as [[? ->]|[? ->]].
    + symmetry. apply page_self. by exists j.
    + lia.
  - intros (y & Hy & E). destruct (page_range y ltac:(lia)) as (Hyr & [j Hj] & Ey & Hym).
    unfold page in E at 1. pose proof (Z.mod_pos_bound x 4096 ltac:(lia)). lia.
Qed.

Lemma region_ok_for v sz : PAGE_SIZE ≤ v → 0 < sz → v + sz ≤ STACKBASE → region_ok (page v) (npages_for v sz).
Proof.
  unfold PAGE_SIZE. intros Hv Hs Hb. destruct (page_range v ltac:(lia)) as (Hr & Hd & Ev & Hm).
  assert ((4096 | STACKBASE)) as [k Hk] by apply stackbase_align. destruct Hd as [j Hj]. unfold npages_for.
  pose proof (Z.div_mod (v `mod` 4096 + sz + 4095) 4096 ltac:(lia)) as Hd.
  pose proof (Z.mod_pos_bound (v `mod` 4096 + sz + 4095) 4096 ltac:(lia)) as Hd'.
  constructor; unfold PAGE_SIZE; [by exists j|lia..].
Qed.

(** ** The invariant of the virtual memory system *)
Definition loaded (a : addrspace) : Prop :=
  as_pbase1 a ≠ 0 ∧ as_pbase2 a ≠ 0 ∧ as_stackpbase a ≠ 0 ∧ as_vbase1 a ≠ 0 ∧ as_vbase2 a ≠ 0.

(** A region that may not have been defined. *)
Definition region_wf (v n : Z) : Prop := v = 0 ∧ n = 0 ∨ region_ok v n.

Record as_wf (a : addrspace) : Prop := {
  aw_1 : region_wf (as_vbase1 a) (as_npages1 a);
  aw_2 : region_wf (as_vbase2 a) (as_npages2 a);
  aw_p1 : as_pbase1 a ≠ 0 → pages_ok (as_pbase1 a) (as_npages1 a);
  aw_p2 : as_pbase2 a ≠ 0 → pages_ok (as_pbase2 a) (as_npages2 a);
  aw_p3 : as_stackpbase a ≠ 0 → pages_ok (as_stackpbase a) DUMBVM_STACKPAGES
}.

Record vm_inv (s : vmstate) : Prop := {
  vi_tlb : length (tlb s) = NUM_TLB;
  vi_ram : ram_wf (phys s);
  vi_next : ∀ p a, spaces s !! p = Some a → (p < as_next s)%nat;
  vi_wf : ∀ p a, spaces s !! p = Some a → as_wf a;
  vi_low : ∀ p a pa, spaces s !! p = Some a → own a pa → pa < firstpaddr (phys s);
  vi_apart : ∀ p q a b pa, p ≠ q → spaces s !! p = Some a → spaces s !! q = Some b → own a pa → own b pa → False;
  vi_cur : ∀ p, t_vmspace s = Some p → ∃ a, spaces s !! p = Some a ∧
    (loaded a ∧ tlb_ok a (tlb s) ∨ ∀ a', tlb_ok a' (tlb s))
}.

Lemma loaded_ok a : as_wf a → loaded a → as_ok a.
Proof. intros [[[]|] [[]|] W1 W2 W3] (L1 & L2 & L3 & L4 & L5); try done. constructor; [done..|by apply W1|by apply W2|by apply W3]. Qed.

Lemma region_wf_len v n : region_wf v n → 0 ≤ n ≤ 2 ^ 19.
Proof. intros [[_ ->]|?%region_len]; lia. Qed.

Lemma translate_own a va pa : loaded a → translate a va = Some pa → own a pa.
Proof.
  intros (L1 & L2 & L3 & _). unfold translate, own, own1, within. repeat case_decide; intros [= <-].
  - left. split; [done|lia].
  - right; left. split; [done|lia].
  - right; right. split; [done|lia].
Qed.

Lemma unloaded_own a pa : unloaded a → ¬ own a pa.
Proof. intros (U1 & U2 & U3) [[]|[[]|[]]]; done. Qed.

Lemma unloaded_wf a : unloaded a → region_wf (as_vbase1 a) (as_npages1 a) → region_wf (as_vbase2 a) (as_npages2 a) → as_wf a.
Proof. intros (U1 & U2 & U3) H1 H2. constructor; done. Qed.

(** What is allocated for an address space is new memory. *)
Lemma prepared_own a s r p1 p2 p3 f' pa :
  prepared a s r p1 p2 p3 f' → 0 ≤ as_npages1 a → 0 ≤ as_npages2 a → own (set_pbases p1 p2 p3 a) pa →
  firstpaddr (phys s) ≤ pa < f'.
Proof.
  intros ((B1 & B2 & B3) & _ & F1 & F2 & F3 & _) Hn1 Hn2. unfold as_total, own, own1, within, set_pbases, PAGE_SIZE, DUMBVM_STACKPAGES in *; cbn.
  intros [[H1 H]|[[H1 H]|[H1 H]]].
  - specialize (F1 H1). destruct B1 as [|[-> _]]; [done|lia].
  - specialize (F2 H1). destruct B2 as [|[-> _]]; [done|lia].
  - specialize (F3 H1). destruct B3 as [|[-> _]]; [done|lia].
Qed.

Lemma prepared_wf a s r p1 p2 p3 f' :
  prepared a s r p1 p2 p3 f' → region_wf (as_vbase1 a) (as_npages1 a) → region_wf (as_vbase2 a) (as_npages2 a) →
  as_wf (set_pbases p1 p2 p3 a).
Proof.
  intros ((B1 & B2 & B3) & _) R1 R2. constructor; cbn; [done|done|..]; intros H.
  - destruct B1 as [|[-> ?]]; done.
  - destruct B2 as [|[-> ?]]; done.
  - destruct B3 as [|[-> ?]]; done.
Qed.

(** ** The system in operation *)
Inductive vm_op :=
| OpCreate
| OpDestroy (p : nat)
| OpDefine (p : nat) (vaddr sz : Z)
| OpPrepare (p : nat)
| OpCopy (p : nat)
| OpSwitch (o : option nat)
| OpFault (faulttype va : Z).

(** The end of [mi_switch]: a thread with an address space activates it. *)
Definition switch (o : option nat) : K unit := fun s =>
  let s := mkvm (tlb s) (phys s) (pmem s) (spaces s) (as_next s) o (curspl s) (mem s) in
  match o with
  | None => Ok (tt, s)
  | Some _ => as_activate s
  end.

Definition vm_run (o : vm_op) : K unit :=
  match o with
  | OpCreate => let* _ := as_create in mret tt
  | OpDestroy p => as_destroy p
  | OpDefine p vaddr sz => let* _ := as_define_region p vaddr sz in mret tt
  | OpPrepare p => let* _ := as_prepare_load p in mret tt
  | OpCopy p => let* _ := as_copy p in mret tt
  | OpSwitch o => switch o
  | OpFault faulttype va => let* _ := vm_fault faulttype va in mret tt
  end.

(** How the kernel calls them: regions are defined between page 1 and the stack and before memory is
    taken, only loaded address spaces (with both regions and all memory) are copied, the current address space is not destroyed, and
    the processor faults on pages the TLB does not have.  A fault needs a loaded address space or none. *)
Definition vm_allowed (o : vm_op) (s : vmstate) : Prop :=
  match o with
  | OpCreate => True
  | OpDestroy p => t_vmspace s ≠ Some p
  | OpDefine p v sz => (∃ a, spaces s !! p = Some a ∧ unloaded a) ∧ PAGE_SIZE ≤ v ∧ 0 < sz ∧ v + sz ≤ STACKBASE
  | OpPrepare p => ∃ a, spaces s !! p = Some a ∧ unloaded a
  | OpCopy p => ∃ a, spaces s !! p = Some a ∧ loaded a
  | OpSwitch None => True
  | OpSwitch (Some p) => is_Some (spaces s !! p)
  | OpFault ft va =>
      0 ≤ va < 2 ^ 32 ∧ tlb_lookup (tlb s) va = None ∧ ft ≠ VM_FAULT_READONLY ∧
      (ft = VM_FAULT_READ ∨ ft = VM_FAULT_WRITE → ∀ p a, t_vmspace s = Some p → spaces s !! p = Some a → loaded a)
  end.

(** What stops the kernel: loading an address space twice, a fault for writing to a read-only page, and
    a fault in an address space that has not been loaded or has only one region. *)
Definition vm_refused (o : vm_op) (s : vmstate) : Prop :=
  match o with
  | OpPrepare p => ∃ a, spaces s !! p = Some a ∧ ¬ unloaded a
  | OpFault ft va =>
      ft = VM_FAULT_READONLY ∨
      (ft = VM_FAULT_READ ∨ ft = VM_FAULT_WRITE) ∧ ∃ p a, t_vmspace s = Some p ∧ spaces s !! p = Some a ∧ ¬ loaded a
  | _ => False
  end.

Lemma check_as_loaded a : check_as a = true → loaded a.
Proof.
  unfold check_as. rewrite !andb_true_iff, !negb_true_iff, !Z.eqb_neq. intros (((((((((((? & ?) & ?) & ?) & ?) & ?) & ?) & ?) & ?) & ?) & ?) & ?).
  done.
Qed.

Lemma refused_panics o s : vm_refused o s → vm_run o s = Panic.
Proof.
  destruct o; try done; cbn [vm_refused vm_run].
  - intros (a & Ha & Hu). unfold mbind at 1, M_bind at 1, as_prepare_load. erewrite bind_ok by (unfold getas; by rewrite Ha).
    unfold mbind at 1, M_bind at 1, massert. destruct (Z.eqb_spec (as_pbase1 a) 0), (Z.eqb_spec (as_pbase2 a) 0), (Z.eqb_spec (as_stackpbase a) 0); try done.
    by destruct Hu.
  - intros [->|(Hft & p & a & Hc & Ha & Hl)]; [done|]. unfold mbind at 1, M_bind at 1, vm_fault. erewrite bind_ok by reflexivity.
    assert ((faulttype =? VM_FAULT_READONLY) = false ∧ negb ((faulttype =? VM_FAULT_READ) || (faulttype =? VM_FAULT_WRITE)) = false) as [-> ->]
      by (by destruct Hft as [-> | ->]).
    erewrite bind_ok by reflexivity. cbn [t_vmspace set_spl]. rewrite Hc. erewrite bind_ok by (unfold getas; cbn [spaces set_spl]; by rewrite Ha).
    unfold mbind at 1, M_bind at 1, massert. destruct (check_as a) eqn:E; [|done]. by apply check_as_loaded in E.
Qed.

Inductive vm_step : vmstate → vmstate → Prop :=
| vm_step_op o s s' : vm_allowed o s → vm_run o s = Ok (tt, s') → vm_step s s'.

(** One address space is new or gets its first memory. *)
Lemma inv_update s s' p a' :
  vm_inv s → tlb s' = tlb s → t_vmspace s' = t_vmspace s → spaces s' = <[p := a']> (spaces s) →
  ram_wf (phys s') → firstpaddr (phys s) ≤ firstpaddr (phys s') → (as_next s ≤ as_next s')%nat → (p < as_next s')%nat →
  (∀ a, spaces s !! p = Some a → unloaded a) →
  as_wf a' → (∀ pa, own a' pa → firstpaddr (phys s) ≤ pa < firstpaddr (phys s')) → vm_inv s'.
Proof.
  intros [I1 I2 I3 I4 I5 I6 I7] Et Ec Es Hw Hf Hn Hp Hold Hwf Hown. constructor; rewrite ?Et, ?Ec, ?Es; [done..| | | | |].
  - intros q b [[<- <-]|[Hne Hq]]%lookup_insert_Some; [done|]. specialize (I3 _ _ Hq). lia.
  - intros q b [[<- <-]|[Hne Hq]]%lookup_insert_Some; [done|]. by apply (I4 q).
  - intros q b pa [[<- <-]|[Hne Hq]]%lookup_insert_Some Ho; [by apply Hown|]. specialize (I5 _ _ _ Hq Ho). lia.
  - intros q q' b b' pa Hqq [[<- <-]|[Hne Hq]]%lookup_insert_Some [[<- <-]|[Hne' Hq']]%lookup_insert_Some Ho Ho'; [done|..].
    + specialize (Hown _ Ho). specialize (I5 _ _ _ Hq' Ho'). lia.
    + specialize (Hown _ Ho'). specialize (I5 _ _ _ Hq Ho). lia.
    + by apply (I6 q q' b b' pa).
  - intros q Hq. destruct (I7 q Hq) as (b & Hb & Hor). destruct (decide (q = p)) as [->|].
    + exists a'. rewrite lookup_insert_eq. split; [done|]. right. destruct Hor as [[(L & _) _]|?]; [|done].
      by destruct (Hold _ Hb) as (U & _).
    + exists b. by rewrite lookup_insert_ne.
Qed.

(** Taking memory without keeping it, or changing what address spaces do not depend on. *)
Lemma inv_frame s s' :
  vm_inv s → tlb s' = tlb s → t_vmspace s' = t_vmspace s → spaces s' = spaces s →
  ram_wf (phys s') → firstpaddr (phys s) ≤ firstpaddr (phys s') → (as_next s ≤ as_next s')%nat → vm_inv s'.
Proof.
  intros [I1 I2 I3 I4 I5 I6 I7] Et Ec Es Hw Hf Hn. constructor; rewrite ?Et, ?Ec, ?Es; [done..| | | | |]; eauto.
  - intros p a Hp. specialize (I3 _ _ Hp). lia.
  - intros p a pa Hp Ho. specialize (I5 _ _ _ Hp Ho). lia.
Qed.

Lemma inv_unused s : vm_inv s → spaces s !! as_next s = None.
Proof. intros I. apply eq_None_not_Some. intros [a Ha]. pose proof (vi_next _ I _ _ Ha). lia. Qed.

Lemma inv_create s : vm_inv s → ∃ s', vm_run OpCreate s = Ok (tt, s') ∧ vm_inv s'.
Proof.
  intros I. pose proof (inv_unused s I) as Hu. cbn [vm_run]. pose proof (as_create_run s) as E.
  destruct (default true (head (mem s))); erewrite bind_ok by exact E; eexists; (split; [reflexivity|]).
  - eapply (inv_update s _ (as_next s)); try done; cbn; try lia; [apply I|congruence|by apply unloaded_wf; [|left|left]|].
    intros pa Ho. by destruct (unloaded_own (mkas 0 0 0 0 0 0 0) pa).
  - apply (inv_frame s); try done. apply I.
Qed.

Lemma inv_destroy p s : vm_inv s → t_vmspace s ≠ Some p → ∃ s', vm_run (OpDestroy p) s = Ok (tt, s') ∧ vm_inv s'.
Proof.
  intros [I1 I2 I3 I4 I5 I6 I7] Hc. eexists. split; [reflexivity|].
  constructor; cbn; [done..| | | | |].
  - intros q a [_ Hq]%lookup_delete_Some. eauto.
  - intros q a [_ Hq]%lookup_delete_Some. eauto.
  - intros q a pa [_ Hq]%lookup_delete_Some. eauto.
  - intros q q' a b pa Hne [_ Hq]%lookup_delete_Some [_ Hq']%lookup_delete_Some. eauto.
  - intros q Hq. destruct (I7 q Hq) as (a & Ha & H). exists a. split; [|done]. rewrite lookup_delete_ne; [done|congruence].
Qed.

Lemma inv_define p v sz s :
  vm_inv s → vm_allowed (OpDefine p v sz) s → ∃ s', vm_run (OpDefine p v sz) s = Ok (tt, s') ∧ vm_inv s'.
Proof.
  intros I ((a & Ha & Hu) & Hv & Hs & Hb). cbn [vm_run]. pose proof (region_ok_for v sz Hv Hs Hb) as R. unfold PAGE_SIZE in Hv.
  pose proof (define_run p a v sz s Ha ltac:(lia) ltac:(lia) Hb) as E. pose proof (vi_wf _ I _ _ Ha) as [W1 W2 _ _ _].
  destruct (add_region _ _ a) as [a'|] eqn:Ea; (erewrite bind_ok by exact E); [|by exists s].
  assert (unloaded a' ∧ as_wf a') as [Hu' Hw'].
  { assert (unloaded a') as Hu' by (unfold add_region in Ea; destruct (as_vbase1 a =? 0), (as_vbase2 a =? 0); by simplify_eq).
    split; [done|]. unfold add_region in Ea. destruct (as_vbase1 a =? 0); [|destruct (as_vbase2 a =? 0)]; simplify_eq; apply unloaded_wf; cbn; unfold region_wf; auto. }
  eexists. split; [reflexivity|]. eapply (inv_update s _ p a'); try done; cbn.
  - apply I.
  - by apply (vi_next _ I p a).
  - intros b Hb'. congruence.
  - intros pa Ho. by destruct (unloaded_own a' pa).
Qed.

Lemma inv_prepare p s :
  vm_inv s → vm_allowed (OpPrepare p) s → ∃ s', vm_run (OpPrepare p) s = Ok (tt, s') ∧ vm_inv s'.
Proof.
  intros I (a & Ha & Hu). pose proof (vi_wf _ I _ _ Ha) as [R1 R2 _ _ _]. pose proof (region_wf_len _ _ R1) as L1.
  pose proof (region_wf_len _ _ R2) as L2. destruct (prepare_run p a s (vi_ram _ I) Ha Hu L1 L2) as (r & p1 & p2 & p3 & f' & Hpre & E).
  cbn [vm_run]. erewrite bind_ok by exact E. eexists. split; [reflexivity|].
  eapply (inv_update s _ p); try done; cbn.
  - apply Hpre.
  - apply Hpre.
  - by apply (vi_next _ I p a).
  - intros b Hb. congruence.
  - by eapply prepared_wf.
  - intros pa Ho. eapply prepared_own; [done|lia..|done].
Qed.

Lemma inv_copy p s : vm_inv s → vm_allowed (OpCopy p) s → ∃ s', vm_run (OpCopy p) s = Ok (tt, s') ∧ vm_inv s'.
Proof.
  intros I (a & Ha & Hl). pose proof (loaded_ok a (vi_wf _ I _ _ Ha) Hl) as Hok. pose proof (inv_unused s I) as Hu.
  destruct (copy_run p a s (vi_ram _ I) Ha Hok Hu) as (f' & Hw & Hf & H). cbn [vm_run].
  pose proof (ao_1 _ Hok) as R1. pose proof (ao_2 _ Hok) as R2. pose proof (region_len _ _ R1) as L1. pose proof (region_len _ _ R2) as L2.
  destruct (decide (can_copy a s)).
  - destruct H as (p1 & p2 & p3 & Hpre & E). erewrite bind_ok by exact E. eexists. split; [reflexivity|].
    eapply (inv_update s _ (as_next s)); try done; cbn; try lia.
    + intros b Hb. congruence.
    + by eapply prepared_wf; [|right|right].
    + intros pa Ho. eapply prepared_own; [done|lia..|done].
  - destruct H as (m & Hn & E). erewrite bind_ok by exact E. eexists. split; [reflexivity|]. by apply (inv_frame s).
Qed.

Lemma inv_switch o s : vm_inv s → vm_allowed (OpSwitch o) s → ∃ s', vm_run (OpSwitch o) s = Ok (tt, s') ∧ vm_inv s'.
Proof.
  intros I Ho. cbn [vm_run]. unfold switch. destruct o as [p|].
  - rewrite as_activate_run by apply I. eexists. split; [reflexivity|]. destruct I as [I1 I2 I3 I4 I5 I6 I7].
    constructor; try done. intros q [= <-]. destruct Ho as [a Ha]. exists a. split; [done|]. right. apply flushed_ok.
  - eexists. split; [reflexivity|]. destruct I as [I1 I2 I3 I4 I5 I6 I7]. constructor; try done.
Qed.

Lemma inv_fault ft va s : vm_inv s → vm_allowed (OpFault ft va) s → ∃ s', vm_run (OpFault ft va) s = Ok (tt, s') ∧ vm_inv s'.
Proof.
  intros I (Hva & Hm & Hro & Hl). cbn [vm_run].
  destruct (decide (ft = VM_FAULT_READ ∨ ft = VM_FAULT_WRITE)) as [Hft|Hft].
  2: { assert (vm_fault ft va s = Ok (EINVAL, s)) as E; [|erewrite bind_ok by exact E; by exists s].
       unfold vm_fault. erewrite bind_ok by reflexivity. rewrite !(proj2 (Z.eqb_neq ft _)) by tauto. cbn. by destruct s. }
  specialize (Hl Hft). destruct (t_vmspace s) as [p|] eqn:Hc.
  - destruct (vi_cur _ I p Hc) as (a & Ha & Hor). specialize (Hl p a eq_refl Ha). pose proof (loaded_ok a (vi_wf _ I _ _ Ha) Hl) as Hok.
    assert (tlb_ok a (tlb s)) as Ht by (destruct Hor as [[_ ?]|H]; [done|apply H]).
    pose proof (vm_fault_hit_run ft va s p a Hft Hva Hc Ha Hok (vi_tlb _ I)) as H.
    destruct (translate a (page va)) as [pa|] eqn:Etr; [|erewrite bind_ok by exact H; by exists s].
    destruct H as [(k & e & Hk & He & E)|[_ E]]; (erewrite bind_ok by exact E); [|by exists s]. eexists. split; [reflexivity|].
    pose proof (tlb_ok_insert a _ k e va pa Hok Ht Hk He ltac:(lia) Hm Etr) as Ht'. destruct I as [I1 I2 I3 I4 I5 I6 I7].
    constructor; try done; cbn; [by rewrite length_insert|]. intros q Hq. rewrite Hc in Hq. injection Hq as <-. exists a. split; [done|]. by left.
  - assert (vm_fault ft va s = Ok (EFAULT, set_spl SPL_HIGH s)) as E.
    { unfold vm_fault. erewrite bind_ok by reflexivity. destruct Hft as [-> | ->]; cbn; unfold mbind, M_bind, gets; cbn; by rewrite Hc. }
    erewrite bind_ok by exact E. eexists. split; [reflexivity|]. apply (inv_frame s); try done. apply I.
Qed.

Lemma vm_run_safe o s : vm_inv s → vm_allowed o s → ∃ s', vm_run o s = Ok (tt, s') ∧ vm_inv s'.
Proof.
  destruct o; eauto using inv_create, inv_destroy, inv_define, inv_prepare, inv_copy, inv_switch, inv_fault.
Qed.

(** ** Theorems *)
Record vm_boot (s : vmstate) : Prop := {
  vb_tlb : length (tlb s) = NUM_TLB;
  vb_ram : ram_wf (phys s);
  vb_spaces : spaces s = ∅;
  vb_cur : t_vmspace s = None
}.

Definition vm_reach (s : vmstate) : Prop := ∃ s0, vm_boot s0 ∧ rtc vm_step s0 s.

Lemma vm_reach_inv s : vm_reach s → vm_inv s.
Proof.
  intros (s0 & [B1 B2 B3 B4] & H).
  assert (vm_inv s0) as I.
  { constructor; rewrite ?B3, ?B4; try done; intros *; rewrite ?lookup_empty; done. }
  clear B1 B2 B3 B4. induction H as [|s1 s2 s3 [o s s' Ha Hr] _ IH]; [done|]. apply IH.
  destruct (vm_run_safe o s I Ha) as (s'' & E & I'). congruence.
Qed.


(** C25: A page fault of the current process on a page the TLB does not have: a mapped page goes into
    the TLB (if an entry is unused), after which the access reaches the byte the page table says and
    no other translation has changed; otherwise the fault is an EFAULT and nothing changes.  The
    interrupt level is as before, and the TLB still has translations of this address space only. *)
Theorem vm_fault_maps ft va s p a :
  ft = VM_FAULT_READ ∨ ft = VM_FAULT_WRITE → 0 ≤ va < 2 ^ 32 →
  t_vmspace s = Some p → spaces s !! p = Some a → as_ok a →
  length (tlb s) = NUM_TLB → tlb_ok a (tlb s) → tlb_lookup (tlb s) va = None →
  ∃ r t, vm_fault ft va s = Ok (r, set_tlb t s) ∧ tlb_ok a t ∧
    match translate a va with
    | Some pa =>
        if decide (Exists (fun e => valid e = false) (tlb s))
        then r = 0 ∧ ∀ va', 0 ≤ va' → tlb_lookup t va' = if decide (page va' = page va) then translate a va' else tlb_lookup (tlb s) va'
        else r = EFAULT ∧ t = tlb s
    | None => r = EFAULT ∧ t = tlb s
    end.
Proof.
  intros Hft Hva Hc Ha Hok Hlen Ht Hm. pose proof (vm_fault_hit_run ft va s p a Hft Hva Hc Ha Hok Hlen) as H.
  destruct (page_range va ltac:(lia)) as (_ & Hd & _ & _). rewrite (translate_page a va Hok) by lia.
  destruct (translate a (page va)) as [pa|] eqn:Etr; cbn [fmap option_fmap option_map].
  2: { exists EFAULT, (tlb s). by rewrite H, set_tlb_id. }
  destruct (translate_range _ _ _ Hok Etr Hd) as [Hpd _]. destruct H as [(k & e & Hk & He & E)|[Hall E]].
  - eexists 0, _. rewrite decide_True by (apply list.Exists_exists; exists e; split; [by eapply list_elem_of_lookup_2|done]).
    split_and!; [exact E|eapply tlb_ok_insert; eauto; lia|done|]. intros va' Hva'.
    rewrite (tlb_lookup_insert _ k e va pa va' Hk He Hpd Hm). destruct (decide _) as [Hpg|]; [|done].
    by rewrite (translate_page a va' Hok Hva'), Hpg, Etr.
  - exists EFAULT, (tlb s). rewrite decide_False by (intros (e & He & ?)%list.Exists_exists; specialize (Hall e He); congruence).
    by rewrite E, set_tlb_id.
Qed.

(** A fault with no address space returns without restoring the interrupt level: interrupts
    stay off. *)
Theorem vm_fault_no_space_keeps_spl ft va s :
  ft = VM_FAULT_READ ∨ ft = VM_FAULT_WRITE → t_vmspace s = None →
  vm_fault ft va s = Ok (EFAULT, set_spl SPL_HIGH s).
Proof.
  intros Hft Hc. unfold vm_fault. erewrite bind_ok by reflexivity.
  destruct Hft as [-> | ->]; cbn; unfold mbind, M_bind, gets; cbn; by rewrite Hc.
Qed.

(** ** Copies *)
Lemma moved_out dst src n m x : ¬ (dst ≤ x < dst + n) → moved dst src n m x = m x.
Proof. unfold moved. destruct (Z.leb_spec dst x), (Z.ltb_spec x (dst + n)); (done || lia). Qed.

Lemma moved_in dst src n m x : dst ≤ x < dst + n → moved dst src n m x = m (src + (x - dst)).
Proof. unfold moved. destruct (Z.leb_spec dst x), (Z.ltb_spec x (dst + n)); (done || lia). Qed.

Section copies.
Context (a : addrspace) (s : vmstate) (p1 p2 p3 f' : Z).
Context (Hok : as_ok a) (Hpre : prepared a s 0 p1 p2 p3 f').
Context (Hfit : firstpaddr (phys s) + as_total a ≤ lastpaddr (phys s)).
Context (Hlow : ∀ pa, own a pa → pa < firstpaddr (phys s)).

Let b := set_pbases p1 p2 p3 a.

Lemma prepared_at :
  p1 = firstpaddr (phys s) ∧ p2 = p1 + as_npages1 a * 4096 ∧ p3 = p2 + as_npages2 a * 4096 ∧ loaded b.
Proof.
  destruct Hpre as ((B1 & B2 & B3) & _ & _ & _ & _ & _ & Hr). rewrite decide_True in Hr by done. destruct Hr as (_ & P1 & P2 & P3).
  destruct B1 as [|[-> _]]; [done|]. destruct B2 as [|[-> _]]; [done|]. destruct B3 as [|[-> _]]; [done|]. split_and!; [done..|].
  destruct Hok as [[_ ? _ _] [_ ? _ _] _ _ _]. unfold loaded, b. cbn. split_and!; (done || lia).
Qed.

Lemma sizes : u32 (as_npages1 a * PAGE_SIZE) = as_npages1 a * 4096 ∧ u32 (as_npages2 a * PAGE_SIZE) = as_npages2 a * 4096 ∧
  0 < as_npages1 a ∧ 0 < as_npages2 a.
Proof.
  pose proof (region_len _ _ (ao_1 _ Hok)). pose proof (region_len _ _ (ao_2 _ Hok)). unfold PAGE_SIZE. rewrite !u32_small by lia. lia.
Qed.

(** Memory in use is not touched. *)
Lemma copied_low x : x < firstpaddr (phys s) → copied a b (pmem s) x = pmem s x.
Proof.
  intros Hx. destruct prepared_at as (E1 & E2 & E3 & _), sizes as (S1 & S2 & N1 & N2). unfold copied, b, set_pbases; cbn.
  rewrite S1, S2. rewrite !moved_out by lia. done.
Qed.

(** The copy has the bytes of the original at the same virtual addresses. *)
Lemma copied_translate va :
  match translate a va with
  | None => translate b va = None
  | Some pa => ∃ pb, translate b va = Some pb ∧ copied a b (pmem s) pb = pmem s pa
  end.
Proof.
  destruct prepared_at as (E1 & E2 & E3 & _), sizes as (S1 & S2 & N1 & N2).
  assert (loaded a) as Hl.
  { destruct Hok as [[_ ? _ _] [_ ? _ _] [_ ? _] [_ ? _] [_ ? _]]. unfold loaded. lia. }
  assert (∀ pa, translate a va = Some pa → pa < firstpaddr (phys s)) as Hb by (intros pa H; apply Hlow; by eapply translate_own).
  unfold translate in *. unfold b, copied, set_pbases; cbn [as_vbase1 as_npages1 as_vbase2 as_npages2 as_pbase1 as_pbase2 as_stackpbase].
  rewrite S1, S2. unfold within, DUMBVM_STACKPAGES, PAGE_SIZE in *.
  repeat case_decide; try done; specialize (Hb _ eq_refl); eexists; (split; [reflexivity|]).
  - rewrite !(moved_out p3), !(moved_out p2), moved_in by lia. f_equal. lia.
  - rewrite !(moved_out p3), (moved_in p2), moved_out by lia. f_equal. lia.
  - rewrite (moved_in p3) by lia. rewrite !moved_out by lia. f_equal. lia.
Qed.
End copies.

(** C28: [as_copy] of a loaded address space succeeds exactly when [kmalloc] does and the pages fit.
    The copy then has the same bytes at the same virtual addresses and maps no others, and the
    memory of the original and of every other address space is unchanged; a copy that fails
    returns ENOMEM and leaves no address space behind. *)
Theorem as_copy_same s p a :
  vm_reach s → spaces s !! p = Some a → loaded a →
  if decide (can_copy a s)
  then ∃ q b s', as_copy p s = Ok (inr q, s') ∧ spaces s !! q = None ∧ spaces s' = <[q := b]> (spaces s) ∧ loaded b ∧
    (∀ va, match translate a va with
           | None => translate b va = None
           | Some pa => ∃ pb, translate b va = Some pb ∧ pmem s' pb = pmem s pa
           end) ∧
    ∀ q' c pa, spaces s !! q' = Some c → own c pa → pmem s' pa = pmem s pa
  else ∃ s', as_copy p s = Ok (inl ENOMEM, s') ∧ spaces s' = spaces s ∧ pmem s' = pmem s.
Proof.
  intros I%vm_reach_inv Ha Hl. pose proof (loaded_ok a (vi_wf _ I _ _ Ha) Hl) as Hok. pose proof (inv_unused s I) as Hu.
  destruct (copy_run p a s (vi_ram _ I) Ha Hok Hu) as (f' & Hw & Hf & H). destruct (decide (can_copy a s)) as [[_ Hfit]|].
  - destruct H as (p1 & p2 & p3 & Hpre & E). exists (as_next s). eexists _, _. split_and!; [exact E|done|reflexivity|..].
    + by eapply prepared_at.
    + intros va. eapply copied_translate; try done. intros pa. by apply (vi_low _ I p a).
    + intros q' c pa Hc Ho. eapply copied_low; try done. by apply (vi_low _ I q' c).
  - destruct H as (m & _ & E). eexists. by split_and!; [exact E|..].
Qed.

(** A segment from [v] of [sz] bytes becomes a region of exactly the pages that hold one of its
    bytes; the third is refused.  The arithmetic does not wrap for a segment below the stack. *)
Theorem as_define_region_exact p a v sz s :
  spaces s !! p = Some a → 0 ≤ v → 0 < sz → v + sz ≤ STACKBASE →
  ∃ base n, (∀ x, within x base n ↔ ∃ y, v ≤ y < v + sz ∧ page x = page y) ∧
    as_define_region p v sz s =
      match add_region base n a with
      | Some a' => Ok (0, set_spaces (<[p := a']> (spaces s)) (as_next s) s)
      | None => Ok (EUNIMP, s)
      end.
Proof.
  intros Hp Hv Hs Hb. exists (page v), (npages_for v sz). split; [intros x; by apply region_pages|]. apply define_run; (done || lia).
Qed.

(** A program with a single segment is loaded, but its first page fault panics the kernel: the second
    region of its address space was never defined. *)
Theorem vm_fault_one_segment_panics ft va s p a :
  ft = VM_FAULT_READ ∨ ft = VM_FAULT_WRITE → t_vmspace s = Some p →
  spaces s !! p = Some a → as_vbase2 a = 0 → vm_fault ft va s = Panic.
Proof.
  intros Hft Hc Ha Hv. unfold vm_fault. erewrite bind_ok by reflexivity. cbv beta zeta.
  assert ((ft =? VM_FAULT_READONLY) = false) as -> by (destruct Hft as [-> | ->]; done).
  assert (negb ((ft =? VM_FAULT_READ) || (ft =? VM_FAULT_WRITE)) = false) as -> by (destruct Hft as [-> | ->]; done).
  erewrite bind_ok by reflexivity. cbn [t_vmspace set_spl]. rewrite Hc.
  erewrite bind_ok by (unfold getas; cbn [spaces set_spl]; by rewrite Ha).
  assert (check_as a = false) as Hk by (unfold check_as; rewrite Hv; cbn; by rewrite !andb_false_r).
  unfold mbind, M_bind, massert. by rewrite Hk.
Qed.

(** ** A concrete run: a program with two segments is loaded, run, and faults on its first page *)
Definition after (o : vm_op) (s : vmstate) : vmstate :=
  match vm_run o s with
  | Ok (_, s') => s'
  | _ => s
  end.

Definition demo0 : vmstate := mkvm flushed (mkram 8192 1048576) (fun x => x `mod` 256) ∅ 0 None 0 [].
Definition demo1 : vmstate := after (OpDefine 0 4194304 5000) (after OpCreate demo0).
Definition demo2 : vmstate := after (OpDefine 0 268435456 16) demo1.
Definition demo3 : vmstate := after (OpSwitch (Some 0%nat)) (after (OpPrepare 0) demo2).
Definition demo4 : vmstate := after (OpFault VM_FAULT_READ 4194595) demo3.

Definition demo_as : addrspace := mkas 4194304 8192 2 268435456 16384 1 20480.

Lemma demo_regions : region_ok 4194304 2 ∧ region_ok 268435456 1.
Proof. split; constructor; unfold PAGE_SIZE; try done; [by exists 1024|by exists 65536]. Qed.

Lemma demo_ok : as_ok demo_as.
Proof.
  destruct demo_regions. constructor; [done..| | |]; constructor; unfold PAGE_SIZE; try done; [by exists 2|by exists 4|by exists 5].
Qed.

Lemma demo_boot : vm_boot demo0.
Proof. constructor; try done. constructor; cbn; unfold PAGE_SIZE, MAXRAM; try lia. by exists 2. Qed.

Lemma demo_step o s : vm_allowed o s → is_ok (vm_run o s) = true → vm_step s (after o s).
Proof.
  intros Ha Hr. apply (vm_step_op o); [done|]. unfold after. destruct (vm_run o s) as [[[] s']| | |]; done.
Qed.

Lemma demo_reach : vm_reach demo4.
Proof.
  exists demo0. split; [apply demo_boot|]. unfold demo4, demo3, demo2, demo1.
  eapply rtc_l; [apply (demo_step OpCreate); [done|by vm_compute]|].
  eapply rtc_l; [apply (demo_step (OpDefine 0 4194304 5000)); [|by vm_compute]|].
  { split; [eexists; split; [vm_compute; reflexivity|done]|done]. }
  eapply rtc_l; [apply (demo_step (OpDefine 0 268435456 16)); [|by vm_compute]|].
  { split; [eexists; split; [vm_compute; reflexivity|done]|done]. }
  eapply rtc_l; [apply (demo_step (OpPrepare 0)); [|by vm_compute]|].
  { eexists. split; [vm_compute; reflexivity|done]. }
  eapply rtc_l; [apply (demo_step (OpSwitch (Some 0%nat))); [eexists; vm_compute; reflexivity|by vm_compute]|].
  eapply rtc_l; [apply (demo_step (OpFault VM_FAULT_READ 4194595)); [|by vm_compute]|apply rtc_refl].
  split_and!; [done|done|by vm_compute|done|]. intros _ p a Hp. vm_compute in Hp. injection Hp as <-.
  intros Ha. vm_compute in Ha. by injection Ha as <-.
Qed.


Lemma vm_fault_maps_witness :
  ∃ r t, vm_fault VM_FAULT_READ 4194595 demo3 = Ok (r, set_tlb t demo3) ∧ tlb_ok demo_as t ∧ r = 0 ∧
    tlb_lookup t 4194596 = Some 8484.
Proof.
  assert (tlb demo3 = flushed) as Etlb by (by vm_compute).
  destruct (vm_fault_maps VM_FAULT_READ 4194595 demo3 0 demo_as) as (r & t & E & Ht & H);
    [by left|lia|by vm_compute|by vm_compute|apply demo_ok|by vm_compute|rewrite Etlb; apply flushed_ok|by vm_compute|].
  exists r, t. change (translate demo_as 4194595) with (Some 8483) in H. rewrite Etlb in H.
  assert (Exists (fun e => valid e = false) flushed) as Hex by (by left).
  rewrite decide_True in H by exact Hex. destruct H as [-> H]. split_and!; [exact E|exact Ht|reflexivity|]. rewrite H by lia. reflexivity.
Defined.

Lemma vm_fault_no_space_keeps_spl_witness :
  vm_fault VM_FAULT_READ 64 demo0 = Ok (EFAULT, set_spl SPL_HIGH demo0) ∧ curspl demo0 = 0.
Proof. split; [|done]. apply vm_fault_no_space_keeps_spl; [by left|done]. Defined.

Lemma as_copy_same_witness :
  ∃ q b s', as_copy 0 demo4 = Ok (inr q, s') ∧ loaded b ∧ ∃ pb, translate b 4194595 = Some pb ∧ pmem s' pb = 35.
Proof.
  assert (loaded demo_as) as Hl by done.
  pose proof (as_copy_same demo4 0 demo_as demo_reach ltac:(by vm_compute) Hl) as H.
  rewrite decide_True in H by (split; by vm_compute). destruct H as (q & b & s' & E & _ & _ & Hb & H & _).
  exists q, b, s'. split_and!; [exact E|exact Hb|]. specialize (H 4194595). change (translate demo_as 4194595) with (Some 8483) in H.
  destruct H as (pb & E1 & E2). exists pb. split; [exact E1|]. rewrite E2. by vm_compute.
Defined.

Lemma as_define_region_exact_witness :
  ∃ base n, (∀ x, within x base n ↔ ∃ y, 268439000 ≤ y < 268439000 + 200 ∧ page x = page y) ∧
    as_define_region 0 268439000 200 demo1 =
      Ok (0, set_spaces (<[0%nat := mkas 4194304 0 2 base 0 n 0]> (spaces demo1)) (as_next demo1) demo1).
Proof.
  destruct (as_define_region_exact 0 (mkas 4194304 0 2 0 0 0 0) 268439000 200 demo1) as (base & n & H & E);
    [by vm_compute|lia|lia|by vm_compute|]. exists base, n. split; [exact H|exact E].
Defined.

Lemma vm_fault_one_segment_panics_witness :
  vm_fault VM_FAULT_READ 4194304 (after (OpSwitch (Some 0%nat)) (after (OpPrepare 0) demo1)) = Panic.
Proof.
  apply (vm_fault_one_segment_panics _ _ _ 0 (mkas 4194304 8192 2 0 16384 0 16384)); [by left|by vm_compute..].
Defined.

End Dumbvmspec.
