(* ===== verification/Printf.v ===== *)
(** * Formatted printing (lib/libc/__printf.c and snprintf.c, linked into the kernel and libc)

    [PF] is the state of one [printf]; the callback [sendfunc] and its [clientdata] are a
    parameter and a field, as in the code.  The variable arguments are a list: an integer ([ArgInt], the
    32 bits of an [int], [long] or pointer) or a string ([ArgStr], [None] for NULL); taking an
    argument that is missing or of the other kind is [Undef].  Signed overflow is [Undef] too.

    Printfspec.v gives the meaning of a format string independently of this state machine. *)
From stdpp Require Import base list numbers.
From S2P Require Import Prelude Cstring.
Local Open Scope Z_scope.

Module Printf.
Import Cstring.

Inductive arg :=
| ArgInt (z : Z)
| ArgStr (s : option (list Z)).

Inductive intsize := INTSZ | LONGSZ.

Definition NUMBER_BUF_SIZE : Z := (4 * 8) `div` 3 + 2.

(** The result of signed arithmetic on an [int]. *)
Definition int_arith (z : Z) : outcome Z := if (- 2 ^ 31 <=? z) && (z <? 2 ^ 31) then Ok z else Undef.

(** String constants. *)
Definition str_empty : list Z := [0].
Definition str_minus : list Z := [45; 0].
Definition str_0x : list Z := [48; 120; 0].
Definition str_0 : list Z := [48; 0].
Definition str_null : list Z := [40; 110; 117; 108; 108; 41; 0].
Definition str_modifiers : list Z := [35; 45; 113; 108; 48; 49; 50; 51; 52; 53; 54; 55; 56; 57; 0].   (* "#-ql0123456789" *)
Definition str_integers : list Z := [100; 111; 117; 112; 120; 0].   (* "doupx" *)
Definition hex_digits : list Z := [48; 49; 50; 51; 52; 53; 54; 55; 56; 57; 97; 98; 99; 100; 101; 102; 0].

Section printf.
Context {C : Type} (sendfunc : C → list Z → outcome C).

Record PF := mkpf {
  clientdata : C;
  ap : list arg;
  charcount : Z;
  in_pct : bool;
  size : intsize;
  num : Z;
  sign : Z;
  spacing : Z;
  rightspc : bool;
  fillchar : Z;
  base : Z;
  baseprefix : bool;
  altformat : bool
}.

Abbreviation P := (M PF).

Definition set_out (c : C) (n : Z) (pf : PF) : PF :=
  mkpf c (ap pf) n (in_pct pf) (size pf) (num pf) (sign pf) (spacing pf) (rightspc pf) (fillchar pf) (base pf) (baseprefix pf) (altformat pf).
Definition set_ap (a : list arg) (pf : PF) : PF :=
  mkpf (clientdata pf) a (charcount pf) (in_pct pf) (size pf) (num pf) (sign pf) (spacing pf) (rightspc pf) (fillchar pf) (base pf) (baseprefix pf) (altformat pf).
Definition set_in_pct (b : bool) (pf : PF) : PF :=
  mkpf (clientdata pf) (ap pf) (charcount pf) b (size pf) (num pf) (sign pf) (spacing pf) (rightspc pf) (fillchar pf) (base pf) (baseprefix pf) (altformat pf).
Definition set_size (z : intsize) (pf : PF) : PF :=
  mkpf (clientdata pf) (ap pf) (charcount pf) (in_pct pf) z (num pf) (sign pf) (spacing pf) (rightspc pf) (fillchar pf) (base pf) (baseprefix pf) (altformat pf).
Definition set_num (n sg : Z) (pf : PF) : PF :=
  mkpf (clientdata pf) (ap pf) (charcount pf) (in_pct pf) (size pf) n sg (spacing pf) (rightspc pf) (fillchar pf) (base pf) (baseprefix pf) (altformat pf).
Definition set_spacing (n : Z) (pf : PF) : PF :=
  mkpf (clientdata pf) (ap pf) (charcount pf) (in_pct pf) (size pf) (num pf) (sign pf) n (rightspc pf) (fillchar pf) (base pf) (baseprefix pf) (altformat pf).
Definition set_rightspc (b : bool) (pf : PF) : PF :=
  mkpf (clientdata pf) (ap pf) (charcount pf) (in_pct pf) (size pf) (num pf) (sign pf) (spacing pf) b (fillchar pf) (base pf) (baseprefix pf) (altformat pf).
Definition set_fillchar (c : Z) (pf : PF) : PF :=
  mkpf (clientdata pf) (ap pf) (charcount pf) (in_pct pf) (size pf) (num pf) (sign pf) (spacing pf) (rightspc pf) c (base pf) (baseprefix pf) (altformat pf).
Definition set_base (b : Z) (p : bool) (pf : PF) : PF :=
  mkpf (clientdata pf) (ap pf) (charcount pf) (in_pct pf) (size pf) (num pf) (sign pf) (spacing pf) (rightspc pf) (fillchar pf) b p (altformat pf).
Definition set_altformat (b : bool) (pf : PF) : PF :=
  mkpf (clientdata pf) (ap pf) (charcount pf) (in_pct pf) (size pf) (num pf) (sign pf) (spacing pf) (rightspc pf) (fillchar pf) (base pf) (baseprefix pf) b.

(** [va_arg]. *)
Definition va_int : P Z := fun pf =>
  match ap pf with
  | ArgInt z :: r => Ok (z, set_ap r pf)
  | _ => Undef
  end.

Definition va_str : P (option (list Z)) := fun pf =>
  match ap pf with
  | ArgStr s :: r => Ok (s, set_ap r pf)
  | _ => Undef
  end.

(** Sends [len] bytes of [txt]; [charcount += len] is unsigned arithmetic stored in an [int]. *)
Definition __pf_print (txt : list Z) (len : Z) : P unit := fun pf =>
  if Z.of_nat (length txt) <? len then Undef
  else
    match sendfunc (clientdata pf) (take (Z.to_nat len) txt) with
    | Ok c => Ok (tt, set_out c (i32 (charcount pf + len)) pf)
    | Panic => Panic
    | Undef => Undef
    | Spin => Spin
    end.

Definition __pf_endfield : P unit :=
  modify (fun pf => mkpf (clientdata pf) (ap pf) (charcount pf) false INTSZ 0 0 0 false 32 0 false false).

Definition __pf_modifier (ch : Z) : P unit :=
  if ch =? 35 then modify (set_altformat true)
  else if ch =? 45 then modify (set_rightspc true)
  else if ch =? 108 then modify (set_size LONGSZ)
  else if ch =? 113 then modify (set_size LONGSZ)
  else
    let* sp := gets spacing in
    if ch =? 48 then
      if sp >? 0 then
        let* n := lift (int_arith (sp * 10)) in
        modify (set_spacing n)
      else modify (set_fillchar 48)
    else
      let* _ := massert ((ch >? 48) && (ch <=? 57)) in
      let* n := lift (int_arith (sp * 10 + (ch - 48))) in
      modify (set_spacing n).

(** [int] and [long] have the same size on this machine. *)
Definition __pf_getnum (ch : Z) : P unit :=
  let* z := va_int in
  if ch =? 112 then let* sg := gets sign in modify (set_num (u32 z) sg)
  else if ch =? 100 then
    let signednum := i32 z in
    if signednum <? 0 then
      let* n := lift (int_arith (- signednum)) in
      modify (set_num n (-1))
    else let* sg := gets sign in modify (set_num signednum sg)
  else let* sg := gets sign in modify (set_num (u32 z) sg).

Definition __pf_setbase (ch : Z) : P unit :=
  let* alt := gets altformat in
  let* b0 := gets base in
  let* p0 := gets baseprefix in
  let b := if (ch =? 100) || (ch =? 117) then 10
           else if (ch =? 120) || (ch =? 112) then 16
           else if ch =? 111 then 8 else b0 in
  modify (set_base b (if (alt || (ch =? 112)) then true else p0)).

Fixpoint fill_loop (n : nat) (f : Z) : P unit :=
  match n with
  | O => mret tt
  | S n' =>
      let* _ := __pf_print [f] 1 in
      fill_loop n' f
  end.

Definition __pf_fill (spc : Z) : P unit :=
  let* f := gets fillchar in
  fill_loop (Z.to_nat spc) f.

Definition __pf_printstuff (prefix prefix2 stuff : list Z) : P unit :=
  let* n1 := lift (strlen prefix) in
  let* n2 := lift (strlen prefix2) in
  let* n3 := lift (strlen stuff) in
  let len := i32 (n1 + n2 + n3) in
  let* sp := gets spacing in
  let* right := gets rightspc in
  let* fc := gets fillchar in
  let spc := if sp >? len then sp - len else 0 in
  let* _ := (if (spc >? 0) && negb right && negb (fc =? 48) then __pf_fill spc else mret tt) in
  let* _ := __pf_print prefix n1 in
  let* _ := __pf_print prefix2 n2 in
  let* _ := (if (spc >? 0) && negb right && (fc =? 48) then __pf_fill spc else mret tt) in
  let* _ := __pf_print stuff n3 in
  if (spc >? 0) && right then __pf_fill spc else mret tt.

(** The conversion loop, from the last slot of the buffer down: [x] is the next slot to use. *)
Fixpoint digit_loop (fuel : nat) (x : Z) (buf : list Z) (xnum base : Z) : outcome (Z * list Z) :=
  match fuel with
  | O => Spin
  | S fuel' =>
      if base =? 0 then Undef
      else
        match hex_digits !! Z.to_nat (xnum `mod` base) with
        | None => Undef
        | Some d =>
            if (x <? 0) || (Z.of_nat (length buf) <=? x) then Undef
            else
              let buf := <[Z.to_nat x := d]> buf in
              let x := x - 1 in
              let xnum := xnum `div` base in
              if xnum >? 0 then digit_loop fuel' x buf xnum base else Ok (x, buf)
        end
  end.

Definition __pf_printnum : P unit :=
  let buf := replicate (Z.to_nat NUMBER_BUF_SIZE) 0 in
  let x := NUMBER_BUF_SIZE - 1 in
  let buf := <[Z.to_nat x := 0]> buf in
  let x := x - 1 in
  let* xnum := gets num in
  let* b := gets base in
  let* '(x, buf) := lift (digit_loop 33 x buf xnum b) in
  let x := x + 1 in
  let* bp := gets baseprefix in
  let bprefix := if bp && (b =? 16) then str_0x else if bp && (b =? 8) then str_0 else str_empty in
  let* sg := gets sign in
  let sprefix := if negb (sg =? 0) then str_minus else str_empty in
  __pf_printstuff sprefix bprefix (drop (Z.to_nat x) buf).

Definition __pf_send (ch : Z) : P unit :=
  let* _ := massert (negb (ch =? 0)) in
  let* pct := gets in_pct in
  if negb pct && negb (ch =? 37) then __pf_print [ch] 1
  else if negb pct then modify (set_in_pct true)
  else
    let* m := lift (strchr str_modifiers ch) in
    match m with
    | Some _ => __pf_modifier ch
    | None =>
        let* n := lift (strchr str_integers ch) in
        match n with
        | Some _ =>
            let* _ := __pf_getnum ch in
            let* _ := __pf_setbase ch in
            let* _ := __pf_printnum in
            __pf_endfield
        | None =>
            if ch =? 115 then
              let* s := va_str in
              let* _ := __pf_printstuff str_empty str_empty (default str_null s) in
              __pf_endfield
            else
              let* x0 := (if ch =? 99 then let* z := va_int in mret (u8 z) else mret ch) in
              let* _ := __pf_printstuff str_empty str_empty [x0; 0] in
              __pf_endfield
        end
    end.

(** [for (i=0; format[i]; i++)]. *)
Fixpoint format_loop (format : list Z) : P unit :=
  match format with
  | [] => lift Undef
  | c :: format' =>
      if c =? 0 then mret tt
      else
        let* _ := __pf_send c in
        format_loop format'
  end.

(** Hands back the client's data and the count of characters. *)
Definition __vprintf (clientdata0 : C) (format : list Z) (ap0 : list arg) : outcome (C * Z) :=
  match (let* _ := __pf_endfield in format_loop format)
          (mkpf clientdata0 ap0 0 false INTSZ 0 0 0 false 0 0 false false) with
  | Ok (_, pf) => Ok (clientdata pf, charcount pf)
  | Panic => Panic
  | Undef => Undef
  | Spin => Spin
  end.
End printf.

Arguments PF C : clear implicits.

(** ** Printing into a buffer *)
Record SNP := mksnp {
  snp_buf : list Z;
  snp_buflen : Z;
  snp_bufpos : Z
}.

Fixpoint __snprintf_send (snp : SNP) (data : list Z) : outcome SNP :=
  match data with
  | [] => Ok snp
  | c :: data' =>
      if snp_bufpos snp <? snp_buflen snp then
        if Z.of_nat (length (snp_buf snp)) <=? snp_bufpos snp then Undef
        else __snprintf_send (mksnp (<[Z.to_nat (snp_bufpos snp) := c]> (snp_buf snp)) (snp_buflen snp) (u32 (snp_bufpos snp + 1))) data'
      else __snprintf_send snp data'
  end.

Definition vsnprintf (buf : list Z) (len : Z) (fmt : list Z) (ap : list arg) : outcome (list Z * Z) :=
  let* '(snp, chars) := __vprintf __snprintf_send (mksnp buf (if len =? 0 then 0 else len - 1) 0) fmt ap in
  if len >? 0 then
    if Z.of_nat (length (snp_buf snp)) <=? snp_bufpos snp then Undef
    else Ok (<[Z.to_nat (snp_bufpos snp) := 0]> (snp_buf snp), chars)
  else Ok (snp_buf snp, chars).

Definition snprintf (buf : list Z) (len : Z) (fmt : list Z) (args : list arg) : outcome (list Z * Z) :=
  vsnprintf buf len fmt args.

Example snprintf_hex : snprintf (replicate 12 7) 12 [97; 37; 35; 48; 54; 120; 33; 0] [ArgInt 255] =
  Ok ([97; 48; 120; 48; 48; 102; 102; 33; 0; 7; 7; 7], 8).
Proof. reflexivity. Qed.

End Printf.
