(* ===== verification/Printfspec.v ===== *)
(** * The meaning of format strings, and the proof that __printf.c implements it

    [parse] splits a format string into literal characters and directives (the modifiers of a directive
    and its conversion), [render] gives the text of each, without reference to the state machine of
    the code; it is [None] where the C code has undefined behaviour.  The output goes through a callback
    ([Sender]: what such a callback promises), of which [snprintf]'s is an instance. *)
From stdpp Require Import base list numbers.
From S2P Require Import Prelude Cstring Printf.
Local Open Scope Z_scope.

Module Printfspec.
Import Cstring Printf.

(** ** Numbers *)
Definition hex (d : Z) : Z := if d <? 10 then 48 + d else 87 + d.

(** The digits of [n], most significant first; [fuel] digits are enough for [n < b ^ fuel]. *)
Fixpoint num_text (fuel : nat) (b n : Z) : list Z :=
  match fuel with
  | O => []
  | S fuel' => (if n <? b then [] else num_text fuel' b (n `div` b)) ++ [hex (n `mod` b)]
  end.

Definition NUMFUEL : nat := 33.

(** ** Directives *)
Definition mod_chars : list Z := [35; 45; 113; 108; 48; 49; 50; 51; 52; 53; 54; 55; 56; 57].
Definition int_chars : list Z := [100; 111; 117; 112; 120].

Inductive item :=
| Lit (c : Z)
| Dir (mods : list Z) (conv : Z)
| Open (mods : list Z).

Fixpoint parse (pct : option (list Z)) (l : list Z) : list item :=
  match l with
  | [] => match pct with None => [] | Some mods => [Open mods] end
  | c :: l' =>
      match pct with
      | None => if c =? 37 then parse (Some []) l' else Lit c :: parse None l'
      | Some mods => if decide (c ∈ mod_chars) then parse (Some (mods ++ [c])) l' else Dir mods c :: parse None l'
      end
  end.

Definition f_digits (mods : list Z) : list Z := filter (fun c => 48 ≤ c ≤ 57) mods.
Definition f_width (mods : list Z) : Z := foldl (fun v c => v * 10 + (c - 48)) 0 (f_digits mods).
Definition f_fill (mods : list Z) : Z := if decide (head (f_digits mods) = Some 48) then 48 else 32.
Definition f_alt (mods : list Z) : bool := bool_decide (35 ∈ mods).
Definition f_left (mods : list Z) : bool := bool_decide (45 ∈ mods).

(** Text in a field: padded on the right, after the prefix with zeros, or on the left. *)
Definition field (left : bool) (fill width : Z) (prefix body : list Z) : list Z :=
  let pad := replicate (Z.to_nat (width - Z.of_nat (length (prefix ++ body)))) fill in
  if left then prefix ++ body ++ pad else if fill =? 48 then prefix ++ pad ++ body else pad ++ prefix ++ body.

Definition base_of (conv : Z) : Z := if conv =? 111 then 8 else if (conv =? 120) || (conv =? 112) then 16 else 10.

Definition prefix_of (alt : bool) (conv : Z) : list Z :=
  if alt || (conv =? 112) then if base_of conv =? 16 then [48; 120] else if base_of conv =? 8 then [48] else [] else [].

Definition render_int (mods : list Z) (conv z : Z) : option (list Z) :=
  let n := if conv =? 100 then i32 z else u32 z in
  if n =? - 2 ^ 31 then None
  else Some (field (f_left mods) (f_fill mods) (f_width mods)
              ((if n <? 0 then [45] else []) ++ prefix_of (f_alt mods) conv) (num_text NUMFUEL (base_of conv) (Z.abs n))).

Definition render_text (mods body : list Z) : list Z := field (f_left mods) (f_fill mods) (f_width mods) [] body.

Definition null_text : list Z := [40; 110; 117; 108; 108; 41].

Definition render_dir (mods : list Z) (conv : Z) (args : list arg) : option (list Z * list arg) :=
  if decide (conv ∈ int_chars) then
    match args with
    | ArgInt z :: r => t ← render_int mods conv z; Some (t, r)
    | _ => None
    end
  else if conv =? 115 then
    match args with
    | ArgStr None :: r => Some (render_text mods null_text, r)
    | ArgStr (Some s) :: r => l ← cstr s; Some (render_text mods l, r)
    | _ => None
    end
  else if conv =? 99 then
    match args with
    | ArgInt z :: r => Some (render_text mods (if u8 z =? 0 then [] else [u8 z]), r)
    | _ => None
    end
  else Some (render_text mods [conv], args).

Fixpoint render (items : list item) (args : list arg) : option (list Z) :=
  match items with
  | [] => Some []
  | Lit c :: items' => t ← render items' args; Some (c :: t)
  | Dir mods conv :: items' =>
      if decide (f_width mods < 2 ^ 31) then '(t, args') ← render_dir mods conv args; t' ← render items' args'; Some (t ++ t') else None
  | Open mods :: items' => if decide (f_width mods < 2 ^ 31) then render items' args else None
  end.

(** The text of a format string. *)
Definition format (fmt : list Z) (args : list arg) : option (list Z) := render (parse None fmt) args.

(** ** Digits *)
Lemma i32_add a b : i32 (i32 a + b) = i32 (a + b).
Proof.
  unfold i32. f_equal. replace ((a + 2 ^ 31) `mod` 2 ^ 32 - 2 ^ 31 + b + 2 ^ 31) with ((a + 2 ^ 31) `mod` 2 ^ 32 + b) by lia.
  rewrite Zplus_mod_idemp_l. f_equal. lia.
Qed.

Lemma hex_lookup d : 0 ≤ d < 16 → hex_digits !! Z.to_nat d = Some (hex d).
Proof.
  intros Hd. assert (∀ k, (k < 16)%nat → hex_digits !! k = Some (hex (Z.of_nat k))) as H.
  { intros k Hk. do 16 (destruct k as [|k]; [done|]). lia. }
  rewrite H by lia. by rewrite Z2Nat.id by lia.
Qed.

Lemma num_text_length fuel b n k : 2 ≤ b → 0 ≤ n < b ^ Z.of_nat k → (1 ≤ k)%nat → (length (num_text fuel b n) ≤ k)%nat.
Proof.
  intros Hb. revert n k. induction fuel as [|fuel IH]; intros n k Hn Hk; cbn [num_text]; [cbn; lia|].
  rewrite length_app. cbn [length]. destruct (Z.ltb_spec n b) as [|Hge]; [cbn; lia|].
  destruct k as [|[|k]]; [lia|rewrite Z.pow_1_r in Hn; lia|].
  assert (0 ≤ n `div` b < b ^ Z.of_nat (S k)) as Hd.
  { split; [apply Z.div_pos; lia|]. apply Z.div_lt_upper_bound; [lia|]. rewrite <- Z.pow_succ_r by lia. rewrite <- Nat2Z.inj_succ. lia. }
  specialize (IH (n `div` b) (S k) Hd). lia.
Qed.

Lemma digit_loop_run fuel b x buf n :
  2 ≤ b ≤ 16 → (fuel ≠ 0)%nat → 0 ≤ n < b ^ Z.of_nat fuel → Z.of_nat (length (num_text fuel b n)) ≤ x + 1 → x < Z.of_nat (length buf) →
  ∃ buf', digit_loop fuel x buf n b = Ok (x - Z.of_nat (length (num_text fuel b n)), buf') ∧ length buf' = length buf ∧
    drop (Z.to_nat (x - Z.of_nat (length (num_text fuel b n)) + 1)) buf' = num_text fuel b n ++ drop (Z.to_nat (x + 1)) buf.
Proof.
  intros Hb. revert x buf n. induction fuel as [|fuel IH]; intros x buf n Hf Hn Hx Hlen; [done|].
  cbn [num_text digit_loop] in *. rewrite length_app in *. cbn [length] in *.
  pose proof (Z.mod_pos_bound n b ltac:(lia)) as Hm.
  rewrite (proj2 (Z.eqb_neq b 0)), hex_lookup by lia. rewrite (proj2 (Z.ltb_ge x 0)), (proj2 (Z.leb_gt _ x)) by lia. cbn [orb].
  set (buf1 := <[Z.to_nat x := hex (n `mod` b)]> buf).
  assert (length buf1 = length buf) as Hl1 by apply length_insert.
  assert (drop (Z.to_nat x) buf1 = hex (n `mod` b) :: drop (Z.to_nat (x + 1)) buf) as Hd1.
  { unfold buf1. erewrite drop_S_lookup by (apply list_lookup_insert_eq; lia). f_equal.
    rewrite drop_insert_lt by lia. f_equal. lia. }
  destruct (Z.ltb_spec n b) as [Hlt|Hge].
  - rewrite Z.div_small by lia. cbn [Z.gtb Z.compare]. exists buf1. cbn [length app].
    split_and!; [f_equal; f_equal; lia|done|]. rewrite <- Hd1. f_equal. lia.
  - assert (0 < n `div` b) as Hpos by (apply Z.div_str_pos; lia). rewrite (proj2 (Z.gtb_lt _ 0)) by lia.
    assert (0 ≤ n `div` b < b ^ Z.of_nat fuel) as Hd.
    { split; [lia|]. apply Z.div_lt_upper_bound; [lia|]. rewrite <- Z.pow_succ_r by lia. rewrite <- Nat2Z.inj_succ. lia. }
    destruct (IH (x - 1) buf1 (n `div` b) ltac:(intros ->; rewrite Z.pow_0_r in Hd; lia) Hd ltac:(lia) ltac:(lia)) as (buf' & E & Hl & Hdrop).
    exists buf'. rewrite E. split_and!; [f_equal; f_equal; lia|congruence|].
    rewrite <- app_assoc. cbn [app]. rewrite <- Hd1. replace (Z.to_nat x) with (Z.to_nat (x - 1 + 1)) by lia. rewrite <- Hdrop. f_equal. lia.
Qed.

(** ** Sending output *)

(** What [__vprintf] relies on of a callback: it takes the bytes, in any portions. *)
Class Sender (C : Type) (sendfunc : C → list Z → outcome C) := {
  ready : C → Prop;
  push : list Z → C → C;
  push_ok c d : ready c → sendfunc c d = Ok (push d c);
  push_ready c d : ready c → ready (push d c);
  push_nil c : ready c → push [] c = c;
  push_app c a b : ready c → push (a ++ b) c = push b (push a c)
}.

Section sender.
Context {C : Type} {sendfunc : C → list Z → outcome C} `{Snd : !Sender C sendfunc}.

Abbreviation PF := (Printf.PF C).

(** The state is fit to print, and the state after printing [d]. *)
Definition able (pf : PF) : Prop := ready (clientdata pf) ∧ i32 (charcount pf) = charcount pf.

Definition out (d : list Z) (pf : PF) : PF :=
  set_out (push d (clientdata pf)) (i32 (charcount pf + Z.of_nat (length d))) pf.

Lemma out_able d pf : able pf → able (out d pf).
Proof. intros [Hr Hc]. split; [by apply push_ready|]. cbn. apply i32_small, i32_range. Qed.

Lemma out_nil pf : able pf → out [] pf = pf.
Proof. intros [Hr Hc]. unfold out. rewrite push_nil by done. cbn. rewrite Z.add_0_r, Hc. by destruct pf. Qed.

Lemma out_app a b pf : able pf → out (a ++ b) pf = out b (out a pf).
Proof.
  intros [Hr Hc]. unfold out. cbn. rewrite push_app by done. rewrite i32_add, length_app. unfold set_out. cbn. f_equal. f_equal. lia.
Qed.

Lemma print_run txt n pf :
  able pf → 0 ≤ n ≤ Z.of_nat (length txt) → __pf_print sendfunc txt n pf = Ok (tt, out (take (Z.to_nat n) txt) pf).
Proof.
  intros [Hr _] Hn. unfold __pf_print. rewrite (proj2 (Z.ltb_ge _ n)) by lia. rewrite push_ok by done. unfold out.
  rewrite length_take, Nat.min_l by lia. by rewrite Z2Nat.id by lia.
Qed.

Lemma print_str s l pf : able pf → cstr s = Some l → __pf_print sendfunc s (Z.of_nat (length l)) pf = Ok (tt, out l pf).
Proof.
  intros Ha (rest & -> & _)%cstr_spec. rewrite print_run by (rewrite ?length_app; done || lia). by rewrite Nat2Z.id, take_app_length.
Qed.

Lemma fill_loop_run n f pf : able pf → fill_loop sendfunc n f pf = Ok (tt, out (replicate n f) pf).
Proof.
  revert pf. induction n as [|n IH]; intros pf Ha; cbn [fill_loop replicate]; [by rewrite out_nil|].
  erewrite bind_ok by (apply print_run; cbn; done || lia). rewrite IH by (by apply out_able). change (f :: replicate n f) with ([f] ++ replicate n f). by rewrite out_app by done.
Qed.

Lemma fill_run (b : bool) spc pf :
  able pf → (if b then __pf_fill sendfunc spc else mret tt) pf = Ok (tt, out (if b then replicate (Z.to_nat spc) (fillchar pf) else []) pf).
Proof.
  intros Ha. destruct b; [|by rewrite out_nil]. unfold __pf_fill. erewrite bind_ok by reflexivity. by apply fill_loop_run.
Qed.

Lemma lift_strlen {S} s l (st : S) : cstr s = Some l → lift (strlen s) st = Ok (Z.of_nat (length l), st).
Proof. intros H. unfold lift. by rewrite (strlen_cstr _ _ H). Qed.

(** A field is what [__pf_printstuff] prints. *)
Lemma printstuff_run p1 p2 st l1 l2 l pf :
  able pf → cstr p1 = Some l1 → cstr p2 = Some l2 → cstr st = Some l →
  Z.of_nat (length (l1 ++ l2 ++ l)) < 2 ^ 31 → 0 ≤ spacing pf →
  __pf_printstuff sendfunc p1 p2 st pf = Ok (tt, out (field (rightspc pf) (fillchar pf) (spacing pf) (l1 ++ l2) l) pf).
Proof.
  intros Ha H1 H2 H3 Hlen Hsp. unfold __pf_printstuff.
  erewrite bind_ok by (by apply lift_strlen). erewrite bind_ok by (by apply lift_strlen). erewrite bind_ok by (by apply lift_strlen).
  cbv zeta. do 3 (erewrite bind_ok by reflexivity). rewrite !length_app in Hlen.
  rewrite i32_small by lia. set (n := Z.of_nat (length l1) + Z.of_nat (length l2) + Z.of_nat (length l)).
  set (spc := if spacing pf >? n then spacing pf - n else 0).
  assert (Z.to_nat spc = Z.to_nat (spacing pf - Z.of_nat (length ((l1 ++ l2) ++ l)))) as Espc.
  { unfold spc. rewrite !length_app. destruct (Z.gtb_spec (spacing pf) n); lia. }
  assert (∀ b : bool, (if (spc >? 0) && b then replicate (Z.to_nat spc) (fillchar pf) else []) = if b then replicate (Z.to_nat spc) (fillchar pf) else []) as Hrep.
  { intros b. destruct (Z.gtb_spec spc 0), b; try done. by replace (Z.to_nat spc) with 0%nat by lia. }
  rewrite <- !andb_assoc. assert (∀ d e, able (out d (out e pf))) as Ha2 by (intros; by apply out_able, out_able).
  erewrite bind_ok by (by apply fill_run). erewrite bind_ok by (apply print_str; [by apply out_able|done]).
  erewrite bind_ok by (by apply print_str). erewrite bind_ok by (apply fill_run; by apply out_able).
  erewrite bind_ok by (apply print_str; [by do 2 apply out_able|done]). rewrite fill_run by (by do 3 apply out_able).
  cbn [fillchar out set_out]. rewrite !Hrep. rewrite <- !out_app by auto using out_able. do 3 f_equal. unfold field. rewrite <- Espc.
  destruct (rightspc pf), (fillchar pf =? 48) eqn:E; cbn [negb andb]; rewrite ?app_nil_l, ?app_nil_r, <- ?app_assoc; done.
Qed.

(** ** Directives *)
Definition idle (c : C) (a : list arg) (n : Z) : PF := mkpf c a n false INTSZ 0 0 0 false 32 0 false false.

(** Inside a directive whose modifiers so far are [mods]. *)
Definition pend (sz : intsize) (mods : list Z) (c : C) (a : list arg) (n : Z) : PF :=
  mkpf c a n true sz 0 0 (f_width mods) (f_left mods) (f_fill mods) 0 false (f_alt mods).

Lemma f_width_nonneg mods : 0 ≤ f_width mods.
Proof.
  unfold f_width, f_digits. assert (∀ l v, Forall (fun c => 48 ≤ c ≤ 57) l → 0 ≤ v → 0 ≤ foldl (fun v c => v * 10 + (c - 48)) v l) as H.
  { induction l as [|c l IH]; intros v Hl Hv; [done|]. apply Forall_cons_1 in Hl as [? Hl]. cbn. apply IH; [done|lia]. }
  apply H; [|lia]. apply list.Forall_forall. intros c Hc. by apply list_elem_of_filter in Hc as [? _].
Qed.

Lemma f_digits_snoc mods c : f_digits (mods ++ [c]) = if decide (48 ≤ c ≤ 57) then f_digits mods ++ [c] else f_digits mods.
Proof.
  unfold f_digits. rewrite list.filter_app. destruct (decide (48 ≤ c ≤ 57)) as [H|H].
  - by rewrite filter_cons_True.
  - by rewrite filter_cons_False, app_nil_r.
Qed.

Lemma f_width_snoc mods c : f_width (mods ++ [c]) = if decide (48 ≤ c ≤ 57) then f_width mods * 10 + (c - 48) else f_width mods.
Proof. unfold f_width. rewrite f_digits_snoc. destruct (decide _); [|done]. by rewrite foldl_app. Qed.

(** Before the first digit that counts, there are only zeros. *)
Lemma f_width_zero mods : f_width mods = 0 → Forall (fun c => c = 48) (f_digits mods).
Proof.
  induction mods as [|c mods IH] using rev_ind; [constructor|]. rewrite f_width_snoc, f_digits_snoc. pose proof (f_width_nonneg mods).
  destruct (decide _); [|done]. intros Hz. apply list.Forall_app. split; [apply IH; lia|]. constructor; [lia|constructor].
Qed.

Lemma f_fill_snoc mods c :
  f_fill (mods ++ [c]) = if decide (c = 48 ∧ f_width mods = 0) then 48 else f_fill mods.
Proof.
  unfold f_fill. rewrite f_digits_snoc. destruct (f_digits mods) as [|d ds] eqn:E.
  - assert (f_width mods = 0) as -> by (unfold f_width; by rewrite E).
    destruct (decide (48 ≤ c ≤ 57)); cbn; repeat case_decide; naive_solver lia.
  - assert (f_width mods = 0 → d = 48) as Hd by (intros Hz; pose proof (f_width_zero _ Hz) as F; rewrite E in F; by apply Forall_cons_1 in F as [? _]).
    destruct (decide (48 ≤ c ≤ 57)); cbn; repeat case_decide; naive_solver.
Qed.

Lemma f_flag_snoc k mods c : bool_decide (k ∈ mods ++ [c]) = bool_decide (k ∈ mods) || (c =? k).
Proof.
  apply eq_bool_prop_intro. rewrite orb_True, !bool_decide_spec, elem_of_app, list_elem_of_singleton, Is_true_true, Z.eqb_eq. naive_solver.
Qed.

Lemma modifier_run sz mods c cl a n :
  c ∈ mod_chars → f_width (mods ++ [c]) < 2 ^ 31 →
  ∃ sz', __pf_modifier c (pend sz mods cl a n) = Ok (tt, pend sz' (mods ++ [c]) cl a n).
Proof.
  intros Hc Hw. rewrite f_width_snoc in Hw. pose proof (f_width_nonneg mods) as Hnn. unfold pend. rewrite f_width_snoc, f_fill_snoc.
  unfold f_left, f_alt. rewrite !f_flag_snoc. unfold __pf_modifier.
  destruct (decide (48 ≤ c ≤ 57)) as [Hd|Hd].
  - rewrite (proj2 (Z.eqb_neq c 35)), (proj2 (Z.eqb_neq c 45)), (proj2 (Z.eqb_neq c 108)), (proj2 (Z.eqb_neq c 113)) by lia.
    rewrite !orb_false_r. erewrite bind_ok by reflexivity. cbn [spacing].
    assert (∀ z, 0 ≤ z < 2 ^ 31 → int_arith z = Ok z) as Hia.
    { intros z Hz. unfold int_arith. by rewrite (proj2 (Z.leb_le _ z)), (proj2 (Z.ltb_lt z _)) by lia. }
    exists sz. destruct (Z.eqb_spec c 48) as [->|Hne].
    + destruct (Z.gtb_spec (f_width mods) 0).
      * erewrite bind_ok by (unfold lift; by rewrite Hia by lia). rewrite decide_False by lia.
        replace (f_width mods * 10 + (48 - 48)) with (f_width mods * 10) by lia. done.
      * rewrite decide_True by lia. replace (f_width mods * 10 + (48 - 48)) with (f_width mods) by lia. done.
    + erewrite bind_ok by (unfold massert; by rewrite (proj2 (Z.gtb_lt c 48)), (proj2 (Z.leb_le c 57)) by lia).
      erewrite bind_ok by (unfold lift; by rewrite Hia by lia). rewrite decide_False by lia. done.
  - rewrite decide_False by lia. unfold mod_chars in Hc. rewrite !elem_of_cons, elem_of_nil in Hc.
    assert (c = 35 ∨ c = 45 ∨ c = 113 ∨ c = 108) as Hc' by lia.
    destruct Hc' as [->|[->|[->| ->]]]; eexists; unfold modify, set_altformat, set_rightspc, set_size; cbn; rewrite ?orb_false_r, ?orb_true_r; reflexivity.
Qed.

Lemma field_length left fill w p b : (length (p ++ b) ≤ length (field left fill w p b))%nat.
Proof. unfold field. destruct left, (fill =? 48); rewrite !length_app; lia. Qed.

Lemma num_text_nz fuel b n : 2 ≤ b → 0 ≤ n → Forall (fun c => c ≠ 0) (num_text fuel b n).
Proof.
  intros Hb. revert n. induction fuel as [|fuel IH]; intros n Hn; cbn; [constructor|]. pose proof (Z.mod_pos_bound n b ltac:(lia)).
  apply list.Forall_app. split; [destruct (n <? b); [constructor|apply IH; apply Z.div_pos; lia]|].
  constructor; [|constructor]. unfold hex. destruct (Z.ltb_spec (n `mod` b) 10); lia.
Qed.

Lemma base_of_range conv : 8 ≤ base_of conv ≤ 16.
Proof. unfold base_of. destruct (conv =? 111), ((conv =? 120) || (conv =? 112)); lia. Qed.

Lemma printnum_run pf :
  able pf → 8 ≤ base pf ≤ 16 → 0 ≤ num pf < 2 ^ 32 → 0 ≤ spacing pf →
  let pre := (if negb (sign pf =? 0) then [45] else []) ++
             (if baseprefix pf && (base pf =? 16) then [48; 120] else if baseprefix pf && (base pf =? 8) then [48] else []) in
  __pf_printnum sendfunc pf = Ok (tt, out (field (rightspc pf) (fillchar pf) (spacing pf) pre (num_text NUMFUEL (base pf) (num pf))) pf).
Proof.
  intros Ha Hb Hn Hsp pre. unfold __pf_printnum. cbv zeta. do 2 (erewrite bind_ok by reflexivity).
  set (buf := <[_ := 0]> _). change (NUMBER_BUF_SIZE - 1 - 1) with 10. pose proof (num_text_nz NUMFUEL (base pf) (num pf) ltac:(lia) ltac:(lia)) as Hnz.
  assert (2 ^ 32 ≤ base pf ^ 11) as H11 by (apply Z.le_trans with (8 ^ 11); [lia|apply Z.pow_le_mono_l; lia]).
  assert (2 ^ 32 ≤ base pf ^ Z.of_nat 33) as H33.
  { apply Z.le_trans with (base pf ^ 11); [done|]. apply Z.pow_le_mono_r; lia. }
  pose proof (num_text_length NUMFUEL (base pf) (num pf) 11 ltac:(lia) ltac:(change (Z.of_nat 11) with 11; lia) ltac:(lia)) as Hl.
  destruct (digit_loop_run 33 (base pf) 10 buf (num pf)) as (buf' & E & _ & Hd); [lia|done|lia|fold NUMFUEL; lia|done|].
  erewrite bind_ok by (unfold lift; rewrite E; reflexivity). cbv beta iota. do 2 (erewrite bind_ok by reflexivity).
  unfold NUMFUEL in Hl. erewrite (printstuff_run _ _ _ (if negb (sign pf =? 0) then [45] else [])
    (if baseprefix pf && (base pf =? 16) then [48; 120] else if baseprefix pf && (base pf =? 8) then [48] else []) (num_text NUMFUEL (base pf) (num pf)));
    [reflexivity|done|by destruct (negb _)|by destruct (baseprefix pf && (base pf =? 16)), (baseprefix pf && (base pf =? 8))| | |done].
  - rewrite Hd. change (drop (Z.to_nat (10 + 1)) buf) with [0]. by apply cstr_app.
  - rewrite !length_app. unfold NUMFUEL. destruct (negb _), (baseprefix pf && (base pf =? 16)), (baseprefix pf && (base pf =? 8)); cbn [length]; lia.
Qed.

Lemma setbase_run conv (pf : PF) :
  conv ∈ int_chars → baseprefix pf = false →
  __pf_setbase conv pf = Ok (tt, set_base (base_of conv) (altformat pf || (conv =? 112)) pf).
Proof.
  intros Hc Hp. unfold __pf_setbase. do 3 (erewrite bind_ok by reflexivity). unfold modify. rewrite Hp. do 2 f_equal.
  unfold int_chars in Hc. rewrite !elem_of_cons, elem_of_nil in Hc.
  destruct Hc as [->|[->|[->|[->|[->|[]]]]]]; cbn; by destruct (altformat pf).
Qed.

(** An integer conversion. *)
Lemma int_run sz mods conv z r c n t :
  ready c → i32 n = n → conv ∈ int_chars → render_int mods conv z = Some t →
  (let* _ := __pf_getnum conv in let* _ := __pf_setbase conv in let* _ := __pf_printnum sendfunc in __pf_endfield) (pend sz mods c (ArgInt z :: r) n)
    = Ok (tt, idle (push t c) r (i32 (n + Z.of_nat (length t)))).
Proof.
  intros Hr Hn Hc Ht. unfold render_int in Ht. cbv zeta in Ht. set (v := if conv =? 100 then i32 z else u32 z) in Ht.
  destruct (Z.eqb_spec v (- 2 ^ 31)) as [|Hv]; [done|]. apply (inj Some) in Ht.
  assert (- 2 ^ 31 < v < 2 ^ 32) as Hvr.
  { unfold v in *. pose proof (i32_range z). pose proof (u32_range z). destruct (conv =? 100); lia. }
  assert (__pf_getnum conv (pend sz mods c (ArgInt z :: r) n) =
    Ok (tt, set_num (Z.abs v) (if v <? 0 then -1 else 0) (pend sz mods c r n))) as E.
  { unfold __pf_getnum. erewrite bind_ok by reflexivity. unfold v. pose proof (u32_range z). destruct (Z.eqb_spec conv 112) as [->|].
    - cbn [Z.eqb Pos.eqb]. erewrite bind_ok by reflexivity. rewrite Z.abs_eq, (proj2 (Z.ltb_ge (u32 z) 0)) by lia. done.
    - destruct (Z.eqb_spec conv 100) as [->|]; cbn [Z.eqb Pos.eqb] in v.
      + destruct (Z.ltb_spec (i32 z) 0).
        * assert (int_arith (- i32 z) = Ok (- i32 z)) as Hi.
          { unfold int_arith. by rewrite (proj2 (Z.leb_le _ (- i32 z))), (proj2 (Z.ltb_lt (- i32 z) _)) by lia. }
          erewrite bind_ok by (unfold lift; rewrite Hi; reflexivity). by rewrite Z.abs_neq by lia.
        * erewrite bind_ok by reflexivity. by rewrite Z.abs_eq by lia.
      + erewrite bind_ok by reflexivity. rewrite Z.abs_eq, (proj2 (Z.ltb_ge (u32 z) 0)) by lia. done. }
  erewrite bind_ok by exact E. erewrite bind_ok by (by apply setbase_run). pose proof (base_of_range conv).
  erewrite bind_ok by (apply printnum_run; cbn; [done|done|lia|apply f_width_nonneg]).
  cbn [sign base baseprefix num rightspc fillchar spacing set_base set_num pend altformat].
  unfold prefix_of in Ht. assert (negb ((if v <? 0 then -1 else 0) =? 0) = (v <? 0)) as -> by (by destruct (v <? 0)).
  unfold __pf_endfield, modify, out, idle. cbn. rewrite <- Ht. do 3 f_equal.
  all: repeat f_equal; by destruct (f_alt mods || (conv =? 112)).
Qed.

(** A conversion that prints a string. *)
Lemma text_run sz mods st l r c n :
  ready c → i32 n = n → cstr st = Some l → Z.of_nat (length (render_text mods l)) < 2 ^ 31 →
  (let* _ := __pf_printstuff sendfunc str_empty str_empty st in __pf_endfield) (pend sz mods c r n)
    = Ok (tt, idle (push (render_text mods l) c) r (i32 (n + Z.of_nat (length (render_text mods l))))).
Proof.
  intros Hr Hn Hs Hl. pose proof (field_length (f_left mods) (f_fill mods) (f_width mods) [] l) as Hf. unfold render_text in *.
  erewrite bind_ok by (apply (printstuff_run _ _ _ [] [] l); [done|done|done|done|cbn in *; lia|apply f_width_nonneg]). done.
Qed.

Lemma strchr_in s l ch : cstr s = Some l → ch ≠ 0 →
  if decide (ch ∈ l) then ∃ j, strchr s ch = Ok (Some j) else strchr s ch = Ok None.
Proof.
  intros Hs Hc. pose proof (strchr_from_run 0 s l ch Hs Hc) as H. unfold strchr. destruct (decide _); [|done].
  destruct H as (j & E & _). eauto.
Qed.

(** The end of a directive. *)
Lemma conv_run sz mods conv args args' c n t :
  ready c → i32 n = n → conv ≠ 0 → conv ∉ mod_chars → render_dir mods conv args = Some (t, args') → Z.of_nat (length t) < 2 ^ 31 →
  __pf_send sendfunc conv (pend sz mods c args n) = Ok (tt, idle (push t c) args' (i32 (n + Z.of_nat (length t)))).
Proof.
  intros Hr Hn Hc Hm Ht Hl. unfold __pf_send.
  erewrite bind_ok by (unfold massert; by rewrite (proj2 (Z.eqb_neq conv 0) Hc)). erewrite bind_ok by reflexivity. cbn [in_pct pend negb andb].
  pose proof (strchr_in str_modifiers mod_chars conv eq_refl Hc) as E. rewrite decide_False in E by done.
  erewrite bind_ok by (unfold lift; rewrite E; reflexivity). cbv iota. clear E.
  pose proof (strchr_in str_integers int_chars conv eq_refl Hc) as E. unfold render_dir in Ht.
  destruct (decide (conv ∈ int_chars)) as [Hi|Hi].
  - destruct E as [j E]. erewrite bind_ok by (unfold lift; rewrite E; reflexivity). cbv iota. destruct args as [|[z|] r]; [done| |done].
    destruct (render_int mods conv z) as [t'|] eqn:Er; [|done]. cbn in Ht. injection Ht as -> ->. by apply int_run.
  - erewrite bind_ok by (unfold lift; rewrite E; reflexivity). cbv iota. destruct (conv =? 115).
    + destruct args as [|[|[st|]] r]; [done..| |].
      * destruct (cstr st) as [l|] eqn:Es; [|done]. apply (inj Some) in Ht as [= <- <-].
        erewrite bind_ok by reflexivity. by apply text_run.
      * apply (inj Some) in Ht as [= <- <-]. erewrite bind_ok by reflexivity. by apply text_run.
    + destruct (conv =? 99).
      * destruct args as [|[z|] r]; [done| |done]. apply (inj Some) in Ht as [= <- <-].
        erewrite bind_ok; [|erewrite bind_ok by reflexivity; reflexivity].
        apply (text_run sz mods [u8 z; 0]); [done..| |done]. cbn [cstr]. by destruct (u8 z =? 0).
      * apply (inj Some) in Ht as [= <- <-]. erewrite bind_ok by reflexivity.
        apply (text_run sz mods [conv; 0]); [done..| |done]. cbn [cstr]. by rewrite (proj2 (Z.eqb_neq conv 0) Hc).
Qed.

(** The other characters: ordinary ones, the start of a directive, and modifiers. *)
Lemma send_outside ch c a n :
  ready c → i32 n = n → ch ≠ 0 →
  __pf_send sendfunc ch (idle c a n) =
    Ok (tt, if ch =? 37 then pend INTSZ [] c a n else idle (push [ch] c) a (i32 (n + 1))).
Proof.
  intros Hr Hn Hc. unfold __pf_send. erewrite bind_ok by (unfold massert; by rewrite (proj2 (Z.eqb_neq ch 0) Hc)).
  erewrite bind_ok by reflexivity. cbn [in_pct idle negb andb]. destruct (ch =? 37); cbn [negb]; [done|].
  by rewrite print_run by (split; done || cbn; lia).
Qed.

Lemma send_modifier sz mods ch c a n :
  ch ∈ mod_chars → ch ≠ 0 → f_width (mods ++ [ch]) < 2 ^ 31 →
  ∃ sz', __pf_send sendfunc ch (pend sz mods c a n) = Ok (tt, pend sz' (mods ++ [ch]) c a n).
Proof.
  intros Hm Hc Hw. destruct (modifier_run sz mods ch c a n Hm Hw) as (sz' & E). exists sz'. unfold __pf_send.
  erewrite bind_ok by (unfold massert; by rewrite (proj2 (Z.eqb_neq ch 0) Hc)). erewrite bind_ok by reflexivity. cbn [in_pct pend negb andb].
  pose proof (strchr_in str_modifiers mod_chars ch eq_refl Hc) as Es. rewrite decide_True in Es by done. destruct Es as [j Es].
  erewrite bind_ok by (unfold lift; rewrite Es; reflexivity). exact E.
Qed.

(** The state between two characters of the format. *)
Definition between (sz : intsize) (pct : option (list Z)) (c : C) (a : list arg) (n : Z) : PF :=
  match pct with
  | None => idle c a n
  | Some mods => pend sz mods c a n
  end.

Lemma i32_idem n : i32 (i32 n) = i32 n.
Proof. apply i32_small, i32_range. Qed.

(** An open directive has a width that fits, whatever follows. *)
Lemma render_width mods l args t : render (parse (Some mods) l) args = Some t → f_width mods < 2 ^ 31.
Proof.
  revert mods. induction l as [|c l IH]; intros mods; cbn [parse].
  - cbn [render]. by destruct (decide (f_width mods < 2 ^ 31)).
  - destruct (decide (c ∈ mod_chars)).
    + intros H%IH. rewrite f_width_snoc in H. pose proof (f_width_nonneg mods). destruct (decide _); lia.
    + cbn [render]. by destruct (decide (f_width mods < 2 ^ 31)).
Qed.

Lemma format_loop_run fmt l : cstr fmt = Some l → ∀ sz pct args c n t,
  ready c → i32 n = n → render (parse pct l) args = Some t → Z.of_nat (length t) < 2 ^ 31 →
  ∃ pf, format_loop sendfunc fmt (between sz pct c args n) = Ok (tt, pf) ∧
    clientdata pf = push t c ∧ charcount pf = i32 (n + Z.of_nat (length t)).
Proof.
  revert l. induction fmt as [|ch fmt IH]; intros l; cbn [cstr]; [done|]. destruct (Z.eqb_spec ch 0) as [->|Hch].
  - intros [= <-] sz pct args c n t Hr Hn Ht _. cbn [parse] in Ht. eexists. split; [reflexivity|].
    assert (t = []) as ->.
    { destruct pct as [mods|]; cbn [render] in Ht; [destruct (decide _); [|done]|]; by injection Ht as <-. }
    rewrite push_nil by done. cbn [length]. rewrite Z.add_0_r, Hn. by destruct pct.
  - intros (l' & Hl & ->)%fmap_Some sz pct args c n t Hr Hn Ht Hlen. specialize (IH l' Hl). cbn [parse] in Ht.
    cbn [format_loop]. rewrite (proj2 (Z.eqb_neq ch 0) Hch).
    destruct pct as [mods|].
    + destruct (decide (ch ∈ mod_chars)) as [Hm|Hm].
      * pose proof (render_width _ _ _ _ Ht) as Hw. destruct (send_modifier sz mods ch c args n Hm Hch Hw) as (sz' & E).
        erewrite bind_ok by exact E. by apply (IH sz' (Some (mods ++ [ch]))).
      * cbn [render] in Ht. destruct (decide _); [|done]. destruct (render_dir mods ch args) as [[t1 args']|] eqn:Ed; [|done]. cbn in Ht.
        destruct (render (parse None l') args') as [t2|] eqn:Er; [|done]. cbn in Ht. apply (inj Some) in Ht as <-. rewrite length_app in *.
        erewrite bind_ok by (apply conv_run; [done..|lia]).
        destruct (IH sz None args' (push t1 c) (i32 (n + Z.of_nat (length t1))) t2) as (pf & E & Ec & En);
          [by apply push_ready|by rewrite i32_idem|done|lia|].
        exists pf. split; [exact E|]. rewrite push_app, Ec, En, i32_add by done. split; [done|]. f_equal. lia.
    + erewrite bind_ok by (by apply send_outside). destruct (Z.eqb_spec ch 37) as [->|Hp].
      * destruct (IH INTSZ (Some []) args c n t) as (pf & E & Ec & En); [done..|]. by exists pf.
      * cbn [render] in Ht. destruct (render (parse None l') args) as [t2|] eqn:Er; [|done]. apply (inj Some) in Ht as <-. cbn [length] in *.
        destruct (IH sz None args (push [ch] c) (i32 (n + 1)) t2) as (pf & E & Ec & En); [by apply push_ready|by rewrite i32_idem|done|lia|].
        exists pf. split; [exact E|]. change (ch :: t2) with ([ch] ++ t2). rewrite push_app, Ec, En, i32_add by done. split; [done|]. f_equal. lia.
Qed.

(** [__vprintf] sends the text of the format and counts it. *)
Lemma vprintf_run fmt l args c t :
  cstr fmt = Some l → format l args = Some t → ready c → Z.of_nat (length t) < 2 ^ 31 →
  __vprintf sendfunc c fmt args = Ok (push t c, Z.of_nat (length t)).
Proof.
  intros Hf Ht Hr Hl. unfold __vprintf. destruct (format_loop_run fmt l Hf INTSZ None args c 0 t) as (pf & E & Ec & En); [done..|].
  erewrite bind_ok by reflexivity. cbn [clientdata ap charcount]. fold (idle c args 0). cbn [between] in E. rewrite E, Ec, En. by rewrite i32_small by lia.
Qed.
End sender.

(** ** Printing into a buffer *)
Definition snp_ready (snp : SNP) : Prop :=
  0 ≤ snp_bufpos snp ≤ snp_buflen snp ∧ snp_buflen snp ≤ Z.of_nat (length (snp_buf snp)) ∧ snp_buflen snp < 2 ^ 32.

Definition snp_push (d : list Z) (snp : SNP) : SNP :=
  let k := take (Z.to_nat (snp_buflen snp - snp_bufpos snp)) d in
  mksnp (splice (Z.to_nat (snp_bufpos snp)) k (snp_buf snp)) (snp_buflen snp) (snp_bufpos snp + Z.of_nat (length k)).

Lemma snp_push_ready snp d : snp_ready snp → snp_ready (snp_push d snp).
Proof.
  intros (H1 & H2 & H3). unfold snp_ready, snp_push; cbn. rewrite length_splice; rewrite ?length_take; lia.
Qed.

Lemma snp_push_nil snp : snp_push [] snp = snp.
Proof. unfold snp_push. rewrite take_nil, splice_nil. cbn. rewrite Z.add_0_r. by destruct snp. Qed.

Lemma snp_push_cons snp c d :
  snp_ready snp → snp_push (c :: d) snp =
    snp_push d (if snp_bufpos snp <? snp_buflen snp
                then mksnp (<[Z.to_nat (snp_bufpos snp) := c]> (snp_buf snp)) (snp_buflen snp) (snp_bufpos snp + 1) else snp).
Proof.
  intros (H1 & H2 & H3). unfold snp_push. destruct (Z.ltb_spec (snp_bufpos snp) (snp_buflen snp)) as [Hlt|Hge]; cbn [snp_buf snp_buflen snp_bufpos].
  - replace (Z.to_nat (snp_buflen snp - snp_bufpos snp)) with (S (Z.to_nat (snp_buflen snp - (snp_bufpos snp + 1)))) by lia.
    cbn [take length]. rewrite splice_cons by lia. f_equal; [f_equal; lia|lia].
  - replace (Z.to_nat (snp_buflen snp - snp_bufpos snp)) with 0%nat by lia. by rewrite !take_0.
Qed.

Lemma snp_send_run snp d : snp_ready snp → __snprintf_send snp d = Ok (snp_push d snp).
Proof.
  revert snp. induction d as [|c d IH]; intros snp Hr; cbn [__snprintf_send]; [by rewrite snp_push_nil|].
  rewrite snp_push_cons by done. destruct Hr as (H1 & H2 & H3). destruct (Z.ltb_spec (snp_bufpos snp) (snp_buflen snp)); [|by apply IH].
  rewrite (proj2 (Z.leb_gt _ (snp_bufpos snp))), u32_small by lia. apply IH. unfold snp_ready; cbn. rewrite length_insert. lia.
Qed.

Lemma snp_push_app snp a b : snp_ready snp → snp_push (a ++ b) snp = snp_push b (snp_push a snp).
Proof.
  revert snp. induction a as [|c a IH]; intros snp Hr; [by rewrite snp_push_nil|]. cbn [app]. rewrite !snp_push_cons by done.
  apply IH. destruct Hr as (H1 & H2 & H3). destruct (Z.ltb_spec (snp_bufpos snp) (snp_buflen snp)); [|done].
  unfold snp_ready; cbn. rewrite length_insert. lia.
Qed.

#[global] Instance snp_sender : Sender SNP __snprintf_send := {
  ready := snp_ready;
  push := snp_push;
  push_ok c d := snp_send_run c d;
  push_ready c d := snp_push_ready c d;
  push_nil c _ := snp_push_nil c;
  push_app c a b := snp_push_app c a b
}.

Lemma vsnprintf_run buf len fmt f args t :
  cstr fmt = Some f → format f args = Some t → Z.of_nat (length t) < 2 ^ 31 →
  0 ≤ len < 2 ^ 32 → len ≤ Z.of_nat (length buf) →
  vsnprintf buf len fmt args =
    Ok (if len =? 0 then buf else splice 0 (take (Z.to_nat (len - 1)) t ++ [0]) buf, Z.of_nat (length t)).
Proof.
  intros Hf Ht Hl Hlen Hbuf. unfold vsnprintf. set (snp := mksnp buf (if len =? 0 then 0 else len - 1) 0).
  assert (snp_ready snp) as Hr by (unfold snp_ready, snp; cbn; destruct (Z.eqb_spec len 0); lia).
  rewrite (vprintf_run (Snd := snp_sender) fmt f args snp t Hf Ht Hr Hl). cbn [mbind outcome_bind push snp_sender]. unfold snp_push, snp; cbn [snp_buf snp_buflen snp_bufpos].
  rewrite Z.sub_0_r, Z.add_0_l. change (Z.to_nat 0) with 0%nat.
  destruct (Z.eqb_spec len 0) as [->|Hz]; [cbn; by rewrite take_0, splice_nil|]. rewrite (proj2 (Z.gtb_lt len 0)) by lia.
  set (k := take (Z.to_nat (len - 1)) t). assert (length k < Z.to_nat len)%nat by (unfold k; rewrite length_take; lia).
  rewrite length_splice by lia. rewrite (proj2 (Z.leb_gt _ (Z.of_nat (length k)))) by lia. do 2 f_equal. rewrite Nat2Z.id.
  unfold splice. rewrite !take_0, !app_nil_l, !Nat.add_0_l, length_app. cbn [length]. rewrite insert_app_r_alt by lia.
  rewrite Nat.sub_diag, <- app_assoc. f_equal. destruct (drop (length k) buf) as [|x r] eqn:E.
  - apply (f_equal length) in E. rewrite length_drop in E. cbn in E. lia.
  - cbn. f_equal. rewrite Nat.add_comm. change r with (drop 1 (x :: r)). rewrite <- E, drop_drop. f_equal. lia.
Qed.

(** ** Decimal numbers *)
Definition fmt_d : list Z := [37; 100; 0].

Lemma atoi_digit v d rest :
  0 ≤ d < 10 → atoi_digits v (hex d :: rest) = atoi_digits (u32 (v * 10 + d)) rest.
Proof.
  intros Hd. assert (∀ k, (k < 10)%nat → atoi_digits v (hex (Z.of_nat k) :: rest) = atoi_digits (u32 (v * 10 + Z.of_nat k)) rest) as H.
  { intros k Hk. do 10 (destruct k as [|k]; [reflexivity|]). lia. }
  specialize (H (Z.to_nat d) ltac:(lia)). by rewrite Z2Nat.id in H by lia.
Qed.

Lemma atoi_digits_text fuel n rest :
  0 ≤ n < 10 ^ Z.of_nat fuel → n < 2 ^ 32 → (fuel ≠ 0)%nat → atoi_digits 0 (num_text fuel 10 n ++ rest) = atoi_digits n rest.
Proof.
  revert n rest. induction fuel as [|fuel IH]; intros n rest Hn Hn32 Hf; [done|]. cbn [num_text].
  pose proof (Z.mod_pos_bound n 10 ltac:(lia)) as Hm. pose proof (Z.div_mod n 10 ltac:(lia)) as Hdm. rewrite <- app_assoc. cbn [app].
  assert (0 ≤ n `div` 10 < 10 ^ Z.of_nat fuel) as Hd.
  { split; [apply Z.div_pos; lia|]. apply Z.div_lt_upper_bound; [lia|]. rewrite <- Z.pow_succ_r by lia. rewrite <- Nat2Z.inj_succ. lia. }
  destruct (Z.ltb_spec n 10) as [|Hge].
  - cbn [app]. rewrite Z.mod_small, atoi_digit by lia. by rewrite u32_small by lia.
  - rewrite IH; [|done|lia|intros ->; change (10 ^ Z.of_nat 0) with 1 in Hd; lia]. rewrite atoi_digit, u32_small by lia. f_equal. lia.
Qed.

Lemma atoi_num n rest : 0 ≤ n < 2 ^ 32 → atoi_digits 0 (num_text NUMFUEL 10 n ++ 0 :: rest) = Ok n.
Proof. intros Hn. rewrite atoi_digits_text; [done|split; [lia|apply Z.lt_le_trans with (2 ^ 32); [lia|by vm_compute]]|lia|done]. Qed.

(** The first digit is neither a blank nor a sign. *)
Lemma num_text_head fuel n : 0 ≤ n → (fuel ≠ 0)%nat → ∃ c l, num_text fuel 10 n = c :: l ∧ 48 ≤ c ≤ 57.
Proof.
  revert n. induction fuel as [|fuel IH]; intros n Hn Hf; [done|]. cbn [num_text]. pose proof (Z.mod_pos_bound n 10 ltac:(lia)).
  assert (48 ≤ hex (n `mod` 10) ≤ 57) as Hh by (unfold hex; rewrite (proj2 (Z.ltb_lt _ 10)) by lia; lia).
  destruct (n <? 10); [eexists _, _; split; [reflexivity|lia]|]. destruct fuel as [|fuel]; [eexists _, _; split; [reflexivity|lia]|].
  destruct (IH (n `div` 10)) as (c & l & -> & Hc); [apply Z.div_pos; lia|done|]. eexists _, _. split; [reflexivity|lia].
Qed.

Lemma atoi_signed n rest :
  - 2 ^ 31 < n < 2 ^ 31 →
  atoi (((if n <? 0 then [45] else []) ++ num_text NUMFUEL 10 (Z.abs n)) ++ 0 :: rest) = Ok n.
Proof.
  intros Hn. unfold atoi. destruct (num_text_head NUMFUEL (Z.abs n) ltac:(lia) ltac:(done)) as (c & l & E & Hc).
  pose proof (atoi_num (Z.abs n) rest ltac:(lia)) as Ha. rewrite E in Ha |- *. destruct (Z.ltb_spec n 0); cbn [app atoi_space].
  - cbn [Z.eqb Pos.eqb orb mbind outcome_bind]. cbn [app] in Ha. rewrite Ha. cbn [mbind outcome_bind].
    unfold u32. rewrite Z.abs_neq, Z.opp_involutive by lia. f_equal. unfold i32.
    rewrite Zplus_mod_idemp_l, Z.mod_small by lia. lia.
  - rewrite (proj2 (Z.eqb_neq c 32)), (proj2 (Z.eqb_neq c 9)) by lia. cbn [orb mbind outcome_bind].
    rewrite (proj2 (Z.eqb_neq c 45)), (proj2 (Z.eqb_neq c 43)) by lia. cbn [app] in Ha. rewrite Ha. cbn [mbind outcome_bind].
    rewrite Z.abs_eq, i32_small by lia. done.
Qed.

(** ** Theorems *)

(** C37: [vsnprintf] stores the text of the format, cut to the buffer, with a terminator after it,
    leaves the rest of the buffer alone, and returns the length of the whole text.  Nothing is stored
    outside the buffer, neither here nor in the number buffer of [__pf_printnum].  The conversions are d, o, u, p, x, s and c; any other character, X
    among them, is printed itself and takes no argument. *)
Theorem vsnprintf_formats buf len fmt f args t :
  cstr fmt = Some f → format f args = Some t → Z.of_nat (length t) < 2 ^ 31 →
  0 ≤ len < 2 ^ 32 → len ≤ Z.of_nat (length buf) →
  vsnprintf buf len fmt args =
    Ok (if len =? 0 then buf else splice 0 (take (Z.to_nat (len - 1)) t ++ [0]) buf, Z.of_nat (length t)).
Proof. apply vsnprintf_run. Qed.

(** [atoi] reads back the number that [snprintf] of "%d" has written, whenever it fits. *)
Theorem snprintf_atoi_roundtrip buf len n :
  - 2 ^ 31 < n < 2 ^ 31 → 13 ≤ len < 2 ^ 32 → len ≤ Z.of_nat (length buf) →
  ∃ buf' k, snprintf buf len fmt_d [ArgInt n] = Ok (buf', k) ∧ atoi buf' = Ok n.
Proof.
  intros Hn Hlen Hb. set (t := (if n <? 0 then [45] else []) ++ num_text NUMFUEL 10 (Z.abs n)).
  assert (format [37; 100] [ArgInt n] = Some t) as Hf.
  { unfold format. assert (parse None [37; 100] = [Dir [] 100]) as -> by (by vm_compute). cbn [render]. rewrite decide_True by (by vm_compute).
    unfold render_dir. rewrite decide_True by (unfold int_chars; left). unfold render_int. cbn [Z.eqb Pos.eqb]. rewrite i32_small by lia.
    rewrite (proj2 (Z.eqb_neq n _)) by lia. unfold field.
    assert (f_left [] = false ∧ f_fill [] = 32 ∧ f_width [] = 0 ∧ prefix_of (f_alt []) 100 = []) as (-> & -> & -> & ->) by (by vm_compute).
    rewrite Z2Nat.nonpos by lia. cbn [replicate Z.eqb Pos.eqb mbind option_bind]. by rewrite !app_nil_r. }
  assert (length (num_text NUMFUEL 10 (Z.abs n)) ≤ 10)%nat as Hl.
  { apply num_text_length; [lia|split; [lia|]|lia]. apply Z.lt_le_trans with (2 ^ 31); [lia|by vm_compute]. }
  assert (length t ≤ 11)%nat as Ht by (unfold t; rewrite length_app; destruct (n <? 0); cbn [length]; lia).
  unfold snprintf. rewrite (vsnprintf_run buf len fmt_d [37; 100] [ArgInt n] t eq_refl Hf) by lia.
  eexists _, _. split; [reflexivity|]. rewrite (proj2 (Z.eqb_neq len 0)) by lia. rewrite (take_ge t) by lia. unfold splice. rewrite take_0. cbn [app].
  rewrite <- app_assoc. cbn [app]. unfold t. by apply atoi_signed.
Qed.

Lemma vsnprintf_formats_witness :
  vsnprintf (replicate 9 7) 9 [97; 37; 45; 53; 120; 124; 37; 115; 0] [ArgInt 255; ArgStr None] =
    Ok ([97; 102; 102; 32; 32; 32; 124; 40; 0], 13).
Proof.
  rewrite (vsnprintf_formats (replicate 9 7) 9 [97; 37; 45; 53; 120; 124; 37; 115; 0] [97; 37; 45; 53; 120; 124; 37; 115]
    [ArgInt 255; ArgStr None] [97; 102; 102; 32; 32; 32; 124; 40; 110; 117; 108; 108; 41]); [reflexivity|reflexivity|by vm_compute|done|lia|done].
Defined.

Lemma snprintf_atoi_roundtrip_witness :
  ∃ buf' k, snprintf (replicate 16 0) 16 fmt_d [ArgInt (-2147483647)] = Ok (buf', k) ∧ atoi buf' = Ok (-2147483647).
Proof. apply (snprintf_atoi_roundtrip (replicate 16 0) 16 (-2147483647)); [lia|lia|done]. Defined.

(** The most negative number is negated as an [int] before it is printed, which overflows. *)
Example print_int_min : snprintf (replicate 16 0) 16 fmt_d [ArgInt (- 2 ^ 31)] = Undef.
Proof. reflexivity. Qed.

(** "%-05d" pads on the right with zeros, so that 42 is printed as 42000: the code combines the two
    flags that the C standard says exclude each other. *)
Example left_zero_pad : format [37; 45; 48; 53; 100] [ArgInt 42] = Some [52; 50; 48; 48; 48].
Proof. by vm_compute. Qed.

End Printfspec.
