(* ===== verification/Mksfs.v ===== *)
(** * Making a file system (sbin/mksfs/mksfs.c and disk.c)

    The program that formats a disk, as it is built for OS/161 itself (the HOST parts are for other systems).
    [mkstate] has the contents of the disk's device file, the static bit map, and the script [wscript] of the
    coming [write]s: each may be cut short, interrupted or fail; when the script has run out they succeed.  A program
    that ends with [errx] or [err] returns [inl] its exit status.  Mksfsspec.v shows that the kernel can mount the
    result. *)
From stdpp Require Import base list numbers.
From S2P Require Import Prelude Cstring Sfsdisk.
Local Open Scope Z_scope.

Module Mksfs.
Import Cstring Sfsdisk.

Definition MAXBITBLOCKS : Z := 32.
Definition BLOCKSIZE : Z := 512.
Definition CHAR_BIT : Z := 8.

(** What one [write] does. *)
Inductive wresult :=
| WShort (k : Z)
| WInterrupted
| WFails.

Record mkstate := mkmk {
  disk : list Z;
  bitbuf : list Z;
  wscript : list wresult
}.

Abbreviation K := (M mkstate).

Definition set_disk (d : list Z) (s : mkstate) : mkstate := mkmk d (bitbuf s) (wscript s).
Definition set_bitbuf (b : list Z) (s : mkstate) : mkstate := mkmk (disk s) b (wscript s).

(** [write(fd, data, len)] at file position [pos]: the count, or [None] when it was interrupted,
    or -1 for other errors (past the end of the device too). *)
Definition write (pos : Z) (data : list Z) : K (option Z) := fun s =>
  let len := Z.of_nat (length data) in
  let store n := Ok (Some n, mkmk (splice (Z.to_nat pos) (take (Z.to_nat n) data) (disk s)) (bitbuf s) (tail (wscript s))) in
  if Z.of_nat (length (disk s)) <? pos + len then Ok (Some (-1), s)
  else
    match wscript s with
    | [] => store len
    | WShort k :: _ => store (Z.max 0 (Z.min k len))
    | WInterrupted :: r => Ok (None, mkmk (disk s) (bitbuf s) r)
    | WFails :: r => Ok (Some (-1), mkmk (disk s) (bitbuf s) r)
    end.

(** [while (tot < BLOCKSIZE)]; [pos] is where the file position is. *)
Fixpoint write_loop (fuel : nat) (data : list Z) (pos tot : Z) : K (Z + unit) :=
  if tot <? BLOCKSIZE then
    match fuel with
    | O => lift Spin
    | S fuel' =>
        let* len := write (pos + tot) (drop (Z.to_nat tot) data) in
        match len with
        | None => write_loop fuel' data pos tot
        | Some len =>
            if len <? 0 then mret (inl 1)
            else if len =? 0 then mret (inl 1)
            else write_loop fuel' data pos (u32 (tot + len))
        end
    end
  else mret (inr tt).

(** Each round uses up an entry of the script or writes a byte. *)
Definition diskwrite (data : list Z) (block : Z) : K (Z + unit) :=
  let* ws := gets wscript in
  write_loop (length ws + 513) data (u32 (block * BLOCKSIZE)) 0.

Definition diskblocksize : Z := BLOCKSIZE.
Definition diskblocks : K Z := gets (fun s => u32 (Z.of_nat (length (disk s)) `div` BLOCKSIZE)).

Definition check : K unit :=
  massert ((512 =? SFS_BLOCKSIZE) && (512 =? SFS_BLOCKSIZE) && (SFS_BLOCKSIZE `mod` 64 =? 0)).

Definition writesuper (volname : list Z) (nblocks : Z) : K (Z + unit) :=
  let* n := lift (strlen volname) in
  if n >=? SFS_VOLNAME_SIZE then mret (inl 1)
  else
    let* name := lift (strcpy (replicate 32 0) volname) in
    diskwrite (enc_super (mksuper SFS_MAGIC nblocks name (replicate 118 0))) SFS_SB_LOCATION.

Definition writerootdir : K (Z + unit) :=
  diskwrite (enc_inode (mkinode 0 SFS_TYPE_DIR 1 (replicate 15 0) 0 (replicate 110 0))) SFS_ROOT_LOCATION.

Definition doallocbit (bit : Z) : K unit := fun s =>
  let byte := bit `div` CHAR_BIT in
  let mask := u8 (Z.shiftl 1 (bit `mod` CHAR_BIT)) in
  match bitbuf s !! Z.to_nat byte with
  | None => Undef
  | Some w =>
      if Z.land w mask =? 0 then Ok (tt, set_bitbuf (<[Z.to_nat byte := Z.lor w mask]> (bitbuf s)) s)
      else Panic
  end.

(** [for (i=first; i<first+n; i++) doallocbit(i);]. *)
Fixpoint alloc_loop (n : nat) (i : Z) : K unit :=
  match n with
  | O => mret tt
  | S n' =>
      let* _ := doallocbit i in
      alloc_loop n' (i + 1)
  end.

Fixpoint writemap_loop (n : nat) (i : Z) : K (Z + unit) :=
  match n with
  | O => mret (inr tt)
  | S n' =>
      let* buf := gets bitbuf in
      let? _ := diskwrite (take 512 (drop (Z.to_nat (i * SFS_BLOCKSIZE)) buf)) (SFS_MAP_LOCATION + i) in
      writemap_loop n' (i + 1)
  end.

Definition writebitmap (fsblocks : Z) : K (Z + unit) :=
  let nbits := SFS_BITMAPSIZE fsblocks in
  let nblocks := SFS_BITBLOCKS fsblocks in
  if nblocks >? MAXBITBLOCKS then mret (inl 1)
  else
    let* _ := doallocbit SFS_SB_LOCATION in
    let* _ := doallocbit SFS_ROOT_LOCATION in
    let* _ := alloc_loop (Z.to_nat nblocks) SFS_MAP_LOCATION in
    let* _ := alloc_loop (Z.to_nat (nbits - fsblocks)) fsblocks in
    writemap_loop (Z.to_nat nblocks) 0.

(** The name given on the command line: one colon at the end goes away, a slash or another colon is refused. *)
Definition volume_name (volname : list Z) : outcome (Z + list Z) :=
  let* s := strchr volname 58 in
  let* r := match s with
            | Some i =>
                let* n := strlen (drop (Z.to_nat i) volname) in
                Ok (if negb (n =? 1) then inl 1 else inr (<[Z.to_nat i := 0]> volname))
            | None => Ok (inr volname)
            end in
  match r with
  | inl e => Ok (inl e)
  | inr volname =>
      let* s := strchr volname 47 in
      Ok (match s with Some _ => inl 1 | None => inr volname end)
  end.

(** [main] with the device in [argv[1]] and the name in [argv[2]]; [inr 0] is the return from main. *)
Definition main (volname : list Z) : K (Z + Z) :=
  let* _ := check in
  let? volname := lift (volume_name volname) in
  if negb (diskblocksize =? SFS_BLOCKSIZE) then mret (inl 1)
  else
    let* size := diskblocks in
    let? _ := writesuper volname size in
    let? _ := writerootdir in
    let? _ := writebitmap size in
    mret (inr 0).

(** The static bit map before [main]. *)
Definition bitbuf0 : list Z := replicate (Z.to_nat (MAXBITBLOCKS * SFS_BLOCKSIZE)) 0.

End Mksfs.
