(* ===== verification/Mksfsspec.v ===== *)
(** * A disk that mksfs has formatted can be mounted

    [mksfs_mounts] composes the program of Mksfs.v with the kernel's file system of Sfs.v: whatever
    was on the disk before, and however its writes are cut short or interrupted, after mksfs the kernel mounts
    a sound volume of the given name, whose root is an empty directory and whose free blocks are all those
    behind the bit map. *)
From stdpp Require Import base list gmap numbers.
From S2P Require Import Prelude Cstring Array Bitmap Lhd Sfsdisk Sfs Sfsfile Sfsdir Sfsvol Sfsref Mksfs.
Local Open Scope Z_scope.

Module Mksfsspec.
Import Sfsdisk Mksfs.

(** A [write] that makes progress sooner or later. *)
Definition tame (w : wresult) : Prop :=
  match w with
  | WShort k => 0 < k
  | WInterrupted => True
  | WFails => False
  end.

Definition sectors (im : list (list Z)) : Prop := Forall (fun s => length s = 512%nat) im.

(** ** Writing blocks *)
Lemma write_loop_run fuel data pos tot d0 s :
  length data = 512%nat → 0 ≤ pos → pos + 512 ≤ Z.of_nat (length d0) → 0 ≤ tot ≤ 512 →
  Forall tame (wscript s) → tot = 512 ∨ (length (wscript s) < fuel)%nat → disk s = splice (Z.to_nat pos) (take (Z.to_nat tot) data) d0 →
  ∃ s', write_loop fuel data pos tot s = Ok (inr tt, s') ∧ disk s' = splice (Z.to_nat pos) data d0 ∧
    bitbuf s' = bitbuf s ∧ Forall tame (wscript s').
Proof.
  intros Hd Hp Hfit. revert tot s. induction fuel as [|fuel IH]; intros tot s Ht Hw Hf Hs; cbn [write_loop]; unfold BLOCKSIZE;
    destruct (Z.ltb_spec tot 512) as [Hlt|Hge]; [lia|exists s; rewrite Hs, take_ge by lia; done| |exists s; rewrite Hs, take_ge by lia; done].
  assert (length (disk s) = length d0) as Hl by (rewrite Hs; apply length_splice; rewrite length_take; lia).
  assert (∀ n, 0 ≤ n ≤ 512 - tot →
    splice (Z.to_nat (pos + tot)) (take (Z.to_nat n) (drop (Z.to_nat tot) data)) (disk s) =
      splice (Z.to_nat pos) (take (Z.to_nat (tot + n)) data) d0) as Hsp.
  { intros n Hn. rewrite Hs. replace (Z.to_nat (pos + tot)) with (Z.to_nat pos + length (take (Z.to_nat tot) data))%nat by (rewrite length_take; lia).
    rewrite Sfsfile.splice_splice by lia. f_equal. rewrite Z2Nat.inj_add by lia. by rewrite take_take_drop. }
  unfold write, mbind, M_bind. rewrite length_drop, Hl, Hd. rewrite (proj2 (Z.ltb_ge _ _)) by lia.
  replace (Z.of_nat (512 - Z.to_nat tot)) with (512 - tot) by lia.
  destruct (wscript s) as [|[k| |] r] eqn:Ew; cbn [tail].
  - rewrite (proj2 (Z.ltb_ge (512 - tot) 0)), (proj2 (Z.eqb_neq (512 - tot) 0)) by lia. rewrite u32_small by lia.
    refine (IH (tot + (512 - tot)) (mkmk _ (bitbuf s) []) _ _ _ _); [lia|done|lia|]. cbn. apply Hsp. lia.
  - apply Forall_cons_1 in Hw as [Hk Hw]. cbn in Hk. set (n := Z.max 0 (Z.min k (512 - tot))). assert (0 < n ≤ 512 - tot) as Hn by lia.
    rewrite (proj2 (Z.ltb_ge n 0)), (proj2 (Z.eqb_neq n 0)) by lia. rewrite u32_small by lia.
    refine (IH (tot + n) (mkmk _ (bitbuf s) r) _ _ _ _); [lia|done|cbn in *; lia|]. cbn. apply Hsp. lia.
  - apply Forall_cons_1 in Hw as [_ Hw]. refine (IH tot (mkmk (disk s) (bitbuf s) r) _ _ _ _); [lia|done|cbn in *; lia|done].
  - by apply Forall_cons_1 in Hw as [[] _].
Qed.

Lemma diskwrite_run data b im s :
  length data = 512%nat → sectors im → (b < length im)%nat → Z.of_nat (length im) < 2 ^ 22 →
  disk s = mjoin im → Forall tame (wscript s) →
  ∃ s', diskwrite data (Z.of_nat b) s = Ok (inr tt, s') ∧ disk s' = mjoin (<[b := data]> im) ∧ bitbuf s' = bitbuf s ∧ Forall tame (wscript s').
Proof.
  intros Hd Him Hb Hn Hs Hw. unfold diskwrite. erewrite bind_ok by reflexivity. unfold BLOCKSIZE. rewrite u32_small by lia.
  destruct (lookup_lt_is_Some_2 im b Hb) as [old Hold]. pose proof (Sfsfile.length_join_blocks im 512 Him) as Hlen.
  destruct (write_loop_run (length (wscript s) + 513) data (Z.of_nat b * 512) 0 (mjoin im) s) as (s' & E & Es & Eb & Ew);
    [done|lia|rewrite Hlen; lia|lia|done|right; lia|by rewrite take_0, splice_nil|].
  exists s'. split_and!; [done| |done|done]. rewrite Es.
  pose proof (Sfsfile.mjoin_insert_splice im 512 b 0 data old Him Hold ltac:(lia)) as Hm.
  rewrite splice_all in Hm by (pose proof (Forall_lookup_1 _ _ _ _ Him Hold); cbn in *; lia). rewrite Hm. f_equal. lia.
Qed.

Lemma sectors_insert im b data : sectors im → length data = 512%nat → sectors (<[b := data]> im).
Proof. intros. by apply Forall_insert. Qed.

Lemma writemap_loop_run n i im s :
  sectors im → (2 + i + n ≤ length im)%nat → Z.of_nat (length im) < 2 ^ 22 → Z.of_nat (length (bitbuf s)) = 16384 → (i + n ≤ 32)%nat →
  disk s = mjoin im → Forall tame (wscript s) →
  ∃ s' im', writemap_loop n (Z.of_nat i) s = Ok (inr tt, s') ∧ disk s' = mjoin im' ∧ sectors im' ∧ length im' = length im ∧
    (∀ k, (k < 2 + i)%nat → im' !! k = im !! k) ∧ ∀ k, (i ≤ k < i + n)%nat → im' !! (2 + k)%nat = Some (Sfsvol.chunk (bitbuf s) k).
Proof.
  revert i im s. induction n as [|n IH]; intros i im s Him Hn H22 Hb Hi Hs Hw.
  { exists s, im. split_and!; try done. intros k Hk. lia. }
  cbn [writemap_loop]. erewrite bind_ok by reflexivity. unfold SFS_BLOCKSIZE, SFS_MAP_LOCATION.
  replace (Z.to_nat (Z.of_nat i * 512)) with (i * 512)%nat by lia. replace (2 + Z.of_nat i) with (Z.of_nat (2 + i)) by lia.
  assert (length (Sfsvol.chunk (bitbuf s) i) = 512%nat) as Hc by (unfold Sfsvol.chunk; rewrite length_take, length_drop; lia).
  fold (Sfsvol.chunk (bitbuf s) i).
  destruct (diskwrite_run _ (2 + i) im s Hc Him ltac:(lia) H22 Hs Hw) as (s1 & E & Es & Eb & Ew).
  erewrite bind_ok by exact E. cbv beta iota. replace (Z.of_nat i + 1) with (Z.of_nat (S i)) by lia.
  destruct (IH (S i) (<[(2 + i)%nat := Sfsvol.chunk (bitbuf s) i]> im) s1) as (s' & im' & E' & Es' & Hf' & Hl' & Hlo & Hhi);
    try done; rewrite ?length_insert; try lia; [by apply sectors_insert|by rewrite Eb|].
  exists s', im'. split_and!; [done|done|done|by rewrite Hl', length_insert| |].
  - intros k Hk. rewrite Hlo by lia. by rewrite list_lookup_insert_ne by lia.
  - intros k Hk. rewrite <- Eb. destruct (decide (k = i)) as [->|]; [|apply Hhi; lia].
    rewrite Hlo by lia. rewrite list_lookup_insert_eq by lia. by rewrite Eb.
Qed.

(** ** The bit map *)
Definition bits (buf : list Z) (j : Z) : bool := Bitmap.marked (Bitmap.mkbitmap 131072 buf) j.

Record buf_ok (buf : list Z) : Prop := {
  bo_len : Z.of_nat (length buf) = 16384;
  bo_bytes : Forall is_byte buf
}.

Lemma doallocbit_run bit s :
  buf_ok (bitbuf s) → 0 ≤ bit < 131072 → bits (bitbuf s) bit = false →
  ∃ buf, doallocbit bit s = Ok (tt, set_bitbuf buf s) ∧ buf_ok buf ∧
    ∀ j, 0 ≤ j → bits buf j = bits (bitbuf s) j || bool_decide (j = bit).
Proof.
  intros [Hl Hb] Hbit Hclear. unfold doallocbit, CHAR_BIT. cbv zeta. pose proof (Z.mod_pos_bound bit 8 ltac:(lia)) as Hm.
  assert (0 ≤ bit `div` 8 < 16384) as Hd by (split; [apply Z.div_pos; lia|apply Z.div_lt_upper_bound; lia]).
  destruct (lookup_lt_is_Some_2 (bitbuf s) (Z.to_nat (bit `div` 8)) ltac:(lia)) as [w Hw]. rewrite Hw.
  pose proof (Forall_lookup_1 _ _ _ _ Hb Hw) as Hbw. unfold bits, Bitmap.marked in Hclear. cbn [Bitmap.v] in Hclear. rewrite Hw in Hclear. cbn in Hclear.
  rewrite (proj2 (Bitmap.land_mask_zero w (bit `mod` 8) Hm) Hclear). cbn [Z.eqb]. pose proof (Bitmap.lor_mask_byte w (bit `mod` 8) Hbw Hm) as Hb'.
  eexists. split; [reflexivity|]. split; [constructor; [by rewrite length_insert|by apply Forall_insert]|].
  intros j Hj. unfold bits. pose proof (Bitmap.marked_store (Bitmap.mkbitmap 131072 (bitbuf s)) (bit `div` 8)
    (Z.lor w (u8 (Z.shiftl 1 (bit `mod` 8)))) j ltac:(cbn; lia) Hj Hb') as Hst.
  unfold Bitmap.store in Hst. cbn [Bitmap.nbits Bitmap.v] in Hst. rewrite u8_small in Hst by (destruct Hb'; lia). rewrite Hst.
  pose proof (Z.mod_pos_bound j 8 ltac:(lia)). pose proof (Z.div_mod j 8 ltac:(lia)). pose proof (Z.div_mod bit 8 ltac:(lia)).
  destruct (decide (j `div` 8 = bit `div` 8)) as [Eq|Ne].
  - rewrite Bitmap.testbit_lor_mask by lia. unfold Bitmap.marked. cbn [Bitmap.v]. rewrite Eq, Hw. cbn. f_equal.
    apply bool_decide_ext. lia.
  - rewrite (bool_decide_false (j = bit)) by (intros ->; done). by rewrite orb_false_r.
Qed.

Lemma alloc_loop_run n i s :
  buf_ok (bitbuf s) → 0 ≤ i → i + Z.of_nat n ≤ 131072 → (∀ j, i ≤ j < i + Z.of_nat n → bits (bitbuf s) j = false) →
  ∃ buf, alloc_loop n i s = Ok (tt, set_bitbuf buf s) ∧ buf_ok buf ∧
    ∀ j, 0 ≤ j → bits buf j = bits (bitbuf s) j || bool_decide (i ≤ j < i + Z.of_nat n).
Proof.
  revert i s. induction n as [|n IH]; intros i s Hb Hi Hn Hc.
  { exists (bitbuf s). split_and!; [by destruct s|done|]. intros j Hj. rewrite bool_decide_false by lia. by rewrite orb_false_r. }
  destruct (doallocbit_run i s Hb ltac:(lia) ltac:(apply Hc; lia)) as (buf1 & E1 & B1 & H1). cbn [alloc_loop]. erewrite bind_ok by exact E1.
  destruct (IH (i + 1) (set_bitbuf buf1 s)) as (buf & E & B & H); [done|lia|lia| |].
  { intros j Hj. cbn. rewrite H1, Hc, bool_decide_false by lia. done. }
  exists buf. rewrite E. split_and!; [by destruct s|done|]. intros j Hj. rewrite H by done. cbn [bitbuf set_bitbuf]. rewrite H1 by done.
  rewrite <- orb_assoc. f_equal. rewrite <- bool_decide_or. apply bool_decide_ext. lia.
Qed.

Lemma bits0 j : bits bitbuf0 j = false.
Proof.
  unfold bits, Bitmap.marked. cbn [Bitmap.v]. unfold bitbuf0. set (k := Z.to_nat (MAXBITBLOCKS * SFS_BLOCKSIZE)).
  destruct (replicate k 0 !! Z.to_nat (j `div` 8)) as [w|] eqn:E; cbn; [|by rewrite Z.bits_0].
  apply lookup_replicate in E as [-> _]. by rewrite Z.bits_0.
Qed.

Lemma bitbuf0_ok : buf_ok bitbuf0.
Proof.
  constructor; unfold bitbuf0; [rewrite length_replicate; by vm_compute|]. apply Forall_replicate. unfold is_byte. lia.
Qed.

(** The volume that mksfs writes on a disk of [n] blocks. *)
Definition mapsize (n : Z) : Z := (n + 4095) `div` 4096.

Definition formatted (n : Z) (vn : list Z) : sfs_super := mksuper SFS_MAGIC n (splice 0 (vn ++ [0]) (replicate 32 0)) (replicate 118 0).
Definition empty_root : sfs_inode := mkinode 0 SFS_TYPE_DIR 1 (replicate 15 0) 0 (replicate 110 0).

Record layout (im : list (list Z)) (vn : list Z) (buf : list Z) : Prop := {
  la_full : sectors im;
  la_sb : im !! 0%nat = Some (enc_super (formatted (Z.of_nat (length im)) vn));
  la_root : im !! 1%nat = Some (enc_inode empty_root);
  la_map : ∀ k, (k < Z.to_nat (mapsize (Z.of_nat (length im))))%nat → im !! (2 + k)%nat = Some (Sfsvol.chunk buf k);
  la_buf : buf_ok buf;
  la_bits : ∀ j, 0 ≤ j → bits buf j = bool_decide (j < 2 + mapsize (Z.of_nat (length im)) ∨
    Z.of_nat (length im) ≤ j < 4096 * mapsize (Z.of_nat (length im)))
}.

(** The disk is large enough for the bit map and small enough for the program's buffer. *)
Definition size_ok (n : Z) : Prop := 2 + mapsize n ≤ n ≤ 131072.

Lemma mapsize_range n : size_ok n → 1 ≤ mapsize n ≤ 32 ∧ n ≤ 4096 * mapsize n ∧ 4096 * mapsize n ≤ 131072 ∧
  SFS_BITBLOCKS n = mapsize n ∧ SFS_BITMAPSIZE n = 4096 * mapsize n.
Proof.
  unfold size_ok, mapsize. intros Hn. assert (0 ≤ n) by (Z.to_euclidean_division_equations; lia).
  destruct (Sfsvol.bitmapsize_eq n ltac:(lia)) as [E1 E2]. rewrite E1, E2. split_and!; try done; Z.to_euclidean_division_equations; lia.
Qed.

Lemma writebitmap_run im s :
  sectors im → size_ok (Z.of_nat (length im)) → bitbuf s = bitbuf0 → disk s = mjoin im → Forall tame (wscript s) →
  ∃ s' im' buf, writebitmap (Z.of_nat (length im)) s = Ok (inr tt, s') ∧ disk s' = mjoin im' ∧ sectors im' ∧ length im' = length im ∧
    (∀ k, (k < 2)%nat → im' !! k = im !! k) ∧ buf_ok buf ∧
    (∀ k, (k < Z.to_nat (mapsize (Z.of_nat (length im))))%nat → im' !! (2 + k)%nat = Some (Sfsvol.chunk buf k)) ∧
    ∀ j, 0 ≤ j → bits buf j = bool_decide (j < 2 + mapsize (Z.of_nat (length im)) ∨
      Z.of_nat (length im) ≤ j < 4096 * mapsize (Z.of_nat (length im))).
Proof.
  intros Him Hn Hb0 Hs Hw. set (n := Z.of_nat (length im)) in *. destruct (mapsize_range n Hn) as (M1 & M2 & M3 & E1 & E2).
  unfold size_ok in Hn. unfold writebitmap. rewrite E1, E2. cbv zeta. rewrite Z.gtb_ltb, (proj2 (Z.ltb_ge _ _)) by (unfold MAXBITBLOCKS; lia).
  unfold SFS_SB_LOCATION, SFS_ROOT_LOCATION, SFS_MAP_LOCATION.
  destruct (doallocbit_run 0 s ltac:(rewrite Hb0; apply bitbuf0_ok) ltac:(lia) ltac:(rewrite Hb0; apply bits0)) as (b1 & X1 & B1 & H1).
  erewrite bind_ok by exact X1. rewrite Hb0 in H1.
  destruct (doallocbit_run 1 (set_bitbuf b1 s) B1 ltac:(lia) ltac:(cbn; by rewrite H1, bits0 by lia)) as (b2 & X2 & B2 & H2).
  erewrite bind_ok by exact X2. cbn [bitbuf set_bitbuf] in H2.
  assert (∀ j, 0 ≤ j → bits b2 j = bool_decide (j < 2)) as H2'.
  { intros j Hj. rewrite H2, H1, bits0 by done. cbn [orb]. rewrite <- bool_decide_or. apply bool_decide_ext. lia. }
  destruct (alloc_loop_run (Z.to_nat (mapsize n)) 2 (set_bitbuf b2 (set_bitbuf b1 s)) B2 ltac:(lia) ltac:(lia)) as (b3 & X3 & B3 & H3).
  { intros j Hj. cbn. rewrite H2' by lia. apply bool_decide_false. lia. }
  erewrite bind_ok by exact X3. cbn [bitbuf set_bitbuf] in H3.
  destruct (alloc_loop_run (Z.to_nat (4096 * mapsize n - n)) n (set_bitbuf b3 (set_bitbuf b2 (set_bitbuf b1 s))) B3 ltac:(lia) ltac:(lia)) as (b4 & X4 & B4 & H4).
  { intros j Hj. cbn. rewrite H3, H2' by lia. rewrite !bool_decide_false by lia. done. }
  erewrite bind_ok by exact X4. cbn [bitbuf set_bitbuf] in H4. set (s4 := set_bitbuf b4 _).
  destruct (writemap_loop_run (Z.to_nat (mapsize n)) 0 im s4) as (s' & im' & E & Es & Hf & Hl & Hlo & Hhi); try done; try lia; [apply B4|].
  exists s', im', b4. split_and!; try done.
  - intros k Hk. apply Hhi. lia.
  - intros j Hj. rewrite H4, H3, H2' by done. rewrite <- !bool_decide_or. apply bool_decide_ext. lia.
Qed.

Lemma formatted_wf n vn : 0 ≤ n < 2 ^ 32 → (length vn < 32)%nat → super_wf (formatted n vn).
Proof.
  intros Hn Hv. constructor; cbn [formatted sp_magic sp_nblocks sp_volname sp_reserved]; [done|done| |done|by apply Forall_replicate].
  rewrite length_splice; rewrite ?length_app, ?length_replicate; cbn; lia.
Qed.

Lemma empty_root_wf : inode_wf empty_root.
Proof. constructor; try done; by apply Forall_replicate. Qed.

(** The program as a whole. *)
Lemma main_run argv name vn im s :
  volume_name argv = Ok (inr name) → Cstring.cstr name = Some vn → (length vn < 32)%nat →
  sectors im → size_ok (Z.of_nat (length im)) → bitbuf s = bitbuf0 → disk s = mjoin im → Forall tame (wscript s) →
  ∃ s' im' buf, main argv s = Ok (inr 0, s') ∧ disk s' = mjoin im' ∧ length im' = length im ∧ layout im' vn buf.
Proof.
  intros Hv Hc Hvn Him Hn Hb Hs Hw. set (n := Z.of_nat (length im)) in *. pose proof Hn as Hn'. unfold size_ok in Hn'.
  destruct (mapsize_range n Hn) as (M1 & M2 & M3 & _). unfold main. erewrite bind_ok by reflexivity.
  erewrite bind_ok by (unfold lift; rewrite Hv; reflexivity). cbv iota. cbn [negb Z.eqb Pos.eqb diskblocksize BLOCKSIZE SFS_BLOCKSIZE].
  assert (diskblocks s = Ok (n, s)) as Ed.
  { unfold diskblocks, gets, BLOCKSIZE. rewrite Hs, (Sfsfile.length_join_blocks im 512 Him), Nat2Z.inj_mul, Z.div_mul by lia. by rewrite u32_small by lia. }
  erewrite bind_ok by exact Ed. pose proof (formatted_wf n vn ltac:(lia) Hvn) as Hsw.
  destruct (diskwrite_run (enc_super (formatted n vn)) 0 im s) as (s1 & X1 & D1 & F1 & W1); try done; [by apply super_roundtrip|lia|lia|].
  assert (writesuper name n s = Ok (inr tt, s1)) as X1'.
  { unfold writesuper. erewrite bind_ok by (unfold lift; rewrite (Cstring.strlen_cstr _ _ Hc); reflexivity). unfold SFS_VOLNAME_SIZE.
    rewrite Z.geb_leb, (proj2 (Z.leb_gt _ _)) by lia.
    erewrite bind_ok; [exact X1|]. unfold lift, Cstring.strcpy. erewrite Cstring.strcpy_from_cstr by (done || cbn; lia). done. }
  erewrite bind_ok by exact X1'. cbv iota. set (im1 := <[0%nat := _]> im) in D1.
  assert (sectors im1) as Him1 by (apply sectors_insert; [done|by apply super_roundtrip]). assert (length im1 = length im) as L1 by apply length_insert.
  destruct (diskwrite_run (enc_inode empty_root) 1 im1 s1) as (s2 & X2 & D2 & F2 & W2); try done; [lia|lia|].
  erewrite bind_ok by exact X2. cbv iota. set (im2 := <[1%nat := _]> im1) in D2.
  assert (sectors im2) as Him2 by (apply sectors_insert; [done|by apply inode_roundtrip, empty_root_wf]).
  assert (length im2 = length im) as L2 by (by rewrite <- L1; apply length_insert).
  destruct (writebitmap_run im2 s2) as (s' & im' & buf & X3 & D3 & Hf & L3 & Hlo & Bo & Hm & Hbits); try done; rewrite ?L2; try done; [congruence|].
  rewrite L2 in X3, Hm, Hbits. fold n in X3. erewrite bind_ok by exact X3. exists s', im', buf.
  split_and!; [done|done|congruence|]. rewrite L2 in L3. constructor; rewrite ?L3; try done.
  - rewrite Hlo by lia. unfold im2. rewrite list_lookup_insert_ne by done. apply list_lookup_insert_eq. lia.
  - rewrite Hlo by lia. unfold im2. apply list_lookup_insert_eq. lia.
Qed.

(** ** The volume as the kernel sees it *)
Import Lhd Sfs Sfsfile Sfsdir Sfsvol Sfsref.

Section formatted.
Context (im : list (list Z)) (vn buf : list Z).
Context (Hlay : layout im vn buf) (Hsize : size_ok (Z.of_nat (length im))) (Hvn : (length vn < 32)%nat).

Let n := Z.of_nat (length im).

Definition freemap : Bitmap.bitmap := Bitmap.mkbitmap (4096 * mapsize n) (take (Z.to_nat (mapsize n) * 512) buf).
Definition fresh_fs (d : dstate) : sfs_fs := mksfs (formatted n vn) false d (Array.mkarray 0 0 None) freemap false ∅ 0 [].

Lemma freemap_len : length (Bitmap.v freemap) = (Z.to_nat (mapsize n) * 512)%nat.
Proof.
  destruct (mapsize_range _ Hsize) as (M1 & _). pose proof (bo_len _ (la_buf _ _ _ Hlay)). cbn. rewrite length_take. fold n in M1. lia.
Qed.

Lemma freemap_bits j : 0 ≤ j < 4096 * mapsize n → Bitmap.marked freemap j = bool_decide (j < 2 + mapsize n ∨ n ≤ j).
Proof.
  intros Hj. pose proof (la_bits _ _ _ Hlay j ltac:(lia)) as H. fold n in H. unfold bits, Bitmap.marked in H. cbn [Bitmap.v] in H.
  unfold Bitmap.marked, freemap. cbn [Bitmap.v]. assert (0 ≤ j `div` 8 < 512 * mapsize n) by (split; [apply Z.div_pos; lia|apply Z.div_lt_upper_bound; lia]).
  rewrite lookup_take_lt by lia. rewrite H. apply bool_decide_ext. lia.
Qed.

Lemma freemap_wf : Bitmap.bitmap_wf freemap.
Proof.
  destruct (mapsize_range _ Hsize) as (M1 & M2 & M3 & _). fold n in M1, M2, M3. pose proof freemap_len as Hl.
  constructor; [cbn; lia| |by apply Forall_take, (bo_bytes _ (la_buf _ _ _ Hlay))|].
  - rewrite Hl. cbn [Bitmap.nbits freemap]. Z.to_euclidean_division_equations; lia.
  - rewrite Hl. cbn [Bitmap.nbits freemap]. lia.
Qed.

Lemma fresh_used d b : 0 ≤ b < n → used (fresh_fs d) b ↔ b < 2 + mapsize n.
Proof.
  intros Hb. destruct (mapsize_range _ Hsize) as (M1 & M2 & M3 & _). fold n in M1, M2, M3.
  unfold used. cbn [sfs_freemap fresh_fs]. rewrite freemap_bits by lia. rewrite bool_decide_eq_true. lia.
Qed.

Lemma formatted_terminated : sp_volname (formatted n vn) !! 31%nat = Some 0.
Proof.
  unfold formatted. cbn [sp_volname]. destruct (decide (length vn = 31)%nat) as [E|E].
  - rewrite lookup_splice_in; rewrite ?length_app, ?length_replicate; cbn [length]; [|lia..].
    rewrite Nat.sub_0_r, lookup_app_r by lia. by rewrite E.
  - rewrite lookup_splice_out; rewrite ?length_app, ?length_replicate; cbn [length]; [done|lia..].
Qed.

Lemma fresh_volume d : dev_wf d → faults d = [] → image d = im → volume (fresh_fs d) [] ∧ on_disk (fresh_fs d) [].
Proof.
  intros Hd Hf Him. destruct (mapsize_range _ Hsize) as (M1 & M2 & M3 & E1 & E2). fold n in M1, M2, M3, E1, E2.
  pose proof Hsize as [Hlo Hhi]. fold n in Hlo, Hhi.
  assert (mapblocks (fresh_fs d) = Z.to_nat (mapsize n)) as Emb by (unfold mapblocks, nblocks; cbn; by rewrite E1).
  assert (holds_map (img (fresh_fs d)) (Bitmap.v freemap) 0 (Z.to_nat (mapsize n))) as Hmap.
  { intros k Hk. unfold img. cbn [sfs_device fresh_fs]. rewrite Him, (la_map _ _ _ Hlay k) by (fold n; lia). unfold chunk, freemap. cbn [Bitmap.v].
    rewrite skipn_firstn_comm, take_take. do 2 f_equal. lia. }
  assert (fs_wf (fresh_fs d)) as Hw.
  { constructor; cbn [sfs_device sfs_freemap fresh_fs]; try done.
    - apply freemap_wf.
    - unfold nblocks, img. cbn. rewrite Him. lia.
    - intros b Hb. change (nblocks (fresh_fs d)) with n in Hb. change (Bitmap.nbits freemap) with (4096 * mapsize n) in Hb.
      unfold used. cbn [sfs_freemap fresh_fs]. rewrite freemap_bits by lia. apply bool_decide_true. lia.
    - apply fresh_used; lia. }
  split.
  - constructor; try done; rewrite ?Emb; try done.
    + apply formatted_wf; [lia|done].
    + apply formatted_terminated.
    + change (nblocks (fresh_fs d)) with n. lia.
    + intros _. unfold img; cbn [sfs_device fresh_fs]. rewrite Him. apply (la_sb _ _ _ Hlay).
  - constructor; try done; rewrite ?Emb; try done. unfold img; cbn [sfs_device fresh_fs]. rewrite Him. apply (la_sb _ _ _ Hlay).
Qed.

Lemma fresh_mounts d :
  dev_wf d → faults d = [] → image d = im →
  ∃ d', sfs_domount 512 [] d = Ok (inr (fresh_fs d'), d') ∧ dev_wf d' ∧ faults d' = [] ∧ image d' = im.
Proof.
  intros Hd Hf Him. destruct (fresh_volume d Hd Hf Him) as [V O].
  destruct (mount_run (fresh_fs d) []) as (d' & E & D1 & D2 & D3); try apply V; [by eapply map_length|done|].
  exists d'. split_and!; [exact E|done|done|by rewrite <- Him].
Qed.

Lemma empty_inode_ok s : fs_wf s → img s = im → nblocks s = n → inode_ok (nblocks s) (used s) (img s) empty_root.
Proof.
  intros Hw Hi Hnb. pose proof Hsize as [_ Hhi]. fold n in Hhi. assert (∀ k b, ptrs (img s) empty_root !! k = Some b → b = 0) as Hp.
  { unfold ptrs. cbn [sfi_direct sfi_indirect empty_root]. unfold idx. rewrite Z.eqb_refl. rewrite <- replicate_add. intros k b [-> _]%lookup_replicate. done. }
  constructor; try done; [rewrite Hi; apply (la_full _ _ _ Hlay)|rewrite Hnb, Hi; unfold n; lia|..].
  - intros k b Hk. left. by apply (Hp k).
  - by left.
  - intros k1 k2 b Hk _ Hb. by apply Hp in Hk.
Qed.

(** The root directory is empty. *)
Lemma fresh_root d :
  dev_wf d → faults d = [] → image d = im →
  ∃ root fs v, sfs_getroot (fresh_fs d) = Ok (root, fs) ∧ dirinv fs root v [] ∅ ∧ sfs_freemap fs = freemap.
Proof.
  intros Hd Hf Him. destruct (fresh_volume d Hd Hf Him) as [V _]. destruct (mapsize_range _ Hsize) as (M1 & M2 & M3 & _). fold n in M1, M2, M3.
  pose proof Hsize as [Hlo Hhi]. fold n in Hlo, Hhi.
  pose proof (vo_fs _ _ V). pose proof (vo_table _ _ V).
  destruct (load_miss (fresh_fs d) [] 1 empty_root) as (fs & E & Eh & Hw & _ & Ei & Ef & Es); try done.
  - change (nblocks (fresh_fs d)) with n. lia.
  - apply fresh_used; lia.
  - unfold img; cbn [sfs_device fresh_fs]. rewrite Him. apply (la_root _ _ _ Hlay).
  - apply empty_root_wf.
  - by right.
  - exists (heap_next (fresh_fs d)), fs, (mkvnode (ops_of empty_root) 1 0 empty_root 1 false). split_and!.
    + unfold sfs_getroot, SFS_ROOT_LOCATION. erewrite bind_ok by exact E. done.
    + constructor; try done.
      * constructor; [done|rewrite Eh; apply lookup_insert_eq|]. cbn [sv_i]. apply empty_inode_ok; [done|by rewrite Ei|unfold nblocks; by rewrite Es].
      * constructor; [|done]. intros nm ino. rewrite lookup_empty. split; [done|]. by intros (k & e & Hk & _).
    + by rewrite Ef.
Qed.
End formatted.

(** ** Theorem *)

(** C38: Formatting a disk of [n] blocks (with room for the bit map, and no more than the program's buffer
    allows) with a legal name: mksfs exits with 0, whatever the disk held and however its
    writes are interrupted or cut short.  Any healthy device with that disk is then mounted by the kernel as a
    sound volume of that name and size; the blocks in use are the superblock, the root and the bit map,
    and the root is an empty directory. *)
Theorem mksfs_mounts argv name vn im s :
  volume_name argv = Ok (inr name) → Cstring.cstr name = Some vn → (length vn < 32)%nat →
  sectors im → size_ok (Z.of_nat (length im)) → bitbuf s = bitbuf0 → disk s = mjoin im → Forall tame (wscript s) →
  ∃ s' im', Mksfs.main argv s = Ok (inr 0, s') ∧ disk s' = mjoin im' ∧ length im' = length im ∧
    ∀ d, dev_wf d → faults d = [] → image d = im' →
      ∃ d' fs root fs' v, sfs_domount 512 [] d = Ok (inr fs, d') ∧ volume fs [] ∧
        nblocks fs = Z.of_nat (length im) ∧ Cstring.cstr (sp_volname (sfs_super fs)) = Some vn ∧
        (∀ b, 0 ≤ b < Z.of_nat (length im) → used fs b ↔ b < 2 + mapsize (Z.of_nat (length im))) ∧
        sfs_getroot fs = Ok (root, fs') ∧ dirinv fs' root v [] ∅.
Proof.
  intros Hv Hc Hvn Him Hn Hb Hs Hw. destruct (main_run argv name vn im s Hv Hc Hvn Him Hn Hb Hs Hw) as (s' & im' & buf & E & Ed & El & L).
  exists s', im'. split_and!; [done..|]. intros d Hd Hf Hi. rewrite <- El in Hn.
  destruct (fresh_mounts im' vn buf L Hn Hvn d Hd Hf Hi) as (d' & Em & D1 & D2 & D3).
  destruct (fresh_root im' vn buf L Hn Hvn d' D1 D2 D3) as (root & fs' & v & Er & Hdir & _).
  exists d', (fresh_fs im' vn buf d'), root, fs', v. rewrite <- El. split_and!; try done.
  - by apply (fresh_volume im' vn buf L Hn Hvn).
  - cbn [sfs_super fresh_fs formatted sp_volname]. unfold splice. rewrite take_0. cbn [app]. rewrite <- app_assoc. cbn [app].
    apply Cstring.cstr_app. by eapply Cstring.cstr_nz.
  - intros b Hb'. by apply fresh_used.
Qed.

(** A disk of four blocks. *)
Definition blank : list (list Z) := replicate 4 (replicate 512 7).

Lemma mksfs_mounts_witness :
  ∃ s' im', Mksfs.main [118; 58; 0] (mkmk (mjoin blank) bitbuf0 [WShort 100; WInterrupted]) = Ok (inr 0, s') ∧ disk s' = mjoin im'.
Proof.
  destruct (mksfs_mounts [118; 58; 0] [118; 0; 0] [118] blank (mkmk (mjoin blank) bitbuf0 [WShort 100; WInterrupted]))
    as (s' & im' & E & Ed & _); [reflexivity|reflexivity|cbn; lia|by apply Forall_replicate|by vm_compute|reflexivity|reflexivity| |].
  - repeat constructor; cbn; lia.
  - exists s', im'. split; [exact E|exact Ed].
Defined.

End Mksfsspec.
