(* ===== verification/Loadelf.v ===== *)
(** * Loading programs (kern/userprog/loadelf.c)

    [Exec S] is what the loader uses of the rest of the kernel, whose state is [S]: [VOP_READ] of the
    executable, the operations of the current address space, and access to user memory.  The headers are
    records, decoded from the bytes read (the file is big-endian, as the machine is).  A result that fills
    [*entrypoint] is [Z + Z]. *)
From stdpp Require Import base list numbers.
From S2P Require Import Prelude Copyinout Uio.
Local Open Scope Z_scope.

Module Loadelf.
Import Uio.

Record Elf_Ehdr := mkehdr {
  e_ident : list Z;
  e_type : Z;
  e_machine : Z;
  e_version : Z;
  e_entry : Z;
  e_phoff : Z;
  e_shoff : Z;
  e_flags : Z;
  e_ehsize : Z;
  e_phentsize : Z;
  e_phnum : Z;
  e_shentsize : Z;
  e_shnum : Z;
  e_shstrndx : Z
}.

Record Elf_Phdr := mkphdr {
  p_type : Z;
  p_offset : Z;
  p_vaddr : Z;
  p_paddr : Z;
  p_filesz : Z;
  p_memsz : Z;
  p_flags : Z;
  p_align : Z
}.

Definition EHSIZE : Z := 52.
Definition PHSIZE : Z := 32.

(** The two- or four-byte field at offset [o]. *)
Definition half (bs : list Z) (o : nat) : Z := un_be (take 2 (drop o bs)).
Definition word (bs : list Z) (o : nat) : Z := un_be (take 4 (drop o bs)).

Definition dec_ehdr (bs : list Z) : Elf_Ehdr :=
  mkehdr (take 16 bs) (half bs 16) (half bs 18) (word bs 20) (word bs 24) (word bs 28) (word bs 32) (word bs 36)
    (half bs 40) (half bs 42) (half bs 44) (half bs 46) (half bs 48) (half bs 50).

Definition dec_phdr (bs : list Z) : Elf_Phdr :=
  mkphdr (word bs 0) (word bs 4) (word bs 8) (word bs 12) (word bs 16) (word bs 20) (word bs 24) (word bs 28).

Definition ELFCLASS32 : Z := 1.
Definition ELFDATA2MSB : Z := 2.
Definition EV_CURRENT : Z := 1.
Definition ET_EXEC : Z := 2.
Definition EM_MIPS : Z := 8.
Definition PT_NULL : Z := 0.
Definition PT_LOAD : Z := 1.
Definition PT_PHDR : Z := 6.
Definition PT_MIPS_REGINFO : Z := 1879048192.
Definition PF_R : Z := 4.
Definition PF_W : Z := 2.
Definition PF_X : Z := 1.

(** The test on the header: [true] when the file is refused. *)
Definition bad_ehdr (eh : Elf_Ehdr) : bool :=
  negb (bool_decide (take 4 (e_ident eh) = [127; 69; 76; 70])) ||
  negb (bool_decide (e_ident eh !! 4%nat = Some ELFCLASS32)) ||
  negb (bool_decide (e_ident eh !! 5%nat = Some ELFDATA2MSB)) ||
  negb (bool_decide (e_ident eh !! 6%nat = Some EV_CURRENT)) ||
  negb (e_version eh =? EV_CURRENT) || negb (e_type eh =? ET_EXEC) || negb (e_machine eh =? EM_MIPS).

(** What the loader calls. *)
Class Exec (S : Type) := {
  VOP_READ : nat → uio → M S (Z * uio);
  t_vmspace : S → option nat;
  as_define_region : nat → Z → Z → Z → Z → Z → M S Z;
  as_prepare_load : nat → M S Z;
  as_complete_load : nat → M S Z;
  user_io : ∀ {A}, M ustate A → M S A
}.

Section load.
Context {S : Type} `{Exec S}.

(** [curthread->t_vmspace], where it is used as a pointer. *)
Definition vmspace : M S nat := fun s =>
  match t_vmspace s with
  | Some p => Ok (p, s)
  | None => Undef
  end.

Definition set_resid (n : Z) (u : uio) : uio :=
  mkuio (iov_un u) (iov_len u) (uio_offset u) n (uio_segflg u) (uio_rw u) (uio_space u).

Definition load_segment (v : nat) (offset vaddr memsize filesize : Z) (is_executable : bool) : M S Z :=
  let filesize := if filesize >? memsize then memsize else filesize in
  let* sp := gets t_vmspace in
  let u := mkuio (un_ubase vaddr) memsize offset filesize
             (if is_executable then UIO_USERISPACE else UIO_USERSPACE) UIO_READ sp in
  let* '(result, u) := VOP_READ v u in
  if negb (result =? 0) then mret result
  else if negb (uio_resid u =? 0) then mret ENOEXEC
  else
    let fillamt := u32 (memsize - filesize) in
    if fillamt >? 0 then
      let* '(result, _) := user_io (uiomovezeros fillamt (set_resid (u32 (uio_resid u + fillamt)) u)) in
      mret result
    else mret 0.

(** Reads [len] bytes at [offset] into a kernel structure: [inl] the error, or the bytes. *)
Definition read_struct (v : nat) (len offset : Z) : M S (Z + list Z) :=
  let* '(result, ku) := VOP_READ v (mk_kuio (replicate (Z.to_nat len) 0) len offset UIO_READ) in
  if negb (result =? 0) then mret (inl result)
  else if negb (uio_resid ku =? 0) then mret (inl ENOEXEC)
  else mret (inr (kuio_data ku)).

(** The switch on the segment type. *)
Inductive seg_kind := Skip | Load | Unknown.

Definition kind (ph : Elf_Phdr) : seg_kind :=
  if p_type ph =? PT_NULL then Skip
  else if p_type ph =? PT_PHDR then Skip
  else if p_type ph =? PT_MIPS_REGINFO then Skip
  else if p_type ph =? PT_LOAD then Load
  else Unknown.

(** One loop over the program headers, with what is done for each segment to load. *)
Fixpoint phdr_loop (f : Elf_Phdr → M S Z) (n : nat) (i : Z) (v : nat) (eh : Elf_Ehdr) : M S Z :=
  match n with
  | O => mret 0
  | Datatypes.S n' =>
      let* r := read_struct v PHSIZE (i32 (e_phoff eh + i * e_phentsize eh)) in
      match r with
      | inl e => mret e
      | inr bs =>
          let ph := dec_phdr bs in
          match kind ph with
          | Skip => phdr_loop f n' (i + 1) v eh
          | Unknown => mret ENOEXEC
          | Load =>
              let* result := f ph in
              if negb (result =? 0) then mret result else phdr_loop f n' (i + 1) v eh
          end
      end
  end.

Definition define_segment (ph : Elf_Phdr) : M S Z :=
  let* p := vmspace in
  as_define_region p (p_vaddr ph) (p_memsz ph) (Z.land (p_flags ph) PF_R) (Z.land (p_flags ph) PF_W) (Z.land (p_flags ph) PF_X).

Definition copy_segment (v : nat) (ph : Elf_Phdr) : M S Z :=
  load_segment v (i32 (p_offset ph)) (p_vaddr ph) (p_memsz ph) (p_filesz ph) (negb (Z.land (p_flags ph) PF_X =? 0)).

(** [load_elf] once the header has been accepted. *)
Definition load_image (v : nat) (eh : Elf_Ehdr) : M S (Z + Z) :=
  let* result := phdr_loop define_segment (Z.to_nat (e_phnum eh)) 0 v eh in
  if negb (result =? 0) then mret (inl result)
  else
    let* p := vmspace in
    let* result := as_prepare_load p in
    if negb (result =? 0) then mret (inl result)
    else
      let* result := phdr_loop (copy_segment v) (Z.to_nat (e_phnum eh)) 0 v eh in
      if negb (result =? 0) then mret (inl result)
      else
        let* p := vmspace in
        let* result := as_complete_load p in
        if negb (result =? 0) then mret (inl result)
        else mret (inr (e_entry eh)).

Definition load_elf (v : nat) : M S (Z + Z) :=
  let? bs := read_struct v EHSIZE 0 in
  let eh := dec_ehdr bs in
  if bad_ehdr eh then mret (inl ENOEXEC) else load_image v eh.
End load.

End Loadelf.
