(* ===== verification/Loadelfspec.v ===== *)
(** * The loader loads what the file says

    [ExecLaws] states what loadelf.c relies on: [VOP_READ] transfers the bytes of the file; the regions of a list that is
    [usable] can be defined, and once [as_prepare_load] has succeeded user memory can be accessed and their bytes are mapped.  Which lists are usable is for
    the address space to say: Loadelfvm.v shows that the operations of dumbvm.c keep these promises for executables of two segments.
    Against the laws the theorems show that [load_elf] leaves each segment of a well-formed executable in user memory, the rest of the
    segment zeroed; that a file with a bad header is refused is shown for every [Exec]. *)
From stdpp Require Import base list gmap numbers.
From S2P Require Import Prelude Copyinout Uio Loadelf.
Local Open Scope Z_scope.

Module Loadelfspec.
Import Copyinout Uio Loadelf.

(** ** User memory *)
Lemma user_write_app m a x y : user_write m a (x ++ y) = user_write (user_write m a x) (a + Z.of_nat (length x)) y.
Proof.
  revert m a. induction x as [|b x IH]; intros m a; cbn [app user_write length]; [f_equal; lia|]. rewrite IH. f_equal. lia.
Qed.

Lemma user_bytes_ext m m' a n : (∀ x, a ≤ x < a + Z.of_nat n → m' !! x = m !! x) → user_bytes m' a n = user_bytes m a n.
Proof.
  revert a. induction n as [|n IH]; intros a Hx; cbn [user_bytes]; [done|]. rewrite Hx by lia. rewrite IH; [done|]. intros x ?. apply Hx. lia.
Qed.

Lemma user_write_bytes m a bs : user_bytes (user_write m a bs) a (length bs) = Some bs.
Proof.
  revert m a. induction bs as [|b bs IH]; intros m a; cbn [user_bytes length user_write]; [done|]. rewrite IH.
  rewrite user_write_lookup, decide_False by lia. by rewrite lookup_insert_eq.
Qed.

Lemma user_write_dom m a bs x : is_Some (m !! x) → is_Some (user_write m a bs !! x).
Proof.
  intros Hx. rewrite user_write_lookup. destruct (decide _); [|done]. apply lookup_lt_is_Some_2. lia.
Qed.

(** Writing zeros to a region of mapped user memory. *)
Lemma uiomovezeros_user fuel n u a s :
  uuio u (Uio.t_vmspace s) a → uio_rw u = UIO_READ → idle (u_mem s) → 0 ≤ n ≤ uio_resid u → a + n ≤ USERTOP → (Z.to_nat n ≤ fuel)%nat →
  (∀ x, a ≤ x < a + n → is_Some (umem (u_mem s) !! x)) →
  ∃ u', uiomovezeros_loop fuel n u s = Ok ((0, u'), mkustate (mkcstate (user_write (umem (u_mem s)) a (replicate (Z.to_nat n) 0)) false) (Uio.t_vmspace s)).
Proof.
  revert n u a s. induction fuel as [|fuel IH]; intros n u a s Hu Hrw Hid Hn Ha Hf Hm.
  { assert (n = 0) as -> by lia. exists u. rewrite uiomovezeros_loop_done by lia. cbn. rewrite <- Hid. by destruct s as [[] ?]. }
  destruct (decide (n = 0)) as [->|Hpos].
  { exists u. rewrite uiomovezeros_loop_done by lia. cbn. rewrite <- Hid. by destruct s as [[] ?]. }
  cbn [uiomovezeros_loop]. rewrite (proj2 (Z.gtb_lt n 0)) by lia. set (k := Z.min 16 n). assert (0 < k ≤ 16 ∧ k ≤ n) as Hk by lia. clearbody k.
  destruct (user_read_run u a s zeros16 k Hu Hrw Hid ltac:(lia) ltac:(cbn; lia)) as (r & u1 & m1 & E & _ & Hr & Hcase).
  assert (r = 0) as ->.
  { apply Hr. split; [lia|]. apply user_bytes_mapped. intros x Hx. apply Hm. lia. }
  destruct Hcase as [(_ & (N1 & N2 & N3 & N4 & N5 & N6 & N7) & ->)|[? _]]; [|done].
  erewrite bind_ok by exact E. cbn [negb Z.eqb]. set (s1 := mkustate _ _). pose proof Hu as [U1 U2 U3 U4 U5 U6 U7 U8].
  destruct (decide (n = k)) as [<-|Hnk].
  { exists u1. rewrite uiomovezeros_loop_done by lia. do 4 f_equal. unfold s1, zeros16. rewrite take_replicate, Nat.min_l by lia. done. }
  destruct (IH (n - k) u1 (a + k) s1) as (u' & E'); try done; try lia.
  - constructor; rewrite ?N1, ?N2, ?N3, ?N4, ?N6, ?N7; (done || (unfold USERTOP in *; lia)).
  - congruence.
  - intros x Hx. cbn. apply user_write_dom, Hm. lia.
  - exists u'. rewrite E'. do 4 f_equal. unfold s1, zeros16. cbn [u_mem umem]. rewrite take_replicate, Nat.min_l by lia.
    replace (a + k) with (a + Z.of_nat (length (replicate (Z.to_nat k) 0))) by (rewrite length_replicate; lia).
    rewrite <- user_write_app, <- replicate_add. do 2 f_equal. lia.
Qed.

(** ** What the loader relies on *)
Class ExecView (S : Type) := {
  user : S → ustate;
  file : S → nat → option (list Z);
  regions : S → list (Z * Z);
  okay : S → Prop;                  (* what the kernel keeps true of the address space *)
  unprepared : S → Prop;            (* no memory has been asked for yet *)
  accessible : S → Prop;            (* user memory can be accessed *)
  usable : list (Z * Z) → Prop;     (* regions an address space can have, complete *)
  fits : S → list (Z * Z) → Prop    (* there is memory for these regions *)
}.

Section laws.
Context {S : Type} `{Exec S, ExecView S}.

Definition frame (s s' : S) : Prop :=
  (∀ v, file s' v = file s v) ∧ t_vmspace s' = t_vmspace s ∧ is_Some (t_vmspace s) ∧ (okay s → okay s').

(** Nothing but the inside of the file system has changed. *)
Definition same (s s' : S) : Prop :=
  frame s s' ∧ user s' = user s ∧ regions s' = regions s ∧ (∀ l, fits s' l ↔ fits s l) ∧ (accessible s → accessible s') ∧
  (unprepared s → unprepared s').

Definition quiet (s : S) : Prop := idle (u_mem (user s)) ∧ Uio.t_vmspace (user s) = t_vmspace s ∧ okay s.

Definition mapped (m : gmap Z Z) (r : Z * Z) : Prop := ∀ x, r.1 ≤ x < r.1 + r.2 → is_Some (m !! x).

(** User memory after an access: the same bytes are mapped. *)
Definition still_mapped (us us' : ustate) : Prop :=
  dom (umem (u_mem us')) = dom (umem (u_mem us)) ∧ Uio.t_vmspace us' = Uio.t_vmspace us.

Class ExecLaws : Prop := {
  law_read v u s c p u' us :
    file s v = Some c → quiet s → is_Some (t_vmspace s) → uio_rw u = UIO_READ → 0 ≤ uio_offset u →
    (uio_segflg u = UIO_SYSSPACE ∧ us = user s ∨ accessible s ∧ still_mapped (user s) us) →
    let n := Z.max 0 (Z.min (uio_resid u) (Z.of_nat (length c) - uio_offset u)) in
    uiomove (take (Z.to_nat n) (drop (Z.to_nat (uio_offset u)) c)) n u (user s) = Ok ((0, p, u'), us) →
    ∃ s', VOP_READ v u s = Ok ((0, u'), s') ∧ frame s s' ∧ user s' = us ∧ regions s' = regions s ∧ (∀ l, fits s' l ↔ fits s l) ∧
      (accessible s → accessible s') ∧ (unprepared s → unprepared s');
  law_define p v sz r w x s l :
    t_vmspace s = Some p → quiet s → unprepared s → usable (regions s ++ (v, sz) :: l) →
    ∃ s', as_define_region p v sz r w x s = Ok (0, s') ∧ frame s s' ∧ quiet s' ∧ unprepared s' ∧ regions s' = regions s ++ [(v, sz)] ∧
      ∀ l, fits s l → fits s' l;
  law_prepare p s :
    t_vmspace s = Some p → quiet s → unprepared s → usable (regions s) →
    ∃ e s', as_prepare_load p s = Ok (e, s') ∧ frame s s' ∧ quiet s' ∧ (fits s (regions s) → e = 0) ∧
      (e = 0 → accessible s' ∧ Forall (mapped (umem (u_mem (user s')))) (regions s));
  law_complete p s :
    t_vmspace s = Some p → ∃ s', as_complete_load p s = Ok (0, s') ∧ frame s s' ∧ user s' = user s;
  law_user {A} (m : M ustate A) s a us :
    m (user s) = Ok (a, us) → still_mapped (user s) us → is_Some (t_vmspace s) → quiet s → accessible s →
    ∃ s', user_io m s = Ok (a, s') ∧ frame s s' ∧ user s' = us ∧ accessible s'
}.
End laws.

Section proofs.
Context {S : Type} `{Exec S, ExecView S, !ExecLaws}.

Lemma frame_trans (s1 s2 s3 : S) : frame s1 s2 → frame s2 s3 → frame s1 s3.
Proof. intros (A1 & A2 & A3 & A4) (B1 & B2 & B3 & B4). split_and!; [intros v; by rewrite B1|congruence|done|auto]. Qed.

Lemma quiet_same (s s' : S) : quiet s → frame s s' → user s' = user s → quiet s'.
Proof. intros (Q1 & Q2 & Q3) (_ & F2 & _ & F4) E. unfold quiet. rewrite E, F2. auto. Qed.

Lemma vmspace_run p (s : S) : t_vmspace s = Some p → vmspace s = Ok (p, s).
Proof. intros E. unfold vmspace. by rewrite E. Qed.

Lemma read_struct_run v len off c (s : S) :
  file s v = Some c → quiet s → is_Some (t_vmspace s) → 0 < len → 0 ≤ off → off + len < 2 ^ 31 →
  ∃ s', same s s' ∧
    read_struct v len off s = Ok (if decide (off + len ≤ Z.of_nat (length c)) then inr (take (Z.to_nat len) (drop (Z.to_nat off) c)) else inl ENOEXEC, s').
Proof.
  intros Hf Hq Hsp Hl Ho Hmax. unfold read_struct.
  assert (kuio (mk_kuio (replicate (Z.to_nat len) 0) len off UIO_READ) [] (replicate (Z.to_nat len) 0)) as Hk.
  { apply mk_kuio_kuio; [rewrite length_replicate; lia|done|lia]. }
  set (n := Z.max 0 (Z.min len (Z.of_nat (length c) - off))). set (data := take (Z.to_nat n) (drop (Z.to_nat off) c)).
  assert (length data = Z.to_nat n) as Hdl by (unfold data; rewrite length_take, length_drop; lia).
  destruct (uiomove_kernel _ _ _ (user s) data n Hk ltac:(cbn; lia) ltac:(lia)) as (u' & E & Hk' & _ & Hr & _). cbn [uio_rw mk_kuio moved] in E, Hk'.
  destruct (law_read v (mk_kuio (replicate (Z.to_nat len) 0) len off UIO_READ) s c _ u' _ Hf Hq Hsp eq_refl ltac:(cbn; lia) (or_introl (conj eq_refl eq_refl)) E) as (s' & E' & Fr & Eu & Er & Ef).
  exists s'. split; [done|]. erewrite bind_ok by exact E'. cbn [negb Z.eqb]. rewrite Hr. cbn [uio_resid mk_kuio].
  destruct (decide (off + len ≤ Z.of_nat (length c))) as [Hfit|Hfit].
  - rewrite (proj2 (Z.eqb_eq (len - n) 0)) by lia. cbn [negb]. unfold kuio_data. rewrite (ku_un _ _ _ Hk'). cbn [app].
    rewrite (drop_ge (replicate (Z.to_nat len) 0)) by (rewrite length_replicate; lia). rewrite app_nil_r, (take_ge data) by lia.
    unfold data. by replace n with len by lia.
  - by rewrite (proj2 (Z.eqb_neq (len - n) 0)) by lia.
Qed.

(** ** Executables *)
Definition file_part (ph : Elf_Phdr) : Z := Z.min (p_filesz ph) (p_memsz ph).

Record seg_ok (c : list Z) (ph : Elf_Phdr) : Prop := {
  so_off : 0 ≤ p_offset ph;
  so_vaddr : 0 ≤ p_vaddr ph < 2 ^ 31;
  so_filesz : 0 ≤ p_filesz ph;
  so_memsz : 0 ≤ p_memsz ph < 2 ^ 31;
  so_file : p_offset ph + file_part ph ≤ Z.of_nat (length c);
  so_max : p_offset ph + p_memsz ph < 2 ^ 31;
  so_top : p_vaddr ph + p_memsz ph ≤ USERTOP
}.

(** What a segment looks like in memory. *)
Definition seg_bytes (c : list Z) (ph : Elf_Phdr) : list Z :=
  take (Z.to_nat (file_part ph)) (drop (Z.to_nat (p_offset ph)) c) ++ replicate (Z.to_nat (p_memsz ph - file_part ph)) 0.

Lemma seg_bytes_length c ph : seg_ok c ph → Z.of_nat (length (seg_bytes c ph)) = p_memsz ph.
Proof.
  intros [S1 S2 S3 S4 S5 S6 S7]. unfold seg_bytes, file_part in *. rewrite length_app, length_take, length_drop, length_replicate. lia.
Qed.

Definition region_of (ph : Elf_Phdr) : Z * Z := (p_vaddr ph, p_memsz ph).

(** A kernel or user transfer of nothing. *)
Lemma uiomove_nothing ptr u s a : uuio u (Uio.t_vmspace s) a → uiomove ptr 0 u s = Ok ((0, ptr, u), s).
Proof. intros Hu. rewrite (uiomove_space_user _ _ _ _ _ Hu). apply uiomove_loop_done. lia. Qed.

Lemma read_user v u a c (s : S) :
  file s v = Some c → quiet s → accessible s → is_Some (t_vmspace s) → uuio u (Uio.t_vmspace (user s)) a → uio_rw u = UIO_READ →
  uio_offset u + uio_resid u ≤ Z.of_nat (length c) → a + uio_resid u ≤ USERTOP → mapped (umem (u_mem (user s))) (a, uio_resid u) →
  ∃ s' u', VOP_READ v u s = Ok ((0, u'), s') ∧ frame s s' ∧ quiet s' ∧ accessible s' ∧ uuio_next u u' a (uio_resid u) ∧
    umem (u_mem (user s')) =
      user_write (umem (u_mem (user s))) a (take (Z.to_nat (uio_resid u)) (drop (Z.to_nat (uio_offset u)) c)).
Proof.
  intros Hf Hq Hac Hsp Hu Hrw Hfit Htop Hm. pose proof Hu as [U1 U2 U3 U4 U5 U6 U7 U8].
  set (n := uio_resid u) in *. assert (Z.max 0 (Z.min n (Z.of_nat (length c) - uio_offset u)) = n) as En by lia.
  set (data := take (Z.to_nat n) (drop (Z.to_nat (uio_offset u)) c)).
  assert (length data = Z.to_nat n) as Hdl by (unfold data; rewrite length_take, length_drop; lia).
  assert (∃ u' us, uiomove data n u (user s) = Ok ((0, data, u'), us) ∧ uuio_next u u' a n ∧ idle (u_mem us) ∧
    Uio.t_vmspace us = Uio.t_vmspace (user s) ∧ umem (u_mem us) = user_write (umem (u_mem (user s))) a data) as (u' & us & E & Hn & I1 & I2 & I3).
  { destruct (decide (n = 0)) as [Hz|Hz].
    - exists u, (user s). rewrite Hz. rewrite (uiomove_nothing _ _ _ a Hu). split_and!; try done; try lia; [|apply Hq|].
      + unfold uuio_next. split_and!; try done; try lia. rewrite U1. f_equal. lia.
      + rewrite Hz in Hdl. by apply nil_length_inv in Hdl as ->.
    - destruct (user_read_run u a (user s) data n Hu Hrw (proj1 Hq) ltac:(lia) ltac:(lia)) as (r & u' & m' & E & _ & Hr & Hcase).
      assert (r = 0) as ->.
      { apply Hr. split; [lia|]. apply user_bytes_mapped. intros x Hx. apply Hm. cbn. lia. }
      destruct Hcase as [(_ & Hn & ->)|[? _]]; [|done]. exists u'. eexists. split_and!; [exact E|done|done|done|]. cbn. by rewrite take_ge by lia. }
  assert (still_mapped (user s) us) as Hst.
  { split; [|done]. rewrite I3. apply set_eq. intros x. rewrite !elem_of_dom. split; [|apply user_write_dom].
    rewrite user_write_lookup. destruct (decide _) as [Hr|]; [|done]. intros _. apply Hm. cbn. lia. }
  pose proof (law_read v u s c data u' us Hf Hq Hsp Hrw U6 (or_intror (conj Hac Hst))) as Hlaw. cbv zeta in Hlaw. fold n in Hlaw. rewrite En in Hlaw.
  destruct (Hlaw E) as (s' & E' & Fr & Eu & _ & _ & Ha' & _). exists s', u'. split_and!; [exact E'|exact Fr| |by apply Ha'|exact Hn|by rewrite Eu].
  destruct Fr as (_ & F2 & _ & F4), Hq as (Q1 & Q2 & Q3). unfold quiet. rewrite Eu, F2. split_and!; [done|congruence|auto].
Qed.

Lemma load_segment_run v c ph b (s : S) :
  file s v = Some c → quiet s → accessible s → is_Some (t_vmspace s) → seg_ok c ph → mapped (umem (u_mem (user s))) (region_of ph) →
  ∃ s', load_segment v (i32 (p_offset ph)) (p_vaddr ph) (p_memsz ph) (p_filesz ph) b s = Ok (0, s') ∧ frame s s' ∧ quiet s' ∧ accessible s' ∧
    umem (u_mem (user s')) = user_write (umem (u_mem (user s))) (p_vaddr ph) (seg_bytes c ph).
Proof.
  intros Hf Hq Hac Hsp Hs Hm. pose proof (seg_bytes_length c ph Hs) as Hlen. pose proof Hs as [S1 S2 S3 S4 S5 S6 S7]. unfold load_segment.
  rewrite i32_small by lia.
  assert ((if p_filesz ph >? p_memsz ph then p_memsz ph else p_filesz ph) = file_part ph) as ->.
  { unfold file_part. destruct (Z.gtb_spec (p_filesz ph) (p_memsz ph)); lia. }
  assert (0 ≤ file_part ph ≤ p_memsz ph) as Hfp by (unfold file_part; lia). cbv zeta. erewrite bind_ok by reflexivity.
  set (u := mkuio _ _ _ _ _ _ _).
  assert (uuio u (Uio.t_vmspace (user s)) (p_vaddr ph)) as Hu.
  { constructor; cbn; try done; try lia; [by destruct b|by destruct Hq as (_ & -> & _)]. }
  destruct (read_user v u (p_vaddr ph) c s Hf Hq Hac Hsp Hu eq_refl) as (s1 & u1 & E & Fr & Hq1 & Hac1 & (N1 & N2 & N3 & N4 & N5 & N6 & N7) & Em).
  { cbn; lia. } { cbn; lia. } { intros x Hx. apply Hm. cbn in *. lia. }
  cbn [uio_resid uio_offset u iov_len uio_segflg uio_space uio_rw] in *. erewrite bind_ok by exact E. cbn [negb Z.eqb].
  rewrite N4, Z.sub_diag. cbn [negb Z.eqb]. rewrite u32_small by lia. unfold seg_bytes. rewrite user_write_app, <- Em.
  assert (length (take (Z.to_nat (file_part ph)) (drop (Z.to_nat (p_offset ph)) c)) = Z.to_nat (file_part ph)) as El by (rewrite length_take, length_drop; lia).
  rewrite El, Z2Nat.id by lia. destruct (Z.gtb_spec (p_memsz ph - file_part ph) 0) as [Hfill|Hfill].
  - rewrite Z.add_0_l, u32_small by lia. set (u2 := set_resid _ u1). pose proof Fr as (F1 & F2 & F3 & F4). pose proof Hq1 as (Q1 & Q2 & Q3).
    assert (uuio u2 (Uio.t_vmspace (user s1)) (p_vaddr ph + file_part ph)) as Hu2.
    { unfold u2, set_resid. constructor; cbn; rewrite ?N1, ?N2, ?N3, ?N6, ?N7; try done; try (unfold USERTOP in *; lia); [by destruct b|].
      rewrite Q2, F2. done. }
    destruct (uiomovezeros_user (Z.to_nat (p_memsz ph - file_part ph)) (p_memsz ph - file_part ph) u2 (p_vaddr ph + file_part ph) (user s1))
      as (u' & Ez); [done|cbn; congruence|done|cbn; lia|lia|lia| |].
    { intros x Hx. rewrite Em. apply user_write_dom, Hm. cbn. lia. }
    assert (uiomovezeros (p_memsz ph - file_part ph) u2 (user s1) = Ok ((0, u'),
      mkustate (mkcstate (user_write (umem (u_mem (user s1))) (p_vaddr ph + file_part ph) (replicate (Z.to_nat (p_memsz ph - file_part ph)) 0)) false)
        (Uio.t_vmspace (user s1)))) as Ez'.
    { unfold uiomovezeros. erewrite bind_ok; [exact Ez|]. unfold massert. by rewrite bool_decide_true by (cbn; congruence). }
    destruct (law_user _ s1 _ _ Ez') as (s2 & E2 & Fr2 & Eu2 & Hac2); [|by rewrite F2|done|done|].
    { split; [|done]. cbn. apply set_eq. intros x. rewrite !elem_of_dom. split; [|apply user_write_dom]. rewrite user_write_lookup. destruct (decide _) as [Hr|]; [|done].
      intros _. rewrite length_replicate in Hr. rewrite Em. apply user_write_dom, Hm. cbn. lia. }
    erewrite bind_ok by exact E2. exists s2. split_and!; [done|by eapply frame_trans| |done|by rewrite Eu2].
    destruct Fr2 as (_ & G2 & _ & G4). unfold quiet. rewrite Eu2, G2. split_and!; [done|done|auto].
  - exists s1. split_and!; [done..|]. by rewrite Z2Nat.nonpos by lia.
Qed.

(** ** The whole file *)
#[global] Instance seg_kind_eq_dec : EqDecision seg_kind.
Proof. solve_decision. Defined.

Record elf (c : list Z) (eh : Elf_Ehdr) (phs : list Elf_Phdr) : Prop := {
  el_len : 52 ≤ Z.of_nat (length c) < 2 ^ 31;
  el_eh : dec_ehdr (take 52 c) = eh;
  el_ok : bad_ehdr eh = false;
  el_num : Z.to_nat (e_phnum eh) = length phs;
  el_ph i ph : phs !! i = Some ph → let off := e_phoff eh + Z.of_nat i * e_phentsize eh in
    0 ≤ off ∧ off + 32 ≤ Z.of_nat (length c) ∧ ph = dec_phdr (take 32 (drop (Z.to_nat off) c));
  el_kinds : Forall (fun ph => kind ph ≠ Unknown) phs
}.

Definition loads (phs : list Elf_Phdr) : list Elf_Phdr := filter (fun ph => kind ph = Load) phs.

Lemma same_trans (s1 s2 s3 : S) : same s1 s2 → same s2 s3 → same s1 s3.
Proof.
  intros (A1 & A2 & A3 & A4 & A5 & A6) (B1 & B2 & B3 & B4 & B5 & B6). split_and!; [by eapply frame_trans|congruence|congruence| |auto|auto]. intros l. by rewrite B4.
Qed.

(** A loop over the headers that does [f] for each segment to load keeps an invariant of [f]. *)
Section loop.
Context (v : nat) (c : list Z) (eh : Elf_Ehdr) (phs : list Elf_Phdr) (Helf : elf c eh phs).
Context (f : Elf_Phdr → M S Z) (Inv : list Elf_Phdr → S → Prop) (bad : Z → Prop).
Context (Hstable : ∀ l s s', same s s' → Inv l s → Inv l s').
Context (Hstep : ∀ pre ph post s, loads phs = pre ++ ph :: post → file s v = Some c → quiet s → is_Some (t_vmspace s) → Inv pre s →
  ∃ e s', f ph s = Ok (e, s') ∧ frame s s' ∧ quiet s' ∧ (e = 0 ∧ Inv (pre ++ [ph]) s' ∨ e ≠ 0 ∧ bad e)).

Lemma phdr_loop_run n i pre (s : S) :
  (i + n = length phs)%nat → loads phs = pre ++ loads (drop i phs) → file s v = Some c → quiet s → is_Some (t_vmspace s) → Inv pre s →
  ∃ e s', phdr_loop f n (Z.of_nat i) v eh s = Ok (e, s') ∧ frame s s' ∧ quiet s' ∧ (e = 0 ∧ Inv (loads phs) s' ∨ e ≠ 0 ∧ bad e).
Proof.
  revert i pre s. induction n as [|n IH]; intros i pre s Hi Hl Hf Hq Hsp HI.
  { exists 0, s. split_and!; [done|by split_and!|done|]. left. split; [done|]. rewrite Hl, (drop_ge phs) by lia. cbn. by rewrite app_nil_r. }
  destruct (lookup_lt_is_Some_2 phs i ltac:(lia)) as [ph Hph]. destruct (el_ph _ _ _ Helf i ph Hph) as (O1 & O2 & O3).
  pose proof (el_len _ _ _ Helf) as Hlen. cbn [phdr_loop]. rewrite i32_small by lia. unfold PHSIZE.
  destruct (read_struct_run v 32 (e_phoff eh + Z.of_nat i * e_phentsize eh) c s Hf Hq Hsp) as (s1 & Hs & E); [lia..|].
  rewrite decide_True in E by lia. change (Z.to_nat 32) with 32%nat in E. erewrite bind_ok by exact E. cbv iota. rewrite <- O3.
  pose proof Hs as (Fr & Eu & Er & Ef). pose proof Fr as (F1 & F2 & _). assert (file s1 v = Some c) as Hf1 by (by rewrite F1).
  assert (quiet s1) as Hq1 by (by eapply quiet_same). assert (is_Some (t_vmspace s1)) as Hsp1 by (by rewrite F2).
  pose proof (Hstable _ _ _ Hs HI) as HI1. replace (Z.of_nat i + 1) with (Z.of_nat (Datatypes.S i)) by lia.
  rewrite (drop_S_lookup _ _ _ Hph) in Hl. unfold loads in Hl at 2. rewrite filter_cons in Hl. fold (loads (drop (Datatypes.S i) phs)) in Hl.
  pose proof (Forall_lookup_1 _ _ _ _ (el_kinds _ _ _ Helf) Hph) as Hk. cbn beta in Hk. destruct (kind ph) eqn:Ek; [| |done].
  - rewrite decide_False in Hl by done. destruct (IH (Datatypes.S i) pre s1) as (e & s' & E' & Fr' & R); try done; [lia|].
    exists e, s'. split_and!; [done|by eapply frame_trans|apply R|apply R].
  - rewrite decide_True in Hl by done.
    destruct (Hstep pre ph _ s1 Hl Hf1 Hq1 Hsp1 HI1) as (e & s2 & E2 & Fr2 & Hq2 & Hcase). erewrite bind_ok by exact E2.
    pose proof (frame_trans _ _ _ Fr Fr2) as Fr12. destruct Hcase as [[-> HI2]|[He Hb]]; cbn [negb Z.eqb].
    + destruct Fr2 as (G1 & G2 & _). destruct (IH (Datatypes.S i) (pre ++ [ph]) s2) as (e & s' & E' & Fr' & R); try done;
        [lia|by rewrite <- app_assoc|by rewrite G1|by rewrite G2|].
      exists e, s'. split_and!; [done|by eapply frame_trans|apply R|apply R].
    + rewrite (proj2 (Z.eqb_neq e 0) He). exists e, s2. split_and!; [done..|]. by right.
Qed.
End loop.

Definition put_seg (c : list Z) (m : gmap Z Z) (ph : Elf_Phdr) : gmap Z Z := user_write m (p_vaddr ph) (seg_bytes c ph).

Definition clash (a b : Elf_Phdr) : Prop := p_vaddr a < p_vaddr b + p_memsz b ∧ p_vaddr b < p_vaddr a + p_memsz a.

Definition apart (phs : list Elf_Phdr) : Prop := ∀ i j a b, phs !! i = Some a → phs !! j = Some b → i ≠ j → ¬ clash a b.

(** A segment in memory survives the loading of others that do not overlap it. *)
Lemma put_segs_bytes c m phs ph :
  Forall (seg_ok c) phs → apart phs → ph ∈ phs →
  user_bytes (foldl (put_seg c) m phs) (p_vaddr ph) (Z.to_nat (p_memsz ph)) = Some (seg_bytes c ph).
Proof.
  revert m. induction phs as [|q phs IH] using rev_ind; intros m Hok Hap Hin; [by apply elem_of_nil in Hin|].
  rewrite foldl_app. cbn [foldl]. apply list.Forall_app in Hok as [Hok Hq]. apply Forall_cons_1 in Hq as [Hq _].
  pose proof (seg_bytes_length c q Hq) as Lq. apply elem_of_app in Hin as [Hin|Hin].
  - rewrite <- (IH m Hok ltac:(intros i j a b Hi Hj; apply (Hap i j); by apply lookup_app_l_Some) Hin). apply user_bytes_ext. intros x Hx.
    unfold put_seg. rewrite user_write_lookup, decide_False; [done|]. intros Hx'. apply list_elem_of_lookup in Hin as [i Hi].
    pose proof (Forall_lookup_1 _ _ _ _ Hok Hi) as [_ _ _ ? _ _ _].
    apply (Hap i (length phs) ph q); [by apply lookup_app_l_Some|by rewrite lookup_app_r, Nat.sub_diag by lia|apply lookup_lt_Some in Hi; lia|].
    unfold clash. lia.
  - apply list_elem_of_singleton in Hin as ->. unfold put_seg. replace (Z.to_nat (p_memsz q)) with (length (seg_bytes c q)) by lia. apply user_write_bytes.
Qed.

Lemma read_ehdr v c (s : S) :
  file s v = Some c → quiet s → is_Some (t_vmspace s) →
  ∃ s', same s s' ∧ read_struct v EHSIZE 0 s = Ok (if decide (52 ≤ Z.of_nat (length c)) then inr (take 52 c) else inl ENOEXEC, s').
Proof.
  intros Hf Hq Hsp. destruct (read_struct_run v 52 0 c s Hf Hq Hsp) as (s' & Hs & E); [lia..|]. exists s'. split; [done|].
  unfold EHSIZE. rewrite E. change (Z.to_nat 52) with 52%nat. change (Z.to_nat 0) with 0%nat. rewrite drop_0, Z.add_0_l. done.
Qed.

(** The two passes over the program headers: the first defines the regions, ... *)
Lemma define_phase v c eh phs (s0 s : S) :
  let L := region_of <$> loads phs in
  elf c eh phs → file s v = Some c → quiet s → is_Some (t_vmspace s) → unprepared s → regions s = [] → (∀ l, fits s0 l → fits s l) → usable L →
  ∃ s', phdr_loop define_segment (length phs) 0 v eh s = Ok (0, s') ∧ frame s s' ∧ quiet s' ∧ unprepared s' ∧ regions s' = L ∧ (fits s0 L → fits s' L).
Proof.
  intros L Helf Hf Hq Hsp Hun Hreg Hfit Hus.
  pose (Inv := fun (pre : list Elf_Phdr) (x : S) => regions x = region_of <$> pre ∧ (fits s0 L → fits x L) ∧ unprepared x).
  destruct (phdr_loop_run v c eh phs Helf define_segment Inv (fun _ => False)) with (n := length phs) (i := 0%nat) (pre := @nil Elf_Phdr) (s := s)
    as (e & s' & E & Fr & Hq' & Hc); try done.
  - intros l x x' (_ & _ & B3 & B4 & _ & B6) (I2 & I3 & I4). unfold Inv. rewrite B3, B4. auto.
  - intros pre ph post x Hl Hfx Hqx [q Hx] (I2 & I3 & I4). unfold define_segment. erewrite bind_ok by (by apply vmspace_run).
    destruct (law_define q (p_vaddr ph) (p_memsz ph) (Z.land (p_flags ph) PF_R) (Z.land (p_flags ph) PF_W) (Z.land (p_flags ph) PF_X) x (region_of <$> post) Hx Hqx I4)
      as (x' & E & Fr & Hqx' & Hun' & R1 & R2).
    { rewrite I2. unfold L in Hus. rewrite Hl, fmap_app in Hus. exact Hus. }
    exists 0, x'. split_and!; [done..|]. left. split; [done|]. unfold Inv. rewrite R1, I2, fmap_app. split_and!; [done|auto|done].
  - split_and!; [by rewrite Hreg|auto|done].
  - destruct Hc as [[-> (I1 & I2 & I3)]|[_ []]]. exists s'. by split_and!.
Qed.

(** ... the second copies the segments. *)
Lemma copy_phase v c eh phs (s : S) :
  elf c eh phs → file s v = Some c → quiet s → accessible s → is_Some (t_vmspace s) → Forall (seg_ok c) (loads phs) →
  Forall (mapped (umem (u_mem (user s)))) (region_of <$> loads phs) →
  ∃ s', phdr_loop (copy_segment v) (length phs) 0 v eh s = Ok (0, s') ∧ frame s s' ∧ quiet s' ∧
    umem (u_mem (user s')) = foldl (put_seg c) (umem (u_mem (user s))) (loads phs).
Proof.
  intros Helf Hf Hq Hac Hsp Hok Hm. set (m0 := umem (u_mem (user s))) in *. rewrite list.Forall_fmap, !list.Forall_forall in *.
  pose (Inv := fun (pre : list Elf_Phdr) (x : S) => umem (u_mem (user x)) = foldl (put_seg c) m0 pre ∧ accessible x).
  destruct (phdr_loop_run v c eh phs Helf (copy_segment v) Inv (fun _ => False)) with (n := length phs) (i := 0%nat) (pre := @nil Elf_Phdr) (s := s)
    as (e & s' & E & Fr & Hq' & Hc); try done.
  - intros l x x' (_ & D2 & _ & _ & D5 & _) [I Ia]. unfold Inv. rewrite D2. auto.
  - intros pre ph post x Hl Hfx Hqx Hx [I Ia]. assert (ph ∈ loads phs) as Hin by (rewrite Hl; set_solver).
    destruct (load_segment_run v c ph (negb (Z.land (p_flags ph) PF_X =? 0)) x Hfx Hqx Ia Hx (Hok ph Hin)) as (x' & E & Fr & Hqx' & Hax' & Em).
    { intros y Hy. rewrite I. assert (∀ l m, is_Some (m !! y) → is_Some (foldl (put_seg c) m l !! y)) as Hd.
      { induction l as [|a l IHl]; intros m Hmy; [done|]. cbn. apply IHl. by apply user_write_dom. }
      apply Hd. by apply (Hm ph Hin). }
    exists 0, x'. split_and!; [done..|]. left. split; [done|]. unfold Inv. by rewrite Em, I, foldl_app.
  - destruct Hc as [[-> [I _]]|[_ []]]. by exists s'.
Qed.

(** The loading of a well-formed executable, whether there is memory for it or not. *)
Lemma load_elf_run v c eh phs p (s : S) :
  file s v = Some c → quiet s → t_vmspace s = Some p → elf c eh phs → Forall (seg_ok c) (loads phs) → unprepared s → regions s = [] →
  usable (region_of <$> loads phs) →
  ∃ r s', load_elf v s = Ok (r, s') ∧
    (fits s (region_of <$> loads phs) → r = inr (e_entry eh)) ∧
    ∀ entry, r = inr entry → entry = e_entry eh ∧ ∃ m, umem (u_mem (user s')) = foldl (put_seg c) m (loads phs).
Proof.
  intros Hf Hq Hsp Helf Hok Hun Hreg Hus. pose proof (el_len _ _ _ Helf) as Hlen.
  destruct (read_ehdr v c s Hf Hq ltac:(by rewrite Hsp)) as (s1 & (Fr1 & Eu1 & Er1 & Ef1 & _ & Hun1) & E1). rewrite decide_True in E1 by lia.
  unfold load_elf. erewrite bind_ok by exact E1. cbv iota zeta. rewrite (el_eh _ _ _ Helf), (el_ok _ _ _ Helf). unfold load_image. rewrite (el_num _ _ _ Helf).
  pose proof Fr1 as (A1 & A2 & _).
  destruct (define_phase v c eh phs s s1) as (s2 & E2 & Fr2 & Hq2 & Hun2 & I2 & I3); try done;
    [by rewrite A1|by eapply quiet_same|by rewrite A2, Hsp|auto|congruence|by intros l ?%Ef1|].
  erewrite bind_ok by exact E2. pose proof (frame_trans _ _ _ Fr1 Fr2) as Fr12. cbn [negb Z.eqb].
  pose proof Fr12 as (B1 & B2 & _). erewrite bind_ok by (apply vmspace_run; by rewrite B2).
  destruct (law_prepare p s2 ltac:(by rewrite B2) Hq2 Hun2 ltac:(by rewrite I2)) as (e3 & s3 & E3 & Fr3 & Hq3 & Hfit3 & Hm3). erewrite bind_ok by exact E3.
  pose proof (frame_trans _ _ _ Fr12 Fr3) as Fr13. pose proof Fr13 as (C1 & C2 & _).
  destruct (decide (e3 = 0)) as [->|He3]; cbn [negb Z.eqb].
  2: { rewrite (proj2 (Z.eqb_neq e3 0) He3). exists (inl e3), s3. split_and!; try done. intros Hfs. destruct He3. apply Hfit3. rewrite I2. auto. }
  destruct (Hm3 eq_refl) as [Hac Hmap]. rewrite I2 in Hmap.
  destruct (copy_phase v c eh phs s3 Helf) as (s4 & E4 & Fr4 & Hq4 & I4); try done; [by rewrite C1|by rewrite C2, Hsp|].
  erewrite bind_ok by exact E4. cbn [negb Z.eqb]. pose proof (frame_trans _ _ _ Fr13 Fr4) as (D1 & D2 & _).
  erewrite bind_ok by (apply vmspace_run; by rewrite D2).
  destruct (law_complete p s4 ltac:(by rewrite D2)) as (s5 & E5 & Fr5 & Eu5). erewrite bind_ok by exact E5. cbn [negb Z.eqb].
  exists (inr (e_entry eh)), s5. split_and!; [done..|]. intros entry [= <-]. split; [done|]. eexists. by rewrite Eu5.
Qed.

(** ** Theorems *)

(** C39: An executable whose segments lie in user space, inside the file and apart from each other, and make up the regions of a usable address space: if there is
    memory for them, [load_elf] succeeds; and whenever it succeeds, it returns the
    entry point of the header, and every segment is in user memory, the part beyond the file zero. *)
Theorem load_elf_loads v c eh phs p (s : S) :
  file s v = Some c → quiet s → t_vmspace s = Some p → unprepared s → regions s = [] →
  elf c eh phs → Forall (seg_ok c) (loads phs) → apart (loads phs) → usable (region_of <$> loads phs) →
  ∃ r s', load_elf v s = Ok (r, s') ∧ (fits s (region_of <$> loads phs) → r = inr (e_entry eh)) ∧
    ∀ entry, r = inr entry → entry = e_entry eh ∧
      ∀ ph, ph ∈ loads phs → user_bytes (umem (u_mem (user s'))) (p_vaddr ph) (Z.to_nat (p_memsz ph)) = Some (seg_bytes c ph).
Proof.
  intros Hf Hq Hsp Hun Hreg Helf Hok Hap Hus. destruct (load_elf_run v c eh phs p s) as (r & s' & E & Hfit & Hin); try done.
  exists r, s'. split_and!; [done..|]. intros entry Hr. destruct (Hin entry Hr) as (He & m & Em). split; [done|].
  intros ph Hph. rewrite Em. by apply put_segs_bytes.
Qed.

End proofs.

(** ** Headers

    The bytes a header must have: the magic number, 32 bits, most significant byte first, version 1; an executable, for MIPS, version 1. *)
Definition header_ok (bs : list Z) : Prop :=
  take 4 bs = [127; 69; 76; 70] ∧ take 3 (drop 4 bs) = [1; 2; 1] ∧ take 8 (drop 16 bs) = [0; 2; 0; 8; 0; 0; 0; 1].

#[global] Instance header_ok_dec bs : Decision (header_ok bs).
Proof. unfold header_ok. apply _. Defined.

Lemma half_is a b y : 0 ≤ a < 256 → 0 ≤ b < 256 → 0 ≤ y < 256 → un_be [a; b] = y ↔ [a; b] = [0; y].
Proof. intros. cbn. split; [intros E|intros [= -> ->]; lia]. assert (a = 0) as -> by lia. by assert (b = y) as -> by lia. Qed.

Lemma word_one a b c d :
  0 ≤ a < 256 → 0 ≤ b < 256 → 0 ≤ c < 256 → 0 ≤ d < 256 → un_be [a; b; c; d] = 1 ↔ [a; b; c; d] = [0; 0; 0; 1].
Proof.
  intros. cbn. split; [intros E|intros [= -> -> -> ->]; lia].
  assert (a = 0) as -> by lia. assert (b = 0) as -> by lia. assert (c = 0) as -> by lia. assert (d = 1) as -> by lia. done.
Qed.

Lemma bad_ehdr_spec bs : length bs = 52%nat → Forall (fun b => 0 ≤ b < 256) bs → bad_ehdr (dec_ehdr bs) = false ↔ header_ok bs.
Proof.
  intros Hl Hb. do 24 (destruct bs as [|? bs]; [done|]). clear Hl. repeat (apply Forall_cons_1 in Hb as [? Hb]).
  unfold bad_ehdr, header_ok, dec_ehdr, half, word, ELFCLASS32, ELFDATA2MSB, EV_CURRENT, ET_EXEC, EM_MIPS. cbn [e_ident e_version e_type e_machine].
  cbn [take drop lookup list_lookup]. rewrite !orb_false_iff, !negb_false_iff, !bool_decide_eq_true, !Z.eqb_eq.
  rewrite !half_is, word_one by lia. split.
  - intros ((((((A & B) & C) & D) & E) & F) & G). simplify_eq. by rewrite take_0.
  - intros (A & B & C). simplify_eq. by split_and!.
Qed.

(** C40: What [load_elf] does about the header, for any file and address space: an error in reading it is passed on, a short read is ENOEXEC; of the headers read in full
    exactly those of 32-bit big-endian MIPS executables are gone on with, every other one is refused with ENOEXEC, and then nothing has been done but to read the header. *)
Theorem load_elf_rejects {S : Type} `{Exec S} v (s : S) r ku s1 :
  VOP_READ v (mk_kuio (replicate 52 0) 52 0 UIO_READ) s = Ok ((r, ku), s1) →
  length (kuio_data ku) = 52%nat → Forall (fun b => 0 ≤ b < 256) (kuio_data ku) →
  load_elf v s =
    if decide (r ≠ 0) then Ok (inl r, s1)
    else if decide (uio_resid ku ≠ 0) then Ok (inl ENOEXEC, s1)
    else if decide (header_ok (kuio_data ku)) then load_image v (dec_ehdr (kuio_data ku)) s1
    else Ok (inl ENOEXEC, s1).
Proof.
  intros E Hl Hb. unfold load_elf.
  assert (read_struct v EHSIZE 0 s =
    Ok (if decide (r ≠ 0) then inl r else if decide (uio_resid ku ≠ 0) then inl ENOEXEC else inr (kuio_data ku), s1)) as Er.
  { unfold read_struct, EHSIZE. change (Z.to_nat 52) with 52%nat. erewrite bind_ok by exact E. cbv iota.
    destruct (Z.eqb_spec r 0) as [->|Hr]; cbn [negb]; [rewrite decide_False by tauto|by rewrite decide_True].
    destruct (Z.eqb_spec (uio_resid ku) 0) as [->|Hr]; cbn [negb]; [by rewrite decide_False by tauto|by rewrite decide_True]. }
  erewrite bind_ok by exact Er. destruct (decide (r ≠ 0)); [done|]. destruct (decide (uio_resid ku ≠ 0)); [done|]. cbv iota zeta.
  pose proof (bad_ehdr_spec _ Hl Hb) as Hbad. destruct (decide (header_ok _)) as [Ho|Ho].
  - by rewrite (proj2 Hbad Ho).
  - destruct (bad_ehdr _); [done|]. by destruct Ho; apply Hbad.
Qed.

End Loadelfspec.
