(* ===== verification/Loadelfvm.v ===== *)
(** * Loading programs into the address spaces of dumbvm.c

    The loader of Loadelf.v on the operations of Dumbvm.v: [machine] is the state of the virtual memory system with the files, and a transfer to user memory goes to
    the bytes of physical memory that the current address space's pages are in.  [dumbvm_laws] shows the promises [ExecLaws] for
    it.  The regions of an address space are usable when there are exactly two, in user space below the stack, on no more pages together with the
    stack than the TLB has entries: with one region the first access stops the kernel, and with more pages [vm_fault] finds no entry to
    put them in. *)
From stdpp Require Import base list gmap fin_maps numbers.
From S2P Require Import Prelude Copyinout Uio Ram Dumbvm Dumbvmspec Loadelf Loadelfspec.
Local Open Scope Z_scope.

Module Loadelfvm.
Import Copyinout Uio Ram Dumbvmspec Loadelf Loadelfspec.
Abbreviation addrspace := Dumbvm.addrspace.

(** ** The machine

    [defined] records the regions asked for, of which an address space only keeps the pages. *)
Record machine := mkmachine {
  vm : Dumbvm.vmstate;
  badfault : bool;
  files : gmap nat (list Z);
  defined : list (Z * Z)
}.

Definition space (m : machine) : option addrspace := Dumbvm.t_vmspace (vm m) ≫= fun p => Dumbvm.spaces (vm m) !! p.

(** User memory as the page table maps it: two gigabytes of addresses, so the map is given by what it maps and never computed. *)
Lemma memory_sig (a : addrspace) (pm : Z → Z) :
  { m : gmap Z Z | ∀ va, m !! va = if decide (0 ≤ va < 2 ^ 31) then pm <$> translate a va else None }.
Proof.
  exists (map_imap (fun va (_ : unit) => pm <$> translate a va) (gset_to_gmap tt (list_to_set (seqZ 0 (2 ^ 31))))). intros va.
  rewrite map_lookup_imap, lookup_gset_to_gmap. case_decide as Hv.
  - rewrite option_guard_True by (apply elem_of_list_to_set, elem_of_seqZ; lia). done.
  - rewrite option_guard_False; [done|]. rewrite elem_of_list_to_set, elem_of_seqZ. lia.
Qed.

Definition memory (a : addrspace) (pm : Z → Z) : gmap Z Z := proj1_sig (memory_sig a pm).

Definition usr (m : machine) : ustate :=
  mkustate (mkcstate (match space m with
                      | Some a => if Dumbvm.check_as a then memory a (Dumbvm.pmem (vm m)) else ∅
                      | None => ∅
                      end) (badfault m)) (Dumbvm.t_vmspace (vm m)).

(** The virtual address of a byte of an address space's memory. *)
Definition back (a : addrspace) (pa : Z) : option Z :=
  if decide (within pa (Dumbvm.as_pbase1 a) (Dumbvm.as_npages1 a)) then Some (pa - Dumbvm.as_pbase1 a + Dumbvm.as_vbase1 a)
  else if decide (within pa (Dumbvm.as_pbase2 a) (Dumbvm.as_npages2 a)) then Some (pa - Dumbvm.as_pbase2 a + Dumbvm.as_vbase2 a)
  else if decide (within pa (Dumbvm.as_stackpbase a) Dumbvm.DUMBVM_STACKPAGES) then Some (pa - Dumbvm.as_stackpbase a + STACKBASE)
  else None.

Definition store (a : addrspace) (u : gmap Z Z) (pm : Z → Z) : Z → Z := fun pa =>
  match back a pa with
  | Some va => if decide (translate a va = Some pa) then default (pm pa) (u !! va) else pm pa
  | None => pm pa
  end.

Definition put_user (us : ustate) (m : machine) : machine :=
  mkmachine (match space m with
             | Some a => Dumbvm.set_pmem (store a (umem (u_mem us)) (Dumbvm.pmem (vm m))) (vm m)
             | None => vm m
             end) (pcb_badfaultfunc (u_mem us)) (files m) (defined m).

(** An access to user memory: the asserts of [vm_fault] come first.  The TLB itself is left out: the translations an access loads into it are those of [translate]
    (Dumbvmspec.v), and it does not fill up when the pages of the address space are at most as many as its entries. *)
Definition access {A} (f : M ustate A) : M machine A := fun m =>
  match space m with
  | Some a => if Dumbvm.check_as a then zoom usr put_user f m else Panic
  | None => zoom usr put_user f m
  end.

Definition on_vm {A} (f : M Dumbvm.vmstate A) : M machine A := zoom vm (fun x m => mkmachine x (badfault m) (files m) (defined m)) f.

Definition read_file (c : list Z) (u : uio) : M ustate (Z * uio) :=
  let n := Z.max 0 (Z.min (uio_resid u) (Z.of_nat (length c) - uio_offset u)) in
  let* '(r, _, u') := uiomove (take (Z.to_nat n) (drop (Z.to_nat (uio_offset u)) c)) n u in
  mret (r, u').

#[global] Instance dumbvm_exec : Exec machine := {
  VOP_READ v u := fun m =>
    match files m !! v with
    | None => Ok ((EINVAL, u), m)
    | Some c =>
        match uio_segflg u with
        | UIO_SYSSPACE => zoom usr put_user (read_file c u) m
        | _ => access (read_file c u) m
        end
    end;
  t_vmspace m := Dumbvm.t_vmspace (vm m);
  as_define_region p v sz _ _ _ :=
    let* e := on_vm (Dumbvm.as_define_region p v sz) in
    let* _ := (if e =? 0 then modify (fun m => mkmachine (vm m) (badfault m) (files m) (defined m ++ [(v, sz)])) else mret tt) in
    mret e;
  as_prepare_load p := on_vm (Dumbvm.as_prepare_load p);
  as_complete_load p := on_vm (Dumbvm.as_complete_load p);
  user_io A f := access f
}.

(** ** What is kept true *)
Definition in_user (r : Z * Z) : Prop := PAGE_SIZE ≤ r.1 ∧ 0 < r.2 ∧ r.1 + r.2 ≤ STACKBASE.

Definition pages (r : Z * Z) : Z := npages_for r.1 r.2.

(** The regions of the address space are those that were asked for. *)
Definition shape (l : list (Z * Z)) (a : addrspace) : Prop :=
  match l with
  | [] => Dumbvm.as_vbase1 a = 0 ∧ Dumbvm.as_npages1 a = 0 ∧ Dumbvm.as_vbase2 a = 0 ∧ Dumbvm.as_npages2 a = 0
  | [r] => Dumbvm.as_vbase1 a = page r.1 ∧ Dumbvm.as_npages1 a = pages r ∧ Dumbvm.as_vbase2 a = 0 ∧ Dumbvm.as_npages2 a = 0
  | [r; q] => Dumbvm.as_vbase1 a = page r.1 ∧ Dumbvm.as_npages1 a = pages r ∧ Dumbvm.as_vbase2 a = page q.1 ∧ Dumbvm.as_npages2 a = pages q
  | _ => False
  end.

(** The three blocks of memory do not overlap. *)
Definition laid (a : addrspace) : Prop :=
  0 ≤ Dumbvm.as_npages1 a ∧ 0 ≤ Dumbvm.as_npages2 a ∧
  Dumbvm.as_pbase2 a = Dumbvm.as_pbase1 a + Dumbvm.as_npages1 a * PAGE_SIZE ∧
  Dumbvm.as_stackpbase a = Dumbvm.as_pbase2 a + Dumbvm.as_npages2 a * PAGE_SIZE.

Record good (m : machine) : Prop := {
  gd_ram : ram_wf (Dumbvm.phys (vm m));
  gd_in : Forall in_user (defined m);
  gd_as : ∃ a, space m = Some a ∧ shape (defined m) a ∧ (Dumbvm.check_as a = true → laid a)
}.

#[global] Instance dumbvm_view : ExecView machine := {
  user := usr;
  file m v := files m !! v;
  regions := defined;
  okay := good;
  unprepared m := ∃ a, space m = Some a ∧ unloaded a;
  accessible m := ∃ a, space m = Some a ∧ Dumbvm.check_as a = true;
  usable l := ∃ r q, l = [r; q] ∧ in_user r ∧ in_user q ∧ pages r + pages q + Dumbvm.DUMBVM_STACKPAGES ≤ Z.of_nat Dumbvm.NUM_TLB;
  fits m l :=
    firstpaddr (Dumbvm.phys (vm m)) + (foldr (fun r n => pages r + n) Dumbvm.DUMBVM_STACKPAGES l) * PAGE_SIZE ≤ lastpaddr (Dumbvm.phys (vm m))
}.

(** ** User memory *)
Lemma memory_lookup a pm va : memory a pm !! va = if decide (0 ≤ va < 2 ^ 31) then pm <$> translate a va else None.
Proof. exact (proj2_sig (memory_sig a pm) va). Qed.

Lemma back_translate a va pa : laid a → translate a va = Some pa → back a pa = Some va.
Proof.
  intros (N1 & N2 & P2 & P3). unfold translate, back, within, PAGE_SIZE, Dumbvm.DUMBVM_STACKPAGES in *.
  destruct (decide (_ ∧ _)); [intros [= <-]; rewrite decide_True by lia; f_equal; lia|].
  destruct (decide (_ ∧ _)); [intros [= <-]; rewrite decide_False, decide_True by lia; f_equal; lia|].
  destruct (decide (_ ∧ _)) as [Hs|]; [|done]. intros [= <-]. generalize dependent STACKBASE. intros sb ?.
  destruct (decide (_ ∧ _)); [lia|]. destruct (decide (_ ∧ _)); [lia|]. rewrite decide_True by lia. f_equal. lia.
Qed.

(** What is stored is read back. *)
Lemma store_memory a u pm : laid a → dom u = dom (memory a pm) → memory a (store a u pm) = u.
Proof.
  intros L Hd. apply map_eq. intros va. rewrite memory_lookup.
  assert (is_Some (u !! va) ↔ is_Some (memory a pm !! va)) as Hi by (by rewrite <- !elem_of_dom, Hd).
  rewrite memory_lookup in Hi. case_decide as Hv.
  - destruct (translate a va) as [pa|] eqn:E; cbn [fmap option_fmap option_map] in *.
    + destruct (proj2 Hi) as [b Hb]; [by eexists|]. unfold store. rewrite (back_translate _ _ _ L E), decide_True, Hb by done. done.
    + symmetry. apply eq_None_not_Some. rewrite Hi. by intros [].
  - symmetry. apply eq_None_not_Some. rewrite Hi. by intros [].
Qed.

Lemma put_space us m : space (put_user us m) = space m.
Proof. unfold space at 1, put_user. by destruct (space m) eqn:E; exact E. Qed.

Lemma put_usr us m : good m → still_mapped (usr m) us → usr (put_user us m) = us.
Proof.
  intros [_ _ (a & Ha & _ & Hl)] [Hd Hv]. destruct us as [[um bf] sp]. cbn in Hd, Hv. subst sp. unfold usr at 1. rewrite put_space, Ha.
  unfold put_user. rewrite Ha in *. cbn. f_equal. f_equal. destruct (Dumbvm.check_as a) eqn:E.
  - by apply store_memory; [apply Hl|].
  - symmetry. apply dom_empty_inv_L. by rewrite Hd, dom_empty_L.
Qed.

Lemma put_good us m : good m → good (put_user us m).
Proof.
  intros G. pose proof G as [G1 G2 (a & Ha & G3)]. constructor; [|done|exists a; by rewrite put_space].
  unfold put_user. by rewrite Ha.
Qed.

Lemma put_vmspace us m : Dumbvm.t_vmspace (vm (put_user us m)) = Dumbvm.t_vmspace (vm m).
Proof. unfold put_user. by destruct (space m). Qed.

Lemma put_phys us m : Dumbvm.phys (vm (put_user us m)) = Dumbvm.phys (vm m).
Proof. unfold put_user. by destruct (space m). Qed.

(** A transfer, whichever way it was made. *)
Lemma put_frame us (m : machine) :
  good m → is_Some (Dumbvm.t_vmspace (vm m)) → frame m (put_user us m) ∧ regions (put_user us m) = regions m ∧
    (∀ l, fits (put_user us m) l ↔ fits m l) ∧ (accessible m → accessible (put_user us m)) ∧ (unprepared m → unprepared (put_user us m)).
Proof.
  intros G Hs. split; [split_and!; [done|apply put_vmspace|done|intros _; by apply put_good]|]. split_and!; [done|..].
  - intros l. unfold fits, dumbvm_view. by rewrite put_phys.
  - unfold accessible, dumbvm_view. by rewrite put_space.
  - unfold unprepared, dumbvm_view. by rewrite put_space.
Qed.

(** ** The laws *)
Lemma read_file_run c u us p u' us' :
  let n := Z.max 0 (Z.min (uio_resid u) (Z.of_nat (length c) - uio_offset u)) in
  uiomove (take (Z.to_nat n) (drop (Z.to_nat (uio_offset u)) c)) n u us = Ok ((0, p, u'), us') → read_file c u us = Ok ((0, u'), us').
Proof. intros n E. unfold read_file. fold n. erewrite bind_ok by exact E. done. Qed.

Lemma access_run {A} (f : M ustate A) m x us :
  accessible m → f (usr m) = Ok (x, us) → access f m = Ok (x, put_user us m).
Proof. intros (a & Ha & Hc) E. unfold access, zoom. by rewrite Ha, Hc, E. Qed.

Lemma machine_read v u (m : machine) c p u' us :
  file m v = Some c → quiet m → is_Some (t_vmspace m) → uio_rw u = UIO_READ → 0 ≤ uio_offset u →
  (uio_segflg u = UIO_SYSSPACE ∧ us = user m ∨ accessible m ∧ still_mapped (user m) us) →
  let n := Z.max 0 (Z.min (uio_resid u) (Z.of_nat (length c) - uio_offset u)) in
  uiomove (take (Z.to_nat n) (drop (Z.to_nat (uio_offset u)) c)) n u (user m) = Ok ((0, p, u'), us) →
  ∃ m', VOP_READ v u m = Ok ((0, u'), m') ∧ frame m m' ∧ user m' = us ∧ regions m' = regions m ∧ (∀ l, fits m' l ↔ fits m l) ∧
    (accessible m → accessible m') ∧ (unprepared m → unprepared m').
Proof.
  intros Hf (_ & _ & G) Hsp Hrw Ho Hus n E. apply read_file_run in E. destruct (put_frame us m G Hsp) as (F1 & F2 & F3 & F4 & F5).
  assert (still_mapped (usr m) us) as Hst by (destruct Hus as [[_ ->]|[_ ?]]; done). exists (put_user us m).
  split_and!; try done; [|by apply put_usr]. cbn in Hf |- *. rewrite Hf. destruct Hus as [[-> _]|[Hac _]].
  - unfold zoom. cbn in E. by rewrite E.
  - pose proof (access_run _ _ _ _ Hac E) as Ea. destruct (uio_segflg u); try done. unfold zoom. cbn in E. by rewrite E.
Qed.

Lemma machine_user {A} (f : M ustate A) (m : machine) x us :
  f (user m) = Ok (x, us) → still_mapped (user m) us → is_Some (t_vmspace m) → quiet m → accessible m →
  ∃ m', user_io f m = Ok (x, m') ∧ frame m m' ∧ user m' = us ∧ accessible m'.
Proof.
  intros E Hst Hsp (_ & _ & G) Hac. destruct (put_frame us m G Hsp) as (F1 & _ & _ & F4 & _). exists (put_user us m).
  split_and!; [by apply access_run|done|by apply put_usr|by apply F4].
Qed.

(** One more region. *)
Lemma shape_snoc l r a :
  shape l a → Forall in_user l → in_user r → (length l ≤ 1)%nat → unloaded a →
  ∃ a', add_region (page r.1) (pages r) a = Some a' ∧ shape (l ++ [r]) a' ∧ unloaded a'.
Proof.
  intros Hs Hl Hr Hn Hu. assert (∀ q, in_user q → page q.1 ≠ 0) as Hp.
  { intros q (Hq & _). unfold PAGE_SIZE in Hq. unfold page. pose proof (Z.mod_pos_bound q.1 4096 ltac:(lia)). lia. }
  unfold add_region. destruct l as [|q [|]]; cbn in Hs, Hn; [| |lia].
  - destruct Hs as (-> & H2 & H3 & H4). cbn. eexists. split; [done|]. by split_and!.
  - destruct Hs as (-> & H2 & H3 & H4). apply Forall_cons_1 in Hl as [Hq _]. rewrite (proj2 (Z.eqb_neq _ 0) (Hp q Hq)), H3. cbn.
    eexists. split; [done|]. by split_and!.
Qed.

Lemma unloaded_check a : unloaded a → Dumbvm.check_as a = true → False.
Proof. intros (U1 & _) (L1 & _)%check_as_loaded. done. Qed.

Lemma machine_define p v sz (m : machine) l :
  t_vmspace m = Some p → quiet m → unprepared m → usable (regions m ++ (v, sz) :: l) →
  ∃ m', as_define_region p v sz 0 0 0 m = Ok (0, m') ∧ frame m m' ∧ quiet m' ∧ unprepared m' ∧ regions m' = regions m ++ [(v, sz)] ∧
    ∀ l, fits m l → fits m' l.
Proof.
  intros Hp (Q1 & Q2 & G) (a & Ha & Hu) (r & q & El & Hr & Hq & _). pose proof G as [G1 G2 (a' & Ha' & Hs & _)].
  assert (a' = a) as -> by congruence. cbn in Hp, El. assert (Dumbvm.spaces (vm m) !! p = Some a) as Hsp by (unfold space in Ha; by rewrite Hp in Ha).
  assert (in_user (v, sz) ∧ (length (defined m) ≤ 1)%nat) as [Hin Hlen].
  { destruct (defined m) as [|x [|y d]]; cbn in El; [injection El as -> _|injection El as _ -> _|]; cbn; [split; [done|lia]..|].
    exfalso. apply (f_equal length) in El. cbn in El. rewrite length_app in El. cbn in El. lia. }
  destruct (shape_snoc _ (v, sz) a Hs G2 Hin Hlen Hu) as (b & Eb & Hsb & Hub). pose proof Hin as (I1 & I2 & I3). cbn [fst snd] in I1, I2, I3. unfold PAGE_SIZE in I1.
  pose proof (define_run p a v sz (vm m) Hsp ltac:(lia) ltac:(lia) I3) as E. cbn [fst snd] in Eb. change (pages (v, sz)) with (npages_for v sz) in Eb. rewrite Eb in E.
  set (vm' := Dumbvm.set_spaces _ _ _) in E. set (m' := mkmachine vm' (badfault m) (files m) (defined m ++ [(v, sz)])).
  assert (space m' = Some b) as Hb by (unfold space; cbn; rewrite Hp; cbn; apply lookup_insert_eq). exists m'.
  assert (good m') as G'.
  { constructor; [done|cbn; apply list.Forall_app; by auto|]. exists b. split_and!; [done|done|]. intros Hc. by destruct (unloaded_check b). }
  assert (usr m' = usr m) as Eu.
  { unfold usr. rewrite Hb, Ha. destruct (Dumbvm.check_as b) eqn:E1; [by destruct (unloaded_check b)|].
    destruct (Dumbvm.check_as a) eqn:E2; [by destruct (unloaded_check a)|]. done. }
  split; [cbn; unfold on_vm, zoom, mbind, M_bind; by rewrite E|].
  split; [split; [done|]; split; [done|]; split; [cbn; by rewrite Hp|by intros _]|].
  split; [split_and!; [cbn [user dumbvm_view]; rewrite Eu; exact Q1|done|exact G']|].
  split; [by exists b|]. by split.
Qed.

(** The regions of a usable address space, once it has its memory. *)
Lemma shape_regions r q a :
  shape [r; q] a → in_user r → in_user q →
  region_ok (Dumbvm.as_vbase1 a) (Dumbvm.as_npages1 a) ∧ region_ok (Dumbvm.as_vbase2 a) (Dumbvm.as_npages2 a).
Proof. intros (-> & -> & -> & ->) (? & ? & ?) (? & ? & ?). split; by apply region_ok_for. Qed.

Lemma translated a pm x : 0 ≤ x < 2 ^ 31 → is_Some (translate a x) → is_Some (memory a pm !! x).
Proof. intros Hx [pa E]. rewrite memory_lookup, decide_True by done. rewrite E. by eexists. Qed.

Lemma in_user_range r x : in_user r → r.1 ≤ x < r.1 + r.2 → 0 ≤ x < 2 ^ 31 ∧ within x (page r.1) (pages r).
Proof.
  intros (I1 & I2 & I3) Hx. assert (STACKBASE < 2 ^ 31) by done. unfold PAGE_SIZE in I1. split; [lia|]. apply region_pages; [lia..|]. by exists x.
Qed.

Lemma shape_mapped r q a pm : shape [r; q] a → in_user r → in_user q → Forall (mapped (memory a pm)) [r; q].
Proof.
  intros (E1 & E2 & E3 & E4) Hr Hq. repeat constructor; intros x Hx;
    [destruct (in_user_range r x Hr Hx) as [Hb Hw]|destruct (in_user_range q x Hq Hx) as [Hb Hw]]; (apply translated; [exact Hb|]);
    unfold translate; rewrite E1, E2, E3, E4; [by rewrite decide_True|]. destruct (decide _); [by eexists|]. by rewrite decide_True.
Qed.

Lemma machine_prepare p (m : machine) :
  t_vmspace m = Some p → quiet m → unprepared m → usable (regions m) →
  ∃ e m', as_prepare_load p m = Ok (e, m') ∧ frame m m' ∧ quiet m' ∧ (fits m (regions m) → e = 0) ∧
    (e = 0 → accessible m' ∧ Forall (mapped (umem (u_mem (user m')))) (regions m)).
Proof.
  intros Hp (Q1 & Q2 & G) (a & Ha & Hu) (r & q & El & Hr & Hq & _). pose proof G as [G1 G2 (a' & Ha' & Hs & _)].
  assert (a' = a) as -> by congruence. cbn in Hp, El. assert (Dumbvm.spaces (vm m) !! p = Some a) as Hsp by (unfold space in Ha; by rewrite Hp in Ha).
  rewrite El in Hs. destruct (shape_regions r q a Hs Hr Hq) as [R1 R2]. pose proof (region_len _ _ R1) as L1. pose proof (region_len _ _ R2) as L2.
  destruct (prepare_run p a (vm m) G1 Hsp Hu ltac:(lia) ltac:(lia)) as (e & p1 & p2 & p3 & f' & Hpre & E).
  set (b := Dumbvm.set_pbases p1 p2 p3 a) in E. set (vm' := Dumbvm.set_spaces _ _ _) in E. set (m' := mkmachine vm' (badfault m) (files m) (defined m)).
  assert (space m' = Some b) as Hb by (unfold space; cbn; rewrite Hp; cbn; apply lookup_insert_eq).
  assert (shape [r; q] b) as Hsb by exact Hs. destruct Hpre as ((B1 & B2 & B3) & W & _ & _ & _ & _ & Hfit).
  assert (Dumbvm.check_as b = true → laid b) as Hl.
  { intros (C1 & C2 & C3 & _ & _)%check_as_loaded. cbn in C1, C2, C3. destruct B1 as [?|[-> _]]; [done|]. destruct B2 as [?|[-> _]]; [done|].
    destruct B3 as [?|[-> _]]; [done|]. unfold laid. cbn. split_and!; lia. }
  assert (good m') as G' by (constructor; [done|done|]; exists b; cbn; rewrite El; by split_and!).
  assert (fits m (regions m) ↔ firstpaddr (Dumbvm.phys (vm m)) + as_total a ≤ lastpaddr (Dumbvm.phys (vm m))) as Hft.
  { cbn [fits regions dumbvm_view]. rewrite El. destruct Hs as (_ & E1 & _ & E2). unfold as_total. rewrite E1, E2. cbn [foldr].
    replace (pages r + (pages q + Dumbvm.DUMBVM_STACKPAGES)) with (pages r + pages q + Dumbvm.DUMBVM_STACKPAGES) by lia. done. }
  exists e, m'. split; [cbn; unfold on_vm, zoom; by rewrite E|].
  split; [split; [done|]; split; [done|]; split; [cbn; by rewrite Hp|by intros _]|].
  assert (idle (u_mem (usr m'))) as Hi by exact Q1.
  split; [split_and!; [exact Hi|done|exact G']|]. rewrite Hft. destruct (decide _) as [Hd|Hd].
  - destruct Hfit as (-> & P1 & P2 & P3). destruct B1 as [?|[-> O1]]; [done|]. destruct B2 as [?|[-> O2]]; [done|]. destruct B3 as [?|[-> O3]]; [done|].
    assert (Dumbvm.check_as b = true) as Hc by (apply check_as_ok; by constructor). split; [done|]. intros _.
    split; [by exists b|]. cbn [user regions dumbvm_view]. rewrite El. unfold usr. rewrite Hb, Hc. by apply shape_mapped.
  - split; [intros; done|]. subst e. done.
Qed.

Lemma machine_complete p (m : machine) :
  t_vmspace m = Some p → ∃ m', as_complete_load p m = Ok (0, m') ∧ frame m m' ∧ user m' = user m.
Proof. intros Hp. exists m. split; [by destruct m|]. split; [|done]. split; [done|]. split; [done|]. split; [by eexists|done]. Qed.

(** dumbvm.c keeps what the loader relies on. *)
#[global] Instance dumbvm_laws : ExecLaws (S := machine).
Proof.
  constructor.
  - exact machine_read.
  - intros p v sz r w x. exact (machine_define p v sz).
  - exact machine_prepare.
  - exact machine_complete.
  - intros A. exact machine_user.
Qed.

(** ** A concrete executable

    Two segments: three bytes of the file and two beyond it, for the code; two and two for the data. *)
Definition demo_ehdr : list Z :=
  [127; 69; 76; 70; 1; 2; 1; 0; 0; 0; 0; 0; 0; 0; 0; 0; 0; 2; 0; 8; 0; 0; 0; 1; 0; 64; 0; 4; 0; 0; 0; 52; 0; 0; 0; 0; 0; 0; 0; 0;
   0; 52; 0; 32; 0; 2; 0; 0; 0; 0; 0; 0].

Definition demo_text : list Z :=
  [0; 0; 0; 1; 0; 0; 0; 116; 0; 64; 0; 0; 0; 64; 0; 0; 0; 0; 0; 3; 0; 0; 0; 5; 0; 0; 0; 5; 0; 0; 16; 0].

Definition demo_data : list Z :=
  [0; 0; 0; 1; 0; 0; 0; 119; 16; 0; 0; 0; 16; 0; 0; 0; 0; 0; 0; 2; 0; 0; 0; 4; 0; 0; 0; 6; 0; 0; 16; 0].

Definition demo_file : list Z := demo_ehdr ++ demo_text ++ demo_data ++ [17; 18; 19; 20; 21].

Definition demo_phs : list Elf_Phdr := [dec_phdr demo_text; dec_phdr demo_data].

(** The kernel that is to load file 3: its process has a new address space. *)
Definition demo_machine (c : list Z) : machine :=
  mkmachine (after (OpSwitch (Some 0%nat)) (after OpCreate demo0)) false {[ 3%nat := c ]} [].

Lemma demo_opened c : file (demo_machine c) 3 = Some c.
Proof. apply lookup_insert_eq. Qed.

Lemma demo_space c : space (demo_machine c) = Some (Dumbvm.mkas 0 0 0 0 0 0 0).
Proof. reflexivity. Qed.

Lemma demo_quiet c : quiet (demo_machine c).
Proof.
  split; [done|]. split; [done|]. constructor; [apply (vb_ram _ demo_boot)|constructor|]. eexists. split; [apply demo_space|]. split; [done|].
  intros Hc. discriminate Hc.
Qed.

Lemma demo_elf : elf demo_file (dec_ehdr demo_ehdr) demo_phs.
Proof.
  constructor; try (vm_compute; done).
  - intros [|[|i]] ph Hi; [..|done]; injection Hi as <-; vm_compute; done.
  - repeat (constructor; [vm_compute; done|]). constructor.
Qed.

Lemma demo_segments : Forall (seg_ok demo_file) demo_phs ∧ apart demo_phs.
Proof.
  split; [repeat (constructor; [constructor; vm_compute; done|]); constructor|].
  intros [|[|i]] [|[|j]] a b Hi Hj Hne; try done; injection Hi as <-; injection Hj as <-; vm_compute; intros []; done.
Qed.

Lemma demo_usable : usable (ExecView := dumbvm_view) (region_of <$> loads demo_phs).
Proof. exists (4194304, 5), (268435456, 4). split_and!; done. Qed.

Lemma demo_fits : fits (demo_machine demo_file) (region_of <$> loads demo_phs).
Proof. done. Qed.

(** The executable is loaded: its entry point is returned and both segments are in memory. *)
Lemma load_elf_loads_witness :
  ∃ m', load_elf 3 (demo_machine demo_file) = Ok (inr 4194308, m') ∧
    user_bytes (umem (u_mem (usr m'))) 4194304 5 = Some [17; 18; 19; 0; 0] ∧
    user_bytes (umem (u_mem (usr m'))) 268435456 4 = Some [20; 21; 0; 0].
Proof.
  destruct (load_elf_loads 3 demo_file (dec_ehdr demo_ehdr) demo_phs 0%nat (demo_machine demo_file) (demo_opened _)
    (demo_quiet _) eq_refl (ex_intro _ _ (conj (demo_space _) (conj eq_refl (conj eq_refl eq_refl)))) eq_refl demo_elf (proj1 demo_segments) (proj2 demo_segments) demo_usable) as (r & m' & E & Hr & Hb).
  specialize (Hr demo_fits). rewrite Hr in E. exists m'. split; [exact E|].
  destruct (Hb _ Hr) as [_ Hph]. split; [apply (Hph (dec_phdr demo_text)); left|apply (Hph (dec_phdr demo_data)); right; left].
Defined.

(** The same file for a machine with the least significant byte first is refused. *)
Definition little_file : list Z := <[5%nat := 1]> demo_file.

Definition little_uio : uio := mkuio (un_kbase (take 52 little_file) []) 0 52 0 UIO_SYSSPACE UIO_READ None.

Lemma little_read :
  VOP_READ 3 (mk_kuio (replicate 52 0) 52 0 UIO_READ) (demo_machine little_file) =
    Ok ((0, little_uio), put_user (usr (demo_machine little_file)) (demo_machine little_file)).
Proof. reflexivity. Qed.

Lemma load_elf_rejects_witness :
  load_elf 3 (demo_machine little_file) = Ok (inl ENOEXEC, put_user (usr (demo_machine little_file)) (demo_machine little_file)).
Proof.
  rewrite (load_elf_rejects 3 (demo_machine little_file) 0 little_uio _ little_read eq_refl); [reflexivity|].
  apply (bool_decide_unpack (Forall (fun b => 0 ≤ b < 256) (kuio_data little_uio))). vm_compute. exact I.
Defined.
End Loadelfvm.
