(* ===== verification/Mips.v ===== *)
(** * The processor of System/161 (sys161-1.14/mipseb/mips.c): state, memory, exceptions

    The simulated MIPS r2000.  [mipscpu] is [struct mipscpu], its members in five groups: general registers, program
    counters, MMU, status register and exception registers.  Members that the code only tests for zero are booleans.
    General registers are [int32_t], the others unsigned.  A [const u_int32_t *] to a page of code is a [page]: the
    instruction is read through it when it is executed.

    [machine] adds what the processor works on: physical memory (inlinemem.h, a [calloc]ed array of bytes: those never
    written are zero), the counters and the stop flag of main.c, and the devices, which are the state [D] of a [Bus].
    [smoke] aborts the simulator and is [Panic]; [hang] sets the stop flag.  The host is little-endian, so that
    [ntohl] reverses bytes. *)
From stdpp Require Import base list gmap numbers.
From S2P Require Import Prelude.
Local Open Scope Z_scope.

Module Mips.

Definition NTLB : nat := 64.
Definition NREGS : nat := 32.

Definition TLBLO_GLOBAL : Z := 0x100.
Definition TLBLO_VALID : Z := 0x200.
Definition TLBLO_DIRTY : Z := 0x400.
Definition TLBLO_NOCACHE : Z := 0x800.
Definition TLBHI_PID : Z := 0xfc0.
Definition TLB_PAGEFRAME : Z := 0xfffff000.

Definition STATUS_BITS : Z := 0xf07ff800.
Definition STATUS_HARDMASK : Z := 0x400.
Definition STATUS_SOFTMASK : Z := 0x300.
Definition STATUS_KUo : Z := 0x20.
Definition STATUS_IEo : Z := 0x10.
Definition STATUS_KUp : Z := 0x8.
Definition STATUS_IEp : Z := 0x4.
Definition STATUS_KUc : Z := 0x2.
Definition STATUS_IEc : Z := 0x1.

Definition CAUSE_BD : Z := 0x80000000.
Definition CAUSE_HARDIRQ : Z := 0x400.
Definition CAUSE_SOFTIRQ : Z := 0x300.

Definition RANDREG_MAX : Z := 56.
Definition RANDREG_OFFSET : Z := 8.

Definition KSEG2 : Z := 0xc0000000.
Definition KSEG1 : Z := 0xa0000000.
Definition KSEG0 : Z := 0x80000000.

(** mips-ex.h *)
Definition EX_IRQ : Z := 0.
Definition EX_MOD : Z := 1.
Definition EX_TLBL : Z := 2.
Definition EX_TLBS : Z := 3.
Definition EX_ADEL : Z := 4.
Definition EX_ADES : Z := 5.
Definition EX_IBE : Z := 6.
Definition EX_DBE : Z := 7.
Definition EX_SYS : Z := 8.
Definition EX_BP : Z := 9.
Definition EX_RI : Z := 10.
Definition EX_CPU : Z := 11.
Definition EX_OVF : Z := 12.

Definition FULLOP_RFE : Z := 0x42000010.

(** ** State *)
Record mipstlb := mkmt {
  mt_global : bool;
  mt_valid : bool;
  mt_dirty : bool;
  mt_nocache : bool;
  mt_pfn : Z;
  mt_vpn : Z;
  mt_pid : Z
}.

Inductive page :=
| RamPage (offset : Z)
| RomPage (index : Z).

Record regs := mkregs {
  r : list Z;
  lo : Z;
  hi : Z;
  lowait : Z;
  hiwait : Z
}.

Record pcs := mkpcs {
  jumping : bool;
  in_jumpdelay : bool;
  expc : Z;
  pc : Z;
  nextpc : Z;
  pcoff : Z;
  nextpcoff : Z;
  pcpage : option page;
  nextpcpage : option page
}.

Record mmu := mkmmu {
  tlb : list mipstlb;
  tlbentry : mipstlb;
  tlbindex : Z;
  tlbpf : bool;
  tlbrandom : Z
}.

Record status := mkstatus {
  old_usermode : bool;
  old_irqon : bool;
  prev_usermode : bool;
  prev_irqon : bool;
  current_usermode : bool;
  current_irqon : bool;
  status_hardmask : bool;
  status_softmask : Z;
  status_bits : Z
}.

Record exn := mkexn {
  cause_bd : bool;
  cause_ce : Z;
  cause_softirq : Z;
  cause_code : Z;
  ex_context : Z;
  ex_epc : Z;
  ex_vaddr : Z;
  ex_prid : Z
}.

Record mipscpu := mkcpu {
  c_regs : regs;
  c_pcs : pcs;
  c_mmu : mmu;
  c_status : status;
  c_exn : exn
}.

(** The counters of [struct stats] the processor keeps. *)
Record stats := mkstats {
  s_ucycles : Z;
  s_kcycles : Z;
  s_irqs : Z;
  s_exns : Z
}.

(** The devices: [bus_io_fetch] and [bus_io_store] answer [None] and [false] for an error; [bus_interrupts] are the
    lines asserted; [clock_waitirq] lets time pass until there is an interrupt. *)
Class Bus (D : Type) := {
  bus_io_fetch : Z → M D (option Z);
  bus_io_store : Z → Z → M D bool;
  bus_interrupts : D → Z;
  clock_waitirq : M D unit
}.

Record machine (D : Type) := mkmach {
  mycpu : mipscpu;
  ram : gmap Z Z;
  bus_ramsize : Z;
  devices : D;
  g_stats : stats;
  stop_flag : bool;
  gdb_listening : bool
}.
Arguments mkmach {D}.
Arguments mycpu {D}.
Arguments ram {D}.
Arguments bus_ramsize {D}.
Arguments devices {D}.
Arguments g_stats {D}.
Arguments stop_flag {D}.
Arguments gdb_listening {D}.

(** ** The registers of the MMU *)
Definition reset_tlbentry (index : Z) : mipstlb := mkmt false false false false 0 (0x81000000 + index * 0x1000) 0.

(** A bit that is or is not added to a register image, and the test for one. *)
Definition flag (b : bool) (m : Z) : Z := if b then m else 0.
Definition has (val m : Z) : bool := negb (Z.land val m =? 0).

Definition tlbgetlo (mt : mipstlb) : Z :=
  Z.lor (Z.lor (Z.lor (Z.lor (mt_pfn mt) (flag (mt_global mt) TLBLO_GLOBAL)) (flag (mt_valid mt) TLBLO_VALID))
    (flag (mt_dirty mt) TLBLO_DIRTY)) (flag (mt_nocache mt) TLBLO_NOCACHE).

Definition tlbgethi (mt : mipstlb) : Z := Z.lor (mt_vpn mt) (mt_pid mt).

Definition tlbsetlo (mt : mipstlb) (val : Z) : mipstlb :=
  mkmt (has val TLBLO_GLOBAL) (has val TLBLO_VALID) (has val TLBLO_DIRTY) (has val TLBLO_NOCACHE) (Z.land val TLB_PAGEFRAME)
    (mt_vpn mt) (mt_pid mt).

Definition tlbsethi (mt : mipstlb) (val : Z) : mipstlb :=
  mkmt (mt_global mt) (mt_valid mt) (mt_dirty mt) (mt_nocache mt) (mt_pfn mt) (Z.land val TLB_PAGEFRAME) (Z.land val TLBHI_PID).

(** The entry number, where the code returns -1 for none. *)
Fixpoint findtlb_from (i : Z) (l : list mipstlb) (pid vpage : Z) : option Z :=
  match l with
  | [] => None
  | mt :: l' =>
      if negb (mt_vpn mt =? vpage) then findtlb_from (i + 1) l' pid vpage
      else if (mt_pid mt =? pid) || mt_global mt then Some i
      else findtlb_from (i + 1) l' pid vpage
  end.

Definition findtlb (m : mmu) (vpage : Z) : option Z := findtlb_from 0 (tlb m) (mt_pid (tlbentry m)) vpage.

Definition getstatus (s : status) : Z :=
  Z.lor (Z.lor (Z.lor (Z.lor (Z.lor (Z.lor (Z.lor (Z.lor (status_bits s) (status_softmask s))
    (flag (status_hardmask s) STATUS_HARDMASK)) (flag (old_usermode s) STATUS_KUo)) (flag (old_irqon s) STATUS_IEo))
    (flag (prev_usermode s) STATUS_KUp)) (flag (prev_irqon s) STATUS_IEp)) (flag (current_usermode s) STATUS_KUc))
    (flag (current_irqon s) STATUS_IEc).

Definition setstatus (val : Z) : status :=
  mkstatus (has val STATUS_KUo) (has val STATUS_IEo) (has val STATUS_KUp) (has val STATUS_IEp) (has val STATUS_KUc) (has val STATUS_IEc)
    (has val STATUS_HARDMASK) (Z.land val STATUS_SOFTMASK) (Z.land val STATUS_BITS).

Definition getcause (e : exn) (interrupts : Z) : Z :=
  Z.lor (Z.lor (Z.lor (Z.lor (cause_ce e) (cause_softirq e)) (cause_code e)) (flag (cause_bd e) CAUSE_BD))
    (flag (negb (interrupts =? 0)) CAUSE_HARDIRQ).

Definition setcause (val : Z) (e : exn) : exn :=
  mkexn (cause_bd e) (cause_ce e) (Z.land val CAUSE_SOFTIRQ) (cause_code e) (ex_context e) (ex_epc e) (ex_vaddr e) (ex_prid e).

Definition getindex (m : mmu) : Z := Z.lor (Z.shiftl (tlbindex m) 8) (flag (tlbpf m) 0x80000000).

Definition setindex (val : Z) (m : mmu) : mmu :=
  mkmmu (tlb m) (tlbentry m) (Z.land (Z.shiftr val 8) 63) (has val 0x80000000) (tlbrandom m).

(** The status bits when an exception is taken, and when RFE undoes it. *)
Definition roll (s : status) : status :=
  mkstatus (prev_usermode s) (prev_irqon s) (current_usermode s) (current_irqon s) false false
    (status_hardmask s) (status_softmask s) (status_bits s).

Definition unroll (s : status) : status :=
  mkstatus (old_usermode s) (old_irqon s) (old_usermode s) (old_irqon s) (prev_usermode s) (prev_irqon s)
    (status_hardmask s) (status_softmask s) (status_bits s).

(** ** The boot ROM (bootrom.c) *)
Definition ROMWORDS : Z := 1024.
Definition fakerom (i : Z) : Z := if i =? 1023 then 0x0d000000 else 0.

Definition ntohl (z : Z) : Z := un_be (rev (be32 z)).

Definition bootrom_fetch (offset : Z) : option Z :=
  if offset >=? ROMWORDS * 4 then None else Some (ntohl (fakerom (offset `div` 4))).

Definition bootrom_map (offset : Z) : option page :=
  if offset >=? ROMWORDS * 4 then None else Some (RomPage (offset `div` 4)).

Section machine.
Context {D : Type} `{Bus D}.

Abbreviation C := (M (machine D)).

Definition set_cpu (c : mipscpu) (s : machine D) : machine D :=
  mkmach c (ram s) (bus_ramsize s) (devices s) (g_stats s) (stop_flag s) (gdb_listening s).
Definition set_ram (x : gmap Z Z) (s : machine D) : machine D :=
  mkmach (mycpu s) x (bus_ramsize s) (devices s) (g_stats s) (stop_flag s) (gdb_listening s).
Definition set_devices (d : D) (s : machine D) : machine D :=
  mkmach (mycpu s) (ram s) (bus_ramsize s) d (g_stats s) (stop_flag s) (gdb_listening s).
Definition set_stats (x : stats) (s : machine D) : machine D :=
  mkmach (mycpu s) (ram s) (bus_ramsize s) (devices s) x (stop_flag s) (gdb_listening s).

Definition set_regs (x : regs) (s : machine D) : machine D :=
  set_cpu (mkcpu x (c_pcs (mycpu s)) (c_mmu (mycpu s)) (c_status (mycpu s)) (c_exn (mycpu s))) s.
Definition set_pcs (x : pcs) (s : machine D) : machine D :=
  set_cpu (mkcpu (c_regs (mycpu s)) x (c_mmu (mycpu s)) (c_status (mycpu s)) (c_exn (mycpu s))) s.
Definition set_mmu (x : mmu) (s : machine D) : machine D :=
  set_cpu (mkcpu (c_regs (mycpu s)) (c_pcs (mycpu s)) x (c_status (mycpu s)) (c_exn (mycpu s))) s.
Definition set_status (x : status) (s : machine D) : machine D :=
  set_cpu (mkcpu (c_regs (mycpu s)) (c_pcs (mycpu s)) (c_mmu (mycpu s)) x (c_exn (mycpu s))) s.
Definition set_exn (x : exn) (s : machine D) : machine D :=
  set_cpu (mkcpu (c_regs (mycpu s)) (c_pcs (mycpu s)) (c_mmu (mycpu s)) (c_status (mycpu s)) x) s.

Definition get_regs (s : machine D) : regs := c_regs (mycpu s).
Definition get_pcs (s : machine D) : pcs := c_pcs (mycpu s).
Definition get_mmu (s : machine D) : mmu := c_mmu (mycpu s).
Definition get_status (s : machine D) : status := c_status (mycpu s).
Definition get_exn (s : machine D) : exn := c_exn (mycpu s).

Definition IS_USERMODE (s : machine D) : bool := current_usermode (get_status s).

Definition on_bus {A} (m : M D A) : C A := zoom devices set_devices m.

(** main.c and console.c *)
Definition main_stop : C unit :=
  modify (fun s => mkmach (mycpu s) (ram s) (bus_ramsize s) (devices s) (g_stats s) true (gdb_listening s)).
Definition hang : C unit := main_stop.

(** ** Physical memory (inlinemem.h) *)
Definition ram_byte (m : gmap Z Z) (a : Z) : Z := default 0 (m !! a).
Definition ram_word (m : gmap Z Z) (a : Z) : Z := un_be [ram_byte m a; ram_byte m (a + 1); ram_byte m (a + 2); ram_byte m (a + 3)].
Definition put_word (a v : Z) (m : gmap Z Z) : gmap Z Z :=
  <[a := u8 (v `div` 2 ^ 24)]> (<[a + 1 := u8 (v `div` 2 ^ 16)]> (<[a + 2 := u8 (v `div` 2 ^ 8)]> (<[a + 3 := u8 v]> m))).

Definition bus_mem_fetch (offset : Z) : C (option Z) := fun s =>
  if offset >=? bus_ramsize s then Ok (None, s)
  else if offset + 4 >? bus_ramsize s then Undef
  else Ok (Some (ram_word (ram s) offset), s).

Definition bus_mem_store (offset val : Z) : C bool := fun s =>
  if offset >=? bus_ramsize s then Ok (false, s)
  else if offset + 4 >? bus_ramsize s then Undef
  else Ok (true, set_ram (put_word offset val (ram s)) s).

Definition bus_mem_fetchbyte (offset : Z) : C (option Z) := fun s =>
  if offset >=? bus_ramsize s then Ok (None, s) else Ok (Some (ram_byte (ram s) offset), s).

Definition bus_mem_storebyte (offset val : Z) : C bool := fun s =>
  if offset >=? bus_ramsize s then Ok (false, s) else Ok (true, set_ram (<[offset := u8 val]> (ram s)) s).

Definition bus_mem_map (size offset : Z) : option page := if offset >=? size then None else Some (RamPage offset).

Definition bus_use_map (pg : option page) (pageoffset : Z) : C Z := fun s =>
  match pg with
  | None => Undef
  | Some (RamPage o) =>
      let a := o + pageoffset `div` 4 * 4 in
      if a + 4 >? bus_ramsize s then Undef else Ok (ram_word (ram s) a, s)
  | Some (RomPage i) =>
      let j := i + pageoffset `div` 4 in
      if j >=? ROMWORDS then Undef else Ok (ntohl (fakerom j), s)
  end.

Definition mapmem (size paddr : Z) : option page :=
  let paddr := Z.land paddr 0xfffff000 in
  if paddr <? 0x1fc00000 then bus_mem_map size paddr
  else if paddr <? 0x1fe00000 then bootrom_map (paddr - 0x1fc00000)
  else if paddr <? 0x20000000 then None
  else bus_mem_map size (paddr - 0x400000).

(** ** Translation, exceptions and the page of the program counter

    These call each other: a translation that fails takes an exception, and taking one looks up the pages of the
    handler.  Each is written over the [exception] it calls. *)
Definition set_vpn (vpage : Z) (m : mmu) : mmu :=
  mkmmu (tlb m)
    (mkmt (mt_global (tlbentry m)) (mt_valid (tlbentry m)) (mt_dirty (tlbentry m)) (mt_nocache (tlbentry m)) (mt_pfn (tlbentry m)) vpage
       (mt_pid (tlbentry m)))
    (tlbindex m) (tlbpf m) (tlbrandom m).

Section with_exception.
Context (exc : Z → Z → Z → C unit).

(** [Some paddr], or [None] where the code returns -1. *)
Definition translatemem_with (vaddr : Z) (iswrite : bool) : C (option Z) :=
  let seg := Z.shiftr vaddr 30 in
  let* user := gets IS_USERMODE in
  if ((vaddr >=? 0x80000000) && user) || negb (Z.land vaddr 0x3 =? 0) then
    let* _ := exc (if iswrite then EX_ADES else EX_ADEL) 0 vaddr in
    mret None
  else if seg =? 2 then mret (Some (Z.land vaddr 0x1fffffff))
  else
    let vpage := Z.land vaddr 0xfffff000 in
    let off := Z.land vaddr 0xfff in
    let* _ := modify (fun s => set_mmu (set_vpn vpage (get_mmu s)) s) in
    let* m := gets get_mmu in
    match findtlb m vpage with
    | None =>
        let* _ := exc (if iswrite then EX_TLBS else EX_TLBL) (if vaddr <? 0x80000000 then 1 else 0) vaddr in
        mret None
    | Some ix =>
        match tlb m !! Z.to_nat ix with
        | None => lift Undef
        | Some mt =>
            if negb (mt_valid mt) then
              let* _ := exc (if iswrite then EX_TLBS else EX_TLBL) 0 vaddr in
              mret None
            else if iswrite && negb (mt_dirty mt) then
              let* _ := exc EX_MOD 0 vaddr in
              mret None
            else mret (Some (Z.lor (mt_pfn mt) off))
        end
    end.

Definition set_pcpage (off : Z) (pg : option page) (p : pcs) : pcs :=
  mkpcs (jumping p) (in_jumpdelay p) (expc p) (pc p) (nextpc p) off (nextpcoff p) pg (nextpcpage p).
Definition set_nextpcpage (off : Z) (pg : option page) (p : pcs) : pcs :=
  mkpcs (jumping p) (in_jumpdelay p) (expc p) (pc p) (nextpc p) (pcoff p) off (pcpage p) pg.

(** [true] where the code returns 0. *)
Definition precompute_pc_with : C bool :=
  let* p := gets get_pcs in
  let* t := translatemem_with (pc p) false in
  match t with
  | None => mret false
  | Some physpc =>
      let* size := gets bus_ramsize in
      let pg := mapmem size physpc in
      let* _ := modify (fun s => set_pcs (set_pcpage (pcoff (get_pcs s)) pg (get_pcs s)) s) in
      match pg with
      | None =>
          let* _ := exc EX_IBE 0 0 in
          let* p := gets get_pcs in
          match pcpage p with
          | None => panic
          | Some _ => mret false
          end
      | Some _ =>
          let* _ := modify (fun s => set_pcs (set_pcpage (Z.land physpc 0xfff) pg (get_pcs s)) s) in
          mret true
      end
  end.

Definition precompute_nextpc_with : C bool :=
  let* p := gets get_pcs in
  let* t := translatemem_with (nextpc p) false in
  match t with
  | None => mret false
  | Some physnext =>
      let* size := gets bus_ramsize in
      let pg := mapmem size physnext in
      let* _ := modify (fun s => set_pcs (set_nextpcpage (nextpcoff (get_pcs s)) pg (get_pcs s)) s) in
      match pg with
      | None =>
          let* _ := exc EX_IBE 0 0 in
          let* p := gets get_pcs in
          match nextpcpage p with
          | None => panic
          | Some _ => mret false
          end
      | Some _ =>
          let* _ := modify (fun s => set_pcs (set_nextpcpage (Z.land physnext 0xfff) pg (get_pcs s)) s) in
          mret true
      end
  end.
End with_exception.

(** The registers [exception] sets before it looks up the handler. *)
Definition exn_stats (code : Z) (x : stats) : stats :=
  if code =? EX_IRQ then mkstats (s_ucycles x) (s_kcycles x) (u32 (s_irqs x + 1)) (s_exns x)
  else mkstats (s_ucycles x) (s_kcycles x) (s_irqs x) (u32 (s_exns x + 1)).

Definition exn_regs (code cn_or_user vaddr : Z) (p : pcs) (e : exn) : exn :=
  mkexn (in_jumpdelay p) (if code =? EX_CPU then u32 (Z.shiftl cn_or_user 28) else 0) (cause_softirq e) (Z.shiftl code 2)
    (Z.lor (Z.land (ex_context e) 0xffe00000) (Z.shiftr (Z.land vaddr 0x7ffff000) 10)) (expc p) vaddr (ex_prid e).

(** The vector. *)
Definition vector (boot : bool) (code cn_or_user : Z) : Z :=
  if ((code =? EX_TLBL) || (code =? EX_TLBS)) && negb (cn_or_user =? 0) then (if boot then 0xbfc00100 else 0x80000000)
  else (if boot then 0xbfc00180 else 0x80000080).

Definition goto (a : Z) (p : pcs) : pcs :=
  mkpcs false false (expc p) a (u32 (a + 4)) (pcoff p) (nextpcoff p) (pcpage p) (nextpcpage p).

Definition enter (code cn_or_user vaddr : Z) (s : machine D) : machine D :=
  let boot := has (status_bits (get_status s)) 0x00400000 in
  set_pcs (goto (vector boot code cn_or_user) (get_pcs s))
    (set_exn (exn_regs code cn_or_user vaddr (get_pcs s) (get_exn s))
      (set_status (roll (get_status s)) (set_stats (exn_stats code (g_stats s)) s))).

Fixpoint exception_loop (fuel : nat) (code cn_or_user vaddr : Z) : C unit :=
  match fuel with
  | O => lift Spin
  | S fuel' =>
      let* _ := modify (enter code cn_or_user vaddr) in
      let* _ := precompute_pc_with (exception_loop fuel') in
      let* _ := precompute_nextpc_with (exception_loop fuel') in
      mret tt
  end.

(** The lookups for the handler never fail in a machine that has memory, so one level is enough. *)
Definition exception : Z → Z → Z → C unit := exception_loop 2.

Definition translatemem : Z → bool → C (option Z) := translatemem_with exception.
Definition precompute_pc : C bool := precompute_pc_with exception.
Definition precompute_nextpc : C bool := precompute_nextpc_with exception.

(** The same translation for the debugger: nothing changes and the mode is not looked at. *)
Definition debug_translatemem (m : mmu) (vaddr : Z) (iswrite : bool) : option Z :=
  if negb (Z.land vaddr 0x3 =? 0) then None
  else if Z.shiftr vaddr 30 =? 2 then Some (Z.land vaddr 0x1fffffff)
  else
    let vpage := Z.land vaddr 0xfffff000 in
    let off := Z.land vaddr 0xfff in
    match findtlb m vpage with
    | None => None
    | Some ix =>
        match tlb m !! Z.to_nat ix with
        | None => None
        | Some mt =>
            if negb (mt_valid mt) then None
            else if iswrite && negb (mt_dirty mt) then None
            else Some (Z.lor (mt_pfn mt) off)
        end
    end.

(** ** The TLB instructions *)
Definition probetlb : C unit :=
  modify (fun s =>
    let m := get_mmu s in
    match findtlb m (mt_vpn (tlbentry m)) with
    | None => set_mmu (mkmmu (tlb m) (tlbentry m) (tlbindex m) true (tlbrandom m)) s
    | Some ix => set_mmu (mkmmu (tlb m) (tlbentry m) ix false (tlbrandom m)) s
    end).

(** Two entries that could match at once. *)
Definition tlb_dup (a b : mipstlb) : bool :=
  (mt_vpn a =? mt_vpn b) && (mt_global a || mt_global b || (mt_pid a =? mt_pid b)).

(** [hang] for each entry from [i] on that duplicates entry [newix]. *)
Fixpoint dups_loop (i : nat) (l : list mipstlb) (newix : nat) (new : mipstlb) : C unit :=
  match l with
  | [] => mret tt
  | mt :: l' =>
      let* _ := (if negb (i =? newix)%nat && tlb_dup new mt then hang else mret tt) in
      dups_loop (S i) l' newix new
  end.

Definition check_tlb_dups (newix : nat) : C unit :=
  let* m := gets get_mmu in
  match tlb m !! newix with
  | None => lift Undef
  | Some new => dups_loop 0 (tlb m) newix new
  end.

Definition writetlb (ix : Z) : C unit :=
  let* m := gets get_mmu in
  if (ix <? 0) || (ix >=? Z.of_nat NTLB) then lift Undef
  else
    let* _ := modify (set_mmu (mkmmu (<[Z.to_nat ix := tlbentry m]> (tlb m)) (tlbentry m) (tlbindex m) (tlbpf m) (tlbrandom m))) in
    let* _ := check_tlb_dups (Z.to_nat ix) in
    let* _ := precompute_pc in
    let* _ := precompute_nextpc in
    mret tt.

Definition do_wait : C unit := on_bus clock_waitirq.

Definition do_rfe : C unit :=
  let* user := gets IS_USERMODE in
  if (user : bool) then panic
  else
    let* _ := modify (fun s => set_status (unroll (get_status s)) s) in
    let* _ := modify (fun s =>
      let p := get_pcs s in
      set_pcs (mkpcs (jumping p) false (pc p) (pc p) (nextpc p) (pcoff p) (nextpcoff p) (pcpage p) (nextpcpage p)) s) in
    let* _ := precompute_pc in
    let* _ := precompute_nextpc in
    mret tt.

Definition phony_exception : C unit :=
  let* _ := modify (fun s => set_pcs (goto (expc (get_pcs s)) (get_pcs s)) s) in
  let* ok := precompute_pc in
  if negb (ok : bool) then panic
  else
    let* ok := precompute_nextpc in
    if negb (ok : bool) then panic else mret tt.

(** ** Data accesses *)

(** A load, or with [Some val] a store: [None] is a bus error, after which the exception has been taken. *)
Definition accessmem (paddr : Z) (w : option Z) : C (option Z) :=
  let store (m : C bool) : C (option Z) := let* ok := m in mret (if (ok : bool) then Some 0 else None) in
  let* res :=
    (if paddr <? 0x1fc00000 then
       match w with
       | Some val => store (bus_mem_store paddr val)
       | None => bus_mem_fetch paddr
       end
     else if paddr <? 0x1fe00000 then
       match w with
       | Some _ => mret None
       | None => mret (bootrom_fetch (paddr - 0x1fc00000))
       end
     else if paddr <? 0x20000000 then
       match w with
       | Some val => store (on_bus (bus_io_store (paddr - 0x1fe00000) val))
       | None => let* ov := on_bus (bus_io_fetch (paddr - 0x1fe00000)) in mret (u32 <$> ov)      (* a [u_int32_t] *)
       end
     else
       match w with
       | Some val => store (bus_mem_store (paddr - 0x400000) val)
       | None => bus_mem_fetch (paddr - 0x400000)
       end) in
  match res with
  | None =>
      let* _ := exception EX_DBE 0 0 in
      mret None
  | Some v => mret (Some v)
  end.

Definition domem (vaddr : Z) (w : option Z) (willbewrite : bool) : C (option Z) :=
  let* t := translatemem vaddr willbewrite in
  match t with
  | None => mret None
  | Some paddr => accessmem paddr w
  end.

Inductive memstyles := S_SBYTE | S_UBYTE | S_SHALF | S_UHALF | S_WORDL | S_WORDR.

Definition i8 (z : Z) : Z := (z + 2 ^ 7) `mod` 2 ^ 8 - 2 ^ 7.
Definition i16 (z : Z) : Z := (z + 2 ^ 15) `mod` 2 ^ 16 - 2 ^ 15.
Definition not32 (z : Z) : Z := Z.ldiff 0xffffffff z.

(** The byte and the halfword of a word at the low bits of an address. *)
Definition byte_of (val addr : Z) : Z :=
  match Z.land addr 3 with
  | 0 => Z.shiftr (Z.land val 0xff000000) 24
  | 1 => Z.shiftr (Z.land val 0x00ff0000) 16
  | 2 => Z.shiftr (Z.land val 0x0000ff00) 8
  | _ => Z.land val 0x000000ff
  end.

Definition half_of (val addr : Z) : Z :=
  match Z.land addr 2 with
  | 0 => Z.shiftr (Z.land val 0xffff0000) 16
  | _ => Z.land val 0x0000ffff
  end.

(** Mask and shift of the partial accesses. *)
Definition loadl_mask (addr : Z) : Z * Z :=
  match Z.land addr 0x3 with
  | 0 => (0xffffffff, 0) | 1 => (0xffffff00, 8) | 2 => (0xffff0000, 16) | _ => (0xff000000, 24)
  end.

Definition loadr_mask (addr : Z) : Z * Z :=
  match Z.land addr 0x3 with
  | 0 => (0x000000ff, 24) | 1 => (0x0000ffff, 16) | 2 => (0x00ffffff, 8) | _ => (0xffffffff, 0)
  end.

Definition storel_mask (addr : Z) : Z * Z :=
  match Z.land addr 0x3 with
  | 0 => (0xffffffff, 0) | 1 => (0x00ffffff, 8) | 2 => (0x0000ffff, 16) | _ => (0x000000ff, 24)
  end.

Definition storer_mask (addr : Z) : Z * Z :=
  match Z.land addr 0x3 with
  | 0 => (0xff000000, 24) | 1 => (0xffff0000, 16) | 2 => (0xffffff00, 8) | _ => (0xffffffff, 0)
  end.

Definition storeb_mask (addr : Z) : Z * Z :=
  match Z.land addr 3 with
  | 0 => (0xff000000, 24) | 1 => (0x00ff0000, 16) | 2 => (0x0000ff00, 8) | _ => (0x000000ff, 0)
  end.

Definition storeh_mask (addr : Z) : Z * Z :=
  match Z.land addr 2 with
  | 0 => (0xffff0000, 16) | _ => (0x0000ffff, 0)
  end.

(** The new value of [*res] given its old value [old], or [None] when an exception was taken. *)
Definition doload (ms : memstyles) (addr old : Z) : C (option Z) :=
  match ms with
  | S_SBYTE | S_UBYTE =>
      let* v := domem (Z.land addr 0xfffffffc) None false in
      mret ((fun val => let bval := byte_of val addr in match ms with S_SBYTE => u32 (i8 bval) | _ => bval end) <$> v)
  | S_SHALF | S_UHALF =>
      let* v := domem (Z.land addr 0xfffffffd) None false in
      mret ((fun val => let hval := half_of val addr in match ms with S_SHALF => u32 (i16 hval) | _ => hval end) <$> v)
  | S_WORDL =>
      let* v := domem (Z.land addr 0xfffffffc) None false in
      let '(mask, shift) := loadl_mask addr in
      mret ((fun val => Z.lor (Z.land old (not32 mask)) (Z.land (u32 (Z.shiftl val shift)) mask)) <$> v)
  | S_WORDR =>
      let* v := domem (Z.land addr 0xfffffffc) None false in
      let '(mask, shift) := loadr_mask addr in
      mret ((fun val => Z.lor (Z.land old (not32 mask)) (Z.land (Z.shiftr val shift) mask)) <$> v)
  end.

(** Read the word, change part of it, write it back. *)
Definition update_word (addr : Z) (f : Z → Z) : C unit :=
  let* v := domem addr None true in
  match v with
  | None => mret tt
  | Some wval =>
      let* _ := domem addr (Some (f wval)) true in
      mret tt
  end.

Definition dostore (ms : memstyles) (addr val : Z) : C unit :=
  match ms with
  | S_UBYTE =>
      let '(mask, shift) := storeb_mask addr in
      update_word (Z.land addr 0xfffffffc) (fun wval => Z.lor (Z.land wval (not32 mask)) (Z.shiftl (Z.land val 0xff) shift))
  | S_UHALF =>
      let '(mask, shift) := storeh_mask addr in
      update_word (Z.land addr 0xfffffffd) (fun wval => Z.lor (Z.land wval (not32 mask)) (Z.shiftl (Z.land val 0xffff) shift))
  | S_WORDL =>
      let '(mask, shift) := storel_mask addr in
      update_word (Z.land addr 0xfffffffc) (fun wval => Z.lor (Z.land wval (not32 mask)) (Z.land (Z.shiftr val shift) mask))
  | S_WORDR =>
      let '(mask, shift) := storer_mask addr in
      update_word (Z.land addr 0xfffffffc) (fun wval => Z.lor (Z.land wval (not32 mask)) (Z.land (u32 (Z.shiftl val shift)) mask))
  | _ => panic
  end.

(** ** Jumps *)
Definition abranch (addr : Z) : C unit :=
  if negb (Z.land addr 0x3 =? 0) then exception EX_ADEL 0 addr
  else
    let* _ := modify (fun s =>
      let p := get_pcs s in
      set_pcs (mkpcs true (in_jumpdelay p) (expc p) (pc p) addr (pcoff p) (nextpcoff p) (pcpage p) (nextpcpage p)) s) in
    let* p := gets get_pcs in
    let* insn := bus_use_map (pcpage p) (pcoff p) in
    if insn =? FULLOP_RFE then modify (fun s => set_pcs (set_nextpcpage 0 None (get_pcs s)) s)
    else
      let* _ := precompute_nextpc in
      mret tt.

Definition ibranch (imm : Z) : C unit :=
  let* p := gets get_pcs in
  abranch (Z.lor (Z.land (pc p) 0xf0000000) imm).

Definition rbranch (rel : Z) : C unit :=
  let* p := gets get_pcs in
  abranch (u32 (pc p + rel)).
End machine.

End Mips.
