(* ===== verification/Mipsinsn.v ===== *)
(** * The instructions and the cycle of the processor (sys161-1.14/mipseb/mips.c)

    One definition per [mx_] function, the decoder, [cpu_cycle], and the functions other parts of the simulator call
    on the processor.  A [switch] whose cases are calls is a table of cases. *)
From stdpp Require Import base list gmap numbers.
From S2P Require Import Prelude Mips.
Local Open Scope Z_scope.

Module Mipsinsn.
Import Mips.

(** ** Instruction fields *)
Definition NEEDRS (insn : Z) : Z := Z.shiftr (Z.land insn 0x03e00000) 21.
Definition NEEDRT (insn : Z) : Z := Z.shiftr (Z.land insn 0x001f0000) 16.
Definition NEEDRD (insn : Z) : Z := Z.shiftr (Z.land insn 0x0000f800) 11.
Definition NEEDTARG (insn : Z) : Z := Z.land insn 0x03ffffff.
Definition NEEDSH (insn : Z) : Z := Z.shiftr (Z.land insn 0x000007c0) 6.
Definition NEEDCN (insn : Z) : Z := Z.shiftr (Z.land insn 0x0c000000) 26.
Definition NEEDIMM (insn : Z) : Z := Z.land insn 0x0000ffff.
Definition NEEDSMM (insn : Z) : Z := i16 (NEEDIMM insn).

Fixpoint switch {A} (x : Z) (cases : list (Z * A)) (dflt : A) : A :=
  match cases with
  | [] => dflt
  | (k, a) :: cases' => if x =? k then a else switch x cases' dflt
  end.

Section insns.
Context {D : Type} `{Bus D}.

Abbreviation C := (M (machine D)).

Definition reg (i : Z) (s : machine D) : Z := default 0 (r (get_regs s) !! Z.to_nat i).

Definition RSs (insn : Z) : C Z := gets (reg (NEEDRS insn)).
Definition RTs (insn : Z) : C Z := gets (reg (NEEDRT insn)).
Definition RSu (insn : Z) : C Z := gets (fun s => u32 (reg (NEEDRS insn) s)).
Definition RTu (insn : Z) : C Z := gets (fun s => u32 (reg (NEEDRT insn) s)).

Definition put_reg (i v : Z) (s : machine D) : machine D :=
  let g := get_regs s in set_regs (mkregs (<[Z.to_nat i := i32 v]> (r g)) (lo g) (hi g) (lowait g) (hiwait g)) s.
Definition set_reg (i v : Z) : C unit := modify (put_reg i v).
Definition RDx (insn v : Z) : C unit := set_reg (NEEDRD insn) v.
Definition RTx (insn v : Z) : C unit := set_reg (NEEDRT insn) v.

Definition LINK2 (rg : Z) : C unit := modify (fun s => put_reg rg (nextpc (get_pcs s)) s).
Definition LINK : C unit := LINK2 31.

(** [lo] and [hi], and the cycles until they may be used again. *)
Definition set_hilo (h l : Z) : C unit :=
  modify (fun s => let g := get_regs s in set_regs (mkregs (r g) (i32 l) (i32 h) (lowait g) (hiwait g)) s).
Definition SETHILO (n : Z) : C unit :=
  modify (fun s => let g := get_regs s in set_regs (mkregs (r g) (lo g) (hi g) n n) s).
Definition SETHI (n : Z) : C unit :=
  modify (fun s => let g := get_regs s in set_regs (mkregs (r g) (lo g) (hi g) (lowait g) n) s).
Definition SETLO (n : Z) : C unit :=
  modify (fun s => let g := get_regs s in set_regs (mkregs (r g) (lo g) (hi g) n (hiwait g)) s).
Definition set_hi (h : Z) : C unit :=
  modify (fun s => let g := get_regs s in set_regs (mkregs (r g) (lo g) (i32 h) (lowait g) (hiwait g)) s).
Definition set_lo (l : Z) : C unit :=
  modify (fun s => let g := get_regs s in set_regs (mkregs (r g) (i32 l) (hi g) (lowait g) (hiwait g)) s).

Definition STALL : C unit := phony_exception.
Definition WHILO (k : C unit) : C unit :=
  let* g := gets get_regs in if (hiwait g >? 0) || (lowait g >? 0) then STALL else k.
Definition WHI (k : C unit) : C unit :=
  let* g := gets get_regs in if hiwait g >? 0 then STALL else k.
Definition WLO (k : C unit) : C unit :=
  let* g := gets get_regs in if lowait g >? 0 then STALL else k.

Definition CHKOVF (v : Z) (k : C unit) : C unit := if negb (i32 v =? v) then exception EX_OVF 0 0 else k.

Definition ADDR (insn : Z) : C Z := let* a := RSu insn in mret (u32 (a + u32 (NEEDSMM insn))).

(** ** Coprocessor 0 *)
Definition getrandom : C Z := fun s =>
  let m := get_mmu s in
  let t := Z.rem (tlbrandom m) RANDREG_MAX in
  Ok (Z.shiftl (t + RANDREG_OFFSET) 8, set_mmu (mkmmu (tlb m) (tlbentry m) (tlbindex m) (tlbpf m) t) s).

Definition domf (cn rg greg : Z) : C unit :=
  let* user := gets IS_USERMODE in
  if negb (cn =? 0) || user then exception EX_CPU cn 0
  else
    switch rg [
      (0, let* v := gets (fun s => getindex (get_mmu s)) in set_reg greg v);
      (1, let* v := getrandom in set_reg greg v);
      (2, let* v := gets (fun s => tlbgetlo (tlbentry (get_mmu s))) in set_reg greg v);
      (4, let* v := gets (fun s => ex_context (get_exn s)) in set_reg greg v);
      (8, let* v := gets (fun s => ex_vaddr (get_exn s)) in set_reg greg v);
      (10, let* v := gets (fun s => tlbgethi (tlbentry (get_mmu s))) in set_reg greg v);
      (12, let* v := gets (fun s => getstatus (get_status s)) in set_reg greg v);
      (13, let* v := gets (fun s => getcause (get_exn s) (bus_interrupts (devices s))) in set_reg greg v);
      (14, let* v := gets (fun s => ex_epc (get_exn s)) in set_reg greg v);
      (15, let* v := gets (fun s => ex_prid (get_exn s)) in set_reg greg v)]
      (exception EX_RI cn 0).

Definition set_tlbentry (e : mipstlb) (m : mmu) : mmu := mkmmu (tlb m) e (tlbindex m) (tlbpf m) (tlbrandom m).

Definition set_context (v : Z) (e : exn) : exn :=
  mkexn (cause_bd e) (cause_ce e) (cause_softirq e) (cause_code e) v (ex_epc e) (ex_vaddr e) (ex_prid e).
Definition set_vaddr (v : Z) (e : exn) : exn :=
  mkexn (cause_bd e) (cause_ce e) (cause_softirq e) (cause_code e) (ex_context e) (ex_epc e) v (ex_prid e).

Definition domt (cn rg greg : Z) : C unit :=
  let* user := gets IS_USERMODE in
  if negb (cn =? 0) || user then exception EX_CPU cn 0
  else
    switch rg [
      (0, modify (fun s => set_mmu (setindex (u32 greg) (get_mmu s)) s));
      (1, mret tt);
      (2, modify (fun s => let m := get_mmu s in set_mmu (set_tlbentry (tlbsetlo (tlbentry m) (u32 greg)) m) s));
      (4, modify (fun s => set_exn (set_context (u32 greg) (get_exn s)) s));
      (8, modify (fun s => set_exn (set_vaddr (u32 greg) (get_exn s)) s));
      (10, modify (fun s => let m := get_mmu s in set_mmu (set_tlbentry (tlbsethi (tlbentry m) (u32 greg)) m) s));
      (12, modify (set_status (setstatus (u32 greg))));
      (13, modify (fun s => set_exn (setcause (u32 greg) (get_exn s)) s));
      (14, mret tt);
      (15, mret tt)]
      (exception EX_RI cn 0).

Definition dolwc (cn addr rg : Z) : C unit := exception EX_CPU cn 0.
Definition doswc (cn addr rg : Z) : C unit := exception EX_CPU cn 0.

(** ** Arithmetic and logic *)
Definition mx_add (insn : Z) : C unit :=
  let* a := RSs insn in let* b := RTs insn in
  CHKOVF (a + b) (RDx insn (a + b)).

Definition mx_addi (insn : Z) : C unit :=
  let* a := RSs insn in
  CHKOVF (a + NEEDSMM insn) (RTx insn (a + NEEDSMM insn)).

Definition mx_addiu (insn : Z) : C unit :=
  let* a := RSu insn in
  RTx insn (u32 (a + u32 (NEEDSMM insn))).

Definition mx_addu (insn : Z) : C unit :=
  let* a := RSu insn in let* b := RTu insn in
  RDx insn (u32 (a + b)).

Definition mx_and (insn : Z) : C unit :=
  let* a := RSu insn in let* b := RTu insn in
  RDx insn (Z.land a b).

Definition mx_andi (insn : Z) : C unit :=
  let* a := RSu insn in
  RTx insn (Z.land a (NEEDIMM insn)).

Definition mx_div (insn : Z) : C unit :=
  let* a := RSs insn in let* b := RTs insn in
  WHILO
    (let* _ := (if b =? 0 then set_hilo 0 (if a <? 0 then 0xffffffff else 0x7fffffff)
                else if (a =? - 2 ^ 31) && (b =? -1) then lift Undef
                else set_hilo (Z.rem a b) (Z.quot a b)) in
     SETHILO 2).

Definition mx_divu (insn : Z) : C unit :=
  let* a := RSu insn in let* b := RTu insn in
  WHILO
    (let* _ := (if b =? 0 then set_hilo 0 0xffffffff else set_hilo (a `mod` b) (a `div` b)) in
     SETHILO 2).

Definition mx_lui (insn : Z) : C unit := RTx insn (Z.shiftl (NEEDIMM insn) 16).

Definition mx_mfhi (insn : Z) : C unit :=
  WHI (let* g := gets get_regs in
       let* _ := RDx insn (hi g) in
       SETHI 2).

Definition mx_mflo (insn : Z) : C unit :=
  WLO (let* g := gets get_regs in
       let* _ := RDx insn (lo g) in
       SETLO 2).

Definition mx_mthi (insn : Z) : C unit :=
  let* a := RSu insn in
  WHI (let* _ := set_hi a in SETHI 2).

Definition mx_mtlo (insn : Z) : C unit :=
  let* a := RSu insn in
  WLO (let* _ := set_lo a in SETLO 2).

Definition mx_mult (insn : Z) : C unit :=
  let* a := RSs insn in let* b := RTs insn in
  WHILO (let t64 := (a * b) `mod` 2 ^ 64 in
         let* _ := set_hilo (Z.shiftr (Z.land t64 0xffffffff00000000) 32) (Z.land t64 0xffffffff) in
         SETHILO 2).

Definition mx_multu (insn : Z) : C unit :=
  let* a := RSu insn in let* b := RTu insn in
  WHILO (let t64 := (a * b) `mod` 2 ^ 64 in
         let* _ := set_hilo (Z.shiftr (Z.land t64 0xffffffff00000000) 32) (Z.land t64 0xffffffff) in
         SETHILO 2).

Definition mx_nor (insn : Z) : C unit :=
  let* a := RSu insn in let* b := RTu insn in
  RDx insn (not32 (Z.lor a b)).

Definition mx_or (insn : Z) : C unit :=
  let* a := RSu insn in let* b := RTu insn in
  RDx insn (Z.lor a b).

Definition mx_ori (insn : Z) : C unit :=
  let* a := RSu insn in
  RTx insn (Z.lor a (NEEDIMM insn)).

Definition mx_sll (insn : Z) : C unit :=
  let* b := RTu insn in
  RDx insn (u32 (Z.shiftl b (NEEDSH insn))).

Definition mx_sllv (insn : Z) : C unit :=
  let* a := RSu insn in
  let vsh := Z.land a 31 in
  let* b := RTu insn in
  RDx insn (u32 (Z.shiftl b vsh)).

Definition mx_slt (insn : Z) : C unit :=
  let* a := RSs insn in let* b := RTs insn in
  RDx insn (if a <? b then 1 else 0).

Definition mx_slti (insn : Z) : C unit :=
  let* a := RSs insn in
  RTx insn (if a <? NEEDSMM insn then 1 else 0).

Definition mx_sltiu (insn : Z) : C unit :=
  let* a := RSu insn in
  RTx insn (if a <? u32 (NEEDSMM insn) then 1 else 0).

Definition mx_sltu (insn : Z) : C unit :=
  let* a := RSu insn in let* b := RTu insn in
  RDx insn (if a <? b then 1 else 0).

Definition signedshift (val amt : Z) : Z :=
  let result := Z.shiftr val amt in
  if negb (Z.land val 0x80000000 =? 0) then Z.lor result (u32 (Z.shiftl 0xffffffff (31 - amt))) else result.

Definition mx_sra (insn : Z) : C unit :=
  let* b := RTu insn in
  RDx insn (signedshift b (NEEDSH insn)).

Definition mx_srav (insn : Z) : C unit :=
  let* a := RSu insn in
  let vsh := Z.land a 31 in
  let* b := RTu insn in
  RDx insn (signedshift b vsh).

Definition mx_srl (insn : Z) : C unit :=
  let* b := RTu insn in
  RDx insn (Z.shiftr b (NEEDSH insn)).

Definition mx_srlv (insn : Z) : C unit :=
  let* a := RSu insn in
  let vsh := Z.land a 31 in
  let* b := RTu insn in
  RDx insn (Z.shiftr b vsh).

Definition mx_sub (insn : Z) : C unit :=
  let* a := RSs insn in let* b := RTs insn in
  CHKOVF (a - b) (RDx insn (a - b)).

Definition mx_subu (insn : Z) : C unit :=
  let* a := RSu insn in let* b := RTu insn in
  RDx insn (u32 (a - b)).

Definition mx_xor (insn : Z) : C unit :=
  let* a := RSu insn in let* b := RTu insn in
  RDx insn (Z.lxor a b).

Definition mx_xori (insn : Z) : C unit :=
  let* a := RSu insn in
  RTx insn (Z.lxor a (NEEDIMM insn)).

(** ** Jumps and branches: [smm<<2] is the two's complement shift *)
Definition branch_if (b : bool) (insn : Z) : C unit := if b then rbranch (i32 (Z.shiftl (NEEDSMM insn) 2)) else mret tt.

Definition mx_beq (insn : Z) : C unit :=
  let* a := RSu insn in let* b := RTu insn in
  branch_if (a =? b) insn.

Definition mx_bne (insn : Z) : C unit :=
  let* a := RSu insn in let* b := RTu insn in
  branch_if (negb (a =? b)) insn.

Definition mx_bgez (insn : Z) : C unit := let* a := RSs insn in branch_if (a >=? 0) insn.
Definition mx_bltz (insn : Z) : C unit := let* a := RSs insn in branch_if (a <? 0) insn.
Definition mx_bgtz (insn : Z) : C unit := let* a := RSs insn in branch_if (a >? 0) insn.
Definition mx_blez (insn : Z) : C unit := let* a := RSs insn in branch_if (a <=? 0) insn.
Definition mx_bgezal (insn : Z) : C unit := let* _ := LINK in mx_bgez insn.
Definition mx_bltzal (insn : Z) : C unit := let* _ := LINK in mx_bltz insn.
Definition mx_j (insn : Z) : C unit := ibranch (Z.shiftl (NEEDTARG insn) 2).

Definition mx_jal (insn : Z) : C unit :=
  let* _ := LINK in
  ibranch (Z.shiftl (NEEDTARG insn) 2).

Definition mx_jr (insn : Z) : C unit :=
  let* a := RSu insn in
  abranch a.

Definition mx_jalr (insn : Z) : C unit :=
  let* _ := LINK2 (NEEDRD insn) in
  let* a := RSu insn in
  abranch a.

(** ** Loads and stores *)
Definition load_with (ms : memstyles) (insn : Z) : C unit :=
  let* addr := ADDR insn in
  let* old := RTu insn in
  let* v := doload ms addr old in
  match v with
  | None => mret tt
  | Some x => RTx insn x
  end.

Definition store_with (ms : memstyles) (insn : Z) : C unit :=
  let* addr := ADDR insn in
  let* val := RTu insn in
  dostore ms addr val.

Definition mx_lb (insn : Z) : C unit := load_with S_SBYTE insn.
Definition mx_lbu (insn : Z) : C unit := load_with S_UBYTE insn.
Definition mx_lh (insn : Z) : C unit := load_with S_SHALF insn.
Definition mx_lhu (insn : Z) : C unit := load_with S_UHALF insn.
Definition mx_lwl (insn : Z) : C unit := load_with S_WORDL insn.
Definition mx_lwr (insn : Z) : C unit := load_with S_WORDR insn.

Definition mx_lw (insn : Z) : C unit :=
  let* addr := ADDR insn in
  let* v := domem addr None false in
  match v with
  | None => mret tt
  | Some x => RTx insn x
  end.

Definition mx_sb (insn : Z) : C unit := store_with S_UBYTE insn.
Definition mx_sh (insn : Z) : C unit := store_with S_UHALF insn.
Definition mx_swl (insn : Z) : C unit := store_with S_WORDL insn.
Definition mx_swr (insn : Z) : C unit := store_with S_WORDR insn.

Definition mx_sw (insn : Z) : C unit :=
  let* addr := ADDR insn in
  let* val := RTu insn in
  let* _ := domem addr (Some val) true in
  mret tt.

Definition mx_lwc (insn : Z) : C unit := let* addr := ADDR insn in dolwc (NEEDCN insn) addr (NEEDRT insn).
Definition mx_swc (insn : Z) : C unit := let* addr := ADDR insn in doswc (NEEDCN insn) addr (NEEDRT insn).

(** ** System instructions *)
Definition mx_bcf (insn : Z) : C unit := exception EX_CPU (NEEDCN insn) 0.
Definition mx_bct (insn : Z) : C unit := exception EX_CPU (NEEDCN insn) 0.
Definition mx_cf (insn : Z) : C unit := exception EX_CPU (NEEDCN insn) 0.
Definition mx_ct (insn : Z) : C unit := exception EX_CPU (NEEDCN insn) 0.
Definition mx_break (insn : Z) : C unit := exception EX_BP 0 0.
Definition mx_syscall (insn : Z) : C unit := exception EX_SYS 0 0.
Definition mx_ill (insn : Z) : C unit := exception EX_RI 0 0.
Definition mx_mf (insn : Z) : C unit := domf (NEEDCN insn) (NEEDRD insn) (NEEDRT insn).
Definition mx_mt (insn : Z) : C unit := let* b := RTs insn in domt (NEEDCN insn) (NEEDRD insn) b.
Definition mx_rfe (insn : Z) : C unit := do_rfe.
Definition mx_wait (insn : Z) : C unit := do_wait.
Definition mx_tlbp (insn : Z) : C unit := probetlb.

Definition mx_tlbr (insn : Z) : C unit :=
  let* m := gets get_mmu in
  match tlb m !! Z.to_nat (tlbindex m) with
  | None => lift Undef
  | Some e => modify (set_mmu (set_tlbentry e m))
  end.

Definition mx_tlbwi (insn : Z) : C unit :=
  let* m := gets get_mmu in
  writetlb (tlbindex m).

Definition mx_tlbwr (insn : Z) : C unit :=
  let* _ := getrandom in
  let* m := gets get_mmu in
  writetlb (tlbrandom m + RANDREG_OFFSET).

Definition mx_copz (insn : Z) : C unit :=
  let cn := NEEDCN insn in
  if negb (cn =? 0) then exception EX_CPU cn 0
  else
    let* user := gets IS_USERMODE in
    if (user : bool) then exception EX_CPU cn 0
    else
      let copop := Z.shiftr (Z.land insn 0x03e00000) 21 in
      if negb (Z.land copop 0x10 =? 0) then
        switch (Z.land insn 0x01ffffff) [
          (1, mx_tlbr insn); (2, mx_tlbwi insn); (6, mx_tlbwr insn); (8, mx_tlbp insn); (16, mx_rfe insn); (32, mx_wait insn)]
          (mx_ill insn)
      else
        let bc := if negb (Z.land insn 0x00010000 =? 0) then mx_bcf insn else mx_bct insn in
        switch copop [(0, mx_mf insn); (2, mx_cf insn); (4, mx_mt insn); (6, mx_ct insn); (8, bc); (12, bc)] (mx_ill insn).

(** ** Decoding *)
Definition OPS_BREAK : Z := 13.

(** The cases of the function field, BREAK apart. *)
Definition special (insn : Z) : C unit :=
  switch (Z.land insn 0x3f) [
    (0, mx_sll insn); (2, mx_srl insn); (3, mx_sra insn); (4, mx_sllv insn); (6, mx_srlv insn); (7, mx_srav insn);
    (8, mx_jr insn); (9, mx_jalr insn); (12, mx_syscall insn);
    (16, mx_mfhi insn); (17, mx_mthi insn); (18, mx_mflo insn); (19, mx_mtlo insn);
    (24, mx_mult insn); (25, mx_multu insn); (26, mx_div insn); (27, mx_divu insn);
    (32, mx_add insn); (33, mx_addu insn); (34, mx_sub insn); (35, mx_subu insn);
    (36, mx_and insn); (37, mx_or insn); (38, mx_xor insn); (39, mx_nor insn); (42, mx_slt insn); (43, mx_sltu insn)]
    (mx_ill insn).

Definition bcond (insn : Z) : C unit :=
  switch (Z.shiftr (Z.land insn 0x001f0000) 16) [
    (0, mx_bltz insn); (1, mx_bgez insn); (16, mx_bltzal insn); (17, mx_bgezal insn)]
    (mx_ill insn).

Definition dispatch (op insn : Z) : C unit :=
  switch op [
    (0, special insn); (1, bcond insn); (2, mx_j insn); (3, mx_jal insn);
    (4, mx_beq insn); (5, mx_bne insn); (6, mx_blez insn); (7, mx_bgtz insn);
    (8, mx_addi insn); (9, mx_addiu insn); (10, mx_slti insn); (11, mx_sltiu insn);
    (12, mx_andi insn); (13, mx_ori insn); (14, mx_xori insn); (15, mx_lui insn);
    (16, mx_copz insn); (17, mx_copz insn); (18, mx_copz insn); (19, mx_copz insn);
    (32, mx_lb insn); (33, mx_lh insn); (34, mx_lwl insn); (35, mx_lw insn);
    (36, mx_lbu insn); (37, mx_lhu insn); (38, mx_lwr insn);
    (40, mx_sb insn); (41, mx_sh insn); (42, mx_swl insn); (43, mx_sw insn); (46, mx_swr insn);
    (48, mx_lwc insn); (49, mx_lwc insn); (50, mx_lwc insn); (51, mx_lwc insn);
    (56, mx_swc insn); (57, mx_swc insn); (58, mx_swc insn); (59, mx_swc insn)]
    (mx_ill insn).

(** gdb/gdb_fe.c: breakpoints outside the mapped segments go to the debugger. *)
Definition gdb_canhandle (pcaddr : Z) : C bool :=
  let* on := gets gdb_listening in
  mret (on && ((pcaddr >=? KSEG0) && (pcaddr <? KSEG2))).

(** ** The cycle *)

(** The exception PC for this cycle. *)
Definition begin_cycle (p : pcs) : pcs :=
  if jumping p then mkpcs false true (expc p) (pc p) (nextpc p) (pcoff p) (nextpcoff p) (pcpage p) (nextpcpage p)
  else mkpcs false (in_jumpdelay p) (pc p) (pc p) (nextpc p) (pcoff p) (nextpcoff p) (pcpage p) (nextpcpage p).

Definition set_expc (p : pcs) : pcs :=
  mkpcs (jumping p) (in_jumpdelay p) (pc p) (pc p) (nextpc p) (pcoff p) (nextpcoff p) (pcpage p) (nextpcpage p).

Definition irq_pending (s : machine D) : bool :=
  current_irqon (get_status s) &&
  (status_hardmask (get_status s) && negb (bus_interrupts (devices s) =? 0) ||
   negb (Z.land (status_softmask (get_status s)) (cause_softirq (get_exn s)) =? 0)).

Definition take_irq : C unit :=
  let* irq := gets irq_pending in
  if (irq : bool) then
    let* _ := exception EX_IRQ 0 0 in
    modify (fun s => set_pcs (set_expc (get_pcs s)) s)
  else mret tt.

Definition count_cycle : C unit :=
  modify (fun s =>
    let x := g_stats s in
    set_stats (if IS_USERMODE s then mkstats ((s_ucycles x + 1) `mod` 2 ^ 64) (s_kcycles x) (s_irqs x) (s_exns x)
               else mkstats (s_ucycles x) ((s_kcycles x + 1) `mod` 2 ^ 64) (s_irqs x) (s_exns x)) s).

(** The program counters move on; [false] when looking up the next page took an exception. *)
Definition advance (p : pcs) : pcs :=
  mkpcs (jumping p) (in_jumpdelay p) (expc p) (nextpc p) (u32 (nextpc p + 4)) (nextpcoff p) (nextpcoff p) (nextpcpage p) (nextpcpage p).

Definition step_pc (insn : Z) : C bool :=
  let* _ := modify (fun s => set_pcs (advance (get_pcs s)) s) in
  let* p := gets get_pcs in
  if Z.land (nextpc p) 0xfff =? 0 then
    if insn =? FULLOP_RFE then
      let* _ := modify (fun s => set_pcs (set_nextpcpage 0 None (get_pcs s)) s) in
      mret true
    else precompute_nextpc
  else
    let* _ := modify (fun s => set_pcs (set_nextpcpage (u32 (nextpcoff (get_pcs s) + 4)) (nextpcpage (get_pcs s)) (get_pcs s)) s) in
    mret true.

Definition down (n : Z) : Z := if n >? 0 then n - 1 else n.

(** [tlbrandom] is an [int] that only the instructions that use it bring back into range. *)
Definition end_cycle : C Z := fun s =>
  let g := get_regs s in
  let p := get_pcs s in
  let m := get_mmu s in
  if tlbrandom m =? 2 ^ 31 - 1 then Undef
  else
    Ok (1, set_mmu (mkmmu (tlb m) (tlbentry m) (tlbindex m) (tlbpf m) (tlbrandom m + 1))
             (set_pcs (mkpcs (jumping p) false (expc p) (pc p) (nextpc p) (pcoff p) (nextpcoff p) (pcpage p) (nextpcpage p))
               (set_regs (mkregs (r g) (lo g) (hi g) (down (lowait g)) (down (hiwait g))) s))).

Definition cpu_cycle : C Z :=
  let* _ := modify (fun s => set_pcs (begin_cycle (get_pcs s)) s) in
  let* _ := take_irq in
  let* _ := count_cycle in
  let* p := gets get_pcs in
  let* insn := bus_use_map (pcpage p) (pcoff p) in
  let* ok := step_pc insn in
  if negb (ok : bool) then mret 1
  else
    let op := Z.shiftr (Z.land insn 0xfc000000) 26 in
    let* p := gets get_pcs in
    let* dbg := (if (op =? 0) && (Z.land insn 0x3f =? OPS_BREAK) then gdb_canhandle (expc p) else mret false) in
    if (dbg : bool) then
      let* _ := phony_exception in
      let* _ := main_stop in
      mret 0
    else
      let* _ := (if (op =? 0) && (Z.land insn 0x3f =? OPS_BREAK) then mx_break insn else dispatch op insn) in
      end_cycle.

(** ** What the rest of the simulator calls *)

(** The registers at reset.  The code resets [tlb[NTLB]], one entry past the array, which is [tlbentry]. *)
Definition reset_regs : regs := mkregs (replicate NREGS 0) 0 0 0 0.

Definition reset_pcs (p : pcs) : pcs :=
  mkpcs false false 0 0xbfc00000 0xbfc00004 (pcoff p) (nextpcoff p) (pcpage p) (nextpcpage p).

Definition reset_mmu (m : mmu) : mmu :=
  mkmmu ((fun i => reset_tlbentry (Z.of_nat i)) <$> seq 0 NTLB) (reset_tlbentry (Z.of_nat NTLB)) 0 (tlbpf m) (RANDREG_MAX - 1).

Definition reset_status : status := mkstatus false false false false false false false 0 0x00400000.
Definition reset_exn : exn := mkexn false 0 0 0 0 0 0 0x03ff.

Definition mips_init : C unit :=
  let* _ := modify (fun s => set_pcs (reset_pcs (get_pcs s)) (set_regs reset_regs s)) in
  let* ok := precompute_pc in
  if negb (ok : bool) then panic
  else
    let* ok := precompute_nextpc in
    if negb (ok : bool) then panic
    else modify (fun s => set_exn reset_exn (set_status reset_status (set_mmu (reset_mmu (get_mmu s)) s))).

Definition cpu_init : C unit := mips_init.

Definition BETWEEN (addr size base top : Z) : bool := (addr >=? base) && (size <=? top - base) && (u32 (addr + size) <? top).

Definition cpu_get_load_paddr (vaddr size : Z) : option Z :=
  if negb (BETWEEN vaddr size KSEG0 KSEG2) then None
  else if vaddr >=? KSEG1 then Some (vaddr - KSEG1) else Some (vaddr - KSEG0).

Definition cpu_get_load_vaddr (paddr size : Z) : option Z :=
  if negb (BETWEEN paddr size 0 (KSEG1 - KSEG0)) then None else Some (paddr + KSEG0).

Definition cpu_set_entrypoint (addr : Z) : C unit :=
  let* addr := (if negb (Z.land addr 0x3 =? 0) then let* _ := hang in mret (Z.land addr 0xfffffffc) else mret addr) in
  let* _ := modify (fun s =>
    let p := get_pcs s in
    set_pcs (mkpcs (jumping p) (in_jumpdelay p) addr addr (u32 (addr + 4)) (pcoff p) (nextpcoff p) (pcpage p) (nextpcpage p)) s) in
  let* ok := precompute_pc in
  let* _ := (if negb (ok : bool) then hang else mret tt) in
  let* ok := precompute_nextpc in
  if negb (ok : bool) then hang else mret tt.

Definition cpu_set_stack (stackaddr argument : Z) : C unit :=
  let* _ := set_reg 29 stackaddr in
  set_reg 4 argument.

Definition cpudebug_get_bp_region : Z * Z := (KSEG0, KSEG2).

Definition cpudebug_fetch_byte (va : Z) : C (option Z) :=
  let* m := gets get_mmu in
  match debug_translatemem m (Z.land va 0xfffffffc) false with
  | None => mret None
  | Some pa => bus_mem_fetchbyte (Z.lor pa (Z.land va 3))
  end.

Definition cpudebug_fetch_word (va : Z) : C (option Z) :=
  let* m := gets get_mmu in
  match debug_translatemem m va false with
  | None => mret None
  | Some pa => bus_mem_fetch pa
  end.

Definition cpudebug_store_byte (va byte : Z) : C bool :=
  let* m := gets get_mmu in
  match debug_translatemem m va true with
  | None => mret false
  | Some pa => bus_mem_storebyte pa byte
  end.

Definition cpudebug_store_word (va word : Z) : C bool :=
  let* m := gets get_mmu in
  match debug_translatemem m va true with
  | None => mret false
  | Some pa => bus_mem_store pa word
  end.

Definition cpuprof_sample : C Z := gets (fun s => pc (get_pcs s)).
End insns.

End Mipsinsn.
