(* ===== verification/Mipssafe.v ===== *)
(** * The processor never breaks

    [good] is the type invariant of the simulated machine: every register has a value of its width, program counters are
    aligned, the TLB holds page addresses, and the pages of code the processor has cached are pages of memory.
    Every cycle preserves it.  The simulator can stop in four ways only: an instruction waits for the multiplier while
    the code it runs in has lost its mapping, the quotient of the smallest integer and -1,
    the counter of the random register at its maximum, and a device that stops it.  Nothing is assumed of the devices. *)
From stdpp Require Import base list gmap numbers.
From S2P Require Import Prelude Ram Mips Mipsinsn.
Local Open Scope Z_scope.

Module Mipssafe.
Import Mips Mipsinsn.

(** ** Words *)
Definition word (a : Z) : Prop := 0 ≤ a < 2 ^ 32.
Definition int32 (a : Z) : Prop := - 2 ^ 31 ≤ a < 2 ^ 31.

Lemma lor_bound n a b : 0 ≤ n → 0 ≤ a < 2 ^ n → 0 ≤ b < 2 ^ n → 0 ≤ Z.lor a b < 2 ^ n.
Proof.
  intros Hn Ha Hb. split; [apply Z.lor_nonneg; lia|]. destruct (decide (Z.lor a b = 0)) as [->|Hz]; [lia|].
  assert (0 < Z.lor a b) as Hp by (pose proof (proj2 (Z.lor_nonneg a b) ltac:(lia)); lia).
  apply Z.log2_lt_pow2; [done|]. rewrite Z.log2_lor by lia.
  assert (∀ x, 0 ≤ x < 2 ^ n → x ≠ 0 → Z.log2 x < n) as Hl by (intros x Hx Hx0; apply Z.log2_lt_pow2; lia).
  destruct (decide (a = 0)) as [->|Ha0].
  - rewrite Z.lor_0_l in Hz. specialize (Hl b Hb Hz). cbn. pose proof (Z.log2_nonneg b). lia.
  - destruct (decide (b = 0)) as [->|Hb0].
    + specialize (Hl a Ha Ha0). cbn. pose proof (Z.log2_nonneg a). lia.
    + pose proof (Hl a Ha Ha0). pose proof (Hl b Hb Hb0). lia.
Qed.

Lemma land_bound a b : 0 ≤ a → 0 ≤ Z.land a b ≤ a.
Proof.
  intros Ha. split; [apply Z.land_nonneg; by left|].
  assert (Z.land (Z.ldiff a b) (Z.land a b) = 0) as Hd.
  { apply Z.bits_inj'. intros i Hi. rewrite !Z.land_spec, Z.ldiff_spec, Z.bits_0. by destruct (Z.testbit a i), (Z.testbit b i). }
  pose proof (Z.add_lor_land (Z.ldiff a b) (Z.land a b)) as E. rewrite Hd, Z.lor_ldiff_and in E.
  pose proof (proj2 (Z.ldiff_nonneg a b) (or_introl Ha)). lia.
Qed.

Lemma word_lor a b : word a → word b → word (Z.lor a b).
Proof. apply lor_bound. lia. Qed.

Lemma word_land a b : word a → word (Z.land a b).
Proof. intros Ha. unfold word in *. pose proof (land_bound a b ltac:(lia)). lia. Qed.

Lemma word_land_r a b : word b → word (Z.land a b).
Proof. rewrite Z.land_comm. apply word_land. Qed.

Lemma word_shiftr a n : 0 ≤ n → word a → word (Z.shiftr a n).
Proof.
  intros Hn Ha. unfold word in *. rewrite Z.shiftr_div_pow2 by done. pose proof (Z.pow_pos_nonneg 2 n ltac:(lia) Hn).
  split; [apply Z.div_pos; lia|]. apply Z.div_lt_upper_bound; nia.
Qed.

Lemma word_u32 a : word (u32 a).
Proof. apply u32_range. Qed.

Lemma int32_i32 a : int32 (i32 a).
Proof. apply i32_range. Qed.

Lemma word_flag b m : word m → word (flag b m).
Proof. by destruct b. Qed.

Create HintDb mips discriminated.
#[export] Hint Resolve word_lor word_land word_shiftr word_u32 int32_i32 word_flag : mips.

Lemma land3 a : Z.land a 3 = a `mod` 4.
Proof. apply (Z.land_ones a 2). lia. Qed.

Lemma land_fff a : Z.land a 0xfff = a `mod` 4096.
Proof. apply (Z.land_ones a 12). lia. Qed.

Lemma land_frame a : word a → Z.land a 0xfffff000 = a - a `mod` 4096.
Proof. apply Ram.land_high. Qed.

Lemma land_fffc a : word a → Z.land a 0xfffffffc = a - a `mod` 4.
Proof.
  intros Ha. change 0xfffffffc with (Z.ldiff (Z.ones 32) (Z.ones 2)).
  assert (Z.land a (Z.ldiff (Z.ones 32) (Z.ones 2)) = Z.ldiff a (Z.ones 2)) as ->.
  { rewrite <- (Z.mod_small a (2 ^ 32)) at 2 by done. rewrite <- Z.land_ones by lia. apply Z.bits_inj'. intros i Hi.
    rewrite !Z.ldiff_spec, !Z.land_spec, Z.ldiff_spec. by destruct (Z.testbit a i), (Z.testbit (Z.ones 32) i). }
  rewrite Z.ldiff_ones_r, Z.shiftl_mul_pow2, Z.shiftr_div_pow2 by lia. change (2 ^ 2) with 4.
  pose proof (Z.div_mod a 4 ltac:(lia)). lia.
Qed.

(** A multiple of 4 below a multiple of 4096. *)
Definition aligned (a : Z) : Prop := word a ∧ a `mod` 4 = 0.

Lemma mod4_of_4096 a : (a `mod` 4096) `mod` 4 = a `mod` 4.
Proof. apply Z.mod_mod_divide. by exists 1024. Qed.

Lemma aligned_next a : aligned a → aligned (u32 (a + 4)).
Proof.
  intros [Hw Ha]. split; [apply word_u32|]. unfold u32. change (2 ^ 32) with (4 * 2 ^ 30).
  rewrite Z.rem_mul_r by lia. rewrite Z.mul_comm, Z.mod_add by lia. rewrite Z.mod_mod by lia. rewrite <- Z.add_mod_idemp_l, Ha by lia. done.
Qed.

(** ** Running code that may stop the simulator

    [safe dev pan und m Q s]: [m] ends in [Q]; it may abort only if [pan], and has undefined behaviour only if [und].  When [dev], an
    access to a device may fail in these ways or never return; otherwise [m] does not run forever. *)
Definition safe {S A} (dev pan und : Prop) (m : M S A) (Q : A → S → Prop) (s : S) : Prop :=
  match m s with
  | Ok (a, s') => Q a s'
  | Panic => pan ∨ dev
  | Undef => und ∨ dev
  | Spin => dev
  end.

Section safe_rules.
Context {S : Type} (dev pan und : Prop).

Lemma safe_bind {A B} (m : M S A) (f : A → M S B) Q s :
  safe dev pan und m (fun a s' => safe dev pan und (f a) Q s') s → safe dev pan und (mbind f m) Q s.
Proof. unfold safe, mbind, M_bind. by destruct (m s) as [[]| | |]. Qed.

Lemma safe_mono {A} (m : M S A) (P Q : A → S → Prop) s :
  safe dev pan und m P s → (∀ a s', P a s' → Q a s') → safe dev pan und m Q s.
Proof. unfold safe. destruct (m s) as [[]| | |]; naive_solver. Qed.

Lemma safe_ok {A} (m : M S A) (Q : A → S → Prop) s a s' : m s = Ok (a, s') → Q a s' → safe dev pan und m Q s.
Proof. intros E ?. unfold safe. by rewrite E. Qed.

Lemma safe_then {A B} (m : M S A) (f : A → M S B) P Q s :
  safe dev pan und m P s → (∀ a s', P a s' → safe dev pan und (f a) Q s') → safe dev pan und (mbind f m) Q s.
Proof. intros Hm Hf. apply safe_bind. by eapply safe_mono. Qed.

Lemma safe_if {A} (b : bool) (m1 m2 : M S A) Q s :
  (b = true → safe dev pan und m1 Q s) → (b = false → safe dev pan und m2 Q s) → safe dev pan und (if b then m1 else m2) Q s.
Proof. destruct b; auto. Qed.

Lemma safe_switch {A} x (cases : list (Z * M S A)) d Q s :
  (∀ k m, x = k → (k, m) ∈ cases → safe dev pan und m Q s) → safe dev pan und d Q s → safe dev pan und (switch x cases d) Q s.
Proof.
  intros Hc Hd. induction cases as [|[k m] cases IH]; cbn; [done|]. apply safe_if.
  - intros E%Z.eqb_eq. apply (Hc k m E). left.
  - intros _. apply IH. intros k' m' E Hin. apply (Hc k' m' E). by right.
Qed.
End safe_rules.

Lemma safe_weaken {S A} (d1 p1 u1 d2 p2 u2 : Prop) (m : M S A) Q s :
  safe d1 p1 u1 m Q s → (d1 → d2) → (p1 → p2) → (u1 → u2) → safe d2 p2 u2 m Q s.
Proof. unfold safe. destruct (m s) as [[]| | |]; naive_solver. Qed.

(** ** The invariant *)
Definition regs_ok (g : regs) : Prop :=
  length (r g) = NREGS ∧ Forall int32 (r g) ∧ int32 (lo g) ∧ int32 (hi g) ∧ 0 ≤ lowait g ≤ 2 ∧ 0 ≤ hiwait g ≤ 2.

Definition pcs_ok (p : pcs) : Prop := aligned (expc p) ∧ aligned (pc p) ∧ aligned (nextpc p).

Definition mt_ok (e : mipstlb) : Prop :=
  word (mt_pfn e) ∧ mt_pfn e `mod` 4096 = 0 ∧ word (mt_vpn e) ∧ mt_vpn e `mod` 4096 = 0 ∧ word (mt_pid e).

Definition status_ok (x : status) : Prop := word (status_softmask x) ∧ word (status_bits x).

Definition exn_ok (e : exn) : Prop :=
  word (cause_ce e) ∧ word (cause_softirq e) ∧ word (cause_code e) ∧ word (ex_context e) ∧ word (ex_epc e) ∧ word (ex_vaddr e) ∧
  word (ex_prid e).

Definition ram_ok (m : gmap Z Z) : Prop := ∀ a b, m !! a = Some b → 0 ≤ b < 256.

(** The size of memory, as bus_config of lamebus.c checks it. *)
Definition size_ok (n : Z) : Prop := 0 < n ≤ 2 ^ 24 ∧ n `mod` 4096 = 0.

(** A cached page and the offset in it, for the address [a]. *)
Definition page_ok (size : Z) (pg : option page) (off a : Z) : Prop :=
  off = a `mod` 4096 ∧
  match pg with
  | None => False
  | Some (RamPage o) => 0 ≤ o < size ∧ o `mod` 4096 = 0
  | Some (RomPage i) => i = 0
  end.

Section proofs.
Context {D : Type} `{Bus D}.
Implicit Types s : machine D.

(** [B] bounds the counter of the random register, which each cycle raises by one. *)
Context (B : Z) (HB : 55 ≤ B < 2 ^ 31).

Definition mmu_ok (m : mmu) : Prop :=
  length (tlb m) = NTLB ∧ Forall mt_ok (tlb m) ∧ mt_ok (tlbentry m) ∧ 0 ≤ tlbindex m < 64 ∧ 0 ≤ tlbrandom m ≤ B.

Record core s : Prop := {
  co_regs : regs_ok (get_regs s);
  co_pcs : pcs_ok (get_pcs s);
  co_mmu : mmu_ok (get_mmu s);
  co_status : status_ok (get_status s);
  co_exn : exn_ok (get_exn s);
  co_ram : ram_ok (ram s);
  co_size : size_ok (bus_ramsize s)
}.

Definition pc_ok s : Prop := page_ok (bus_ramsize s) (pcpage (get_pcs s)) (pcoff (get_pcs s)) (pc (get_pcs s)).
Definition nextpc_ok s : Prop := page_ok (bus_ramsize s) (nextpcpage (get_pcs s)) (nextpcoff (get_pcs s)) (nextpc (get_pcs s)).

(** Both pages are there: an instruction may run. *)
Definition ready s : Prop := core s ∧ pc_ok s ∧ nextpc_ok s.

(** The instruction the processor is about to fetch. *)
Definition insn_at s (v : Z) : Prop := bus_use_map (pcpage (get_pcs s)) (pcoff (get_pcs s)) s = Ok (v, s).

(** Between instructions, the page of the target of a jump is not there yet when the delay slot is RFE. *)
Definition settled s : Prop := core s ∧ pc_ok s ∧ (nextpc_ok s ∨ nextpcpage (get_pcs s) = None ∧ insn_at s FULLOP_RFE).

(** The invariant between cycles. *)
Definition good s : Prop := settled s ∧ in_jumpdelay (get_pcs s) = false.

Lemma ready_settled s : ready s → settled s.
Proof. intros (? & ? & ?). by split_and!; [| |left]. Qed.

(** ** Exceptions *)
Definition handler_page (boot : bool) : page := if boot then RomPage 0 else RamPage 0.

(** Where an exception leaves the program counters. *)
Definition at_vector (v : Z) (boot : bool) (p : pcs) : pcs :=
  mkpcs false false (expc p) v (v + 4) (v `mod` 4096) (v `mod` 4096 + 4) (Some (handler_page boot)) (Some (handler_page boot)).

Definition entered (code cn va : Z) (s : machine D) : machine D :=
  let boot := has (status_bits (get_status s)) 0x00400000 in
  set_pcs (at_vector (vector boot code cn) boot (get_pcs s)) (enter code cn va s).

Lemma translate_kseg exc s va w :
  current_usermode (get_status s) = false → Z.shiftr va 30 = 2 → Z.land va 3 = 0 →
  translatemem_with exc va w s = Ok (Some (Z.land va 0x1fffffff), s).
Proof.
  intros Hu Hseg Ha. unfold translatemem_with, mbind, M_bind, gets. unfold IS_USERMODE. rewrite Hu, Hseg, Ha, andb_false_r. done.
Qed.

Lemma precompute_pc_ok exc s s1 pa pg :
  translatemem_with exc (pc (get_pcs s)) false s = Ok (Some pa, s1) → mapmem (bus_ramsize s1) pa = Some pg →
  precompute_pc_with exc s = Ok (true, set_pcs (set_pcpage (Z.land pa 0xfff) (Some pg) (get_pcs s1)) s1).
Proof.
  intros Et Em. unfold precompute_pc_with. erewrite bind_ok by reflexivity. erewrite bind_ok by exact Et. cbv iota.
  erewrite bind_ok by reflexivity. rewrite Em. erewrite bind_ok by reflexivity. cbv iota. reflexivity.
Qed.

Lemma precompute_nextpc_ok exc s s1 pa pg :
  translatemem_with exc (nextpc (get_pcs s)) false s = Ok (Some pa, s1) → mapmem (bus_ramsize s1) pa = Some pg →
  precompute_nextpc_with exc s = Ok (true, set_pcs (set_nextpcpage (Z.land pa 0xfff) (Some pg) (get_pcs s1)) s1).
Proof.
  intros Et Em. unfold precompute_nextpc_with. erewrite bind_ok by reflexivity. erewrite bind_ok by exact Et. cbv iota.
  erewrite bind_ok by reflexivity. rewrite Em. erewrite bind_ok by reflexivity. cbv iota. reflexivity.
Qed.

Lemma vector_cases boot code cn :
  vector boot code cn = (if boot then 0xbfc00100 else 0x80000000) ∨ vector boot code cn = (if boot then 0xbfc00180 else 0x80000080).
Proof. unfold vector. destruct (_ && _); auto. Qed.

(** The handler is in memory that is always there. *)
Lemma vector_map boot code cn size :
  0 < size →
  let v := vector boot code cn in
  Z.shiftr v 30 = 2 ∧ Z.land v 3 = 0 ∧ mapmem size (Z.land v 0x1fffffff) = Some (handler_page boot) ∧ Z.land (Z.land v 0x1fffffff) 0xfff = v `mod` 4096 ∧
  u32 (v + 4) = v + 4 ∧ Z.shiftr (v + 4) 30 = 2 ∧ Z.land (v + 4) 3 = 0 ∧
  mapmem size (Z.land (v + 4) 0x1fffffff) = Some (handler_page boot) ∧ Z.land (Z.land (v + 4) 0x1fffffff) 0xfff = v `mod` 4096 + 4.
Proof.
  intros Hs. assert (bus_mem_map size 0 = Some (RamPage 0)) as E.
  { unfold bus_mem_map. destruct (Z.geb_spec 0 size); [lia|done]. }
  destruct (vector_cases boot code cn) as [-> | ->]; destruct boot; cbv zeta; split_and!; try reflexivity; exact E.
Qed.

Lemma exception_eq fuel code cn va s :
  0 < bus_ramsize s → exception_loop (S fuel) code cn va s = Ok (tt, entered code cn va s).
Proof.
  intros Hs. set (boot := has (status_bits (get_status s)) 0x00400000).
  destruct (vector_map boot code cn (bus_ramsize s) Hs) as (V1 & V2 & V3 & V4 & V5 & V6 & V7 & V8 & V9).
  cbn [exception_loop]. erewrite bind_ok by reflexivity. set (s1 := enter code cn va s).
  erewrite bind_ok; [|eapply precompute_pc_ok; [by apply translate_kseg|exact V3]].
  set (s2 := set_pcs _ s1). assert (nextpc (get_pcs s2) = vector boot code cn + 4) as En by exact V5.
  erewrite bind_ok; [|eapply precompute_nextpc_ok; [rewrite En; by apply translate_kseg|exact V8]].
  unfold mret, M_ret. do 3 f_equal. unfold at_vector, s2, set_pcpage, set_nextpcpage. cbn. fold boot. by rewrite V4, V9, V5.
Qed.

Lemma exception_run code cn va s :
  0 < bus_ramsize s → exception code cn va s = Ok (tt, entered code cn va s).
Proof. apply exception_eq. Qed.

(** What may be passed to [exception]. *)
Definition exn_args (code cn va : Z) : Prop := 0 ≤ code ≤ 12 ∧ 0 ≤ cn ≤ 3 ∧ word va.

Lemma vector_aligned boot code cn : aligned (vector boot code cn) ∧ vector boot code cn + 4 < 2 ^ 32.
Proof. destruct (vector_cases boot code cn) as [-> | ->]; by destruct boot. Qed.

Lemma handler_ok size boot v : 0 < size → page_ok size (Some (handler_page boot)) (v `mod` 4096) v.
Proof. intros. split; [done|]. by destruct boot. Qed.

Lemma exn_regs_ok code cn va p e : exn_args code cn va → pcs_ok p → exn_ok e → exn_ok (exn_regs code cn va p e).
Proof.
  intros (Hc & Hn & Hv) ((He & _) & _ & _) (E1 & E2 & E3 & E4 & E5 & E6 & E7). unfold exn_ok, exn_regs. cbn.
  split_and!; try done.
  - destruct (code =? EX_CPU); [apply word_u32|done].
  - unfold word. rewrite Z.shiftl_mul_pow2 by lia. lia.
  - apply word_lor; [by apply word_land|]. apply word_shiftr; [lia|]. by apply word_land.
Qed.

Lemma entered_ready code cn va s : core s → exn_args code cn va → ready (entered code cn va s) ∧ in_jumpdelay (get_pcs (entered code cn va s)) = false.
Proof.
  intros Hc Ha. pose proof Hc as [C1 C2 C3 C4 C5 C6 C7]. destruct (vector_aligned (has (status_bits (get_status s)) 0x00400000) code cn) as [V1 V2].
  assert (0 < bus_ramsize s) as Hs by apply C7. pose proof (aligned_next _ V1) as V3. rewrite u32_small in V3 by (destruct V1; unfold word in *; lia).
  split; [split_and!|done].
  - constructor; try done; [|by apply exn_regs_ok]. split_and!; [apply C2|exact V1|exact V3].
  - by apply handler_ok.
  - unfold nextpc_ok, entered. cbn. pose proof (handler_ok (bus_ramsize s) (has (status_bits (get_status s)) 0x00400000)
      (vector (has (status_bits (get_status s)) 0x00400000) code cn + 4) Hs) as [_ Hp]. split; [|exact Hp].
    destruct (vector_cases (has (status_bits (get_status s)) 0x00400000) code cn) as [-> | ->]; by destruct (has _ _).
Qed.

(** ** Translation *)
Definition matches (m : mmu) (vpage : Z) (e : mipstlb) : Prop :=
  mt_vpn e = vpage ∧ (mt_pid e = mt_pid (tlbentry m) ∨ mt_global e = true).

Lemma findtlb_from_Some i l pid vpage ix :
  findtlb_from i l pid vpage = Some ix →
  i ≤ ix < i + Z.of_nat (length l) ∧ ∃ e, l !! Z.to_nat (ix - i) = Some e ∧ mt_vpn e = vpage ∧ (mt_pid e = pid ∨ mt_global e = true).
Proof.
  revert i. induction l as [|e l IH]; intros i; cbn [findtlb_from]; [done|]. intros Hf.
  assert (findtlb_from (i + 1) l pid vpage = Some ix → i ≤ ix < i + Z.of_nat (length (e :: l)) ∧
    ∃ e0, (e :: l) !! Z.to_nat (ix - i) = Some e0 ∧ mt_vpn e0 = vpage ∧ (mt_pid e0 = pid ∨ mt_global e0 = true)) as Hr.
  { intros Hr. destruct (IH _ Hr) as (Hx & e0 & He & Hm). split; [cbn [length]; lia|]. exists e0. split; [|done].
    replace (Z.to_nat (ix - i)) with (S (Z.to_nat (ix - (i + 1)))) by lia. done. }
  destruct (Z.eqb_spec (mt_vpn e) vpage) as [Hv|]; cbn [negb] in Hf; [|auto].
  destruct ((mt_pid e =? pid) || mt_global e) eqn:Ep; [|auto]. injection Hf as <-. split; [cbn [length]; lia|]. exists e.
  rewrite Z.sub_diag. split_and!; [done|done|]. apply orb_true_iff in Ep as [?%Z.eqb_eq|]; auto.
Qed.

Lemma findtlb_Some m vpage ix :
  mmu_ok m → findtlb m vpage = Some ix → 0 ≤ ix < 64 ∧ ∃ e, tlb m !! Z.to_nat ix = Some e ∧ matches m vpage e ∧ mt_ok e.
Proof.
  intros (M1 & M2 & _) Hf. destruct (findtlb_from_Some _ _ _ _ _ Hf) as (Hx & e & He & Hv & Hp).
  rewrite M1, Z.sub_0_r in *. change (Z.of_nat NTLB) with 64 in Hx. split; [lia|]. exists e. split_and!; try done. by eapply Forall_lookup_1.
Qed.

(** The translation of an address in the current mode, if it has one. *)
Definition translated s (va : Z) (w : bool) : option Z :=
  if (va >=? 0x80000000) && IS_USERMODE s then None else debug_translatemem (get_mmu s) va w.

(** A translation through the TLB leaves the page number in the entry register. *)
Definition touch (va : Z) s : machine D :=
  if Z.shiftr va 30 =? 2 then s else set_mmu (set_vpn (Z.land va 0xfffff000) (get_mmu s)) s.

Lemma findtlb_touch va m vpage : findtlb (set_vpn va m) vpage = findtlb m vpage.
Proof. done. Qed.

Lemma translatemem_run va w s :
  core s → word va →
  match translated s va w with
  | Some pa => translatemem va w s = Ok (Some pa, touch va s)
  | None => ∃ code cn s1, (s1 = s ∨ s1 = touch va s) ∧ exn_args code cn va ∧ translatemem va w s = Ok (None, entered code cn va s1)
  end.
Proof.
  intros Hc Hva. assert (0 < bus_ramsize s) as Hs by apply (co_size _ Hc). pose proof (co_mmu _ Hc) as Hm.
  assert (∀ code cn s1, (s1 = s ∨ s1 = touch va s) → 0 ≤ code ≤ 12 → 0 ≤ cn ≤ 3 → 0 < bus_ramsize s1 →
    translatemem va w s = (let* _ := exception code cn va in mret None) s1 →
    ∃ code cn s1, (s1 = s ∨ s1 = touch va s) ∧ exn_args code cn va ∧ translatemem va w s = Ok (None, entered code cn va s1)) as Hexc.
  { intros code cn s1 H1 H2 H3 H4 E. exists code, cn, s1. split; [done|]. split; [done|]. rewrite E. erewrite bind_ok by (by apply exception_run). done. }
  unfold translated, debug_translatemem. unfold translatemem, translatemem_with in *.
  destruct ((va >=? 0x80000000) && IS_USERMODE s) eqn:Eu; cbn [orb].
  { apply (Hexc (if w then EX_ADES else EX_ADEL) 0 s); [by left|by destruct w|lia|done|].
    unfold mbind at 1, M_bind at 1, gets at 1. rewrite Eu. done. }
  destruct (Z.land va 3 =? 0) eqn:Ea; cbn [negb orb].
  2: { apply (Hexc (if w then EX_ADES else EX_ADEL) 0 s); [by left|by destruct w|lia|done|].
    unfold mbind at 1, M_bind at 1, gets at 1. rewrite Eu. done. }
  erewrite bind_ok in * by reflexivity. rewrite Eu in *. cbn [orb negb] in *. unfold touch in *.
  destruct (Z.shiftr va 30 =? 2) eqn:Eseg; [done|]. erewrite bind_ok in * by reflexivity. erewrite bind_ok in * by reflexivity.
  change (get_mmu (set_mmu ?x s)) with x in *. rewrite findtlb_touch in *.
  destruct (findtlb (get_mmu s) (Z.land va 0xfffff000)) as [ix|] eqn:Ef.
  2: { eapply Hexc; [by right| | |done|reflexivity]; [by destruct w|by destruct (va <? _)]. }
  destruct (findtlb_Some _ _ _ Hm Ef) as (Hix & e & He & _). cbn [tlb set_vpn] in *. rewrite He in *.
  destruct (mt_valid e); cbn [negb] in *.
  2: { eapply Hexc; [by right| | |done|reflexivity]; [by destruct w|lia]. }
  destruct (w && negb (mt_dirty e)); [|done]. eapply Hexc; [by right| | |done|reflexivity]; [done|lia].
Qed.

Lemma mmu_ok_entry m e : mmu_ok m → mt_ok e → mmu_ok (set_tlbentry e m).
Proof. intros (M1 & M2 & M3 & M4 & M5) He. by split_and!; [| | |apply M4..|apply M5|apply M5]. Qed.

Lemma frame_mod a : word a → word (Z.land a 0xfffff000) ∧ Z.land a 0xfffff000 `mod` 4096 = 0.
Proof.
  intros Ha. split; [by apply word_land|]. rewrite land_frame by done. rewrite Zminus_mod_idemp_r, Z.sub_diag. done.
Qed.

Lemma core_mmu s m : core s → mmu_ok m → core (set_mmu m s).
Proof. intros [C1 C2 C3 C4 C5 C6 C7] Hm. by constructor. Qed.

Lemma touch_core va s : word va → core s → core (touch va s).
Proof.
  intros Hva Hc. unfold touch. destruct (_ =? 2); [done|]. apply core_mmu; [done|].
  apply (mmu_ok_entry _ _ (co_mmu _ Hc)). destruct (frame_mod va Hva). destruct (co_mmu _ Hc) as (_ & _ & (T1 & T2 & T3 & T4 & T5) & _). by split_and!.
Qed.

Lemma touch_ready va s : word va → ready s → ready (touch va s).
Proof.
  intros Hva (Hc & Hp & Hn). split; [by apply touch_core|]. unfold touch. by destruct (_ =? 2).
Qed.

Lemma land_1fff a : Z.land a 0x1fffffff = a `mod` 2 ^ 29.
Proof. apply (Z.land_ones a 29). lia. Qed.

(** A physical address is in the page of the entry that matched, at the offset of the virtual address. *)
Lemma debug_translatemem_Some m va w pa :
  mmu_ok m → word va → debug_translatemem m va w = Some pa →
  va `mod` 4 = 0 ∧ word pa ∧ pa `mod` 4096 = va `mod` 4096 ∧
  (Z.shiftr va 30 = 2 ∧ pa = va `mod` 2 ^ 29 ∨
   Z.shiftr va 30 ≠ 2 ∧ ∃ e, e ∈ tlb m ∧ mt_ok e ∧ matches m (va - va `mod` 4096) e ∧ mt_valid e = true ∧ (w = true → mt_dirty e = true) ∧
     pa = mt_pfn e + va `mod` 4096).
Proof.
  intros Hm Hva. unfold debug_translatemem. rewrite land3. destruct (Z.eqb_spec (va `mod` 4) 0) as [Ha|]; [cbn [negb]|done].
  destruct (Z.eqb_spec (Z.shiftr va 30) 2) as [Es|Es].
  { intros [= <-]. rewrite land_1fff. split_and!; [done| | |by left].
    - pose proof (Z.mod_pos_bound va (2 ^ 29) ltac:(lia)). unfold word. lia.
    - apply Z.mod_mod_divide. by exists (2 ^ 17). }
  rewrite land_frame, land_fff by done.
  destruct (findtlb m (va - va `mod` 4096)) as [ix|] eqn:Ef; [|done]. destruct (findtlb_Some _ _ _ Hm Ef) as (_ & e & He & Hmt & Hok). rewrite He.
  destruct (mt_valid e) eqn:Ev; [cbn [negb]|done]. destruct (w && negb (mt_dirty e)) eqn:Ed; [done|]. intros [= <-].
  pose proof Hok as (P1 & P2 & _). pose proof (Z.mod_pos_bound va 4096 ltac:(lia)) as Hb. apply Z.mod_divide in P2; [|lia].
  rewrite Ram.lor_page by done. assert ((mt_pfn e + va `mod` 4096) `mod` 4096 = va `mod` 4096) as Eoff.
  { destruct P2 as [k ->]. rewrite Z.add_comm, Z.mod_add by lia. apply Z.mod_mod. lia. }
  split_and!; [done| |done|].
  - unfold word in *. destruct P2 as [k Hk]. lia.
  - right. split; [done|]. exists e. split_and!; try done; [by eapply list_elem_of_lookup_2|]. intros ->. by destruct (mt_dirty e).
Qed.

(** ** Looking up pages of code *)
Lemma mapmem_ok size pa pg a :
  word pa → pa `mod` 4096 = a `mod` 4096 → mapmem size pa = Some pg → page_ok size (Some pg) (Z.land pa 0xfff) a.
Proof.
  intros Hpa Ea Hm. split; [by rewrite land_fff|]. revert Hm. unfold mapmem. destruct (frame_mod pa Hpa) as [Hw Hz].
  set (f := Z.land pa 0xfffff000) in *. clearbody f. unfold word in Hw. assert (∀ o, 0 ≤ o → o `mod` 4096 = 0 → bus_mem_map size o = Some pg →
    match pg with RamPage o => 0 ≤ o < size ∧ o `mod` 4096 = 0 | RomPage i => i = 0 end) as Hram.
  { intros o Ho Hoz. unfold bus_mem_map. destruct (Z.geb_spec o size); [done|]. by intros [= <-]. }
  destruct (Z.ltb_spec f 0x1fc00000); [apply Hram; lia|]. destruct (Z.ltb_spec f 0x1fe00000).
  - unfold bootrom_map, ROMWORDS. destruct (Z.geb_spec (f - 0x1fc00000) (1024 * 4)); [done|]. intros [= <-].
    apply Z.mod_divide in Hz as [k Hk]; [|lia]. assert (f = 0x1fc00000) as -> by lia. done.
  - destruct (Z.ltb_spec f 0x20000000); [done|]. apply Hram; [lia|]. apply Z.mod_divide in Hz as [k Hk]; [|lia].
    apply Z.mod_divide; [lia|]. exists (k - 1024). lia.
Qed.

(** The same machine but for the entry register of the TLB and the cached pages. *)
Record near s s1 : Prop := {
  ne_regs : get_regs s1 = get_regs s;
  ne_jumping : jumping (get_pcs s1) = jumping (get_pcs s);
  ne_delay : in_jumpdelay (get_pcs s1) = in_jumpdelay (get_pcs s);
  ne_expc : expc (get_pcs s1) = expc (get_pcs s);
  ne_pc : pc (get_pcs s1) = pc (get_pcs s);
  ne_nextpc : nextpc (get_pcs s1) = nextpc (get_pcs s);
  ne_mmu : ∃ v, word v ∧ v `mod` 4096 = 0 ∧ get_mmu s1 = set_vpn v (get_mmu s);
  ne_status : get_status s1 = get_status s;
  ne_exn : get_exn s1 = get_exn s;
  ne_ram : ram s1 = ram s;
  ne_size : bus_ramsize s1 = bus_ramsize s;
  ne_dev : devices s1 = devices s;
  ne_stats : g_stats s1 = g_stats s;
  ne_flags : stop_flag s1 = stop_flag s ∧ gdb_listening s1 = gdb_listening s
}.

Lemma set_vpn_id m : set_vpn (mt_vpn (tlbentry m)) m = m.
Proof. by destruct m as [? []]. Qed.

Lemma near_refl s : core s → near s s.
Proof.
  intros Hc. constructor; try done. destruct (co_mmu _ Hc) as (_ & _ & (_ & _ & T3 & T4 & _) & _).
  eexists. split_and!; [exact T3|done|]. by rewrite set_vpn_id.
Qed.

Lemma near_trans s1 s2 s3 : near s1 s2 → near s2 s3 → near s1 s3.
Proof.
  intros [A1 A2 A3 A4 A5 A6 A7 A8 A9 A10 A11 A12 A13 A14] [B1 B2 B3 B4 B5 B6 B7 B8 B9 B10 B11 B12 B13 B14].
  constructor; try congruence.
  - destruct A7 as (v & _ & _ & E), B7 as (w & Hw & Hz & E'). exists w. split_and!; [done..|]. by rewrite E', E.
  - destruct A14, B14. split; congruence.
Qed.

Lemma near_touch va s : core s → word va → near s (touch va s).
Proof.
  intros Hc Hva. unfold touch. destruct (_ =? 2); [by apply near_refl|]. constructor; try done.
  destruct (frame_mod va Hva). eexists. split_and!; [| |reflexivity]; done.
Qed.

Lemma mmu_ok_vpn m v : mmu_ok m → word v → v `mod` 4096 = 0 → mmu_ok (set_vpn v m).
Proof.
  intros Hm Hv Hz. apply (mmu_ok_entry _ _ Hm). destruct Hm as (_ & _ & (T1 & T2 & T3 & T4 & T5) & _). by split_and!.
Qed.

Lemma near_core s s1 : core s → near s s1 → core s1.
Proof.
  intros [C1 C2 C3 C4 C5 C6 C7] [A1 A2 A3 A4 A5 A6 (v & Hv & Hz & A7) A8 A9 A10 A11 A12 A13 A14].
  constructor; rewrite ?A1, ?A7, ?A8, ?A9, ?A10, ?A11, ?A12; try done.
  - unfold pcs_ok. by rewrite A4, A5, A6.
  - by apply mmu_ok_vpn.
Qed.

(** An address code can be fetched from. *)
Definition fetchable s (a : Z) : Prop := ∃ pa pg, translated s a false = Some pa ∧ mapmem (bus_ramsize s) pa = Some pg.

(** How a lookup ends: the page is found, or an exception was taken. *)
Definition looked s (a : Z) (put : Z → option page → pcs → pcs) (res : outcome (bool * machine D)) : Prop :=
  (∃ pa pg, translated s a false = Some pa ∧ mapmem (bus_ramsize s) pa = Some pg ∧
     res = Ok (true, set_pcs (put (Z.land pa 0xfff) (Some pg) (get_pcs s)) (touch a s))) ∨
  (¬ fetchable s a ∧ ∃ code cn va s1, near s s1 ∧ exn_args code cn va ∧ res = Ok (false, entered code cn va s1)).

(** Both lookups, for the counter [ctr] and the page [sel] cached for it. *)
Definition lookup_with (ctr : pcs → Z) (off : pcs → Z) (sel : pcs → option page) (put : Z → option page → pcs → pcs) : M (machine D) bool :=
  let* p := gets get_pcs in
  let* t := translatemem (ctr p) false in
  match t with
  | None => mret false
  | Some pa =>
      let* size := gets bus_ramsize in
      let pg := mapmem size pa in
      let* _ := modify (fun s => set_pcs (put (off (get_pcs s)) pg (get_pcs s)) s) in
      match pg with
      | None =>
          let* _ := exception EX_IBE 0 0 in
          let* p := gets get_pcs in
          match sel p with
          | None => panic
          | Some _ => mret false
          end
      | Some _ =>
          let* _ := modify (fun s => set_pcs (put (Z.land pa 0xfff) pg (get_pcs s)) s) in
          mret true
      end
  end.

Lemma lookup_looked ctr off sel put s :
  core s → aligned (ctr (get_pcs s)) →
  (∀ s1 o pg, near s s1 → near s (set_pcs (put o pg (get_pcs s1)) s1)) →
  (∀ v b p, sel (at_vector v b p) ≠ None) →
  (∀ o pg o' pg' p, put o' pg' (put o pg p) = put o' pg' p) →
  looked s (ctr (get_pcs s)) put (lookup_with ctr off sel put s).
Proof.
  intros Hc [Hw _] Hput Hsel Hpp. set (a := ctr (get_pcs s)) in *. pose proof (translatemem_run a false s Hc Hw) as Ht. unfold looked, fetchable.
  assert (bus_ramsize (touch a s) = bus_ramsize s) as Es by (unfold touch; by destruct (_ =? 2)).
  assert (get_pcs (touch a s) = get_pcs s) as Ep by (unfold touch; by destruct (_ =? 2)).
  unfold lookup_with. erewrite bind_ok by reflexivity. fold a. destruct (translated s a false) as [pa|] eqn:Et.
  - erewrite bind_ok by exact Ht. cbv iota. erewrite bind_ok by reflexivity. rewrite Es. erewrite bind_ok by reflexivity.
    destruct (mapmem (bus_ramsize s) pa) as [pg|] eqn:Em.
    + left. exists pa, pg. split_and!; [done..|]. erewrite bind_ok by reflexivity. cbn [get_pcs set_pcs set_cpu mycpu c_pcs].
      rewrite Hpp. fold (get_pcs (touch a s)). by rewrite Ep.
    + right. split; [intros (pa' & pg & [= <-] & E); congruence|].
      set (s1 := set_pcs _ (touch a s)). erewrite bind_ok by (apply exception_run; cbn; rewrite Es; apply (co_size _ Hc)).
      exists EX_IBE, 0, 0, s1. split_and!; [by apply Hput, near_touch|done|]. erewrite bind_ok by reflexivity.
      change (get_pcs (entered EX_IBE 0 0 s1)) with (at_vector (vector (has (status_bits (get_status s1)) 0x00400000) EX_IBE 0)
        (has (status_bits (get_status s1)) 0x00400000) (get_pcs s1)).
      destruct (sel _) eqn:E; [done|]. by apply Hsel in E.
  - right. split; [by intros (pa & pg & ? & _)|]. destruct Ht as (code & cn & s1 & Hs1 & Ha & E). erewrite bind_ok by exact E. exists code, cn, a, s1.
    split_and!; [|done..]. destruct Hs1 as [-> | ->]; [by apply near_refl|by apply near_touch].
Qed.

Lemma near_put_pc s s1 o pg : near s s1 → near s (set_pcs (set_pcpage o pg (get_pcs s1)) s1).
Proof. intros [A1 A2 A3 A4 A5 A6 A7 A8 A9 A10 A11 A12 A13 A14]. by constructor. Qed.

Lemma near_put_nextpc s s1 o pg : near s s1 → near s (set_pcs (set_nextpcpage o pg (get_pcs s1)) s1).
Proof. intros [A1 A2 A3 A4 A5 A6 A7 A8 A9 A10 A11 A12 A13 A14]. by constructor. Qed.

Lemma precompute_pc_looked s : core s → looked s (pc (get_pcs s)) set_pcpage (precompute_pc s).
Proof.
  intros Hc. change precompute_pc with (lookup_with pc pcoff pcpage set_pcpage).
  apply lookup_looked; try done; [apply (co_pcs _ Hc)|]. intros s1 o pg. apply near_put_pc.
Qed.

Lemma precompute_nextpc_looked s : core s → looked s (nextpc (get_pcs s)) set_nextpcpage (precompute_nextpc s).
Proof.
  intros Hc. change precompute_nextpc with (lookup_with nextpc nextpcoff nextpcpage set_nextpcpage).
  apply lookup_looked; try done; [apply (co_pcs _ Hc)|]. intros s1 o pg. apply near_put_nextpc.
Qed.

Lemma translated_Some s a w pa :
  core s → word a → translated s a w = Some pa → a `mod` 4 = 0 ∧ word pa ∧ pa `mod` 4096 = a `mod` 4096.
Proof.
  intros Hc Ha. unfold translated. destruct (_ && _); [done|]. intros E.
  destruct (debug_translatemem_Some _ _ _ _ (co_mmu _ Hc) Ha E) as (? & ? & ? & _). done.
Qed.

(** ** Every instruction keeps the invariant *)
Definition stalled s : Prop := 0 < hiwait (get_regs s) ∨ 0 < lowait (get_regs s).
Definition overflows s : Prop := ∃ insn, reg (NEEDRS insn) s = - 2 ^ 31 ∧ reg (NEEDRT insn) s = -1.

(** ** Devices that fail

    An access may stop the simulator (dev_*.c call [smoke]) and a wait may never end.  A store of part of a word fetches first. *)
Inductive io_fails : D → Prop :=
| fails_fetch d a : is_ok (bus_io_fetch a d) = false → io_fails d
| fails_store d a v : is_ok (bus_io_store a v d) = false → io_fails d
| fails_next d a ov d' : bus_io_fetch a d = Ok (ov, d') → (∃ a v, is_ok (bus_io_store a v d') = false) → io_fails d.

Definition wait_fails (d : D) : Prop := is_ok (clock_waitirq d) = false.

Section pan_und.
Context (dev pan und : Prop).

Lemma exception_safe code cn va s :
  core s → exn_args code cn va → safe dev pan und (exception code cn va) (fun _ s' => ready s' ∧ in_jumpdelay (get_pcs s') = false) s.
Proof. intros Hc Ha. eapply safe_ok; [apply exception_run, (co_size _ Hc)|]. by apply entered_ready. Qed.

Lemma core_set_pcs s p : core s → pcs_ok p → core (set_pcs p s).
Proof. intros [C1 C2 C3 C4 C5 C6 C7] Hp. by constructor. Qed.

Lemma looked_true s a pa pg :
  core s → aligned a → translated s a false = Some pa → mapmem (bus_ramsize s) pa = Some pg →
  page_ok (bus_ramsize s) (Some pg) (Z.land pa 0xfff) a ∧ core (touch a s) ∧ bus_ramsize (touch a s) = bus_ramsize s ∧
  get_pcs (touch a s) = get_pcs s.
Proof.
  intros Hc [Ha _] Et Em. destruct (translated_Some _ _ _ _ Hc Ha Et) as (_ & Hw & Eo).
  split; [by apply mapmem_ok|]. split; [by apply touch_core|]. unfold touch. by destruct (_ =? 2).
Qed.

Lemma precompute_pc_safe s :
  core s → safe dev pan und precompute_pc (fun ok s' => core s' ∧ pc_ok s' ∧ (nextpc_ok s → nextpc_ok s') ∧
    (in_jumpdelay (get_pcs s) = false → in_jumpdelay (get_pcs s') = false)) s.
Proof.
  intros Hc. pose proof (proj1 (proj2 (co_pcs _ Hc))) as Ha.
  destruct (precompute_pc_looked s Hc) as [(pa & pg & Et & Em & E)|(_ & code & cn & va & s1 & Hn & Hx & E)]; eapply safe_ok; try exact E.
  - destruct (looked_true s _ pa pg Hc Ha Et Em) as (Hp & Hc' & Es & Ep). split_and!.
    + apply core_set_pcs; [done|]. exact (co_pcs _ Hc).
    + unfold pc_ok. cbn. by rewrite Es.
    + unfold nextpc_ok. cbn. by rewrite Es.
    + done.
  - pose proof (near_core _ _ Hc Hn) as Hc1. destruct (entered_ready code cn va s1 Hc1 Hx) as [(R1 & R2 & R3) _]. by split_and!.
Qed.

Lemma precompute_nextpc_safe s :
  core s → pc_ok s → safe dev pan und precompute_nextpc (fun ok s' => ready s' ∧
    (in_jumpdelay (get_pcs s) = false → in_jumpdelay (get_pcs s') = false)) s.
Proof.
  intros Hc Hpc. pose proof (proj2 (proj2 (co_pcs _ Hc))) as Ha.
  destruct (precompute_nextpc_looked s Hc) as [(pa & pg & Et & Em & E)|(_ & code & cn & va & s1 & Hn & Hx & E)]; eapply safe_ok; try exact E.
  - destruct (looked_true s _ pa pg Hc Ha Et Em) as (Hp & Hc' & Es & Ep). split; [|done]. split_and!.
    + apply core_set_pcs; [done|]. exact (co_pcs _ Hc).
    + unfold pc_ok. cbn. by rewrite Es.
    + unfold nextpc_ok. cbn. by rewrite Es.
  - pose proof (near_core _ _ Hc Hn) as Hc1. destruct (entered_ready code cn va s1 Hc1 Hx) as [R ?]. by split.
Qed.

Lemma precompute_both s :
  core s → safe dev pan und (let* _ := precompute_pc in let* _ := precompute_nextpc in mret tt) (fun _ s' => ready s') s.
Proof.
  intros Hc. eapply safe_then; [by apply precompute_pc_safe|]. intros ok s1 (Hc1 & Hp1 & _). cbv beta.
  eapply safe_then; [by apply precompute_nextpc_safe|]. by intros ok' s2 [R _].
Qed.

Lemma phony_exception_safe s :
  core s → pan → safe dev pan und phony_exception (fun _ s' => ready s' ∧ in_jumpdelay (get_pcs s') = false) s.
Proof.
  intros Hc Hpan. unfold phony_exception.
  assert (core (set_pcs (goto (expc (get_pcs s)) (get_pcs s)) s)) as Hc1.
  { apply core_set_pcs; [done|]. destruct (co_pcs _ Hc) as (E & _). split_and!; cbn; [done|done|by apply aligned_next]. }
  apply safe_bind. eapply safe_ok; [reflexivity|]. cbv beta. eapply safe_then; [by apply precompute_pc_safe|].
  intros ok s2 (Hc2 & Hp2 & _ & Hd2). cbv beta. apply safe_if; [by intros _; left|]. intros _.
  eapply safe_then; [by apply precompute_nextpc_safe|]. intros ok' s3 [R3 Hd3]. cbv beta. apply safe_if; [by intros _; left|]. intros _. split; auto.
Qed.

(** Memory accesses. *)
Lemma un_be4_word a b c d : 0 ≤ a < 256 → 0 ≤ b < 256 → 0 ≤ c < 256 → 0 ≤ d < 256 → word (un_be [a; b; c; d]).
Proof. unfold word, un_be. cbn. lia. Qed.

Lemma ram_byte_range m a : ram_ok m → 0 ≤ ram_byte m a < 256.
Proof. intros Hm. unfold ram_byte. destruct (m !! a) eqn:E; cbn; [by eapply Hm|lia]. Qed.

Lemma ram_word_range m a : ram_ok m → word (ram_word m a).
Proof. intros Hm. apply un_be4_word; by apply ram_byte_range. Qed.

Lemma ram_ok_insert m a b : ram_ok m → 0 ≤ b < 256 → ram_ok (<[a := b]> m).
Proof. intros Hm Hb x y. rewrite lookup_insert_Some. intros [[_ <-]|[_ ?]]; [done|by eapply Hm]. Qed.

Lemma ram_ok_put m a v : ram_ok m → ram_ok (put_word a v m).
Proof. intros Hm. unfold put_word. repeat apply ram_ok_insert; try apply u8_range. done. Qed.

Lemma ready_set_ram s m : ready s → ram_ok m → ready (set_ram m s).
Proof. intros ([C1 C2 C3 C4 C5 C6 C7] & Hp & Hn) Hm. split_and!; [by constructor|done..]. Qed.

Lemma ready_set_devices s d : ready s → ready (set_devices d s).
Proof. intros ([C1 C2 C3 C4 C5 C6 C7] & Hp & Hn). split_and!; [by constructor|done..]. Qed.

(** An aligned offset that exists leaves room for a word. *)
Lemma word_fits n a : size_ok n → a `mod` 4 = 0 → (a + 4 >? n) && negb (a >=? n) = false.
Proof.
  intros [Hn Hz] Ha. destruct (Z.geb_spec a n); [by rewrite andb_false_r|]. rewrite andb_true_r, Z.gtb_ltb. apply Z.ltb_ge.
  assert (n `mod` 4 = 0) as Hn4 by (rewrite <- mod4_of_4096, Hz; done). apply Z.mod_divide in Ha as [x ->], Hn4 as [y ->]; lia.
Qed.

Lemma bus_mem_fetch_safe a s :
  ready s → a `mod` 4 = 0 → safe dev pan und (bus_mem_fetch a) (fun ov s' => ready s' ∧ ∀ v, ov = Some v → word v) s.
Proof.
  intros Hr Ha. pose proof Hr as (Hc & _). pose proof (word_fits _ a (co_size _ Hc) Ha) as Hf. unfold safe, bus_mem_fetch.
  destruct (a >=? bus_ramsize s); [done|]. cbn in Hf. rewrite andb_true_r in Hf. rewrite Hf. split; [done|]. intros v [= <-].
  by apply ram_word_range, co_ram.
Qed.

Lemma bus_mem_store_safe a v s :
  ready s → a `mod` 4 = 0 → safe dev pan und (bus_mem_store a v) (fun _ s' => ready s') s.
Proof.
  intros Hr Ha. pose proof Hr as (Hc & _). pose proof (word_fits _ a (co_size _ Hc) Ha) as Hf. unfold safe, bus_mem_store.
  destruct (a >=? bus_ramsize s); [done|]. cbn in Hf. rewrite andb_true_r in Hf. rewrite Hf. apply ready_set_ram; [done|]. by apply ram_ok_put, co_ram.
Qed.

Definition words (w : option Z) : Prop := ∀ v, w = Some v → word v.

Lemma on_bus_safe {A} (m : M D A) s :
  ready s → (is_ok (m (devices s)) = false → dev) → safe dev pan und (on_bus m) (fun a s' => ready s' ∧ m (devices s) = Ok (a, devices s')) s.
Proof.
  intros Hr Hd. unfold safe, on_bus, zoom. destruct (m (devices s)) as [[a d]| | |]; [|auto..]. by split; [apply ready_set_devices|].
Qed.

Lemma ntohl_word z : word (ntohl z).
Proof. unfold ntohl, be32. apply un_be4_word; apply u8_range. Qed.

(** A store may not fail yet, or its failure is that of [s]. *)
Definition stores_fail (d : D) : Prop := ∃ a v, is_ok (bus_io_store a v d) = false.
Definition fetches_fail (d : D) : Prop := ∃ a, is_ok (bus_io_fetch a d) = false.

Definition same_fails s s' : Prop := stores_fail (devices s') → io_fails (devices s).

Lemma same_fails_refl s s' : devices s' = devices s → same_fails s s'.
Proof. intros E (a & v & Hf). rewrite E in Hf. by eapply fails_store. Qed.

Lemma accessmem_safe pa w s :
  ready s → word pa → pa `mod` 4 = 0 → words w → (if w is Some _ then stores_fail (devices s) → dev else io_fails (devices s) → dev) →
  safe dev pan und (accessmem pa w) (fun ov s' => ready s' ∧ words ov ∧ (w = None → same_fails s s')) s.
Proof.
  intros Hr Hpa Ha Hw Hdev. unfold word in Hpa. unfold accessmem.
  assert (∀ o, (o - 0x400000) `mod` 4 = o `mod` 4) as Hsub.
  { intros o. pose proof (Z.mod_add o (-1048576) 4 ltac:(lia)). done. }
  assert (∀ m, w ≠ None → safe dev pan und m (fun (_ : bool) s' => ready s') s →
    safe dev pan und (let* ok := m in mret (if (ok : bool) then Some 0 else None)) (fun ov s' => ready s' ∧ words ov ∧ (w = None → same_fails s s')) s) as Hst.
  { intros m Hn Hm. eapply safe_then; [exact Hm|]. intros ok s1 R1. split_and!; [done| |done]. destruct ok; intros v [= <-]. done. }
  assert (∀ o, o `mod` 4 = 0 → safe dev pan und (bus_mem_fetch o) (fun ov s' => ready s' ∧ words ov ∧ (w = None → same_fails s s')) s) as Hfe.
  { intros o Ho. pose proof (bus_mem_fetch_safe o s Hr Ho) as Hf. unfold safe, bus_mem_fetch in *.
    destruct (o >=? bus_ramsize s); [split_and!; [done..|by intros _; apply same_fails_refl]|]. destruct (o + 4 >? bus_ramsize s); [done|].
    destruct Hf. split_and!; [done..|by intros _; apply same_fails_refl]. }
  eapply (safe_then _ _ _ _ _ (fun ov s' => ready s' ∧ words ov ∧ (w = None → same_fails s s'))).
  2: { intros [v|] s1 (R1 & W1 & F1); [by split_and!|]. apply safe_bind. eapply safe_ok; [apply exception_run, (co_size _ (proj1 R1))|].
    split_and!; [apply (entered_ready EX_DBE 0 0 s1); [apply R1|done]|done|exact F1]. }
  destruct (Z.ltb_spec pa 0x1fc00000).
  { destruct w as [v|]; [apply Hst; [done|]; by apply bus_mem_store_safe|by apply Hfe]. }
  destruct (Z.ltb_spec pa 0x1fe00000).
  { destruct w as [v|]; [by split_and!|]. split_and!; [done| |by intros _; apply same_fails_refl]. unfold bootrom_fetch. destruct (_ >=? _); [done|].
    intros v [= <-]. apply ntohl_word. }
  destruct (Z.ltb_spec pa 0x20000000).
  - destruct w as [v|].
    + apply Hst; [done|]. eapply safe_mono; [apply on_bus_safe; [done|]|by intros ? ? []]. intros Hf. apply Hdev. by eexists _, _.
    + eapply safe_then; [apply on_bus_safe; [done|]|].
      * intros Hf. apply Hdev. by eapply fails_fetch.
      * intros ov s1 [R1 E1]. split_and!; [done| |]; [|intros _ Hf; by eapply fails_next].
        destruct ov as [v|]; [|done]. intros x [= <-]. apply word_u32.
  - destruct w as [v|]; [apply Hst; [done|]; apply bus_mem_store_safe; [done|by rewrite Hsub]|apply Hfe; by rewrite Hsub].
Qed.

Lemma touch_keeps_devices va s : devices (touch va s) = devices s.
Proof. unfold touch. by destruct (_ =? 2). Qed.

Lemma domem_safe va w wr s :
  ready s → word va → words w → (if w is Some _ then stores_fail (devices s) → dev else io_fails (devices s) → dev) →
  safe dev pan und (domem va w wr) (fun ov s' => ready s' ∧ words ov ∧ (w = None → same_fails s s')) s.
Proof.
  intros Hr Hva Hw Hdev. unfold domem. pose proof Hr as (Hc & _). pose proof (translatemem_run va wr s Hc Hva) as Ht.
  destruct (translated s va wr) as [pa|] eqn:E.
  - apply safe_bind. eapply safe_ok; [exact Ht|]. cbv iota beta. destruct (translated_Some _ _ _ _ Hc Hva E) as (Ha & Hp & Eo).
    eapply safe_mono; [apply accessmem_safe; [by apply touch_ready|done| |done|by rewrite touch_keeps_devices]|].
    + rewrite <- mod4_of_4096, Eo, mod4_of_4096. done.
    + intros ov s' (R & W & F). split_and!; [done..|]. intros Hn Hf. by rewrite <- (touch_keeps_devices va s); apply F.
  - destruct Ht as (code & cn & s1 & Hs1 & Hx & E'). apply safe_bind. eapply safe_ok; [exact E'|]. cbv iota beta.
    assert (core s1 ∧ devices s1 = devices s) as [Hc1 Ed] by (destruct Hs1 as [-> | ->]; [done|split; [by apply touch_core|apply touch_keeps_devices]]).
    split_and!; [by apply entered_ready|done|]. intros _. by apply same_fails_refl.
Qed.

Lemma update_word_safe a f s :
  ready s → word a → (∀ w, word w → word (f w)) → (io_fails (devices s) → dev) → safe dev pan und (update_word a f) (fun _ s' => ready s') s.
Proof.
  intros Hr Ha Hf Hdev. unfold update_word. eapply safe_then; [by apply (domem_safe a None true)|]. intros [w|] s1 (R1 & W1 & F1); [|done]. cbv beta iota.
  eapply safe_then; [apply (domem_safe a (Some (f w)) true); [done|done|by intros v [= <-]; apply Hf, W1|by intros ?; apply Hdev, F1]|]. by intros ov s2 [R2 _].
Qed.

Lemma land_low_range v n : 0 ≤ n → 0 ≤ Z.land v (Z.ones n) < 2 ^ n.
Proof. intros Hn. rewrite Z.land_ones by done. apply Z.mod_pos_bound. by apply Z.pow_pos_nonneg. Qed.

Lemma word_shiftl_part v n sh : 0 ≤ n → 0 ≤ sh → n + sh ≤ 32 → word (Z.shiftl (Z.land v (Z.ones n)) sh).
Proof.
  intros Hn Hs Hb. pose proof (land_low_range v n Hn). unfold word. rewrite Z.shiftl_mul_pow2 by done.
  pose proof (Z.pow_pos_nonneg 2 sh ltac:(lia) Hs). split; [nia|]. apply Z.lt_le_trans with (2 ^ n * 2 ^ sh); [nia|].
  rewrite <- Z.pow_add_r by done. by apply Z.pow_le_mono_r.
Qed.

Lemma shift_bounds a :
  0 ≤ (loadl_mask a).2 ∧ 0 ≤ (loadr_mask a).2 ∧ 0 ≤ (storel_mask a).2 ∧ 0 ≤ (storer_mask a).2 ∧ 0 ≤ (storeb_mask a).2 ≤ 24 ∧ 0 ≤ (storeh_mask a).2 ≤ 16.
Proof.
  unfold loadl_mask, loadr_mask, storel_mask, storer_mask, storeb_mask, storeh_mask.
  by destruct (Z.land a 0x3) as [|[[]|[]|]|]; destruct (Z.land a 2).
Qed.

(** Every store reads a word, changes part of it and writes it back. *)
Lemma dostore_update ms a v :
  word a → word v → ms ≠ S_SBYTE → ms ≠ S_SHALF →
  ∃ a' f, dostore ms a v = update_word a' f ∧ word a' ∧ ∀ w, word w → word (f w).
Proof.
  intros Ha Hv H1 H2. destruct (shift_bounds a) as (B1 & B2 & B3 & B4 & B5 & B6). unfold dostore. destruct ms; try done.
  - destruct (storeb_mask a) as [m sh]. cbn in B5. eexists _, _. split_and!; [reflexivity|by apply word_land|]. intros w Hw.
    apply word_lor; [by apply word_land|]. apply (word_shiftl_part v 8); lia.
  - destruct (storeh_mask a) as [m sh]. cbn in B6. eexists _, _. split_and!; [reflexivity|by apply word_land|]. intros w Hw.
    apply word_lor; [by apply word_land|]. apply (word_shiftl_part v 16); lia.
  - destruct (storel_mask a) as [m sh]. cbn in B3. eexists _, _. split_and!; [reflexivity|by apply word_land|]. intros w Hw.
    apply word_lor; [by apply word_land|]. by apply word_land, word_shiftr.
  - destruct (storer_mask a) as [m sh]. eexists _, _. split_and!; [reflexivity|by apply word_land|]. intros w Hw.
    apply word_lor; [by apply word_land|]. apply word_land, word_u32.
Qed.

Lemma dostore_safe ms a v s :
  ready s → word a → word v → ms ≠ S_SBYTE → ms ≠ S_SHALF → (io_fails (devices s) → dev) → safe dev pan und (dostore ms a v) (fun _ s' => ready s') s.
Proof.
  intros Hr Ha Hv H1 H2 Hd. destruct (dostore_update ms a v Ha Hv H1 H2) as (a' & f & -> & Ha' & Hf). by apply update_word_safe.
Qed.

Lemma doload_safe ms a old s : ready s → word a → (io_fails (devices s) → dev) → safe dev pan und (doload ms a old) (fun _ s' => ready s') s.
Proof.
  intros Hr Ha Hd. unfold doload. destruct ms; try destruct (loadl_mask a); try destruct (loadr_mask a);
    (eapply safe_then; [apply (domem_safe _ None false); [done|by apply word_land|done|done]|]); by intros ov s1 [R1 _].
Qed.
End pan_und.

Lemma bus_use_map_ok pg off a s :
  core s → page_ok (bus_ramsize s) pg off a → a `mod` 4 = 0 → ∃ v, bus_use_map pg off s = Ok (v, s).
Proof.
  intros Hc [-> Hp] Ha. pose proof (Z.mod_pos_bound a 4096 ltac:(lia)) as Hb. assert ((a `mod` 4096) `mod` 4 = 0) as H4 by (by rewrite mod4_of_4096).
  apply Z.mod_divide in H4 as [k Hk]; [|lia]. unfold bus_use_map. rewrite Hk, Z.div_mul by lia. destruct pg as [[o|i]|]; [| |done].
  - destruct Hp as [Ho Hoz]. destruct (co_size _ Hc) as [Hs Hsz]. apply Z.mod_divide in Hoz as [x ->], Hsz as [y Hy]; [|lia..].
    destruct (Z.gtb_spec (x * 4096 + k * 4 + 4) (bus_ramsize s)); [lia|]. by eexists.
  - subst i. unfold ROMWORDS. destruct (Z.geb_spec (0 + k) 1024); [lia|]. by eexists.
Qed.

Lemma bus_use_map_same pg off v s s' :
  bus_use_map pg off s = Ok (v, s) → ram s' = ram s → bus_ramsize s' = bus_ramsize s → bus_use_map pg off s' = Ok (v, s').
Proof.
  intros E Er Es. unfold bus_use_map in *. rewrite Er, Es. destruct pg as [[o|i]|]; [| |done]; (destruct (_ : bool); [done|]); by injection E as <-.
Qed.

Ltac step := apply safe_bind; eapply safe_ok; [reflexivity|]; cbv beta iota.

Section instr.

(** [dv] says which devices may fail. *)
Context (dv : D → Prop).

Definition instr (m : M (machine D) unit) : Prop :=
  ∀ s, ready s → safe (dv (devices s)) (stalled s) (overflows s) m (fun _ s' => settled s') s.

Lemma regs_ok_insert g i v : regs_ok g → regs_ok (mkregs (<[i := i32 v]> (r g)) (lo g) (hi g) (lowait g) (hiwait g)).
Proof.
  intros (G1 & G2 & G3 & G4 & G5 & G6). split_and!; cbn; try done; try lia; [by rewrite length_insert|]. apply list.Forall_insert; [done|apply int32_i32].
Qed.

Lemma ready_set_regs s g : ready s → regs_ok g → ready (set_regs g s).
Proof. intros ([C1 C2 C3 C4 C5 C6 C7] & Hp & Hn) Hm. split_and!; [by constructor|done..]. Qed.

Lemma ready_put_reg s i v : ready s → ready (put_reg i v s).
Proof. intros Hr. apply ready_set_regs; [done|]. apply regs_ok_insert, (co_regs _ (proj1 Hr)). Qed.

Lemma ready_set_mmu s m : ready s → mmu_ok m → ready (set_mmu m s).
Proof. intros (Hc & Hp & Hn) Hm. split_and!; [by apply core_mmu|done..]. Qed.

Lemma ready_set_status s x : ready s → status_ok x → ready (set_status x s).
Proof. intros ([C1 C2 C3 C4 C5 C6 C7] & Hp & Hn) Hm. split_and!; [by constructor|done..]. Qed.

Lemma ready_set_exn s x : ready s → exn_ok x → ready (set_exn x s).
Proof. intros ([C1 C2 C3 C4 C5 C6 C7] & Hp & Hn) Hm. split_and!; [by constructor|done..]. Qed.


(** An instruction that sets a general register and nothing else. *)
Lemma instr_alu m : (∀ s, ∃ i v, m s = Ok (tt, put_reg i v s)) → instr m.
Proof. intros Hm s Hr. destruct (Hm s) as (i & v & E). eapply safe_ok; [exact E|]. by apply ready_settled, ready_put_reg. Qed.

Lemma instr_exception code cn va : exn_args code cn va → instr (exception code cn va).
Proof.
  intros Ha s Hr. eapply safe_mono; [apply exception_safe; [apply Hr|done]|]. intros _ s' [R _]. by apply ready_settled.
Qed.

Lemma instr_bind_gets {A} (f : machine D → A) (k : A → M (machine D) unit) : (∀ a, instr (k a)) → instr (mbind k (gets f)).
Proof. intros Hk s Hr. step. by apply Hk. Qed.

Lemma instr_if (b : bool) m1 m2 : instr m1 → instr m2 → instr (if b then m1 else m2).
Proof. by destruct b. Qed.

Lemma instr_ret : instr (mret tt).
Proof. intros s Hr. by apply ready_settled. Qed.

Lemma instr_set_regs f : (∀ s, regs_ok (get_regs s) → regs_ok (f s)) → instr (modify (fun s => set_regs (f s) s)).
Proof. intros Hf s Hr. apply ready_settled, ready_set_regs; [done|]. apply Hf, (co_regs _ (proj1 Hr)). Qed.

Lemma NEEDCN_range insn : 0 ≤ NEEDCN insn ≤ 3.
Proof.
  unfold NEEDCN. rewrite Z.land_comm, Z.shiftr_div_pow2 by lia. pose proof (land_bound 0x0c000000 insn ltac:(lia)).
  split; [apply Z.div_pos; lia|]. assert (Z.land 0x0c000000 insn `div` 2 ^ 26 < 4); [|lia]. apply Z.div_lt_upper_bound; lia.
Qed.

Lemma args_cn code insn : 0 ≤ code ≤ 12 → exn_args code (NEEDCN insn) 0.
Proof. intros Hc. split_and!; try apply NEEDCN_range; try done; lia. Qed.

Lemma args_0 code : 0 ≤ code ≤ 12 → exn_args code 0 0.
Proof. intros Hc. split_and!; try done; lia. Qed.

Lemma stall_instr (k : M (machine D) unit) (b : regs → bool) :
  (∀ g, b g = true → 0 < hiwait g ∨ 0 < lowait g) → instr k → instr (let* g := gets get_regs in if b g then phony_exception else k).
Proof.
  intros Hb Hk s Hr. step. apply safe_if; [|intros _; by apply Hk]. intros E%Hb.
  eapply safe_mono; [apply phony_exception_safe; [apply Hr|done]|]. intros a s' [R _]. by apply ready_settled.
Qed.

Lemma instr_WHILO k : instr k → instr (WHILO k).
Proof. apply (stall_instr k). intros g E. apply orb_true_iff in E as [E|E]; apply Z.gtb_lt in E; auto. Qed.

Lemma instr_WHI k : instr k → instr (WHI k).
Proof. apply (stall_instr k). intros g E%Z.gtb_lt. auto. Qed.

Lemma instr_WLO k : instr k → instr (WLO k).
Proof. apply (stall_instr k). intros g E%Z.gtb_lt. auto. Qed.

(** *** Arithmetic *)
Ltac alu := apply instr_alu; intros s; eexists _, _; reflexivity.

Lemma instr_CHKOVF v k : instr k → instr (CHKOVF v k).
Proof. intros Hk. apply instr_if; [|done]. by apply instr_exception, args_0. Qed.

Lemma instr_set_reg i v : instr (set_reg i v).
Proof. alu. Qed.

Create HintDb instr discriminated.
#[local] Hint Resolve instr_set_reg : instr.

Lemma instr_add insn : instr (mx_add insn).
Proof. do 2 (apply instr_bind_gets; intros ?). apply instr_CHKOVF, instr_set_reg. Qed.
Lemma instr_addi insn : instr (mx_addi insn).
Proof. apply instr_bind_gets; intros ?. apply instr_CHKOVF, instr_set_reg. Qed.
Lemma instr_sub insn : instr (mx_sub insn).
Proof. do 2 (apply instr_bind_gets; intros ?). apply instr_CHKOVF, instr_set_reg. Qed.
Lemma instr_addiu insn : instr (mx_addiu insn).
Proof. alu. Qed.
Lemma instr_addu insn : instr (mx_addu insn).
Proof. alu. Qed.
Lemma instr_and insn : instr (mx_and insn).
Proof. alu. Qed.
Lemma instr_andi insn : instr (mx_andi insn).
Proof. alu. Qed.
Lemma instr_lui insn : instr (mx_lui insn).
Proof. alu. Qed.
Lemma instr_nor insn : instr (mx_nor insn).
Proof. alu. Qed.
Lemma instr_or insn : instr (mx_or insn).
Proof. alu. Qed.
Lemma instr_ori insn : instr (mx_ori insn).
Proof. alu. Qed.
Lemma instr_sll insn : instr (mx_sll insn).
Proof. alu. Qed.
Lemma instr_sllv insn : instr (mx_sllv insn).
Proof. do 2 (apply instr_bind_gets; intros ?). apply instr_set_reg. Qed.
Lemma instr_slt insn : instr (mx_slt insn).
Proof. alu. Qed.
Lemma instr_slti insn : instr (mx_slti insn).
Proof. alu. Qed.
Lemma instr_sltiu insn : instr (mx_sltiu insn).
Proof. alu. Qed.
Lemma instr_sltu insn : instr (mx_sltu insn).
Proof. alu. Qed.
Lemma instr_sra insn : instr (mx_sra insn).
Proof. alu. Qed.
Lemma instr_srav insn : instr (mx_srav insn).
Proof. do 2 (apply instr_bind_gets; intros ?). apply instr_set_reg. Qed.
Lemma instr_srl insn : instr (mx_srl insn).
Proof. alu. Qed.
Lemma instr_srlv insn : instr (mx_srlv insn).
Proof. do 2 (apply instr_bind_gets; intros ?). apply instr_set_reg. Qed.
Lemma instr_subu insn : instr (mx_subu insn).
Proof. alu. Qed.
Lemma instr_xor insn : instr (mx_xor insn).
Proof. alu. Qed.
Lemma instr_xori insn : instr (mx_xori insn).
Proof. alu. Qed.

(** *** The multiplier *)
Lemma regs_ok_hilo g h l a b : regs_ok g → 0 ≤ a ≤ 2 → 0 ≤ b ≤ 2 → int32 h → int32 l → regs_ok (mkregs (r g) l h a b).
Proof. intros (G1 & G2 & _) ? ? ? ?. split_and!; cbn; (done || lia). Qed.

(** Code that only changes [hi], [lo] and their waiting times. *)
Definition hilo_only (m : M (machine D) unit) : Prop :=
  ∀ s, regs_ok (get_regs s) → ∃ g, m s = Ok (tt, set_regs g s) ∧ regs_ok g.

Lemma instr_hilo m : hilo_only m → instr m.
Proof.
  intros Hm s Hr. destruct (Hm s (co_regs _ (proj1 Hr))) as (g & E & Hg). eapply safe_ok; [exact E|]. by apply ready_settled, ready_set_regs.
Qed.

Lemma hilo_bind m1 m2 : hilo_only m1 → hilo_only m2 → hilo_only (let* _ := m1 in m2).
Proof.
  intros H1 H2 s Hs. destruct (H1 s Hs) as (g1 & E1 & G1). destruct (H2 (set_regs g1 s) G1) as (g2 & E2 & G2).
  exists g2. split; [|done]. erewrite bind_ok by exact E1. by rewrite E2.
Qed.

Ltac hilo := intros s Hs; eexists; split; [reflexivity|]; pose proof Hs as (_ & _ & ? & ? & ? & ?);
  apply regs_ok_hilo; (done || lia || apply int32_i32).

Lemma hilo_set_hilo h l : hilo_only (set_hilo h l).
Proof. hilo. Qed.
Lemma hilo_SETHILO : hilo_only (SETHILO 2).
Proof. hilo. Qed.
Lemma hilo_SETHI : hilo_only (SETHI 2).
Proof. hilo. Qed.
Lemma hilo_SETLO : hilo_only (SETLO 2).
Proof. hilo. Qed.
Lemma hilo_set_hi h : hilo_only (set_hi h).
Proof. hilo. Qed.
Lemma hilo_set_lo l : hilo_only (set_lo l).
Proof. hilo. Qed.
Lemma hilo_set_reg i v : hilo_only (set_reg i v).
Proof. intros s Hs. eexists. split; [reflexivity|]. by apply regs_ok_insert. Qed.
Lemma hilo_if (b : bool) m1 m2 : hilo_only m1 → hilo_only m2 → hilo_only (if b then m1 else m2).
Proof. by destruct b. Qed.

#[local] Hint Resolve hilo_bind hilo_if hilo_set_hilo hilo_SETHILO hilo_SETHI hilo_SETLO hilo_set_hi hilo_set_lo hilo_set_reg : instr.

Lemma instr_mult insn : instr (mx_mult insn).
Proof. do 2 (apply instr_bind_gets; intros ?). apply instr_WHILO, instr_hilo. auto with instr. Qed.
Lemma instr_multu insn : instr (mx_multu insn).
Proof. do 2 (apply instr_bind_gets; intros ?). apply instr_WHILO, instr_hilo. auto with instr. Qed.
Lemma instr_divu insn : instr (mx_divu insn).
Proof. do 2 (apply instr_bind_gets; intros ?). apply instr_WHILO, instr_hilo. auto with instr. Qed.
Lemma instr_mthi insn : instr (mx_mthi insn).
Proof. apply instr_bind_gets; intros ?. apply instr_WHI, instr_hilo. auto with instr. Qed.
Lemma instr_mtlo insn : instr (mx_mtlo insn).
Proof. apply instr_bind_gets; intros ?. apply instr_WLO, instr_hilo. auto with instr. Qed.
Lemma instr_mfhi insn : instr (mx_mfhi insn).
Proof. apply instr_WHI, instr_bind_gets. intros g. apply instr_hilo. unfold RDx. auto with instr. Qed.
Lemma instr_mflo insn : instr (mx_mflo insn).
Proof. apply instr_WLO, instr_bind_gets. intros g. apply instr_hilo. unfold RDx. auto with instr. Qed.

(** A quotient that does not fit is undefined. *)
Lemma instr_div insn : instr (mx_div insn).
Proof.
  intros s Hr. unfold mx_div. step. step. unfold WHILO. step. apply safe_if.
  { intros E. eapply safe_mono; [apply phony_exception_safe; [apply Hr|]|]; [|intros a s' [R _]; by apply ready_settled].
    apply orb_true_iff in E as [E|E]; apply Z.gtb_lt in E; [by left|by right]. }
  intros _. destruct (Z.eqb_spec (reg (NEEDRT insn) s) 0) as [Hz|Hz].
  { apply instr_hilo; auto with instr. }
  destruct (_ && _) eqn:E; [|apply instr_hilo; auto with instr]. apply andb_prop in E as [E1%Z.eqb_eq E2%Z.eqb_eq].
  unfold safe, mbind, M_bind, lift. left. by exists insn.
Qed.

(** *** Jumps

    They neither wait nor divide, so nothing can stop them. *)
Definition plain (m : M (machine D) unit) : Prop := ∀ s, ready s → safe (dv (devices s)) False False m (fun _ s' => settled s') s.

Lemma plain_instr m : plain m → instr m.
Proof. intros Hm s Hr. by eapply safe_weaken; [apply Hm|..]. Qed.

Lemma plain_gets {A} (f : machine D → A) (k : A → M (machine D) unit) : (∀ a, plain (k a)) → plain (mbind k (gets f)).
Proof. intros Hk s Hr. step. by apply Hk. Qed.

Lemma plain_link rg m : plain m → plain (let* _ := LINK2 rg in m).
Proof. intros Hm s Hr. step. exact (Hm _ (ready_put_reg _ _ _ Hr)). Qed.

Lemma plain_abranch a : word a → plain (abranch a).
Proof.
  intros Hw s Hr. pose proof Hr as (Hc & Hp & Hn). unfold abranch. rewrite land3. destruct (Z.eqb_spec (a `mod` 4) 0) as [Ha|Ha]; cbn [negb].
  2: { eapply safe_mono; [by apply exception_safe|]. intros _ s' [R _]. by apply ready_settled. }
  step. set (s1 := set_pcs _ s). assert (core s1) as Hc1.
  { apply core_set_pcs; [done|]. destruct (co_pcs _ Hc) as (E1 & E2 & _). by split_and!. }
  step. destruct (bus_use_map_ok (pcpage (get_pcs s)) (pcoff (get_pcs s)) (pc (get_pcs s)) s1 Hc1 Hp) as (v & Ev); [apply (co_pcs _ Hc)|].
  apply safe_bind. eapply safe_ok; [exact Ev|]. cbv beta. destruct (Z.eqb_spec v FULLOP_RFE) as [-> |].
  - eapply safe_ok; [reflexivity|]. split_and!.
    + apply core_set_pcs; [done|]. apply (co_pcs _ Hc1).
    + exact Hp.
    + right. split; [done|]. unfold insn_at. by eapply bus_use_map_same.
  - eapply safe_then; [by apply precompute_nextpc_safe|]. intros ok s2 [R2 _]. by apply ready_settled.
Qed.

Lemma plain_branch_if b insn : plain (branch_if b insn).
Proof.
  destruct b; [|intros s Hr; by apply ready_settled]. apply plain_gets. intros p. apply plain_abranch, word_u32.
Qed.

Lemma plain_bgez insn : plain (mx_bgez insn).
Proof. apply plain_gets. intros ?. apply plain_branch_if. Qed.
Lemma plain_bltz insn : plain (mx_bltz insn).
Proof. apply plain_gets. intros ?. apply plain_branch_if. Qed.
Lemma instr_beq insn : instr (mx_beq insn).
Proof. do 2 (apply instr_bind_gets; intros ?). apply plain_instr, plain_branch_if. Qed.
Lemma instr_bne insn : instr (mx_bne insn).
Proof. do 2 (apply instr_bind_gets; intros ?). apply plain_instr, plain_branch_if. Qed.
Lemma instr_bgtz insn : instr (mx_bgtz insn).
Proof. apply instr_bind_gets. intros ?. apply plain_instr, plain_branch_if. Qed.
Lemma instr_blez insn : instr (mx_blez insn).
Proof. apply instr_bind_gets. intros ?. apply plain_instr, plain_branch_if. Qed.
Lemma instr_bgez insn : instr (mx_bgez insn).
Proof. apply plain_instr, plain_bgez. Qed.
Lemma instr_bltz insn : instr (mx_bltz insn).
Proof. apply plain_instr, plain_bltz. Qed.
Lemma instr_bgezal insn : instr (mx_bgezal insn).
Proof. apply plain_instr, plain_link, plain_bgez. Qed.
Lemma instr_bltzal insn : instr (mx_bltzal insn).
Proof. apply plain_instr, plain_link, plain_bltz. Qed.
Lemma instr_jr insn : instr (mx_jr insn).
Proof. intros s Hr. step. apply plain_instr; [|done]. apply plain_abranch, word_u32. Qed.

Lemma plain_RSu insn k : (∀ a, word a → plain (k a)) → plain (mbind k (RSu insn)).
Proof. intros Hk s Hr. step. by apply Hk; [apply word_u32|]. Qed.

Lemma instr_jalr insn : instr (mx_jalr insn).
Proof. apply plain_instr, plain_link, plain_RSu, plain_abranch. Qed.

(** The target of a jump keeps the upper bits of the program counter. *)
Lemma plain_ibranch insn : plain (ibranch (Z.shiftl (NEEDTARG insn) 2)).
Proof.
  intros s Hr. step. apply plain_abranch; [|done]. destruct (co_pcs _ (proj1 Hr)) as (_ & [Hw _] & _).
  apply word_lor; [by apply word_land|]. apply (word_shiftl_part insn 26); lia.
Qed.

Lemma instr_j insn : instr (mx_j insn).
Proof. apply plain_instr, plain_ibranch. Qed.
Lemma instr_jal insn : instr (mx_jal insn).
Proof. apply plain_instr, plain_link, plain_ibranch. Qed.

(** *** Loads and stores *)
Lemma safe_ADDR dev pan und insn (k : Z → M (machine D) unit) Q s :
  (∀ a, word a → safe dev pan und (k a) Q s) → safe dev pan und (mbind k (ADDR insn)) Q s.
Proof. intros Hk. apply safe_bind. unfold ADDR. step. apply Hk, word_u32. Qed.

Lemma instr_load ms insn : (∀ d, io_fails d → dv d) → instr (load_with ms insn).
Proof.
  intros Hd s Hr. apply safe_ADDR. intros a Ha. step. eapply safe_then; [by apply doload_safe; [..|apply Hd]|]. intros [v|] s1 R1.
  - apply ready_settled. by apply ready_put_reg.
  - by apply ready_settled.
Qed.

Lemma instr_store ms insn : (∀ d, io_fails d → dv d) → ms ≠ S_SBYTE → ms ≠ S_SHALF → instr (store_with ms insn).
Proof.
  intros Hd H1 H2 s Hr. apply safe_ADDR. intros a Ha. step. eapply safe_mono; [apply dostore_safe; [done|done|apply word_u32|done|done|apply Hd]|].
  intros ? s1 R1. by apply ready_settled.
Qed.

Lemma instr_lw insn : (∀ d, io_fails d → dv d) → instr (mx_lw insn).
Proof.
  intros Hd s Hr. apply safe_ADDR. intros a Ha. eapply safe_then; [by apply (domem_safe _ _ _ a None); [..|apply Hd]|]. intros [v|] s1 [R1 _].
  - apply ready_settled. by apply ready_put_reg.
  - by apply ready_settled.
Qed.

Lemma instr_sw insn : (∀ d, io_fails d → dv d) → instr (mx_sw insn).
Proof.
  intros Hd s Hr. apply safe_ADDR. intros a Ha. step. eapply safe_then; [apply domem_safe; [done|done|intros v [= <-]; apply word_u32|]|].
  { intros (x & v & Hf). apply Hd. by eapply fails_store. }
  intros ov s1 [R1 _]. by apply ready_settled.
Qed.

Lemma instr_lwc insn : instr (mx_lwc insn).
Proof. intros s Hr. apply safe_ADDR. intros a Ha. by apply instr_exception; [apply args_cn|]. Qed.
Lemma instr_swc insn : instr (mx_swc insn).
Proof. intros s Hr. apply safe_ADDR. intros a Ha. by apply instr_exception; [apply args_cn|]. Qed.

(** *** Coprocessor 0 *)
Lemma mmu_ok_random m t : mmu_ok m → 0 ≤ t ≤ B → mmu_ok (mkmmu (tlb m) (tlbentry m) (tlbindex m) (tlbpf m) t).
Proof. intros (M1 & M2 & M3 & M4 & M5) Ht. split_and!; cbn; (done || lia). Qed.

Lemma mmu_ok_index m i b : mmu_ok m → 0 ≤ i < 64 → mmu_ok (mkmmu (tlb m) (tlbentry m) i b (tlbrandom m)).
Proof. intros (M1 & M2 & M3 & M4 & M5) Ht. split_and!; cbn; (done || lia). Qed.

Lemma random_range m : mmu_ok m → 0 ≤ Z.rem (tlbrandom m) RANDREG_MAX < 56.
Proof. intros (_ & _ & _ & _ & Hr). apply Z.rem_bound_pos; unfold RANDREG_MAX; lia. Qed.

Lemma status_ok_set v : word v → status_ok (setstatus v).
Proof. intros Hv. split; by apply word_land. Qed.

Lemma instr_domf cn rg greg : 0 ≤ cn ≤ 3 → instr (domf cn rg greg).
Proof.
  intros Hcn. apply instr_bind_gets. intros user. apply instr_if; [by apply instr_exception|].
  cbn [switch]. repeat (apply instr_if; [try (apply instr_bind_gets; intros ?; apply instr_set_reg)|]); [|by apply instr_exception].
  intros s Hr. step. apply ready_settled, ready_put_reg, ready_set_mmu; [done|]. pose proof (co_mmu _ (proj1 Hr)) as Hm.
  apply mmu_ok_random; [done|]. pose proof (random_range _ Hm). lia.
Qed.

Lemma instr_set_mmu f : (∀ m, mmu_ok m → mmu_ok (f m)) → instr (modify (fun s => set_mmu (f (get_mmu s)) s)).
Proof. intros Hf s Hr. apply ready_settled, ready_set_mmu; [done|]. apply Hf, (co_mmu _ (proj1 Hr)). Qed.

Lemma instr_set_exn f : (∀ e, exn_ok e → exn_ok (f e)) → instr (modify (fun s => set_exn (f (get_exn s)) s)).
Proof. intros Hf s Hr. apply ready_settled, ready_set_exn; [done|]. apply Hf, (co_exn _ (proj1 Hr)). Qed.

Lemma instr_domt cn rg v : 0 ≤ cn ≤ 3 → instr (domt cn rg v).
Proof.
  intros Hcn. apply instr_bind_gets. intros user. apply instr_if; [by apply instr_exception|].
  cbn [switch]. repeat (apply instr_if; [try apply instr_ret|]); [..|by apply instr_exception].
  - apply (instr_set_mmu (setindex (u32 v))). intros m Hm. apply mmu_ok_index; [done|].
    pose proof (land_low_range (Z.shiftr (u32 v) 8) 6 ltac:(lia)). done.
  - apply (instr_set_mmu (fun m => set_tlbentry (tlbsetlo (tlbentry m) (u32 v)) m)). intros m Hm. apply mmu_ok_entry; [done|].
    destruct Hm as (_ & _ & (T1 & T2 & T3 & T4 & T5) & _). destruct (frame_mod (u32 v) (word_u32 v)). by split_and!.
  - apply (instr_set_exn (set_context (u32 v))). intros e (E1 & E2 & E3 & E4 & E5 & E6 & E7). split_and!; try done. apply word_u32.
  - apply (instr_set_exn (set_vaddr (u32 v))). intros e (E1 & E2 & E3 & E4 & E5 & E6 & E7). split_and!; try done. apply word_u32.
  - apply (instr_set_mmu (fun m => set_tlbentry (tlbsethi (tlbentry m) (u32 v)) m)). intros m Hm. apply mmu_ok_entry; [done|].
    destruct Hm as (_ & _ & (T1 & T2 & T3 & T4 & T5) & _). destruct (frame_mod (u32 v) (word_u32 v)). split_and!; try done. apply word_land, word_u32.
  - intros s Hr. apply ready_settled, ready_set_status; [done|]. apply status_ok_set, word_u32.
  - apply (instr_set_exn (setcause (u32 v))). intros e (E1 & E2 & E3 & E4 & E5 & E6 & E7). split_and!; try done. apply word_land, word_u32.
Qed.

Lemma dups_loop_run i l ix new s : ∃ b, dups_loop i l ix new s = Ok (tt, mkmach (mycpu s) (ram s) (bus_ramsize s) (devices s) (g_stats s) b (gdb_listening s)).
Proof.
  revert i s. induction l as [|e l IH]; intros i s; [exists (stop_flag s); by destruct s|]. cbn [dups_loop]. unfold mbind, M_bind.
  destruct (_ && _).
  - destruct (IH (S i) (mkmach (mycpu s) (ram s) (bus_ramsize s) (devices s) (g_stats s) true (gdb_listening s))) as [b E]. by exists b.
  - destruct (IH (S i) s) as [b E]. by exists b.
Qed.

Lemma plain_writetlb ix : 0 ≤ ix < 64 → plain (writetlb ix).
Proof.
  intros Hix s Hr. unfold writetlb. step. destruct (Z.ltb_spec ix 0), (Z.geb_spec ix (Z.of_nat NTLB)); try (change (Z.of_nat NTLB) with 64 in *; lia).
  cbn [orb]. step. set (m := mkmmu _ _ _ _ _). assert (mmu_ok m) as Hm.
  { destruct (co_mmu _ (proj1 Hr)) as (M1 & M2 & M3 & M4 & M5). split_and!; cbn; try (done || lia); [by rewrite length_insert|by apply list.Forall_insert]. }
  unfold check_tlb_dups. destruct (lookup_lt_is_Some_2 (tlb m) (Z.to_nat ix)) as [e He]; [destruct Hm as [-> _]; unfold NTLB; lia|].
  apply safe_bind. step. cbn [get_mmu set_mmu set_cpu mycpu c_mmu]. rewrite He. destruct (dups_loop_run 0 (tlb m) (Z.to_nat ix) e (set_mmu m s)) as [b Eb].
  eapply safe_ok; [exact Eb|]. cbv beta. eapply safe_mono; [apply precompute_both|intros ? s' R; by apply ready_settled].
  destruct (core_mmu s m (proj1 Hr) Hm) as [C1 C2 C3 C4 C5 C6 C7]. by constructor.
Qed.

Lemma instr_tlbwi insn : instr (mx_tlbwi insn).
Proof. apply plain_instr. intros s Hr. step. apply plain_writetlb; [|done]. apply (co_mmu _ (proj1 Hr)). Qed.

Lemma instr_tlbwr insn : instr (mx_tlbwr insn).
Proof.
  apply plain_instr. intros s Hr. pose proof (co_mmu _ (proj1 Hr)) as Hm. pose proof (random_range _ Hm) as Ht. unfold mx_tlbwr. step. step. cbn [tlbrandom get_mmu set_mmu set_cpu mycpu c_mmu].
  set (s1 := set_mmu _ s). assert (ready s1) as Hr1 by (apply ready_set_mmu; [done|]; apply mmu_ok_random; [done|lia]).
  refine (plain_writetlb (Z.rem (tlbrandom (get_mmu s)) RANDREG_MAX + RANDREG_OFFSET) _ s1 Hr1). unfold RANDREG_OFFSET. lia.
Qed.

Lemma instr_tlbr insn : instr (mx_tlbr insn).
Proof.
  intros s Hr. pose proof (co_mmu _ (proj1 Hr)) as Hm. unfold mx_tlbr. step. pose proof Hm as (M1 & M2 & _ & M4 & _).
  destruct (lookup_lt_is_Some_2 (tlb (get_mmu s)) (Z.to_nat (tlbindex (get_mmu s)))) as [e He]; [rewrite M1; unfold NTLB; lia|]. rewrite He.
  apply ready_settled, ready_set_mmu; [done|]. apply mmu_ok_entry; [done|]. by eapply Forall_lookup_1.
Qed.

Lemma instr_tlbp insn : instr (mx_tlbp insn).
Proof.
  intros s Hr. pose proof (co_mmu _ (proj1 Hr)) as Hm. unfold mx_tlbp, probetlb. eapply safe_ok; [reflexivity|]. apply ready_settled.
  destruct (findtlb _ _) as [ix|] eqn:E; (apply ready_set_mmu; [done|]); apply mmu_ok_index; try done.
  - by apply (findtlb_Some _ _ _ Hm E).
  - apply Hm.
Qed.

Lemma do_rfe_safe dev pan und s : core s → IS_USERMODE s = false → safe dev pan und do_rfe (fun _ s' => ready s') s.
Proof.
  intros Hc Hu. unfold do_rfe. step. rewrite Hu. step. step. apply precompute_both. destruct Hc as [C1 (P1 & P2 & P3) C3 C4 C5 C6 C7].
  by constructor.
Qed.

(** RFE, from any state of the cached pages. *)
Lemma rfe_safe dev pan und s : core s → safe dev pan und (mx_copz FULLOP_RFE) (fun _ s' => ready s') s.
Proof.
  intros Hc. unfold mx_copz. change (negb (NEEDCN FULLOP_RFE =? 0)) with false. cbv iota zeta. step. apply safe_if.
  - intros _. eapply safe_mono; [by apply exception_safe|]. intros _ s' [R _]. done.
  - intros Hu. apply do_rfe_safe; done.
Qed.

Lemma instr_wait insn : (∀ d, wait_fails d → dv d) → instr (mx_wait insn).
Proof.
  intros Hd s Hr. eapply safe_mono; [apply on_bus_safe; [done|apply Hd]|]. intros _ s' [R _]. by apply ready_settled.
Qed.

Lemma instr_ill insn : instr (mx_ill insn).
Proof. by apply instr_exception, args_0. Qed.

(** The instructions that reach devices: loads and stores, and WAIT. *)
Definition opcode (insn : Z) : Z := Z.shiftr (Z.land insn 0xfc000000) 26.
Definition touches (insn : Z) : bool := bool_decide (opcode insn ∈ [32; 33; 34; 35; 36; 37; 38; 40; 41; 42; 43; 46]).
Definition waits (insn : Z) : bool := bool_decide (opcode insn ∈ [16; 17; 18; 19]) && (Z.land insn 0x01ffffff =? 32).

Lemma instr_copz insn : (Z.land insn 0x01ffffff = 32 → ∀ d, wait_fails d → dv d) → instr (mx_copz insn).
Proof.
  intros Hd s Hr. unfold mx_copz. apply safe_if; [intros _; by apply instr_exception; [apply args_cn|]|]. intros Hcn. step.
  apply safe_if; [intros _; by apply instr_exception; [apply args_cn|]|]. intros Hu. apply safe_if; intros _.
  - cbn [switch]. apply safe_if; intros _; [by apply instr_tlbr|]. apply safe_if; intros _; [by apply instr_tlbwi|].
    apply safe_if; intros _; [by apply instr_tlbwr|]. apply safe_if; intros _; [by apply instr_tlbp|].
    apply safe_if; intros _; [|apply safe_if; [intros E%Z.eqb_eq; by apply instr_wait; [apply Hd|]|intros _; by apply instr_ill]].
    eapply safe_mono; [by apply do_rfe_safe; [apply Hr|]|]. intros ? s' R. by apply ready_settled.
  - assert (instr (if negb (Z.land insn 0x00010000 =? 0) then mx_bcf insn else mx_bct insn)) as Hbc.
    { apply instr_if; by apply instr_exception, args_cn. }
    cbn [switch]. apply safe_if; intros _; [by apply instr_domf; [apply NEEDCN_range|]|].
    apply safe_if; intros _; [by apply instr_exception; [apply args_cn|]|].
    apply safe_if; intros _; [step; by apply instr_domt; [apply NEEDCN_range|]|].
    apply safe_if; intros _; [by apply instr_exception; [apply args_cn|]|].
    apply safe_if; intros _; [by apply Hbc|]. apply safe_if; intros _; [by apply Hbc|]. by apply instr_ill.
Qed.

(** *** Decoding *)
#[local] Hint Resolve instr_add instr_addi instr_sub instr_addiu instr_addu instr_and instr_andi instr_lui instr_nor instr_or instr_ori
  instr_sll instr_sllv instr_slt instr_slti instr_sltiu instr_sltu instr_sra instr_srav instr_srl instr_srlv instr_subu instr_xor instr_xori
  instr_mult instr_multu instr_divu instr_div instr_mthi instr_mtlo instr_mfhi instr_mflo
  instr_beq instr_bne instr_bgtz instr_blez instr_bgez instr_bltz instr_bgezal instr_bltzal instr_jr instr_jalr instr_j instr_jal
  instr_lwc instr_swc instr_ill : instr.

Lemma instr_special insn : instr (special insn).
Proof.
  unfold special. cbn [switch]. repeat (apply instr_if; [first [solve [auto with instr]|by apply instr_exception, args_0]|]). auto with instr.
Qed.

Lemma instr_bcond insn : instr (bcond insn).
Proof. unfold bcond. cbn [switch]. repeat (apply instr_if; [solve [auto with instr]|]). auto with instr. Qed.

#[local] Hint Resolve instr_special instr_bcond : instr.

Lemma instr_case (b : bool) m1 m2 : (b = true → instr m1) → instr m2 → instr (if b then m1 else m2).
Proof. destruct b; auto. Qed.

(** What an instruction may make devices do. *)
Definition may_fail (insn : Z) (d : D) : Prop := touches insn = true ∧ io_fails d ∨ waits insn = true ∧ wait_fails d.

Lemma instr_dispatch insn : (∀ d, may_fail insn d → dv d) → instr (dispatch (opcode insn) insn).
Proof.
  intros Hd. assert (opcode insn ∈ [32; 33; 34; 35; 36; 37; 38; 40; 41; 42; 43; 46] → ∀ d, io_fails d → dv d) as Hio.
  { intros Hin d Hf. apply Hd. left. split; [|done]. by apply bool_decide_eq_true. }
  assert (opcode insn ∈ [16; 17; 18; 19] → instr (mx_copz insn)) as Hcop.
  { intros Hin. apply instr_copz. intros E d Hf. apply Hd. right. split; [|done]. unfold waits. by rewrite bool_decide_true, E. }
  unfold dispatch. cbn [switch].
  repeat (apply instr_case; [intros E%Z.eqb_eq;
    match goal with
    | |- instr (mx_copz _) => apply Hcop
    | |- instr (mx_lw _) => apply instr_lw, Hio
    | |- instr (mx_sw _) => apply instr_sw, Hio
    | |- _ => first [solve [auto with instr]|apply instr_load, Hio|apply instr_store; [apply Hio|done|done]]
    end; rewrite E, !elem_of_cons; tauto|]). auto with instr.
Qed.

End instr.

(** ** The cycle *)
Lemma core_set_stats s x : core s → core (set_stats x s).
Proof. intros [C1 C2 C3 C4 C5 C6 C7]. by constructor. Qed.

Lemma settled_set_stats s x : settled s → settled (set_stats x s).
Proof.
  intros (Hc & Hp & Hn). split; [by apply core_set_stats|]. split; [exact Hp|]. destruct Hn as [Hn|[E Hi]]; [by left|right].
  split; [done|]. unfold insn_at in *. by eapply bus_use_map_same.
Qed.

Lemma begin_settled s : good s → settled (set_pcs (begin_cycle (get_pcs s)) s).
Proof.
  intros ((Hc & Hp & Hn) & _). destruct (co_pcs _ Hc) as (P1 & P2 & P3).
  assert (pcs_ok (begin_cycle (get_pcs s))) as Hb by (unfold begin_cycle; destruct (jumping _); by split_and!).
  split; [by apply core_set_pcs|]. unfold pc_ok, nextpc_ok, insn_at in *. cbn [get_pcs set_pcs set_cpu mycpu c_pcs bus_ramsize].
  unfold begin_cycle. destruct (jumping (get_pcs s)); cbn; (split; [exact Hp|]); (destruct Hn as [Hn|[E Hi]]; [by left|right]);
    (split; [done|]); by eapply bus_use_map_same.
Qed.

Lemma take_irq_safe dev pan und s :
  settled s → safe dev pan und take_irq (fun _ s' => settled s' ∧ get_regs s' = get_regs s ∧ gdb_listening s' = gdb_listening s ∧
    devices s' = devices s ∧ (irq_pending s = false → s' = s)) s.
Proof.
  intros Hs. pose proof Hs as (Hc & _). unfold take_irq. step. apply safe_if; [|intros _; by split_and!]. intros Hi. apply safe_bind.
  eapply safe_ok; [apply exception_run, (co_size _ Hc)|]. cbv beta. eapply safe_ok; [reflexivity|].
  destruct (entered_ready EX_IRQ 0 0 s Hc ltac:(done)) as [(R1 & R2 & R3) _]. split; [|rewrite Hi; by split_and!]. split_and!; [|exact R2|by left].
  apply core_set_pcs; [done|]. destruct (co_pcs _ R1) as (_ & ? & ?). by split_and!.
Qed.

(** What the fetch leaves: with RFE the pages may still be missing. *)
Definition fetched (insn : Z) s (ok : bool) s' : Prop :=
  if ok then core s' ∧ (insn = FULLOP_RFE ∨ ready s') ∧ get_regs s' = get_regs s ∧ gdb_listening s' = gdb_listening s ∧ devices s' = devices s
  else ready s' ∧ in_jumpdelay (get_pcs s') = false.

Lemma next_offset a : aligned a → Z.land (u32 (a + 4)) 0xfff ≠ 0 → u32 (a `mod` 4096 + 4) = u32 (a + 4) `mod` 4096 ∧ u32 (a + 4) = a + 4.
Proof.
  intros [Hw Ha] Hz. rewrite land_fff in Hz. unfold word in Hw. assert (a + 4 < 2 ^ 32) as Hlt.
  { destruct (Z.eq_dec (a + 4) (2 ^ 32)) as [E|]; [by rewrite E in Hz|]. apply Z.mod_divide in Ha as [k ->]; lia. }
  rewrite (u32_small (a + 4)) in * by lia. split; [|done]. pose proof (Z.mod_pos_bound a 4096 ltac:(lia)) as Hb. rewrite u32_small by lia.
  pose proof (Z.div_mod a 4096 ltac:(lia)) as Hd. rewrite <- Z.add_mod_idemp_l in * by lia.
  destruct (decide (a `mod` 4096 + 4 = 4096)) as [E|E]; [by rewrite E in Hz|]. symmetry. apply Z.mod_small.
  assert ((a `mod` 4096) `mod` 4 = 0) as H4 by (by rewrite mod4_of_4096). apply Z.mod_divide in H4 as [k Hk]; lia.
Qed.

Lemma step_pc_safe dev pan und insn s :
  settled s → insn_at s insn → safe dev pan und (step_pc insn) (fetched insn s) s.
Proof.
  intros (Hc & Hp & Hn) Hi. unfold step_pc. step. set (s1 := set_pcs _ s). destruct (co_pcs _ Hc) as (P1 & P2 & P3).
  assert (core s1) as Hc1 by (apply core_set_pcs; [done|]; split_and!; cbn; [done|done|by apply aligned_next]).
  assert (insn = FULLOP_RFE ∨ nextpc_ok s) as Hcase.
  { destruct Hn as [?|[_ E]]; [by right|left]. unfold insn_at in *. congruence. }
  step. destruct (Z.eqb_spec (Z.land (nextpc (get_pcs s1)) 0xfff) 0) as [Ez|Ez].
  - destruct (Z.eqb_spec insn FULLOP_RFE) as [->|Hne].
    + step. split_and!; try done; [|by left]. apply core_set_pcs; [done|]. by destruct (co_pcs _ Hc1) as (? & ? & ?).
    + destruct Hcase as [|Hnp]; [done|]. assert (pc_ok s1) as Hp1 by exact Hnp.
      destruct (precompute_nextpc_looked s1 Hc1) as [(pa & pg & Et & Em & E)|(_ & code & cn & va & s2 & Hn2 & Hx & E)]; (eapply safe_ok; [exact E|]).
      * destruct (looked_true s1 _ pa pg Hc1 (aligned_next _ P3) Et Em) as (Hpg & Hct & Es & Ep).
        assert (get_regs (touch (nextpc (get_pcs s1)) s1) = get_regs s ∧ gdb_listening (touch (nextpc (get_pcs s1)) s1) = gdb_listening s ∧
          devices (touch (nextpc (get_pcs s1)) s1) = devices s) as (Er & Eg & Ed).
        { unfold touch. by destruct (_ =? 2). }
        split_and!; [apply core_set_pcs; [done|exact (co_pcs _ Hc1)]|right|exact Er|exact Eg|exact Ed].
        split_and!; [apply core_set_pcs; [done|exact (co_pcs _ Hc1)]|unfold pc_ok; cbn; by rewrite Es|unfold nextpc_ok; cbn; by rewrite Es].
      * apply entered_ready; [|done]. by eapply near_core.
  - step. destruct (next_offset _ P3 Ez) as [Eo Ea].
    split_and!; [apply core_set_pcs; [done|exact (co_pcs _ Hc1)]| |done|done|done]. destruct Hcase as [|Hnp]; [by left|right].
    split_and!; [apply core_set_pcs; [done|exact (co_pcs _ Hc1)]|exact Hnp|]. destruct Hnp as [Hoff Hpg]. split; [|exact Hpg].
    cbn. rewrite Hoff. exact Eo.
Qed.

Definition ended s : machine D :=
  let g := get_regs s in
  let p := get_pcs s in
  let m := get_mmu s in
  set_mmu (mkmmu (tlb m) (tlbentry m) (tlbindex m) (tlbpf m) (tlbrandom m + 1))
    (set_pcs (mkpcs (jumping p) false (expc p) (pc p) (nextpc p) (pcoff p) (nextpcoff p) (pcpage p) (nextpcpage p))
      (set_regs (mkregs (r g) (lo g) (hi g) (down (lowait g)) (down (hiwait g))) s)).

Lemma end_cycle_safe dev pan (und : Prop) s :
  settled s → (B = 2 ^ 31 - 1 → und) → safe dev pan und end_cycle (fun _ s' => ∃ s2, settled s2 ∧ s' = ended s2) s.
Proof.
  intros Hs Hu. unfold safe, end_cycle. destruct (Z.eqb_spec (tlbrandom (get_mmu s)) (2 ^ 31 - 1)) as [E|E]; [|by exists s].
  left. apply Hu. destruct (co_mmu _ (proj1 Hs)) as (_ & _ & _ & _ & ?). lia.
Qed.

(** The instruction of this cycle reaches devices that fail; with an interrupt it is the first of the handler. *)
Definition device_fails s : Prop := ∃ insn, (irq_pending s = true ∨ insn_at s insn) ∧ may_fail insn (devices s).

Lemma cycle_runs s :
  good s →
  safe (device_fails s) (stalled s ∨ gdb_listening s = true) (overflows s ∨ B = 2 ^ 31 - 1) cpu_cycle
    (fun _ s' => good s' ∨ ∃ s2, settled s2 ∧ s' = ended s2) s.
Proof.
  intros Hg. unfold cpu_cycle. step. set (s0 := set_pcs _ s). eapply safe_then; [by apply take_irq_safe, begin_settled|].
  intros _ s1 (Hs1 & Er1 & Eg1 & Ed1 & Ei1). cbv beta.
  step. set (s2 := set_stats _ s1). assert (settled s2) as Hs2 by (by apply settled_set_stats). step.
  pose proof Hs2 as (Hc2 & Hp2 & _). destruct (bus_use_map_ok _ _ _ s2 Hc2 Hp2) as (insn & Ei); [apply (co_pcs _ Hc2)|].
  apply safe_bind. eapply safe_ok; [exact Ei|]. cbv beta. eapply safe_then; [by apply step_pc_safe|]. intros ok s3 Hf. cbv beta. unfold fetched in Hf.
  destruct ok; cbn [negb].
  2: { eapply safe_ok; [reflexivity|]. left. destruct Hf as [R ?]. split; [by apply ready_settled|done]. }
  destruct Hf as (Hc3 & Hr3 & Er3 & Eg3 & Ed3). step.
  assert (get_regs s3 = get_regs s) as Er by (rewrite Er3; exact Er1).
  assert (gdb_listening s3 = gdb_listening s) as Eg by (rewrite Eg3; exact Eg1).
  assert (devices s3 = devices s) as Ed by (rewrite Ed3; exact Ed1).
  assert (stalled s3 → stalled s) as Hst by (unfold stalled; by rewrite Er).
  assert (overflows s3 → overflows s) as Hov by (unfold overflows, reg; by rewrite Er).
  assert (may_fail insn (devices s3) → device_fails s) as Hmay.
  { rewrite Ed. intros Hm. exists insn. split; [|done]. destruct (irq_pending s) eqn:Hirq; [by left|right]. specialize (Ei1 Hirq).
    assert (insn_at s0 insn) as Hi0 by (unfold insn_at; rewrite <- Ei1; by eapply bus_use_map_same).
    unfold insn_at, s0, begin_cycle in Hi0. cbn -[bus_use_map] in Hi0. by destruct (jumping (get_pcs s)); eapply bus_use_map_same. }
  set (op := Z.shiftr (Z.land insn 0xfc000000) 26).
  assert (∀ m, safe (may_fail insn (devices s3)) (stalled s3) (overflows s3) m (fun (_ : unit) s' => settled s') s3 →
    safe (device_fails s) (stalled s ∨ gdb_listening s = true) (overflows s ∨ B = 2 ^ 31 - 1) (let* _ := m in end_cycle)
      (fun _ s' => good s' ∨ ∃ s2, settled s2 ∧ s' = ended s2) s3) as Hend.
  { intros m Hm. eapply safe_then; [eapply safe_weaken; [exact Hm|done|by left; auto|by left; auto]|]. intros u s4 Hs4. cbv beta.
    eapply safe_mono; [apply end_cycle_safe; [exact Hs4|by right]|]. intros ? s' ?. by right. }
  destruct Hr3 as [-> | Hr3].
  - step. apply Hend. change (dispatch op FULLOP_RFE) with (mx_copz FULLOP_RFE). change ((op =? 0) && _) with false. cbv iota.
    eapply safe_mono; [by apply rfe_safe|]. intros ? s' R. by apply ready_settled.
  - destruct ((op =? 0) && (Z.land insn 0x3f =? OPS_BREAK)).
    + unfold gdb_canhandle. apply safe_bind. step. eapply safe_ok; [reflexivity|]. cbv beta. destruct (gdb_listening s3) eqn:Egdb.
      * apply safe_if.
        { intros _. eapply safe_then; [apply phony_exception_safe; [done|right; congruence]|]. intros ? s4 [R Hd]. cbv beta.
          step. eapply safe_ok; [reflexivity|]. left. destruct R as ([C1 C2 C3 C4 C5 C6 C7] & R2 & R3).
          split; [|exact Hd]. split_and!; [by constructor|exact R2|by left]. }
        intros _. apply Hend. apply (instr_exception (may_fail insn)); [by apply args_0|done].
      * cbn [andb]. cbv iota. apply Hend. apply (instr_exception (may_fail insn)); [by apply args_0|done].
    + step. apply Hend. by apply (instr_dispatch (may_fail insn)).
Qed.
End proofs.

Section bounds.
Context {D : Type} `{Bus D}.
Implicit Types s : machine D.

Lemma core_mono B B' s : B ≤ B' → core B s → core B' s.
Proof.
  intros HB [C1 C2 (M1 & M2 & M3 & M4 & M5) C4 C5 C6 C7]. constructor; try done. split_and!; (done || lia).
Qed.

Lemma good_mono B B' s : B ≤ B' → good B s → good B' s.
Proof. intros HB ((Hc & Hp & Hn) & Hd). split; [|done]. split_and!; [by eapply core_mono|done..]. Qed.

Lemma ended_good B s : settled B s → good (B + 1) (ended s).
Proof.
  intros (Hc & Hp & Hn). destruct Hc as [C1 C2 (M1 & M2 & M3 & M4 & M5) C4 C5 C6 C7]. split; [|done]. split_and!.
  - constructor; try done.
    + destruct C1 as (G1 & G2 & G3 & G4 & G5 & G6). unfold ended, down. split_and!; cbn; try done; repeat case_if; lia.
    + split_and!; cbn; (done || lia).
  - exact Hp.
  - destruct Hn as [Hn|[E Hi]]; [by left|right]. split; [done|]. unfold insn_at in *. by eapply bus_use_map_same.
Qed.

(** ** Theorems *)

(** C11: Taking an exception ends: [exception] and the lookups of the handler's pages call each other, but in a machine with memory the handler is always there,
    so the calls do not nest, however much of the recursion is allowed, and the processor is in the kernel at the vector. *)
Theorem exception_terminates fuel code cn va s :
  0 < bus_ramsize s →
  ∃ s', exception_loop (S fuel) code cn va s = Ok (tt, s') ∧ exception code cn va s = Ok (tt, s') ∧ IS_USERMODE s' = false ∧
    pc (get_pcs s') = vector (has (status_bits (get_status s)) 0x00400000) code cn ∧ ram s' = ram s ∧ get_regs s' = get_regs s.
Proof.
  intros Hs. exists (entered code cn va s). split; [by apply exception_eq|]. split; [by apply exception_run|]. done.
Qed.


Lemma reset_mmu_ok m : mmu_ok 55 (reset_mmu m).
Proof.
  split_and!; try done. unfold mt_ok, word. repeat constructor; vm_compute; done.
Qed.

Lemma reset_core s :
  size_ok (bus_ramsize s) → ram_ok (ram s) → get_regs s = reset_regs → pcs_ok (get_pcs s) → core 55
    (set_exn reset_exn (set_status reset_status (set_mmu (reset_mmu (get_mmu s)) s))).
Proof.
  intros Hs Hr Eg Hp. constructor; try done; [|apply reset_mmu_ok]. change (regs_ok (get_regs s)). rewrite Eg.
  split_and!; try done. apply list.Forall_forall. intros x Hx%elem_of_replicate_inv. subst x. done.
Qed.

(** Reset: the processor starts in the boot ROM. *)
Lemma mips_init_good s :
  size_ok (bus_ramsize s) → ram_ok (ram s) → IS_USERMODE s = false → ∃ s', mips_init s = Ok (tt, s') ∧ good 55 s'.
Proof.
  intros Hs Hr Hu. unfold mips_init. erewrite bind_ok by reflexivity.
  assert (mapmem (bus_ramsize s) 0x1fc00000 = Some (RomPage 0) ∧ mapmem (bus_ramsize s) 0x1fc00004 = Some (RomPage 0)) as [E1 E2] by done.
  erewrite bind_ok; [|eapply (precompute_pc_ok exception); [by apply translate_kseg|exact E1]]. cbn [negb]. set (s1 := set_pcs _ _).
  erewrite bind_ok; [|eapply (precompute_nextpc_ok exception); [by apply translate_kseg|exact E2]]. set (s2 := set_pcs _ _). eexists. split; [reflexivity|].
  split; [|done]. split_and!; [by apply (reset_core s2)|done|by left].
Qed.
End bounds.

(** ** A machine without devices *)
#[global] Instance no_devices : Bus unit := {
  bus_io_fetch _ := mret None;
  bus_io_store _ _ := mret false;
  bus_interrupts _ := 0;
  clock_waitirq := mret tt
}.

(** The processor before reset, static data of the simulator. *)
Definition mycpu0 : mipscpu :=
  mkcpu reset_regs (mkpcs false false 0 0 0 0 0 None None)
    (mkmmu (replicate NTLB (mkmt false false false false 0 0 0)) (mkmt false false false false 0 0 0) 0 false 0)
    (mkstatus false false false false false false false 0 0) (mkexn false 0 0 0 0 0 0 0).

Definition machine0 (code : gmap Z Z) : machine unit := mkmach mycpu0 code 8192 tt (mkstats 0 0 0 0) false false.

Lemma no_devices_work (s : machine unit) : device_fails s → False.
Proof. intros (insn & _ & [[_ Hf]|[_ Hf]]); [|discriminate Hf]. destruct Hf as [? ? Hf|? ? ? Hf|? ? ? ? _ (? & ? & Hf)]; discriminate Hf. Qed.


Lemma exception_terminates_witness :
  ∃ s', exception_loop 1 EX_SYS 0 0 (machine0 ∅) = Ok (tt, s') ∧ pc (get_pcs s') = 0x80000080.
Proof.
  destruct (exception_terminates 0 EX_SYS 0 0 (machine0 ∅)) as (s' & E & _ & _ & Ep & _); [cbn; lia|]. exists s'. split; [exact E|exact Ep].
Defined.

(** Register 0 is not wired to zero: [addiu $0, $0, 5] changes it. *)
Example zero_register_writable :
  match (let* _ := mips_init in let* _ := cpu_set_entrypoint 0x80001000 in let* _ := cpu_cycle in gets (reg 0))
          (machine0 (put_word 0x1000 0x24000005 ∅)) with
  | Ok (v, _) => v = 5
  | _ => False
  end.
Proof. vm_compute. reflexivity. Qed.

(** The quotient of -2^31 and -1 stops the simulator. *)
Example divide_overflows :
  (let* _ := mips_init in let* _ := set_reg 8 (- 2 ^ 31) in let* _ := set_reg 9 (-1) in mx_div 0x0109001a) (machine0 ∅) = Undef.
Proof. vm_compute. reflexivity. Qed.

(** Entering user mode by writing the status register, in place of RFE, leaves the processor on a page it may not
    read: [mtc0 $8, $12; mult; mflo] aborts the simulator. *)
Example user_mode_by_mtc0 :
  (let* _ := mips_init in let* _ := cpu_set_entrypoint 0x80001000 in let* _ := set_reg 8 2 in
   let* _ := cpu_cycle in let* _ := cpu_cycle in cpu_cycle)
    (machine0 (put_word 0x1000 0x40886000 (put_word 0x1004 0x01080018 (put_word 0x1008 0x00004812 ∅)))) = Panic.
Proof. vm_compute. reflexivity. Qed.

End Mipssafe.
