(* ===== verification/Mipsuser.v ===== *)
(** * User mode is confined

    A program in user mode can reach memory and devices only through the pages the kernel has put into the TLB, cannot
    change the TLB, the status register or any other register of the kernel, and leaves user mode only through an exception
    vector.  [confined] says so for one cycle; [user] is the invariant of a program that runs in user mode: the
    pages the processor has cached are the translations of its program counters. *)
From stdpp Require Import base list gmap numbers.
From S2P Require Import Prelude Mips Mipsinsn Mipssafe.
Local Open Scope Z_scope.

Module Mipsuser.
Import Mips Mipsinsn Mipssafe.

Section user.
Context {D : Type} `{Bus D}.
Implicit Types s : machine D.

(** ** What the TLB grants *)

(** The physical address [pa] is in a page mapped for the current address space, for writing if [w]. *)
Definition granted s (w : bool) (pa : Z) : Prop :=
  ∃ e, e ∈ tlb (get_mmu s) ∧ (mt_pid e = mt_pid (tlbentry (get_mmu s)) ∨ mt_global e = true) ∧ mt_vpn e < 0x80000000 ∧
    mt_valid e = true ∧ (w = true → mt_dirty e = true) ∧ mt_pfn e ≤ pa < mt_pfn e + 4096.

(** The byte of memory at a physical address. *)
Definition ram_at (pa : Z) : option Z :=
  if pa <? 0x1fc00000 then Some pa else if pa <? 0x20000000 then None else Some (pa - 0x400000).

Definition may_write s (a : Z) : Prop := ∃ pa, granted s true pa ∧ ram_at pa = Some a.
Definition may_io s : Prop := ∃ pa, granted s false pa ∧ 0x1fe00000 ≤ pa < 0x20000000.

(** Nothing protected has changed. *)
Record kept s s' : Prop := {
  ke_status : get_status s' = get_status s;
  ke_exn : get_exn s' = get_exn s;
  ke_mmu : ∃ v, get_mmu s' = set_vpn v (get_mmu s);
  ke_size : bus_ramsize s' = bus_ramsize s;
  ke_flags : stop_flag s' = stop_flag s ∧ gdb_listening s' = gdb_listening s;
  ke_ram a : ram s' !! a = ram s !! a ∨ may_write s a;
  ke_dev : devices s' = devices s ∨ may_io s
}.

Lemma kept_refl s : kept s s.
Proof. constructor; auto. exists (mt_vpn (tlbentry (get_mmu s))). by rewrite set_vpn_id. Qed.

Lemma granted_kept s s' w pa : kept s s' → granted s' w pa ↔ granted s w pa.
Proof. intros [_ _ [v E] _ _ _ _]. unfold granted. by rewrite E. Qed.

Lemma kept_trans s1 s2 s3 : kept s1 s2 → kept s2 s3 → kept s1 s3.
Proof.
  intros K1 [B1 B2 B3 B4 B5 B6 B7]. pose proof (granted_kept s1 s2) as Hg. pose proof K1 as [A1 A2 A3 A4 A5 A6 A7]. constructor; try congruence.
  - destruct A3 as [v E], B3 as [w E']. exists w. by rewrite E', E.
  - destruct A5, B5. split; congruence.
  - intros a. destruct (B6 a) as [E|(pa & G & ?)]; [destruct (A6 a); [left; congruence|by right]|right]. exists pa. by rewrite <- Hg.
  - destruct B7 as [E|(pa & G & ?)]; [destruct A7; [left; congruence|by right]|right]. exists pa. by rewrite <- Hg.
Qed.

(** A translation depends on nothing that [kept] lets change. *)
Lemma translated_kept s s' a w : kept s s' → translated s' a w = translated s a w.
Proof. intros [A1 _ [v E] _ _ _ _]. unfold translated, IS_USERMODE. by rewrite A1, E. Qed.

Lemma fetchable_kept s s' a : kept s s' → fetchable s' a ↔ fetchable s a.
Proof. intros K. unfold fetchable. by rewrite (translated_kept _ _ _ _ K), (ke_size _ _ K). Qed.

(** The cached page of an address is the page it translates to. *)
Definition cached s (a : Z) (off : Z) (pg : option page) : Prop :=
  ∃ pa, translated s a false = Some pa ∧ pg = mapmem (bus_ramsize s) pa ∧ is_Some pg ∧ off = a `mod` 4096.

Lemma cached_kept s s' a off pg : kept s s' → cached s' a off pg ↔ cached s a off pg.
Proof. intros K. unfold cached. by rewrite (translated_kept _ _ _ _ K), (ke_size _ _ K). Qed.

Lemma cached_fetchable s a off pg : cached s a off pg → fetchable s a.
Proof. intros (pa & Et & -> & [p Ep] & _). by exists pa, p. Qed.

Lemma user_low s a w pa : IS_USERMODE s = true → translated s a w = Some pa → a < 0x80000000.
Proof. intros Hu. unfold translated. rewrite Hu, andb_true_r. destruct (Z.geb_spec a 0x80000000); [done|lia]. Qed.

Lemma translated_debug s a w pa : translated s a w = Some pa → debug_translatemem (get_mmu s) a w = Some pa.
Proof. unfold translated. by destruct (_ && _). Qed.

(** What a user address translates to is granted. *)
Lemma translated_granted B s a w pa k :
  core B s → IS_USERMODE s = true → word a → translated s a w = Some pa → 0 ≤ k < 4 → granted s w (pa + k).
Proof.
  intros Hc Hu Ha Et Hk. pose proof (user_low _ _ _ _ Hu Et) as Hlow.
  destruct (debug_translatemem_Some B _ _ _ _ (co_mmu _ _ Hc) Ha (translated_debug _ _ _ _ Et)) as (H4 & _ & _ & Hcase).
  unfold word in Ha. assert (Z.shiftr a 30 ≠ 2) as Hseg.
  { rewrite Z.shiftr_div_pow2 by lia. assert (a `div` 2 ^ 30 < 2) by (apply Z.div_lt_upper_bound; lia). lia. }
  destruct Hcase as [[? _]|(_ & e & He & Hok & (Hv & Hp) & Hval & Hd & ->)]; [done|]. exists e.
  pose proof (Z.mod_pos_bound a 4096 ltac:(lia)). pose proof (Z.mod_le a 4096 ltac:(lia) ltac:(lia)).
  assert ((a `mod` 4096) `mod` 4 = 0) as Hz by (by rewrite mod4_of_4096). apply Z.mod_divide in Hz as [j Hj]; [|lia].
  split_and!; try done; lia.
Qed.

(** ** Leaving user mode *)

(** An exception was taken, with nothing protected changed before. *)
Definition trapped s s' : Prop :=
  ∃ s1 code cn va, kept s s1 ∧ expc (get_pcs s1) = expc (get_pcs s) ∧ in_jumpdelay (get_pcs s1) = in_jumpdelay (get_pcs s) ∧
    exn_args code cn va ∧ s' = entered code cn va s1.

Lemma trapped_after s s1 s' :
  kept s s1 → expc (get_pcs s1) = expc (get_pcs s) → in_jumpdelay (get_pcs s1) = in_jumpdelay (get_pcs s) → trapped s1 s' → trapped s s'.
Proof.
  intros K E1 E2 (s2 & code & cn & va & K2 & F1 & F2 & Hx & ->). exists s2, code, cn, va.
  split_and!; [by eapply kept_trans|congruence|congruence|done|done].
Qed.

Lemma trapped_here s code cn va : exn_args code cn va → trapped s (entered code cn va s).
Proof. intros Hx. exists s, code, cn, va. split_and!; try done. apply kept_refl. Qed.

Lemma near_kept B s s1 : core B s → near s s1 → kept s s1.
Proof.
  intros Hc [A1 A2 A3 A4 A5 A6 (v & _ & _ & A7) A8 A9 A10 A11 A12 A13 A14]. constructor; try done; [by exists v|left; congruence|by left].
Qed.

(** ** Instructions in user mode *)
Context (B : Z) (HB : 55 ≤ B < 2 ^ 31).

(** A program about to execute an instruction: the program counters have moved on. *)
Record uready s : Prop := {
  ur_core : core B s;
  ur_user : IS_USERMODE s = true;
  ur_pc : cached s (pc (get_pcs s)) (pcoff (get_pcs s)) (pcpage (get_pcs s));
  ur_next : cached s (nextpc (get_pcs s)) (nextpcoff (get_pcs s)) (nextpcpage (get_pcs s));
  ur_seq : nextpc (get_pcs s) = u32 (pc (get_pcs s) + 4);
  ur_jump : jumping (get_pcs s) = false;
  ur_expc : fetchable s (expc (get_pcs s)) ∧ fetchable s (u32 (expc (get_pcs s) + 4))
}.

(** Between instructions. *)
Record sync s : Prop := {
  sy_pc : cached s (pc (get_pcs s)) (pcoff (get_pcs s)) (pcpage (get_pcs s));
  sy_next : cached s (nextpc (get_pcs s)) (nextpcoff (get_pcs s)) (nextpcpage (get_pcs s)) ∨
    nextpcpage (get_pcs s) = None ∧ insn_at s FULLOP_RFE;
  sy_seq : if jumping (get_pcs s) then fetchable s (expc (get_pcs s)) ∧ fetchable s (u32 (expc (get_pcs s) + 4))
           else nextpc (get_pcs s) = u32 (pc (get_pcs s) + 4)
}.

Definition stays s s' : Prop := kept s s' ∧ sync s'.

Lemma uready_sync s : uready s → sync s.
Proof. intros [U1 U2 U3 U4 U5 U6 U7]. constructor; [done|by left|]. by rewrite U6. Qed.

Lemma cached_page_ok s a off pg : core B s → aligned a → cached s a off pg → page_ok (bus_ramsize s) pg off a.
Proof.
  intros Hc [Ha _] (pa & Et & Em & [p Ep] & ->). destruct (translated_Some B _ _ _ _ Hc Ha Et) as (_ & Hw & Eo).
  rewrite Em in Ep. pose proof (mapmem_ok (bus_ramsize s) pa p a Hw Eo Ep) as [_ Hp]. rewrite Em, Ep. split; [done|exact Hp].
Qed.

Lemma uready_ready s : uready s → ready B s.
Proof.
  intros [U1 U2 U3 U4 U5 U6 U7]. destruct (co_pcs _ _ U1) as (_ & P2 & P3). split_and!; [done|by apply cached_page_ok..].
Qed.

(** A change of general registers or of granted memory. *)
Definition moved s s' : Prop := kept s s' ∧ get_pcs s' = get_pcs s ∧ core B s'.

Lemma moved_uready s s' : uready s → moved s s' → uready s'.
Proof.
  intros [U1 U2 U3 U4 U5 U6 U7] (K & Ep & Hc). constructor; rewrite ?Ep, ?(cached_kept _ _ _ _ _ K), ?(fetchable_kept _ _ _ K); try done.
  unfold IS_USERMODE. by rewrite (ke_status _ _ K).
Qed.

Lemma moved_refl s : core B s → moved s s.
Proof. intros Hc. split_and!; [apply kept_refl|done..]. Qed.

Lemma moved_trans s1 s2 s3 : moved s1 s2 → moved s2 s3 → moved s1 s3.
Proof. intros (K1 & E1 & C1) (K2 & E2 & C2). split_and!; [by eapply kept_trans|congruence|done]. Qed.

Lemma moved_regs s g : core B s → regs_ok g → moved s (set_regs g s).
Proof.
  intros [C1 C2 C3 C4 C5 C6 C7] Hg. split_and!; [|done|by constructor]. destruct (kept_refl s) as [? ? ? ? ? ? ?]. by constructor.
Qed.

Lemma moved_put_reg s i v : core B s → moved s (put_reg i v s).
Proof. intros Hc. apply moved_regs; [done|]. apply regs_ok_insert, (co_regs _ _ Hc). Qed.

Lemma moved_stays s s' : uready s → moved s s' → stays s s'.
Proof. intros Hu Hm. split; [apply Hm|]. by eapply uready_sync, moved_uready. Qed.

Lemma stays_after s s1 s' : kept s s1 → stays s1 s' → stays s s'.
Proof. intros K [K' Sy]. split; [by eapply kept_trans|done]. Qed.

Definition ends s s' : Prop := stays s s' ∨ trapped s s'.

Lemma ends_after s s1 s' : moved s s1 → ends s1 s' → ends s s'.
Proof.
  intros (K & Ep & _) [Hs|Ht]; [left; by eapply stays_after|right]. eapply trapped_after; [done|by rewrite Ep|by rewrite Ep|done].
Qed.

(** The program can reach devices, and they fail. *)
Definition io_stops s : Prop := may_io s ∧ io_fails (devices s).

Definition uinstr (m : M (machine D) unit) : Prop := ∀ s, uready s → safe (io_stops s) False (overflows s) m (fun _ s' => ends s s') s.
Definition uplain (m : M (machine D) unit) : Prop := ∀ s, uready s → safe (io_stops s) False False m (fun _ s' => ends s s') s.

Lemma uplain_uinstr m : uplain m → uinstr m.
Proof. intros Hm s Hr. by eapply safe_weaken; [apply Hm|..]. Qed.

Lemma exception_ends dev pan und code cn va s : uready s → exn_args code cn va → safe dev pan und (exception code cn va) (fun _ s' => ends s s') s.
Proof.
  intros Hu Hx. eapply safe_ok; [apply exception_run, (co_size _ _ (ur_core _ Hu))|]. right. by apply trapped_here.
Qed.

(** *** Memory *)
Lemma put_word_out o v (m : gmap Z Z) a : ¬ (o ≤ a < o + 4) → put_word o v m !! a = m !! a.
Proof. intros Ha. unfold put_word. rewrite !lookup_insert_ne by lia. done. Qed.

Lemma core_set_ram s m : core B s → ram_ok m → core B (set_ram m s).
Proof. intros [C1 C2 C3 C4 C5 C6 C7] Hm. by constructor. Qed.

Lemma core_set_devices s d : core B s → core B (set_devices d s).
Proof. intros [C1 C2 C3 C4 C5 C6 C7]. by constructor. Qed.

Lemma moved_store s o v :
  core B s → (∀ k, 0 ≤ k < 4 → may_write s (o + k)) → moved s (set_ram (put_word o v (ram s)) s).
Proof.
  intros Hc Hw. split_and!; [|done|apply core_set_ram; [done|]; by apply ram_ok_put, (co_ram _ _ Hc)].
  destruct (kept_refl s) as [? ? ? ? ? ? ?]. constructor; try done. intros a. cbn.
  destruct (decide (o ≤ a < o + 4)) as [Ha|Ha]; [right|left; by apply put_word_out]. replace a with (o + (a - o)) by lia. apply Hw. lia.
Qed.

Lemma moved_devices s d : core B s → may_io s → moved s (set_devices d s).
Proof.
  intros Hc Hio. split_and!; [|done|by apply core_set_devices]. destruct (kept_refl s) as [? ? ? ? ? ? ?]. constructor; try done. by right.
Qed.

(** A word of memory at a granted address. *)
Lemma may_write_word s pa o :
  word pa → pa `mod` 4 = 0 → (∀ k, 0 ≤ k < 4 → granted s true (pa + k)) →
  (pa < 0x1fc00000 ∧ o = pa ∨ 0x20000000 ≤ pa ∧ o = pa - 0x400000) → ∀ k, 0 ≤ k < 4 → may_write s (o + k).
Proof.
  intros Hw H4 Hg Ho k Hk. exists (pa + k). split; [by apply Hg|]. apply Z.mod_divide in H4 as [j Hj]; [|lia]. unfold ram_at.
  destruct Ho as [[Hlt ->]|[Hge ->]].
  - destruct (Z.ltb_spec (pa + k) 0x1fc00000); [done|lia].
  - destruct (Z.ltb_spec (pa + k) 0x1fc00000); [lia|]. destruct (Z.ltb_spec (pa + k) 0x20000000); [lia|]. f_equal. lia.
Qed.

(** How a data access ends.  After a fetch, a store that fails was to be expected. *)
Definition accessed (w : option Z) s (ov : option Z) s' : Prop :=
  match ov with
  | Some v => moved s s' ∧ word v ∧ (w = None → same_fails s s')
  | None => trapped s s'
  end.

Lemma fetch_moved dev pan und o s :
  core B s → o `mod` 4 = 0 → safe dev pan und (bus_mem_fetch o) (fun ov s' => moved s s' ∧ words ov) s.
Proof.
  intros Hc Ho. pose proof (word_fits _ o (co_size _ _ Hc) Ho) as Hf. unfold safe, bus_mem_fetch.
  destruct (o >=? bus_ramsize s); [by split; [apply moved_refl|]|]. cbn in Hf. rewrite andb_true_r in Hf. rewrite Hf.
  split; [by apply moved_refl|]. intros v [= <-]. by apply ram_word_range, (co_ram _ _ Hc).
Qed.

Lemma store_moved dev pan und o v s :
  core B s → o `mod` 4 = 0 → (∀ k, 0 ≤ k < 4 → may_write s (o + k)) → safe dev pan und (bus_mem_store o v) (fun _ s' => moved s s') s.
Proof.
  intros Hc Ho Hw. pose proof (word_fits _ o (co_size _ _ Hc) Ho) as Hf. unfold safe, bus_mem_store.
  destruct (o >=? bus_ramsize s); [by apply moved_refl|]. cbn in Hf. rewrite andb_true_r in Hf. rewrite Hf. by apply moved_store.
Qed.

Lemma bus_moved {A} (dev pan und : Prop) (m : M D A) s :
  core B s → may_io s → (is_ok (m (devices s)) = false → dev) →
  safe dev pan und (on_bus m) (fun a s' => moved s s' ∧ m (devices s) = Ok (a, devices s')) s.
Proof.
  intros Hc Hio Hd. unfold safe, on_bus, zoom. destruct (m (devices s)) as [[a d]| | |]; [|auto..]. by split; [apply moved_devices|].
Qed.

(** What an access may ask of the devices. *)
Definition io_dev (w : option Z) s (dev : Prop) : Prop :=
  if w is Some _ then may_io s → stores_fail (devices s) → dev else io_stops s → dev.

Definition writes (w : option Z) : bool := match w with Some _ => true | None => false end.

Lemma accessmem_user dev pan und pa w s :
  core B s → word pa → pa `mod` 4 = 0 → words w → (∀ k, 0 ≤ k < 4 → granted s (writes w) (pa + k)) → io_dev w s dev →
  safe dev pan und (accessmem pa w) (accessed w s) s.
Proof.
  intros Hc Hpa H4 Hw Hg Hdev. unfold accessmem. pose proof Hpa as Hb. unfold word in Hb.
  assert ((pa - 0x400000) `mod` 4 = 0) as E1.
  { pose proof (Z.mod_add pa (-1048576) 4 ltac:(lia)). by rewrite <- H4. }
  assert (∀ m, w ≠ None → safe dev pan und m (fun (_ : bool) s' => moved s s') s →
    safe dev pan und (let* ok := m in mret (if (ok : bool) then Some 0 else None)) (fun ov s' => moved s s' ∧ words ov ∧ (w = None → same_fails s s')) s) as Hst.
  { intros m Hn Hm. eapply safe_then; [exact Hm|]. intros ok s1 R1. split_and!; [done| |done]. destruct ok; intros v [= <-]. done. }
  assert (∀ o, o `mod` 4 = 0 → safe dev pan und (bus_mem_fetch o) (fun ov s' => moved s s' ∧ words ov ∧ (w = None → same_fails s s')) s) as Hfe.
  { intros o Ho. pose proof (fetch_moved dev pan und o s Hc Ho) as Hf. unfold safe, bus_mem_fetch in *.
    destruct (o >=? bus_ramsize s); [destruct Hf; split_and!; [done..|by intros _; apply same_fails_refl]|]. destruct (o + 4 >? bus_ramsize s); [done|].
    destruct Hf. split_and!; [done..|by intros _; apply same_fails_refl]. }
  eapply (safe_then _ _ _ _ _ (fun ov s' => moved s s' ∧ words ov ∧ (w = None → same_fails s s'))).
  2: { intros [v|] s1 (M1 & W1 & F1); [split_and!; [done|by apply W1|done]|]. apply safe_bind.
    eapply safe_ok; [apply exception_run, (co_size B s1), M1|]. destruct M1 as (K & Ep & _).
    eapply (trapped_after _ s1); [done|by rewrite Ep|by rewrite Ep|by apply trapped_here]. }
  destruct (Z.ltb_spec pa 0x1fc00000).
  { destruct w as [v|]; [apply Hst; [done|]; apply store_moved; [done|done|by apply (may_write_word s pa); [..|left]]|by apply Hfe]. }
  destruct (Z.ltb_spec pa 0x1fe00000).
  { destruct w as [v|]; [by split_and!; [apply moved_refl|..]|]. split_and!; [by apply moved_refl| |by intros _; apply same_fails_refl].
    unfold bootrom_fetch. destruct (_ >=? _); [done|]. intros v [= <-]. apply ntohl_word. }
  destruct (Z.ltb_spec pa 0x20000000).
  - assert (may_io s) as Hio.
    { exists pa. split; [|lia]. destruct (Hg 0 ltac:(lia)) as (e & ? & ? & ? & ? & ? & ?). rewrite Z.add_0_r in *. exists e. split_and!; (done || lia). }
    destruct w as [v|].
    + apply Hst; [done|]. eapply safe_mono; [apply bus_moved; [done|done|]|by intros ? ? []]. intros Hf. apply Hdev; [done|]. by eexists _, _.
    + eapply safe_then; [apply bus_moved; [done|done|]|].
      * intros Hf. apply Hdev. split; [done|]. by eapply fails_fetch.
      * intros ov s1 [R1 F1]. split_and!; [done| |]; [|intros _ Hf; by eapply fails_next].
        destruct ov as [v|]; [|done]. intros x [= <-]. apply word_u32.
  - destruct w as [v|]; [apply Hst; [done|]; apply store_moved; [done|done|by apply (may_write_word s pa); [..|right]]|by apply Hfe].
Qed.

Lemma may_io_kept s s' : kept s s' → may_io s' ↔ may_io s.
Proof. intros K. unfold may_io. by setoid_rewrite (granted_kept _ _ _ _ K). Qed.

Lemma touch_moved va s : core B s → word va → moved s (touch va s).
Proof.
  intros Hc Hva. split_and!; [|unfold touch; by destruct (_ =? 2)|by apply touch_core].
  eapply near_kept; [exact Hc|by eapply near_touch].
Qed.

Lemma domem_user dev pan und va w wr s :
  uready s → word va → words w → (writes w = true → wr = true) → io_dev w s dev → safe dev pan und (domem va w wr) (accessed w s) s.
Proof.
  intros Hu Hva Hw Hwr Hdev. pose proof (ur_core _ Hu) as Hc. unfold domem. pose proof (translatemem_run B va wr s Hc Hva) as Ht.
  pose proof (touch_moved va s Hc Hva) as (Kt & Ept & Hct). destruct (translated s va wr) as [pa|] eqn:E.
  - apply safe_bind. eapply safe_ok; [exact Ht|]. cbv iota beta. destruct (translated_Some B _ _ _ _ Hc Hva E) as (Ha & Hp & Eo).
    eapply safe_mono; [apply accessmem_user; [done|done| |done| |]|].
    + rewrite <- mod4_of_4096, Eo, mod4_of_4096. done.
    + intros k Hk. rewrite (granted_kept s) by done. destruct (translated_granted B s va wr pa k Hc (ur_user _ Hu) Hva E Hk) as (e & ? & ? & ? & ? & Hd & ?).
      exists e. split_and!; try (done || lia). intros Hw'. apply Hd, Hwr, Hw'.
    + unfold io_dev, io_stops in *. by destruct w; rewrite touch_keeps_devices, ?(may_io_kept _ _ Kt).
    + intros [v|] s' Hs'; [destruct Hs' as (Hm & ? & F); split_and!; [by eapply moved_trans|done|]; intros Hn Hf; rewrite <- (touch_keeps_devices va s); by apply F|]. eapply trapped_after; [exact Kt|by rewrite Ept|by rewrite Ept|done].
  - destruct Ht as (code & cn & s1 & Hs1 & Hx & E'). apply safe_bind. eapply safe_ok; [exact E'|]. cbv iota beta.
    destruct Hs1 as [-> | ->]; [by apply trapped_here|]. eapply trapped_after; [exact Kt|by rewrite Ept|by rewrite Ept|by apply trapped_here].
Qed.

(** *** Loads and stores *)
Lemma doload_user dev pan und ms a old s :
  uready s → word a → (io_stops s → dev) → safe dev pan und (doload ms a old) (fun ov s' => match ov with Some _ => moved s s' | None => trapped s s' end) s.
Proof.
  intros Hu Ha Hdev. unfold doload. destruct ms; try destruct (loadl_mask a); try destruct (loadr_mask a);
    (eapply safe_then; [apply (domem_user _ _ _ _ None false); [done|by apply word_land|done|done|done]|]); intros [v|] s1 Hs1; (done || apply Hs1).
Qed.

Lemma uplain_load ms insn : uplain (load_with ms insn).
Proof.
  intros s Hu. apply safe_ADDR. intros a Ha. apply safe_bind. eapply safe_ok; [reflexivity|]. cbv beta.
  eapply safe_then; [by apply doload_user|]. intros [v|] s1 H1; [|by right]. eapply safe_ok; [reflexivity|]. left.
  apply moved_stays; [done|]. eapply moved_trans; [exact H1|]. apply moved_put_reg, H1.
Qed.

Lemma uplain_lw insn : uplain (mx_lw insn).
Proof.
  intros s Hu. apply safe_ADDR. intros a Ha. eapply safe_then; [apply (domem_user _ _ _ a None false); [done|done|done|done|by intros ?]|]. intros [v|] s1 H1; [|by right].
  destruct H1 as [H1 _]. eapply safe_ok; [reflexivity|]. left. apply moved_stays; [done|]. eapply moved_trans; [exact H1|]. apply moved_put_reg, H1.
Qed.

Lemma uplain_sw insn : uplain (mx_sw insn).
Proof.
  intros s Hu. apply safe_ADDR. intros a Ha. apply safe_bind. eapply safe_ok; [reflexivity|]. cbv beta.
  eapply safe_then; [apply domem_user; [done|done|intros v [= <-]; apply word_u32|done|]|].
  { intros Hio (x & v & Hf). split; [done|]. by eapply fails_store. }
  intros [v|] s1 H1; [left|by right].
  by apply moved_stays; [|apply H1].
Qed.

Lemma update_word_user dev pan und a f s :
  uready s → word a → (∀ w, word w → word (f w)) → (io_stops s → dev) → safe dev pan und (update_word a f) (fun _ s' => ends s s') s.
Proof.
  intros Hu Ha Hf Hdev. unfold update_word. eapply safe_then; [by apply (domem_user _ _ _ a None true)|]. intros [w|] s1 H1; [|by right].
  destruct H1 as (H1 & W1 & F1). cbv beta iota. pose proof (moved_uready _ _ Hu H1) as Hu1.
  eapply safe_then; [apply (domem_user _ _ _ a (Some (f w)) true); [done|done|intros v [= <-]; by apply Hf|done|]|].
  { intros Hio Hs. apply Hdev. split; [by rewrite <- (may_io_kept s s1) by apply H1|by apply F1]. }
  intros [v|] s2 H2; (eapply ends_after; [exact H1|]); [left; by apply moved_stays; [|apply H2]|by right].
Qed.

Lemma uplain_store ms insn : ms ≠ S_SBYTE → ms ≠ S_SHALF → uplain (store_with ms insn).
Proof.
  intros H1 H2 s Hu. apply safe_ADDR. intros a Ha. apply safe_bind. eapply safe_ok; [reflexivity|]. cbv beta.
  destruct (dostore_update ms a (u32 (reg (NEEDRT insn) s)) Ha (word_u32 _) H1 H2) as (a' & f & E & Ha' & Hf). rewrite E.
  by apply update_word_user.
Qed.

(** *** Jumps *)
Ltac step := apply safe_bind; eapply safe_ok; [reflexivity|]; cbv beta iota.

Lemma kept_pcs s p : kept s (set_pcs p s).
Proof. destruct (kept_refl s) as [? ? ? ? ? ? ?]. by constructor. Qed.

Lemma insn_at_same s s' v :
  insn_at s v → pcpage (get_pcs s') = pcpage (get_pcs s) → pcoff (get_pcs s') = pcoff (get_pcs s) →
  ram s' = ram s → bus_ramsize s' = bus_ramsize s → insn_at s' v.
Proof. intros Hi E1 E2 E3 E4. unfold insn_at in *. rewrite E1, E2. by eapply bus_use_map_same. Qed.

(** A page that was looked up is cached. *)
Lemma looked_cached s a pa pg :
  core B s → word a → translated s a false = Some pa → mapmem (bus_ramsize s) pa = Some pg → cached s a (Z.land pa 0xfff) (Some pg).
Proof.
  intros Hc Ha Et Em. destruct (translated_Some B _ _ _ _ Hc Ha Et) as (_ & _ & Eo). exists pa. rewrite Em, land_fff. split_and!; done.
Qed.

Lemma uplain_abranch a : word a → uplain (abranch a).
Proof.
  intros Hw s Hu. pose proof Hu as [U1 U2 U3 U4 U5 U6 [U7 U8]]. unfold abranch. rewrite land3.
  destruct (Z.eqb_spec (a `mod` 4) 0) as [Ha|Ha]; cbn [negb]; [|by apply exception_ends].
  step. set (s1 := set_pcs _ s). pose proof (kept_pcs s (get_pcs s1) : kept s s1) as K1. destruct (co_pcs _ _ U1) as (P1 & P2 & P3).
  assert (core B s1) as Hc1 by (apply core_set_pcs; [done|]; by split_and!).
  step. destruct (bus_use_map_ok B (pcpage (get_pcs s)) (pcoff (get_pcs s)) (pc (get_pcs s)) s1 Hc1) as (v & Ev);
    [apply (cached_page_ok s); done|apply P2|].
  apply safe_bind. eapply safe_ok; [exact Ev|]. cbv beta. destruct (Z.eqb_spec v FULLOP_RFE) as [-> |].
  - eapply safe_ok; [reflexivity|]. left. set (s2 := set_pcs _ s1). pose proof (kept_pcs s (get_pcs s2) : kept s s2) as K2.
    split; [done|]. constructor; cbn; rewrite ?(cached_kept _ _ _ _ _ K2), ?(fetchable_kept _ _ _ K2); try done.
    right. split; [done|]. by apply (insn_at_same s1).
  - apply safe_bind. destruct (precompute_nextpc_looked B s1 Hc1) as [(pa & pg & Et & Em & E)|(_ & code & cn & va & s2 & Hn & Hx & E)]; (eapply safe_ok; [exact E|]).
    + left. destruct (touch_moved a s1 Hc1 Hw) as (Kt & Ept & _). set (s2 := set_pcs _ _).
      assert (kept s s2) as K2 by (eapply kept_trans; [exact K1|]; eapply kept_trans; [exact Kt|apply kept_pcs]).
      split; [done|]. constructor; cbn; rewrite ?(cached_kept _ _ _ _ _ K2), ?(fetchable_kept _ _ _ K2); try done.
      left. rewrite <- (cached_kept s s1) by done. by apply looked_cached.
    + right. exists s2, code, cn, va. split_and!; [|by rewrite (ne_expc _ _ Hn)|by rewrite (ne_delay _ _ Hn)|done|done].
      eapply kept_trans; [exact K1|]. by eapply near_kept.
Qed.

Lemma uplain_gets {A} (f : machine D → A) (k : A → M (machine D) unit) : (∀ a, uplain (k a)) → uplain (mbind k (gets f)).
Proof. intros Hk s Hr. step. by apply Hk. Qed.

Lemma uplain_ret : uplain (mret tt).
Proof. intros s Hu. left. by apply moved_stays; [|apply moved_refl, (ur_core _ Hu)]. Qed.

Lemma uplain_set_reg i v : uplain (set_reg i v).
Proof. intros s Hu. left. by apply moved_stays; [|apply moved_put_reg, (ur_core _ Hu)]. Qed.

Lemma uplain_exception code cn va : exn_args code cn va → uplain (exception code cn va).
Proof. intros Hx s Hu. by apply exception_ends. Qed.

Lemma uplain_if (b : bool) m1 m2 : uplain m1 → uplain m2 → uplain (if b then m1 else m2).
Proof. by destruct b. Qed.

Lemma uplain_link rg m : uplain m → uplain (let* _ := LINK2 rg in m).
Proof.
  intros Hm s Hu. step. pose proof (moved_put_reg s rg (nextpc (get_pcs s)) (ur_core _ Hu)) as Hv.
  eapply safe_mono; [exact (Hm _ (moved_uready _ _ Hu Hv))|]. intros ? s' He. by eapply ends_after.
Qed.

Lemma uplain_branch_if b insn : uplain (branch_if b insn).
Proof. destruct b; [|apply uplain_ret]. apply uplain_gets. intros p. apply uplain_abranch, word_u32. Qed.

Lemma uplain_RSu insn k : (∀ a, word a → uplain (k a)) → uplain (mbind k (RSu insn)).
Proof. intros Hk s Hr. step. by apply Hk; [apply word_u32|]. Qed.

Lemma uplain_ibranch insn : uplain (ibranch (Z.shiftl (NEEDTARG insn) 2)).
Proof.
  intros s Hr. step. apply uplain_abranch; [|done]. destruct (co_pcs _ _ (ur_core _ Hr)) as (_ & [Hw _] & _).
  apply word_lor; [by apply word_land|]. apply (word_shiftl_part insn 26); lia.
Qed.

Lemma uplain_copz insn : uplain (mx_copz insn).
Proof.
  intros s Hu. unfold mx_copz. apply safe_if; intros _; [by apply exception_ends; [|apply args_cn]|]. step.
  rewrite (ur_user _ Hu). by apply exception_ends; [|apply args_cn].
Qed.

(** *** Waiting for the multiplier: the instruction is started again *)
Lemma lookup_both s :
  core B s → fetchable s (pc (get_pcs s)) → fetchable s (nextpc (get_pcs s)) → jumping (get_pcs s) = false → nextpc (get_pcs s) = u32 (pc (get_pcs s) + 4) →
  ∃ s1 s2, precompute_pc s = Ok (true, s1) ∧ precompute_nextpc s1 = Ok (true, s2) ∧ kept s s2 ∧ sync s2 ∧ pc (get_pcs s2) = pc (get_pcs s) ∧
    nextpc (get_pcs s2) = nextpc (get_pcs s) ∧ core B s2 ∧ get_regs s2 = get_regs s ∧ ram s2 = ram s ∧ devices s2 = devices s.
Proof.
  intros Hc Hf Hfn Hj Hseq. destruct (co_pcs _ _ Hc) as (P1 & P2 & P3).
  destruct (precompute_pc_looked B s Hc) as [(pa & pg & Et & Em & E)|(Hno & _)]; [|done].
  destruct (touch_moved (pc (get_pcs s)) s Hc (proj1 P2)) as (Kt & Ept & Hct).
  set (s2 := set_pcs _ _) in E. assert (kept s s2) as K2 by (eapply kept_trans; [exact Kt|apply kept_pcs]).
  assert (core B s2) as Hc2 by (apply core_set_pcs; [done|by split_and!]).
  destruct (precompute_nextpc_looked B s2 Hc2) as [(pa' & pg' & Et' & Em' & E')|(Hno & _)]; [|by destruct Hno; rewrite (fetchable_kept s)].
  destruct (touch_moved (nextpc (get_pcs s2)) s2 Hc2 (proj1 P3)) as (Kt2 & Ept2 & Hct2). set (s3 := set_pcs _ _) in E'. exists s2, s3.
  assert (kept s2 s3) as K23 by (eapply kept_trans; [exact Kt2|apply kept_pcs]).
  assert (∀ a s', get_regs (touch a s') = get_regs s' ∧ ram (touch a s') = ram s' ∧ devices (touch a s') = devices s') as Hsame.
  { intros a s'. unfold touch. by destruct (_ =? 2). }
  destruct (Hsame (pc (get_pcs s)) s) as (G1 & G2 & G3), (Hsame (nextpc (get_pcs s2)) s2) as (G4 & G5 & G6).
  split_and!; [done|done|by eapply kept_trans| |done|done|by apply core_set_pcs; [|split_and!]|by transitivity (get_regs s2)|by transitivity (ram s2)|by transitivity (devices s2)].
  constructor; cbn; rewrite ?(cached_kept _ _ _ _ _ K23).
  - rewrite (cached_kept _ _ _ _ _ K2). apply looked_cached; try done. apply P2.
  - left. apply looked_cached; try done. apply P3.
  - by rewrite Hj.
Qed.

Lemma phony_user dev pan und s : uready s → safe dev pan und phony_exception (fun _ s' => stays s s') s.
Proof.
  intros Hu. pose proof Hu as [U1 U2 U3 U4 U5 U6 [U7 U8]]. unfold phony_exception. step. set (s1 := set_pcs _ s).
  destruct (co_pcs _ _ U1) as (P1 & P2 & P3). pose proof (kept_pcs s (get_pcs s1) : kept s s1) as K1.
  destruct (lookup_both s1) as (s2 & s3 & E2 & E3 & K & Hs & _); try done.
  - apply core_set_pcs; [done|]. split_and!; cbn; [done|done|by apply aligned_next].
  - apply safe_bind. eapply safe_ok; [exact E2|]. cbv beta. cbn [negb]. apply safe_bind. eapply safe_ok; [exact E3|]. cbv beta. cbn [negb].
    eapply safe_ok; [reflexivity|]. split; [by eapply kept_trans|done].
Qed.

Lemma stall_user (k : M (machine D) unit) (b : regs → bool) :
  uinstr k → uinstr (let* g := gets get_regs in if b g then phony_exception else k).
Proof.
  intros Hk s Hu. step. apply safe_if; intros _; [|by apply Hk]. eapply safe_mono; [by apply phony_user|]. intros ? s' ?. by left.
Qed.

Lemma uinstr_hilo m : hilo_only m → uinstr m.
Proof.
  intros Hm s Hu. destruct (Hm s (co_regs _ _ (ur_core _ Hu))) as (g & E & Hg). eapply safe_ok; [exact E|]. left.
  apply moved_stays; [done|]. apply moved_regs; [apply (ur_core _ Hu)|done].
Qed.

Lemma uinstr_gets {A} (f : machine D → A) (k : A → M (machine D) unit) : (∀ a, uinstr (k a)) → uinstr (mbind k (gets f)).
Proof. intros Hk s Hr. step. by apply Hk. Qed.

Lemma uinstr_div insn : uinstr (mx_div insn).
Proof.
  intros s Hu. unfold mx_div. step. step. unfold WHILO. step. apply safe_if; intros _.
  { eapply safe_mono; [by apply phony_user|]. intros ? s' ?. by left. }
  destruct (Z.eqb_spec (reg (NEEDRT insn) s) 0) as [Hz|Hz]; [by apply uinstr_hilo; [apply hilo_bind; [apply hilo_set_hilo|apply hilo_SETHILO]|]|].
  destruct (_ && _) eqn:E; [|by apply uinstr_hilo; [apply hilo_bind; [apply hilo_set_hilo|apply hilo_SETHILO]|]].
  apply andb_prop in E as [E1%Z.eqb_eq E2%Z.eqb_eq]. unfold safe, mbind, M_bind, lift. left. by exists insn.
Qed.

(** *** Decoding *)
Lemma uplain_CHKOVF v k : uplain k → uplain (CHKOVF v k).
Proof. intros Hk. apply uplain_if; [|done]. by apply uplain_exception, args_0. Qed.

Lemma user_alu insn :
  uplain (mx_addiu insn) ∧ uplain (mx_addu insn) ∧ uplain (mx_and insn) ∧ uplain (mx_andi insn) ∧ uplain (mx_lui insn) ∧ uplain (mx_nor insn) ∧
  uplain (mx_or insn) ∧ uplain (mx_ori insn) ∧ uplain (mx_sll insn) ∧ uplain (mx_sllv insn) ∧ uplain (mx_slt insn) ∧ uplain (mx_slti insn) ∧
  uplain (mx_sltiu insn) ∧ uplain (mx_sltu insn) ∧ uplain (mx_sra insn) ∧ uplain (mx_srav insn) ∧ uplain (mx_srl insn) ∧ uplain (mx_srlv insn) ∧
  uplain (mx_subu insn) ∧ uplain (mx_xor insn) ∧ uplain (mx_xori insn) ∧ uplain (mx_add insn) ∧ uplain (mx_addi insn) ∧ uplain (mx_sub insn).
Proof.
  split_and!; repeat (apply uplain_gets; intros ?); try apply uplain_CHKOVF; apply uplain_set_reg.
Qed.

Lemma user_hilo insn :
  uinstr (mx_mult insn) ∧ uinstr (mx_multu insn) ∧ uinstr (mx_divu insn) ∧ uinstr (mx_mthi insn) ∧ uinstr (mx_mtlo insn) ∧
  uinstr (mx_mfhi insn) ∧ uinstr (mx_mflo insn).
Proof.
  split_and!.
  - do 2 (apply uinstr_gets; intros ?). apply stall_user, uinstr_hilo, hilo_bind; [apply hilo_set_hilo|apply hilo_SETHILO].
  - do 2 (apply uinstr_gets; intros ?). apply stall_user, uinstr_hilo, hilo_bind; [apply hilo_set_hilo|apply hilo_SETHILO].
  - do 2 (apply uinstr_gets; intros ?). apply stall_user, uinstr_hilo, hilo_bind; [apply hilo_if; apply hilo_set_hilo|apply hilo_SETHILO].
  - apply uinstr_gets; intros ?. apply stall_user, uinstr_hilo, hilo_bind; [apply hilo_set_hi|apply hilo_SETHI].
  - apply uinstr_gets; intros ?. apply stall_user, uinstr_hilo, hilo_bind; [apply hilo_set_lo|apply hilo_SETLO].
  - apply stall_user, uinstr_gets. intros ?. apply uinstr_hilo, hilo_bind; [apply hilo_set_reg|apply hilo_SETHI].
  - apply stall_user, uinstr_gets. intros ?. apply uinstr_hilo, hilo_bind; [apply hilo_set_reg|apply hilo_SETLO].
Qed.

Lemma user_jumps insn :
  uplain (mx_beq insn) ∧ uplain (mx_bne insn) ∧ uplain (mx_bgtz insn) ∧ uplain (mx_blez insn) ∧ uplain (mx_bgez insn) ∧ uplain (mx_bltz insn) ∧
  uplain (mx_bgezal insn) ∧ uplain (mx_bltzal insn) ∧ uplain (mx_jr insn) ∧ uplain (mx_jalr insn) ∧ uplain (mx_j insn) ∧ uplain (mx_jal insn).
Proof.
  split_and!; try (repeat (apply uplain_gets; intros ?); apply uplain_branch_if).
  - apply uplain_link, uplain_gets. intros ?. apply uplain_branch_if.
  - apply uplain_link, uplain_gets. intros ?. apply uplain_branch_if.
  - apply uplain_RSu, uplain_abranch.
  - apply uplain_link, uplain_RSu, uplain_abranch.
  - apply uplain_ibranch.
  - apply uplain_link, uplain_ibranch.
Qed.

Lemma uplain_ADDR insn k : (∀ a, uplain (k a)) → uplain (mbind k (ADDR insn)).
Proof. intros Hk s Hu. apply safe_ADDR. intros a _. by apply Hk. Qed.

Lemma uplain_ill insn : uplain (mx_ill insn).
Proof. by apply uplain_exception, args_0. Qed.

Lemma uinstr_if (b : bool) m1 m2 : uinstr m1 → uinstr m2 → uinstr (if b then m1 else m2).
Proof. by destruct b. Qed.

Lemma user_cop insn : uplain (mx_lwc insn) ∧ uplain (mx_swc insn).
Proof. split; apply uplain_ADDR; intros ?; by apply uplain_exception, args_cn. Qed.

Lemma uplain_syscall insn : uplain (mx_syscall insn).
Proof. by apply uplain_exception, args_0. Qed.

(** One of the instructions in the context. *)
Ltac listed :=
  match goal with
  | Hm : uinstr ?m |- uinstr ?m => exact Hm
  | Hm : uplain ?m |- uinstr ?m => exact (uplain_uinstr _ Hm)
  | Hm : uplain ?m |- uplain ?m => exact Hm
  end.

Lemma uinstr_special insn : uinstr (special insn).
Proof.
  destruct (user_alu insn) as (?&?&?&?&?&?&?&?&?&?&?&?&?&?&?&?&?&?&?&?&?&?&?&?). destruct (user_hilo insn) as (?&?&?&?&?&?&?).
  destruct (user_jumps insn) as (?&?&?&?&?&?&?&?&?&?&?&?). pose proof (uinstr_div insn). pose proof (uplain_ill insn).
  pose proof (uplain_syscall insn).
  unfold special. cbn [switch]. repeat (apply uinstr_if; [listed|]). listed.
Qed.

Lemma uplain_bcond insn : uplain (bcond insn).
Proof.
  destruct (user_jumps insn) as (?&?&?&?&?&?&?&?&?&?&?&?). pose proof (uplain_ill insn). unfold bcond. cbn [switch].
  repeat (apply uplain_if; [listed|]). listed.
Qed.

Lemma uinstr_dispatch op insn : uinstr (dispatch op insn).
Proof.
  destruct (user_alu insn) as (?&?&?&?&?&?&?&?&?&?&?&?&?&?&?&?&?&?&?&?&?&?&?&?). destruct (user_jumps insn) as (?&?&?&?&?&?&?&?&?&?&?&?).
  pose proof (uinstr_special insn). pose proof (uplain_bcond insn). pose proof (uplain_copz insn). pose proof (uplain_lw insn). pose proof (uplain_sw insn).
  pose proof (uplain_ill insn).
  destruct (user_cop insn) as [? ?].
  unfold dispatch. cbn [switch].
  repeat (apply uinstr_if; [first [listed|apply uplain_uinstr; first [apply uplain_load|apply uplain_store; discriminate]]|]). listed.
Qed.

(** ** The cycle *)

(** The next word of the same page. *)
Lemma cached_next s a off pg :
  core B s → IS_USERMODE s = true → aligned a → cached s a off pg → Z.land (u32 (a + 4)) 0xfff ≠ 0 → cached s (u32 (a + 4)) (u32 (off + 4)) pg.
Proof.
  intros Hc Hu Ha (pa & Et & Em & Hpg & ->) Hz. pose proof Ha as [Hw H4]. destruct (next_offset a Ha Hz) as [Eo Ea]. rewrite Eo.
  pose proof (user_low _ _ _ _ Hu Et) as Hlow. pose proof (translated_debug _ _ _ _ Et) as Ed. unfold word in Hw.
  assert (a `mod` 4096 + 4 = (a + 4) `mod` 4096) as Eoff.
  { rewrite Ea in Eo. pose proof (Z.mod_pos_bound a 4096 ltac:(lia)). rewrite u32_small in Eo by lia. exact Eo. }
  rewrite Ea in *. pose proof (Z.mod_pos_bound (a + 4) 4096 ltac:(lia)) as Hb. pose proof (Z.div_mod a 4096 ltac:(lia)) as D1. pose proof (Z.div_mod (a + 4) 4096 ltac:(lia)) as D2.
  assert ((a + 4) - (a + 4) `mod` 4096 = a - a `mod` 4096) as Epage by lia.
  assert (a + 4 < 0x80000000) as Hlow'.
  { pose proof (Z.mod_pos_bound a 4096 ltac:(lia)). set (j := a `div` 4096) in *. clearbody j. assert (j < 524288) by lia. lia. }
  assert (∀ x, 0 ≤ x < 0x80000000 → (Z.shiftr x 30 =? 2) = false) as Hseg.
  { intros x Hx. apply Z.eqb_neq. rewrite Z.shiftr_div_pow2 by lia. assert (x `div` 2 ^ 30 < 2) by (apply Z.div_lt_upper_bound; lia). lia. }
  unfold debug_translatemem in Ed. rewrite land3, H4, Hseg in Ed by lia. cbn [Z.eqb negb] in Ed. rewrite land_frame, land_fff in Ed by (unfold word; lia).
  destruct (findtlb (get_mmu s) (a - a `mod` 4096)) as [ix|] eqn:Ef; [|done]. destruct (findtlb_Some B _ _ _ (co_mmu _ _ Hc) Ef) as (_ & e & He & _ & Hok). rewrite He in Ed.
  destruct (mt_valid e) eqn:Ev; [|done]. cbn [negb andb] in Ed. injection Ed as <-. exists (Z.lor (mt_pfn e) ((a + 4) `mod` 4096)). split_and!; [| |done|done].
  - unfold translated. rewrite Hu, andb_true_r. destruct (Z.geb_spec (a + 4) 0x80000000); [lia|]. unfold debug_translatemem. rewrite land3, Hseg by lia.
    assert ((a + 4) `mod` 4 = 0) as -> by (rewrite <- Z.add_mod_idemp_l, H4 by lia; done). cbn [Z.eqb negb]. rewrite land_frame, land_fff by (unfold word; lia). by rewrite Epage, Ef, He, Ev.
  - rewrite Em. pose proof Hok as (P1 & P2 & _). apply Z.mod_divide in P2 as [k Hk]; [|lia].
    pose proof (Z.mod_pos_bound a 4096 ltac:(lia)). unfold word in P1.
    unfold mapmem. rewrite !Ram.Ram.lor_page by (by exists k || lia). rewrite !land_frame by (unfold word; lia).
    replace (mt_pfn e + (a + 4) `mod` 4096 - (mt_pfn e + (a + 4) `mod` 4096) `mod` 4096) with (mt_pfn e); [
      replace (mt_pfn e + a `mod` 4096 - (mt_pfn e + a `mod` 4096) `mod` 4096) with (mt_pfn e); [done|]|];
      rewrite Hk, (Z.add_comm (k * 4096)), Z.mod_add, Z.mod_mod by lia; lia.
Qed.

(** A program about to fetch an instruction that is not RFE. *)
Record ufetch s : Prop := {
  uf_core : core B s;
  uf_user : IS_USERMODE s = true;
  uf_next : cached s (nextpc (get_pcs s)) (nextpcoff (get_pcs s)) (nextpcpage (get_pcs s));
  uf_jump : jumping (get_pcs s) = false;
  uf_expc : fetchable s (expc (get_pcs s)) ∧ fetchable s (u32 (expc (get_pcs s) + 4))
}.

Lemma step_user dev pan und insn s :
  ufetch s → insn ≠ FULLOP_RFE →
  safe dev pan und (step_pc insn) (fun ok s' =>
    if (ok : bool) then uready s' ∧ kept s s' ∧ expc (get_pcs s') = expc (get_pcs s) ∧ in_jumpdelay (get_pcs s') = in_jumpdelay (get_pcs s) ∧
      get_regs s' = get_regs s ∧ devices s' = devices s
    else trapped s s') s.
Proof.
  intros [F1 F2 F3 F4 F5] Hne. unfold step_pc. step. set (s1 := set_pcs _ s). pose proof (kept_pcs s (get_pcs s1) : kept s s1) as K1.
  destruct (co_pcs _ _ F1) as (P1 & P2 & P3). assert (core B s1) as Hc1 by (apply core_set_pcs; [done|]; split_and!; cbn; [done|done|by apply aligned_next]).
  assert (∀ s2, core B s2 → kept s s2 → jumping (get_pcs s2) = false → expc (get_pcs s2) = expc (get_pcs s) → pc (get_pcs s2) = nextpc (get_pcs s) →
    pcoff (get_pcs s2) = nextpcoff (get_pcs s) → pcpage (get_pcs s2) = nextpcpage (get_pcs s) → nextpc (get_pcs s2) = u32 (nextpc (get_pcs s) + 4) →
    cached s (nextpc (get_pcs s2)) (nextpcoff (get_pcs s2)) (nextpcpage (get_pcs s2)) → uready s2) as Hready.
  { intros s2 Hc2 K2 E1 E2 E3 E4 E5 E6 Hca. constructor; rewrite ?(cached_kept _ _ _ _ _ K2), ?(fetchable_kept _ _ _ K2); try done.
    - unfold IS_USERMODE. by rewrite (ke_status _ _ K2).
    - by rewrite E3, E4, E5.
    - by rewrite E3, E6.
    - by rewrite E2. }
  step. destruct (Z.eqb_spec (Z.land (nextpc (get_pcs s1)) 0xfff) 0) as [Ez|Ez].
  - rewrite (proj2 (Z.eqb_neq _ _) Hne).
    destruct (precompute_nextpc_looked B s1 Hc1) as [(pa & pg & Et & Em & E)|(_ & code & cn & va & s2 & Hn & Hx & E)]; (eapply safe_ok; [exact E|]).
    + destruct (touch_moved (nextpc (get_pcs s1)) s1 Hc1 (proj1 (aligned_next _ P3))) as (Kt & Ept & Hct). set (s2 := set_pcs _ _).
      assert (kept s s2) as K2 by (eapply kept_trans; [exact K1|]; eapply kept_trans; [exact Kt|apply kept_pcs]).
      split; [|split_and!; try done; unfold s2, touch; by destruct (_ =? 2)]. apply Hready; try done.
      * apply core_set_pcs; [done|exact (co_pcs _ _ Hc1)].
      * rewrite <- (cached_kept s s1) by done. apply looked_cached; try done. apply (aligned_next _ P3).
    + exists s2, code, cn, va. split_and!; [|by rewrite (ne_expc _ _ Hn)|by rewrite (ne_delay _ _ Hn)|done|done].
      eapply kept_trans; [exact K1|]. by eapply near_kept.
  - step. set (s2 := set_pcs _ s1). pose proof (kept_pcs s (get_pcs s2) : kept s s2) as K2. split; [|by split_and!]. apply Hready; try done.
    + apply core_set_pcs; [done|exact (co_pcs _ _ Hc1)].
    + by apply cached_next.
Qed.

(** The invariant of a program that runs in user mode. *)
Definition user s : Prop := good B s ∧ IS_USERMODE s = true ∧ sync s.

(** After the bookkeeping at the start of a cycle without an interrupt. *)
Lemma user_begin s :
  user s → core B (set_pcs (begin_cycle (get_pcs s)) s) ∧ let s0 := set_pcs (begin_cycle (get_pcs s)) s in
  jumping (get_pcs s0) = false ∧ in_jumpdelay (get_pcs s0) = jumping (get_pcs s) ∧
  expc (get_pcs s0) = (if jumping (get_pcs s) then expc (get_pcs s) else pc (get_pcs s)) ∧ fetchable s0 (expc (get_pcs s0)) ∧
  (cached s (nextpc (get_pcs s)) (nextpcoff (get_pcs s)) (nextpcpage (get_pcs s)) → ufetch s0).
Proof.
  intros (Hg & Hu & [Y1 Y2 Y3]). pose proof (begin_settled B s Hg) as (Hc & _). destruct Hg as [_ Hd]. split; [done|].
  set (s0 := set_pcs _ s) in *. cbv zeta. pose proof (kept_pcs s (get_pcs s0) : kept s s0) as K.
  assert (fetchable s (pc (get_pcs s))) as Hpc by (by eapply cached_fetchable).
  assert (jumping (get_pcs s0) = false ∧ in_jumpdelay (get_pcs s0) = jumping (get_pcs s) ∧
    expc (get_pcs s0) = (if jumping (get_pcs s) then expc (get_pcs s) else pc (get_pcs s)) ∧ nextpc (get_pcs s0) = nextpc (get_pcs s) ∧
    nextpcoff (get_pcs s0) = nextpcoff (get_pcs s) ∧ nextpcpage (get_pcs s0) = nextpcpage (get_pcs s)) as (E1 & E2 & E3 & E4 & E5 & E6).
  { unfold s0, begin_cycle. cbn. by destruct (jumping (get_pcs s)). }
  split_and!; [done..| |].
  - rewrite (fetchable_kept _ _ _ K), E3. destruct (jumping (get_pcs s)); [apply Y3|done].
  - intros Hn. constructor; rewrite ?(fetchable_kept _ _ _ K), ?(cached_kept _ _ _ _ _ K), ?E4, ?E5, ?E6, ?E3; try done.
    destruct (jumping (get_pcs s)); [done|]. split; [done|]. rewrite <- Y3. by eapply cached_fetchable.
Qed.
(** *** What a cycle may do *)

(** The memory and the devices the TLB grants may have changed and general registers; nothing else has, unless the processor has entered the
    kernel at one of its exception vectors, with the state of the interrupted program saved. *)
Record confined s s' : Prop := {
  cf_mmu : ∃ v n, get_mmu s' = (let m := get_mmu s in mkmmu (tlb m) (tlbentry (set_vpn v m)) (tlbindex m) (tlbpf m) n);
  cf_size : bus_ramsize s' = bus_ramsize s;
  cf_flags : stop_flag s' = stop_flag s ∧ gdb_listening s' = gdb_listening s;
  cf_ram a : ram s' !! a = ram s !! a ∨ may_write s a;
  cf_dev : devices s' = devices s ∨ may_io s;
  cf_mode :
    get_status s' = get_status s ∧ get_exn s' = get_exn s ∧ sync s' ∨
    ∃ code cn va, exn_args code cn va ∧ get_status s' = roll (get_status s) ∧
      get_exn s' = exn_regs code cn va (begin_cycle (get_pcs s)) (get_exn s) ∧
      pc (get_pcs s') = vector (has (status_bits (get_status s)) 0x00400000) code cn ∧ nextpc (get_pcs s') = pc (get_pcs s') + 4
}.

Lemma sync_ended s : sync s → sync (ended s).
Proof.
  intros [Y1 Y2 Y3].
  assert (∀ a, translated (ended s) a false = translated s a false) as Et by done.
  constructor.
  - exact Y1.
  - destruct Y2 as [Y2|[E Hi]]; [by left|right]. split; [done|]. by eapply insn_at_same.
  - exact Y3.
Qed.

Lemma confined_stays s s4 : kept s s4 → sync s4 → confined s (ended s4).
Proof.
  intros [K1 K2 [v K3] K4 K5 K6 K7] Hs. constructor; try done.
  - exists v, (tlbrandom (get_mmu s) + 1). unfold ended. cbn. by rewrite K3.
  - left. split_and!; [done..|]. by apply sync_ended.
Qed.

(** The cycle began with [s0], and took an exception. *)
Lemma confined_trapped s s0 s' :
  kept s s0 → get_pcs s0 = begin_cycle (get_pcs s) → trapped s0 s' → confined s s' ∧ confined s (ended s').
Proof.
  intros K0 Ep (s1 & code & cn & va & K1 & E1 & E2 & Hx & ->). pose proof (kept_trans _ _ _ K0 K1) as [A1 A2 [v A3] A4 A5 A6 A7].
  assert (get_exn (entered code cn va s1) = exn_regs code cn va (begin_cycle (get_pcs s)) (get_exn s)) as Ex.
  { change (exn_regs code cn va (get_pcs s1) (get_exn s1) = exn_regs code cn va (begin_cycle (get_pcs s)) (get_exn s)).
    unfold exn_regs. by rewrite E1, E2, A2, Ep. }
  assert (get_status (entered code cn va s1) = roll (get_status s)) as Es by (rewrite <- A1; reflexivity).
  assert (pc (get_pcs (entered code cn va s1)) = vector (has (status_bits (get_status s)) 0x00400000) code cn) as Ev by (rewrite <- A1; reflexivity).
  split; constructor; try done.
  - exists v, (tlbrandom (get_mmu s)). exact A3.
  - right. exists code, cn, va. split_and!; done.
  - exists v, (tlbrandom (get_mmu s) + 1). change (get_mmu (ended (entered code cn va s1))) with (get_mmu (ended s1)). unfold ended. cbn -[get_mmu]. by rewrite A3.
  - right. exists code, cn, va. split_and!; done.
Qed.

Lemma kept_stats s x : kept s (set_stats x s).
Proof. destruct (kept_refl s) as [? ? ? ? ? ? ?]. by constructor. Qed.

Lemma trapped_random s s' : trapped s s' → tlbrandom (get_mmu s') = tlbrandom (get_mmu s).
Proof. intros (s1 & code & cn & va & [_ _ [v E] _ _ _ _] & _ & _ & _ & ->). change (tlbrandom (get_mmu s1) = tlbrandom (get_mmu s)). by rewrite E. Qed.

Lemma end_run s : tlbrandom (get_mmu s) < 2 ^ 31 - 1 → end_cycle s = Ok (1, ended s).
Proof. intros Hr. unfold end_cycle. destruct (Z.eqb_spec (tlbrandom (get_mmu s)) (2 ^ 31 - 1)); [lia|done]. Qed.

(** The execution of a fetched instruction and the end of the cycle. *)
Lemma end_user dev pan und s s0 s3 m :
  B < 2 ^ 31 - 1 → core B s0 → kept s s0 → get_pcs s0 = begin_cycle (get_pcs s) → kept s0 s3 → expc (get_pcs s3) = expc (get_pcs s0) →
  in_jumpdelay (get_pcs s3) = in_jumpdelay (get_pcs s0) → safe dev pan und m (fun (_ : unit) s4 => ends s3 s4) s3 →
  safe dev pan und (let* _ := m in end_cycle) (fun _ s' => confined s s') s3.
Proof.
  intros HB' Hc K0 Ep K3 E1 E2 Hm. eapply safe_then; [exact Hm|]. intros u s4 He. cbv beta.
  assert (tlbrandom (get_mmu s0) ≤ B) as Hr by apply (co_mmu _ _ Hc). destruct He as [[K4 Hs]|Ht].
  - pose proof (kept_trans _ _ _ K3 K4) as K. eapply safe_ok; [apply end_run|].
    + destruct (ke_mmu _ _ K) as [v ->]. cbn. lia.
    + apply confined_stays; [by eapply kept_trans|done].
  - assert (trapped s0 s4) as Ht' by (by eapply trapped_after). eapply safe_ok; [apply end_run|].
    + rewrite (trapped_random _ _ Ht'). lia.
    + by eapply confined_trapped.
Qed.

(** RFE is refused. *)
Lemma rfe_user dev pan und s : 0 < bus_ramsize s → IS_USERMODE s = true → safe dev pan und (mx_copz FULLOP_RFE) (fun _ s' => ends s s') s.
Proof.
  intros Hc Hu. unfold mx_copz. change (negb (NEEDCN FULLOP_RFE =? 0)) with false. cbv iota zeta. step. rewrite Hu.
  eapply safe_ok; [by apply exception_run|]. right. by apply trapped_here, args_cn.
Qed.

Lemma step_rfe s :
  ∃ p, step_pc FULLOP_RFE s = Ok (true, set_pcs p s) ∧ expc p = expc (get_pcs s) ∧ in_jumpdelay p = in_jumpdelay (get_pcs s) ∧
    jumping p = jumping (get_pcs s) ∧ pc p = nextpc (get_pcs s) ∧ nextpc p = u32 (nextpc (get_pcs s) + 4).
Proof.
  unfold step_pc. erewrite bind_ok by reflexivity. erewrite bind_ok by reflexivity. destruct (_ =? 0).
  - change (FULLOP_RFE =? FULLOP_RFE) with true. cbv iota. eexists. split; [reflexivity|]. done.
  - eexists. split; [reflexivity|]. done.
Qed.

Lemma break_user s : IS_USERMODE s = true → fetchable s (expc (get_pcs s)) → gdb_canhandle (expc (get_pcs s)) s = Ok (false, s).
Proof.
  intros Hu (pa & pg & Et & _). pose proof (user_low _ _ _ _ Hu Et). unfold gdb_canhandle. erewrite bind_ok by reflexivity. unfold KSEG0.
  destruct (Z.geb_spec (expc (get_pcs s)) 0x80000000); [lia|]. by rewrite andb_false_r.
Qed.
Lemma begin_page p : pcpage (begin_cycle p) = pcpage p ∧ pcoff (begin_cycle p) = pcoff p.
Proof. unfold begin_cycle. by destruct (jumping p). Qed.

Lemma cycle_confined s :
  B < 2 ^ 31 - 1 → user s → irq_pending s = false → safe (io_stops s) False (overflows s) cpu_cycle (fun _ s' => confined s s') s.
Proof.
  intros HB' Hus Hirq. pose proof Hus as (Hg & Hu & Hsync). destruct (user_begin s Hus) as (Hc0 & Ej & Ed & Ee & Hfe & Huf).
  unfold cpu_cycle. step. apply safe_bind. unfold take_irq. step. change (irq_pending (set_pcs (begin_cycle (get_pcs s)) s)) with (irq_pending s).
  rewrite Hirq. eapply safe_ok; [reflexivity|]. cbv beta. step. set (s0 := set_pcs (begin_cycle (get_pcs s)) s) in *. set (s1 := set_stats _ s0).
  assert (kept s s1) as K1 by (eapply kept_trans; [apply (kept_pcs s)|apply (kept_stats s0)]).
  assert (core B s1) as Hc1 by (by apply core_set_stats). assert (IS_USERMODE s1 = true) as Hu1 by exact Hu.
  pose proof (begin_settled B s Hg) as (_ & Hp1 & _). step.
  destruct (bus_use_map_ok B _ _ _ s1 Hc1 Hp1) as (insn & Ei); [apply (co_pcs _ _ Hc1)|].
  apply safe_bind. eapply safe_ok; [exact Ei|]. cbv beta. destruct (decide (insn = FULLOP_RFE)) as [->|Hne].
  - destruct (step_rfe s1) as (p3 & E3 & E1 & E2 & _). apply safe_bind. eapply safe_ok; [exact E3|]. cbv beta. cbn [negb]. step. step.
    apply (end_user _ _ _ s s1); try done; [apply (kept_pcs s1)|]. apply rfe_user; [apply (co_size _ _ Hc1)|done].
  - assert (ufetch s1) as Hf.
    { assert (cached s (nextpc (get_pcs s)) (nextpcoff (get_pcs s)) (nextpcpage (get_pcs s))) as Hn.
      { destruct (sy_next _ Hsync) as [?|[_ Hi]]; [done|]. destruct Hne.
        assert (insn_at s1 FULLOP_RFE) as Hi1 by (eapply insn_at_same; [exact Hi|by apply begin_page|by apply begin_page|done|done]).
        pose proof (eq_trans (eq_sym Ei) Hi1) as Ev. by injection Ev. }
      destruct (Huf Hn) as [F1 F2 F3 F4 F5]. by constructor. }
    eapply safe_then; [by apply step_user|]. intros ok s3 H3. cbv beta. destruct ok; cbn [negb].
    2: { eapply safe_ok; [reflexivity|]. by eapply confined_trapped. }
    destruct H3 as (Hr3 & K3 & E1 & E2 & Er & Ed3). step. assert (overflows s3 → overflows s) as Hov by (unfold overflows, reg; rewrite Er; done).
    assert (io_stops s3 → io_stops s) as Hio.
    { unfold io_stops. rewrite (may_io_kept _ _ (kept_trans _ _ _ K1 K3)). by rewrite Ed3. }
    assert (∀ m, uinstr m → safe (io_stops s) False (overflows s) (let* _ := m in end_cycle) (fun _ s' => confined s s') s3) as Hend.
    { intros m Hm. apply (end_user _ _ _ s s1); try done. by eapply safe_weaken; [apply Hm|..]. }
    destruct (_ && _).
    + apply safe_bind. eapply safe_ok; [by apply break_user; apply Hr3|]. cbv beta iota.
      apply Hend, uplain_uinstr. by apply uplain_exception, args_0.
    + step. apply Hend, uinstr_dispatch.
Qed.
(** ** Entering user mode *)
Lemma core_set_status s x : core B s → status_ok x → core B (set_status x s).
Proof. intros [C1 C2 C3 C4 C5 C6 C7] Hx. by constructor. Qed.

Lemma fetchable_status s s' a :
  get_mmu s' = get_mmu s → bus_ramsize s' = bus_ramsize s → get_status s' = get_status s → fetchable s' a ↔ fetchable s a.
Proof. intros E1 E2 E3. unfold fetchable, translated, IS_USERMODE. by rewrite E1, E2, E3. Qed.

(** RFE with the program to return to in reach. *)
Lemma do_rfe_user s :
  core B s → IS_USERMODE s = false → jumping (get_pcs s) = false → nextpc (get_pcs s) = u32 (pc (get_pcs s) + 4) →
  let su := set_status (unroll (get_status s)) s in
  fetchable su (pc (get_pcs s)) → fetchable su (nextpc (get_pcs s)) →
  ∃ s', do_rfe s = Ok (tt, s') ∧ kept su s' ∧ sync s' ∧ pc (get_pcs s') = pc (get_pcs s) ∧ get_regs s' = get_regs s ∧ ram s' = ram s ∧ devices s' = devices s.
Proof.
  intros Hc Hu Hj Hseq su Hf Hfn. unfold do_rfe. erewrite bind_ok by reflexivity. rewrite Hu. cbv iota. erewrite bind_ok by reflexivity.
  erewrite bind_ok by reflexivity. fold su. set (s1 := set_pcs _ su). destruct (co_pcs _ _ Hc) as (P1 & P2 & P3).
  assert (core B su) as Hcu by (apply core_set_status; [done|apply (co_status _ _ Hc)]).
  destruct (lookup_both s1) as (s2 & s3 & E2 & E3 & K & Hs & Ep & En & Hc3 & Er & Em & Ed); try done.
  - by apply core_set_pcs; [|split_and!].
  - erewrite bind_ok by exact E2. erewrite bind_ok by exact E3. exists s3. split_and!; try done. eapply kept_trans; [apply (kept_pcs su)|exact K].
Qed.

(** The cycle of an RFE in the delay slot of a jump to a program. *)
Lemma rfe_cycle s :
  B < 2 ^ 31 - 1 → good B s → IS_USERMODE s = false → irq_pending s = false → insn_at s FULLOP_RFE →
  let su := set_status (unroll (get_status s)) s in
  fetchable su (nextpc (get_pcs s)) → fetchable su (u32 (nextpc (get_pcs s) + 4)) →
  ∃ s4, cpu_cycle s = Ok (1, ended s4) ∧ kept su s4 ∧ sync s4 ∧ pc (get_pcs s4) = nextpc (get_pcs s) ∧ r (get_regs s4) = r (get_regs s) ∧
    ram s4 = ram s ∧ devices s4 = devices s.
Proof.
  intros HB' Hg Hu Hirq Hi su Hf Hfn. pose proof (begin_settled B s Hg) as (Hc0 & _).
  unfold cpu_cycle. erewrite bind_ok by reflexivity. set (s0 := set_pcs _ s) in *. erewrite bind_ok; cycle 1.
  { unfold take_irq. erewrite bind_ok by reflexivity. change (irq_pending s0) with (irq_pending s). rewrite Hirq. reflexivity. }
  erewrite bind_ok by reflexivity. set (s1 := set_stats _ s0). assert (core B s1) as Hc1 by (by apply core_set_stats).
  erewrite bind_ok by reflexivity. assert (insn_at s1 FULLOP_RFE) as Hi1.
  { eapply insn_at_same; [exact Hi|by apply begin_page|by apply begin_page|done|done]. }
  erewrite bind_ok by exact Hi1. destruct (step_rfe s1) as (p & E3 & E1 & E2 & Ej & Ep & En). erewrite bind_ok by exact E3. cbn [negb].
  assert (nextpc (get_pcs s1) = nextpc (get_pcs s) ∧ jumping (get_pcs s1) = false) as [En1 Ej1].
  { change (nextpc (begin_cycle (get_pcs s)) = nextpc (get_pcs s) ∧ jumping (begin_cycle (get_pcs s)) = false). unfold begin_cycle. by destruct (jumping (get_pcs s)). }
  erewrite bind_ok by reflexivity. erewrite bind_ok by reflexivity. cbv iota. set (s2 := set_pcs p s1).
  destruct (co_pcs _ _ Hc1) as (P1 & P2 & P3). rewrite En1 in Ep, En, P3.
  assert (core B s2) as Hc2 by (apply core_set_pcs; [done|]; split_and!; rewrite ?E1, ?Ep, ?En; [done|done|by apply aligned_next]).
  destruct (do_rfe_user s2) as (s3 & Er & K & Hs & Ep3 & Eg3 & Em3 & Ed3); try done.
  - change (jumping p = false). congruence.
  - change (nextpc p = u32 (pc p + 4)). congruence.
  - change (fetchable su (pc p)). by rewrite Ep.
  - change (fetchable su (nextpc p)). by rewrite En.
  - assert (mx_copz FULLOP_RFE s2 = Ok (tt, s3)) as Ec.
    { unfold mx_copz. change (negb (NEEDCN FULLOP_RFE =? 0)) with false. cbv iota zeta.
      erewrite bind_ok by reflexivity. change (IS_USERMODE s2) with (IS_USERMODE s). rewrite Hu. exact Er. }
    erewrite bind_ok by exact Ec.
    exists s3. assert (kept su s3) as Ks.
    { destruct K as [K1 K2 K3 K4 K5 K6 K7]. by constructor. }
    split_and!; try done.
    + apply end_run. destruct (ke_mmu _ _ Ks) as [v ->]. destruct Hg as ((Hc & _) & _). pose proof (co_mmu _ _ Hc) as (_ & _ & _ & _ & ?).
      change (tlbrandom (get_mmu s) < 2 ^ 31 - 1). lia.
    + by rewrite Ep3.
    + by rewrite Eg3.
Qed.
End user.

Section theorems.
Context {D : Type} `{Bus D}.
Implicit Types s : machine D.

Lemma safe_and {A} (d1 d2 p1 p2 u1 u2 : Prop) (m : M (machine D) A) P Q s :
  safe d1 p1 u1 m P s → safe d2 p2 u2 m Q s → safe d1 p1 u1 m (fun a s' => P a s' ∧ Q a s') s.
Proof. unfold safe. by destruct (m s) as [[]| | |]. Qed.

Lemma confined_user B s s' : confined s s' → IS_USERMODE s = true → good B s' → IS_USERMODE s' = true → user B s'.
Proof.
  intros Hc Hu Hg Hu'. destruct (cf_mode _ _ Hc) as [(_ & _ & Hs)|(code & cn & va & _ & E & _)]; [by split_and!|].
  unfold IS_USERMODE in Hu'. by rewrite E in Hu'.
Qed.

(** The kernel returns to a program with RFE in the delay slot of a jump: the processor is in the mode the status register saved, at the target of the jump,
    with the general registers unchanged, and the invariant of user mode holds. *)
Theorem rfe_enters_user B s :
  55 ≤ B < 2 ^ 31 - 1 → good B s → IS_USERMODE s = false → prev_usermode (get_status s) = true → irq_pending s = false → insn_at s FULLOP_RFE →
  let su := set_status (unroll (get_status s)) s in
  fetchable su (nextpc (get_pcs s)) → fetchable su (u32 (nextpc (get_pcs s) + 4)) →
  ∃ s', cpu_cycle s = Ok (1, s') ∧ user (B + 1) s' ∧ pc (get_pcs s') = nextpc (get_pcs s) ∧ r (get_regs s') = r (get_regs s) ∧
    get_status s' = unroll (get_status s) ∧ get_exn s' = get_exn s ∧ ram s' = ram s ∧ devices s' = devices s.
Proof.
  intros HB Hg Hu Hprev Hirq Hi su Hf Hfn. destruct (rfe_cycle B s ltac:(lia) Hg Hu Hirq Hi Hf Hfn) as (s4 & E & K & Hs & Ep & Er & Em & Ed).
  pose proof (cycle_runs B ltac:(lia) s Hg) as Hr. unfold safe in Hr. rewrite E in Hr. exists (ended s4).
  assert (good (B + 1) (ended s4)) as Hg'.
  { destruct Hr as [Hr|(s2 & Hs2 & ->)]; [by eapply good_mono; [|exact Hr]; lia|by apply ended_good]. }
  split_and!; try done.
  - split; [done|]. split; [|by apply sync_ended]. change (IS_USERMODE s4 = true). unfold IS_USERMODE. by rewrite (ke_status _ _ K).
  - apply (ke_status _ _ K).
  - apply (ke_exn _ _ K).
Qed.
End theorems.

(** A program of one page: [addiu $8, $0, 7] at address 0x1000. *)
Definition program : machine unit :=
  set_status (mkstatus false false false false true false false 0 0)
    (set_pcs (mkpcs false false 0x1000 0x1000 0x1004 0 4 (Some (RamPage 0x1000)) (Some (RamPage 0x1000)))
      (set_mmu (mkmmu (<[0%nat := mkmt false true false false 0x1000 0x1000 0]> (tlb (reset_mmu (c_mmu mycpu0)))) (tlbentry (reset_mmu (c_mmu mycpu0))) 0 false 55)
        (machine0 (put_word 0x1000 0x24080007 ∅)))).

Lemma program_user : user 55 program.
Proof.
  assert (core 55 program) as Hc.
  { assert (ram_ok (put_word 0x1000 0x24080007 ∅)) as Hr by (apply ram_ok_put; intros a b; by rewrite lookup_empty).
    destruct (reset_core (machine0 (put_word 0x1000 0x24080007 ∅))) as [C1 _ (M1 & M2 & M3 & _) _ _ _ C7]; [by split; [cbn; lia|]|done|done|done|].
    constructor; try done. split_and!; try done. by apply list.Forall_insert. }
  assert (cached program 0x1000 0 (Some (RamPage 0x1000)) ∧ cached program 0x1004 4 (Some (RamPage 0x1000))) as [Ca Cb].
  { split; [exists 0x1000|exists 0x1004]; (split_and!; [vm_compute; reflexivity|reflexivity|by eexists|reflexivity]). }
  split_and!; [|done|by constructor; [|left|]]. split; [|done]. split_and!; [done|done|by left].
Qed.

(** The kernel at the RFE of its return to [program]. *)
Definition returning : machine unit :=
  set_status (mkstatus false false true false false false false 0 0)
    (set_pcs (mkpcs true false 0x80000ffc 0x80000000 0x1000 0 0 (Some (RamPage 0)) None)
      (set_ram (put_word 0 FULLOP_RFE (put_word 0x1000 0x24080007 ∅)) program)).

Lemma returning_good : good 55 returning.
Proof.
  destruct program_user as (((Hc & _) & _) & _). destruct Hc as [C1 C2 C3 C4 C5 C6 C7]. assert (core 55 returning) as Hr.
  { constructor; try done. by apply ram_ok_put. }
  split; [|done]. split_and!; [done|done|]. right. split; [done|]. vm_compute. reflexivity.
Qed.

Lemma rfe_enters_user_witness : ∃ s', cpu_cycle returning = Ok (1, s') ∧ user 56 s' ∧ pc (get_pcs s') = 0x1000.
Proof.
  destruct (rfe_enters_user 55 returning ltac:(lia) returning_good eq_refl eq_refl eq_refl) as (s' & E & Hu & Ep & _).
  - vm_compute. reflexivity.
  - exists 0x1000, (RamPage 0x1000). split; vm_compute; reflexivity.
  - exists 0x1004, (RamPage 0x1000). split; vm_compute; reflexivity.
  - exists s'. split; [exact E|]. split; [exact Hu|exact Ep].
Defined.
End Mipsuser.
