(* ===== verification/Mipsspec.v ===== *)
(** * What the instructions compute

    The arithmetic and logic of mips.c is written with unsigned words, masks and shifts.  [alu_reference] compares it
    with operations on integers; [unaligned_load] and [unaligned_store] do the same for the pairs of partial loads and stores
    with which code accesses words at any address. *)
From stdpp Require Import base list gmap numbers.
From S2P Require Import Prelude Mips Mipsinsn Mipssafe.
Local Open Scope Z_scope.

Module Mipsspec.
Import Mips Mipsinsn Mipssafe.

(** ** Words modulo 2^32 *)

(** Two integers with the same 32-bit representation. *)
Definition same32 (a b : Z) : Prop := u32 a = u32 b.

#[global] Instance same32_equiv : Equivalence same32.
Proof. split; red; unfold same32; congruence. Qed.

#[global] Instance i32_same : Proper (same32 ==> eq) i32.
Proof.
  intros a b Hab. unfold same32, u32, i32 in *. f_equal. rewrite <- (Z.add_mod_idemp_l a), <- (Z.add_mod_idemp_l b) by lia. by rewrite Hab.
Qed.

Lemma same32_u32 a : same32 (u32 a) a.
Proof. unfold same32, u32. by rewrite Z.mod_mod. Qed.

Lemma u32_mod a : u32 (a `mod` 2 ^ 32) = a `mod` 2 ^ 32.
Proof. unfold u32. apply Z.mod_mod. lia. Qed.

Lemma u32_i32_any a : u32 (i32 a) = u32 a.
Proof. unfold u32, i32. rewrite Zminus_mod_idemp_l. f_equal. lia. Qed.

Lemma u32_bits a i : 0 ≤ i → Z.testbit (u32 a) i = (i <? 32) && Z.testbit a i.
Proof.
  intros Hi. unfold u32. destruct (Z.ltb_spec i 32); cbn [andb]; [by apply Z.mod_pow2_bits_low|by apply Z.mod_pow2_bits_high].
Qed.

(** Bits below 32 decide. *)
Lemma same32_bits a b : (∀ i, 0 ≤ i < 32 → Z.testbit a i = Z.testbit b i) → same32 a b.
Proof.
  intros Hb. apply Z.bits_inj'. intros i Hi. rewrite !u32_bits by done. destruct (Z.ltb_spec i 32); [|done]. cbn. by apply Hb.
Qed.

Ltac bitwise := apply same32_bits; intros i Hi; rewrite ?Z.land_spec, ?Z.lor_spec, ?Z.lxor_spec, !u32_bits by lia;
  rewrite (proj2 (Z.ltb_lt i 32)) by lia.

#[global] Instance land_same : Proper (same32 ==> same32 ==> same32) Z.land.
Proof.
  intros a a' Ha b b' Hb. apply same32_bits. intros i Hi. rewrite !Z.land_spec.
  assert (∀ x y, same32 x y → Z.testbit x i = Z.testbit y i) as Hbit.
  { intros x y Hxy. pose proof (u32_bits x i ltac:(lia)) as E1. pose proof (u32_bits y i ltac:(lia)) as E2. unfold same32 in Hxy.
    rewrite Hxy, E2, (proj2 (Z.ltb_lt i 32)) in E1 by lia. by cbn in E1. }
  by rewrite (Hbit a a'), (Hbit b b').
Qed.

Lemma same32_add a a' b b' : same32 a a' → same32 b b' → same32 (a + b) (a' + b').
Proof. unfold same32, u32. intros Ha Hb. rewrite Z.add_mod, Ha, Hb, <- Z.add_mod by lia. done. Qed.

Lemma same32_sub a a' b b' : same32 a a' → same32 b b' → same32 (a - b) (a' - b').
Proof. unfold same32, u32. intros Ha Hb. rewrite Zminus_mod, Ha, Hb, <- Zminus_mod by lia. done. Qed.

Lemma same32_mul a a' c : same32 a a' → same32 (a * c) (a' * c).
Proof. unfold same32, u32. intros Ha. rewrite Z.mul_mod, Ha, <- Z.mul_mod by lia. done. Qed.

(** ** Shifts *)
(** The high bits of a 32-bit integer are its sign. *)
Lemma int32_high v i : int32 v → 31 ≤ i → Z.testbit v i = (v <? 0).
Proof.
  intros Hv Hi. unfold int32 in Hv. destruct (Z.ltb_spec v 0).
  - rewrite <- (Z.lnot_involutive v), Z.lnot_spec by lia. rewrite Z.bits_above_log2; [done|unfold Z.lnot; lia|].
    destruct (decide (Z.lnot v = 0)) as [->|]; [cbn; lia|]. assert (Z.log2 (Z.lnot v) < 31) by (apply Z.log2_lt_pow2; unfold Z.lnot in *; lia). lia.
  - destruct (decide (v = 0)) as [->|]; [by rewrite Z.bits_0|]. apply Z.bits_above_log2; [lia|].
    assert (Z.log2 v < 31) by (apply Z.log2_lt_pow2; lia). lia.
Qed.

Lemma neg_bit v : int32 v → negb (Z.land (u32 v) 0x80000000 =? 0) = (v <? 0).
Proof.
  intros Hv. change 0x80000000 with (2 ^ 31).
  assert (Z.land (u32 v) (2 ^ 31) = if v <? 0 then 2 ^ 31 else 0) as ->; [|by destruct (v <? 0)].
  apply Z.bits_inj'. intros i Hi. rewrite Z.land_spec, u32_bits, Z.pow2_bits_eqb by lia. destruct (Z.eqb_spec 31 i) as [<-|Hne].
  - rewrite (int32_high v 31 Hv), andb_true_r by lia. by destruct (v <? 0).
  - rewrite andb_false_r. destruct (v <? 0); [by rewrite Z.pow2_bits_false|by rewrite Z.bits_0].
Qed.

(** The shift written without a signed shift: the sign is or-ed in one place too far to the right, where the bit is already set. *)
Lemma signedshift_div v n : int32 v → 0 ≤ n < 32 → same32 (signedshift (u32 v) n) (v `div` 2 ^ n).
Proof.
  intros Hv Hn. unfold signedshift. rewrite neg_bit by done. rewrite <- Z.shiftr_div_pow2 by lia.
  apply same32_bits. intros i Hi. rewrite (Z.shiftr_spec v) by lia. destruct (Z.ltb_spec v 0) as [Hneg|Hneg].
  - rewrite Z.lor_spec, Z.shiftr_spec, !u32_bits, (proj2 (Z.ltb_lt i 32)) by lia. cbn [andb].
    change 0xffffffff with (Z.ones 32). rewrite Z.shiftl_spec by lia. destruct (Z.ltb_spec (i + n) 32).
    + cbn [andb]. destruct (decide (i + n = 31)) as [E|].
      * rewrite E. rewrite (int32_high v 31 Hv) by lia. rewrite (proj2 (Z.ltb_lt v 0)) by lia. done.
      * rewrite (Z.testbit_neg_r (Z.ones 32)) by lia. apply orb_false_r.
    + cbn [andb orb]. rewrite (int32_high v) by (done || lia). rewrite (proj2 (Z.ltb_lt v 0)) by lia. apply Z.ones_spec_low. lia.
  - rewrite Z.shiftr_spec, u32_bits by lia. destruct (Z.ltb_spec (i + n) 32); [done|]. cbn [andb].
    rewrite (int32_high v) by (done || lia). symmetry. by apply Z.ltb_ge.
Qed.
(** ** The reference *)
Inductive result :=
| Value (v : Z)
| Overflow.

Definition checked (v : Z) : result := if (- 2 ^ 31 <=? v) && (v <? 2 ^ 31) then Value v else Overflow.

(** Instructions on two registers with the values [a] and [b]; [sh] is the shift of the instruction. *)
Definition alu_r (funct a b sh : Z) : option result :=
  switch funct [
    (0, Some (Value (b * 2 ^ sh))); (2, Some (Value (u32 b `div` 2 ^ sh))); (3, Some (Value (b `div` 2 ^ sh)));
    (4, Some (Value (b * 2 ^ (a `mod` 32)))); (6, Some (Value (u32 b `div` 2 ^ (a `mod` 32)))); (7, Some (Value (b `div` 2 ^ (a `mod` 32))));
    (32, Some (checked (a + b))); (33, Some (Value (a + b))); (34, Some (checked (a - b))); (35, Some (Value (a - b)));
    (36, Some (Value (Z.land a b))); (37, Some (Value (Z.lor a b))); (38, Some (Value (Z.lxor a b))); (39, Some (Value (Z.lnot (Z.lor a b))));
    (42, Some (Value (if a <? b then 1 else 0))); (43, Some (Value (if u32 a <? u32 b then 1 else 0)))]
    None.

(** Instructions on a register and an immediate, [imm] as it is and [smm] sign-extended. *)
Definition alu_i (op a imm smm : Z) : option result :=
  switch op [
    (8, Some (checked (a + smm))); (9, Some (Value (a + smm)));
    (10, Some (Value (if a <? smm then 1 else 0))); (11, Some (Value (if u32 a <? u32 smm then 1 else 0)));
    (12, Some (Value (Z.land a imm))); (13, Some (Value (Z.lor a imm))); (14, Some (Value (Z.lxor a imm))); (15, Some (Value (imm * 2 ^ 16)))]
    None.

Section alu.
Context {D : Type} `{Bus D}.
Implicit Types s : machine D.

Definition computed (d : Z) (x : result) : M (machine D) unit :=
  match x with
  | Value v => set_reg d v
  | Overflow => exception EX_OVF 0 0
  end.

Lemma put_reg_same d v v' s : same32 v v' → put_reg d v s = put_reg d v' s.
Proof. intros E. unfold put_reg. by rewrite E. Qed.

Lemma reg_int32 i s : regs_ok (get_regs s) → int32 (reg i s).
Proof.
  intros (_ & Hf & _). unfold reg. destruct (r (get_regs s) !! Z.to_nat i) as [v|] eqn:E; cbn; [|done]. by eapply Forall_lookup_1.
Qed.

Lemma NEEDSH_range insn : 0 ≤ NEEDSH insn < 32.
Proof.
  unfold NEEDSH. assert (Z.land insn 0x7c0 = Z.land (Z.land insn 0x7c0) (Z.ones 11)) as E.
  { rewrite <- Z.land_assoc. done. }
  rewrite E, Z.land_ones by lia. pose proof (Z.mod_pos_bound (Z.land insn 0x7c0) (2 ^ 11) ltac:(lia)). rewrite Z.shiftr_div_pow2 by lia.
  split; [apply Z.div_pos; lia|]. apply Z.div_lt_upper_bound; lia.
Qed.

Lemma land31 a : Z.land (u32 a) 31 = a `mod` 32.
Proof. change 31 with (Z.ones 5). rewrite Z.land_ones by lia. unfold u32. apply Z.mod_mod_divide. by exists (2 ^ 27). Qed.

Lemma checked_run v d s : CHKOVF v (set_reg d v) s = computed d (checked v) s.
Proof.
  unfold CHKOVF, checked. destruct (Z.leb_spec (- 2 ^ 31) v), (Z.ltb_spec v (2 ^ 31)); cbn [andb computed].
  - rewrite i32_small by lia. by rewrite Z.eqb_refl.
  - destruct (Z.eqb_spec (i32 v) v) as [E|]; [|done]. pose proof (i32_range v). lia.
  - destruct (Z.eqb_spec (i32 v) v) as [E|]; [|done]. pose proof (i32_range v). lia.
  - destruct (Z.eqb_spec (i32 v) v) as [E|]; [|done]. pose proof (i32_range v). lia.
Qed.

Lemma set_reg_same d v v' s : same32 v v' → set_reg d v s = set_reg d v' s.
Proof. intros E. unfold set_reg, modify. by rewrite (put_reg_same d v v'). Qed.
(** *** One lemma per way of computing *)
Lemma same_shiftl b n : 0 ≤ n → same32 (u32 (Z.shiftl (u32 b) n)) (b * 2 ^ n).
Proof. intros Hn. rewrite same32_u32, Z.shiftl_mul_pow2 by done. apply same32_mul, same32_u32. Qed.

Lemma same_add a b : same32 (u32 (u32 a + u32 b)) (a + b).
Proof. rewrite same32_u32. apply same32_add; apply same32_u32. Qed.

Lemma same_sub a b : same32 (u32 (u32 a - u32 b)) (a - b).
Proof. rewrite same32_u32. apply same32_sub; apply same32_u32. Qed.

Lemma same_land a b : same32 (Z.land (u32 a) (u32 b)) (Z.land a b).
Proof. bitwise. done. Qed.

Lemma same_lor a b : same32 (Z.lor (u32 a) (u32 b)) (Z.lor a b).
Proof. bitwise. done. Qed.

Lemma same_lxor a b : same32 (Z.lxor (u32 a) (u32 b)) (Z.lxor a b).
Proof. bitwise. done. Qed.

Lemma same_nor a b : same32 (not32 (Z.lor (u32 a) (u32 b))) (Z.lnot (Z.lor a b)).
Proof.
  apply same32_bits. intros i Hi. unfold not32. rewrite Z.ldiff_spec, Z.lnot_spec, !Z.lor_spec, !u32_bits by lia.
  rewrite (proj2 (Z.ltb_lt i 32)) by lia. change 0xffffffff with (Z.ones 32). rewrite Z.ones_spec_low by lia. done.
Qed.

Lemma NEEDIMM_range insn : 0 ≤ NEEDIMM insn < 2 ^ 16.
Proof. unfold NEEDIMM. change 0xffff with (Z.ones 16). rewrite Z.land_ones by lia. apply Z.mod_pos_bound. lia. Qed.

(** With a small operand the conversion of the other does not matter either. *)
Lemma u32_imm insn : u32 (NEEDIMM insn) = NEEDIMM insn.
Proof. pose proof (NEEDIMM_range insn). apply u32_small. lia. Qed.

Lemma special_reference insn s x :
  regs_ok (get_regs s) → alu_r (Z.land insn 0x3f) (reg (NEEDRS insn) s) (reg (NEEDRT insn) s) (NEEDSH insn) = Some x →
  special insn s = computed (NEEDRD insn) x s.
Proof.
  intros Hr. pose proof (reg_int32 (NEEDRT insn) s Hr) as Hb. pose proof (NEEDSH_range insn) as Hsh.
  pose proof (Z.mod_pos_bound (reg (NEEDRS insn) s) 32 ltac:(lia)) as Hv. unfold alu_r, special. cbn [switch].
  repeat match goal with
  | |- (if (Z.land insn 0x3f =? ?k) then _ else _) = Some x → _ =>
      destruct (Z.eqb_spec (Z.land insn 0x3f) k) as [E|_]; [rewrite ?E; cbn [Z.eqb Pos.eqb]; intros [= <-]|]
  end; [..|done].
  - apply set_reg_same, same_shiftl. lia.
  - apply set_reg_same. by rewrite Z.shiftr_div_pow2 by lia.
  - by apply set_reg_same, signedshift_div.
  - unfold mx_sllv. erewrite bind_ok by reflexivity. erewrite bind_ok by reflexivity. rewrite land31. apply set_reg_same, same_shiftl. lia.
  - unfold mx_srlv. erewrite bind_ok by reflexivity. erewrite bind_ok by reflexivity. rewrite land31. apply set_reg_same. by rewrite Z.shiftr_div_pow2 by lia.
  - unfold mx_srav. erewrite bind_ok by reflexivity. erewrite bind_ok by reflexivity. rewrite land31. by apply set_reg_same, signedshift_div.
  - apply checked_run.
  - apply set_reg_same, same_add.
  - apply checked_run.
  - apply set_reg_same, same_sub.
  - apply set_reg_same, same_land.
  - apply set_reg_same, same_lor.
  - apply set_reg_same, same_lxor.
  - apply set_reg_same, same_nor.
  - done.
  - done.
Qed.

Lemma immediate_reference op insn s x :
  regs_ok (get_regs s) → alu_i op (reg (NEEDRS insn) s) (NEEDIMM insn) (NEEDSMM insn) = Some x →
  dispatch op insn s = computed (NEEDRT insn) x s.
Proof.
  intros Hr. unfold alu_i, dispatch. cbn [switch].
  repeat match goal with
  | |- (if (op =? ?k) then _ else _) = Some x → _ => destruct (Z.eqb_spec op k) as [E|_]; [rewrite ?E; cbn [Z.eqb Pos.eqb]; intros [= <-]|]
  end; [..|done].
  - apply checked_run.
  - apply set_reg_same, same_add.
  - done.
  - done.
  - apply set_reg_same. rewrite <- (u32_imm insn) at 1. apply same_land.
  - apply set_reg_same. rewrite <- (u32_imm insn) at 1. apply same_lor.
  - apply set_reg_same. rewrite <- (u32_imm insn) at 1. apply same_lxor.
  - apply set_reg_same. by rewrite Z.shiftl_mul_pow2.
Qed.
(** *** Multiplication *)
Definition free s : Prop := lowait (get_regs s) = 0 ∧ hiwait (get_regs s) = 0.

Lemma high_word t : 0 ≤ t < 2 ^ 64 → Z.shiftr (Z.land t 0xffffffff00000000) 32 = t `div` 2 ^ 32 ∧ Z.land t 0xffffffff = t `mod` 2 ^ 32.
Proof.
  intros Ht. split; [|by apply (Z.land_ones t 32)]. rewrite Z.shiftr_land. change (Z.shiftr 0xffffffff00000000 32) with (Z.ones 32).
  rewrite Z.land_ones, Z.shiftr_div_pow2 by lia. apply Z.mod_small. split; [apply Z.div_pos; lia|apply Z.div_lt_upper_bound; lia].
Qed.

Lemma mult_exact insn s :
  regs_ok (get_regs s) → free s →
  ∃ s', mx_mult insn s = Ok (tt, s') ∧ hi (get_regs s') * 2 ^ 32 + u32 (lo (get_regs s')) = reg (NEEDRS insn) s * reg (NEEDRT insn) s.
Proof.
  intros Hr [W1 W2]. unfold mx_mult. erewrite bind_ok by reflexivity. erewrite bind_ok by reflexivity. unfold WHILO. erewrite bind_ok by reflexivity.
  rewrite W1, W2. cbn [Z.gtb Z.compare orb]. set (a := reg (NEEDRS insn) s). set (b := reg (NEEDRT insn) s). eexists. split; [reflexivity|]. cbn -[Z.land Z.shiftr Z.modulo Z.mul Z.pow].
  pose proof (reg_int32 (NEEDRS insn) s Hr) as Ha. pose proof (reg_int32 (NEEDRT insn) s Hr) as Hb. fold a in Ha. fold b in Hb. clearbody a b.
  destruct (high_word ((a * b) `mod` 2 ^ 64)) as [-> ->]; [apply Z.mod_pos_bound; lia|]. unfold int32 in *.
  rewrite u32_i32_any. assert (- 2 ^ 62 ≤ a * b ≤ 2 ^ 62) as Hab by nia. set (t := a * b) in *. clearbody t.
  pose proof (Z.div_mod t (2 ^ 64) ltac:(lia)) as D1. pose proof (Z.mod_pos_bound t (2 ^ 64) ltac:(lia)) as D2.
  pose proof (Z.div_mod t (2 ^ 32) ltac:(lia)) as D3. pose proof (Z.mod_pos_bound t (2 ^ 32) ltac:(lia)) as D4.
  assert ((t `mod` 2 ^ 64) `mod` 2 ^ 32 = t `mod` 2 ^ 32) as -> by (apply Z.mod_mod_divide; by exists (2 ^ 32)).
  assert (same32 ((t `mod` 2 ^ 64) `div` 2 ^ 32) (t `div` 2 ^ 32)) as ->.
  { assert (t `mod` 2 ^ 64 = t + (- (t `div` 2 ^ 64) * 2 ^ 32) * 2 ^ 32) as -> by lia. rewrite Z.div_add by lia. unfold same32, u32. apply Z.mod_add. lia. }
  rewrite i32_small by lia. rewrite u32_mod. lia.
Qed.

(** The quotient rounds to zero. *)
Lemma div_exact insn s :
  regs_ok (get_regs s) → free s → reg (NEEDRT insn) s ≠ 0 → ¬ (reg (NEEDRS insn) s = - 2 ^ 31 ∧ reg (NEEDRT insn) s = -1) →
  ∃ s', mx_div insn s = Ok (tt, s') ∧ reg (NEEDRS insn) s = lo (get_regs s') * reg (NEEDRT insn) s + hi (get_regs s') ∧
    Z.abs (hi (get_regs s')) < Z.abs (reg (NEEDRT insn) s) ∧ 0 ≤ hi (get_regs s') * reg (NEEDRS insn) s.
Proof.
  intros Hr [W1 W2] Hz Hov. unfold mx_div. erewrite bind_ok by reflexivity. erewrite bind_ok by reflexivity. unfold WHILO. erewrite bind_ok by reflexivity.
  rewrite W1, W2. cbn [Z.gtb Z.compare orb]. pose proof (reg_int32 (NEEDRS insn) s Hr) as Ha. pose proof (reg_int32 (NEEDRT insn) s Hr) as Hb.
  set (a := reg (NEEDRS insn) s) in *. set (b := reg (NEEDRT insn) s) in *. clearbody a b. unfold int32 in *.
  destruct (Z.eqb_spec b 0); [done|].
  assert ((a =? - 2 ^ 31) && (b =? -1) = false) as ->.
  { destruct (Z.eqb_spec a (- 2 ^ 31)), (Z.eqb_spec b (-1)); try done. by destruct Hov. }
  eexists. split; [reflexivity|]. cbn -[Z.quot Z.rem Z.mul Z.abs Z.opp Z.pow].
  pose proof (Z.quot_rem' a b) as Hq. pose proof (Z.rem_bound_abs a b ltac:(done)) as Hm. pose proof (Z.rem_sign_nz a b) as Hs.
  assert (Z.abs (Z.quot a b) ≤ Z.abs a) as Hqa.
  { rewrite <- Z.quot_abs by done. apply Z.quot_le_upper_bound; nia. }
  assert (Z.quot a b ≠ 2 ^ 31) as Hq31.
  { intros E. rewrite E in *. assert (Z.abs a = 2 ^ 31) by lia. nia. }
  rewrite (i32_small (Z.rem a b)) by lia. rewrite (i32_small (Z.quot a b)) by lia. split_and!; [lia|done|].
  destruct (decide (Z.rem a b = 0)) as [->|Hnz]; [lia|]. specialize (Hs ltac:(done) Hnz). nia.
Qed.
End alu.
(** ** Bytes of words *)

(** Byte [n] of a word, the least significant being byte 0. *)
Definition byte (n v : Z) : Z := Z.land (Z.shiftr v (8 * n)) 255.

Lemma byte_lor n a b : byte n (Z.lor a b) = Z.lor (byte n a) (byte n b).
Proof. unfold byte. by rewrite Z.shiftr_lor, !(Z.land_comm _ 255), Z.land_lor_distr_r. Qed.

Lemma byte_land n a b : byte n (Z.land a b) = Z.land (byte n a) (byte n b).
Proof.
  unfold byte. rewrite Z.shiftr_land. apply Z.bits_inj'. intros i Hi. rewrite !Z.land_spec. by destruct (Z.testbit (Z.shiftr a (8 * n)) i), (Z.testbit 255 i), (Z.testbit (Z.shiftr b (8 * n)) i).
Qed.

Lemma byte_shiftr n m v : 0 ≤ n → 0 ≤ m → byte n (Z.shiftr v (8 * m)) = byte (n + m) v.
Proof. intros Hn Hm. unfold byte. rewrite Z.shiftr_shiftr by lia. do 2 f_equal. lia. Qed.

Lemma byte_shiftl n m v : 0 ≤ m ≤ n → byte n (Z.shiftl v (8 * m)) = byte (n - m) v.
Proof. intros Hm. unfold byte. rewrite Z.shiftr_shiftl_r by lia. do 2 f_equal. lia. Qed.

Lemma byte_u32 n v : 0 ≤ n < 4 → byte n (u32 v) = byte n v.
Proof.
  intros Hn. unfold byte. apply Z.bits_inj'. intros i Hi. rewrite !Z.land_spec, !Z.shiftr_spec, u32_bits by lia. change 255 with (Z.ones 8).
  rewrite Z.testbit_ones_nonneg by lia. destruct (Z.ltb_spec i 8); [|by rewrite !andb_false_r]. by rewrite (proj2 (Z.ltb_lt (i + 8 * n) 32)) by lia.
Qed.

Lemma byte_div n v : 0 ≤ n → byte n v = (v `div` 2 ^ (8 * n)) `mod` 256.
Proof. intros Hn. unfold byte. rewrite (Z.land_ones _ 8), Z.shiftr_div_pow2 by lia. done. Qed.

Lemma byte_range n v : is_byte (byte n v).
Proof. unfold byte, is_byte. rewrite (Z.land_ones _ 8) by lia. apply Z.mod_pos_bound. lia. Qed.

Lemma byte_id c : is_byte c → Z.land c 255 = c.
Proof. intros Hc. rewrite (Z.land_ones _ 8) by lia. apply Z.mod_small. exact Hc. Qed.

(** The bytes of memory, most significant first. *)
Lemma byte_be c0 c1 c2 c3 :
  is_byte c0 → is_byte c1 → is_byte c2 → is_byte c3 →
  let w := un_be [c0; c1; c2; c3] in byte 3 w = c0 ∧ byte 2 w = c1 ∧ byte 1 w = c2 ∧ byte 0 w = c3 ∧ word w.
Proof.
  unfold is_byte, word. intros H0 H1 H2 H3. cbv zeta. rewrite !byte_div by lia. unfold un_be. cbn [foldl].
  change (2 ^ (8 * 3)) with 16777216. change (2 ^ (8 * 2)) with 65536. change (2 ^ (8 * 1)) with 256. change (2 ^ (8 * 0)) with 1.
  split_and!; Z.to_euclidean_division_equations; lia.
Qed.

Lemma word_bytes v : word v → v = un_be [byte 3 v; byte 2 v; byte 1 v; byte 0 v].
Proof.
  unfold word. intros Hv. rewrite !byte_div by lia. unfold un_be. cbn [foldl].
  change (2 ^ (8 * 3)) with 16777216. change (2 ^ (8 * 2)) with 65536. change (2 ^ (8 * 1)) with 256. change (2 ^ (8 * 0)) with 1.
  Z.to_euclidean_division_equations. lia.
Qed.
(** Of two words merged under a mask of whole bytes. *)
Lemma merge_new n old x nm m : byte n m = 255 → byte n nm = 0 → byte n (Z.lor (Z.land old nm) (Z.land x m)) = byte n x.
Proof. intros E1 E2. rewrite byte_lor, !byte_land, E1, E2, Z.land_0_r, Z.lor_0_l. apply byte_id, byte_range. Qed.

Lemma merge_old n old x nm m : byte n m = 0 → byte n nm = 255 → byte n (Z.lor (Z.land old nm) (Z.land x m)) = byte n old.
Proof. intros E1 E2. rewrite byte_lor, !byte_land, E1, E2, Z.land_0_r, Z.lor_0_r. apply byte_id, byte_range. Qed.

Lemma merge_word old x nm m : word nm → word m → word (Z.lor (Z.land old nm) (Z.land x m)).
Proof. intros Hn Hm. apply word_lor; by apply word_land_r. Qed.

Ltac merge := repeat (rewrite merge_new by reflexivity || rewrite merge_old by reflexivity).

(** ** Partial loads and stores, in the kernel's direct-mapped memory *)
Section memory.
Context {D : Type} `{Bus D}.
Implicit Types s : machine D.

(** Kernel mode, with the memory a machine has. *)
Record kernel_memory s : Prop := {
  km_mode : IS_USERMODE s = false;
  km_size : size_ok (bus_ramsize s);
  km_ram : ram_ok (ram s)
}.

Lemma ram_is_byte s x : kernel_memory s → is_byte (ram_byte (ram s) x).
Proof. intros [_ _ Hr]. unfold ram_byte, is_byte. destruct (ram s !! x) as [b|] eqn:E; cbn; [by apply (Hr x)|lia]. Qed.

Lemma kernel_address q : 0 ≤ q < 2 ^ 24 → q `mod` 4 = 0 →
  Z.shiftr (0x80000000 + q) 30 = 2 ∧ Z.land (0x80000000 + q) 3 = 0 ∧ Z.land (0x80000000 + q) 0x1fffffff = q.
Proof.
  intros Hq H4. split_and!.
  - rewrite Z.shiftr_div_pow2 by lia. symmetry. apply (Z.div_unique_pos _ _ _ q); lia.
  - rewrite land3. change 0x80000000 with (536870912 * 4). rewrite Z.add_comm, Z.mod_add by lia. done.
  - change 0x1fffffff with (Z.ones 29). rewrite Z.land_ones by lia. change 0x80000000 with (4 * 2 ^ 29). rewrite Z.add_comm, Z.mod_add by lia.
    apply Z.mod_small. lia.
Qed.

Lemma fits s q : kernel_memory s → 0 ≤ q < bus_ramsize s → q `mod` 4 = 0 →
  0 ≤ q < 2 ^ 24 ∧ (q >=? bus_ramsize s) = false ∧ (q + 4 >? bus_ramsize s) = false ∧ (q <? 0x1fc00000) = true.
Proof.
  intros [_ [Hs Hz] _] Hq H4. pose proof (word_fits (bus_ramsize s) q (conj Hs Hz) H4) as Hf.
  assert ((q >=? bus_ramsize s) = false) as E by (rewrite Z.geb_leb; apply Z.leb_gt; lia). rewrite E, andb_true_r in Hf.
  split_and!; [lia|lia|done|done|apply Z.ltb_lt; lia].
Qed.

Lemma domem_load q wr s :
  kernel_memory s → 0 ≤ q < bus_ramsize s → q `mod` 4 = 0 → domem (0x80000000 + q) None wr s = Ok (Some (ram_word (ram s) q), s).
Proof.
  intros Hk Hq H4. destruct (fits s q Hk Hq H4) as (Hb & E1 & E2 & E3). destruct (kernel_address q Hb H4) as (A1 & A2 & A3).
  unfold domem. erewrite bind_ok by (apply translate_kseg; [apply Hk|done|done]). rewrite A3. unfold accessmem. rewrite E3.
  erewrite bind_ok by (unfold bus_mem_fetch; rewrite E1, E2; reflexivity). reflexivity.
Qed.

Lemma domem_store q v s :
  kernel_memory s → 0 ≤ q < bus_ramsize s → q `mod` 4 = 0 → domem (0x80000000 + q) (Some v) true s = Ok (Some 0, set_ram (put_word q v (ram s)) s).
Proof.
  intros Hk Hq H4. destruct (fits s q Hk Hq H4) as (Hb & E1 & E2 & E3). destruct (kernel_address q Hb H4) as (A1 & A2 & A3).
  unfold domem. erewrite bind_ok by (apply translate_kseg; [apply Hk|done|done]). rewrite A3. unfold accessmem. rewrite E3.
  erewrite bind_ok; [|erewrite bind_ok by (unfold bus_mem_store; rewrite E1, E2; reflexivity); reflexivity]. reflexivity.
Qed.

(** The aligned word around an address, and the place in it. *)
Lemma split_address p k : 0 ≤ p < 2 ^ 24 → p `mod` 4 = k →
  Z.land (0x80000000 + p) 0xfffffffc = 0x80000000 + (p - k) ∧ Z.land (0x80000000 + p) 3 = k ∧ (p - k) `mod` 4 = 0 ∧ 0 ≤ k < 4 ∧ 0 ≤ p - k.
Proof.
  intros Hp Hk. pose proof (Z.mod_pos_bound p 4 ltac:(lia)) as Hb. pose proof (Z.mod_le p 4 ltac:(lia) ltac:(lia)).
  assert ((0x80000000 + p) `mod` 4 = k) as Hm.
  { change 0x80000000 with (536870912 * 4). rewrite Z.add_comm, Z.mod_add by lia. done. }
  rewrite land_fffc, land3 by (unfold word; lia). rewrite Hm. split_and!; try lia. rewrite <- Hk. pose proof (Z.div_mod p 4 ltac:(lia)).
  replace (p - p `mod` 4) with (p `div` 4 * 4) by lia. apply Z.mod_mul. lia.
Qed.
(** *** Loads *)
Lemma ram_word_bytes s q : kernel_memory s →
  let w := ram_word (ram s) q in byte 3 w = ram_byte (ram s) q ∧ byte 2 w = ram_byte (ram s) (q + 1) ∧ byte 1 w = ram_byte (ram s) (q + 2) ∧
    byte 0 w = ram_byte (ram s) (q + 3) ∧ word w.
Proof. intros Hk. apply byte_be; by apply ram_is_byte. Qed.

Lemma word_is s p x :
  kernel_memory s → word x → byte 3 x = ram_byte (ram s) p → byte 2 x = ram_byte (ram s) (p + 1) → byte 1 x = ram_byte (ram s) (p + 2) →
  byte 0 x = ram_byte (ram s) (p + 3) → x = ram_word (ram s) p.
Proof. intros Hk Hx E3 E2 E1 E0. rewrite (word_bytes x Hx), E3, E2, E1, E0. done. Qed.

Lemma mod4_cases p : p `mod` 4 = 0 ∨ p `mod` 4 = 1 ∨ p `mod` 4 = 2 ∨ p `mod` 4 = 3.
Proof. pose proof (Z.mod_pos_bound p 4 ltac:(lia)). lia. Qed.

Lemma load_byte p old s :
  kernel_memory s → 0 ≤ p < bus_ramsize s →
  doload S_UBYTE (0x80000000 + p) old s = Ok (Some (ram_byte (ram s) p), s) ∧
  doload S_SBYTE (0x80000000 + p) old s = Ok (Some (u32 (i8 (ram_byte (ram s) p))), s).
Proof.
  intros Hk Hp. assert (bus_ramsize s ≤ 2 ^ 24) as Hs by apply (km_size _ Hk).
  assert (∀ k, p `mod` 4 = k → byte (3 - k) (ram_word (ram s) (p - k)) = ram_byte (ram s) p) as Hbyte.
  { intros k Hm. destruct (ram_word_bytes s (p - k) Hk) as (B3 & B2 & B1 & B0 & _).
    destruct (mod4_cases p) as [E|[E|[E|E]]]; rewrite E in Hm; subst k;
      (etransitivity; [first [exact B3|exact B2|exact B1|exact B0]|f_equal; lia]). }
  assert (∀ k, p `mod` 4 = k → byte_of (ram_word (ram s) (p - k)) (0x80000000 + p) = ram_byte (ram s) p) as Hof.
  { intros k Hm. rewrite <- (Hbyte k Hm). destruct (split_address p k ltac:(lia) Hm) as (_ & A & _). unfold byte_of, byte. rewrite A.
    destruct (mod4_cases p) as [E|[E|[E|E]]]; rewrite E in Hm; subst k; rewrite ?Z.shiftr_land; reflexivity. }
  destruct (split_address p _ ltac:(lia) eq_refl) as (A1 & A2 & A3 & A4 & A5). unfold doload. rewrite A1.
  split; (erewrite bind_ok by (apply domem_load; [done|lia|done])); cbn [fmap option_fmap option_map]; by rewrite Hof.
Qed.

(** The two halves of a load from any address. *)
Definition load_unaligned (a old : Z) : M (machine D) (option Z) :=
  let* x := doload S_WORDL a old in
  match x with
  | None => mret None
  | Some x => doload S_WORDR (a + 3) x
  end.

Lemma loadl_run p k old s :
  kernel_memory s → 0 ≤ p < bus_ramsize s → p `mod` 4 = k →
  doload S_WORDL (0x80000000 + p) old s =
    let '(mask, shift) := loadl_mask k in
    Ok (Some (Z.lor (Z.land old (not32 mask)) (Z.land (u32 (Z.shiftl (ram_word (ram s) (p - k)) shift)) mask)), s).
Proof.
  intros Hk Hp Hm. assert (bus_ramsize s ≤ 2 ^ 24) as Hs by apply (km_size _ Hk).
  destruct (split_address p k ltac:(lia) Hm) as (A1 & A2 & A3 & A4 & A5). unfold doload. rewrite A1.
  erewrite bind_ok by (apply domem_load; [done|lia|done]). unfold loadl_mask. rewrite A2.
  destruct (mod4_cases p) as [E|[E|[E|E]]]; rewrite E in Hm; subst k; reflexivity.
Qed.

Lemma loadr_run p k old s :
  kernel_memory s → 0 ≤ p < bus_ramsize s → p `mod` 4 = k →
  doload S_WORDR (0x80000000 + p) old s =
    let '(mask, shift) := loadr_mask k in
    Ok (Some (Z.lor (Z.land old (not32 mask)) (Z.land (Z.shiftr (ram_word (ram s) (p - k)) shift) mask)), s).
Proof.
  intros Hk Hp Hm. assert (bus_ramsize s ≤ 2 ^ 24) as Hs by apply (km_size _ Hk).
  destruct (split_address p k ltac:(lia) Hm) as (A1 & A2 & A3 & A4 & A5). unfold doload. rewrite A1.
  erewrite bind_ok by (apply domem_load; [done|lia|done]). unfold loadr_mask. rewrite A2.
  destruct (mod4_cases p) as [E|[E|[E|E]]]; rewrite E in Hm; subst k; reflexivity.
Qed.
(** Byte by byte: which half it comes from, and where it was in memory. *)
Ltac byte_of_ram Hk :=
  repeat (first [rewrite merge_new by reflexivity|rewrite merge_old by reflexivity]); rewrite ?byte_u32 by lia;
  lazymatch goal with
  | |- byte ?n (Z.shiftl ?w ?sh) = _ => let m := eval vm_compute in (sh / 8) in etransitivity; [apply (byte_shiftl n m w); lia|]
  | |- byte ?n (Z.shiftr ?w ?sh) = _ => let m := eval vm_compute in (sh / 8) in etransitivity; [apply (byte_shiftr n m w); lia|]
  end;
  lazymatch goal with
  | |- byte _ (ram_word (ram ?s) ?q) = _ =>
      destruct (ram_word_bytes s q Hk) as (B3 & B2 & B1 & B0 & _); etransitivity; [first [exact B3|exact B2|exact B1|exact B0]|f_equal; lia]
  end.

Lemma mod4_shift p j k : p `mod` 4 = k → (p + j) `mod` 4 = (k + j) `mod` 4.
Proof. intros <-. by rewrite Z.add_mod_idemp_l. Qed.

(** The place in its word of the last byte. *)
Ltac next_place p E tac :=
  match type of E with
  | _ = ?k => let j := eval vm_compute in ((k + 3) `mod` 4) in
      let Ej := fresh in assert ((p + 3) `mod` 4 = j) as Ej by (apply (mod4_shift p 3 k E)); tac j Ej
  end.

Lemma load_unaligned_run p old s :
  kernel_memory s → 0 ≤ p → p + 4 ≤ bus_ramsize s → load_unaligned (0x80000000 + p) old s = Ok (Some (ram_word (ram s) p), s).
Proof.
  intros Hk Hp Hp4. unfold load_unaligned.
  destruct (mod4_cases p) as [E|[E|[E|E]]]; (erewrite bind_ok by (apply (loadl_run p _ _ _ Hk ltac:(lia) E))); rewrite <- (Z.add_assoc 0x80000000 p 3);
    (etransitivity; [next_place p E ltac:(fun j Ej => apply (loadr_run (p + 3) j _ _ Hk ltac:(lia) Ej))|]);
    cbn [loadr_mask Z.land Pos.land N.land Z.of_N N.succ_double N.double Pos.Nsucc_double Pos.Ndouble];
    cbv beta iota; do 3 f_equal; (apply word_is; [done|by apply merge_word|byte_of_ram Hk..]).
Qed.
(** *** Stores *)

(** The low [n] bytes of [v] at [p]. *)
Definition bytes_at (p n v : Z) (m : gmap Z Z) (x : Z) : Z :=
  if decide (p ≤ x < p + n) then byte (n - 1 - (x - p)) v else ram_byte m x.

Lemma put_word_byte q v m x : ram_byte (put_word q v m) x = bytes_at q 4 v m x.
Proof.
  unfold ram_byte, put_word, bytes_at. assert (∀ n, 0 ≤ n → u8 (v `div` 2 ^ (8 * n)) = byte n v) as Hb by (intros n Hn; by rewrite byte_div).
  destruct (decide (x = q)) as [->|N0]; [rewrite lookup_insert_eq, decide_True by lia; cbn; replace (4 - 1 - (q - q)) with 3 by lia; apply (Hb 3); lia|].
  destruct (decide (x = q + 1)) as [->|N1].
  { rewrite lookup_insert_ne, lookup_insert_eq, decide_True by lia. cbn. replace (4 - 1 - (q + 1 - q)) with 2 by lia. apply (Hb 2). lia. }
  destruct (decide (x = q + 2)) as [->|N2].
  { rewrite !lookup_insert_ne, lookup_insert_eq, decide_True by lia. cbn. replace (4 - 1 - (q + 2 - q)) with 1 by lia. apply (Hb 1). lia. }
  destruct (decide (x = q + 3)) as [->|N3].
  { rewrite !lookup_insert_ne, lookup_insert_eq, decide_True by lia. cbn. replace (4 - 1 - (q + 3 - q)) with 0 by lia. rewrite byte_div by lia.
    change (2 ^ (8 * 0)) with 1. by rewrite Z.div_1_r. }
  rewrite !lookup_insert_ne, decide_False by lia. done.
Qed.

Lemma update_run q f s :
  kernel_memory s → 0 ≤ q < bus_ramsize s → q `mod` 4 = 0 →
  update_word (0x80000000 + q) f s = Ok (tt, set_ram (put_word q (f (ram_word (ram s) q)) (ram s)) s).
Proof.
  intros Hk Hq H4. unfold update_word. erewrite bind_ok by (by apply domem_load). cbv beta iota. erewrite bind_ok by (by apply domem_store). done.
Qed.

(** What a merged word leaves in memory, byte by byte. *)
Lemma merged_bytes q x nm m s (g : Z → Z) :
  kernel_memory s →
  (∀ i, i = 0 ∨ i = 1 ∨ i = 2 ∨ i = 3 → byte (3 - i) m = 255 ∧ byte (3 - i) nm = 0 ∧ byte (3 - i) x = g (q + i) ∨
     byte (3 - i) m = 0 ∧ byte (3 - i) nm = 255 ∧ ram_byte (ram s) (q + i) = g (q + i)) →
  (∀ y, ¬ (q ≤ y < q + 4) → ram_byte (ram s) y = g y) →
  ∀ y, ram_byte (put_word q (Z.lor (Z.land (ram_word (ram s) q) nm) (Z.land x m)) (ram s)) y = g y.
Proof.
  intros Hk Hin Hout y. rewrite put_word_byte. unfold bytes_at. case_decide as Hy; [|by apply Hout].
  destruct (ram_word_bytes s q Hk) as (B3 & B2 & B1 & B0 & _).
  destruct (Hin (y - q) ltac:(lia)) as [(E1 & E2 & E3)|(E1 & E2 & E3)]; replace (4 - 1 - (y - q)) with (3 - (y - q)) by lia;
    replace (q + (y - q)) with y in E3 by lia; rewrite <- E3; [by apply merge_new|]. etransitivity; [by apply merge_old|].
  assert (y = q ∨ y = q + 1 ∨ y = q + 2 ∨ y = q + 3) as [-> | [-> | [-> | ->]]] by lia.
  - replace (3 - (q - q)) with 3 by lia. exact B3.
  - replace (3 - (q + 1 - q)) with 2 by lia. exact B2.
  - replace (3 - (q + 2 - q)) with 1 by lia. exact B1.
  - replace (3 - (q + 3 - q)) with 0 by lia. exact B0.
Qed.
(** The byte of a shifted value. *)
Ltac shifted :=
  rewrite ?byte_u32 by lia;
  lazymatch goal with
  | |- byte ?n (Z.shiftl ?w ?sh) = _ => let m := eval vm_compute in (sh / 8) in etransitivity; [apply (byte_shiftl n m w); lia|]
  | |- byte ?n (Z.shiftr ?w ?sh) = _ => let m := eval vm_compute in (sh / 8) in etransitivity; [apply (byte_shiftr n m w); lia|]
  end.

(** Each byte of the word is new or old, as the mask says. *)
Ltac place :=
  intros i [-> | [-> | [-> | ->]]];
  (left; split; [reflexivity|]; split; [reflexivity|]; rewrite decide_True by lia; cbn [Z.sub Z.add Z.opp Pos.sub Z.pos_sub Pos.add Pos.sub_mask]; shifted; f_equal; lia) ||
  (right; split; [reflexivity|]; split; [reflexivity|]; rewrite decide_False by lia; reflexivity).

Lemma storel_bytes p v s :
  kernel_memory s → 0 ≤ p < bus_ramsize s →
  ∃ m', dostore S_WORDL (0x80000000 + p) v s = Ok (tt, set_ram m' s) ∧ ram_ok m' ∧
    ∀ x, ram_byte m' x = if decide (p ≤ x < p - p `mod` 4 + 4) then byte (3 - (x - p)) v else ram_byte (ram s) x.
Proof.
  intros Hk Hp. assert (bus_ramsize s ≤ 2 ^ 24) as Hs by apply (km_size _ Hk).
  destruct (split_address p _ ltac:(lia) eq_refl) as (A1 & A2 & A3 & A4 & A5). unfold dostore, storel_mask. rewrite A1, A2.
  destruct (mod4_cases p) as [E|[E|[E|E]]]; rewrite E in *; eexists; (split; [apply update_run; [done|lia|done]|]);
    (split; [apply ram_ok_put, Hk|]); (apply merged_bytes; [done| |intros y Hy; by rewrite decide_False by lia]).
  all: place.
Qed.
Lemma storer_bytes e v s :
  kernel_memory s → 0 ≤ e < bus_ramsize s →
  ∃ m', dostore S_WORDR (0x80000000 + e) v s = Ok (tt, set_ram m' s) ∧ ram_ok m' ∧
    ∀ x, ram_byte m' x = if decide (e - e `mod` 4 ≤ x < e + 1) then byte (e - x) v else ram_byte (ram s) x.
Proof.
  intros Hk Hp. assert (bus_ramsize s ≤ 2 ^ 24) as Hs by apply (km_size _ Hk).
  destruct (split_address e _ ltac:(lia) eq_refl) as (A1 & A2 & A3 & A4 & A5). unfold dostore, storer_mask. rewrite A1, A2.
  destruct (mod4_cases e) as [E|[E|[E|E]]]; rewrite E in *; eexists; (split; [apply update_run; [done|lia|done]|]);
    (split; [apply ram_ok_put, Hk|]); (apply merged_bytes; [done|place|intros y Hy; by rewrite decide_False by lia]).
Qed.

Lemma store_byte p v s :
  kernel_memory s → 0 ≤ p < bus_ramsize s →
  ∃ m', dostore S_UBYTE (0x80000000 + p) v s = Ok (tt, set_ram m' s) ∧ ∀ x, ram_byte m' x = bytes_at p 1 v (ram s) x.
Proof.
  intros Hk Hp. assert (bus_ramsize s ≤ 2 ^ 24) as Hs by apply (km_size _ Hk). unfold bytes_at.
  destruct (split_address p _ ltac:(lia) eq_refl) as (A1 & A2 & A3 & A4 & A5). unfold dostore, storeb_mask. rewrite A1, A2.
  destruct (mod4_cases p) as [E|[E|[E|E]]]; rewrite E in *; eexists; (split; [apply update_run; [done|lia|done]|]); rewrite Z.shiftl_land;
    (apply merged_bytes; [done|place|intros y Hy; by rewrite decide_False by lia]).
Qed.

(** Halfwords are at even addresses. *)
Lemma half_address p : 0 ≤ p < 2 ^ 24 → p `mod` 2 = 0 →
  Z.land (0x80000000 + p) 0xfffffffd = Z.land (0x80000000 + p) 0xfffffffc ∧ Z.land (0x80000000 + p) 2 = p `mod` 4 ∧ (p `mod` 4 = 0 ∨ p `mod` 4 = 2).
Proof.
  intros Hp H2. assert ((0x80000000 + p) `mod` 2 = 0) as E.
  { change 0x80000000 with (1073741824 * 2). rewrite Z.add_comm, Z.mod_add by lia. done. }
  assert (Z.land (0x80000000 + p) 1 = 0) as E1 by (rewrite (Z.land_ones _ 1) by lia; exact E). split_and!.
  - change 0xfffffffd with (Z.lor 0xfffffffc 1). by rewrite Z.land_lor_distr_r, E1, Z.lor_0_r.
  - destruct (split_address p _ Hp eq_refl) as (_ & A2 & _). rewrite <- A2. change 3 with (Z.lor 2 1). by rewrite Z.land_lor_distr_r, E1, Z.lor_0_r.
  - pose proof (Z.mod_pos_bound p 4 ltac:(lia)). assert ((p `mod` 4) `mod` 2 = 0) as Hm by (rewrite Z.mod_mod_divide; [done|by exists 2]).
    destruct (mod4_cases p) as [->|[Ep|[->|Ep]]]; auto; by rewrite Ep in Hm.
Qed.

Lemma store_half p v s :
  kernel_memory s → 0 ≤ p < bus_ramsize s → p `mod` 2 = 0 →
  ∃ m', dostore S_UHALF (0x80000000 + p) v s = Ok (tt, set_ram m' s) ∧ ∀ x, ram_byte m' x = bytes_at p 2 v (ram s) x.
Proof.
  intros Hk Hp H2. assert (bus_ramsize s ≤ 2 ^ 24) as Hs by apply (km_size _ Hk). unfold bytes_at.
  destruct (half_address p ltac:(lia) H2) as (A0 & Ah & Hc).
  destruct (split_address p _ ltac:(lia) eq_refl) as (A1 & A2 & A3 & A4 & A5). unfold dostore, storeh_mask. rewrite A0, A1, Ah.
  destruct Hc as [E|E]; rewrite E in *; eexists; (split; [apply update_run; [done|lia|done]|]); rewrite Z.shiftl_land;
    (apply merged_bytes; [done|place|intros y Hy; by rewrite decide_False by lia]).
Qed.

Lemma load_half p old s :
  kernel_memory s → 0 ≤ p < bus_ramsize s → p `mod` 2 = 0 →
  let h := ram_byte (ram s) p * 256 + ram_byte (ram s) (p + 1) in
  doload S_UHALF (0x80000000 + p) old s = Ok (Some h, s) ∧ doload S_SHALF (0x80000000 + p) old s = Ok (Some (u32 (i16 h)), s).
Proof.
  intros Hk Hp H2 h. assert (bus_ramsize s ≤ 2 ^ 24) as Hs by apply (km_size _ Hk). destruct (half_address p ltac:(lia) H2) as (A0 & Ah & Hc).
  destruct (split_address p _ ltac:(lia) eq_refl) as (A1 & A2 & A3 & A4 & A5).
  assert (half_of (ram_word (ram s) (p - p `mod` 4)) (0x80000000 + p) = h) as Hh.
  { unfold half_of. rewrite Ah. pose proof (ram_is_byte s) as Hb. unfold is_byte in Hb. unfold h, ram_word, un_be. cbn [foldl]. destruct Hc as [E|E]; rewrite E.
    - rewrite Z.shiftr_land. change (Z.shiftr 0xffff0000 16) with (Z.ones 16). rewrite Z.land_ones, Z.shiftr_div_pow2 by lia. rewrite Z.sub_0_r.
      pose proof (Hb p Hk). pose proof (Hb (p + 1) Hk). pose proof (Hb (p + 2) Hk). pose proof (Hb (p + 3) Hk). change (2 ^ 16) with 65536.
      Z.to_euclidean_division_equations. lia.
    - change 0xffff with (Z.ones 16). rewrite Z.land_ones by lia. replace (p - 2 + 2) with p by lia. replace (p - 2 + 3) with (p + 1) by lia.
      pose proof (Hb (p - 2) Hk). pose proof (Hb (p - 2 + 1) Hk). pose proof (Hb p Hk). pose proof (Hb (p + 1) Hk). change (2 ^ 16) with 65536.
      Z.to_euclidean_division_equations. lia. }
  unfold doload. rewrite A0, A1. split; (erewrite bind_ok by (apply domem_load; [done|lia|done])); cbn [fmap option_fmap option_map]; by rewrite Hh.
Qed.

Definition store_unaligned (a v : Z) : M (machine D) unit :=
  let* _ := dostore S_WORDL a v in
  dostore S_WORDR (a + 3) v.

Lemma store_unaligned_run p v s :
  kernel_memory s → 0 ≤ p → p + 4 ≤ bus_ramsize s →
  ∃ m', store_unaligned (0x80000000 + p) v s = Ok (tt, set_ram m' s) ∧ ram_ok m' ∧ ∀ x, ram_byte m' x = bytes_at p 4 v (ram s) x.
Proof.
  intros Hk Hp Hp4. destruct (storel_bytes p v s Hk ltac:(lia)) as (m1 & E1 & R1 & B1). unfold store_unaligned. erewrite bind_ok by exact E1.
  assert (kernel_memory (set_ram m1 s)) as Hk1 by (destruct Hk; by constructor). rewrite <- (Z.add_assoc 0x80000000 p 3).
  destruct (storer_bytes (p + 3) v (set_ram m1 s) Hk1 ltac:(cbn; lia)) as (m2 & E2 & R2 & B2). exists m2. split; [exact E2|]. split; [done|].
  intros x. rewrite B2. cbn [ram set_ram]. rewrite B1. unfold bytes_at.
  destruct (mod4_cases p) as [E|[E|[E|E]]]; rewrite (mod4_shift p 3 _ E), E; cbn [Z.add Z.modulo Z.div_eucl];
    (match goal with |- context [?a `mod` 4] => let j := eval vm_compute in (a `mod` 4) in change (a `mod` 4) with j end);
    repeat case_decide; try lia; try done; f_equal; lia.
Qed.
End memory.
(** ** Theorems *)
Section theorems.
Context {D : Type} `{Bus D}.
Implicit Types s : machine D.

(** C13: The arithmetic and logic of the processor is that of the reference: every instruction of [alu_r] and [alu_i] sets its
    target to the value the reference gives, or takes the overflow exception exactly when the sum or the difference does not fit.  The words hi and
    lo hold the exact product; quotient and remainder are those of division towards zero. *)
Theorem alu_reference insn s :
  regs_ok (get_regs s) →
  let a := reg (NEEDRS insn) s in
  let b := reg (NEEDRT insn) s in
  (∀ x, alu_r (Z.land insn 0x3f) a b (NEEDSH insn) = Some x → dispatch 0 insn s = computed (NEEDRD insn) x s) ∧
  (∀ op x, alu_i op a (NEEDIMM insn) (NEEDSMM insn) = Some x → dispatch op insn s = computed (NEEDRT insn) x s) ∧
  (free s → ∃ s', mx_mult insn s = Ok (tt, s') ∧ hi (get_regs s') * 2 ^ 32 + u32 (lo (get_regs s')) = a * b) ∧
  (free s → b ≠ 0 → ¬ (a = - 2 ^ 31 ∧ b = -1) →
   ∃ s', mx_div insn s = Ok (tt, s') ∧ a = lo (get_regs s') * b + hi (get_regs s') ∧ Z.abs (hi (get_regs s')) < Z.abs b ∧ 0 ≤ hi (get_regs s') * a).
Proof.
  intros Hr a b. split_and!.
  - intros x. by apply special_reference.
  - intros op x. by apply immediate_reference.
  - by apply mult_exact.
  - by apply div_exact.
Qed.

(** Loads and stores of bytes, halfwords and, as a pair of partial accesses, of words at any address: a load gives the bytes of memory, most
    significant first, and a store changes these bytes and no others. *)
Theorem partial_accesses p v s :
  kernel_memory s → 0 ≤ p → p + 4 ≤ bus_ramsize s →
  let a := 0x80000000 + p in
  let b := ram_byte (ram s) in
  let stores (m : M (machine D) unit) (n : Z) := ∃ m', m s = Ok (tt, set_ram m' s) ∧ ∀ x, ram_byte m' x = bytes_at p n v (ram s) x in
  doload S_UBYTE a v s = Ok (Some (b p), s) ∧ doload S_SBYTE a v s = Ok (Some (u32 (i8 (b p))), s) ∧
  (p `mod` 2 = 0 → doload S_UHALF a v s = Ok (Some (b p * 256 + b (p + 1)), s) ∧
    doload S_SHALF a v s = Ok (Some (u32 (i16 (b p * 256 + b (p + 1)))), s)) ∧
  load_unaligned a v s = Ok (Some (ram_word (ram s) p), s) ∧
  stores (dostore S_UBYTE a v) 1 ∧ (p `mod` 2 = 0 → stores (dostore S_UHALF a v) 2) ∧ stores (store_unaligned a v) 4.
Proof.
  intros Hk Hp Hp4 a b stores. destruct (load_byte p v s Hk ltac:(lia)) as [L1 L2]. split_and!.
  - exact L1.
  - exact L2.
  - intros H2. by apply load_half; [|lia|].
  - by apply load_unaligned_run.
  - apply store_byte; [done|lia].
  - intros H2. apply store_half; [done|lia|done].
  - destruct (store_unaligned_run p v s Hk Hp Hp4) as (m' & E & _ & Hb). by exists m'.
Qed.

(** A word stored at any address is read back. *)
Theorem unaligned_roundtrip p v old s :
  kernel_memory s → word v → 0 ≤ p → p + 4 ≤ bus_ramsize s →
  ∃ s', store_unaligned (0x80000000 + p) v s = Ok (tt, s') ∧ load_unaligned (0x80000000 + p) old s' = Ok (Some v, s').
Proof.
  intros Hk Hv Hp Hp4. destruct (store_unaligned_run p v s Hk Hp Hp4) as (m' & E & Hm & Hb). exists (set_ram m' s). split; [exact E|].
  rewrite load_unaligned_run; [|destruct Hk; by constructor|done|done]. do 3 f_equal. cbn [ram set_ram]. unfold ram_word. rewrite !Hb. unfold bytes_at.
  rewrite !decide_True by lia. rewrite (word_bytes v Hv) at 5.
  assert (4 - 1 - (p - p) = 3 ∧ 4 - 1 - (p + 1 - p) = 2 ∧ 4 - 1 - (p + 2 - p) = 1 ∧ 4 - 1 - (p + 3 - p) = 0) as (-> & -> & -> & ->) by lia. done.
Qed.
End theorems.

(** ** Witnesses *)
Definition m0 : machine unit := set_regs (mkregs (<[9%nat := -7]> (<[10%nat := 2]> (replicate NREGS 0))) 0 0 0 0) (machine0 (put_word 0x1000 0xdeadbeef ∅)).

Lemma m0_regs : regs_ok (get_regs m0).
Proof. split_and!; try done. do 2 (apply list.Forall_insert; [|done]). apply list.Forall_forall. intros x Hx%elem_of_replicate_inv. subst x. done. Qed.

Lemma m0_memory : kernel_memory m0.
Proof.
  constructor; [done|split; [cbn; lia|done]|]. apply ram_ok_put. intros a b. cbn. rewrite lookup_empty. done.
Qed.

(** [sra $8, $9, 1]: -7 shifted is -4; [div $9, $10]: -7 is -3 times 2 and -1. *)
Lemma alu_reference_witness :
  dispatch 0 0x00094043 m0 = Ok (tt, put_reg 8 (-4) m0) ∧
  ∃ s', mx_div 0x012a001a m0 = Ok (tt, s') ∧ -7 = lo (get_regs s') * 2 + hi (get_regs s').
Proof.
  split.
  - exact (proj1 (alu_reference 0x00094043 m0 m0_regs) (Value (-4)) eq_refl).
  - destruct (proj2 (proj2 (proj2 (alu_reference 0x012a001a m0 m0_regs)))) as (s' & E & Eq & _).
    + split; reflexivity.
    + discriminate.
    + intros [E _]. discriminate.
    + exists s'. split; [exact E|exact Eq].
Defined.

Lemma partial_accesses_witness : doload S_UBYTE 0x80001001 5 m0 = Ok (Some 0xad, m0) ∧ load_unaligned 0x80001001 5 m0 = Ok (Some 0xadbeef00, m0).
Proof.
  destruct (partial_accesses 0x1001 5 m0 m0_memory ltac:(lia) ltac:(cbn; lia)) as (L1 & _ & _ & L2 & _). split.
  - assert (ram_byte (ram m0) 0x1001 = 0xad) as E by (vm_compute; reflexivity). rewrite E in L1. exact L1.
  - assert (ram_word (ram m0) 0x1001 = 0xadbeef00) as E by (vm_compute; reflexivity). rewrite E in L2. exact L2.
Defined.

Lemma unaligned_roundtrip_witness :
  ∃ s', store_unaligned 0x80001003 0x12345678 m0 = Ok (tt, s') ∧ load_unaligned 0x80001003 0 s' = Ok (Some 0x12345678, s').
Proof. apply (unaligned_roundtrip 0x1003 0x12345678 0 m0 m0_memory); [done|lia|cbn; lia]. Defined.
End Mipsspec.
