(* ===== verification/Syscall.v ===== *)
(** * System calls: operations
    (kern/userprog/file.c, kern/arch/mips/mips/syscall.c, sys_reboot and shutdown of kern/main/main.c)

    [sys W] is the kernel a system call sees: the thread system of Thread.v with the file tables of
    Filetable.v, the VFS of Vfs.v over file systems and devices with state [W], and the memory of each address
    space.  The VFS works for the running thread: [in_vfs] hands it that thread's current directory and
    memory and stores them back.  The calls that the thread system and the file tables make into other parts of the
    kernel (Scheduler.v records them) are carried out by [in_threads].  Descriptors and saved trap frames live on
    the kernel heap under numbers; [hnext] is the next unused one.

    A trap frame is the list of its 37 words, in the order of trapframe.h.  A [char *] from the program is
    a user address: [vfs_open] reads the string where it is, and its scan may put a terminator at the colon, which
    [user_path] and [path_scan] account for. *)
From stdpp Require Import base list gmap numbers.
From S2P Require Import Prelude Array Queue Copyinout Uio Cstring Filetable Scheduler Thread Vfs Vfssafe Fileio.
Local Open Scope Z_scope.

Module Syscall.
Import Copyinout Uio Filetable Fileio.

Section sys.
Context {W : Type} `{Vfs.Vnodes W, Files W}.

Record sys := mksys {
  kern : Scheduler.kstate;
  fsys : Vfs.vfs W;
  spaces : gmap nat (gmap Z Z);
  frames : gmap nat (list Z);
  starts : gmap nat nat;        (* the saved frame a new thread starts from *)
  hnext : nat
}.

Abbreviation Y := (M sys).

Definition set_kern (k : Scheduler.kstate) (s : sys) : sys :=
  mksys k (fsys s) (spaces s) (frames s) (starts s) (hnext s).
Definition set_fsys (v : Vfs.vfs W) (s : sys) : sys :=
  mksys (kern s) v (spaces s) (frames s) (starts s) (hnext s).
Definition set_spaces (m : gmap nat (gmap Z Z)) (s : sys) : sys :=
  mksys (kern s) (fsys s) m (frames s) (starts s) (hnext s).
Definition set_frames (f : gmap nat (list Z)) (st : gmap nat nat) (s : sys) : sys :=
  mksys (kern s) (fsys s) (spaces s) f st (hnext s).

Definition in_kern {A} (m : M Scheduler.kstate A) : Y A := zoom kern set_kern m.

(** [curthread] and the structure it points to. *)
Definition curproc : Y (nat * Scheduler.thread) :=
  in_kern (let* c := Scheduler.cur in
           let* x := Scheduler.gett c in
           mret (c, x)).

(** ** The running thread's memory and the VFS *)
Definition space_of (s : sys) (x : Scheduler.thread) : gmap Z Z :=
  match Scheduler.t_vmspace x with
  | Some a => default ∅ (spaces s !! a)
  | None => ∅
  end.

Definition view (x : Scheduler.thread) (s : sys) : Vfs.vfs W :=
  Vfs.set_cwd (Scheduler.t_cwd x)
    (Vfs.set_user (mkustate (mkcstate (space_of s x) false) (Scheduler.t_vmspace x)) (fsys s)).

Definition set_space_of (x : Scheduler.thread) (m : gmap Z Z) (s : sys) : sys :=
  match Scheduler.t_vmspace x with
  | Some a => set_spaces (<[a := m]> (spaces s)) s
  | None => s
  end.

Definition set_cwd_of (c : nat) (x : Scheduler.thread) (d : option nat) (k : Scheduler.kstate) : Scheduler.kstate :=
  Scheduler.with_threads (<[c := Thread.set_space (Scheduler.t_vmspace x) d x]> (Scheduler.threads k)) (Scheduler.tnext k) k.

Definition unview (c : nat) (x : Scheduler.thread) (v : Vfs.vfs W) (s : sys) : sys :=
  set_space_of x (umem (u_mem (Vfs.user v)))
    (set_fsys v (set_kern (set_cwd_of c x (Vfs.t_cwd v) (kern s)) s)).

Definition in_vfs {A} (m : M (Vfs.vfs W) A) : Y A :=
  let* '(c, x) := curproc in
  zoom (view x) (unview c x) m.

(** ** Calls out of the thread system

    User memory is the map from addresses to bytes that an address space stands for here, so a copy of one is the same map: that [as_copy] of dumbvm.c gives
    each address the same byte, in memory of its own, is [Dumbvmspec.copied_translate]. *)
Definition perform (c : Scheduler.kcall) : Y unit :=
  match c with
  | Scheduler.as_activate _ => mret tt
  | Scheduler.as_destroy a => modify (fun s => set_spaces (delete a (spaces s)) s)
  | Scheduler.as_copy old new => modify (fun s => set_spaces (<[new := default ∅ (spaces s !! old)]> (spaces s)) s)
  | Scheduler.VOP_INCREF v => zoom fsys set_fsys (Vfs.down (Vfs.VOP_INCREF v))
  | Scheduler.VOP_DECREF v => zoom fsys set_fsys (Vfs.down (Vfs.VOP_DECREF v))
  end.

Fixpoint perform_all (l : list Scheduler.kcall) : Y unit :=
  match l with
  | [] => mret tt
  | c :: l' =>
      let* _ := perform c in
      perform_all l'
  end.

Fixpoint close_all (l : list nat) : Y unit :=
  match l with
  | [] => mret tt
  | v :: l' =>
      let* _ := zoom fsys set_fsys (Vfs.vfs_close v) in
      close_all l'
  end.

(** Code of the thread system or the file tables, and the calls it makes. *)
Definition in_threads {A} (m : M Scheduler.kstate A) : Y A :=
  let* n := gets (fun s => length (Scheduler.calls (kern s))) in
  let* k := gets (fun s => length (closes (Scheduler.files (kern s)))) in
  let* a := in_kern m in
  let* cs := gets (fun s => drop n (Scheduler.calls (kern s))) in
  let* vs := gets (fun s => drop k (closes (Scheduler.files (kern s)))) in
  let* _ := perform_all cs in
  let* _ := close_all vs in
  mret a.

(** ** The current thread's file table *)

(** [curthread->ft], which every function of filetable.c asserts to be there. *)
Definition cur_table : Y filetable :=
  let* '(_, x) := curproc in
  match Scheduler.ft x with
  | Some f => mret f
  | None => panic
  end.

Definition set_ft (f : filetable) (x : Scheduler.thread) : Scheduler.thread :=
  Scheduler.mkthread (Scheduler.t_pcb x) (Scheduler.pcb_ininterrupt x) (Scheduler.t_name x) (Scheduler.t_sleepaddr x)
    (Scheduler.t_stack x) (Scheduler.t_vmspace x) (Scheduler.t_cwd x) (Some f) (Scheduler.priority x) (Scheduler.id x).

(** An operation that changes the table. *)
Definition on_table {A} (m : filetable → M fstate (A * filetable)) : Y A :=
  let* f := cur_table in
  in_threads (let* '(a, f') := Scheduler.kfiles (m f) in
              let* c := Scheduler.cur in
              let* _ := Scheduler.updt c (set_ft f') in
              mret a).

Definition table_get (i : Z) : Y (option nat) :=
  let* f := cur_table in
  lift (filetable_get f i).

(** [file_d->...] and assignments to it. *)
Definition get_desc (p : nat) : Y filedesc := fun s =>
  match descs (Scheduler.files (kern s)) !! p with
  | Some d => Ok (d, s)
  | None => Undef
  end.

Definition with_descs (f : gmap nat filedesc → gmap nat filedesc) (k : Scheduler.kstate) : Scheduler.kstate :=
  Scheduler.with_files (Scheduler.calls k)
    (mkfstate (f (descs (Scheduler.files k))) (closes (Scheduler.files k)) (fmem (Scheduler.files k))) k.

Definition put_desc (p : nat) (d : filedesc) : Y unit := in_kern (modify (with_descs (<[p := d]>))).

Definition kfree_desc (p : nat) : Y unit := in_kern (modify (with_descs (delete p))).

(** A number for a new object on the heap. *)
Definition new_addr : Y nat := fun s =>
  Ok (hnext s, mksys (kern s) (fsys s) (spaces s) (frames s) (starts s) (S (hnext s))).

(** [kmalloc]: [None] is NULL. *)
Definition kmalloc : Y (option nat) :=
  let* ok := in_kern Scheduler.kmalloc_ok in
  if (ok : bool) then let* p := new_addr in mret (Some p) else mret None.

(** ** The program's path name *)

(** The bytes from [a] on, up to the terminator or the end of the mapped memory. *)
Fixpoint user_string (fuel : nat) (m : gmap Z Z) (a : Z) : list Z :=
  match fuel with
  | O => []
  | S fuel' =>
      if USERTOP <=? a then []
      else match m !! a with
           | Some b => if b =? 0 then [0] else b :: user_string fuel' m (a + 1)
           | None => []
           end
  end.

(** Each byte of the string is a different key of the map. *)
Definition user_path (a : Z) : Y (list Z) :=
  let* '(_, x) := curproc in
  gets (fun s => let m := space_of s x in user_string (size m) m a).

(** What [getdevice] leaves in the caller's buffer: [path[colon]=0;]. *)
Definition path_scan (a : Z) (path : list Z) : Y unit :=
  let* '(_, x) := curproc in
  match Vfs.scan_path 0 path with
  | Ok (_, colon) =>
      if colon >? 0 then modify (fun s => set_space_of x (<[a + colon := 0]> (space_of s x)) s) else mret tt
  | _ => mret tt
  end.

(** [vfs_open] on a path in user memory; it looks at the path unless the flags are refused. *)
Definition open_user (a openflags : Z) : Y (Z + nat) :=
  let* path := user_path a in
  let* r := in_vfs (Vfs.vfs_open path openflags) in
  let* _ := (if Z.land openflags Vfs.O_ACCMODE =? 3 then mret tt else path_scan a path) in
  mret r.

(** ** File calls (file.c)

    Each hands back its result and [*ret]. *)
Definition O_RDONLY : Z := 0.
Definition O_WRONLY : Z := 1.
Definition O_RDWR : Z := 2.

Definition sys_open (path oflag mode : Z) : Y (Z * Z) :=
  let* fd := kmalloc in
  let* r := open_user path oflag in
  match r with
  | inl e => mret (e, e)
  | inr v =>
      match fd with
      | None => lift Undef
      | Some fd =>
          let* _ := put_desc fd (mkdesc v 0 mode) in
          let* i := on_table (fun ft => filetable_add ft (Some fd)) in
          if i =? -1 then
            let* _ := kfree_desc fd in
            mret (i, i)
          else mret (0, i)
      end
  end.

(** The switch on [file_d->mode & O_ACCMODE]. *)
Definition may_read (mode : Z) : bool :=
  let how := Z.land mode Vfs.O_ACCMODE in (how =? O_RDONLY) || (how =? O_RDWR).
Definition may_write (mode : Z) : bool :=
  let how := Z.land mode Vfs.O_ACCMODE in (how =? O_WRONLY) || (how =? O_RDWR).

(** [splhigh(); *ret = VOP_...(file_d->vn, &u); splx(spl); ...] *)
Definition transfer (op : nat → uio → M (W * ustate) (Z * uio)) (v : nat) (u : uio) (nbytes : Z) : Y (Z * Z) :=
  let* spl := in_kern Scheduler.splhigh in
  let* '(r, u) := in_vfs (Vfs.down_io (op v u)) in
  let* _ := in_kern (Scheduler.splx spl) in
  if negb (r =? 0) then mret (r, r)
  else mret (0, i32 (nbytes - uio_resid u)).

Definition sys_read (fd buf nbytes ret : Z) : Y (Z * Z) :=
  if buf =? 0 then mret (EFAULT, ret)
  else
    let* file_d := table_get fd in
    match file_d with
    | None => mret (EBADF, ret)
    | Some p =>
        let* d := get_desc p in
        if negb (may_read (mode d)) then mret (EBADF, ret)
        else
          let* '(_, x) := curproc in
          transfer VOP_READ (vn d) (user_uio buf nbytes (offset d) (Scheduler.t_vmspace x)) nbytes
    end.

Definition sys_write (fd buf nbytes ret : Z) : Y (Z * Z) :=
  if buf =? 0 then mret (EFAULT, ret)
  else
    let* file_d := table_get fd in
    match file_d with
    | None => mret (EBADF, ret)
    | Some p =>
        let* d := get_desc p in
        if negb (may_write (mode d)) then mret (EBADF, ret)
        else transfer VOP_WRITE (vn d) (sys_uio buf nbytes (offset d)) nbytes
    end.

(** [filetable_remove(curthread->ft, fd == -1)]: the index is the comparison. *)
Definition sys_close (fd : Z) : Y Z :=
  let* r := on_table (fun ft => filetable_remove ft (if fd =? -1 then 1 else 0)) in
  mret (if negb (r =? 0) then EBADF else 0).

(** [file_d_new] is never set before it is written through. *)
Definition sys_dup2 (oldfd newfd : Z) : Y Z :=
  let* file_d_old := table_get oldfd in
  if bool_decide (file_d_old = None) || (newfd <? 0) then mret EBADF
  else
    let* file_d_check := table_get newfd in
    let* _ := (match file_d_check with
               | Some _ => let* _ := sys_close newfd in mret tt
               | None => mret tt
               end) in
    lift Undef.

Definition SEEK_SET : Z := 0.
Definition SEEK_CUR : Z := 1.
Definition SEEK_END : Z := 2.

(** The switch on [whence]: [inl] the error or the new position. *)
Definition seek_pos (d : filedesc) (pos whence : Z) : Y (Z + Z) :=
  if whence =? SEEK_SET then mret (inr pos)
  else if whence =? SEEK_CUR then mret (inr (i32 (pos + offset d)))
  else if whence =? SEEK_END then
    let* dev := gets (fun s => vn_device (Vfs.world (fsys s)) (vn d)) in
    let* '(blocks, blocksize) := lift (of_option dev) in
    mret (inr (i32 (pos + (blocksize + blocks))))
  else mret (inl EINVAL).

Definition sys_lseek (fd pos whence : Z) : Y Z :=
  let* file_d := table_get fd in
  match file_d with
  | None => mret EBADF
  | Some p =>
      let* d := get_desc p in
      let* r := seek_pos d pos whence in
      match r with
      | inl e => mret e
      | inr pos =>
          let* e := in_vfs (Vfs.down (VOP_TRYSEEK (vn d) pos)) in
          if negb (e =? 0) then mret e
          else
            let* _ := put_desc p (mkdesc (vn d) (u32 pos) (mode d)) in
            mret pos
      end
  end.

(** ** Trap frames (trapframe.h): the words by number *)
Definition tf_vaddr : nat := 0.
Definition tf_status : nat := 1.
Definition tf_cause : nat := 2.
Definition tf_v0 : nat := 7.
Definition tf_a0 : nat := 9.
Definition tf_a1 : nat := 10.
Definition tf_a2 : nat := 11.
Definition tf_a3 : nat := 12.
Definition tf_sp : nat := 34.
Definition tf_epc : nat := 36.

Definition reg (tf : list Z) (i : nat) : Z := nth i tf 0.

(** ** Entering user mode (trap.c) *)

(** [splhigh(); curspl = 0;] and the jump: interrupts come on when the status register is
    restored. *)
Definition mips_usermode (tf : list Z) : Y (list Z) :=
  let* _ := in_kern Scheduler.splhigh in
  let* _ := in_kern (modify (fun k => Scheduler.with_spl 0 (Scheduler.interrupts k) (Scheduler.in_interrupt k) k)) in
  mret tf.

Definition CST_IRQMASK : Z := 65280.
Definition CST_IEp : Z := 4.
Definition CST_KUp : Z := 8.

Definition md_usermode (argc argv stack entry : Z) : Y (list Z) :=
  mips_usermode (<[tf_sp := stack]> (<[tf_a1 := argv]> (<[tf_a0 := argc]> (<[tf_epc := entry]>
    (<[tf_status := Z.lor (Z.lor CST_IRQMASK CST_IEp) CST_KUp]> (replicate 37 0)))))).

(** ** Process calls (syscall.c) *)
Definition sys_getpid : Y Z :=
  let* '(_, x) := curproc in
  lift (of_option (Scheduler.id x)).

(** The child's thread structure is used although [thread_fork] may have failed. *)
Definition sys_fork (tf : list Z) : Y Z :=
  let* tf_copy := kmalloc in
  match tf_copy with
  | None => mret ENOMEM
  | Some p =>
      let* s := in_kern Scheduler.splhigh in
      let* _ := modify (fun y => set_frames (<[p := tf]> (frames y)) (starts y) y) in
      let* _ := in_kern (Scheduler.splx s) in
      let* '(_, x) := curproc in
      let* r := in_threads (Thread.thread_fork (Scheduler.t_name x)) in
      match r with
      | inl _ => lift Undef
      | inr child =>
          let* _ := modify (fun y => set_frames (frames y) (<[child := p]> (starts y)) y) in
          let* y := in_kern (Scheduler.gett child) in
          lift (of_option (Scheduler.id y))
      end
  end.

(** What the child starts with; [data1] is the saved frame. *)
Definition md_forkentry (data1 : nat) : Y (list Z) :=
  let* s := in_kern Scheduler.splhigh in
  let* f := gets frames in
  let* tf := lift (of_option (f !! data1)) in
  let* _ := modify (fun y => set_frames (delete data1 (frames y)) (starts y) y) in
  let tf := <[tf_v0 := 0]> tf in
  let tf := <[tf_epc := u32 (reg tf tf_epc + 4)]> tf in
  let tf := <[tf_a3 := 0]> tf in
  let* _ := in_kern (Scheduler.splx s) in
  mips_usermode tf.

(** A new thread runs: [md_forkentry] with the data [thread_fork] was given. *)
Definition run_child : Y (list Z) :=
  let* '(c, _) := curproc in
  let* st := gets starts in
  let* p := lift (of_option (st !! c)) in
  md_forkentry p.

(** ** Shutting down (main.c) *)
Definition shutdown : Y unit :=
  let* _ := in_vfs Vfs.vfs_clearbootfs in
  let* _ := in_vfs Vfs.vfs_clearcurdir in
  let* _ := in_vfs Vfs.vfs_unmountall in
  let* _ := in_kern Scheduler.splhigh in
  let* _ := in_kern Scheduler.scheduler_shutdown in
  in_kern Thread.thread_shutdown.

Definition RB_REBOOT : Z := 0.
Definition RB_HALT : Z := 1.
Definition RB_POWEROFF : Z := 2.

(** [None]: [md_halt], [md_reboot] or [md_poweroff] has stopped the machine. *)
Definition sys_reboot (code : Z) : Y (option Z) :=
  if negb ((code =? RB_REBOOT) || (code =? RB_HALT) || (code =? RB_POWEROFF)) then mret (Some EINVAL)
  else
    let* _ := shutdown in
    mret None.

(** ** The dispatcher (syscall.c) *)
Definition SYS__exit : Z := 0.
Definition SYS_fork : Z := 2.
Definition SYS_open : Z := 4.
Definition SYS_read : Z := 5.
Definition SYS_write : Z := 6.
Definition SYS_close : Z := 7.
Definition SYS_reboot : Z := 8.
Definition SYS_getpid : Z := 11.
Definition SYS_lseek : Z := 13.
Definition SYS_dup2 : Z := 26.

(** How a call ends: back to the program, with another thread running, or with the machine off. *)
Inductive ended := Returns (tf : list Z) | Switched | Halted.

(** The end of [mips_syscall]. *)
Definition set_result (err retval : Z) (tf : list Z) : list Z :=
  let tf := if negb (err =? 0) then <[tf_a3 := 1]> (<[tf_v0 := u32 err]> tf)
            else <[tf_a3 := 0]> (<[tf_v0 := u32 retval]> tf) in
  <[tf_epc := u32 (reg tf tf_epc + 4)]> tf.

Definition assert_spl0 : Y unit := fun s => if Scheduler.curspl (kern s) =? 0 then Ok (tt, s) else Panic.

Definition syscall_return (tf : list Z) (err retval : Z) : Y ended :=
  let* _ := assert_spl0 in
  mret (Returns (set_result err retval tf)).

Definition sys__exit (exitcode : Z) : Y ended :=
  let* _ := in_threads Thread.thread_exit in
  mret Switched.

(** [SYS_getpid] leaves [err] uninitialised. *)
Definition mips_syscall (tf : list Z) : Y ended :=
  let* _ := assert_spl0 in
  let callno := i32 (reg tf tf_v0) in
  let a0 := reg tf tf_a0 in
  let a1 := reg tf tf_a1 in
  let a2 := reg tf tf_a2 in
  if callno =? SYS_reboot then
    let* r := sys_reboot (i32 a0) in
    match r with Some err => syscall_return tf err 0 | None => mret Halted end
  else if callno =? SYS_fork then
    let* retval := sys_fork tf in syscall_return tf 0 retval
  else if callno =? SYS__exit then sys__exit (i32 a0)
  else if callno =? SYS_getpid then
    let* _ := sys_getpid in lift Undef
  else if callno =? SYS_open then
    let* '(err, retval) := sys_open a0 (i32 a1) a2 in syscall_return tf err retval
  else if callno =? SYS_read then
    let* '(err, retval) := sys_read (i32 a0) a1 a2 0 in syscall_return tf err retval
  else if callno =? SYS_write then
    let* '(err, retval) := sys_write (i32 a0) a1 a2 0 in syscall_return tf err retval
  else if callno =? SYS_close then
    let* err := sys_close (i32 a0) in syscall_return tf err 0
  else if callno =? SYS_dup2 then
    let* err := sys_dup2 (i32 a0) (i32 a1) in syscall_return tf err 0
  else if callno =? SYS_lseek then
    let* err := sys_lseek (i32 a0) (i32 a1) (i32 a2) in syscall_return tf err 0
  else syscall_return tf ENOSYS 0.

End sys.
Arguments sys W : clear implicits.

End Syscall.
