(* ===== verification/Syscallsafe.v ===== *)
(** * System calls: the invariant of a process

    [proc s a c x f l]: the thread system is in order with [c] running, [x] is its structure and [f] its file table,
    which holds the descriptors [l]; each of them has an open file, and an open of the vnode that is its own; the VFS
    is in order as the thread sees it.  The lemmas give the effect of each file call on it, for any file system and device that keeps
    the promises [VnodeLaws] and [FileLaws]. *)
From stdpp Require Import base list gmap numbers.
From S2P Require Import Prelude Array Queue Copyinout Uio Cstring Filetable Scheduler Thread Threadsafe Threadswitch Vfs Vfssafe Fileio Vfspaths Vfsops Vfsmount Syscall.
Local Open Scope Z_scope.

Module Syscallsafe.
Import Copyinout Uio Filetable Fileio Syscall.

(** The number of descriptors in [l] that have [v] open. *)
Definition uses (ds : gmap nat filedesc) (l : list nat) (v : nat) : Z :=
  Z.of_nat (length (filter (fun p => vn <$> ds !! p = Some v) l)).

Section safe.
Context {W : Type} `{Vfssafe.VnodeLaws W, !Files W, !FileLaws W}.
Implicit Types (s : sys W) (x : Scheduler.thread).

Abbreviation world_of s := (Vfs.world (fsys s)).
Abbreviation descs_of s := (descs (Scheduler.files (kern s))).

Record proc s (a : Threadsafe.astate) (c : nat) x (f : filetable) (l : list nat) : Prop := {
  pr_run : Threadswitch.running (kern s) a c;
  pr_cur : Scheduler.threads (kern s) !! c = Some x;
  pr_ft : Scheduler.ft x = Some f;
  pr_rep : ft_rep f l;
  pr_nodup : NoDup l;
  pr_vfs : Vfsops.good (view x s);
  pr_desc : ∀ p, p ∈ l → is_Some (descs_of s !! p);
  pr_opens : ∀ u, uses (descs_of s) l u ≤ Vfssafe.opens (world_of s) u;
  pr_heap : ∀ p, is_Some (descs_of s !! p) → (p < hnext s)%nat
}.

(** ** The running thread *)
Lemma curproc_at s c x :
  Scheduler.curthread (kern s) = Some c → Scheduler.threads (kern s) !! c = Some x → curproc s = Ok ((c, x), s).
Proof.
  intros Hc Hx. unfold curproc, in_kern, zoom, mbind, M_bind, Scheduler.cur, Scheduler.gett. rewrite Hc, Hx. by destruct s.
Qed.

Lemma cur_table_at s c x f :
  Scheduler.curthread (kern s) = Some c → Scheduler.threads (kern s) !! c = Some x → Scheduler.ft x = Some f →
  cur_table s = Ok (f, s).
Proof. intros Hc Hx Hf. unfold cur_table. by rewrite (bind_ok _ _ _ _ _ (curproc_at _ _ _ Hc Hx)), Hf. Qed.

Lemma curproc_run s a c x f l : proc s a c x f l → curproc s = Ok ((c, x), s).
Proof. intros P. apply curproc_at; [apply P|apply (pr_cur _ _ _ _ _ _ P)]. Qed.

Lemma cur_table_run s a c x f l : proc s a c x f l → cur_table s = Ok (f, s).
Proof. intros P. eapply cur_table_at; [apply P|apply (pr_cur _ _ _ _ _ _ P)|apply P]. Qed.

Lemma table_get_run s a c x f l i :
  proc s a c x f l → 0 ≤ i → table_get i s = Ok (l !! Z.to_nat i, s).
Proof.
  intros P Hi. unfold table_get. rewrite (bind_ok _ _ _ _ _ (cur_table_run _ _ _ _ _ _ P)).
  unfold lift. rewrite <- (Z2Nat.id i Hi) at 1. by rewrite (ft_get _ _ _ (pr_rep _ _ _ _ _ _ P)).
Qed.

(** ** Through the VFS and back *)
Lemma good_self (v : Vfs.vfs W) u d : Vfsops.good v → d = Vfs.t_cwd v → Vfsops.good (Vfs.set_cwd d (Vfs.set_user u v)).
Proof.
  intros G ->. eapply Vfsmount.good_step; [exact G|]. destruct (Vfssafe.stp_refl v _ G). by constructor.
Qed.

Lemma view_world x s : Vfs.world (view x s) = world_of s.
Proof. done. Qed.

Lemma unview_kern c x v s :
  Scheduler.threads (kern s) !! c = Some x → Vfs.t_cwd v = Scheduler.t_cwd x → kern (unview c x v s) = kern s.
Proof.
  intros Hx Hc. unfold unview, set_space_of. assert (set_cwd_of c x (Vfs.t_cwd v) (kern s) = kern s) as E.
  { unfold set_cwd_of. rewrite Hc. replace (Thread.set_space _ _ x) with x by (by destruct x). rewrite insert_id by done.
    by destruct (kern s). }
  rewrite E. by destruct (Scheduler.t_vmspace x).
Qed.

Lemma unview_fsys c x v s : fsys (unview c x v s) = v.
Proof. unfold unview, set_space_of. by destruct (Scheduler.t_vmspace x). Qed.

Lemma unview_hnext c x v s : hnext (unview c x v s) = hnext s.
Proof. unfold unview, set_space_of. by destruct (Scheduler.t_vmspace x). Qed.

Lemma in_vfs_run {A} (m : M (Vfs.vfs W) A) (Q : A → sys W → Prop) s a c x f l :
  proc s a c x f l → wp m (fun r v => Q r (unview c x v s)) (view x s) → wp (in_vfs m) Q s.
Proof.
  intros P Hm. unfold in_vfs. rewrite wp_bind. unfold wp at 1. rewrite (curproc_run _ _ _ _ _ _ P).
  unfold wp, zoom in *. by destruct (m (view x s)) as [[]| | |].
Qed.

(** A call of the VFS that leaves the opens of the descriptors alone keeps the invariant. *)
Lemma proc_vfs s a c x f l v dr dn :
  proc s a c x f l → Vfssafe.stp (view x s) v dr dn → (∀ u, 0 ≤ dn u ≤ dr u) → proc (unview c x v s) a c x f l.
Proof.
  intros P S Hd. destruct P as [P1 P2 P3 P4 P5 P6 P7 P8 P9].
  assert (kern (unview c x v s) = kern s) as Ek by (apply unview_kern; [done|exact (Vfssafe.st_cwd _ _ _ _ S)]).
  constructor; rewrite ?Ek, ?unview_fsys, ?unview_hnext; try done.
  - unfold view. rewrite unview_fsys. apply good_self; [|symmetry; exact (Vfssafe.st_cwd _ _ _ _ S)].
    eapply Vfssafe.ok_ext; [exact (Vfssafe.ok_step _ _ _ _ _ P6 S)|]. intros u. unfold Vfssafe.none. specialize (Hd u). lia.
  - intros u. rewrite (Vfssafe.ws_opens _ _ _ _ (Vfssafe.st_world _ _ _ _ S)). specialize (P8 u). specialize (Hd u).
    cbn [view Vfs.world Vfs.set_cwd Vfs.set_user]. lia.
Qed.

(** An open file has a reference. *)
Lemma uses_in (ds : gmap nat filedesc) l p d : p ∈ l → ds !! p = Some d → 0 < uses ds l (vn d).
Proof.
  intros Hp Hd. unfold uses. assert (p ∈ filter (fun q => vn <$> ds !! q = Some (vn d)) l) as Hf.
  { apply list_elem_of_filter. by rewrite Hd. }
  destruct (filter _ l); [by apply not_elem_of_nil in Hf|cbn; lia].
Qed.

Lemma desc_open s a c x f l p :
  proc s a c x f l → p ∈ l → ∃ d, descs_of s !! p = Some d ∧ 0 < Vfssafe.opens (world_of s) (vn d) ∧ 0 < Vfssafe.refs (world_of s) (vn d).
Proof.
  intros P Hp. destruct (pr_desc _ _ _ _ _ _ P p Hp) as [d Hd]. exists d. split; [done|].
  pose proof (pr_opens _ _ _ _ _ _ P (vn d)) as Ho. pose proof (uses_in _ _ _ _ Hp Hd) as Hu.
  pose proof (Vfssafe.ok_refs _ _ (pr_vfs _ _ _ _ _ _ P) (vn d)) as Hr. unfold Vfssafe.none, Vfssafe.held in Hr.
  pose proof (Vfssafe.oone_range (Vfs.t_cwd (view x s)) (vn d)). pose proof (Vfssafe.oone_range (Vfs.bootfs_vnode (view x s)) (vn d)).
  cbn [view Vfs.world Vfs.set_cwd Vfs.set_user] in Hr. lia.
Qed.

(** ** Interrupt level *)
Lemma proc_spl s a c x f l n b :
  proc s a c x f l →
  proc (set_kern (Scheduler.with_spl n b (Scheduler.in_interrupt (kern s)) (kern s)) s) a c x f l.
Proof. intros [P1 P2 P3 P4 P5 P6 P7 P8 P9]. constructor; try done. by apply Threadswitch.running_spl. Qed.

Lemma splx_run s n :
  in_kern (Scheduler.splx n) s =
    Ok (Scheduler.curspl (kern s),
        set_kern (Scheduler.with_spl n (if n >? 0 then false else if n =? 0 then true else Scheduler.interrupts (kern s))
          (Scheduler.in_interrupt (kern s)) (kern s)) s).
Proof. done. Qed.

(** ** Transfers *)
Lemma transfer_run (op : nat → uio → M (W * ustate) (Z * uio)) s a c x f l v u n :
  proc s a c x f l →
  wp (op v u) (fun r y => Vfssafe.wstep (world_of s) y.1 Vfssafe.none Vfssafe.none ∧
                          0 ≤ uio_resid r.2 ≤ n) (world_of s, Vfs.user (view x s)) →
  wp (transfer op v u n) (fun r s' => proc s' a c x f l ∧ Scheduler.curspl (kern s') = Scheduler.curspl (kern s) ∧
                                      descs_of s' = descs_of s) s.
Proof.
  intros P Hop. unfold transfer. rewrite wp_bind. unfold wp at 1. unfold Scheduler.splhigh. rewrite splx_run. set (s1 := set_kern _ s).
  assert (proc s1 a c x f l) as P1 by (by apply proc_spl).
  rewrite wp_bind. eapply (in_vfs_run _ _ s1 a c x f l P1). unfold Vfs.down_io, wp, zoom in *.
  change (Vfs.world (view x s1), Vfs.user (view x s1)) with (world_of s, Vfs.user (view x s)).
  destruct (op v u _) as [[[r u'] [w' us']]| | |]; try done. cbn [fst snd] in *. destruct Hop as [B Hr]. cbv iota.
  set (v1 := Vfs.set_user us' _). assert (Vfssafe.stp (view x s1) v1 Vfssafe.none Vfssafe.none) as S by (by constructor).
  pose proof (proc_vfs _ _ _ _ _ _ _ _ _ P1 S ltac:(intros; unfold Vfssafe.none; lia)) as P2.
  assert (kern (unview c x v1 s1) = kern s1) as Ek by (apply unview_kern; [apply P1|done]).
  set (s2 := unview c x v1 s1) in *. pose proof (proc_spl _ _ _ _ _ _ (Scheduler.curspl (kern s))
    (if Scheduler.curspl (kern s) >? 0 then false else if Scheduler.curspl (kern s) =? 0 then true else Scheduler.interrupts (kern s2)) P2) as P3.
  unfold mbind, M_bind. rewrite splx_run. case_if; unfold mret, M_ret; cbn; split_and!; try done; by rewrite Ek.
Qed.

Lemma user_view x s : Vfs.user (view x s) = mkustate (mkcstate (space_of s x) false) (Scheduler.t_vmspace x).
Proof. done. Qed.

(** The position of a descriptor leaves room for [n] bytes. *)
Definition in_range s (l : list nat) (fd n : Z) : Prop :=
  0 ≤ n ∧ ∀ p d, l !! Z.to_nat fd = Some p → descs_of s !! p = Some d → 0 ≤ offset d ∧ offset d + n < 2 ^ 31.

(** What a call that only moves data leaves behind. *)
Definition kept s (a : Threadsafe.astate) (c : nat) x (f : filetable) (l : list nat) s' : Prop :=
  proc s' a c x f l ∧ Scheduler.curspl (kern s') = Scheduler.curspl (kern s) ∧ descs_of s' = descs_of s.

Lemma kept_same s a c x f l : proc s a c x f l → kept s a c x f l s.
Proof. done. Qed.

Lemma get_desc_run s p d : descs_of s !! p = Some d → get_desc p s = Ok (d, s).
Proof. intros Hd. unfold get_desc. by rewrite Hd. Qed.

(** The descriptor a call is about: none, or one that is open. *)
Lemma lookup_desc s a c x f l fd (Q : Z * Z → sys W → Prop) (k : nat → M (sys W) (Z * Z)) e :
  proc s a c x f l → 0 ≤ fd → Q e s →
  (∀ p d, l !! Z.to_nat fd = Some p → descs_of s !! p = Some d → 0 < Vfssafe.refs (world_of s) (vn d) → wp (k p) Q s) →
  wp (let* o := table_get fd in match o with None => mret e | Some p => k p end) Q s.
Proof.
  intros P Hfd He Hk. rewrite wp_bind. unfold wp at 1. rewrite (table_get_run _ _ _ _ _ _ _ P Hfd).
  destruct (l !! Z.to_nat fd) as [p|] eqn:Hp; [|done].
  destruct (desc_open _ _ _ _ _ _ p P) as (d & Hd & _ & Hr); [by eapply list_elem_of_lookup_2|]. by eapply Hk.
Qed.

(** The descriptor's file can be read with interrupts off. *)
Definition readable s (l : list nat) (fd : Z) : Prop :=
  ∀ p d, l !! Z.to_nat fd = Some p → descs (Scheduler.files (kern s)) !! p = Some d → reads_at_splhigh (Vfs.world (fsys s)) (vn d).

(** [sys_read], given that the file's own read ends. *)
Lemma read_run_with s a c x f l fd buf n ret :
  proc s a c x f l → 0 ≤ fd → 0 ≤ buf < 2 ^ 32 → in_range s l fd n →
  (∀ p d u, l !! Z.to_nat fd = Some p → descs (Scheduler.files (kern s)) !! p = Some d → 0 < Vfssafe.refs (Vfs.world (fsys s)) (vn d) →
    u = user_uio buf n (offset d) (Scheduler.t_vmspace x) → io_ready u (Vfs.user (view x s)) →
    wp (VOP_READ (vn d) u)
      (fun r y => Vfssafe.wstep (Vfs.world (fsys s)) y.1 Vfssafe.none Vfssafe.none ∧ 0 ≤ uio_resid r.2 ≤ n)
      (Vfs.world (fsys s), Vfs.user (view x s))) →
  wp (sys_read fd buf n ret) (fun _ s' => kept s a c x f l s') s.
Proof.
  intros P Hfd Hb [Hn Hr] Hio. unfold sys_read. case_if; [by rewrite wp_ret|].
  eapply lookup_desc; [done..|]. intros p d Hp Hd Href. rewrite wp_bind. unfold wp at 1. rewrite (get_desc_run _ _ _ Hd).
  case_if; [by rewrite wp_ret|]. rewrite wp_bind. unfold wp at 1. rewrite (curproc_run _ _ _ _ _ _ P).
  apply transfer_run; [done|]. destruct (Hr p d Hp Hd) as [Ho Hm].
  apply (Hio p d); [done..|]. constructor; cbn; rewrite ?i32_small by lia; try done; try lia. by exists buf.
Qed.

Lemma read_run s a c x f l fd buf n ret :
  proc s a c x f l → 0 ≤ fd → 0 ≤ buf < 2 ^ 32 → in_range s l fd n → readable s l fd →
  wp (sys_read fd buf n ret) (fun _ s' => kept s a c x f l s') s.
Proof.
  intros P Hfd Hb Hr Hq. eapply read_run_with; [done..|]. intros p d u Hp Hd Href -> R.
  eapply wp_mono; [apply law_read; [apply (pr_vfs _ _ _ _ _ _ P)|done|by eapply Hq|done|done]|].
  by intros [r u'] [w' us'] [B [_ _ _ Hd']].
Qed.

Lemma write_run s a c x f l fd buf n ret :
  proc s a c x f l → 0 ≤ fd → 0 ≤ buf → in_range s l fd n →
  buf + n ≤ USERTOP → is_Some (user_bytes (space_of s x) buf (Z.to_nat n)) →
  wp (sys_write fd buf n ret) (fun _ s' => kept s a c x f l s') s.
Proof.
  intros P Hfd Hb [Hn Hr] Ht Hu. unfold sys_write. case_if; [by rewrite wp_ret|].
  eapply lookup_desc; [done..|]. intros p d Hp Hd Href. rewrite wp_bind. unfold wp at 1. rewrite (get_desc_run _ _ _ Hd).
  case_if; [by rewrite wp_ret|]. apply transfer_run; [done|]. destruct (Hr p d Hp Hd) as [Ho Hm].
  eapply wp_mono; [apply law_write; [apply (pr_vfs _ _ _ _ _ _ P)|done|done|]|].
  - constructor; cbn; rewrite ?i32_small by lia; try done; try lia. exists buf. unfold USERTOP in *. split_and!; (done || lia).
  - intros [r u'] [w' us'] [B [_ _ _ Hd']]. done.
Qed.

(** ** Seeking *)

(** A new position for a descriptor. *)
Lemma uses_insert (ds : gmap nat filedesc) l p d d' u :
  ds !! p = Some d → vn d' = vn d → uses (<[p := d']> ds) l u = uses ds l u.
Proof.
  intros Hd Hv. unfold uses. do 2 f_equal. apply list_filter_iff. intros q.
  destruct (decide (q = p)) as [->|Hne]; [rewrite lookup_insert_eq, Hd; cbn; by rewrite Hv|by rewrite lookup_insert_ne].
Qed.

Lemma running_descs k a c g : Threadswitch.running k a c → Threadswitch.running (with_descs g k) a c.
Proof. intros [[[] ? [] ?] ? ?]. constructor; [by constructor|done|done]. Qed.

Lemma proc_offset s a c x f l p d d' :
  proc s a c x f l → descs_of s !! p = Some d → vn d' = vn d →
  proc (set_kern (with_descs (<[p := d']>) (kern s)) s) a c x f l.
Proof.
  intros [P1 P2 P3 P4 P5 P6 P7 P8 P9] Hd Hv. constructor; cbn; try done.
  - by apply running_descs.
  - intros q Hq. destruct (decide (q = p)) as [->|]; [by rewrite lookup_insert_eq|rewrite lookup_insert_ne by done; auto].
  - intros u. by rewrite (uses_insert _ _ _ d).
  - intros q [e He]. destruct (decide (q = p)) as [->|]; [eauto|rewrite lookup_insert_ne in He by done; eauto].
Qed.

(** Only a device has the words [SEEK_END] looks at. *)
Definition seek_ok s (l : list nat) (fd whence : Z) : Prop :=
  whence = SEEK_END → ∀ p d, l !! Z.to_nat fd = Some p → descs_of s !! p = Some d → is_Some (vn_device (world_of s) (vn d)).

Lemma seek_pos_run s d pos whence :
  (whence = SEEK_END → is_Some (vn_device (world_of s) (vn d))) → ∃ r, seek_pos d pos whence s = Ok (r, s).
Proof.
  intros Hd. unfold seek_pos. destruct (whence =? SEEK_SET); [by eexists|]. destruct (whence =? SEEK_CUR); [by eexists|].
  destruct (Z.eqb_spec whence SEEK_END) as [->|]; [|by eexists]. destruct (Hd eq_refl) as [[b z] E].
  erewrite bind_ok; [|reflexivity]. rewrite E. by eexists.
Qed.

Lemma lseek_run s a c x f l fd pos whence :
  proc s a c x f l → 0 ≤ fd → seek_ok s l fd whence →
  wp (sys_lseek fd pos whence) (fun _ s' => proc s' a c x f l ∧ Scheduler.curspl (kern s') = Scheduler.curspl (kern s)) s.
Proof.
  intros P Hfd Hs. unfold sys_lseek. rewrite wp_bind. unfold wp at 1. rewrite (table_get_run _ _ _ _ _ _ _ P Hfd).
  destruct (l !! Z.to_nat fd) as [p|] eqn:Hp; [|by rewrite wp_ret].
  destruct (desc_open _ _ _ _ _ _ p P) as (d & Hd & _ & Hr); [by eapply list_elem_of_lookup_2|].
  rewrite wp_bind. unfold wp at 1. rewrite (get_desc_run _ _ _ Hd). rewrite wp_bind. unfold wp at 1.
  destruct (seek_pos_run s d pos whence) as [[e|pos'] ->]; [eauto|by rewrite wp_ret|].
  rewrite wp_bind. eapply (in_vfs_run _ _ s a c x f l P). apply Vfssafe.wp_down.
  eapply wp_mono; [apply law_tryseek; [apply (pr_vfs _ _ _ _ _ _ P)|done]|]. intros e w B.
  set (v1 := Vfs.set_world w _). assert (Vfssafe.stp (view x s) v1 Vfssafe.none Vfssafe.none) as S by (by constructor).
  pose proof (proc_vfs _ _ _ _ _ _ _ _ _ P S ltac:(intros; unfold Vfssafe.none; lia)) as P2.
  assert (kern (unview c x v1 s) = kern s) as Ek by (apply unview_kern; [apply P|done]).
  case_if; [rewrite wp_ret; by rewrite Ek|]. unfold put_desc, in_kern. unfold wp, mbind, M_bind, zoom, modify, mret, M_ret.
  split; [|by rewrite Ek]. eapply (proc_offset _ _ _ _ _ _ _ d); [done|by rewrite Ek|done].
Qed.

(** ** Opening *)
Lemma kmem_empty s a c x f l : proc s a c x f l → fmem (Scheduler.files (kern s)) = [].
Proof. intros P. apply (Threadsafe.kr_mem _ _ (Threadsafe.k_rep _ _ _ _ (Threadswitch.rn_kinv _ _ _ (pr_run _ _ _ _ _ _ P)))). Qed.

(** One more object on the heap. *)
Definition bump s : sys W := mksys (kern s) (fsys s) (spaces s) (frames s) (starts s) (S (hnext s)).

Lemma kmalloc_gives s : fmem (Scheduler.files (kern s)) = [] → kmalloc s = Ok (Some (hnext s), bump s).
Proof.
  intros Hm. unfold kmalloc, in_kern. erewrite bind_ok; [|unfold zoom; rewrite (Threadsafe.kmalloc_run _ Hm); reflexivity].
  by destruct s.
Qed.

Lemma proc_bump s a c x f l : proc s a c x f l → proc (bump s) a c x f l.
Proof. intros [P1 P2 P3 P4 P5 P6 P7 P8 P9]. constructor; try done. intros p Hp. apply P9 in Hp. cbn. lia. Qed.

(** Only user memory has changed. *)
Lemma proc_memory s s' a c x f l :
  proc s a c x f l → kern s' = kern s → fsys s' = fsys s → hnext s' = hnext s → proc s' a c x f l.
Proof.
  intros [P1 P2 P3 P4 P5 P6 P7 P8 P9] Ek Ef Eh. constructor; rewrite ?Ek, ?Ef, ?Eh; try done.
  unfold view. rewrite Ef. pose proof (good_self (view x s) (mkustate (mkcstate (space_of s' x) false) (Scheduler.t_vmspace x)) _ P6 eq_refl) as G.
  exact G.
Qed.

Lemma path_scan_run s a c x f l ad path :
  proc s a c x f l →
  ∃ s', path_scan ad path s = Ok (tt, s') ∧ kern s' = kern s ∧ fsys s' = fsys s ∧ hnext s' = hnext s.
Proof.
  intros P. unfold path_scan. rewrite (bind_ok _ _ _ _ _ (curproc_run _ _ _ _ _ _ P)).
  destruct (Vfs.scan_path 0 path) as [[? colon]| | |]; try (by exists s). case_if; [|by exists s].
  eexists. split; [reflexivity|]. unfold set_space_of. by destruct (Scheduler.t_vmspace x).
Qed.

(** The path the program passes is a string in its memory. *)
Definition path_at s x (ad : Z) : list Z := user_string (size (space_of s x)) (space_of s x) ad.

Lemma open_user_run s a c x f l ad flags :
  proc s a c x f l → Vfssafe.spare 16 (world_of s) → Vfssafe.string (path_at s x ad) →
  wp (open_user ad flags) (fun r s' => proc s' a c x f l ∧ kern s' = kern s ∧ hnext s' = hnext s ∧
    match r with
    | inl e => e ≠ 0
    | inr v => ∀ u, Vfssafe.opens (world_of s') u = Vfssafe.opens (world_of s) u + Vfssafe.one v u
    end) s.
Proof.
  intros P SP Hp. unfold open_user. rewrite wp_bind. unfold wp at 1.
  assert (user_path ad s = Ok (path_at s x ad, s)) as ->.
  { unfold user_path. by rewrite (bind_ok _ _ _ _ _ (curproc_run _ _ _ _ _ _ P)). }
  rewrite wp_bind. eapply (in_vfs_run _ _ s a c x f l P). eapply wp_mono; [by apply Vfsops.open_run; [apply P|..]|].
  intros r v R. assert (∃ dr, Vfssafe.stp (view x s) v dr dr ∧ (∀ u, 0 ≤ dr u) ∧
    match r with inl e => e ≠ 0 | inr w => dr = Vfssafe.one w end) as (dr & S & Hd & Hr).
  { destruct r as [e|w]; cbn in R; [destruct R; exists Vfssafe.none|exists (Vfssafe.one w)]; split_and!; try done; intros u.
    apply Vfssafe.one_range. }
  pose proof (proc_vfs _ _ _ _ _ _ _ _ _ P S ltac:(intros; specialize (Hd u); lia)) as P1.
  pose proof (unview_kern c x v s (pr_cur _ _ _ _ _ _ P) (Vfssafe.st_cwd _ _ _ _ S)) as Ek.
  assert (∀ s', kern s' = kern (unview c x v s) → fsys s' = fsys (unview c x v s) → hnext s' = hnext (unview c x v s) →
    proc s' a c x f l ∧ kern s' = kern s ∧ hnext s' = hnext s ∧
    match r with inl e => e ≠ 0 | inr v => ∀ u, Vfssafe.opens (world_of s') u = Vfssafe.opens (world_of s) u + Vfssafe.one v u end) as Hend.
  { intros s' Ek' Ef' Eh'. split_and!; [by eapply proc_memory|by rewrite Ek'|by rewrite Eh', unview_hnext|].
    destruct r as [e|w]; [done|]. subst dr. intros u. rewrite Ef', unview_fsys.
    exact (Vfssafe.ws_opens _ _ _ _ (Vfssafe.st_world _ _ _ _ S) u). }
  rewrite wp_bind. case_if; [by apply Hend|]. unfold wp at 1.
  destruct (path_scan_run _ _ _ _ _ _ ad (path_at s x ad) P1) as (s' & -> & ? & ? & ?). by apply Hend.
Qed.

Lemma in_threads_quiet {A} (m : M Scheduler.kstate A) s r k :
  m (kern s) = Ok (r, k) → Scheduler.calls k = Scheduler.calls (kern s) →
  closes (Scheduler.files k) = closes (Scheduler.files (kern s)) → in_threads m s = Ok (r, set_kern k s).
Proof.
  intros E Hc Hv. unfold in_threads. erewrite bind_ok; [|reflexivity]. erewrite bind_ok; [|reflexivity].
  erewrite bind_ok; [|unfold in_kern, zoom; rewrite E; reflexivity]. erewrite bind_ok; [|reflexivity]. erewrite bind_ok; [|reflexivity].
  cbn [kern set_kern]. rewrite Hc, Hv, !drop_all. done.
Qed.

(** A new descriptor goes to the end of the table. *)
Lemma add_run s a c x f l p d :
  proc s a c x f l → (hnext s = S p)%nat → (∀ q, is_Some (descs_of s !! q) → (q < p)%nat) → Z.of_nat (length l) < 2 ^ 29 - 2 →
  (∀ u, uses (descs_of s) l u + Vfssafe.one (vn d) u ≤ Vfssafe.opens (world_of s) u) →
  ∃ f' s', (let* _ := put_desc p d in on_table (fun ft => filetable_add ft (Some p))) s = Ok (Z.of_nat (length l), s') ∧
    proc s' a c (set_ft f' x) f' (l ++ [p]) ∧ Scheduler.curspl (kern s') = Scheduler.curspl (kern s) ∧
    descs_of s' = <[p := d]> (descs_of s).
Proof.
  intros P Hh Hfr Hl Ho. unfold put_desc, in_kern. erewrite bind_ok; [|reflexivity]. set (s1 := set_kern _ s).
  destruct P as [P1 P2 P3 P4 P5 P6 P7 P8 P9]. set (k1 := with_descs (<[p := d]>) (kern s)).
  assert (Threadswitch.running k1 a c) as R1 by (by apply running_descs).
  destruct (ft_add f l p (Scheduler.files k1) P4) as (f' & E & R'); [|done|].
  { exact (Threadsafe.kr_mem _ _ (Threadsafe.k_rep _ _ _ _ (Threadswitch.rn_kinv _ _ _ R1))). }
  assert (p ∉ l) as Hpl by (intros Hp; apply P7, Hfr in Hp; lia).
  exists f', (set_kern (Scheduler.with_threads (<[c := set_ft f' x]> (Scheduler.threads k1)) (Scheduler.tnext k1) k1) s1).
  split_and!.
  - unfold on_table. rewrite (bind_ok _ _ _ _ _ (cur_table_at s1 c x f (Threadswitch.rn_cur _ _ _ P1) P2 P3)).
    eapply in_threads_quiet; [|done|done]. unfold mbind, M_bind.
    unfold Scheduler.kfiles, zoom. cbn [kern s1 set_kern]. fold k1. rewrite E. cbv iota. unfold Scheduler.cur.
    change (Scheduler.curthread (Scheduler.with_files _ _ k1)) with (Scheduler.curthread (kern s)). rewrite (Threadswitch.rn_cur _ _ _ P1).
    rewrite (Threadsafe.updt_run _ c _ x) by done. unfold mret, M_ret. do 2 f_equal.
  - constructor; cbn [kern set_kern fsys]; try done.
    + eapply Threadswitch.running_upd; [done..|]. by destruct (Threadswitch.cur_ok _ _ _ _ P1 P2).
    + by apply lookup_insert_eq.
    + apply list.NoDup_app. split; [done|]. split; [|apply list.NoDup_singleton]. by intros q Hq ->%list_elem_of_singleton.
    + intros q [Hq| ->%list_elem_of_singleton]%elem_of_app; cbn; [|by rewrite lookup_insert_eq].
      rewrite lookup_insert_ne by (by intros ->). by apply P7.
    + intros u. cbn. unfold uses. rewrite list.filter_app, length_app. cbn.
      assert (filter (fun q => vn <$> <[p := d]> (descs_of s) !! q = Some u) l = filter (fun q => vn <$> descs_of s !! q = Some u) l) as ->.
      { clear -Hpl. induction l as [|q l IH]; [done|]. apply not_elem_of_cons in Hpl as [? ?]. rewrite !filter_cons, IH by done.
        by rewrite lookup_insert_ne by done. }
      rewrite lookup_insert_eq. specialize (Ho u). unfold uses, Vfssafe.one in Ho. cbn.
      destruct (decide (Some (vn d) = Some u)) as [[= <-]|Hne]; [rewrite decide_True in Ho by done; cbn; lia|].
      rewrite decide_False in Ho by congruence. cbn. lia.
    + intros q [e He]. cbn in He |- *. destruct (decide (q = p)) as [->|]; [lia|]. rewrite lookup_insert_ne in He by done.
      pose proof (Hfr q (ex_intro _ e He)). lia.
  - done.
  - done.
Qed.

Lemma sys_open_run s a c x f l ad flags md :
  proc s a c x f l → Vfssafe.spare 16 (world_of s) → Vfssafe.string (path_at s x ad) → Z.of_nat (length l) < 2 ^ 29 - 2 →
  wp (sys_open ad flags md) (fun r s' => Scheduler.curspl (kern s') = Scheduler.curspl (kern s) ∧
    (r.1 ≠ 0 ∧ proc s' a c x f l ∧ descs_of s' = descs_of s ∨
     ∃ f' v, r = (0, Z.of_nat (length l)) ∧ proc s' a c (set_ft f' x) f' (l ++ [hnext s]) ∧
       descs_of s' = <[hnext s := mkdesc v 0 md]> (descs_of s))) s.
Proof.
  intros P SP Hp Hl. unfold sys_open. rewrite wp_bind. unfold wp at 1. rewrite (kmalloc_gives s (kmem_empty _ _ _ _ _ _ P)).
  pose proof (proc_bump _ _ _ _ _ _ P) as P1. rewrite wp_bind.
  eapply wp_mono; [by apply (open_user_run _ _ _ _ _ _ ad flags P1)|]. intros [e|v] s1 (P2 & Ek & Eh & Hr).
  - rewrite wp_ret. split; [by rewrite Ek|]. left. by rewrite Ek.
  - destruct (add_run s1 a c x f l (hnext s) (mkdesc v 0 md) P2) as (f' & s2 & E & P3 & Hspl & Hds); try done.
    { intros q. rewrite Ek. apply (pr_heap _ _ _ _ _ _ P). }
    { intros u. rewrite Ek, Hr. cbn. pose proof (pr_opens _ _ _ _ _ _ P u). lia. }
    unfold wp. unfold mbind at 1, M_bind at 1 in E. unfold mbind at 1, M_bind at 1.
    destruct (put_desc (hnext s) _ s1) as [[[] s3]| | |]; try done. rewrite (bind_ok _ _ _ _ _ E).
    rewrite (proj2 (Z.eqb_neq _ _)) by lia. unfold mret, M_ret. split; [by rewrite Hspl, Ek|]. right. exists f', v.
    split; [done|]. split; [done|]. by rewrite Hds, Ek.
Qed.

End safe.
End Syscallsafe.
