(* ===== verification/Syscallspec.v ===== *)
(** * System calls: theorems

    Any sequence of file calls that respects [sane] is answered, in the registers the calling convention names, and
    keeps the process and the kernel in order; reading delivers the bytes of the file at the descriptor's
    position, again and again since the position never moves; forking gives a child that differs in its result
    register only.  The calls that [sane] leaves out are those that stop the kernel: every [close], a negative
    descriptor, a reboot, the exit of a process with a file open. *)
From stdpp Require Import base list gmap numbers relations.
From S2P Require Import Prelude Array Queue Copyinout Uio Cstring Filetable Scheduler Thread Threadsafe Threadswitch Threadsys Vfs Vfssafe Fileio Vfspaths Vfsops Vfsmount Vfsspec Syscall Syscallsafe.
Local Open Scope Z_scope.

Module Syscallspec.
Import Copyinout Uio Filetable Fileio Syscall Syscallsafe.

(** ** Trap frames *)
Definition frame_ok (tf : list Z) : Prop := length tf = 37%nat ∧ Forall (fun w => 0 ≤ w < 2 ^ 32) tf.

Lemma reg_word tf i : frame_ok tf → 0 ≤ reg tf i < 2 ^ 32.
Proof.
  intros [_ Hf]. unfold reg. destruct (nth_in_or_default i tf 0) as [Hi| ->]; [|lia].
  rewrite list.Forall_forall in Hf. by apply Hf, list_elem_of_In.
Qed.

Lemma reg_lookup tf i w : tf !! i = Some w → reg tf i = w.
Proof. intros Hi. unfold reg. by apply nth_lookup_Some. Qed.

Lemma reg_insert tf i j w : (i < length tf)%nat → reg (<[i := w]> tf) j = if decide (i = j) then w else reg tf j.
Proof.
  intros Hi. unfold reg. rewrite !nth_lookup. case_decide; subst; [by rewrite list_lookup_insert_eq|].
  by rewrite list_lookup_insert_ne.
Qed.

Lemma frame_insert tf i w : frame_ok tf → 0 ≤ w < 2 ^ 32 → frame_ok (<[i := w]> tf).
Proof. intros [Hl Hf] Hw. split; [by rewrite length_insert|]. by apply list.Forall_insert. Qed.

(** What the program finds after a call: the result in [v0], the error flag in [a3], the next instruction, and all
    other registers as they were. *)
Record returned (tf tf' : list Z) (err ret : Z) : Prop := {
  rt_ok : frame_ok tf';
  rt_v0 : reg tf' tf_v0 = u32 (if decide (err = 0) then ret else err);
  rt_a3 : reg tf' tf_a3 = if decide (err = 0) then 0 else 1;
  rt_epc : reg tf' tf_epc = u32 (reg tf tf_epc + 4);
  rt_rest : ∀ i, i ∉ [tf_v0; tf_a3; tf_epc] → reg tf' i = reg tf i
}.

Lemma set_result_returned tf err ret : frame_ok tf → returned tf (set_result err ret tf) err ret.
Proof.
  intros Hf. pose proof Hf as [Hl _]. unfold set_result.
  assert (∀ e v, 0 ≤ e < 2 ^ 32 → 0 ≤ v < 2 ^ 32 →
    let t1 := <[tf_a3 := e]> (<[tf_v0 := v]> tf) in let t2 := <[tf_epc := u32 (reg t1 tf_epc + 4)]> t1 in
    frame_ok t2 ∧ reg t2 tf_v0 = v ∧ reg t2 tf_a3 = e ∧ reg t2 tf_epc = u32 (reg tf tf_epc + 4) ∧
    ∀ i, i ∉ [tf_v0; tf_a3; tf_epc] → reg t2 i = reg tf i) as Hgen.
  { intros e v He Hv t1 t2. assert (length t1 = 37%nat) as L1 by (unfold t1; by rewrite !length_insert).
    assert (∀ j, reg t1 j = if decide (tf_a3 = j) then e else if decide (tf_v0 = j) then v else reg tf j) as R1.
    { intros j. unfold t1. rewrite !reg_insert; [done|rewrite ?length_insert, Hl; unfold tf_v0, tf_a3; lia..]. }
    assert (∀ j, reg t2 j = if decide (tf_epc = j) then u32 (reg tf tf_epc + 4) else reg t1 j) as R2.
    { intros j. unfold t2. rewrite reg_insert by (rewrite L1; unfold tf_epc; lia). by rewrite (R1 tf_epc). }
    split_and!; try (by rewrite R2, ?R1).
    - unfold t2, t1. repeat apply frame_insert; try done. unfold u32. apply Z.mod_pos_bound. lia.
    - intros i Hi. rewrite !not_elem_of_cons in Hi. rewrite R2, R1. destruct Hi as (? & ? & ? & _).
      by rewrite !decide_False by congruence. }
  assert (∀ z, 0 ≤ u32 z < 2 ^ 32) as Hu by (intros; unfold u32; apply Z.mod_pos_bound; lia).
  destruct (Z.eqb_spec err 0) as [->|Hne]; cbn [negb].
  - destruct (Hgen 0 (u32 ret)) as (? & ? & ? & ? & ?); [lia|done|]. by constructor.
  - destruct (Hgen 1 (u32 err)) as (? & ? & ? & ? & ?); [lia|done|]. constructor; rewrite ?decide_False by done; done.
Qed.

Section spec.
Context {W : Type} `{Vfssafe.VnodeLaws W, !Files W, !FileLaws W}.
Implicit Types (s : sys W) (x : Scheduler.thread).

Abbreviation world_of s := (Vfs.world (fsys s)).
Abbreviation descs_of s := (descs (Scheduler.files (kern s))).
Abbreviation callno tf := (i32 (reg tf tf_v0)).

(** ** File calls *)

(** What a file call must respect: a descriptor that is not negative, a position and size in range, a path and a
    buffer to write from that are in the program's memory; [SEEK_END] on devices only; reading only from what
    can be read with interrupts off, so not from the console. *)
Definition call_ok s x (l : list nat) (tf : list Z) : Prop :=
  let fd := i32 (reg tf tf_a0) in
  if decide (callno tf = SYS_open) then
    Vfssafe.spare 16 (world_of s) ∧ Vfssafe.string (path_at s x (reg tf tf_a0)) ∧ Z.of_nat (length l) < 2 ^ 29 - 2
  else if decide (callno tf = SYS_read) then 0 ≤ fd ∧ in_range s l fd (reg tf tf_a2) ∧ readable s l fd
  else if decide (callno tf = SYS_write) then
    0 ≤ fd ∧ in_range s l fd (reg tf tf_a2) ∧ reg tf tf_a1 + reg tf tf_a2 ≤ USERTOP ∧
    is_Some (user_bytes (space_of s x) (reg tf tf_a1) (Z.to_nat (reg tf tf_a2)))
  else if decide (callno tf = SYS_lseek) then 0 ≤ fd ∧ seek_ok s l fd (i32 (reg tf tf_a2))
  else callno tf ∉ [SYS_reboot; SYS_fork; SYS__exit; SYS_getpid; SYS_close; SYS_dup2].

Definition sane s (tf : list Z) : Prop := ∀ a c x f l, proc s a c x f l → call_ok s x l tf.

(** A process between two system calls. *)
Definition user_state s : Prop := (∃ a c x f l, proc s a c x f l) ∧ Scheduler.curspl (kern s) = 0.

Lemma return_run s tf err ret a c x f l :
  proc s a c x f l → Scheduler.curspl (kern s) = 0 → frame_ok tf →
  wp (syscall_return tf err ret) (fun r s' => user_state s' ∧ ∃ tf', r = Returns tf' ∧ returned tf tf' err ret) s.
Proof.
  intros P Hs Hf. unfold syscall_return, wp, mbind, M_bind, assert_spl0. rewrite Hs. cbn. split; [split; [|done]; by exists a, c, x, f, l|].
  eexists. split; [done|]. by apply set_result_returned.
Qed.

(** The end of a call, whatever it computed. *)
Lemma pair_return (m : M (sys W) (Z * Z)) s tf :
  frame_ok tf → Scheduler.curspl (kern s) = 0 →
  wp m (fun _ s' => (∃ a c x f l, proc s' a c x f l) ∧ Scheduler.curspl (kern s') = Scheduler.curspl (kern s)) s →
  wp (let* '(err, retval) := m in syscall_return tf err retval)
    (fun r s' => user_state s' ∧ ∃ tf' err ret, r = Returns tf' ∧ returned tf tf' err ret) s.
Proof.
  intros Hf Hs Hm. rewrite wp_bind. eapply wp_mono; [exact Hm|]. intros [err ret] s' [(a & c & x & f & l & P) Hs'].
  eapply wp_mono; [eapply return_run; [exact P|congruence|done]|]. intros r s2 (U & tf' & -> & R). split; [done|]. by exists tf', err, ret.
Qed.

Lemma single_return (m : M (sys W) Z) s tf :
  frame_ok tf → Scheduler.curspl (kern s) = 0 →
  wp m (fun _ s' => (∃ a c x f l, proc s' a c x f l) ∧ Scheduler.curspl (kern s') = Scheduler.curspl (kern s)) s →
  wp (let* err := m in syscall_return tf err 0)
    (fun r s' => user_state s' ∧ ∃ tf' err ret, r = Returns tf' ∧ returned tf tf' err ret) s.
Proof.
  intros Hf Hs Hm. rewrite wp_bind. eapply wp_mono; [exact Hm|]. intros err s' [(a & c & x & f & l & P) Hs'].
  eapply wp_mono; [eapply return_run; [exact P|congruence|done]|]. intros r s2 (U & tf' & -> & R). split; [done|]. by exists tf', err, 0.
Qed.

Lemma call_run s tf :
  user_state s → frame_ok tf → sane s tf →
  wp (mips_syscall tf) (fun r s' => user_state s' ∧ ∃ tf' err ret, r = Returns tf' ∧ returned tf tf' err ret) s.
Proof.
  intros [(a & c & x & f & l & P) Hs] Hf Hsane. pose proof (Hsane _ _ _ _ _ P) as Hc. clear Hsane. unfold call_ok in Hc.
  unfold mips_syscall. rewrite wp_bind. unfold wp at 1, assert_spl0. rewrite Hs. cbn [Z.eqb].
  pose proof (reg_word tf tf_a1 Hf) as H1'. cbv zeta.
  destruct (decide (callno tf = SYS_open)) as [E|E1].
  { rewrite E. cbn [Z.eqb SYS_open SYS_reboot SYS_fork SYS__exit SYS_getpid Pos.eqb]. apply pair_return; [done..|].
    destruct Hc as (SP & Hp & Hl). eapply wp_mono; [by apply (sys_open_run s a c x f l)|].
    intros r s' [Es [(_ & P' & _)|(f' & v & _ & P' & _)]]; (split; [|done]); eauto 10. }
  destruct (decide (callno tf = SYS_read)) as [E|E2].
  { rewrite E. cbn [Z.eqb SYS_open SYS_read SYS_reboot SYS_fork SYS__exit SYS_getpid Pos.eqb]. apply pair_return; [done..|].
    destruct Hc as (Hfd & Hr & Hq). eapply wp_mono; [by apply (read_run s a c x f l)|]. intros r s' (P' & Es & _). split; [|done]. eauto 10. }
  destruct (decide (callno tf = SYS_write)) as [E|E3].
  { rewrite E. cbn [Z.eqb SYS_open SYS_read SYS_write SYS_reboot SYS_fork SYS__exit SYS_getpid Pos.eqb]. apply pair_return; [done..|].
    destruct Hc as (Hfd & Hr & Ht & Hu). eapply wp_mono; [apply (write_run s a c x f l); (done || lia)|].
    intros r s' (P' & Es & _). split; [|done]. eauto 10. }
  destruct (decide (callno tf = SYS_lseek)) as [E|E4].
  { rewrite E. cbn [Z.eqb SYS_open SYS_read SYS_write SYS_close SYS_dup2 SYS_lseek SYS_reboot SYS_fork SYS__exit SYS_getpid Pos.eqb].
    apply single_return; [done..|]. destruct Hc as [Hfd Hk]. eapply wp_mono; [by apply (lseek_run s a c x f l)|].
    intros r s' (P' & Es). split; [|done]. eauto 10. }
  rewrite !not_elem_of_cons in Hc. destruct Hc as (? & ? & ? & ? & ? & ? & _).
  repeat (rewrite (proj2 (Z.eqb_neq (callno tf) _)) by done).
  eapply wp_mono; [by eapply return_run|]. intros r s' (U & tf' & -> & R). split; [done|]. by exists tf', ENOSYS, 0.
Qed.

(** A program that makes file calls. *)
Definition ustep s s' : Prop := ∃ tf tf', frame_ok tf ∧ sane s tf ∧ mips_syscall tf s = Ok (Returns tf', s').

Lemma usteps_state s s' : user_state s → rtc ustep s s' → user_state s'.
Proof.
  intros U Hr. induction Hr as [|s1 s2 s3 (tf & tf' & Hf & Hs & E) _ IH]; [done|]. apply IH.
  pose proof (call_run s1 tf U Hf Hs) as Hw. unfold wp in Hw. rewrite E in Hw. apply Hw.
Qed.

(** ** Reading *)

(** The vnode is a file with the bytes [data]: a read into mapped user memory delivers what [data] has at the
    position asked for and changes nothing else. *)
Definition reads (w : W) (v : nat) (data : list Z) : Prop :=
  ∀ buf n off sp m, 0 ≤ n → 0 ≤ off → off + n < 2 ^ 31 → 0 ≤ buf → buf + n ≤ USERTOP →
    is_Some (user_bytes m buf (Z.to_nat n)) →
    let bs := take (Z.to_nat n) (drop (Z.to_nat off) data) in
    ∃ u', VOP_READ v (user_uio buf n off sp) (w, mkustate (mkcstate m false) sp) =
        Ok ((0, u'), (w, mkustate (mkcstate (user_write m buf bs) false) sp)) ∧
      uio_resid u' = n - Z.of_nat (length bs).

Lemma transfer_exact (op : nat → uio → M (W * ustate) (Z * uio)) s a c x f l v u n u' w' us' :
  proc s a c x f l → op v u (world_of s, Vfs.user (view x s)) = Ok ((0, u'), (w', us')) →
  ∃ s', transfer op v u n s = Ok ((0, i32 (n - uio_resid u')), s') ∧ world_of s' = w' ∧
    (Scheduler.t_vmspace x ≠ None → space_of s' x = umem (u_mem us')).
Proof.
  intros P E. unfold transfer, Scheduler.splhigh. rewrite (bind_ok _ _ _ _ _ (splx_run s _)). set (s1 := set_kern _ s).
  assert (proc s1 a c x f l) as P1 by (by apply proc_spl).
  assert (in_vfs (Vfs.down_io (op v u)) s1 = Ok ((0, u'), unview c x (Vfs.set_user us' (Vfs.set_world w' (view x s1))) s1)) as Ei.
  { unfold in_vfs. rewrite (bind_ok _ _ _ _ _ (curproc_run _ _ _ _ _ _ P1)). unfold zoom, Vfs.down_io, zoom.
    change (Vfs.world (view x s1), Vfs.user (view x s1)) with (world_of s, Vfs.user (view x s)). by rewrite E. }
  rewrite (bind_ok _ _ _ _ _ Ei).
  cbv beta iota. rewrite (bind_ok _ _ _ _ _ (splx_run _ _)). cbn [negb Z.eqb]. eexists. split; [reflexivity|].
  split; [cbn [fsys set_kern]; by rewrite unview_fsys|]. intros Hv. unfold space_of. cbn [spaces set_kern]. unfold unview, set_space_of.
  destruct (Scheduler.t_vmspace x); [|done]. cbn. by rewrite lookup_insert_eq.
Qed.

Lemma read_delivers s a c x f l fd p d buf n ret data :
  proc s a c x f l → 0 ≤ fd → l !! Z.to_nat fd = Some p → descs_of s !! p = Some d → may_read (mode d) = true →
  in_range s l fd n → 0 < buf → buf + n ≤ USERTOP → is_Some (user_bytes (space_of s x) buf (Z.to_nat n)) →
  Scheduler.t_vmspace x ≠ None → reads (world_of s) (vn d) data →
  let bs := take (Z.to_nat n) (drop (Z.to_nat (offset d)) data) in
  ∃ s', sys_read fd buf n ret s = Ok ((0, Z.of_nat (length bs)), s') ∧ kept s a c x f l s' ∧
    world_of s' = world_of s ∧ space_of s' x = user_write (space_of s x) buf bs.
Proof.
  intros P Hfd Hp Hd Hm Hr Hb Ht Hu Hv Hrd bs. pose proof Hr as [Hn Ho]. destruct (Ho p d Hp Hd) as [Ho1 Ho2].
  assert (wp (sys_read fd buf n ret) (fun _ s' => kept s a c x f l s') s) as Hw.
  { eapply read_run_with; [done|done|unfold USERTOP in *; lia|done|]. intros p' d' u Hp' Hd' _ -> _. simplify_eq.
    destruct (Hrd buf n (offset d) (Scheduler.t_vmspace x) (space_of s x)) as (u' & E & Hres); try (done || lia).
    unfold wp. change (Vfs.user (view x s)) with (mkustate (mkcstate (space_of s x) false) (Scheduler.t_vmspace x)). rewrite E. cbn [fst snd].
    split; [apply Vfssafe.wstep_refl, (pr_vfs _ _ _ _ _ _ P)|]. rewrite Hres. pose proof (length_take (drop (Z.to_nat (offset d)) data) (Z.to_nat n)). lia. }
  destruct (Hrd buf n (offset d) (Scheduler.t_vmspace x) (space_of s x)) as (u' & E & Hres); try (done || lia).
  destruct (transfer_exact VOP_READ s a c x f l _ _ n _ _ _ P E) as (s' & Et & Ew & Es).
  assert (sys_read fd buf n ret s = Ok ((0, Z.of_nat (length bs)), s')) as Er.
  { unfold sys_read. rewrite (proj2 (Z.eqb_neq buf 0)) by lia. rewrite (bind_ok _ _ _ _ _ (table_get_run _ _ _ _ _ _ _ P Hfd)), Hp.
    rewrite (bind_ok _ _ _ _ _ (get_desc_run _ _ _ Hd)), Hm. cbn [negb]. rewrite (bind_ok _ _ _ _ _ (curproc_run _ _ _ _ _ _ P)), Et, Hres.
    assert (Z.of_nat (length bs) ≤ n) by (unfold bs; rewrite length_take; lia). do 3 f_equal. change (take (Z.to_nat n) (drop (Z.to_nat (offset d)) data)) with bs. rewrite i32_small by lia. lia. }
  exists s'. split; [done|]. unfold wp in Hw. rewrite Er in Hw. split_and!; [done|done|by apply Es].
Qed.

Lemma written_dom m a n bs :
  is_Some (user_bytes m a n) → (length bs ≤ n)%nat → dom (user_write m a bs) = dom m.
Proof.
  revert m a n. induction bs as [|b bs IH]; intros m a n Hu Hl; [done|]. destruct n as [|n]; [cbn in Hl; lia|]. cbn in Hu, Hl |- *.
  destruct (m !! a) as [w|] eqn:Ea; [|by destruct Hu]. destruct (user_bytes m (a + 1) n) as [r|] eqn:Er; [|by destruct Hu].
  rewrite (IH _ _ n).
  - rewrite dom_insert_L. apply elem_of_dom_2 in Ea. set_solver.
  - rewrite user_bytes_insert_before by lia. by rewrite Er.
  - lia.
Qed.

Lemma user_bytes_dom (m m' : gmap Z Z) a n : dom m = dom m' → is_Some (user_bytes m a n) → is_Some (user_bytes m' a n).
Proof.
  intros Hd. revert a. induction n as [|n IH]; intros a Hu; [done|]. cbn in *.
  destruct (m !! a) as [w|] eqn:Ea; [|by destruct Hu]. destruct (user_bytes m (a + 1) n) as [r|] eqn:Er; [|by destruct Hu].
  assert (a ∈ dom m') as [w' ->]%elem_of_dom by (rewrite <- Hd; by apply elem_of_dom_2 in Ea).
  destruct (IH (a + 1)) as [r' ->]; [by rewrite Er|]. done.
Qed.

(** ** Forking *)
Lemma in_threads_calls {A} (m : M Scheduler.kstate A) s r k cs :
  m (kern s) = Ok (r, k) → Scheduler.calls k = Scheduler.calls (kern s) ++ cs →
  closes (Scheduler.files k) = closes (Scheduler.files (kern s)) →
  in_threads m s = (let* _ := perform_all cs in mret r) (set_kern k s).
Proof.
  intros E Hc Hv. unfold in_threads. erewrite bind_ok; [|reflexivity]. erewrite bind_ok; [|reflexivity].
  erewrite bind_ok; [|unfold in_kern, zoom; rewrite E; reflexivity]. erewrite bind_ok; [|reflexivity]. erewrite bind_ok; [|reflexivity].
  cbn [kern set_kern]. rewrite Hc, Hv, drop_app_length, drop_all. done.
Qed.

(** Another state with the same files and vnodes, in which the process runs. *)
Lemma proc_frame s s' a a' c x f l dr :
  proc s a c x f l → Threadswitch.running (kern s') a' c → Scheduler.threads (kern s') !! c = Some x →
  Scheduler.files (kern s') = Scheduler.files (kern s) → (hnext s ≤ hnext s')%nat →
  Vfssafe.wstep (world_of s) (world_of s') dr Vfssafe.none → (∀ u, 0 ≤ dr u) →
  fsys s' = Vfs.set_world (world_of s') (fsys s) → proc s' a' c x f l.
Proof.
  intros [P1 P2 P3 P4 P5 P6 P7 P8 P9] R Hx Hf Hh B Hd Ef.
  assert (Vfssafe.stp (view x s) (view x s') dr Vfssafe.none) as S.
  { unfold view. rewrite Ef. by constructor. }
  constructor; rewrite ?Hf; try done.
  - eapply Vfssafe.ok_ext; [exact (Vfssafe.ok_step _ _ _ _ _ P6 S)|]. intros u. unfold Vfssafe.none. specialize (Hd u). lia.
  - intros u. rewrite (Vfssafe.ws_opens _ _ _ _ B). specialize (P8 u). unfold Vfssafe.none. lia.
  - intros p Hp. specialize (P9 p Hp). lia.
Qed.

(** The calls of [thread_fork] are carried out: the memory is copied, the directory gets a reference. *)
Lemma fork_calls_run s a c x f l sp n :
  proc s a c x f l → Vfssafe.spare 1 (world_of s) → Scheduler.t_vmspace x = Some sp → ∀ k,
  ∃ s', perform_all (Threadswitch.fork_calls x n) (set_kern k s) = Ok (tt, s') ∧ kern s' = k ∧
    spaces s' = <[n := space_of s x]> (spaces s) ∧ frames s' = frames s ∧ starts s' = starts s ∧ hnext s' = hnext s ∧
    fsys s' = Vfs.set_world (world_of s') (fsys s) ∧
    Vfssafe.wstep (world_of s) (world_of s') (Vfssafe.oone (Scheduler.t_cwd x)) Vfssafe.none.
Proof.
  intros P SP Hv k. unfold Threadswitch.fork_calls. rewrite Hv. cbn [app perform_all perform]. erewrite bind_ok; [|reflexivity].
  assert (space_of s x = default ∅ (spaces s !! sp)) as Hsp by (unfold space_of; by rewrite Hv).
  destruct (Scheduler.t_cwd x) as [d|] eqn:Ec.
  - assert (0 < Vfssafe.refs (world_of s) d) as Hl.
    { pose proof (Vfssafe.ok_refs _ _ (pr_vfs _ _ _ _ _ _ P) d) as Hr. unfold Vfssafe.none, Vfssafe.held in Hr.
      pose proof (Vfssafe.law_opens (world_of s) d (Vfssafe.ok_inv _ _ (pr_vfs _ _ _ _ _ _ P))).
      pose proof (Vfssafe.oone_range (Vfs.bootfs_vnode (view x s)) d). cbn [view Vfs.world Vfs.set_cwd Vfs.set_user Vfs.t_cwd] in Hr.
      rewrite Ec in Hr. cbn [Vfssafe.oone] in Hr. rewrite Vfssafe.one_self in Hr. lia. }
    pose proof (Vfssafe.law_incref (world_of s) d (Vfssafe.ok_inv _ _ (pr_vfs _ _ _ _ _ _ P)) (or_introl Hl) SP) as Hw.
    apply wp_run in Hw as ([] & w' & E & B). cbn [perform_all perform].
    erewrite bind_ok; [|unfold zoom, Vfs.down, zoom; cbn [fsys set_spaces set_kern]; rewrite E; reflexivity].
    eexists. split; [reflexivity|]. cbn. rewrite <- Hsp. done.
  - cbn [perform_all]. eexists. split; [reflexivity|]. cbn. rewrite <- Hsp. split_and!; try done; [by destruct (fsys s)|].
    destruct (Vfssafe.stp_refl (view x s) _ (pr_vfs _ _ _ _ _ _ P)) as [[] _ _ _ _]. by constructor.
Qed.

(** The state after the copy of the trap frame has been made. *)
Definition saved s (tf : list Z) : sys W :=
  mksys (Scheduler.with_spl 0 true (Scheduler.in_interrupt (kern s)) (kern s)) (fsys s) (spaces s)
    (<[hnext s := tf]> (frames s)) (starts s) (S (hnext s)).

Lemma sys_fork_run s a c x f l sp tf :
  proc s a c x f l → Scheduler.curspl (kern s) = 0 → Threadsafe.a_ids a ≠ [] → Vfssafe.spare 1 (world_of s) →
  Scheduler.t_vmspace x = Some sp →
  let n := Scheduler.tnext (kern s) in
  ∃ s' a' y pid, sys_fork tf s = Ok (pid, s') ∧ proc s' a' c x f l ∧ Scheduler.curspl (kern s') = 0 ∧
    Threadsafe.a_ids a = pid :: Threadsafe.a_ids a' ∧ Scheduler.id y = Some pid ∧
    Threadswitch.forked (kern s) (kern s') x y n ∧
    spaces s' = <[S n := space_of s x]> (spaces s) ∧ starts s' !! n = Some (hnext s) ∧ frames s' !! hnext s = Some tf.
Proof.
  intros P Hs Hne SP Hv n. unfold sys_fork. rewrite (bind_ok _ _ _ _ _ (kmalloc_gives s (kmem_empty _ _ _ _ _ _ P))).
  unfold Scheduler.splhigh. rewrite (bind_ok _ _ _ _ _ (splx_run _ _)). erewrite bind_ok; [|reflexivity].
  rewrite (bind_ok _ _ _ _ _ (splx_run _ _)). change (Scheduler.curspl (kern (bump s))) with (Scheduler.curspl (kern s)). rewrite Hs.
  change (set_kern _ _) with (saved s tf). set (s1 := saved s tf). assert (proc s1 a c x f l) as P1.
  { destruct (proc_bump _ _ _ _ _ _ P) as [P1 P2 P3 P4 P5 P6 P7 P8 P9]. constructor; try done.
    by apply Threadswitch.running_spl. }
  rewrite (bind_ok _ _ _ _ _ (curproc_run _ _ _ _ _ _ P1)).
  destruct (Threadswitch.fork_run (kern s1) a c x (Scheduler.t_name x) (pr_run _ _ _ _ _ _ P1) (pr_cur _ _ _ _ _ _ P1) Hne)
    as (k' & a' & E & Hr & (pid & y & Hids & F & Hpid) & _).
  destruct (fork_calls_run s1 a c x f l sp (S n) P1 SP Hv k') as (s2 & E2 & Ek & Esp & Efr & Est & Eh & Ef & B).
  erewrite bind_ok; [|rewrite (in_threads_calls _ _ _ _ _ E (Threadswitch.fk_calls _ _ _ _ _ F)), (bind_ok _ _ _ _ _ E2);
    [reflexivity|by rewrite (Threadswitch.fk_files _ _ _ _ _ F)]].
  cbv beta iota. erewrite bind_ok; [|reflexivity]. change (Scheduler.tnext (kern s1)) with n in *.
  assert (n ≠ c) as Hnc.
  { intros Heq. pose proof (Threadsafe.ti_next _ _ _ _ (Threadsafe.k_tinv _ _ _ _ (Threadswitch.rn_kinv _ _ _ (pr_run _ _ _ _ _ _ P))) n (le_n _)) as Hn.
    rewrite Heq, (pr_cur _ _ _ _ _ _ P) in Hn. done. }
  erewrite bind_ok; [|unfold in_kern, zoom; cbn [kern set_frames]; rewrite Ek, (Threadsafe.gett_run k' n y); [reflexivity|
    rewrite (Threadswitch.fk_threads _ _ _ _ _ F); apply lookup_insert_eq]].
  rewrite Hpid. eexists _, a', y, pid. split; [reflexivity|]. cbn [kern set_frames set_kern]. split_and!; try done.
  - eapply (proc_frame s1); try done; cbn; rewrite ?Ef, ?Eh, ?Ek; try done.
    + rewrite (Threadswitch.fk_threads _ _ _ _ _ F), lookup_insert_ne by done. apply (pr_cur _ _ _ _ _ _ P).
    + apply F.
    + intros u. apply Vfssafe.oone_range.
  - exact (Threadswitch.fk_spl _ _ _ _ _ F).
  - destruct F. constructor; try done. by rewrite Hs.
  - cbn. by rewrite lookup_insert_eq.
  - cbn. rewrite Efr. cbn. by rewrite lookup_insert_eq.
Qed.

Lemma child_frame tf :
  frame_ok tf →
  <[tf_a3 := 0]> (<[tf_epc := u32 (reg (<[tf_v0 := 0]> tf) tf_epc + 4)]> (<[tf_v0 := 0]> tf)) = set_result 0 0 tf.
Proof.
  intros [Hl _]. unfold set_result. cbn [Z.eqb negb]. change (u32 0) with 0.
  rewrite (list_insert_insert_ne (<[tf_v0 := 0]> tf) tf_a3 tf_epc) by done.
  rewrite (reg_insert (<[tf_v0 := 0]> tf) tf_a3 tf_epc 0) by (rewrite length_insert, Hl; unfold tf_a3; lia). done.
Qed.

Lemma run_child_run s2 n y2 p tf :
  Scheduler.curthread (kern s2) = Some n → Scheduler.threads (kern s2) !! n = Some y2 → starts s2 !! n = Some p →
  frames s2 !! p = Some tf → frame_ok tf →
  ∃ s3, run_child s2 = Ok (set_result 0 0 tf, s3) ∧ Scheduler.curspl (kern s3) = 0 ∧ frames s3 !! p = None.
Proof.
  intros Hc Hy Hst Hfr Hf. unfold run_child. rewrite (bind_ok _ _ _ _ _ (curproc_at _ _ _ Hc Hy)). erewrite bind_ok; [|reflexivity].
  erewrite bind_ok; [|unfold lift; rewrite Hst; reflexivity]. unfold md_forkentry, mips_usermode, Scheduler.splhigh.
  rewrite (bind_ok _ _ _ _ _ (splx_run _ _)). erewrite bind_ok; [|reflexivity].
  erewrite bind_ok; [|unfold lift; cbn [frames set_kern]; rewrite Hfr; reflexivity]. erewrite bind_ok; [|reflexivity]. cbv zeta.
  rewrite (child_frame tf Hf). rewrite (bind_ok _ _ _ _ _ (splx_run _ _)), (bind_ok _ _ _ _ _ (splx_run _ _)).
  erewrite bind_ok; [|reflexivity]. eexists. split; [reflexivity|]. split; [done|]. cbn. apply lookup_delete_eq.
Qed.

(** ** Shutting down *)
Lemma drain_run fuel (q : @Queue.queue nat) l :
  Queue.q_rep q l → (length l ≤ fuel)%nat → ∃ q', Scheduler.drain fuel q = Ok q' ∧ Queue.q_rep q' [].
Proof.
  revert q l. induction fuel as [|fuel IH]; intros q l R Hl; cbn [Scheduler.drain]; rewrite (Queue.q_empty_nil _ _ R).
  - destruct l; [|cbn in Hl; lia]. by exists q.
  - destruct l as [|t l]; [by exists q|]. cbn [bool_decide decide]. destruct (Queue.remhead_run _ _ R) as (q' & E & R' & _).
    rewrite bool_decide_false by done. unfold mbind, outcome_bind. rewrite E. apply (IH q' l R'). cbn in Hl. lia.
Qed.

(** Every queue from [i] on can be used. *)
Definition queues (k : Scheduler.kstate) (i : nat) (empty : bool) : Prop :=
  ∀ j, (i ≤ j < 4)%nat → ∃ q l, Scheduler.runqueue k !! j = Some (Some q) ∧ Queue.q_rep q l ∧ (empty = true → l = []).

Lemma getq_at k i q : Scheduler.runqueue k !! i = Some (Some q) → Scheduler.getq (Z.of_nat i) k = Ok (q, k).
Proof. intros Hq. unfold Scheduler.getq. by rewrite (proj2 (Z.leb_le 0 _)), Nat2Z.id, Hq by lia. Qed.

Lemma killall_loop_run k n i :
  queues k 0 false → (∀ j, (j < i)%nat → ∃ q, Scheduler.runqueue k !! j = Some (Some q) ∧ Queue.q_rep q []) → (i + n = 4)%nat →
  ∃ rq, Scheduler.killall_loop n (Z.of_nat i) k = Ok (tt, Scheduler.with_rq rq k) ∧ queues (Scheduler.with_rq rq k) 0 true.
Proof.
  revert k i. induction n as [|n IH]; intros k i Hq He Hi; cbn [Scheduler.killall_loop].
  - exists (Scheduler.runqueue k). split; [by destruct k|]. intros j Hj. destruct (He j) as (q & E & R); [lia|]. by exists q, [].
  - destruct (Hq i) as (q & l & E & R & _); [lia|]. rewrite (bind_ok _ _ _ _ _ (getq_at k i q E)).
    destruct (drain_run (Z.to_nat (Queue.size q)) q l R) as (q' & Ed & R'); [pose proof (Queue.rep_room _ _ R); lia|].
    erewrite bind_ok; [|apply Threadsafe.klift_run; exact Ed]. erewrite bind_ok; [|reflexivity]. rewrite Nat2Z.id.
    replace (Z.of_nat i + 1) with (Z.of_nat (S i)) by lia. set (k1 := Scheduler.with_rq _ k).
    assert (∀ j, Scheduler.runqueue k1 !! j = if decide (j = i) then Some (Some q') else Scheduler.runqueue k !! j) as Hk.
    { intros j. cbn. case_decide as Hj; [subst; apply list_lookup_insert_eq; by eapply lookup_lt_Some|by rewrite list_lookup_insert_ne]. }
    destruct (IH k1 (S i)) as (rq & Er & Hr); [| |lia|by exists rq].
    + intros j Hj. rewrite Hk. case_decide; [by exists q', []|by apply Hq].
    + intros j Hj. rewrite Hk. case_decide; [by exists q'|apply He; lia].
Qed.

Lemma shutdown_loop_run k n i :
  queues k i true → (i + n = 4)%nat → ∃ rq, Scheduler.shutdown_loop n (Z.of_nat i) k = Ok (tt, Scheduler.with_rq rq k).
Proof.
  revert k i. induction n as [|n IH]; intros k i Hq Hi; cbn [Scheduler.shutdown_loop].
  - exists (Scheduler.runqueue k). by destruct k.
  - destruct (Hq i) as (q & l & E & R & He); [lia|]. rewrite (He eq_refl) in R. rewrite (bind_ok _ _ _ _ _ (getq_at k i q E)).
    erewrite bind_ok; [|apply Threadsafe.klift_run; unfold Queue.q_destroy; rewrite (Queue.q_empty_nil _ _ R); reflexivity].
    erewrite bind_ok; [|reflexivity]. rewrite Nat2Z.id. replace (Z.of_nat i + 1) with (Z.of_nat (S i)) by lia. set (k1 := Scheduler.with_rq _ k).
    destruct (IH k1 (S i)) as (rq & Er); [|lia|by exists rq]. intros j Hj. destruct (Hq j) as (q' & l' & E' & ?); [lia|]. exists q', l'.
    cbn. by rewrite list_lookup_insert_ne by lia.
Qed.

(** The process ids that are free are still in their queue when it is destroyed. *)
Lemma thread_shutdown_panics k a :
  Threadsafe.krep k a → 0 < Scheduler.curspl k → Threadsafe.a_ids a ≠ [] →
  (let* _ := Scheduler.scheduler_shutdown in Thread.thread_shutdown) k = Panic.
Proof.
  intros R Hs Hne. unfold Scheduler.scheduler_shutdown, Scheduler.scheduler_killall.
  assert (queues k 0 false) as Hq.
  { intros j Hj. destruct (lookup_lt_is_Some_2 (Threadsafe.a_rq a) j) as [l Hl]; [rewrite (Threadsafe.kr_four _ _ R); lia|].
    destruct (Forall2_lookup_r _ _ _ _ _ (Threadsafe.kr_rq _ _ R) Hl) as (oq & Ej & q & -> & Rq & _). by exists q, l. }
  destruct (killall_loop_run k 4 0 Hq) as (rq & E & Hq1); [intros; lia|done|].
  destruct (shutdown_loop_run (Scheduler.with_rq rq k) 4 0 Hq1 eq_refl) as (rq2 & E2).
  erewrite bind_ok; [|erewrite bind_ok; [|rewrite (bind_ok _ _ _ _ _ (Threadsafe.assert_spl_run k Hs)); exact E];
    rewrite (bind_ok _ _ _ _ _ (Threadsafe.assert_spl_run (Scheduler.with_rq rq k) Hs)); exact E2].
  destruct (Threadsafe.kr_sl _ _ R) as (sl & Hsl & _), (Threadsafe.kr_zb _ _ R) as (zb & Hzb & _), (Threadsafe.kr_ids _ _ R) as (q & Hid & Rq & _).
  unfold Thread.thread_shutdown. erewrite bind_ok; [|apply (Threadsafe.getlist_run Scheduler.sleepers); exact Hsl]. erewrite bind_ok; [|reflexivity].
  erewrite bind_ok; [|apply (Threadsafe.getlist_run Scheduler.zombies); exact Hzb]. erewrite bind_ok; [|reflexivity].
  erewrite bind_ok; [|unfold Thread.getids; cbn; rewrite Hid; reflexivity].
  unfold mbind, M_bind, lift, Queue.q_destroy. rewrite (Queue.q_empty_nil _ _ Rq), bool_decide_false by done. done.
Qed.

(** The VFS half of the shutdown: the thread goes on running, with whatever directory it is left. *)
Lemma in_vfs_good {A} (m : M (Vfs.vfs W) A) s a c x :
  Threadswitch.running (kern s) a c → Scheduler.threads (kern s) !! c = Some x → Vfsops.good (view x s) →
  wp m (fun _ v => Vfsops.good v) (view x s) →
  ∃ r s' x', in_vfs m s = Ok (r, s') ∧ Threadswitch.running (kern s') a c ∧ Scheduler.threads (kern s') !! c = Some x' ∧
    Vfsops.good (view x' s').
Proof.
  intros R Hx G Hm. unfold wp, in_vfs in *. rewrite (bind_ok _ _ _ _ _ (curproc_at s c x (Threadswitch.rn_cur _ _ _ R) Hx)). unfold zoom.
  destruct (m (view x s)) as [[r v]| | |]; try done. set (x' := Thread.set_space (Scheduler.t_vmspace x) (Vfs.t_cwd v) x).
  assert (kern (unview c x v s) = set_cwd_of c x (Vfs.t_cwd v) (kern s)) as Ek by (unfold unview, set_space_of; by destruct (Scheduler.t_vmspace x)).
  exists r, (unview c x v s), x'. rewrite Ek. split_and!; [done| | |].
  - eapply Threadswitch.running_upd; [done..|]. by destruct (Threadswitch.cur_ok _ _ _ _ R Hx).
  - apply lookup_insert_eq.
  - unfold view. rewrite unview_fsys. by apply good_self.
Qed.

Lemma shutdown_stops s a c x f l :
  proc s a c x f l → Threadsafe.a_ids a ≠ [] → shutdown s = Panic.
Proof.
  intros P Hne. unfold shutdown. pose proof (pr_vfs _ _ _ _ _ _ P) as G.
  destruct (in_vfs_good Vfs.vfs_clearbootfs s a c x) as (r1 & s1 & x1 & E1 & R1 & X1 & G1);
    [apply P|apply (pr_cur _ _ _ _ _ _ P)|done|by apply Vfsspec.clearbootfs_good|].
  destruct (in_vfs_good Vfs.vfs_clearcurdir s1 a c x1) as (r2 & s2 & x2 & E2 & R2 & X2 & G2); [done..|by apply Vfsspec.clearcurdir_good|].
  destruct (in_vfs_good Vfs.vfs_unmountall s2 a c x2) as (r3 & s3 & x3 & E3 & R3 & X3 & _); [done..|by apply Vfsspec.unmountall_good|].
  rewrite (bind_ok _ _ _ _ _ E1), (bind_ok _ _ _ _ _ E2), (bind_ok _ _ _ _ _ E3). unfold Scheduler.splhigh.
  rewrite (bind_ok _ _ _ _ _ (splx_run _ _)). set (s4 := set_kern _ s3).
  assert (Threadswitch.running (kern s4) a c) as R4 by (by apply Threadswitch.running_spl).
  pose proof (thread_shutdown_panics (kern s4) a (Threadsafe.k_rep _ _ _ _ (Threadswitch.rn_kinv _ _ _ R4)) ltac:(done) Hne) as E.
  unfold mbind, M_bind in E. unfold mbind, M_bind, in_kern, zoom.
  destruct (Scheduler.scheduler_shutdown (kern s4)) as [[[] k]| | |]; try done. cbn [kern set_kern]. by rewrite E.
Qed.

(** ** Theorems *)


(** [open] appends a descriptor for the file to the process's table, at position 0 and with the mode
    argument as its access mode, and returns its index; every other descriptor keeps its index and its position.  When it
    fails, the table is as it was. *)
Theorem sys_open_appends s a c x f l path oflag md :
  proc s a c x f l → Vfssafe.spare 16 (world_of s) → Vfssafe.string (path_at s x path) → Z.of_nat (length l) < 2 ^ 29 - 2 →
  ∃ err ret s', sys_open path oflag md s = Ok ((err, ret), s') ∧
    if decide (err = 0) then
      ret = Z.of_nat (length l) ∧ ∃ p v, (p ∉ l) ∧ descs_of s' = <[p := mkdesc v 0 md]> (descs_of s) ∧
        ∀ i, 0 ≤ i → table_get i s' = Ok ((l ++ [p]) !! Z.to_nat i, s')
    else descs_of s' = descs_of s ∧ ∀ i, 0 ≤ i → table_get i s' = Ok (l !! Z.to_nat i, s').
Proof.
  intros P SP Hp Hl. destruct (proj1 (wp_run _ _ _) (sys_open_run s a c x f l path oflag md P SP Hp Hl)) as ([err ret] & s' & E & _ & R).
  exists err, ret, s'. split; [done|]. destruct R as [(He & P' & Hd)|(f' & v & [= -> ->] & P' & Hd)].
  - rewrite decide_False by done. split; [done|]. intros i Hi. by eapply table_get_run.
  - rewrite decide_True by done. split; [done|]. exists (hnext s), v. split_and!; [|done|intros i Hi; by eapply table_get_run].
    intros Hin. pose proof (pr_heap _ _ _ _ _ _ P (hnext s) (pr_desc _ _ _ _ _ _ P _ Hin)). lia.
Qed.

(** C22: [read] puts the bytes of the file at the descriptor's position into the program's buffer and nothing else into its
    memory, and returns their number.  It does not move the position: a second read delivers the same
    bytes again. *)
Theorem sys_read_repeats s a c x f l fd p d buf buf2 n data :
  proc s a c x f l → 0 ≤ fd → l !! Z.to_nat fd = Some p → descs_of s !! p = Some d → may_read (mode d) = true →
  in_range s l fd n → Scheduler.t_vmspace x ≠ None → reads (world_of s) (vn d) data →
  0 < buf → buf + n ≤ USERTOP → is_Some (user_bytes (space_of s x) buf (Z.to_nat n)) →
  0 < buf2 → buf2 + n ≤ USERTOP → is_Some (user_bytes (space_of s x) buf2 (Z.to_nat n)) →
  let bs := take (Z.to_nat n) (drop (Z.to_nat (offset d)) data) in
  ∃ s1 s2, sys_read fd buf n 0 s = Ok ((0, Z.of_nat (length bs)), s1) ∧ space_of s1 x = user_write (space_of s x) buf bs ∧
    sys_read fd buf2 n 0 s1 = Ok ((0, Z.of_nat (length bs)), s2) ∧ space_of s2 x = user_write (space_of s1 x) buf2 bs.
Proof.
  intros P Hfd Hp Hd Hm Hr Hv Hrd Hb1 Hb2 Hb3 Hc1 Hc2 Hc3 bs.
  destruct (read_delivers s a c x f l fd p d buf n 0 data) as (s1 & E1 & (P1 & _ & D1) & W1 & M1); try done.
  assert (dom (space_of s x) = dom (space_of s1 x)) as Hdom.
  { rewrite M1. symmetry. eapply written_dom; [exact Hb3|]. rewrite length_take. lia. }
  destruct (read_delivers s1 a c x f l fd p d buf2 n 0 data) as (s2 & E2 & _ & _ & M2); try done.
  - by rewrite D1.
  - unfold in_range in *. by rewrite D1.
  - by eapply user_bytes_dom.
  - by rewrite W1.
  - by exists s1, s2.
Qed.

(** C21: [fork] by a process with an address space, while there is a free process id, memory for the thread and its address space, and room for one more
    reference to the current directory: the parent gets the child's process id as
    its result and goes on, the child starts with the same registers at the same instruction with the result 0, in an address space of its own, the one
    [as_copy] has made for it, and with no open file; no other address space is touched. *)
Theorem fork_twins s a c x f l sp tf :
  proc s a c x f l → Scheduler.curspl (kern s) = 0 → Threadsafe.a_ids a ≠ [] → Vfssafe.spare 1 (world_of s) →
  Scheduler.t_vmspace x = Some sp → (sp < Scheduler.tnext (kern s))%nat → frame_ok tf → callno tf = SYS_fork →
  let n := Scheduler.tnext (kern s) in
  ∃ tf' s' y pid, mips_syscall tf s = Ok (Returns tf', s') ∧ returned tf tf' 0 pid ∧ user_state s' ∧
    Scheduler.threads (kern s') !! n = Some y ∧ Scheduler.id y = Some pid ∧ Scheduler.id x ≠ Some pid ∧ Threadsafe.no_files y ∧
    Scheduler.t_vmspace y = Some (S n) ∧ S n ≠ sp ∧ (∀ q, q ≠ S n → spaces s' !! q = spaces s !! q) ∧
    ∀ s2 y2, Scheduler.curthread (kern s2) = Some n → Scheduler.threads (kern s2) !! n = Some y2 →
      starts s2 = starts s' → frames s2 = frames s' →
      ∃ tfc s3, run_child s2 = Ok (tfc, s3) ∧ returned tf tfc 0 0 ∧ Scheduler.curspl (kern s3) = 0.
Proof.
  intros P Hs Hne SP Hv Hlt Hf Hc n. destruct (sys_fork_run s a c x f l sp tf P Hs Hne SP Hv) as (s' & a' & y & pid & E & P' & Hs' & Hids & Hpid & F & Esp & Est & Efr).
  assert (Scheduler.threads (kern s') !! n = Some y) as Hy by (rewrite (Threadswitch.fk_threads _ _ _ _ _ F); apply lookup_insert_eq).
  pose proof (pr_cur _ _ _ _ _ _ P) as Hx. pose proof (pr_cur _ _ _ _ _ _ P') as Hx'.
  pose proof (Threadswitch.fk_space _ _ _ _ _ F) as Hvy. rewrite Hv in Hvy. cbn in Hvy. fold n in Hvy, Esp, Est.
  exists (set_result 0 pid tf), s', y, pid. split_and!; try done.
  - unfold mips_syscall. erewrite bind_ok; [|unfold assert_spl0; rewrite Hs; reflexivity]. cbv zeta. rewrite Hc.
    cbn [Z.eqb SYS_fork SYS_reboot Pos.eqb]. rewrite (bind_ok _ _ _ _ _ E). unfold syscall_return.
    erewrite bind_ok; [|unfold assert_spl0; rewrite Hs'; reflexivity]. done.
  - by apply set_result_returned.
  - split; [|done]. by exists a', c, x, f, l.
  - intros Hid. destruct (Threadsafe.tinv_ids _ _ _ _ c n x y (Threadsafe.k_tinv _ _ _ _ (Threadswitch.rn_kinv _ _ _ (pr_run _ _ _ _ _ _ P'))) Hx' Hy)
      as [Heq _]; [congruence|].
    pose proof (Threadsafe.ti_next _ _ _ _ (Threadsafe.k_tinv _ _ _ _ (Threadswitch.rn_kinv _ _ _ (pr_run _ _ _ _ _ _ P))) n (le_n _)) as Hn.
    rewrite Heq in Hx. congruence.
  - apply F.
  - unfold n. lia.
  - intros q Hq. by rewrite Esp, lookup_insert_ne.
  - intros s2 y2 Hc2 Hy2 Est2 Efr2. destruct (run_child_run s2 n y2 (hnext s) tf) as (s3 & E3 & Hs3 & _); try done; [by rewrite Est2|by rewrite Efr2|].
    exists (set_result 0 0 tf), s3. split; [done|]. split; [by apply set_result_returned|done].
Qed.

(** Calls a program can make at any time that stop the kernel: [close], whatever its argument, fails an assertion of the
    file table, and so do [read], [write], [lseek] and [dup2] when the descriptor is negative. *)
Theorem bad_calls_panic s a c x f l fd :
  proc s a c x f l →
  sys_close fd s = Panic ∧
  (fd < 0 → (∀ buf n, buf ≠ 0 → sys_read fd buf n 0 s = Panic ∧ sys_write fd buf n 0 s = Panic) ∧
            (∀ pos whence, sys_lseek fd pos whence s = Panic) ∧ (∀ newfd, sys_dup2 fd newfd s = Panic)).
Proof.
  intros P. split.
  - unfold sys_close, on_table, mbind at 1, M_bind at 1. assert (∀ i, i = 0 ∨ i = 1 → Scheduler.kfiles (filetable_remove f i) (kern s) = Panic) as Hrem.
    { intros i Hi. unfold Scheduler.kfiles, zoom. destruct (l !! Z.to_nat i) as [q|] eqn:Hq.
      - destruct (pr_desc _ _ _ _ _ _ P q) as [d Hd]; [by eapply list_elem_of_lookup_2|].
        rewrite <- (Z2Nat.id i) by lia. by rewrite (remove_open f l _ q d _ (pr_rep _ _ _ _ _ _ P) Hq Hd).
      - apply lookup_ge_None in Hq. unfold filetable_remove, mbind, M_bind, massert. rewrite (ft_size _ _ (pr_rep _ _ _ _ _ _ P)).
        rewrite (proj2 (Z.ltb_ge i _)) by lia. by rewrite andb_false_r. }
    rewrite (bind_ok _ _ _ _ _ (cur_table_run _ _ _ _ _ _ P)). unfold in_threads. erewrite bind_ok; [|reflexivity]. erewrite bind_ok; [|reflexivity].
    unfold mbind, M_bind, in_kern, zoom. by destruct (fd =? -1); rewrite Hrem by auto.
  - intros Hfd. assert (table_get fd s = Panic) as E.
    { unfold table_get. rewrite (bind_ok _ _ _ _ _ (cur_table_run _ _ _ _ _ _ P)). unfold lift, filetable_get.
      rewrite (ft_size _ _ (pr_rep _ _ _ _ _ _ P)), (proj2 (Z.leb_gt _ fd)) by lia. unfold Array.array_getguy, mbind, outcome_bind, oassert.
      rewrite (proj2 (Z.leb_gt 0 fd)) by lia. by destruct (_ <=? _). }
    split_and!; [intros buf n Hb|intros|intros]; unfold sys_read, sys_write, sys_lseek, sys_dup2.
    + rewrite (proj2 (Z.eqb_neq buf 0)) by done. unfold mbind, M_bind. by rewrite E.
    + unfold mbind, M_bind. by rewrite E.
    + unfold mbind at 1, M_bind at 1. by rewrite E.
Qed.

(** [reboot] unmounts the file systems and then always panics instead of stopping the machine, unless all
    100 process ids are in use: the queue of the free ones is destroyed without being emptied. *)
Theorem sys_reboot_panics s a c x f l code :
  proc s a c x f l → Threadsafe.a_ids a ≠ [] → code ∈ [RB_REBOOT; RB_HALT; RB_POWEROFF] → sys_reboot code s = Panic.
Proof.
  intros P Hne Hc. unfold sys_reboot. rewrite !elem_of_cons in Hc.
  assert ((code =? RB_REBOOT) || (code =? RB_HALT) || (code =? RB_POWEROFF) = true) as ->.
  { destruct Hc as [->|[->|[->|Hc]]]; [done..|by apply not_elem_of_nil in Hc]. }
  cbn [negb]. unfold mbind, M_bind. by rewrite (shutdown_stops _ _ _ _ _ _ P Hne).
Qed.

End spec.
End Syscallspec.
