(* ===== verification/Syscalldemo.v ===== *)
(** * System calls on a concrete kernel

    The boot thread with an address space of its own, one device, a read-only memory of three bytes called "rom", and
    that device open as descriptor 0.  The theorems of Syscallspec.v are instantiated there. *)
From stdpp Require Import base list gmap numbers relations.
From S2P Require Import Prelude Array Queue Copyinout Uio Cstring Filetable Scheduler Thread Threadsafe Threadswitch Threadsys Vfs Vfssafe Fileio Vfspaths Vfsops Vfsmount Vfsspec Device Devicespec Syscall Syscallsafe Syscallspec.
Local Open Scope Z_scope.

Module Syscalldemo.
Import Copyinout Uio Filetable Fileio Syscall Syscallsafe Syscallspec.

(** ** A device with contents *)
Definition rom_data : list Z := [72; 105; 33].

Definition rom_io (u : uio) : M ustate (Z * uio) :=
  if bool_decide (uio_rw u = UIO_WRITE ∨ uio_segflg u = UIO_SYSSPACE) then mret (EINVAL, u)
  else
    let bs := drop (Z.to_nat (uio_offset u)) rom_data in
    let n := Z.min (uio_resid u) (Z.of_nat (length bs)) in
    let* '(r, _, u') := uiomove bs n u in
    mret (r, u').

Definition rom_device : Device.device := Device.mkdevice Device.nullopen Device.nullclose rom_io Device.nullioctl 0 1.

(** A kernel address is refused. *)
Lemma copyout_kernel src a n cs : USERTOP ≤ a < 2 ^ 32 → 0 < n < 2 ^ 32 → copyout src a n cs = Ok (EFAULT, cs).
Proof.
  intros Ha Hn. unfold copyout, USERTOP in *. rewrite copycheck_spec by lia. unfold USERTOP. rewrite bool_decide_false by lia. done.
Qed.

Lemma uiomove_kernel_address u a us ptr n :
  iov_un u = un_ubase a → USERTOP ≤ a < 2 ^ 32 → uio_segflg u ≠ UIO_SYSSPACE → uio_space u = t_vmspace us → uio_rw u = UIO_READ →
  0 < n ≤ uio_resid u → uio_resid u = iov_len u → uio_resid u < 2 ^ 32 → uiomove ptr n u us = Ok ((EFAULT, ptr, u), us).
Proof.
  intros Hu Ha Hs Hsp Hrw Hn Hl Hm. unfold uiomove. erewrite bind_ok; [|reflexivity].
  erewrite bind_ok; [|unfold massert; rewrite Hsp; destruct (uio_segflg u); [by rewrite bool_decide_true| |by rewrite bool_decide_true]; done].
  unfold uiomove_loop. rewrite (proj2 (Z.gtb_lt n 0)), (proj2 (Z.gtb_lt (uio_resid u) 0)) by lia. cbv [andb]. cbv zeta.
  rewrite Z.min_r by lia. rewrite (proj2 (Z.eqb_neq n 0)) by lia.
  assert (move_user (uio_rw u) ptr (iov_un u) n us = Ok ((EFAULT, ptr, iov_un u), us)) as E.
  { unfold move_user. rewrite Hu, Hrw. unfold on_mem, mbind, M_bind, zoom. rewrite copyout_kernel by lia. by destruct us. }
  destruct (uio_segflg u); [|done|]; rewrite (bind_ok _ _ _ _ _ E); done.
Qed.

Lemma rom_transfers rw : Devicespec.transfers rw rom_device.
Proof.
  intros u us _ [I1 I2 I3 [I4 I5] (a & Ha & Hr & Hs)]. change (Device.d_io rom_device) with rom_io. unfold rom_io.
  case_bool_decide as Hb; [rewrite wp_ret; apply io_done_refl; [done|cbn; lia]|].
  destruct (uio_rw u) eqn:Hrw; [|naive_solver]. assert (uio_segflg u ≠ UIO_SYSSPACE) as Hseg by naive_solver.
  assert (uio_space u = t_vmspace us) as Hsp by (destruct (uio_segflg u); [done| |done]; done).
  set (bs := drop _ rom_data). set (n := Z.min (uio_resid u) (Z.of_nat (length bs))).
  destruct (decide (n ≤ 0)) as [Hn|Hn].
  { rewrite wp_bind. unfold wp at 1, uiomove. erewrite bind_ok; [|reflexivity].
    erewrite bind_ok; [|unfold massert; rewrite Hsp; destruct (uio_segflg u); [by rewrite bool_decide_true| |by rewrite bool_decide_true]; done].
    rewrite uiomove_loop_done by lia. rewrite wp_ret. by apply io_done_refl. }
  rewrite wp_bind. destruct (decide (a < USERTOP)) as [Hlt|Hge].
  - destruct (user_read_run u a us bs n) as (r & u' & m' & E & [Hdom _] & _ & Hor); [|done|done|lia|lia|].
    { constructor; (done || unfold USERTOP in *; lia). }
    unfold wp at 1. rewrite E, wp_ret. constructor; cbn; try done. destruct Hor as [(_ & (_ & _ & _ & -> & _) & _)|[_ ->]]; lia.
  - unfold wp at 1. rewrite (uiomove_kernel_address u a us bs n) by (done || unfold USERTOP in *; lia).
    rewrite wp_ret. by apply io_done_refl.
Qed.

Lemma rom_driver : Devicespec.driver_ok rom_device.
Proof. constructor; [apply rom_transfers|done]. Qed.

(** ** The kernel *)
Definition rom_str : list Z := [114; 111; 109; 0].
Definition rom_kd : Vfs.knowndev := Vfs.mkkd rom_str None (Some 0%nat) 0 None.

Definition rom_world : Device.devw :=
  Device.mkdevw {[0%nat := Device.mkdvnode 2 1 (Some 0%nat)]} 1 {[0%nat := rom_device]} 1 [].

Definition rom_vfs : Vfs.vfs Device.devw :=
  Vfs.mkvfs rom_world {[0%nat := rom_kd]} 1 (Array.mkarray 1 2 (Some [Some 0%nat; None])) None None
    (mkustate (mkcstate ∅ false) None) [].

(** Two buffers at 1000 and 1003, the path "rom:" at 2000. *)
Definition demo_space : gmap Z Z := user_write (user_write ∅ 1000 (replicate 6 0)) 2000 [114; 111; 109; 58; 0].

Definition demo_thread : Scheduler.thread :=
  Scheduler.mkthread Scheduler.KStart 0 Thread.boot_name None None (Some 1%nat) None (Some one_file)
    Scheduler.PRIORITY_NORMAL (Some 0).

Definition demo_a : Threadsafe.astate := Threadsafe.mkA (replicate 4 []) [] [] (seqZ 1 99).

(** [k] is the thread system after boot. *)
Record boots (k : Scheduler.kstate) : Prop := {
  bo_run : Threadswitch.running k demo_a 3%nat;
  bo_thread : ∃ x, Scheduler.threads k !! 3%nat = Some x ∧ Scheduler.id x = Some 0;
  bo_next : (1 < Scheduler.tnext k)%nat
}.

Lemma boots_somehow : ∃ k, boots k.
Proof.
  destruct (Threadsys.boot_run Threadsys.cold_kernel) as (s1 & s2 & E1 & E2 & R & x & Hx & Hid & _); [apply Threadsys.cold_kernel_cold..|].
  exists s2. constructor; [done|by exists x|].
  pose proof (Threadsafe.ti_next _ _ _ _ (Threadsafe.k_tinv _ _ _ _ (Threadswitch.rn_kinv _ _ _ R)) 3%nat) as Hn.
  destruct (decide (Scheduler.tnext s2 ≤ 3)%nat) as [Hle|]; [|lia]. specialize (Hn Hle). cbn in Hx. congruence.
Qed.

(** The boot thread with a file open. *)
Definition open_kern (k : Scheduler.kstate) : Scheduler.kstate :=
  with_descs (fun _ => {[4%nat := mkdesc 0 0 0]}) (Scheduler.with_spl 0 true (Scheduler.in_interrupt k) k).

Definition demo_kern (k : Scheduler.kstate) : Scheduler.kstate :=
  Scheduler.with_threads (<[3%nat := demo_thread]> (Scheduler.threads (open_kern k))) (Scheduler.tnext (open_kern k)) (open_kern k).

Definition demo (k : Scheduler.kstate) : sys Device.devw :=
  mksys (demo_kern k) rom_vfs {[1%nat := demo_space]} ∅ ∅ 5.

Lemma demo_running k : boots k → Threadswitch.running (demo_kern k) demo_a 3%nat.
Proof.
  intros [R (x & Hx & Hid) _]. apply (Threadswitch.running_upd (open_kern k) demo_a 3%nat x demo_thread).
  - by apply running_descs, Threadswitch.running_spl.
  - exact Hx.
  - by rewrite Hid.
  - constructor; cbn; [by split|done|by eexists|by eexists].
Qed.

Lemma rom_inv : Vfssafe.winv rom_world.
Proof.
  split; [split; [done|]|].
  - intros d dv Hd. cbn in Hd. apply lookup_singleton_Some in Hd as [<- <-]. apply rom_driver.
  - intros v vn Hv. cbn in Hv. apply lookup_singleton_Some in Hv as [<- <-]. split; [cbn; lia|]. constructor; cbn; try lia. by eexists.
Qed.

Lemma rom_good : Vfsops.good rom_vfs.
Proof.
  constructor; try done.
  - apply rom_inv.
  - exists [0%nat]. split; [|by intros f []]. constructor.
    + split; [split_and!; cbn; lia|done].
    + apply list.NoDup_singleton.
    + intros p ->%list_elem_of_singleton. exists rom_kd. split; [done|]. constructor; try done; [by eexists|]. intros _. by eexists.
    + by intros p q kp kq f ->%list_elem_of_singleton ->%list_elem_of_singleton.
  - intros v. unfold Vfssafe.held, Vfssafe.none. cbn. destruct (decide (v = 0%nat)) as [->|Hne]; [by rewrite lookup_singleton_eq|].
    by rewrite lookup_singleton_ne by done.
Qed.

Lemma rom_spare k : k ≤ 16 → Vfssafe.spare k rom_world.
Proof.
  intros Hk v. cbn. destruct (decide (v = 0%nat)) as [->|Hne]; [rewrite lookup_singleton_eq; cbn; lia|].
  rewrite lookup_singleton_ne by done. lia.
Qed.

Lemma demo_descs k : descs (Scheduler.files (demo_kern k)) = {[4%nat := mkdesc 0 0 0]}.
Proof. done. Qed.

Lemma demo_cur k : Scheduler.threads (demo_kern k) !! 3%nat = Some demo_thread.
Proof. apply lookup_insert_eq. Qed.

Lemma demo_proc k : boots k → proc (demo k) demo_a 3 demo_thread one_file [4%nat].
Proof.
  intros B. constructor; try done.
  - by apply demo_running.
  - apply demo_cur.
  - apply list.NoDup_singleton.
  - apply (good_self rom_vfs); [apply rom_good|done].
  - intros p ->%list_elem_of_singleton. cbn [kern demo]. rewrite demo_descs, lookup_singleton_eq. done.
  - intros u. unfold uses. cbn [kern demo]. rewrite demo_descs. cbn [fsys Vfs.world rom_vfs].
    destruct (decide (u = 0%nat)) as [->|Hne]; [vm_compute; done|]. cbn. rewrite (lookup_singleton_ne 0%nat u) by congruence.
    rewrite decide_False; [done|]. rewrite lookup_singleton_eq. cbn. congruence.
  - intros p [d Hd]. cbn [kern demo] in Hd. rewrite demo_descs in Hd. apply lookup_singleton_Some in Hd as [<- _]. cbn. lia.
Qed.

Lemma demo_process k : boots k → user_state (demo k).
Proof. intros B. split; [|done]. eexists _, _, _, _, _. by apply demo_proc. Qed.

(** The words of a call. *)
Definition call_frame (callno a0 a1 a2 : Z) : list Z :=
  <[tf_a2 := a2]> (<[tf_a1 := a1]> (<[tf_a0 := a0]> (<[tf_v0 := callno]> (replicate 37 0)))).

Lemma call_frame_ok n a0 a1 a2 :
  0 ≤ n < 2 ^ 32 → 0 ≤ a0 < 2 ^ 32 → 0 ≤ a1 < 2 ^ 32 → 0 ≤ a2 < 2 ^ 32 → frame_ok (call_frame n a0 a1 a2).
Proof. intros. unfold call_frame. repeat apply frame_insert; try done. split; [done|]. apply list.Forall_replicate. lia. Qed.

(** ** The theorems there *)


(** Opening "rom:" gives descriptor 1. *)
Lemma sys_open_appends_witness :
  ∃ k err ret s', sys_open 2000 0 0 (demo k) = Ok ((err, ret), s') ∧
    if decide (err = 0) then
      ret = 1 ∧ ∃ p v, (p ∉ [4%nat]) ∧ descs (Scheduler.files (kern s')) = <[p := mkdesc v 0 0]> (descs (Scheduler.files (kern (demo k)))) ∧
        ∀ i, 0 ≤ i → table_get i s' = Ok (([4%nat] ++ [p]) !! Z.to_nat i, s')
    else descs (Scheduler.files (kern s')) = descs (Scheduler.files (kern (demo k))) ∧ ∀ i, 0 ≤ i → table_get i s' = Ok ([4%nat] !! Z.to_nat i, s').
Proof.
  destruct boots_somehow as [k B]. exists k. apply (sys_open_appends (demo k) demo_a 3 demo_thread one_file [4%nat] 2000 0 0).
  - by apply demo_proc.
  - by apply rom_spare.
  - exists [114; 111; 109; 58]. by vm_compute.
  - done.
Defined.

Lemma user_bytes_le m a k n : (k ≤ n)%nat → is_Some (user_bytes m a n) → is_Some (user_bytes m a k).
Proof.
  revert a k. induction n as [|n IH]; intros a k Hk Hu; [by assert (k = 0%nat) as -> by lia|]. destruct k as [|k]; [done|]. cbn in *.
  destruct (m !! a) as [w|]; [|by destruct Hu]. destruct (user_bytes m (a + 1) n) eqn:E; [|by destruct Hu].
  destruct (IH (a + 1) k) as [r ->]; [lia|by rewrite E|]. done.
Qed.

Lemma rom_reads : reads rom_world 0 rom_data.
Proof.
  intros buf n off sp m Hn Ho Hmax Hb Ht Hu bs. set (us := mkustate (mkcstate m false) sp).
  set (u := user_uio buf n off sp). set (rest := drop (Z.to_nat off) rom_data).
  assert (uio_offset u = off) as Hoff by (cbn; rewrite i32_small by lia; done).
  assert (∃ u', rom_io u us = Ok ((0, u'), mkustate (mkcstate (user_write m buf bs) false) sp) ∧
    uio_resid u' = n - Z.of_nat (length bs)) as (u' & E & Hr).
  { unfold rom_io. rewrite bool_decide_false by (cbn; naive_solver). rewrite Hoff. fold rest. change (uio_resid u) with n.
    assert (length bs = Z.to_nat (Z.min n (Z.of_nat (length rest)))) as Hl by (unfold bs; fold rest; rewrite length_take; lia).
    destruct (decide (Z.min n (Z.of_nat (length rest)) ≤ 0)) as [Hz|Hz].
    - assert (bs = []) as -> by (apply nil_length_inv; lia). exists u. split; [|cbn; lia].
      erewrite bind_ok; [|unfold uiomove; erewrite bind_ok; [|reflexivity]; erewrite bind_ok; [|unfold massert; cbn; rewrite bool_decide_true by done; reflexivity];
        apply uiomove_loop_done; lia]. done.
    - set (k := Z.min n (Z.of_nat (length rest))) in *.
      destruct (user_read_run u buf us rest k) as (r & u' & m' & E & _ & Hr & Hor); [|done|done|cbn; lia|lia|].
      { constructor; rewrite ?Hoff; try done; cbn; unfold USERTOP in *; lia. }
      assert (r = 0) as -> by (apply Hr; split; [lia|]; cbn; eapply user_bytes_le; [|exact Hu]; lia).
      destruct Hor as [(_ & Hnext & ->)|[? _]]; [|done]. rewrite (bind_ok _ _ _ _ _ E). exists u'.
      destruct Hnext as (_ & _ & _ & -> & _). split; [|cbn; lia].
      unfold mret, M_ret. do 4 f_equal. unfold bs. fold rest. unfold k. cbn. rewrite Z2Nat.inj_min, Nat2Z.id.
      destruct (Nat.min_spec (Z.to_nat n) (length rest)) as [[_ ->]|[? ->]]; [done|]. by rewrite !take_ge by lia. }
  exists u'. split; [|done]. cbn. unfold Device.VOP_io, Device.dev_read, Device.dev_io.
  erewrite bind_ok; [|unfold zoom; cbn [fst]; rewrite Devicespec.check_run; [reflexivity|apply rom_inv|left; by cbn]].
  erewrite bind_ok; [|reflexivity]. erewrite bind_ok; [|reflexivity]. unfold zoom. cbn [snd].
  change (Device.d_io rom_device) with rom_io. fold u us. by rewrite E.
Qed.

(** Reading the device twice, into the two buffers. *)
Lemma sys_read_repeats_witness :
  ∃ k s1 s2, sys_read 0 1000 3 0 (demo k) = Ok ((0, 3), s1) ∧ space_of s1 demo_thread = user_write (space_of (demo k) demo_thread) 1000 rom_data ∧
    sys_read 0 1003 3 0 s1 = Ok ((0, 3), s2) ∧ space_of s2 demo_thread = user_write (space_of s1 demo_thread) 1003 rom_data.
Proof.
  destruct boots_somehow as [k B]. exists k.
  apply (sys_read_repeats (demo k) demo_a 3 demo_thread one_file [4%nat] 0 4%nat (mkdesc 0 0 0) 1000 1003 3 rom_data);
    try (done || by eexists).
  - by apply demo_proc.
  - split; [done|]. intros p d _ Hd. cbn [kern demo] in Hd. rewrite demo_descs in Hd. apply lookup_singleton_Some in Hd as [_ <-]. done.
  - apply rom_reads.
Defined.

(** The boot process forks. *)
Lemma fork_twins_witness :
  ∃ k tf' s' y pid, mips_syscall (call_frame 2 0 0 0) (demo k) = Ok (Returns tf', s') ∧ returned (call_frame 2 0 0 0) tf' 0 pid ∧
    Scheduler.threads (kern s') !! Scheduler.tnext (demo_kern k) = Some y ∧ Scheduler.id y = Some pid ∧
    Scheduler.t_vmspace y = Some (S (Scheduler.tnext (demo_kern k))).
Proof.
  destruct boots_somehow as [k B]. exists k.
  destruct (fork_twins (demo k) demo_a 3 demo_thread one_file [4%nat] 1 (call_frame 2 0 0 0)) as (tf' & s' & y & pid & E & R & _ & Hy & Hid & _ & _ & Hsp & _);
    [by apply demo_proc|done|done|by apply rom_spare|done|apply (bo_next k B)|by apply call_frame_ok|done|].
  exists tf', s', y, pid. done.
Defined.

(** Descriptor -1. *)
Lemma bad_calls_panic_witness :
  ∃ k, sys_close (-1) (demo k) = Panic ∧ (∀ pos whence, sys_lseek (-1) pos whence (demo k) = Panic).
Proof.
  destruct boots_somehow as [k B]. exists k.
  destruct (bad_calls_panic (demo k) demo_a 3 demo_thread one_file [4%nat] (-1)) as [Hc Hneg]; [by apply demo_proc|].
  split; [exact Hc|]. apply Hneg. done.
Defined.

(** Power off. *)
Lemma sys_reboot_panics_witness : ∃ k, sys_reboot RB_POWEROFF (demo k) = Panic.
Proof.
  destruct boots_somehow as [k B]. exists k.
  apply (sys_reboot_panics (demo k) demo_a 3 demo_thread one_file [4%nat]); [by apply demo_proc|done|]. right. right. left.
Defined.

End Syscalldemo.
