(* ===== verification/Clock.v ===== *)
(** * The simulator's clock and its queue of timed actions
    (sys161-1.14/main/clock.c)

    [clock D H I] is the state of clock.c over devices with state [D], which it calls through the functions [H] of its
    timed actions and, when the host has input [I] for them, from [select].  The actions live in the array
    [action_storage], linked into the free list and into the queue by [ta_next]; a pointer to an action is its index.
    The description of an action, which is only printed, is left out.

    The host is a script: [noise] has the amounts that schedule_event computes in floating point from [random()] and adds
    to a delay, [randoms] the results of [random()] elsewhere, [walltime] what [gettimeofday] reads, [inputs] what
    each [select] finds.  [random()] is at most RANDOM_MAX, so the amount added is at most the delay itself, which
    is all the model says of it.

    [check_queue] and [clock_waitirq] run as long as there is something to do at the present clock, or until an interrupt:
    their [fuel] is an argument, and Clockspec.v says how much is enough. *)
From stdpp Require Import base list gmap numbers.
From S2P Require Import Prelude.
Local Open Scope Z_scope.

Module Clock.

Definition NSECS_PER_CLOCK : Z := 40.
Definition MAXACTIONS : nat := 1024.

Definition u64 (z : Z) : Z := z `mod` 2 ^ 64.

Record timed_action (H : Type) := mkta {
  ta_next : option nat;
  ta_clocksat : Z;
  ta_data : nat;
  ta_code : Z;
  ta_func : option H
}.
Arguments mkta {H}.
Arguments ta_next {H}.
Arguments ta_clocksat {H}.
Arguments ta_data {H}.
Arguments ta_code {H}.
Arguments ta_func {H}.

Record clock (D H I : Type) := mkclock {
  now_secs : Z;
  now_nsecs : Z;
  start_secs : Z;
  start_nsecs : Z;
  now_clocks : Z;
  action_storage : list (timed_action H);
  ta_freelist : option nat;
  queuehead : option nat;
  slop : Z;
  s_icycles : Z;
  noise : list Z;
  randoms : list Z;
  walltime : list (Z * Z);
  inputs : list (list I);
  devs : D
}.
Arguments mkclock {D H I}.
Arguments now_secs {D H I}.
Arguments now_nsecs {D H I}.
Arguments start_secs {D H I}.
Arguments start_nsecs {D H I}.
Arguments now_clocks {D H I}.
Arguments action_storage {D H I}.
Arguments ta_freelist {D H I}.
Arguments queuehead {D H I}.
Arguments slop {D H I}.
Arguments s_icycles {D H I}.
Arguments noise {D H I}.
Arguments randoms {D H I}.
Arguments walltime {D H I}.
Arguments inputs {D H I}.
Arguments devs {D H I}.

(** What clock.c calls: the functions of the actions, the handlers of host input, and the interrupt lines. *)
Class Devices (D H I : Type) := {
  bus_interrupts : D → Z;
  call_func : H → nat → Z → M (clock D H I) unit;
  receive : I → M (clock D H I) unit
}.

Section clock.
Context {D H I : Type}.
Implicit Types s : clock D H I.

Abbreviation C := (M (clock D H I)).

Definition set_time (secs nsecs : Z) s : clock D H I :=
  mkclock secs nsecs (start_secs s) (start_nsecs s) (now_clocks s) (action_storage s) (ta_freelist s) (queuehead s)
    (slop s) (s_icycles s) (noise s) (randoms s) (walltime s) (inputs s) (devs s).
Definition set_start (secs nsecs : Z) s : clock D H I :=
  mkclock (now_secs s) (now_nsecs s) secs nsecs (now_clocks s) (action_storage s) (ta_freelist s) (queuehead s)
    (slop s) (s_icycles s) (noise s) (randoms s) (walltime s) (inputs s) (devs s).
Definition set_clocks (n : Z) s : clock D H I :=
  mkclock (now_secs s) (now_nsecs s) (start_secs s) (start_nsecs s) n (action_storage s) (ta_freelist s) (queuehead s)
    (slop s) (s_icycles s) (noise s) (randoms s) (walltime s) (inputs s) (devs s).
Definition set_lists (st : list (timed_action H)) (fr qh : option nat) s : clock D H I :=
  mkclock (now_secs s) (now_nsecs s) (start_secs s) (start_nsecs s) (now_clocks s) st fr qh
    (slop s) (s_icycles s) (noise s) (randoms s) (walltime s) (inputs s) (devs s).
Definition set_idle (sl ic : Z) s : clock D H I :=
  mkclock (now_secs s) (now_nsecs s) (start_secs s) (start_nsecs s) (now_clocks s) (action_storage s) (ta_freelist s) (queuehead s)
    sl ic (noise s) (randoms s) (walltime s) (inputs s) (devs s).
Definition set_host (no ra : list Z) (wa : list (Z * Z)) (ip : list (list I)) s : clock D H I :=
  mkclock (now_secs s) (now_nsecs s) (start_secs s) (start_nsecs s) (now_clocks s) (action_storage s) (ta_freelist s) (queuehead s)
    (slop s) (s_icycles s) no ra wa ip (devs s).
Definition set_devs (d : D) s : clock D H I :=
  mkclock (now_secs s) (now_nsecs s) (start_secs s) (start_nsecs s) (now_clocks s) (action_storage s) (ta_freelist s) (queuehead s)
    (slop s) (s_icycles s) (noise s) (randoms s) (walltime s) (inputs s) d.

(** ** The host *)
Definition random : C Z := fun s =>
  Ok (default 0 (head (randoms s)), set_host (noise s) (tail (randoms s)) (walltime s) (inputs s) s).

(** [(u_int64_t)((random()*(nsecs*0.01))/RANDOM_MAX)] *)
Definition jitter (nsecs : Z) : C Z := fun s =>
  Ok (Z.max 0 (Z.min (default 0 (head (noise s))) nsecs), set_host (tail (noise s)) (randoms s) (walltime s) (inputs s) s).

(** Seconds and microseconds. *)
Definition gettimeofday : C (Z * Z) := fun s =>
  Ok (default (0, 0) (head (walltime s)), set_host (noise s) (randoms s) (tail (walltime s)) (inputs s) s).

(** ** The actions *)
Definition geta (i : nat) : C (timed_action H) := fun s =>
  match action_storage s !! i with
  | Some a => Ok (a, s)
  | None => Undef
  end.

Definition puta (i : nat) (a : timed_action H) : C unit :=
  let* _ := geta i in
  modify (fun s => set_lists (<[i := a]> (action_storage s)) (ta_freelist s) (queuehead s) s).

Definition with_next (n : option nat) (a : timed_action H) : timed_action H :=
  mkta n (ta_clocksat a) (ta_data a) (ta_code a) (ta_func a).

Definition set_freelist (p : option nat) : C unit :=
  modify (fun s => set_lists (action_storage s) p (queuehead s) s).
Definition set_queuehead (p : option nat) : C unit :=
  modify (fun s => set_lists (action_storage s) (ta_freelist s) p s).

Definition acalloc : C nat :=
  let* fr := gets ta_freelist in
  match fr with
  | None => panic
  | Some ta =>
      let* a := geta ta in
      let* _ := set_freelist (ta_next a) in
      mret ta
  end.

Definition acfree (ta : nat) : C unit :=
  let* a := geta ta in
  let* fr := gets ta_freelist in
  let* _ := puta ta (with_next fr a) in
  set_freelist (Some ta).

Fixpoint acalloc_loop (n i : nat) : C unit :=
  match n with
  | O => mret tt
  | S n' =>
      let* _ := acfree i in
      acalloc_loop n' (S i)
  end.

Definition acalloc_init : C unit := acalloc_loop MAXACTIONS 0.

(** ** Scheduling *)

(** [*p] and [*p = v], where [p] is [&queuehead] or [&a->ta_next]. *)
Definition load (p : option nat) : C (option nat) :=
  match p with
  | None => gets queuehead
  | Some i => let* a := geta i in mret (ta_next a)
  end.

Definition store (p v : option nat) : C unit :=
  match p with
  | None => set_queuehead v
  | Some i => let* a := geta i in puta i (with_next v a)
  end.

Fixpoint find_pos (fuel : nat) (clocksat : Z) (p : option nat) : C (option nat) :=
  let* q := load p in
  match q with
  | None => mret p
  | Some i =>
      let* a := geta i in
      if clocksat <? ta_clocksat a then mret p
      else match fuel with
           | O => lift Spin
           | S fuel' => find_pos fuel' clocksat q
           end
  end.

Definition schedule_event (nsecs : Z) (data : nat) (code : Z) (func : H) : C unit :=
  let* r := jitter nsecs in
  let nsecs := u64 (nsecs + r) in
  let clocks := nsecs `div` NSECS_PER_CLOCK in
  let* n := acalloc in
  let* a := geta n in
  let* now := gets now_clocks in
  let clocksat := u64 (now + clocks) in
  let* _ := puta n (mkta (ta_next a) clocksat data code (Some func)) in
  let* p := find_pos MAXACTIONS clocksat None in
  let* q := load p in
  let* a := geta n in
  let* _ := puta n (with_next q a) in
  store p (Some n).

(** ** Time *)
Definition clock_time : C (Z * Z) := gets (fun s => (now_secs s, now_nsecs s)).

Definition clock_setsecs (secs : Z) : C unit := modify (fun s => set_time secs (now_nsecs s) s).
Definition clock_setnsecs (nsecs : Z) : C unit := modify (fun s => set_time (now_secs s) nsecs s).

Definition clock_advance_secs (secs : Z) : C unit :=
  modify (fun s => set_time (u32 (now_secs s + secs)) (now_nsecs s) s).

Context `{!Devices D H I}.

Fixpoint check_queue (fuel : nat) : C unit :=
  let* qh := gets queuehead in
  match qh with
  | None => mret tt
  | Some ta =>
      let* a := geta ta in
      let* now := gets now_clocks in
      if negb (ta_clocksat a =? now) then mret tt
      else match fuel with
           | O => lift Spin
           | S fuel' =>
               let* func := lift (of_option (ta_func a)) in
               let* _ := call_func func (ta_data a) (ta_code a) in
               let* a := geta ta in
               let* _ := set_queuehead (ta_next a) in
               let* _ := acfree ta in
               check_queue fuel'
           end
  end.

(** The time goes forward by less than a second. *)
Definition add_nsecs (nsecs : Z) s : clock D H I :=
  let tmp := u32 (now_nsecs s + nsecs) in
  if 1000000000 <=? tmp then set_time (u32 (now_secs s + 1)) (tmp - 1000000000) s
  else set_time (now_secs s) tmp s.

Definition clock_advance (fuel : nat) (nsecs : Z) : C unit :=
  let* _ := modify (add_nsecs nsecs) in
  check_queue fuel.

Definition clock_init (fuel : nat) : C unit :=
  let* _ := acalloc_init in
  let* '(sec, usec) := gettimeofday in
  let* _ := modify (set_time (u32 sec) (u32 (1000 * usec))) in
  let* _ := modify (set_clocks 0) in
  let* r := random in
  let* _ := clock_advance fuel (r `mod` 10000000) in
  modify (fun s => set_start (now_secs s) (now_nsecs s) s).

(** The seconds and nanoseconds that [clock_cleanup] prints. *)
Definition clock_cleanup : C (Z * Z) :=
  gets (fun s =>
    let secs := u32 (now_secs s - start_secs s) in
    if now_nsecs s <? start_nsecs s then (u32 (secs - 1), u32 (u32 (1000000000 + now_nsecs s) - start_nsecs s))
    else (secs, u32 (now_nsecs s - start_nsecs s))).

Definition clock_tick (fuel : nat) : C unit :=
  let* _ := clock_advance fuel NSECS_PER_CLOCK in
  modify (fun s => set_clocks (u64 (now_clocks s + 1)) s).

Definition report_idletime (secs nsecs : Z) : C unit :=
  modify (fun s =>
    let idlensecs := u64 (secs * 1000000000 + nsecs + slop s) in
    set_idle (u32 (idlensecs `mod` NSECS_PER_CLOCK)) (u64 (s_icycles s + idlensecs `div` NSECS_PER_CLOCK)) s).

(** ** Waiting *)
Fixpoint receive_all (l : list I) : C unit :=
  match l with
  | [] => mret tt
  | i :: l' =>
      let* _ := receive i in
      receive_all l'
  end.

(** [select] with a timeout returns, without one it returns only when there is input. *)
Definition tryselect (dotimeout : bool) (secs nsecs : Z) : C unit := fun s =>
  match inputs s with
  | [] => if dotimeout then Ok (tt, s) else Spin
  | l :: ls => receive_all l (set_host (noise s) (randoms s) (walltime s) ls s)
  end.

Definition clock_dowait (fuel : nat) (secs nsecs clocks : Z) : C unit :=
  let* _ := modify (fun s => set_clocks (u64 (now_clocks s + clocks)) s) in
  let* _ := clock_advance_secs secs in
  let* _ := clock_advance fuel nsecs in
  let* _ := report_idletime secs nsecs in
  let* qh := gets queuehead in
  let* _ := (match qh with
             | None => mret tt
             | Some ta =>
                 let* a := geta ta in
                 let* now := gets now_clocks in
                 if ta_clocksat a <? now then panic else mret tt
             end) in
  let* '(sec, usec) := gettimeofday in
  let* '(nsec, nnsec) := clock_time in
  let wsecs := i32 (nsec - sec) in
  let wnsecs := i32 (nnsec - 1000 * usec) in
  let '(wsecs, wnsecs) := if wnsecs <? 0 then (i32 (wsecs - 1), i32 (wnsecs + 1000000000)) else (wsecs, wnsecs) in
  if (0 <=? wsecs) && (10000000 <? wnsecs) then tryselect true (u32 wsecs) (u32 wnsecs)
  else tryselect true 0 0.

(** The body of the loop when nothing is scheduled; the seconds are not lowered when the microseconds borrow. *)
Definition wait_input (fuel : nat) : C unit :=
  let* '(sec1, usec1) := gettimeofday in
  let* _ := tryselect false 0 0 in
  let* '(sec2, usec2) := gettimeofday in
  let sec := sec2 - sec1 in
  let usec := (if usec2 <? usec1 then usec2 + 1000000 else usec2) - usec1 in
  let* _ := clock_advance_secs (u32 sec) in
  let* _ := clock_advance fuel (u32 (usec * 1000)) in
  report_idletime (u32 sec) (u32 (usec * 1000)).

Definition wait_event (fuel : nat) (ta : nat) : C unit :=
  let* a := geta ta in
  let* now := gets now_clocks in
  let clocks := u64 (ta_clocksat a - now) in
  let nsecs := u64 (clocks * NSECS_PER_CLOCK) in
  let secs := u32 (nsecs `div` 1000000000) in
  let nsecs := nsecs `mod` 1000000000 in
  clock_dowait fuel secs nsecs clocks.

(** [qfuel] is for [check_queue]. *)
Fixpoint clock_waitirq (qfuel fuel : nat) : C unit :=
  let* irqs := gets (fun s => bus_interrupts (devs s)) in
  if negb (irqs =? 0) then mret tt
  else match fuel with
       | O => lift Spin
       | S fuel' =>
           let* qh := gets queuehead in
           let* _ := (match qh with
                      | Some ta => wait_event qfuel ta
                      | None => wait_input qfuel
                      end) in
           clock_waitirq qfuel fuel'
       end.

End clock.
End Clock.
