(* ===== verification/Clockspec.v ===== *)
(** * The event queue: invariant and theorems

    The linked lists of Clock.v represent a list of events, soonest first and first come first served among those due at
    the same clock.  [schedule_event] is insertion into that list.  The devices promise ([EventLaws]) that their
    functions return, that what they schedule at the present clock is of a lower rank, and that they keep an
    invariant of their own; against that promise, a tick of the clock and a wait run exactly the events that are due,
    and no event is ever late. *)
From stdpp Require Import base list gmap numbers sorting relations.
From S2P Require Import Prelude Clock.
Local Open Scope Z_scope.

Module Clockspec.
Import Clock.

Lemma u64_small z : 0 ≤ z < 2 ^ 64 → u64 z = z.
Proof. apply Z.mod_small. Qed.

(** ** Events *)
Record event (H : Type) := mkev { ev_at : Z; ev_data : nat; ev_code : Z; ev_func : H }.
Arguments mkev {H}.
Arguments ev_at {H}.
Arguments ev_data {H}.
Arguments ev_code {H}.
Arguments ev_func {H}.

Fixpoint insert_ev {H} (e : event H) (q : list (event H)) : list (event H) :=
  match q with
  | [] => [e]
  | x :: q' => if ev_at e <? ev_at x then e :: q else x :: insert_ev e q'
  end.

Definition by_time {H} : relation (event H) := fun e e' => ev_at e ≤ ev_at e'.

Section lists.
Context {H : Type}.
Implicit Types (e : event H) (q : list (event H)).

Lemma insert_ev_perm e q : insert_ev e q ≡ₚ e :: q.
Proof.
  induction q as [|x q IH]; [done|]. cbn. destruct (_ <? _); [done|]. rewrite IH. apply Permutation_swap.
Qed.

Lemma elem_of_insert_ev e q x : x ∈ insert_ev e q ↔ x = e ∨ x ∈ q.
Proof. by rewrite insert_ev_perm, elem_of_cons. Qed.

Lemma length_insert_ev e q : length (insert_ev e q) = S (length q).
Proof. by rewrite insert_ev_perm. Qed.

Lemma insert_ev_head e x q : ev_at x ≤ ev_at e → insert_ev e (x :: q) = x :: insert_ev e q.
Proof. intros Hx. cbn. by rewrite (proj2 (Z.ltb_ge _ _)) by done. Qed.

Lemma insert_ev_sorted e q : Sorted by_time q → Sorted by_time (insert_ev e q).
Proof.
  induction 1 as [|x q Hs IH Hh]; [by repeat constructor|]. cbn. destruct (Z.ltb_spec (ev_at e) (ev_at x)) as [Hlt|Hge].
  - constructor; [by constructor|]. constructor. unfold by_time. lia.
  - constructor; [done|]. destruct q as [|y q]; cbn in *; [by constructor|]. apply HdRel_inv in Hh.
    destruct (_ <? _); by constructor.
Qed.

Lemma by_time_trans : Transitive (@by_time H).
Proof. intros x y z. unfold by_time. lia. Qed.

Lemma sorted_head_le x q y : Sorted by_time (x :: q) → y ∈ q → ev_at x ≤ ev_at y.
Proof.
  intros Hs Hy. apply Sorted_StronglySorted in Hs; [|apply by_time_trans]. apply StronglySorted_inv in Hs as [_ Hf].
  rewrite list.Forall_forall in Hf. by apply Hf.
Qed.

(** Where insertion puts the event. *)
Lemma insert_ev_at e q1 q2 :
  Forall (fun x => ev_at x ≤ ev_at e) q1 → (∀ x, head q2 = Some x → ev_at e < ev_at x) → insert_ev e (q1 ++ q2) = q1 ++ e :: q2.
Proof.
  intros Hf Hh. induction Hf as [|x q1 Hx _ IH]; cbn.
  - destruct q2 as [|y q2]; [done|]. cbn. by rewrite (proj2 (Z.ltb_lt _ _)) by (by apply Hh).
  - by rewrite (proj2 (Z.ltb_ge _ _)), IH by done.
Qed.

Lemma insert_split e q :
  Sorted by_time q →
  ∃ q1 q2, q = q1 ++ q2 ∧ insert_ev e q = q1 ++ e :: q2 ∧ Forall (fun x => ev_at x ≤ ev_at e) q1 ∧ Forall (fun x => ev_at e < ev_at x) q2.
Proof.
  induction q as [|x q IH]; intros Hs; [by exists [], []|]. cbn. destruct (Z.ltb_spec (ev_at e) (ev_at x)) as [Hlt|Hge].
  - exists [], (x :: q). split_and!; try done. apply Forall_cons. split; [done|]. apply list.Forall_forall. intros y Hy.
    pose proof (sorted_head_le _ _ _ Hs Hy). lia.
  - destruct IH as (q1 & q2 & -> & -> & H1 & H2); [by inversion Hs|]. exists (x :: q1), q2. split_and!; try done. by constructor.
Qed.
End lists.

(** ** Linked lists *)
Section chains.
Context {H : Type}.
Implicit Types (st : list (timed_action H)) (l : list nat).

(** From [p], the links lead through [l]. *)
Definition chain st (p : option nat) l : Prop :=
  p = l !! 0%nat ∧ ∀ k i, l !! k = Some i → ta_next <$> st !! i = Some (l !! S k).

Definition ev_of (a : timed_action H) : option (event H) :=
  f ← ta_func a; Some (mkev (ta_clocksat a) (ta_data a) (ta_code a) f).

Definition holds st (i : nat) (e : event H) : Prop := st !! i ≫= ev_of = Some e.

Lemma chain_nil st : chain st None [].
Proof. split; [done|]. intros k i Hk. by rewrite lookup_nil in Hk. Qed.

Lemma chain_head st p i l : chain st p (i :: l) → p = Some i ∧ ∃ a, st !! i = Some a ∧ chain st (ta_next a) l.
Proof.
  intros [-> Hl]. split; [done|]. pose proof (Hl 0%nat i eq_refl) as Hi. destruct (st !! i) as [a|]; [|done]. exists a.
  cbn in Hi. injection Hi as Hi. split; [done|]. split; [done|]. intros k j Hk. by apply (Hl (S k)).
Qed.

Lemma chain_cons st i a l : st !! i = Some a → chain st (ta_next a) l → chain st (Some i) (i :: l).
Proof.
  intros Hi [Hp Hl]. split; [done|]. intros [|k] j Hk; cbn in *; [|by apply Hl]. injection Hk as <-. rewrite Hi. cbn. by rewrite Hp.
Qed.

Lemma chain_none st l : chain st None l → l = [].
Proof. intros [E _]. by destruct l. Qed.

(** Actions off the list may change. *)
Lemma links_ext st st' p l :
  chain st p l → (∀ i, i ∈ l → ta_next <$> st' !! i = ta_next <$> st !! i) → chain st' p l.
Proof. intros [Hp Hl] Hs. split; [done|]. intros k i Hk. rewrite Hs; [by apply Hl|by eapply list_elem_of_lookup_2]. Qed.

(** [l1 ++ n :: l2] from [l1 ++ l2]: [n] points to the head of [l2], the last of [l1] (or the head pointer) to [n]. *)
Lemma chain_insert st p l1 l2 n an :
  chain st p (l1 ++ l2) → NoDup (n :: l1 ++ l2) → st !! n = Some an → ta_next an = head l2 →
  match last l1 with
  | None => chain st (Some n) (l1 ++ n :: l2)
  | Some j => ∀ aj, st !! j = Some aj → chain (<[j := with_next (Some n) aj]> st) p (l1 ++ n :: l2)
  end.
Proof.
  intros [Hp Hl] Hnd Hn Han. apply list.NoDup_cons in Hnd as [Hnin Hnd].
  assert (head l2 = l2 !! 0%nat) as Hh by (by destruct l2).
  destruct l1 as [|x l1 _] using rev_ind.
  { cbn. eapply chain_cons; [exact Hn|]. split; [congruence|]. intros k i Hk. by apply Hl. }
  rewrite last_snoc. intros aj Hj. rewrite <- !app_assoc in *. cbn in *. apply list.NoDup_app in Hnd as (_ & Hd & Hnd).
  apply list.NoDup_cons in Hnd as [Hx Hnd2].
  assert (x ≠ n) as Hxn by (intros ->; apply Hnin; set_solver).
  split. { rewrite Hp. by destruct l1. }
  intros k i Hk. destruct (decide (k < length l1)%nat) as [Hlt|Hge].
  - rewrite lookup_app_l in Hk by done. assert (i ≠ x) as Hi.
    { intros ->. apply (Hd x); [by eapply list_elem_of_lookup_2|left]. }
    rewrite list_lookup_insert_ne by congruence. rewrite (Hl k i) by (by rewrite lookup_app_l). f_equal.
    destruct (decide (S k < length l1)%nat); [by rewrite !lookup_app_l by done|]. rewrite !lookup_app_r by lia.
    by replace (S k - length l1)%nat with 0%nat by lia.
  - rewrite lookup_app_r in Hk by lia. rewrite lookup_app_r by lia. replace (S k - length l1)%nat with (S (k - length l1)) by lia.
    destruct (k - length l1)%nat as [|[|m]] eqn:Em; cbn in *.
    + injection Hk as <-. by rewrite list_lookup_insert_eq by (by eapply lookup_lt_Some).
    + injection Hk as <-. rewrite list_lookup_insert_ne by done. rewrite Hn. cbn. by rewrite Han, Hh.
    + assert (i ≠ x) by (intros ->; apply Hx; by eapply list_elem_of_lookup_2). rewrite list_lookup_insert_ne by congruence.
      rewrite (Hl (length l1 + S m)%nat i).
      * f_equal. rewrite lookup_app_r by lia. by replace (S (length l1 + S m) - length l1)%nat with (S (S m)) by lia.
      * rewrite lookup_app_r by lia. by replace (length l1 + S m - length l1)%nat with (S m) by lia.
Qed.

Lemma holds_ext st st' i e : ev_of <$> st' !! i = ev_of <$> st !! i → holds st i e → holds st' i e.
Proof. unfold holds. destruct (st' !! i), (st !! i); cbn; congruence. Qed.

Lemma ev_of_next n (a : timed_action H) : ev_of (with_next n a) = ev_of a.
Proof. done. Qed.
End chains.

(** ** The representation *)
Section rep.
Context {D H I : Type}.
Implicit Types (s : clock D H I) (q : list (event H)).

Record qrep s (ql fl : list nat) q : Prop := {
  qr_queue : chain (action_storage s) (queuehead s) ql;
  qr_free : chain (action_storage s) (ta_freelist s) fl;
  qr_nodup : NoDup (ql ++ fl);
  qr_all : length (ql ++ fl) = MAXACTIONS;
  qr_evs : Forall2 (holds (action_storage s)) ql q
}.

(** The queue holds the events [q]. *)
Definition queue s q : Prop := ∃ ql fl, qrep s ql fl q.

(** Everything but the lists and the random amounts. *)
Record same s s' : Prop := {
  sm_secs : now_secs s' = now_secs s;
  sm_nsecs : now_nsecs s' = now_nsecs s;
  sm_ssecs : start_secs s' = start_secs s;
  sm_snsecs : start_nsecs s' = start_nsecs s;
  sm_clocks : now_clocks s' = now_clocks s;
  sm_slop : slop s' = slop s;
  sm_idle : s_icycles s' = s_icycles s;
  sm_randoms : randoms s' = randoms s;
  sm_wall : walltime s' = walltime s;
  sm_inputs : inputs s' = inputs s;
  sm_devs : devs s' = devs s
}.

Lemma geta_run s i a : action_storage s !! i = Some a → geta i s = Ok (a, s).
Proof. unfold geta. by intros ->. Qed.

Lemma puta_run s i a b :
  action_storage s !! i = Some b →
  puta i a s = Ok (tt, set_lists (<[i := a]> (action_storage s)) (ta_freelist s) (queuehead s) s).
Proof. intros Hi. unfold puta. by rewrite (bind_ok _ _ _ _ _ (geta_run _ _ _ Hi)). Qed.

Lemma queue_length s q : queue s q → (length q ≤ MAXACTIONS)%nat.
Proof. intros (ql & fl & R). rewrite <- (Forall2_length _ _ _ (qr_evs _ _ _ _ R)), <- (qr_all _ _ _ _ R), length_app. lia. Qed.

Lemma load_chain s l0 l :
  chain (action_storage s) (queuehead s) (l0 ++ l) → load (last l0) s = Ok (head l, s).
Proof.
  intros [Hq Hn]. destruct l0 as [|x l0 _] using rev_ind; [cbn; unfold gets; rewrite Hq; by destruct l|].
  rewrite last_snoc. pose proof (Hn (length l0) x) as Hx. rewrite <- app_assoc in Hx. rewrite lookup_app_r, Nat.sub_diag in Hx by lia.
  specialize (Hx eq_refl). rewrite lookup_app_r in Hx by lia. replace (S (length l0) - length l0)%nat with 1%nat in Hx by lia.
  destruct (action_storage s !! x) as [a|] eqn:Ea; [|done]. cbn in Hx. injection Hx as Hx.
  cbn [load]. rewrite (bind_ok _ _ _ _ _ (geta_run _ _ _ Ea)). unfold mret, M_ret. rewrite Hx. by destruct l.
Qed.

Lemma evs_ext (st f : list (timed_action H)) l q :
  (∀ i, i ∈ l → ev_of <$> f !! i = ev_of <$> st !! i) → Forall2 (holds st) l q → Forall2 (holds f) l q.
Proof.
  intros Hl Hf. induction Hf as [|i x l q Hi _ IH]; [by constructor|].
  constructor; [eapply holds_ext; [apply Hl; left|done]|]. apply IH. intros j Hj. apply Hl. by right.
Qed.

(** The search stops where insertion does. *)
Lemma find_pos_run s fuel at_ l0 l q :
  chain (action_storage s) (queuehead s) (l0 ++ l) → Forall2 (holds (action_storage s)) l q → (length l ≤ fuel)%nat →
  ∃ l1 l2 q1 q2, l = l1 ++ l2 ∧ q = q1 ++ q2 ∧ length l1 = length q1 ∧ Forall (fun x => ev_at x ≤ at_) q1 ∧
    (∀ x, head q2 = Some x → at_ < ev_at x) ∧ find_pos fuel at_ (last l0) s = Ok (last (l0 ++ l1), s).
Proof.
  revert l0 l q. induction fuel as [|fuel IH]; intros l0 l q Hc Hf Hl; pose proof (load_chain _ _ _ Hc) as Eload.
  - destruct l; [|cbn in Hl; lia]. inversion Hf; subst. exists [], [], [], []. split_and!; try done.
    cbn [find_pos]. rewrite (bind_ok _ _ _ _ _ Eload). cbn. by rewrite app_nil_r.
  - cbn [find_pos]. rewrite (bind_ok _ _ _ _ _ Eload). inversion Hf as [|i e l' q' Hi Hf' Eq1 Eq2]; subst; cbn [head].
    { exists [], [], [], []. split_and!; try done. by rewrite app_nil_r. }
    unfold holds in Hi. destruct (action_storage s !! i) as [a|] eqn:Ea; [|done]. cbn in Hi.
    rewrite (bind_ok _ _ _ _ _ (geta_run _ _ _ Ea)).
    assert (ta_clocksat a = ev_at e) as Ht by (unfold ev_of in Hi; destruct (ta_func a); [|done]; by injection Hi as <-).
    rewrite Ht. destruct (Z.ltb_spec at_ (ev_at e)) as [Hlt|Hge].
    + exists [], (i :: l'), [], (e :: q'). split_and!; try done; [|by rewrite app_nil_r]. by intros ? [= <-].
    + destruct (IH (l0 ++ [i]) l' q') as (l1 & l2 & q1 & q2 & -> & -> & Hlen & Hq1 & Hq2 & E);
        [by rewrite <- app_assoc|done|cbn in Hl; lia|].
      exists (i :: l1), l2, (e :: q1), q2. rewrite last_snoc in E. rewrite <- app_assoc in E.
      split_and!; try done; [cbn; lia|by constructor].
Qed.

Lemma acalloc_run s ql fl q n :
  qrep s ql (n :: fl) q →
  ∃ a, action_storage s !! n = Some a ∧ acalloc s = Ok (n, set_lists (action_storage s) (ta_next a) (queuehead s) s) ∧
    chain (action_storage s) (ta_next a) fl.
Proof.
  intros R. destruct (chain_head _ _ _ _ (qr_free _ _ _ _ R)) as (Hfr & a & Ha & Hc). exists a. split_and!; try done.
  unfold acalloc. erewrite bind_ok; [|reflexivity]. rewrite Hfr. by rewrite (bind_ok _ _ _ _ _ (geta_run _ _ _ Ha)).
Qed.

Lemma same_refl s : same s s.
Proof. by constructor. Qed.

Lemma clock_same_trans s1 s2 s3 : same s1 s2 → same s2 s3 → same s1 s3.
Proof. intros [] []. constructor; congruence. Qed.

(** Linking the new action in. *)
Lemma relink_run s l1 l2 n an q1 q2 e fl :
  chain (action_storage s) (queuehead s) (l1 ++ l2) → chain (action_storage s) (ta_freelist s) fl →
  NoDup ((l1 ++ l2) ++ n :: fl) → length ((l1 ++ l2) ++ n :: fl) = MAXACTIONS →
  action_storage s !! n = Some an → ta_next an = head l2 → ev_of an = Some e →
  Forall2 (holds (action_storage s)) l1 q1 → Forall2 (holds (action_storage s)) l2 q2 →
  ∃ s', store (last l1) (Some n) s = Ok (tt, s') ∧ same s s' ∧ qrep s' (l1 ++ n :: l2) fl (q1 ++ e :: q2).
Proof.
  intros Hc Hf Hnd Hall Hn Hnx He H1 H2. apply list.NoDup_app in Hnd as Hparts. destruct Hparts as (Hnq & Hdis & _).
  assert (NoDup (n :: l1 ++ l2)) as Hnd3.
  { apply list.NoDup_cons. split; [|done]. intros Hi. apply (Hdis n Hi). left. }
  assert ((l1 ++ n :: l2) ++ fl ≡ₚ (l1 ++ l2) ++ n :: fl) as Hperm.
  { rewrite <- !app_assoc. f_equiv. cbn. by rewrite Permutation_middle. }
  rewrite <- Hperm in Hnd, Hall. pose proof (chain_insert _ _ _ _ _ _ Hc Hnd3 Hn Hnx) as Hins.
  assert (Forall2 (holds (action_storage s)) (l1 ++ n :: l2) (q1 ++ e :: q2)) as Hevs.
  { apply Forall2_app; [done|]. constructor; [|done]. unfold holds. by rewrite Hn. }
  destruct (last l1) as [j|] eqn:Ej.
  - apply last_Some in Ej as [l0 ->]. assert (∃ aj, action_storage s !! j = Some aj) as [aj Haj].
    { destruct Hc as [_ Hc]. specialize (Hc (length l0) j). rewrite <- app_assoc, lookup_app_r, Nat.sub_diag in Hc by lia.
      specialize (Hc eq_refl). destruct (action_storage s !! j); [by eexists|done]. }
    cbn [store]. rewrite (bind_ok _ _ _ _ _ (geta_run _ _ _ Haj)), (puta_run _ _ _ _ Haj). eexists. split; [done|]. split; [done|].
    constructor; cbn; [by apply Hins| |done|done|].
    + eapply links_ext; [done|]. intros i Hi. destruct (decide (i = j)) as [->|]; [|by rewrite list_lookup_insert_ne].
      exfalso. apply (Hdis j); [|by right]. rewrite !elem_of_app, list_elem_of_singleton. auto.
    + eapply evs_ext; [|exact Hevs]. intros i Hi. destruct (decide (i = j)) as [->|]; [|by rewrite list_lookup_insert_ne].
      rewrite Haj, list_lookup_insert_eq by (by eapply lookup_lt_Some). done.
  - apply last_None in Ej as ->. eexists. split; [done|]. split; [done|]. by constructor.
Qed.

Lemma schedule_at s ql fl n q nsecs data code h :
  qrep s ql (n :: fl) q →
  ∃ s' r l1 l2, schedule_event nsecs data code h s = Ok (tt, s') ∧ 0 ≤ r ≤ Z.max 0 nsecs ∧ same s s' ∧ ql = l1 ++ l2 ∧
    let e := mkev (u64 (now_clocks s + u64 (nsecs + r) `div` NSECS_PER_CLOCK)) data code h in
    qrep s' (l1 ++ n :: l2) fl (insert_ev e q) ∧ (∀ x q', q = x :: q' → ev_at x ≤ ev_at e → l1 ≠ []).
Proof.
  intros R. unfold schedule_event. set (r := Z.max 0 (Z.min (default 0 (head (noise s))) nsecs)).
  erewrite bind_ok; [|reflexivity]. fold r. set (s0 := set_host _ _ _ _ s). cbv zeta.
  assert (qrep s0 ql (n :: fl) q) as R0 by (by destruct R).
  destruct (acalloc_run _ _ _ _ _ R0) as (a & Ha & Ea & Hfree). rewrite (bind_ok _ _ _ _ _ Ea). set (s1 := set_lists _ _ _ s0).
  rewrite (bind_ok _ _ _ _ _ (geta_run s1 n a Ha)). erewrite bind_ok; [|reflexivity]. change (now_clocks s1) with (now_clocks s).
  set (at_ := u64 _). set (e := mkev at_ data code h). rewrite (bind_ok _ _ _ _ _ (puta_run s1 n _ _ Ha)). set (s2 := set_lists _ _ _ s1).
  pose proof (qr_nodup _ _ _ _ R) as Hnd. apply list.NoDup_app in Hnd as (_ & Hdis & Hnf). apply list.NoDup_cons in Hnf as [Hnfl _].
  assert (∀ i, i ∈ ql → i ≠ n) as Hqn by (intros i Hi ->; apply (Hdis n); [done|left]).
  assert (∀ i, i ≠ n → action_storage s2 !! i = action_storage s !! i) as Hst by (intros i Hi; cbn; by rewrite list_lookup_insert_ne).
  assert (action_storage s2 !! n = Some (mkta (ta_next a) at_ data code (Some h))) as Hn2
    by (cbn; apply list_lookup_insert_eq; by eapply lookup_lt_Some).
  assert (chain (action_storage s2) (queuehead s2) ql) as Hc2 by (eapply links_ext; [apply R|]; intros i Hi; by rewrite Hst by auto).
  assert (Forall2 (holds (action_storage s2)) ql q) as Hev2 by (eapply evs_ext; [|apply R]; intros i Hi; by rewrite Hst by auto).
  assert (length ql ≤ MAXACTIONS)%nat as Hlen by (rewrite <- (qr_all _ _ _ _ R), length_app; apply Nat.le_add_r).
  destruct (find_pos_run s2 MAXACTIONS at_ [] ql q Hc2 Hev2 Hlen) as (l1 & l2 & q1 & q2 & -> & -> & Hlen12 & Hq1 & Hq2 & Ef).
  cbn [last] in Ef. change (last ([] ++ l1)) with (last l1) in Ef. rewrite (bind_ok _ _ _ _ _ Ef).
  rewrite (bind_ok _ _ _ _ _ (load_chain _ _ _ Hc2)), (bind_ok _ _ _ _ _ (geta_run _ _ _ Hn2)), (bind_ok _ _ _ _ _ (puta_run s2 n _ _ Hn2)).
  set (an := with_next _ _). set (s3 := set_lists _ _ _ s2).
  assert (∀ i, i ≠ n → action_storage s3 !! i = action_storage s2 !! i) as Hst3 by (intros i Hi; cbn; by rewrite list_lookup_insert_ne).
  apply Forall2_app_inv in Hev2 as [He1 He2]; [|done].
  destruct (relink_run s3 l1 l2 n an q1 q2 e fl) as (s' & Es & Sm & R'); try done.
  - eapply links_ext; [exact Hc2|]. intros i Hi. by rewrite Hst3 by auto.
  - eapply links_ext; [exact Hfree|]. intros i Hi. assert (i ≠ n) by congruence. rewrite Hst3, Hst by done. done.
  - apply R.
  - apply R.
  - cbn. apply list_lookup_insert_eq. rewrite length_insert. by eapply lookup_lt_Some.
  - eapply evs_ext; [|exact He1]. intros i Hi. rewrite Hst3; [done|]. apply Hqn, elem_of_app. by left.
  - eapply evs_ext; [|exact He2]. intros i Hi. rewrite Hst3; [done|]. apply Hqn, elem_of_app. by right.
  - exists s', r, l1, l2. split; [done|]. split; [unfold r; lia|]. split; [by destruct Sm; constructor|]. split; [done|].
    rewrite insert_ev_at by done. split; [done|]. intros x q' Eq Hx ->. destruct q1; [|done]. cbn in Eq. subst q2.
    exact (Z.lt_irrefl _ (Z.lt_le_trans _ _ _ (Hq2 x eq_refl) Hx)).
Qed.

(** The queue while no action runs ([None]), and while the action at [i] runs the event [x] at its head. *)
Definition headed s (i : nat) q : Prop := ∃ ql fl, qrep s (i :: ql) fl q.

Definition pending (o : option (nat * event H)) s q : Prop :=
  match o with
  | None => queue s q
  | Some (i, x) => headed s i (x :: q) ∧ ev_at x = now_clocks s
  end.

Definition room (o : option (nat * event H)) q : Prop :=
  match o with
  | None => (length q < MAXACTIONS)%nat
  | Some _ => (S (length q) < MAXACTIONS)%nat
  end.

(** Times at which nothing wraps around. *)
Definition in_time s : Prop := 0 ≤ now_clocks s < 2 ^ 62 ∧ 0 ≤ now_nsecs s < 1000000000.

(** [schedule_event] is insertion, at the time asked for or up to the same delay later. *)
Lemma schedule_run o s q nsecs data code h :
  pending o s q → room o q → in_time s → 0 ≤ nsecs < 2 ^ 43 →
  ∃ s' e, schedule_event nsecs data code h s = Ok (tt, s') ∧ same s s' ∧ pending o s' (insert_ev e q) ∧
    ev_data e = data ∧ ev_code e = code ∧ ev_func e = h ∧
    now_clocks s + nsecs `div` NSECS_PER_CLOCK ≤ ev_at e ≤ now_clocks s + (2 * nsecs) `div` NSECS_PER_CLOCK.
Proof.
  intros Hp Hr [Hnow _] Hn.
  assert (∃ ql n fl q0, qrep s ql (n :: fl) q0 ∧ match o with None => q0 = q | Some (i, x) => q0 = x :: q ∧ ∃ ql', ql = i :: ql' end)
    as (ql & n & fl & q0 & R & Ho).
  { assert (∀ ql fl q0, qrep s ql fl q0 → (length q0 < MAXACTIONS)%nat → ∃ n fl', fl = n :: fl') as Hfree.
    { intros ql fl q0 R Hlt. destruct fl as [|n fl]; [|by eexists _, _]. pose proof (qr_all _ _ _ _ R) as Hall. rewrite app_nil_r in Hall.
      rewrite <- (Forall2_length _ _ _ (qr_evs _ _ _ _ R)), Hall in Hlt. by apply Nat.lt_irrefl in Hlt. }
    destruct o as [[i x]|]; cbn in Hp, Hr.
    - destruct Hp as [(ql & fl & R) _]. destruct (Hfree _ _ _ R Hr) as (n & fl' & ->). exists (i :: ql), n, fl', (x :: q). eauto.
    - destruct Hp as (ql & fl & R). destruct (Hfree _ _ _ R Hr) as (n & fl' & ->). by exists ql, n, fl', q. }
  destruct (schedule_at s ql fl n q0 nsecs data code h R) as (s' & r & l1 & l2 & E & Hr' & Sm & Eql & R' & Hh).
  set (e := mkev _ data code h) in *.
  assert (0 ≤ (nsecs + r) `div` 40 ≤ nsecs + r) as Hdiv by (split; [apply Z.div_pos; lia|apply Z.div_le_upper_bound; lia]).
  assert (ev_at e = now_clocks s + (nsecs + r) `div` NSECS_PER_CLOCK) as Hat.
  { unfold e. cbn. unfold u64, NSECS_PER_CLOCK. rewrite (Z.mod_small (nsecs + r)) by lia. apply Z.mod_small. lia. }
  assert (now_clocks s + nsecs `div` NSECS_PER_CLOCK ≤ ev_at e ≤ now_clocks s + (2 * nsecs) `div` NSECS_PER_CLOCK) as Hb.
  { rewrite Hat. unfold NSECS_PER_CLOCK. split; apply Z.add_le_mono_l, Z.div_le_mono; lia. }
  exists s', e. split_and!; try done; try apply Hb. destruct o as [[i x]|]; cbn.
  - destruct Ho as [-> [ql' ->]]. destruct Hp as [_ Hx]. rewrite (sm_clocks _ _ Sm). split; [|done].
    assert (ev_at x ≤ ev_at e) as Hxe by (rewrite Hx, Hat; unfold NSECS_PER_CLOCK; lia).
    destruct l1 as [|j l1]; [by destruct (Hh x q eq_refl Hxe)|]. injection Eql as <- ->. cbn in R'. rewrite (proj2 (Z.ltb_ge _ _)) in R' by done. by eexists _, _.
  - subst q0. by eexists _, _.
Qed.

(** The action at the head is done with. *)
Lemma pop_run s i x q :
  headed s i (x :: q) →
  ∃ a s1 s', geta i s = Ok (a, s) ∧ set_queuehead (ta_next a) s = Ok (tt, s1) ∧ acfree i s1 = Ok (tt, s') ∧ queue s' q ∧ same s s'.
Proof.
  intros (ql & fl & R). destruct (chain_head _ _ _ _ (qr_queue _ _ _ _ R)) as (Hq & a & Ha & Hc). exists a.
  pose proof (qr_nodup _ _ _ _ R) as Hnd. cbn in Hnd. apply list.NoDup_cons in Hnd as [Hi Hnd].
  set (s1 := set_lists (action_storage s) (ta_freelist s) (ta_next a) s).
  exists s1. eexists. split; [by apply geta_run|]. split; [done|]. split.
  { unfold acfree. rewrite (bind_ok _ _ _ _ _ (geta_run s1 i a Ha)).
    erewrite bind_ok; [|reflexivity]. rewrite (bind_ok _ _ _ _ _ (puta_run s1 i _ _ Ha)). reflexivity. }
  assert (∀ j, j ≠ i → <[i := with_next (ta_freelist s1) a]> (action_storage s) !! j = action_storage s !! j) as Hne
    by (intros j Hj; by rewrite list_lookup_insert_ne).
  split; [|done]. exists ql, (i :: fl). constructor; cbn.
  - eapply links_ext; [exact Hc|]. intros j Hj. rewrite Hne; [done|]. intros ->. apply Hi, elem_of_app. by left.
  - eapply chain_cons; [apply list_lookup_insert_eq; by eapply lookup_lt_Some|]. cbn. eapply links_ext; [apply R|].
    intros j Hj. rewrite Hne; [done|]. intros ->. apply Hi, elem_of_app. by right.
  - rewrite <- Permutation_middle. by apply list.NoDup_cons.
  - rewrite <- Permutation_middle. apply R.
  - pose proof (qr_evs _ _ _ _ R) as Hevs. apply Forall2_cons_1 in Hevs as [_ Hevs]. eapply evs_ext; [|exact Hevs]. intros j Hj.
    rewrite Hne; [done|]. intros ->. apply Hi, elem_of_app. by left.
Qed.

Lemma queue_head s x q : queue s (x :: q) → ∃ i a, queuehead s = Some i ∧ headed s i (x :: q) ∧
  action_storage s !! i = Some a ∧ ev_of a = Some x.
Proof.
  intros (ql & fl & R). pose proof (qr_evs _ _ _ _ R) as Hevs. destruct ql as [|i ql]; [by apply Forall2_nil_inv_l in Hevs|].
  apply Forall2_cons_1 in Hevs as [Hi _]. unfold holds in Hi. destruct (action_storage s !! i) as [a|] eqn:Ea; [|done].
  exists i, a. destruct (chain_head _ _ _ _ (qr_queue _ _ _ _ R)) as [Hq _]. split_and!; try done. by eexists _, _.
Qed.

Lemma queue_empty s : queue s [] → queuehead s = None.
Proof. intros (ql & fl & R). pose proof (qr_evs _ _ _ _ R) as Hevs. apply Forall2_nil_inv_r in Hevs as ->. apply (qr_queue _ _ _ _ R). Qed.
End rep.

(** ** What the devices promise *)
Section laws.
Context {D H I : Type} `{Devices D H I}.
Implicit Types (s : clock D H I) (q : list (event H)).

(** Only devices and queue change. *)
Definition calm s s' : Prop := same s (set_devs (devs s) s').

(** Every event is due within this many clocks of being scheduled: 2^32 microseconds, and as much again. *)
Definition HORIZON : Z := 2 ^ 38.

(** At most one new event; one that is due at once has a rank below [r]. *)
Definition added (rank : event H → nat) (now : Z) (r : nat) q q' : Prop :=
  q' = q ∨ ∃ e, q' = insert_ev e q ∧ now ≤ ev_at e ≤ now + HORIZON ∧ (ev_at e = now → (rank e < r)%nat).

(** [P now d q]: the devices [d] are in order with the events [q] pending. *)
Class EventInv (rank : event H → nat) (maxrank : nat) (accepts : D → I → Prop) (P : Z → D → list (event H) → Prop) : Prop := {
  ei_rank e : (rank e ≤ maxrank)%nat;
  ei_room now d q : P now d q → (length q < MAXACTIONS)%nat;
  ei_later now now' d q : P now d q → now ≤ now' → P now' d q;
  ei_call s i x q :
    headed s i (x :: q) → ev_at x = now_clocks s → in_time s → P (now_clocks s) (devs s) (x :: q) →
    wp (call_func (ev_func x) (ev_data x) (ev_code x)) (fun _ s' =>
      calm s s' ∧ (∀ k, accepts (devs s) k → accepts (devs s') k) ∧
      ∃ q', headed s' i (x :: q') ∧ added rank (now_clocks s) (rank x) q q' ∧ P (now_clocks s) (devs s') q') s;
  ei_receive s k q :
    queue s q → in_time s → P (now_clocks s) (devs s) q → accepts (devs s) k →
    wp (receive k) (fun _ s' =>
      calm s s' ∧ (∀ k, accepts (devs s) k → accepts (devs s') k) ∧
      ∃ q', queue s' q' ∧ added rank (now_clocks s) 0 q q' ∧ P (now_clocks s) (devs s') q') s
}.

Context (rank : event H → nat) (maxrank : nat) (accepts : D → I → Prop) (P : Z → D → list (event H) → Prop).
Context `{EI : !EventInv rank maxrank accepts P}.

(** The clock between two operations: no event is overdue. *)
Record good s q : Prop := {
  gd_queue : queue s q;
  gd_sorted : Sorted by_time q;
  gd_due : Forall (fun e => now_clocks s ≤ ev_at e ≤ now_clocks s + HORIZON) q;
  gd_inv : P (now_clocks s) (devs s) q;
  gd_now : 0 ≤ now_clocks s;
  gd_secs : 0 ≤ now_secs s < 2 ^ 32;
  gd_nsecs : 0 ≤ now_nsecs s < 1000000000;
  gd_wall : Forall (fun '(_, usec) => 0 ≤ usec < 1000000) (walltime s);
  gd_inputs : Forall (Forall (accepts (devs s))) (inputs s)
}.

(** The work there is at this clock. *)
Definition due_work (now : Z) (e : event H) : nat := if ev_at e =? now then S (rank e) else 0.
Definition work (now : Z) q : nat := sum_list_with (due_work now) q.

Lemma work_insert now e q : work now (insert_ev e q) = (due_work now e + work now q)%nat.
Proof. unfold work. induction q as [|x q IH]; cbn; [done|]. destruct (_ <? _); cbn; lia. Qed.

Lemma work_bound now q : (work now q ≤ length q * S maxrank)%nat.
Proof.
  unfold work. induction q as [|x q IH]; cbn [sum_list_with length]; [lia|]. unfold due_work at 1.
  pose proof (ei_rank (EventInv := EI) x). destruct (_ =? _); lia.
Qed.

Lemma added_work now x q q' : ev_at x = now → added rank now (rank x) q q' → (work now q' < work now (x :: q))%nat.
Proof.
  intros Hx [->|(e & -> & _ & He)]; unfold work at 2; cbn [sum_list_with]; unfold due_work at 1; rewrite (proj2 (Z.eqb_eq _ _)) by done;
    fold (work now q); [lia|]. rewrite work_insert. unfold due_work. destruct (Z.eqb_spec (ev_at e) now); [specialize (He ltac:(done)); lia|lia].
Qed.

Lemma added_sorted now r q q' : added rank now r q q' → Sorted by_time q → Sorted by_time q'.
Proof. intros [->|(e & -> & _)] Hs; [done|]. by apply insert_ev_sorted. Qed.

Lemma added_due now r q q' :
  added rank now r q q' → Forall (fun e => now ≤ ev_at e ≤ now + HORIZON) q → Forall (fun e => now ≤ ev_at e ≤ now + HORIZON) q'.
Proof.
  intros [->|(e & -> & He & _)] Hf; [done|]. rewrite list.Forall_forall in *. intros x Hx.
  apply elem_of_insert_ev in Hx as [->|Hx]; [done|by apply Hf].
Qed.

(** Devices and queue change, the clock stays. *)
Lemma good_next s s' q q' r :
  calm s s' → queue s' q' → Sorted by_time q → Forall (fun e => now_clocks s ≤ ev_at e ≤ now_clocks s + HORIZON) q →
  added rank (now_clocks s) r q q' → P (now_clocks s) (devs s') q' → 0 ≤ now_clocks s → 0 ≤ now_secs s < 2 ^ 32 → 0 ≤ now_nsecs s < 1000000000 →
  Forall (fun '(_, usec) => 0 ≤ usec < 1000000) (walltime s) → Forall (Forall (accepts (devs s))) (inputs s) → (∀ k, accepts (devs s) k → accepts (devs s') k) → good s' q'.
Proof.
  intros [S0 S1 _ _ S2 _ _ _ S4 S3 _] Q Hs Hd A Hp Hn Hsc Hns Hw Hi Ha. cbn in *. constructor; rewrite ?S0, ?S1, ?S2, ?S3, ?S4; try done.
  - by eapply added_sorted.
  - by eapply added_due.
  - eapply list.Forall_impl; [exact Hi|]. intros l Hl. by eapply list.Forall_impl.
Qed.

Lemma clock_good_step s s' q q' r :
  good s q → calm s s' → queue s' q' → added rank (now_clocks s) r q q' → P (now_clocks s) (devs s') q' →
  (∀ k, accepts (devs s) k → accepts (devs s') k) → good s' q'.
Proof. intros G Cm Q A Hp Ha. apply (good_next s s' q q' r); try done; apply G. Qed.

Lemma same_calm s s' : same s s' → calm s s'.
Proof. intros []. by constructor. Qed.

Lemma calm_trans s1 s2 s3 : calm s1 s2 → calm s2 s3 → calm s1 s3.
Proof. intros [] []. cbn in *. constructor; cbn; congruence. Qed.

Lemma calm_refl s : calm s s.
Proof. by constructor. Qed.

Lemma check_queue_idle fuel s q :
  queue s q → Forall (fun e => now_clocks s < ev_at e) q → check_queue fuel s = Ok (tt, s).
Proof.
  intros Q Hq. destruct q as [|x q].
  { destruct fuel; cbn [check_queue]; erewrite bind_ok by reflexivity; by rewrite (queue_empty _ Q). }
  destruct (queue_head _ _ _ Q) as (i & a & Hh & _ & Ha & Hx). apply Forall_cons in Hq as [Hx' _].
  assert (ta_clocksat a = ev_at x) as Et by (unfold ev_of in Hx; destruct (ta_func a) as [f|]; [|done]; by injection Hx as <-).
  destruct fuel; cbn [check_queue]; erewrite bind_ok by reflexivity; rewrite Hh, (bind_ok _ _ _ _ _ (geta_run _ _ _ Ha));
    erewrite bind_ok by reflexivity; rewrite Et, (proj2 (Z.eqb_neq _ _)) by lia; done.
Qed.

Lemma check_queue_due fuel s x q :
  good s (x :: q) → ev_at x = now_clocks s → now_clocks s < 2 ^ 62 →
  ∃ s' q', check_queue (S fuel) s = check_queue fuel s' ∧ calm s s' ∧ good s' q' ∧ added rank (now_clocks s) (rank x) q q'.
Proof.
  intros G Hd Hnow. destruct (queue_head _ _ _ (gd_queue _ _ G)) as (i & a & Hq & Hh & Ha & Hx).
  assert (∃ f, ta_func a = Some f ∧ x = mkev (ta_clocksat a) (ta_data a) (ta_code a) f) as (f & Hf & Ex)
    by (unfold ev_of in Hx; destruct (ta_func a) as [f|]; [|done]; exists f; split; [done|]; by injection Hx as <-).
  cbn [check_queue]. erewrite bind_ok by reflexivity. rewrite Hq, (bind_ok _ _ _ _ _ (geta_run _ _ _ Ha)). erewrite bind_ok by reflexivity.
  assert (ta_clocksat a = now_clocks s) as -> by (by rewrite <- Hd, Ex). rewrite Z.eqb_refl, Hf. cbn [negb]. erewrite bind_ok by reflexivity.
  assert (in_time s) as Ht by (split; [split; [apply G|done]|apply G]).
  destruct (proj1 (wp_run _ _ _) (ei_call (EventInv := EI) s i x q Hh Hd Ht (gd_inv _ _ G))) as ([] & s1 & E & Cm & Ac & q' & Hh' & A & Hp).
  rewrite Ex in E. cbn [ev_func ev_data ev_code] in E. rewrite (bind_ok _ _ _ _ _ E).
  destruct (pop_run _ _ _ _ Hh') as (b & s2 & s3 & Eg & E2 & E3 & Q3 & Sm).
  rewrite (bind_ok _ _ _ _ _ Eg), (bind_ok _ _ _ _ _ E2), (bind_ok _ _ _ _ _ E3).
  assert (calm s s3) as Cm3 by (eapply calm_trans; [exact Cm|by apply same_calm]).
  exists s3, q'. split_and!; try done. pose proof (sm_devs _ _ Sm) as Ed. pose proof (gd_sorted _ _ G) as Gs. pose proof (gd_due _ _ G) as Gd.
  apply (good_next s s3 q q' (rank x)); rewrite ?Ed; try done; try apply G.
  - by inversion Gs.
  - by apply Forall_cons in Gd as [_ ?].
Qed.

Lemma due_or_not s q : good s q → Forall (fun e => now_clocks s < ev_at e) q ∨ ∃ x q', q = x :: q' ∧ ev_at x = now_clocks s.
Proof.
  intros G. destruct q as [|x q]; [by left|]. pose proof (gd_due _ _ G) as Hd. rewrite list.Forall_forall in Hd.
  pose proof (Hd x (list_elem_of_here _ _)) as Hx. destruct (decide (ev_at x = now_clocks s)); [right; by exists x, q|left].
  apply list.Forall_forall. intros y [->|Hy]%elem_of_cons; [lia|]. pose proof (sorted_head_le _ _ _ (gd_sorted _ _ G) Hy). lia.
Qed.

(** [check_queue] runs the events that are due, those they add included, and nothing else. *)
Lemma check_queue_run fuel s q :
  good s q → now_clocks s < 2 ^ 62 → (work (now_clocks s) q ≤ fuel)%nat →
  ∃ s' q', check_queue fuel s = Ok (tt, s') ∧ calm s s' ∧ good s' q' ∧ Forall (fun e => now_clocks s < ev_at e) q'.
Proof.
  revert s q. induction fuel as [|fuel IH]; intros s q G Hnow Hw; destruct (due_or_not _ _ G) as [Hq|(x & q0 & -> & Hx)].
  1, 3: exists s, q; split_and!; [by eapply check_queue_idle; [apply G|]|apply calm_refl|done|done].
  - exfalso. unfold work in Hw. cbn [sum_list_with] in Hw. unfold due_work at 1 in Hw. rewrite (proj2 (Z.eqb_eq _ _)) in Hw by done. lia.
  - destruct (check_queue_due fuel s x q0 G Hx Hnow) as (s1 & q1 & E & Cm & G1 & A). pose proof (sm_clocks _ _ Cm) as Ec. cbn in Ec.
    destruct (IH s1 q1 G1) as (s2 & q2 & E2 & Cm2 & G2 & Hq2); [by rewrite Ec|rewrite Ec; pose proof (added_work _ _ _ _ Hx A); lia|].
    exists s2, q2. rewrite E, Ec in *. split_and!; try done. by eapply calm_trans.
Qed.

(** ** Time passes *)
Definition time s : Z := now_secs s * 1000000000 + now_nsecs s.

Lemma queue_lists s s' q :
  action_storage s' = action_storage s → ta_freelist s' = ta_freelist s → queuehead s' = queuehead s → queue s q → queue s' q.
Proof. intros E1 E2 E3 (ql & fl & []). exists ql, fl. constructor; by rewrite ?E1, ?E2, ?E3. Qed.

Lemma good_time s q secs nsecs : good s q → 0 ≤ secs < 2 ^ 32 → 0 ≤ nsecs < 1000000000 → good (set_time secs nsecs s) q.
Proof. intros [] Hs Hn. constructor; try done. by apply (queue_lists s). Qed.

Lemma good_host s q no ra wa ip :
  good s q → Forall (fun '(_, usec) => 0 ≤ usec < 1000000) wa → Forall (Forall (accepts (devs s))) ip → good (set_host no ra wa ip s) q.
Proof. intros [] Hs Hn. constructor; try done. by apply (queue_lists s). Qed.

Lemma good_idle s q sl ic : good s q → good (set_idle sl ic s) q.
Proof. intros []. constructor; try done. by apply (queue_lists s). Qed.

(** The clock goes forward, not past any event. *)
Lemma good_clocks s q n :
  good s q → now_clocks s ≤ n → Forall (fun e => n ≤ ev_at e) q → good (set_clocks n s) q.
Proof.
  intros [] Hn Hq. constructor; try done; cbn.
  - by apply (queue_lists s).
  - rewrite list.Forall_forall in *. intros e He. specialize (Hq e He). specialize (gd_due0 e He). lia.
  - by eapply (ei_later (EventInv := EI)).
  - lia.
Qed.

Lemma add_nsecs_good s q n : good s q → 0 ≤ n < 1000000000 →
  good (add_nsecs n s) q ∧ now_clocks (add_nsecs n s) = now_clocks s ∧ devs (add_nsecs n s) = devs s ∧
  time (add_nsecs n s) = (time s + n) `mod` (2 ^ 32 * 1000000000).
Proof.
  intros G Hn. pose proof (gd_nsecs _ _ G). pose proof (gd_secs _ _ G). unfold add_nsecs. rewrite u32_small by lia.
  destruct (Z.leb_spec 1000000000 (now_nsecs s + n)).
  - split_and!; [|done|done|].
    + apply good_time; [done| |lia]. apply Z.mod_pos_bound. lia.
    + unfold time. cbn. unfold u32. destruct (decide (now_secs s + 1 = 2 ^ 32)) as [Hs|].
      * rewrite Hs, Z_mod_same_full. apply (Z.mod_unique _ _ 1); lia.
      * rewrite (Z.mod_small (now_secs s + 1)) by lia. symmetry. rewrite Z.mod_small by lia. lia.
  - split_and!; [|done|done|].
    + apply good_time; [done|done|lia].
    + unfold time. cbn. rewrite Z.mod_small by lia. lia.
Qed.

(** Enough for everything that can be due at one clock. *)
Definition enough : nat := (MAXACTIONS * S maxrank)%nat.

Lemma enough_work s q : good s q → (work (now_clocks s) q ≤ enough)%nat.
Proof.
  intros G. pose proof (work_bound (now_clocks s) q) as Hw. pose proof (ei_room (EventInv := EI) _ _ _ (gd_inv _ _ G)) as Hr.
  unfold enough. pose proof (Nat.mul_le_mono_r _ _ (S maxrank) (Nat.lt_le_incl _ _ Hr)). lia.
Qed.

Lemma advance_run fuel s q n :
  good s q → now_clocks s < 2 ^ 62 → (enough ≤ fuel)%nat → 0 ≤ n < 1000000000 →
  ∃ s' q', clock_advance fuel n s = Ok (tt, s') ∧ good s' q' ∧ now_clocks s' = now_clocks s ∧
    Forall (fun e => now_clocks s < ev_at e) q' ∧ time s' = (time s + n) `mod` (2 ^ 32 * 1000000000).
Proof.
  intros G Hnow Hf Hn. destruct (add_nsecs_good s q n G Hn) as (G1 & Ec & _ & Et). unfold clock_advance.
  erewrite bind_ok by reflexivity.
  destruct (check_queue_run fuel _ q G1) as (s' & q' & E & Cm & G' & Hq); [by rewrite Ec|pose proof (enough_work _ _ G1); lia|].
  exists s', q'. rewrite Ec in Hq. pose proof (sm_clocks _ _ Cm) as E1. cbn in E1. split_and!; try done; [congruence|].
  unfold time in *. pose proof (sm_secs _ _ Cm) as E2. pose proof (sm_nsecs _ _ Cm) as E3. cbn in E2, E3. by rewrite E2, E3.
Qed.

Lemma clock_tick_run fuel s q :
  good s q → now_clocks s < 2 ^ 62 → (enough ≤ fuel)%nat →
  ∃ s' q', clock_tick fuel s = Ok (tt, s') ∧ good s' q' ∧ now_clocks s' = now_clocks s + 1 ∧
    time s' = (time s + NSECS_PER_CLOCK) `mod` (2 ^ 32 * 1000000000).
Proof.
  intros G Hnow Hf. destruct (advance_run fuel s q NSECS_PER_CLOCK G Hnow Hf) as (s1 & q' & E & G1 & Ec & Hq & Et); [done|].
  unfold clock_tick. rewrite (bind_ok _ _ _ _ _ E). eexists _, q'. split; [reflexivity|].
  assert (u64 (now_clocks s1 + 1) = now_clocks s + 1) as Eu by (rewrite Ec; apply Z.mod_small; pose proof (gd_now _ _ G); lia).
  rewrite Eu. split; [|done]. apply good_clocks; [done|lia|]. eapply list.Forall_impl; [exact Hq|]. cbn. lia.
Qed.

Lemma receive_all_run l s q :
  good s q → now_clocks s < 2 ^ 62 → Forall (accepts (devs s)) l →
  ∃ s' q', receive_all l s = Ok (tt, s') ∧ calm s s' ∧ good s' q' ∧
    (Forall (fun e => now_clocks s < ev_at e) q → Forall (fun e => now_clocks s < ev_at e) q').
Proof.
  revert s q. induction l as [|k l IH]; intros s q G Hnow Hl.
  { exists s, q. by split_and!. }
  apply Forall_cons in Hl as [Hk Hl]. assert (in_time s) as Ht by (split; [split; [apply G|done]|apply G]).
  destruct (proj1 (wp_run _ _ _) (ei_receive (EventInv := EI) s k q (gd_queue _ _ G) Ht (gd_inv _ _ G) Hk)) as ([] & s1 & E & Cm & Ac & q1 & Q1 & A & Hp).
  pose proof (sm_clocks _ _ Cm) as Ec. cbn in Ec.
  destruct (IH s1 q1) as (s2 & q2 & E2 & Cm2 & G2 & Hq2).
  - by eapply clock_good_step.
  - by rewrite Ec.
  - by eapply list.Forall_impl.
  - cbn [receive_all]. rewrite (bind_ok _ _ _ _ _ E). exists s2, q2. rewrite Ec in Hq2. split_and!; try done; [by eapply calm_trans|].
    intros Hq. apply Hq2. destruct A as [->|(e & -> & He & Hne)]; [done|]. rewrite list.Forall_forall in *. intros x [->|Hx]%elem_of_insert_ev; [|by apply Hq].
    destruct (decide (ev_at e = now_clocks s)) as [Hn|]; [specialize (Hne Hn); lia|lia].
Qed.

Lemma tryselect_run b secs nsecs s q :
  good s q → now_clocks s < 2 ^ 62 → b = true ∨ inputs s ≠ [] →
  ∃ s' q', tryselect b secs nsecs s = Ok (tt, s') ∧ now_clocks s' = now_clocks s ∧ time s' = time s ∧ good s' q' ∧
    (Forall (fun e => now_clocks s < ev_at e) q → Forall (fun e => now_clocks s < ev_at e) q').
Proof.
  intros G Hnow Hb. unfold tryselect. destruct (inputs s) as [|l ls] eqn:Ei.
  { exists s, q. destruct Hb as [->|]; [|done]. done. }
  pose proof (gd_inputs _ _ G) as Hi. rewrite Ei in Hi. apply Forall_cons in Hi as [Hl Hls].
  destruct (receive_all_run l (set_host (noise s) (randoms s) (walltime s) ls s) q) as (s' & q' & E & Cm & G' & Hq'); try done.
  { apply good_host; [done|apply G|done]. }
  exists s', q'. split_and!; try done; [apply (sm_clocks _ _ Cm)|]. unfold time. f_equal; [f_equal; apply (sm_secs _ _ Cm)|apply (sm_nsecs _ _ Cm)].
Qed.

Abbreviation SPAN := (2 ^ 32 * 1000000000).

Lemma advance_secs_good s q secs :
  good s q → let s' := set_time (u32 (now_secs s + secs)) (now_nsecs s) s in
  good s' q ∧ time s' = (time s + secs * 1000000000) `mod` SPAN.
Proof.
  intros G s'. split. { apply good_time; [done| |apply G]. apply Z.mod_pos_bound. lia. }
  pose proof (gd_nsecs _ _ G). unfold time, s'. cbn. unfold u32. pose proof (Z.div_mod (now_secs s + secs) (2 ^ 32) ltac:(lia)).
  pose proof (Z.mod_pos_bound (now_secs s + secs) (2 ^ 32) ltac:(lia)).
  apply (Z.mod_unique _ _ ((now_secs s + secs) `div` 2 ^ 32)); lia.
Qed.

Lemma report_idle_run s q secs nsecs : good s q →
  ∃ s', report_idletime secs nsecs s = Ok (tt, s') ∧ good s' q ∧ now_clocks s' = now_clocks s ∧ time s' = time s ∧
    inputs s' = inputs s ∧ queuehead s' = queuehead s.
Proof. intros G. eexists. split; [reflexivity|]. split; [by apply good_idle|done]. Qed.

Lemma head_not_late s q :
  good s q → (match queuehead s with
              | None => mret tt
              | Some ta =>
                  let* a := geta ta in
                  let* now := gets now_clocks in
                  if ta_clocksat a <? now then panic else mret tt
              end) s = Ok (tt, s).
Proof.
  intros G. destruct q as [|x q]; [by rewrite (queue_empty _ (gd_queue _ _ G))|].
  destruct (queue_head _ _ _ (gd_queue _ _ G)) as (i & a & -> & _ & Ha & Hx). rewrite (bind_ok _ _ _ _ _ (geta_run _ _ _ Ha)).
  erewrite bind_ok by reflexivity.
  assert (ta_clocksat a = ev_at x) as -> by (unfold ev_of in Hx; destruct (ta_func a) as [f|]; [|done]; by injection Hx as <-).
  pose proof (gd_due _ _ G) as Hd. apply Forall_cons in Hd as [Hd _]. by rewrite (proj2 (Z.ltb_ge _ _)) by lia.
Qed.

Lemma walltime_good s q : good s q → ∃ sec usec s', gettimeofday s = Ok ((sec, usec), s') ∧ good s' q ∧ 0 ≤ usec < 1000000 ∧
  now_clocks s' = now_clocks s ∧ time s' = time s ∧ inputs s' = inputs s.
Proof.
  intros G. pose proof (gd_wall _ _ G) as Hw. unfold gettimeofday. destruct (walltime s) as [|[sec usec] wa] eqn:E; cbn.
  - exists 0, 0. eexists. split; [reflexivity|]. split_and!; try done. apply good_host; [done|done|apply G].
  - apply Forall_cons in Hw as [Hu Hwa]. exists sec, usec. eexists. split; [reflexivity|]. split_and!; try done; try lia.
    apply good_host; [done|done|apply G].
Qed.

Lemma dowait_run fuel secs nsecs clocks s q :
  good s q → 0 ≤ clocks → now_clocks s + clocks < 2 ^ 62 → Forall (fun e => now_clocks s + clocks ≤ ev_at e) q → 0 ≤ nsecs < 1000000000 →
  (enough ≤ fuel)%nat →
  ∃ s' q', clock_dowait fuel secs nsecs clocks s = Ok (tt, s') ∧ good s' q' ∧ now_clocks s' = now_clocks s + clocks ∧
    Forall (fun e => now_clocks s + clocks < ev_at e) q' ∧ time s' = (time s + (secs * 1000000000 + nsecs)) `mod` SPAN.
Proof.
  intros G Hc Hnow Hq Hn Hf. pose proof (gd_now _ _ G). unfold clock_dowait. erewrite bind_ok by reflexivity.
  assert (u64 (now_clocks s + clocks) = now_clocks s + clocks) as -> by (apply Z.mod_small; lia).
  set (n := now_clocks s + clocks) in *. assert (good (set_clocks n s) q) as G1 by (apply good_clocks; [done|lia|done]).
  destruct (advance_secs_good _ _ secs G1) as [G2 E2]. unfold clock_advance_secs. erewrite bind_ok by reflexivity.
  set (s2 := set_time _ _ _) in *. destruct (advance_run fuel s2 q nsecs G2) as (s3 & q3 & E3 & G3 & Ec3 & Hq3 & Et3); [done..|].
  rewrite (bind_ok _ _ _ _ _ E3). change (now_clocks s2) with n in *.
  destruct (report_idle_run s3 q3 secs nsecs G3) as (s4 & E4 & G4 & Ec4 & Et4 & Ei4 & Eq4). rewrite (bind_ok _ _ _ _ _ E4).
  erewrite bind_ok by reflexivity. rewrite (bind_ok _ _ _ _ _ (head_not_late _ _ G4)).
  destruct (walltime_good _ _ G4) as (sec & usec & s5 & E5 & G5 & _ & Ec5 & Et5 & _). rewrite (bind_ok _ _ _ _ _ E5). cbv beta iota.
  erewrite bind_ok by reflexivity. cbv beta iota zeta.
  destruct (tryselect_run true 0 0 s5 q3 G5) as (s' & q' & E & Ec & Et & G' & Hq'); [congruence|by left|].
  exists s', q'. rewrite Ec5, Ec4, Ec3 in *. split_and!; try done; try by apply Hq'.
  - destruct (i32 _ <? 0); case_match; exact E.
  - rewrite Et, Et5, Et4, Et3, E2. change (time (set_clocks n s)) with (time s). rewrite Z.add_mod_idemp_l by lia. f_equal. lia.
Qed.

(** Waiting for the first event takes exactly the time until it is due, and runs it. *)
Lemma wait_event_run fuel s x q ta :
  good s (x :: q) → ev_at x < 2 ^ 62 → (enough ≤ fuel)%nat → queuehead s = Some ta →
  ∃ s' q', wait_event fuel ta s = Ok (tt, s') ∧ good s' q' ∧ now_clocks s' = ev_at x ∧ Forall (fun e => ev_at x < ev_at e) q' ∧
    time s' = (time s + (ev_at x - now_clocks s) * NSECS_PER_CLOCK) `mod` SPAN.
Proof.
  intros G Hx Hf Hta. destruct (queue_head _ _ _ (gd_queue _ _ G)) as (i & a & Hq & _ & Ha & Hev).
  assert (i = ta) as -> by congruence. pose proof (gd_now _ _ G). pose proof (gd_due _ _ G) as Hd. apply Forall_cons in Hd as [Hd Hdq].
  unfold wait_event. rewrite (bind_ok _ _ _ _ _ (geta_run _ _ _ Ha)). erewrite bind_ok by reflexivity.
  assert (ta_clocksat a = ev_at x) as -> by (unfold ev_of in Hev; destruct (ta_func a) as [f|]; [|done]; by injection Hev as <-).
  set (c := ev_at x - now_clocks s) in *. assert (0 ≤ c ≤ HORIZON) as Hc by lia. unfold HORIZON in Hc.
  rewrite (u64_small c) by lia. cbv zeta. unfold NSECS_PER_CLOCK in *. rewrite (u64_small (c * 40)) by lia.
  assert (0 ≤ (c * 40) `div` 1000000000 < 2 ^ 32) as Hdiv by (split; [apply Z.div_pos; lia|apply Z.div_lt_upper_bound; lia]).
  rewrite (u32_small ((c * 40) `div` 1000000000)) by lia. pose proof (Z.mod_pos_bound (c * 40) 1000000000 ltac:(lia)) as Hm.
  destruct (dowait_run fuel ((c * 40) `div` 1000000000) ((c * 40) `mod` 1000000000) c s (x :: q) G) as (s' & q' & E & G' & Ec & Hq' & Et); try (done || lia).
  - apply list.Forall_forall. intros y [->|Hy]%elem_of_cons; [lia|]. pose proof (sorted_head_le _ _ _ (gd_sorted _ _ G) Hy). lia.
  - exists s', q'. replace (now_clocks s + c) with (ev_at x) in * by lia. split_and!; try done. rewrite Et. f_equal.
    pose proof (Z.div_mod (c * 40) 1000000000 ltac:(lia)). lia.
Qed.

(** ** Waiting for an interrupt *)
Lemma wait_step qf fuel s :
  bus_interrupts (devs s) = 0 →
  clock_waitirq qf (S fuel) s = (let* _ := match queuehead s with Some ta => wait_event qf ta | None => wait_input qf end in
                                 clock_waitirq qf fuel) s.
Proof. intros Hi. cbn [clock_waitirq]. erewrite bind_ok by reflexivity. rewrite Hi. cbn. by erewrite bind_ok by reflexivity. Qed.

Lemma wait_done qf fuel s : bus_interrupts (devs s) ≠ 0 → clock_waitirq qf fuel s = Ok (tt, s).
Proof. intros Hi. destruct fuel; cbn [clock_waitirq]; erewrite bind_ok by reflexivity; by rewrite (proj2 (Z.eqb_neq _ _)) by done. Qed.

(** While there is no interrupt, some event is due by [T]. *)
Definition busy_until (T : Z) : Prop := ∀ now d q, P now d q → bus_interrupts d = 0 → ∃ e, e ∈ q ∧ ev_at e ≤ T.

Lemma wait_first T qf fuel s q :
  busy_until T → T < 2 ^ 62 → good s q → (enough ≤ qf)%nat → bus_interrupts (devs s) = 0 →
  ∃ x q0 s' q', q = x :: q0 ∧ ev_at x ≤ T ∧ clock_waitirq qf (S fuel) s = clock_waitirq qf fuel s' ∧ good s' q' ∧ now_clocks s' = ev_at x ∧
    Forall (fun e => now_clocks s' < ev_at e) q'.
Proof.
  intros HT HT62 G Hf Hi. destruct (HT _ _ _ (gd_inv _ _ G) Hi) as (e & He & HeT). destruct q as [|x q]; [by apply not_elem_of_nil in He|].
  assert (ev_at x ≤ T) as HxT by (apply elem_of_cons in He as [->|He]; [done|]; pose proof (sorted_head_le _ _ _ (gd_sorted _ _ G) He); lia).
  destruct (queue_head _ _ _ (gd_queue _ _ G)) as (i & a & Hq & _).
  destruct (wait_event_run qf s x q i G) as (s' & q' & E & G' & Ec & Hq' & _); [lia|done|done|].
  exists x, q, s', q'. rewrite wait_step, Hq by done. rewrite (bind_ok _ _ _ _ _ E), Ec. done.
Qed.

Lemma waitirq_run T n qf s q fuel :
  busy_until T → T < 2 ^ 62 → (enough ≤ qf)%nat → good s q → Forall (fun e => now_clocks s < ev_at e) q → T - now_clocks s ≤ Z.of_nat n → (n < fuel)%nat →
  ∃ s' q', clock_waitirq qf fuel s = Ok (tt, s') ∧ good s' q' ∧ bus_interrupts (devs s') ≠ 0.
Proof.
  intros HT HT62 Hqf. revert s q fuel. induction n as [|n IH]; intros s q fuel G Hq Hn Hf;
    (destruct (decide (bus_interrupts (devs s) = 0)) as [Hi|Hi]; [|exists s, q; split; [by apply wait_done|done]]);
    (destruct fuel as [|fuel]; [lia|]);
    destruct (wait_first T qf fuel s q HT HT62 G Hqf Hi) as (x & q0 & s' & q' & -> & HxT & E & G' & Ec & Hq');
    apply Forall_cons in Hq as [Hx _]; [lia|].
  rewrite E. apply (IH s' q'); [done|done|lia|lia].
Qed.

(** The wait ends with an interrupt when there is an event before every time without one. *)
Lemma waitirq_returns T qf s q :
  busy_until T → T < 2 ^ 62 → good s q → (enough ≤ qf)%nat →
  ∃ n, ∀ fuel, (n ≤ fuel)%nat → ∃ s' q', clock_waitirq qf fuel s = Ok (tt, s') ∧ good s' q' ∧ bus_interrupts (devs s') ≠ 0.
Proof.
  intros HT HT62 G Hqf. exists (S (S (Z.to_nat (T - now_clocks s)))). intros fuel Hf.
  destruct (decide (bus_interrupts (devs s) = 0)) as [Hi|Hi]; [|exists s, q; split; [by apply wait_done|done]].
  destruct fuel as [|fuel]; [lia|].
  destruct (wait_first T qf fuel s q HT HT62 G Hqf Hi) as (x & q0 & s' & q' & -> & HxT & E & G' & Ec & Hq').
  pose proof (gd_due _ _ G) as Hd. apply Forall_cons in Hd as [Hd _]. rewrite E.
  apply (waitirq_run T (Z.to_nat (T - now_clocks s)) qf s' q'); [done..|lia|lia].
Qed.

(** With nothing scheduled, the wait is for input. *)
Lemma wait_input_run qf s :
  good s [] → now_clocks s < 2 ^ 62 → (enough ≤ qf)%nat → inputs s ≠ [] →
  ∃ s' q', wait_input qf s = Ok (tt, s') ∧ good s' q' ∧ now_clocks s' = now_clocks s.
Proof.
  intros G Hnow Hqf Hi. unfold wait_input.
  destruct (walltime_good _ _ G) as (sec1 & usec1 & s1 & E1 & G1 & Hu1 & Ec1 & _ & Ei1). rewrite (bind_ok _ _ _ _ _ E1). cbv beta iota.
  destruct (tryselect_run false 0 0 s1 [] G1) as (s2 & q2 & E2 & Ec2 & _ & G2 & _); [by rewrite Ec1|right; by rewrite Ei1|].
  rewrite (bind_ok _ _ _ _ _ E2). destruct (walltime_good _ _ G2) as (sec2 & usec2 & s3 & E3 & G3 & Hu3 & Ec3 & _ & _).
  rewrite (bind_ok _ _ _ _ _ E3). cbv beta iota zeta. destruct (advance_secs_good _ _ (u32 (sec2 - sec1)) G3) as [G4 _].
  unfold clock_advance_secs. erewrite bind_ok by reflexivity. set (s4 := set_time _ _ _) in *.
  set (usec := (if usec2 <? usec1 then usec2 + 1000000 else usec2) - usec1).
  assert (0 ≤ usec < 1000000) as Hu by (unfold usec; destruct (Z.ltb_spec usec2 usec1); lia).
  rewrite (u32_small (usec * 1000)) by lia.
  destruct (advance_run qf s4 q2 (usec * 1000) G4) as (s5 & q5 & E5 & G5 & Ec5 & _); [cbn; congruence|done|lia|].
  rewrite (bind_ok _ _ _ _ _ E5). destruct (report_idle_run s5 q5 (u32 (sec2 - sec1)) (usec * 1000) G5) as (s6 & E6 & G6 & Ec6 & _).
  exists s6, q5. split_and!; [done|done|]. cbn in Ec5. congruence.
Qed.

(** A wait never fails: it ends with an interrupt or goes on, for input or for the next event. *)
Lemma waitirq_safe qf fuel s q :
  good s q → now_clocks s + Z.of_nat fuel * HORIZON < 2 ^ 62 → (enough ≤ qf)%nat →
  match clock_waitirq qf fuel s with
  | Ok (_, s') => bus_interrupts (devs s') ≠ 0 ∧ ∃ q', good s' q'
  | Spin => True
  | _ => False
  end.
Proof.
  revert s q. induction fuel as [|fuel IH]; intros s q G Hnow Hqf;
    (destruct (decide (bus_interrupts (devs s) = 0)) as [Hi|Hi]; [|rewrite wait_done by done; split; [done|]; by exists q]).
  { cbn [clock_waitirq]. unfold mbind, M_bind, gets. by rewrite Hi. }
  rewrite wait_step by done. unfold HORIZON in *. destruct q as [|x q].
  - rewrite (queue_empty _ (gd_queue _ _ G)). destruct (decide (inputs s = [])) as [Hin|Hin].
    { destruct (walltime_good _ _ G) as (sec & usec & s1 & E1 & _ & _ & _ & _ & Ei). unfold wait_input, mbind, M_bind. rewrite E1.
      unfold tryselect. by rewrite Ei, Hin. }
    destruct (wait_input_run qf s G) as (s' & q' & E & G' & Ec); [lia|done|done|]. rewrite (bind_ok _ _ _ _ _ E).
    apply (IH s' q'); [done|lia|done].
  - destruct (queue_head _ _ _ (gd_queue _ _ G)) as (i & a & Hq & _). rewrite Hq.
    pose proof (gd_due _ _ G) as Hd. apply Forall_cons in Hd as [Hd _]. unfold HORIZON in Hd.
    destruct (wait_event_run qf s x q i G) as (s' & q' & E & G' & Ec & _); [lia|done|done|]. rewrite (bind_ok _ _ _ _ _ E).
    apply (IH s' q'); [done|lia|done].
Qed.

(** ** Starting up *)
Lemma acalloc_loop_run n i s :
  length (action_storage s) = MAXACTIONS → (i + n = MAXACTIONS)%nat → queuehead s = None →
  chain (action_storage s) (ta_freelist s) (reverse (seq 0 i)) →
  ∃ s', acalloc_loop n i s = Ok (tt, s') ∧ same s s' ∧ queuehead s' = None ∧
    chain (action_storage s') (ta_freelist s') (reverse (seq 0 (i + n))).
Proof.
  revert i s. induction n as [|n IH]; intros i s Hl Hi Hq Hc; cbn [acalloc_loop].
  { exists s. rewrite Nat.add_0_r. split_and!; try done. }
  destruct (lookup_lt_is_Some_2 (action_storage s) i) as [a Ha]; [lia|].
  unfold acfree. erewrite bind_ok; cycle 1.
  { rewrite (bind_ok _ _ _ _ _ (geta_run _ _ _ Ha)). erewrite bind_ok by reflexivity. rewrite (bind_ok _ _ _ _ _ (puta_run _ _ _ _ Ha)). reflexivity. }
  set (s1 := set_lists _ _ _ _). destruct (IH (S i) s1) as (s' & E & Sm & Hq' & Hc').
  - cbn. by rewrite length_insert.
  - lia.
  - done.
  - rewrite seq_S, reverse_snoc. cbn. eapply chain_cons; [by apply list_lookup_insert_eq; eapply lookup_lt_Some|]. cbn.
    eapply links_ext; [exact Hc|]. intros j Hj. rewrite list_lookup_insert_ne; [done|]. intros ->.
    rewrite elem_of_reverse, elem_of_seq in Hj. lia.
  - exists s'. replace (i + S n)%nat with (S i + n)%nat by lia. split_and!; try done. by eapply clock_same_trans; [|exact Sm].
Qed.

(** [clock_init] on the zeroed variables of the program leaves an empty queue. *)
Lemma clock_init_run qf s :
  length (action_storage s) = MAXACTIONS → ta_freelist s = None → queuehead s = None → (enough ≤ qf)%nat →
  P 0 (devs s) [] → Forall (fun '(_, usec) => 0 ≤ usec < 1000000) (walltime s) → Forall (Forall (accepts (devs s))) (inputs s) →
  ∃ s', clock_init qf s = Ok (tt, s') ∧ good s' [] ∧ now_clocks s' = 0 ∧ devs s' = devs s.
Proof.
  intros Hl Hf Hq Hqf Hp Hw Hi. unfold clock_init, acalloc_init.
  destruct (acalloc_loop_run MAXACTIONS 0 s Hl eq_refl Hq) as (s1 & E1 & Sm & Hq1 & Hc1); [rewrite Hf; apply chain_nil|].
  rewrite (bind_ok _ _ _ _ _ E1). unfold gettimeofday. erewrite bind_ok by reflexivity.
  destruct (default (0, 0) (head (walltime s1))) as [sec usec] eqn:Et. erewrite bind_ok by reflexivity. erewrite bind_ok by reflexivity.
  unfold random. erewrite bind_ok by reflexivity. set (s2 := set_host _ _ _ _ (set_clocks _ _)).
  rewrite <- (sm_devs _ _ Sm), <- (sm_wall _ _ Sm), <- (sm_inputs _ _ Sm) in *.
  assert (0 ≤ usec < 1000000) as Hu.
  { destruct (walltime s1) as [|[sec1 usec1] wa]; [by injection Et as <- <-|]. injection Et as <- <-. by apply Forall_cons in Hw as [? _]. }
  assert (queue s2 []) as Q2.
  { exists [], (reverse (seq 0 MAXACTIONS)). constructor.
    - cbn. rewrite Hq1. apply chain_nil.
    - exact Hc1.
    - rewrite app_nil_l, reverse_Permutation. apply NoDup_seq.
    - cbn [app]. by rewrite length_reverse, length_seq.
    - constructor. }
  assert (good s2 []) as G2.
  { constructor; try done; try (cbn; unfold u32; lia).
    - cbn. apply Z.mod_pos_bound. lia.
    - cbn. rewrite u32_small by lia. lia.
    - cbn. destruct (walltime s1); [done|]. by apply Forall_cons in Hw as [_ ?]. }
  set (r := default 0 (head (randoms _))). pose proof (Z.mod_pos_bound r 10000000 ltac:(lia)).
  destruct (add_nsecs_good s2 [] (r `mod` 10000000) G2 ltac:(lia)) as (G3 & Ec3 & Ed3 & _).
  unfold clock_advance. erewrite bind_ok; [|erewrite bind_ok by reflexivity; apply (check_queue_idle qf _ []); [apply G3|constructor]].
  eexists. split; [reflexivity|]. split_and!; [|by cbn; rewrite Ec3|by cbn; rewrite Ed3].
  destruct G3. constructor; try done. by apply (queue_lists (add_nsecs (r `mod` 10000000) s2)).
Qed.
End laws.

End Clockspec.
