(* ===== verification/Lamebus.v ===== *)
(** * The LAMEbus and its devices
    (sys161-1.14/bus/lamebus.c, dev_timer.c, dev_serial.c, dev_disk.c, dev_random.c, dev_trace.c)

    The devices behind the clock of Clock.v.  A device's data is found by its slot, which stands for the pointer that is
    handed to its functions.  The disk is the one of Lhd.v (its image, registers and buffer, [dd_core]) together with
    what dev_disk.c knows of the geometry and of the position of the head.

    [smoke] aborts and is [Panic]; [hang] sets the stop flag of the main loop; console output is the list of characters.
    Seek times are computed in floating point: for up to 31 tracks, which is all there are, [nt * 200000] with [nt]
    a square root is the integer square root used here.  The loops of the rotational delays are bounded by the number of
    revolutions that fit in the time to be made up.  Printing, statistics and the parsing of the configuration file are left out. *)
From stdpp Require Import base list gmap numbers.
From S2P Require Import Prelude Copyinout Uio Lhd Clock.
Local Open Scope Z_scope.

Module Lamebus.
Import Clock.

Definition LAMEBUS_NSLOTS : Z := 32.
Definition LAMEBUS_CONTROLLER_SLOT : nat := 31.
Definition LAMEBUS_SLOT_MEM : Z := 65536.
Definition LAMEBUS_CONFIG_SIZE : Z := 1024.
Definition POWEROFF_NSECS : Z := 5000000.
Definition SERIAL_NSECS : Z := 1000000000 / ((19200 * 25) / 10).

(** ** Device data *)
Record timer_data := mktimer {
  td_restartflag : Z;
  td_count_usecs : Z;
  td_generation : Z
}.

Record serirq := mkirq { si_on : bool; si_ready : bool }.

Definition INBUF_SIZE : Z := 512.

Record ser_data := mkser {
  sd_wbusy : bool;
  sd_rbusy : bool;
  sd_rirq : serirq;
  sd_wirq : serirq;
  sd_readch : Z;
  sd_inbuf : list Z;
  sd_inbufhead : Z;
  sd_inbuftail : Z
}.

Record disk_data := mkdd {
  dd_core : Lhd.disk_data;
  dd_sectors : list Z;
  dd_rpm : Z;
  dd_nsecs_per_rev : Z;
  dd_current_track : Z;
  dd_trackarrival_secs : Z;
  dd_trackarrival_nsecs : Z;
  dd_iostatus : Z;
  dd_timedop : bool;
  dd_worktries : Z
}.

(** What is in a slot: [ls_info] and [ls_devdata]. *)
Inductive device := Busctl | Timer (td : timer_data) | Serial (sd : ser_data) | Disk (dd : disk_data) | Random | Trace.

Record bus := mkbus {
  interrupts : Z;
  bus_ramsize : Z;
  devices : gmap nat device;
  output : list Z;
  shutoff_flag : bool;
  stop_flag : bool
}.

(** The functions that actions call. *)
Inductive handler := Timer_interrupt | Serial_writedone | Serial_pushinput | Disk_seekdone | Disk_waitdone | Dopoweroff.

(** A key for the serial device in a slot. *)
Definition key : Type := nat * Z.

Abbreviation st := (clock bus handler key).
Abbreviation B := (M st).

Definition set_interrupts (i : Z) (b : bus) : bus :=
  mkbus i (bus_ramsize b) (devices b) (output b) (shutoff_flag b) (stop_flag b).
Definition set_devices (d : gmap nat device) (b : bus) : bus :=
  mkbus (interrupts b) (bus_ramsize b) d (output b) (shutoff_flag b) (stop_flag b).
Definition set_output (o : list Z) (b : bus) : bus :=
  mkbus (interrupts b) (bus_ramsize b) (devices b) o (shutoff_flag b) (stop_flag b).
Definition set_flags (off stop : bool) (b : bus) : bus :=
  mkbus (interrupts b) (bus_ramsize b) (devices b) (output b) off stop.

Definition on_bus (f : bus → bus) : B unit := modify (fun s => set_devs (f (devs s)) s).

(** ** Interrupt lines (lamebus.h) *)
Definition irq_bit (slot : nat) : Z := u32 (Z.shiftl 1 (Z.of_nat slot)).
Definition raise_irq (slot : nat) (i : Z) : Z := Z.lor i (irq_bit slot).
Definition lower_irq (slot : nat) (i : Z) : Z := Z.land i (Z.lnot (irq_bit slot)).
Definition RAISE_IRQ (slot : nat) : B unit := on_bus (fun b => set_interrupts (raise_irq slot (interrupts b)) b).
Definition LOWER_IRQ (slot : nat) : B unit := on_bus (fun b => set_interrupts (lower_irq slot (interrupts b)) b).
Definition CHECK_IRQ (slot : nat) : B bool :=
  gets (fun s => negb (Z.land (interrupts (devs s)) (irq_bit slot) =? 0)).

(** [main_poweroff], [hang], [console_putc]. *)
Definition main_poweroff : B unit := on_bus (fun b => set_flags true (stop_flag b) b).
Definition hang : B unit := on_bus (fun b => set_flags (shutoff_flag b) true b).
Definition console_putc (ch : Z) : B unit := on_bus (fun b => set_output (output b ++ [u8 ch]) b).

(** Device data by slot. *)
Definition put (slot : nat) (d : device) : B unit := on_bus (fun b => set_devices (<[slot := d]> (devices b)) b).

Definition get_timer (slot : nat) : B timer_data := fun s =>
  match devices (devs s) !! slot with Some (Timer td) => Ok (td, s) | _ => Undef end.
Definition get_serial (slot : nat) : B ser_data := fun s =>
  match devices (devs s) !! slot with Some (Serial sd) => Ok (sd, s) | _ => Undef end.
Definition get_disk (slot : nat) : B disk_data := fun s =>
  match devices (devs s) !! slot with Some (Disk dd) => Ok (dd, s) | _ => Undef end.

(** ** The timer (dev_timer.c) *)
Definition TREG_TSEC : Z := 0.
Definition TREG_TNSEC : Z := 4.
Definition TREG_REST : Z := 8.
Definition TREG_IRQ : Z := 12.
Definition TREG_TIME : Z := 16.
Definition TREG_BEEP : Z := 20.
Definition TREG_RESV1 : Z := 24.
Definition TREG_RESV2 : Z := 28.

Definition timer_init : timer_data := mktimer 0 0 0.

Definition timer_start (slot : nat) : B unit :=
  let* td := get_timer slot in
  let nsecs := u64 (td_count_usecs td * 1000) in
  let td := mktimer (td_restartflag td) (td_count_usecs td) (u32 (td_generation td + 1)) in
  let* _ := put slot (Timer td) in
  schedule_event nsecs slot (td_generation td) Timer_interrupt.

Definition timer_interrupt (slot : nat) (gen : Z) : B unit :=
  let* td := get_timer slot in
  if negb (gen =? td_generation td) then mret tt
  else
    let* _ := RAISE_IRQ slot in
    if negb (td_restartflag td =? 0) then timer_start slot else mret tt.

(** [None] is the error result -1, otherwise the value stored; [hang] leaves [*val] as it was, which is taken to be 0. *)
Definition timer_fetch (slot : nat) (offset : Z) : B (option Z) :=
  let* td := get_timer slot in
  if offset =? TREG_TSEC then let* '(secs, _) := clock_time in mret (Some secs)
  else if offset =? TREG_TNSEC then let* '(_, nsecs) := clock_time in mret (Some nsecs)
  else if offset =? TREG_REST then mret (Some (u32 (td_restartflag td)))
  else if offset =? TREG_IRQ then
    let* on := CHECK_IRQ slot in
    let* _ := LOWER_IRQ slot in
    mret (Some (if (on : bool) then 1 else 0))
  else if offset =? TREG_TIME then mret (Some (td_count_usecs td))
  else if (offset =? TREG_BEEP) || (offset =? TREG_RESV1) || (offset =? TREG_RESV2) then
    let* _ := hang in mret (Some 0)
  else mret None.

(** [false] is the error result. *)
Definition timer_store (slot : nat) (offset val : Z) : B bool :=
  let* td := get_timer slot in
  if offset =? TREG_TSEC then let* _ := clock_setsecs val in mret true
  else if offset =? TREG_TNSEC then let* _ := clock_setnsecs val in mret true
  else if offset =? TREG_REST then
    let* _ := put slot (Timer (mktimer (i32 val) (td_count_usecs td) (td_generation td))) in mret true
  else if offset =? TREG_TIME then
    let* _ := put slot (Timer (mktimer (td_restartflag td) val (td_generation td))) in
    let* _ := timer_start slot in
    mret true
  else if offset =? TREG_BEEP then mret true         (* [console_beep]: a sound or a message *)
  else if (offset =? TREG_IRQ) || (offset =? TREG_RESV1) || (offset =? TREG_RESV2) then
    let* _ := hang in mret true
  else mret false.

(** ** The serial port (dev_serial.c) *)
Definition SERREG_CHAR : Z := 0.
Definition SERREG_WIRQ : Z := 4.
Definition SERREG_RIRQ : Z := 8.
Definition IRQF_ON : Z := 1.
Definition IRQF_READY : Z := 2.

Definition serial_init (inbuf : list Z) : ser_data :=
  mkser false false (mkirq false false) (mkirq false false) 0 inbuf 0 0.

Definition fetchirq (si : serirq) : Z :=
  Z.lor (if si_on si then IRQF_ON else 0) (if si_ready si then IRQF_READY else 0).

Definition storeirq (val : Z) : serirq :=
  mkirq (negb (Z.land val IRQF_ON =? 0)) (negb (Z.land val IRQF_READY =? 0)).

Definition setirq (slot : nat) (sd : ser_data) : B unit :=
  let rirq := si_on (sd_rirq sd) && si_ready (sd_rirq sd) in
  let wirq := si_on (sd_wirq sd) && si_ready (sd_wirq sd) in
  if rirq || wirq then RAISE_IRQ slot else LOWER_IRQ slot.

Definition serial_writedone (slot : nat) : B unit :=
  let* sd := get_serial slot in
  let sd := mkser false (sd_rbusy sd) (sd_rirq sd) (mkirq (si_on (sd_wirq sd)) true) (sd_readch sd) (sd_inbuf sd)
              (sd_inbufhead sd) (sd_inbuftail sd) in
  let* _ := put slot (Serial sd) in
  setirq slot sd.

Definition serial_pushinput (slot : nat) : B unit :=
  let* sd := get_serial slot in
  if sd_inbufhead sd =? sd_inbuftail sd then
    put slot (Serial (mkser (sd_wbusy sd) false (sd_rirq sd) (sd_wirq sd) (sd_readch sd) (sd_inbuf sd)
                        (sd_inbufhead sd) (sd_inbuftail sd)))
  else
    let* ch := lift (of_option (sd_inbuf sd !! Z.to_nat (sd_inbufhead sd))) in
    let head := (sd_inbufhead sd + 1) `mod` INBUF_SIZE in
    let sd := mkser (sd_wbusy sd) (sd_rbusy sd) (mkirq (si_on (sd_rirq sd)) true) (sd_wirq sd) (u8 ch) (sd_inbuf sd)
                head (sd_inbuftail sd) in
    let* _ := put slot (Serial sd) in
    let* _ := setirq slot sd in
    let* _ := put slot (Serial (mkser (sd_wbusy sd) true (sd_rirq sd) (sd_wirq sd) (sd_readch sd) (sd_inbuf sd)
                                  (sd_inbufhead sd) (sd_inbuftail sd))) in
    schedule_event SERIAL_NSECS slot 0 Serial_pushinput.

(** A full buffer drops the character. *)
Definition serial_input (slot : nat) (ch : Z) : B unit :=
  let* sd := get_serial slot in
  let nexttail := (sd_inbuftail sd + 1) `mod` INBUF_SIZE in
  if nexttail =? sd_inbufhead sd then mret tt
  else
    let* _ := lift (of_option (sd_inbuf sd !! Z.to_nat (sd_inbuftail sd))) in
    let* _ := put slot (Serial (mkser (sd_wbusy sd) (sd_rbusy sd) (sd_rirq sd) (sd_wirq sd) (sd_readch sd)
                                  (<[Z.to_nat (sd_inbuftail sd) := ch]> (sd_inbuf sd)) (sd_inbufhead sd) nexttail)) in
    if negb (sd_rbusy sd) then serial_pushinput slot else mret tt.

Definition serial_fetch (slot : nat) (offset : Z) : B (option Z) :=
  let* sd := get_serial slot in
  if offset =? SERREG_CHAR then mret (Some (sd_readch sd))
  else if offset =? SERREG_RIRQ then mret (Some (fetchirq (sd_rirq sd)))
  else if offset =? SERREG_WIRQ then mret (Some (fetchirq (sd_wirq sd)))
  else mret None.

Definition serial_store (slot : nat) (offset val : Z) : B bool :=
  let* sd := get_serial slot in
  if offset =? SERREG_CHAR then
    if negb (sd_wbusy sd) then
      let* _ := put slot (Serial (mkser true (sd_rbusy sd) (sd_rirq sd) (sd_wirq sd) (sd_readch sd) (sd_inbuf sd)
                                    (sd_inbufhead sd) (sd_inbuftail sd))) in
      let* _ := console_putc val in
      let* _ := schedule_event SERIAL_NSECS slot 0 Serial_writedone in
      mret true
    else mret true
  else if offset =? SERREG_RIRQ then
    let sd := mkser (sd_wbusy sd) (sd_rbusy sd) (storeirq val) (sd_wirq sd) (sd_readch sd) (sd_inbuf sd)
                (sd_inbufhead sd) (sd_inbuftail sd) in
    let* _ := put slot (Serial sd) in
    let* _ := setirq slot sd in
    mret true
  else if offset =? SERREG_WIRQ then
    let sd := mkser (sd_wbusy sd) (sd_rbusy sd) (sd_rirq sd) (storeirq val) (sd_readch sd) (sd_inbuf sd)
                (sd_inbufhead sd) (sd_inbuftail sd) in
    let* _ := put slot (Serial sd) in
    let* _ := setirq slot sd in
    mret true
  else mret false.

(** ** The disk (dev_disk.c) *)
Definition CACHE_WRITE_TIME : Z := 500.
Definition MAX_WORKTRIES : Z := 10.
Definition DISKREG_NSECT : Z := 0.
Definition DISKREG_STAT : Z := 4.
Definition DISKREG_SECT : Z := 8.
Definition DISKREG_RPM : Z := 12.
Definition DISK_BUF_START : Z := 32768.
Definition DISK_BUF_END : Z := DISK_BUF_START + Lhd.SECTSIZE.

Definition set_core (c : Lhd.disk_data) (dd : disk_data) : disk_data :=
  mkdd c (dd_sectors dd) (dd_rpm dd) (dd_nsecs_per_rev dd) (dd_current_track dd) (dd_trackarrival_secs dd)
    (dd_trackarrival_nsecs dd) (dd_iostatus dd) (dd_timedop dd) (dd_worktries dd).
Definition set_track (tr secs nsecs : Z) (dd : disk_data) : disk_data :=
  mkdd (dd_core dd) (dd_sectors dd) (dd_rpm dd) (dd_nsecs_per_rev dd) tr secs nsecs (dd_iostatus dd) (dd_timedop dd)
    (dd_worktries dd).
Definition set_op (iostatus : Z) (timedop : bool) (tries : Z) (dd : disk_data) : disk_data :=
  mkdd (dd_core dd) (dd_sectors dd) (dd_rpm dd) (dd_nsecs_per_rev dd) (dd_current_track dd) (dd_trackarrival_secs dd)
    (dd_trackarrival_nsecs dd) iostatus timedop tries.

(** The loop of [locate_sector] with [i] tracks to go: the track and the offset in it. *)
Fixpoint locate_loop (sectors : list Z) (i : nat) (start sector : Z) : outcome (Z * Z) :=
  match i with
  | O => Panic
  | S tr =>
      match sectors !! tr with
      | None => Undef
      | Some n =>
          let en := u32 (start + n) in
          if (start <=? sector) && (sector <? en) then Ok (Z.of_nat tr, sector - start)
          else locate_loop sectors tr en sector
      end
  end.

Definition locate_sector (dd : disk_data) (sector : Z) : outcome (Z * Z) :=
  locate_loop (dd_sectors dd) (length (dd_sectors dd)) 0 sector.

Definition disk_seektime (ntracks : Z) : Z :=
  if 5 <? ntracks then u32 (Z.sqrt (ntracks * (200000 * 200000))) else u32 (ntracks * 200000).

(** [while (targnsecs < limit) targnsecs += rev;] *)
Fixpoint catch_up (fuel : nat) (targ limit rev : Z) : outcome Z :=
  if targ <? limit then
    match fuel with
    | O => Spin
    | S fuel' => catch_up fuel' (u32 (targ + rev)) limit rev
    end
  else Ok targ.

Definition revolutions (targ limit rev : Z) : nat := Z.to_nat ((limit - targ) `div` rev + 1).

(** [while (targnsecs >= 1000000000) { targnsecs -= 1000000000; targsecs++; }]: at most four times in 32 bits. *)
Fixpoint carry (fuel : nat) (secs nsecs : Z) : outcome (Z * Z) :=
  if 1000000000 <=? nsecs then
    match fuel with
    | O => Spin
    | S fuel' => carry fuel' (u32 (secs + 1)) (nsecs - 1000000000)
    end
  else Ok (secs, nsecs).

(** Unsigned division, undefined by zero. *)
Definition udiv (a b : Z) : outcome Z := if b =? 0 then Undef else Ok (a / b).
Definition umod (a b : Z) : outcome Z := if b =? 0 then Undef else Ok (a `mod` b).

Definition disk_readrotdelay (dd : disk_data) (cyl rotoffset : Z) : B Z :=
  let* n := lift (of_option (dd_sectors dd !! Z.to_nat cyl)) in
  let* nsecs_per_sector := lift (udiv (dd_nsecs_per_rev dd) n) in
  let* targsector := lift (umod (u32 (rotoffset + 1)) n) in
  let rev := dd_nsecs_per_rev dd in
  let targ := u32 (targsector * nsecs_per_sector) in
  let arrival := dd_trackarrival_nsecs dd in
  let* targ := lift (catch_up (revolutions targ arrival rev) targ arrival rev) in
  let* '(targsecs, targnsecs) := lift (carry 4 (dd_trackarrival_secs dd) targ) in
  let* '(nowsecs, nownsecs) := clock_time in
  if (targsecs <? nowsecs) || ((targsecs =? nowsecs) && (targnsecs <=? nownsecs)) then mret 0
  else mret (u32 (u32 (targnsecs - nownsecs) + u32 (1000000000 * u32 (targsecs - nowsecs)))).

Definition disk_writerotdelay (dd : disk_data) (cyl rotoffset : Z) : B Z :=
  let* n := lift (of_option (dd_sectors dd !! Z.to_nat cyl)) in
  let* nsecs_per_sector := lift (udiv (dd_nsecs_per_rev dd) n) in
  let rev := dd_nsecs_per_rev dd in
  let targ := u32 (rotoffset * nsecs_per_sector) in
  let* '(_, nownsecs) := clock_time in
  let* targ := lift (catch_up (revolutions targ nownsecs rev) targ nownsecs rev) in
  mret (u32 (u32 (targ + nsecs_per_sector) - nownsecs)).

Definition in_progress (dd : disk_data) : bool := negb (Z.land (Lhd.dd_stat (dd_core dd)) Lhd.DISKBIT_INPROGRESS =? 0).
Definition is_write (dd : disk_data) : bool := negb (Z.land (Lhd.dd_stat (dd_core dd)) Lhd.DISKBIT_ISWRITE =? 0).

(** [dd->dd_timedop = 1; schedule_event(...)] *)
Definition wait_for (slot : nat) (nsecs code : Z) (h : handler) (dd : disk_data) : B unit :=
  let* _ := put slot (Disk (set_op (dd_iostatus dd) true (dd_worktries dd) dd)) in
  schedule_event nsecs slot code h.

(** From the label [forceio] on. *)
Definition finish (slot : nat) (dd : disk_data) : B unit :=
  put slot (Disk (set_op (dd_iostatus dd) (dd_timedop dd) 0 (set_core (Lhd.forceio (dd_core dd)) dd))).

(** [disk_work] when the rotational delay is over, or not needed. *)
Definition copy_out (slot : nat) (dd : disk_data) : B unit :=
  if negb (is_write dd) && (dd_iostatus dd <? 3) then wait_for slot CACHE_WRITE_TIME 3 Disk_waitdone dd
  else finish slot dd.

(** [disk_work] with the head on the track. *)
Definition on_track (slot : nat) (cyl rotoffset : Z) (dd : disk_data) : B unit :=
  if is_write dd && (dd_iostatus dd <? 1) then wait_for slot CACHE_WRITE_TIME 1 Disk_waitdone dd
  else if dd_iostatus dd <? 2 then
    let* rotdelay := (if is_write dd then disk_writerotdelay dd cyl rotoffset else disk_readrotdelay dd cyl rotoffset) in
    if 0 <? rotdelay then wait_for slot rotdelay 2 Disk_waitdone dd
    else
      let dd := set_op 2 (dd_timedop dd) (dd_worktries dd) dd in
      let* _ := put slot (Disk dd) in
      copy_out slot dd
  else copy_out slot dd.

Definition disk_work (slot : nat) : B unit :=
  let* dd := get_disk slot in
  if dd_timedop dd then mret tt
  else if negb (in_progress dd) then mret tt
  else if Lhd.dd_totsectors (dd_core dd) <=? Lhd.dd_sect (dd_core dd) then
    put slot (Disk (set_op (dd_iostatus dd) (dd_timedop dd) 0
      (set_core (Lhd.set_stat (dd_core dd) (Lhd.INVSECT (Lhd.dd_stat (dd_core dd)))) dd)))
  else
    let dd := set_op (dd_iostatus dd) (dd_timedop dd) (dd_worktries dd + 1) dd in
    let* _ := put slot (Disk dd) in
    if MAX_WORKTRIES <? dd_worktries dd then
      let* '(secs, nsecs) := clock_time in
      finish slot (set_op (-1) false (dd_worktries dd) (set_track 0 secs nsecs dd))
    else
      let* '(cyl, rotoffset) := lift (locate_sector dd (Lhd.dd_sect (dd_core dd))) in
      if negb (dd_current_track dd =? cyl) then
        let distance := cyl - dd_current_track dd in
        let distance := if distance <? 0 then - distance else distance in
        wait_for slot (disk_seektime distance) cyl Disk_seekdone dd
      else on_track slot cyl rotoffset dd.

Definition disk_update (slot : nat) : B unit :=
  let* _ := disk_work slot in
  let* dd := get_disk slot in
  if Lhd.disk_irq (dd_core dd) then RAISE_IRQ slot else LOWER_IRQ slot.

Definition disk_seekdone (slot : nat) (cyl : Z) : B unit :=
  let* dd := get_disk slot in
  let* '(secs, nsecs) := clock_time in
  let* _ := put slot (Disk (set_op (dd_iostatus dd) false (dd_worktries dd) (set_track (i32 cyl) secs nsecs dd))) in
  disk_update slot.

Definition disk_waitdone (slot : nat) (status : Z) : B unit :=
  let* dd := get_disk slot in
  let* _ := put slot (Disk (set_op (i32 status) false (dd_worktries dd) dd)) in
  disk_update slot.

Definition disk_setstatus (slot : nat) (val : Z) : B unit :=
  let* dd := get_disk slot in
  if val =? Lhd.DISKSTAT_IDLE then
    let* _ := put slot (Disk (set_core (Lhd.set_stat (dd_core dd) val) (set_op (-1) (dd_timedop dd) (dd_worktries dd) dd))) in
    disk_update slot
  else if (val =? Lhd.DISKSTAT_READING) || (val =? Lhd.DISKSTAT_WRITING) then
    let* _ := put slot (Disk (set_core (Lhd.set_stat (dd_core dd) val) (set_op 0 (dd_timedop dd) (dd_worktries dd) dd))) in
    disk_update slot
  else hang.

Definition set_sect (v : Z) (c : Lhd.disk_data) : Lhd.disk_data :=
  Lhd.mkdisk (Lhd.dd_image c) (Lhd.dd_stat c) v (Lhd.dd_buf c) (Lhd.dd_faults c).
Definition set_buf (b : list Z) (c : Lhd.disk_data) : Lhd.disk_data :=
  Lhd.mkdisk (Lhd.dd_image c) (Lhd.dd_stat c) (Lhd.dd_sect c) b (Lhd.dd_faults c).

(** [ntohl] and [htonl] of the word at [dd_buf + offset]. *)
Definition disk_fetch (slot : nat) (offset : Z) : B (option Z) :=
  let* dd := get_disk slot in
  let c := dd_core dd in
  if (DISK_BUF_START <=? offset) && (offset <? DISK_BUF_END) then
    mret (Some (un_be (take 4 (drop (Z.to_nat (offset - DISK_BUF_START)) (Lhd.dd_buf c)))))
  else if offset =? DISKREG_NSECT then mret (Some (Lhd.dd_totsectors c))
  else if offset =? DISKREG_RPM then mret (Some (dd_rpm dd))
  else if offset =? DISKREG_STAT then mret (Some (Lhd.dd_stat c))
  else if offset =? DISKREG_SECT then mret (Some (Lhd.dd_sect c))
  else mret None.

Definition disk_store (slot : nat) (offset val : Z) : B bool :=
  let* dd := get_disk slot in
  let c := dd_core dd in
  if (DISK_BUF_START <=? offset) && (offset <? DISK_BUF_END) then
    let* _ := put slot (Disk (set_core (set_buf (splice (Z.to_nat (offset - DISK_BUF_START)) (be32 val) (Lhd.dd_buf c)) c) dd)) in
    mret true
  else if offset =? DISKREG_STAT then let* _ := disk_setstatus slot val in mret true
  else if offset =? DISKREG_SECT then
    let* _ := put slot (Disk (set_core (set_sect val c) dd)) in
    mret true
  else mret false.

(** ** The bus controller (lamebus.c) *)
Definition LBC_OFFSET_VENDORID : Z := 0.
Definition LBC_OFFSET_DEVICEID : Z := 4.
Definition LBC_OFFSET_REVISION : Z := 8.
Definition LBC_OFFSET_RAMSIZE : Z := 512.
Definition LBC_OFFSET_IRQS : Z := 516.
Definition LBC_OFFSET_POWER : Z := 520.

(** Vendor, device and revision of a device's [lamebus_device_info]. *)
Definition ldi (d : device) : Z * Z * Z :=
  match d with
  | Busctl => (1, 1, 1)
  | Timer _ => (1, 2, 1)
  | Disk _ => (1, 3, 2)
  | Serial _ => (1, 4, 1)
  | Trace => (1, 8, 1)
  | Random => (1, 9, 1)
  end.

(** The slot and the offset in its configuration area, when the register exists. *)
Definition lamebus_controller_doaddress (offset : Z) : outcome (option (Z * Z)) :=
  let* _ := oassert (Z.land offset 3 =? 0) in
  if 32768 <=? offset then Ok None
  else
    let cfg := offset / LAMEBUS_CONFIG_SIZE in
    let cfgoffset := offset `mod` LAMEBUS_CONFIG_SIZE in
    let* _ := oassert (cfg <? LAMEBUS_NSLOTS) in
    if (cfgoffset =? LBC_OFFSET_VENDORID) || (cfgoffset =? LBC_OFFSET_DEVICEID) || (cfgoffset =? LBC_OFFSET_REVISION)
    then Ok (Some (cfg, cfgoffset))
    else if negb (cfg =? Z.of_nat LAMEBUS_CONTROLLER_SLOT) then Ok None
    else if (cfgoffset =? LBC_OFFSET_RAMSIZE) || (cfgoffset =? LBC_OFFSET_IRQS) || (cfgoffset =? LBC_OFFSET_POWER)
    then Ok (Some (cfg, cfgoffset))
    else Ok None.

Definition lamebus_controller_fetch (offset : Z) : B (option Z) :=
  let* r := lift (lamebus_controller_doaddress offset) in
  match r with
  | None => mret None
  | Some (cfg, cfgoffset) =>
      let* b := gets devs in
      let '(vendor, dev, rev) := default (0, 0, 0) (ldi <$> devices b !! Z.to_nat cfg) in
      if cfgoffset =? LBC_OFFSET_VENDORID then mret (Some vendor)
      else if cfgoffset =? LBC_OFFSET_DEVICEID then mret (Some dev)
      else if cfgoffset =? LBC_OFFSET_REVISION then mret (Some rev)
      else if cfgoffset =? LBC_OFFSET_RAMSIZE then mret (Some (bus_ramsize b))
      else if cfgoffset =? LBC_OFFSET_IRQS then mret (Some (interrupts b))
      else if cfgoffset =? LBC_OFFSET_POWER then let* _ := hang in mret (Some 0)
      else mret None
  end.

Definition dopoweroff : B unit :=
  let* _ := RAISE_IRQ LAMEBUS_CONTROLLER_SLOT in
  main_poweroff.

Definition lamebus_controller_store (offset val : Z) : B bool :=
  let* r := lift (lamebus_controller_doaddress offset) in
  match r with
  | None => mret false
  | Some (_, cfgoffset) =>
      if cfgoffset =? LBC_OFFSET_POWER then
        let* _ := (if val =? 0 then schedule_event POWEROFF_NSECS 0 0 Dopoweroff else mret tt) in
        mret true
      else mret false
  end.

(** ** The random generator and the trace device (dev_random.c, dev_trace.c) *)
Definition rand_fetch (offset : Z) : B (option Z) :=
  if offset =? 0 then
    let* r1 := random in
    let* r2 := random in
    mret (Some (u32 (Z.lxor r1 (Z.shiftl r2 16))))
  else mret None.

(** Tracing and dumps only print. *)
Definition trace_store (offset val : Z) : B bool :=
  mret (bool_decide (offset ∈ [0; 4; 8; 12])).

(** ** Dispatch *)
Definition bus_io_fetch (offset : Z) : B (option Z) :=
  let slot := offset / LAMEBUS_SLOT_MEM in
  let slotoffset := offset `mod` LAMEBUS_SLOT_MEM in
  if LAMEBUS_NSLOTS <=? slot then mret None
  else
    let* _ := massert (Z.land offset 3 =? 0) in
    let* b := gets devs in
    match devices b !! Z.to_nat slot with
    | None => mret None
    | Some Busctl => lamebus_controller_fetch slotoffset
    | Some (Timer _) => timer_fetch (Z.to_nat slot) slotoffset
    | Some (Serial _) => serial_fetch (Z.to_nat slot) slotoffset
    | Some (Disk _) => disk_fetch (Z.to_nat slot) slotoffset
    | Some Random => rand_fetch slotoffset
    | Some Trace => mret None
    end.

Definition bus_io_store (offset val : Z) : B bool :=
  let slot := offset / LAMEBUS_SLOT_MEM in
  let slotoffset := offset `mod` LAMEBUS_SLOT_MEM in
  if LAMEBUS_NSLOTS <=? slot then mret false
  else
    let* _ := massert (Z.land offset 3 =? 0) in
    let* b := gets devs in
    match devices b !! Z.to_nat slot with
    | None => mret false
    | Some Busctl => lamebus_controller_store slotoffset val
    | Some (Timer _) => timer_store (Z.to_nat slot) slotoffset val
    | Some (Serial _) => serial_store (Z.to_nat slot) slotoffset val
    | Some (Disk _) => disk_store (Z.to_nat slot) slotoffset val
    | Some Random => mret false
    | Some Trace => trace_store slotoffset val
    end.

#[export] Instance lamebus_devices : Devices bus handler key := {
  bus_interrupts := interrupts;
  call_func h slot code :=
    match h with
    | Timer_interrupt => timer_interrupt slot code
    | Serial_writedone => serial_writedone slot
    | Serial_pushinput => serial_pushinput slot
    | Disk_seekdone => disk_seekdone slot code
    | Disk_waitdone => disk_waitdone slot code
    | Dopoweroff => dopoweroff
    end;
  receive '(slot, ch) := serial_input slot ch
}.

End Lamebus.
