(* ===== verification/Lamebussafe.v ===== *)
(** * The LAMEbus devices: what each operation does

    The timed disk of Lamebus.v against the disk of Lhd.v, which has no time: a call of [disk_update] either waits for an
    event it has scheduled, or has done what the other disk does at once.  Timer and serial port schedule their events in
    the future.  Lamebusspec.v puts the devices together. *)
From stdpp Require Import base list gmap numbers sorting.
From S2P Require Import Prelude Copyinout Uio Lhd Clock Clockspec Lamebus.
Local Open Scope Z_scope.

Module Lamebussafe.
Import Clock Clockspec Lamebus.

Abbreviation ev := (event handler).

(** ** Changes to the devices *)
Section devs.
Implicit Types (s : st) (q : list ev) (b : bus).

Lemma pending_devs o s q b : pending o s q → pending o (set_devs b s) q.
Proof.
  destruct o as [[i x]|]; cbn.
  - intros [(ql & fl & []) Hx]. split; [|done]. by exists ql, fl.
  - intros Q. by apply (queue_lists s).
Qed.

Lemma calm_devs s s' b : calm s s' → calm s (set_devs b s').
Proof. by intros []. Qed.

Lemma calm_clocks s s' : calm s s' → now_clocks s' = now_clocks s.
Proof. by intros []. Qed.

Lemma calm_time s s' : calm s s' → in_time s → in_time s'.
Proof. intros [_ E1 _ _ E2 _ _ _ _ _ _] Ht. cbn in *. unfold in_time in *. by rewrite E1, E2. Qed.
End devs.

(** ** Geometry *)
Definition total (l : list Z) : Z := foldr Z.add 0 l.

(** What [disk_init] and [compute_sectors] have checked. *)
Record geometry (dd : disk_data) : Prop := {
  ge_sectors : Forall (fun n => 0 ≤ n) (dd_sectors dd);
  ge_total : Lhd.dd_totsectors (dd_core dd) ≤ total (dd_sectors dd) < 2 ^ 32;
  ge_tracks : length (dd_sectors dd) = 32%nat;
  ge_rev : 0 < dd_nsecs_per_rev dd ≤ 1000000000
}.

Lemma total_app l1 l2 : total (l1 ++ l2) = total l1 + total l2.
Proof. unfold total. induction l1 as [|x l1 IH]; cbn; [done|]. rewrite IH. lia. Qed.

Lemma total_pos l : Forall (fun n => 0 ≤ n) l → 0 ≤ total l.
Proof. unfold total. induction 1; cbn; lia. Qed.

Lemma locate_loop_run l i start sector :
  Forall (fun n => 0 ≤ n) l → (i ≤ length l)%nat → 0 ≤ start → start ≤ sector < start + total (take i l) → start + total (take i l) < 2 ^ 32 →
  ∃ tr n off, locate_loop l i start sector = Ok (Z.of_nat tr, off) ∧ l !! tr = Some n ∧ 0 ≤ off < n ∧ (tr < i)%nat.
Proof.
  intros Hl. revert start. induction i as [|i IH]; intros start Hi Hs Hsec Hb; cbn [locate_loop].
  { rewrite take_0 in Hsec. change (total []) with 0 in Hsec. lia. }
  destruct (lookup_lt_is_Some_2 l i) as [n Hn]; [lia|]. rewrite Hn. rewrite (take_S_r _ _ _ Hn), total_app in *. change (total [n]) with (n + 0) in *.
  pose proof (total_pos (take i l) ltac:(by apply Forall_take)) as Hp. rewrite list.Forall_forall in Hl.
  assert (0 ≤ n) as Hn0 by (apply Hl; by eapply list_elem_of_lookup_2). rewrite u32_small by lia. rewrite (proj2 (Z.leb_le start sector)) by lia.
  destruct (Z.ltb_spec sector (start + n)); cbn [andb].
  - exists i, n, (sector - start). split_and!; (done || lia).
  - destruct (IH (start + n)) as (tr & n' & off & E & ? & ? & ?); [lia..|]. exists tr, n', off. split_and!; (done || lia).
Qed.

Lemma locate_run dd sector :
  geometry dd → 0 ≤ sector < Lhd.dd_totsectors (dd_core dd) →
  ∃ tr n off, locate_sector dd sector = Ok (Z.of_nat tr, off) ∧ dd_sectors dd !! tr = Some n ∧ 0 ≤ off < n ∧ (tr < 32)%nat.
Proof.
  intros [G1 G2 G3 _] Hs. unfold locate_sector. rewrite <- G3.
  apply locate_loop_run; rewrite ?firstn_all; try done; lia.
Qed.

(** ** Rotation *)
Lemma catch_up_run fuel targ limit rev :
  0 ≤ targ < 2 ^ 32 → 0 < rev ≤ 1000000000 → limit ≤ 1000000000 → limit ≤ targ + Z.of_nat fuel * rev →
  ∃ k, 0 ≤ k ∧ catch_up fuel targ limit rev = Ok (targ + k * rev) ∧ limit ≤ targ + k * rev < 2 ^ 32 ∧ (k = 0 ∨ targ + k * rev < limit + rev).
Proof.
  revert targ. induction fuel as [|fuel IH]; intros targ Ht Hr Hl Hf; cbn [catch_up].
  - rewrite (proj2 (Z.ltb_ge _ _)) by lia. exists 0. split_and!; (done || lia || (do 2 f_equal; lia) || auto).
  - destruct (Z.ltb_spec targ limit).
    + rewrite u32_small by lia. destruct (IH (targ + rev)) as (k & Hk & E & Hb & Hor); [lia..|]. exists (k + 1).
      replace (targ + (k + 1) * rev) with (targ + rev + k * rev) by lia. split_and!; (done || lia).
    + exists 0. split_and!; (done || lia || (do 2 f_equal; lia) || auto).
Qed.

Lemma revolutions_enough targ limit rev : 0 < rev → limit ≤ targ + Z.of_nat (revolutions targ limit rev) * rev.
Proof.
  intros Hr. unfold revolutions. pose proof (Z.div_mod (limit - targ) rev ltac:(lia)). pose proof (Z.mod_pos_bound (limit - targ) rev Hr).
  destruct (decide (0 ≤ (limit - targ) `div` rev + 1)); [rewrite Z2Nat.id by done; lia|]. nia.
Qed.

Lemma carry_run fuel secs nsecs : 0 ≤ nsecs < 1000000000 * (Z.of_nat fuel + 1) → ∃ secs' nsecs', carry fuel secs nsecs = Ok (secs', nsecs').
Proof.
  revert secs nsecs. induction fuel as [|fuel IH]; intros secs nsecs Hn; cbn [carry].
  - rewrite (proj2 (Z.leb_gt _ _)) by lia. eauto.
  - destruct (Z.leb_spec 1000000000 nsecs); [|eauto]. apply IH. lia.
Qed.

Lemma rot_run s dd cyl n off :
  geometry dd → in_time s → dd_sectors dd !! cyl = Some n → 0 ≤ off < n → 0 ≤ dd_trackarrival_nsecs dd < 1000000000 →
  ∃ d, 0 ≤ d < 2 ^ 32 ∧ (if is_write dd then disk_writerotdelay dd (Z.of_nat cyl) off else disk_readrotdelay dd (Z.of_nat cyl) off) s = Ok (d, s).
Proof.
  intros G [_ Ht] Hn Ho Ha. pose proof (ge_rev _ G) as Hr. assert (∀ z, 0 ≤ u32 z < 2 ^ 32) as Hu by (intros; apply Z.mod_pos_bound; lia).
  destruct (is_write dd); unfold disk_writerotdelay, disk_readrotdelay; rewrite Nat2Z.id, Hn; (erewrite bind_ok; [|reflexivity]);
    (erewrite bind_ok; [|unfold udiv; rewrite (proj2 (Z.eqb_neq n 0)) by lia; reflexivity]).
  - cbv zeta. erewrite bind_ok by reflexivity. set (targ := u32 _).
    destruct (catch_up_run (revolutions targ (now_nsecs s) (dd_nsecs_per_rev dd)) targ (now_nsecs s) (dd_nsecs_per_rev dd)) as (k & _ & E & _);
      [apply Hu|done|lia|apply revolutions_enough; lia|].
    cbv beta iota. erewrite bind_ok; [|rewrite E; reflexivity]. eexists. split; [|reflexivity]. apply Hu.
  - erewrite bind_ok; [|unfold umod; rewrite (proj2 (Z.eqb_neq n 0)) by lia; reflexivity]. cbv zeta. set (targ := u32 _). set (arr := dd_trackarrival_nsecs dd) in *.
    destruct (catch_up_run (revolutions targ arr (dd_nsecs_per_rev dd)) targ arr (dd_nsecs_per_rev dd)) as (k & _ & E & Hb & _);
      [apply Hu|done|lia|apply revolutions_enough; lia|].
    erewrite bind_ok; [|rewrite E; reflexivity]. destruct (carry_run 4 (dd_trackarrival_secs dd) (targ + k * dd_nsecs_per_rev dd)) as (secs & nsecs & Ec); [lia|].
    erewrite bind_ok; [|rewrite Ec; reflexivity]. cbv beta iota. erewrite bind_ok by reflexivity. cbv beta iota.
    case_match; eexists; (split; [|reflexivity]); [lia|apply Hu].
Qed.

Lemma seektime_run d : 0 < d < 32 → 40 ≤ disk_seektime d < 2 ^ 32.
Proof.
  intros Hd. assert (forallb (fun d => (40 <=? disk_seektime d) && (disk_seektime d <? 2 ^ 32)) (seqZ 1 31) = true) as Hf by (by vm_compute).
  rewrite forallb_forall in Hf. specialize (Hf d). rewrite <- list_elem_of_In, elem_of_seqZ in Hf. specialize (Hf ltac:(lia)).
  apply andb_prop in Hf as [H1 H2]. apply Z.leb_le in H1. by apply Z.ltb_lt in H2.
Qed.

(** ** The disk *)
Record disk_ok (dd : disk_data) : Prop := {
  do_geo : geometry dd;
  do_track : 0 ≤ dd_current_track dd < 32;
  do_arrival : 0 ≤ dd_trackarrival_nsecs dd < 1000000000;
  do_sect : 0 ≤ Lhd.dd_sect (dd_core dd)
}.

(** No delay of the disk takes longer: 2^32 nanoseconds and as much again, in clocks. *)
Definition DISK_DELAY : Z := 214748365.

(** An event of the disk in [slot].  One that is due at once is the end of a rotation. *)
Record disk_event (slot : nat) (now iostatus : Z) (e : ev) : Prop := {
  de_data : ev_data e = slot;
  de_at : now ≤ ev_at e ≤ now + DISK_DELAY;
  de_code : ev_func e = Disk_seekdone ∧ 0 ≤ ev_code e < 32 ∧ now < ev_at e ∨
            ev_func e = Disk_waitdone ∧ 0 ≤ ev_code e ≤ 3 ∧ (now < ev_at e ∨ ev_code e = 2 ∧ iostatus < 2)
}.

(** What a call of [disk_work] with no event pending does: nothing, the whole operation, or wait for an event. *)
Inductive disk_step (slot : nat) (now : Z) (dd : disk_data) (q : list ev) : disk_data → list ev → Prop :=
| ds_idle : in_progress dd = false → disk_step slot now dd q dd q
| ds_done dd' : in_progress dd = true → dd_core dd' = Lhd.disk_work (dd_core dd) → dd_timedop dd' = false →
    dd_worktries dd' = 0 → disk_step slot now dd q dd' q
| ds_wait dd' e : in_progress dd = true → dd_core dd' = dd_core dd → dd_timedop dd' = true →
    dd_worktries dd' = dd_worktries dd + 1 → dd_worktries dd < MAX_WORKTRIES → disk_event slot now (dd_iostatus dd) e →
    disk_step slot now dd q dd' (insert_ev e q).

Definition upd (slot : nat) (d : device) (s : st) : st :=
  set_devs (set_devices (<[slot := d]> (devices (devs s))) (devs s)) s.

Lemma put_run slot d s : put slot d s = Ok (tt, upd slot d s).
Proof. done. Qed.

Lemma upd_upd slot d d' s : upd slot d (upd slot d' s) = upd slot d s.
Proof. unfold upd. cbn. unfold set_devices, set_devs. cbn. by rewrite insert_insert_eq. Qed.

Lemma upd_id slot d s : devices (devs s) !! slot = Some d → upd slot d s = s.
Proof. intros Hd. unfold upd. rewrite insert_id by done. by destruct s as [? ? ? ? ? ? ? ? ? ? ? ? ? ? []]. Qed.

Lemma upd_lookup slot d s : devices (devs (upd slot d s)) !! slot = Some d.
Proof. apply lookup_insert_eq. Qed.

Lemma get_disk_run slot dd s : devices (devs s) !! slot = Some (Disk dd) → get_disk slot s = Ok (dd, s).
Proof. unfold get_disk. by intros ->. Qed.

Lemma calm_upd slot d s s' : calm s s' → calm s (upd slot d s').
Proof. apply calm_devs. Qed.

Lemma pending_upd o slot d s q : pending o s q → pending o (upd slot d s) q.
Proof. apply pending_devs. Qed.

Section disk.
Context (o : option (nat * ev)) (slot : nat).
Implicit Types (s : st) (q : list ev) (dd : disk_data).

(** The outcome of part of [disk_work]. *)
Definition worked s q (m : M st unit) dd : Prop :=
  ∃ s' dd' q', m s = Ok (tt, s') ∧ calm s s' ∧ pending o s' q' ∧ devs s' = devs (upd slot (Disk dd') s) ∧ disk_ok dd' ∧
    disk_step slot (now_clocks s) dd q dd' q'.

Lemma wait_for_run s q nsecs code h dd iostatus :
  pending o s q → room o q → in_time s → 0 ≤ nsecs < 2 ^ 32 → disk_ok dd →
  (h = Disk_seekdone ∧ 0 ≤ code < 32 ∧ 40 ≤ nsecs ∨ h = Disk_waitdone ∧ 0 ≤ code ≤ 3 ∧ (40 ≤ nsecs ∨ code = 2 ∧ iostatus < 2)) →
  ∃ s' e, wait_for slot nsecs code h dd s = Ok (tt, s') ∧ calm s s' ∧ pending o s' (insert_ev e q) ∧
    devs s' = devs (upd slot (Disk (set_op (dd_iostatus dd) true (dd_worktries dd) dd)) s) ∧ disk_event slot (now_clocks s) iostatus e.
Proof.
  intros Hp Hr Ht Hn Hok Hh. unfold wait_for. rewrite (bind_ok _ _ _ _ _ (put_run _ _ _)). set (s1 := upd _ _ s).
  destruct (schedule_run o s1 q nsecs slot code h) as (s' & e & E & Sm & Hp' & Ed & Ec & Ef & Hat); [by apply pending_upd|done|done|lia|].
  change (now_clocks s1) with (now_clocks s) in Hat. unfold NSECS_PER_CLOCK in Hat.
  assert (0 ≤ nsecs `div` 40) by (apply Z.div_pos; lia).
  assert ((2 * nsecs) `div` 40 ≤ DISK_DELAY) by (apply Z.div_le_upper_bound; unfold DISK_DELAY; lia).
  assert (40 ≤ nsecs → now_clocks s < ev_at e) as Hlater.
  { intros H40. assert (1 ≤ nsecs `div` 40) by (apply Z.div_le_lower_bound; lia). lia. }
  exists s', e. split_and!; [done| |done|by rewrite (sm_devs _ _ Sm)|].
  - eapply calm_trans; [apply calm_upd, calm_refl|by apply same_calm].
  - constructor; [done|lia|]. destruct Hh as [(-> & ? & ?)|(-> & ? & Hor)]; [left|right]; rewrite Ec, Ef; split_and!; try done; try lia; auto.
Qed.

Lemma totsectors_work c : Lhd.dd_totsectors (Lhd.disk_work c) = Lhd.dd_totsectors c.
Proof.
  unfold Lhd.disk_work, Lhd.dd_totsectors. case_if; [done|]. case_if; [done|]. unfold Lhd.forceio, Lhd.disk_writesector, Lhd.disk_readsector.
  destruct (negb _), (Lhd.next_fault c); cbn; by rewrite ?length_insert.
Qed.

Lemma sect_work c : Lhd.dd_sect (Lhd.disk_work c) = Lhd.dd_sect c.
Proof.
  unfold Lhd.disk_work. case_if; [done|]. case_if; [done|]. unfold Lhd.forceio, Lhd.disk_writesector, Lhd.disk_readsector.
  destruct (negb _), (Lhd.next_fault c); done.
Qed.

Lemma disk_ok_core dd c :
  disk_ok dd → Lhd.dd_totsectors c = Lhd.dd_totsectors (dd_core dd) → 0 ≤ Lhd.dd_sect c → disk_ok (set_core c dd).
Proof. intros [[] ? ? ?] Ht Hs. constructor; try done. constructor; try done. cbn. by rewrite Ht. Qed.

Lemma disk_ok_op dd a b c : disk_ok dd → disk_ok (set_op a b c dd).
Proof. by intros [[] ? ? ?]. Qed.

Lemma disk_ok_track dd tr secs nsecs : disk_ok dd → 0 ≤ tr < 32 → 0 ≤ nsecs < 1000000000 → disk_ok (set_track tr secs nsecs dd).
Proof. by intros [[] ? ? ?]. Qed.

(** [dd1] is the disk [dd] on its way through [disk_work]. *)
Record under_way dd dd1 : Prop := {
  uw_progress : in_progress dd = true;
  uw_sect : Lhd.dd_sect (dd_core dd) < Lhd.dd_totsectors (dd_core dd);
  uw_core : dd_core dd1 = dd_core dd;
  uw_ok : disk_ok dd1;
  uw_timedop : dd_timedop dd1 = false
}.

Lemma forceio_work dd dd1 : under_way dd dd1 → Lhd.forceio (dd_core dd1) = Lhd.disk_work (dd_core dd).
Proof.
  intros [Hp Hs -> _ _]. unfold Lhd.disk_work, in_progress in *. apply negb_true_iff in Hp. rewrite Hp.
  by rewrite (proj2 (Z.leb_gt _ _)) by done.
Qed.

Lemma finish_run s q dd dd1 : pending o s q → under_way dd dd1 → worked s q (finish slot dd1) dd.
Proof.
  intros Hp U. pose proof (forceio_work _ _ U) as Ef. pose proof U as [Hpr Hs Hc Hok Ht]. unfold worked, finish. rewrite put_run, Ef.
  eexists _, _, q. split; [reflexivity|]. split; [apply calm_upd, calm_refl|]. split; [by apply pending_upd|]. split; [reflexivity|].
  assert (disk_ok (set_core (Lhd.disk_work (dd_core dd)) dd1)) as Hok'.
  { apply disk_ok_core; [done|by rewrite totsectors_work, Hc|]. rewrite sect_work, <- Hc. apply Hok. }
  split; [by apply disk_ok_op|]. by apply ds_done.
Qed.

(** Waiting, once [disk_work] has counted the try. *)
Lemma waiting s q dd dd1 nsecs code h :
  pending o s q → room o q → in_time s → 0 ≤ nsecs < 2 ^ 32 → under_way dd dd1 →
  dd_worktries dd1 = dd_worktries dd + 1 → dd_worktries dd < MAX_WORKTRIES →
  (h = Disk_seekdone ∧ 0 ≤ code < 32 ∧ 40 ≤ nsecs ∨ h = Disk_waitdone ∧ 0 ≤ code ≤ 3 ∧ (40 ≤ nsecs ∨ code = 2 ∧ dd_iostatus dd < 2)) →
  worked s q (wait_for slot nsecs code h dd1) dd.
Proof.
  intros Hp Hr Ht Hn U Hw Hw' Hh. destruct (wait_for_run s q nsecs code h dd1 (dd_iostatus dd) Hp Hr Ht Hn (uw_ok _ _ U) Hh) as (s' & e & E & Cm & Hp' & Ed & He).
  exists s', (set_op (dd_iostatus dd1) true (dd_worktries dd1) dd1), (insert_ev e q). split_and!; try done; [apply disk_ok_op, U|].
  apply ds_wait; try done; apply U.
Qed.

Lemma worked_bind {A} s q (m : M st A) a (f : A → M st unit) dd : m s = Ok (a, s) → worked s q (f a) dd → worked s q (let* x := m in f x) dd.
Proof. intros E (s' & dd' & q' & Em & Hrest). exists s', dd', q'. by rewrite (bind_ok _ _ _ _ _ E). Qed.

Lemma worked_upd s q m dd d :
  worked (upd slot d s) q m dd → ∃ s' dd' q', m (upd slot d s) = Ok (tt, s') ∧ calm s s' ∧ pending o s' q' ∧
    devs s' = devs (upd slot (Disk dd') s) ∧ disk_ok dd' ∧ disk_step slot (now_clocks s) dd q dd' q'.
Proof.
  intros (s' & dd' & q' & E & Cm & Hp & Ed & Hok & Hs). exists s', dd', q'. rewrite upd_upd in Ed. split_and!; try done.
  eapply calm_trans; [apply calm_upd, calm_refl|exact Cm].
Qed.

Lemma copy_out_run s q dd dd1 :
  pending o s q → room o q → in_time s → under_way dd dd1 → dd_worktries dd1 = dd_worktries dd + 1 → dd_worktries dd < MAX_WORKTRIES →
  worked s q (copy_out slot dd1) dd.
Proof.
  intros Hp Hr Ht U Hw Hw'. unfold copy_out. destruct (negb _ && _); [|by apply finish_run].
  apply waiting; try done. right. split_and!; try done. by left.
Qed.

Lemma on_track_run s q dd dd1 cyl n off :
  pending o s q → room o q → in_time s → under_way dd dd1 → dd_worktries dd1 = dd_worktries dd + 1 → dd_worktries dd < MAX_WORKTRIES →
  dd_iostatus dd1 = dd_iostatus dd → dd_sectors dd1 !! cyl = Some n → 0 ≤ off < n →
  worked s q (on_track slot (Z.of_nat cyl) off dd1) dd.
Proof.
  intros Hp Hr Ht U Hw Hw' Hio Hn Ho. unfold on_track. destruct (is_write dd1 && _).
  { apply waiting; try done. right. split_and!; try done. by left. }
  destruct (Z.ltb_spec (dd_iostatus dd1) 2) as [Hlt|Hge]; [|by apply copy_out_run].
  destruct (rot_run s dd1 cyl n off) as (d & Hd & E); [apply U|done|done|done|apply U|].
  eapply worked_bind; [exact E|]. destruct (0 <? d).
  { apply waiting; try done. right. split_and!; try done. right. split; [done|]. by rewrite <- Hio. }
  set (dd2 := set_op 2 _ _ dd1). destruct (worked_upd s q (copy_out slot dd2) dd (Disk dd2)) as (s' & dd' & q' & E' & Hrest).
  { apply copy_out_run; try done; [by apply pending_upd|]. destruct U as [? ? ? ? ?]. constructor; try done. by apply disk_ok_op. }
  exists s', dd', q'. rewrite (bind_ok _ _ _ _ _ (put_run _ _ _)). done.
Qed.

Lemma disk_work_run s q dd :
  pending o s q → room o q → in_time s → devices (devs s) !! slot = Some (Disk dd) → disk_ok dd → dd_timedop dd = false →
  worked s q (disk_work slot) dd.
Proof.
  intros Hp Hr Ht Hd Hok Hto. unfold worked, disk_work. rewrite (bind_ok _ _ _ _ _ (get_disk_run _ _ _ Hd)), Hto.
  destruct (in_progress dd) eqn:Hpr; cbn [negb].
  2: { exists s, dd, q. split; [done|]. split; [apply calm_refl|]. split; [done|]. split; [by rewrite upd_id|]. split; [done|]. by apply ds_idle. }
  destruct (Z.leb_spec (Lhd.dd_totsectors (dd_core dd)) (Lhd.dd_sect (dd_core dd))) as [Hle|Hlt].
  { rewrite put_run. eexists _, _, q. split; [reflexivity|]. split; [apply calm_upd, calm_refl|]. split; [by apply pending_upd|]. split; [reflexivity|].
    split; [apply disk_ok_op, disk_ok_core; [done|done|apply Hok]|]. apply ds_done; [done| |done|done]. unfold Lhd.disk_work. unfold in_progress in Hpr.
    apply negb_true_iff in Hpr. by rewrite Hpr, (proj2 (Z.leb_le _ _)). }
  cbv zeta. set (dd1 := set_op _ _ _ dd). rewrite (bind_ok _ _ _ _ _ (put_run _ _ _)). apply worked_upd.
  assert (under_way dd dd1) as U by (constructor; try done; by apply disk_ok_op).
  assert (pending o (upd slot (Disk dd1) s) q) as Hp1 by (by apply pending_upd).
  destruct (Z.ltb_spec MAX_WORKTRIES (dd_worktries dd1)) as [Hmax|Hmax].
  { eapply worked_bind; [reflexivity|]. apply finish_run; [done|]. destruct U as [? ? ? ? ?]. constructor; try done.
    apply disk_ok_op, disk_ok_track; [done|lia|apply Ht]. }
  assert (dd_worktries dd < MAX_WORKTRIES) as Hw by (cbn in Hmax; lia).
  destruct (locate_run dd1 (Lhd.dd_sect (dd_core dd1))) as (tr & n & off & E & Hn & Ho & Htr); [apply U|split; [apply Hok|done]|].
  eapply worked_bind; [rewrite E; reflexivity|]. cbv beta iota. destruct (Z.eqb_spec (dd_current_track dd1) (Z.of_nat tr)) as [Heq|Hne]; cbn [negb]; [by eapply on_track_run|].
  pose proof (do_track _ (uw_ok _ _ U)) as Htrack. cbv zeta. set (dist := Z.of_nat tr - dd_current_track dd1) in *.
  assert (40 ≤ disk_seektime (if dist <? 0 then - dist else dist) < 2 ^ 32) as Hseek by (apply seektime_run; destruct (Z.ltb_spec dist 0); lia).
  apply waiting; try done; [lia|]. left. split_and!; (done || lia).
Qed.

(** The interrupt line follows the status register. *)
Definition disk_line (dd : disk_data) (i : Z) : Z :=
  if Lhd.disk_irq (dd_core dd) then raise_irq slot i else lower_irq slot i.

Definition with_line (dd : disk_data) (b : bus) : bus := set_interrupts (disk_line dd (interrupts b)) b.

Lemma line_run s dd :
  devices (devs s) !! slot = Some (Disk dd) →
  (let* dd := get_disk slot in if Lhd.disk_irq (dd_core dd) then RAISE_IRQ slot else LOWER_IRQ slot) s =
  Ok (tt, set_devs (with_line dd (devs s)) s).
Proof.
  intros Hd. rewrite (bind_ok _ _ _ _ _ (get_disk_run _ _ _ Hd)). unfold with_line, disk_line. by destruct (Lhd.disk_irq _).
Qed.

Lemma disk_update_run s q dd :
  pending o s q → room o q → in_time s → devices (devs s) !! slot = Some (Disk dd) → disk_ok dd → dd_timedop dd = false →
  ∃ s' dd' q', disk_update slot s = Ok (tt, s') ∧ calm s s' ∧ pending o s' q' ∧
    devs s' = with_line dd' (devs (upd slot (Disk dd') s)) ∧ disk_ok dd' ∧ disk_step slot (now_clocks s) dd q dd' q'.
Proof.
  intros Hp Hr Ht Hd Hok Hto. destruct (disk_work_run s q dd Hp Hr Ht Hd Hok Hto) as (s1 & dd' & q' & E & Cm & Hp' & Ed & Hok' & Hs).
  assert (devices (devs s1) !! slot = Some (Disk dd')) as Hd1 by (rewrite Ed; apply upd_lookup).
  eexists _, dd', q'. unfold disk_update. rewrite (bind_ok _ _ _ _ _ E), (line_run _ _ Hd1). split; [reflexivity|].
  split_and!; [by apply calm_devs|by apply pending_devs|by cbn; rewrite Ed|done|done].
Qed.

(** An operation under way goes on. *)
Lemma disk_update_busy s dd :
  devices (devs s) !! slot = Some (Disk dd) → dd_timedop dd = true →
  disk_update slot s = Ok (tt, set_devs (with_line dd (devs s)) s).
Proof.
  intros Hd Hto. unfold disk_update. erewrite bind_ok; [by apply line_run|]. unfold disk_work.
  by rewrite (bind_ok _ _ _ _ _ (get_disk_run _ _ _ Hd)), Hto.
Qed.
End disk.

(** ** Finished operations *)
Lemma work_finished c : Z.land (Lhd.dd_stat (Lhd.disk_work c)) Lhd.DISKBIT_INPROGRESS = 0.
Proof.
  assert (∀ r b, Z.land b 1 = 0 → Z.land (Lhd.FINISH r b) 1 = 0) as Hf.
  { intros r b Hb. unfold Lhd.FINISH, Lhd.DISKBIT_INPROGRESS. rewrite Z.land_lor_distr_l, Hb, <- Z.land_assoc, Z.lor_0_r.
    change (Z.land (Z.lnot 1) 1) with 0. apply Z.land_0_r. }
  unfold Lhd.disk_work. destruct (Z.eqb_spec (Z.land (Lhd.dd_stat c) Lhd.DISKBIT_INPROGRESS) 0); [done|].
  destruct (_ <=? _); [by apply Hf|]. unfold Lhd.forceio. destruct (if negb _ then _ else _) as [[] dd']; by apply Hf.
Qed.

Lemma work_complete c :
  Z.land (Lhd.dd_stat c) Lhd.DISKBIT_INPROGRESS ≠ 0 → Lhd.disk_irq (Lhd.disk_work c) = true.
Proof.
  intros Hp. assert (∀ r b, Z.testbit b 2 = true → negb (Z.land (Lhd.FINISH r b) Lhd.DISKBIT_COMPLETE =? 0) = true) as Hf.
  { intros r b Hb. apply negb_true_iff, Z.eqb_neq. intros Hz. apply (f_equal (fun z => Z.testbit z 2)) in Hz.
    unfold Lhd.FINISH, Lhd.DISKBIT_COMPLETE in Hz. rewrite Z.land_spec, Z.lor_spec, Hb, orb_true_r in Hz. done. }
  unfold Lhd.disk_irq, Lhd.disk_work. rewrite (proj2 (Z.eqb_neq _ _) Hp). destruct (_ <=? _); [by apply Hf|].
  unfold Lhd.forceio. destruct (if negb _ then _ else _) as [[] dd']; by apply Hf.
Qed.

(** ** Interrupt lines *)
Lemma irq_bit_pow slot : (slot < 32)%nat → irq_bit slot = 2 ^ Z.of_nat slot.
Proof.
  intros Hs. unfold irq_bit. rewrite Z.shiftl_1_l. apply u32_small. split; [by apply Z.pow_nonneg|]. apply Z.pow_lt_mono_r; lia.
Qed.

Lemma raise_spec slot i j : (slot < 32)%nat → Z.testbit (raise_irq slot i) (Z.of_nat j) = Z.testbit i (Z.of_nat j) || bool_decide (j = slot).
Proof.
  intros Hs. unfold raise_irq. rewrite irq_bit_pow, Z.lor_spec by done. f_equal. case_bool_decide as Hj; [subst; by rewrite Z.pow2_bits_true by lia|].
  apply Z.pow2_bits_false. lia.
Qed.

Lemma lower_spec slot i j : (slot < 32)%nat → Z.testbit (lower_irq slot i) (Z.of_nat j) = Z.testbit i (Z.of_nat j) && negb (bool_decide (j = slot)).
Proof.
  intros Hs. unfold lower_irq. rewrite irq_bit_pow, Z.land_spec, Z.lnot_spec by (done || lia). f_equal. f_equal.
  case_bool_decide as Hj; [subst; by rewrite Z.pow2_bits_true by lia|]. apply Z.pow2_bits_false. lia.
Qed.

(** Only the device in [slot] and its line change. *)
Record touch (slot : nat) (b b' : bus) : Prop := {
  tc_others : ∀ j, j ≠ slot → devices b' !! j = devices b !! j;
  tc_lines : ∀ j, j ≠ slot → Z.testbit (interrupts b') (Z.of_nat j) = Z.testbit (interrupts b) (Z.of_nat j)
}.

Lemma touch_refl slot b : touch slot b b.
Proof. done. Qed.

Lemma touch_trans slot b1 b2 b3 : touch slot b1 b2 → touch slot b2 b3 → touch slot b1 b3.
Proof. intros [A1 A2] [B1 B2]. split; intros j Hj; [rewrite B1 by done; by apply A1|rewrite B2 by done; by apply A2]. Qed.

Lemma touch_devices slot d b : touch slot b (set_devices (<[slot := d]> (devices b)) b).
Proof. split; [|done]. intros j Hj. cbn. by rewrite lookup_insert_ne. Qed.

Lemma touch_raise slot b : (slot < 32)%nat → touch slot b (set_interrupts (raise_irq slot (interrupts b)) b).
Proof. intros Hs. split; [done|]. intros j Hj. cbn. rewrite raise_spec by done. rewrite bool_decide_false by done. apply orb_false_r. Qed.

Lemma touch_lower slot b : (slot < 32)%nat → touch slot b (set_interrupts (lower_irq slot (interrupts b)) b).
Proof. intros Hs. split; [done|]. intros j Hj. cbn. rewrite lower_spec by done. rewrite bool_decide_false by done. apply andb_true_r. Qed.

Lemma touch_line slot dd b : (slot < 32)%nat → touch slot b (with_line slot dd b).
Proof. intros Hs. unfold with_line, disk_line. destruct (Lhd.disk_irq _); [by apply touch_raise|by apply touch_lower]. Qed.

(** ** Timer and serial port *)
Section others.
Context (o : option (nat * ev)) (slot : nat) (Hslot : (slot < 32)%nat).
Implicit Types (s : st) (q : list ev).

(** No character takes longer, in clocks. *)
Definition SERIAL_DELAY : Z := 1041.

Definition later (now : Z) (h : handler) (e : ev) : Prop :=
  ev_data e = slot ∧ ev_func e = h ∧ now < ev_at e ≤ now + SERIAL_DELAY.

Lemma get_timer_run td s : devices (devs s) !! slot = Some (Timer td) → get_timer slot s = Ok (td, s).
Proof. unfold get_timer. by intros ->. Qed.

Lemma get_serial_run sd s : devices (devs s) !! slot = Some (Serial sd) → get_serial slot s = Ok (sd, s).
Proof. unfold get_serial. by intros ->. Qed.

(** The timer goes off after the microseconds counted, or up to as much later. *)
Lemma timer_start_run s q td :
  pending o s q → room o q → in_time s → devices (devs s) !! slot = Some (Timer td) → 0 ≤ td_count_usecs td < 2 ^ 32 →
  ∃ s' e, timer_start slot s = Ok (tt, s') ∧ calm s s' ∧ pending o s' (insert_ev e q) ∧
    devs s' = devs (upd slot (Timer (mktimer (td_restartflag td) (td_count_usecs td) (u32 (td_generation td + 1)))) s) ∧
    ev_data e = slot ∧ ev_func e = Timer_interrupt ∧ ev_code e = u32 (td_generation td + 1) ∧
    now_clocks s + td_count_usecs td * 25 ≤ ev_at e ≤ now_clocks s + td_count_usecs td * 50.
Proof.
  intros Hp Hr Ht Hd Hc. unfold timer_start. rewrite (bind_ok _ _ _ _ _ (get_timer_run _ _ Hd)). cbv zeta. rewrite u64_small by lia.
  rewrite (bind_ok _ _ _ _ _ (put_run _ _ _)). set (s1 := upd _ _ s).
  destruct (schedule_run o s1 q (td_count_usecs td * 1000) slot (u32 (td_generation td + 1)) Timer_interrupt) as (s' & e & E & Sm & Hp' & Ed & Ec & Ef & Hat);
    [by apply pending_upd|done|done|lia|].
  exists s', e. change (now_clocks s1) with (now_clocks s) in Hat. unfold NSECS_PER_CLOCK in Hat.
  replace (td_count_usecs td * 1000) with (td_count_usecs td * 25 * 40) in Hat by lia.
  replace (2 * (td_count_usecs td * 25 * 40)) with (td_count_usecs td * 50 * 40) in Hat by lia. rewrite !Z.div_mul in Hat by lia.
  split_and!; try done; try lia; [|by rewrite (sm_devs _ _ Sm)]. eapply calm_trans; [apply calm_upd, calm_refl|by apply same_calm].
Qed.

(** What the function of a timer's event does: nothing when the event is of an earlier setting. *)
Definition timer_step (now gen : Z) (td : timer_data) (q : list ev) (td' : timer_data) (q' : list ev) : Prop :=
  if decide (gen = td_generation td ∧ td_restartflag td ≠ 0) then
    td' = mktimer (td_restartflag td) (td_count_usecs td) (u32 (td_generation td + 1)) ∧
    ∃ e, q' = insert_ev e q ∧ ev_data e = slot ∧ ev_func e = Timer_interrupt ∧ ev_code e = td_generation td' ∧
      now + td_count_usecs td * 25 ≤ ev_at e ≤ now + td_count_usecs td * 50
  else td' = td ∧ q' = q.

Lemma timer_interrupt_run s q td gen :
  pending o s q → room o q → in_time s → devices (devs s) !! slot = Some (Timer td) → 0 ≤ td_count_usecs td < 2 ^ 32 →
  ∃ s' td' q', timer_interrupt slot gen s = Ok (tt, s') ∧ calm s s' ∧ pending o s' q' ∧ touch slot (devs s) (devs s') ∧
    devices (devs s') !! slot = Some (Timer td') ∧ timer_step (now_clocks s) gen td q td' q' ∧ output (devs s') = output (devs s) ∧
    Z.testbit (interrupts (devs s')) (Z.of_nat slot) = Z.testbit (interrupts (devs s)) (Z.of_nat slot) || bool_decide (gen = td_generation td).
Proof.
  intros Hp Hr Ht Hd Hc. unfold timer_interrupt, timer_step. rewrite (bind_ok _ _ _ _ _ (get_timer_run _ _ Hd)).
  destruct (Z.eqb_spec gen (td_generation td)) as [Hg|Hg]; cbn [negb].
  2: { exists s, td, q. rewrite decide_False, bool_decide_false, orb_false_r by tauto. split_and!; try done. }
  erewrite bind_ok by reflexivity. set (s1 := set_devs _ s). assert (touch slot (devs s) (devs s1)) as T1 by (by apply touch_raise).
  assert (pending o s1 q) as Hp1 by (by apply pending_devs). assert (calm s s1) as C1 by (apply calm_devs, calm_refl).
  rewrite (bool_decide_true (gen = td_generation td)), orb_true_r by done.
  assert (Z.testbit (interrupts (devs s1)) (Z.of_nat slot) = true) as Hline by (cbn; by rewrite raise_spec, bool_decide_true, orb_true_r).
  destruct (Z.eqb_spec (td_restartflag td) 0) as [Hz|Hnz]; cbn [negb].
  { exists s1, td, q. rewrite decide_False by tauto. split_and!; try done. }
  destruct (timer_start_run s1 q td) as (s' & e & E & Cm & Hp' & Ed & De & Fe & Ce & Hat); try done.
  change (now_clocks s1) with (now_clocks s) in Hat. eexists s', _, (insert_ev e q). rewrite decide_True by tauto. split_and!; try done.
  - by eapply calm_trans.
  - rewrite Ed. eapply touch_trans; [exact T1|apply touch_devices].
  - rewrite Ed. apply upd_lookup.
  - by exists e.
  - by rewrite Ed.
  - by rewrite Ed.
Qed.

Record serial_ok (sd : ser_data) : Prop := {
  so_buf : length (sd_inbuf sd) = Z.to_nat INBUF_SIZE;
  so_head : 0 ≤ sd_inbufhead sd < INBUF_SIZE;
  so_tail : 0 ≤ sd_inbuftail sd < INBUF_SIZE
}.

(** The characters typed and not yet delivered. *)
Definition count (sd : ser_data) : Z := (sd_inbuftail sd - sd_inbufhead sd) `mod` INBUF_SIZE.
Definition fifo (sd : ser_data) : list Z :=
  (fun k => sd_inbuf sd !!! Z.to_nat ((sd_inbufhead sd + k) `mod` INBUF_SIZE)) <$> seqZ 0 (count sd).

Lemma count_cases sd : serial_ok sd →
  count sd = if sd_inbufhead sd <=? sd_inbuftail sd then sd_inbuftail sd - sd_inbufhead sd else sd_inbuftail sd - sd_inbufhead sd + 512.
Proof.
  intros [_ Hh Ht]. unfold count, INBUF_SIZE in *. destruct (Z.leb_spec (sd_inbufhead sd) (sd_inbuftail sd)); [apply Z.mod_small; lia|].
  symmetry. apply (Z.mod_unique _ _ (-1)); lia.
Qed.

Lemma count_nonneg sd : 0 ≤ count sd.
Proof. by apply Z.mod_pos_bound. Qed.

Lemma fifo_length sd : length (fifo sd) = Z.to_nat (count sd).
Proof. unfold fifo. by rewrite length_fmap, length_seqZ. Qed.

Lemma fifo_empty sd : serial_ok sd → sd_inbufhead sd = sd_inbuftail sd → fifo sd = [].
Proof. intros H E. unfold fifo. rewrite count_cases, E, Z.leb_refl, Z.sub_diag by done. done. Qed.

Lemma next_index a : 0 ≤ a < INBUF_SIZE → (a + 1) `mod` INBUF_SIZE = if decide (a = 511) then 0 else a + 1.
Proof. unfold INBUF_SIZE. intros Ha. case_decide as Hc; [by rewrite Hc|]. apply Z.mod_small. lia. Qed.

Lemma fifo_pop sd sd' :
  serial_ok sd → sd_inbufhead sd ≠ sd_inbuftail sd → sd_inbufhead sd' = (sd_inbufhead sd + 1) `mod` INBUF_SIZE →
  sd_inbuftail sd' = sd_inbuftail sd → sd_inbuf sd' = sd_inbuf sd →
  serial_ok sd' ∧ fifo sd = (sd_inbuf sd !!! Z.to_nat (sd_inbufhead sd)) :: fifo sd'.
Proof.
  intros Hok Hne Eh Et Eb. pose proof (so_head _ Hok) as Hh. pose proof (so_tail _ Hok) as Ht.
  assert (serial_ok sd') as Hok'.
  { constructor; rewrite ?Eb, ?Et, ?Eh; [apply Hok| |done]. apply Z.mod_pos_bound. unfold INBUF_SIZE. lia. }
  split; [done|]. assert (count sd = Z.succ (count sd')) as Ec.
  { rewrite !count_cases, Eh, Et, next_index by done. unfold INBUF_SIZE in *.
    case_decide; repeat match goal with |- context [?a <=? ?b] => destruct (Z.leb_spec a b) end; lia. }
  unfold fifo. rewrite Ec. assert (0 ≤ count sd') by (apply Z.mod_pos_bound; unfold INBUF_SIZE; lia).
  rewrite seqZ_cons by lia. rewrite Z.pred_succ. cbn. rewrite Z.add_0_r, (Z.mod_small (sd_inbufhead sd)) by done. f_equal. rewrite Eb.
  rewrite <- (fmap_add_seqZ 1 0 (count sd') : _ = seqZ (Z.succ 0) _), <- list_fmap_compose. apply list_fmap_ext. intros k j _. cbn.
  rewrite Eh, Z.add_mod_idemp_l by (unfold INBUF_SIZE; lia). do 3 f_equal. lia.
Qed.

Lemma fifo_push sd sd' ch :
  serial_ok sd → (sd_inbuftail sd + 1) `mod` INBUF_SIZE ≠ sd_inbufhead sd → sd_inbufhead sd' = sd_inbufhead sd →
  sd_inbuftail sd' = (sd_inbuftail sd + 1) `mod` INBUF_SIZE → sd_inbuf sd' = <[Z.to_nat (sd_inbuftail sd) := ch]> (sd_inbuf sd) →
  serial_ok sd' ∧ fifo sd' = fifo sd ++ [ch].
Proof.
  intros Hok Hne Eh Et Eb. pose proof (so_head _ Hok) as Hh. pose proof (so_tail _ Hok) as Ht. pose proof (so_buf _ Hok) as Hb.
  assert (serial_ok sd') as Hok'.
  { constructor; rewrite ?Eb, ?Et, ?Eh; [by rewrite length_insert|done|]. apply Z.mod_pos_bound. unfold INBUF_SIZE. lia. }
  split; [done|]. rewrite next_index in Hne, Et by done. assert (count sd' = count sd + 1 ∧ 0 ≤ count sd < 511) as [Ec Hc].
  { rewrite !count_cases, Eh, Et by done. unfold INBUF_SIZE in *.
    case_decide; repeat match goal with |- context [?a <=? ?b] => destruct (Z.leb_spec a b) end; lia. }
  unfold fifo. rewrite Ec, seqZ_app, fmap_app by lia. f_equal.
  - apply list_fmap_ext. intros k j Hj. apply lookup_seqZ in Hj as [-> Hk]. cbn. rewrite Eh, Eb, Z.add_0_l. apply list_lookup_total_insert_ne.
    intros He. apply Z2Nat.inj in He; [|lia|apply Z.mod_pos_bound; unfold INBUF_SIZE; lia].
    revert He Hk. rewrite count_cases by done. unfold INBUF_SIZE in *. set (h := sd_inbufhead sd) in *. set (tl := sd_inbuftail sd) in *.
    intros He Hk. destruct (decide (h + Z.of_nat k < 512)).
    + rewrite Z.mod_small in He by lia. destruct (Z.leb_spec h tl); lia.
    + rewrite <- (Z.mod_unique (h + Z.of_nat k) 512 1 (h + Z.of_nat k - 512)) in He; destruct (Z.leb_spec h tl); lia.
  - change (seqZ (0 + count sd) 1) with [0 + (0 + count sd)]. cbn [fmap list_fmap]. rewrite Eh, Eb, !Z.add_0_l. replace ((sd_inbufhead sd + count sd) `mod` INBUF_SIZE) with (sd_inbuftail sd).
    + by rewrite list_lookup_total_insert_eq by (rewrite Hb; unfold INBUF_SIZE in *; lia).
    + rewrite count_cases by done. unfold INBUF_SIZE in *. destruct (Z.leb_spec (sd_inbufhead sd) (sd_inbuftail sd)).
      * rewrite Z.mod_small by lia. lia.
      * apply (Z.mod_unique _ _ 1); lia.
Qed.

Lemma setirq_run s sd :
  ∃ i, setirq slot sd s = Ok (tt, set_devs (set_interrupts i (devs s)) s) ∧ touch slot (devs s) (set_interrupts i (devs s)).
Proof.
  unfold setirq. destruct (_ || _); eexists; (split; [reflexivity|]); [by apply touch_raise|by apply touch_lower].
Qed.

(** What changes in the serial port: [busy] its event for the buffer, [q'] the events. *)
Record serial_step s q (m : M st unit) (s' : st) (sd' : ser_data) (q' : list ev) : Prop := {
  ss_run : m s = Ok (tt, s');
  ss_calm : calm s s';
  ss_pending : pending o s' q';
  ss_touch : touch slot (devs s) (devs s');
  ss_dev : devices (devs s') !! slot = Some (Serial sd');
  ss_output : output (devs s') = output (devs s);
  ss_ok : serial_ok sd'
}.

Lemma serial_writedone_run s q sd :
  pending o s q → devices (devs s) !! slot = Some (Serial sd) → serial_ok sd →
  ∃ s' sd', serial_step s q (serial_writedone slot) s' sd' q ∧ sd_wbusy sd' = false ∧ sd_rbusy sd' = sd_rbusy sd ∧ fifo sd' = fifo sd ∧
    sd_wirq sd' = mkirq (si_on (sd_wirq sd)) true ∧ sd_rirq sd' = sd_rirq sd.
Proof.
  intros Hp Hd Hok. unfold serial_writedone. set (sd1 := mkser false (sd_rbusy sd) (sd_rirq sd) (mkirq (si_on (sd_wirq sd)) true)
    (sd_readch sd) (sd_inbuf sd) (sd_inbufhead sd) (sd_inbuftail sd)).
  destruct (setirq_run (upd slot (Serial sd1) s) sd1) as (i & E & T). eexists _, sd1. split; [|done]. constructor.
  - rewrite (bind_ok _ _ _ _ _ (get_serial_run _ _ Hd)). cbv zeta. rewrite (bind_ok _ _ _ _ _ (put_run _ _ _)). exact E.
  - apply calm_devs, calm_upd, calm_refl.
  - by apply pending_devs, pending_upd.
  - eapply touch_trans; [apply touch_devices|exact T].
  - cbn. apply lookup_insert_eq.
  - done.
  - by destruct Hok.
Qed.

Lemma serial_pushinput_run s q sd :
  pending o s q → room o q → in_time s → devices (devs s) !! slot = Some (Serial sd) → serial_ok sd →
  ∃ s' sd' q', serial_step s q (serial_pushinput slot) s' sd' q' ∧ (sd_wbusy sd' = sd_wbusy sd ∧ sd_wirq sd' = sd_wirq sd) ∧
    match fifo sd with
    | [] => sd_rbusy sd' = false ∧ q' = q ∧ fifo sd' = [] ∧ sd_readch sd' = sd_readch sd
    | ch :: rest => sd_rbusy sd' = true ∧ (∃ e, q' = insert_ev e q ∧ later (now_clocks s) Serial_pushinput e) ∧
        fifo sd' = rest ∧ sd_readch sd' = u8 ch ∧ si_ready (sd_rirq sd') = true
    end.
Proof.
  intros Hp Hr Ht Hd Hok. unfold serial_pushinput.
  destruct (Z.eqb_spec (sd_inbufhead sd) (sd_inbuftail sd)) as [Heq|Hne].
  { set (sd1 := mkser (sd_wbusy sd) false (sd_rirq sd) (sd_wirq sd) (sd_readch sd) (sd_inbuf sd) (sd_inbufhead sd) (sd_inbuftail sd)).
    assert (serial_ok sd1) as Hok1 by (by destruct Hok). exists (upd slot (Serial sd1) s), sd1, q. split.
    - constructor; [|apply calm_upd, calm_refl|by apply pending_upd|apply touch_devices|apply upd_lookup|done|done].
      rewrite (bind_ok _ _ _ _ _ (get_serial_run _ _ Hd)), (proj2 (Z.eqb_eq _ _)) by done. apply put_run.
    - rewrite (fifo_empty sd), (fifo_empty sd1) by done. done. }
  destruct (lookup_lt_is_Some_2 (sd_inbuf sd) (Z.to_nat (sd_inbufhead sd))) as [ch Hch].
  { rewrite (so_buf _ Hok). pose proof (so_head _ Hok). unfold INBUF_SIZE in *. lia. }
  set (sd1 := mkser (sd_wbusy sd) (sd_rbusy sd) (mkirq (si_on (sd_rirq sd)) true) (sd_wirq sd) (u8 ch) (sd_inbuf sd)
    ((sd_inbufhead sd + 1) `mod` INBUF_SIZE) (sd_inbuftail sd)).
  set (sd2 := mkser (sd_wbusy sd1) true (sd_rirq sd1) (sd_wirq sd1) (sd_readch sd1) (sd_inbuf sd1) (sd_inbufhead sd1) (sd_inbuftail sd1)).
  destruct (setirq_run (upd slot (Serial sd1) s) sd1) as (i & E & T). set (s1 := set_devs _ _) in E.
  destruct (fifo_pop sd sd2 Hok Hne) as [Hok2 Ef]; [done..|].
  destruct (schedule_run o (upd slot (Serial sd2) s1) q SERIAL_NSECS slot 0 Serial_pushinput) as (s' & e & Es & Sm & Hp' & Ed & _ & Ee & Hat);
    [by apply pending_upd, pending_devs, pending_upd|done|done|done|].
  exists s', sd2, (insert_ev e q). split.
  - constructor.
    + rewrite (bind_ok _ _ _ _ _ (get_serial_run _ _ Hd)), (proj2 (Z.eqb_neq _ _)) by done. erewrite bind_ok; [|rewrite Hch; reflexivity].
      cbv zeta. rewrite (bind_ok _ _ _ _ _ (put_run _ _ _)), (bind_ok _ _ _ _ _ E), (bind_ok _ _ _ _ _ (put_run _ _ _)). exact Es.
    + eapply calm_trans; [apply calm_upd, calm_devs, calm_upd, calm_refl|by apply same_calm].
    + done.
    + rewrite (sm_devs _ _ Sm). eapply touch_trans; [apply touch_devices|]. eapply touch_trans; [exact T|apply touch_devices].
    + rewrite (sm_devs _ _ Sm). apply upd_lookup.
    + by rewrite (sm_devs _ _ Sm).
    + done.
  - rewrite Ef. split; [done|]. split; [done|]. split.
    + exists e. split; [done|]. change (now_clocks (upd slot (Serial sd2) s1)) with (now_clocks s) in Hat.
      change (SERIAL_NSECS `div` NSECS_PER_CLOCK) with 520 in Hat. change ((2 * SERIAL_NSECS) `div` NSECS_PER_CLOCK) with 1041 in Hat.
      split_and!; try done; unfold SERIAL_DELAY; lia.
    + split; [done|]. split; [|done]. cbn. by rewrite (list_lookup_total_correct _ _ _ Hch).
Qed.

(** A key is queued unless the buffer is full, and delivered at once when none is being delivered. *)
Lemma serial_input_run s q sd ch :
  pending o s q → room o q → in_time s → devices (devs s) !! slot = Some (Serial sd) → serial_ok sd →
  ∃ s' sd' q', serial_step s q (serial_input slot ch) s' sd' q' ∧ (sd_wbusy sd' = sd_wbusy sd ∧ sd_wirq sd' = sd_wirq sd) ∧
    if decide (count sd = 511) then sd' = sd ∧ q' = q
    else if sd_rbusy sd then sd_rbusy sd' = true ∧ q' = q ∧ fifo sd' = fifo sd ++ [ch]
    else sd_rbusy sd' = true ∧ (∃ e, q' = insert_ev e q ∧ later (now_clocks s) Serial_pushinput e) ∧
      ∃ c, fifo sd ++ [ch] = c :: fifo sd' ∧ sd_readch sd' = u8 c.
Proof.
  intros Hp Hr Ht Hd Hok. unfold serial_input. pose proof (so_head _ Hok) as Hh. pose proof (so_tail _ Hok) as Htl. unfold INBUF_SIZE in Hh, Htl.
  assert ((sd_inbuftail sd + 1) `mod` INBUF_SIZE = sd_inbufhead sd ↔ count sd = 511) as Hfull.
  { rewrite count_cases, next_index by done. case_decide; destruct (Z.leb_spec (sd_inbufhead sd) (sd_inbuftail sd)); lia. }
  destruct (Z.eqb_spec ((sd_inbuftail sd + 1) `mod` INBUF_SIZE) (sd_inbufhead sd)) as [Heq|Hne].
  { exists s, sd, q. rewrite decide_True by (by apply Hfull). split; [|done]. constructor; try done.
    rewrite (bind_ok _ _ _ _ _ (get_serial_run _ _ Hd)). cbv zeta. by rewrite (proj2 (Z.eqb_eq _ _)). }
  destruct (decide (count sd = 511)) as [|_]; [tauto|]. destruct (lookup_lt_is_Some_2 (sd_inbuf sd) (Z.to_nat (sd_inbuftail sd))) as [c0 Hc0].
  { rewrite (so_buf _ Hok). unfold INBUF_SIZE in *. lia. }
  set (sd1 := mkser (sd_wbusy sd) (sd_rbusy sd) (sd_rirq sd) (sd_wirq sd) (sd_readch sd) (<[Z.to_nat (sd_inbuftail sd) := ch]> (sd_inbuf sd))
    (sd_inbufhead sd) ((sd_inbuftail sd + 1) `mod` INBUF_SIZE)).
  destruct (fifo_push sd sd1 ch Hok Hne) as [Hok1 Ef]; [done..|].
  destruct (sd_rbusy sd) eqn:Hb.
  - exists (upd slot (Serial sd1) s), sd1, q. split; [|done]. constructor; [|apply calm_upd, calm_refl|by apply pending_upd|apply touch_devices|apply upd_lookup|done|done].
    rewrite (bind_ok _ _ _ _ _ (get_serial_run _ _ Hd)). cbv zeta. rewrite (proj2 (Z.eqb_neq _ _)) by done.
    erewrite bind_ok; [|rewrite Hc0; reflexivity]. rewrite (bind_ok _ _ _ _ _ (put_run _ _ _)), Hb. done.
  - destruct (serial_pushinput_run (upd slot (Serial sd1) s) q sd1) as (s' & sd' & q' & [E Cm Hp' T Hd' Ho' Hok'] & Hw & Hm);
      [by apply pending_upd|done|done|apply upd_lookup|done|].
    rewrite Ef in Hm. destruct (fifo sd ++ [ch]) as [|c rest] eqn:Eapp; [by destruct (fifo sd)|]. destruct Hm as (Hb' & He & Hf' & Hc & _).
    exists s', sd', q'. split; [|split; [done|]].
    + constructor; try done.
      * rewrite (bind_ok _ _ _ _ _ (get_serial_run _ _ Hd)). cbv zeta. rewrite (proj2 (Z.eqb_neq _ _)) by done.
        erewrite bind_ok; [|rewrite Hc0; reflexivity]. rewrite (bind_ok _ _ _ _ _ (put_run _ _ _)), Hb. exact E.
      * eapply calm_trans; [apply calm_upd, calm_refl|exact Cm].
      * eapply touch_trans; [apply touch_devices|exact T].
    + split; [done|]. split; [done|]. exists c. by rewrite Hf'.
Qed.
End others.

End Lamebussafe.
