(* ===== verification/Lamebusspec.v ===== *)
(** * The bus: invariant and theorems

    [bus_inv] is the invariant of the devices with their pending events; the devices keep the promise [EventInv] of Clockspec.v with
    it.  A disk operation that has been started always has an event pending, and each event brings it closer to its end, so
    that it ends, with the result of the disk of Lhd.v and the interrupt line up. *)
From stdpp Require Import base list gmap numbers sorting relations.
From S2P Require Import Prelude Copyinout Uio Lhd Clock Clockspec Lamebus Lamebussafe.
Local Open Scope Z_scope.

Module Lamebusspec.
Import Clock Clockspec Lamebus Lamebussafe.

(** ** The invariant *)
Definition rank (e : ev) : nat :=
  match ev_func e with
  | Disk_seekdone => 2
  | Disk_waitdone => if ev_code e <? 2 then 2 else 1
  | _ => 0
  end.

(** Keys go to a serial port. *)
Definition accepts (b : bus) (k : key) : Prop := ldi <$> devices b !! fst k = Some (1, 4, 1).

Definition ev_ok (b : bus) (e : ev) : Prop :=
  match ev_func e with
  | Timer_interrupt => ldi <$> devices b !! ev_data e = Some (1, 2, 1)
  | Serial_writedone | Serial_pushinput => ldi <$> devices b !! ev_data e = Some (1, 4, 1)
  | Disk_seekdone => ldi <$> devices b !! ev_data e = Some (1, 3, 2) ∧ 0 ≤ ev_code e < 32
  | Disk_waitdone => ldi <$> devices b !! ev_data e = Some (1, 3, 2) ∧ 0 ≤ ev_code e ≤ 3
  | Dopoweroff => True
  end.

(** The events of the device in [slot]. *)
Definition dev_ev (slot : nat) (e : ev) : Prop := ev_data e = slot ∧ ev_func e ≠ Dopoweroff.
Definition is_ev (slot : nat) (h : handler) (e : ev) : Prop := ev_data e = slot ∧ ev_func e = h.

#[global] Instance handler_eq : EqDecision handler.
Proof. solve_decision. Defined.

#[global] Instance dev_ev_dec slot e : Decision (dev_ev slot e).
Proof. unfold dev_ev. apply _. Defined.

Lemma is_dev_ev slot h e : is_ev slot h e → h ≠ Dopoweroff → dev_ev slot e.
Proof. intros [Hd Hf] Hh. split; [done|congruence]. Qed.

Definition own (slot : nat) (q : list ev) : list ev := filter (dev_ev slot) q.
Definition pend (slot : nat) (h : handler) (q : list ev) : nat := length (filter (fun e => ev_func e = h) (own slot q)).

Lemma elem_own slot q e : e ∈ own slot q ↔ dev_ev slot e ∧ e ∈ q.
Proof. apply list_elem_of_filter. Qed.

Lemma own_elem slot q q' e : own slot q ≡ₚ own slot q' → dev_ev slot e → e ∈ q ↔ e ∈ q'.
Proof. intros Hp He. assert (e ∈ own slot q ↔ e ∈ own slot q') as Hi by (by rewrite Hp). rewrite !elem_own in Hi. tauto. Qed.

Lemma own_perm slot q q' : q ≡ₚ q' → own slot q ≡ₚ own slot q'.
Proof. intros Hp. unfold own. by rewrite Hp. Qed.

Lemma own_skip slot l q : Forall (fun e => ¬ dev_ev slot e) l → own slot (l ++ q) = own slot q.
Proof. intros Hl. unfold own. rewrite filter_app. induction Hl as [|e l He _ IH]; [done|]. by rewrite filter_cons_False. Qed.

Lemma pend_perm slot h q q' : own slot q ≡ₚ own slot q' → pend slot h q = pend slot h q'.
Proof. intros Hp. unfold pend. by rewrite Hp. Qed.

Lemma pend_cons slot h e q : dev_ev slot e → pend slot h (e :: q) = ((if decide (ev_func e = h) then 1 else 0) + pend slot h q)%nat.
Proof. intros He. unfold pend, own. rewrite filter_cons_True by done. cbn. by destruct (decide _). Qed.

Lemma pend_insert slot h e q : dev_ev slot e → pend slot h (insert_ev e q) = ((if decide (ev_func e = h) then 1 else 0) + pend slot h q)%nat.
Proof. intros He. rewrite <- pend_cons by done. apply pend_perm, own_perm, insert_ev_perm. Qed.

Lemma pend_pos slot h e q : h ≠ Dopoweroff → e ∈ q → is_ev slot h e → pend slot h q ≠ 0%nat.
Proof.
  intros Hh He Hi Hz. unfold pend in Hz. apply nil_length_inv in Hz. assert (e ∈ filter (fun e => ev_func e = h) (own slot q)) as Hin.
  { apply list_elem_of_filter. split; [apply Hi|]. apply elem_own. split; [by eapply is_dev_ev|done]. }
  rewrite Hz in Hin. by apply not_elem_of_nil in Hin.
Qed.

Lemma pend_some slot h q : pend slot h q ≠ 0%nat → ∃ e, e ∈ q ∧ is_ev slot h e.
Proof.
  unfold pend. intros Hn. destruct (filter _ _) as [|e l] eqn:E; [done|]. exists e.
  assert (e ∈ filter (fun e => ev_func e = h) (own slot q)) as Hin by (rewrite E; left). apply list_elem_of_filter in Hin as [Hf Hin].
  apply elem_own in Hin as [[Hd _] Hin]. done.
Qed.

Definition dev_ok (now : Z) (slot : nat) (q : list ev) (d : device) : Prop :=
  match d with
  | Timer td => 0 ≤ td_count_usecs td < 2 ^ 32 ∧
      (td_restartflag td ≠ 0 → 0 < td_count_usecs td ∨ ∀ e, e ∈ q → dev_ev slot e → ev_code e ≠ td_generation td)
  | Serial sd => serial_ok sd ∧ pend slot Serial_writedone q = (if sd_wbusy sd then 1 else 0)%nat ∧
      pend slot Serial_pushinput q = (if sd_rbusy sd then 1 else 0)%nat ∧ (∀ e, e ∈ q → dev_ev slot e → ev_at e ≤ now + SERIAL_DELAY)
  | Disk dd => disk_ok dd ∧ (in_progress dd = true → dd_timedop dd = true) ∧
      (dd_timedop dd = true → ∃ e, e ∈ q ∧ dev_ev slot e) ∧ 0 ≤ dd_worktries dd ≤ MAX_WORKTRIES ∧
      (∀ e, e ∈ q → dev_ev slot e → ev_at e ≤ now + DISK_DELAY)
  | _ => True
  end.

(** How many more events a device may have pending. *)
Definition spare (d : device) : nat :=
  match d with
  | Serial sd => (if sd_wbusy sd then 0 else 1) + (if sd_rbusy sd then 0 else 1)
  | Disk dd => if dd_timedop dd then 0 else 1
  | _ => 0
  end.

Definition reserve (m : gmap nat device) : nat := map_fold (fun _ d n => spare d + n)%nat 0%nat m.

Record bus_inv (now : Z) (b : bus) (q : list ev) : Prop := {
  bi_slots : ∀ slot d, devices b !! slot = Some d → (slot < 32)%nat;
  bi_devs : ∀ slot d, devices b !! slot = Some d → dev_ok now slot q d;
  bi_evs : Forall (ev_ok b) q;
  bi_room : (length q + reserve (devices b) < MAXACTIONS)%nat
}.

Lemma is_timer d : ldi d = (1, 2, 1) → ∃ td, d = Timer td.
Proof. destruct d; try done. by eexists. Qed.
Lemma is_serial d : ldi d = (1, 4, 1) → ∃ sd, d = Serial sd.
Proof. destruct d; try done. by eexists. Qed.
Lemma is_disk d : ldi d = (1, 3, 2) → ∃ dd, d = Disk dd.
Proof. destruct d; try done. by eexists. Qed.

Lemma reserve_insert m slot d d' :
  m !! slot = Some d → (reserve (<[slot := d']> m) + spare d = reserve m + spare d')%nat.
Proof.
  intros Hd. assert (∀ x, reserve (<[slot := x]> (delete slot m)) = (spare x + reserve (delete slot m))%nat) as Hins.
  { intros x. unfold reserve. rewrite map_fold_insert_L; [done|intros; lia|apply lookup_delete_eq]. }
  pose proof (Hins d) as H1. pose proof (Hins d') as H2. rewrite insert_delete_eq in H1, H2. rewrite insert_id in H1 by done. lia.
Qed.

(** The events that are, and those that the devices may still ask for. *)
Definition crowd (b : bus) (q : list ev) : nat := (length q + reserve (devices b))%nat.

Lemma touch_insert slot b b' d' : touch slot b b' → devices b' !! slot = Some d' → devices b' = <[slot := d']> (devices b).
Proof.
  intros [T _] Hd'. apply map_eq. intros j. destruct (decide (j = slot)) as [->|Hj]; [by rewrite lookup_insert_eq|]. rewrite lookup_insert_ne by done. by apply T.
Qed.

Lemma crowd_change slot b b' d d' q q' :
  touch slot b b' → devices b !! slot = Some d → devices b' !! slot = Some d' → (length q' + spare d' ≤ length q + spare d)%nat → (crowd b' q' ≤ crowd b q)%nat.
Proof. intros T Hd Hd' Hl. unfold crowd. rewrite (touch_insert slot b b' d' T Hd'). pose proof (reserve_insert _ slot d d' Hd). lia. Qed.

Lemma dev_ok_later now now' slot q q' d :
  dev_ok now slot q d → now ≤ now' → own slot q ≡ₚ own slot q' → dev_ok now' slot q' d.
Proof.
  intros Hd Hn Hp. pose proof (fun e => own_elem slot q q' e Hp) as Hq. assert (∀ t, (∀ e, e ∈ q → dev_ev slot e → ev_at e ≤ now + t) → ∀ e, e ∈ q' → dev_ev slot e → ev_at e ≤ now' + t) as Hat.
  { intros t Ht e He Hde. specialize (Ht e (proj2 (Hq e Hde) He) Hde). lia. }
  destruct d as [|td|sd|dd| |]; try done.
  - destruct Hd as [Hc Hr]. split; [done|]. intros H0. destruct (Hr H0) as [|Hno]; [by left|right]. intros e He Hde. apply Hno; [by apply Hq|done].
  - destruct Hd as (Hd1 & Hd2 & Hd3 & Hd4). split_and!; try done.
    + by rewrite <- (pend_perm _ _ _ _ Hp).
    + by rewrite <- (pend_perm _ _ _ _ Hp).
    + by apply Hat.
  - destruct Hd as (Hd1 & Hd2 & Hd3 & Hd4 & Hd5). split_and!; try done; try lia.
    + intros Ht. destruct (Hd3 Ht) as (e & He & Hde). exists e. split; [by apply Hq|done].
    + by apply Hat.
Qed.

Lemma ev_ok_kinds b b' e : (∀ j, ldi <$> devices b' !! j = ldi <$> devices b !! j) → ev_ok b e → ev_ok b' e.
Proof. intros Hk. unfold ev_ok. destruct (ev_func e); by rewrite ?Hk. Qed.

(** One device changes, and with it the events. *)
Lemma inv_change_room now slot b b' d d' q0 q' :
  bus_inv now b q0 → touch slot b b' → devices b !! slot = Some d → devices b' !! slot = Some d' → ldi d' = ldi d →
  dev_ok now slot q' d' → (∀ e, e ∈ q' → e ∈ q0 ∨ ev_ok b e) → (∀ j, j ≠ slot → own j q0 ≡ₚ own j q') →
  (length q' + reserve (devices b) + spare d' < MAXACTIONS + spare d)%nat →
  bus_inv now b' q' ∧ ∀ j, ldi <$> devices b' !! j = ldi <$> devices b !! j.
Proof.
  intros [B1 B2 B3 B4] T Hd Hd' Hk Hok Hev Hq Hlen. pose proof (touch_insert slot b b' d' T Hd') as Em. destruct T as [T _].
  assert (∀ j, ldi <$> devices b' !! j = ldi <$> devices b !! j) as Hkinds.
  { intros j. destruct (decide (j = slot)) as [->|Hj]; [rewrite Hd, Hd'; cbn; by rewrite Hk|by rewrite T]. }
  split; [|done]. constructor.
  - intros j x Hx. destruct (decide (j = slot)) as [->|Hj]; [by eapply B1|]. rewrite T in Hx by done. by eapply B1.
  - intros j x Hx. destruct (decide (j = slot)) as [->|Hj]; [congruence|]. rewrite T in Hx by done.
    eapply dev_ok_later; [by eapply B2|lia|by apply Hq].
  - apply list.Forall_forall. intros e He. apply (ev_ok_kinds b); [done|]. rewrite list.Forall_forall in B3. destruct (Hev e He); auto.
  - rewrite Em. pose proof (reserve_insert _ slot d d' Hd). lia.
Qed.

Lemma inv_change now slot b b' d d' q0 q' :
  bus_inv now b q0 → touch slot b b' → devices b !! slot = Some d → devices b' !! slot = Some d' → ldi d' = ldi d →
  dev_ok now slot q' d' → (∀ e, e ∈ q' → e ∈ q0 ∨ ev_ok b e) → (∀ j, j ≠ slot → own j q0 ≡ₚ own j q') →
  (length q' + spare d' ≤ length q0 + spare d)%nat →
  bus_inv now b' q' ∧ ∀ j, ldi <$> devices b' !! j = ldi <$> devices b !! j.
Proof.
  intros B T Hd Hd' Hk Hok Hev Hq Hlen. eapply (inv_change_room now slot b b' d d' q0 q'); try done. pose proof (bi_room _ _ _ B). lia.
Qed.

(** ** Events *)

(** What the event [x] makes of the device [d] in [slot] that it belongs to. *)
Definition serial_fired (slot : nat) (x : ev) (q : list ev) (sd sd' : ser_data) (q' : list ev) : Prop :=
  if decide (ev_func x = Serial_writedone) then
    sd_wbusy sd' = false ∧ sd_wirq sd' = mkirq (si_on (sd_wirq sd)) true ∧ sd_rirq sd' = sd_rirq sd ∧ fifo sd' = fifo sd
  else sd_wbusy sd' = sd_wbusy sd ∧ sd_wirq sd' = sd_wirq sd ∧ ∀ e, is_ev slot Serial_writedone e → e ∈ q ↔ e ∈ q'.

Definition fired (slot : nat) (now : Z) (b : bus) (d : device) (x : ev) (q : list ev) (b' : bus) (q' : list ev) : Prop :=
  match d with
  | Timer td => ∃ td', devices b' !! slot = Some (Timer td') ∧ timer_step slot now (ev_code x) td q td' q' ∧
      Z.testbit (interrupts b') (Z.of_nat slot) = Z.testbit (interrupts b) (Z.of_nat slot) || bool_decide (ev_code x = td_generation td)
  | Serial sd => ∃ sd', devices b' !! slot = Some (Serial sd') ∧ serial_fired slot x q sd sd' q'
  | Disk dd => ∃ dd0 dd', dd_core dd0 = dd_core dd ∧ dd_worktries dd0 = dd_worktries dd ∧ disk_step slot now dd0 q dd' q' ∧
      devices b' !! slot = Some (Disk dd') ∧ Z.testbit (interrupts b') (Z.of_nat slot) = Lhd.disk_irq (dd_core dd')
  | _ => True
  end.

(** The device in [slot] is as it was, its line not lowered. *)
Definition quiet (slot : nat) (b : bus) (q : list ev) (b' : bus) (q' : list ev) : Prop :=
  devices b' !! slot = devices b !! slot ∧
  (Z.testbit (interrupts b) (Z.of_nat slot) = true → Z.testbit (interrupts b') (Z.of_nat slot) = true) ∧
  own slot q ≡ₚ own slot q'.

Definition effect (now : Z) (b : bus) (x : ev) (q : list ev) (b' : bus) (q' : list ev) : Prop :=
  output b' = output b ∧ (∀ j, ldi <$> devices b' !! j = ldi <$> devices b !! j) ∧ (crowd b' q' ≤ crowd b (x :: q))%nat ∧
  ∀ j d, devices b !! j = Some d → if decide (dev_ev j x) then fired j now b d x q b' q' else quiet j b q b' q'.

(** What keys make of the devices. *)
Definition typed (b : bus) (q : list ev) (b' : bus) (q' : list ev) : Prop :=
  output b' = output b ∧ (∀ j, ldi <$> devices b' !! j = ldi <$> devices b !! j) ∧ (crowd b' q' ≤ crowd b q)%nat ∧
  ∀ j d, devices b !! j = Some d →
    match d with
    | Serial sd => ∃ sd', devices b' !! j = Some (Serial sd') ∧ sd_wbusy sd' = sd_wbusy sd ∧ sd_wirq sd' = sd_wirq sd ∧
        ∀ e, is_ev j Serial_writedone e → e ∈ q ↔ e ∈ q'
    | _ => quiet j b q b' q'
    end.

Section calls.
Implicit Types (s : st) (q : list ev).

Definition called s (i : nat) (x : ev) q : Prop :=
  ∃ s' q', call_func (ev_func x) (ev_data x) (ev_code x) s = Ok (tt, s') ∧ calm s s' ∧ headed s' i (x :: q') ∧
    added rank (now_clocks s) (rank x) q q' ∧ bus_inv (now_clocks s) (devs s') q' ∧
    (∀ j, ldi <$> devices (devs s') !! j = ldi <$> devices (devs s) !! j) ∧ effect (now_clocks s) (devs s) x q (devs s') q'.

(** The events of [slot] may grow. *)
Definition grown (slot : nat) (b : bus) q q' : Prop :=
  ∃ l, q' ≡ₚ l ++ q ∧ Forall (fun e => (∀ j, j ≠ slot → ¬ dev_ev j e) ∧ ev_ok b e) l.

Lemma grown_refl slot b q : grown slot b q q.
Proof. by exists []. Qed.

Lemma grown_insert slot b q e : ev_data e = slot → ev_ok b e → grown slot b q (insert_ev e q).
Proof.
  intros Hd Hok. exists [e]. rewrite insert_ev_perm. split; [done|]. apply Forall_singleton. split; [|done]. intros j Hj [Hdj _]. congruence.
Qed.

Lemma grown_other slot b q q' j : grown slot b q q' → j ≠ slot → own j q ≡ₚ own j q'.
Proof.
  intros (l & Hp & Hl) Hj. rewrite (own_perm j _ _ Hp), own_skip; [done|]. eapply list.Forall_impl; [exact Hl|]. cbn. intros e [He _]. by apply He.
Qed.

Lemma grown_new slot b q q' e : grown slot b q q' → e ∈ q' → e ∈ q ∨ ev_ok b e.
Proof.
  intros (l & Hp & Hl) He. rewrite Hp, elem_of_app in He. destruct He as [He|He]; [right|by left]. rewrite list.Forall_forall in Hl. by apply Hl.
Qed.

Lemma called_by s i x q s' q' d d' :
  bus_inv (now_clocks s) (devs s) (x :: q) → ev_func x ≠ Dopoweroff →
  call_func (ev_func x) (ev_data x) (ev_code x) s = Ok (tt, s') → calm s s' → headed s' i (x :: q') →
  touch (ev_data x) (devs s) (devs s') → output (devs s') = output (devs s) →
  devices (devs s) !! ev_data x = Some d → devices (devs s') !! ev_data x = Some d' → ldi d' = ldi d →
  dev_ok (now_clocks s) (ev_data x) q' d' → grown (ev_data x) (devs s) q q' → added rank (now_clocks s) (rank x) q q' →
  (length q' + spare d' ≤ S (length q) + spare d)%nat → fired (ev_data x) (now_clocks s) (devs s) d x q (devs s') q' → called s i x q.
Proof.
  intros B Hx E Cm Hh T Ho Hd Hd' Hk Hok Hg Had Hlen Hf. exists s', q'. split; [done|]. split; [done|]. split; [done|]. split; [done|].
  destruct (inv_change (now_clocks s) (ev_data x) (devs s) (devs s') d d' (x :: q) q') as [B' Hkinds]; try done.
  - intros e He. destruct (grown_new _ _ _ _ _ Hg He); [left; by right|by right].
  - intros j Hj. rewrite <- (grown_other _ _ _ _ _ Hg Hj). change (x :: q) with ([x] ++ q). rewrite own_skip; [done|].
    apply Forall_singleton. intros [? _]. congruence.
  - split; [done|]. split; [done|]. split; [done|]. split; [done|]. split; [by eapply crowd_change|]. intros j dj Hdj. destruct (decide (j = ev_data x)) as [->|Hne].
    + rewrite decide_True by done. by assert (dj = d) as -> by congruence.
    + rewrite decide_False by (intros [? _]; congruence). destruct T as [T1 T2]. split_and!; [by apply T1|by rewrite T2|by eapply grown_other].
Qed.

Lemma inv_head s i x q : headed s i (x :: q) → ev_at x = now_clocks s → bus_inv (now_clocks s) (devs s) (x :: q) →
  pending (Some (i, x)) s q ∧ room (Some (i, x)) q.
Proof. intros Hh Hx B. split; [done|]. pose proof (bi_room _ _ _ B) as Hr. cbn in *. lia. Qed.

Lemma timer_call s i x q :
  headed s i (x :: q) → ev_at x = now_clocks s → in_time s → bus_inv (now_clocks s) (devs s) (x :: q) → ev_func x = Timer_interrupt → called s i x q.
Proof.
  intros Hh Hx Ht B Hf. pose proof (bi_evs _ _ _ B) as Hev. apply Forall_cons in Hev as [Hev _]. unfold ev_ok in Hev. rewrite Hf in Hev.
  destruct (devices (devs s) !! ev_data x) as [d|] eqn:Hd; [|done]. injection Hev as Hev. destruct (is_timer _ Hev) as [td ->].
  pose proof (bi_slots _ _ _ B _ _ Hd) as Hs. pose proof (bi_devs _ _ _ B _ _ Hd) as [Hc Hres].
  destruct (inv_head s i x q Hh Hx B) as [Hp Hr].
  destruct (timer_interrupt_run (Some (i, x)) (ev_data x) Hs s q td (ev_code x) Hp Hr Ht Hd Hc) as (s' & td' & q' & E & Cm & [Hh' _] & T & Hd' & Hst & Ho & Hl).
  assert (fired (ev_data x) (now_clocks s) (devs s) (Timer td) x q (devs s') q') as Hfi by (exists td'; done).
  unfold timer_step in Hst. destruct (decide _) as [[Hg Hnz]|Hno].
  - destruct Hst as (-> & e & -> & De & Fe & Ce & Hat). assert (0 < td_count_usecs td) as Hpos.
    { destruct (Hres Hnz) as [|Hn]; [done|]. destruct (Hn x (list_elem_of_here _ _)); [|done]. split; [done|]. by rewrite Hf. }
    eapply called_by; try done; [by rewrite Hf|by rewrite Hf|cbn; auto| | |].
    + apply grown_insert; [done|]. unfold ev_ok. by rewrite Fe, De, Hd.
    + right. exists e. split; [done|]. unfold HORIZON. lia.
    + rewrite length_insert_ev. cbn. lia.
  - destruct Hst as [-> ->]. eapply called_by; try done; [by rewrite Hf|by rewrite Hf| |apply grown_refl|by left|cbn; lia].
    split; [done|]. intros Hnz. destruct (Hres Hnz) as [|Hn]; [by left|right]. intros e He. apply Hn. by right.
Qed.

Lemma serial_call s i x q :
  headed s i (x :: q) → ev_at x = now_clocks s → in_time s → bus_inv (now_clocks s) (devs s) (x :: q) →
  ev_func x = Serial_writedone ∨ ev_func x = Serial_pushinput → called s i x q.
Proof.
  intros Hh Hx Ht B Hf. pose proof (bi_evs _ _ _ B) as Hev. apply Forall_cons in Hev as [Hev _].
  assert (ldi <$> devices (devs s) !! ev_data x = Some (1, 4, 1)) as Hk by (unfold ev_ok in Hev; by destruct Hf as [Hf|Hf]; rewrite Hf in Hev).
  clear Hev. destruct (devices (devs s) !! ev_data x) as [d|] eqn:Hd; [|done]. injection Hk as Hk. destruct (is_serial _ Hk) as [sd ->].
  pose proof (bi_slots _ _ _ B _ _ Hd) as Hs. pose proof (bi_devs _ _ _ B _ _ Hd) as (Hok & Hwb & Hrb & Hat).
  destruct (inv_head s i x q Hh Hx B) as [Hp Hr].
  assert (dev_ev (ev_data x) x) as Hdx by (split; [done|]; by destruct Hf as [Hf|Hf]; rewrite Hf).
  rewrite pend_cons in Hwb, Hrb by done. assert (∀ e, e ∈ q → dev_ev (ev_data x) e → ev_at e ≤ now_clocks s + SERIAL_DELAY) as Hat'.
  { intros e He. apply Hat. by right. }
  destruct Hf as [Hf|Hf]; rewrite Hf in Hwb, Hrb; repeat case_decide; try done.
  - destruct (serial_writedone_run (Some (i, x)) (ev_data x) Hs s q sd Hp Hd Hok) as (s' & sd' & [E Cm [Hh' _] T Hd' Ho Hok'] & Hw & Hr' & Hfi & Hwi & Hri).
    eapply called_by; try done; [by rewrite Hf|by rewrite Hf| |apply grown_refl|by left| |].
    + split_and!; [done| |by rewrite Hr'|done]. rewrite Hw. destruct (sd_wbusy sd); lia.
    + cbn. rewrite Hw, Hr'. destruct (sd_wbusy sd); lia.
    + exists sd'. split; [done|]. unfold serial_fired. by rewrite decide_True.
  - destruct (serial_pushinput_run (Some (i, x)) (ev_data x) Hs s q sd Hp Hr Ht Hd Hok) as (s' & sd' & q' & [E Cm [Hh' _] T Hd' Ho Hok'] & [Hw Hwi] & Hm).
    destruct (fifo sd) as [|ch rest].
    + destruct Hm as (Hb & -> & _). eapply called_by; try done; [by rewrite Hf|by rewrite Hf| |apply grown_refl|by left| |].
      * split_and!; [done|by rewrite Hw| |done]. rewrite Hb. destruct (sd_rbusy sd); lia.
      * cbn. rewrite Hw, Hb. destruct (sd_wbusy sd), (sd_rbusy sd); lia.
      * exists sd'. split; [done|]. unfold serial_fired. rewrite decide_False by (by rewrite Hf). done.
    + destruct Hm as (Hb & (e & -> & De & Fe & Hae) & _). assert (dev_ev (ev_data x) e) as Hde by (split; [done|by rewrite Fe]).
      eapply called_by; try done; [by rewrite Hf|by rewrite Hf| | | | |].
      * cbn. rewrite !pend_insert by done. rewrite Fe, Hw, Hb. repeat case_decide; try done. split_and!; [done|done| |].
        -- destruct (sd_rbusy sd); lia.
        -- intros y [->|Hy]%elem_of_insert_ev Hdy; [lia|]. by apply Hat'.
      * apply grown_insert; [done|]. unfold ev_ok. by rewrite Fe, De, Hd.
      * right. exists e. split; [done|]. unfold HORIZON, SERIAL_DELAY in *. lia.
      * rewrite length_insert_ev. cbn. rewrite Hw, Hb. destruct (sd_wbusy sd), (sd_rbusy sd); lia.
      * exists sd'. split; [done|]. unfold serial_fired. rewrite decide_False by (by rewrite Hf). split_and!; try done.
        intros y [_ Hfy]. rewrite elem_of_insert_ev. split; [auto|]. intros [->|?]; [congruence|done].
Qed.

(** What [disk_step] leaves behind. *)
Lemma step_dev_ok now slot dd q q0 dd' q' :
  disk_ok dd' → disk_step slot now dd q dd' q' → dd_timedop dd = false → 0 ≤ dd_worktries dd ≤ MAX_WORKTRIES →
  (∀ e, e ∈ q → e ∈ q0) → (∀ e, e ∈ q0 → dev_ev slot e → ev_at e ≤ now + DISK_DELAY) →
  dev_ok now slot q' (Disk dd') ∧ (length q' + spare (Disk dd') ≤ S (length q))%nat.
Proof.
  intros Hok Hs Hto Hw Hq Hat. destruct Hs as [Hp|dd' Hp Hc Ht Hw'|dd' e Hp Hc Ht Hw' Hlt He]; cbn.
  - rewrite Hto. split; [|lia]. split_and!; try done; try lia; [by rewrite Hp|]. intros e He. by apply Hat, Hq.
  - rewrite Ht. split; [|lia]. split_and!; try done; try lia.
    + unfold in_progress. by rewrite Hc, work_finished.
    + intros e He. by apply Hat, Hq.
  - rewrite Ht, length_insert_ev. split; [|lia]. split_and!; try done; try lia.
    + intros _. exists e. split; [apply elem_of_insert_ev; by left|]. destruct He as [De _ [(Fe & _)|(Fe & _)]]; split; congruence.
    + intros e' [->|He']%elem_of_insert_ev Hd; [|by apply Hat; [apply Hq|]]. destruct He; lia.
Qed.

Lemma disk_event_rank now slot io e x :
  disk_event slot now io e → (ev_func x = Disk_seekdone ∨ ev_func x = Disk_waitdone ∧ io = ev_code x) → ev_at e = now → (rank e < rank x)%nat.
Proof.
  intros [_ _ [(_ & _ & Hlt)|(Fe & _ & [Hlt|[Hc Hio]])]] Hx Hat; [lia|lia|]. unfold rank. rewrite Fe, Hc. change (2 <? 2) with false. cbv iota.
  destruct Hx as [->|[-> ->]]; [lia|]. rewrite (proj2 (Z.ltb_lt _ _)) by done. lia.
Qed.

Lemma disk_event_ok now slot io e b dd : disk_event slot now io e → devices b !! slot = Some (Disk dd) → ev_ok b e.
Proof. intros [De _ [(Fe & ? & _)|(Fe & ? & _)]] Hd; unfold ev_ok; rewrite Fe, De, Hd; split; done. Qed.

Lemma line_bit slot dd b : (slot < 32)%nat → Z.testbit (interrupts (with_line slot dd b)) (Z.of_nat slot) = Lhd.disk_irq (dd_core dd).
Proof.
  intros Hs. unfold with_line, disk_line. cbn. destruct (Lhd.disk_irq _); [rewrite raise_spec|rewrite lower_spec]; try done; rewrite bool_decide_true by done.
  - apply orb_true_r.
  - apply andb_false_r.
Qed.

(** The end of both handlers of the disk. *)
Lemma disk_called s i x q dd dd0 :
  headed s i (x :: q) → ev_at x = now_clocks s → in_time s → bus_inv (now_clocks s) (devs s) (x :: q) →
  devices (devs s) !! ev_data x = Some (Disk dd) → disk_ok dd0 → dd_timedop dd0 = false → dd_core dd0 = dd_core dd →
  dd_worktries dd0 = dd_worktries dd → (ev_func x = Disk_seekdone ∨ ev_func x = Disk_waitdone ∧ dd_iostatus dd0 = ev_code x) →
  call_func (ev_func x) (ev_data x) (ev_code x) s = disk_update (ev_data x) (upd (ev_data x) (Disk dd0) s) → called s i x q.
Proof.
  intros Hh Hx Ht B Hd Hok0 Hto0 Hc0 Hw0 Hf E. set (slot := ev_data x) in *. pose proof (bi_slots _ _ _ B _ _ Hd) as Hs.
  pose proof (bi_devs _ _ _ B _ _ Hd) as (_ & _ & _ & Hw & Hat). destruct (inv_head s i x q Hh Hx B) as [Hp Hr].
  destruct (disk_update_run (Some (i, x)) slot (upd slot (Disk dd0) s) q dd0) as (s' & dd' & q' & E' & Cm & [Hh' _] & Ed & Hok' & Hst);
    [by apply pending_upd|done|done|apply upd_lookup|done|done|].
  rewrite upd_upd in Ed. change (now_clocks (upd slot (Disk dd0) s)) with (now_clocks s) in Hst.
  assert (touch slot (devs s) (devs s')) as T by (rewrite Ed; eapply touch_trans; [apply touch_devices|by apply touch_line]).
  assert (devices (devs s') !! slot = Some (Disk dd')) as Hd' by (rewrite Ed; apply upd_lookup).
  destruct (step_dev_ok (now_clocks s) slot dd0 q (x :: q) dd' q') as [Hdev Hlen]; try done; [by rewrite Hw0|by right|].
  eapply (called_by s i x q s' q' (Disk dd) (Disk dd')); try done.
  - destruct Hf as [Hf|[Hf _]]; by rewrite Hf.
  - by rewrite <- E'.
  - eapply calm_trans; [apply calm_upd, calm_refl|exact Cm].
  - by rewrite Ed.
  - destruct Hst as [|? ? ? ?|dd1 e ? ? ? ? ? He]; [apply grown_refl|apply grown_refl|]. apply grown_insert; [apply He|by eapply disk_event_ok].
  - destruct Hst as [|? ? ? ?|dd1 e ? ? ? ? ? He]; [by left|by left|]. right. exists e. split; [done|]. split.
    + destruct He. unfold HORIZON, DISK_DELAY in *. lia.
    + by eapply disk_event_rank.
  - pose proof Hlen. lia.
  - exists dd0, dd'. split_and!; try done. rewrite Ed. by apply line_bit.
Qed.

Lemma disk_call s i x q :
  headed s i (x :: q) → ev_at x = now_clocks s → in_time s → bus_inv (now_clocks s) (devs s) (x :: q) →
  ev_func x = Disk_seekdone ∨ ev_func x = Disk_waitdone → called s i x q.
Proof.
  intros Hh Hx Ht B Hf. pose proof (bi_evs _ _ _ B) as Hev. apply Forall_cons in Hev as [Hev _].
  assert (ldi <$> devices (devs s) !! ev_data x = Some (1, 3, 2) ∧ 0 ≤ ev_code x < 32) as [Hk Hcode].
  { unfold ev_ok in Hev. destruct Hf as [Hf|Hf]; rewrite Hf in Hev; destruct Hev; split; (done || lia). }
  destruct (devices (devs s) !! ev_data x) as [d|] eqn:Hd; [|done]. injection Hk as Hk. destruct (is_disk _ Hk) as [dd ->].
  pose proof (bi_devs _ _ _ B _ _ Hd) as (Hok & _). assert (i32 (ev_code x) = ev_code x) as Ei by (apply i32_small; lia). destruct Hf as [Hf|Hf].
  - eapply (disk_called s i x q dd (set_op (dd_iostatus dd) false (dd_worktries dd) (set_track (i32 (ev_code x)) (now_secs s) (now_nsecs s) dd))); try done.
    + apply disk_ok_op, disk_ok_track; [done|by rewrite Ei|apply Ht].
    + by left.
    + rewrite Hf. cbn [call_func lamebus_devices]. unfold disk_seekdone. rewrite (bind_ok _ _ _ _ _ (get_disk_run _ _ _ Hd)).
      erewrite bind_ok by reflexivity. cbv beta iota. by rewrite (bind_ok _ _ _ _ _ (put_run _ _ _)).
  - eapply (disk_called s i x q dd (set_op (i32 (ev_code x)) false (dd_worktries dd) dd)); try done.
    + by apply disk_ok_op.
    + right. split; [done|]. exact Ei.
    + rewrite Hf. cbn [call_func lamebus_devices]. unfold disk_waitdone. rewrite (bind_ok _ _ _ _ _ (get_disk_run _ _ _ Hd)).
      by rewrite (bind_ok _ _ _ _ _ (put_run _ _ _)).
Qed.

Lemma poweroff_call s i x q :
  headed s i (x :: q) → bus_inv (now_clocks s) (devs s) (x :: q) → ev_func x = Dopoweroff → called s i x q.
Proof.
  intros Hh [B1 B2 B3 B4] Hf. set (b' := set_flags true (stop_flag (devs s)) (set_interrupts (raise_irq LAMEBUS_CONTROLLER_SLOT (interrupts (devs s))) (devs s))).
  assert (∀ j, ¬ dev_ev j x) as Hno by (intros j [_ ?]; congruence).
  exists (set_devs b' s), q. split_and!.
  - by rewrite Hf.
  - apply calm_devs, calm_refl.
  - destruct Hh as (ql & fl & []). by exists ql, fl.
  - by left.
  - constructor; try done.
    + intros j d Hd. eapply dev_ok_later; [by apply B2|lia|]. change (x :: q) with ([x] ++ q). rewrite own_skip; [done|]. by apply Forall_singleton.
    + by apply Forall_cons in B3 as [_ ?].
    + cbn in *. lia.
  - done.
  - split; [done|]. split; [done|]. split; [unfold crowd; cbn; lia|]. intros j d Hj. rewrite decide_False by (intros [_ ?]; congruence). split_and!; try done. intros Hb. cbn. rewrite raise_spec by (unfold LAMEBUS_CONTROLLER_SLOT; lia).
    by rewrite Hb.
Qed.

Lemma event_call_run s i x q :
  headed s i (x :: q) → ev_at x = now_clocks s → in_time s → bus_inv (now_clocks s) (devs s) (x :: q) → called s i x q.
Proof.
  intros Hh Hx Ht B. destruct (ev_func x) eqn:Hf;
    [by apply timer_call|apply serial_call; auto|apply serial_call; auto|apply disk_call; auto|apply disk_call; auto|by apply poweroff_call].
Qed.
(** A key changes the serial port only, and not what it writes. *)
Lemma receive_run s k q :
  queue s q → in_time s → bus_inv (now_clocks s) (devs s) q → accepts (devs s) k →
  ∃ s' q', receive k s = Ok (tt, s') ∧ calm s s' ∧ queue s' q' ∧ added rank (now_clocks s) 0 q q' ∧ bus_inv (now_clocks s) (devs s') q' ∧
    (∀ j, ldi <$> devices (devs s') !! j = ldi <$> devices (devs s) !! j) ∧ typed (devs s) q (devs s') q'.
Proof.
  intros Q Ht B Ha. destruct k as [slot ch]. unfold accepts in Ha. cbn [fst] in Ha.
  destruct (devices (devs s) !! slot) as [d|] eqn:Hd; [|done]. injection Ha as Ha. destruct (is_serial _ Ha) as [sd ->].
  pose proof (bi_slots _ _ _ B _ _ Hd) as Hs. pose proof (bi_devs _ _ _ B _ _ Hd) as (Hok & Hwb & Hrb & Hat). pose proof (bi_room _ _ _ B) as Hr.
  destruct (serial_input_run None slot Hs s q sd ch) as (s' & sd' & q' & [E Cm Hp T Hd' Ho Hok'] & [Hw Hwi] & Hm); [done|cbn; lia|done|done|done|].
  assert (grown slot (devs s) q q' ∧ (length q' + spare (Serial sd') ≤ length q + spare (Serial sd))%nat ∧ added rank (now_clocks s) 0 q q' ∧
    pend slot Serial_writedone q' = (if sd_wbusy sd' then 1 else 0)%nat ∧ pend slot Serial_pushinput q' = (if sd_rbusy sd' then 1 else 0)%nat ∧ (∀ e, e ∈ q' → dev_ev slot e → ev_at e ≤ now_clocks s + SERIAL_DELAY) ∧
    ∀ e, is_ev slot Serial_writedone e → e ∈ q ↔ e ∈ q') as (Hg & Hlen & Had & Hwb' & Hrb' & Hat' & Hwe).
  { cbn [spare]. rewrite Hw. destruct (decide _); [destruct Hm as [-> ->]; split_and!; try done; [apply grown_refl|by left]|].
    destruct (sd_rbusy sd) eqn:Hb; [destruct Hm as (Hb' & -> & _); rewrite Hb'; split_and!; try done; [apply grown_refl|by left]|].
    destruct Hm as (Hb' & (e & -> & De & Fe & Hae) & _). assert (dev_ev slot e) as Hde by (split; [done|by rewrite Fe]).
    rewrite Hb', length_insert_ev, !pend_insert, Fe by done. repeat case_decide; try done. split_and!.
    - apply grown_insert; [done|]. unfold ev_ok. by rewrite Fe, De, Hd.
    - lia.
    - right. exists e. split; [done|]. unfold HORIZON, SERIAL_DELAY in *. lia.
    - done.
    - by rewrite Hrb.
    - intros y [->|Hy]%elem_of_insert_ev Hdy; [lia|]. by apply Hat.
    - intros y [_ Hfy]. rewrite elem_of_insert_ev. split; [auto|]. intros [->|?]; [congruence|done]. }
  destruct (inv_change (now_clocks s) slot (devs s) (devs s') (Serial sd) (Serial sd') q q') as [B' Hk]; try done.
  - intros e He. by eapply grown_new.
  - intros j Hj. by eapply grown_other.
  - exists s', q'. split_and!; try done. split; [done|]. split; [done|]. split; [by eapply crowd_change|]. intros j dj Hj. destruct (decide (j = slot)) as [->|Hne].
    + assert (dj = Serial sd) as -> by congruence. exists sd'. done.
    + assert (quiet j (devs s) q (devs s') q') as Hqu.
      { destruct T as [T1 T2]. split_and!; [by apply T1|by rewrite T2|by eapply grown_other]. }
      destruct dj as [|td|sdj|dd| |]; try done. destruct Hqu as (Edj & _ & Hqe). exists sdj. rewrite Edj. split_and!; try done.
      intros e He. apply (own_elem j); [done|]. by eapply is_dev_ev.
Qed.
End calls.

(** ** The promise kept *)

(** Any further fact about devices and events that the events and the keys keep. *)
Class Fact (Q : Z → bus → list ev → Prop) : Prop := {
  fc_later now now' b q : Q now b q → now ≤ now' → Q now' b q;
  fc_call now b x q b' q' : bus_inv now b (x :: q) → ev_at x = now → Q now b (x :: q) → effect now b x q b' q' → bus_inv now b' q' → Q now b' q';
  fc_typed now b q b' q' : Q now b q → typed b q b' q' → Q now b' q'
}.

Definition inv_with (Q : Z → bus → list ev → Prop) (now : Z) (b : bus) (q : list ev) : Prop := bus_inv now b q ∧ Q now b q.

#[export] Instance bus_event_inv Q `{!Fact Q} : EventInv rank 2 accepts (inv_with Q).
Proof.
  constructor.
  - intros e. unfold rank. destruct (ev_func e); try lia. destruct (_ <? _); lia.
  - intros now d q [B _]. pose proof (bi_room _ _ _ B). lia.
  - intros now now' d q [[B1 B2 B3 B4] HQ] Hn. split; [|by eapply fc_later]. constructor; try done. intros slot x Hx. eapply dev_ok_later; [by apply B2|done|done].
  - intros s i x q Hh Hx Ht [B HQ]. destruct (event_call_run s i x q Hh Hx Ht B) as (s' & q' & E & Cm & Hh' & A & B' & Hk & Hef).
    apply wp_run. exists tt, s'. split_and!; try done; [intros k; unfold accepts; by rewrite Hk|]. exists q'. split_and!; try done. split; [done|]. by eapply fc_call.
  - intros s k q Q0 Ht [B HQ] Ha. destruct (receive_run s k q Q0 Ht B Ha) as (s' & q' & E & Cm & Q' & A & B' & Hk & Hty).
    apply wp_run. exists tt, s'. split_and!; try done; [intros k'; unfold accepts; by rewrite Hk|]. exists q'. split_and!; try done. split; [done|]. by apply (fc_typed _ (devs s) q).
Qed.

#[export] Instance no_fact : Fact (fun _ _ _ => True).
Proof. done. Qed.

(** The operation [c] of the disk in [slot] is done, or its next event is no later than [T] and what its tries have taken. *)
Definition promised (slot : nat) (c : Lhd.disk_data) (T : Z) (_ : Z) (b : bus) (q : list ev) : Prop :=
  ∃ dd, devices b !! slot = Some (Disk dd) ∧
    (dd_core dd = Lhd.disk_work c ∧ Z.testbit (interrupts b) (Z.of_nat slot) = true ∨
     dd_core dd = c ∧ ∀ e, e ∈ q → dev_ev slot e → ev_at e ≤ T + dd_worktries dd * DISK_DELAY).

Lemma promised_quiet slot c T now b q b' q' : promised slot c T now b q → quiet slot b q b' q' → promised slot c T now b' q'.
Proof.
  intros (dd & Hd & Hor) (Ed & Hl & Hq). exists dd. rewrite Ed. split; [done|]. destruct Hor as [[Hc Hb]|[Hc He]]; [left; auto|right].
  split; [done|]. intros e Hin Hde. apply He; [|done]. by apply (own_elem slot q q').
Qed.

Lemma promised_call slot c T b x q b' q' now :
  Z.land (Lhd.dd_stat c) Lhd.DISKBIT_INPROGRESS ≠ 0 → ev_at x = now →
  promised slot c T now b (x :: q) → effect now b x q b' q' → promised slot c T now b' q'.
Proof.
  intros Hc Hx (dd & Hd & Hor) (_ & _ & _ & Hef). specialize (Hef slot (Disk dd) Hd). destruct (decide (dev_ev slot x)) as [Hdx|Hdx].
  - destruct Hef as (dd0 & dd' & Hc0 & Hw0 & Hs & Hd' & Hl). exists dd'. split; [done|].
    inversion Hs as [Hp|dd'' Hp Hc' Ht Hw|dd'' e Hp Hc' Ht Hw Hlt He]; subst; unfold in_progress in Hp; rewrite Hc0 in *.
    + left. destruct Hor as [[Hcore _]|[Hcore _]]; [|rewrite Hcore in Hp; by apply negb_false_iff, Z.eqb_eq in Hp].
      rewrite Hl, Hcore. split; [done|]. by apply work_complete.
    + left. destruct Hor as [[Hcore _]|[Hcore _]]; [rewrite Hcore, work_finished in Hp; done|]. rewrite Hl, Hc', Hcore. split; [done|]. by apply work_complete.
    + right. destruct Hor as [[Hcore _]|[Hcore Hev]]; [rewrite Hcore, work_finished in Hp; done|]. rewrite Hc', Hw, Hw0. split; [done|].
      assert (0 ≤ DISK_DELAY) by done. intros y [->|Hy]%elem_of_insert_ev Hdy.
      * pose proof (Hev x (list_elem_of_here _ _) Hdx) as Hxe. destruct He as [_ He _]. lia.
      * pose proof (Hev y (list_elem_of_further _ _ _ Hy) Hdy). lia.
  - apply (promised_quiet slot c T now b q); [|done]. exists dd. split; [done|]. destruct Hor as [?|[? Hev]]; [by left|right]. split; [done|].
    intros e He. apply Hev. by right.
Qed.

Lemma promised_fact slot c T : Z.land (Lhd.dd_stat c) Lhd.DISKBIT_INPROGRESS ≠ 0 → Fact (promised slot c T).
Proof.
  intros Hc. constructor.
  - done.
  - intros now b x q b' q' _ Hx HQ Hef _. by eapply promised_call.
  - intros now b q b' q' HQ (_ & _ & _ & Hty). pose proof HQ as (dd & Hd & _). eapply promised_quiet; [done|]. exact (Hty slot (Disk dd) Hd).
Qed.

End Lamebusspec.
