(* ===== verification/Lamebusrun.v ===== *)
(** * Programs against the bus

    What a processor does to the devices: ticks of the clock, fetches from registers and stores to them, in any order.
    [mild] says what a store must observe for the simulator to go on, and the theorems say that it then does, with no
    event ever late, and that a disk operation ends. *)
From stdpp Require Import base list gmap numbers sorting relations.
From S2P Require Import Prelude Copyinout Uio Lhd Clock Clockspec Lamebus Lamebussafe Lamebusspec.
Local Open Scope Z_scope.

Module Lamebusrun.
Import Clock Clockspec Lamebus Lamebussafe Lamebusspec.

(** ** The events of a state *)
Fixpoint walk (fuel : nat) (sto : list (timed_action handler)) (p : option nat) : list ev :=
  match fuel, p with
  | S fuel', Some i =>
      match sto !! i with
      | Some a => option_list (ev_of a) ++ walk fuel' sto (ta_next a)
      | None => []
      end
  | _, _ => []
  end.

Definition events (s : st) : list ev := walk MAXACTIONS (action_storage s) (queuehead s).

Lemma walk_chain sto l q p fuel : chain sto p l → Forall2 (holds sto) l q → (length l ≤ fuel)%nat → walk fuel sto p = q.
Proof.
  revert q p fuel. induction l as [|i l IH]; intros q p fuel Hc Hf Hl.
  - apply Forall2_nil_inv_l in Hf as ->. destruct Hc as [-> _]. by destruct fuel.
  - destruct (chain_head _ _ _ _ Hc) as (-> & a & Ha & Hc'). destruct q as [|e q]; [by inversion Hf|]. apply Forall2_cons_1 in Hf as [He Hf].
    destruct fuel as [|fuel]; [cbn in Hl; lia|]. cbn [walk]. rewrite Ha. unfold holds in He. rewrite Ha in He. cbn in He. rewrite He. cbn. f_equal.
    apply IH; [done|done|cbn in Hl; lia].
Qed.

Lemma events_queue s q : queue s q → events s = q.
Proof.
  intros (ql & fl & R). eapply walk_chain; [apply R|apply R|]. rewrite <- (qr_all _ _ _ _ R), length_app. apply Nat.le_add_r.
Qed.

(** ** Programs *)
Inductive op := Tick | Fetch (offset : Z) | Store (offset val : Z).

Definition fuel : nat := enough 2.

Definition exec (o : op) (s : st) : outcome st :=
  match o with
  | Tick => let* '(_, s') := clock_tick fuel s in Ok s'
  | Fetch offset => let* '(_, s') := bus_io_fetch offset s in Ok s'
  | Store offset val => let* '(_, s') := bus_io_store offset val s in Ok s'
  end.

Fixpoint run (p : list op) (s : st) : outcome st :=
  match p with
  | [] => Ok s
  | o :: p' => let* s' := exec o s in run p' s'
  end.

(** Another event may be scheduled, beside those the devices are entitled to. *)
Definition uncrowded (s : st) : Prop := (S (length (events s) + reserve (devices (devs s))) < MAXACTIONS)%nat.

Definition slot_of (offset : Z) : nat := Z.to_nat (offset / LAMEBUS_SLOT_MEM).

(** A store that does not ask for the impossible: a timer that restarts with no delay, a time of day that is none, or more events
    than there is room for. *)
Definition mild_store (s : st) (offset val : Z) : Prop :=
  let reg := offset `mod` LAMEBUS_SLOT_MEM in
  match devices (devs s) !! slot_of offset with
  | Some (Timer td) =>
      (reg = TREG_TNSEC → val < 1000000000) ∧
      (reg = TREG_REST → i32 val ≠ 0 → 0 < td_count_usecs td ∨ ∀ e, e ∈ events s → dev_ev (slot_of offset) e → ev_code e ≠ td_generation td) ∧
      (reg = TREG_TIME → uncrowded s ∧ (td_restartflag td ≠ 0 → 0 < val))
  | Some Busctl => reg = 31 * LAMEBUS_CONFIG_SIZE + LBC_OFFSET_POWER → val = 0 → uncrowded s
  | _ => True
  end.

Definition mild (s : st) (o : op) : Prop :=
  match o with
  | Tick => now_clocks s < 2 ^ 62
  | Fetch offset => 0 ≤ offset ∧ Z.land offset 3 = 0 ∧ now_clocks s < 2 ^ 62
  | Store offset val => 0 ≤ offset ∧ Z.land offset 3 = 0 ∧ 0 ≤ val < 2 ^ 32 ∧ now_clocks s < 2 ^ 62 ∧ mild_store s offset val
  end.

Fixpoint legal (p : list op) (s : st) : Prop :=
  match p with
  | [] => True
  | o :: p' => mild s o ∧ match exec o s with Ok s' => legal p' s' | _ => True end
  end.

(** ** One access *)
Section access.
Context (slot : nat).
Implicit Types (s : st) (q : list ev).

(** The time of day may be set; the clock, the host's script but for [random] stay. *)
Record steady s s' : Prop := {
  sd_clocks : now_clocks s' = now_clocks s;
  sd_secs : 0 ≤ now_secs s < 2 ^ 32 → 0 ≤ now_secs s' < 2 ^ 32;
  sd_nsecs : 0 ≤ now_nsecs s < 1000000000 → 0 ≤ now_nsecs s' < 1000000000;
  sd_wall : walltime s' = walltime s;
  sd_inputs : inputs s' = inputs s
}.

Lemma calm_steady s s' : calm s s' → steady s s'.
Proof. intros [S0 S1 _ _ S2 _ _ _ S4 S3 _]. cbn in *. constructor; by rewrite ?S0, ?S1. Qed.

(** What an access to the device in [slot] does. *)
Definition accessed {A} s q (m : B A) : Prop :=
  ∃ r s' q', m s = Ok (r, s') ∧ steady s s' ∧ queue s' q' ∧ added rank (now_clocks s) 3 q q' ∧ bus_inv (now_clocks s) (devs s') q' ∧
    (∀ j, ldi <$> devices (devs s') !! j = ldi <$> devices (devs s) !! j) ∧
    ∀ j d, j ≠ slot → devices (devs s) !! j = Some d → quiet j (devs s) q (devs s') q'.

Lemma accessed_bind {A C} s q (m : B A) a (f : A → B C) : m s = Ok (a, s) → accessed s q (f a) → accessed s q (let* x := m in f x).
Proof. intros E (r & s' & q' & Em & Hrest). exists r, s', q'. by rewrite (bind_ok _ _ _ _ _ E). Qed.

Lemma accessed_then {A C} s q (m : B A) (f : A → B C) g : (∀ a s, f a s = Ok (g a, s)) → accessed s q m → accessed s q (let* x := m in f x).
Proof. intros E (r & s' & q' & Em & Hrest). exists (g r), s', q'. by rewrite (bind_ok _ _ _ _ _ Em), E. Qed.

Lemma accessed_by {A} s q (m : B A) r s' q' d d' :
  bus_inv (now_clocks s) (devs s) q → m s = Ok (r, s') → steady s s' → queue s' q' → touch slot (devs s) (devs s') →
  devices (devs s) !! slot = Some d → devices (devs s') !! slot = Some d' → ldi d' = ldi d → dev_ok (now_clocks s) slot q' d' →
  added rank (now_clocks s) 3 q q' → grown slot (devs s) q q' →
  (length q' + reserve (devices (devs s)) + spare d' < MAXACTIONS + spare d)%nat → accessed s q m.
Proof.
  intros B E Sd Q T Hd Hd' Hk Hok Ad Hg Hlen.
  destruct (inv_change_room (now_clocks s) slot (devs s) (devs s') d d' q q') as [B' Hkinds]; try done.
  - intros e He. by eapply grown_new.
  - intros j Hj. by eapply grown_other.
  - exists r, s', q'. split_and!; try done. intros j dj Hj Hdj. destruct T as [T1 T2]. split_and!; [by apply T1|by rewrite T2|by eapply grown_other].
Qed.

(** No new event. *)
Lemma accessed_same {A} s q (m : B A) r s' d d' :
  bus_inv (now_clocks s) (devs s) q → m s = Ok (r, s') → steady s s' → queue s' q → touch slot (devs s) (devs s') →
  devices (devs s) !! slot = Some d → devices (devs s') !! slot = Some d' → ldi d' = ldi d → dev_ok (now_clocks s) slot q d' →
  (spare d' ≤ spare d)%nat → accessed s q m.
Proof.
  intros B E Sd Q T Hd Hd' Hk Hok Hs. eapply (accessed_by s q m r s' q d d'); try done; [by left|apply grown_refl|].
  pose proof (bi_room _ _ _ B). lia.
Qed.

(** The device itself is left alone. *)
Lemma accessed_none {A} s q (m : B A) r s' d :
  bus_inv (now_clocks s) (devs s) q → m s = Ok (r, s') → steady s s' → queue s' q → touch slot (devs s) (devs s') →
  devices (devs s) !! slot = Some d → devices (devs s') !! slot = Some d → accessed s q m.
Proof.
  intros B E Sd Q T Hd Hd'. eapply (accessed_same s q m r s' d d); try done. by apply (bi_devs _ _ _ B).
Qed.

Lemma accessed_ret {A} s q (r : A) d : queue s q → bus_inv (now_clocks s) (devs s) q → devices (devs s) !! slot = Some d → accessed s q (mret r).
Proof. intros Q B Hd. eapply (accessed_none s q _ r s d); try done. Qed.

Lemma queue_devs s q b : queue s q → queue (set_devs b s) q.
Proof. by apply (queue_lists s). Qed.

Lemma accessed_hang {A} s q (r : A) d :
  queue s q → bus_inv (now_clocks s) (devs s) q → devices (devs s) !! slot = Some d → accessed s q (let* _ := hang in mret r).
Proof. intros Q B Hd. eapply (accessed_none s q _ r _ d); [done|reflexivity|done|by apply queue_devs|done|done|done]. Qed.

(** The line of the device changes. *)
Lemma accessed_line {A} s q (m : B A) r i d :
  queue s q → bus_inv (now_clocks s) (devs s) q → devices (devs s) !! slot = Some d → m s = Ok (r, set_devs (set_interrupts i (devs s)) s) →
  touch slot (devs s) (set_interrupts i (devs s)) → accessed s q m.
Proof. intros Q B Hd E T. eapply (accessed_none s q _ r _ d); [done|exact E|done|by apply queue_devs|done|done|done]. Qed.

(** A new event. *)
Lemma accessed_event {A} s q (m : B A) r s' e h d d' :
  bus_inv (now_clocks s) (devs s) q → m s = Ok (r, s') → calm s s' → queue s' (insert_ev e q) → touch slot (devs s) (devs s') →
  devices (devs s) !! slot = Some d → devices (devs s') !! slot = Some d' → ldi d' = ldi d → dev_ok (now_clocks s) slot (insert_ev e q) d' →
  ev_func e = h → rank e = 0%nat → (ev_data e = slot ∨ h = Dopoweroff) → ev_ok (devs s) e → now_clocks s ≤ ev_at e ≤ now_clocks s + HORIZON →
  (S (length q) + reserve (devices (devs s)) + spare d' < MAXACTIONS + spare d)%nat → accessed s q m.
Proof.
  intros B E Cm Q T Hd Hd' Hk Hok Hf Hr0 Hown Hev Hat Hlen. eapply (accessed_by s q m r s' (insert_ev e q) d d'); try done.
  - by apply calm_steady.
  - right. exists e. split; [done|]. split; [done|]. intros _. rewrite Hr0. lia.
  - exists [e]. rewrite insert_ev_perm. split; [done|]. apply Forall_singleton. split; [|done]. intros j Hj [? ?]. destruct Hown; congruence.
  - by rewrite length_insert_ev.
Qed.
End access.

(** ** The registers *)
Section registers.
Context (slot : nat) (s : st) (q : list ev).
Context (Q : queue s q) (B : bus_inv (now_clocks s) (devs s) q) (Ht : in_time s).

Lemma timer_fetch_run td offset : devices (devs s) !! slot = Some (Timer td) → accessed slot s q (timer_fetch slot offset).
Proof.
  intros Hd. pose proof (bi_slots _ _ _ B _ _ Hd) as Hs. unfold timer_fetch. eapply accessed_bind; [by apply get_timer_run|].
  repeat (case_match; [solve [eapply accessed_bind; [reflexivity|]; by eapply accessed_ret | by eapply accessed_ret | by eapply accessed_hang |
    eapply accessed_bind; [reflexivity|]; by eapply accessed_line; [..|reflexivity|by apply touch_lower]]|]).
  by eapply accessed_ret.
Qed.

Lemma timer_set_run td td' {A} (m : M st A) r :
  devices (devs s) !! slot = Some (Timer td) → m s = Ok (r, upd slot (Timer td') s) → dev_ok (now_clocks s) slot q (Timer td') → accessed slot s q m.
Proof.
  intros Hd E Hok. eapply (accessed_same slot s q m r _ (Timer td) (Timer td')); [done|exact E|done|by apply queue_devs|apply touch_devices|done|apply upd_lookup|done..].
Qed.

Lemma timer_store_run td offset val :
  devices (devs s) !! slot = Some (Timer td) → 0 ≤ val < 2 ^ 32 → (offset = TREG_TNSEC → val < 1000000000) →
  (offset = TREG_REST → i32 val ≠ 0 → 0 < td_count_usecs td ∨ ∀ e, e ∈ q → dev_ev slot e → ev_code e ≠ td_generation td) → (offset = TREG_TIME → uncrowded s ∧ (td_restartflag td ≠ 0 → 0 < val)) →
  accessed slot s q (timer_store slot offset val).
Proof.
  intros Hd Hv Hns Hre Hti. pose proof (bi_slots _ _ _ B _ _ Hd) as Hs. pose proof (bi_devs _ _ _ B _ _ Hd) as [Hc Hr]. unfold timer_store.
  eapply accessed_bind; [by apply get_timer_run|].
  destruct (offset =? TREG_TSEC).
  { eapply (accessed_none slot s q _ true); [done|reflexivity| |by apply (queue_lists s)|done|done|done]. by constructor. }
  destruct (Z.eqb_spec offset TREG_TNSEC) as [E|_].
  { specialize (Hns E). eapply (accessed_none slot s q _ true); [done|reflexivity| |by apply (queue_lists s)|done|done|done]. constructor; try done. cbn. lia. }
  destruct (Z.eqb_spec offset TREG_REST) as [E|_].
  { eapply timer_set_run; [done|reflexivity|]. cbn. auto. }
  destruct (Z.eqb_spec offset TREG_TIME) as [E|_].
  { destruct (Hti E) as [Hu Hres]. unfold uncrowded in Hu. rewrite (events_queue _ _ Q) in Hu.
    set (td1 := mktimer (td_restartflag td) val (td_generation td)).
    destruct (timer_start_run None slot Hs (upd slot (Timer td1) s) q td1) as (s' & e & Es & Cm & Q' & Ed & De & Fe & _ & Hat);
      [by apply (pending_upd None)|cbn; lia|done|apply upd_lookup|done|].
    rewrite upd_upd in Ed. cbn [td1 td_count_usecs] in Hat. change (now_clocks (upd slot (Timer td1) s)) with (now_clocks s) in Hat.
    eapply (accessed_event slot s q _ true s' e Timer_interrupt (Timer td) (Timer (mktimer (td_restartflag td) val (u32 (td_generation td + 1))))); try done.
    - rewrite (bind_ok _ _ _ _ _ (put_run _ _ _)), (bind_ok _ _ _ _ _ Es). done.
    - eapply calm_trans; [apply calm_upd, calm_refl|exact Cm].
    - rewrite Ed. apply touch_devices.
    - rewrite Ed. apply upd_lookup.
    - cbn. auto.
    - unfold rank. by rewrite Fe.
    - by left.
    - unfold ev_ok. by rewrite Fe, De, Hd.
    - unfold HORIZON. lia.
    - cbn [spare]. lia. }
  repeat (case_match; [solve [by eapply accessed_ret | by eapply accessed_hang]|]). by eapply accessed_ret.
Qed.

Lemma serial_fetch_run sd offset : devices (devs s) !! slot = Some (Serial sd) → accessed slot s q (serial_fetch slot offset).
Proof.
  intros Hd. unfold serial_fetch. eapply accessed_bind; [by apply get_serial_run|]. repeat (case_match; [by eapply accessed_ret|]). by eapply accessed_ret.
Qed.

Lemma serial_set_run sd sd' :
  devices (devs s) !! slot = Some (Serial sd) → serial_ok sd' → sd_wbusy sd' = sd_wbusy sd → sd_rbusy sd' = sd_rbusy sd →
  accessed slot s q (let* _ := put slot (Serial sd') in let* _ := setirq slot sd' in mret true).
Proof.
  intros Hd Hok Hw Hr. pose proof (bi_slots _ _ _ B _ _ Hd) as Hs. pose proof (bi_devs _ _ _ B _ _ Hd) as (_ & Hwb & Hrb & Hat). destruct (setirq_run slot Hs (upd slot (Serial sd') s) sd') as (i & E & T).
  eapply (accessed_same slot s q _ true _ (Serial sd) (Serial sd')); [done| | | | |done| | | |].
  - rewrite (bind_ok _ _ _ _ _ (put_run _ _ _)), (bind_ok _ _ _ _ _ E). reflexivity.
  - done.
  - by apply queue_devs, queue_devs.
  - eapply touch_trans; [apply touch_devices|exact T].
  - cbn. apply lookup_insert_eq.
  - done.
  - cbn. by rewrite Hw, Hr.
  - cbn. by rewrite Hw, Hr.
Qed.

Lemma serial_store_run sd offset val : devices (devs s) !! slot = Some (Serial sd) → accessed slot s q (serial_store slot offset val).
Proof.
  intros Hd. pose proof (bi_slots _ _ _ B _ _ Hd) as Hs. pose proof (bi_devs _ _ _ B _ _ Hd) as (Hok & Hwb & Hrb & Hat0). unfold serial_store.
  eapply accessed_bind; [by apply get_serial_run|]. destruct (offset =? SERREG_CHAR).
  - destruct (sd_wbusy sd) eqn:Hw; cbn [negb]; [by eapply accessed_ret|]. set (sd1 := mkser true _ _ _ _ _ _ _).
    set (s1 := set_devs (set_output (output (devs s) ++ [u8 val]) (devs (upd slot (Serial sd1) s))) (upd slot (Serial sd1) s)).
    pose proof (bi_room _ _ _ B) as Hroom.
    destruct (schedule_run None s1 q SERIAL_NSECS slot 0 Serial_writedone) as (s' & e & Es & Sm & Q' & De & _ & Fe & Hat);
      [by apply (pending_devs None), (pending_upd None)|cbn; lia|done|done|].
    change (now_clocks s1) with (now_clocks s) in Hat. change (SERIAL_NSECS `div` NSECS_PER_CLOCK) with 520 in Hat.
    change ((2 * SERIAL_NSECS) `div` NSECS_PER_CLOCK) with 1041 in Hat.
    eapply (accessed_event slot s q _ true s' e Serial_writedone (Serial sd) (Serial sd1)); try done.
    + rewrite (bind_ok _ _ _ _ _ (put_run _ _ _)). erewrite bind_ok by reflexivity. by rewrite (bind_ok _ _ _ _ _ Es).
    + eapply calm_trans; [apply calm_devs, calm_upd, calm_refl|by apply same_calm].
    + rewrite (sm_devs _ _ Sm). split; [|done]. intros j Hj. cbn. by rewrite lookup_insert_ne.
    + rewrite (sm_devs _ _ Sm). cbn. apply lookup_insert_eq.
    + split_and!.
      * by destruct Hok.
      * rewrite pend_insert, Fe, Hwb by (split; [done|by rewrite Fe]). by case_decide.
      * rewrite pend_insert, Fe by (split; [done|by rewrite Fe]). by case_decide.
      * intros x [->|Hx]%elem_of_insert_ev Hdx; [unfold SERIAL_DELAY; lia|]. by apply Hat0.
    + unfold rank. by rewrite Fe.
    + by left.
    + unfold ev_ok. by rewrite Fe, De, Hd.
    + unfold HORIZON. lia.
    + cbn [spare sd1 sd_wbusy sd_rbusy]. rewrite Hw. lia.
  - destruct (offset =? SERREG_RIRQ); [eapply serial_set_run; try done; by destruct Hok|]. destruct (offset =? SERREG_WIRQ); [eapply serial_set_run; try done; by destruct Hok|]. by eapply accessed_ret.
Qed.

Lemma disk_fetch_run dd offset : devices (devs s) !! slot = Some (Disk dd) → accessed slot s q (disk_fetch slot offset).
Proof.
  intros Hd. unfold disk_fetch. eapply accessed_bind; [by apply get_disk_run|]. repeat (case_match; [by eapply accessed_ret|]). by eapply accessed_ret.
Qed.
(** The registers of the disk change, its events do not. *)
Lemma disk_keep_ok dd dd1 :
  dev_ok (now_clocks s) slot q (Disk dd) → disk_ok dd1 → (in_progress dd1 = true → dd_timedop dd1 = true) → dd_timedop dd1 = dd_timedop dd →
  dd_worktries dd1 = dd_worktries dd → dev_ok (now_clocks s) slot q (Disk dd1).
Proof. intros (_ & _ & Hd3 & Hd4 & Hd5) Hok Hp Hto Hw. cbn. rewrite Hw. split_and!; try done; try lia. by rewrite Hto. Qed.

Lemma disk_set_run dd dd1 :
  devices (devs s) !! slot = Some (Disk dd) → disk_ok dd1 → (in_progress dd1 = true → dd_timedop dd1 = true) → dd_timedop dd1 = dd_timedop dd →
  dd_worktries dd1 = dd_worktries dd → accessed slot s q (let* _ := put slot (Disk dd1) in mret true).
Proof.
  intros Hd Hok Hp Hto Hw. pose proof (bi_devs _ _ _ B _ _ Hd) as Hdev.
  eapply (accessed_same slot s q _ true _ (Disk dd) (Disk dd1)); [done|reflexivity|done|by apply queue_devs|apply touch_devices|done|apply upd_lookup|done| |].
  - by eapply disk_keep_ok.
  - cbn. by rewrite Hto.
Qed.

(** A new status starts the work, unless the disk still waits for an event. *)
Lemma disk_start_run dd dd0 :
  devices (devs s) !! slot = Some (Disk dd) → disk_ok dd0 → dd_timedop dd0 = dd_timedop dd → dd_worktries dd0 = dd_worktries dd →
  accessed slot s q (let* _ := put slot (Disk dd0) in disk_update slot).
Proof.
  intros Hd Hok Hto Hw. pose proof (bi_slots _ _ _ B _ _ Hd) as Hs. pose proof (bi_devs _ _ _ B _ _ Hd) as Hdev. pose proof (bi_room _ _ _ B) as Hroom.
  assert (touch slot (devs s) (devs (upd slot (Disk dd0) s))) as T0 by apply touch_devices.
  destruct (dd_timedop dd) eqn:Hb.
  - eapply (accessed_same slot s q _ tt _ (Disk dd) (Disk dd0)); [done| | | | |done| |done| |].
    + rewrite (bind_ok _ _ _ _ _ (put_run _ _ _)). apply (disk_update_busy slot); [apply upd_lookup|done].
    + done.
    + by apply queue_devs, queue_devs.
    + eapply touch_trans; [exact T0|by apply touch_line].
    + cbn. apply lookup_insert_eq.
    + eapply disk_keep_ok; try done. by rewrite Hto, Hb.
    + cbn. by rewrite Hto, Hb.
  - destruct (disk_update_run None slot (upd slot (Disk dd0) s) q dd0) as (s' & dd' & q' & E & Cm & Q' & Ed & Hok' & Hst);
      [by apply (pending_upd None)|cbn; lia|done|apply upd_lookup|done|done|].
    rewrite upd_upd in Ed. change (now_clocks (upd slot (Disk dd0) s)) with (now_clocks s) in Hst.
    pose proof Hdev as (_ & _ & _ & Hwt & Hat).
    destruct (step_dev_ok (now_clocks s) slot dd0 q q dd' q') as [Hdev' Hlen]; try done; [by rewrite Hw|].
    eapply (accessed_by slot s q _ tt s' q' (Disk dd) (Disk dd')); try done.
    + apply calm_steady. eapply calm_trans; [apply calm_upd, calm_refl|exact Cm].
    + rewrite Ed. eapply touch_trans; [apply touch_devices|by apply touch_line].
    + rewrite Ed. apply upd_lookup.
    + destruct Hst as [|? ? ? ?|dd1 e ? ? ? ? ? He]; [by left|by left|]. right. exists e. split; [done|]. split; [destruct He; unfold HORIZON, DISK_DELAY in *; lia|].
      intros _. unfold rank. destruct (ev_func e); try lia. destruct (_ <? _); lia.
    + destruct Hst as [|? ? ? ?|dd1 e ? ? ? ? ? He]; [apply grown_refl|apply grown_refl|]. apply grown_insert; [apply He|by eapply disk_event_ok].
    + cbn [spare] in Hlen |- *. rewrite Hb. lia.
Qed.

Lemma disk_setstatus_run dd val : devices (devs s) !! slot = Some (Disk dd) → accessed slot s q (disk_setstatus slot val).
Proof.
  intros Hd. pose proof (bi_devs _ _ _ B _ _ Hd) as (Hok & _). unfold disk_setstatus. eapply accessed_bind; [by apply get_disk_run|].
  case_match; [eapply disk_start_run; try done; apply disk_ok_core; [by apply disk_ok_op|done|apply Hok]|].
  case_match; [eapply disk_start_run; try done; apply disk_ok_core; [by apply disk_ok_op|done|apply Hok]|].
  eapply (accessed_none slot s q _ tt); [done|reflexivity|done|by apply queue_devs|done|done|done].
Qed.

Lemma disk_store_run dd offset val : devices (devs s) !! slot = Some (Disk dd) → 0 ≤ val → accessed slot s q (disk_store slot offset val).
Proof.
  intros Hd Hv. pose proof (bi_devs _ _ _ B _ _ Hd) as (Hok & Hp & _). unfold disk_store. eapply accessed_bind; [by apply get_disk_run|]. cbv zeta.
  case_match; [eapply disk_set_run; try done; apply disk_ok_core; [done|done|apply Hok]|].
  case_match; [eapply accessed_then; [intros; reflexivity|]; by eapply disk_setstatus_run|].
  case_match; [eapply disk_set_run; try done; apply disk_ok_core; done|]. by eapply accessed_ret.
Qed.

(** ** The controller, and what has no state *)
Lemma doaddress_run offset : 0 ≤ offset → Z.land offset 3 = 0 → ∃ r, lamebus_controller_doaddress offset = Ok r ∧
  ∀ cfg o, r = Some (cfg, o) → o = offset `mod` LAMEBUS_CONFIG_SIZE ∧ cfg = offset `div` LAMEBUS_CONFIG_SIZE ∧ offset < 32768 ∧
    (o = LBC_OFFSET_POWER → cfg = 31).
Proof.
  intros Ho Ha. unfold lamebus_controller_doaddress. rewrite Ha. change (0 =? 0) with true. change (oassert true) with (Ok ()).
  cbv beta iota. destruct (Z.leb_spec 32768 offset) as [|Hlt]; [eexists; split; [reflexivity|done]|].
  assert (offset / LAMEBUS_CONFIG_SIZE < 32) by (apply Z.div_lt_upper_bound; unfold LAMEBUS_CONFIG_SIZE; lia).
  change LAMEBUS_NSLOTS with 32. rewrite (proj2 (Z.ltb_lt _ _)) by done. change (oassert true) with (Ok ()). cbv beta iota.
  destruct (_ || _ || _) eqn:H1 in |- *; [|destruct (Z.eqb_spec (offset / LAMEBUS_CONFIG_SIZE) (Z.of_nat LAMEBUS_CONTROLLER_SLOT)) as [E|E]; cbn [negb];
    [destruct (_ || _ || _) in |- *|]]; (eexists; split; [reflexivity|]); intros cfg o [= <- <-]; split_and!; try done.
  intros E. rewrite E in H1. done.
Qed.

Lemma controller_fetch_run offset :
  devices (devs s) !! slot = Some Busctl → 0 ≤ offset → Z.land offset 3 = 0 → accessed slot s q (lamebus_controller_fetch offset).
Proof.
  intros Hd Ho Ha. destruct (doaddress_run offset Ho Ha) as (r & E & _). unfold lamebus_controller_fetch.
  eapply accessed_bind; [rewrite E; reflexivity|]. destruct r as [[cfg o]|]; [|by eapply accessed_ret]. eapply accessed_bind; [reflexivity|].
  destruct (default _ _) as [[vendor dev] rev]. repeat (case_match; [solve [by eapply accessed_ret|by eapply accessed_hang]|]). by eapply accessed_ret.
Qed.

Lemma controller_store_run offset val :
  devices (devs s) !! slot = Some Busctl → 0 ≤ offset → Z.land offset 3 = 0 →
  (offset = 31 * LAMEBUS_CONFIG_SIZE + LBC_OFFSET_POWER → val = 0 → uncrowded s) → accessed slot s q (lamebus_controller_store offset val).
Proof.
  intros Hd Ho Ha Hu. destruct (doaddress_run offset Ho Ha) as (r & E & Hr). unfold lamebus_controller_store.
  eapply accessed_bind; [rewrite E; reflexivity|]. destruct r as [[cfg o]|]; [|by eapply accessed_ret].
  destruct (Z.eqb_spec o LBC_OFFSET_POWER) as [Eo|]; [|by eapply accessed_ret]. destruct (Z.eqb_spec val 0) as [Ev|]; [|by eapply accessed_ret].
  destruct (Hr cfg o eq_refl) as (Em & Ec & _ & H31). specialize (H31 Eo). assert (uncrowded s) as Hun.
  { apply Hu; [|done]. pose proof (Z.div_mod offset LAMEBUS_CONFIG_SIZE ltac:(done)). rewrite <- Em, <- Ec, H31, Eo in *. lia. }
  unfold uncrowded in Hun. rewrite (events_queue _ _ Q) in Hun.
  destruct (schedule_run None s q POWEROFF_NSECS 0 0 Dopoweroff) as (s' & e & Es & Sm & Q' & _ & _ & Fe & Hat); [done|cbn; lia|done|done|].
  change (POWEROFF_NSECS `div` NSECS_PER_CLOCK) with 125000 in Hat. change ((2 * POWEROFF_NSECS) `div` NSECS_PER_CLOCK) with 250000 in Hat.
  eapply (accessed_event slot s q _ true s' e Dopoweroff Busctl Busctl); try done.
  - by rewrite (bind_ok _ _ _ _ _ Es).
  - by apply same_calm.
  - by rewrite (sm_devs _ _ Sm).
  - by rewrite (sm_devs _ _ Sm).
  - unfold rank. by rewrite Fe.
  - by right.
  - unfold ev_ok. by rewrite Fe.
  - unfold HORIZON. lia.
  - cbn [spare]. lia.
Qed.

Lemma rand_fetch_run offset d : devices (devs s) !! slot = Some d → accessed slot s q (rand_fetch offset).
Proof.
  intros Hd. unfold rand_fetch. case_match; [|by eapply accessed_ret].
  eapply (accessed_none slot s q); [done|reflexivity|done|by apply (queue_lists s)|done|done|done].
Qed.
End registers.

(** ** Dispatch *)
Lemma register_aligned offset : Z.land offset 3 = 0 → Z.land (offset `mod` LAMEBUS_SLOT_MEM) 3 = 0.
Proof.
  change 3 with (Z.ones 2). change LAMEBUS_SLOT_MEM with (2 ^ 16). rewrite !Z.land_ones by lia. intros H.
  rewrite <- (Z.mod_mod_divide offset (2 ^ 16) (2 ^ 2)) in H; [done|]. by exists 16384.
Qed.

Lemma accessed_nop {A} slot s q (r : A) : queue s q → bus_inv (now_clocks s) (devs s) q → accessed slot s q (mret r).
Proof. intros Q B. exists r, s, q. split_and!; try done. by left. Qed.

Lemma fetch_run offset s q :
  queue s q → bus_inv (now_clocks s) (devs s) q → in_time s → 0 ≤ offset → Z.land offset 3 = 0 → accessed (slot_of offset) s q (bus_io_fetch offset).
Proof.
  intros Q B Ht Ho Ha. unfold bus_io_fetch. cbv zeta. case_match; [by apply accessed_nop|].
  eapply accessed_bind; [by rewrite Ha|]. eapply accessed_bind; [reflexivity|]. fold (slot_of offset).
  pose proof (register_aligned _ Ha). assert (0 ≤ offset `mod` LAMEBUS_SLOT_MEM) by (apply Z.mod_pos_bound; unfold LAMEBUS_SLOT_MEM; lia).
  destruct (devices (devs s) !! slot_of offset) as [[|td|sd|dd| |]|] eqn:Hd; try by apply accessed_nop.
  - by apply controller_fetch_run.
  - by eapply timer_fetch_run.
  - by eapply serial_fetch_run.
  - by eapply disk_fetch_run.
  - by eapply rand_fetch_run.
Qed.

Lemma store_run offset val s q :
  queue s q → bus_inv (now_clocks s) (devs s) q → in_time s → 0 ≤ offset → Z.land offset 3 = 0 → 0 ≤ val < 2 ^ 32 → mild_store s offset val →
  accessed (slot_of offset) s q (bus_io_store offset val).
Proof.
  intros Q B Ht Ho Ha Hv Hm. unfold bus_io_store. cbv zeta. case_match; [by apply accessed_nop|].
  eapply accessed_bind; [by rewrite Ha|]. eapply accessed_bind; [reflexivity|]. fold (slot_of offset). unfold mild_store in Hm. rewrite (events_queue _ _ Q) in Hm.
  pose proof (register_aligned _ Ha). assert (0 ≤ offset `mod` LAMEBUS_SLOT_MEM) by (apply Z.mod_pos_bound; unfold LAMEBUS_SLOT_MEM; lia).
  destruct (devices (devs s) !! slot_of offset) as [[|td|sd|dd| |]|] eqn:Hd; try by apply accessed_nop.
  - by apply controller_store_run.
  - destruct Hm as (Hm1 & Hm2 & Hm3). by eapply timer_store_run.
  - by eapply serial_store_run.
  - eapply disk_store_run; try done. lia.
Qed.

(** Nothing happens to a disk that is read. *)
Lemma disk_fetch_pure slot offset dd s : devices (devs s) !! slot = Some (Disk dd) → ∃ r, disk_fetch slot offset s = Ok (r, s).
Proof.
  intros Hd. unfold disk_fetch. rewrite (bind_ok _ _ _ _ _ (get_disk_run _ _ _ Hd)). cbv zeta. repeat (case_match; [by eexists|]). by eexists.
Qed.

Lemma fetch_disk offset s dd :
  Z.land offset 3 = 0 → devices (devs s) !! slot_of offset = Some (Disk dd) → ∃ r, bus_io_fetch offset s = Ok (r, s).
Proof.
  intros Ha Hd. unfold bus_io_fetch. cbv zeta. case_match; [by eexists|]. erewrite bind_ok by (by rewrite Ha). erewrite bind_ok by reflexivity.
  fold (slot_of offset). rewrite Hd. by eapply disk_fetch_pure.
Qed.

(** ** Runs *)
Fixpoint ticks (p : list op) : Z :=
  match p with
  | [] => 0
  | Tick :: p' => 1 + ticks p'
  | _ :: p' => ticks p'
  end.

Section runs.
Context (Q : Z → bus → list ev → Prop) `{!Fact Q} (keeps : nat → Prop).
Context (Hkeeps : ∀ slot now b q b' q', keeps slot → Q now b q → (∀ j d, j ≠ slot → devices b !! j = Some d → quiet j b q b' q') → Q now b' q').
Context (Hdisk : ∀ slot now b q, Q now b q → keeps slot ∨ ∃ dd, devices b !! slot = Some (Disk dd)).
Implicit Types (s : st) (q : list ev).

Abbreviation fine := (good accepts (inv_with Q)).

Definition allowed (o : op) : Prop :=
  match o with
  | Store offset _ => keeps (slot_of offset)
  | _ => True
  end.

Lemma access_fine {A} slot s q (m : B A) :
  fine s q → accessed slot s q m → keeps slot → ∃ r s' q', m s = Ok (r, s') ∧ fine s' q' ∧ now_clocks s' = now_clocks s.
Proof.
  intros G (r & s' & q' & E & Sd & Q' & A' & B' & Hk & Hqu) Hkp. exists r, s', q'. destruct Sd as [E1 E2 E3 E4 E5]. split_and!; try done.
  destruct (gd_inv _ _ _ _ G) as [Bi HQ]. constructor; rewrite ?E1, ?E4, ?E5.
  - done.
  - eapply added_sorted; [exact A'|apply G].
  - eapply added_due; [exact A'|apply G].
  - split; [done|]. by eapply Hkeeps.
  - apply G.
  - apply E2, G.
  - apply E3, G.
  - apply G.
  - eapply list.Forall_impl; [apply G|]. intros l Hl. eapply list.Forall_impl; [exact Hl|]. intros k. unfold accepts. by rewrite Hk.
Qed.

Lemma exec_run o s q :
  fine s q → mild s o → allowed o →
  ∃ s' q', exec o s = Ok s' ∧ fine s' q' ∧ now_clocks s' = now_clocks s + ticks [o].
Proof.
  intros G Hm Ha. pose proof (gd_inv _ _ _ _ G) as [B HQ]. pose proof (gd_queue _ _ _ _ G) as Q0. pose proof (gd_now _ _ _ _ G) as Hn. pose proof (gd_nsecs _ _ _ _ G) as Hns.
  assert (now_clocks s < 2 ^ 62 → in_time s) as Ht by done.
  destruct o as [|offset|offset val]; cbn [exec ticks mild] in *.
  - destruct (clock_tick_run rank 2 accepts (inv_with Q) fuel s q G Hm) as (s' & q' & E & G' & Ec & _); [done|]. exists s', q'. rewrite E. by rewrite Z.add_0_r.
  - destruct Hm as (Ho & Hal & Hc). destruct (Hdisk (slot_of offset) _ _ _ HQ) as [Hk|[dd Hd]].
    + destruct (access_fine (slot_of offset) s q (bus_io_fetch offset) G) as (r & s' & q' & E & G' & Ec); [by apply fetch_run; auto|done|].
      exists s', q'. rewrite E, Ec. split; [done|]. split; [done|]. lia.
    + destruct (fetch_disk offset s dd Hal Hd) as [r E]. exists s, q. rewrite E. split; [done|]. split; [done|]. lia.
  - destruct Hm as (Ho & Hal & Hv & Hc & Hms).
    destruct (access_fine (slot_of offset) s q (bus_io_store offset val) G) as (r & s' & q' & E & G' & Ec); [by apply store_run; auto|done|].
    exists s', q'. rewrite E, Ec. split; [done|]. split; [done|]. lia.
Qed.

Lemma program_run p s q :
  fine s q → legal p s → Forall allowed p → ∃ s' q', run p s = Ok s' ∧ fine s' q' ∧ now_clocks s' = now_clocks s + ticks p.
Proof.
  revert s q. induction p as [|o p IH]; intros s q G Hl Ha.
  { exists s, q. split; [done|]. split; [done|]. cbn. lia. }
  destruct Hl as [Hm Hl]. apply Forall_cons in Ha as [Ho Ha]. destruct (exec_run o s q G Hm Ho) as (s1 & q1 & E & G1 & Ec). rewrite E in Hl.
  destruct (IH s1 q1 G1 Hl Ha) as (s2 & q2 & E2 & G2 & Ec2). exists s2, q2. cbn [run]. rewrite E. split; [exact E2|]. split; [done|].
  rewrite Ec2, Ec. destruct o; cbn [ticks]; lia.
Qed.
End runs.

(** The bus, the devices and the clock in order, with the events [q] pending. *)
Definition bus_good : st → list ev → Prop := good accepts (inv_with (fun _ _ _ => True)).

Lemma bus_good_with Q s q : bus_good s q → Q (now_clocks s) (devs s) q → good accepts (inv_with Q) s q.
Proof. intros [? ? ? [? _]] HQ. by constructor. Qed.

Lemma good_bus_good Q s q : good accepts (inv_with Q) s q → bus_good s q.
Proof. intros [? ? ? [? _]]. by constructor. Qed.

Definition elsewhere (slot : nat) (o : op) : Prop :=
  match o with
  | Store offset _ => slot_of offset ≠ slot
  | _ => True
  end.

(** An operation under way ends within [disk_time] clocks: a first event, and one for each further try. *)
Definition disk_time : Z := (1 + MAX_WORKTRIES) * DISK_DELAY.

Definition disk_done (slot : nat) (c : Lhd.disk_data) (b : bus) : Prop :=
  ∃ dd, devices b !! slot = Some (Disk dd) ∧ dd_core dd = Lhd.disk_work c ∧ Z.testbit (interrupts b) (Z.of_nat slot) = true.

Lemma promised_start s q slot dd :
  bus_good s q → devices (devs s) !! slot = Some (Disk dd) → promised slot (dd_core dd) (now_clocks s + DISK_DELAY) (now_clocks s) (devs s) q.
Proof.
  intros G Hd. exists dd. split; [done|]. right. split; [done|]. intros e He Hde. destruct (gd_inv _ _ _ _ G) as [B _].
  pose proof (bi_devs _ _ _ B _ _ Hd) as (_ & _ & _ & Hw & Hat). pose proof (Hat e He Hde). assert (0 ≤ DISK_DELAY) by done. nia.
Qed.

(** Until it is done, an event of the disk is pending. *)
Lemma promised_pending now slot c T b q :
  Z.land (Lhd.dd_stat c) Lhd.DISKBIT_INPROGRESS ≠ 0 → bus_inv now b q → promised slot c T now b q →
  disk_done slot c b ∨ ∃ e, e ∈ q ∧ ev_at e ≤ T + MAX_WORKTRIES * DISK_DELAY.
Proof.
  intros Hc B (dd & Hd & [[Hcore Hl]|[Hcore Hev]]); [left; by exists dd|right]. pose proof (bi_devs _ _ _ B _ _ Hd) as (_ & Hp & Hto & Hw & _).
  destruct Hto as (e & He & Hde). { apply Hp. unfold in_progress. rewrite Hcore. by apply negb_true_iff, Z.eqb_neq. }
  exists e. split; [done|]. pose proof (Hev e He Hde). assert (0 ≤ DISK_DELAY) by done. nia.
Qed.

Lemma busy_core dd : in_progress dd = true → Z.land (Lhd.dd_stat (dd_core dd)) Lhd.DISKBIT_INPROGRESS ≠ 0.
Proof. unfold in_progress. intros H. by apply negb_true_iff, Z.eqb_neq in H. Qed.

Lemma bus_program p s q :
  bus_good s q → legal p s → ∃ s', run p s = Ok s' ∧ bus_good s' (events s') ∧ now_clocks s' = now_clocks s + ticks p.
Proof.
  intros G Hl. destruct (program_run (fun _ _ _ => True) (fun _ => True)) with (p := p) (s := s) (q := q) as (s' & q' & E & G' & Ec); try done.
  - by left.
  - apply list.Forall_forall. by intros [].
  - exists s'. by rewrite (events_queue _ _ (gd_queue _ _ _ _ G')).
Qed.

Lemma disk_run p s q slot dd :
  bus_good s q → devices (devs s) !! slot = Some (Disk dd) → in_progress dd = true → legal p s → Forall (elsewhere slot) p → disk_time < ticks p →
  ∃ s', run p s = Ok s' ∧ disk_done slot (dd_core dd) (devs s').
Proof.
  intros G Hd Hp Hl Hels Ht. apply busy_core in Hp. pose proof (promised_fact slot (dd_core dd) (now_clocks s + DISK_DELAY) Hp) as F.
  destruct (program_run (promised slot (dd_core dd) (now_clocks s + DISK_DELAY)) (fun j => j ≠ slot)) with (p := p) (s := s) (q := q)
    as (s' & q' & E & G' & Ec).
  - intros j now b q0 b' q' Hj HQ Hqu. pose proof HQ as (ddj & Hdj & _). eapply promised_quiet; [done|]. by eapply Hqu.
  - intros j now b q0 HQ. destruct (decide (j = slot)) as [->|]; [|by left]. destruct HQ as (ddj & Hdj & _). right. by exists ddj.
  - apply bus_good_with; [done|]. by apply promised_start.
  - done.
  - eapply list.Forall_impl; [exact Hels|]. by intros [].
  - exists s'. split; [done|]. destruct (gd_inv _ _ _ _ G') as [B' HQ'].
    destruct (promised_pending _ _ _ _ _ _ Hp B' HQ') as [|(e & He & Hat)]; [done|]. exfalso.
    pose proof (gd_due _ _ _ _ G') as Hdue. rewrite list.Forall_forall in Hdue. specialize (Hdue e He). unfold disk_time in Ht. lia.
Qed.

Lemma testbit_nonzero z n : Z.testbit z n = true → z ≠ 0.
Proof. intros Ht ->. by rewrite Z.testbit_0_l in Ht. Qed.

Lemma disk_wait s q slot dd :
  bus_good s q → devices (devs s) !! slot = Some (Disk dd) → in_progress dd = true → now_clocks s + disk_time < 2 ^ 62 →
  ∃ n, ∀ f, (n ≤ f)%nat → ∃ s', clock_waitirq fuel f s = Ok (tt, s') ∧ bus_good s' (events s') ∧ interrupts (devs s') ≠ 0.
Proof.
  intros G Hd Hp Hnow. apply busy_core in Hp. pose proof (promised_fact slot (dd_core dd) (now_clocks s + DISK_DELAY) Hp) as F.
  destruct (waitirq_returns rank 2 accepts (inv_with (promised slot (dd_core dd) (now_clocks s + DISK_DELAY))) (now_clocks s + disk_time) fuel s q)
    as [n Hn]; [|done| |done|].
  - intros now b q' [B HQ] Hi. destruct (promised_pending _ _ _ _ _ _ Hp B HQ) as [(dd' & _ & _ & Hl)|(e & He & Hat)].
    + by apply testbit_nonzero in Hl.
    + exists e. split; [done|]. unfold disk_time. lia.
  - apply bus_good_with; [done|]. by apply promised_start.
  - exists n. intros f Hf. destruct (Hn f Hf) as (s' & q' & E & G' & Hi). exists s'. split; [done|]. apply good_bus_good in G'.
    by rewrite (events_queue _ _ (gd_queue _ _ _ _ G')).
Qed.

(** ** Ticks alone *)
Lemma ticks_replicate n : ticks (replicate n Tick) = Z.of_nat n.
Proof. induction n as [|n IH]; [done|]. cbn [replicate ticks]. rewrite IH. lia. Qed.

Lemma legal_ticks n s q : bus_good s q → now_clocks s + Z.of_nat n < 2 ^ 62 → legal (replicate n Tick) s.
Proof.
  revert s q. induction n as [|n IH]; intros s q G Hn; [done|]. cbn [replicate legal]. split; [cbn; lia|].
  destruct (exec_run (fun _ _ _ => True) (fun _ => True)) with (o := Tick) (s := s) (q := q) as (s' & q' & E & G' & Ec); try done; [by left|cbn; lia|].
  rewrite E. apply (IH s' q' G'). change (ticks [Tick]) with 1 in Ec. lia.
Qed.

End Lamebusrun.
