(* ===== verification/Lamebusthm.v ===== *)
(** * The clock and the bus: theorems

    What the simulator's clock and devices promise to the processor, and a small machine (controller, timer, serial port and disk)
    on which the theorems are applied. *)
From stdpp Require Import base list gmap numbers sorting relations.
From S2P Require Import Prelude Copyinout Uio Lhd Clock Clockspec Lamebus Lamebussafe Lamebusspec Lamebusrun.
Local Open Scope Z_scope.

Module Lamebusthm.
Import Clock Clockspec Lamebus Lamebussafe Lamebusspec Lamebusrun.

(** ** The queue *)
Section queue.
Context {D H I : Type}.
Implicit Types (s : clock D H I) (q : list (event H)).

(** The linked lists of clock.c implement a sorted list: a new event goes after every event due no later, at the time asked for or up
    to the same delay later, and nothing else of the clock changes. *)
Theorem schedule_event_inserts s q nsecs data code h :
  queue s q → Sorted by_time q → (length q < MAXACTIONS)%nat → in_time s → 0 ≤ nsecs < 2 ^ 43 →
  ∃ s' q1 q2 at_, schedule_event nsecs data code h s = Ok (tt, s') ∧ q = q1 ++ q2 ∧ queue s' (q1 ++ mkev at_ data code h :: q2) ∧
    Forall (fun e => ev_at e ≤ at_) q1 ∧ Forall (fun e => at_ < ev_at e) q2 ∧ same s s' ∧
    now_clocks s + nsecs `div` NSECS_PER_CLOCK ≤ at_ ≤ now_clocks s + (2 * nsecs) `div` NSECS_PER_CLOCK.
Proof.
  intros Q Hs Hl Ht Hn. destruct (schedule_run None s q nsecs data code h Q Hl Ht Hn) as (s' & [at_ d c f] & E & Sm & Q' & De & Ce & Fe & Hat).
  cbn in *. subst d c f. destruct (insert_split (mkev at_ data code h) q Hs) as (q1 & q2 & -> & Ei & H1 & H2). exists s', q1, q2, at_. rewrite Ei in Q'. done.
Qed.

(** With all actions in use there is no other way than to stop. *)
Theorem schedule_event_full s q nsecs data code h :
  queue s q → length q = MAXACTIONS → schedule_event nsecs data code h s = Panic.
Proof.
  intros (ql & fl & R) Hl. assert (fl = []) as ->.
  { pose proof (qr_all _ _ _ _ R) as Hall. rewrite length_app, (Forall2_length _ _ _ (qr_evs _ _ _ _ R)), Hl in Hall. apply nil_length_inv.
    revert Hall. generalize MAXACTIONS. lia. }
  destruct (qr_free _ _ _ _ R) as [Hf _]. unfold schedule_event. erewrite bind_ok by reflexivity. cbv zeta. unfold acalloc.
  unfold mbind, M_bind. cbn. by rewrite Hf.
Qed.
End queue.

(** ** The devices *)

(** C15: Whatever a processor does, as long as its stores are mild, the simulator goes on, no event is late, and the clock counts the ticks. *)
Theorem bus_programs_safe p s q :
  bus_good s q → legal p s →
  ∃ s', run p s = Ok s' ∧ bus_good s' (events s') ∧ Forall (fun e => now_clocks s' ≤ ev_at e) (events s') ∧ now_clocks s' = now_clocks s + ticks p.
Proof.
  intros G Hl. destruct (bus_program p s q G Hl) as (s' & E & G' & Ec). exists s'. split_and!; try done.
  eapply list.Forall_impl; [apply G'|]. cbn. lia.
Qed.

(** C14: A disk operation under way ends within [disk_time] ticks, whatever else the processor does meanwhile: the registers, the buffer
    and the image are what the operation makes of them, and the interrupt line is up. *)
Theorem disk_completes p s q slot dd :
  bus_good s q → devices (devs s) !! slot = Some (Disk dd) → in_progress dd = true → legal p s → Forall (elsewhere slot) p → disk_time < ticks p →
  ∃ s' dd', run p s = Ok s' ∧ devices (devs s') !! slot = Some (Disk dd') ∧ dd_core dd' = Lhd.disk_work (dd_core dd) ∧
    Z.testbit (interrupts (devs s')) (Z.of_nat slot) = true.
Proof.
  intros G Hd Hp Hl He Ht. destruct (disk_run p s q slot dd G Hd Hp Hl He Ht) as (s' & E & dd' & Hrest). by exists s', dd'.
Qed.

(** A processor that waits for an interrupt while a disk operation is under way gets one. *)
Theorem disk_wakes s q slot dd :
  bus_good s q → devices (devs s) !! slot = Some (Disk dd) → in_progress dd = true → now_clocks s + disk_time < 2 ^ 62 →
  ∃ n, ∀ f, (n ≤ f)%nat → ∃ s', clock_waitirq fuel f s = Ok (tt, s') ∧ bus_good s' (events s') ∧ interrupts (devs s') ≠ 0.
Proof. apply disk_wait. Qed.

(** The characters that [n] deliveries put into the register. *)
Fixpoint deliver (n : nat) (slot : nat) : B (list Z) :=
  match n with
  | O => mret []
  | S n' =>
      let* _ := serial_pushinput slot in
      let* sd := get_serial slot in
      let* l := deliver n' slot in
      mret (sd_readch sd :: l)
  end.

Lemma type_run slot ks s q sd :
  queue s q → (length q < MAXACTIONS)%nat → in_time s → (slot < 32)%nat → devices (devs s) !! slot = Some (Serial sd) → serial_ok sd →
  sd_rbusy sd = true → (length (fifo sd) + length ks ≤ 511)%nat →
  ∃ s' sd', receive_all (pair slot <$> ks) s = Ok (tt, s') ∧ queue s' q ∧ in_time s' ∧ devices (devs s') !! slot = Some (Serial sd') ∧
    serial_ok sd' ∧ fifo sd' = fifo sd ++ ks.
Proof.
  intros Q Hl Ht Hs. revert s sd Q Ht. induction ks as [|k ks IH]; intros s sd Q Ht Hd Hok Hb Hlen.
  { exists s, sd. by rewrite app_nil_r. }
  destruct (serial_input_run None slot Hs s q sd k Q Hl Ht Hd Hok) as (s1 & sd1 & q1 & [E Cm Hp T Hd1 _ Hok1] & _ & Hm).
  rewrite decide_False in Hm. 2: { rewrite fifo_length in Hlen by done. cbn in Hlen. pose proof (count_nonneg sd). lia. }
  rewrite Hb in Hm. destruct Hm as (Hb1 & -> & Ef). destruct (IH s1 sd1) as (s' & sd' & E' & Q' & Ht' & Hd' & Hok' & Ef'); try done.
  - by eapply calm_time.
  - rewrite Ef, length_app. cbn in *. lia.
  - exists s', sd'. split_and!; try done.
    + cbn [fmap list_fmap receive_all]. change (receive (slot, k)) with (serial_input slot k). by rewrite (bind_ok _ _ _ _ _ E).
    + rewrite Ef', Ef, <- app_assoc. done.
Qed.

Lemma deliver_run slot ks s q sd rest :
  queue s q → (length q + length ks < MAXACTIONS)%nat → in_time s → (slot < 32)%nat → devices (devs s) !! slot = Some (Serial sd) → serial_ok sd →
  fifo sd = ks ++ rest →
  ∃ s' sd', deliver (length ks) slot s = Ok (u8 <$> ks, s') ∧ devices (devs s') !! slot = Some (Serial sd') ∧ fifo sd' = rest.
Proof.
  intros Q Hl Ht Hs. revert s sd q Q Hl Ht. induction ks as [|k ks IH]; intros s sd q Q Hl Ht Hd Hok Hf; cbn [length deliver fmap list_fmap].
  { exists s, sd. done. }
  destruct (serial_pushinput_run None slot Hs s q sd Q ltac:(cbn in *; lia) Ht Hd Hok) as (s1 & sd1 & q1 & [E Cm Hp T Hd1 _ Hok1] & _ & Hm).
  rewrite Hf in Hm. cbn [app] in Hm. destruct Hm as (_ & (e & -> & _) & Ef & Hc & _).
  destruct (IH s1 sd1 (insert_ev e q)) as (s' & sd' & E' & Hd' & Ef'); try done.
  - rewrite length_insert_ev. cbn in Hl. lia.
  - by eapply calm_time.
  - exists s', sd'. split; [|done]. rewrite (bind_ok _ _ _ _ _ E), (bind_ok _ _ _ _ _ (get_serial_run slot sd1 s1 Hd1)), (bind_ok _ _ _ _ _ E').
    by rewrite Hc.
Qed.

(** Keys reach the register of the serial port in the order typed, after those typed before, as long as they fit into the buffer. *)
Theorem serial_keys_in_order slot ks s q sd :
  queue s q → (length q + length (fifo sd) + length ks < MAXACTIONS)%nat → in_time s → (slot < 32)%nat →
  devices (devs s) !! slot = Some (Serial sd) → serial_ok sd → sd_rbusy sd = true → (length (fifo sd) + length ks ≤ 511)%nat →
  ∃ s', (let* _ := receive_all (pair slot <$> ks) in deliver (length (fifo sd ++ ks)) slot) s = Ok (u8 <$> fifo sd ++ ks, s').
Proof.
  intros Q Hl Ht Hs Hd Hok Hb Hlen. destruct (type_run slot ks s q sd) as (s1 & sd1 & E & Q1 & Ht1 & Hd1 & Hok1 & Ef); try done; [lia|].
  destruct (deliver_run slot (fifo sd ++ ks) s1 q sd1 []) as (s2 & _ & E2 & _); try done.
  - rewrite length_app. lia.
  - by rewrite app_nil_r.
  - exists s2. by rewrite (bind_ok _ _ _ _ _ E).
Qed.

(** ** A timer that never lets go *)
Lemma timer_zero_step fuel s x slot td :
  queue s [x] → in_time s → (slot < 32)%nat → ev_at x = now_clocks s → ev_func x = Timer_interrupt → ev_data x = slot → ev_code x = td_generation td →
  devices (devs s) !! slot = Some (Timer td) → td_restartflag td ≠ 0 → td_count_usecs td = 0 →
  ∃ s' x' td', check_queue (S fuel) s = check_queue fuel s' ∧ queue s' [x'] ∧ in_time s' ∧ ev_at x' = now_clocks s' ∧ ev_func x' = Timer_interrupt ∧
    ev_data x' = slot ∧ ev_code x' = td_generation td' ∧ devices (devs s') !! slot = Some (Timer td') ∧ td_restartflag td' ≠ 0 ∧ td_count_usecs td' = 0.
Proof.
  intros Q Ht Hs Hx Hf Hdat Hgen Hd Hres Hc. destruct (queue_head _ _ _ Q) as (i & a & Hq & Hh & Ha & Hev).
  assert (ta_func a = Some Timer_interrupt ∧ ta_clocksat a = now_clocks s ∧ ta_data a = slot ∧ ta_code a = td_generation td) as (E1 & E2 & E3 & E4).
  { unfold ev_of in Hev. destruct (ta_func a) as [f|]; [|done]. injection Hev as <-. cbn in *. by subst. }
  set (s1 := set_devs (set_interrupts (raise_irq slot (interrupts (devs s))) (devs s)) s).
  destruct (timer_start_run (Some (i, x)) slot Hs s1 [] td) as (s2 & e & E & Cm & [Hh' _] & Ed & De & Fe & Ce & Hat).
  { by apply (pending_devs (Some (i, x))). } { cbn. unfold MAXACTIONS. lia. } { done. } { done. } { by rewrite Hc. }
  destruct (pop_run _ _ _ _ Hh') as (b & s3 & s4 & Eg & E5 & E6 & Q4 & Sm). cbn [insert_ev] in Q4.
  exists s4, e, (mktimer (td_restartflag td) (td_count_usecs td) (u32 (td_generation td + 1))).
  assert (in_time s4) as Ht4 by (apply (calm_time s2); [by apply same_calm|by apply (calm_time s1)]).
  pose proof (calm_clocks _ _ Cm) as Ec. change (now_clocks s1) with (now_clocks s) in *. rewrite (sm_devs _ _ Sm), Ed, Hc in *. split_and!; try done; try apply Ht4.
  - cbn [check_queue]. erewrite bind_ok by reflexivity. rewrite Hq, (bind_ok _ _ _ _ _ (geta_run _ _ _ Ha)). erewrite bind_ok by reflexivity.
    rewrite E1, E2, Z.eqb_refl. cbn [negb]. erewrite bind_ok by reflexivity. erewrite bind_ok.
    { rewrite (bind_ok _ _ _ _ _ Eg), (bind_ok _ _ _ _ _ E5), (bind_ok _ _ _ _ _ E6). reflexivity. }
    cbn [call_func lamebus_devices]. rewrite E3, E4. unfold timer_interrupt. rewrite (bind_ok _ _ _ _ _ (get_timer_run slot td s Hd)), Z.eqb_refl. cbn [negb].
    erewrite bind_ok by reflexivity. rewrite (proj2 (Z.eqb_neq _ _) Hres). exact E.
  - rewrite (sm_clocks _ _ Sm), Ec. lia.
  - apply upd_lookup.
Qed.

(** A timer that restarts with a count of 0 keeps [check_queue] going for ever. *)
Theorem timer_zero_spins n s x slot td :
  queue s [x] → in_time s → (slot < 32)%nat → ev_at x = now_clocks s → ev_func x = Timer_interrupt → ev_data x = slot → ev_code x = td_generation td →
  devices (devs s) !! slot = Some (Timer td) → td_restartflag td ≠ 0 → td_count_usecs td = 0 → check_queue n s = Spin.
Proof.
  revert s x td. induction n as [|n IH]; intros s x td Q Ht Hs Hx Hf Hdat Hgen Hd Hres Hc.
  - destruct (queue_head _ _ _ Q) as (i & a & Hq & Hh & Ha & Hev). cbn [check_queue]. erewrite bind_ok by reflexivity.
    rewrite Hq, (bind_ok _ _ _ _ _ (geta_run _ _ _ Ha)). erewrite bind_ok by reflexivity.
    assert (ta_clocksat a = now_clocks s) as -> by (unfold ev_of in Hev; destruct (ta_func a); [|done]; by injection Hev as <-).
    by rewrite Z.eqb_refl.
  - destruct (timer_zero_step n s x slot td) as (s' & x' & td' & -> & Q' & Ht' & ? & ? & ? & ? & ? & ? & ?); try done. by apply (IH s' x' td').
Qed.

(** ** A small machine *)
Definition disk1 : Lhd.disk_data := Lhd.mkdisk (replicate 32 (replicate 512 7)) 0 0 (replicate 512 0) [].
Definition machine_bus : bus :=
  mkbus 0 1048576
    (<[31%nat := Busctl]> (<[0%nat := Timer timer_init]> (<[1%nat := Serial (serial_init (replicate 512 0))]>
      {[2%nat := Disk (mkdd disk1 (replicate 32 1) 3600 16666666 0 0 0 (-1) false 0)]})))
    [] false false.

(** The variables of the program before [clock_init]. *)
Definition power_on : st :=
  mkclock 0 0 0 0 0 (replicate MAXACTIONS (mkta None 0 0 0 None)) None None 0 0 [] [] [(1000, 250)] [] machine_bus.

Definition after (o : outcome st) : st := match o with Ok s => s | _ => power_on end.
Definition booted : st := after (let* '(_, s) := clock_init fuel power_on in Ok s).

(** A read of sector 20 is started. *)
Definition start_read : list op := [Store (2 * 65536 + 8) 20; Store (2 * 65536 + 4) 1].
Definition reading : st := after (run start_read booted).

Lemma machine_inv : inv_with (fun _ _ _ => True) 0 machine_bus [].
Proof.
  split; [|done]. assert (∀ slot d, devices machine_bus !! slot = Some d → (slot < 32)%nat ∧ dev_ok 0 slot [] d) as Hall.
  { intros slot d. unfold machine_bus. cbn [devices]. rewrite !lookup_insert_Some, lookup_singleton_Some.
    intros [[<- <-]|[_ [[<- <-]|[_ [[<- <-]|[_ [<- <-]]]]]]]; (split; [lia|]).
    - done.
    - split; [cbn; lia|done].
    - split; [by constructor|]. split; [done|]. split; [done|]. by intros e He%not_elem_of_nil.
    - split; [|split; [done|]; split; [done|]; split; [done|]; by intros e He%not_elem_of_nil].
      constructor; try done; try lia. constructor; try done. apply list.Forall_forall. intros n [->]%elem_of_replicate. lia. }
  constructor; [intros; by eapply Hall|intros; by eapply Hall|done|]. vm_compute. lia.
Qed.

Lemma machine_good : bus_good booted [].
Proof.
  destruct (clock_init_run 2 accepts (inv_with (fun _ _ _ => True)) fuel power_on) as (s' & E & G & _).
  - apply length_replicate.
  - reflexivity.
  - reflexivity.
  - apply le_n.
  - apply machine_inv.
  - by repeat constructor.
  - constructor.
  - unfold booted, after. rewrite E. exact G.
Qed.

Lemma start_legal : legal start_read booted.
Proof. vm_compute. repeat split; try done; intros; lia. Qed.

Lemma reading_good : bus_good reading (events reading).
Proof. destruct (bus_program start_read booted [] machine_good start_legal) as (s' & E & G & _). unfold reading, after. by rewrite E. Qed.

Lemma reading_disk : ∃ dd, devices (devs reading) !! 2%nat = Some (Disk dd) ∧ in_progress dd = true ∧ dd_core dd = Lhd.set_stat (set_sect 20 disk1) 1.
Proof. eexists. split; [vm_compute; reflexivity|]. split; [by vm_compute|by vm_compute]. Qed.

Lemma reading_in_time : in_time reading.
Proof. vm_compute. repeat split; discriminate. Qed.

Lemma schedule_event_inserts_witness :
  events reading ≠ [] ∧ ∃ s' q1 q2 at_, schedule_event 1000 0%nat 0 Timer_interrupt reading = Ok (tt, s') ∧ events reading = q1 ++ q2 ∧
    queue s' (q1 ++ mkev at_ 0%nat 0 Timer_interrupt :: q2).
Proof.
  split; [by vm_compute|].
  destruct (schedule_event_inserts reading (events reading) 1000 0%nat 0 Timer_interrupt) as (s' & q1 & q2 & at_ & E & Eq & Q & _).
  - apply reading_good.
  - apply reading_good.
  - apply Nat.ltb_lt. by vm_compute.
  - apply reading_in_time.
  - done.
  - exists s', q1, q2, at_. exact (conj E (conj Eq Q)).
Defined.

(** A queue with every action in it. *)
Definition full : clock unit unit unit :=
  mkclock 0 0 0 0 0 ((fun i => mkta (seq 0 MAXACTIONS !! S i) 0 0%nat 0 (Some tt)) <$> seq 0 MAXACTIONS) None (seq 0 MAXACTIONS !! 0%nat) 0 0 [] [] [] [] tt.

Lemma full_action k : (k < MAXACTIONS)%nat → action_storage full !! k = Some (mkta (seq 0 MAXACTIONS !! S k) 0 0%nat 0 (Some tt)).
Proof. intros Hk. unfold full, action_storage. rewrite list_lookup_fmap, (proj2 (lookup_seq 0 MAXACTIONS k k)) by (split; [lia|exact Hk]). reflexivity. Qed.

Lemma full_queue : queue full (replicate MAXACTIONS (mkev 0 0%nat 0 tt)).
Proof.
  exists (seq 0 MAXACTIONS), []. constructor.
  - split; [reflexivity|]. intros k i Hk. apply lookup_seq in Hk as [-> Hk]. rewrite Nat.add_0_l, full_action by exact Hk. reflexivity.
  - apply chain_nil.
  - rewrite app_nil_r. apply NoDup_seq.
  - rewrite app_nil_r. apply length_seq.
  - apply Forall2_same_length_lookup_2; [rewrite length_seq, length_replicate; reflexivity|].
    intros k i e Hk He. apply lookup_seq in Hk as [-> Hk]. apply lookup_replicate in He as [-> _]. unfold holds. rewrite Nat.add_0_l, full_action by exact Hk. reflexivity.
Qed.

Lemma schedule_event_full_witness : schedule_event 1000 0%nat 0 tt full = Panic.
Proof. apply (schedule_event_full full _ 1000 0%nat 0 tt full_queue). apply length_replicate. Defined.

Lemma bus_programs_safe_witness :
  legal (start_read ++ [Tick; Fetch (2 * 65536 + 4); Tick]) booted ∧
  ∃ s', run (start_read ++ [Tick; Fetch (2 * 65536 + 4); Tick]) booted = Ok s' ∧ now_clocks s' = now_clocks booted + 2.
Proof.
  assert (legal (start_read ++ [Tick; Fetch (2 * 65536 + 4); Tick]) booted) as Hl by (vm_compute; repeat split; try done; intros; lia).
  split; [done|]. destruct (bus_programs_safe _ booted [] machine_good Hl) as (s' & E & _ & _ & Ec). exists s'. exact (conj E Ec).
Defined.

Lemma disk_completes_witness :
  ∃ p s' dd', disk_time < ticks p ∧ run p reading = Ok s' ∧ devices (devs s') !! 2%nat = Some (Disk dd') ∧
    dd_core dd' = Lhd.disk_work (Lhd.set_stat (set_sect 20 disk1) 1).
Proof.
  destruct reading_disk as (dd & Hd & Hp & Hc). assert (∃ n, Z.of_nat n = disk_time + 1) as [n Hn] by (exists (Z.to_nat (disk_time + 1)); by apply Z2Nat.id).
  destruct (disk_completes (replicate n Tick) reading (events reading) 2%nat dd) as (s' & dd' & E & Hd' & Hc' & _).
  - apply reading_good.
  - exact Hd.
  - exact Hp.
  - apply (legal_ticks n reading (events reading) reading_good). rewrite Hn. by vm_compute.
  - apply list.Forall_forall. by intros o [-> _]%elem_of_replicate.
  - rewrite ticks_replicate, Hn. lia.
  - exists (replicate n Tick), s', dd'. rewrite ticks_replicate, Hn, Hc', Hc. split; [lia|]. exact (conj E (conj Hd' eq_refl)).
Defined.

Lemma disk_wakes_witness : ∃ n, ∀ f, (n ≤ f)%nat → ∃ s', clock_waitirq fuel f reading = Ok (tt, s') ∧ interrupts (devs s') ≠ 0.
Proof.
  destruct reading_disk as (dd & Hd & Hp & _). destruct (disk_wakes reading (events reading) 2%nat dd) as [n Hn]; [apply reading_good|exact Hd|exact Hp|by vm_compute|].
  exists n. intros f Hf. destruct (Hn f Hf) as (s' & E & _ & Hi). exists s'. exact (conj E Hi).
Defined.

(** A key is being delivered. *)
Definition port : ser_data := mkser false true (mkirq false false) (mkirq false false) 0 (replicate 512 0) 0 0.
Definition typing : st := upd 1 (Serial port) booted.

Lemma serial_keys_in_order_witness :
  ∃ s', (let* _ := receive_all (pair 1%nat <$> [104; 105]) in deliver 2 1%nat) typing = Ok ([104; 105], s').
Proof.
  destruct (serial_keys_in_order 1%nat [104; 105] typing [] port) as (s' & E).
  - apply queue_devs, machine_good.
  - apply Nat.ltb_lt. by vm_compute.
  - vm_compute. repeat split; discriminate.
  - lia.
  - apply upd_lookup.
  - by constructor.
  - done.
  - apply Nat.leb_le. by vm_compute.
  - exists s'. exact E.
Defined.

(** The timer is set to 0, and then to restart. *)
Definition set_zero : list op := [Store TREG_TIME 0].
Definition spinning : st := upd 0 (Timer (mktimer 1 0 1)) (after (run set_zero booted)).

Lemma timer_zero_spins_witness : check_queue 1000 spinning = Spin.
Proof.
  assert (legal set_zero booted) as Hl by (vm_compute; repeat split; try done; intros; lia).
  destruct (bus_program set_zero booted [] machine_good Hl) as (s' & E & G & _).
  assert (bus_good (after (run set_zero booted)) (events (after (run set_zero booted)))) as G' by (rewrite E; exact G).
  assert (events (after (run set_zero booted)) = [mkev 0 0%nat 1 Timer_interrupt]) as Ee by (by vm_compute).
  apply (timer_zero_spins _ spinning (mkev 0 0%nat 1 Timer_interrupt) 0%nat (mktimer 1 0 1)).
  - apply queue_devs. rewrite <- Ee. apply G'.
  - vm_compute. repeat split; discriminate.
  - lia.
  - by vm_compute.
  - done.
  - done.
  - done.
  - apply upd_lookup.
  - done.
  - done.
Defined.

End Lamebusthm.
