(* ===== verification/Isolation.v ===== *)
(** * Isolation: the kernel's address spaces on the simulated processor

    dumbvm.c keeps its promise, that the memory of an address space is its own, through the TLB; mips.c keeps a program in user
    mode within what the TLB grants.  Here the two models meet: [implements] says that the TLB of the processor holds the words the kernel
    wrote, tlb_mips1.S run on the processor keeps it so, and a program in user mode, however long it runs, changes only memory of
    its own address space. *)
From stdpp Require Import base list gmap numbers relations.
From S2P Require Import Prelude Ram Dumbvm Dumbvmspec Mips Mipsinsn Mipssafe Mipsuser Clock Lamebus Lamebusrun Lamebusthm.
Local Open Scope Z_scope.

Module Isolation.
Import Ram Dumbvm Dumbvmspec Mips Mipsinsn Mipssafe Mipsuser.

(** The TLB entry the processor makes of the words EntryHi and EntryLo. *)
Definition entry (e : Z * Z) : mipstlb := tlbsetlo (tlbsethi (mkmt false false false false 0 0 0) e.1) e.2.

Section isolation.
Context {D : Type} `{Bus D}.
Implicit Types (s : machine D) (k : vmstate).

Record implements k s : Prop := {
  im_tlb : Mips.tlb (get_mmu s) = entry <$> Dumbvm.tlb k;
  im_pid : mt_pid (tlbentry (get_mmu s)) = 0
}.

(** ** What the TLB grants belongs to the address space *)
Lemma granted_own a k s w x :
  as_ok a → loaded a → tlb_ok a (Dumbvm.tlb k) → implements k s → granted s w x → own a x ∧ x < MAXRAM.
Proof.
  intros Ha Hl Ht [Em _] (m & Hm & _ & _ & Hv & _ & Hx). rewrite Em in Hm. apply list_elem_of_fmap in Hm as (e & -> & He).
  destruct (to_valid _ _ Ht e He Hv) as (pa & Htr & Hd & E2). destruct (translate_range a e.1 pa Ha Htr Hd) as [Hpd Hpr].
  destruct (entry_lo pa Hpd) as (El & Epg & _). rewrite El in E2.
  assert (mt_pfn (entry e) = pa) as Ef.
  { cbn. unfold TLB_PAGEFRAME. rewrite E2, land_frame; [exact Epg|]. unfold word, MAXRAM in *. lia. }
  rewrite Ef in Hx. assert (0 ≤ e.1) as He1.
  { pose proof (translate_range a e.1 pa Ha Htr Hd). destruct Ha as [[_ ? _ _] [_ ? _ _] _ _ _]. assert (0 < STACKBASE) by done.
    unfold translate, within in Htr. repeat case_decide; try done; lia. }
  destruct Hd as [j Hj]. assert ((e.1 + (x - pa)) `mod` 4096 = x - pa) as Hmod.
  { rewrite Hj, Z.add_comm, Z.mod_add by lia. apply Z.mod_small. lia. }
  assert (translate a (e.1 + (x - pa)) = Some x) as Hx'.
  { rewrite (translate_page a (e.1 + (x - pa)) Ha ltac:(lia)). unfold Dumbvmspec.page. rewrite Hmod.
    replace (e.1 + (x - pa) - (x - pa)) with e.1 by lia. rewrite Htr. cbn. f_equal. lia. }
  split; [by eapply translate_own|]. destruct Hpd as [i Hi]. assert (pa < 130048 * 4096) as Hlt by exact (proj2 Hpr).
  unfold MAXRAM. lia.
Qed.

Lemma may_write_own a k s x :
  as_ok a → loaded a → tlb_ok a (Dumbvm.tlb k) → implements k s → may_write s x → own a x.
Proof.
  intros Ha Hl Ht Him (pa & Hg & Er). destruct (granted_own a k s _ _ Ha Hl Ht Him Hg) as [Ho Hlt]. unfold ram_at in Er.
  assert ((pa <? 0x1fc00000) = true) as E by (apply Z.ltb_lt; exact Hlt). rewrite E in Er. by injection Er as <-.
Qed.

Lemma no_io a k s : as_ok a → loaded a → tlb_ok a (Dumbvm.tlb k) → implements k s → ¬ may_io s.
Proof. intros Ha Hl Ht Him (pa & Hg & Hpa). destruct (granted_own a k s _ _ Ha Hl Ht Him Hg) as [_ Hlt]. unfold MAXRAM in Hlt. lia. Qed.

Lemma confined_implements k s s' : confined s s' → implements k s → implements k s'.
Proof. intros [(v & n & E) _ _ _ _ _] [I1 I2]. by constructor; rewrite E. Qed.

(** ** A program runs *)

(** A cycle in user mode. *)
Definition ucycle s s' : Prop := IS_USERMODE s = true ∧ irq_pending s = false ∧ ∃ v, cpu_cycle s = Ok (v, s').

Lemma ucycle_confined B s s' :
  55 ≤ B < 2 ^ 31 - 1 → user B s → ucycle s s' → confined s s' ∧ (IS_USERMODE s' = true → user (B + 1) s').
Proof.
  intros HB Hus (Hu & Hirq & v & E). pose proof (cycle_confined B s ltac:(lia) Hus Hirq) as Hc.
  pose proof (cycle_runs B ltac:(lia) s (proj1 Hus)) as Hg. unfold safe in Hc, Hg. rewrite E in Hc, Hg. split; [done|]. intros Hu'.
  eapply confined_user; try done. destruct Hg as [Hg|(s2 & Hs2 & ->)]; [by eapply good_mono; [|exact Hg]; lia|by apply ended_good].
Qed.

(** What a run leaves: still in user mode, or just trapped into the kernel. *)
Record ran (a : addrspace) k B s s' : Prop := {
  rn_tlb : implements k s';
  rn_dev : devices s' = devices s;
  rn_ram x : ram s' !! x ≠ ram s !! x → own a x;
  rn_user : IS_USERMODE s' = true → get_status s' = get_status s ∧ get_exn s' = get_exn s ∧ user B s';
  rn_kernel : IS_USERMODE s' = false → get_status s' = roll (get_status s) ∧
    ∃ code cn, exn_args code cn 0 ∧ pc (get_pcs s') = vector (has (status_bits (get_status s)) 0x00400000) code cn
}.

Lemma run_confined a k n B s s' :
  as_ok a → loaded a → tlb_ok a (Dumbvm.tlb k) → implements k s → user B s → 55 ≤ B → B + Z.of_nat n < 2 ^ 31 - 1 →
  nsteps ucycle n s s' → ran a k (B + Z.of_nat n) s s'.
Proof.
  intros Ha Hl Ht Him Hus HB Hn Hs. revert B Him Hus HB Hn.
  induction Hs as [s|n s s1 s' Hc Hs IH]; intros B Him Hus HB Hn.
  - rewrite Z.add_0_r. constructor; try done; intros Hu. destruct Hus as (_ & Hu' & _). congruence.
  - destruct (ucycle_confined B s s1 ltac:(lia) Hus Hc) as [Hcf Hnext]. pose proof (confined_implements k _ _ Hcf Him) as Him1.
    assert (devices s1 = devices s) as Ed by (destruct (cf_dev _ _ Hcf) as [?|Hio]; [done|by destruct (no_io a k s Ha Hl Ht Him)]).
    assert (∀ x, ram s1 !! x ≠ ram s !! x → own a x) as Er.
    { intros x Hx. destruct (cf_ram _ _ Hcf x) as [?|Hw]; [done|]. by apply (may_write_own a k s). }
    destruct (IS_USERMODE s1) eqn:Hu1.
    + destruct (cf_mode _ _ Hcf) as [(Es & Ee & _)|(code & cn & va & _ & E & _)].
      2: { unfold IS_USERMODE in Hu1. by rewrite E in Hu1. }
      destruct (IH (B + 1) Him1 (Hnext eq_refl) ltac:(lia) ltac:(lia)) as [R1 R2 R3 R4 R5]. constructor; [done|congruence| | |].
      * intros x Hx. destruct (decide (ram s' !! x = ram s1 !! x)) as [E|E]; [apply Er; congruence|by apply R3].
      * intros Hu. destruct (R4 Hu) as (? & ? & Hus'). split_and!; [congruence..|]. by replace (B + Z.of_nat (S n)) with (B + 1 + Z.of_nat n) by lia.
      * intros Hu. by rewrite <- Es; apply R5.
    + destruct Hs as [s1|n s1 s2 s3 (Hu & _) _]; [|congruence]. constructor; try done; [congruence|]. intros _.
      destruct (cf_mode _ _ Hcf) as [(Es & _)|(code & cn & va & Hx & E & _ & Epc & _)].
      * unfold IS_USERMODE in Hu1. rewrite Es in Hu1. destruct Hus as (_ & Hu' & _). unfold IS_USERMODE in Hu'. congruence.
      * split; [done|]. exists code, cn. split; [|done]. by destruct Hx as (? & ? & _).
Qed.
(** ** Writing the TLB (tlb_mips1.S)

    The instructions of [TLB_Write] up to its return, with the arguments in registers 4, 5 and 6:
    [mtc0 a0, c0_entryhi], [mtc0 a1, c0_entrylo], [sll t0, a2, 8], [mtc0 t0, c0_index] and [tlbwi]. *)
Definition TLB_Write_code : list Z := [0x40845000; 0x40851000; 0x00064200; 0x40880000; 0x42000002].

Definition exec (insn : Z) : M (machine D) unit := dispatch (Z.shiftr (Z.land insn 0xfc000000) 26) insn.

Fixpoint exec_all (l : list Z) : M (machine D) unit :=
  match l with
  | [] => mret tt
  | insn :: l' => let* _ := exec insn in exec_all l'
  end.

(** The kernel runs in its direct-mapped segment. *)
Definition direct s (a : Z) : Prop := Z.shiftr a 30 = 2 ∧ Z.land a 3 = 0 ∧ is_Some (mapmem (bus_ramsize s) (Z.land a 0x1fffffff)).

Record in_kernel s : Prop := {
  ik_mode : IS_USERMODE s = false;
  ik_pc : direct s (pc (get_pcs s));
  ik_next : direct s (nextpc (get_pcs s))
}.

(** Kernel instructions of coprocessor 0. *)
Lemma copz_kernel insn m s :
  IS_USERMODE s = false → NEEDCN insn = 0 →
  (let copop := Z.shiftr (Z.land insn 0x03e00000) 21 in
   if negb (Z.land copop 0x10 =? 0) then
     switch (Z.land insn 0x01ffffff) [
       (1, mx_tlbr insn); (2, mx_tlbwi insn); (6, mx_tlbwr insn); (8, mx_tlbp insn); (16, mx_rfe insn); (32, mx_wait insn)] (mx_ill insn)
   else switch copop [(0, mx_mf insn); (2, mx_cf insn); (4, mx_mt insn); (6, mx_ct insn);
     (8, if negb (Z.land insn 0x00010000 =? 0) then mx_bcf insn else mx_bct insn);
     (12, if negb (Z.land insn 0x00010000 =? 0) then mx_bcf insn else mx_bct insn)] (mx_ill insn)) = m →
  mx_copz insn s = m s.
Proof. intros Hu Hcn <-. unfold mx_copz. rewrite Hcn. cbn [Z.eqb negb]. erewrite bind_ok by reflexivity. by rewrite Hu. Qed.

Lemma domt_kernel rg v s m :
  IS_USERMODE s = false →
  switch rg [
    (0, modify (fun s => set_mmu (setindex (u32 v) (get_mmu s)) s)); (1, mret tt);
    (2, modify (fun s => let m := get_mmu s in set_mmu (set_tlbentry (tlbsetlo (tlbentry m) (u32 v)) m) s));
    (4, modify (fun s => set_exn (set_context (u32 v) (get_exn s)) s)); (8, modify (fun s => set_exn (set_vaddr (u32 v) (get_exn s)) s));
    (10, modify (fun s => let m := get_mmu s in set_mmu (set_tlbentry (tlbsethi (tlbentry m) (u32 v)) m) s));
    (12, modify (set_status (setstatus (u32 v)))); (13, modify (fun s => set_exn (setcause (u32 v) (get_exn s)) s));
    (14, mret tt); (15, mret tt)] (exception EX_RI 0 0) = m →
  domt 0 rg v s = m s.
Proof. intros Hu <-. unfold domt. erewrite bind_ok by reflexivity. by rewrite Hu. Qed.

Lemma exec_hi s : IS_USERMODE s = false →
  exec 0x40845000 s = Ok (tt, set_mmu (set_tlbentry (tlbsethi (tlbentry (get_mmu s)) (u32 (reg 4 s))) (get_mmu s)) s).
Proof.
  intros Hu. change (exec 0x40845000) with (mx_copz 0x40845000 : M (machine D) unit). rewrite (copz_kernel _ (mx_mt 0x40845000)) by done.
  unfold mx_mt. erewrite bind_ok by reflexivity. change (NEEDCN _) with 0. erewrite domt_kernel; [|done|reflexivity]. reflexivity.
Qed.

Lemma exec_lo s : IS_USERMODE s = false →
  exec 0x40851000 s = Ok (tt, set_mmu (set_tlbentry (tlbsetlo (tlbentry (get_mmu s)) (u32 (reg 5 s))) (get_mmu s)) s).
Proof.
  intros Hu. change (exec 0x40851000) with (mx_copz 0x40851000 : M (machine D) unit). rewrite (copz_kernel _ (mx_mt 0x40851000)) by done.
  unfold mx_mt. erewrite bind_ok by reflexivity. change (NEEDCN _) with 0. erewrite domt_kernel; [|done|reflexivity]. reflexivity.
Qed.

Lemma exec_index s : IS_USERMODE s = false → exec 0x40880000 s = Ok (tt, set_mmu (setindex (u32 (reg 8 s)) (get_mmu s)) s).
Proof.
  intros Hu. change (exec 0x40880000) with (mx_copz 0x40880000 : M (machine D) unit). rewrite (copz_kernel _ (mx_mt 0x40880000)) by done.
  unfold mx_mt. erewrite bind_ok by reflexivity. change (NEEDCN _) with 0. erewrite domt_kernel; [|done|reflexivity]. reflexivity.
Qed.

Lemma exec_tlbwi s : IS_USERMODE s = false → exec 0x42000002 s = writetlb (tlbindex (get_mmu s)) s.
Proof.
  intros Hu. change (exec 0x42000002) with (mx_copz 0x42000002 : M (machine D) unit). by rewrite (copz_kernel _ (mx_tlbwi 0x42000002)).
Qed.

Lemma dups_none i l newix new s :
  (∀ j m, l !! j = Some m → (i + j)%nat ≠ newix → tlb_dup new m = false) → dups_loop i l newix new s = Ok (tt, s).
Proof.
  revert i. induction l as [|m l IH]; intros i Hd; [done|]. cbn [dups_loop]. erewrite bind_ok.
  - apply IH. intros j m' Hj Hne. apply (Hd (S j) m' Hj). lia.
  - destruct (Nat.eqb_spec i newix) as [->|Hne]; [reflexivity|]. cbn [negb andb].
    rewrite (Hd O m eq_refl) by lia. reflexivity.
Qed.

(** Entry [ix] of the TLB takes the value of the entry register when no other entry has its page. *)
Lemma writetlb_run ix s :
  in_kernel s → 0 ≤ ix < 64 → length (Mips.tlb (get_mmu s)) = NTLB →
  (∀ j m, Mips.tlb (get_mmu s) !! j = Some m → j ≠ Z.to_nat ix → tlb_dup (tlbentry (get_mmu s)) m = false) →
  ∃ P, pc P = pc (get_pcs s) ∧ nextpc P = nextpc (get_pcs s) ∧
    writetlb ix s = Ok (tt, set_pcs P (set_mmu (let m := get_mmu s in mkmmu (<[Z.to_nat ix := tlbentry m]> (Mips.tlb m)) (tlbentry m) (tlbindex m) (tlbpf m) (tlbrandom m)) s)).
Proof.
  intros [Hu (P1 & P2 & [pg1 P3]) (N1 & N2 & [pg2 N3])] Hix Hl Hd. unfold writetlb. erewrite bind_ok by reflexivity.
  destruct (Z.ltb_spec ix 0); [lia|]. destruct (Z.geb_spec ix (Z.of_nat NTLB)) as [Hge|_]; [unfold NTLB in Hge; lia|]. cbn [orb].
  erewrite bind_ok by reflexivity. set (s1 := set_mmu _ s).
  assert (Z.to_nat ix < length (Mips.tlb (get_mmu s)))%nat as Hlt by (rewrite Hl; unfold NTLB; lia).
  erewrite bind_ok.
  2: { unfold check_tlb_dups. erewrite bind_ok by reflexivity. unfold s1. cbn. rewrite list_lookup_insert_eq by exact Hlt. apply dups_none.
    intros j m Hj Hne. rewrite list_lookup_insert_ne in Hj by lia. by apply (Hd j m). }
  erewrite bind_ok; [|eapply (precompute_pc_ok exception); [by apply translate_kseg|exact P3]]. set (s2 := set_pcs _ _).
  erewrite bind_ok; [|eapply (precompute_nextpc_ok exception); [by apply translate_kseg|exact N3]]. eexists. split_and!; [| |reflexivity]; done.
Qed.

Lemma u32_i32 a : word a → u32 (i32 a) = a.
Proof.
  intros Ha. unfold word, u32, i32 in *. rewrite Zminus_mod_idemp_l. replace (a + 2 ^ 31 - 2 ^ 31) with a by lia. apply Z.mod_small. lia.
Qed.

Lemma exec_sll s : exec 0x00064200 s = Ok (tt, put_reg 8 (u32 (Z.shiftl (u32 (reg 6 s)) 8)) s).
Proof. reflexivity. Qed.

Lemma reg_put i v s : 0 ≤ i < 32 → length (r (get_regs s)) = NREGS → reg i (put_reg i v s) = i32 v.
Proof. intros Hi Hl. unfold reg, put_reg. cbn. rewrite list_lookup_insert_eq; [done|]. rewrite Hl. unfold NREGS. lia. Qed.

(** The index as the fourth instruction stores it. *)
Lemma index_roundtrip i : 0 ≤ i < 64 → Z.land (Z.shiftr (u32 (i32 (u32 (Z.shiftl (u32 i) 8)))) 8) 63 = i.
Proof.
  intros Hi. rewrite (u32_small i) by lia. rewrite u32_i32 by apply word_u32. rewrite Z.shiftl_mul_pow2, Z.shiftr_div_pow2 by lia.
  rewrite u32_small by lia. rewrite Z.div_mul by lia. change 63 with (Z.ones 6). rewrite Z.land_ones by lia. apply Z.mod_small. lia.
Qed.

Lemma tlb_set_entry e hi lo : tlbsetlo (tlbsethi e hi) lo = entry (hi, lo).
Proof. done. Qed.

(** ** Theorems *)

(** C12: The code of [TLB_Write], run on the processor, does what the model of the kernel takes it to do: slot [i] holds the new entry, and
    neither memory nor devices change.  The processor does not stop, because no other slot has the page. *)
Theorem TLB_Write_implements k s ehi elo i :
  implements k s → in_kernel s → length (Dumbvm.tlb k) = NUM_TLB → (i < NUM_TLB)%nat → length (r (get_regs s)) = NREGS →
  word ehi → word elo → Z.land ehi TLBHI_PID = 0 → reg 4 s = i32 ehi → reg 5 s = i32 elo → reg 6 s = Z.of_nat i →
  (∀ j e, Dumbvm.tlb k !! j = Some e → j ≠ i → Z.land e.1 TLB_PAGEFRAME ≠ Z.land ehi TLB_PAGEFRAME) →
  ∃ s' k', exec_all TLB_Write_code s = Ok (tt, s') ∧ TLB_Write ehi elo i k = Ok (tt, k') ∧ implements k' s' ∧ in_kernel s' ∧
    ram s' = ram s ∧ devices s' = devices s ∧ stop_flag s' = stop_flag s.
Proof.
  intros [Et Ep] [Hu Hpc Hnx] Hl Hi Hr Hhi Hlo Hpid E4 E5 E6 Hd. unfold exec_all, TLB_Write_code.
  erewrite bind_ok by (by apply exec_hi). rewrite E4, u32_i32 by done. set (s1 := set_mmu _ s).
  erewrite bind_ok by (by apply exec_lo). change (reg 5 s1) with (reg 5 s). rewrite E5, u32_i32 by done. set (s2 := set_mmu _ s1).
  erewrite bind_ok by apply exec_sll. change (reg 6 s2) with (reg 6 s). rewrite E6. set (s3 := put_reg _ _ s2).
  erewrite bind_ok by (by apply exec_index). assert (reg 8 s3 = i32 (u32 (Z.shiftl (u32 (Z.of_nat i)) 8))) as -> by (apply reg_put; [lia|exact Hr]). set (s4 := set_mmu _ s3).
  assert (tlbindex (get_mmu s4) = Z.of_nat i) as Ei by (apply index_roundtrip; unfold NUM_TLB in Hi; lia).
  assert (Mips.tlb (get_mmu s4) = entry <$> Dumbvm.tlb k) as Et4 by exact Et.
  assert (tlbentry (get_mmu s4) = entry (ehi, elo)) as Ee by reflexivity.
  destruct (writetlb_run (Z.of_nat i) s4) as (P & P1 & P2 & E).
  - by constructor.
  - unfold NUM_TLB in Hi. lia.
  - by rewrite Et4, length_fmap.
  - rewrite Et4, Ee, Nat2Z.id. intros j m Hj Hne. rewrite list_lookup_fmap in Hj. destruct (Dumbvm.tlb k !! j) as [e|] eqn:Ej; [|done].
    injection Hj as <-. unfold tlb_dup. cbn. destruct (Z.eqb_spec (Z.land ehi TLB_PAGEFRAME) (Z.land e.1 TLB_PAGEFRAME)) as [Heq|]; [|done].
    by destruct (Hd j e Ej Hne).
  - erewrite bind_ok by (rewrite exec_tlbwi by exact Hu; rewrite Ei; exact E). eexists _, _. split; [reflexivity|]. split; [reflexivity|].
    rewrite Nat2Z.id. split_and!; try done.
    + constructor; cbn -[get_mmu Z.land]; [|exact Hpid]. change (<[i := entry (ehi, elo)]> (Mips.tlb (get_mmu s4)) = entry <$> <[i := (ehi, elo)]> (Dumbvm.tlb k)).
      by rewrite Et4, list_fmap_insert.
    + constructor; [exact Hu|change (direct s (pc P)); by rewrite P1|change (direct s (nextpc P)); by rewrite P2].
Qed.

End isolation.

(** ** A program of two instructions in the address space of a running kernel: [lui $9, 64; sw $9, 256($9)] *)
Definition demo_code : gmap Z Z := put_word 8192 0x3c090040 (put_word 8196 0xad290100 ∅).

Definition demo_tlb : list (Z * Z) := (4194304, 9728) :: tail flushed.

(** The machine has the bus of the simulator, with a timer, a serial port and a disk; the arguments bound the loops of the clock. *)
#[local] Instance lamebus : Bus Lamebus.st := {
  bus_io_fetch := Lamebus.bus_io_fetch;
  bus_io_store := Lamebus.bus_io_store;
  bus_interrupts d := Lamebus.interrupts (Clock.devs d);
  clock_waitirq := @Clock.clock_waitirq _ _ _ Lamebus.lamebus_devices Lamebusrun.fuel 1000
}.

Definition demo_machine : machine Lamebus.st :=
  set_status (mkstatus false false false false true false false 0 0)
    (set_pcs (mkpcs false false 0x400000 0x400000 0x400004 0 4 (Some (RamPage 8192)) (Some (RamPage 8192)))
      (set_mmu (mkmmu (entry <$> demo_tlb) (entry (0, 0)) 0 false 55)
        (mkmach mycpu0 demo_code 1048576 Lamebusthm.booted (mkstats 0 0 0 0) false false))).

Lemma entry_ok e : word e.1 → word e.2 → mt_ok (entry e).
Proof.
  intros H1 H2. unfold mt_ok. cbn. unfold TLB_PAGEFRAME. rewrite !land_frame by done. pose proof (Z.mod_pos_bound e.1 4096 ltac:(lia)).
  pose proof (Z.mod_pos_bound e.2 4096 ltac:(lia)). pose proof (Z.div_mod e.1 4096 ltac:(lia)). pose proof (Z.div_mod e.2 4096 ltac:(lia)).
  pose proof (Z.mod_le e.1 4096 (proj1 H1) ltac:(lia)). pose proof (Z.mod_le e.2 4096 (proj1 H2) ltac:(lia)).
  unfold word in *. split_and!; try lia.
  - replace (e.2 - e.2 `mod` 4096) with (e.2 `div` 4096 * 4096) by lia. apply Z.mod_mul. lia.
  - replace (e.1 - e.1 `mod` 4096) with (e.1 `div` 4096 * 4096) by lia. apply Z.mod_mul. lia.
  - apply (word_land e.1 TLBHI_PID H1).
  - apply (word_land e.1 TLBHI_PID H1).
Qed.

Lemma demo_user : user 55 demo_machine.
Proof.
  assert (core 55 demo_machine) as Hc.
  { constructor; try done.
    - split_and!; try done. apply list.Forall_forall. intros x Hx%elem_of_replicate_inv. subst x. done.
    - split_and!; try done. apply Forall_fmap. unfold demo_tlb, flushed, compose. repeat (constructor; [apply entry_ok; vm_compute; done|]). constructor.
    - by repeat apply ram_ok_put; intros a b; rewrite lookup_empty. }
  assert (cached demo_machine 0x400000 0 (Some (RamPage 8192)) ∧ cached demo_machine 0x400004 4 (Some (RamPage 8192))) as [Ca Cb].
  { split; [exists 8192|exists 8196]; (split_and!; [vm_compute; reflexivity|reflexivity|by eexists|reflexivity]). }
  split_and!; [|done|by constructor; [|left|]]. split; [|done]. split_and!; [done|done|by left].
Qed.

Definition next_cycle (s : machine Lamebus.st) : machine Lamebus.st := match cpu_cycle s with Ok (_, s') => s' | _ => s end.

Lemma ucycle_next s : IS_USERMODE s && negb (irq_pending s) && is_ok (cpu_cycle s) = true → ucycle s (next_cycle s).
Proof.
  intros [[Hu Hi%negb_true_iff]%andb_prop Ho]%andb_prop. split_and!; [done..|]. unfold next_cycle.
  destruct (cpu_cycle s) as [[v s']| | |]; [by exists v|done..].
Qed.

Definition demo_end : machine Lamebus.st := next_cycle (next_cycle demo_machine).

Lemma demo_runs : nsteps ucycle 2 demo_machine demo_end.
Proof.
  unfold demo_end. eapply nsteps_l; [apply ucycle_next; vm_compute; reflexivity|]. eapply nsteps_l; [apply ucycle_next; vm_compute; reflexivity|]. apply nsteps_O.
Qed.

Lemma demo_implements : implements demo4 demo_machine.
Proof. constructor; [|reflexivity]. assert (Dumbvm.tlb demo4 = demo_tlb) as -> by (vm_compute; reflexivity). reflexivity. Qed.

(** The kernel's handler writes the first entry of the flushed TLB. *)
Definition demo_kernel : machine unit :=
  set_regs (mkregs (<[5%nat := 9728]> (<[4%nat := 0x400000]> (replicate NREGS 0))) 0 0 0 0)
    (set_pcs (mkpcs false false 0x80001000 0x80001000 0x80001004 0 4 (Some (RamPage 0x1000)) (Some (RamPage 0x1000)))
      (set_mmu (mkmmu (entry <$> flushed) (entry (0, 0)) 0 false 55)
        (mkmach mycpu0 ∅ 1048576 tt (mkstats 0 0 0 0) false false))).

Lemma flushed_other : Forall (fun e => Z.land e.1 TLB_PAGEFRAME ≠ Z.land 0x400000 TLB_PAGEFRAME) flushed.
Proof. unfold flushed. repeat (constructor; [vm_compute; discriminate|]). constructor. Qed.

Lemma TLB_Write_implements_witness :
  ∃ s' k', exec_all TLB_Write_code demo_kernel = Ok (tt, s') ∧ TLB_Write 0x400000 9728 0 demo0 = Ok (tt, k') ∧ implements k' s' ∧ in_kernel s' ∧
    ram s' = ram demo_kernel ∧ devices s' = devices demo_kernel ∧ stop_flag s' = stop_flag demo_kernel.
Proof.
  apply (TLB_Write_implements demo0 demo_kernel 0x400000 9728 0); try reflexivity.
  - constructor; reflexivity.
  - constructor; [reflexivity|..]; (split_and!; [reflexivity..|]); by eexists.
  - unfold NUM_TLB. lia.
  - done.
  - done.
  - intros j e Hj _. exact (Forall_lookup_1 _ _ _ _ flushed_other Hj).
Defined.
End Isolation.
