(* ===== verification/Drivers.v ===== *)
(** * The kernel's drivers for the bus, the serial port, the timer and the console
    (dev/lamebus/lamebus.c, lser.c, ltimer.c, lrandom.c, lser_att.c, ltimer_att.c, con_lser.c, rtclock_ltimer.c, dev/generic/console.c,
    rtclock.c, arch/mips/mips/lamebus_mips.c, interrupt.c)

    The drivers run on the bus of Lamebus.v: a register is read with [bus_io_fetch] and written with [bus_io_store] of the simulator.
    Before each access the processor takes at least one cycle, and as many more as the script [pace] says; with [true] the
    simulator looks for typed keys after the cycle, as its main loop does now and then.  An error on the bus is a trap in the kernel, which panics.

    A softc is found by its address in a map; [kmalloc] follows the script [mem].  [ls_start] and [ls_input] are set
    together by attach_con_to_lser, to [con_start] and [con_input], and so are [cs_send] and [cs_sendpolled].  Of the threads of
    Thread.v there is one here: [hardclock] is counted, and a thread that sleeps in [P] idles the processor until an interrupt
    has come and its handler has run.  Messages of the drivers themselves are left out. *)
From stdpp Require Import base list gmap numbers.
From S2P Require Import Prelude Copyinout Uio Lhd Clock Lamebus.
Local Open Scope Z_scope.

Module Drivers.
Import Clock Lamebus.

(** For [check_queue]. *)
Definition qfuel : nat := (MAXACTIONS * 3)%nat.

Record lser_softc := mklser { ls_wbusy : bool; ls_buspos : Z; ls_devdata : option nat }.
Record ltimer_softc := mklt { lt_hardclock : bool; lt_buspos : Z }.
Record con_softc := mkcon { cs_devdata : nat; cs_rsem : Z; cs_wsem : Z; cs_gotchar : Z }.

Inductive irqfunc := lser_irq_func | ltimer_irq_func.

Record lamebus_softc := mklb { ls_slotsinuse : Z; ls_devdatas : gmap nat nat; ls_irqfuncs : gmap nat irqfunc }.

Record kern := mkkern {
  hw : st;
  pace : list (list bool);
  lamebus : lamebus_softc;
  duds : Z;
  lsers : gmap nat lser_softc;
  ltimers : gmap nat ltimer_softc;
  cons : gmap nat con_softc;
  haveclock : bool;
  the_clock : option nat;
  the_console : option nat;
  delayed_outbuf : list Z;
  curspl : Z;
  in_interrupt : bool;
  hardclocks : nat;
  mem : list bool;
  brk : nat
}.

Abbreviation D := (M kern).

Definition set_hw (h : st) (p : list (list bool)) (s : kern) : kern :=
  mkkern h p (lamebus s) (duds s) (lsers s) (ltimers s) (cons s) (haveclock s) (the_clock s) (the_console s) (delayed_outbuf s) (curspl s)
    (in_interrupt s) (hardclocks s) (mem s) (brk s).
Definition set_lamebus (l : lamebus_softc) (d : Z) (s : kern) : kern :=
  mkkern (hw s) (pace s) l d (lsers s) (ltimers s) (cons s) (haveclock s) (the_clock s) (the_console s) (delayed_outbuf s) (curspl s)
    (in_interrupt s) (hardclocks s) (mem s) (brk s).
Definition set_softcs (a : gmap nat lser_softc) (b : gmap nat ltimer_softc) (c : gmap nat con_softc) (s : kern) : kern :=
  mkkern (hw s) (pace s) (lamebus s) (duds s) a b c (haveclock s) (the_clock s) (the_console s) (delayed_outbuf s) (curspl s)
    (in_interrupt s) (hardclocks s) (mem s) (brk s).
Definition set_globals (h : bool) (c k : option nat) (o : list Z) (s : kern) : kern :=
  mkkern (hw s) (pace s) (lamebus s) (duds s) (lsers s) (ltimers s) (cons s) h c k o (curspl s)
    (in_interrupt s) (hardclocks s) (mem s) (brk s).
Definition set_spl (l : Z) (i : bool) (s : kern) : kern :=
  mkkern (hw s) (pace s) (lamebus s) (duds s) (lsers s) (ltimers s) (cons s) (haveclock s) (the_clock s) (the_console s) (delayed_outbuf s) l
    i (hardclocks s) (mem s) (brk s).
Definition set_hardclocks (n : nat) (s : kern) : kern :=
  mkkern (hw s) (pace s) (lamebus s) (duds s) (lsers s) (ltimers s) (cons s) (haveclock s) (the_clock s) (the_console s) (delayed_outbuf s) (curspl s)
    (in_interrupt s) n (mem s) (brk s).
Definition set_mem (m : list bool) (b : nat) (s : kern) : kern :=
  mkkern (hw s) (pace s) (lamebus s) (duds s) (lsers s) (ltimers s) (cons s) (haveclock s) (the_clock s) (the_console s) (delayed_outbuf s) (curspl s)
    (in_interrupt s) (hardclocks s) m b.

(** ** The processor *)
Definition on_hw {A} (m : B A) : D A := fun s =>
  match m (hw s) with
  | Ok (a, h) => Ok (a, set_hw h (pace s) s)
  | Panic => Panic
  | Undef => Undef
  | Spin => Spin
  end.

(** [onecycle], and the poll of the main loop when it is due. *)
Definition cycle (poll : bool) : B unit :=
  let* _ := clock_tick qfuel in
  if poll then tryselect true 0 0 else mret tt.

Fixpoint run_cycles (l : list bool) : B unit :=
  match l with
  | [] => mret tt
  | b :: l' =>
      let* _ := cycle b in
      run_cycles l'
  end.

Definition elapse : D unit := fun s =>
  on_hw (run_cycles (false :: default [] (head (pace s)))) (set_hw (hw s) (tail (pace s)) s).

Definition SPL_HIGH : Z := 15.
Definition splx (l : Z) : D Z := fun s => Ok (curspl s, set_spl l (in_interrupt s) s).
Definition splhigh : D Z := splx SPL_HIGH.

Definition kmalloc : D (option nat) := fun s =>
  match mem s with
  | false :: m => Ok (None, set_mem m (brk s) s)
  | m => Ok (Some (brk s), set_mem (tail m) (S (brk s)) s)
  end.

(** ** Registers (lamebus_mips.c, lamebus.c) *)
Definition LB_NSLOTS : Z := 32.
Definition LB_CONTROLLER_SLOT : Z := 31.
Definition LB_CONFIG_SIZE : Z := 1024.
Definition LB_SLOT_SIZE : Z := 65536.
Definition CFGREG_VID : Z := 0.
Definition CFGREG_DID : Z := 4.
Definition CFGREG_DRL : Z := 8.
Definition CTLREG_RAMSZ : Z := 512.
Definition CTLREG_IRQS : Z := 516.
Definition CTLREG_PWR : Z := 520.

(** The offset from the start of the bus. *)
Definition lamebus_map_area (slot offset : Z) : D Z :=
  let* _ := massert ((0 <=? slot) && (slot <? LB_NSLOTS)) in
  mret (slot * LB_SLOT_SIZE + offset).

Definition lamebus_read_register (slot offset : Z) : D Z :=
  let* ptr := lamebus_map_area slot offset in
  let* _ := elapse in
  let* r := on_hw (bus_io_fetch ptr) in
  match r with
  | Some v => mret v
  | None => panic
  end.

Definition lamebus_write_register (slot offset val : Z) : D unit :=
  let* ptr := lamebus_map_area slot offset in
  let* _ := elapse in
  let* ok := on_hw (bus_io_store ptr (u32 val)) in
  if (ok : bool) then mret tt else panic.

Definition read_cfg_register (slot offset : Z) : D Z := lamebus_read_register LB_CONTROLLER_SLOT (u32 (offset + LB_CONFIG_SIZE * slot)).
Definition write_cfg_register (slot offset val : Z) : D unit := lamebus_write_register LB_CONTROLLER_SLOT (u32 (offset + LB_CONFIG_SIZE * slot)) val.
Definition read_ctl_register (offset : Z) : D Z := read_cfg_register LB_CONTROLLER_SLOT offset.
Definition write_ctl_register (offset val : Z) : D unit := write_cfg_register LB_CONTROLLER_SLOT offset val.

(** ** The bus (lamebus.c) *)
Definition slot_mask (slot : nat) : Z := u32 (Z.shiftl 1 (Z.of_nat slot)).

(** With [n] slots to go; [None] is -1. *)
Fixpoint probe_loop (n slot : nat) (vendorid deviceid lowver highver : Z) : D (option nat) :=
  match n with
  | O => mret None
  | S n' =>
      let next := probe_loop n' (S slot) vendorid deviceid lowver highver in
      let* l := gets lamebus in
      if negb (Z.land (ls_slotsinuse l) (slot_mask slot) =? 0) then next
      else
        let* val := read_cfg_register (Z.of_nat slot) CFGREG_VID in
        if negb (val =? vendorid) then next
        else
          let* val := read_cfg_register (Z.of_nat slot) CFGREG_DID in
          if negb (val =? deviceid) then next
          else
            let* val := read_cfg_register (Z.of_nat slot) CFGREG_DRL in
            if (val <? lowver) || (highver <? val) then next
            else mret (Some slot)
  end.

Definition lamebus_probe (vendorid deviceid lowver highver : Z) : D (option nat) :=
  let* spl := splhigh in
  let* r := probe_loop (Z.to_nat LB_NSLOTS) 0 vendorid deviceid lowver highver in
  let* _ := splx spl in
  mret r.

Definition valid_slot (slot : nat) : bool := Z.of_nat slot <? LB_NSLOTS.
Definition slot_used (slot : nat) (l : lamebus_softc) : bool := negb (Z.land (ls_slotsinuse l) (slot_mask slot) =? 0).

Definition lamebus_mark (slot : nat) : D unit :=
  let* _ := massert (valid_slot slot) in
  let* spl := splhigh in
  let* l := gets lamebus in
  if slot_used slot l then panic
  else
    let* _ := modify (fun s => set_lamebus (mklb (Z.lor (ls_slotsinuse l) (slot_mask slot)) (ls_devdatas l) (ls_irqfuncs l)) (duds s) s) in
    let* _ := splx spl in
    mret tt.

Definition lamebus_unmark (slot : nat) : D unit :=
  let* _ := massert (valid_slot slot) in
  let* spl := splhigh in
  let* l := gets lamebus in
  if negb (slot_used slot l) then panic
  else
    let* _ := modify (fun s => set_lamebus (mklb (Z.land (ls_slotsinuse l) (Z.lnot (slot_mask slot))) (ls_devdatas l) (ls_irqfuncs l)) (duds s) s) in
    let* _ := splx spl in
    mret tt.

Definition lamebus_attach_interrupt (slot devdata : nat) (f : irqfunc) : D unit :=
  let* _ := massert (valid_slot slot) in
  let* spl := splhigh in
  let* l := gets lamebus in
  if negb (slot_used slot l) then panic
  else
    let* _ := massert (bool_decide (ls_devdatas l !! slot = None)) in
    let* _ := massert (match ls_irqfuncs l !! slot with None => true | Some _ => false end) in
    let* _ := modify (fun s => set_lamebus (mklb (ls_slotsinuse l) (<[slot := devdata]> (ls_devdatas l)) (<[slot := f]> (ls_irqfuncs l))) (duds s) s) in
    let* _ := splx spl in
    mret tt.

Definition lamebus_detach_interrupt (slot : nat) : D unit :=
  let* _ := massert (valid_slot slot) in
  let* spl := splhigh in
  let* l := gets lamebus in
  if negb (slot_used slot l) then panic
  else
    let* _ := massert (match ls_irqfuncs l !! slot with None => false | Some _ => true end) in
    let* _ := modify (fun s => set_lamebus (mklb (ls_slotsinuse l) (delete slot (ls_devdatas l)) (delete slot (ls_irqfuncs l))) (duds s) s) in
    let* _ := splx spl in
    mret tt.

Definition lamebus_ramsize : D Z := read_ctl_register CTLREG_RAMSZ.

Definition lamebus_init : lamebus_softc := mklb (slot_mask 31) ∅ ∅.

(** ** The console (console.c): semaphores, and what the device below calls *)
Definition get_con (c : nat) : D con_softc := fun s =>
  match cons s !! c with Some x => Ok (x, s) | None => Undef end.
Definition put_con (c : nat) (x : con_softc) : D unit :=
  modify (fun s => set_softcs (lsers s) (ltimers s) (<[c := x]> (cons s)) s).

(** [V], with no thread asleep but the one that looks at the count again. *)
Definition V (count : Z) : D Z :=
  let* spl := splhigh in
  let count := i32 (count + 1) in
  let* _ := massert (0 <? count) in
  let* _ := splx spl in
  mret count.

Definition con_input (c : nat) (ch : Z) : D unit :=
  let* x := get_con c in
  let* _ := put_con c (mkcon (cs_devdata x) (cs_rsem x) (cs_wsem x) (i32 ch)) in
  let* n := V (cs_rsem x) in
  put_con c (mkcon (cs_devdata x) n (cs_wsem x) (i32 ch)).

Definition con_start (c : nat) : D unit :=
  let* x := get_con c in
  let* n := V (cs_wsem x) in
  put_con c (mkcon (cs_devdata x) (cs_rsem x) n (cs_gotchar x)).

(** ** The serial port (lser.c) *)
Definition LSER_REG_CHAR : Z := 0.
Definition LSER_REG_WIRQ : Z := 4.
Definition LSER_REG_RIRQ : Z := 8.
Definition LSER_IRQ_ENABLE : Z := 1.
Definition LSER_IRQ_ACTIVE : Z := 2.

Definition get_lser (p : nat) : D lser_softc := fun s =>
  match lsers s !! p with Some x => Ok (x, s) | None => Undef end.
Definition put_lser (p : nat) (x : lser_softc) : D unit :=
  modify (fun s => set_softcs (<[p := x]> (lsers s)) (ltimers s) (cons s) s).
Definition set_wbusy (b : bool) (x : lser_softc) : lser_softc := mklser b (ls_buspos x) (ls_devdata x).

Definition assert_spl : D unit :=
  let* l := gets curspl in
  massert (0 <? l).

Definition active (x : Z) : bool := negb (Z.land x LSER_IRQ_ACTIVE =? 0).

Definition lser_irq (p : nat) : D unit :=
  let* _ := assert_spl in
  let* sc := get_lser p in
  let* x := lamebus_read_register (ls_buspos sc) LSER_REG_WIRQ in
  let clear_to_write := active x in
  let* _ := (if clear_to_write then
               let* _ := put_lser p (set_wbusy false sc) in
               lamebus_write_register (ls_buspos sc) LSER_REG_WIRQ LSER_IRQ_ENABLE
             else mret tt) in
  let* x := lamebus_read_register (ls_buspos sc) LSER_REG_RIRQ in
  let got_a_read := active x in
  let* ch := (if got_a_read then
                let* ch := lamebus_read_register (ls_buspos sc) LSER_REG_CHAR in
                let* _ := lamebus_write_register (ls_buspos sc) LSER_REG_RIRQ LSER_IRQ_ENABLE in
                mret ch
              else mret 0) in
  let* _ := (match ls_devdata sc with
             | Some c => if clear_to_write then con_start c else mret tt
             | None => mret tt
             end) in
  match ls_devdata sc with
  | Some c => if got_a_read then con_input c ch else mret tt
  | None => mret tt
  end.

Definition lser_write (p : nat) (ch : Z) : D unit :=
  let* spl := splhigh in
  let* ls := get_lser p in
  if ls_wbusy ls then panic
  else
    let* _ := put_lser p (set_wbusy true ls) in
    let* _ := lamebus_write_register (ls_buspos ls) LSER_REG_CHAR ch in
    let* _ := splx spl in
    mret tt.

Fixpoint spin_loop (fuel : nat) (pos : Z) : D unit :=
  let* val := lamebus_read_register pos LSER_REG_WIRQ in
  if negb (active val) then
    match fuel with
    | O => lift Spin
    | S fuel' => spin_loop fuel' pos
    end
  else mret tt.

Definition lser_spin_until_write (fuel : nat) (sc : lser_softc) : D unit :=
  let* _ := assert_spl in
  spin_loop fuel (ls_buspos sc).

Definition lser_writepolled (fuel p : nat) (ch : Z) : D unit :=
  let* spl := splhigh in
  let* sc := get_lser p in
  let irqpending := ls_wbusy sc in
  let* _ := (if irqpending then
               let* _ := lser_spin_until_write fuel sc in
               lamebus_write_register (ls_buspos sc) LSER_REG_WIRQ LSER_IRQ_ENABLE
             else mret tt) in
  let* _ := lamebus_write_register (ls_buspos sc) LSER_REG_CHAR ch in
  let* _ := lser_spin_until_write fuel sc in
  let* _ := (if negb irqpending then lamebus_write_register (ls_buspos sc) LSER_REG_WIRQ LSER_IRQ_ENABLE else mret tt) in
  let* _ := splx spl in
  mret tt.

Definition config_lser (p : nat) : D Z :=
  let* sc := get_lser p in
  let* _ := put_lser p (set_wbusy false sc) in
  let* _ := lamebus_write_register (ls_buspos sc) LSER_REG_RIRQ LSER_IRQ_ENABLE in
  let* _ := lamebus_write_register (ls_buspos sc) LSER_REG_WIRQ LSER_IRQ_ENABLE in
  mret 0.

(** ** The timer (ltimer.c) *)
Definition LT_REG_SEC : Z := 0.
Definition LT_REG_NSEC : Z := 4.
Definition LT_REG_ROE : Z := 8.
Definition LT_REG_IRQ : Z := 12.
Definition LT_REG_COUNT : Z := 16.
Definition LT_REG_SPKR : Z := 20.
Definition LT_GRANULARITY : Z := 1000000.
Definition HZ : Z := 100.

Definition get_ltimer (p : nat) : D ltimer_softc := fun s =>
  match ltimers s !! p with Some x => Ok (x, s) | None => Undef end.
Definition put_ltimer (p : nat) (x : ltimer_softc) : D unit :=
  modify (fun s => set_softcs (lsers s) (<[p := x]> (ltimers s)) (cons s) s).

Definition hardclock : D unit := modify (fun s => set_hardclocks (S (hardclocks s)) s).

Definition config_ltimer (p : nat) : D Z :=
  let* lt := get_ltimer p in
  let* have := gets haveclock in
  if negb have then
    let* _ := modify (fun s => set_globals true (the_clock s) (the_console s) (delayed_outbuf s) s) in
    let* _ := put_ltimer p (mklt true (lt_buspos lt)) in
    let* _ := lamebus_write_register (lt_buspos lt) LT_REG_ROE 1 in
    let* _ := lamebus_write_register (lt_buspos lt) LT_REG_COUNT (LT_GRANULARITY / HZ) in
    mret 0
  else
    let* _ := put_ltimer p (mklt false (lt_buspos lt)) in
    mret 0.

Definition ltimer_irq (p : nat) : D unit :=
  let* lt := get_ltimer p in
  let* val := lamebus_read_register (lt_buspos lt) LT_REG_IRQ in
  if negb (val =? 0) then
    if lt_hardclock lt then hardclock else mret tt
  else mret tt.

Definition ltimer_beep (p : nat) : D unit :=
  let* lt := get_ltimer p in
  lamebus_write_register (lt_buspos lt) LT_REG_SPKR 440.

Definition ltimer_gettime (p : nat) : D (Z * Z) :=
  let* lt := get_ltimer p in
  let* secs1 := lamebus_read_register (lt_buspos lt) LT_REG_SEC in
  let* nsecs := lamebus_read_register (lt_buspos lt) LT_REG_NSEC in
  let* secs2 := lamebus_read_register (lt_buspos lt) LT_REG_SEC in
  mret (i32 (if nsecs <? 5000000 then secs2 else secs1), nsecs).      (* [time_t] is an [int32_t] *)

(** rtclock.c over the timer. *)
Definition config_rtclock (p unit_ : nat) : D Z :=
  match unit_ with
  | S _ => mret ENODEV
  | O =>
      let* c := gets the_clock in
      let* _ := massert (bool_decide (c = None)) in
      let* _ := modify (fun s => set_globals (haveclock s) (Some p) (the_console s) (delayed_outbuf s) s) in
      mret 0
  end.

Definition gettime : D (Z * Z) :=
  let* c := gets the_clock in
  match c with
  | None => panic
  | Some p => ltimer_gettime p
  end.

(** ** Interrupts (lamebus.c, interrupt.c) *)
Definition call_irqfunc (f : irqfunc) (p : nat) : D unit :=
  match f with
  | lser_irq_func => lser_irq p
  | ltimer_irq_func => ltimer_irq p
  end.

Definition dud : D unit := modify (fun s => set_lamebus (lamebus s) (i32 (duds s + 1)) s).

(** The loop over the slots from [slot] on; the result is [duds_this_time]. *)
Fixpoint irq_loop (n slot : nat) (irqs this : Z) : D Z :=
  match n with
  | O => mret this
  | S n' =>
      if Z.land irqs (slot_mask slot) =? 0 then irq_loop n' (S slot) irqs this
      else
        let* l := gets lamebus in
        if negb (slot_used slot l) then
          let* _ := dud in
          irq_loop n' (S slot) irqs (this + 1)
        else
          match ls_irqfuncs l !! slot with
          | None =>
              let* _ := dud in
              irq_loop n' (S slot) irqs (this + 1)
          | Some f =>
              let* p := lift (of_option (ls_devdatas l !! slot)) in
              let* _ := call_irqfunc f p in
              let* irqs := read_ctl_register CTLREG_IRQS in
              irq_loop n' (S slot) irqs this
          end
  end.

Definition lamebus_interrupt : D unit :=
  let* _ := assert_spl in
  let* irqs := read_ctl_register CTLREG_IRQS in
  if irqs =? 0 then dud
  else
    let* this := irq_loop (Z.to_nat LB_NSLOTS) 0 irqs 0 in
    let* d := gets duds in
    let* _ := (if (this =? 0) && (0 <? d) then modify (fun s => set_lamebus (lamebus s) 0 s) else mret tt) in
    let* d := gets duds in
    if 10000 <? d then panic else mret tt.

Definition LAMEBUS_IRQ_BIT : Z := 1024.

Definition mips_interrupt (cause : Z) : D unit :=
  let* old_in := gets in_interrupt in
  let* _ := modify (fun s => set_spl (curspl s) true s) in
  let* _ := assert_spl in
  if negb (Z.land cause LAMEBUS_IRQ_BIT =? 0) then
    let* _ := lamebus_interrupt in
    modify (fun s => set_spl (curspl s) old_in s)
  else panic.

(** ** Putting and getting characters (console.c) *)
Definition DELAYBUFSIZE : Z := 1024.

(** [cpu_idle]: wait for an interrupt and take it. *)
Definition cpu_idle (fuel : nat) : D unit :=
  let* _ := assert_spl in
  let* _ := on_hw (clock_waitirq qfuel fuel) in
  mips_interrupt LAMEBUS_IRQ_BIT.

(** [while (sem->count == 0) thread_sleep(sem);] with nothing else to run. *)
Fixpoint P_loop (fuel : nat) (sem : con_softc → Z) (c : nat) : D unit :=
  let* x := get_con c in
  if sem x =? 0 then
    match fuel with
    | O => lift Spin
    | S fuel' =>
        let* _ := cpu_idle fuel in
        P_loop fuel' sem c
    end
  else mret tt.

Definition P_enter (fuel : nat) (sem : con_softc → Z) (c : nat) : D Z :=
  let* i := gets in_interrupt in
  let* _ := massert (negb i) in
  let* spl := splhigh in
  let* _ := P_loop fuel sem c in
  mret spl.

(** A [char] of the buffer. *)
Definition i8 (z : Z) : Z := (z + 128) `mod` 256 - 128.

Definition putch_delayed (ch : Z) : D unit :=
  let* o := gets delayed_outbuf in
  let* _ := massert (Z.of_nat (length o) <? DELAYBUFSIZE) in
  modify (fun s => set_globals (haveclock s) (the_clock s) (the_console s) (o ++ [i8 ch]) s).

Definition putch_polled (fuel c : nat) (ch : Z) : D unit :=
  let* x := get_con c in
  lser_writepolled fuel (cs_devdata x) ch.

Definition putch_intr (fuel c : nat) (ch : Z) : D unit :=
  let* spl := P_enter fuel cs_wsem c in
  let* x := get_con c in
  let* _ := massert (0 <? cs_wsem x) in
  let* _ := put_con c (mkcon (cs_devdata x) (cs_rsem x) (cs_wsem x - 1) (cs_gotchar x)) in
  let* _ := splx spl in
  lser_write (cs_devdata x) ch.

Definition getch_intr (fuel c : nat) : D Z :=
  let* spl := P_enter fuel cs_rsem c in
  let* x := get_con c in
  let* _ := massert (0 <? cs_rsem x) in
  let* _ := put_con c (mkcon (cs_devdata x) (cs_rsem x - 1) (cs_wsem x) (cs_gotchar x)) in
  let* _ := splx spl in
  let* x := get_con c in
  mret (cs_gotchar x).

Definition putch (fuel : nat) (ch : Z) : D unit :=
  let* c := gets the_console in
  match c with
  | None => putch_delayed ch
  | Some c =>
      let* i := gets in_interrupt in
      let* l := gets curspl in
      if i || (0 <? l) then putch_polled fuel c ch else putch_intr fuel c ch
  end.

Definition getch (fuel : nat) : D Z :=
  let* c := gets the_console in
  match c with
  | None => panic
  | Some c =>
      let* i := gets in_interrupt in
      let* l := gets curspl in
      let* _ := massert (negb i && (l =? 0)) in
      getch_intr fuel c
  end.

Fixpoint flush_loop (fuel : nat) (l : list Z) : D unit :=
  match l with
  | [] => mret tt
  | ch :: l' =>
      let* _ := putch fuel ch in
      flush_loop fuel l'
  end.

Definition flush_delay_buf (fuel : nat) : D unit :=
  let* o := gets delayed_outbuf in
  let* _ := flush_loop fuel o in
  modify (fun s => set_globals (haveclock s) (the_clock s) (the_console s) [] s).

(** ** Attachment and configuration *)
Definition attach_lser_to_lamebus : D (option nat) :=
  let* r := lamebus_probe 1 4 1 1 in
  match r with
  | None => mret None
  | Some slot =>
      let* p := kmalloc in
      match p with
      | None => mret None
      | Some p =>
          let* _ := put_lser p (mklser false (Z.of_nat slot) None) in
          let* _ := lamebus_mark slot in
          let* _ := lamebus_attach_interrupt slot p lser_irq_func in
          mret (Some p)
      end
  end.

Definition attach_ltimer_to_lamebus : D (option nat) :=
  let* r := lamebus_probe 1 2 1 1 in
  match r with
  | None => mret None
  | Some slot =>
      let* p := kmalloc in
      match p with
      | None => mret None
      | Some p =>
          let* _ := put_ltimer p (mklt false (Z.of_nat slot)) in
          let* _ := lamebus_mark slot in
          let* _ := lamebus_attach_interrupt slot p ltimer_irq_func in
          mret (Some p)
      end
  end.

Definition attach_con_to_lser (p : nat) : D (option nat) :=
  let* c := kmalloc in
  match c with
  | None => mret None
  | Some c =>
      let* sc := get_lser p in
      let* _ := put_con c (mkcon p 0 0 0) in
      let* _ := put_lser p (mklser (ls_wbusy sc) (ls_buspos sc) (Some c)) in
      mret (Some c)
  end.

(** The four allocations of [config_con]: two semaphores and two locks, each with its name; [sem_destroy] and [lock_destroy] give back what was
    there before. *)
Fixpoint alloc_all (n : nat) : D bool :=
  match n with
  | O => mret true
  | S n' =>
      let* p := kmalloc in
      match p with
      | None => mret false
      | Some _ => alloc_all n'
      end
  end.

(** [vfs] is the result of attach_console_to_vfs, which enters the console into the table of Vfs.v. *)
Definition config_con (fuel c unit_ : nat) (vfs : Z) : D Z :=
  let* k := gets the_console in
  match unit_ with
  | S _ =>
      let* _ := massert (negb (bool_decide (k = None))) in
      mret ENODEV
  | O =>
      let* _ := massert (bool_decide (k = None)) in
      let* ok := alloc_all 8 in
      if negb ok then mret ENOMEM
      else
        let* x := get_con c in
        let* _ := put_con c (mkcon (cs_devdata x) 0 1 0) in
        let* _ := modify (fun s => set_globals (haveclock s) (the_clock s) (Some c) (delayed_outbuf s) s) in
        let* _ := flush_delay_buf fuel in
        mret vfs
  end.

(** lrandom.c *)
Definition lrandom_random (pos : Z) : D Z := lamebus_read_register pos 0.

End Drivers.
