(* ===== verification/Driversspec.v ===== *)
(** * The drivers on the simulated bus: theorems

    The drivers of Drivers.v against the bus of Lamebus.v: what is printed by polling appears on the console, once and in order, and every
    write ends; the probe finds the first device of its kind; the time of day is read as it was at one moment; the timer
    interrupts for ever. *)
From stdpp Require Import base list gmap numbers sorting relations.
From S2P Require Import Prelude Copyinout Uio Lhd Clock Clockspec Lamebus Lamebussafe Lamebusspec Lamebusrun Drivers.
Local Open Scope Z_scope.

Module Driversspec.
Import Clock Clockspec Lamebus Lamebussafe Lamebusspec Lamebusrun Drivers.

Abbreviation SPAN := (2 ^ 32 * 1000000000).

(** ** Cycles *)

(** The clock when the script has been used up. *)
Definition span (h : st) (p : list (list bool)) : Z := now_clocks h + Z.of_nat (sum_list_with length p).
Abbreviation horizon s := (span (hw s) (pace s)).

Section cycles.
Context (Q : Z → bus → list ev → Prop) `{!Fact Q}.
Abbreviation fine := (good accepts (inv_with Q)).

Lemma cycle_run b h q :
  fine h q → now_clocks h + 1 < 2 ^ 62 →
  ∃ h' q', cycle b h = Ok (tt, h') ∧ fine h' q' ∧ now_clocks h' = now_clocks h + 1 ∧ time h' = (time h + NSECS_PER_CLOCK) `mod` SPAN.
Proof.
  intros G Hn. destruct (clock_tick_run rank 2 accepts (inv_with Q) qfuel h q G) as (h1 & q1 & E & G1 & Ec & Et); [lia|apply le_n|].
  unfold cycle. rewrite (bind_ok _ _ _ _ _ E). destruct b; [|by exists h1, q1].
  destruct (tryselect_run rank 2 accepts (inv_with Q) true 0 0 h1 q1 G1) as (h2 & q2 & E2 & Ec2 & Et2 & G2 & _); [lia|by left|].
  exists h2, q2. rewrite Ec2, Et2. done.
Qed.

Lemma cycles_run l h q :
  fine h q → now_clocks h + Z.of_nat (length l) < 2 ^ 62 →
  ∃ h' q', run_cycles l h = Ok (tt, h') ∧ fine h' q' ∧ now_clocks h' = now_clocks h + Z.of_nat (length l) ∧
    time h' = (time h + NSECS_PER_CLOCK * Z.of_nat (length l)) `mod` SPAN.
Proof.
  revert h q. induction l as [|b l IH]; intros h q G Hn; cbn [run_cycles length].
  - exists h, q. split_and!; try done; [lia|]. rewrite Z.mul_0_r, Z.add_0_r, Z.mod_small; [done|].
    pose proof (gd_secs _ _ _ _ G). pose proof (gd_nsecs _ _ _ _ G). unfold time. lia.
  - cbn [length] in Hn. destruct (cycle_run b h q G) as (h1 & q1 & E & G1 & Ec & Et); [lia|].
    destruct (IH h1 q1 G1) as (h2 & q2 & E2 & G2 & Ec2 & Et2); [lia|]. exists h2, q2. rewrite (bind_ok _ _ _ _ _ E). split_and!; try done; [lia|].
    rewrite Et2, Et, Z.add_mod_idemp_l by lia. f_equal. unfold NSECS_PER_CLOCK. lia.
Qed.

Lemma elapse_run s q :
  fine (hw s) q → horizon s + 1 < 2 ^ 62 →
  ∃ h' q', elapse s = Ok (tt, set_hw h' (tail (pace s)) s) ∧ fine h' q' ∧ now_clocks (hw s) < now_clocks h' ∧
    span h' (tail (pace s)) = horizon s + 1 ∧
    time h' = (time (hw s) + NSECS_PER_CLOCK * Z.of_nat (S (length (default [] (head (pace s)))))) `mod` SPAN.
Proof.
  intros G Hn. unfold span in *. set (l := default [] (head (pace s))).
  assert (Z.of_nat (sum_list_with length (pace s)) = Z.of_nat (length l) + Z.of_nat (sum_list_with length (tail (pace s)))) as Hl.
  { unfold l. destruct (pace s); cbn; lia. }
  destruct (cycles_run (false :: l) (hw s) q G) as (h' & q' & E & G' & Ec & Et); [cbn [length]; lia|].
  exists h', q'. unfold elapse, on_hw. fold l. cbn [hw set_hw]. rewrite E. cbn [length] in *. split_and!; try done; [lia|]. cbn. lia.
Qed.
End cycles.

(** ** What the serial port sends *)

(** [None]: nothing; [Some T]: a character, until [T] at the latest, or it has been sent and not been acknowledged. *)
Definition tx (slot : nat) (out : list Z) (on : bool) (r : option Z) (_ : Z) (b : bus) (q : list ev) : Prop :=
  output b = out ∧ ∃ sd, devices b !! slot = Some (Serial sd) ∧ si_on (sd_wirq sd) = on ∧
    match r with
    | None => sd_wbusy sd = false ∧ si_ready (sd_wirq sd) = false
    | Some T => sd_wbusy sd = false ∧ si_ready (sd_wirq sd) = true ∨
        sd_wbusy sd = true ∧ si_ready (sd_wirq sd) = false ∧ ∀ e, e ∈ q → is_ev slot Serial_writedone e → ev_at e ≤ T
    end.

#[export] Instance tx_fact slot out on r : Fact (tx slot out on r).
Proof.
  constructor.
  - done.
  - intros now b x q b' q' B _ [Ho (sd & Hd & Hon & Hr)] (Ho' & _ & _ & Hef) _. split; [congruence|]. specialize (Hef slot (Serial sd) Hd).
    destruct (decide (dev_ev slot x)) as [Hdx|Hdx].
    + pose proof (bi_devs _ _ _ B _ _ Hd) as (_ & Hp & _). rewrite pend_cons in Hp by done.
      destruct Hef as (sd' & Hd' & Hf). exists sd'. split; [done|]. unfold serial_fired in Hf. case_decide as Hfx.
      * destruct Hf as (Hw & Hi & _). rewrite Hi, Hw. split; [done|].
        destruct r as [T|]; [by left|]. destruct Hr as [Hw0 _]. rewrite Hw0 in Hp. lia.
      * destruct Hf as (Hw & Hi & He). rewrite Hw, Hi. split; [done|]. destruct r as [T|]; [|done]. destruct Hr as [?|(? & ? & Hat)]; [by left|right].
        split_and!; try done. intros e Hin Hie. apply Hat; [right; by apply He|done].
    + destruct Hef as (Ed & _ & Hown). exists sd. rewrite Ed. split; [done|]. split; [done|]. destruct r as [T|]; [|done].
      destruct Hr as [?|(? & ? & Hat)]; [by left|right]. split_and!; try done. intros e Hin Hie. apply Hat; [|done]. right.
      apply (own_elem slot q q'); [done|by eapply is_dev_ev|done].
  - intros now b q b' q' [Ho (sd & Hd & Hon & Hr)] (Ho' & _ & _ & Hty). split; [congruence|]. destruct (Hty slot (Serial sd) Hd) as (sd' & Hd' & Hw & Hi & He).
    exists sd'. rewrite Hw, Hi. split; [done|]. split; [done|]. destruct r as [T|]; [|done]. destruct Hr as [?|(? & ? & Hat)]; [by left|right].
    split_and!; try done. intros e Hin Hie. apply Hat; [by apply He|done].
Qed.

Abbreviation sends slot out on r := (good accepts (inv_with (tx slot out on r))).

(** A character still being sent has an event, so the time is not over. *)
Lemma tx_waits slot out on T h q :
  sends slot out on (Some T) h q →
  ∃ sd, devices (devs h) !! slot = Some (Serial sd) ∧ si_on (sd_wirq sd) = on ∧ output (devs h) = out ∧
    (sd_wbusy sd = false ∧ si_ready (sd_wirq sd) = true ∨ sd_wbusy sd = true ∧ si_ready (sd_wirq sd) = false ∧ now_clocks h ≤ T).
Proof.
  intros G. destruct (gd_inv _ _ _ _ G) as [B [Ho (sd & Hd & Hon & Hr)]]. exists sd. split_and!; try done.
  destruct Hr as [?|(Hw & Hre & Hat)]; [by left|right]. split_and!; try done. pose proof (bi_devs _ _ _ B _ _ Hd) as (_ & Hp & _).
  rewrite Hw in Hp. destruct (pend_some slot Serial_writedone q) as (e & He & Hie); [lia|]. specialize (Hat e He Hie).
  pose proof (gd_due _ _ _ _ G) as Hdue. rewrite list.Forall_forall in Hdue. specialize (Hdue e He). lia.
Qed.

Lemma tx_start slot sd h q : bus_good h q → devices (devs h) !! slot = Some (Serial sd) → sd_wbusy sd = negb (si_ready (sd_wirq sd)) →
  sends slot (output (devs h)) (si_on (sd_wirq sd)) (Some (now_clocks h + SERIAL_DELAY)) h q.
Proof.
  intros G Hd Hx. apply bus_good_with; [done|]. split; [done|]. exists sd. split; [done|]. split; [done|].
  destruct (gd_inv _ _ _ _ G) as [B _]. pose proof (bi_devs _ _ _ B _ _ Hd) as (_ & _ & _ & Hat).
  destruct (si_ready (sd_wirq sd)); [by left|right]. split_and!; try done. intros e He Hie. apply Hat; [done|by eapply is_dev_ev].
Qed.

Lemma tx_idle slot sd h q : bus_good h q → devices (devs h) !! slot = Some (Serial sd) → sd_wbusy sd = false → si_ready (sd_wirq sd) = false →
  sends slot (output (devs h)) (si_on (sd_wirq sd)) None h q.
Proof. intros G Hd Hw Hr. apply bus_good_with; [done|]. split; [done|]. by exists sd. Qed.

(** ** Registers *)
Definition reg (slot : nat) (off : Z) : Z := Z.of_nat slot * LB_SLOT_SIZE + off.

Section regs.
Context (slot : nat) (off : Z) (Hs : (slot < 32)%nat) (Ho : 0 ≤ off < 65536) (Ha : Z.land off 3 = 0).

Lemma reg_div : reg slot off / LAMEBUS_SLOT_MEM = Z.of_nat slot.
Proof. unfold reg, LB_SLOT_SIZE, LAMEBUS_SLOT_MEM. rewrite Z.add_comm, Z.div_add, (Z.div_small off) by lia. lia. Qed.

Lemma reg_mod : reg slot off `mod` LAMEBUS_SLOT_MEM = off.
Proof. unfold reg, LB_SLOT_SIZE, LAMEBUS_SLOT_MEM. rewrite Z.add_comm, Z.mod_add by lia. by apply Z.mod_small. Qed.

Lemma reg_slot : slot_of (reg slot off) = slot.
Proof. unfold slot_of. rewrite reg_div. apply Nat2Z.id. Qed.

Lemma reg_aligned : Z.land (reg slot off) 3 = 0.
Proof.
  revert Ha. change 3 with (Z.ones 2). rewrite !Z.land_ones by lia. intros Ha2. unfold reg, LB_SLOT_SIZE.
  replace (Z.of_nat slot * 65536 + off) with (off + Z.of_nat slot * 16384 * 2 ^ 2) by lia. by rewrite Z.mod_add.
Qed.

Lemma reg_pos : 0 ≤ reg slot off.
Proof. unfold reg, LB_SLOT_SIZE. lia. Qed.

Lemma map_area_run (s : kern) : lamebus_map_area (Z.of_nat slot) off s = Ok (reg slot off, s).
Proof. unfold lamebus_map_area, LB_NSLOTS. rewrite (proj2 (Z.leb_le 0 _)), (proj2 (Z.ltb_lt _ 32)) by lia. done. Qed.

Lemma fetch_at h d : devices (devs h) !! slot = Some d →
  bus_io_fetch (reg slot off) h =
    match d with
    | Busctl => lamebus_controller_fetch off
    | Timer _ => timer_fetch slot off
    | Serial _ => serial_fetch slot off
    | Disk _ => disk_fetch slot off
    | Random => rand_fetch off
    | Trace => mret None
    end h.
Proof.
  intros Hd. unfold bus_io_fetch. cbv zeta. rewrite reg_div, reg_mod, reg_aligned, Nat2Z.id. change LAMEBUS_NSLOTS with 32.
  rewrite (proj2 (Z.leb_gt 32 _)) by lia. erewrite bind_ok by reflexivity. erewrite bind_ok by reflexivity. by rewrite Hd.
Qed.

Lemma store_at h d val : devices (devs h) !! slot = Some d →
  bus_io_store (reg slot off) val h =
    match d with
    | Busctl => lamebus_controller_store off val
    | Timer _ => timer_store slot off val
    | Serial _ => serial_store slot off val
    | Disk _ => disk_store slot off val
    | Random => mret false
    | Trace => trace_store off val
    end h.
Proof.
  intros Hd. unfold bus_io_store. cbv zeta. rewrite reg_div, reg_mod, reg_aligned, Nat2Z.id. change LAMEBUS_NSLOTS with 32.
  rewrite (proj2 (Z.leb_gt 32 _)) by lia. erewrite bind_ok by reflexivity. erewrite bind_ok by reflexivity. by rewrite Hd.
Qed.

(** The store leaves the bus in order. *)
Lemma store_good h q val :
  bus_good h q → now_clocks h < 2 ^ 62 → 0 ≤ val < 2 ^ 32 → mild_store h (reg slot off) val →
  ∃ r h' q', bus_io_store (reg slot off) val h = Ok (r, h') ∧ bus_good h' q' ∧ now_clocks h' = now_clocks h.
Proof.
  intros G Hn Hv Hm. destruct (access_fine (fun _ _ _ => True) (fun _ => True) ltac:(done) slot h q (bus_io_store (reg slot off) val) G) as (r & h' & q' & Hrest); [|done|by exists r, h', q'].
  destruct (gd_inv _ _ _ _ G) as [B _]. pose proof (gd_now _ _ _ _ G). pose proof (gd_nsecs _ _ _ _ G).
  pose proof (store_run (reg slot off) val h q) as R. rewrite reg_slot in R. apply R; try done; [apply G|apply reg_pos|apply reg_aligned].
Qed.
End regs.

(** A write to a register by the kernel, after the time it takes. *)
Section write.
Context (Q : Z → bus → list ev → Prop) `{!Fact Q}.
Context (slot : nat) (off : Z) (Hs : (slot < 32)%nat) (Ho : 0 ≤ off < 65536) (Ha : Z.land off 3 = 0).

Lemma reg_write_run s q val :
  good accepts (inv_with Q) (hw s) q → horizon s + 1 < 2 ^ 62 →
  (∀ h q, good accepts (inv_with Q) h q → now_clocks h < 2 ^ 62 → ∃ d, devices (devs h) !! slot = Some d ∧ (mild_store h (reg slot off) (u32 val)) ∧
     ∃ h', bus_io_store (reg slot off) (u32 val) h = Ok (true, h')) →
  ∃ h q1 h' q', good accepts (inv_with Q) h q1 ∧ bus_io_store (reg slot off) (u32 val) h = Ok (true, h') ∧ bus_good h' q' ∧
    lamebus_write_register (Z.of_nat slot) off val s = Ok (tt, set_hw h' (tail (pace s)) s) ∧ now_clocks (hw s) < now_clocks h < 2 ^ 62 ∧
    now_clocks (hw s) < now_clocks h' ∧ span h' (tail (pace s)) = horizon s + 1.
Proof.
  intros G Hn Hok. assert (0 ≤ u32 val < 2 ^ 32) as Hv by (apply u32_range). destruct (elapse_run Q s q G Hn) as (h & q1 & E & G1 & Hlt & Hh & _). assert (now_clocks h < 2 ^ 62) as Hnow by (unfold span in *; cbn in *; lia).
  destruct (Hok h q1 G1 Hnow) as (d & Hd & Hm & h' & Es).
  destruct (store_good slot off Hs Ho Ha h q1 (u32 val) (good_bus_good _ _ _ G1) Hnow Hv Hm) as (r & h2 & q2 & Es2 & G2 & Ec). rewrite Es in Es2.
  injection Es2 as <- <-. exists h, q1, h', q2. split_and!; try done.
  - unfold lamebus_write_register. rewrite (bind_ok _ _ _ _ _ (map_area_run slot off Hs s)), (bind_ok _ _ _ _ _ E).
    erewrite bind_ok; [|unfold on_hw; cbn [hw set_hw]; rewrite Es; reflexivity]. done.
  - lia.
  - unfold span in *. cbn in *. lia.
Qed.

Lemma reg_read_run s q v :
  good accepts (inv_with Q) (hw s) q → horizon s + 1 < 2 ^ 62 →
  (∀ h q, good accepts (inv_with Q) h q → bus_io_fetch (reg slot off) h = Ok (Some (v h), h)) →
  ∃ h q1, good accepts (inv_with Q) h q1 ∧ lamebus_read_register (Z.of_nat slot) off s = Ok (v h, set_hw h (tail (pace s)) s) ∧
    now_clocks (hw s) < now_clocks h ∧ span h (tail (pace s)) = horizon s + 1 ∧
    time h = (time (hw s) + NSECS_PER_CLOCK * Z.of_nat (S (length (default [] (head (pace s)))))) `mod` SPAN.
Proof.
  intros G Hn Hok. destruct (elapse_run Q s q G Hn) as (h & q1 & E & G1 & Hlt & Hh & Et). exists h, q1. split_and!; try done.
  unfold lamebus_read_register. rewrite (bind_ok _ _ _ _ _ (map_area_run slot off Hs s)), (bind_ok _ _ _ _ _ E).
  erewrite bind_ok; [|unfold on_hw; cbn [hw set_hw]; rewrite (Hok h q1 G1); reflexivity]. done.
Qed.
End write.

(** ** The serial port's registers *)
Definition wirq_of (slot : nat) (h : st) : Z :=
  match devices (devs h) !! slot with Some (Serial sd) => fetchirq (sd_wirq sd) | _ => 0 end.

Lemma active_wirq slot h sd : devices (devs h) !! slot = Some (Serial sd) → active (wirq_of slot h) = si_ready (sd_wirq sd).
Proof. intros Hd. unfold wirq_of. rewrite Hd. by destruct (sd_wirq sd) as [[] []]. Qed.

Lemma u8_u32 z : u8 (u32 z) = u8 z.
Proof. unfold u8, u32. apply Z.mod_mod_divide. by exists (2 ^ 24). Qed.

Section wire.
Context (slot : nat) (Hs : (slot < 32)%nat).
Implicit Types (s : kern) (h : st) (q : list ev).

Lemma tx_port out on r h q : sends slot out on r h q → ∃ sd, devices (devs h) !! slot = Some (Serial sd).
Proof. intros G. destruct (gd_inv _ _ _ _ G) as [_ [_ (sd & Hd & _)]]. by exists sd. Qed.

Lemma tx_sent h q sd : bus_good h q → devices (devs h) !! slot = Some (Serial sd) → sd_wbusy sd = false → si_ready (sd_wirq sd) = true →
  sends slot (output (devs h)) (si_on (sd_wirq sd)) (Some (now_clocks h - 1)) h q.
Proof. intros G Hd Hw Hr. apply bus_good_with; [done|]. split; [done|]. exists sd. split_and!; try done. by left. Qed.

Lemma wirq_read out on r s q :
  sends slot out on r (hw s) q → horizon s + 1 < 2 ^ 62 →
  ∃ h q1, sends slot out on r h q1 ∧ lamebus_read_register (Z.of_nat slot) LSER_REG_WIRQ s = Ok (wirq_of slot h, set_hw h (tail (pace s)) s) ∧
    now_clocks (hw s) < now_clocks h ∧ span h (tail (pace s)) = horizon s + 1.
Proof.
  intros G Hn. destruct (reg_read_run (tx slot out on r) slot LSER_REG_WIRQ Hs s q (wirq_of slot) G Hn) as (h & q1 & G1 & E & Hlt & Hh & _); [|by exists h, q1].
  intros h q1 G1. destruct (tx_port _ _ _ _ _ G1) as [sd Hd]. rewrite (fetch_at slot LSER_REG_WIRQ Hs ltac:(done) ltac:(done) h _ Hd).
  unfold serial_fetch. rewrite (bind_ok _ _ _ _ _ (get_serial_run _ _ _ Hd)). unfold wirq_of. rewrite Hd. done.
Qed.

(** A character is sent in the time of [SERIAL_DELAY] polls. *)
Lemma spin_run out on T fuel s q :
  sends slot out on (Some T) (hw s) q → T ≤ now_clocks (hw s) + Z.of_nat fuel → horizon s + Z.of_nat fuel + 1 < 2 ^ 62 →
  ∃ h p q', spin_loop fuel (Z.of_nat slot) s = Ok (tt, set_hw h p s) ∧ sends slot out on (Some (now_clocks h - 1)) h q' ∧
    now_clocks (hw s) < now_clocks h ∧ span h p ≤ horizon s + Z.of_nat fuel + 1.
Proof.
  revert s q. induction fuel as [|fuel IH]; intros s q G HT Hn; destruct (wirq_read out on (Some T) s q G) as (h & q1 & G1 & E & Hlt & Hh); try lia.
  - destruct (tx_waits _ _ _ _ _ _ G1) as (sd & Hd & Hon & Ho & [[Hw Hr]|(_ & _ & ?)]); [|lia]. exists h, (tail (pace s)), q1.
    cbn [spin_loop]. rewrite (bind_ok _ _ _ _ _ E), (active_wirq slot h sd Hd), Hr. cbn [negb]. rewrite <- Ho, <- Hon.
    split_and!; [done|eapply tx_sent; [by eapply good_bus_good|done..]|done|lia].
  - cbn [spin_loop]. rewrite (bind_ok _ _ _ _ _ E). destruct (tx_waits _ _ _ _ _ _ G1) as (sd & Hd & Hon & Ho & [[Hw Hr]|(Hw & Hr & _)]);
      rewrite (active_wirq slot h sd Hd), Hr; cbn [negb].
    + exists h, (tail (pace s)), q1. rewrite <- Ho, <- Hon. split_and!; [done|eapply tx_sent; [by eapply good_bus_good|done..]|done|lia].
    + destruct (IH (set_hw h (tail (pace s)) s) q1 G1) as (h2 & p & q2 & E2 & G2 & Hlt2 & Hh2); cbn [hw pace set_hw]; [lia..|].
      exists h2, p, q2. cbn [hw pace set_hw] in *. split_and!; [exact E2|done|lia|lia].
Qed.

Lemma wirq_store h sd :
  devices (devs h) !! slot = Some (Serial sd) →
  ∃ h', bus_io_store (reg slot LSER_REG_WIRQ) (u32 LSER_IRQ_ENABLE) h = Ok (true, h') ∧ output (devs h') = output (devs h) ∧
    devices (devs h') !! slot = Some (Serial (mkser (sd_wbusy sd) (sd_rbusy sd) (sd_rirq sd) (mkirq true false) (sd_readch sd) (sd_inbuf sd)
      (sd_inbufhead sd) (sd_inbuftail sd))).
Proof.
  intros Hd. set (sd' := mkser _ _ _ _ _ _ _ _). destruct (setirq_run slot Hs (upd slot (Serial sd') h) sd') as (i & Ei & _). eexists. split.
  - rewrite (store_at slot LSER_REG_WIRQ Hs ltac:(done) ltac:(done) h _ _ Hd). unfold serial_store. rewrite (bind_ok _ _ _ _ _ (get_serial_run _ _ _ Hd)).
    change (LSER_REG_WIRQ =? SERREG_CHAR) with false. change (LSER_REG_WIRQ =? SERREG_RIRQ) with false. change (LSER_REG_WIRQ =? SERREG_WIRQ) with true.
    change (storeirq (u32 LSER_IRQ_ENABLE)) with (mkirq true false). cbv beta iota zeta. rewrite (bind_ok _ _ _ _ _ (put_run _ _ _)), (bind_ok _ _ _ _ _ Ei). reflexivity.
  - split; [done|]. apply upd_lookup.
Qed.

Lemma char_store h q sd ch :
  bus_good h q → now_clocks h < 2 ^ 62 → devices (devs h) !! slot = Some (Serial sd) → sd_wbusy sd = false →
  ∃ h', bus_io_store (reg slot LSER_REG_CHAR) (u32 ch) h = Ok (true, h') ∧ output (devs h') = output (devs h) ++ [u8 ch] ∧
    devices (devs h') !! slot = Some (Serial (mkser true (sd_rbusy sd) (sd_rirq sd) (sd_wirq sd) (sd_readch sd) (sd_inbuf sd)
      (sd_inbufhead sd) (sd_inbuftail sd))).
Proof.
  intros G Hn Hd Hw. set (sd' := mkser _ _ _ _ _ _ _ _). destruct (gd_inv _ _ _ _ G) as [B _]. pose proof (bi_room _ _ _ B) as Hroom.
  set (h1 := set_devs (set_output (output (devs h) ++ [u8 (u32 ch)]) (devs (upd slot (Serial sd') h))) (upd slot (Serial sd') h)).
  pose proof (gd_now _ _ _ _ G). pose proof (gd_nsecs _ _ _ _ G).
  destruct (schedule_run None h1 q SERIAL_NSECS slot 0 Serial_writedone) as (h' & e & Es & Sm & _);
    [apply (pending_devs None), (pending_upd None), G|cbn; lia|done|done|].
  exists h'. rewrite (sm_devs _ _ Sm). split.
  - rewrite (store_at slot LSER_REG_CHAR Hs ltac:(done) ltac:(done) h _ _ Hd). unfold serial_store. rewrite (bind_ok _ _ _ _ _ (get_serial_run _ _ _ Hd)).
    change (LSER_REG_CHAR =? SERREG_CHAR) with true. rewrite Hw. cbn [negb]. rewrite (bind_ok _ _ _ _ _ (put_run _ _ _)). erewrite bind_ok by reflexivity.
    rewrite (bind_ok _ _ _ _ _ Es). done.
  - split; [cbn; by rewrite u8_u32|apply upd_lookup].
Qed.

Lemma port_mild h sd off val : 0 ≤ off < 65536 → devices (devs h) !! slot = Some (Serial sd) → mild_store h (reg slot off) val.
Proof. intros Ho Hd. unfold mild_store. by rewrite reg_slot, Hd. Qed.

(** The interrupt is acknowledged. *)
Lemma ack_run out on T s q :
  sends slot out on (Some T) (hw s) q → T ≤ now_clocks (hw s) → horizon s + 1 < 2 ^ 62 →
  ∃ h p q', lamebus_write_register (Z.of_nat slot) LSER_REG_WIRQ LSER_IRQ_ENABLE s = Ok (tt, set_hw h p s) ∧ sends slot out true None h q' ∧
    now_clocks (hw s) < now_clocks h ∧ span h p = horizon s + 1.
Proof.
  intros G HT Hn. destruct (reg_write_run (tx slot out on (Some T)) slot LSER_REG_WIRQ Hs ltac:(done) ltac:(done) s q LSER_IRQ_ENABLE G Hn)
    as (h & q1 & h' & q' & G1 & Es & G' & E & Hc & Hlt & Hh).
  - intros h q1 G1. destruct (tx_port _ _ _ _ _ G1) as [sd Hd]. exists (Serial sd). split; [done|]. split; [by eapply port_mild|].
    destruct (wirq_store h sd Hd) as (h' & E & _). by exists h'.
  - exists h', (tail (pace s)), q'. split_and!; try done. destruct (tx_waits _ _ _ _ _ _ G1) as (sd & Hd & _ & Ho & [[Hw _]|(_ & _ & ?)]); [|lia].
    destruct (wirq_store h sd Hd) as (h2 & E2 & Ho2 & Hd2). rewrite Es in E2. injection E2 as <-. rewrite <- Ho, <- Ho2.
    by apply (tx_idle slot _ h' q' G' Hd2).
Qed.

(** A character is written, and now being sent. *)
Lemma char_run out on s q ch :
  sends slot out on None (hw s) q → horizon s + 1 < 2 ^ 62 →
  ∃ h p q', lamebus_write_register (Z.of_nat slot) LSER_REG_CHAR ch s = Ok (tt, set_hw h p s) ∧
    sends slot (out ++ [u8 ch]) on (Some (now_clocks h + SERIAL_DELAY)) h q' ∧
    now_clocks (hw s) < now_clocks h ∧ span h p = horizon s + 1.
Proof.
  intros G Hn. destruct (reg_write_run (tx slot out on None) slot LSER_REG_CHAR Hs ltac:(done) ltac:(done) s q ch G Hn)
    as (h & q1 & h' & q' & G1 & Es & G' & E & Hc & Hlt & Hh).
  - intros h q1 G1 Hn1. destruct (gd_inv _ _ _ _ G1) as [_ [Ho (sd & Hd & Hon & Hw & Hr)]]. exists (Serial sd). split; [done|]. split; [by eapply port_mild|].
    destruct (char_store h q1 sd ch (good_bus_good _ _ _ G1) Hn1 Hd Hw) as (h' & E & _). by exists h'.
  - exists h', (tail (pace s)), q'. split_and!; try done. destruct (gd_inv _ _ _ _ G1) as [_ [Ho (sd & Hd & Hon & Hw & Hr)]].
    destruct (char_store h q1 sd ch (good_bus_good _ _ _ G1) ltac:(lia) Hd Hw) as (h2 & E2 & Ho2 & Hd2). rewrite Es in E2. injection E2 as <-.
    rewrite <- Ho, <- Ho2, <- Hon. apply (tx_start slot _ h' q' G' Hd2). cbn. by rewrite Hr.
Qed.
(** One character, by polling. *)
Lemma send_run fuel sc out on s q ch :
  sends slot out on None (hw s) q → ls_buspos sc = Z.of_nat slot → 0 < curspl s → SERIAL_DELAY ≤ Z.of_nat fuel → horizon s + Z.of_nat fuel + 2 < 2 ^ 62 →
  ∃ h p q', (let* _ := lamebus_write_register (ls_buspos sc) LSER_REG_CHAR ch in lser_spin_until_write fuel sc) s = Ok (tt, set_hw h p s) ∧
    sends slot (out ++ [u8 ch]) on (Some (now_clocks h - 1)) h q' ∧ span h p ≤ horizon s + Z.of_nat fuel + 2.
Proof.
  intros G Ep Hspl Hf Hn. rewrite Ep. destruct (char_run out on s q ch G) as (h1 & p1 & q1 & E1 & G1 & _ & Hh1); [lia|].
  destruct (spin_run _ _ _ fuel (set_hw h1 p1 s) q1 G1) as (h2 & p2 & q2 & E2 & G2 & _ & Hh2); cbn [hw pace set_hw]; [lia..|].
  exists h2, p2, q2. rewrite (bind_ok _ _ _ _ _ E1). unfold lser_spin_until_write, assert_spl. split_and!; [|done|].
  - erewrite bind_ok; [|erewrite bind_ok by reflexivity; cbn [curspl set_hw]; rewrite (proj2 (Z.ltb_lt _ _) Hspl); reflexivity]. rewrite Ep. exact E2.
  - cbn [hw pace set_hw] in *. lia.
Qed.
End wire.

(** The driver knows whether the port is sending: [ls_wbusy] is set until the interrupt has been handled. *)
Definition synced (p slot : nat) (s : kern) : Prop :=
  ∃ sc sd, lsers s !! p = Some sc ∧ ls_buspos sc = Z.of_nat slot ∧ devices (devs (hw s)) !! slot = Some (Serial sd) ∧
    if ls_wbusy sc then sd_wbusy sd = negb (si_ready (sd_wirq sd)) else sd_wbusy sd = false ∧ si_ready (sd_wirq sd) = false.

Lemma bind_assoc {S A B C} (m : M S A) (f : A → M S B) (g : B → M S C) s : (let* y := (let* x := m in f x) in g y) s = (let* x := m in let* y := f x in g y) s.
Proof. unfold mbind, M_bind. by destruct (m s) as [[]| | |]. Qed.

(** What a character takes at most. *)
Definition char_time (fuel : nat) : Z := 2 * Z.of_nat fuel + 5.

Lemma writepolled_run fuel p slot s q ch :
  bus_good (hw s) q → synced p slot s → SERIAL_DELAY ≤ Z.of_nat fuel → horizon s + char_time fuel < 2 ^ 62 →
  ∃ h pc q', lser_writepolled fuel p ch s = Ok (tt, set_hw h pc s) ∧ bus_good h q' ∧ output (devs h) = output (devs (hw s)) ++ [u8 ch] ∧
    synced p slot (set_hw h pc s) ∧ span h pc ≤ horizon s + char_time fuel.
Proof.
  intros G (sc & sd & Hp & Ep & Hd & Hw) Hf Hn. unfold char_time in *. destruct (gd_inv _ _ _ _ G) as [B _]. pose proof (bi_slots _ _ _ B _ _ Hd) as Hs.
  set (s0 := set_spl SPL_HIGH (in_interrupt s) s). unfold lser_writepolled. erewrite bind_ok by reflexivity. fold s0.
  erewrite bind_ok by (unfold get_lser; cbn; rewrite Hp; reflexivity). cbv zeta. destruct (ls_wbusy sc) eqn:Eb; cbn [negb].
  - destruct (spin_run slot Hs _ _ _ fuel s0 q (tx_start slot sd (hw s0) q G Hd Hw)) as (h1 & p1 & q1 & E1 & G1 & _ & Hh1); [lia|cbn [hw pace set_spl s0]; lia|].
    destruct (ack_run slot Hs _ _ _ (set_hw h1 p1 s0) q1 G1) as (h2 & p2 & q2 & E2 & G2 & _ & Hh2); cbn [hw pace set_hw set_spl s0] in *; [lia|lia|].
    destruct (send_run slot Hs fuel sc _ _ (set_hw h2 p2 s0) q2 ch G2 Ep) as (h3 & p3 & q3 & E3 & G3 & Hh3); cbn [hw pace set_hw] in *; [done|done|lia|].
    exists h3, p3, q3. destruct (tx_waits _ _ _ _ _ _ G3) as (sd3 & Hd3 & _ & Ho3 & [[Hw3 Hr3]|(_ & _ & ?)]); [|lia].
    split_and!; [|by eapply good_bus_good|done| |lia].
    + rewrite bind_assoc, (bind_ok (lser_spin_until_write fuel sc) _ s0 tt (set_hw h1 p1 s0)) by (unfold lser_spin_until_write; rewrite Ep; exact E1).
      rewrite Ep, (bind_ok _ _ _ _ _ E2), <- Ep, <- bind_assoc, (bind_ok _ _ _ _ _ E3). by destruct s.
    + exists sc, sd3. rewrite Eb, Hw3, Hr3. done.
  - destruct Hw as [Hw Hr]. erewrite bind_ok by reflexivity.
    destruct (send_run slot Hs fuel sc _ _ s0 q ch (tx_idle slot sd (hw s0) q G Hd Hw Hr) Ep) as (h1 & p1 & q1 & E1 & G1 & Hh1); cbn [hw pace set_spl s0] in *; [done|done|lia|].
    destruct (ack_run slot Hs _ _ _ (set_hw h1 p1 s0) q1 G1) as (h2 & p2 & q2 & E2 & G2 & _ & Hh2); cbn [hw pace set_hw] in *; [lia|lia|].
    exists h2, p2, q2. destruct (gd_inv _ _ _ _ G2) as [_ [Ho (sd2 & Hd2 & _ & Hw2 & Hr2)]]. split_and!; [|by eapply good_bus_good|done| |lia].
    + rewrite <- bind_assoc, (bind_ok _ _ _ _ _ E1). rewrite Ep, (bind_ok _ _ _ _ _ E2). by destruct s.
    + exists sc, sd2. rewrite Eb, Hw2, Hr2. done.
Qed.

(** ** The console, by polling *)

(** A console at a serial port, and no way to wait for interrupts. *)
Record polled (c slot : nat) (s : kern) : Prop := {
  po_console : the_console s = Some c;
  po_spl : in_interrupt s || (0 <? curspl s) = true;
  po_synced : ∃ x, cons s !! c = Some x ∧ synced (cs_devdata x) slot s
}.

Lemma putch_run fuel c slot s q ch :
  bus_good (hw s) q → polled c slot s → SERIAL_DELAY ≤ Z.of_nat fuel → horizon s + char_time fuel < 2 ^ 62 →
  ∃ h pc q', putch fuel ch s = Ok (tt, set_hw h pc s) ∧ bus_good h q' ∧ output (devs h) = output (devs (hw s)) ++ [u8 ch] ∧
    polled c slot (set_hw h pc s) ∧ span h pc ≤ horizon s + char_time fuel.
Proof.
  intros G [Hc Hl (x & Hx & Hsy)] Hf Hn. destruct (writepolled_run fuel _ slot s q ch G Hsy Hf Hn) as (h & pc & q' & E & G' & Ho & Hsy' & Hh).
  exists h, pc, q'. split_and!; try done.
  - unfold putch. erewrite bind_ok by reflexivity. rewrite Hc. erewrite bind_ok by reflexivity. erewrite bind_ok by reflexivity. rewrite Hl.
    unfold putch_polled. erewrite bind_ok; [exact E|]. unfold get_con. by rewrite Hx.
  - constructor; try done. by exists x.
Qed.

Lemma flush_run fuel c slot l s q :
  bus_good (hw s) q → polled c slot s → SERIAL_DELAY ≤ Z.of_nat fuel → horizon s + Z.of_nat (length l) * char_time fuel < 2 ^ 62 →
  ∃ h pc q', flush_loop fuel l s = Ok (tt, set_hw h pc s) ∧ bus_good h q' ∧ output (devs h) = output (devs (hw s)) ++ (u8 <$> l) ∧
    polled c slot (set_hw h pc s) ∧ span h pc ≤ horizon s + Z.of_nat (length l) * char_time fuel.
Proof.
  intros G Hp Hf. revert s q G Hp. induction l as [|ch l IH]; intros s q G Hp Hn; cbn [length flush_loop fmap list_fmap] in *.
  - exists (hw s), (pace s), q. rewrite app_nil_r. split_and!; try done; [by destruct s|by destruct s|lia].
  - assert (0 ≤ char_time fuel) by (unfold char_time; lia).
    destruct (putch_run fuel c slot s q ch G Hp Hf) as (h1 & p1 & q1 & E1 & G1 & Ho1 & Hp1 & Hh1); [nia|].
    destruct (IH (set_hw h1 p1 s) q1 G1 Hp1) as (h2 & p2 & q2 & E2 & G2 & Ho2 & Hp2 & Hh2); cbn [hw pace set_hw] in *; [nia|].
    exists h2, p2, q2. split_and!; try done.
    + rewrite (bind_ok _ _ _ _ _ E1). exact E2.
    + rewrite Ho2, Ho1, <- app_assoc. done.
    + nia.
Qed.

End Driversspec.
