(* ===== verification/Driversthm.v ===== *)
(** * The drivers: the console, the probe, the time of day and the timer

    Theorems on the drivers of Drivers.v with the simulated bus, whose devices, keys and other events go on meanwhile as the clock does. *)
From stdpp Require Import base list gmap numbers sorting relations.
From S2P Require Import Prelude Copyinout Uio Lhd Clock Clockspec Lamebus Lamebussafe Lamebusspec Lamebusrun Lamebusthm Drivers Driversspec.
Local Open Scope Z_scope.

Module Driversthm.
Import Clock Clockspec Lamebus Lamebussafe Lamebusspec Lamebusrun Lamebusthm Drivers Driversspec.

(** ** The console *)

(** C16: Printing by polling, as [putch] does in interrupt handlers and with interrupts off (and so [panic] does): every character put
    reaches the serial line, once and in order, whether the port is idle or still sending a character that was put with interrupts
    on, and whatever the other devices do meanwhile.  Each takes a bounded time, and the driver's notion of the port stays right. *)
Theorem polled_output fuel c slot l s q :
  bus_good (hw s) q → polled c slot s → SERIAL_DELAY ≤ Z.of_nat fuel → horizon s + Z.of_nat (length l) * char_time fuel < 2 ^ 62 →
  ∃ s' q', flush_loop fuel l s = Ok (tt, s') ∧ bus_good (hw s') q' ∧ output (devs (hw s')) = output (devs (hw s)) ++ (u8 <$> l) ∧
    polled c slot s' ∧ horizon s' ≤ horizon s + Z.of_nat (length l) * char_time fuel.
Proof.
  intros G Hp Hf Hn. destruct (flush_run fuel c slot l s q G Hp Hf Hn) as (h & pc & q' & E & G' & Ho & Hp' & Hh). by exists (set_hw h pc s), q'.
Qed.

(** The buffer holds [DELAYBUFSIZE] characters; one more stops the kernel. *)
Theorem putch_delayed_full fuel ch s :
  the_console s = None → Z.of_nat (length (delayed_outbuf s)) = DELAYBUFSIZE → putch fuel ch s = Panic.
Proof.
  intros Hc Hl. unfold putch. erewrite bind_ok by reflexivity. rewrite Hc. unfold putch_delayed. erewrite bind_ok by reflexivity.
  rewrite Hl. done.
Qed.

(** ** The probe *)

(** What is in the slots, for good. *)
Definition kinds (k : nat → option (Z * Z * Z)) (_ : Z) (b : bus) (_ : list ev) : Prop := ∀ j, ldi <$> devices b !! j = k j.

#[export] Instance kinds_fact k : Fact (kinds k).
Proof.
  constructor.
  - done.
  - intros now b x q b' q' _ _ HQ (_ & Hk & _) _ j. by rewrite Hk.
  - intros now b q b' q' HQ (_ & Hk & _) j. by rewrite Hk.
Qed.

Lemma kinds_here h q : bus_good h q → good accepts (inv_with (kinds (fun j => ldi <$> devices (devs h) !! j))) h q.
Proof. intros G. by apply bus_good_with. Qed.

Lemma is_busctl d : ldi d = (1, 1, 1) → d = Busctl.
Proof. by destruct d. Qed.

(** The registers that say what is in a slot. *)
Definition id_reg (off : Z) (v : Z * Z * Z) : Z :=
  let '(vendor, dev, rev) := v in if off =? CFGREG_VID then vendor else if off =? CFGREG_DID then dev else rev.

Lemma cfg_read k slot off s q :
  good accepts (inv_with (kinds k)) (hw s) q → k 31%nat = Some (1, 1, 1) → (slot < 32)%nat → off ∈ [CFGREG_VID; CFGREG_DID; CFGREG_DRL] →
  horizon s + 1 < 2 ^ 62 →
  ∃ h q1, good accepts (inv_with (kinds k)) h q1 ∧ read_cfg_register (Z.of_nat slot) off s = Ok (id_reg off (default (0, 0, 0) (k slot)), set_hw h (tail (pace s)) s) ∧
    span h (tail (pace s)) = horizon s + 1.
Proof.
  intros G Hk Hs Hoff Hn. assert (off = 0 ∨ off = 4 ∨ off = 8) as Ho by (rewrite !elem_of_cons, elem_of_nil in Hoff; unfold CFGREG_VID, CFGREG_DID, CFGREG_DRL in Hoff; tauto).
  set (a := off + LB_CONFIG_SIZE * Z.of_nat slot). assert (0 ≤ a < 32768) as Hr by (unfold a, LB_CONFIG_SIZE; lia).
  assert (a / LAMEBUS_CONFIG_SIZE = Z.of_nat slot ∧ a `mod` LAMEBUS_CONFIG_SIZE = off) as [Ediv Emod].
  { unfold a, LB_CONFIG_SIZE, LAMEBUS_CONFIG_SIZE. rewrite (Z.mul_comm 1024), Z.div_add, Z.mod_add, Z.div_small, Z.mod_small by lia. lia. }
  assert (Z.land a 3 = 0) as Ha.
  { change 3 with (Z.ones 2). rewrite Z.land_ones by lia. unfold a, LB_CONFIG_SIZE. replace (off + 1024 * Z.of_nat slot) with (off + (256 * Z.of_nat slot) * 2 ^ 2) by lia.
    rewrite Z.mod_add by lia. by destruct Ho as [->|[->| ->]]. }
  unfold read_cfg_register. fold a. rewrite u32_small by lia. change LB_CONTROLLER_SLOT with (Z.of_nat 31).
  destruct (reg_read_run (kinds k) 31 a ltac:(lia) s q (fun _ => id_reg off (default (0, 0, 0) (k slot))) G Hn) as (h & q1 & G1 & E & _ & Hh & _); [|by exists h, q1].
  intros h q1 G1. destruct (gd_inv _ _ _ _ G1) as [_ HQ]. pose proof (HQ 31%nat) as H31. rewrite Hk in H31.
  destruct (devices (devs h) !! 31%nat) as [d|] eqn:Hd; [|done]. injection H31 as H31. apply is_busctl in H31 as ->.
  rewrite (fetch_at 31 a ltac:(lia) ltac:(lia) Ha h _ Hd). unfold lamebus_controller_fetch, lamebus_controller_doaddress.
  erewrite bind_ok.
  2: { rewrite Ha. change (oassert (0 =? 0)) with (Ok tt). cbn -[Z.div Z.modulo Z.leb a]. rewrite (proj2 (Z.leb_gt _ _)) by lia. rewrite Ediv, Emod.
    change LAMEBUS_NSLOTS with 32. rewrite (proj2 (Z.ltb_lt _ 32)) by lia. cbn -[Z.eqb].
    replace ((off =? LBC_OFFSET_VENDORID) || (off =? LBC_OFFSET_DEVICEID) || (off =? LBC_OFFSET_REVISION)) with true by (by destruct Ho as [->|[->| ->]]). reflexivity. }
  cbv beta iota. erewrite bind_ok by reflexivity. rewrite Nat2Z.id, (HQ slot). destruct (default (0, 0, 0) (k slot)) as [[vendor dev] rev].
  by destruct Ho as [->|[->| ->]].
Qed.

Lemma land_mask x slot : (slot < 32)%nat → (Z.land x (slot_mask slot) =? 0) = negb (Z.testbit x (Z.of_nat slot)).
Proof.
  intros Hs. change (slot_mask slot) with (irq_bit slot). rewrite irq_bit_pow by done. destruct (Z.testbit x (Z.of_nat slot)) eqn:E; cbn [negb].
  - apply Z.eqb_neq. intros Hz. apply (f_equal (fun z => Z.testbit z (Z.of_nat slot))) in Hz. by rewrite Z.land_spec, E, Z.pow2_bits_true, Z.testbit_0_l in Hz by lia.
  - apply Z.eqb_eq. apply Z.bits_inj'. intros i Hi. rewrite Z.land_spec, Z.testbit_0_l. destruct (decide (i = Z.of_nat slot)) as [->|]; [by rewrite E|].
    rewrite Z.pow2_bits_false by lia. apply andb_false_r.
Qed.

(** A slot that is not in use holds the device looked for. *)
Definition matches (k : nat → option (Z * Z * Z)) (used vendorid deviceid lowver highver : Z) (slot : nat) : bool :=
  let '(vendor, dev, rev) := default (0, 0, 0) (k slot) in
  negb (Z.testbit used (Z.of_nat slot)) && (vendor =? vendorid) && (dev =? deviceid) && (lowver <=? rev) && (rev <=? highver).

Section probe.
Context (k : nat → option (Z * Z * Z)) (Hk : k 31%nat = Some (1, 1, 1)) (vendorid deviceid lowver highver : Z).
Abbreviation found used l := (List.find (matches k used vendorid deviceid lowver highver) l).

Lemma probe_loop_run n slot s q :
  good accepts (inv_with (kinds k)) (hw s) q → (slot + n ≤ 32)%nat → horizon s + 3 * Z.of_nat n < 2 ^ 62 →
  ∃ h p q', probe_loop n slot vendorid deviceid lowver highver s = Ok (found (ls_slotsinuse (lamebus s)) (seq slot n), set_hw h p s) ∧
    good accepts (inv_with (kinds k)) h q' ∧ span h p ≤ horizon s + 3 * Z.of_nat n.
Proof.
  revert slot s q. induction n as [|n IH]; intros slot s q G Hs Hn; cbn [probe_loop seq].
  { exists (hw s), (pace s), q. split_and!; [by destruct s|done|lia]. }
  erewrite bind_ok by reflexivity. rewrite land_mask by lia. rewrite negb_involutive. cbn [List.find]. unfold matches at 1.
  assert (∀ h p q', good accepts (inv_with (kinds k)) h q' → span h p ≤ horizon s + 3 →
    ∃ h2 p2 q2, probe_loop n (S slot) vendorid deviceid lowver highver (set_hw h p s) = Ok (found (ls_slotsinuse (lamebus s)) (seq (S slot) n), set_hw h2 p2 s) ∧
      good accepts (inv_with (kinds k)) h2 q2 ∧ span h2 p2 ≤ horizon s + 3 * Z.of_nat (S n)) as Hnext.
  { intros h p q' G' Hh. destruct (IH (S slot) (set_hw h p s) q' G') as (h2 & p2 & q2 & E2 & G2 & Hh2); cbn [hw pace set_hw] in *; [lia..|].
    exists h2, p2, q2. split_and!; [exact E2|done|lia]. }
  destruct (default (0, 0, 0) (k slot)) as [[vendor dev] rev] eqn:Ev. destruct (Z.testbit _ _) eqn:Eu; cbn [negb andb].
  { destruct (Hnext (hw s) (pace s) q G) as (h2 & p2 & q2 & E2 & H2); [lia|]. exists h2, p2, q2. rewrite <- E2. by destruct s. }
  destruct (cfg_read k slot CFGREG_VID s q G Hk) as (h1 & q1 & G1 & E1 & Hh1); [lia|set_solver|lia|]. rewrite Ev in E1. cbn [id_reg] in E1.
  rewrite (bind_ok _ _ _ _ _ E1). change (CFGREG_VID =? CFGREG_VID) with true. cbv iota. destruct (vendor =? vendorid); cbn [negb andb].
  2: { apply (Hnext h1 (tail (pace s)) q1); [done|lia]. }
  destruct (cfg_read k slot CFGREG_DID (set_hw h1 (tail (pace s)) s) q1 G1 Hk) as (h2 & q2 & G2 & E2 & Hh2); cbn [hw pace set_hw] in *; [lia|set_solver|lia|].
  rewrite Ev in E2. rewrite (bind_ok _ _ _ _ _ E2). change (id_reg CFGREG_DID (vendor, dev, rev)) with dev. destruct (dev =? deviceid); cbn [negb andb].
  2: { apply (Hnext h2 (tail (tail (pace s))) q2); [done|lia]. }
  destruct (cfg_read k slot CFGREG_DRL (set_hw h2 (tail (tail (pace s))) s) q2 G2 Hk) as (h3 & q3 & G3 & E3 & Hh3); cbn [hw pace set_hw] in *; [lia|set_solver|lia|].
  rewrite Ev in E3. rewrite (bind_ok _ _ _ _ _ E3). change (id_reg CFGREG_DRL (vendor, dev, rev)) with rev.
  rewrite (Z.ltb_antisym lowver rev), (Z.ltb_antisym rev highver), <- negb_andb. destruct (_ && _) eqn:Em; cbn [negb].
  - exists h3, (tail (tail (tail (pace s)))), q3. split_and!; [done|done|lia].
  - apply (Hnext h3 (tail (tail (tail (pace s)))) q3); [done|lia].
Qed.
End probe.

(** C19: The probe finds the first slot, of those not in use, with the device looked for, whatever else goes on on the bus. *)
Theorem lamebus_probe_finds vendorid deviceid lowver highver s q :
  bus_good (hw s) q → devices (devs (hw s)) !! 31%nat = Some Busctl → horizon s + 96 < 2 ^ 62 →
  ∃ h p q', bus_good h q' ∧ lamebus_probe vendorid deviceid lowver highver s =
    Ok (List.find (matches (fun j => ldi <$> devices (devs (hw s)) !! j) (ls_slotsinuse (lamebus s)) vendorid deviceid lowver highver) (seq 0 32), set_hw h p s).
Proof.
  intros G Hc Hn. set (s0 := set_spl SPL_HIGH (in_interrupt s) s).
  destruct (probe_loop_run (fun j => (ldi <$> devices (devs (hw s)) !! j : option _)) (f_equal (fmap (M:=option) ldi) Hc) vendorid deviceid lowver highver 32 0 s0 q) as (h & p & q' & E & G' & _);
    [by apply (kinds_here (hw s))|lia|cbn [hw pace s0 set_spl]; lia|].
  exists h, p, q'. split; [by eapply good_bus_good|]. unfold lamebus_probe. erewrite bind_ok by reflexivity. fold s0. change (Z.to_nat LB_NSLOTS) with 32%nat.
  rewrite (bind_ok _ _ _ _ _ E). by destruct s.
Qed.

(** ** The time of day *)
Definition sec_of (t : Z) : Z := t / 1000000000.
Definition nsec_of (t : Z) : Z := t `mod` 1000000000.

Lemma time_split h q Q : good accepts (inv_with Q) h q → now_secs h = sec_of (time h) ∧ now_nsecs h = nsec_of (time h).
Proof.
  intros G. pose proof (gd_nsecs _ _ _ _ G). unfold sec_of, nsec_of, time. rewrite (Z.add_comm (now_secs h * _)), Z.div_add, Z.div_small by lia.
  rewrite Z.mod_add, Z.mod_small by lia. lia.
Qed.

Lemma timer_kind k h q slot : good accepts (inv_with (kinds k)) h q → k slot = Some (1, 2, 1) → ∃ td, devices (devs h) !! slot = Some (Timer td).
Proof.
  intros G Hk. destruct (gd_inv _ _ _ _ G) as [_ HQ]. specialize (HQ slot). rewrite Hk in HQ. destruct (devices (devs h) !! slot) as [d|]; [|done].
  injection HQ as HQ. destruct (is_timer _ HQ) as [td ->]. by exists td.
Qed.

(** The clocks that the next access takes. *)
Definition takes (p : list (list bool)) : Z := NSECS_PER_CLOCK * Z.of_nat (S (length (default [] (head p)))).

Lemma rtc_read k slot off s q :
  good accepts (inv_with (kinds k)) (hw s) q → k slot = Some (1, 2, 1) → (slot < 32)%nat → off ∈ [LT_REG_SEC; LT_REG_NSEC] → horizon s + 1 < 2 ^ 62 →
  ∃ h q1, good accepts (inv_with (kinds k)) h q1 ∧
    lamebus_read_register (Z.of_nat slot) off s = Ok (if off =? LT_REG_SEC then sec_of (time h) else nsec_of (time h), set_hw h (tail (pace s)) s) ∧
    span h (tail (pace s)) = horizon s + 1 ∧ time h = (time (hw s) + takes (pace s)) `mod` SPAN.
Proof.
  intros G Hk Hs Hoff Hn. assert (off = 0 ∨ off = 4) as Ho by (rewrite !elem_of_cons, elem_of_nil in Hoff; unfold LT_REG_SEC, LT_REG_NSEC in Hoff; tauto).
  destruct (reg_read_run (kinds k) slot off Hs s q (fun h => if off =? LT_REG_SEC then sec_of (time h) else nsec_of (time h)) G Hn) as (h & q1 & G1 & E & _ & Hh & Ht);
    [|by exists h, q1].
  intros h q1 G1. destruct (timer_kind _ _ _ _ G1 Hk) as [td Hd]. rewrite (fetch_at slot off Hs ltac:(lia) ltac:(by destruct Ho as [->| ->]) h _ Hd).
  destruct (time_split _ _ _ G1) as [<- <-]. unfold timer_fetch. rewrite (bind_ok _ _ _ _ _ (get_timer_run _ _ _ Hd)). by destruct Ho as [->| ->].
Qed.

(** The seconds around the nanoseconds [n] of [t]. *)
Lemma seconds_right t d2 d3 :
  0 ≤ t < SPAN → 0 ≤ d2 ≤ 5000000 → 0 ≤ d3 < 995000000 → 
  (if nsec_of t <? 5000000 then sec_of ((t + d3) `mod` SPAN) else sec_of ((t - d2) `mod` SPAN)) = sec_of t.
Proof.
  intros Ht H2 H3. unfold sec_of, nsec_of in *. pose proof (Z.div_mod t 1000000000 ltac:(lia)) as Hdm. pose proof (Z.mod_pos_bound t 1000000000 ltac:(lia)).
  assert (0 ≤ t / 1000000000 < 2 ^ 32) by (split; [apply Z.div_pos|apply Z.div_lt_upper_bound]; lia).
  destruct (Z.ltb_spec (t `mod` 1000000000) 5000000); symmetry.
  - rewrite (Z.mod_small (t + d3)) by lia. apply (Z.div_unique _ _ _ (t `mod` 1000000000 + d3)); lia.
  - rewrite (Z.mod_small (t - d2)) by lia. apply (Z.div_unique _ _ _ (t `mod` 1000000000 - d2)); lia.
Qed.

(** C18: The time of day is read as it was when the nanoseconds were read, even if the second turns over meanwhile, as long as the
    accesses are no more than 5 ms apart.  Seconds are those of the register as a [time_t], negative from 2^31 on. *)
Theorem gettime_consistent p slot lt s q :
  bus_good (hw s) q → the_clock s = Some p → ltimers s !! p = Some lt → lt_buspos lt = Z.of_nat slot →
  ldi <$> devices (devs (hw s)) !! slot = Some (1, 2, 1) → takes (tail (pace s)) ≤ 5000000 → takes (tail (tail (pace s))) < 995000000 → horizon s + 3 < 2 ^ 62 →
  let t := (time (hw s) + takes (pace s) + takes (tail (pace s))) `mod` SPAN in
  ∃ h pc q', bus_good h q' ∧ gettime s = Ok ((i32 (sec_of t), nsec_of t), set_hw h pc s).
Proof.
  intros G Hc Hp Ep Hk H2 H3 Hn t. assert ((slot < 32)%nat) as Hs.
  { destruct (devices (devs (hw s)) !! slot) as [d|] eqn:Hd; [|done]. destruct (gd_inv _ _ _ _ G) as [B _]. by apply (bi_slots _ _ _ B _ _ Hd). }
  set (k := fun j => (ldi <$> devices (devs (hw s)) !! j : option _)). assert (k slot = Some (1, 2, 1)) as Hks by done.
  destruct (rtc_read k slot LT_REG_SEC s q (kinds_here _ _ G) Hks Hs) as (h1 & q1 & G1 & E1 & Hh1 & T1); [set_solver|lia|].
  destruct (rtc_read k slot LT_REG_NSEC (set_hw h1 (tail (pace s)) s) q1 G1 Hks Hs) as (h2 & q2 & G2 & E2 & Hh2 & T2); [set_solver|cbn [hw pace set_hw]; lia|].
  cbn [hw pace set_hw] in *.
  destruct (rtc_read k slot LT_REG_SEC (set_hw h2 (tail (tail (pace s))) s) q2 G2 Hks Hs) as (h3 & q3 & G3 & E3 & Hh3 & T3); [set_solver|cbn [hw pace set_hw]; lia|].
  cbn [hw pace set_hw] in *. exists h3, (tail (tail (tail (pace s)))), q3. split; [by eapply good_bus_good|].
  assert (time h2 = t) as Et by (unfold t; rewrite T2, T1, Z.add_mod_idemp_l by lia; done).
  assert (time h1 = (t - takes (tail (pace s))) `mod` SPAN) as Et1.
  { rewrite <- Et, T2, Zminus_mod_idemp_l, Z.add_simpl_r, Z.mod_small; [done|]. rewrite T1. apply Z.mod_pos_bound. lia. }
  unfold gettime. erewrite bind_ok by reflexivity. rewrite Hc. unfold ltimer_gettime. erewrite bind_ok by (unfold get_ltimer; rewrite Hp; reflexivity).
  rewrite Ep, (bind_ok _ _ _ _ _ E1), (bind_ok _ _ _ _ _ E2), (bind_ok _ _ _ _ _ E3).
  change (LT_REG_SEC =? LT_REG_SEC) with true. change (LT_REG_NSEC =? LT_REG_SEC) with false. cbv iota. rewrite T3, Et, Et1.
  rewrite seconds_right; [done|apply Z.mod_pos_bound; lia|unfold takes, NSECS_PER_CLOCK in *; lia|unfold takes, NSECS_PER_CLOCK in *; lia].
Qed.

(** ** The timer *)

(** A timer with no event, and room for one. *)
Definition still (slot : nat) (td : timer_data) (_ : Z) (b : bus) (q : list ev) : Prop :=
  devices b !! slot = Some (Timer td) ∧ own slot q = [] ∧ (S (crowd b q) < MAXACTIONS)%nat.

Lemma own_nil slot q q' : own slot q ≡ₚ own slot q' → own slot q = [] → own slot q' = [].
Proof. intros Hp E. rewrite E in Hp. by apply Permutation_nil_l in Hp. Qed.

#[export] Instance still_fact slot td : Fact (still slot td).
Proof.
  constructor.
  - done.
  - intros now b x q b' q' _ _ (Hd & Ho & Hc) (_ & _ & Hc' & Hef) _. specialize (Hef slot _ Hd). destruct (decide (dev_ev slot x)) as [Hx|Hx].
    + unfold own in Ho. by rewrite filter_cons_True in Ho.
    + destruct Hef as (Ed & _ & Hown). unfold own in Ho. rewrite filter_cons_False in Ho by done. split_and!; [by rewrite Ed|by eapply own_nil|lia].
  - intros now b q b' q' (Hd & Ho & Hc) (_ & _ & Hc' & Hty). destruct (Hty slot _ Hd) as (Ed & _ & Hown). split_and!; [by rewrite Ed|by eapply own_nil|lia].
Qed.

(** A timer that goes off again and again, every [c] microseconds or up to as much later: its next event, and its line up from [T] on. *)
Definition ticking (slot : nat) (c T : Z) (now : Z) (b : bus) (q : list ev) : Prop :=
  ∃ td e, devices b !! slot = Some (Timer td) ∧ td_restartflag td ≠ 0 ∧ td_count_usecs td = c ∧
    e ∈ q ∧ is_ev slot Timer_interrupt e ∧ ev_code e = td_generation td ∧ ev_at e ≤ now + 50 * c ∧
    (Z.testbit (interrupts b) (Z.of_nat slot) = true ∨ ev_at e ≤ T).

Lemma ticking_quiet slot c T now b q b' q' : ticking slot c T now b q → quiet slot b q b' q' → ticking slot c T now b' q'.
Proof.
  intros (td & e & Hd & Hr & Hc & He & Hi & Hg & Hat & Hl) (Ed & Hb & Hown). exists td, e. rewrite Ed. split_and!; try done.
  - apply (own_elem slot q q'); [done|by eapply is_dev_ev|done].
  - destruct Hl; auto.
Qed.

#[export] Instance ticking_fact slot c T : Fact (ticking slot c T).
Proof.
  constructor.
  - intros now now' b q (td & e & Hd & Hr & Hc & He & Hi & Hg & Hat & Hl) Hn. exists td, e. split_and!; try done. lia.
  - intros now b x q b' q' _ _ HQ (_ & _ & _ & Hef) _. pose proof HQ as (td & e & Hd & Hr & Hc & He & Hi & Hg & Hat & Hl). specialize (Hef slot _ Hd).
    destruct (decide (dev_ev slot x)) as [Hx|Hx].
    + destruct Hef as (td' & Hd' & Hst & Hl'). unfold timer_step in Hst. destruct (decide _) as [[Hgx _]|Hno].
      * destruct Hst as (-> & e' & -> & De & Fe & Ce & Hat'). eexists _, e'. split; [done|]. split_and!; try done; [apply elem_of_insert_ev; by left|cbn in *; lia|].
        left. rewrite Hl', bool_decide_true by done. apply orb_true_r.
      * destruct Hst as [-> ->]. exists td, e. apply elem_of_cons in He as [->|He]; [by destruct Hno|]. split_and!; try done.
        destruct Hl as [Hl|]; [left; by rewrite Hl', Hl|by right].
    + apply (ticking_quiet slot c T now b q); [|done]. exists td, e. apply elem_of_cons in He as [->|He]; [by destruct Hx; eapply is_dev_ev|]. split_and!; done.
  - intros now b q b' q' HQ (_ & _ & _ & Hty). pose proof HQ as (td & _ & Hd & _). eapply ticking_quiet; [done|]. exact (Hty slot _ Hd).
Qed.

(** Once the time has come the line is up. *)
Lemma ticking_due slot c T h q : good accepts (inv_with (ticking slot c T)) h q → T < now_clocks h → Z.testbit (interrupts (devs h)) (Z.of_nat slot) = true.
Proof.
  intros G HT. destruct (gd_inv _ _ _ _ G) as [_ (td & e & Hd & _ & _ & He & _ & _ & _ & [Hl|Hat])]; [done|].
  pose proof (gd_due _ _ _ _ G) as Hdue. rewrite list.Forall_forall in Hdue. specialize (Hdue e He). lia.
Qed.

(** The clock after an access. *)
Lemma span_tail h h0 p : span h (tail p) = span h0 p + 1 → now_clocks h = now_clocks h0 + 1 + Z.of_nat (length (default [] (head p))).
Proof. unfold span. destruct p; cbn; lia. Qed.

Lemma queue_unique (h : st) q1 q2 : queue h q1 → queue h q2 → q1 = q2.
Proof. intros H1 H2. by rewrite <- (events_queue _ _ H1), <- (events_queue _ _ H2). Qed.

Section timer.
Context (slot : nat) (Hs : (slot < 32)%nat).

(** The line is read and lowered. *)
Lemma irq_read c T s q :
  good accepts (inv_with (ticking slot c T)) (hw s) q → 0 ≤ c → horizon s + 1 < 2 ^ 62 →
  T ≤ now_clocks (hw s) + Z.of_nat (length (default [] (head (pace s)))) →
  ∃ h q', lamebus_read_register (Z.of_nat slot) LT_REG_IRQ s = Ok (1, set_hw h (tail (pace s)) s) ∧
    good accepts (inv_with (ticking slot c (now_clocks h + 50 * c))) h q' ∧ span h (tail (pace s)) = horizon s + 1.
Proof.
  intros G Hc Hn HT. destruct (elapse_run (ticking slot c T) s q G Hn) as (h & q1 & E & G1 & Hlt & Hh & _). pose proof (span_tail _ _ _ Hh) as Enow.
  pose proof (ticking_due _ _ _ _ _ G1 ltac:(lia)) as Hline. destruct (gd_inv _ _ _ _ G1) as [B1 (td & e & Hd & Hr & Ec & He & Hi & Hg & Hat & _)].
  set (h' := set_devs (set_interrupts (lower_irq slot (interrupts (devs h))) (devs h)) h).
  assert (bus_io_fetch (reg slot LT_REG_IRQ) h = Ok (Some 1, h')) as Ef.
  { rewrite (fetch_at slot LT_REG_IRQ Hs ltac:(done) ltac:(done) h _ Hd). unfold timer_fetch. rewrite (bind_ok _ _ _ _ _ (get_timer_run _ _ _ Hd)).
    change (LT_REG_IRQ =? TREG_TSEC) with false. change (LT_REG_IRQ =? TREG_TNSEC) with false. change (LT_REG_IRQ =? TREG_REST) with false. change (LT_REG_IRQ =? TREG_IRQ) with true.
    cbv iota. erewrite bind_ok by reflexivity. change (irq_bit slot) with (slot_mask slot). rewrite land_mask by done. rewrite Hline. done. }
  assert (bus_good h' q1) as G'.
  { pose proof (fetch_run (reg slot LT_REG_IRQ) h q1) as R. rewrite (reg_slot slot LT_REG_IRQ Hs ltac:(done)) in R.
    destruct (access_fine (fun _ _ _ => True) (fun _ => True) ltac:(done) slot h q1 (bus_io_fetch (reg slot LT_REG_IRQ)) (good_bus_good _ _ _ G1)) as (r & h2 & q2 & E2 & G2 & _).
    - pose proof (gd_now _ _ _ _ G1). pose proof (gd_nsecs _ _ _ _ G1). assert (now_clocks h < 2 ^ 62) by (unfold span in *; lia).
      apply R; try done; [apply G1|apply reg_pos; done|by apply reg_aligned].
    - done.
    - rewrite Ef in E2. injection E2 as <- <-. rewrite (queue_unique h' q1 q2); [done|by apply (queue_lists h); [..|apply G1]|apply G2]. }
  exists h', q1. split_and!; [| |done].
  - unfold lamebus_read_register. rewrite (bind_ok _ _ _ _ _ (map_area_run slot LT_REG_IRQ Hs s)), (bind_ok _ _ _ _ _ E).
    erewrite bind_ok; [|unfold on_hw; cbn [hw set_hw]; rewrite Ef; reflexivity]. done.
  - apply bus_good_with; [done|]. exists td, e. split_and!; try done. by right.
Qed.

Lemma roe_run td s q :
  good accepts (inv_with (still slot td)) (hw s) q → horizon s + 1 < 2 ^ 62 →
  ∃ h q', lamebus_write_register (Z.of_nat slot) LT_REG_ROE 1 s = Ok (tt, set_hw h (tail (pace s)) s) ∧
    good accepts (inv_with (still slot (mktimer 1 (td_count_usecs td) (td_generation td)))) h q' ∧ span h (tail (pace s)) = horizon s + 1.
Proof.
  intros G Hn. set (td' := mktimer 1 _ _). assert (∀ h q1, good accepts (inv_with (still slot td)) h q1 → bus_io_store (reg slot LT_REG_ROE) (u32 1) h = Ok (true, upd slot (Timer td') h)) as Est.
  { intros h q1 G1. destruct (gd_inv _ _ _ _ G1) as [_ (Hd & _)]. rewrite (store_at slot LT_REG_ROE Hs ltac:(done) ltac:(done) h _ _ Hd). unfold timer_store.
    by rewrite (bind_ok _ _ _ _ _ (get_timer_run _ _ _ Hd)). }
  destruct (reg_write_run (still slot td) slot LT_REG_ROE Hs ltac:(done) ltac:(done) s q 1 G Hn) as (h & q1 & h' & q' & G1 & Es & G' & E & _ & _ & Hh).
  - intros h q1 G1 _. exists (Timer td). destruct (gd_inv _ _ _ _ G1) as [_ (Hd & Hown & _)]. split; [done|]. split; [|by eexists; eapply Est].
    unfold mild_store. rewrite (reg_slot slot LT_REG_ROE Hs ltac:(done)), (reg_mod slot LT_REG_ROE Hs ltac:(done)), Hd, (events_queue _ _ (gd_queue _ _ _ _ G1)).
    split; [done|]. split; [|done]. intros _ _. right. intros e He Hde. assert (e ∈ own slot q1) as Hin by (by apply elem_own). rewrite Hown in Hin. by apply not_elem_of_nil in Hin.
  - exists h', q'. split_and!; try done. rewrite (Est h q1 G1) in Es. injection Es as <-. destruct (gd_inv _ _ _ _ G1) as [_ (Hd & Hown & Hcr)].
    assert (q' = q1) as -> by (apply (queue_unique (upd slot (Timer td') h)); [apply G'|apply (pending_upd None), G1]). apply bus_good_with; [done|].
    split_and!; [apply upd_lookup|done|]. unfold crowd in *. pose proof (reserve_insert _ slot (Timer td) (Timer td') Hd) as Hri. cbn in *. lia.
Qed.

Lemma count_run td val s q :
  good accepts (inv_with (still slot td)) (hw s) q → td_restartflag td ≠ 0 → 0 < val < 2 ^ 32 → horizon s + 1 < 2 ^ 62 →
  ∃ h q', lamebus_write_register (Z.of_nat slot) LT_REG_COUNT val s = Ok (tt, set_hw h (tail (pace s)) s) ∧
    good accepts (inv_with (ticking slot val (now_clocks h + 50 * val))) h q' ∧ span h (tail (pace s)) = horizon s + 1.
Proof.
  intros G Hr Hv Hn. assert (u32 val = val) as Eu by (apply u32_small; lia).
  assert (∀ h q1, good accepts (inv_with (still slot td)) h q1 → now_clocks h < 2 ^ 62 →
    ∃ h' e, bus_io_store (reg slot LT_REG_COUNT) (u32 val) h = Ok (true, h') ∧ queue h' (insert_ev e q1) ∧ now_clocks h' = now_clocks h ∧
      devices (devs h') !! slot = Some (Timer (mktimer (td_restartflag td) (u32 val) (u32 (td_generation td + 1)))) ∧
      is_ev slot Timer_interrupt e ∧ ev_code e = u32 (td_generation td + 1) ∧ ev_at e ≤ now_clocks h + u32 val * 50) as Est.
  { intros h q1 G1 Hh1. destruct (gd_inv _ _ _ _ G1) as [B1 (Hd & _ & Hcr)]. pose proof (gd_now _ _ _ _ G1). pose proof (gd_nsecs _ _ _ _ G1).
    set (td1 := mktimer (td_restartflag td) (u32 val) (td_generation td)).
    destruct (timer_start_run None slot Hs (upd slot (Timer td1) h) q1 td1) as (h' & e & Es & Cm & Q' & Ed & De & Fe & Ce & Hat);
      [apply (pending_upd None), G1|cbn; unfold crowd in Hcr; lia|done|apply upd_lookup|cbn; lia|].
    exists h', e. split_and!; try done; [|by rewrite (calm_clocks _ _ Cm)|by rewrite Ed; apply upd_lookup|by apply Hat].
    rewrite (store_at slot LT_REG_COUNT Hs ltac:(done) ltac:(done) h _ _ Hd). unfold timer_store. rewrite (bind_ok _ _ _ _ _ (get_timer_run _ _ _ Hd)).
    change (LT_REG_COUNT =? TREG_TSEC) with false. change (LT_REG_COUNT =? TREG_TNSEC) with false. change (LT_REG_COUNT =? TREG_REST) with false. change (LT_REG_COUNT =? TREG_TIME) with true.
    cbv iota. rewrite (bind_ok _ _ _ _ _ (put_run _ _ _)), (bind_ok _ _ _ _ _ Es). done. }
  destruct (reg_write_run (still slot td) slot LT_REG_COUNT Hs ltac:(done) ltac:(done) s q val G Hn) as (h & q1 & h' & q' & G1 & Es & G' & E & [_ Hc] & _ & Hh).
  - intros h q1 G1 Hh1. exists (Timer td). destruct (gd_inv _ _ _ _ G1) as [_ (Hd & Hown & Hcr)]. split; [done|]. split.
    + unfold mild_store. rewrite (reg_slot slot LT_REG_COUNT Hs ltac:(done)), (reg_mod slot LT_REG_COUNT Hs ltac:(done)), Hd.
      split; [done|]. split; [done|]. intros _. split; [|intros; lia]. unfold uncrowded. by rewrite (events_queue _ _ (gd_queue _ _ _ _ G1)).
    + destruct (Est h q1 G1 Hh1) as (h' & e & E & _). by exists h'.
  - destruct (Est h q1 G1 Hc) as (h2 & e & E2 & Q2 & Ec & Hd2 & Hi & Hg & Hat). rewrite Es in E2. injection E2 as <-. exists h', q'. split_and!; try done.
    assert (q' = insert_ev e q1) as -> by (apply (queue_unique h'); [apply G'|done]). apply bus_good_with; [done|]. eexists _, e. split; [exact Hd2|]. cbn [td_restartflag td_count_usecs td_generation].
    split_and!; try done; [apply elem_of_insert_ev; by left|lia|right; lia].
Qed.

End timer.

(** [n] interrupts of the timer. *)
Fixpoint irqs (n p : nat) : D unit :=
  match n with
  | O => mret tt
  | S n' => let* _ := ltimer_irq p in irqs n' p
  end.

Lemma irqs_run slot c n p s q :
  (slot < 32)%nat → good accepts (inv_with (ticking slot c (now_clocks (hw s) + 50 * c))) (hw s) q → 0 ≤ c → ltimers s !! p = Some (mklt true (Z.of_nat slot)) →
  (n ≤ length (pace s))%nat → Forall (fun l => 50 * c ≤ Z.of_nat (length l)) (take n (pace s)) → horizon s + Z.of_nat n < 2 ^ 62 →
  ∃ s', irqs n p s = Ok (tt, s') ∧ hardclocks s' = (hardclocks s + n)%nat.
Proof.
  intros Hs. revert s q. induction n as [|n IH]; intros s q G Hc Hp Hlen Hl Hn; cbn [irqs].
  { exists s. by rewrite Nat.add_0_r. }
  destruct (pace s) as [|l pc] eqn:Epc; [cbn in Hlen; lia|]. cbn [take] in Hl. apply Forall_cons in Hl as [Hl0 Hl].
  destruct (irq_read slot Hs c _ s q G Hc) as (h & q' & E & G' & Hh); [rewrite Epc; lia|rewrite Epc; cbn; lia|]. rewrite Epc in E, Hh. cbn [tail] in *.
  set (s1 := set_hardclocks (S (hardclocks s)) (set_hw h pc s)).
  destruct (IH s1 q' G' Hc Hp) as (s' & E' & Eh); cbn [s1 set_hardclocks set_hw pace hw length] in *; [lia|done|lia|]. exists s'. split; [|cbn in Eh; lia].
  erewrite bind_ok; [exact E'|]. unfold ltimer_irq. erewrite bind_ok by (unfold get_ltimer; rewrite Hp; reflexivity). cbn [lt_buspos]. rewrite (bind_ok _ _ _ _ _ E). done.
Qed.

(** Two times the period of the timer, in clocks: the simulator may delay it by as much again. *)
Definition tick_time : Z := 50 * (LT_GRANULARITY / HZ).

(** C17: The timer drives [hardclock] for ever: once configured it interrupts again and again, and each time the handler, reading the register
    no earlier than [tick_time] after the last time, finds the interrupt and counts. *)
Theorem hardclock_forever n p slot lt td s q :
  bus_good (hw s) q → devices (devs (hw s)) !! slot = Some (Timer td) → own slot q = [] → (S (crowd (devs (hw s)) q) < MAXACTIONS)%nat →
  haveclock s = false → ltimers s !! p = Some lt → lt_buspos lt = Z.of_nat slot → (2 + n ≤ length (pace s))%nat →
  Forall (fun l => tick_time ≤ Z.of_nat (length l)) (take n (drop 2 (pace s))) → horizon s + Z.of_nat (2 + n) < 2 ^ 62 →
  ∃ s', (let* _ := config_ltimer p in irqs n p) s = Ok (tt, s') ∧ hardclocks s' = (hardclocks s + n)%nat.
Proof.
  intros G Hd Hown Hcr Hh Hp Ep Hlen Hl Hn. assert ((slot < 32)%nat) as Hs by (destruct (gd_inv _ _ _ _ G) as [B _]; by apply (bi_slots _ _ _ B _ _ Hd)).
  destruct (pace s) as [|l0 [|l1 pc]] eqn:Epc; [cbn in Hlen; lia..|]. cbn [drop length] in *. unfold span in Hn. cbn [sum_list_with] in Hn.
  set (s0 := set_softcs (lsers s) (<[p := mklt true (lt_buspos lt)]> (ltimers s)) (cons s) (set_globals true (the_clock s) (the_console s) (delayed_outbuf s) s)).
  destruct (roe_run slot Hs td s0 q) as (h1 & q1 & E1 & G1 & Hh1); [by apply bus_good_with|unfold span; cbn [s0 set_softcs set_globals hw pace]; rewrite Epc; cbn [sum_list_with]; lia|].
  cbn [s0 set_softcs set_globals hw pace] in *. rewrite Epc in E1, Hh1. cbn [tail] in *.
  destruct (count_run slot Hs _ (LT_GRANULARITY / HZ) (set_hw h1 (l1 :: pc) s0) q1 G1) as (h2 & q2 & E2 & G2 & Hh2); [done|done|unfold span in *; cbn in *; lia|].
  cbn [set_hw hw pace tail] in *.
  destruct (irqs_run slot (LT_GRANULARITY / HZ) n p (set_hw h2 pc s0) q2 Hs G2) as (s' & E' & Eh); [done| |cbn; lia|done|unfold span in *; cbn in *; lia|].
  { cbn [set_hw ltimers s0 set_softcs]. by rewrite lookup_insert_eq, Ep. }
  exists s'. split; [|done]. erewrite bind_ok; [exact E'|]. unfold config_ltimer. erewrite bind_ok by (unfold get_ltimer; rewrite Hp; reflexivity).
  erewrite bind_ok by reflexivity. rewrite Hh. cbn [negb]. erewrite bind_ok by reflexivity. erewrite bind_ok by reflexivity.
  match goal with |- _ ?x = _ => change x with s0 end. rewrite Ep, (bind_ok _ _ _ _ _ E1), (bind_ok _ _ _ _ _ E2). done.
Qed.

(** ** Keys and strays *)

Lemma con_V_run n s : 0 < i32 (n + 1) → V n s = Ok (i32 (n + 1), s).
Proof.
  intros Hp. unfold V. erewrite bind_ok by reflexivity. cbv zeta. rewrite (proj2 (Z.ltb_lt _ _) Hp). by destruct s.
Qed.

Definition with_con (c : nat) (x : con_softc) (s : kern) : kern := set_softcs (lsers s) (ltimers s) (<[c := x]> (cons s)) s.

Lemma con_input_run c x ch s :
  cons s !! c = Some x → 0 < i32 (cs_rsem x + 1) →
  con_input c ch s = Ok (tt, with_con c (mkcon (cs_devdata x) (i32 (cs_rsem x + 1)) (cs_wsem x) (i32 ch)) s).
Proof.
  intros Hx Hp. unfold con_input. erewrite bind_ok by (unfold get_con; rewrite Hx; reflexivity). erewrite bind_ok by reflexivity.
  rewrite (bind_ok _ _ _ _ _ (con_V_run _ _ Hp)). unfold put_con, modify, with_con, set_softcs. cbn. by rewrite insert_insert_eq.
Qed.

(** A key cannot be waited for at a raised level: a read of the console stops the kernel when it comes from [sys_read], which goes to splhigh first. *)
Theorem getch_needs_spl0 fuel s : in_interrupt s = true ∨ curspl s ≠ 0 → getch fuel s = Panic.
Proof.
  intros Hs. unfold getch. erewrite bind_ok by reflexivity. destruct (the_console s); [|done]. do 2 erewrite bind_ok by reflexivity.
  assert (negb (in_interrupt s) && (curspl s =? 0) = false) as ->; [|done].
  apply andb_false_iff. rewrite negb_false_iff, Z.eqb_neq. tauto.
Qed.

(** A key that is there is read without waiting. *)
Lemma getch_run fuel c x s :
  the_console s = Some c → in_interrupt s = false → curspl s = 0 → cons s !! c = Some x → 0 < cs_rsem x →
  getch fuel s = Ok (cs_gotchar x, with_con c (mkcon (cs_devdata x) (cs_rsem x - 1) (cs_wsem x) (cs_gotchar x)) s).
Proof.
  intros H1 H2 H3 H4 H5. unfold getch. erewrite bind_ok by reflexivity. rewrite H1. erewrite bind_ok by reflexivity. erewrite bind_ok by reflexivity.
  rewrite H2, H3. erewrite bind_ok by reflexivity. unfold getch_intr. erewrite bind_ok.
  2: { unfold P_enter. erewrite bind_ok by reflexivity. rewrite H2. erewrite bind_ok by reflexivity. erewrite bind_ok by reflexivity.
    erewrite bind_ok; [reflexivity|]. destruct fuel; cbn [P_loop]; (erewrite bind_ok by (unfold get_con; cbn [set_spl cons]; rewrite H4; reflexivity));
      by rewrite (proj2 (Z.eqb_neq _ _)) by lia. }
  erewrite bind_ok by (unfold get_con; cbn [set_spl cons]; rewrite H4; reflexivity).
  rewrite (proj2 (Z.ltb_lt _ _) H5). erewrite bind_ok by reflexivity. erewrite bind_ok by reflexivity. erewrite bind_ok by reflexivity.
  erewrite bind_ok by (unfold get_con; cbn; rewrite lookup_insert_eq; reflexivity). unfold with_con. destruct s. cbn in *. by subst.
Qed.

(** Of two keys that come before the first is read, the second is delivered twice. *)
Theorem fast_keys_doubled fuel c x a b s :
  the_console s = Some c → in_interrupt s = false → curspl s = 0 → cons s !! c = Some x → cs_rsem x = 0 →
  ∃ s', (let* _ := con_input c a in let* _ := con_input c b in let* k1 := getch fuel in let* k2 := getch fuel in mret (k1, k2)) s = Ok ((i32 b, i32 b), s').
Proof.
  intros Hc Hi Hl Hx Hr. eexists. rewrite (bind_ok _ _ _ _ _ (con_input_run c x a s Hx ltac:(by rewrite Hr))), Hr.
  erewrite bind_ok by (apply con_input_run; [apply lookup_insert_eq|done]).
  erewrite bind_ok by (apply getch_run; [done|done|done|apply lookup_insert_eq|done]).
  erewrite bind_ok by (apply getch_run; [done|done|done|apply lookup_insert_eq|done]). reflexivity.
Qed.

(** An interrupt with no line up returns at once, however many there have been. *)
Theorem stray_never_panics s s1 :
  0 < curspl s → read_ctl_register CTLREG_IRQS s = Ok (0, s1) → lamebus_interrupt s = Ok (tt, set_lamebus (lamebus s1) (i32 (duds s1 + 1)) s1).
Proof.
  intros Hl E. unfold lamebus_interrupt, assert_spl. erewrite bind_ok; [|erewrite bind_ok by reflexivity; rewrite (proj2 (Z.ltb_lt _ _) Hl); reflexivity].
  by rewrite (bind_ok _ _ _ _ _ E).
Qed.

(** ** On the small machine *)

(** The kernel at boot, with its serial port, its timer and the console above the port known, and the script [pc]. *)
Definition kern0 (pc : list (list bool)) (clk con : option nat) (l : Z) : kern :=
  mkkern booted pc lamebus_init 0 {[0%nat := mklser false 1 (Some 1%nat)]} {[2%nat := mklt false 0]} {[1%nat := mkcon 0%nat 0 1 0]} false clk con [] l false 0 [] 3.

Lemma kern0_polled : polled 1 1 (kern0 [] None (Some 1%nat) SPL_HIGH).
Proof.
  constructor; [reflexivity|reflexivity|]. exists (mkcon 0%nat 0 1 0). split; [reflexivity|]. exists (mklser false 1 (Some 1%nat)). eexists.
  split; [reflexivity|]. split; [reflexivity|]. split; [vm_compute; reflexivity|]. split; reflexivity.
Qed.

Lemma polled_output_witness :
  ∃ s', flush_loop 1041 [79; 83; 33; -1] (kern0 [] None (Some 1%nat) SPL_HIGH) = Ok (tt, s') ∧ output (devs (hw s')) = [79; 83; 33; 255].
Proof.
  destruct (polled_output 1041 1 1 [79; 83; 33; -1] (kern0 [] None (Some 1%nat) SPL_HIGH) []) as (s' & q' & E & _ & Ho & _).
  - apply machine_good.
  - apply kern0_polled.
  - reflexivity.
  - by vm_compute.
  - exists s'. split; [exact E|]. rewrite Ho. by vm_compute.
Defined.

(** Slot 1 holds the serial port, and no slot a second one once it is in use. *)
Lemma lamebus_probe_finds_witness : ∃ s', lamebus_probe 1 4 1 1 (kern0 [] None None SPL_HIGH) = Ok (Some 1%nat, s').
Proof.
  destruct (lamebus_probe_finds 1 4 1 1 (kern0 [] None None SPL_HIGH) []) as (h & p & q' & _ & E).
  - apply machine_good.
  - by vm_compute.
  - by vm_compute.
  - eexists. rewrite E. reflexivity.
Defined.

Lemma gettime_consistent_witness : ∃ s', gettime (kern0 [] (Some 2%nat) None SPL_HIGH) = Ok ((1000, 250080), s').
Proof.
  destruct (gettime_consistent 2 0 (mklt false 0) (kern0 [] (Some 2%nat) None SPL_HIGH) []) as (h & p & q' & _ & E).
  - apply machine_good.
  - reflexivity.
  - reflexivity.
  - reflexivity.
  - by vm_compute.
  - discriminate.
  - by vm_compute.
  - by vm_compute.
  - eexists. rewrite E. reflexivity.
Defined.

Lemma hardclock_forever_witness : ∃ pc s', (let* _ := config_ltimer 2 in irqs 3 2) (kern0 pc None None SPL_HIGH) = Ok (tt, s') ∧ hardclocks s' = 3%nat.
Proof.
  assert (∃ n, Z.of_nat n = tick_time) as [n Hn] by (exists (Z.to_nat tick_time); by apply Z2Nat.id). assert (tick_time = 500000) as Ht by reflexivity.
  set (pc := [] :: [] :: replicate 3 (replicate n false)).
  destruct (hardclock_forever 3 2 0 (mklt false 0) timer_init (kern0 pc None None SPL_HIGH) []) as (s' & E & Eh).
  - apply machine_good.
  - by vm_compute.
  - reflexivity.
  - apply Nat.ltb_lt. by vm_compute.
  - reflexivity.
  - reflexivity.
  - reflexivity.
  - cbn. lia.
  - change (take 3 (drop 2 (pace (kern0 pc None None SPL_HIGH)))) with (replicate 3 (replicate n false)). apply list.Forall_forall. intros l [-> _]%elem_of_replicate. rewrite length_replicate. lia.
  - unfold span. assert (now_clocks booted = 0) as Hb by (by vm_compute). cbn [kern0 hw pace pc replicate sum_list_with length]. rewrite Hb, length_replicate. lia.
  - exists pc, s'. split; [exact E|exact Eh].
Defined.

Lemma fast_keys_doubled_witness :
  ∃ s', (let* _ := con_input 1 97 in let* _ := con_input 1 98 in let* k1 := getch 0 in let* k2 := getch 0 in mret (k1, k2)) (kern0 [] None (Some 1%nat) 0) = Ok ((98, 98), s').
Proof.
  destruct (fast_keys_doubled 0 1 (mkcon 0%nat 0 1 0) 97 98 (kern0 [] None (Some 1%nat) 0)) as (s' & E); [reflexivity..|]. exists s'. exact E.
Defined.

End Driversthm.
