(* ===== verification/Catmouse.v ===== *)
(** * Cats, mice and bowls (kern/asst1/bowls.c, catmouse.c)

    The classroom simulation.  The menu starts [catmouse] with the numbers of bowls, cats, mice and rounds; it creates a thread for every animal
    and waits until all have finished.  An animal eats a number of times, each time at a bowl chosen at random, with [cat_eat]
    or [mouse_eat], which check that the rules are kept: no two animals at one bowl, no cats and mice at the same time.

    The threads run interleaved: a step of [step] is one step of one thread, between the operations on semaphores.  [P] on a
    semaphore that is 0 blocks, so there is no step.  The state of a thread is its place in the code; the two parts of
    cat_eat and mouse_eat between [P(mutex)] and [V(mutex)] are [start] and [finish], run in one step, which another thread may
    see before [V] is called.  The animals' random bowls are any bowls.  [thread_fork] may fail, which stops the kernel; printing is left out. *)
From stdpp Require Import base list numbers relations.
From S2P Require Import Prelude Cstring.
Local Open Scope Z_scope.

Module Catmouse.
Import Cstring.

Definition free_bowl : Z := 45.
Definition cat_bowl : Z := 99.
Definition mouse_bowl : Z := 109.

(** ** The bowls (bowls.c) *)
Record sim := mksim {
  bowls : list Z;
  eating_cats_count : Z;
  eating_mice_count : Z;
  num_bowls : Z;
  mutex : Z
}.

(** The result 1, or the state; [mem] is whether kmalloc and sem_create succeed. *)
Definition initialize_bowls (bowlcount : Z) (mem : bool * bool) : outcome (Z + sim) :=
  if bowlcount =? 0 then Ok (inl 1)
  else if negb (fst mem) then Panic
  else if negb (snd mem) then Panic
  else Ok (inr (mksim (replicate (Z.to_nat bowlcount) free_bowl) 0 0 (i32 bowlcount) 1)).

Definition get_bowl (bowlnumber : Z) : M sim Z := fun s =>
  match bowls s !! Z.to_nat (bowlnumber - 1) with Some b => Ok (b, s) | None => Undef end.
Definition set_bowl (bowlnumber b : Z) : M sim unit :=
  modify (fun s => mksim (<[Z.to_nat (bowlnumber - 1) := b]> (bowls s)) (eating_cats_count s) (eating_mice_count s) (num_bowls s) (mutex s)).
Definition set_counts (cats mice : Z) : M sim unit :=
  modify (fun s => mksim (bowls s) cats mice (num_bowls s) (mutex s)).

(** The check of the argument. *)
Definition check_bowl (bowlnumber : Z) : M sim unit :=
  let* n := gets num_bowls in
  massert (negb ((bowlnumber =? 0) || (n <? i32 bowlnumber))).

(** The two critical sections of [cat_eat]. *)
Definition cat_start (bowlnumber : Z) : M sim unit :=
  let* b := get_bowl bowlnumber in
  let* _ := massert (negb (b =? cat_bowl)) in
  let* mice := gets eating_mice_count in
  let* _ := massert (negb (0 <? mice)) in
  let* b := get_bowl bowlnumber in
  let* _ := massert (b =? free_bowl) in
  let* _ := massert (mice =? 0) in
  let* cats := gets eating_cats_count in
  let* _ := set_counts (i32 (cats + 1)) mice in
  set_bowl bowlnumber cat_bowl.

Definition cat_finish (bowlnumber : Z) : M sim unit :=
  let* cats := gets eating_cats_count in
  let* _ := massert (0 <? cats) in
  let* b := get_bowl bowlnumber in
  let* _ := massert (b =? cat_bowl) in
  let* mice := gets eating_mice_count in
  let* _ := set_counts (cats - 1) mice in
  set_bowl bowlnumber free_bowl.

(** Those of [mouse_eat]. *)
Definition mouse_start (bowlnumber : Z) : M sim unit :=
  let* b := get_bowl bowlnumber in
  let* _ := massert (negb (b =? mouse_bowl)) in
  let* cats := gets eating_cats_count in
  let* _ := massert (negb (0 <? cats)) in
  let* b := get_bowl bowlnumber in
  let* _ := massert (b =? free_bowl) in
  let* _ := massert (cats =? 0) in
  let* mice := gets eating_mice_count in
  let* _ := set_counts cats (i32 (mice + 1)) in
  set_bowl bowlnumber mouse_bowl.

Definition mouse_finish (bowlnumber : Z) : M sim unit :=
  let* mice := gets eating_mice_count in
  let* _ := massert (0 <? mice) in
  let* cats := gets eating_cats_count in
  let* _ := set_counts cats (mice - 1) in
  let* b := get_bowl bowlnumber in
  let* _ := massert (b =? mouse_bowl) in
  set_bowl bowlnumber free_bowl.

(** ** The threads (catmouse.c) *)
Inductive animal := Cat | Mouse.

#[export] Instance animal_eq : EqDecision animal.
Proof. solve_decision. Defined.

Definition start (a : animal) : Z → M sim unit := match a with Cat => cat_start | Mouse => mouse_start end.
Definition finish (a : animal) : Z → M sim unit := match a with Cat => cat_finish | Mouse => mouse_finish end.

(** Where an animal is: in its loop with [n] rounds to go, or in a round at a bowl. *)
Inductive pc :=
| Loop (n : nat)
| Enter (n : nat) (bowl : Z)       (* at the first P(mutex) *)
| Start (n : nat) (bowl : Z)       (* after it *)
| Started (n : nat) (bowl : Z)     (* at the first V(mutex) *)
| Eating (n : nat) (bowl : Z)      (* asleep, then at the second P(mutex) *)
| Finish (n : nat) (bowl : Z)      (* after it *)
| Finished (n : nat) (bowl : Z)    (* at the second V(mutex) *)
| Done.

Record world := mkw {
  sim_of : sim;
  threads : list (animal * pc);
  CatMouseWait : Z;
  (* what catmouse has still to do: create cats, create mice, wait *)
  cats_left : nat;
  mice_left : nat;
  waits_left : nat;
  NumLoops : nat
}.

Definition set_sim (s : sim) (w : world) : world :=
  mkw s (threads w) (CatMouseWait w) (cats_left w) (mice_left w) (waits_left w) (NumLoops w).
Definition set_threads (l : list (animal * pc)) (w : world) : world :=
  mkw (sim_of w) l (CatMouseWait w) (cats_left w) (mice_left w) (waits_left w) (NumLoops w).
Definition set_wait (z : Z) (w : world) : world :=
  mkw (sim_of w) (threads w) z (cats_left w) (mice_left w) (waits_left w) (NumLoops w).
Definition set_main (c m n : nat) (w : world) : world :=
  mkw (sim_of w) (threads w) (CatMouseWait w) c m n (NumLoops w).
Definition set_mutex (z : Z) (s : sim) : sim := mksim (bowls s) (eating_cats_count s) (eating_mice_count s) (num_bowls s) z.

Definition goto (i : nat) (a : animal) (p : pc) (w : world) : world := set_threads (<[i := (a, p)]> (threads w)) w.

(** [None]: blocked. *)
Definition P_mutex (w : world) : option world :=
  let s := sim_of w in if mutex s =? 0 then None else Some (set_sim (set_mutex (mutex s - 1) s) w).
Definition V_mutex (w : world) : outcome world :=
  let s := sim_of w in
  let n := i32 (mutex s + 1) in
  if 0 <? n then Ok (set_sim (set_mutex n s) w) else Panic.
Definition V_wait (w : world) : outcome world :=
  let n := i32 (CatMouseWait w + 1) in if 0 <? n then Ok (set_wait n w) else Panic.

Definition in_sim (m : M sim unit) (w : world) : outcome world :=
  match m (sim_of w) with
  | Ok (_, s) => Ok (set_sim s w)
  | Panic => Panic
  | Undef => Undef
  | Spin => Spin
  end.

(** One step of thread [i], [bowl] being the random choice if it makes one. *)
Definition thread_step (bowl : Z) (i : nat) (w : world) : option (outcome world) :=
  match threads w !! i with
  | None => None
  | Some (a, p) =>
      match p with
      | Loop O => Some (let* w := V_wait w in Ok (goto i a Done w))
      | Loop (S n) => Some (let* w := in_sim (check_bowl bowl) w in Ok (goto i a (Enter n bowl) w))
      | Enter n b => w ← P_mutex w; Some (Ok (goto i a (Start n b) w))
      | Start n b => Some (let* w := in_sim (start a b) w in Ok (goto i a (Started n b) w))
      | Started n b => Some (let* w := V_mutex w in Ok (goto i a (Eating n b) w))
      | Eating n b => w ← P_mutex w; Some (Ok (goto i a (Finish n b) w))
      | Finish n b => Some (let* w := in_sim (finish a b) w in Ok (goto i a (Finished n b) w))
      | Finished n b => Some (let* w := V_mutex w in Ok (goto i a (Loop n) w))
      | Done => None
      end
  end.

(** One step of [catmouse] after the initialisation, [forked] being whether a [thread_fork] succeeds. *)
Definition main_step (forked : bool) (w : world) : option (outcome world) :=
  match cats_left w, mice_left w, waits_left w with
  | S c, _, _ =>
      Some (if negb forked then Panic
            else Ok (set_main c (mice_left w) (waits_left w) (set_threads (threads w ++ [(Cat, Loop (NumLoops w))]) w)))
  | O, S m, _ =>
      Some (if negb forked then Panic
            else Ok (set_main 0 m (waits_left w) (set_threads (threads w ++ [(Mouse, Loop (NumLoops w))]) w)))
  | O, O, S n => if CatMouseWait w =? 0 then None else Some (Ok (set_main 0 0 n (set_wait (CatMouseWait w - 1) w)))
  | O, O, O => None
  end.

Inductive turn := Main (forked : bool) | Thread (i : nat) (bowl : Z).

Definition do_turn (t : turn) (w : world) : option (outcome world) :=
  match t with
  | Main forked => main_step forked w
  | Thread i bowl => thread_step bowl i w
  end.

(** The bowls that [random] may choose. *)
Definition allowed (w : world) (t : turn) : Prop :=
  match t with
  | Main _ => True
  | Thread _ bowl => 1 ≤ bowl ≤ num_bowls (sim_of w)
  end.

Definition step (w w' : world) : Prop := ∃ t, allowed w t ∧ do_turn t w = Some (Ok w').

(** [catmouse]: the result 1 for bad arguments, or the world to run. *)
Definition catmouse (nargs : Z) (args : list (list Z)) (mem : bool * bool * bool) : outcome (Z + world) :=
  if negb (nargs =? 5) then Ok (inl 1)
  else
    let* a1 := of_option (args !! 1%nat) in
    let* NumBowls := atoi a1 in
    if NumBowls <=? 0 then Ok (inl 1)
    else
      let* a2 := of_option (args !! 2%nat) in
      let* NumCats := atoi a2 in
      if NumCats <? 0 then Ok (inl 1)
      else
        let* a3 := of_option (args !! 3%nat) in
        let* NumMice := atoi a3 in
        if NumMice <? 0 then Ok (inl 1)
        else
          let* a4 := of_option (args !! 4%nat) in
          let* loops := atoi a4 in
          if loops <=? 0 then Ok (inl 1)
          else if negb (snd mem) then Panic
          else
            let* r := initialize_bowls (u32 NumBowls) (fst mem) in
            match r with
            | inl _ => Panic
            | inr s => Ok (inr (mkw s [] 0 (Z.to_nat NumCats) (Z.to_nat NumMice) (Z.to_nat (i32 (NumCats + NumMice))) (Z.to_nat loops)))
            end.

End Catmouse.
