(* ===== verification/Catmousespec.v ===== *)
(** * Cats and mice: the referee is right, and the simulation ends

    In every state that the interleaved threads reach the rules are kept and the variables of bowls.c tell who is eating where; a thread
    is stopped exactly when it is about to break a rule.  Every run is finite, and one that cannot go on has ended. *)
From stdpp Require Import base list numbers relations.
From S2P Require Import Prelude Cstring Catmouse.
Local Open Scope Z_scope.

Module Catmousespec.
Import Cstring Catmouse.

(** ** Who is where *)
Definition glyph (a : animal) : Z := match a with Cat => cat_bowl | Mouse => mouse_bowl end.

(** Eating, from the point of view of the bowls. *)
Definition eats (t : animal * pc) : option (animal * Z) :=
  match snd t with
  | Started _ b | Eating _ b | Finish _ b => Some (fst t, b)
  | _ => None
  end.

Definition holds (t : animal * pc) : option unit :=
  match snd t with
  | Start _ _ | Started _ _ | Finish _ _ | Finished _ _ => Some tt
  | _ => None
  end.

Definition is_done (t : animal * pc) : option unit := match snd t with Done => Some tt | _ => None end.

Definition at_bowl (p : pc) : option Z :=
  match p with
  | Enter _ b | Start _ b | Started _ b | Eating _ b | Finish _ b | Finished _ b => Some b
  | _ => None
  end.

Definition eaters (l : list (animal * pc)) : list (animal * Z) := omap eats l.

(** One thread moves. *)
Lemma omap_moves {A B} (f : A → option B) l i x :
  l !! i = Some x → ∃ R, omap f l ≡ₚ option_list (f x) ++ R ∧ ∀ y, omap f (<[i := y]> l) ≡ₚ option_list (f y) ++ R.
Proof.
  intros Hi. exists (omap f (take i l ++ drop (S i) l)).
  assert (∀ y, omap f (take i l ++ y :: drop (S i) l) ≡ₚ option_list (f y) ++ omap f (take i l ++ drop (S i) l)) as Hy.
  { intros y. rewrite !omap_app. cbn. destruct (f y); cbn; [|done]. by rewrite Permutation_middle. }
  split; [rewrite <- (Hy x); by rewrite take_drop_middle|]. intros y. rewrite <- (Hy y), insert_take_drop; [done|by eapply lookup_lt_Some].
Qed.

Definition one {B} (o : option B) : nat := match o with Some _ => 1 | None => 0 end.

Lemma omap_length {A B} (f : A → option B) l i x y :
  l !! i = Some x → (length (omap f (<[i := y]> l)) + one (f x) = length (omap f l) + one (f y))%nat.
Proof.
  intros Hi. destruct (omap_moves f l i x Hi) as (R & H1 & H2). rewrite (H2 y), H1, !length_app. destruct (f x), (f y); cbn; lia.
Qed.

Definition occurs (g : Z) (l : list Z) : Z := Z.of_nat (length (omap (fun x => if x =? g then Some tt else None) l)).

Lemma occurs_insert g l k x y : l !! k = Some x → occurs g (<[k := y]> l) + (if x =? g then 1 else 0) = occurs g l + (if y =? g then 1 else 0).
Proof.
  intros Hk. pose proof (omap_length (fun x => if x =? g then Some tt else None) l k x y Hk) as Hl. unfold occurs.
  revert Hl. cbv beta. destruct (x =? g), (y =? g); cbn [one]; lia.
Qed.

Lemma occurs_bound g l : 0 ≤ occurs g l ≤ Z.of_nat (length l).
Proof.
  unfold occurs. split; [lia|]. apply inj_le. induction l as [|x l IH]; [done|]. cbn. destruct (x =? g); cbn; lia.
Qed.

Lemma occurs_pos g l k : l !! k = Some g → 0 < occurs g l.
Proof. intros Hk. pose proof (occurs_insert g l k g (g + 1) Hk) as H. rewrite Z.eqb_refl, (proj2 (Z.eqb_neq (g + 1) g)) in H by lia. pose proof (occurs_bound g (<[k := g + 1]> l)). lia. Qed.

Lemma occurs_some g l : 0 < occurs g l → ∃ k, l !! k = Some g.
Proof.
  unfold occurs. intros Hp. destruct (omap _ l) as [|u r] eqn:E; [cbn in Hp; lia|].
  assert (u ∈ omap (fun x => if x =? g then Some tt else None) l) as Hin by (rewrite E; left). apply list_elem_of_omap in Hin as (x & Hx & Hg).
  destruct (Z.eqb_spec x g) as [->|]; [|done]. by apply list_elem_of_lookup in Hx.
Qed.

(** ** The invariant *)
Definition ids (w : world) : nat := (cats_left w + mice_left w + length (threads w))%nat.

Record table (s : sim) (e : list (animal * Z)) : Prop := {
  tb_size : Z.of_nat (length (bowls s)) = num_bowls s;
  tb_max : num_bowls s < 2 ^ 31;
  tb_where : ∀ a b, (a, b) ∈ e ↔ bowls s !! Z.to_nat (b - 1) = Some (glyph a) ∧ 1 ≤ b;
  tb_glyphs : Forall (fun g => g = free_bowl ∨ g = cat_bowl ∨ g = mouse_bowl) (bowls s);
  tb_once : NoDup (snd <$> e);
  tb_cats : eating_cats_count s = occurs cat_bowl (bowls s);
  tb_mice : eating_mice_count s = occurs mouse_bowl (bowls s);
  tb_species : eating_cats_count s = 0 ∨ eating_mice_count s = 0
}.

Record inv (total : nat) (w : world) : Prop := {
  iv_table : table (sim_of w) (eaters (threads w));
  iv_mutex : mutex (sim_of w) + Z.of_nat (length (omap holds (threads w))) = 1 ∧ 0 ≤ mutex (sim_of w);
  iv_bowls : ∀ i a p b, threads w !! i = Some (a, p) → at_bowl p = Some b → 1 ≤ b ≤ num_bowls (sim_of w);
  iv_ids : ids w = total ∧ Z.of_nat total < 2 ^ 31;
  iv_wait : CatMouseWait w + Z.of_nat total = Z.of_nat (length (omap is_done (threads w))) + Z.of_nat (waits_left w) ∧ 0 ≤ CatMouseWait w;
  iv_main : (waits_left w ≤ total)%nat;
  iv_some : 1 ≤ num_bowls (sim_of w)
}.

(** ** The critical sections *)
Definition mine (a : animal) (s : sim) : Z := match a with Cat => eating_cats_count s | Mouse => eating_mice_count s end.
Definition theirs (a : animal) (s : sim) : Z := match a with Cat => eating_mice_count s | Mouse => eating_cats_count s end.
Definition seat (a : animal) (b g d : Z) (s : sim) : sim :=
  mksim (<[Z.to_nat (b - 1) := g]> (bowls s)) (match a with Cat => d | Mouse => eating_cats_count s end) (match a with Cat => eating_mice_count s | Mouse => d end)
    (num_bowls s) (mutex s).

Lemma start_eq a b g s :
  bowls s !! Z.to_nat (b - 1) = Some g →
  start a b s = if negb (g =? glyph a) && negb (0 <? theirs a s) && (g =? free_bowl) && (theirs a s =? 0) then Ok (tt, seat a b (glyph a) (i32 (mine a s + 1)) s) else Panic.
Proof.
  intros Hg. destruct a; unfold start, cat_start, mouse_start, mbind, M_bind, get_bowl, gets, massert; cbn [glyph theirs mine]; rewrite Hg.
  - destruct (g =? cat_bowl); cbn [negb andb]; [done|]. destruct (0 <? eating_mice_count s); cbn [negb andb]; [done|]. rewrite Hg.
    destruct (g =? free_bowl); cbn [andb]; [|done]. by destruct (eating_mice_count s =? 0).
  - destruct (g =? mouse_bowl); cbn [negb andb]; [done|]. destruct (0 <? eating_cats_count s); cbn [negb andb]; [done|]. rewrite Hg.
    destruct (g =? free_bowl); cbn [andb]; [|done]. by destruct (eating_cats_count s =? 0).
Qed.

Lemma finish_eq a b g s :
  bowls s !! Z.to_nat (b - 1) = Some g →
  finish a b s = if (0 <? mine a s) && (g =? glyph a) then Ok (tt, seat a b free_bowl (mine a s - 1) s) else Panic.
Proof.
  intros Hg. destruct a; unfold finish, cat_finish, mouse_finish, mbind, M_bind, get_bowl, gets, massert; cbn [glyph mine];
    (destruct (0 <? _); cbn [andb]; [|done]); cbn [set_counts modify bowls]; rewrite Hg; by destruct (g =? _).
Qed.

Definition other (a : animal) : animal := match a with Cat => Mouse | Mouse => Cat end.

Lemma glyph_inj a a' : glyph a = glyph a' → a = a'.
Proof. by destruct a, a'. Qed.

Lemma glyph_not_free a : glyph a ≠ free_bowl.
Proof. by destruct a. Qed.

(** What the new animal would disturb. *)
Definition conflict (a : animal) (b : Z) (e : list (animal * Z)) : Prop := ∃ a' b', (a', b') ∈ e ∧ (a' ≠ a ∨ b' = b).

Section tables.
Context (s : sim) (e : list (animal * Z)) (T : table s e).

Lemma table_mine a : mine a s = occurs (glyph a) (bowls s).
Proof. destruct a; [apply (tb_cats _ _ T)|apply (tb_mice _ _ T)]. Qed.

Lemma table_theirs a : theirs a s = occurs (glyph (other a)) (bowls s).
Proof. destruct a; [apply (tb_mice _ _ T)|apply (tb_cats _ _ T)]. Qed.

Lemma table_eater a : 0 < occurs (glyph a) (bowls s) ↔ ∃ b, (a, b) ∈ e.
Proof.
  split.
  - intros (k & Hk)%occurs_some. exists (Z.of_nat k + 1). apply (tb_where _ _ T). rewrite Z.add_simpl_r, Nat2Z.id. split; [done|lia].
  - intros (b & (Hb & _)%(tb_where _ _ T)). by eapply occurs_pos.
Qed.

Lemma bowl_lookup b : 1 ≤ b ≤ num_bowls s → ∃ g, bowls s !! Z.to_nat (b - 1) = Some g ∧ (g = free_bowl ∨ ∃ a, g = glyph a).
Proof.
  intros Hb. pose proof (tb_size _ _ T). destruct (lookup_lt_is_Some_2 (bowls s) (Z.to_nat (b - 1))) as [g Hg]; [lia|]. exists g. split; [done|].
  pose proof (tb_glyphs _ _ T) as Hf. rewrite list.Forall_forall in Hf. destruct (Hf g) as [|[|]]; [by eapply list_elem_of_lookup_2|by left|right; by exists Cat|right; by exists Mouse].
Qed.

(** One bowl changes hands: [g] was there, [g'] is there now. *)
Lemma seat_where b g g' (e' : list (animal * Z)) :
  1 ≤ b ≤ num_bowls s → bowls s !! Z.to_nat (b - 1) = Some g →
  (∀ a0 b0, (a0, b0) ∈ e' ↔ if decide (b0 = b) then g' = glyph a0 else (a0, b0) ∈ e) →
  ∀ a0 b0, (a0, b0) ∈ e' ↔ <[Z.to_nat (b - 1) := g']> (bowls s) !! Z.to_nat (b0 - 1) = Some (glyph a0) ∧ 1 ≤ b0.
Proof.
  intros Hb Hg He a0 b0. rewrite He. pose proof (lookup_lt_Some _ _ _ Hg) as Hlt. case_decide as Hc.
  - subst b0. rewrite list_lookup_insert_eq by done. split; [intros ->; split; [done|lia]|intros [[=] _]; done].
  - rewrite (tb_where _ _ T). destruct (decide (1 ≤ b0)); [|lia]. by rewrite list_lookup_insert_ne by lia.
Qed.

Lemma seat_table a b g g' d (e' : list (animal * Z)) :
  1 ≤ b ≤ num_bowls s → bowls s !! Z.to_nat (b - 1) = Some g →
  (∀ a0 b0, (a0, b0) ∈ e' ↔ if decide (b0 = b) then g' = glyph a0 else (a0, b0) ∈ e) →
  (g' = free_bowl ∨ g' = glyph a) → NoDup (snd <$> e') →
  d = occurs (glyph a) (<[Z.to_nat (b - 1) := g']> (bowls s)) →
  occurs (glyph (other a)) (<[Z.to_nat (b - 1) := g']> (bowls s)) = occurs (glyph (other a)) (bowls s) →
  (d = 0 ∨ occurs (glyph (other a)) (bowls s) = 0) → table (seat a b g' d s) e'.
Proof.
  intros Hb Hg He Hg' Hnd Hd Ho Hs. constructor; cbn [seat bowls num_bowls eating_cats_count eating_mice_count].
  - rewrite length_insert. apply (tb_size _ _ T).
  - apply (tb_max _ _ T).
  - by eapply seat_where.
  - apply Forall_insert; [apply (tb_glyphs _ _ T)|]. destruct Hg' as [->| ->]; [by left|destruct a; auto].
  - done.
  - destruct a; [done|]. rewrite (tb_cats _ _ T). symmetry. exact Ho.
  - destruct a; [|done]. rewrite (tb_mice _ _ T). symmetry. exact Ho.
  - rewrite (tb_cats _ _ T), (tb_mice _ _ T). destruct a; cbn [glyph other] in *; tauto.
Qed.

Lemma seat_occurs b g g' g0 : bowls s !! Z.to_nat (b - 1) = Some g →
  occurs g0 (<[Z.to_nat (b - 1) := g']> (bowls s)) = occurs g0 (bowls s) + (if g' =? g0 then 1 else 0) - (if g =? g0 then 1 else 0).
Proof. intros Hg. pose proof (occurs_insert g0 (bowls s) _ g g' Hg). lia. Qed.

Lemma glyph_eqb a a' : (glyph a =? glyph a') = bool_decide (a = a').
Proof. by destruct a, a'. Qed.

Lemma free_eqb a : (free_bowl =? glyph a) = false.
Proof. by destruct a. Qed.

Lemma eqb_free a : (glyph a =? free_bowl) = false.
Proof. by destruct a. Qed.

(** An animal that sits down is stopped exactly when it breaks a rule. *)
Lemma start_table a b :
  1 ≤ b ≤ num_bowls s →
  conflict a b e ∧ start a b s = Panic ∨
  ¬ conflict a b e ∧ ∃ s', start a b s = Ok (tt, s') ∧ table s' ((a, b) :: e) ∧ mutex s' = mutex s ∧ num_bowls s' = num_bowls s.
Proof.
  intros Hb. destruct (bowl_lookup b Hb) as (g & Hg & Hk). rewrite (start_eq _ _ _ _ Hg), table_theirs. pose proof (occurs_bound (glyph (other a)) (bowls s)) as Hob.
  destruct Hk as [->|[a' ->]].
  2: { left. assert ((a', b) ∈ e) as Hin by (apply (tb_where _ _ T); split; [done|lia]). split; [exists a', b; auto|]. by rewrite eqb_free, andb_false_r. }
  rewrite free_eqb, Z.eqb_refl. cbn [negb andb].
  destruct (Z.ltb_spec 0 (occurs (glyph (other a)) (bowls s))) as [Hp|Hz]; cbn [negb andb].
  { left. split; [|done]. apply table_eater in Hp as (b' & Hin). exists (other a), b'. split; [done|]. left. by destruct a. }
  assert (occurs (glyph (other a)) (bowls s) = 0) as Ez by lia. rewrite Ez, Z.eqb_refl. right.
  assert (∀ b0, (other a, b0) ∉ e) as Hno by (intros b0 Hin; assert (0 < occurs (glyph (other a)) (bowls s)) by (apply table_eater; by exists b0); lia).
  assert (∀ a0, (a0, b) ∉ e) as Hfree by (intros a0 (Hx & _)%(tb_where _ _ T); rewrite Hg in Hx; injection Hx as Hx; by apply (glyph_not_free a0)).
  split. { intros (a' & b' & Hin & [Hd| ->]); [|by eapply Hfree]. apply (Hno b'). by destruct a, a'. }
  eexists. split; [reflexivity|]. split; [|done]. eapply seat_table; [done|exact Hg| |by right| | | |].
  - intros a0 b0. rewrite elem_of_cons. case_decide as Hc.
    + subst. split; [intros [[= ->]|Hin]; [done|by destruct (Hfree a0)]|intros ->%glyph_inj; by left].
    + split; [intros [[=]|]; [congruence|done]|auto].
  - cbn. constructor; [|apply (tb_once _ _ T)]. intros (x & -> & Hx)%list_elem_of_fmap. destruct x as [a0 b0]. by apply (Hfree a0).
  - pose proof (occurs_bound (glyph a) (<[Z.to_nat (b - 1) := glyph a]> (bowls s))) as Hb2. revert Hb2. rewrite length_insert, (seat_occurs _ _ _ _ Hg), free_eqb, Z.eqb_refl, table_mine.
    pose proof (tb_size _ _ T). pose proof (tb_max _ _ T). pose proof (occurs_bound (glyph a) (bowls s)). intros Hb2. rewrite i32_small by lia. lia.
  - rewrite (seat_occurs _ _ _ _ Hg), free_eqb, glyph_eqb, bool_decide_false by (by destruct a). lia.
  - by right.
Qed.

(** One that gets up never is. *)
Lemma finish_table a b e' :
  e ≡ₚ (a, b) :: e' → ∃ s', finish a b s = Ok (tt, s') ∧ table s' e' ∧ mutex s' = mutex s ∧ num_bowls s' = num_bowls s.
Proof.
  intros He. assert ((a, b) ∈ e) as Hin by (rewrite He; left). pose proof Hin as [Hg Hb1]%(tb_where _ _ T). pose proof (occurs_pos _ _ _ Hg) as Hp.
  rewrite (finish_eq _ _ _ _ Hg), table_mine, (proj2 (Z.ltb_lt _ _) Hp), Z.eqb_refl. cbn [andb]. eexists. split; [reflexivity|]. split; [|done].
  pose proof (tb_once _ _ T) as Hnd. rewrite He in Hnd. cbn in Hnd. apply NoDup_cons in Hnd as [Hni Hnd].
  assert (1 ≤ b ≤ num_bowls s) as Hb by (pose proof (lookup_lt_Some _ _ _ Hg); pose proof (tb_size _ _ T); lia).
  eapply seat_table; [done|exact Hg| |by left|done| | |].
  - intros a0 b0. case_decide as Hc.
    + subst. split; [|intros E; by destruct (glyph_not_free a0)]. intros Hx. destruct Hni. apply list_elem_of_fmap. by exists (a0, b).
    + rewrite He, elem_of_cons. split; [auto|]. intros [[=]|]; [congruence|done].
  - rewrite (seat_occurs _ _ _ _ Hg), free_eqb, Z.eqb_refl. lia.
  - rewrite (seat_occurs _ _ _ _ Hg), free_eqb, glyph_eqb, bool_decide_false by (by destruct a). lia.
  - right. pose proof (tb_species _ _ T) as Hsp. rewrite (tb_cats _ _ T), (tb_mice _ _ T) in Hsp. destruct a; cbn [glyph other] in *; lia.
Qed.
End tables.

Lemma table_perm s e e' : e ≡ₚ e' → table s e → table s e'.
Proof.
  intros Hp [T1 T2 T3 T4 T5 T6 T7 T8]. constructor; try done.
  - intros a b. by rewrite <- Hp.
  - by rewrite <- Hp.
Qed.

Lemma table_mutex s e z : table s e → table (set_mutex z s) e.
Proof. by intros []. Qed.

(** ** Steps keep the invariant *)
Lemma moved total w i a p p' s' z :
  inv total w → threads w !! i = Some (a, p) → table s' (eaters (<[i := (a, p')]> (threads w))) → num_bowls s' = num_bowls (sim_of w) →
  mutex s' + Z.of_nat (one (holds (a, p'))) = mutex (sim_of w) + Z.of_nat (one (holds (a, p))) → 0 ≤ mutex s' →
  z + Z.of_nat (one (is_done (a, p))) = CatMouseWait w + Z.of_nat (one (is_done (a, p'))) → 0 ≤ z →
  (∀ b, at_bowl p' = Some b → 1 ≤ b ≤ num_bowls (sim_of w)) → inv total (set_wait z (set_sim s' (goto i a p' w))).
Proof.
  intros [I1 [I2 I2'] I3 [I4 I4'] [I5 I5'] I6 I7] Hi Ht Hn Hm Hm' Hz Hz' Hb. pose proof (omap_length holds _ _ _ (a, p') Hi). pose proof (omap_length is_done _ _ _ (a, p') Hi).
  unfold goto, set_threads, set_sim, set_wait. constructor; unfold ids in *; cbn [sim_of threads CatMouseWait cats_left mice_left waits_left] in *.
  - done.
  - lia.
  - rewrite Hn. intros j a0 p0 b0 Hj Hat. destruct (decide (j = i)) as [->|Hne].
    + rewrite list_lookup_insert_eq in Hj by (by eapply lookup_lt_Some). injection Hj as <- <-. by apply Hb.
    + rewrite list_lookup_insert_ne in Hj by done. by eapply I3.
  - by rewrite length_insert.
  - lia.
  - done.
  - by rewrite Hn.
Qed.

Lemma eaters_stay l i a p p' : l !! i = Some (a, p) → eats (a, p') = eats (a, p) → eaters (<[i := (a, p')]> l) ≡ₚ eaters l.
Proof. intros Hi He. destruct (omap_moves eats l i _ Hi) as (R & H1 & H2). unfold eaters. by rewrite (H2 (a, p')), H1, He. Qed.

Lemma held l i t : l !! i = Some t → (one (holds t) ≤ length (omap holds l))%nat.
Proof. intros Hi. destruct (omap_moves holds l i t Hi) as (R & -> & _). rewrite length_app. destruct (holds t); cbn; lia. Qed.

Lemma dones_bound (l : list (animal * pc)) : (length (omap is_done l) ≤ length l)%nat.
Proof. induction l as [|x l IH]; [done|]. cbn. destruct (is_done x); cbn; lia. Qed.

(** The thread whose turn it is would break a rule. *)
Definition breaks (w : world) (t : turn) : Prop :=
  ∃ i bowl a n b, t = Thread i bowl ∧ threads w !! i = Some (a, Start n b) ∧ conflict a b (eaters (threads w)).

Definition safe_turn (total : nat) (w : world) (t : turn) (o : outcome world) : Prop :=
  (∃ w', o = Ok w' ∧ inv total w') ∧ ¬ breaks w t ∨ o = Panic ∧ breaks w t.

Lemma not_breaks w i bowl a p : threads w !! i = Some (a, p) → (∀ n b, p ≠ Start n b) → ¬ breaks w (Thread i bowl).
Proof. intros Hi Hp (j & bl & a' & n & b & [= -> ->] & Hj & _). rewrite Hi in Hj. injection Hj as <- ->. by eapply Hp. Qed.

Section turns.
Context (total : nat) (w : world) (i : nat) (a : animal) (p : pc) (I : inv total w) (Hi : threads w !! i = Some (a, p)).

(** The thread goes on, and who eats stays the same. *)
Lemma go_on p' s' z :
  eats (a, p') = eats (a, p) → table s' (eaters (threads w)) → num_bowls s' = num_bowls (sim_of w) →
  mutex s' + Z.of_nat (one (holds (a, p'))) = mutex (sim_of w) + Z.of_nat (one (holds (a, p))) → 0 ≤ mutex s' →
  z + Z.of_nat (one (is_done (a, p))) = CatMouseWait w + Z.of_nat (one (is_done (a, p'))) → 0 ≤ z →
  (∀ b, at_bowl p' = Some b → 1 ≤ b ≤ num_bowls (sim_of w)) → inv total (set_wait z (set_sim s' (goto i a p' w))).
Proof. intros He T. intros. eapply moved; try done. eapply table_perm; [|exact T]. symmetry. by apply eaters_stay with p. Qed.

Lemma take_mutex p' w1 :
  P_mutex w = Some w1 → eats (a, p') = eats (a, p) → holds (a, p) = None → holds (a, p') = Some tt → is_done (a, p) = None → is_done (a, p') = None →
  at_bowl p' = at_bowl p → inv total (goto i a p' w1).
Proof.
  intros E He Hh Hh' Hd Hd' Hb. unfold P_mutex in E. destruct (Z.eqb_spec (mutex (sim_of w)) 0) as [|Hne]; [done|]. injection E as <-. pose proof (iv_mutex _ _ I) as [Hm Hm'].
  apply (go_on p' (set_mutex (mutex (sim_of w) - 1) (sim_of w)) (CatMouseWait w)); rewrite ?Hh, ?Hh', ?Hd, ?Hd', ?Hb; cbn [set_mutex mutex one num_bowls]; try done; try lia.
  - apply table_mutex, I.
  - apply (iv_wait _ _ I).
  - intros b Hat. by eapply (iv_bowls _ _ I).
Qed.

Lemma give_mutex p' :
  eats (a, p') = eats (a, p) → holds (a, p) = Some tt → holds (a, p') = None → is_done (a, p) = None → is_done (a, p') = None →
  (∀ b, at_bowl p' = Some b → at_bowl p = Some b) → ∃ w', (let* w := V_mutex w in Ok (goto i a p' w)) = Ok w' ∧ inv total w'.
Proof.
  intros He Hh Hh' Hd Hd' Hb. pose proof (iv_mutex _ _ I) as [Hm Hm']. pose proof (held _ _ _ Hi) as Hl. rewrite Hh in Hl. cbn [one] in Hl.
  assert (mutex (sim_of w) = 0) as Ez by lia. unfold V_mutex. rewrite Ez. eexists. split; [reflexivity|].
  apply (go_on p' (set_mutex 1 (sim_of w)) (CatMouseWait w)); rewrite ?Hh, ?Hh', ?Hd, ?Hd', ?Ez; cbn [set_mutex mutex one num_bowls]; try done; try lia.
  - apply table_mutex, I.
  - apply (iv_wait _ _ I).
  - intros b Hat. by eapply (iv_bowls _ _ I); [|apply Hb].
Qed.

(** The critical sections: who eats changes. *)
Lemma in_section (m : M sim unit) s' p' :
  m (sim_of w) = Ok (tt, s') → table s' (eaters (<[i := (a, p')]> (threads w))) → mutex s' = mutex (sim_of w) → num_bowls s' = num_bowls (sim_of w) →
  holds (a, p') = holds (a, p) → is_done (a, p) = None → is_done (a, p') = None → at_bowl p' = at_bowl p →
  ∃ w', (let* w := in_sim m w in Ok (goto i a p' w)) = Ok w' ∧ inv total w'.
Proof.
  intros E T Em En Hh Hd Hd' Hb. unfold in_sim. rewrite E. eexists. split; [reflexivity|]. pose proof (iv_mutex _ _ I) as [Hm Hm'].
  apply (moved total w i a p p' s' (CatMouseWait w)); rewrite ?Hh, ?Hd, ?Hd', ?Em, ?Hb; try done; [apply (iv_wait _ _ I)|]. intros b Hat. by eapply (iv_bowls _ _ I).
Qed.
End turns.

Lemma thread_turn total w i bowl o :
  inv total w → 1 ≤ bowl ≤ num_bowls (sim_of w) → thread_step bowl i w = Some o → safe_turn total w (Thread i bowl) o.
Proof.
  intros I Hbowl Hs. unfold thread_step in Hs. destruct (threads w !! i) as [[a p]|] eqn:Hi; [|done].
  assert (∀ o', (∃ w', o' = Ok w' ∧ inv total w') → Some o' = Some o → (∀ n b, p ≠ Start n b) → safe_turn total w (Thread i bowl) o) as Hok.
  { intros o' Hw [= ->] Hp. left. split; [done|]. by eapply not_breaks. }
  pose proof (iv_table _ _ I) as T. pose proof (iv_mutex _ _ I) as [Hm Hm']. pose proof (iv_wait _ _ I) as [Hw Hw']. pose proof (iv_ids _ _ I) as [Ht Ht'].
  destruct p as [[|n]|n b|n b|n b|n b|n b|n b|].
  - eapply Hok; [|exact Hs|done]. pose proof (omap_length is_done _ _ _ (a, Done) Hi) as Hl. cbn [is_done snd one] in Hl.
    pose proof (dones_bound (<[i := (a, Done)]> (threads w))) as Hdb. rewrite length_insert in Hdb. pose proof (iv_main _ _ I). unfold ids in Ht.
    unfold V_wait. rewrite i32_small, (proj2 (Z.ltb_lt 0 _)) by lia. eexists. split; [reflexivity|].
    apply (go_on total w i a (Loop 0) I Hi Done (sim_of w) (CatMouseWait w + 1)); cbn [holds is_done snd one]; try done; lia.
  - eapply Hok; [|exact Hs|done]. pose proof (tb_max _ _ T). unfold in_sim, check_bowl, mbind, M_bind, gets, massert.
    rewrite (proj2 (Z.eqb_neq bowl 0)), i32_small, (proj2 (Z.ltb_ge _ bowl)) by lia. eexists. split; [reflexivity|].
    apply (go_on total w i a (Loop (S n)) I Hi (Enter n bowl) (sim_of w) (CatMouseWait w)); cbn [holds is_done snd one]; try done; try lia. by intros b [= <-].
  - destruct (P_mutex w) as [w1|] eqn:E; [|done]. eapply Hok; [|exact Hs|done]. eexists. split; [reflexivity|]. by eapply (take_mutex total w i a (Enter n b)).
  - destruct (start_table _ _ T a b) as [[Hc E]|[Hc (s' & E & T' & Em & En)]]; [by eapply (iv_bowls _ _ I)| |].
    + right. unfold in_sim in Hs. rewrite E in Hs. injection Hs as <-. split; [done|]. by exists i, bowl, a, n, b.
    + left. injection Hs as <-. split; [|intros (j & bl & a' & n' & b' & [= -> ->] & Hj & Hc'); rewrite Hi in Hj; injection Hj as -> -> ->; done].
      apply (in_section total w i a (Start n b) I Hi (start a b) s' (Started n b)); try done. eapply table_perm; [|exact T'].
      destruct (omap_moves eats _ _ _ Hi) as (R & H1 & H2). unfold eaters. rewrite (H2 (a, Started n b)), H1. done.
  - eapply Hok; [|exact Hs|done]. by apply (give_mutex total w i a (Started n b) I Hi).
  - destruct (P_mutex w) as [w1|] eqn:E; [|done]. eapply Hok; [|exact Hs|done]. eexists. split; [reflexivity|]. by eapply (take_mutex total w i a (Eating n b)).
  - eapply Hok; [|exact Hs|done]. destruct (omap_moves eats _ _ _ Hi) as (R & H1 & H2). destruct (finish_table _ _ T a b R H1) as (s' & E & T' & Em & En).
    apply (in_section total w i a (Finish n b) I Hi (finish a b) s' (Finished n b)); try done. eapply table_perm; [|exact T']. unfold eaters. by rewrite (H2 (a, Finished n b)).
  - eapply Hok; [|exact Hs|done]. by apply (give_mutex total w i a (Finished n b) I Hi).
  - done.
Qed.

(** A new thread. *)
Lemma main_fork total w a c m :
  inv total w → (c + m + 1 = cats_left w + mice_left w)%nat →
  inv total (set_main c m (waits_left w) (set_threads (threads w ++ [(a, Loop (NumLoops w))]) w)).
Proof.
  intros [I1 I2 I3 [I4 I4'] I5 I6 I7] Hc. unfold ids in *. constructor; unfold ids; cbn [set_main set_threads sim_of threads CatMouseWait cats_left mice_left waits_left]; try done.
  - unfold eaters. rewrite omap_app. cbn. by rewrite app_nil_r.
  - rewrite omap_app. cbn. by rewrite app_nil_r.
  - intros i a' p b Hl Hat. apply lookup_app_Some in Hl as [Hl|[_ Hl]]; [by eapply I3|]. apply list_lookup_singleton_Some in Hl as [_ [= <- <-]]. done.
  - rewrite length_app. cbn. split; [lia|done].
  - rewrite omap_app. cbn. by rewrite app_nil_r.
Qed.

(** A thread cannot be made. *)
Definition fork_fails (w : world) (t : turn) : Prop := t = Main false ∧ (0 < cats_left w + mice_left w)%nat.

Lemma main_turn total w forked o :
  inv total w → main_step forked w = Some o →
  (∃ w', o = Ok w' ∧ inv total w') ∧ ¬ fork_fails w (Main forked) ∨ o = Panic ∧ fork_fails w (Main forked).
Proof.
  intros I Hs. unfold main_step in Hs. unfold fork_fails. destruct (cats_left w) as [|c] eqn:Ec.
  - destruct (mice_left w) as [|m] eqn:Em.
    + destruct (waits_left w) as [|n] eqn:En; [done|]. destruct (Z.eqb_spec (CatMouseWait w) 0); [done|]. injection Hs as <-. left.
      split; [|intros [_ ?]; lia]. eexists. split; [done|].
      destruct I as [I1 I2 I3 [I4 I4'] [I5 I5'] I6 I7]. unfold ids in *. constructor; unfold ids; cbn [set_main set_wait sim_of threads CatMouseWait cats_left mice_left waits_left]; try done; lia.
    + destruct forked; injection Hs as <-; [left|right; split; [done|split; [done|lia]]].
      split; [|by intros [[=] _]]. eexists. split; [done|]. apply main_fork; [done|lia].
  - destruct forked; injection Hs as <-; [left|right; split; [done|split; [done|lia]]].
    split; [|by intros [[=] _]]. eexists. split; [done|]. apply main_fork; [done|lia].
Qed.

(** What stops the simulation. *)
Definition stops (w : world) (t : turn) : Prop := breaks w t ∨ fork_fails w t.

Lemma turn_safe total w t o :
  inv total w → allowed w t → do_turn t w = Some o → (∃ w', o = Ok w' ∧ inv total w') ∧ ¬ stops w t ∨ o = Panic ∧ stops w t.
Proof.
  intros I Ha Hs. unfold stops. destruct t as [forked|i bowl].
  - destruct (main_turn total w forked o I Hs) as [[Hw Hn]|[Hp Hf]]; [left|right; by auto]. split; [done|].
    intros [(j & bl & a & n & b & [=] & _)|?]; done.
  - destruct (thread_turn total w i bowl o I Ha Hs) as [[Hw Hn]|[Hp Hb]]; [left|right; by auto]. split; [done|]. by intros [?|[[=] _]].
Qed.

Lemma steps_inv total w w' : inv total w → rtc step w w' → inv total w'.
Proof.
  intros I. induction 1 as [|w w1 w' (t & Ha & Hs) _ IH]; [done|]. apply IH. destruct (turn_safe total w t _ I Ha Hs) as [[(w2 & [= <-] & I2) _]|[[=] _]]. done.
Qed.

(** ** The beginning *)
Lemma atoi_int s z : atoi s = Ok z → - 2 ^ 31 ≤ z < 2 ^ 31.
Proof.
  unfold atoi. destruct (atoi_space s) as [[|c s']| | |]; try done. cbn. destruct (if c =? 45 then _ else _) as [neg l]. destruct (atoi_digits 0 l); try done. cbn.
  intros [= <-]. apply i32_range.
Qed.

Lemma catmouse_start nargs args mem w :
  catmouse nargs args mem = Ok (inr w) → Z.of_nat (cats_left w + mice_left w) < 2 ^ 31 →
  inv (cats_left w + mice_left w) w.
Proof.
  unfold catmouse. destruct (negb (nargs =? 5)); [done|].
  destruct (args !! 1%nat) as [a1|]; [|done]. cbn [of_option mbind outcome_bind]. destruct (atoi a1) as [nb| | |] eqn:E1; try done. cbn [mbind outcome_bind]. apply atoi_int in E1.
  destruct (Z.leb_spec nb 0); [done|]. destruct (args !! 2%nat) as [a2|]; [|done]. cbn [of_option mbind outcome_bind]. destruct (atoi a2) as [nc| | |] eqn:E2; try done.
  cbn [mbind outcome_bind]. apply atoi_int in E2. destruct (Z.ltb_spec nc 0); [done|]. destruct (args !! 3%nat) as [a3|]; [|done]. cbn [of_option mbind outcome_bind].
  destruct (atoi a3) as [nm| | |] eqn:E3; try done. cbn [mbind outcome_bind]. apply atoi_int in E3. destruct (Z.ltb_spec nm 0); [done|].
  destruct (args !! 4%nat) as [a4|]; [|done]. cbn [of_option mbind outcome_bind]. destruct (atoi a4) as [nl| | |]; try done. cbn [mbind outcome_bind].
  destruct (Z.leb_spec nl 0); [done|]. destruct (snd mem); [|done]. cbn [negb]. unfold initialize_bowls. rewrite u32_small, (proj2 (Z.eqb_neq nb 0)) by lia.
  destruct (fst (fst mem)); [|done]. cbn [negb]. destruct (snd (fst mem)); [|done]. cbn [negb mbind outcome_bind]. intros [= <-] Hlt. cbn [cats_left mice_left] in Hlt.
  constructor; unfold ids; cbn [sim_of threads CatMouseWait cats_left mice_left waits_left eaters].
  - assert (∀ g, g ≠ free_bowl → occurs g (replicate (Z.to_nat nb) free_bowl) = 0) as Ho.
    { intros g Hg. pose proof (occurs_bound g (replicate (Z.to_nat nb) free_bowl)). destruct (decide (0 < occurs g (replicate (Z.to_nat nb) free_bowl))) as [Hp|]; [|lia].
      apply occurs_some in Hp as (k & [-> _]%lookup_replicate). done. }
    constructor; cbn [bowls num_bowls eating_cats_count eating_mice_count].
    + rewrite length_replicate, i32_small by lia. lia.
    + apply i32_range.
    + intros a b. split; [by intros Hx%not_elem_of_nil|]. intros [[Hx _]%lookup_replicate _]. by destruct (glyph_not_free a).
    + apply Forall_replicate. by left.
    + constructor.
    + symmetry. by apply Ho.
    + symmetry. by apply Ho.
    + by left.
  - cbn. lia.
  - done.
  - cbn. lia.
  - cbn. rewrite i32_small by lia. lia.
  - rewrite i32_small by lia. lia.
  - cbn. rewrite i32_small by lia. lia.
Qed.

(** ** The end *)
Definition weight (p : pc) : nat :=
  match p with
  | Loop n => 7 * n + 1
  | Enter n _ => 7 * n + 7
  | Start n _ => 7 * n + 6
  | Started n _ => 7 * n + 5
  | Eating n _ => 7 * n + 4
  | Finish n _ => 7 * n + 3
  | Finished n _ => 7 * n + 2
  | Done => 0
  end.

(** No run is longer. *)
Definition bound (w : world) : nat :=
  sum_list_with (fun t => weight (snd t)) (threads w) + (cats_left w + mice_left w) * (weight (Loop (NumLoops w)) + 1) + waits_left w.

Lemma sum_moves (f : animal * pc → nat) l i x y : l !! i = Some x → (sum_list_with f (<[i := y]> l) + f x = sum_list_with f l + f y)%nat.
Proof.
  intros Hi. rewrite insert_take_drop by (by eapply lookup_lt_Some). rewrite <- (take_drop_middle l i x Hi) at 3. rewrite !sum_list_with_app. cbn. lia.
Qed.

(** A step of a thread changes its place, and nothing that [bound] counts. *)
Lemma thread_moves bowl i w w' :
  thread_step bowl i w = Some (Ok w') →
  ∃ a p p', threads w !! i = Some (a, p) ∧ (weight p' < weight p)%nat ∧ threads w' = <[i := (a, p')]> (threads w) ∧
    cats_left w' = cats_left w ∧ mice_left w' = mice_left w ∧ waits_left w' = waits_left w ∧ NumLoops w' = NumLoops w.
Proof.
  unfold thread_step. destruct (threads w !! i) as [[a p]|] eqn:Hi; [|done]. intros Hs. exists a, p.
  assert (∀ m w1, in_sim m w = Ok w1 → ∃ s, w1 = set_sim s w) as Hsim by (intros m w1; unfold in_sim; destruct (m _) as [[]| | |]; try done; intros [= <-]; by eexists).
  destruct p as [[|n]|n b|n b|n b|n b|n b|n b|]; cbn [weight].
  - unfold V_wait in Hs. destruct (0 <? _); [|done]. injection Hs as <-. exists Done. split_and!; try done. cbn. lia.
  - destruct (in_sim (check_bowl bowl) w) as [w1| | |] eqn:E; try done. injection Hs as <-. apply Hsim in E as [s ->]. exists (Enter n bowl). split_and!; try done. cbn [weight]. lia.
  - unfold P_mutex in Hs. destruct (mutex _ =? 0); [done|]. injection Hs as <-. exists (Start n b). split_and!; try done. cbn [weight]. lia.
  - destruct (in_sim (start a b) w) as [w1| | |] eqn:E; try done. injection Hs as <-. apply Hsim in E as [s ->]. exists (Started n b). split_and!; try done. cbn [weight]. lia.
  - unfold V_mutex in Hs. destruct (0 <? _); [|done]. injection Hs as <-. exists (Eating n b). split_and!; try done. cbn [weight]. lia.
  - unfold P_mutex in Hs. destruct (mutex _ =? 0); [done|]. injection Hs as <-. exists (Finish n b). split_and!; try done. cbn [weight]. lia.
  - destruct (in_sim (finish a b) w) as [w1| | |] eqn:E; try done. injection Hs as <-. apply Hsim in E as [s ->]. exists (Finished n b). split_and!; try done. cbn [weight]. lia.
  - unfold V_mutex in Hs. destruct (0 <? _); [|done]. injection Hs as <-. exists (Loop n). split_and!; try done. cbn [weight]. lia.
  - done.
Qed.

Lemma step_bound w w' : step w w' → (bound w' < bound w)%nat.
Proof.
  intros ([forked|i bowl] & _ & Hs); cbn [do_turn] in Hs.
  - unfold main_step in Hs. unfold bound. destruct (cats_left w) as [|c] eqn:Ec; [destruct (mice_left w) as [|m] eqn:Em; [destruct (waits_left w) as [|n] eqn:En; [done|]|]|].
    + destruct (_ =? 0); [done|]. injection Hs as <-. cbn. lia.
    + destruct forked; [|done]. injection Hs as <-. cbn [set_main set_threads threads cats_left mice_left waits_left NumLoops]. rewrite sum_list_with_app. cbn. lia.
    + destruct forked; [|done]. injection Hs as <-. cbn [set_main set_threads threads cats_left mice_left waits_left NumLoops]. rewrite sum_list_with_app. cbn. lia.
  - destruct (thread_moves _ _ _ _ Hs) as (a & p & p' & Hi & Hw & Et & E1 & E2 & E3 & E4). unfold bound. rewrite Et, E1, E2, E3, E4.
    pose proof (sum_moves (fun t => weight (snd t)) _ _ _ (a, p') Hi) as Hsum. cbn [snd] in Hsum. lia.
Qed.

(** Nobody can move. *)
Definition stuck (w : world) : Prop := ∀ t, allowed w t → do_turn t w = None.

Lemma holder l : length (omap holds l) ≠ 0%nat → ∃ i t, l !! i = Some t ∧ holds t = Some tt.
Proof.
  destruct (omap holds l) as [|u r] eqn:E; [done|]. intros _. assert (u ∈ omap holds l) as Hin by (rewrite E; left). apply list_elem_of_omap in Hin as (t & Ht & Hh).
  apply list_elem_of_lookup in Ht as [i Hi]. exists i, t. by destruct u.
Qed.

Lemma all_done l : Forall (fun t => snd t = Done) l → length (omap is_done l) = length l.
Proof. induction 1 as [|[a p] l Hp _ IH]; [done|]. cbn in Hp. subst. cbn. lia. Qed.

Lemma stuck_done total w : inv total w → stuck w → Forall (fun t => snd t = Done) (threads w).
Proof.
  intros I Hst. pose proof (iv_some _ _ I) as Hn. apply list.Forall_forall. intros [a p] [i Hi]%list_elem_of_lookup. cbn.
  assert (∀ j t, threads w !! j = Some t → holds t = None) as Hnone.
  { intros j [a' p'] Hj. destruct (holds (a', p')) eqn:Hh; [|done]. exfalso. specialize (Hst (Thread j 1) ltac:(cbn; lia)). cbn in Hst. unfold thread_step in Hst. rewrite Hj in Hst.
    destruct p' as [[|]| | | | | | |]; done. }
  assert (mutex (sim_of w) = 1) as Em.
  { pose proof (iv_mutex _ _ I) as [Hm _]. destruct (decide (length (omap holds (threads w)) = 0%nat)) as [Hz|Hz]; [lia|]. apply holder in Hz as (j & t & Hj & Ht). by rewrite (Hnone j t Hj) in Ht. }
  specialize (Hst (Thread i 1) ltac:(cbn; lia)). cbn in Hst. unfold thread_step, P_mutex in Hst. rewrite Hi, Em in Hst. destruct p as [[|]| | | | | | |]; done.
Qed.

(** The rules: two animals that eat are of the same kind and at different bowls. *)
Definition rules (w : world) : Prop :=
  ∀ i j ti tj a b a' b', threads w !! i = Some ti → threads w !! j = Some tj → i ≠ j → eats ti = Some (a, b) → eats tj = Some (a', b') → a = a' ∧ b ≠ b'.

Lemma inv_rules total w : inv total w → rules w.
Proof.
  intros I i j ti tj a b a' b' Hi Hj Hij Hei Hej. pose proof (iv_table _ _ I) as T. destruct (omap_moves eats _ _ _ Hi) as (R & H1 & H2).
  assert ((a', b') ∈ R) as Hin.
  { assert ((a', b') ∈ omap eats (<[i := (a, Done)]> (threads w))) as Hx; [|by rewrite (H2 (a, Done)) in Hx].
    apply list_elem_of_omap. exists tj. split; [|done]. apply list_elem_of_lookup. exists j. by rewrite list_lookup_insert_ne by done. }
  unfold eaters in T. pose proof (tb_once _ _ T) as Hnd. rewrite H1, Hei in Hnd. cbn in Hnd. apply NoDup_cons in Hnd as [Hni _]. split.
  - assert (∀ x, (∃ b, (x, b) ∈ omap eats (threads w)) → 0 < occurs (glyph x) (bowls (sim_of w))) as Hocc by (intros x; by apply (table_eater _ _ T)).
    pose proof (Hocc a ltac:(exists b; rewrite H1, Hei; left)). pose proof (Hocc a' ltac:(exists b'; rewrite H1, Hei; by right)).
    pose proof (tb_species _ _ T) as Hsp. rewrite (tb_cats _ _ T), (tb_mice _ _ T) in Hsp. destruct a, a'; cbn [glyph] in *; (done || lia).
  - intros ->. apply Hni. apply list_elem_of_fmap. by exists (a', b').
Qed.

Lemma bowls_free s e : table s e → e = [] → Forall (fun g => g = free_bowl) (bowls s).
Proof.
  intros T ->. apply list.Forall_forall. intros g Hg. pose proof (tb_glyphs _ _ T) as Hf. rewrite list.Forall_forall in Hf.
  assert (∀ a, g ≠ glyph a) as Hno.
  { intros a ->. apply list_elem_of_lookup in Hg as [k Hk]. assert (0 < occurs (glyph a) (bowls s)) as Hp by (by eapply occurs_pos).
    apply (table_eater _ _ T) in Hp as (b & Hb). by apply not_elem_of_nil in Hb. }
  destruct (Hf g Hg) as [|[Hc|Hm]]; [done|by destruct (Hno Cat)|by destruct (Hno Mouse)].
Qed.

Section runs.
Context (nargs : Z) (args : list (list Z)) (mem : bool * bool * bool) (w0 : world).
Context (Hstart : catmouse nargs args mem = Ok (inr w0)) (Hids : Z.of_nat (cats_left w0 + mice_left w0) < 2 ^ 31).

(** C30: In whatever order the threads run, the rules are kept in every state they reach, and a turn stops the kernel exactly when it would
    break a rule or when a thread cannot be made for an animal; every other turn goes on. *)
Theorem catmouse_rules w :
  rtc step w0 w → rules w ∧ ∀ t o, allowed w t → do_turn t w = Some o → (o = Panic ↔ breaks w t ∨ fork_fails w t) ∧ (o = Panic ∨ ∃ w', o = Ok w').
Proof.
  intros Hr. pose proof (steps_inv _ _ _ (catmouse_start _ _ _ _ Hstart Hids) Hr) as I. split; [by eapply inv_rules|]. intros t o Ha Hs.
  destruct (turn_safe _ _ _ _ I Ha Hs) as [[(w' & -> & _) Hb]|[-> Hb]]; [split; [done|right; by exists w']|split; [done|by left]].
Qed.

(** C31: Every run is finite, and where it stops without a panic the simulation is over: every animal has finished, no bowl is taken, and
    [catmouse] returns. *)
Theorem catmouse_ends n w :
  nsteps step n w0 w →
  (n ≤ bound w0)%nat ∧
  (stuck w → Forall (fun t => snd t = Done) (threads w) ∧ length (threads w) = (cats_left w0 + mice_left w0)%nat ∧ waits_left w = 0%nat ∧
     Forall (fun g => g = free_bowl) (bowls (sim_of w))).
Proof.
  intros Hr. split.
  { clear -Hr. induction Hr as [|n w0 w1 w Hs _ IH]; [lia|]. pose proof (step_bound _ _ Hs). lia. }
  intros Hst. pose proof (steps_inv _ _ _ (catmouse_start _ _ _ _ Hstart Hids) (rtc_nsteps_2 _ _ _ Hr)) as I.
  pose proof (stuck_done _ _ I Hst) as Hd. pose proof (Hst (Main true) ltac:(done)) as Hm. cbn [do_turn] in Hm. unfold main_step in Hm.
  pose proof (iv_ids _ _ I) as [Hi _]. pose proof (iv_wait _ _ I) as [Hw _]. rewrite (all_done _ Hd) in Hw. unfold ids in Hi.
  destruct (cats_left w) eqn:Ec; [|done]. destruct (mice_left w) eqn:Em; [|done]. destruct (waits_left w) as [|k] eqn:Ew; [|destruct (Z.eqb_spec (CatMouseWait w) 0); [lia|done]].
  split_and!; try done. eapply bowls_free; [apply I|]. clear -Hd. induction Hd as [|[a p] l Hp _ IH]; [done|]. cbn in Hp. subst. exact IH.
Qed.
End runs.

(** ** A run *)
Definition num (d : Z) : list Z := [48 + d; 0].

(** One bowl, one cat and one mouse, one round: the mouse comes while the cat is eating. *)
Definition turns : list turn :=
  [Main true; Main true; Thread 0 1; Thread 0 1; Thread 0 1; Thread 0 1; Thread 1 1; Thread 1 1].

Fixpoint run (l : list turn) (w : world) : option world :=
  match l with
  | [] => Some w
  | t :: l' => match do_turn t w with Some (Ok w') => run l' w' | _ => None end
  end.

Lemma run_steps l w w' : Forall (fun t => match t with Main _ => True | Thread _ b => b = 1 end) l → inv 2 w → run l w = Some w' → nsteps step (length l) w w'.
Proof.
  revert w. induction l as [|t l IH]; intros w Ha I Hr; cbn in *; [injection Hr as <-; constructor|]. apply Forall_cons in Ha as [Ht Ha].
  assert (allowed w t) as Hal by (pose proof (iv_some _ _ I); destruct t; cbn; [done|lia]).
  destruct (do_turn t w) as [[w1| | |]|] eqn:E; try done. econstructor; [by exists t|]. apply IH; try done.
  by destruct (turn_safe _ _ _ _ I Hal E) as [[(w2 & [= <-] & I2) _]|[[=] _]].
Qed.

Definition world0 : world := mkw (mksim [45] 0 0 1 1) [] 0 1 1 2 1.

Lemma world0_start : catmouse 5 [[]; num 1; num 1; num 1; num 1] (true, true, true) = Ok (inr world0).
Proof. by vm_compute. Qed.

Definition world8 : world :=
  mkw (mksim [99] 1 0 1 0) [(Cat, Eating 0 1); (Mouse, Start 0 1)] 0 0 0 2 1.

Lemma world8_run : run turns world0 = Some world8.
Proof. by vm_compute. Qed.

Lemma world8_reached : nsteps step 8 world0 world8.
Proof.
  apply (run_steps turns); [by repeat constructor| |apply world8_run]. apply (catmouse_start _ _ _ _ world0_start). done.
Qed.

Lemma catmouse_rules_witness : rules world8 ∧ do_turn (Thread 1 1) world8 = Some Panic ∧ breaks world8 (Thread 1 1).
Proof.
  destruct (catmouse_rules 5 [[]; num 1; num 1; num 1; num 1] (true, true, true) world0 world0_start ltac:(done) world8 (rtc_nsteps_2 _ _ _ world8_reached)) as [Hru Ht].
  assert (do_turn (Thread 1 1) world8 = Some Panic) as Hp by (by vm_compute). split; [exact Hru|]. split; [exact Hp|]. destruct (proj1 (proj1 (Ht (Thread 1 1) Panic ltac:(cbn; lia) Hp)) eq_refl) as [Hb|[[=] _]]. exact Hb.
Defined.

(** The mouse waits its turn: the longest run there is, to the end. *)
Definition polite : list turn := [Main true; Main true] ++ replicate 8 (Thread 0 1) ++ replicate 8 (Thread 1 1) ++ [Main true; Main true].
Definition world20 : world := mkw (mksim [45] 0 0 1 1) [(Cat, Done); (Mouse, Done)] 0 0 0 0 1.

Lemma world20_reached : nsteps step 20 world0 world20.
Proof.
  apply (run_steps polite); [by repeat constructor| |by vm_compute]. apply (catmouse_start _ _ _ _ world0_start). done.
Qed.

Lemma world20_stuck : stuck world20.
Proof. intros [|[|[|i]] b] _; done. Qed.

Lemma catmouse_ends_witness : (20 ≤ bound world0)%nat ∧ length (threads world20) = 2%nat ∧ Forall (fun g => g = free_bowl) (bowls (sim_of world20)).
Proof.
  destruct (catmouse_ends 5 [[]; num 1; num 1; num 1; num 1] (true, true, true) world0 world0_start ltac:(done) 20 world20 world20_reached) as [Hb He].
  split; [exact Hb|]. destruct (He world20_stuck) as (_ & Hl & _ & Hf). exact (conj Hl Hf).
Defined.

End Catmousespec.
