(* ===== verification/Pseudorand.v ===== *)
(** * The pseudo-random device (kern/dev/generic/pseudorand.c, random.c)

    The generator x := 16807 x mod (2^31 - 1), computed without 64-bit arithmetic, and the file random: that hands its bits to programs.
    The seed is the state; overflow of an [int32_t] is undefined.  The theorems: the computation is the multiplication modulo 2^31 - 1, in bounds, and
    from the seed that the driver sets all 2147483646 values come before the first one comes again. *)
From Stdlib Require Import ZArith.Zpow_facts.
From stdpp Require Import base list numbers.
From S2P Require Import Prelude Copyinout Uio.
Local Open Scope Z_scope.

Module Pseudorand.
Import Copyinout Uio.

Definition MULTIPLIER : Z := 16807.
Definition MODULUS : Z := 2147483647.
Definition K1 : Z := 127773.
Definition K2 : Z := 2836.

(** Signed arithmetic of 32 bits. *)
Definition int32 {S} (z : Z) : M S Z := lift (if (- 2 ^ 31 <=? z) && (z <? 2 ^ 31) then Ok z else Undef).

Definition pseudorand_random : M Z Z :=
  let* ps_seed := get in
  let hi := i32 (ps_seed / K1) in
  let lo := i32 (ps_seed `mod` K1) in
  let* a := int32 (MULTIPLIER * lo) in
  let* b := int32 (K2 * hi) in
  let* tmp := int32 (a - b) in
  let* tmp := (if tmp <=? 0 then int32 (tmp + MODULUS) else mret tmp) in
  let* _ := modify (fun _ => u32 tmp) in
  let* ps_seed := get in
  mret (u32 (ps_seed - 1)).

Definition pseudorand_randmax : Z := MODULUS - 2.

(** [None] is NULL; [mem] is whether kmalloc succeeds. *)
Definition pseudoattach_pseudorand (mem : bool) : option Z := if mem then Some 305824 else None.

(** The three bytes handed out for a value. *)
Definition inner_bytes (val : Z) : list Z :=
  [u8 (Z.shiftr (Z.land val 4080) 4); u8 (Z.shiftr (Z.land val 1044480) 12); u8 (Z.shiftr (Z.land val 267386880) 20)].

Definition on_seed {A} (m : M Z A) : M (Z * ustate) A := zoom fst (fun s x => (s, x.2)) m.
Definition on_user {A} (m : M ustate A) : M (Z * ustate) A := zoom snd (fun u x => (x.1, u)) m.

Fixpoint pseudorand_read_loop (fuel : nat) (u : uio) : M (Z * ustate) (Z * uio) :=
  if uio_resid u >? 0 then
    match fuel with
    | O => lift Spin
    | S fuel' =>
        let* val := on_seed pseudorand_random in
        let* '(result, _, u) := on_user (uiomove (inner_bytes val) 3 u) in
        if negb (result =? 0) then mret (result, u) else pseudorand_read_loop fuel' u
    end
  else mret (0, u).

(** Each round moves a byte at least. *)
Definition pseudorand_read (u : uio) : M (Z * ustate) (Z * uio) := pseudorand_read_loop (Z.to_nat (uio_resid u)) u.

(** random.c, with this generator below. *)
Definition randopen (openflags : Z) : Z := if negb (openflags =? 0) then EIO else 0.
Definition randio (u : uio) : M (Z * ustate) (Z * uio) :=
  if negb (bool_decide (uio_rw u = UIO_READ)) then mret (EIO, u) else pseudorand_read u.
Definition randioctl : Z := EIOCTL.

(** [the_random] is whether a device is configured. *)
Definition random (the_random : bool) : M Z Z := if negb the_random then lift Panic else pseudorand_random.
Definition randmax (the_random : bool) : M Z Z := if negb the_random then lift Panic else mret pseudorand_randmax.

(** ** The generator *)

(** Inverses of the multiplier and of the first seed. *)
Lemma multiplier_inverse : (1407677000 * MULTIPLIER) `mod` MODULUS = 1.
Proof. reflexivity. Qed.

Lemma times_nonzero x : 1 ≤ x < MODULUS → (MULTIPLIER * x) `mod` MODULUS ≠ 0.
Proof.
  intros Hx Hz. assert ((1407677000 * (MULTIPLIER * x)) `mod` MODULUS = x) as Hinv.
  { rewrite Z.mul_assoc, <- Z.mul_mod_idemp_l, multiplier_inverse, Z.mul_1_l by done. by apply Z.mod_small; lia. }
  rewrite <- Z.mul_mod_idemp_r, Hz, Z.mul_0_r in Hinv by done. change (0 `mod` MODULUS) with 0 in Hinv. lia.
Qed.

Lemma int32_run {S} (z : Z) (s : S) : - 2 ^ 31 ≤ z < 2 ^ 31 → int32 z s = Ok (z, s).
Proof. intros Hz. unfold int32. by rewrite (proj2 (Z.leb_le _ _)), (proj2 (Z.ltb_lt _ _)) by lia. Qed.

(** One step is the multiplication, and nothing overflows. *)
Lemma random_run x :
  1 ≤ x < MODULUS →
  pseudorand_random x = Ok ((MULTIPLIER * x) `mod` MODULUS - 1, (MULTIPLIER * x) `mod` MODULUS) ∧ 1 ≤ (MULTIPLIER * x) `mod` MODULUS < MODULUS.
Proof.
  intros Hx. pose proof (times_nonzero x Hx) as Hnz. pose proof (Z.mod_pos_bound (MULTIPLIER * x) MODULUS ltac:(done)) as Hmb. split; [|lia].
  pose proof (Z.div_mod x K1 ltac:(done)) as Hdm. pose proof (Z.mod_pos_bound x K1 ltac:(done)) as Hlo. set (hi := x / K1) in *. set (lo := x `mod` K1) in *.
  assert (0 ≤ hi ≤ MULTIPLIER) as Hhi.
  { split; [apply Z.div_pos; lia|]. unfold hi. apply Z.lt_succ_r, Z.div_lt_upper_bound; [done|]. unfold K1, MULTIPLIER, MODULUS in *. lia. }
  unfold K1, K2, MULTIPLIER, MODULUS in *. unfold pseudorand_random, K1, K2, MULTIPLIER, MODULUS. erewrite bind_ok by reflexivity. cbv zeta. fold K1. unfold K1. fold hi lo.
  rewrite (i32_small hi), (i32_small lo) by lia. rewrite (bind_ok _ _ _ _ _ (int32_run (16807 * lo) x ltac:(lia))), (bind_ok _ _ _ _ _ (int32_run (2836 * hi) x ltac:(lia))).
  rewrite (bind_ok _ _ _ _ _ (int32_run (16807 * lo - 2836 * hi) x ltac:(lia))). set (tmp := 16807 * lo - 2836 * hi).
  assert ((16807 * x) `mod` 2147483647 = if tmp <=? 0 then tmp + 2147483647 else tmp) as E.
  { replace (16807 * x) with (tmp + hi * 2147483647) by (unfold tmp; lia). rewrite Z.mod_add by done. symmetry. destruct (Z.leb_spec tmp 0) as [Hle|Hlt].
    - apply (Z.mod_unique _ _ (-1)); [|lia]. left. assert (tmp ≠ 0); [|unfold tmp in *; lia]. intros Hz. apply Hnz.
      replace (16807 * x) with (tmp + hi * 2147483647) by (unfold tmp; lia). by rewrite Hz, Z.mod_add.
    - symmetry. apply Z.mod_small. unfold tmp in *. lia. }
  rewrite E in *. clear E. destruct (tmp <=? 0).
  - rewrite (bind_ok _ _ _ _ _ (int32_run (tmp + 2147483647) x ltac:(lia))). erewrite bind_ok by reflexivity. erewrite bind_ok by reflexivity. by rewrite !u32_small by (rewrite ?u32_small; lia).
  - erewrite bind_ok by reflexivity. erewrite bind_ok by reflexivity. erewrite bind_ok by reflexivity. by rewrite !u32_small by (rewrite ?u32_small; lia).
Qed.

(** ** Its period *)
Definition PERIOD : Z := 2147483646.

Lemma coprime_small p e : 1 < p → forallb (fun n => Z.gcd n p =? 1) (seqZ 1 (p - 1)) = true → e `mod` p ≠ 0 → Z.coprime e p.
Proof.
  intros Hp Hall Hne. unfold Z.coprime. rewrite Z.gcd_comm, <- (Z.gcd_mod e p) by lia. pose proof (Z.mod_pos_bound e p ltac:(lia)).
  rewrite forallb_forall in Hall. apply Z.eqb_eq, Hall. rewrite <- list_elem_of_In. apply elem_of_seqZ. lia.
Qed.

(** A divisor of the period other than 1 has one of its prime factors. *)
Lemma period_factor e : 1 < e → (e | PERIOD) → ∃ p, p ∈ [2; 3; 7; 11; 31; 151; 331] ∧ (p | e).
Proof.
  intros He Hd. destruct (decide (Exists (fun p => e `mod` p = 0) [2; 3; 7; 11; 31; 151; 331])) as [Hex|Hno].
  { apply list.Exists_exists in Hex as (p & Hp & Hz). exists p. split; [done|]. apply Z.mod_divide; [|done]. intros ->. rewrite !elem_of_cons, elem_of_nil in Hp. lia. }
  exfalso. apply not_Exists_Forall in Hno; [|apply _]. rewrite !list.Forall_cons in Hno. destruct Hno as (H2 & H3 & H7 & H11 & H31 & H151 & H331 & _).
  assert (Z.coprime e PERIOD) as Hr.
  { change PERIOD with (2 * (3 * (3 * (7 * (11 * (31 * (151 * 331))))))).
    repeat (apply Z.coprime_mul_r; [by apply coprime_small|]). by apply coprime_small. }
  assert ((e | Z.gcd e PERIOD)) as H1 by (apply Z.gcd_greatest; [apply Z.divide_refl|done]). rewrite Hr in H1. apply Z.divide_1_r in H1. lia.
Qed.

Abbreviation power n := (MULTIPLIER ^ n `mod` MODULUS).

Lemma power_mul a b : 0 ≤ a → 0 ≤ b → power a = 1 → power (a * b) = 1.
Proof. intros Ha Hb E. rewrite Z.pow_mul_r, Zpower_mod, E, Z.pow_1_l by done. done. Qed.

Lemma power_add a b : 0 ≤ a → 0 ≤ b → power (a + b) = (power a * power b) `mod` MODULUS.
Proof. intros Ha Hb. by rewrite Z.pow_add_r, Z.mul_mod by done. Qed.

(** The powers of the multiplier come back to 1 after multiples of the period only. *)
Lemma power_order d : 0 < d → power d = 1 → (PERIOD | d).
Proof.
  intros Hd E. set (D := Z.gcd d PERIOD). assert (0 < D) as HD by (pose proof (Z.gcd_nonneg d PERIOD); assert (D ≠ 0); [|lia]; intros Hz; apply Z.gcd_eq_0_l in Hz; lia).
  pose proof (Z.gcd_divide_r d PERIOD) as [k Hk]. fold D in Hk. assert (0 < k) as Hkp by (unfold PERIOD in *; nia). destruct (decide (k = 1)) as [->|Hk1].
  { rewrite Hk, Z.mul_1_l. apply Z.gcd_divide_l. }
  exfalso. assert (power D = 1) as ED.
  { destruct (Z.gcd_bezout d PERIOD D eq_refl) as (a & b & Hab). set (m := Z.abs a + Z.abs b).
    assert (d * (a + m * PERIOD) = D + PERIOD * (m * d - b)) as Hm by lia. assert (0 ≤ m) by (unfold m; lia).
    assert (0 ≤ a + m * PERIOD) by (unfold m, PERIOD in *; nia). assert (0 ≤ m * d - b) by (unfold m in *; nia).
    assert (power (d * (a + m * PERIOD)) = 1) as E1 by (apply power_mul; (done || lia)). rewrite Hm, power_add in E1 by (unfold PERIOD in *; nia).
    rewrite (power_mul PERIOD) in E1; [|done|done|by rewrite <- Zpow_mod_correct; vm_compute]. rewrite Z.mul_1_r, Z.mod_mod in E1 by done. exact E1. }
  destruct (period_factor k) as (p & Hp & [c Hc]); [lia|by exists D; lia|].
  assert (PERIOD / p = D * c) as Ep by (rewrite Hk, Hc; symmetry; apply Z.div_unique_exact; rewrite !elem_of_cons, elem_of_nil in Hp; lia).
  assert (power (PERIOD / p) = 1) as E1 by (rewrite Ep; apply power_mul; [lia| |done]; rewrite !elem_of_cons, elem_of_nil in Hp; nia).
  rewrite <- Zpow_mod_correct in E1 by done. rewrite !elem_of_cons, elem_of_nil in Hp.
  destruct Hp as [->|[->|[->|[->|[->|[->|[->|[]]]]]]]]; by vm_compute in E1.
Qed.

Definition SEED : Z := 305824.

(** The seed after [n] steps, by the reference. *)
Definition seed_after (n : Z) : Z := (SEED * MULTIPLIER ^ n) `mod` MODULUS.

Lemma seed_next n : 0 ≤ n → seed_after (n + 1) = (MULTIPLIER * seed_after n) `mod` MODULUS.
Proof. intros Hn. unfold seed_after. rewrite Z.mul_mod_idemp_r by done. f_equal. rewrite Z.pow_add_r, Z.pow_1_r by lia. lia. Qed.

Lemma seed_range n : (1 ≤ seed_after (Z.of_nat n) < MODULUS).
Proof.
  induction n as [|n IH]; [done|]. rewrite Nat2Z.inj_succ, <- Z.add_1_r, seed_next by lia. by apply random_run.
Qed.

(** Two seeds are the same only a whole period apart. *)
Lemma seed_distinct i j : 0 ≤ i < j → seed_after i = seed_after j → (PERIOD | j - i).
Proof.
  intros Hij E. apply power_order; [lia|]. assert (Z.coprime (SEED * MULTIPLIER ^ i) MODULUS) as Hc.
  { apply Z.coprime_mul_l; [done|]. assert (0 ≤ i) as Hi by lia. revert i Hi Hij E. intros i Hi _ _. revert i Hi. apply natlike_ind; [done|].
    intros i Hi IH. rewrite Z.pow_succ_r by done. by apply Z.coprime_mul_l. }
  assert (((MULTIPLIER ^ (j - i) - 1) * (SEED * MULTIPLIER ^ i)) `mod` MODULUS = 0) as Hz.
  { replace ((MULTIPLIER ^ (j - i) - 1) * (SEED * MULTIPLIER ^ i)) with (SEED * MULTIPLIER ^ j - SEED * MULTIPLIER ^ i).
    - rewrite Zminus_mod. unfold seed_after in E. by rewrite E, Z.sub_diag.
    - replace (MULTIPLIER ^ j) with (MULTIPLIER ^ (j - i) * MULTIPLIER ^ i) by (rewrite <- Z.pow_add_r by lia; f_equal; lia). lia. }
  apply Z.cong_mul_cancel_r_coprime in Hz; [|done|done]. replace (MULTIPLIER ^ (j - i)) with (MULTIPLIER ^ (j - i) - 1 + 1) by lia.
  rewrite <- Z.add_mod_idemp_l, Hz by done. done.
Qed.

(** [n] values in a row. *)
Fixpoint draws (n : nat) : M Z (list Z) :=
  match n with
  | O => mret []
  | S n' =>
      let* v := pseudorand_random in
      let* l := draws n' in
      mret (v :: l)
  end.

Lemma draws_run n k :
  draws n (seed_after (Z.of_nat k)) = Ok ((fun i => seed_after (Z.of_nat (k + S i)) - 1) <$> seq 0 n, seed_after (Z.of_nat (k + n))).
Proof.
  revert k. induction n as [|n IH]; intros k; cbn [draws]; [by rewrite Nat.add_0_r|]. destruct (random_run _ (seed_range k)) as [E _].
  rewrite <- seed_next in E by lia. replace (Z.of_nat k + 1) with (Z.of_nat (S k)) in E by lia. rewrite (bind_ok _ _ _ _ _ E), (bind_ok _ _ _ _ _ (IH (S k))).
  cbn [seq fmap list_fmap]. unfold mret, M_ret. f_equal. f_equal; [|f_equal; f_equal; lia]. f_equal; [f_equal; f_equal; lia|].
  rewrite <- fmap_S_seq, <- list_fmap_compose. apply list_fmap_ext. intros i x _. cbn. do 3 f_equal. lia.
Qed.

(** The generator yields all the values from 0 to [pseudorand_randmax], each once, before any comes again: a whole period of 2147483646 values, with
    no overflow on the way, after which it starts over. *)
Theorem pseudorand_period n seed :
  pseudoattach_pseudorand true = Some seed → Z.of_nat n ≤ PERIOD →
  ∃ l seed', draws n seed = Ok (l, seed') ∧ length l = n ∧ NoDup l ∧ Forall (fun v => 0 ≤ v ≤ pseudorand_randmax) l ∧ (Z.of_nat n = PERIOD → seed' = seed).
Proof.
  intros [= <-] Hn. pose proof (draws_run n 0) as E. change (seed_after (Z.of_nat 0)) with 305824 in E. eexists _, _. split; [exact E|]. split_and!.
  - by rewrite length_fmap, length_seq.
  - apply NoDup_alt. intros i j v Hi Hj. rewrite list_lookup_fmap in Hi, Hj. destruct (seq 0 n !! i) as [x|] eqn:Ex; [|done]. destruct (seq 0 n !! j) as [y|] eqn:Ey; [|done].
    apply lookup_seq in Ex as [-> Hx]. apply lookup_seq in Ey as [-> Hy]. injection Hi as Hi. injection Hj as Hj.
    assert (seed_after (Z.of_nat (S i)) = seed_after (Z.of_nat (S j))) as Ev by lia.
    destruct (lt_eq_lt_dec i j) as [[Hlt| ->]|Hlt]; [|done|]; exfalso.
    + destruct (seed_distinct (Z.of_nat (S i)) (Z.of_nat (S j))) as [c Hc]; [lia|done|]. unfold PERIOD in *. nia.
    + destruct (seed_distinct (Z.of_nat (S j)) (Z.of_nat (S i))) as [c Hc]; [lia|done|]. unfold PERIOD in *. nia.
  - apply Forall_fmap, list.Forall_forall. intros i _. cbv beta delta [compose]. pose proof (seed_range (0 + S i)) as Hr. unfold pseudorand_randmax, MODULUS in *. lia.
  - intros Hp. cbn [Nat.add]. rewrite Hp. unfold seed_after. rewrite <- Z.mul_mod_idemp_r, <- Zpow_mod_correct by done. by vm_compute.
Qed.

(** ** The file *)

Lemma inner_length v : length (inner_bytes v) = 3%nat.
Proof. done. Qed.

(** What the values from the [k]th on are made of. *)
Definition stream (k n : nat) : list Z := concat ((fun i => inner_bytes (seed_after (Z.of_nat (k + S i)) - 1)) <$> seq 0 n).

Lemma stream_cons k n : stream k (S n) = inner_bytes (seed_after (Z.of_nat (S k)) - 1) ++ stream (S k) n.
Proof.
  unfold stream. cbn [seq fmap list_fmap concat]. rewrite Nat.add_1_r. f_equal. rewrite <- fmap_S_seq, <- list_fmap_compose. f_equal. apply list_fmap_ext.
  intros i x _. cbn. do 4 f_equal. lia.
Qed.

Lemma read_loop_run fuel u done rest us k :
  kuio u done rest → uio_rw u = UIO_READ → uio_resid u = Z.of_nat (length rest) → (length rest ≤ fuel)%nat →
  ∃ u' n, pseudorand_read_loop fuel u (seed_after (Z.of_nat k), us) = Ok ((0, u'), (seed_after (Z.of_nat (k + n)), us)) ∧
    kuio u' (done ++ take (length rest) (stream k n)) [] ∧ uio_resid u' = 0.
Proof.
  revert u done rest k. induction fuel as [|fuel IH]; intros u done rest k H Hrw Hr Hf; cbn [pseudorand_read_loop].
  { destruct rest; [|cbn in Hf; lia]. rewrite Hr. exists u, 0%nat. cbn. rewrite app_nil_r, Nat.add_0_r. done. }
  destruct (Z.gtb_spec (uio_resid u) 0) as [Hpos|Hz].
  2: { destruct rest; [|cbn in Hr; lia]. exists u, 0%nat. rewrite Nat.add_0_r. cbn. rewrite app_nil_r. done. }
  destruct (random_run _ (seed_range k)) as [E _]. rewrite <- seed_next in E by lia. replace (Z.of_nat k + 1) with (Z.of_nat (S k)) in E by lia.
  set (v := seed_after (Z.of_nat (S k)) - 1) in *. erewrite bind_ok; [|unfold on_seed, zoom; cbn [fst]; rewrite E; reflexivity]. cbn [snd].
  destruct (decide (3 ≤ uio_resid u)) as [H3|H3].
  - destruct (uiomove_kernel u done rest us (inner_bytes v) 3 H) as (u1 & E1 & K1 & _ & R1 & W1); [lia|done|]. rewrite Hrw in E1, K1. cbn [moved] in E1, K1.
    change (take (Z.to_nat 3) (inner_bytes v)) with (inner_bytes v) in *. erewrite bind_ok; [|unfold on_user, zoom; cbn [snd]; rewrite E1; reflexivity]. cbn [fst negb Z.eqb].
    destruct (IH u1 _ _ (S k) K1) as (u2 & n & E2 & K2 & R2); [congruence|rewrite length_drop; lia|rewrite length_drop; lia|].
    exists u2, (S n). replace (k + S n)%nat with (S k + n)%nat by lia. split; [exact E2|]. split; [|done]. rewrite stream_cons. fold v.
    rewrite <- app_assoc in K2. rewrite length_drop in K2. rewrite take_app_ge by (rewrite inner_length; lia). rewrite inner_length. exact K2.
  - destruct (uiomove_last u done rest us (inner_bytes v) 3 H Hrw Hr) as (u1 & p1 & E1 & K1 & R1 & W1); [lia|done|].
    erewrite bind_ok; [|unfold on_user, zoom; cbn [snd]; rewrite E1; reflexivity]. cbn [fst negb Z.eqb].
    exists u1, 1%nat. replace (k + 1)%nat with (S k) by lia. split_and!.
    + destruct fuel; cbn [pseudorand_read_loop]; by rewrite R1.
    + rewrite stream_cons. fold v. by rewrite take_app_le by (rewrite inner_length; lia).
    + done.
Qed.

(** A read of random: fills the whole buffer with the bits of the values that come next. *)
Theorem randio_fills u rest us k :
  kuio u [] rest → uio_rw u = UIO_READ → uio_resid u = Z.of_nat (length rest) →
  ∃ u' n, randio u (seed_after (Z.of_nat k), us) = Ok ((0, u'), (seed_after (Z.of_nat (k + n)), us)) ∧
    kuio_data u' = take (length rest) (stream k n) ∧ uio_resid u' = 0.
Proof.
  intros H Hrw Hr. unfold randio, pseudorand_read. rewrite bool_decide_true by done. cbn [negb].
  destruct (read_loop_run (Z.to_nat (uio_resid u)) u [] rest us k H Hrw Hr) as (u' & n & E & K & R); [lia|]. exists u', n. split; [exact E|]. split; [|done].
  unfold kuio_data. rewrite (ku_un _ _ _ K). by rewrite app_nil_r.
Qed.

Lemma pseudorand_period_witness : ∃ l seed', draws 1000 305824 = Ok (l, seed') ∧ NoDup l.
Proof.
  destruct (pseudorand_period 1000 305824 eq_refl ltac:(unfold PERIOD; lia)) as (l & seed' & E & _ & Hnd & _). exists l, seed'. exact (conj E Hnd).
Defined.

End Pseudorand.
